(* ===== verification/_CoqProject ===== *)
-Q . S2P
Prelude.v
MachineInt.v
TimeSpanCore.v
Text.v
TextScanner.v
TimeSpanText.v
Calendar.v
DateTime.v
FormatInfo.v
ExactParser.v
DateTimeText.v
DateTimeExact.v
DateTimeOffset.v
DateTimeOffsetText.v
DateOnly.v
TimeOnly.v
HashBase.v
Adler32.v
CrcCommon.v
Crc32.v
Crc64.v
BlockBuffer.v
XxHash32.v
XxHash64.v
HashClient.v
Guards.v
Monitor.v
Threading.v
SemaphoreSlim.v
CountdownEvent.v
Barrier.v
ReaderWriterLockSlim.v
Limbs.v
BigMag.v
BigDiv.v
BigInteger.v
BigText.v
BigBits.v
BigBytes.v
Base64Common.v
Base64.v
Base64Spec.v
Base64Encoder.v
Base64Decode.v
Base64Doors.v
Base64Url.v
Base64UrlDecode.v
Enumeration.v
LinkedList.v
LinkedListStore.v
LinkedListSpec.v
LinkedListRefinement.v
Decimal.v
DecimalArith.v
DecimalDivide.v
DecimalOrder.v
DecimalRound.v
DecimalText.v
Guid.v
GuidText.v
Utf8.v
Rune.v
Encoding.v
Encodings.v
EncodingText.v
EncodingUnits.v
Utf7.v
Utf7Bits.v
Utf7Spec.v
Transcoding.v
Stream.v
MemoryStream.v
BufferedStream.v
BufferedLaws.v
StreamClient.v
BinaryWriter.v
BinaryReader.v
BinaryValues.v
BinaryRoundtrip.v
BinaryText.v
