(* ===== verification/Prelude.v ===== *)
(** * Verification of the Sharp Runtime core

    Sharp Runtime ([src/modules/]) is a C++23 implementation of the .NET class
    library, one module per assembly area, each with [include/System/...] and
    [src/System/...].  This development models ten of its self-contained
    subsystems: the date and time values of the core module with their text
    conversion, the checksums of the io-hashing module, the synchronization
    primitives of the threading module that are built on one mutex and one
    condition variable, BigInteger of the numerics module, the Base64 codecs of
    the buffers module, LinkedList of the collections module, Guid and Decimal of
    the core module, the encodings and runes of the text module, and the streams of
    the io module with their binary reader and writer.  Paths below are relative to
    [src/modules/].

    ** The parts and how they interact

    A [TimeSpan] is a signed 64-bit count of 100 ns ticks.  A [DateTime] packs
    a tick count since 0001-01-01 and a kind into one 64-bit word; its
    arithmetic takes TimeSpans and its conversion between kinds asks a time
    zone for an offset.  A [DateTimeOffset] is a DateTime with an offset in
    minutes.  [DateOnly] and [TimeOnly] are the halves of a DateTime.  All of
    them print and parse: the ISO forms with the shared cursor of
    DateTimeTextScanner, custom formats with a scanner shared through
    InvariantExactDateTimeParser, which looks names and patterns up in a
    DateTimeFormatInfo.  The hashing classes derive from
    NonCryptographicHashAlgorithm, which adds stream and vector input and the
    checked output members to the virtual Append, Reset and GetCurrentHash of
    each algorithm.  SemaphoreSlim, CountdownEvent, Barrier and
    ReaderWriterLockSlim each keep plain fields under a mutex: a member is a
    critical section that may first sleep on the condition variable until a
    predicate of the fields holds, and may notify it.  A BigInteger is a sign
    and a vector of base-[10^9] limbs; its arithmetic works on the limbs, its
    bit operators and bytes on 16-bit words converted from them.  The two Base64
    classes encode and decode byte spans, between two buffers or in place.  A
    LinkedList is a chain of reference-counted nodes that lists, enumerators and
    the client's node handles share; an enumerator remembers the list's version.
    A Guid is sixteen bytes, a Decimal a 96-bit mantissa with a decimal scale and a
    sign.  A string is UTF-8: the six encodings read its
    scalars with one decoder, write and read bytes in their own form, and hand
    what they cannot convert to a fallback object; the rune enumerators walk a
    string with the same decoder.  A Stream is an object with fourteen virtual
    members; a MemoryStream owns its bytes, a BufferedStream keeps a buffer in front
    of another stream, and BinaryWriter and BinaryReader put values on any stream and
    take them off it.

    ** Files and sources

    - [Prelude]: outcomes ([res]: a value, a thrown exception with its
      arguments, or undefined behaviour), their sequencing, the shared tactics
      and the hint database [sharp].
    - [MachineInt]: [core/include/SharpRuntime/SharpRuntimeHelper.hpp], the
      fixed-width integers: conversions that wrap, unsigned arithmetic modulo
      [2^w], signed arithmetic that is undefined outside the range, and
      congruence modulo [2^w] as a setoid.
    - [TimeSpanCore], [TimeSpanText]: [core/src/System/TimeSpan.cpp] and
      [TimeSpan.hpp]: arithmetic; printing and parsing.
    - [Text]: [std::string], [std::to_string], padded stream output and the
      integer conversions of [std::sscanf], as far as the code uses them.
    - [TextScanner]: [core/include/System/detail/DateTimeTextScanner.hpp].
    - [Calendar]: no source; the proleptic Gregorian calendar by its defining
      sums, the reference of the two different calendar algorithms below.
    - [DateTime], [DateTimeText], [DateTimeExact]:
      [core/src/System/DateTime.cpp] and [DateTime.hpp]: the value and its
      arithmetic; printing, custom formats and ISO parsing; exact parsing with
      its style, weekday, 12-hour and zone rules.
    - [FormatInfo]: [core/include/System/Globalization/DateTimeFormatInfo.hpp].
    - [ExactParser]:
      [core/include/System/detail/InvariantExactDateTimeParser.hpp] and
      [Globalization/DateTimeStyles.hpp].
    - [DateOnly], [TimeOnly]: [core/src/System/DateOnly.cpp], [TimeOnly.cpp]
      and their headers.
    - [HashBase], [HashClient]:
      [io-hashing/.../HashingArgumentValidation], [HashingByteOrder.hpp] and
      [NonCryptographicHashAlgorithm]; the client file proves the base class
      against the interface.
    - [Adler32]: [io-hashing/src/System/IO/Hashing/Adler32.cpp].
    - [CrcCommon], [Crc32], [Crc64]: [Crc32.cpp], [Crc32ParameterSet.cpp] and
      the same at width 64; the code the two widths share is stated once over
      the width.
    - [BlockBuffer], [XxHash32], [XxHash64]: [XxHash32.cpp], [XxHash64.cpp];
      the buffered Append the two share is stated once over the block size.

    - [DateTimeOffset], [DateTimeOffsetText]:
      [core/src/System/DateTimeOffset.cpp] and its header: the value, its
      instants and conversions; printing, ISO and exact parsing.
    - [Guards]: the argument checks the exception classes offer as static
      members ([ThrowIfNegative] and the like) and their messages.
    - [Monitor]: no source; the execution model of a mutex with one condition
      variable: threads, steps, schedules, and what is proved of any program
      over it.  [Threading]: the timeouts and answers its clients share.
    - [SemaphoreSlim], [CountdownEvent], [Barrier], [ReaderWriterLockSlim]:
      [threading/include/System/Threading/] headers of those names.
    - [Limbs]: digit vectors in any base, and the loop that pops leading zeros.
      [BigMag], [BigDiv]: the magnitude helpers of
      [numerics/src/System/Numerics/BigInteger.cpp]; Algorithm D.
      [BigInteger]: the value, constructors, arithmetic, comparison.
      [BigText]: Parse, TryParse, ToString.  [BigBits]: binary words, bit
      operators, shifts.  [BigBytes]: the byte constructor and ToByteArray.
    - [Base64Common], [Base64], [Base64Url]: [buffers/.../Text/Base64.hpp] and
      [Base64Url.hpp]; [Base64Common] has the memory of one or two buffers and
      what the two encoders share.  [Base64Spec], [Base64Encoder]: the interface
      of the two and what is proved against it.  [Base64Decode], [Base64Doors]
      and [Base64UrlDecode]: each class meets it; its public overloads.
    - [Enumeration]: [collections/.../Collections/IEnumerator.hpp] and
      [detail/MutationCounter.hpp], the version an enumerator checks.  [LinkedList]: [collections/.../Generic/LinkedList.hpp]
      over an explicit store of nodes.  [LinkedListStore]: the store's
      invariant; [LinkedListSpec]: sequences of named nodes, the abstract
      contract; [LinkedListRefinement]: every program of operations meets it.
    - [Decimal]: [core/src/System/Decimal.cpp] and its header.  [DecimalArith]:
      what it denotes, alignment, sums and products; [DecimalDivide]: division;
      [DecimalOrder]: comparison and hash code; [DecimalRound]: rounding and
      conversions; [DecimalText]: Parse and ToString.
    - [Guid], [GuidText]: [core/src/System/Guid.cpp]: bytes, fields, order,
      creation; the five text forms.
    - [Utf8]: [core/include/System/detail/Utf8Scalar.hpp] and [Utf8Text.hpp].
      [Rune]: [text/include/System/Text/Rune.hpp], [RunePosition.hpp] and the
      rune enumerators.  [Encoding]: the base class, the fallbacks and their
      buffers, the range of a raw decode.  [Encodings]: UTF-8, ASCII, Latin-1,
      UTF-16, UTF-32.  [EncodingText], [EncodingUnits]: texts as scalars and
      stray bytes, and what each class does to them.  [Utf7], [Utf7Bits],
      [Utf7Spec]: UTF-7, its regrouping of bits, its reading.  [Transcoding]:
      the virtual members of any encoding, and the theorems.
    - [Stream]: [io/.../IO/Stream] and [SeekOrigin.hpp]: the virtual members as a
      class, the defaults, the monad of commands with its rules, and the promise of a
      seekable stream.  [MemoryStream]: [IO/MemoryStream].  [BufferedStream]:
      [IO/BufferedStream]; [BufferedLaws]: it keeps the promise over any stream that
      does.  [StreamClient]: what a client can tell.  [BinaryWriter],
      [BinaryReader]: the classes of those names; [BinaryValues]: the bytes of a value,
      written and read;
      [BinaryRoundtrip], [BinaryText]: the theorems on values and on characters.

    A definition has the name of the member it models; overloads carry a
    suffix ([of_ymdhmsm], [ToStringFormat], [TryParseExactMany]), operators are
    [op_lt] and the like, and property getters keep their [get] prefix.  A
    mutating member returns the new object; a member that can throw or can be
    undefined returns [res]; a Try member with an out parameter returns an
    option inside what it can throw.  A C string or a [std::string] is a list
    of bytes ([text]), a scanner's cursor is the text it has not consumed, a
    byte buffer is a list of [Z] in [0, 256), and a pointer that may be null
    is an option.

    ** What the theorems show

    - DateTime: the constructors accept exactly the calendar's dates and times
      and store the exact tick count; the accessors invert them on every
      well-formed word and never leave defined behaviour (the year estimate
      and the month search included); tick arithmetic is exact or throws;
      AddMonths and AddYears land on the right month with the clamped day; kind
      conversion saturates; packing is lossless; subtraction and addition are
      inverse.
    - DateTime text: the o, the ISO and the full-fraction custom format round
      trip; TryParse reads exactly its grammar and gives the instant the digits
      write; whatever TryParseExact accepts is a valid value, and it is never
      undefined and throws only for an illegal style.
    - DateTimeOffset: construction and arithmetic are exact or throw; the
      views agree on the instant; text round trips; exact parsing is safe.
    - DateOnly, TimeOnly: the Julian-day formulas are a bijection with the
      calendar's day numbers; arithmetic on every branch; the intervals of
      TimeOnly; splitting and joining a DateTime; their text.
    - TimeSpan: exact or throwing arithmetic; the components; the modular
      accumulation of the constructor; both printed forms read back; accepted
      text denotes its exact value; text after an embedded NUL is ignored.
    - Hashing: the blocked Adler-32 loop computes the checksum of RFC 1950; the
      table-driven CRC loops compute the bit-serial CRC for both reflections,
      every polynomial; any cut of a message into appends, from any state that
      has absorbed a prefix, gives the one-shot xxHash of the whole; the base
      class absorbs exactly what a stream delivers and its output members obey
      their length checks, for every algorithm that implements [HashContract].

    - Threading, in every interleaving of any number of threads: SemaphoreSlim
      keeps its count in range and accounts for every entry; CountdownEvent
      answers truly and, under a fair schedule, releases every waiter; a
      Barrier phase lets through exactly its participants, and refuses what its
      action calls from inside; the lock grants what the books of each thread's
      returned calls say, excludes writers and upgraders, reads beside a writer only
      after the downgrade the last theorem exhibits, and loses no wake-up.
    - BigInteger: canonical limbs refine [Z] under every operator; division is
      truncated division with its DivideByZeroException, by one limb or by
      Algorithm D, whose estimate ends within two adjustments and is at most
      one too large; the parser accepts exactly the signed decimal texts and
      reads every printed number back; the bit operators and shifts are those
      of infinite two's complement; bytes round trip and are the shortest.
    - Base64, Base64Url: one decoder call writes what the consumed characters
      denote and its status is true of the rest; decoder, decoder in place and
      validator agree with the grammar and the alphabet of RFC 4648 on every text;
      encoding, forwards
      and in place, and decoding are inverse; both work in blocks.
    - LinkedList: every program of list and node operations, with its
      exceptions, refines sequences; every reachable store is made of proper
      chains without a dangling pointer; a node the client holds outlives its
      list; an enumerator of a changed list throws.
    - Decimal: sums and products are less than five ninths of their last place away,
      exact when everything fits 96 bits at the larger scale, and overflow only when
      no Decimal is as large; a difference can lose digits it need not, as the theorem
      shows; division is rounded to nearest
      where it is right at all, and the theorem says where it is not; comparison is
      the order of values up to the precision of the larger; every rounding mode and
      every conversion is the one named; the parser reads exactly its grammar, and
      says which of the other texts overflow.
    - Guid: text, bytes and fields round trip in every form and byte order; the
      parsers accept exactly their grammars and never index outside the text.
    - Text: the decoder accepts exactly the encodings of scalars, and the two
      decoders of the core module agree; the rune enumerators tile any bytes;
      every encoding reads back what it wrote; decoding any range gives the text of
      the one reading its bytes have, or the exception with exactly the bytes first
      refused; encoding any bytes, well formed or not,
      writes what its scalars and stray bytes say; with throwing fallbacks UTF-8
      validates.
    - Streams: a buffered stream of any buffer size gives a client of covered requests
      (those an [int] can express, without a single byte past the end) the
      answers of the stream it wraps and hands over everything on Close, so buffers
      stack; on every seekable stream a BinaryReader reads back the values a
      BinaryWriter wrote, reports one the stream cuts short, and reads the code units
      of a UTF-8 text in chunks of any size, looking ahead without a trace.  Two
      lemmas show where single bytes and seeks leave the promise.

    ** Interfaces, parameters and hypotheses

    - [DateTime.ILocalTimeZone] is the time zone a kind conversion asks; the
      theorems hold for every offset it can answer.
    - [HashBase.HashAlgorithm] and [HashBase.Stream] are the virtual members;
      [HashBase.HashContract] is what an algorithm promises: a relation between
      its object, its configuration and the message absorbed, kept by Append,
      Clone and Reset and read by GetCurrentHash.  Each algorithm file has its
      instance.  [HashClient.delivers] describes a stream by its reads.
    - [Monitor.Program] is what a primitive gives the execution model: its
      members' guards, critical sections, wait predicates and notifications;
      [Announces] (every change that can enable a waiter notifies), [Preserved]
      (an invariant is kept by every step) and [Truthful] (an answer is right
      when it is given) are the classes the theorems about runs are proved
      against; each primitive has its instances.
    - [Base64Common.Memory] with [MemoryLaws] is the memory a decoder reads and
      writes, two buffers or one; [Base64Spec.Codec] is what the two alphabets
      promise: tables, the meaning of a text, the symbols of the last bytes.
    - [DateTimeOffset.ProcessZone] is the local offset of the process and
      [Barrier.PostPhaseAction] the caller's callback: calls on the barrier whose
      phase it ends, each chosen by what the last one gave, then an exception or none; a fair schedule is a hypothesis of the liveness theorem, stated on
      the schedule alone.
    - The [double] product of TimeOnly.AddHours and AddMinutes is a parameter
      (the tick count it is cast to); the other floating-point members are
      left out.
    - The sixteen bytes of platform entropy and the clock of Guid's factories are
      arguments.  A node handle of the client is a name in the store; the values
      of a LinkedList are compared by any function of two values.
    - [Stream.Stream] is the virtual members of a stream, over any type of objects;
      [Stream.SeekableStream] relates them to a file, a sequence of bytes and a
      position, within what an [int] holds, and lets a read be short;
      [Stream.ExactReads] does not.  MemoryStream and BufferedStream have instances of
      each; the binary classes are proved against the second.  A client's array does
      not overlap a stream's own, and a wrapped stream is used by its wrapper alone.
    - The fallback of an encoding is one of the four classes the runtime ships;
      a replacement is shorter than [2^31] bytes.  A range UTF-7 decodes ends at
      or before [2^31], past which its index arithmetic overflows.
    - [std::hash] is a parameter of Decimal's hash code, any function of the parts.
    - A DateTimeFormatInfo is any record of names and patterns, not only the
      invariant one; a format provider resolves to one.
    - Messages are shorter than [2^64] bytes where a 64-bit length enters the
      hash; that is the width of the counter.

    ** Fuel

    The month search of DateTime tries at most 13 entries of a 12-month table.
    The format loops and the exact match loop consume at least one character
    of the format each round, so its length plus one is enough; the theorems
    state results, never results "if the loop ends".  The Adler and xxHash
    block loops take the length of the input.  A decimal number has at most
    [log2 n + 1] digits.  The stream loop takes any bound above the number of
    reads the stream delivers.  A carry of addMag is one, so one round after
    the longer operand ends it; a 64-bit value has at most three limbs; the
    word loop of a magnitude of [n] limbs takes at most [2 n] rounds; the
    refinement loop of Algorithm D is given three rounds, and a theorem shows
    any larger number gives the same result.  A Base64 decoder reads one character
    each round, so the length of its source plus one is enough.  Releasing
    the nodes of a list, and following its links, take one round more than the
    store has nodes.  The loops of the encodings consume at least one byte each
    round, those of UTF-7's bit buffer one group.  The loops of Decimal add or
    remove one place of a scale each round; a 128-bit number has at most 39 digits.
    A round of a reader's loop consumes a byte at least, one of BufferedStream::Write
    writes a byte or empties the buffer, once; a 7-bit encoded integer has five groups.
    Where a loop with its fuel
    spent would have no value it is [UB], and the theorems show it never is.  The
    phase number of a Barrier and the counts of the lock are bounded by runs of
    fewer than [2^62] and [2^30] steps.

    ** Not modelled

    Members that compute in [double] (TimeSpan.FromDays, TotalDays, Multiply; the
    conversions between Decimal and [double]; Half, Math), the clock (Now, Today), culture data, allocation failure, and
    the object life time of C++ values; limb and digit counts of a BigInteger
    are assumed to fit the [int] that indexes them.  Waiting is modelled up to
    the scheduler: how long a timed wait takes is not.  The time zone database,
    files, sockets, cryptography and processes reach the host.  Of the streams, the
    floating-point members of the binary classes are modelled on their bits, and two
    pointers to one stream only as far as one of them owns it; the getters of the
    wrapped stream have no definition of their own.  The categories
    and casing of runes are generated Unicode tables; the names of encodings are
    text.  Not modelled for room, though the code would allow it: XxHash3 and
    XxHash128, the number-style parser, BinaryPrimitives, the other
    collections, the calendars and URIs.  The rest of the repository wraps the
    standard library, an external library or the host. *)

From stdpp Require Export base tactics list strings numbers option sets.
From Stdlib Require Export ZArith Lia.

#[global] Open Scope Z_scope.

(** ** Exceptions and outcomes *)

(** The .NET-style exception types the modelled code throws, with the
    constructor arguments the code passes ([param] is the paramName; the
    constructors of ArgumentOutOfRangeException that also takes the actual value
    and of ObjectDisposedException that also takes a message have names of their
    own). *)
Inductive exn :=
  | ArgumentException (msg param : string)
  | ArgumentNullException (param msg : string)
  | ArgumentOutOfRangeException (param msg : string)
  | ArgumentOutOfRangeActual (param actualValue msg : string)
  | OverflowException (msg : string)
  | FormatException (msg : string)
  | InvalidOperationException (msg : string)
  | DivideByZeroException (msg : string)
  | ObjectDisposedException (objectName : string)
  | ObjectDisposedMessage (objectName msg : string)
  | NotSupportedException (msg : string)
  | IOException (msg : string)
  | EndOfStreamException (msg : string)
  | LockRecursionException (msg : string)
  | SynchronizationLockException (msg : string)
  | SemaphoreFullException
  | NullReferenceException
  | DecoderFallbackException (msg : string) (bytesUnknown : list Z) (index : Z)
  | EncoderFallbackException (msg : string) (charUnknown index : Z)
  | BarrierPostPhaseException (inner : exn).

#[export] Instance exn_eq_dec : EqDecision exn.
Proof. solve_decision. Defined.

(** Outcome of a C++ call: a value, a thrown exception, or undefined
    behaviour (signed overflow, an out-of-range index, ...). *)
Inductive res (A : Type) :=
  | Ok (a : A)
  | Throw (e : exn)
  | UB.
Arguments Ok {A} a.
Arguments Throw {A} e.
Arguments UB {A}.

#[export] Instance res_eq_dec `{EqDecision A} : EqDecision (res A).
Proof. solve_decision. Defined.

(** Sequencing: the value of a call is passed on, an exception or undefined
    behaviour ends the computation. *)
Definition bind {A B} (m : res A) (f : A -> res B) : res B :=
  match m with Ok a => f a | Throw e => Throw e | UB => UB end.

Declare Scope sharp_scope.
Delimit Scope sharp_scope with sharp.
Notation "x <- m ;; k" := (bind m (fun x => k))
  (at level 100, m at next level, right associativity) : sharp_scope.
#[global] Open Scope sharp_scope.

(** [throw_if b e]: the C++ statement [if (b) throw e;]. *)
Definition throw_if (b : bool) (e : exn) : res unit :=
  if b then Throw e else Ok tt.

(** A call inside [try { ... } catch (...) { return false; }]: any exception is
    the [None] result, undefined behaviour stays. *)
Definition caught {A} (r : res A) : res (option A) :=
  match r with Ok a => Ok (Some a) | Throw _ => Ok None | UB => UB end.

(** [if (!TryX(..., result)) throw e; return result;] *)
Definition or_throw {A} (r : res (option A)) (e : exn) : res A :=
  o <- r ;; match o with Some a => Ok a | None => Throw e end.

(** A call whose behaviour the C++ standard defines. *)
Definition defined {A} (r : res A) : Prop := r <> UB.

(** ** Lemmas on outcomes *)

Lemma bind_Ok {A B} (a : A) (f : A -> res B) : bind (Ok a) f = f a.
Proof. reflexivity. Qed.

Lemma bind_Throw {A B} e (f : A -> res B) : bind (Throw e) f = Throw e.
Proof. reflexivity. Qed.

Lemma bind_Ok_inv {A B} (m : res A) (f : A -> res B) b :
  bind m f = Ok b -> exists a, m = Ok a /\ f a = Ok b.
Proof. destruct m; cbn; intros H; [eauto | discriminate | discriminate]. Qed.

Lemma throw_if_true b e : b = true -> throw_if b e = Throw e.
Proof. by intros ->. Qed.

Lemma throw_if_false b e : b = false -> throw_if b e = Ok tt.
Proof. by intros ->. Qed.

Lemma throw_if_Ok b e u : throw_if b e = Ok u <-> b = false.
Proof. destruct b, u; cbn; split; congruence. Qed.

Lemma bind_defined {A B} (m : res A) (f : A -> res B) :
  defined m -> (forall a, m = Ok a -> defined (f a)) -> defined (bind m f).
Proof. destruct m; cbn; unfold defined; intros; [eauto | done | done]. Qed.

Lemma throw_if_defined b e : defined (throw_if b e).
Proof. by destruct b. Qed.

Lemma Ok_defined {A} (a : A) : defined (Ok a).
Proof. done. Qed.

Lemma Throw_defined {A} e : defined (@Throw A e).
Proof. done. Qed.

Lemma Forall_weaken {A} (P Q : A -> Prop) l :
  (forall x, P x -> Q x) -> Forall P l -> Forall Q l.
Proof. intros HPQ. induction 1; constructor; auto. Qed.

(** Hint database of the development: definedness of outcomes. *)
Create HintDb sharp.
Create Rewrite HintDb sharp.
#[export] Hint Resolve @bind_defined @throw_if_defined @Ok_defined
  @Throw_defined : sharp.
#[export] Hint Rewrite @bind_Ok @bind_Throw : sharp.

(** ** Automation *)

(** Split every [_ && _ = true], [_ || _ = false] and every Z comparison in
    the context into linear facts. *)
Ltac bool_to_prop :=
  repeat match goal with
    | H : (_ && _) = true |- _ => apply andb_true_iff in H as [? ?]
    | H : (_ || _) = false |- _ => apply orb_false_iff in H as [? ?]
    | H : (_ && _) = false |- _ => apply andb_false_iff in H as [?|?]
    | H : (_ || _) = true |- _ => apply orb_true_iff in H as [?|?]
    | H : negb _ = true |- _ => apply negb_true_iff in H
    | H : negb _ = false |- _ => apply negb_false_iff in H
    | H : (_ <? _) = true |- _ => apply Z.ltb_lt in H
    | H : (_ <? _) = false |- _ => apply Z.ltb_ge in H
    | H : (_ <=? _) = true |- _ => apply Z.leb_le in H
    | H : (_ <=? _) = false |- _ => apply Z.leb_gt in H
    | H : (_ >? _) = _ |- _ => rewrite Z.gtb_ltb in H
    | H : (_ >=? _) = _ |- _ => rewrite Z.geb_leb in H
    | H : (_ =? _) = true |- _ => apply Z.eqb_eq in H
    | H : (_ =? _) = false |- _ => apply Z.eqb_neq in H
    end.

(** Case split on the condition of the first [if] or [throw_if] of the goal
    and turn it into arithmetic. *)
Ltac split_if :=
  match goal with
  | |- context [if ?b then _ else _] =>
      let E := fresh "E" in destruct b eqn:E; bool_to_prop
  | |- context [throw_if ?b _] =>
      let E := fresh "E" in destruct b eqn:E; bool_to_prop
  end.

(** Decide every comparison of the goal with the arithmetic context. *)
Ltac decide_cmp :=
  repeat match goal with
    | |- context [?a <? ?b] =>
        first [ rewrite (proj2 (Z.ltb_lt a b)) by lia
              | rewrite (proj2 (Z.ltb_ge a b)) by lia ]
    | |- context [?a <=? ?b] =>
        first [ rewrite (proj2 (Z.leb_le a b)) by lia
              | rewrite (proj2 (Z.leb_gt a b)) by lia ]
    | |- context [?a =? ?b] =>
        first [ rewrite (proj2 (Z.eqb_eq a b)) by lia
              | rewrite (proj2 (Z.eqb_neq a b)) by lia ]
    | |- context [?a >? ?b] => rewrite (Z.gtb_ltb a b)
    | |- context [?a >=? ?b] => rewrite (Z.geb_leb a b)
    end; cbn [andb orb negb throw_if bind].

(** Invert a monadic chain that returned a value. *)
Ltac invert_ok H :=
  let a := fresh "a" in let H1 := fresh "Hok" in
  apply bind_Ok_inv in H as (a & H1 & H);
  try (apply throw_if_Ok in H1; bool_to_prop).
