(* ===== verification/MachineInt.v ===== *)
(** * Machine integers

    The fixed-width integers of [SharpRuntime/SharpRuntimeHelper.hpp]
    ([intcs], [longcs], [uintcs], [ulongcs], [bytecs]) as [Z] with their
    width written out: unsigned arithmetic wraps modulo [2^w], conversion to a
    signed type is two's complement (C++20), and signed arithmetic that
    leaves the range is undefined behaviour ([UB]). *)

From S2P Require Export Prelude.

(** ** Conversions *)

(** Conversion to an unsigned type of [w] bits. *)
Definition wrapu (w z : Z) : Z := z mod 2 ^ w.

(** Conversion to a signed type of [w] bits. *)
Definition wraps (w z : Z) : Z := (z + 2 ^ (w - 1)) mod 2 ^ w - 2 ^ (w - 1).

Definition u8 := wrapu 8.
Definition u32 := wrapu 32.
Definition u64 := wrapu 64.
Definition i32 := wraps 32.
Definition i64 := wraps 64.

(** ** Ranges *)

Definition in_s (w z : Z) : Prop := - 2 ^ (w - 1) <= z < 2 ^ (w - 1).
Definition in_u (w z : Z) : Prop := 0 <= z < 2 ^ w.
Definition in_sb (w z : Z) : bool := (- 2 ^ (w - 1) <=? z) && (z <? 2 ^ (w - 1)).

Abbreviation INTCS_MAX := 2147483647.
Abbreviation INTCS_MIN := (-2147483648).
Abbreviation LONGCS_MAX := 9223372036854775807.
Abbreviation LONGCS_MIN := (-9223372036854775808).
Abbreviation ULONGCS_MAX := 18446744073709551615.

(** ** Signed arithmetic: undefined outside the range *)

Definition schk (w z : Z) : res Z := if in_sb w z then Ok z else UB.
Definition sadd (w a b : Z) : res Z := schk w (a + b).
Definition ssub (w a b : Z) : res Z := schk w (a - b).
Definition smul (w a b : Z) : res Z := schk w (a * b).
Definition sneg (w a : Z) : res Z := schk w (- a).

(** ** Unsigned arithmetic: modulo [2^w] *)

Definition uadd (w a b : Z) : Z := wrapu w (a + b).
Definition usub (w a b : Z) : Z := wrapu w (a - b).
Definition umul (w a b : Z) : Z := wrapu w (a * b).
Definition ushl (w a n : Z) : Z := wrapu w (Z.shiftl a n).
Definition unot (w a : Z) : Z := 2 ^ w - 1 - a.

(** Signed right shift ([>>] on a signed operand, arithmetic since C++20). *)
Definition sshr (a n : Z) : Z := Z.shiftr a n.

(** ** Lemmas *)

Lemma wrapu_range w z : 0 <= w -> in_u w (wrapu w z).
Proof. intros. apply Z.mod_pos_bound. lia. Qed.

Lemma wrapu_id w z : in_u w z -> wrapu w z = z.
Proof. apply Z.mod_small. Qed.

Lemma wraps_range w z : 0 < w -> in_s w (wraps w z).
Proof.
  intros. unfold in_s, wraps.
  pose proof (Z.mod_pos_bound (z + 2 ^ (w - 1)) (2 ^ w) ltac:(lia)).
  assert (2 ^ w = 2 * 2 ^ (w - 1)) by (rewrite <- Z.pow_succ_r by lia; f_equal; lia).
  lia.
Qed.

Lemma wraps_id w z : 0 < w -> in_s w z -> wraps w z = z.
Proof.
  intros ? [? ?]. unfold wraps.
  assert (2 ^ w = 2 * 2 ^ (w - 1)) by (rewrite <- Z.pow_succ_r by lia; f_equal; lia).
  rewrite Z.mod_small by lia. lia.
Qed.

Lemma wraps_wrapu w z : 0 < w -> wraps w (wrapu w z) = wraps w z.
Proof.
  intros. unfold wraps, wrapu. rewrite Z.add_mod_idemp_l by lia. done.
Qed.

Lemma wraps_cong w z : 0 < w -> wraps w z mod 2 ^ w = z mod 2 ^ w.
Proof.
  intros. unfold wraps. rewrite Zminus_mod_idemp_l. f_equal. lia.
Qed.

Lemma wrapu_wraps w z : 0 < w -> wrapu w (wraps w z) = wrapu w z.
Proof. apply wraps_cong. Qed.

Lemma in_sb_spec w z : in_sb w z = true <-> in_s w z.
Proof. unfold in_sb, in_s. rewrite andb_true_iff, Z.leb_le, Z.ltb_lt. lia. Qed.

Lemma schk_Ok w z : in_s w z -> schk w z = Ok z.
Proof. intros H. unfold schk. by rewrite (proj2 (in_sb_spec w z) H). Qed.

Lemma schk_Ok_inv w z r : schk w z = Ok r -> r = z /\ in_s w z.
Proof.
  unfold schk. destruct (in_sb w z) eqn:E; [|done].
  intros [= <-]. by apply in_sb_spec in E.
Qed.

Lemma schk_UB w z : schk w z = UB <-> ~ in_s w z.
Proof.
  unfold schk. rewrite <- in_sb_spec. destruct (in_sb w z); split; congruence.
Qed.

(** ** Congruence modulo [2^w]

    Wrapped arithmetic is rewritten under the congruence it respects: every
    inner [wrapu] or [wraps] of a modular expression can be dropped. *)
Definition eqm (w a b : Z) : Prop := wrapu w a = wrapu w b.

#[export] Instance eqm_equivalence w : Equivalence (eqm w).
Proof. split; unfold eqm; repeat intro; congruence. Qed.

#[export] Instance add_eqm w : Proper (eqm w ==> eqm w ==> eqm w) Z.add.
Proof.
  intros a a' Ha b b' Hb. unfold eqm, wrapu in *.
  by rewrite Zplus_mod, Ha, Hb, <- Zplus_mod.
Qed.

#[export] Instance mul_eqm w : Proper (eqm w ==> eqm w ==> eqm w) Z.mul.
Proof.
  intros a a' Ha b b' Hb. unfold eqm, wrapu in *.
  by rewrite Zmult_mod, Ha, Hb, <- Zmult_mod.
Qed.

#[export] Instance sub_eqm w : Proper (eqm w ==> eqm w ==> eqm w) Z.sub.
Proof.
  intros a a' Ha b b' Hb. unfold eqm, wrapu in *.
  by rewrite Zminus_mod, Ha, Hb, <- Zminus_mod.
Qed.

#[export] Instance wrapu_eqm_proper w : Proper (eqm w ==> eq) (wrapu w).
Proof. by intros a a' Ha. Qed.

#[export] Instance wraps_eqm_proper w : Proper (eqm w ==> eq) (wraps w).
Proof.
  intros a a' Ha. unfold wraps.
  change ((a + 2 ^ (w - 1)) mod 2 ^ w) with (wrapu w (a + 2 ^ (w - 1))).
  change ((a' + 2 ^ (w - 1)) mod 2 ^ w) with (wrapu w (a' + 2 ^ (w - 1))).
  by rewrite Ha.
Qed.

Lemma wrapu_eqm w z : eqm w (wrapu w z) z.
Proof. apply Zmod_mod. Qed.

Lemma wraps_eqm w z : 0 < w -> eqm w (wraps w z) z.
Proof. apply wraps_cong. Qed.

(** Close a goal [wrapu w x = wrapu w y] or [eqm w x y] whose sides agree once
    the inner wraps are dropped. *)
Ltac wrap_eq :=
  unfold uadd, usub, umul, u8, u32, u64;
  try match goal with |- wrapu ?w ?x = wrapu ?w ?y => change (eqm w x y) end;
  rewrite ?wrapu_eqm; try (apply f_equal; ring); try reflexivity.

(** The sign bit of a [w]-bit value: [>> (w-1)] is 0 or -1. *)
Lemma sshr_sign w z : 0 < w -> in_s w z ->
  sshr z (w - 1) = if z <? 0 then -1 else 0.
Proof.
  intros Hw [? ?]. unfold sshr. rewrite Z.shiftr_div_pow2 by lia.
  split_if.
  - symmetry. apply Z.div_unique with (z + 2 ^ (w - 1)); lia.
  - apply Z.div_small. lia.
Qed.

(** Evaluate the constant powers of two that appear in ranges. *)
Ltac eval_pow :=
  unfold in_s, in_u in *;
  repeat match goal with
    | H : context [2 ^ ?n] |- _ =>
        let v := eval cbv in (2 ^ n) in
        lazymatch v with Z.pos _ => change (2 ^ n) with v in H end
    | |- context [2 ^ ?n] =>
        let v := eval cbv in (2 ^ n) in
        lazymatch v with Z.pos _ => change (2 ^ n) with v end
    end.

(** Arithmetic with truncating division ([/] and [%] of C++) and wrap-around
    at constant widths. *)
Ltac zlia :=
  unfold u8, u32, u64, i32, i64, wrapu, wraps in *; eval_pow;
  Z.to_euclidean_division_equations; lia.

(** ** Array indexing *)

(** [a[i]] on an array of the source: an index outside it is undefined. *)
Definition get {A} (a : list A) (i : Z) : res A :=
  if i <? 0 then UB
  else match a !! Z.to_nat i with Some x => Ok x | None => UB end.

Lemma get_Ok {A} (a : list A) i x : 0 <= i -> a !! Z.to_nat i = Some x -> get a i = Ok x.
Proof. intros Hi Hx. unfold get. decide_cmp. by rewrite Hx. Qed.

(** [a[i] = x]. *)
Definition put {A} (a : list A) (i : Z) (x : A) : res (list A) :=
  if (0 <=? i) && (i <? Z.of_nat (length a)) then Ok (<[Z.to_nat i := x]> a) else UB.

(** [a[i] = x0], [a[i + 1] = x1], ... *)
Fixpoint puts {A} (a : list A) (i : Z) (xs : list A) : res (list A) :=
  match xs with
  | [] => Ok a
  | x :: xs => a <- put a i x ;; puts a (i + 1) xs
  end.

Lemma get_Some {A} (l : list A) (i : nat) x : l !! i = Some x -> get l (Z.of_nat i) = Ok x.
Proof. intros H. apply get_Ok; [lia|]. by rewrite Nat2Z.id. Qed.

(** Writing the place after the last one written. *)
Lemma put_app {A} (out d : list A) b : (length out < length d)%nat ->
  put (out ++ drop (length out) d) (Z.of_nat (length out)) b =
    Ok ((out ++ [b]) ++ drop (length (out ++ [b])) d).
Proof.
  intros Hl. unfold put. rewrite length_app, length_drop. decide_cmp.
  f_equal. rewrite Nat2Z.id. rewrite insert_app_r_alt by lia. rewrite Nat.sub_diag.
  rewrite <- app_assoc. f_equal. rewrite length_app. cbn [length].
  destruct (drop (length out) d) as [|x t] eqn:E.
  { apply (f_equal length) in E. rewrite length_drop in E. cbn in E. lia. }
  cbn. f_equal. by rewrite <- drop_drop, E.
Qed.

Lemma puts_app {A} (out d bs : list A) : (length out + length bs <= length d)%nat ->
  puts (out ++ drop (length out) d) (Z.of_nat (length out)) bs =
    Ok ((out ++ bs) ++ drop (length (out ++ bs)) d).
Proof.
  revert out. induction bs as [|b bs IH]; intros out Hl; cbn [puts].
  { by rewrite app_nil_r. }
  cbn [length] in Hl. rewrite put_app by lia. cbn [bind].
  replace (Z.of_nat (length out) + 1) with (Z.of_nat (length (out ++ [b]))) by (rewrite length_app; cbn; lia).
  rewrite IH by (rewrite length_app; cbn; lia). by rewrite <- (app_assoc out [b] bs).
Qed.

(** ** Bit fields *)

Lemma land_mask a n : 0 <= n -> Z.land a (2 ^ n - 1) = a mod 2 ^ n.
Proof. intros. rewrite <- Z.land_ones by done. f_equal. rewrite Z.ones_equiv. lia. Qed.

Lemma bits_high a n i : 0 <= n -> 0 <= a < 2 ^ n -> n <= i -> Z.testbit a i = false.
Proof.
  intros Hn Ha Hi. rewrite Z.testbit_false by lia.
  pose proof (Z.pow_le_mono_r 2 n i ltac:(lia) Hi). by rewrite Z.div_small by lia.
Qed.

Lemma land_low_high a b n : 0 <= n -> 0 <= a < 2 ^ n -> Z.land a (b * 2 ^ n) = 0.
Proof.
  intros Hn Ha. apply Z.bits_inj'. intros i Hi. rewrite Z.land_spec, Z.bits_0.
  destruct (Z.lt_ge_cases i n).
  - by rewrite Z.mul_pow2_bits_low, andb_false_r.
  - by rewrite (bits_high a n).
Qed.

Lemma lor_high a b n : 0 <= n -> 0 <= a < 2 ^ n -> Z.lor a (b * 2 ^ n) = a + b * 2 ^ n.
Proof. intros. symmetry. apply Z.add_nocarry_lor. by apply land_low_high. Qed.

(** Masking the bits from [n] upwards of a value of [n + k] bits. *)
Lemma land_high_mask a n k : 0 <= n -> 0 <= k -> in_u (n + k) a ->
  Z.land a ((2 ^ k - 1) * 2 ^ n) = a / 2 ^ n * 2 ^ n.
Proof.
  intros Hn Hk [Ha0 Ha]. rewrite (Z.div_mod a (2 ^ n)) at 1 by lia.
  rewrite Z.add_comm, Z.mul_comm, <- lor_high by (try apply Z.mod_pos_bound; lia).
  rewrite Z.land_lor_distr_l, land_low_high by (try apply Z.mod_pos_bound; lia).
  rewrite Z.lor_0_l, <- !Z.shiftl_mul_pow2 by done.
  rewrite <- Z.shiftl_land, land_mask by done. f_equal.
  apply Z.mod_small. split; [apply Z.div_pos; lia|].
  apply Z.div_lt_upper_bound; [lia|]. by rewrite <- Z.pow_add_r by lia.
Qed.
