(* ===== verification/TimeSpanCore.v ===== *)
(** * System::TimeSpan, the tick arithmetic

    [core/src/System/TimeSpan.cpp] and [core/include/System/TimeSpan.hpp]:
    a signed 64-bit count of 100 ns ticks, its constructors, component
    accessors, checked arithmetic and comparison.  The [double] based members
    (FromDays, Multiply, TotalDays, ...) are not modelled; text conversion is
    in [TimeSpanText]. *)

From S2P Require Import Prelude MachineInt.

Module TimeSpan.

(** ** Constants *)

Definition NanosecondsPerTick : Z := 100.
Definition TicksPerMicrosecond : Z := 10.
Definition TicksPerMillisecond : Z := TicksPerMicrosecond * 1000.
Definition TicksPerSecond : Z := TicksPerMillisecond * 1000.
Definition TicksPerMinute : Z := TicksPerSecond * 60.
Definition TicksPerHour : Z := TicksPerMinute * 60.
Definition TicksPerDay : Z := TicksPerHour * 24.
Definition MaxSeconds : Z := Z.quot LONGCS_MAX TicksPerSecond.
Definition MinSeconds : Z := Z.quot LONGCS_MIN TicksPerSecond.
Definition MaxMicroSeconds : Z := Z.quot LONGCS_MAX TicksPerMicrosecond.
Definition MinMicroSeconds : Z := Z.quot LONGCS_MIN TicksPerMicrosecond.

(** ** State *)

Record TimeSpan := mk { ticks_internal : Z }.

Definition FromTicks (value : Z) : TimeSpan := mk value.
Definition Zero : TimeSpan := mk 0.
Definition MaxValue : TimeSpan := mk LONGCS_MAX.
Definition MinValue : TimeSpan := mk LONGCS_MIN.

(** The representation invariant: the field is a [longcs]. *)
Definition wf (t : TimeSpan) : Prop := in_s 64 (ticks_internal t).

Definition too_long : string := "TimeSpan overflowed because the duration is too long.".

(** ** Constructors *)

(** TimeToTicks(hour, minute, second), in checked signed arithmetic. *)
Definition TimeToTicks (hour minute second : Z) : res Z :=
  h <- smul 64 hour 3600;;
  m <- smul 64 minute 60;;
  hm <- sadd 64 h m;;
  totalSeconds <- sadd 64 hm second;;
  _ <- throw_if ((totalSeconds >? MaxSeconds) || (totalSeconds <? MinSeconds))
        (ArgumentOutOfRangeException EmptyString too_long);;
  smul 64 totalSeconds TicksPerSecond.

Definition of_hms (hours minutes seconds : Z) : res TimeSpan :=
  t <- TimeToTicks hours minutes seconds;; Ok (mk t).

(** The unsigned accumulation of TimeToTicks(days, ..., microseconds). *)
Definition totalMicroseconds
    (days hours minutes seconds milliseconds microseconds : Z) : Z :=
  let s := uadd 64 (uadd 64 (uadd 64 (umul 64 (u64 days) 86400)
                                     (umul 64 (u64 hours) 3600))
                            (umul 64 (u64 minutes) 60))
                   (u64 seconds) in
  let ms := uadd 64 (umul 64 s 1000) (u64 milliseconds) in
  uadd 64 (umul 64 ms 1000) (u64 microseconds).

Definition TimeToTicks6
    (days hours minutes seconds milliseconds microseconds : Z) : res Z :=
  let result := i64 (totalMicroseconds days hours minutes seconds
                       milliseconds microseconds) in
  _ <- throw_if ((result >? MaxMicroSeconds) || (result <? MinMicroSeconds))
        (ArgumentOutOfRangeException EmptyString too_long);;
  Ok result.

Definition of_components
    (days hours minutes seconds milliseconds microseconds : Z) : res TimeSpan :=
  us <- TimeToTicks6 days hours minutes seconds milliseconds microseconds;;
  t <- smul 64 us TicksPerMicrosecond;;
  Ok (mk t).

(** ** Component accessors ([/] and [%] truncate towards zero) *)

Definition getTicks (t : TimeSpan) : Z := ticks_internal t.
Definition getDays (t : TimeSpan) : Z := i32 (Z.quot (ticks_internal t) TicksPerDay).
Definition getHours (t : TimeSpan) : Z :=
  i32 (Z.rem (Z.quot (ticks_internal t) TicksPerHour) 24).
Definition getMinutes (t : TimeSpan) : Z :=
  i32 (Z.rem (Z.quot (ticks_internal t) TicksPerMinute) 60).
Definition getSeconds (t : TimeSpan) : Z :=
  i32 (Z.rem (Z.quot (ticks_internal t) TicksPerSecond) 60).
Definition getMilliseconds (t : TimeSpan) : Z :=
  i32 (Z.rem (Z.quot (ticks_internal t) TicksPerMillisecond) 1000).
Definition getMicroseconds (t : TimeSpan) : Z :=
  i32 (Z.rem (Z.quot (ticks_internal t) TicksPerMicrosecond) 1000).
Definition getNanoseconds (t : TimeSpan) : Z :=
  i32 (Z.rem (ticks_internal t) TicksPerMicrosecond * 100).

(** ** Arithmetic *)

(** Add: the guard's subtractions are evaluated only when their left operand
    of [&&] holds, and are themselves signed. *)
Definition Add (this ts : TimeSpan) : res TimeSpan :=
  let a := ticks_internal this in let b := ticks_internal ts in
  over <- (if b >? 0 then m <- ssub 64 LONGCS_MAX b;; Ok (a >? m) else Ok false);;
  under <- (if over then Ok true
           else if b <? 0 then m <- ssub 64 LONGCS_MIN b;; Ok (a <? m)
           else Ok false);;
  _ <- throw_if under (OverflowException too_long);;
  r <- sadd 64 a b;;
  Ok (mk r).

(** Subtract: wrap in the unsigned type, then compare sign bits. *)
Definition Subtract (this ts : TimeSpan) : res TimeSpan :=
  let a := ticks_internal this in let b := ticks_internal ts in
  let result := i64 (usub 64 (u64 a) (u64 b)) in
  let signShift := 63 in
  let overflow := negb (sshr a signShift =? sshr b signShift) &&
                  negb (sshr a signShift =? sshr result signShift) in
  _ <- throw_if overflow (OverflowException too_long);;
  Ok (mk result).

Definition Duration (this : TimeSpan) : res TimeSpan :=
  _ <- throw_if (getTicks this =? getTicks MinValue)
        (OverflowException "The duration cannot be returned for TimeSpan.MinValue because the absolute value of TimeSpan.MinValue exceeds the value of TimeSpan.MaxValue.");;
  if ticks_internal this >=? 0 then Ok (mk (ticks_internal this))
  else r <- sneg 64 (ticks_internal this);; Ok (mk r).

Definition Negate (this : TimeSpan) : res TimeSpan :=
  _ <- throw_if (getTicks this =? getTicks MinValue)
        (OverflowException "Negating the minimum value of a twos complement number is invalid.");;
  r <- sneg 64 (ticks_internal this);;
  Ok (mk r).

(** ** Comparison and hashing *)

Definition Compare (t1 t2 : TimeSpan) : Z :=
  if ticks_internal t1 >? ticks_internal t2 then 1
  else if ticks_internal t1 <? ticks_internal t2 then -1
  else 0.
Definition CompareTo (this value : TimeSpan) : Z := Compare this value.
Definition Equals (t1 t2 : TimeSpan) : bool := ticks_internal t1 =? ticks_internal t2.
Definition op_lt (t1 t2 : TimeSpan) : bool := ticks_internal t1 <? ticks_internal t2.
Definition op_le (t1 t2 : TimeSpan) : bool := ticks_internal t1 <=? ticks_internal t2.

Definition GetHashCode (t : TimeSpan) : Z :=
  Z.lxor (i32 (ticks_internal t)) (i32 (Z.shiftr (u64 (ticks_internal t)) 32)).

End TimeSpan.

(** ** Theorems *)

#[local] Ltac unfold_consts :=
  unfold TimeSpan.MaxSeconds, TimeSpan.MinSeconds, TimeSpan.MaxMicroSeconds,
    TimeSpan.MinMicroSeconds, TimeSpan.TicksPerDay, TimeSpan.TicksPerHour,
    TimeSpan.TicksPerMinute, TimeSpan.TicksPerSecond,
    TimeSpan.TicksPerMillisecond, TimeSpan.TicksPerMicrosecond in *.

(** [checked z e]: the value [z] when a [longcs] holds it, the exception [e]
    otherwise: what a checked operation promises. *)
Definition checked (z : Z) (e : exn) : res TimeSpan.TimeSpan :=
  if in_sb 64 z then Ok (TimeSpan.mk z) else Throw e.

Lemma checked_in z e : in_s 64 z -> checked z e = Ok (TimeSpan.mk z).
Proof. intros H. unfold checked. by rewrite (proj2 (in_sb_spec 64 z) H). Qed.

Lemma checked_out z e : ~ in_s 64 z -> checked z e = Throw e.
Proof.
  intros H. unfold checked. destruct (in_sb 64 z) eqn:E; [|done].
  by apply in_sb_spec in E.
Qed.

Lemma checked_cases z e r :
  (in_s 64 z -> r = Ok (TimeSpan.mk z)) -> (~ in_s 64 z -> r = Throw e) ->
  r = checked z e.
Proof.
  intros H1 H2. destruct (in_sb 64 z) eqn:E.
  - apply in_sb_spec in E. by rewrite checked_in, H1.
  - rewrite checked_out, H2; [done|..]; rewrite <- in_sb_spec; congruence.
Qed.

Lemma Add_checked a b : in_s 64 a -> in_s 64 b ->
  TimeSpan.Add (TimeSpan.mk a) (TimeSpan.mk b) =
  checked (a + b) (OverflowException TimeSpan.too_long).
Proof.
  intros Ha Hb. apply checked_cases; intros H;
  unfold TimeSpan.Add, ssub, sadd; cbn [TimeSpan.ticks_internal];
  (destruct (Z.ltb_spec 0 b); [|destruct (Z.ltb_spec b 0)]);
  rewrite ?Z.gtb_ltb; decide_cmp;
  repeat (rewrite schk_Ok by (eval_pow; lia)); cbn [bind];
  rewrite ?Z.gtb_ltb; eval_pow; decide_cmp; try done; try lia;
  repeat (rewrite schk_Ok by (eval_pow; lia)); cbn [bind]; done.
Qed.

Lemma Subtract_checked a b : in_s 64 a -> in_s 64 b ->
  TimeSpan.Subtract (TimeSpan.mk a) (TimeSpan.mk b) =
  checked (a - b) (OverflowException TimeSpan.too_long).
Proof.
  intros Ha Hb. unfold TimeSpan.Subtract. cbn [TimeSpan.ticks_internal].
  pose proof (wraps_range 64 (usub 64 (u64 a) (u64 b)) ltac:(lia)) as Hr.
  assert (Hc : i64 (usub 64 (u64 a) (u64 b)) = wraps 64 (a - b)).
  { unfold i64, usub, u64. by rewrite !wrapu_eqm. }
  fold i64 in Hr. rewrite Hc in *. clear Hc.
  change 63 with (64 - 1).
  rewrite !(sshr_sign 64) by (lia || assumption).
  apply checked_cases; intros H.
  - rewrite wraps_id in * by (lia || assumption). eval_pow.
    destruct (Z.ltb_spec a 0), (Z.ltb_spec b 0), (Z.ltb_spec (a - b) 0);
      cbn; try done; lia.
  - assert (wraps 64 (a - b) < 0 <-> 0 <= a - b).
    { unfold wraps in *. eval_pow. Z.to_euclidean_division_equations. lia. }
    eval_pow.
    destruct (Z.ltb_spec a 0), (Z.ltb_spec b 0), (Z.ltb_spec (wraps 64 (a - b)) 0);
      cbn; try done; lia.
Qed.

Lemma Negate_checked a : in_s 64 a ->
  TimeSpan.Negate (TimeSpan.mk a) =
  checked (- a) (OverflowException
    "Negating the minimum value of a twos complement number is invalid.").
Proof.
  intros Ha. unfold TimeSpan.Negate, TimeSpan.getTicks, sneg. cbn.
  destruct (Z.eqb_spec a LONGCS_MIN) as [->|Hne]; [done|].
  cbn. rewrite schk_Ok, checked_in by (eval_pow; lia). done.
Qed.

Lemma Duration_checked a : in_s 64 a ->
  TimeSpan.Duration (TimeSpan.mk a) =
  checked (Z.abs a) (OverflowException "The duration cannot be returned for TimeSpan.MinValue because the absolute value of TimeSpan.MinValue exceeds the value of TimeSpan.MaxValue.").
Proof.
  intros Ha. unfold TimeSpan.Duration, TimeSpan.getTicks, sneg. cbn.
  destruct (Z.eqb_spec a LONGCS_MIN) as [->|Hne]; [done|]. cbn.
  rewrite checked_in by (eval_pow; lia).
  rewrite Z.geb_leb. destruct (Z.leb_spec 0 a).
  - by rewrite Z.abs_eq by lia.
  - rewrite schk_Ok by (eval_pow; lia). cbn. by rewrite Z.abs_neq by lia.
Qed.

(** The six-component constructor computes the exact duration modulo [2^64]
    microseconds. *)
Definition exactMicroseconds (d h m s ms us : Z) : Z :=
  ((d * 86400 + h * 3600 + m * 60 + s) * 1000 + ms) * 1000 + us.

Lemma totalMicroseconds_exact d h m s ms us :
  TimeSpan.totalMicroseconds d h m s ms us =
  u64 (exactMicroseconds d h m s ms us).
Proof.
  unfold TimeSpan.totalMicroseconds, exactMicroseconds, u64. wrap_eq.
Qed.

Lemma of_components_wrapped d h m s ms us :
  let e := i64 (exactMicroseconds d h m s ms us) in
  TimeSpan.of_components d h m s ms us =
  if in_sb 64 (e * 10) then Ok (TimeSpan.mk (e * 10))
  else Throw (ArgumentOutOfRangeException EmptyString TimeSpan.too_long).
Proof.
  intros e. unfold TimeSpan.of_components, TimeSpan.TimeToTicks6.
  rewrite totalMicroseconds_exact. unfold i64, u64. rewrite wraps_wrapu by lia.
  fold i64. fold e. unfold smul, TimeSpan.TicksPerMicrosecond, schk.
  assert (He : in_s 64 e) by (apply wraps_range; lia).
  change TimeSpan.MaxMicroSeconds with 922337203685477580.
  change TimeSpan.MinMicroSeconds with (-922337203685477580).
  destruct (in_sb 64 (e * 10)) eqn:E.
  - apply in_sb_spec in E. eval_pow. decide_cmp. cbn.
    by rewrite (proj2 (in_sb_spec 64 (e * 10))) by (eval_pow; lia).
  - assert (~ in_s 64 (e * 10)) by (rewrite <- in_sb_spec; congruence).
    eval_pow. rewrite Z.gtb_ltb.
    destruct (Z.ltb_spec 922337203685477580 e), (Z.ltb_spec e (-922337203685477580));
      cbn; try done; lia.
Qed.

Lemma of_hms_exact h m s : in_s 32 h -> in_s 32 m -> in_s 32 s ->
  TimeSpan.of_hms h m s =
  checked ((h * 3600 + m * 60 + s) * 10000000)
    (ArgumentOutOfRangeException EmptyString TimeSpan.too_long).
Proof.
  intros Hh Hm Hs. unfold TimeSpan.of_hms, TimeSpan.TimeToTicks, smul, sadd.
  repeat (rewrite schk_Ok by (eval_pow; lia); cbn [bind]).
  change TimeSpan.MaxSeconds with 922337203685.
  change TimeSpan.MinSeconds with (-922337203685).
  change TimeSpan.TicksPerSecond with 10000000.
  apply checked_cases; intros H; eval_pow.
  - decide_cmp. rewrite schk_Ok by (eval_pow; lia). done.
  - rewrite Z.gtb_ltb.
    destruct (Z.ltb_spec 922337203685 (h * 3600 + m * 60 + s)),
      (Z.ltb_spec (h * 3600 + m * 60 + s) (-922337203685)); cbn; try done; lia.
Qed.

(** A component accessor truncated to 32 bits loses nothing. *)
Lemma component_i32 z n : 0 < n <= 1000 -> i32 (Z.rem z n) = Z.rem z n.
Proof.
  intros. apply wraps_id; [lia|]. eval_pow.
  Z.to_euclidean_division_equations; lia.
Qed.

Lemma getDays_exact t : TimeSpan.wf t ->
  TimeSpan.getDays t = Z.quot (TimeSpan.ticks_internal t) 864000000000.
Proof.
  intros H. unfold TimeSpan.wf in H. apply wraps_id; [lia|].
  change TimeSpan.TicksPerDay with 864000000000. eval_pow.
  Z.to_euclidean_division_equations; lia.
Qed.

Lemma getNanoseconds_exact t :
  TimeSpan.getNanoseconds t = Z.rem (TimeSpan.ticks_internal t) 10 * 100.
Proof.
  unfold TimeSpan.getNanoseconds, TimeSpan.TicksPerMicrosecond.
  apply wraps_id; [lia|]. eval_pow. Z.to_euclidean_division_equations; lia.
Qed.

(** The accessors as truncating divisions. *)
Lemma components_exact t : TimeSpan.wf t ->
  TimeSpan.getDays t = Z.quot (TimeSpan.ticks_internal t) 864000000000 /\
  TimeSpan.getHours t = Z.rem (Z.quot (TimeSpan.ticks_internal t) 36000000000) 24 /\
  TimeSpan.getMinutes t = Z.rem (Z.quot (TimeSpan.ticks_internal t) 600000000) 60 /\
  TimeSpan.getSeconds t = Z.rem (Z.quot (TimeSpan.ticks_internal t) 10000000) 60 /\
  TimeSpan.getMilliseconds t = Z.rem (Z.quot (TimeSpan.ticks_internal t) 10000) 1000 /\
  TimeSpan.getMicroseconds t = Z.rem (Z.quot (TimeSpan.ticks_internal t) 10) 1000 /\
  TimeSpan.getNanoseconds t = Z.rem (TimeSpan.ticks_internal t) 10 * 100.
Proof.
  intros H. rewrite getDays_exact, getNanoseconds_exact by done.
  unfold TimeSpan.getHours, TimeSpan.getMinutes, TimeSpan.getSeconds,
    TimeSpan.getMilliseconds, TimeSpan.getMicroseconds.
  rewrite !component_i32 by lia. done.
Qed.

(** The four checked operations implement exact integer arithmetic on the
    tick count: each returns the exact sum, difference, negation or absolute
    value when a 64-bit integer holds it and throws OverflowException
    otherwise; no operand makes them overflow a signed integer. *)
Theorem TimeSpan_arithmetic_exact a b (Ha : TimeSpan.wf a) (Hb : TimeSpan.wf b) :
  let x := TimeSpan.ticks_internal a in let y := TimeSpan.ticks_internal b in
  TimeSpan.Add a b = checked (x + y) (OverflowException TimeSpan.too_long) /\
  TimeSpan.Subtract a b = checked (x - y) (OverflowException TimeSpan.too_long) /\
  (if in_sb 64 (- x) then TimeSpan.Negate a = Ok (TimeSpan.mk (- x))
   else exists m, TimeSpan.Negate a = Throw (OverflowException m)) /\
  (if in_sb 64 (Z.abs x) then TimeSpan.Duration a = Ok (TimeSpan.mk (Z.abs x))
   else exists m, TimeSpan.Duration a = Throw (OverflowException m)).
Proof.
  destruct a as [x], b as [y]. cbn.
  rewrite Add_checked, Subtract_checked, Negate_checked, Duration_checked by done.
  unfold checked. split; [done|split; [done|]].
  split; case_match; eauto.
Qed.

Lemma TimeSpan_arithmetic_exact_witness :
  TimeSpan.Add (TimeSpan.mk 5) (TimeSpan.mk LONGCS_MAX) =
  Throw (OverflowException TimeSpan.too_long).
Proof.
  refine (proj1 (TimeSpan_arithmetic_exact (TimeSpan.mk 5) (TimeSpan.mk LONGCS_MAX) _ _));
    unfold TimeSpan.wf, in_s; cbn; lia.
Defined.

(** One level of a mixed-radix decomposition by truncating division. *)
Lemma quot_rem_level x n : 0 < n ->
  x = n * Z.quot x n + Z.rem x n /\ Z.abs (Z.rem x n) < n /\
  (0 <= x -> 0 <= Z.quot x n /\ 0 <= Z.rem x n) /\
  (x <= 0 -> Z.quot x n <= 0 /\ Z.rem x n <= 0).
Proof. intros. Z.to_euclidean_division_equations; nia. Qed.

(** The tick counts of the larger units, one radix at a time. *)
Lemma quot_chain x :
  let us := Z.quot x 10 in let ms := Z.quot us 1000 in
  let s := Z.quot ms 1000 in let m := Z.quot s 60 in let h := Z.quot m 60 in
  Z.quot x 864000000000 = Z.quot h 24 /\ Z.quot x 36000000000 = h /\
  Z.quot x 600000000 = m /\ Z.quot x 10000000 = s /\ Z.quot x 10000 = ms.
Proof. cbn zeta. rewrite !Z.quot_quot by lia. done. Qed.

(** The component accessors decompose the tick count: days, hours,
    minutes, seconds, milliseconds, microseconds and nanoseconds add up to the
    ticks exactly, each stays within its unit and none has a sign opposite to
    the whole. *)
Theorem TimeSpan_components_decompose t (Ht : TimeSpan.wf t) :
  let x := TimeSpan.ticks_internal t in
  let d := TimeSpan.getDays t in let h := TimeSpan.getHours t in
  let m := TimeSpan.getMinutes t in let s := TimeSpan.getSeconds t in
  let ms := TimeSpan.getMilliseconds t in let us := TimeSpan.getMicroseconds t in
  let ns := TimeSpan.getNanoseconds t in
  x * 100 = (((((d * 24 + h) * 60 + m) * 60 + s) * 1000 + ms) * 1000 + us) * 1000 + ns /\
  Z.abs d <= 10675199 /\ Z.abs h < 24 /\ Z.abs m < 60 /\ Z.abs s < 60 /\
  Z.abs ms < 1000 /\ Z.abs us < 1000 /\ Z.abs ns < 1000 /\
  (0 <= x -> Forall (fun c => 0 <= c) [d; h; m; s; ms; us; ns]) /\
  (x <= 0 -> Forall (fun c => c <= 0) [d; h; m; s; ms; us; ns]).
Proof.
  intros x d h m s ms us ns. subst x d h m s ms us ns.
  destruct (components_exact t Ht) as (-> & -> & -> & -> & -> & -> & ->).
  unfold TimeSpan.wf in Ht. set (x := TimeSpan.ticks_internal t) in *. clearbody x.
  destruct (quot_chain x) as (-> & -> & -> & -> & ->).
  pose proof (quot_rem_level x 10 ltac:(lia)) as H1.
  set (us := Z.quot x 10) in *.
  pose proof (quot_rem_level us 1000 ltac:(lia)) as H2.
  set (ms := Z.quot us 1000) in *.
  pose proof (quot_rem_level ms 1000 ltac:(lia)) as H3.
  set (s := Z.quot ms 1000) in *.
  pose proof (quot_rem_level s 60 ltac:(lia)) as H4.
  set (m := Z.quot s 60) in *.
  pose proof (quot_rem_level m 60 ltac:(lia)) as H5.
  set (h := Z.quot m 60) in *.
  pose proof (quot_rem_level h 24 ltac:(lia)) as H6.
  eval_pow. clearbody us ms s m h.
  generalize dependent (Z.rem x 10). generalize dependent (Z.rem us 1000).
  generalize dependent (Z.rem ms 1000). generalize dependent (Z.rem s 60).
  generalize dependent (Z.rem m 60). generalize dependent (Z.rem h 24).
  generalize dependent (Z.quot h 24). intros.
  repeat split; try lia; intros; repeat apply Forall_cons_2; try apply Forall_nil_2; lia.
Qed.

Lemma TimeSpan_components_decompose_witness :
  TimeSpan.getHours (TimeSpan.mk (-36000000001)) = -1 /\
  Z.abs (TimeSpan.getDays (TimeSpan.mk LONGCS_MIN)) <= 10675199.
Proof.
  split; [vm_compute; reflexivity|].
  refine (proj1 (proj2 (TimeSpan_components_decompose (TimeSpan.mk LONGCS_MIN) _))).
  unfold TimeSpan.wf, in_s; cbn; lia.
Defined.

Lemma quot_radix q r n : 0 <= q -> 0 <= r < n -> Z.quot (q * n + r) n = q.
Proof. intros. rewrite Z.quot_div_nonneg by nia. symmetry. apply Z.div_unique with r; lia. Qed.

Lemma rem_radix q r n : 0 <= q -> 0 <= r < n -> Z.rem (q * n + r) n = r.
Proof. intros. rewrite Z.rem_mod_nonneg by nia. symmetry. apply Z.mod_unique with q; lia. Qed.

(** Durations of non-negative components in canonical range. *)
Definition canonical (d h m s ms us : Z) : Prop :=
  0 <= d <= 10675198 /\ 0 <= h < 24 /\ 0 <= m < 60 /\ 0 <= s < 60 /\
  0 <= ms < 1000 /\ 0 <= us < 1000.

(** Constructor and accessors are inverse: a duration built from days
    (up to 10675198), hours, minutes, seconds, milliseconds and microseconds
    in their canonical ranges is accepted, and the accessors read back
    exactly those components. *)
Theorem TimeSpan_components_roundtrip d h m s ms us
    (H : canonical d h m s ms us) :
  exists t, TimeSpan.of_components d h m s ms us = Ok t /\ TimeSpan.wf t /\
    TimeSpan.getDays t = d /\ TimeSpan.getHours t = h /\
    TimeSpan.getMinutes t = m /\ TimeSpan.getSeconds t = s /\
    TimeSpan.getMilliseconds t = ms /\ TimeSpan.getMicroseconds t = us /\
    TimeSpan.getNanoseconds t = 0.
Proof.
  destruct H as (Hd & Hh & Hm & Hs & Hms & Hus).
  set (e := exactMicroseconds d h m s ms us).
  assert (He : 0 <= e * 10 < 2 ^ 63) by (unfold e, exactMicroseconds; eval_pow; lia).
  assert (Hwf : TimeSpan.wf (TimeSpan.mk (e * 10))).
  { unfold TimeSpan.wf; cbn; eval_pow; lia. }
  exists (TimeSpan.mk (e * 10)). split.
  { rewrite of_components_wrapped. fold e.
    unfold i64. rewrite (wraps_id 64 e) by (eval_pow; lia).
    by rewrite (proj2 (in_sb_spec 64 (e * 10))) by (eval_pow; lia). }
  split; [done|].
  destruct (components_exact _ Hwf) as (-> & -> & -> & -> & -> & -> & ->).
  cbn [TimeSpan.ticks_internal].
  destruct (quot_chain (e * 10)) as (-> & -> & -> & -> & ->).
  rewrite Z.quot_mul, Z.rem_mul by lia.
  replace e with (((((d * 24 + h) * 60 + m) * 60 + s) * 1000 + ms) * 1000 + us)
    by (unfold e, exactMicroseconds; ring).
  repeat (rewrite ?quot_radix, ?rem_radix by lia). done.
Qed.

Lemma TimeSpan_components_roundtrip_witness :
  canonical 3 4 5 6 7 8 /\
  exists t, TimeSpan.of_components 3 4 5 6 7 8 = Ok t /\ TimeSpan.getDays t = 3.
Proof.
  assert (H : canonical 3 4 5 6 7 8) by (unfold canonical; lia).
  split; [exact H|].
  destruct (TimeSpan_components_roundtrip 3 4 5 6 7 8 H) as (t & Hok & _ & Hd & _).
  exists t. split; [exact Hok | exact Hd].
Defined.

(** The six-component constructor accumulates modulo [2^64]: it never has
    undefined behaviour, throws ArgumentOutOfRangeException exactly when the
    wrapped microsecond count does not fit, and otherwise holds the exact
    duration modulo [2^64] microseconds (so an overflow by a multiple of
    [2^64] is accepted, with a different duration). *)
Theorem TimeSpan_of_components_modular d h m s ms us :
  let e := exactMicroseconds d h m s ms us in
  match TimeSpan.of_components d h m s ms us with
  | Ok t => exists us', TimeSpan.ticks_internal t = us' * 10 /\ eqm 64 us' e /\
              TimeSpan.wf t /\ (in_s 64 (e * 10) -> us' = e)
  | Throw x => x = ArgumentOutOfRangeException EmptyString TimeSpan.too_long /\
               ~ in_s 64 (e * 10)
  | UB => False
  end.
Proof.
  intros e. rewrite of_components_wrapped. fold e.
  assert (Hid : in_s 64 (e * 10) -> i64 e = e).
  { intros. apply wraps_id; [lia|]. eval_pow; lia. }
  destruct (in_sb 64 (i64 e * 10)) eqn:E.
  - apply in_sb_spec in E. exists (i64 e). repeat split; try apply E; try done.
    by apply wraps_eqm.
  - split; [done|]. intros H. pose proof (Hid H) as Hid'.
    rewrite Hid' in E. apply in_sb_spec in H. congruence.
Qed.

(** Comparison is the order of the tick counts: CompareTo returns the sign
    of the difference, is antisymmetric and agrees with Equals and the
    relational operators. *)
Theorem TimeSpan_compare_order a b :
  TimeSpan.CompareTo a b = Z.sgn (TimeSpan.ticks_internal a - TimeSpan.ticks_internal b) /\
  TimeSpan.CompareTo b a = - TimeSpan.CompareTo a b /\
  (TimeSpan.CompareTo a b = 0 <-> TimeSpan.Equals a b = true) /\
  (TimeSpan.op_lt a b = true <-> TimeSpan.CompareTo a b = -1) /\
  (TimeSpan.op_le a b = negb (TimeSpan.op_lt b a)).
Proof.
  unfold TimeSpan.CompareTo, TimeSpan.Compare, TimeSpan.Equals, TimeSpan.op_lt, TimeSpan.op_le.
  destruct a as [x], b as [y]; cbn. rewrite !Z.gtb_ltb.
  destruct (Z.ltb_spec x y), (Z.ltb_spec y x), (Z.eqb_spec x y), (Z.leb_spec x y);
    cbn; repeat split; try done; lia.
Qed.
