(* ===== verification/Text.v ===== *)
(** * Text: std::string, decimal printing and scanning

    The standard-library text facilities the modelled code uses: a
    [std::string] is a list of bytes ([ascii]); [std::to_string], stream
    output with [std::setw]/[std::setfill], the [%lld] conversion of
    [std::sscanf], and the C-string view of a string. *)

From Stdlib Require Export Ascii.
From Stdlib Require String.
From S2P Require Export MachineInt.

#[local] Coercion Z.of_nat : nat >-> Z.

Abbreviation text := (list ascii).

(** A string literal as bytes. *)
Definition str (s : string) : text := String.list_ascii_of_string s.

(** The byte value of a character ([char] compared with ASCII literals). *)
Definition code (c : ascii) : Z := Z.of_N (N_of_ascii c).
Definition chr (z : Z) : ascii := ascii_of_N (Z.to_N z).

Definition is_digit (c : ascii) : bool := (48 <=? code c) && (code c <=? 57).
Definition digit_value (c : ascii) : Z := code c - 48.
Definition digit_char (d : Z) : ascii := chr (48 + d).

(** ** Printing *)

(** The decimal digits of [n], most significant first, in front of [acc];
    [fuel] bounds the number of digits. *)
Fixpoint digits_fuel (fuel : nat) (n : Z) (acc : text) : text :=
  match fuel with
  | O => acc
  | S fuel =>
      let acc := digit_char (n mod 10) :: acc in
      if n <? 10 then acc else digits_fuel fuel (n / 10) acc
  end.

(** std::to_string of a non-negative number. *)
Definition dec (n : Z) : text := digits_fuel (S (Z.to_nat (Z.log2 n))) n [].

(** std::to_string of any number. *)
Definition to_string (n : Z) : text :=
  if n <? 0 then "-"%char :: dec (- n) else dec n.

(** std::setw(w) << std::setfill('0'): pad on the left to width [w]. *)
Definition setw0 (w : nat) (t : text) : text :=
  replicate (w - length t) "0"%char ++ t.

(** ** Scanning *)

(** The value of a run of digits, starting from [acc]. *)
Fixpoint dec_value (acc : Z) (t : text) : Z :=
  match t with
  | [] => acc
  | c :: t => dec_value (acc * 10 + digit_value c) t
  end.

(** Longest prefix of characters satisfying [p], and the rest. *)
Fixpoint span_while (p : ascii -> bool) (t : text) : text * text :=
  match t with
  | c :: t' => if p c then let '(a, b) := span_while p t' in (c :: a, b)
               else ([], t)
  | [] => ([], [])
  end.

(** The characters left when those satisfying [p] are dropped at both ends. *)
Definition trim_both (p : ascii -> bool) (s : text) : text :=
  let t := snd (span_while p s) in
  reverse (snd (span_while p (reverse t))).

(** isspace in the C locale. *)
Definition is_space (c : ascii) : bool :=
  (code c =? 32) || ((9 <=? code c) && (code c <=? 13)).

(** The NUL-terminated view [s.c_str()] of a string. *)
Definition c_str (t : text) : text := fst (span_while (fun c => negb (code c =? 0)) t).

(** The [%lld] conversion: skip white space, an optional sign, at least one
    digit.  The caller bounds the digit runs so that the value fits. *)
Definition scan_lld (t : text) : option (Z * text) :=
  let t := snd (span_while is_space t) in
  let '(neg, t) := match t with
                   | c :: t' => if Ascii.eqb c "-" then (true, t')
                                else if Ascii.eqb c "+" then (false, t')
                                else (false, t)
                   | [] => (false, t)
                   end in
  let '(ds, rest) := span_while is_digit t in
  match ds with
  | [] => None
  | _ => Some ((if neg then - dec_value 0 ds else dec_value 0 ds), rest)
  end.

(** A [std::sscanf] format: [%lld] conversions and literal characters. *)
Inductive directive := Conv | Lit (c : ascii).

(** The values std::sscanf assigns, up to the first directive that fails. *)
Fixpoint sscanf (fmt : list directive) (t : text) : list Z :=
  match fmt with
  | [] => []
  | Conv :: fmt => match scan_lld t with
                   | Some (v, t') => v :: sscanf fmt t'
                   | None => []
                   end
  | Lit c :: fmt => match t with
                    | c' :: t' => if Ascii.eqb c' c then sscanf fmt t' else []
                    | [] => []
                    end
  end.

(** ** Lemmas: characters *)

Lemma code_chr z : 0 <= z < 256 -> code (chr z) = z.
Proof.
  intros. unfold code, chr. rewrite N_ascii_embedding by lia. lia.
Qed.

Lemma code_digit d : 0 <= d < 10 -> code (digit_char d) = 48 + d.
Proof. intros. apply code_chr. lia. Qed.

Lemma code_inj c1 c2 : code c1 = code c2 -> c1 = c2.
Proof.
  unfold code. intros H. rewrite <- (ascii_N_embedding c1), <- (ascii_N_embedding c2).
  f_equal. lia.
Qed.

Lemma eqb_code c1 c2 : Ascii.eqb c1 c2 = (code c1 =? code c2).
Proof.
  destruct (Ascii.eqb_spec c1 c2) as [->|H]; [by rewrite Z.eqb_refl|].
  symmetry. apply Z.eqb_neq. intros E. by apply H, code_inj.
Qed.

Lemma is_digit_digit d : 0 <= d < 10 -> is_digit (digit_char d) = true.
Proof. intros. unfold is_digit. rewrite code_digit by done. by decide_cmp. Qed.

Lemma digit_value_digit d : 0 <= d < 10 -> digit_value (digit_char d) = d.
Proof. intros. unfold digit_value. rewrite code_digit by done. lia. Qed.

Lemma is_digit_range c : is_digit c = true -> 0 <= digit_value c < 10.
Proof. unfold is_digit, digit_value. intros. bool_to_prop. lia. Qed.

(** ** Lemmas: digit runs *)

Definition all_digits (t : text) : Prop := Forall (fun c => is_digit c = true) t.

Lemma dec_value_app acc t1 t2 :
  dec_value acc (t1 ++ t2) = dec_value (dec_value acc t1) t2.
Proof. revert acc. induction t1; intros; cbn; auto. Qed.

Lemma dec_value_shift acc t :
  dec_value acc t = acc * 10 ^ length t + dec_value 0 t.
Proof.
  revert acc. induction t as [|c t IH]; intros; [cbn; lia|].
  cbn [dec_value length]. rewrite IH, (IH (0 * 10 + _)).
  rewrite Nat2Z.inj_succ, Z.pow_succ_r by lia. ring.
Qed.

Lemma dec_value_range t : all_digits t -> 0 <= dec_value 0 t < 10 ^ length t.
Proof.
  induction 1 as [|c t Hc Ht IH]; [cbn; lia|].
  cbn [dec_value length]. rewrite dec_value_shift.
  rewrite Nat2Z.inj_succ, Z.pow_succ_r by lia.
  apply is_digit_range in Hc. nia.
Qed.

Lemma digits_fuel_spec fuel n acc : 0 <= n < 2 ^ Z.of_nat fuel -> all_digits acc ->
  exists ds, digits_fuel fuel n acc = ds ++ acc /\ all_digits ds /\
    dec_value 0 ds = n /\ (0 < fuel -> ds <> [])%nat /\
    (forall k : nat, (0 < k)%nat -> n < 10 ^ k -> (length ds <= k)%nat).
Proof.
  revert n acc. induction fuel as [|fuel IH]; intros n acc Hn Hacc.
  { exists []. cbn in *. repeat split; try done; try constructor; lia. }
  cbn [digits_fuel].
  pose proof (Z.mod_pos_bound n 10 ltac:(lia)) as Hm.
  pose proof (is_digit_digit (n mod 10) Hm) as Hd.
  destruct (Z.ltb_spec n 10).
  - exists [digit_char (n mod 10)]. repeat split; try done.
    + by repeat constructor.
    + cbn. rewrite digit_value_digit by done. rewrite Z.mod_small by lia. lia.
  - rewrite Nat2Z.inj_succ, Z.pow_succ_r in Hn by lia.
    assert (Hdiv : 0 <= n / 10 < 2 ^ fuel) by
      (split; [apply Z.div_pos; lia | apply Z.div_lt_upper_bound; lia]).
    destruct (IH (n / 10) (digit_char (n mod 10) :: acc) Hdiv) as
      (ds & -> & Hds & Hv & Hne & Hlen); [by constructor|].
    exists (ds ++ [digit_char (n mod 10)]). rewrite <- app_assoc. repeat split.
    + apply Forall_app; split; [done | by repeat constructor].
    + rewrite dec_value_app, Hv. cbn. rewrite digit_value_digit by done.
      pose proof (Z.div_mod n 10). lia.
    + intros _ E. by apply app_eq_nil in E as [_ ?].
    + intros k Hk Hlt. rewrite length_app. cbn.
      destruct k as [|k]; [lia|]. rewrite Nat2Z.inj_succ, Z.pow_succ_r in Hlt by lia.
      destruct (decide (k = 0)%nat) as [->|]; [cbn in Hlt; lia|].
      assert (length ds <= k)%nat; [|lia].
      apply Hlen; [lia|]. apply Z.div_lt_upper_bound; lia.
Qed.

(** std::to_string prints a non-empty run of digits whose value is the number
    and which is no longer than necessary. *)
Lemma dec_spec n : 0 <= n ->
  all_digits (dec n) /\ dec_value 0 (dec n) = n /\ dec n <> [] /\
  (forall k : nat, (0 < k)%nat -> n < 10 ^ k -> (length (dec n) <= k)%nat).
Proof.
  intros Hn. unfold dec.
  destruct (digits_fuel_spec (S (Z.to_nat (Z.log2 n))) n []) as
    (ds & -> & Hds & Hv & Hne & Hlen); [|constructor|].
  - rewrite Nat2Z.inj_succ, Z2Nat.id by apply Z.log2_nonneg.
    destruct (decide (n = 0)) as [->|]; [done|].
    pose proof (Z.log2_spec n). lia.
  - rewrite app_nil_r. repeat split; try done. apply Hne. lia.
Qed.

Lemma all_digits_zeros k : all_digits (replicate k "0"%char).
Proof. by apply Forall_replicate. Qed.

Lemma dec_value_zeros k t : dec_value 0 (replicate k "0"%char ++ t) = dec_value 0 t.
Proof. induction k; [done|]. cbn. exact IHk. Qed.

(** A padded number: all digits, same value, and exactly [w] characters when
    the number has at most [w] digits. *)
Lemma setw0_dec_spec w n : 0 <= n ->
  all_digits (setw0 w (dec n)) /\ dec_value 0 (setw0 w (dec n)) = n /\
  setw0 w (dec n) <> [] /\
  ((0 < w)%nat -> n < 10 ^ w -> length (setw0 w (dec n)) = w).
Proof.
  intros Hn. destruct (dec_spec n Hn) as (Hd & Hv & Hne & Hlen). unfold setw0.
  repeat split.
  - apply Forall_app. split; [apply all_digits_zeros | done].
  - by rewrite dec_value_zeros.
  - intros E. by apply app_eq_nil in E as [_ ?].
  - intros Hw Hlt. rewrite length_app, length_replicate.
    specialize (Hlen w Hw Hlt). lia.
Qed.

(** ** Lemmas: scanning *)

(** [t] does not start with a character satisfying [p]. *)
Definition stops (p : ascii -> bool) (t : text) : Prop :=
  match t with [] => True | c :: _ => p c = false end.

Lemma span_while_all p t rest :
  Forall (fun c => p c = true) t -> stops p rest ->
  span_while p (t ++ rest) = (t, rest).
Proof.
  induction 1 as [|c t Hc Ht IH]; intros Hs; cbn.
  - destruct rest as [|c rest]; cbn in *; [done|]. by rewrite Hs.
  - by rewrite Hc, IH.
Qed.

Lemma span_while_app p t : let '(a, b) := span_while p t in
  t = a ++ b /\ Forall (fun c => p c = true) a /\ stops p b.
Proof.
  induction t as [|c t IH]; cbn; [repeat constructor|].
  destruct (p c) eqn:E; [|repeat constructor; cbn; done].
  destruct (span_while p t) as [a b]. destruct IH as (-> & Ha & Hb).
  repeat split; try done. by constructor.
Qed.

Lemma trim_both_app p s : exists w1 w2, s = w1 ++ trim_both p s ++ w2
  /\ Forall (fun c => p c = true) w1 /\ Forall (fun c => p c = true) w2.
Proof.
  unfold trim_both. pose proof (span_while_app p s) as H1.
  destruct (span_while p s) as [w1 t]. destruct H1 as (-> & Hw1 & _). cbn [snd].
  pose proof (span_while_app p (reverse t)) as H2.
  destruct (span_while p (reverse t)) as [w2 r]. destruct H2 as (E & Hw2 & _). cbn [snd].
  exists w1, (reverse w2). rewrite <- reverse_app, <- E, reverse_involutive.
  split; [done|]. split; [done|]. by apply Forall_reverse.
Qed.

Lemma trim_both_core p w1 t w2 : Forall (fun c => p c = true) w1 -> Forall (fun c => p c = true) w2 ->
  stops p t -> stops p (reverse t) -> t <> [] -> trim_both p (w1 ++ t ++ w2) = t.
Proof.
  intros H1 H2 Hs He Hne. unfold trim_both.
  rewrite (span_while_all p w1 (t ++ w2)) by (try done; by destruct t).
  cbn [snd]. rewrite reverse_app, (span_while_all p (reverse w2) (reverse t));
    [by cbn [snd]; rewrite reverse_involutive | by apply Forall_reverse | done].
Qed.

Lemma digit_not_space c : is_digit c = true -> is_space c = false.
Proof. unfold is_digit, is_space. intros. bool_to_prop. by decide_cmp. Qed.

(** Reading back a printed number. *)
Lemma scan_lld_digits t rest : all_digits t -> t <> [] -> stops is_digit rest ->
  scan_lld (t ++ rest) = Some (dec_value 0 t, rest).
Proof.
  intros Ht Hne Hs. destruct t as [|c t]; [done|].
  assert (Hc : is_digit c = true) by (by inversion Ht).
  unfold scan_lld. cbn [app].
  assert (Hsp : snd (span_while is_space (c :: t ++ rest)) = c :: t ++ rest).
  { cbn. by rewrite (digit_not_space _ Hc). }
  rewrite Hsp. rewrite !eqb_code.
  unfold is_digit in Hc. bool_to_prop.
  change (code "-") with 45. change (code "+") with 43. decide_cmp.
  rewrite (app_comm_cons t rest c : c :: t ++ rest = (c :: t) ++ rest).
  by rewrite span_while_all.
Qed.

Lemma c_str_id t : Forall (fun c => code c <> 0) t -> c_str t = t.
Proof.
  intros H. unfold c_str. rewrite <- (app_nil_r t) at 1.
  rewrite span_while_all; [done| |done].
  eapply Forall_weaken; [|exact H]. intros c Hc. cbv beta in *. by decide_cmp.
Qed.

(** A printed field as a digit run. *)
Lemma field_run w n : 0 <= n -> (0 < w <= 18)%nat -> n < 10 ^ Z.of_nat w ->
  all_digits (setw0 w (dec n)) /\ setw0 w (dec n) <> [] /\
  length (setw0 w (dec n)) = w /\ dec_value 0 (setw0 w (dec n)) = n.
Proof.
  intros. destruct (setw0_dec_spec w n) as (? & ? & ? & Hl); [done|].
  rewrite Hl by (lia || done). done.
Qed.

Lemma dec_run w n : 0 <= n -> (0 < w)%nat -> n < 10 ^ Z.of_nat w ->
  all_digits (dec n) /\ dec n <> [] /\ (length (dec n) <= w)%nat /\
  dec_value 0 (dec n) = n.
Proof. intros ? ? ?. destruct (dec_spec n) as (? & ? & ? & Hl); [done|]. auto. Qed.
