(* ===== verification/TextScanner.v ===== *)
(** * The date/time text scanner

    [core/include/System/detail/DateTimeTextScanner.hpp]: the
    full-consumption cursor shared by DateTime, DateOnly, TimeOnly and
    DateTimeOffset.  The cursor ([text_], [index_]) is represented by the text
    not consumed yet; an operation that fails leaves it unchanged, which is
    the [None] result. *)

From S2P Require Export Text.

Module Scanner.

(** isDateTimeTextWhitespace *)
Definition isDateTimeTextWhitespace (c : ascii) : bool :=
  (code c =? 32) || (code c =? 9) || (code c =? 10) || (code c =? 13) ||
  (code c =? 12) || (code c =? 11).

(** The [while (!text.empty() && ws(text.front())) text.remove_prefix(1)] loop. *)
Fixpoint remove_leading (t : text) : text :=
  match t with
  | c :: t' => if isDateTimeTextWhitespace c then remove_leading t' else t
  | [] => []
  end.

Definition trimDateTimeText (t : text) : text :=
  reverse (remove_leading (reverse (remove_leading t))).

Definition atEnd (t : text) : bool := match t with [] => true | _ => false end.

(** take(c): consume [c] if it is next. *)
Definition take (c : ascii) (t : text) : option text :=
  match t with
  | c' :: t' => if Ascii.eqb c' c then Some t' else None
  | [] => None
  end.

(** The accumulation loop of takeDigits: value, digits read, rest. *)
Fixpoint digits_loop (maxDigits : nat) (accumulated : Z) (count : nat) (t : text)
    : Z * nat * text :=
  match maxDigits with
  | O => (accumulated, count, t)
  | S maxDigits =>
      match t with
      | c :: t' =>
          if is_digit c
          then digits_loop maxDigits (accumulated * 10 + digit_value c) (S count) t'
          else (accumulated, count, t)
      | [] => (accumulated, count, [])
      end
  end.

(** takeDigits(minDigits, maxDigits, value, digitCount) *)
Definition takeDigits (minDigits maxDigits : nat) (t : text)
    : option (Z * nat * text) :=
  let '(value, count, rest) := digits_loop maxDigits 0 0 t in
  if (count <? minDigits)%nat then None else Some (value, count, rest).

(** ** DateTimeParts and takeDateTimeParts *)

Record DateTimeParts := mkParts {
  year : Z; month : Z; day : Z;
  hour : Z; minute : Z; second : Z;
  fractionTicks : Z; hasTime : bool }.

(** [while (digits < 7) { fraction *= 10; ++digits; }] *)
Fixpoint scale_to7 (fuel : nat) (fraction : Z) (digits : nat) : Z :=
  match fuel with
  | O => fraction
  | S fuel => if (digits <? 7)%nat then scale_to7 fuel (fraction * 10) (S digits)
              else fraction
  end.

(** [if (take('.')) { takeDigits(1,7,...); scale }] *)
Definition takeFraction (t : text) : option (Z * text) :=
  match take "." t with
  | Some t =>
      match takeDigits 1 7 t with
      | Some (f, digits, t) => Some (scale_to7 7 f digits, t)
      | None => None
      end
  | None => Some (0, t)
  end.

(** [takeDigits(1,2) ':' takeDigits(1,2) ':' takeDigits(1,2)] *)
Definition takeClock (t : text) : option (Z * Z * Z * text) :=
  match takeDigits 1 2 t with
  | Some (h, _, t) =>
      match take ":" t with
      | Some t =>
          match takeDigits 1 2 t with
          | Some (m, _, t) =>
              match take ":" t with
              | Some t =>
                  match takeDigits 1 2 t with
                  | Some (s, _, t) => Some (h, m, s, t)
                  | None => None
                  end
              | None => None
              end
          | None => None
          end
      | None => None
      end
  | None => None
  end.

(** [takeDigits(4,4) '-' takeDigits(1,2) '-' takeDigits(1,2)] *)
Definition takeDate (t : text) : option (Z * Z * Z * text) :=
  match takeDigits 4 4 t with
  | Some (y, _, t) =>
      match take "-" t with
      | Some t =>
          match takeDigits 1 2 t with
          | Some (m, _, t) =>
              match take "-" t with
              | Some t =>
                  match takeDigits 1 2 t with
                  | Some (d, _, t) => Some (y, m, d, t)
                  | None => None
                  end
              | None => None
              end
          | None => None
          end
      | None => None
      end
  | None => None
  end.

Definition takeDateTimeParts (t : text) : option (DateTimeParts * text) :=
  match takeDate t with
  | Some (y, mo, d, t) =>
      match (match take " " t with Some t' => Some t' | None => take "T" t end) with
      | Some t =>
          match takeClock t with
          | Some (h, mi, s, t) =>
              match takeFraction t with
              | Some (f, t) => Some (mkParts y mo d h mi s f true, t)
              | None => None
              end
          | None => None
          end
      | None => Some (mkParts y mo d 0 0 0 0 false, t)
      end
  | None => None
  end.

(** ** takeUtcOffsetMinutes *)
Definition takeUtcOffsetMinutes (t : text) : option (Z * text) :=
  match (match take "-" t with
         | Some t' => Some (true, t')
         | None => match take "+" t with Some t' => Some (false, t') | None => None end
         end) with
  | Some (negative, t) =>
      match takeDigits 1 4 t with
      | Some (value, digits, t) =>
          match (if (digits <=? 2)%nat
                 then match take ":" t with
                      | Some t' => match takeDigits 1 2 t' with
                                   | Some (m, _, t'') => Some (value, m, t'')
                                   | None => None
                                   end
                      | None => Some (value, 0, t)
                      end
                 else Some (Z.quot value 100, Z.rem value 100, t)) with
          | Some (hours, minutes, t) =>
              if minutes >=? 60 then None
              else let signedMinutes := hours * 60 + minutes in
                   Some (if negative then - signedMinutes else signedMinutes, t)
          | None => None
          end
      | None => None
      end
  | None => None
  end.

Arguments scale_to7 : simpl never.

End Scanner.

(** ** Theorems *)

Lemma digits_loop_run max acc cnt ds rest :
  all_digits ds -> (length ds <= max)%nat ->
  (length ds = max \/ stops is_digit rest) ->
  Scanner.digits_loop max acc cnt (ds ++ rest) =
  (dec_value acc ds, (cnt + length ds)%nat, rest).
Proof.
  intros Hds. revert max acc cnt.
  induction Hds as [|c ds Hc Hds IH]; intros max acc cnt Hlen Hstop; cbn in *.
  - rewrite Nat.add_0_r. destruct max as [|max]; [by destruct rest|].
    destruct Hstop as [?|Hs]; [lia|]. destruct rest as [|c rest]; [done|].
    cbn in *. by rewrite Hs.
  - destruct max as [|max]; [lia|]. cbn. rewrite Hc.
    rewrite IH by (lia || (destruct Hstop; [left; lia | by right])).
    f_equal. f_equal. lia.
Qed.

(** takeDigits reads a whole run of digits of an admissible length. *)
Lemma takeDigits_run min max ds rest :
  all_digits ds -> (min <= length ds <= max)%nat ->
  (length ds = max \/ stops is_digit rest) ->
  Scanner.takeDigits min max (ds ++ rest) = Some (dec_value 0 ds, length ds, rest).
Proof.
  intros Hds Hlen Hstop. unfold Scanner.takeDigits.
  rewrite digits_loop_run by (done || lia). cbn [Nat.add].
  by rewrite (proj2 (Nat.ltb_ge (length ds) min)) by lia.
Qed.

Lemma take_hit c rest : Scanner.take c (c :: rest) = Some rest.
Proof. unfold Scanner.take. by rewrite Ascii.eqb_refl. Qed.

Lemma digits_loop_sound max acc cnt t v n rest :
  Scanner.digits_loop max acc cnt t = (v, n, rest) ->
  exists ds, t = ds ++ rest /\ all_digits ds /\ v = dec_value acc ds /\
    n = (cnt + length ds)%nat /\ (length ds <= max)%nat.
Proof.
  revert acc cnt t. induction max as [|max IH]; intros acc cnt t; cbn.
  - intros [= <- <- <-]. exists []. cbn. repeat split; try constructor; lia.
  - destruct t as [|c t]; [|destruct (is_digit c) eqn:Hc].
    + intros [= <- <- <-]. exists []. cbn. repeat split; try constructor; lia.
    + intros (ds & -> & Hds & -> & -> & Hlen)%IH.
      exists (c :: ds). cbn. repeat split; try lia. by constructor.
    + intros [= <- <- <-]. exists []. cbn. repeat split; try constructor; lia.
Qed.

(** What takeDigits consumed: between [min] and [max] digits and nothing else,
    so the value is below [10 ^ max]. *)
Lemma takeDigits_sound min max t v n rest :
  Scanner.takeDigits min max t = Some (v, n, rest) ->
  exists ds, t = ds ++ rest /\ all_digits ds /\ v = dec_value 0 ds /\
    n = length ds /\ (min <= length ds <= max)%nat.
Proof.
  unfold Scanner.takeDigits.
  destruct (Scanner.digits_loop max 0 0 t) as [[v' n'] rest'] eqn:E.
  destruct (Nat.ltb_spec n' min); [done|]. intros [= <- <- <-].
  apply digits_loop_sound in E as (ds & -> & Hds & -> & -> & Hlen). cbn in *.
  exists ds. repeat split; try done; lia.
Qed.

Lemma takeDigits_bound min max t v n rest :
  Scanner.takeDigits min max t = Some (v, n, rest) ->
  0 <= v < 10 ^ Z.of_nat max /\ (length rest <= length t)%nat.
Proof.
  intros (ds & -> & Hds & -> & -> & Hlen)%takeDigits_sound.
  pose proof (dec_value_range ds Hds).
  assert (10 ^ Z.of_nat (length ds) <= 10 ^ Z.of_nat max)
    by (apply Z.pow_le_mono_r; lia).
  rewrite length_app. lia.
Qed.

Lemma take_length c t t' : Scanner.take c t = Some t' -> t = c :: t'.
Proof.
  destruct t as [|c' t]; cbn; [done|]. destruct (Ascii.eqb_spec c' c) as [->|]; [|done].
  by intros [= ->].
Qed.

Lemma scale_to7_value f n : (1 <= n <= 7)%nat ->
  Scanner.scale_to7 7 f n = f * 10 ^ Z.of_nat (7 - n).
Proof.
  intros. unfold Scanner.scale_to7.
  destruct n as [|[|[|[|[|[|[|[|n]]]]]]]]; cbn -[Z.mul]; try lia.
Qed.

(** Trimming. *)
Lemma remove_leading_id t :
  match t with [] => True | c :: _ => Scanner.isDateTimeTextWhitespace c = false end ->
  Scanner.remove_leading t = t.
Proof. destruct t; cbn; [done|]. by intros ->. Qed.

(** A text whose first and last characters are not white space is its own
    trim. *)
Lemma trim_id t :
  (match t with [] => True | c :: _ => Scanner.isDateTimeTextWhitespace c = false end) ->
  (match reverse t with [] => True | c :: _ => Scanner.isDateTimeTextWhitespace c = false end) ->
  Scanner.trimDateTimeText t = t.
Proof.
  intros H1 H2. unfold Scanner.trimDateTimeText.
  rewrite (remove_leading_id t) by done.
  rewrite remove_leading_id by done.
  apply reverse_involutive.
Qed.

Lemma digit_not_ws c : is_digit c = true -> Scanner.isDateTimeTextWhitespace c = false.
Proof.
  unfold is_digit, Scanner.isDateTimeTextWhitespace. intros. bool_to_prop.
  by decide_cmp.
Qed.

(** The characters of a layout: digits and separators. *)
Definition layout_char (c : ascii) : Prop :=
  code c <> 0 /\ Scanner.isDateTimeTextWhitespace c = false.

Lemma digits_layout_char ds : all_digits ds -> Forall layout_char ds.
Proof.
  apply Forall_weaken. intros c Hc. split; [|by apply digit_not_ws].
  unfold is_digit in Hc. bool_to_prop. lia.
Qed.

Lemma separator_char c : c = ":"%char \/ c = "."%char \/ c = "-"%char -> layout_char c.
Proof. intros [->|[->| ->]]; (split; [vm_compute; discriminate | reflexivity]). Qed.

(** ** The texts the scanner reads *)

(** [t] is a run of [lo] to [hi] digits that writes [n]. *)
Definition number (lo hi : nat) (n : Z) (t : text) : Prop :=
  all_digits t /\ (lo <= length t <= hi)%nat /\ dec_value 0 t = n.

Definition white (t : text) : Prop := Forall (fun c => Scanner.isDateTimeTextWhitespace c = true) t.

(** yyyy-M-d *)
Inductive date_read : Z -> Z -> Z -> text -> Prop :=
  | reads_date y m d ty tm td : number 4 4 y ty -> number 1 2 m tm -> number 1 2 d td ->
      date_read y m d (ty ++ "-"%char :: tm ++ "-"%char :: td).

(** H:m:s *)
Inductive clock_read : Z -> Z -> Z -> text -> Prop :=
  | reads_clock h m s th tm ts : number 1 2 h th -> number 1 2 m tm -> number 1 2 s ts ->
      clock_read h m s (th ++ ":"%char :: tm ++ ":"%char :: ts).

(** Nothing, or a point and one to seven digits: the value in ten-millionths. *)
Inductive fraction_read : Z -> text -> Prop :=
  | reads_no_fraction : fraction_read 0 []
  | reads_fraction n t : number 1 7 n t ->
      fraction_read (n * 10 ^ Z.of_nat (7 - length t)) ("."%char :: t).

(** Nothing, which is midnight, or a separator and the time. *)
Inductive time_read : Z -> Z -> Z -> Z -> text -> Prop :=
  | reads_midnight : time_read 0 0 0 0 []
  | reads_time c h m s f tc tf : c = " "%char \/ c = "T"%char -> clock_read h m s tc ->
      fraction_read f tf -> time_read h m s f (c :: tc ++ tf).

(** A signed offset: hours, hours and minutes apart, or three or four digits. *)
Inductive offset_read : Z -> text -> Prop :=
  | reads_hours c h t : number 1 2 h t -> c = "-"%char \/ c = "+"%char ->
      offset_read ((if Ascii.eqb c "-" then -1 else 1) * (h * 60)) (c :: t)
  | reads_hours_minutes c h m th tm : number 1 2 h th -> number 1 2 m tm -> m < 60 ->
      c = "-"%char \/ c = "+"%char ->
      offset_read ((if Ascii.eqb c "-" then -1 else 1) * (h * 60 + m)) (c :: th ++ ":"%char :: tm)
  | reads_basic c n t : number 3 4 n t -> n mod 100 < 60 -> c = "-"%char \/ c = "+"%char ->
      offset_read ((if Ascii.eqb c "-" then -1 else 1) * (n / 100 * 60 + n mod 100)) (c :: t).

Lemma takeDigits_number lo hi t n k r : Scanner.takeDigits lo hi t = Some (n, k, r) ->
  exists ds, t = ds ++ r /\ number lo hi n ds /\ k = length ds.
Proof.
  intros (ds & -> & Hd & -> & -> & Hl)%takeDigits_sound. exists ds. split; [done|].
  split; [|done]. by split.
Qed.

Lemma number_read lo hi n ds r : number lo hi n ds -> stops is_digit r ->
  Scanner.takeDigits lo hi (ds ++ r) = Some (n, length ds, r).
Proof. intros (Hd & Hl & <-) Hr. apply takeDigits_run; [done|done|by right]. Qed.

Lemma number_read_end lo hi n ds : number lo hi n ds ->
  Scanner.takeDigits lo hi ds = Some (n, length ds, []).
Proof. intros H. rewrite <- (app_nil_r ds) at 1. by apply number_read. Qed.

Lemma takeDate_read t y m d r : Scanner.takeDate t = Some (y, m, d, r) ->
  exists td, t = td ++ r /\ date_read y m d td.
Proof.
  unfold Scanner.takeDate.
  destruct (Scanner.takeDigits 4 4 t) as [[[y' ?] t1]|] eqn:E1; [|done].
  destruct (Scanner.take "-" t1) as [t2|] eqn:E2; [|done].
  destruct (Scanner.takeDigits 1 2 t2) as [[[m' ?] t3]|] eqn:E3; [|done].
  destruct (Scanner.take "-" t3) as [t4|] eqn:E4; [|done].
  destruct (Scanner.takeDigits 1 2 t4) as [[[d' ?] t5]|] eqn:E5; [|done].
  intros [= <- <- <- <-].
  apply takeDigits_number in E1 as (ty & -> & Hy & _), E3 as (tm & -> & Hm & _), E5 as (td & -> & Hd & _).
  apply take_length in E2 as ->, E4 as ->.
  exists (ty ++ "-"%char :: tm ++ "-"%char :: td). split; [|by constructor].
  by rewrite <- !app_assoc; cbn; rewrite <- app_assoc.
Qed.

Lemma date_read_takes y m d td r : date_read y m d td -> stops is_digit r ->
  Scanner.takeDate (td ++ r) = Some (y, m, d, r).
Proof.
  intros [y' m' d' ty tm td' Hy Hm Hd] Hr. unfold Scanner.takeDate.
  rewrite <- !app_assoc. cbn [app]. rewrite <- app_assoc. cbn [app].
  by rewrite (number_read _ _ _ _ _ Hy), take_hit, (number_read _ _ _ _ _ Hm), take_hit,
    (number_read _ _ _ _ _ Hd).
Qed.

Lemma takeClock_read t h m s r : Scanner.takeClock t = Some (h, m, s, r) ->
  exists tc, t = tc ++ r /\ clock_read h m s tc.
Proof.
  unfold Scanner.takeClock.
  destruct (Scanner.takeDigits 1 2 t) as [[[h' ?] t1]|] eqn:E1; [|done].
  destruct (Scanner.take ":" t1) as [t2|] eqn:E2; [|done].
  destruct (Scanner.takeDigits 1 2 t2) as [[[m' ?] t3]|] eqn:E3; [|done].
  destruct (Scanner.take ":" t3) as [t4|] eqn:E4; [|done].
  destruct (Scanner.takeDigits 1 2 t4) as [[[s' ?] t5]|] eqn:E5; [|done].
  intros [= <- <- <- <-].
  apply takeDigits_number in E1 as (th & -> & Hh & _), E3 as (tm & -> & Hm & _), E5 as (ts & -> & Hs & _).
  apply take_length in E2 as ->, E4 as ->.
  exists (th ++ ":"%char :: tm ++ ":"%char :: ts). split; [|by constructor].
  by rewrite <- !app_assoc; cbn; rewrite <- app_assoc.
Qed.

Lemma clock_read_takes h m s tc r : clock_read h m s tc -> stops is_digit r ->
  Scanner.takeClock (tc ++ r) = Some (h, m, s, r).
Proof.
  intros [h' m' s' th tm ts Hh Hm Hs] Hr. unfold Scanner.takeClock.
  rewrite <- !app_assoc. cbn [app]. rewrite <- app_assoc. cbn [app].
  by rewrite (number_read _ _ _ _ _ Hh), take_hit, (number_read _ _ _ _ _ Hm), take_hit,
    (number_read _ _ _ _ _ Hs).
Qed.

Lemma takeFraction_read t f r : Scanner.takeFraction t = Some (f, r) ->
  exists tf, t = tf ++ r /\ fraction_read f tf.
Proof.
  unfold Scanner.takeFraction. destruct (Scanner.take "." t) as [t1|] eqn:E1.
  - destruct (Scanner.takeDigits 1 7 t1) as [[[n k] t2]|] eqn:E2; [|done].
    intros [= <- <-]. apply take_length in E1 as ->. apply takeDigits_number in E2 as (ds & -> & Hn & ->).
    exists ("."%char :: ds). split; [done|]. rewrite scale_to7_value by apply Hn. by constructor.
  - intros [= <- <-]. exists []. split; [done|constructor].
Qed.

Lemma fraction_read_takes f tf r : fraction_read f tf -> stops is_digit r ->
  (forall r', r <> "."%char :: r') -> Scanner.takeFraction (tf ++ r) = Some (f, r).
Proof.
  intros [|n t Hn] Hr Hp; unfold Scanner.takeFraction.
  - destruct r as [|c r]; [done|]. cbn. destruct (Ascii.eqb_spec c ".") as [->|]; [by destruct (Hp r)|done].
  - cbn [app]. rewrite take_hit, (number_read _ _ _ _ _ Hn) by done. by rewrite scale_to7_value by apply Hn.
Qed.

(** What may follow the date and the time: not a digit, a point or a separator. *)
Definition zone_first (r : text) : Prop :=
  match r with [] => True | c :: _ => In c ["Z"; "z"; "+"; "-"]%char end.

Lemma zone_first_stops r : zone_first r -> stops is_digit r /\ (forall r', r <> "."%char :: r') /\
  Scanner.take " " r = None /\ Scanner.take "T" r = None.
Proof.
  destruct r as [|c r]; [by repeat split|]. cbn [zone_first In].
  intros [<-|[<-|[<-|[<-|[]]]]]; (split; [reflexivity|]); (split; [intros r'; discriminate|]); by split.
Qed.

Lemma takeDateTimeParts_read t p r : Scanner.takeDateTimeParts t = Some (p, r) ->
  exists td tt, t = td ++ tt ++ r /\
    date_read (Scanner.year p) (Scanner.month p) (Scanner.day p) td /\
    time_read (Scanner.hour p) (Scanner.minute p) (Scanner.second p) (Scanner.fractionTicks p) tt.
Proof.
  unfold Scanner.takeDateTimeParts.
  destruct (Scanner.takeDate t) as [[[[y m] d] t1]|] eqn:E1; [|done].
  apply takeDate_read in E1 as (td & -> & Hd).
  destruct (match Scanner.take " " t1 with Some t' => Some t' | None => Scanner.take "T" t1 end)
    as [t2|] eqn:E2.
  - assert (Hc : exists c, (c = " "%char \/ c = "T"%char) /\ t1 = c :: t2).
    { destruct (Scanner.take " " t1) eqn:E3.
      - injection E2 as ->. apply take_length in E3. eauto.
      - apply take_length in E2. eauto. }
    destruct Hc as (c & Hc & ->).
    destruct (Scanner.takeClock t2) as [[[[h mi] s] t3]|] eqn:E3; [|done].
    apply takeClock_read in E3 as (tc & -> & Hcl).
    destruct (Scanner.takeFraction t3) as [[f t4]|] eqn:E4; [|done].
    apply takeFraction_read in E4 as (tf & -> & Hf). intros [= <- <-].
    exists td, (c :: tc ++ tf). split; [cbn; by rewrite <- app_assoc|]. split; [done|]. by constructor.
  - intros [= <- <-]. exists td, []. split; [done|]. split; [done|constructor].
Qed.

Lemma parts_read_takes y m d h mi s f td tt r : date_read y m d td -> time_read h mi s f tt ->
  zone_first r -> exists b,
  Scanner.takeDateTimeParts (td ++ tt ++ r) = Some (Scanner.mkParts y m d h mi s f b, r).
Proof.
  intros Hd Ht Hr. destruct (zone_first_stops r Hr) as (Hs & Hp & H1 & H2).
  unfold Scanner.takeDateTimeParts. destruct Ht as [|c h mi s f tc tf Hc Hcl Hf].
  - exists false. cbn [app]. by rewrite (date_read_takes _ _ _ _ _ Hd Hs), H1, H2.
  - exists true. cbn [app]. rewrite (date_read_takes _ _ _ _ _ Hd) by (by destruct Hc as [->| ->]).
    assert (E : (match Scanner.take " " (c :: (tc ++ tf) ++ r) with
      Some t' => Some t' | None => Scanner.take "T" (c :: (tc ++ tf) ++ r) end) = Some ((tc ++ tf) ++ r))
      by (by destruct Hc as [->| ->]).
    rewrite E, <- app_assoc, (clock_read_takes _ _ _ _ _ Hcl); [by rewrite (fraction_read_takes _ _ _ Hf)|].
    by destruct Hf.
Qed.

Lemma takeUtcOffsetMinutes_read t k r : Scanner.takeUtcOffsetMinutes t = Some (k, r) ->
  exists to, t = to ++ r /\ offset_read k to.
Proof.
  unfold Scanner.takeUtcOffsetMinutes.
  destruct (match Scanner.take "-" t with Some _ => _ | None => _ end) as [[neg t1]|] eqn:E1; [|done].
  assert (Hc : exists c, t = c :: t1 /\ neg = Ascii.eqb c "-" /\ (c = "-"%char \/ c = "+"%char)).
  { destruct (Scanner.take "-" t) eqn:E2.
    - injection E1 as <- <-. apply take_length in E2. eexists. split; [done|]. by split; [|left].
    - destruct (Scanner.take "+" t) eqn:E3; [|done]. injection E1 as <- <-. apply take_length in E3.
      eexists. split; [done|]. by split; [|right]. }
  destruct Hc as (c & -> & -> & Hc). clear E1.
  destruct (Scanner.takeDigits 1 4 t1) as [[[n l] t2]|] eqn:E2; [|done].
  apply takeDigits_number in E2 as (ds & -> & (Hd & Hl & Hn) & ->).
  destruct (Nat.leb_spec (length ds) 2).
  - destruct (Scanner.take ":" t2) as [t3|] eqn:E3.
    + destruct (Scanner.takeDigits 1 2 t3) as [[[m lm] t4]|] eqn:E4; [|done].
      apply takeDigits_number in E4 as (ms & -> & Hm & _). apply take_length in E3 as ->.
      destruct (m >=? 60) eqn:E5; [done|]. intros [= <- <-].
      exists (c :: ds ++ ":"%char :: ms). split; [cbn; by rewrite <- app_assoc|].
      replace (if Ascii.eqb c "-" then _ else _) with ((if Ascii.eqb c "-" then -1 else 1) * (n * 60 + m))
        by (destruct (Ascii.eqb c "-"); lia).
      apply reads_hours_minutes; [repeat split; done || lia|done|lia|done].
    + change (0 >=? 60) with false. intros [= <- <-]. exists (c :: ds). split; [done|].
      replace (if Ascii.eqb c "-" then _ else _) with ((if Ascii.eqb c "-" then -1 else 1) * (n * 60))
        by (destruct (Ascii.eqb c "-"); lia).
      apply reads_hours; [repeat split; done || lia|done].
  - pose proof (dec_value_range ds Hd) as Hv. rewrite Hn in Hv.
    rewrite Z.quot_div_nonneg, Z.rem_mod_nonneg by lia.
    destruct (n mod 100 >=? 60) eqn:E5; [done|]. intros [= <- <-]. exists (c :: ds). split; [done|].
    replace (if Ascii.eqb c "-" then _ else _)
      with ((if Ascii.eqb c "-" then -1 else 1) * (n / 100 * 60 + n mod 100))
      by (destruct (Ascii.eqb c "-"); lia).
    apply reads_basic; [repeat split; done || lia|lia|done].
Qed.

Lemma offset_read_takes k t : offset_read k t -> Scanner.takeUtcOffsetMinutes t = Some (k, []).
Proof.
  assert (Hw : forall lo hi n ds r, number lo hi n ds -> (1 <= lo)%nat -> (hi <= 4)%nat -> stops is_digit r ->
    Scanner.takeDigits 1 4 (ds ++ r) = Some (n, length ds, r)).
  { intros lo hi n ds r (Hd & Hl & Hn) ? ? Hr. apply number_read; [|done]. repeat split; [done|lia|lia|done]. }
  assert (Hs : forall c (ds : text), c = "-"%char \/ c = "+"%char ->
    (match Scanner.take "-" (c :: ds) with
     | Some t' => Some (true, t')
     | None => match Scanner.take "+" (c :: ds) with Some t' => Some (false, t') | None => None end
     end) = Some (Ascii.eqb c "-", ds)) by (intros c ds [->| ->]; done).
  intros [c h ds Hh Hc|c h m th tm Hh Hm Hlt Hc|c n ds Hn Hlt Hc]; unfold Scanner.takeUtcOffsetMinutes;
    rewrite Hs by done.
  - rewrite <- (app_nil_r ds), (Hw _ _ _ _ _ Hh) by (lia || done). destruct Hh as (_ & Hl & _).
    rewrite (proj2 (Nat.leb_le _ _)) by lia. cbn [Scanner.take]. change (0 >=? 60) with false. cbn iota.
    do 2 f_equal. destruct (Ascii.eqb c "-"); lia.
  - rewrite (Hw _ _ _ _ _ Hh) by (lia || done). destruct Hh as (_ & Hl & _).
    rewrite (proj2 (Nat.leb_le _ _)) by lia. rewrite take_hit, (number_read_end _ _ _ _ Hm).
    replace (m >=? 60) with false by lia. do 2 f_equal. destruct (Ascii.eqb c "-"); lia.
  - rewrite <- (app_nil_r ds), (Hw _ _ _ _ _ Hn) by (lia || done). destruct Hn as (Hd & Hl & Hv).
    pose proof (dec_value_range ds Hd) as Hr. rewrite Hv in Hr.
    rewrite (proj2 (Nat.leb_gt _ _)) by lia. rewrite Z.quot_div_nonneg, Z.rem_mod_nonneg by lia.
    replace (n mod 100 >=? 60) with false by lia. do 2 f_equal. destruct (Ascii.eqb c "-"); lia.
Qed.

(** ** Trimming *)

Lemma remove_leading_split t : exists w, t = w ++ Scanner.remove_leading t /\ white w.
Proof.
  induction t as [|c t (w & E & Hw)]; [by exists []; split; [|constructor]|]. cbn.
  destruct (Scanner.isDateTimeTextWhitespace c) eqn:Ec; [|by exists []; split; [|constructor]].
  exists (c :: w). split; [by rewrite E at 1|]. by constructor.
Qed.

Lemma remove_leading_white w t : white w -> Scanner.remove_leading (w ++ t) = Scanner.remove_leading t.
Proof. induction 1 as [|c w Hc _ IH]; [done|]. cbn. by rewrite Hc. Qed.

Lemma trim_split t : exists a b, t = a ++ Scanner.trimDateTimeText t ++ b /\ white a /\ white b.
Proof.
  destruct (remove_leading_split t) as (a & Ea & Ha).
  destruct (remove_leading_split (reverse (Scanner.remove_leading t))) as (b & Eb & Hb).
  exists a, (reverse b). split; [|split; [done|by apply Forall_reverse]].
  unfold Scanner.trimDateTimeText. rewrite Ea at 1. f_equal.
  apply (f_equal reverse) in Eb. rewrite reverse_involutive, reverse_app in Eb. exact Eb.
Qed.

Lemma trim_around a t b : white a -> white b ->
  (match t with [] => True | c :: _ => Scanner.isDateTimeTextWhitespace c = false end) ->
  (match reverse t with [] => True | c :: _ => Scanner.isDateTimeTextWhitespace c = false end) ->
  t <> [] -> Scanner.trimDateTimeText (a ++ t ++ b) = t.
Proof.
  intros Ha Hb H1 H2 Ht. unfold Scanner.trimDateTimeText.
  rewrite remove_leading_white by done. destruct t as [|c t]; [done|].
  cbn [app Scanner.remove_leading]. rewrite H1. change (c :: t ++ b) with ((c :: t) ++ b).
  rewrite reverse_app, remove_leading_white by (by apply Forall_reverse).
  rewrite remove_leading_id by done. apply reverse_involutive.
Qed.
