(* ===== verification/TimeSpanText.v ===== *)
(** * System::TimeSpan, text conversion

    [core/src/System/TimeSpan.cpp]: ToString(), ToString(format), the parse
    core behind TryParse and Parse, and its round trip with ToString. *)

From S2P Require Export TimeSpanCore TextScanner.

Module TimeSpanText.
Import TimeSpan.

(** ** ToString *)

(** [static_cast<uint64_t>(-(ticks + 1)) + 1] for a negative tick count. *)
Definition magnitude_of (ticks : Z) : Z :=
  if ticks <? 0 then uadd 64 (u64 (- (ticks + 1))) 1 else u64 ticks.

(** The decomposition of the magnitude shared by both ToString overloads. *)
Record fields := mkFields {
  negative : bool; days : Z; hours : Z; minutes : Z; seconds : Z; subTicks : Z }.

Definition fields_of (ticks : Z) : fields :=
  let magnitude := magnitude_of ticks in
  let days := magnitude / TicksPerDay in
  let magnitude := magnitude mod TicksPerDay in
  let hours := magnitude / TicksPerHour in
  let magnitude := magnitude mod TicksPerHour in
  let minutes := magnitude / TicksPerMinute in
  let magnitude := magnitude mod TicksPerMinute in
  let seconds := magnitude / TicksPerSecond in
  let magnitude := magnitude mod TicksPerSecond in
  mkFields (ticks <? 0) days hours minutes seconds magnitude.

Definition sign_text (negative : bool) : text := if negative then ["-"%char] else [].

(** TimeSpan::ToString() *)
Definition ToString (t : TimeSpan) : text :=
  let f := fields_of (ticks_internal t) in
  sign_text (negative f) ++
  (if negb (days f =? 0)
   then dec (days f) ++ "."%char :: setw0 2 (dec (hours f))
   else dec (hours f)) ++
  ":"%char :: setw0 2 (dec (minutes f)) ++
  ":"%char :: setw0 2 (dec (seconds f)) ++
  "."%char :: setw0 7 (dec (subTicks f)).

(** The lambda [pad] of ToString(format). *)
Definition pad (n : Z) (w : nat) : text := setw0 w (dec (Z.abs n)).

(** [run(ch)]: the length of the run of [ch] at the cursor (the cursor is on
    [ch]), and the format after it. *)
Fixpoint run (ch : ascii) (t : text) : nat * text :=
  match t with
  | c :: t' => if Ascii.eqb c ch then let '(n, r) := run ch t' in (S n, r) else (O, t)
  | [] => (O, [])
  end.

(** [while (!s.empty() && s.back() == '0') s.pop_back();] *)
Fixpoint drop_zeros (t : text) : text :=
  match t with
  | c :: t' => if Ascii.eqb c "0" then drop_zeros t' else t
  | [] => []
  end.
Definition pop_back_zeros (t : text) : text := reverse (drop_zeros (reverse t)).

(** The body of a quoted section, up to and including the closing quote. *)
Fixpoint quoted (t : text) : text * text :=
  match t with
  | c :: t' => if Ascii.eqb c "'" then ([], t')
               else let '(q, r) := quoted t' in (c :: q, r)
  | [] => ([], [])
  end.

(** One token of the custom format loop: the text it appends and the format
    left.  [c] is the character under the cursor. *)
Definition format_token (f : fields) (c : ascii) (rest : text) : text * text :=
  let '(n', after) := run c rest in
  let n := S n' in
  if Ascii.eqb c "d" then
    ((if (2 <=? n)%nat then pad (days f) n else dec (Z.abs (days f))), after)
  else if Ascii.eqb c "h" then
    ((if (2 <=? n)%nat then pad (hours f) 2 else to_string (hours f)), after)
  else if Ascii.eqb c "m" then
    ((if (2 <=? n)%nat then pad (minutes f) 2 else to_string (minutes f)), after)
  else if Ascii.eqb c "s" then
    ((if (2 <=? n)%nat then pad (seconds f) 2 else to_string (seconds f)), after)
  else if Ascii.eqb c "f" then
    (take (min n 7) (pad (subTicks f) 7), after)
  else if Ascii.eqb c "'" then quoted rest
  else ([c], rest).

(** The [while (i < format.size())] loop; every token consumes at least one
    character, so the format's length is enough fuel. *)
Fixpoint format_loop (fuel : nat) (f : fields) (format : text) : text :=
  match fuel with
  | O => []
  | S fuel =>
      match format with
      | [] => []
      | c :: rest =>
          let '(out, format) := format_token f c rest in
          out ++ format_loop fuel f format
      end
  end.

(** TimeSpan::ToString(format) *)
Definition ToStringFormat (t : TimeSpan) (format : text) : text :=
  let f := fields_of (ticks_internal t) in
  let longForm := bool_decide (format = str "G") in
  if bool_decide (format = str "g") || longForm then
    sign_text (negative f) ++
    (if longForm || negb (days f =? 0) then to_string (days f) ++ [":"%char] else []) ++
    (if longForm then pad (hours f) 2 else to_string (hours f)) ++
    ":"%char :: pad (minutes f) 2 ++
    ":"%char :: pad (seconds f) 2 ++
    (if longForm then "."%char :: pad (subTicks f) 7
     else if negb (subTicks f =? 0)
     then "."%char :: pop_back_zeros (pad (subTicks f) 7)
     else [])
  else sign_text (negative f) ++ format_loop (length format) f format.

(** ** Parsing *)

Inductive TimeSpanParseOutcome :=
  | POk (result : TimeSpan) | PBadFormat | POverflow.

Definition kParseMaxDays : Z := 10675199.
Definition kParseMaxDigitRun : nat := 18.

(** hasOverlongDigitRun, with the counter [run] of the loop. *)
Fixpoint overlong_from (run : nat) (s : text) : bool :=
  match s with
  | [] => false
  | ch :: s =>
      if is_digit ch
      then if (kParseMaxDigitRun <? S run)%nat then true else overlong_from (S run) s
      else overlong_from 0 s
  end.
Definition hasOverlongDigitRun (s : text) : bool := overlong_from 0 s.

(** [while ( *pScan && *pScan != ':')]: is there a '.' before the first ':'? *)
Fixpoint dot_before_colon (p : text) : bool :=
  match p with
  | [] => false
  | c :: p => if Ascii.eqb c ":" then false
              else if Ascii.eqb c "." then true
              else dot_before_colon p
  end.

(** [while ( *afterSec && colons < 2)]: skip past two colons. *)
Fixpoint skip_colons (colons : nat) (p : text) : text :=
  match p with
  | [] => []
  | c :: p' =>
      if (2 <=? colons)%nat then p
      else skip_colons (if Ascii.eqb c ":" then S colons else colons) p'
  end.

Definition fmt_days : list directive :=
  [Conv; Lit "."; Conv; Lit ":"; Conv; Lit ":"; Conv].
Definition fmt_hours : list directive := [Conv; Lit ":"; Conv; Lit ":"; Conv].

(** The fields sscanf extracts: [None] when not every conversion matched. *)
Definition scan_fields (p : text) : option (Z * Z * Z * Z) :=
  if dot_before_colon p
  then match sscanf fmt_days p with
       | [d; h; m; s] => Some (d, h, m, s)
       | _ => None
       end
  else match sscanf fmt_hours p with
       | [h; m; s] => Some (0, h, m, s)
       | _ => None
       end.

(** The fractional part after the seconds, and what follows it. *)
Definition scan_fraction (afterSec : text) : Z * text :=
  match afterSec with
  | c :: t =>
      if Ascii.eqb c "."
      then let '(fracVal, fracDigits, rest) := Scanner.digits_loop 7 0 0 t in
           (Scanner.scale_to7 7 fracVal fracDigits, rest)
      else (0, afterSec)
  | [] => (0, [])
  end.

(** The unsigned accumulation of the magnitude. *)
Definition parse_magnitude (days hours minutes seconds subsecTicks : Z) : Z :=
  uadd 64 (uadd 64 (uadd 64 (uadd 64 (umul 64 (u64 days) TicksPerDay)
                                     (umul 64 (u64 hours) TicksPerHour))
                            (umul 64 (u64 minutes) TicksPerMinute))
                   (umul 64 (u64 seconds) TicksPerSecond))
          (u64 subsecTicks).

(** The tail of parseTimeSpanCore: sign and range of the magnitude. *)
Definition apply_sign (negative : bool) (magnitude : Z) : TimeSpanParseOutcome :=
  if negative
  then if magnitude >? LONGCS_MAX + 1 then POverflow
       else POk (mk (i64 (usub 64 0 magnitude)))
  else if magnitude >? LONGCS_MAX then POverflow
       else POk (mk (i64 magnitude)).

(** parseTimeSpanCore after the optional sign has been consumed. *)
Definition parse_unsigned (negative : bool) (p : text) : TimeSpanParseOutcome :=
  match scan_fields p with
  | None => PBadFormat
  | Some (days, hours, minutes, seconds) =>
      if (hours <? 0) || (hours >? 23) || (minutes <? 0) || (minutes >? 59) ||
         (seconds <? 0) || (seconds >? 59)
      then PBadFormat
      else if days <? 0 then PBadFormat
      else if days >? kParseMaxDays then POverflow
      else
        let afterSec := snd (span_while is_digit (skip_colons 0 p)) in
        let '(subsecTicks, rest) := scan_fraction afterSec in
        match rest with
        | _ :: _ => PBadFormat
        | [] => apply_sign negative
                  (parse_magnitude days hours minutes seconds subsecTicks)
        end
  end.

Definition parseTimeSpanCore (s : text) : TimeSpanParseOutcome :=
  match s, reverse s with
  | front :: _, back :: _ =>
      let needTrim := Scanner.isDateTimeTextWhitespace front ||
                      Scanner.isDateTimeTextWhitespace back in
      let input := if needTrim then Scanner.trimDateTimeText s else s in
      if needTrim && Scanner.atEnd input then PBadFormat
      else if hasOverlongDigitRun input then POverflow
      else
        match c_str input with
        | c :: p => if Ascii.eqb c "-" then parse_unsigned true p
                    else parse_unsigned false (c :: p)
        | [] => parse_unsigned false []
        end
  | _, _ => PBadFormat
  end.

Definition TryParse (s : text) : option TimeSpan :=
  match parseTimeSpanCore s with POk t => Some t | _ => None end.

(** Bytes back to a string, for exception messages. *)
Definition string_of (t : text) : string := String.string_of_list_ascii t.

Definition Parse (s : text) : res TimeSpan :=
  match parseTimeSpanCore s with
  | POk t => Ok t
  | POverflow => Throw (OverflowException (String.append "The TimeSpan string '"
      (String.append (string_of s) "' could not be parsed because at least one of the numeric components is out of range or contains too many digits.")))
  | PBadFormat => Throw (FormatException
      (String.append "String was not recognized as a valid TimeSpan: " (string_of s)))
  end.

End TimeSpanText.

(** ** Tests on concrete inputs *)

Example ToString_min : TimeSpanText.ToString TimeSpan.MinValue =
  str "-10675199.02:48:05.4775808".
Proof. reflexivity. Qed.

Example Parse_min : TimeSpanText.Parse (str "-10675199.02:48:05.4775808") =
  Ok TimeSpan.MinValue.
Proof. reflexivity. Qed.

Example Parse_examples :
  map TimeSpanText.parseTimeSpanCore
    [str " 12: 34:56 "; str "12:34:56garbage"; str "--5.00:00:00";
     str "10675200.00:00:00"; str "1:2:3."; str "24:00:00"] =
  [TimeSpanText.POk (TimeSpan.mk 452960000000); TimeSpanText.PBadFormat;
   TimeSpanText.PBadFormat; TimeSpanText.POverflow;
   TimeSpanText.POk (TimeSpan.mk 37230000000); TimeSpanText.PBadFormat].
Proof. reflexivity. Qed.

(** ** The canonical layout and how the parser reads it *)

Lemma overlong_run_digits n ds rest : all_digits ds -> (n + length ds <= 18)%nat ->
  TimeSpanText.overlong_from n (ds ++ rest) =
  TimeSpanText.overlong_from (n + length ds) rest.
Proof.
  intros Hds. revert n. induction Hds as [|c ds Hc Hds IH]; intros n Hn; cbn [app TimeSpanText.overlong_from length] in *.
  - by rewrite Nat.add_0_r.
  - rewrite Hc. unfold TimeSpanText.kParseMaxDigitRun.
    rewrite (proj2 (Nat.ltb_ge 18 (S n))) by lia.
    rewrite IH by lia. f_equal. lia.
Qed.


Lemma overlong_separator n c rest : is_digit c = false ->
  TimeSpanText.overlong_from n (c :: rest) = TimeSpanText.overlong_from 0 rest.
Proof. intros Hc. cbn. by rewrite Hc. Qed.


Lemma dot_before_colon_digits ds rest : all_digits ds ->
  TimeSpanText.dot_before_colon (ds ++ rest) = TimeSpanText.dot_before_colon rest.
Proof.
  induction 1 as [|c ds Hc Hds IH]; [done|]. cbn. rewrite !eqb_code.
  unfold is_digit in Hc. bool_to_prop.
  change (code ":") with 58. change (code ".") with 46. by decide_cmp.
Qed.


Lemma sscanf_digits fmt c ds rest : all_digits ds -> ds <> [] -> is_digit c = false ->
  sscanf (Conv :: Lit c :: fmt) (ds ++ c :: rest) = dec_value 0 ds :: sscanf fmt rest.
Proof.
  intros. cbn [sscanf]. rewrite scan_lld_digits by done. by rewrite Ascii.eqb_refl.
Qed.


Lemma skip_colons_none k ds rest : (k < 2)%nat ->
  Forall (fun c => Ascii.eqb c ":" = false) ds ->
  TimeSpanText.skip_colons k (ds ++ rest) = TimeSpanText.skip_colons k rest.
Proof.
  intros Hk. induction 1 as [|c ds Hc Hds IH]; [done|]. cbn.
  rewrite Hc. destruct k as [|[|k]]; [done..|lia].
Qed.


Lemma digits_no_colon ds : all_digits ds -> Forall (fun c => Ascii.eqb c ":" = false) ds.
Proof.
  apply Forall_weaken. intros c Hc. cbv beta. rewrite eqb_code.
  unfold is_digit in Hc. bool_to_prop. change (code ":") with 58. by decide_cmp.
Qed.


(** What may follow a canonical text without changing how it is read. *)
Definition ignored_tail (tail : text) : Prop :=
  tail = [] \/
  exists g a, tail = chr 0 :: g ++ [a] /\
    TimeSpanText.hasOverlongDigitRun (g ++ [a]) = false /\
    Scanner.isDateTimeTextWhitespace a = false.

Lemma overlong_app n s c g : is_digit c = false ->
  TimeSpanText.overlong_from n (s ++ c :: g) =
  TimeSpanText.overlong_from n s || TimeSpanText.overlong_from 0 g.
Proof.
  intros Hc. revert n. induction s as [|a s IH]; intros n; cbn [app TimeSpanText.overlong_from].
  - by rewrite Hc.
  - destruct (is_digit a); [|apply IH]. destruct (_ <? _)%nat; [done | apply IH].
Qed.

Lemma c_str_app s g : Forall (fun c => code c <> 0) s -> c_str (s ++ chr 0 :: g) = s.
Proof.
  intros H. unfold c_str. rewrite span_while_all; [done| |done].
  eapply Forall_weaken; [|exact H]. intros c Hc. cbv beta in *. by decide_cmp.
Qed.

Lemma ignored_tail_c_str s tail : ignored_tail tail ->
  Forall (fun c => code c <> 0) s -> c_str (s ++ tail) = s.
Proof.
  intros [->|(g & a & -> & _)] H; [rewrite app_nil_r; by apply c_str_id | by apply c_str_app].
Qed.

Lemma ignored_tail_overlong s tail : ignored_tail tail ->
  TimeSpanText.hasOverlongDigitRun s = false ->
  TimeSpanText.hasOverlongDigitRun (s ++ tail) = false.
Proof.
  unfold TimeSpanText.hasOverlongDigitRun.
  intros [->|(g & a & -> & H & _)] Hs; [by rewrite app_nil_r|].
  rewrite overlong_app, Hs by reflexivity. exact H.
Qed.

Lemma ignored_tail_back s tail : ignored_tail tail -> s <> [] -> Forall layout_char s ->
  exists b r, reverse (s ++ tail) = b :: r /\ Scanner.isDateTimeTextWhitespace b = false.
Proof.
  intros [->|(g & a & -> & _ & Ha)] Hs Hc.
  - rewrite app_nil_r. destruct (reverse s) as [|b r] eqn:E.
    { apply (f_equal reverse) in E. by rewrite reverse_involutive in E. }
    exists b, r. split; [done|].
    assert (Forall layout_char (b :: r)) as [[_ ?] _]%Forall_cons; [|done].
    rewrite <- E. by apply Forall_reverse.
  - exists a, (reverse (s ++ chr 0 :: g)). split; [|done].
    rewrite app_comm_cons, app_assoc. apply reverse_snoc.
Qed.

Section layout.
Context (od : option text) (h m s f : text).
Context (Hod : forall d, od = Some d -> all_digits d /\ d <> [] /\ (length d <= 18)%nat).
Context (Hh : all_digits h /\ h <> [] /\ (length h <= 18)%nat).
Context (Hm : all_digits m /\ m <> [] /\ (length m <= 18)%nat).
Context (Hs : all_digits s /\ s <> [] /\ (length s <= 18)%nat).
Context (Hf : all_digits f /\ f <> [] /\ (length f <= 7)%nat).

(** [[d.]h:m:s.f] *)
Definition days_text : text := match od with Some d => d ++ ["."%char] | None => [] end.
Definition layout : text :=
  days_text ++ h ++ ":"%char :: m ++ ":"%char :: s ++ "."%char :: f.
Definition layout_days : Z := match od with Some d => dec_value 0 d | None => 0 end.

Lemma layout_not_overlong neg :
  TimeSpanText.hasOverlongDigitRun (TimeSpanText.sign_text neg ++ layout) = false.
Proof.
  unfold TimeSpanText.hasOverlongDigitRun, layout, days_text.
  assert (Hrest : TimeSpanText.overlong_from 0
    (h ++ ":"%char :: m ++ ":"%char :: s ++ "."%char :: f) = false).
  { repeat (rewrite overlong_run_digits by (tauto || lia);
            rewrite overlong_separator by done).
    rewrite <- (app_nil_r f), overlong_run_digits by (tauto || lia). done. }
  assert (Hbody : TimeSpanText.overlong_from 0 layout = false).
  { unfold layout, days_text. destruct od as [d|] eqn:E; [|done].
    destruct (Hod d eq_refl) as (? & ? & ?). rewrite <- app_assoc.
    rewrite overlong_run_digits by (done || lia). cbn [app].
    by rewrite overlong_separator. }
  destruct neg; [|done]. cbn [TimeSpanText.sign_text app].
  by rewrite overlong_separator.
Qed.

Lemma layout_dot :
  TimeSpanText.dot_before_colon layout = match od with Some _ => true | None => false end.
Proof.
  unfold layout, days_text. destruct od as [d|] eqn:E.
  - destruct (Hod d eq_refl) as (? & _). rewrite <- app_assoc.
    by rewrite dot_before_colon_digits.
  - cbn [app]. rewrite dot_before_colon_digits by tauto. done.
Qed.

Lemma layout_fields :
  TimeSpanText.scan_fields layout =
  Some (layout_days, dec_value 0 h, dec_value 0 m, dec_value 0 s).
Proof.
  unfold TimeSpanText.scan_fields. rewrite layout_dot.
  destruct Hh as (? & ? & _), Hm as (? & ? & _), Hs as (? & ? & _).
  unfold layout, layout_days, days_text, TimeSpanText.fmt_days, TimeSpanText.fmt_hours.
  destruct od as [d|] eqn:E.
  - destruct (Hod d eq_refl) as (? & ? & _). rewrite <- app_assoc. cbn [app].
    rewrite !sscanf_digits by done. cbn [sscanf].
    rewrite scan_lld_digits by done. done.
  - cbn [app]. rewrite !sscanf_digits by done. cbn [sscanf].
    rewrite scan_lld_digits by done. done.
Qed.

Lemma layout_after_seconds :
  snd (span_while is_digit (TimeSpanText.skip_colons 0 layout)) = "."%char :: f.
Proof.
  unfold layout.
  assert (Hd : Forall (fun c => Ascii.eqb c ":" = false) days_text).
  { unfold days_text. destruct od as [d|] eqn:E; [|constructor].
    apply Forall_app. split; [|by repeat constructor].
    apply digits_no_colon, Hod. done. }
  rewrite (skip_colons_none 0 days_text) by (done || lia).
  rewrite (skip_colons_none 0 h) by (lia || apply digits_no_colon; tauto).
  cbn [TimeSpanText.skip_colons]. cbn [Nat.leb Ascii.eqb Bool.eqb].
  rewrite (skip_colons_none 1 m) by (lia || apply digits_no_colon; tauto).
  cbn [TimeSpanText.skip_colons]. cbn [Nat.leb Ascii.eqb Bool.eqb].
  replace (TimeSpanText.skip_colons 2 (s ++ "."%char :: f)) with (s ++ "."%char :: f)
    by (destruct s; done).
  rewrite span_while_all by (tauto || done). done.
Qed.

Definition layout_fraction : Z := dec_value 0 f * 10 ^ Z.of_nat (7 - length f).

Lemma layout_scan_fraction :
  TimeSpanText.scan_fraction ("."%char :: f) = (layout_fraction, []).
Proof.
  unfold TimeSpanText.scan_fraction. cbn [Ascii.eqb Bool.eqb].
  rewrite <- (app_nil_r f) at 1.
  destruct Hf as (? & Hne & ?). rewrite digits_loop_run by (done || lia || by right).
  rewrite scale_to7_value; [done|].
  destruct f; [done|]. cbn in *. lia.
Qed.

Definition layout_ok : Prop :=
  dec_value 0 h <= 23 /\ dec_value 0 m <= 59 /\ dec_value 0 s <= 59 /\
  layout_days <= 10675199.

Lemma layout_days_nonneg : 0 <= layout_days.
Proof.
  unfold layout_days. destruct od as [d|] eqn:E; [|lia].
  apply dec_value_range, Hod. done.
Qed.

Lemma layout_parse_unsigned neg : layout_ok ->
  TimeSpanText.parse_unsigned neg layout =
  TimeSpanText.apply_sign neg
    (TimeSpanText.parse_magnitude layout_days (dec_value 0 h) (dec_value 0 m)
       (dec_value 0 s) layout_fraction).
Proof.
  intros (Hhv & Hmv & Hsv & Hdv). unfold TimeSpanText.parse_unsigned.
  rewrite layout_fields, layout_after_seconds, layout_scan_fraction.
  pose proof layout_days_nonneg.
  pose proof (dec_value_range h ltac:(tauto)). pose proof (dec_value_range m ltac:(tauto)).
  pose proof (dec_value_range s ltac:(tauto)).
  unfold TimeSpanText.kParseMaxDays. decide_cmp. done.
Qed.

Lemma layout_chars neg : Forall layout_char (TimeSpanText.sign_text neg ++ layout).
Proof.
  unfold layout, days_text.
  apply Forall_app; split; [destruct neg; repeat constructor; done|].
  apply Forall_app; split.
  { destruct od as [d|] eqn:E; [|constructor]. apply Forall_app; split;
      [by apply digits_layout_char, Hod | repeat constructor; apply separator_char; tauto]. }
  repeat (apply Forall_app; split; [apply digits_layout_char; tauto|];
          apply Forall_cons; split; [apply separator_char; tauto|]).
  apply digits_layout_char. tauto.
Qed.

Lemma layout_cons neg : exists c t, TimeSpanText.sign_text neg ++ layout = c :: t.
Proof.
  destruct (TimeSpanText.sign_text neg ++ layout) as [|c t] eqn:E; [|by eauto].
  apply app_eq_nil in E as [_ E]. unfold layout in E.
  apply app_eq_nil in E as [_ E]. apply app_eq_nil in E as [_ E]. done.
Qed.

Lemma layout_first_not_sign : forall c t, layout = c :: t -> Ascii.eqb c "-" = false.
Proof.
  intros c t E.
  assert (Hc : is_digit c = true).
  { unfold layout, days_text in E. destruct od as [d|] eqn:Eo.
    - destruct (Hod d eq_refl) as (Hd & ? & _). destruct d; [done|].
      injection E as -> _. by inversion Hd.
    - destruct Hh as (Hh' & ? & _). destruct h; [done|].
      injection E as -> _. by inversion Hh'. }
  rewrite eqb_code. unfold is_digit in Hc. bool_to_prop.
  change (code "-") with 45. by decide_cmp.
Qed.

(** The parser reads a canonical layout as the magnitude of its fields. *)
Lemma layout_parse neg tail : layout_ok -> ignored_tail tail ->
  TimeSpanText.parseTimeSpanCore ((TimeSpanText.sign_text neg ++ layout) ++ tail) =
  TimeSpanText.apply_sign neg
    (TimeSpanText.parse_magnitude layout_days (dec_value 0 h) (dec_value 0 m)
       (dec_value 0 s) layout_fraction).
Proof.
  intros Hok Htail. pose proof (layout_chars neg) as Hchars.
  pose proof (ignored_tail_overlong _ _ Htail (layout_not_overlong neg)) as Hrun.
  destruct (layout_cons neg) as (c & t & E).
  destruct (ignored_tail_back (TimeSpanText.sign_text neg ++ layout) tail Htail)
    as (b & r & Er & Hb); [by rewrite E | done |].
  assert (Hstr : c_str ((TimeSpanText.sign_text neg ++ layout) ++ tail) = c :: t).
  { rewrite ignored_tail_c_str; [done | done |].
    eapply Forall_weaken; [|exact Hchars]. by intros ? [? _]. }
  unfold TimeSpanText.parseTimeSpanCore. rewrite E in *.
  apply Forall_cons in Hchars as [Hc Ht]. cbn [app] in *.
  rewrite Er, (proj2 Hc), Hb. cbn [orb andb]. rewrite Hrun, Hstr.
  destruct neg; cbn [TimeSpanText.sign_text app] in E.
  - injection E as <- <-. cbn [Ascii.eqb Bool.eqb]. by apply layout_parse_unsigned.
  - rewrite (layout_first_not_sign c t E). rewrite <- E. by apply layout_parse_unsigned.
Qed.

End layout.

(** ** The fields of a duration *)

Lemma magnitude_of_abs x : in_s 64 x -> TimeSpanText.magnitude_of x = Z.abs x.
Proof.
  intros H. unfold TimeSpanText.magnitude_of, uadd, u64. eval_pow.
  destruct (Z.ltb_spec x 0).
  - rewrite (wrapu_id 64 (- (x + 1))) by (eval_pow; lia).
    rewrite wrapu_id by (eval_pow; lia). lia.
  - rewrite wrapu_id by (eval_pow; lia). lia.
Qed.

Definition fields_in_range (f : TimeSpanText.fields) : Prop :=
  0 <= TimeSpanText.days f <= 10675199 /\ 0 <= TimeSpanText.hours f < 24 /\
  0 <= TimeSpanText.minutes f < 60 /\ 0 <= TimeSpanText.seconds f < 60 /\
  0 <= TimeSpanText.subTicks f < 10000000.

Definition fields_magnitude (f : TimeSpanText.fields) : Z :=
  TimeSpanText.days f * 864000000000 + TimeSpanText.hours f * 36000000000 +
  TimeSpanText.minutes f * 600000000 + TimeSpanText.seconds f * 10000000 +
  TimeSpanText.subTicks f.

Lemma fields_of_spec x : in_s 64 x ->
  fields_in_range (TimeSpanText.fields_of x) /\
  fields_magnitude (TimeSpanText.fields_of x) = Z.abs x /\
  TimeSpanText.negative (TimeSpanText.fields_of x) = (x <? 0).
Proof.
  intros H. unfold fields_in_range, fields_magnitude, TimeSpanText.fields_of.
  rewrite magnitude_of_abs by done. cbn.
  change TimeSpan.TicksPerDay with 864000000000.
  change TimeSpan.TicksPerHour with 36000000000.
  change TimeSpan.TicksPerMinute with 600000000.
  change TimeSpan.TicksPerSecond with 10000000. eval_pow.
  set (a := Z.abs x) in *. assert (0 <= a <= 9223372036854775808) by lia. clearbody a.
  pose proof (Z.div_mod a 864000000000 ltac:(lia)).
  pose proof (Z.mod_pos_bound a 864000000000 ltac:(lia)).
  set (r := a mod 864000000000) in *.
  pose proof (Z.div_mod r 36000000000 ltac:(lia)).
  pose proof (Z.mod_pos_bound r 36000000000 ltac:(lia)).
  set (r2 := r mod 36000000000) in *.
  pose proof (Z.div_mod r2 600000000 ltac:(lia)).
  pose proof (Z.mod_pos_bound r2 600000000 ltac:(lia)).
  set (r3 := r2 mod 600000000) in *.
  pose proof (Z.div_mod r3 10000000 ltac:(lia)).
  pose proof (Z.mod_pos_bound r3 10000000 ltac:(lia)).
  lia.
Qed.

(** The unsigned accumulation is exact on in-range fields. *)
Lemma parse_magnitude_exact d h m s f :
  0 <= d <= 10675199 -> 0 <= h <= 23 -> 0 <= m <= 59 -> 0 <= s <= 59 ->
  0 <= f < 10000000 ->
  TimeSpanText.parse_magnitude d h m s f =
  d * 864000000000 + h * 36000000000 + m * 600000000 + s * 10000000 + f.
Proof.
  intros. unfold TimeSpanText.parse_magnitude, uadd, umul, u64.
  change TimeSpan.TicksPerDay with 864000000000.
  change TimeSpan.TicksPerHour with 36000000000.
  change TimeSpan.TicksPerMinute with 600000000.
  change TimeSpan.TicksPerSecond with 10000000.
  rewrite <- (wrapu_id 64 (d * 864000000000 + _ + _ + _ + f)) by (eval_pow; lia).
  wrap_eq.
Qed.

Lemma apply_sign_abs x : in_s 64 x ->
  TimeSpanText.apply_sign (x <? 0) (Z.abs x) = TimeSpanText.POk (TimeSpan.mk x).
Proof.
  intros H. unfold TimeSpanText.apply_sign. eval_pow. rewrite !Z.gtb_ltb.
  destruct (Z.ltb_spec x 0); decide_cmp.
  - unfold i64, usub. rewrite wrapu_eqm. do 2 f_equal.
    rewrite wraps_id by (eval_pow; lia). lia.
  - unfold i64. rewrite wraps_id by (eval_pow; lia). do 2 f_equal. lia.
Qed.

(** The layout in which both ToString and the custom format
    [d.hh:mm:ss.fffffff] print a duration. *)
Definition printed (withDays : bool) (f : TimeSpanText.fields) : text :=
  TimeSpanText.sign_text (TimeSpanText.negative f) ++
  layout (if withDays then Some (dec (TimeSpanText.days f)) else None)
    (if withDays then setw0 2 (dec (TimeSpanText.hours f)) else dec (TimeSpanText.hours f))
    (setw0 2 (dec (TimeSpanText.minutes f))) (setw0 2 (dec (TimeSpanText.seconds f)))
    (setw0 7 (dec (TimeSpanText.subTicks f))).

(** Reading back a printed duration, with or without the days. *)
Lemma parse_printed withDays x tail : in_s 64 x -> ignored_tail tail ->
  (withDays = false -> TimeSpanText.days (TimeSpanText.fields_of x) = 0) ->
  TimeSpanText.parseTimeSpanCore (printed withDays (TimeSpanText.fields_of x) ++ tail) =
  TimeSpanText.POk (TimeSpan.mk x).
Proof.
  intros Hx Htail Hd0. destruct (fields_of_spec x Hx) as ((Hd & Hh & Hm & Hs & Hf) & Hmag & Hneg).
  unfold printed. rewrite Hneg. set (f := TimeSpanText.fields_of x) in *.
  clearbody f.
  destruct (dec_run 8 (TimeSpanText.days f)) as (? & ? & ? & Hdv); [cbn; lia..|].
  destruct (dec_run 2 (TimeSpanText.hours f)) as (? & ? & ? & Hhv); [cbn; lia..|].
  destruct (field_run 2 (TimeSpanText.hours f)) as (? & ? & ? & Hhv'); [cbn; lia..|].
  destruct (field_run 2 (TimeSpanText.minutes f)) as (? & ? & ? & Hmv); [cbn; lia..|].
  destruct (field_run 2 (TimeSpanText.seconds f)) as (? & ? & ? & Hsv); [cbn; lia..|].
  destruct (field_run 7 (TimeSpanText.subTicks f)) as (? & ? & Hfl & Hfv); [cbn; lia..|].
  assert (Hval : layout_days (if withDays then Some (dec (TimeSpanText.days f)) else None)
                 = TimeSpanText.days f).
  { unfold layout_days. destruct withDays; [done|]. by rewrite Hd0. }
  assert (Hhour : dec_value 0 (if withDays then setw0 2 (dec (TimeSpanText.hours f))
                    else dec (TimeSpanText.hours f)) = TimeSpanText.hours f)
    by (by destruct withDays).
  rewrite layout_parse; unfold layout_ok; rewrite ?Hval, ?Hhour, ?Hmv, ?Hsv; try lia; try done.
  - unfold layout_fraction. rewrite Hfv, Hfl. cbn [Nat.sub].
    rewrite Z.mul_1_r, parse_magnitude_exact by lia.
    fold (fields_magnitude f). rewrite Hmag. by apply apply_sign_abs.
  - intros d Hdd. destruct withDays; [|done]. injection Hdd as <-. split_and!; [done..|lia].
  - destruct withDays; split_and!; try done; lia.
  - split_and!; [done..|lia].
  - split_and!; [done..|lia].
  - split_and!; [done..|lia].
Qed.

Lemma ToString_printed t :
  TimeSpanText.ToString t =
  printed (negb (TimeSpanText.days (TimeSpanText.fields_of (TimeSpan.ticks_internal t)) =? 0))
    (TimeSpanText.fields_of (TimeSpan.ticks_internal t)).
Proof.
  unfold TimeSpanText.ToString, printed, layout, days_text.
  destruct (negb _); cbn [app]; rewrite <- ?app_assoc; done.
Qed.

(** Reading back ToString, possibly followed by an ignored tail. *)
Lemma parse_ToString t tail : TimeSpan.wf t -> ignored_tail tail ->
  TimeSpanText.parseTimeSpanCore (TimeSpanText.ToString t ++ tail) = TimeSpanText.POk t.
Proof.
  intros Ht Htail. rewrite ToString_printed. destruct t as [x].
  apply parse_printed; [done|done|]. intros E. bool_to_prop. done.
Qed.

Lemma no_tail : ignored_tail [].
Proof. by left. Qed.

(** Text round trip: for every 64-bit duration, including TimeSpan.MinValue,
    Parse and TryParse read the output of ToString() back as the same value. *)
Theorem TimeSpan_text_roundtrip t (Ht : TimeSpan.wf t) :
  TimeSpanText.Parse (TimeSpanText.ToString t) = Ok t /\
  TimeSpanText.TryParse (TimeSpanText.ToString t) = Some t.
Proof.
  unfold TimeSpanText.Parse, TimeSpanText.TryParse.
  rewrite <- (app_nil_r (TimeSpanText.ToString t)), parse_ToString by auto using no_tail.
  done.
Qed.

Lemma TimeSpan_text_roundtrip_witness :
  TimeSpanText.Parse (TimeSpanText.ToString TimeSpan.MinValue) = Ok TimeSpan.MinValue.
Proof.
  refine (proj1 (TimeSpan_text_roundtrip TimeSpan.MinValue _)).
  unfold TimeSpan.wf, in_s; cbn; lia.
Defined.

(** ** Custom format *)

(** The format whose output the parser reads back. *)
Definition constant_format : text := str "d.hh:mm:ss.fffffff".

Lemma take_setw7 n : 0 <= n < 10000000 -> take 7 (setw0 7 (dec n)) = setw0 7 (dec n).
Proof.
  intros. destruct (field_run 7 n) as (_ & _ & Hl & _); [cbn; lia..|].
  apply take_ge. lia.
Qed.

Lemma format_constant f : fields_in_range f ->
  TimeSpanText.sign_text (TimeSpanText.negative f) ++
    TimeSpanText.format_loop (length constant_format) f constant_format =
  printed true f.
Proof.
  intros (Hd & Hh & Hm & Hs & Hf). unfold printed, layout, days_text. f_equal.
  rewrite <- app_assoc. unfold constant_format. cbn -[dec setw0 take].
  unfold TimeSpanText.pad. rewrite !Z.abs_eq by lia.
  rewrite take_setw7 by lia. cbn -[dec setw0]. by rewrite app_nil_r.
Qed.

(** The custom format [d.hh:mm:ss.fffffff] is lossless: for every 64-bit
    duration Parse reads its output back as the same value. *)
Theorem TimeSpan_custom_format_roundtrip t (Ht : TimeSpan.wf t) :
  TimeSpanText.Parse (TimeSpanText.ToStringFormat t constant_format) = Ok t.
Proof.
  unfold TimeSpanText.Parse, TimeSpanText.ToStringFormat.
  change (bool_decide (constant_format = str "G")) with false.
  change (bool_decide (constant_format = str "g")) with false. cbn [orb].
  destruct t as [x]. cbn [TimeSpan.ticks_internal].
  rewrite format_constant by (by apply fields_of_spec).
  rewrite <- (app_nil_r (printed _ _)), parse_printed; [done | exact Ht | exact no_tail | done].
Qed.

Lemma TimeSpan_custom_format_roundtrip_witness :
  TimeSpanText.Parse (TimeSpanText.ToStringFormat (TimeSpan.mk (-1)) constant_format) =
  Ok (TimeSpan.mk (-1)).
Proof.
  refine (TimeSpan_custom_format_roundtrip (TimeSpan.mk (-1)) _).
  unfold TimeSpan.wf, in_s; cbn; lia.
Defined.

(** ** What the parser accepts *)

Lemma scan_fraction_bound p f rest :
  TimeSpanText.scan_fraction p = (f, rest) -> 0 <= f < 10000000.
Proof.
  unfold TimeSpanText.scan_fraction. destruct p as [|c p]; [intros [= <- _]; lia|].
  destruct (Ascii.eqb c "."); [|intros [= <- _]; lia].
  destruct (Scanner.digits_loop 7 0 0 p) as [[v n] r] eqn:E. intros [= <- _].
  apply digits_loop_sound in E as (ds & _ & Hds & -> & -> & Hlen). cbn [Nat.add].
  pose proof (dec_value_range ds Hds).
  destruct ds as [|c0 ds]; [by vm_compute|].
  rewrite scale_to7_value by (cbn [length] in *; lia).
  set (l := length (c0 :: ds)) in *.
  assert (10 ^ Z.of_nat l * 10 ^ Z.of_nat (7 - l) = 10000000).
  { rewrite <- Z.pow_add_r by lia. replace (Z.of_nat l + Z.of_nat (7 - l)) with 7 by lia.
    done. }
  pose proof (Z.pow_pos_nonneg 10 (Z.of_nat (7 - l)) ltac:(lia) ltac:(lia)). nia.
Qed.

Lemma apply_sign_sound neg mag t : 0 <= mag < 2 ^ 64 ->
  TimeSpanText.apply_sign neg mag = TimeSpanText.POk t ->
  TimeSpan.ticks_internal t = (if neg then - mag else mag) /\ TimeSpan.wf t.
Proof.
  intros Hmag. unfold TimeSpanText.apply_sign, TimeSpan.wf. rewrite !Z.gtb_ltb.
  unfold i64, usub. rewrite wrapu_eqm.
  destruct neg; split_if; intros [= <-]; cbn [TimeSpan.ticks_internal];
    rewrite wraps_id by (eval_pow; lia); (split; [lia | eval_pow; lia]).
Qed.

Lemma parse_unsigned_sound neg p t :
  TimeSpanText.parse_unsigned neg p = TimeSpanText.POk t ->
  exists f, fields_in_range f /\ TimeSpanText.negative f = neg /\
    TimeSpan.ticks_internal t =
      (if neg then - fields_magnitude f else fields_magnitude f) /\ TimeSpan.wf t.
Proof.
  unfold TimeSpanText.parse_unsigned, TimeSpanText.kParseMaxDays.
  destruct (TimeSpanText.scan_fields p) as [[[[d h] m] s]|]; [|done].
  destruct (_ || _) eqn:Eb; [done|]. split_if; [done|]. split_if; [done|]. bool_to_prop.
  destruct (TimeSpanText.scan_fraction _) as [f rest] eqn:Ef.
  apply scan_fraction_bound in Ef. destruct rest; [|done].
  rewrite parse_magnitude_exact by lia. intros Hsign.
  apply apply_sign_sound in Hsign as [Ht Hwf]; [|lia].
  exists (TimeSpanText.mkFields neg d h m s f).
  unfold fields_in_range, fields_magnitude. cbn in *. split_and!; try done; lia.
Qed.

(** Soundness of the parser: an accepted text denotes a sign, at most
    10675199 days, hours below 24, minutes and seconds below 60 and fewer than
    10^7 ticks, and the result is exactly their signed sum: no accepted text
    wraps around. *)
Theorem TimeSpan_parse_sound s t :
  TimeSpanText.TryParse s = Some t ->
  exists f, fields_in_range f /\
    TimeSpan.ticks_internal t =
      (if TimeSpanText.negative f then - fields_magnitude f else fields_magnitude f) /\
    TimeSpan.wf t.
Proof.
  unfold TimeSpanText.TryParse.
  destruct (TimeSpanText.parseTimeSpanCore s) as [t'| |] eqn:E; [|done|done].
  intros [= ->]. revert E. unfold TimeSpanText.parseTimeSpanCore.
  assert (Hp : forall neg p, TimeSpanText.parse_unsigned neg p = TimeSpanText.POk t ->
    exists f, fields_in_range f /\ TimeSpan.ticks_internal t =
      (if TimeSpanText.negative f then - fields_magnitude f else fields_magnitude f) /\
      TimeSpan.wf t).
  { intros neg p (f & ? & <- & ? & ?)%parse_unsigned_sound. by exists f. }
  destruct s as [|c s]; [done|]. destruct (reverse (c :: s)); [done|].
  cbv zeta. destruct (_ && _); [done|]. destruct (TimeSpanText.hasOverlongDigitRun _); [done|].
  destruct (c_str _) as [|c' p]; [apply Hp|]. destruct (Ascii.eqb c' "-"); apply Hp.
Qed.

Lemma TimeSpan_parse_sound_witness :
  TimeSpanText.TryParse (str "  2.03:04:05.5") = Some (TimeSpan.mk 1838455000000) /\
  exists f, fields_in_range f /\
    1838455000000 =
      (if TimeSpanText.negative f then - fields_magnitude f else fields_magnitude f).
Proof.
  split; [vm_compute; reflexivity|].
  destruct (TimeSpan_parse_sound (str "  2.03:04:05.5") (TimeSpan.mk 1838455000000)
    ltac:(vm_compute; reflexivity)) as (f & Hf & Ht & _).
  exists f. split; [exact Hf | exact Ht].
Defined.

(** ** The C-string view of the input *)

(** The parser stops at an embedded NUL: whatever follows it (as long as
    it has no run of more than 18 digits and no white space at its end) is
    silently ignored, although the code means to reject unconsumed trailing
    content. *)
Theorem TimeSpan_parse_ignores_after_nul t g a (Ht : TimeSpan.wf t)
  (Hrun : TimeSpanText.hasOverlongDigitRun (g ++ [a]) = false)
  (Ha : Scanner.isDateTimeTextWhitespace a = false) :
  TimeSpanText.Parse (TimeSpanText.ToString t ++ chr 0 :: g ++ [a]) = Ok t.
Proof.
  unfold TimeSpanText.Parse. rewrite parse_ToString; [done|done|].
  right. by exists g, a.
Qed.

Lemma TimeSpan_parse_ignores_after_nul_witness :
  TimeSpanText.Parse (TimeSpanText.ToString (TimeSpan.mk 5) ++ chr 0 :: str "garbag" ++ str "e") =
  Ok (TimeSpan.mk 5).
Proof.
  refine (TimeSpan_parse_ignores_after_nul (TimeSpan.mk 5) (str "garbag") "e"%char _ _ _).
  - unfold TimeSpan.wf, in_s; cbn; lia.
  - reflexivity.
  - reflexivity.
Defined.
