(* ===== verification/Calendar.v ===== *)
(** * The proleptic Gregorian calendar

    The reference the calendar code of [System::DateTime] and
    [System::DateOnly] is compared with: day numbers counted from 0001-01-01,
    and the facts that make a day number and a (year, month, day) triple
    determine each other. *)

From S2P Require Export MachineInt.

Module Calendar.

Definition is_leap (y : Z) : bool :=
  (y mod 4 =? 0) && (negb (y mod 100 =? 0) || (y mod 400 =? 0)).

(** Days before 1 January of year [y]. *)
Definition days_before_year (y : Z) : Z :=
  (y - 1) * 365 + (y - 1) / 4 - (y - 1) / 100 + (y - 1) / 400.

(** Days before the first of month [m + 1] in a common or leap year. *)
Definition cumulative (leap : bool) (m : Z) : Z :=
  nth (Z.to_nat m)
    (if leap then [0;31;60;91;121;152;182;213;244;274;305;335;366]
     else [0;31;59;90;120;151;181;212;243;273;304;334;365]) 0.

Definition month_days (y m : Z) : Z :=
  cumulative (is_leap y) m - cumulative (is_leap y) (m - 1).

Definition year_days (y : Z) : Z := if is_leap y then 366 else 365.

Definition valid_date (y m d : Z) : Prop :=
  1 <= y <= 9999 /\ 1 <= m <= 12 /\ 1 <= d <= month_days y m.

(** Day number of a date, day 0 being 0001-01-01. *)
Definition day_number (y m d : Z) : Z :=
  days_before_year y + cumulative (is_leap y) (m - 1) + d - 1.

End Calendar.
Export Calendar.

(** Case analysis on a month number known to be in 1..12. *)
Ltac month_cases m :=
  let H := fresh in
  assert (m = 1 \/ m = 2 \/ m = 3 \/ m = 4 \/ m = 5 \/ m = 6 \/ m = 7 \/ m = 8 \/
          m = 9 \/ m = 10 \/ m = 11 \/ m = 12) as H by lia;
  repeat destruct H as [H|H]; subst m.

Lemma is_leap_spec y : is_leap y = true <->
  y mod 4 = 0 /\ (y mod 100 <> 0 \/ y mod 400 = 0).
Proof.
  unfold is_leap. rewrite andb_true_iff, orb_true_iff, negb_true_iff, !Z.eqb_eq, Z.eqb_neq.
  done.
Qed.

(** A year splits into its place in the 400-year cycle. *)
Lemma year_cycle y : 1 <= y -> exists a b c e,
  y = 400 * a + 100 * b + 4 * c + e + 1 /\
  0 <= a /\ 0 <= b <= 3 /\ 0 <= c <= 24 /\ 0 <= e <= 3.
Proof.
  intros. exists ((y - 1) / 400), ((y - 1) mod 400 / 100),
    ((y - 1) mod 100 / 4), ((y - 1) mod 4). zlia.
Qed.

Lemma days_before_cycle a b c e : 0 <= b <= 3 -> 0 <= c <= 24 -> 0 <= e <= 3 ->
  days_before_year (400 * a + 100 * b + 4 * c + e + 1) =
  146097 * a + 36524 * b + 1461 * c + 365 * e.
Proof.
  intros. unfold days_before_year.
  replace (400 * a + 100 * b + 4 * c + e + 1 - 1) with
    (400 * a + 100 * b + 4 * c + e) by lia.
  rewrite <- (Z.div_unique (400 * a + 100 * b + 4 * c + e) 4 (100 * a + 25 * b + c) e) by lia.
  rewrite <- (Z.div_unique (400 * a + 100 * b + 4 * c + e) 100 (4 * a + b) (4 * c + e)) by lia.
  rewrite <- (Z.div_unique (400 * a + 100 * b + 4 * c + e) 400 a (100 * b + 4 * c + e)) by lia.
  lia.
Qed.

Lemma is_leap_cycle a b c e : 0 <= b <= 3 -> 0 <= c <= 24 -> 0 <= e <= 3 ->
  is_leap (400 * a + 100 * b + 4 * c + e + 1) =
  (e =? 3) && (negb (c =? 24) || (b =? 3)).
Proof.
  intros. apply eq_true_iff_eq.
  rewrite is_leap_spec, andb_true_iff, orb_true_iff, negb_true_iff, !Z.eqb_eq, Z.eqb_neq.
  zlia.
Qed.

Lemma days_before_next y : 1 <= y ->
  days_before_year (y + 1) = days_before_year y + year_days y.
Proof.
  intros Hy. unfold year_days. destruct (is_leap y) eqn:E.
  - apply is_leap_spec in E. unfold days_before_year. zlia.
  - assert (~ (y mod 4 = 0 /\ (y mod 100 <> 0 \/ y mod 400 = 0))) as H
      by (rewrite <- is_leap_spec; congruence).
    unfold days_before_year. zlia.
Qed.

Lemma days_before_mono y y' : 1 <= y -> y <= y' -> days_before_year y <= days_before_year y'.
Proof. intros. unfold days_before_year. zlia. Qed.

Lemma days_before_bounds y : 1 <= y <= 9999 -> 0 <= days_before_year y <= 3651694.
Proof.
  intros. pose proof (days_before_mono 1 y). pose proof (days_before_mono y 9999).
  change (days_before_year 1) with 0 in *. change (days_before_year 9999) with 3651694 in *.
  lia.
Qed.

Lemma cumulative_month leap m : 1 <= m <= 12 ->
  28 <= cumulative leap m - cumulative leap (m - 1) <= 31.
Proof. intros. month_cases m; destruct leap; split; by vm_compute. Qed.

Lemma cumulative_mono leap i j : 0 <= i -> i < j -> j <= 12 ->
  cumulative leap i + 28 <= cumulative leap j.
Proof.
  intros Hi Hij. replace j with (i + Z.of_nat (S (Z.to_nat (j - i - 1)))) by lia.
  generalize (Z.to_nat (j - i - 1)) as n.
  induction n as [|n IH]; intros Hj.
  - pose proof (cumulative_month leap (i + 1) ltac:(lia)).
    replace (i + 1 - 1) with i in * by lia. change (Z.of_nat 1) with 1. lia.
  - specialize (IH ltac:(lia)).
    pose proof (cumulative_month leap (i + Z.of_nat (S (S n))) ltac:(lia)).
    replace (i + Z.of_nat (S (S n)) - 1) with (i + Z.of_nat (S n)) in * by lia. lia.
Qed.

Lemma cumulative_bounds leap m : 0 <= m <= 12 ->
  0 <= cumulative leap m <= (if leap then 366 else 365).
Proof.
  intros. assert (m = 0 \/ 1 <= m <= 12) as [->|Hm] by lia; [by destruct leap|].
  month_cases m; destruct leap; split; by vm_compute.
Qed.

Lemma cumulative_0 leap : cumulative leap 0 = 0.
Proof. by destruct leap. Qed.

Lemma cumulative_12 leap : cumulative leap 12 = if leap then 366 else 365.
Proof. by destruct leap. Qed.

(** The day of the year a valid date falls on. *)
Lemma day_of_year_bounds leap m d : 1 <= m <= 12 ->
  1 <= d <= cumulative leap m - cumulative leap (m - 1) ->
  0 <= cumulative leap (m - 1) + d - 1 < (if leap then 366 else 365).
Proof.
  intros Hm Hd. pose proof (cumulative_bounds leap m ltac:(lia)).
  pose proof (cumulative_bounds leap (m - 1) ltac:(lia)). lia.
Qed.

Lemma day_number_in_year y m d : valid_date y m d ->
  days_before_year y <= day_number y m d < days_before_year (y + 1).
Proof.
  intros (Hy & Hm & Hd). rewrite days_before_next by lia. unfold day_number, year_days.
  pose proof (day_of_year_bounds (is_leap y) m d Hm Hd). lia.
Qed.

Lemma day_number_range y m d : valid_date y m d -> 0 <= day_number y m d <= 3652058.
Proof.
  intros H. pose proof (day_number_in_year _ _ _ H). destruct H as (Hy & _).
  pose proof (days_before_bounds y Hy).
  pose proof (days_before_mono (y + 1) 10000 ltac:(lia) ltac:(lia)).
  change (days_before_year 10000) with 3652059 in *. lia.
Qed.

(** The day number orders dates lexicographically ... *)
Lemma day_number_lt y m d y' m' d' : valid_date y m d -> valid_date y' m' d' ->
  y < y' \/ (y = y' /\ (m < m' \/ (m = m' /\ d < d'))) ->
  day_number y m d < day_number y' m' d'.
Proof.
  intros H H' [Hlt|(<- & [Hlt|[<- Hlt]])].
  - pose proof (day_number_in_year _ _ _ H). pose proof (day_number_in_year _ _ _ H').
    pose proof (days_before_mono (y + 1) y' ltac:(unfold valid_date in *; lia) ltac:(lia)). lia.
  - destruct H as (_ & ? & Hd), H' as (_ & ? & Hd'). unfold day_number, month_days in *.
    assert (cumulative (is_leap y) m <= cumulative (is_leap y) (m' - 1)); [|lia].
    destruct (decide (m = m' - 1)) as [->|]; [lia|].
    pose proof (cumulative_mono (is_leap y) m (m' - 1) ltac:(lia) ltac:(lia) ltac:(lia)). lia.
  - unfold day_number. lia.
Qed.

(** ... and determines them. *)
Lemma day_number_inj y m d y' m' d' : valid_date y m d -> valid_date y' m' d' ->
  day_number y m d = day_number y' m' d' -> y = y' /\ m = m' /\ d = d'.
Proof.
  intros H H' E.
  pose proof (day_number_lt y m d y' m' d' H H') as L1.
  pose proof (day_number_lt y' m' d' y m d H' H) as L2. lia.
Qed.

(** The C++ leap-year test (truncating [%]) on the years that pass the range
    checks. *)
Lemma leap_rem y : 1 <= y ->
  (Z.rem y 4 =? 0) && (negb (Z.rem y 100 =? 0) || (Z.rem y 400 =? 0)) = is_leap y.
Proof. intros. unfold is_leap. by rewrite !Z.rem_mod_nonneg by lia. Qed.
