(* ===== verification/DateTime.v ===== *)
(** * System::DateTime

    [core/src/System/DateTime.cpp] and [core/include/System/DateTime.hpp]: the
    packed representation (ticks and kind in one 64-bit word), the component
    constructors, the calendar decomposition, the arithmetic and the
    conversions between kinds. *)

From S2P Require Export TimeSpanCore Calendar.

Module DateTime.

(** ** Constants *)

Definition TicksPerMillisecond : Z := 10000.
Definition TicksPerSecond : Z := 10000000.
Definition TicksPerMinute : Z := 600000000.
Definition TicksPerHour : Z := 36000000000.
Definition TicksPerDay : Z := 864000000000.
Definition UnixEpochTicks : Z := 621355968000000000.
Definition MaxTicks : Z := 3155378975999999999.
Definition MaxDays : Z := Z.quot MaxTicks TicksPerDay.
Definition MaxHours : Z := Z.quot MaxTicks TicksPerHour.
Definition TicksMask : Z := 4611686018427387903.
Definition FlagsMask : Z := 13835058055282163712.
Definition kKindShift : Z := 62.

(** ** Representation *)

Record DateTime := mk { dateData_ : Z }.

Definition ticks (this : DateTime) : Z := i64 (Z.land (dateData_ this) TicksMask).

(** enum class DateTimeKind, and its integer values *)
Inductive DateTimeKind := Unspecified | Utc | Local.

Definition kind_value (k : DateTimeKind) : Z :=
  match k with Unspecified => 0 | Utc => 1 | Local => 2 end.

(** [static_cast<DateTimeKind>(raw)], for the raw values the code produces. *)
Definition kind_of (raw : Z) : DateTimeKind :=
  if raw =? 1 then Utc else if raw =? 2 then Local else Unspecified.

Definition throwIfInvalidKind (raw : Z) : res unit :=
  throw_if (u32 raw >? 2) (ArgumentException "Invalid DateTimeKind value." "kind").

Definition ticks_out_of_range : exn :=
  ArgumentOutOfRangeException "ticks"
    "Ticks must be between DateTime.MinValue.Ticks and DateTime.MaxValue.Ticks.".

(** DateTime(longcs ticks) *)
Definition of_ticks (ticks : Z) : res DateTime :=
  _ <- throw_if ((ticks <? 0) || (ticks >? MaxTicks)) ticks_out_of_range ;;
  Ok (mk (u64 ticks)).

(** DateTime(longcs ticks, DateTimeKind kind); [kind] is the raw enum value. *)
Definition of_ticks_kind (ticks kind : Z) : res DateTime :=
  _ <- throw_if ((ticks <? 0) || (ticks >? MaxTicks)) ticks_out_of_range ;;
  _ <- throwIfInvalidKind kind ;;
  Ok (mk (Z.lor (u64 ticks) (ushl 64 (u32 kind) kKindShift))).

Definition getTicks (this : DateTime) : Z := ticks this.

Definition getKind (this : DateTime) : DateTimeKind :=
  let kind := u32 (Z.shiftr (dateData_ this) kKindShift) in
  kind_of (Z.land kind (unot 32 (Z.shiftr kind 1))).

Definition SpecifyKind (value : DateTime) (kind : Z) : res DateTime :=
  _ <- throwIfInvalidKind kind ;;
  of_ticks_kind (ticks value) kind.

Definition withTicksPreservingKind (this : DateTime) (replacementTicks : Z) : res DateTime :=
  result <- of_ticks replacementTicks ;;
  Ok (mk (Z.lor (dateData_ result) (Z.land (dateData_ this) FlagsMask))).

(** ** Calendar components to ticks *)

Definition d365 : list Z := [0;31;59;90;120;151;181;212;243;273;304;334;365].
Definition d366 : list Z := [0;31;60;91;121;152;182;213;244;274;305;335;366].

(** [(year % 4 == 0) && (year % 100 != 0 || year % 400 == 0)] *)
Definition leap_year (year : Z) : bool :=
  (Z.rem year 4 =? 0) && (negb (Z.rem year 100 =? 0) || (Z.rem year 400 =? 0)).

(** [static_cast<uintcs>(v) >= bound] *)
Definition at_least (v bound : Z) : bool := u32 v >=? bound.

(** dateToTicks: every signed 64-bit operation is checked. *)
Definition dateToTicks (year month day hour minute second millisecond : Z) : res Z :=
  _ <- throw_if ((year <? 1) || (year >? 9999) || (month <? 1) || (month >? 12) || (day <? 1))
         (ArgumentOutOfRangeException "year" "DateTime: date component out of range") ;;
  let d := if leap_year year then d366 else d365 in
  upto <- get d month ;;
  before <- get d (month - 1) ;;
  _ <- throw_if (day >? upto - before)
         (ArgumentOutOfRangeException "day" "DateTime: day out of range for given month") ;;
  _ <- throw_if (at_least hour 24 || at_least minute 60 || at_least second 60)
         (ArgumentOutOfRangeException EmptyString
            "Hour, Minute, and Second parameters describe an un-representable DateTime.") ;;
  _ <- throw_if (at_least millisecond 1000)
         (ArgumentOutOfRangeException "millisecond"
            "Valid values are between 0 and 999, inclusive.") ;;
  let y := year - 1 in
  let days := y * 365 + Z.quot y 4 - Z.quot y 100 + Z.quot y 400 + before + day - 1 in
  dt <- smul 64 days TicksPerDay ;;
  ht <- smul 64 hour TicksPerHour ;;
  mt <- smul 64 minute TicksPerMinute ;;
  st <- smul 64 second TicksPerSecond ;;
  mst <- smul 64 millisecond TicksPerMillisecond ;;
  s1 <- sadd 64 dt ht ;;
  s2 <- sadd 64 s1 mt ;;
  s3 <- sadd 64 s2 st ;;
  sadd 64 s3 mst.

(** DateTime(year, month, day, hour, minute, second, millisecond) and the
    shorter constructors *)
Definition of_ymdhmsm (year month day hour minute second millisecond : Z) : res DateTime :=
  t <- dateToTicks year month day hour minute second millisecond ;;
  Ok (mk (u64 t)).
Definition of_ymdhms (year month day hour minute second : Z) : res DateTime :=
  of_ymdhmsm year month day hour minute second 0.
Definition of_ymd (year month day : Z) : res DateTime := of_ymdhms year month day 0 0 0.

(** ** Ticks to calendar components *)

(** The fields of [std::tm] the code fills. *)
Record tm := mkTm {
  tm_year : Z; tm_mon : Z; tm_mday : Z; tm_yday : Z; tm_wday : Z;
  tm_hour : Z; tm_min : Z; tm_sec : Z }.

Definition daysPerYear : Z := 365.
Definition daysPer4Years : Z := daysPerYear * 4 + 1.
Definition daysPer100Years : Z := daysPer4Years * 25 - 1.
Definition daysPer400Years : Z := daysPer100Years * 4 + 1.

(** [while (remainingDays >= daysToMonth[month]) ++month;]: the table has 13
    entries, so 13 iterations leave it. *)
Fixpoint find_month (fuel : nat) (daysToMonth : list Z) (remainingDays month : Z) : res Z :=
  match fuel with
  | O => UB
  | S fuel =>
      d <- get daysToMonth month ;;
      if remainingDays >=? d then find_month fuel daysToMonth remainingDays (month + 1)
      else Ok month
  end.

Definition toTm (this : DateTime) : res tm :=
  let rawTicks := ticks this in
  let absoluteDays := i32 (Z.quot rawTicks TicksPerDay) in
  let years400 := Z.quot absoluteDays daysPer400Years in
  let remainingDays := absoluteDays - years400 * daysPer400Years in
  let years100 := Z.quot remainingDays daysPer100Years in
  let years100 := if years100 =? 4 then 3 else years100 in
  let remainingDays := remainingDays - years100 * daysPer100Years in
  let years4 := Z.quot remainingDays daysPer4Years in
  let remainingDays := remainingDays - years4 * daysPer4Years in
  let years1 := Z.quot remainingDays daysPerYear in
  let years1 := if years1 =? 4 then 3 else years1 in
  let year := years400 * 400 + years100 * 100 + years4 * 4 + years1 + 1 in
  let remainingDays := remainingDays - years1 * daysPerYear in
  let leap := (years1 =? 3) && (negb (years4 =? 24) || (years100 =? 3)) in
  let daysToMonth := if leap then d366 else d365 in
  month <- find_month 13 daysToMonth remainingDays (sshr remainingDays 5 + 1) ;;
  before <- get daysToMonth (month - 1) ;;
  let timeTicks := Z.rem rawTicks TicksPerDay in
  let hour := i32 (Z.quot timeTicks TicksPerHour) in
  let timeTicks := Z.rem timeTicks TicksPerHour in
  let min := i32 (Z.quot timeTicks TicksPerMinute) in
  let timeTicks := Z.rem timeTicks TicksPerMinute in
  Ok (mkTm (year - 1900) (month - 1) (remainingDays - before + 1) remainingDays
        (Z.rem (absoluteDays + 1) 7) hour min
        (i32 (Z.quot timeTicks TicksPerSecond))).

Definition getYear (this : DateTime) : res Z := t <- toTm this ;; Ok (tm_year t + 1900).
Definition getMonth (this : DateTime) : res Z := t <- toTm this ;; Ok (tm_mon t + 1).
Definition getDay (this : DateTime) : res Z := t <- toTm this ;; Ok (tm_mday t).
Definition getHour (this : DateTime) : res Z := t <- toTm this ;; Ok (tm_hour t).
Definition getMinute (this : DateTime) : res Z := t <- toTm this ;; Ok (tm_min t).
Definition getSecond (this : DateTime) : res Z := t <- toTm this ;; Ok (tm_sec t).
Definition getMillisecond (this : DateTime) : Z :=
  i32 (Z.quot (Z.rem (ticks this) TicksPerSecond) TicksPerMillisecond).
(** The DayOfWeek value: 0 is Sunday. *)
Definition getDayOfWeek (this : DateTime) : res Z := t <- toTm this ;; Ok (tm_wday t).
Definition getDayOfYear (this : DateTime) : res Z := t <- toTm this ;; Ok (tm_yday t + 1).
Definition getTimeOfDay (this : DateTime) : TimeSpan.TimeSpan :=
  TimeSpan.mk (Z.rem (ticks this) TicksPerDay).

(** ** Arithmetic *)

Definition add_out_of_range : exn :=
  ArgumentOutOfRangeException "value" "Value to add was out of range.".

Definition AddTicks (this : DateTime) (value : Z) : res DateTime :=
  let newTicks := uadd 64 (u64 (ticks this)) (u64 value) in
  _ <- throw_if (newTicks >? u64 MaxTicks) add_out_of_range ;;
  withTicksPreservingKind this (i64 newTicks).

Definition Add (this : DateTime) (value : TimeSpan.TimeSpan) : res DateTime :=
  AddTicks this (TimeSpan.getTicks value).

Definition AddDays (this : DateTime) (days : Z) : res DateTime :=
  _ <- throw_if ((days <? - MaxDays) || (days >? MaxDays)) add_out_of_range ;;
  t <- smul 64 days TicksPerDay ;;
  AddTicks this t.

Definition AddHours (this : DateTime) (hours : Z) : res DateTime :=
  _ <- throw_if ((hours <? - MaxHours) || (hours >? MaxHours)) add_out_of_range ;;
  t <- smul 64 hours TicksPerHour ;;
  AddTicks this t.

Definition AddMinutes (this : DateTime) (minutes : Z) : res DateTime :=
  t <- smul 64 minutes TicksPerMinute ;; AddTicks this t.
Definition AddSeconds (this : DateTime) (seconds : Z) : res DateTime :=
  t <- smul 64 seconds TicksPerSecond ;; AddTicks this t.
Definition AddMilliseconds (this : DateTime) (milliseconds : Z) : res DateTime :=
  t <- smul 64 milliseconds TicksPerMillisecond ;; AddTicks this t.

(** Subtract(const TimeSpan&) *)
Definition SubtractSpan (this : DateTime) (value : TimeSpan.TimeSpan) : res DateTime :=
  let diff := usub 64 (u64 (ticks this)) (u64 (TimeSpan.getTicks value)) in
  _ <- throw_if (diff >? u64 MaxTicks) add_out_of_range ;;
  withTicksPreservingKind this (i64 diff).

(** Subtract(const DateTime&) *)
Definition Subtract (this value : DateTime) : res TimeSpan.TimeSpan :=
  d <- ssub 64 (ticks this) (ticks value) ;; Ok (TimeSpan.mk d).

Definition IsLeapYear (year : Z) : res bool :=
  _ <- throw_if ((year <? 1) || (year >? 9999))
         (ArgumentOutOfRangeException "year" "DateTime: year out of range") ;;
  Ok (leap_year year).

Definition dpm365 : list Z := [31;28;31;30;31;30;31;31;30;31;30;31].
Definition dpm366 : list Z := [31;29;31;30;31;30;31;31;30;31;30;31].

Definition DaysInMonth (year month : Z) : res Z :=
  _ <- throw_if ((month <? 1) || (month >? 12))
         (ArgumentOutOfRangeException "month" "DateTime: month out of range") ;;
  leap <- IsLeapYear year ;;
  get (if leap : bool then dpm366 else dpm365) (month - 1).

Definition AddMonths (this : DateTime) (months : Z) : res DateTime :=
  _ <- throw_if ((months <? -120000) || (months >? 120000))
         (ArgumentOutOfRangeException "months" "DateTime: months out of range") ;;
  year <- getYear this ;;
  month <- getMonth this ;;
  day <- getDay this ;;
  m <- sadd 32 month months ;;
  let q := if m >? 0 then Z.quot (m - 1) 12 else Z.quot m 12 - 1 in
  let y := year + q in
  let m := m - q * 12 in
  _ <- throw_if ((y <? 1) || (y >? 9999))
         (ArgumentOutOfRangeException "months" "DateTime: resulting year out of range") ;;
  dim <- DaysInMonth y m ;;
  let d := Z.min day dim in
  let timeOfDay := Z.rem (ticks this) TicksPerDay in
  t <- dateToTicks y m d 0 0 0 0 ;;
  t' <- sadd 64 t timeOfDay ;;
  withTicksPreservingKind this t'.

Definition AddYears (this : DateTime) (value : Z) : res DateTime :=
  _ <- throw_if ((value <? -10000) || (value >? 10000))
         (ArgumentOutOfRangeException "value" "DateTime: years out of range") ;;
  months <- smul 32 value 12 ;;
  AddMonths this months.

Definition MinValue : DateTime := mk 0.
Definition MaxValue : DateTime := mk MaxTicks.
Definition UnixEpoch : DateTime := mk (Z.lor UnixEpochTicks (Z.shiftl 1 kKindShift)).

(** ** Conversion between kinds *)

(** The interface [System::ILocalTimeZone] the conversions call; its
    implementations live in another module of the code. *)
Class ILocalTimeZone := {
  GetUtcOffset : DateTime -> TimeSpan.TimeSpan;
  GetUtcOffsetFromUniversalTime : DateTime -> TimeSpan.TimeSpan }.

Definition ToLocalTime `{Zone : ILocalTimeZone} (this : DateTime) : res DateTime :=
  match getKind this with
  | Local => Ok this
  | _ =>
      let offset := TimeSpan.getTicks (GetUtcOffsetFromUniversalTime this) in
      let currentTicks := ticks this in
      room <- ssub 64 MaxTicks currentTicks ;;
      neg <- sneg 64 currentTicks ;;
      if offset >? room then of_ticks_kind MaxTicks (kind_value Local)
      else if offset <? neg then of_ticks_kind 0 (kind_value Local)
      else t <- sadd 64 currentTicks offset ;; of_ticks_kind t (kind_value Local)
  end.

Definition ToUniversalTime `{Zone : ILocalTimeZone} (this : DateTime) : res DateTime :=
  match getKind this with
  | Utc => Ok this
  | _ =>
      let offset := TimeSpan.getTicks (GetUtcOffset this) in
      let currentTicks := ticks this in
      room <- ssub 64 currentTicks MaxTicks ;;
      if offset >? currentTicks then of_ticks_kind 0 (kind_value Utc)
      else if offset <? room then of_ticks_kind MaxTicks (kind_value Utc)
      else t <- ssub 64 currentTicks offset ;; of_ticks_kind t (kind_value Utc)
  end.

(** ** Comparison *)

Definition CompareTo (this value : DateTime) : Z :=
  if ticks this >? ticks value then 1 else if ticks this <? ticks value then -1 else 0.
Definition Equals (this value : DateTime) : bool := ticks this =? ticks value.
Definition op_lt (this value : DateTime) : bool := ticks this <? ticks value.
Definition op_le (this value : DateTime) : bool := ticks this <=? ticks value.
Definition GetHashCode (this : DateTime) : Z :=
  Z.lxor (i32 (ticks this)) (i32 (sshr (ticks this) 32)).

End DateTime.

(** ** Tests on concrete inputs *)

Example DateTime_leap_day :
  (d <- DateTime.of_ymd 2024 2 29 ;; DateTime.AddYears d (-1)) =
  DateTime.of_ymd 2023 2 28.
Proof. vm_compute. reflexivity. Qed.

Example DateTime_components :
  (d <- DateTime.of_ymdhms 2026 8 1 13 45 59 ;;
   t <- DateTime.toTm d ;; Ok t) =
  Ok (DateTime.mkTm 126 7 1 212 6 13 45 59).
Proof. vm_compute. reflexivity. Qed.

Example DateTime_rejects :
  DateTime.of_ymd 2023 2 29 =
  Throw (ArgumentOutOfRangeException "day" "DateTime: day out of range for given month") /\
  DateTime.AddDays DateTime.MaxValue 1 = Throw DateTime.add_out_of_range.
Proof. split; reflexivity. Qed.

(** ** The packed word *)

(** A tick count and the two raw kind bits, packed. *)
Definition packed (t raw : Z) : DateTime.DateTime := DateTime.mk (t + raw * 2 ^ 62).

Definition raw_kind (d : DateTime.DateTime) : Z := DateTime.dateData_ d / 2 ^ 62.

(** The class invariant: a 64-bit word whose tick payload is in range. *)
Definition dt_wf (d : DateTime.DateTime) : Prop :=
  in_u 64 (DateTime.dateData_ d) /\ DateTime.ticks d <= DateTime.MaxTicks.

Definition in_ticks (t : Z) : Prop := 0 <= t <= DateTime.MaxTicks.

Lemma ticks_mod d : DateTime.ticks d = DateTime.dateData_ d mod 2 ^ 62.
Proof.
  unfold DateTime.ticks. change DateTime.TicksMask with (2 ^ 62 - 1).
  rewrite land_mask by lia.
  pose proof (Z.mod_pos_bound (DateTime.dateData_ d) (2 ^ 62) ltac:(lia)).
  apply wraps_id; [lia|]. eval_pow. lia.
Qed.

Lemma dt_wf_ticks d : dt_wf d -> in_ticks (DateTime.ticks d).
Proof.
  intros [_ H]. split; [|done]. rewrite ticks_mod. apply Z.mod_pos_bound. lia.
Qed.

Lemma in_ticks_62 t : in_ticks t -> 0 <= t < 2 ^ 62.
Proof. unfold in_ticks, DateTime.MaxTicks. eval_pow. lia. Qed.

Lemma raw_kind_range d : dt_wf d -> 0 <= raw_kind d <= 3.
Proof. intros [[? ?] _]. unfold raw_kind. zlia. Qed.

(** Every value is its two packed fields. *)
Lemma packed_eta d : d = packed (DateTime.ticks d) (raw_kind d).
Proof.
  unfold packed, raw_kind. rewrite ticks_mod. destruct d as [x]. cbn [DateTime.dateData_].
  f_equal. pose proof (Z.div_mod x (2 ^ 62) ltac:(lia)). lia.
Qed.

Lemma packed_ticks t raw : in_ticks t -> DateTime.ticks (packed t raw) = t.
Proof.
  intros H%in_ticks_62. rewrite ticks_mod. unfold packed. cbn [DateTime.dateData_].
  by rewrite Z.mod_add, Z.mod_small by lia.
Qed.

Lemma packed_raw t raw : in_ticks t -> raw_kind (packed t raw) = raw.
Proof.
  intros H%in_ticks_62. unfold raw_kind, packed. cbn [DateTime.dateData_].
  by rewrite Z.div_add, Z.div_small by lia.
Qed.

Lemma packed_wf t raw : in_ticks t -> 0 <= raw <= 3 -> dt_wf (packed t raw).
Proof.
  intros H Hr. split; [|rewrite packed_ticks by done; apply H].
  apply in_ticks_62 in H. unfold packed. cbn [DateTime.dateData_]. eval_pow. lia.
Qed.

Lemma dt_eq d d' : DateTime.ticks d = DateTime.ticks d' -> raw_kind d = raw_kind d' -> d = d'.
Proof. intros Ht Hr. by rewrite (packed_eta d), (packed_eta d'), Ht, Hr. Qed.

(** The kind a raw two-bit field reports: the fourth encoding is Local. *)
Definition kind_of_raw (raw : Z) : DateTime.DateTimeKind :=
  if raw =? 1 then DateTime.Utc
  else if raw =? 0 then DateTime.Unspecified else DateTime.Local.

Lemma getKind_raw d : dt_wf d -> DateTime.getKind d = kind_of_raw (raw_kind d).
Proof.
  intros H. pose proof (raw_kind_range d H) as Hr. unfold DateTime.getKind.
  rewrite Z.shiftr_div_pow2 by (by vm_compute).
  change (DateTime.dateData_ d / 2 ^ DateTime.kKindShift) with (raw_kind d).
  generalize dependent (raw_kind d). intros r Hr.
  assert (r = 0 \/ r = 1 \/ r = 2 \/ r = 3) as Hcases by lia.
  repeat destruct Hcases as [Hcases|Hcases]; subst r; reflexivity.
Qed.

Lemma kind_of_raw_value k : kind_of_raw (DateTime.kind_value k) = k.
Proof. by destruct k. Qed.

Lemma kind_value_range k : 0 <= DateTime.kind_value k <= 2.
Proof. destruct k; cbn; lia. Qed.

(** ** What the constructors and the packing helpers do *)

Lemma of_ticks_spec t : DateTime.of_ticks t =
  if (0 <=? t) && (t <=? DateTime.MaxTicks) then Ok (packed t 0)
  else Throw DateTime.ticks_out_of_range.
Proof.
  unfold DateTime.of_ticks. destruct (andb _ _) eqn:E; bool_to_prop.
  - decide_cmp. unfold packed. do 2 f_equal.
    unfold u64. rewrite wrapu_id; [lia|]. unfold DateTime.MaxTicks in *. eval_pow. lia.
  - by decide_cmp.
  - decide_cmp. destruct (t <? 0); by rewrite ?orb_true_r.
Qed.

Lemma of_ticks_kind_spec t k : in_ticks t ->
  DateTime.of_ticks_kind t (DateTime.kind_value k) = Ok (packed t (DateTime.kind_value k)).
Proof.
  intros Ht. unfold DateTime.of_ticks_kind. destruct (id Ht) as [H0 H1]. decide_cmp.
  unfold DateTime.throwIfInvalidKind.
  replace (u32 (DateTime.kind_value k) >? 2) with false by (by destruct k).
  cbn [throw_if bind]. unfold packed. do 2 f_equal.
  unfold u64. rewrite wrapu_id by (unfold DateTime.MaxTicks in *; eval_pow; lia).
  replace (ushl 64 _ _) with (DateTime.kind_value k * 2 ^ 62) by (by destruct k).
  apply lor_high; [lia|]. by apply in_ticks_62.
Qed.

Lemma withTicks_spec d t : dt_wf d -> DateTime.withTicksPreservingKind d t =
  if (0 <=? t) && (t <=? DateTime.MaxTicks) then Ok (packed t (raw_kind d))
  else Throw DateTime.ticks_out_of_range.
Proof.
  intros [Hd _]. unfold DateTime.withTicksPreservingKind. rewrite of_ticks_spec.
  destruct (andb _ _) eqn:E; [|done]. bool_to_prop. rewrite bind_Ok.
  unfold packed at 1, packed. cbn [DateTime.dateData_]. do 2 f_equal.
  change DateTime.FlagsMask with ((2 ^ 2 - 1) * 2 ^ 62).
  rewrite land_high_mask by (done || lia). rewrite Z.mul_0_l, Z.add_0_r.
  apply lor_high; [lia|]. by apply in_ticks_62.
Qed.

Lemma withTicks_ok d t : dt_wf d -> in_ticks t ->
  DateTime.withTicksPreservingKind d t = Ok (packed t (raw_kind d)).
Proof. intros Hd [? ?]. rewrite withTicks_spec by done. by decide_cmp. Qed.

(** Packing: a tick count in range and a kind are stored losslessly, the word
    satisfies the class invariant, and SpecifyKind replaces the kind alone. *)
Theorem DateTime_packing t k (Ht : in_ticks t) :
  exists d, DateTime.of_ticks_kind t (DateTime.kind_value k) = Ok d /\ dt_wf d /\
    DateTime.getTicks d = t /\ DateTime.getKind d = k /\
    forall k', exists d', DateTime.SpecifyKind d (DateTime.kind_value k') = Ok d' /\
      DateTime.getTicks d' = t /\ DateTime.getKind d' = k'.
Proof.
  assert (Hk : forall k, dt_wf (packed t (DateTime.kind_value k))).
  { intros k0. apply packed_wf; [done|]. pose proof (kind_value_range k0). lia. }
  assert (Hkind : forall k, DateTime.getKind (packed t (DateTime.kind_value k)) = k).
  { intros k0. rewrite getKind_raw by done. by rewrite packed_raw, kind_of_raw_value. }
  exists (packed t (DateTime.kind_value k)). unfold DateTime.getTicks.
  rewrite of_ticks_kind_spec, packed_ticks by done. split_and!; try done.
  intros k'. exists (packed t (DateTime.kind_value k')).
  rewrite packed_ticks by done. split_and!; try done.
  unfold DateTime.SpecifyKind, DateTime.throwIfInvalidKind.
  replace (u32 (DateTime.kind_value k') >? 2) with false by (by destruct k').
  cbn [throw_if bind]. rewrite packed_ticks by done. by apply of_ticks_kind_spec.
Qed.

(** ** Components to ticks *)

Definition valid_time (h mi s ms : Z) : Prop :=
  0 <= h < 24 /\ 0 <= mi < 60 /\ 0 <= s < 60 /\ 0 <= ms < 1000.

Definition time_ticks (h mi s ms : Z) : Z :=
  h * 36000000000 + mi * 600000000 + s * 10000000 + ms * 10000.

(** The tick count of a date and a time of day. *)
Definition date_ticks (y m d : Z) : Z := day_number y m d * 864000000000.

Lemma month_table leap m : 0 <= m <= 12 ->
  get (if leap : bool then DateTime.d366 else DateTime.d365) m = Ok (cumulative leap m).
Proof.
  intros. assert (m = 0 \/ 1 <= m <= 12) as [->|Hm] by lia; [by destruct leap|].
  month_cases m; by destruct leap.
Qed.

Lemma at_least_spec v b : in_s 32 v -> 0 <= b < 2 ^ 31 ->
  DateTime.at_least v b = negb ((0 <=? v) && (v <? b)).
Proof.
  intros [? ?] ?. unfold DateTime.at_least, u32.
  destruct (Z.leb_spec 0 v); destruct (Z.ltb_spec v b); cbn [andb negb].
  - rewrite wrapu_id by (eval_pow; lia). rewrite Z.geb_leb. by decide_cmp.
  - rewrite wrapu_id by (eval_pow; lia). rewrite Z.geb_leb. by decide_cmp.
  - rewrite Z.geb_leb. apply Z.leb_le. unfold wrapu.
    rewrite <- (Z.mod_unique v (2 ^ 32) (-1) (v + 2 ^ 32)); eval_pow; lia.
  - rewrite Z.geb_leb. apply Z.leb_le. unfold wrapu.
    rewrite <- (Z.mod_unique v (2 ^ 32) (-1) (v + 2 ^ 32)); eval_pow; lia.
Qed.

Lemma valid_date_bounds y m d : valid_date y m d -> 1 <= d <= 31.
Proof.
  intros (? & ? & ?). unfold month_days in *.
  pose proof (cumulative_month (is_leap y) m ltac:(lia)). lia.
Qed.

Lemma date_ticks_range y m d : valid_date y m d ->
  0 <= date_ticks y m d <= 3155378112000000000.
Proof. intros H%day_number_range. unfold date_ticks. lia. Qed.

Lemma time_ticks_range h mi s ms : valid_time h mi s ms ->
  0 <= time_ticks h mi s ms < 864000000000.
Proof. unfold valid_time, time_ticks. lia. Qed.

(** The tail of dateToTicks: no intermediate result overflows. *)
Lemma tick_sum_ok n h mi s ms : 0 <= n <= 3652058 -> valid_time h mi s ms ->
  (dt <- smul 64 n DateTime.TicksPerDay ;;
   ht <- smul 64 h DateTime.TicksPerHour ;;
   mt <- smul 64 mi DateTime.TicksPerMinute ;;
   st <- smul 64 s DateTime.TicksPerSecond ;;
   mst <- smul 64 ms DateTime.TicksPerMillisecond ;;
   s1 <- sadd 64 dt ht ;;
   s2 <- sadd 64 s1 mt ;;
   s3 <- sadd 64 s2 st ;;
   sadd 64 s3 mst) = Ok (n * 864000000000 + time_ticks h mi s ms).
Proof.
  intros Hn (Hh & Hmi & Hs & Hms). unfold smul, sadd.
  change DateTime.TicksPerDay with 864000000000.
  change DateTime.TicksPerHour with 36000000000.
  change DateTime.TicksPerMinute with 600000000.
  change DateTime.TicksPerSecond with 10000000.
  change DateTime.TicksPerMillisecond with 10000.
  repeat (rewrite schk_Ok by (eval_pow; lia); try rewrite bind_Ok).
  unfold time_ticks. f_equal. lia.
Qed.

Lemma dateToTicks_valid y m d h mi s ms : valid_date y m d -> valid_time h mi s ms ->
  DateTime.dateToTicks y m d h mi s ms = Ok (date_ticks y m d + time_ticks h mi s ms).
Proof.
  intros Hd Ht. pose proof (day_number_range y m d Hd) as Hn.
  pose proof Ht as (Hh & Hmi & Hs & Hms).
  destruct (id Hd) as (Hy & Hm & Hday). unfold DateTime.dateToTicks.
  unfold DateTime.leap_year. rewrite leap_rem by lia. decide_cmp.
  rewrite !month_table by lia. rewrite !bind_Ok. unfold month_days in Hday. decide_cmp.
  rewrite !at_least_spec by (eval_pow; lia). decide_cmp.
  replace ((y - 1) * 365 + _ - _ + _ + _ + d - 1) with (day_number y m d).
  - by apply tick_sum_ok.
  - unfold day_number, days_before_year. by rewrite !Z.quot_div_nonneg by lia.
Qed.

Lemma dateToTicks_invalid y m d h mi s ms :
  in_s 32 h -> in_s 32 mi -> in_s 32 s -> in_s 32 ms ->
  ~ (valid_date y m d /\ valid_time h mi s ms) ->
  exists param msg, DateTime.dateToTicks y m d h mi s ms =
    Throw (ArgumentOutOfRangeException param msg).
Proof.
  intros Hh Hmi Hs Hms Hinv. unfold DateTime.dateToTicks, DateTime.leap_year.
  destruct (_ || (d <? 1)) eqn:E1; [by eauto|]. bool_to_prop. cbn [throw_if bind].
  rewrite leap_rem, !month_table by lia. cbn [bind].
  destruct (d >? _) eqn:E2; [by eauto|]. bool_to_prop. cbn [throw_if bind].
  rewrite !at_least_spec by (done || lia).
  destruct (_ || _ || _) eqn:E3; [by eauto|]. bool_to_prop. cbn [throw_if bind].
  destruct (negb _) eqn:E4; [by eauto|]. exfalso. apply Hinv.
  repeat match goal with
    | H : (_ || _) = false |- _ => apply orb_false_iff in H as [? ?]
    | H : negb _ = false |- _ => apply negb_false_iff in H
    end. bool_to_prop. unfold valid_date, valid_time, month_days. lia.
Qed.

(** The value the component constructor builds. *)
Lemma built_value y m d h mi s ms : valid_date y m d -> valid_time h mi s ms ->
  exists v, DateTime.of_ymdhmsm y m d h mi s ms = Ok v /\ dt_wf v /\
    DateTime.ticks v = date_ticks y m d + time_ticks h mi s ms /\ raw_kind v = 0.
Proof.
  intros Hd Ht. unfold DateTime.of_ymdhmsm. rewrite dateToTicks_valid by done. cbn [bind].
  pose proof (date_ticks_range _ _ _ Hd). pose proof (time_ticks_range _ _ _ _ Ht).
  set (t := date_ticks y m d + time_ticks h mi s ms).
  assert (Htk : in_ticks t) by (unfold in_ticks, DateTime.MaxTicks, t; lia).
  exists (packed t 0). rewrite packed_ticks, packed_raw by done. split_and!; try done.
  - unfold packed. do 2 f_equal. unfold u64. rewrite wrapu_id; [lia|]. apply in_ticks_62 in Htk.
    eval_pow. lia.
  - apply packed_wf; [done|lia].
Qed.

(** C1: dateToTicks and the component constructors accept exactly the valid
    calendar dates and times of day, for all 32-bit arguments: a valid one is
    stored as its exact tick count, inside the range of the class, and any
    other is rejected with an ArgumentOutOfRangeException; there is no
    undefined behaviour. *)
Theorem DateTime_of_components y m d h mi s ms
  (Hh : in_s 32 h) (Hmi : in_s 32 mi) (Hs : in_s 32 s) (Hms : in_s 32 ms) :
  (valid_date y m d /\ valid_time h mi s ms /\
   exists v, DateTime.of_ymdhmsm y m d h mi s ms = Ok v /\ dt_wf v /\
     DateTime.getTicks v = date_ticks y m d + time_ticks h mi s ms /\
     DateTime.getKind v = DateTime.Unspecified) \/
  (~ (valid_date y m d /\ valid_time h mi s ms) /\
   exists param msg, DateTime.of_ymdhmsm y m d h mi s ms =
     Throw (ArgumentOutOfRangeException param msg)).
Proof.
  assert (Hdec : Decision (valid_date y m d /\ valid_time h mi s ms))
    by (unfold valid_date, valid_time; apply _).
  destruct (decide (valid_date y m d /\ valid_time h mi s ms)) as [[Hd Ht]|Hinv].
  - left. split_and!; [done..|]. destruct (built_value y m d h mi s ms Hd Ht)
      as (v & Hv & Hwf & Hvt & Hk). exists v. unfold DateTime.getTicks.
    rewrite getKind_raw, Hk by done. done.
  - right. split; [done|]. unfold DateTime.of_ymdhmsm.
    destruct (dateToTicks_invalid y m d h mi s ms) as (p & msg & ->); [done..|].
    by exists p, msg.
Qed.

(** ** Ticks to components *)

Definition month_found (leap : bool) (r : Z) : bool :=
  match DateTime.find_month 13 (if leap then DateTime.d366 else DateTime.d365) r
          (sshr r 5 + 1) with
  | Ok m => (1 <=? m) && (m <=? 12) && (cumulative leap (m - 1) <=? r) &&
            (r <? cumulative leap m)
  | _ => false
  end.

Lemma month_found_all leap : forallb (month_found leap)
  (map Z.of_nat (seq 0 (if leap then 366 else 365))) = true.
Proof. destruct leap; vm_compute; reflexivity. Qed.

(** The month search stays inside the table and finds the month of the day. *)
Lemma find_month_ok (leap : bool) r : 0 <= r < (if leap then 366 else 365) ->
  exists m, DateTime.find_month 13 (if leap then DateTime.d366 else DateTime.d365) r
              (sshr r 5 + 1) = Ok m /\
    1 <= m <= 12 /\ cumulative leap (m - 1) <= r < cumulative leap m.
Proof.
  intros Hr. pose proof (month_found_all leap) as H.
  rewrite forallb_forall in H. specialize (H r).
  unfold month_found in H. destruct (DateTime.find_month _ _ _ _) as [m| |].
  - exists m. split; [done|]. assert (Hin : In r (map Z.of_nat
      (seq 0 (if leap then 366%nat else 365%nat)))).
    { apply in_map_iff. exists (Z.to_nat r). split; [lia|]. apply in_seq.
      destruct leap; lia. }
    specialize (H Hin). bool_to_prop. lia.
  - exfalso. assert (false = true); [|done]. apply H. apply in_map_iff.
    exists (Z.to_nat r). split; [lia|]. apply in_seq. destruct leap; lia.
  - exfalso. assert (false = true); [|done]. apply H. apply in_map_iff.
    exists (Z.to_nat r). split; [lia|]. apply in_seq. destruct leap; lia.
Qed.

(** The 400/100/4/1-year decomposition of a day number. *)
Lemma cycle_of_day n : 0 <= n ->
  let a := Z.quot n 146097 in
  let r1 := n - a * 146097 in
  let b := if Z.quot r1 36524 =? 4 then 3 else Z.quot r1 36524 in
  let r2 := r1 - b * 36524 in
  let c := Z.quot r2 1461 in
  let r3 := r2 - c * 1461 in
  let e := if Z.quot r3 365 =? 4 then 3 else Z.quot r3 365 in
  let r := r3 - e * 365 in
  0 <= a /\ 0 <= b <= 3 /\ 0 <= c <= 24 /\ 0 <= e <= 3 /\ 0 <= r1 /\ 0 <= r2 /\ 0 <= r3 /\
  0 <= r < (if (e =? 3) && (negb (c =? 24) || (b =? 3)) then 366 else 365) /\
  n = 146097 * a + 36524 * b + 1461 * c + 365 * e + r.
Proof.
  intros Hn a r1 b r2 c r3 e r.
  assert (H1 : 0 <= a /\ 0 <= r1 < 146097 /\ n = 146097 * a + r1) by (unfold r1, a; zlia).
  clearbody r1 a.
  assert (H2 : 0 <= b <= 3 /\ 0 <= r2 <= 36524 /\ (b < 3 -> r2 < 36524) /\
               r1 = 36524 * b + r2).
  { unfold r2, b. destruct (Z.eqb_spec (Z.quot r1 36524) 4); zlia. }
  clearbody r2 b.
  assert (H3 : 0 <= c <= 24 /\ 0 <= r3 < 1461 /\ (b < 3 -> c = 24 -> r3 < 1460) /\
               r2 = 1461 * c + r3) by (unfold r3, c; zlia).
  clearbody r3 c.
  assert (H4 : 0 <= e <= 3 /\ 0 <= r /\ r3 = 365 * e + r /\ r <= 365 /\
               (e < 3 -> r < 365) /\ (r3 < 1460 -> r < 365)).
  { unfold r, e. destruct (Z.eqb_spec (Z.quot r3 365) 4); zlia. }
  clearbody r e.
  split_and!; try lia.
  destruct (Z.eqb_spec e 3); destruct (Z.eqb_spec c 24); destruct (Z.eqb_spec b 3);
    cbn [andb orb negb]; lia.
Qed.

(** The time-of-day fields of a tick count within a day. *)
Lemma time_fields t : 0 <= t < 864000000000 ->
  let h := Z.quot t 36000000000 in
  let t1 := Z.rem t 36000000000 in
  let mi := Z.quot t1 600000000 in
  let t2 := Z.rem t1 600000000 in
  let s := Z.quot t2 10000000 in
  0 <= h < 24 /\ 0 <= mi < 60 /\ 0 <= s < 60 /\
  t = h * 36000000000 + mi * 600000000 + s * 10000000 + t mod 10000000.
Proof.
  intros Ht h t1 mi t2 s.
  assert (H1 : 0 <= h < 24 /\ 0 <= t1 < 36000000000 /\ t = 36000000000 * h + t1)
    by (unfold t1, h; zlia).
  clearbody h t1.
  assert (H2 : 0 <= mi < 60 /\ 0 <= t2 < 600000000 /\ t1 = 600000000 * mi + t2)
    by (unfold t2, mi; zlia).
  clearbody mi t2.
  assert (H3 : 0 <= s < 60 /\ t2 = 10000000 * s + t mod 10000000) by (unfold s; zlia).
  lia.
Qed.

(** The decomposition toTm computes. *)
Definition tm_of (y m d t : Z) (x : DateTime.tm) : Prop :=
  x = DateTime.mkTm (y - 1900) (m - 1) d (cumulative (is_leap y) (m - 1) + d - 1)
        ((day_number y m d + 1) mod 7) (DateTime.tm_hour x) (DateTime.tm_min x)
        (DateTime.tm_sec x) /\
  0 <= DateTime.tm_hour x < 24 /\ 0 <= DateTime.tm_min x < 60 /\
  0 <= DateTime.tm_sec x < 60 /\
  t mod 864000000000 = DateTime.tm_hour x * 36000000000 + DateTime.tm_min x * 600000000 +
    DateTime.tm_sec x * 10000000 + t mod 10000000.

Lemma toTm_spec v : dt_wf v -> exists y m d x,
  valid_date y m d /\ day_number y m d = DateTime.ticks v / 864000000000 /\
  DateTime.toTm v = Ok x /\ tm_of y m d (DateTime.ticks v) x.
Proof.
  intros Hv%dt_wf_ticks. unfold in_ticks, DateTime.MaxTicks in Hv.
  set (t := DateTime.ticks v) in *.
  assert (Hn : 0 <= t / 864000000000 <= 3652058) by zlia.
  unfold DateTime.toTm. fold t.
  change DateTime.TicksPerDay with 864000000000.
  rewrite (Z.quot_div_nonneg t) by lia. rewrite (Z.rem_mod_nonneg t) by lia.
  set (n := t / 864000000000) in *.
  assert (Hi : i32 n = n) by (apply wraps_id; [lia | eval_pow; lia]). rewrite Hi.
  change DateTime.daysPer400Years with 146097. change DateTime.daysPer100Years with 36524.
  change DateTime.daysPer4Years with 1461. change DateTime.daysPerYear with 365.
  pose proof (cycle_of_day n ltac:(lia)) as Hc. cbv zeta in *.
  set (a := Z.quot n 146097) in *. set (r1 := n - a * 146097) in *.
  set (b := if Z.quot r1 36524 =? 4 then 3 else Z.quot r1 36524) in *.
  set (r2 := r1 - b * 36524) in *. set (c := Z.quot r2 1461) in *.
  set (r3 := r2 - c * 1461) in *.
  set (e := if Z.quot r3 365 =? 4 then 3 else Z.quot r3 365) in *.
  set (r := r3 - e * 365) in *.
  destruct Hc as (Ha & Hb & Hcc & He & _ & _ & _ & Hr & Hsum).
  clearbody a r1 b r2 c r3 e r.
  replace (a * 400 + b * 100 + c * 4 + e + 1) with (400 * a + 100 * b + 4 * c + e + 1) by lia.
  rewrite <- (is_leap_cycle a b c e) in * by lia.
  pose proof (days_before_cycle a b c e ltac:(lia) ltac:(lia) ltac:(lia)) as Hdby.
  set (y := 400 * a + 100 * b + 4 * c + e + 1) in *.
  destruct (find_month_ok (is_leap y) r Hr) as (m & Hfind & Hm & Hmr).
  rewrite Hfind, bind_Ok, month_table, bind_Ok by lia.
  pose proof (time_fields (t mod 864000000000) ltac:(zlia)) as Htf. cbv zeta in Htf.
  change DateTime.TicksPerHour with 36000000000.
  change DateTime.TicksPerMinute with 600000000. change DateTime.TicksPerSecond with 10000000.
  set (h := Z.quot _ 36000000000) in *. set (mi := Z.quot _ 600000000) in *.
  set (s := Z.quot _ 10000000) in *. clearbody h mi s.
  unfold i32. rewrite !wraps_id by (eval_pow; lia).
  assert (Hvalid : valid_date y m (r - cumulative (is_leap y) (m - 1) + 1)).
  { assert (y <= 9999); [|unfold valid_date, month_days; lia].
    destruct (Z.le_gt_cases y 9999); [done|].
    pose proof (days_before_mono 10000 y ltac:(lia) ltac:(lia)).
    change (days_before_year 10000) with 3652059 in *. lia. }
  assert (Hday : day_number y m (r - cumulative (is_leap y) (m - 1) + 1) = n)
    by (unfold day_number; lia).
  exists y, m, (r - cumulative (is_leap y) (m - 1) + 1). eexists. split_and!; [done|done|done|].
  unfold tm_of. cbn [DateTime.tm_hour DateTime.tm_min DateTime.tm_sec].
  rewrite Hday, (Z.rem_mod_nonneg (n + 1)) by lia. split_and!; try lia.
  - f_equal; lia.
  - destruct Htf as (_ & _ & _ & ->). zlia.
Qed.

(** The decomposition of a value with a known date. *)
Lemma toTm_date v y m d : dt_wf v -> valid_date y m d ->
  DateTime.ticks v / 864000000000 = day_number y m d ->
  exists x, DateTime.toTm v = Ok x /\ tm_of y m d (DateTime.ticks v) x.
Proof.
  intros Hv Hd Hn. destruct (toTm_spec v Hv) as (y' & m' & d' & x & Hd' & Hn' & Hx & Htm).
  destruct (day_number_inj y m d y' m' d' Hd Hd') as (-> & -> & ->); [lia|]. by exists x.
Qed.

Lemma date_ticks_day y m d r : 0 <= r < 864000000000 ->
  (date_ticks y m d + r) / 864000000000 = day_number y m d /\
  (date_ticks y m d + r) mod 864000000000 = r.
Proof. intros. unfold date_ticks. zlia. Qed.

Lemma getMillisecond_spec v : dt_wf v ->
  DateTime.getMillisecond v = DateTime.ticks v mod 10000000 / 10000.
Proof.
  intros Hv%dt_wf_ticks. unfold DateTime.getMillisecond, in_ticks in *.
  change DateTime.TicksPerSecond with 10000000.
  change DateTime.TicksPerMillisecond with 10000.
  rewrite Z.rem_mod_nonneg, Z.quot_div_nonneg by zlia.
  apply wraps_id; [lia|]. zlia.
Qed.

(** Every value decomposes: the component properties of a value that
    satisfies the invariant never fail, they name a valid date and time of
    day, and together with the ticks below a millisecond they are the whole
    value. *)
Theorem DateTime_decompose v (Hv : dt_wf v) :
  exists y m d h mi s,
    DateTime.getYear v = Ok y /\ DateTime.getMonth v = Ok m /\ DateTime.getDay v = Ok d /\
    DateTime.getHour v = Ok h /\ DateTime.getMinute v = Ok mi /\
    DateTime.getSecond v = Ok s /\
    valid_date y m d /\ valid_time h mi s (DateTime.getMillisecond v) /\
    DateTime.getTicks v = date_ticks y m d + time_ticks h mi s (DateTime.getMillisecond v) +
      DateTime.getTicks v mod 10000.
Proof.
  destruct (toTm_spec v Hv) as (y & m & d & x & Hd & Hn & Hx & Htm & Hh & Hmi & Hs & Ht).
  exists y, m, d, (DateTime.tm_hour x), (DateTime.tm_min x), (DateTime.tm_sec x).
  unfold DateTime.getYear, DateTime.getMonth, DateTime.getDay, DateTime.getHour,
    DateTime.getMinute, DateTime.getSecond, DateTime.getTicks.
  rewrite getMillisecond_spec by done. rewrite Hx. cbn [bind].
  rewrite Htm. cbn [DateTime.tm_year DateTime.tm_mon DateTime.tm_mday DateTime.tm_hour
    DateTime.tm_min DateTime.tm_sec].
  split_and!; try done; try (f_equal; lia).
  - unfold valid_time. zlia.
  - unfold time_ticks, date_ticks. rewrite Hn. clear Htm. zlia.
Qed.

(** Construction and decomposition are inverse: a value built from a valid
    date and time of day has exactly those components, the day of the week of
    the proleptic Gregorian calendar (0001-01-01 was a Monday) and the day of
    the year. *)
Theorem DateTime_components_roundtrip y m d h mi s ms
  (Hd : valid_date y m d) (Ht : valid_time h mi s ms) :
  exists v, DateTime.of_ymdhmsm y m d h mi s ms = Ok v /\
    DateTime.getYear v = Ok y /\ DateTime.getMonth v = Ok m /\ DateTime.getDay v = Ok d /\
    DateTime.getHour v = Ok h /\ DateTime.getMinute v = Ok mi /\
    DateTime.getSecond v = Ok s /\ DateTime.getMillisecond v = ms /\
    DateTime.getDayOfWeek v = Ok ((day_number y m d + 1) mod 7) /\
    DateTime.getDayOfYear v = Ok (cumulative (is_leap y) (m - 1) + d).
Proof.
  pose proof (date_ticks_range _ _ _ Hd). pose proof (time_ticks_range _ _ _ _ Ht) as Hr.
  destruct (built_value y m d h mi s ms Hd Ht) as (v & Hb & Hv & Hvt & _).
  exists v. split; [done|]. destruct (date_ticks_day y m d _ Hr) as [Hq Hm].
  rewrite <- Hvt in Hq, Hm.
  destruct (toTm_date v y m d Hv Hd Hq) as (x & Hx & Htm & Hh & Hmi & Hs & Hsum).
  unfold DateTime.getYear, DateTime.getMonth, DateTime.getDay, DateTime.getHour,
    DateTime.getMinute, DateTime.getSecond, DateTime.getDayOfWeek, DateTime.getDayOfYear.
  rewrite getMillisecond_spec by done. rewrite Hx. cbn [bind].
  assert (Hfields : DateTime.tm_hour x = h /\ DateTime.tm_min x = mi /\
    DateTime.tm_sec x = s /\ DateTime.ticks v mod 10000000 / 10000 = ms).
  { rewrite Hm in Hsum. rewrite Hvt in *. unfold valid_time, time_ticks, date_ticks in *.
    clear Htm Hx Hb. zlia. }
  destruct Hfields as (-> & -> & -> & ->). rewrite Htm.
  cbn [DateTime.tm_year DateTime.tm_mon DateTime.tm_mday DateTime.tm_yday DateTime.tm_wday].
  split_and!; try done; f_equal; lia.
Qed.

(** ** Arithmetic *)

(** The specification of every tick-based addition: the exact sum when it is
    in range, with the kind bits kept, and the exception otherwise. *)
Definition advance (v : DateTime.DateTime) (delta : Z) : res DateTime.DateTime :=
  let t := DateTime.ticks v + delta in
  if (0 <=? t) && (t <=? DateTime.MaxTicks) then Ok (packed t (raw_kind v))
  else Throw DateTime.add_out_of_range.

Lemma advance_Ok v delta : in_ticks (DateTime.ticks v + delta) ->
  advance v delta = Ok (packed (DateTime.ticks v + delta) (raw_kind v)).
Proof. intros [? ?]. unfold advance. cbv zeta. by decide_cmp. Qed.

Lemma advance_Throw v delta : ~ in_ticks (DateTime.ticks v + delta) ->
  advance v delta = Throw DateTime.add_out_of_range.
Proof.
  intros H. unfold advance. cbv zeta. destruct (andb _ _) eqn:E; [|done].
  bool_to_prop. exfalso. apply H. done.
Qed.

(** One unsigned comparison catches both ends of the range. *)
Lemma unsigned_range x : - 2 ^ 63 - 2 ^ 62 <= x < 2 ^ 63 + 2 ^ 62 ->
  (wrapu 64 x >? u64 DateTime.MaxTicks) = negb ((0 <=? x) && (x <=? DateTime.MaxTicks)).
Proof.
  intros Hx. change (u64 DateTime.MaxTicks) with DateTime.MaxTicks.
  unfold DateTime.MaxTicks. rewrite Z.gtb_ltb. destruct (Z.leb_spec 0 x); cbn [andb negb].
  - rewrite wrapu_id by (eval_pow; lia). by rewrite Z.leb_antisym, negb_involutive.
  - apply Z.ltb_lt. unfold wrapu. rewrite <- (Z.mod_unique x (2 ^ 64) (-1) (x + 2 ^ 64));
      eval_pow; lia.
Qed.

Lemma advance_body v delta x : dt_wf v -> in_s 64 delta ->
  x = DateTime.ticks v + delta ->
  (_ <- throw_if (wrapu 64 x >? u64 DateTime.MaxTicks) DateTime.add_out_of_range ;;
   DateTime.withTicksPreservingKind v (i64 (wrapu 64 x))) = advance v delta.
Proof.
  intros Hv Hdelta ->. pose proof (dt_wf_ticks v Hv) as Ht.
  unfold in_ticks, DateTime.MaxTicks in Ht.
  rewrite unsigned_range by (eval_pow; lia). unfold advance. cbv zeta.
  destruct (andb _ _) eqn:E; cbn [negb throw_if bind]; [|done].
  apply andb_true_iff in E as E'. destruct E' as [H0 H1]. bool_to_prop.
  unfold DateTime.MaxTicks in *.
  rewrite wrapu_id by (eval_pow; lia). unfold i64. rewrite wraps_id by (eval_pow; lia).
  rewrite withTicks_spec by done. unfold DateTime.MaxTicks. by decide_cmp.
Qed.

Lemma uadd_wraps a b : uadd 64 (u64 a) (u64 b) = wrapu 64 (a + b).
Proof. wrap_eq. Qed.

Lemma usub_wraps a b : usub 64 (u64 a) (u64 b) = wrapu 64 (a - b).
Proof. wrap_eq. Qed.

Lemma AddTicks_spec v delta : dt_wf v -> in_s 64 delta ->
  DateTime.AddTicks v delta = advance v delta.
Proof.
  intros Hv Hd. unfold DateTime.AddTicks. cbv zeta. rewrite uadd_wraps.
  by apply advance_body.
Qed.

Lemma SubtractSpan_spec v x : dt_wf v -> in_s 64 x ->
  DateTime.SubtractSpan v (TimeSpan.mk x) = advance v (- x).
Proof.
  intros Hv Hx. unfold DateTime.SubtractSpan. cbn [TimeSpan.getTicks TimeSpan.ticks_internal].
  cbv zeta. rewrite usub_wraps. destruct (decide (x = - 2 ^ 63)) as [->|Hmin].
  - pose proof (dt_wf_ticks v Hv) as Ht. unfold in_ticks, DateTime.MaxTicks in Ht.
    rewrite unsigned_range by (eval_pow; lia). unfold DateTime.MaxTicks. eval_pow.
    decide_cmp. symmetry. apply advance_Throw. unfold in_ticks, DateTime.MaxTicks. lia.
  - apply advance_body; [done| |lia]. eval_pow. lia.
Qed.

(** A count of units that is multiplied into ticks without overflow. *)
Lemma scaled_advance v n k : dt_wf v -> in_s 64 (n * k) ->
  (t <- smul 64 n k ;; DateTime.AddTicks v t) = advance v (n * k).
Proof.
  intros Hv Hn. unfold smul. rewrite schk_Ok by done. cbn [bind]. by apply AddTicks_spec.
Qed.

(** A count outside the bound that guards the multiplication is out of range. *)
Lemma bounded_advance v n k m : dt_wf v -> 0 < k -> m = Z.quot DateTime.MaxTicks k ->
  (_ <- throw_if ((n <? - m) || (n >? m)) DateTime.add_out_of_range ;;
   t <- smul 64 n k ;; DateTime.AddTicks v t) = advance v (n * k).
Proof.
  intros Hv Hk Hm. pose proof (dt_wf_ticks v Hv) as Ht. unfold in_ticks in Ht.
  assert (HM : 0 <= DateTime.MaxTicks < 2 ^ 62) by (unfold DateTime.MaxTicks; eval_pow; lia).
  rewrite Z.quot_div_nonneg in Hm by lia.
  assert (Hmk : k * m <= DateTime.MaxTicks < k * (m + 1)).
  { pose proof (Z.div_mod DateTime.MaxTicks k ltac:(lia)).
    pose proof (Z.mod_pos_bound DateTime.MaxTicks k Hk). subst m. lia. }
  destruct (_ || _) eqn:E; cbn [throw_if bind].
  - symmetry. apply advance_Throw. unfold in_ticks. bool_to_prop; nia.
  - bool_to_prop. apply scaled_advance; [done|]. eval_pow. nia.
Qed.


(** The result of an addition satisfies the invariant and has the kind of the
    original. *)
Lemma advance_invariant v delta w : dt_wf v -> advance v delta = Ok w ->
  dt_wf w /\ DateTime.ticks w = DateTime.ticks v + delta /\
  DateTime.getKind w = DateTime.getKind v.
Proof.
  intros Hv. unfold advance. cbv zeta. destruct (andb _ _) eqn:E; [|done].
  intros [= <-]. bool_to_prop.
  assert (Hw : dt_wf (packed (DateTime.ticks v + delta) (raw_kind v)))
    by (apply packed_wf; [done | by apply raw_kind_range]).
  split_and!; [done | by rewrite packed_ticks |].
  rewrite !getKind_raw by done. by rewrite packed_raw.
Qed.

(** Differences and sums are inverse: the difference of two values is
    always representable, and adding it back to the second gives the ticks of
    the first, with the kind of the second. *)
Theorem DateTime_subtract_add a b (Ha : dt_wf a) (Hb : dt_wf b) :
  exists span w, DateTime.Subtract a b = Ok span /\ TimeSpan.wf span /\
    DateTime.Add b span = Ok w /\ dt_wf w /\ DateTime.getTicks w = DateTime.getTicks a /\
    DateTime.getKind w = DateTime.getKind b /\
    DateTime.Subtract w b = Ok span.
Proof.
  pose proof (dt_wf_ticks a Ha) as Hta. pose proof (dt_wf_ticks b Hb) as Htb.
  unfold in_ticks, DateTime.MaxTicks in Hta, Htb.
  set (delta := DateTime.ticks a - DateTime.ticks b).
  assert (Hdelta : in_s 64 delta) by (unfold delta; eval_pow; lia).
  assert (Hadv : advance b delta = Ok (packed (DateTime.ticks b + delta) (raw_kind b)))
    by (apply advance_Ok; unfold in_ticks, DateTime.MaxTicks, delta; lia).
  exists (TimeSpan.mk delta). exists (packed (DateTime.ticks b + delta) (raw_kind b)).
  destruct (advance_invariant _ _ _ Hb Hadv) as (Hw & Ht & Hk).
  unfold DateTime.Subtract, ssub, DateTime.getTicks. rewrite Ht.
  replace (DateTime.ticks b + delta - DateTime.ticks b) with delta by lia.
  fold delta. rewrite schk_Ok by done. cbn [bind].
  split_and!; try done; [|lia]. unfold DateTime.Add. cbn [TimeSpan.getTicks TimeSpan.ticks_internal].
  by rewrite AddTicks_spec.
Qed.

(** ** Months and years *)

(** The specification of AddMonths: the month is counted on the line of
    months, the day is clamped to the length of the month reached, the time of
    day and the kind bits are kept. *)
Definition month_shift (v : DateTime.DateTime) (y m d months : Z) : res DateTime.DateTime :=
  let k := y * 12 + (m - 1) + months in
  let y' := k / 12 in
  let m' := k mod 12 + 1 in
  if (1 <=? y') && (y' <=? 9999)
  then Ok (packed (date_ticks y' m' (Z.min d (month_days y' m')) +
                   DateTime.ticks v mod 864000000000) (raw_kind v))
  else Throw (ArgumentOutOfRangeException "months" "DateTime: resulting year out of range").

Lemma days_table leap m : 1 <= m <= 12 ->
  get (if leap : bool then DateTime.dpm366 else DateTime.dpm365) (m - 1) =
  Ok (cumulative leap m - cumulative leap (m - 1)).
Proof. intros. month_cases m; by destruct leap. Qed.

Lemma DaysInMonth_spec y m : 1 <= y <= 9999 -> 1 <= m <= 12 ->
  DateTime.DaysInMonth y m = Ok (month_days y m).
Proof.
  intros. unfold DateTime.DaysInMonth, DateTime.IsLeapYear, DateTime.leap_year.
  decide_cmp. rewrite leap_rem, days_table by lia. done.
Qed.

Lemma clamped_date_valid y m d : 1 <= y <= 9999 -> 1 <= m <= 12 -> 1 <= d ->
  valid_date y m (Z.min d (month_days y m)).
Proof.
  intros. unfold valid_date, month_days.
  pose proof (cumulative_month (is_leap y) m ltac:(lia)). lia.
Qed.

(** The month carried into the year, as the code computes it. *)
Lemma month_carry y m : let q := if m >? 0 then Z.quot (m - 1) 12 else Z.quot m 12 - 1 in
  y + q = (y * 12 + (m - 1)) / 12 /\ m - q * 12 = (y * 12 + (m - 1)) mod 12 + 1.
Proof. intros q. unfold q. rewrite Z.gtb_ltb. destruct (Z.ltb_spec 0 m); zlia. Qed.

Lemma AddMonths_spec v y m d months : dt_wf v -> valid_date y m d ->
  DateTime.ticks v / 864000000000 = day_number y m d -> -120000 <= months <= 120000 ->
  DateTime.AddMonths v months = month_shift v y m d months.
Proof.
  intros Hv Hd Hn Hmo. destruct (toTm_date v y m d Hv Hd Hn) as (x & Hx & Htm & _).
  unfold DateTime.AddMonths, DateTime.getYear, DateTime.getMonth, DateTime.getDay.
  decide_cmp. rewrite Hx. cbn [bind]. rewrite Htm.
  cbn [DateTime.tm_year DateTime.tm_mon DateTime.tm_mday].
  replace (y - 1900 + 1900) with y by lia. replace (m - 1 + 1) with m by lia.
  pose proof Hd as (Hy & Hm & Hdd). unfold sadd at 1. rewrite schk_Ok by (eval_pow; lia).
  cbn [bind]. destruct (month_carry y (m + months)) as [Hyq Hmq]. cbv zeta in *.
  rewrite Hyq, Hmq. unfold month_shift.
  replace (y * 12 + (m + months - 1)) with (y * 12 + (m - 1) + months) by lia.
  set (k := y * 12 + (m - 1) + months). cbv zeta.
  assert (Hm' : 1 <= k mod 12 + 1 <= 12) by zlia.
  set (y' := k / 12). set (m' := k mod 12 + 1) in *.
  destruct (andb _ _) eqn:E; bool_to_prop; decide_cmp; [|done|done].
  pose proof (clamped_date_valid y' m' d ltac:(lia) Hm' ltac:(lia)) as Hcl.
  rewrite DaysInMonth_spec by lia. cbn [bind].
  rewrite dateToTicks_valid by (done || (unfold valid_time; lia)). cbn [bind].
  pose proof (date_ticks_range _ _ _ Hcl) as Hr. pose proof (dt_wf_ticks v Hv) as Ht.
  unfold in_ticks, DateTime.MaxTicks in Ht.
  change DateTime.TicksPerDay with 864000000000. rewrite Z.rem_mod_nonneg by lia.
  pose proof (Z.mod_pos_bound (DateTime.ticks v) 864000000000 ltac:(lia)).
  change (time_ticks 0 0 0 0) with 0. rewrite Z.add_0_r.
  unfold sadd. rewrite schk_Ok by (eval_pow; lia). cbn [bind].
  apply withTicks_ok; [done|]. unfold in_ticks, DateTime.MaxTicks. lia.
Qed.

Lemma month_shift_refuses v y m d k : ~ 1 <= (y * 12 + (m - 1) + k) / 12 <= 9999 ->
  month_shift v y m d k =
    Throw (ArgumentOutOfRangeException "months" "DateTime: resulting year out of range").
Proof. intros Hk. unfold month_shift. cbv zeta. destruct (andb _ _) eqn:E; [|done]. bool_to_prop. lia. Qed.

Lemma month_shift_sound v y m d k w : dt_wf v -> valid_date y m d ->
  month_shift v y m d k = Ok w ->
  dt_wf w /\ DateTime.getKind w = DateTime.getKind v /\
  DateTime.getTimeOfDay w = DateTime.getTimeOfDay v /\
  exists y' m', y' * 12 + (m' - 1) = y * 12 + (m - 1) + k /\
    DateTime.getYear w = Ok y' /\ DateTime.getMonth w = Ok m' /\
    DateTime.getDay w = Ok (Z.min d (month_days y' m')).
Proof.
  intros Hv (Hy & Hm & Hd). unfold month_shift. cbv zeta.
  set (c := y * 12 + (m - 1) + k). destruct (andb _ _) eqn:E; [|done].
  intros [= <-]. bool_to_prop. set (y' := c / 12) in *. set (m' := c mod 12 + 1) in *.
  assert (Hm' : 1 <= m' <= 12) by (unfold m'; zlia).
  pose proof (clamped_date_valid y' m' d ltac:(lia) Hm' ltac:(lia)) as Hcl.
  pose proof (dt_wf_ticks v Hv) as Htv. unfold in_ticks, DateTime.MaxTicks in Htv.
  set (r := DateTime.ticks v mod 864000000000).
  assert (Hr : 0 <= r < 864000000000) by (unfold r; zlia).
  set (d' := Z.min d (month_days y' m')) in *.
  pose proof (date_ticks_range _ _ _ Hcl).
  assert (Hin : in_ticks (date_ticks y' m' d' + r))
    by (unfold in_ticks, DateTime.MaxTicks; lia).
  set (w := packed (date_ticks y' m' d' + r) (raw_kind v)).
  assert (Hw : dt_wf w) by (apply packed_wf; [done | by apply raw_kind_range]).
  assert (Htw : DateTime.ticks w = date_ticks y' m' d' + r) by (by apply packed_ticks).
  assert (Hrw : raw_kind w = raw_kind v) by (by apply packed_raw).
  assert (Hc : y' * 12 + (m' - 1) = c) by (unfold y', m'; zlia).
  assert (Hd' : d' = Z.min d (month_days y' m')) by done.
  clearbody w d' y' m'. split; [done|]. split.
  { rewrite !getKind_raw by done. by rewrite Hrw. }
  destruct (date_ticks_day y' m' d' r Hr) as [Hq Hmod]. split.
  { unfold DateTime.getTimeOfDay. rewrite Htw. change DateTime.TicksPerDay with 864000000000.
    rewrite !Z.rem_mod_nonneg by lia. by rewrite Hmod. }
  exists y', m'. split; [done|].
  rewrite <- Htw in Hq. destruct (toTm_date w y' m' d' Hw Hcl Hq) as (x & Hx & Htm & _).
  unfold DateTime.getYear, DateTime.getMonth, DateTime.getDay. rewrite Hx. cbn [bind].
  rewrite Htm. cbn [DateTime.tm_year DateTime.tm_mon DateTime.tm_mday].
  split_and!; f_equal; lia.
Qed.

Lemma AddMonths_refuses v n : ~ -120000 <= n <= 120000 ->
  DateTime.AddMonths v n =
    Throw (ArgumentOutOfRangeException "months" "DateTime: months out of range").
Proof.
  intros Hout. unfold DateTime.AddMonths.
  destruct (_ || _) eqn:E; [done|]. bool_to_prop. lia.
Qed.

Lemma AddYears_refuses v n : ~ -10000 <= n <= 10000 ->
  DateTime.AddYears v n =
    Throw (ArgumentOutOfRangeException "value" "DateTime: years out of range").
Proof.
  intros Hout. unfold DateTime.AddYears.
  destruct (_ || _) eqn:E; [done|]. bool_to_prop. lia.
Qed.

Lemma AddYears_spec v y m d n : dt_wf v -> valid_date y m d ->
  DateTime.ticks v / 864000000000 = day_number y m d -> -10000 <= n <= 10000 ->
  DateTime.AddYears v n = month_shift v y m d (12 * n).
Proof.
  intros. unfold DateTime.AddYears, smul. decide_cmp.
  rewrite schk_Ok by (eval_pow; lia). rewrite bind_Ok, (Z.mul_comm n).
  apply AddMonths_spec; try done. lia.
Qed.

(** The date the component properties name. *)
Lemma components_date v y m d : dt_wf v -> DateTime.getYear v = Ok y ->
  DateTime.getMonth v = Ok m -> DateTime.getDay v = Ok d ->
  valid_date y m d /\ DateTime.ticks v / 864000000000 = day_number y m d.
Proof.
  intros Hv. destruct (toTm_spec v Hv) as (y0 & m0 & d0 & x & Hd0 & Hq & Hx & Htm & _).
  unfold DateTime.getYear, DateTime.getMonth, DateTime.getDay.
  rewrite Hx, !bind_Ok, Htm. cbn [DateTime.tm_year DateTime.tm_mon DateTime.tm_mday].
  intros [= Hy] [= Hm] [= Hd].
  replace y with y0 by lia. replace m with m0 by lia. replace d with d0 by lia. done.
Qed.


(** ** Conversion between kinds *)

(** The tick count of a shifted value, saturating at both ends. *)
Definition saturated (t delta : Z) : Z := Z.max 0 (Z.min DateTime.MaxTicks (t + delta)).

#[export] Instance DateTimeKind_eq_dec : EqDecision DateTime.DateTimeKind.
Proof. solve_decision. Defined.

Lemma saturated_in t delta : in_ticks (saturated t delta).
Proof. unfold in_ticks, saturated, DateTime.MaxTicks. lia. Qed.

(** A value converted to another kind. *)
Definition converted (v : DateTime.DateTime) (delta : Z) (k : DateTime.DateTimeKind) :=
  packed (saturated (DateTime.ticks v) delta) (DateTime.kind_value k).

Lemma converted_value v delta k : DateTime.getKind v <> k ->
  dt_wf (converted v delta k) /\ DateTime.getKind (converted v delta k) = k /\
  (DateTime.getKind v = k -> converted v delta k = v) /\
  (DateTime.getKind v <> k ->
   DateTime.getTicks (converted v delta k) = saturated (DateTime.getTicks v) delta).
Proof.
  intros Hk. pose proof (saturated_in (DateTime.ticks v) delta) as Hin.
  pose proof (kind_value_range k).
  assert (Hw : dt_wf (converted v delta k)) by (apply packed_wf; [done|lia]).
  split_and!; [done| |done|].
  - rewrite getKind_raw by done. unfold converted. by rewrite packed_raw, kind_of_raw_value.
  - intros _. by apply packed_ticks.
Qed.

Lemma ToLocalTime_spec `{Zone : DateTime.ILocalTimeZone} v : dt_wf v ->
  DateTime.getKind v <> DateTime.Local ->
  DateTime.ToLocalTime v = Ok (converted v
    (TimeSpan.getTicks (DateTime.GetUtcOffsetFromUniversalTime v)) DateTime.Local).
Proof.
  intros Hv Hk. pose proof (dt_wf_ticks v Hv) as [Ht0 Ht1].
  unfold DateTime.ToLocalTime, converted, saturated.
  set (o := TimeSpan.getTicks _). set (t := DateTime.ticks v) in *. clearbody o.
  assert (Hbody : (room <- ssub 64 DateTime.MaxTicks t ;;
      neg <- sneg 64 t ;;
      if o >? room then DateTime.of_ticks_kind DateTime.MaxTicks (DateTime.kind_value DateTime.Local)
      else if o <? neg then DateTime.of_ticks_kind 0 (DateTime.kind_value DateTime.Local)
      else t <- sadd 64 t o ;; DateTime.of_ticks_kind t (DateTime.kind_value DateTime.Local)) =
    Ok (packed (Z.max 0 (Z.min DateTime.MaxTicks (t + o))) (DateTime.kind_value DateTime.Local)));
    [|by destruct (DateTime.getKind v)].
  unfold ssub, sneg, sadd, DateTime.MaxTicks in *.
  rewrite !schk_Ok, !bind_Ok by (eval_pow; lia). rewrite Z.gtb_ltb.
  repeat split_if; rewrite ?schk_Ok, ?bind_Ok by (eval_pow; lia);
    rewrite of_ticks_kind_spec by (unfold in_ticks, DateTime.MaxTicks; lia);
    do 2 f_equal; lia.
Qed.

Lemma ToUniversalTime_spec `{Zone : DateTime.ILocalTimeZone} v : dt_wf v ->
  DateTime.getKind v <> DateTime.Utc ->
  DateTime.ToUniversalTime v = Ok (converted v
    (- TimeSpan.getTicks (DateTime.GetUtcOffset v)) DateTime.Utc).
Proof.
  intros Hv Hk. pose proof (dt_wf_ticks v Hv) as [Ht0 Ht1].
  unfold DateTime.ToUniversalTime, converted, saturated.
  set (o := TimeSpan.getTicks _). set (t := DateTime.ticks v) in *. clearbody o.
  assert (Hbody : (room <- ssub 64 t DateTime.MaxTicks ;;
      if o >? t then DateTime.of_ticks_kind 0 (DateTime.kind_value DateTime.Utc)
      else if o <? room then DateTime.of_ticks_kind DateTime.MaxTicks (DateTime.kind_value DateTime.Utc)
      else t <- ssub 64 t o ;; DateTime.of_ticks_kind t (DateTime.kind_value DateTime.Utc)) =
    Ok (packed (Z.max 0 (Z.min DateTime.MaxTicks (t + - o))) (DateTime.kind_value DateTime.Utc)));
    [|by destruct (DateTime.getKind v)].
  unfold ssub, DateTime.MaxTicks in *.
  rewrite !schk_Ok, !bind_Ok by (eval_pow; lia). rewrite Z.gtb_ltb.
  repeat split_if; rewrite ?schk_Ok, ?bind_Ok by (eval_pow; lia);
    rewrite of_ticks_kind_spec by (unfold in_ticks, DateTime.MaxTicks; lia);
    do 2 f_equal; lia.
Qed.

(** C9: Kind conversion never fails and never overflows: for every time zone,
    even one that answers TimeSpan.MinValue or MaxValue, ToLocalTime and
    ToUniversalTime return the exact shifted value saturated at the ends of the
    range, with the new kind; a value already of that kind is returned as it
    is. *)
Theorem DateTime_kind_conversion `{Zone : DateTime.ILocalTimeZone} v (Hv : dt_wf v) :
  (exists w, DateTime.ToLocalTime v = Ok w /\ dt_wf w /\
     DateTime.getKind w = DateTime.Local /\
     (DateTime.getKind v = DateTime.Local -> w = v) /\
     (DateTime.getKind v <> DateTime.Local -> DateTime.getTicks w =
        saturated (DateTime.getTicks v)
          (TimeSpan.getTicks (DateTime.GetUtcOffsetFromUniversalTime v)))) /\
  (exists w, DateTime.ToUniversalTime v = Ok w /\ dt_wf w /\
     DateTime.getKind w = DateTime.Utc /\
     (DateTime.getKind v = DateTime.Utc -> w = v) /\
     (DateTime.getKind v <> DateTime.Utc -> DateTime.getTicks w =
        saturated (DateTime.getTicks v)
          (- TimeSpan.getTicks (DateTime.GetUtcOffset v)))).
Proof.
  split.
  - destruct (decide (DateTime.getKind v = DateTime.Local)) as [E|E].
    + exists v. unfold DateTime.ToLocalTime. rewrite E. done.
    + eexists. split; [by apply ToLocalTime_spec|]. by apply converted_value.
  - destruct (decide (DateTime.getKind v = DateTime.Utc)) as [E|E].
    + exists v. unfold DateTime.ToUniversalTime. rewrite E. done.
    + eexists. split; [by apply ToUniversalTime_spec|]. by apply converted_value.
Qed.

(** ** The theorems at concrete inputs *)

(** 2024-02-29 15:45:59.120, Utc. *)
Definition sample : DateTime.DateTime := packed 638448183591200000 1.

Lemma sample_wf : dt_wf sample.
Proof. apply packed_wf; [split; vm_compute; discriminate | lia]. Qed.

Lemma sample_date : valid_date 2024 2 29.
Proof. unfold valid_date. vm_compute. intuition discriminate. Qed.

Lemma sample_time : valid_time 13 45 59 120.
Proof. unfold valid_time. lia. Qed.

Lemma DateTime_packing_witness :
  in_ticks 5 /\ exists d, DateTime.of_ticks_kind 5 2 = Ok d /\ DateTime.getKind d = DateTime.Local.
Proof.
  assert (H5 : in_ticks 5) by (split; vm_compute; discriminate).
  split; [exact H5|]. destruct (DateTime_packing 5 DateTime.Local H5) as (d & Hd & _ & _ & Hk & _).
  exists d. split; [exact Hd | exact Hk].
Defined.

Lemma DateTime_of_components_witness :
  in_s 32 24 /\ exists param msg, DateTime.of_ymdhmsm 2024 1 1 24 0 0 0 =
    Throw (ArgumentOutOfRangeException param msg).
Proof.
  assert (H24 : in_s 32 24) by (unfold in_s; cbn; lia).
  assert (H0 : in_s 32 0) by (unfold in_s; cbn; lia).
  split; [exact H24|].
  destruct (DateTime_of_components 2024 1 1 24 0 0 0 H24 H0 H0 H0)
    as [(_ & Ht & _)|(_ & H)]; [|exact H].
  exfalso. unfold valid_time in Ht. lia.
Defined.

Lemma DateTime_decompose_witness :
  dt_wf sample /\ exists y m d, DateTime.getYear sample = Ok y /\
    DateTime.getMonth sample = Ok m /\ DateTime.getDay sample = Ok d /\ valid_date y m d.
Proof.
  split; [exact sample_wf|].
  destruct (DateTime_decompose sample sample_wf)
    as (y & m & d & h & mi & s & Hy & Hm & Hd & _ & _ & _ & Hv & _).
  exists y, m, d. auto.
Defined.

Lemma DateTime_components_roundtrip_witness :
  exists v, DateTime.of_ymdhmsm 2024 2 29 13 45 59 120 = Ok v /\
    DateTime.getDay v = Ok 29 /\ DateTime.getDayOfWeek v = Ok 4.
Proof.
  destruct (DateTime_components_roundtrip 2024 2 29 13 45 59 120 sample_date sample_time)
    as (v & Hv & _ & _ & Hd & _ & _ & _ & _ & Hw & _).
  exists v. split; [exact Hv|]. split; [exact Hd | exact Hw].
Defined.


Lemma DateTime_subtract_add_witness :
  exists span w, DateTime.Subtract sample DateTime.MaxValue = Ok span /\
    DateTime.Add DateTime.MaxValue span = Ok w /\ DateTime.getTicks w = DateTime.getTicks sample.
Proof.
  assert (Hm : dt_wf DateTime.MaxValue).
  { split; [split; vm_compute; [discriminate|reflexivity] | vm_compute; discriminate]. }
  destruct (DateTime_subtract_add sample DateTime.MaxValue sample_wf Hm)
    as (span & w & H1 & _ & H2 & _ & H3 & _).
  exists span, w. auto.
Defined.


(** A time zone that is always two hours ahead. *)
Definition two_hours_ahead : DateTime.ILocalTimeZone :=
  DateTime.Build_ILocalTimeZone (fun _ => TimeSpan.mk 72000000000)
    (fun _ => TimeSpan.mk 72000000000).

Lemma DateTime_kind_conversion_witness :
  exists w, DateTime.ToLocalTime (Zone := two_hours_ahead) DateTime.MaxValue = Ok w /\
    DateTime.getTicks w = DateTime.MaxTicks.
Proof.
  assert (Hm : dt_wf DateTime.MaxValue).
  { split; [split; vm_compute; [discriminate|reflexivity] | vm_compute; discriminate]. }
  destruct (DateTime_kind_conversion (Zone := two_hours_ahead) DateTime.MaxValue Hm)
    as [(w & Hw & _ & _ & _ & Ht) _].
  exists w. split; [exact Hw|]. rewrite Ht by (vm_compute; discriminate).
  vm_compute. reflexivity.
Defined.
