(* ===== verification/FormatInfo.v ===== *)
(** * System::Globalization::DateTimeFormatInfo

    [core/include/System/Globalization/DateTimeFormatInfo.hpp]: the names and
    patterns the date/time formatter and the exact parser look up, the
    invariant instance, the read-only protocol and the resolution of a format
    provider. *)

From S2P Require Export Text MachineInt.

Module FormatInfo.

(** The data members the modelled members read. *)
Record DateTimeFormatInfo := mkInfo {
  isReadOnly : bool;
  fullDateTimePattern : text; longDatePattern : text; longTimePattern : text;
  shortDatePattern : text; shortTimePattern : text;
  monthDayPattern : text; yearMonthPattern : text;
  amDesignator : text; pmDesignator : text;
  abbreviatedDayNames : list text; dayNames : list text; shortestDayNames : list text;
  abbreviatedMonthNames : list text; monthNames : list text }.

Definition invariant_day_names : list text :=
  map str ["Sunday"; "Monday"; "Tuesday"; "Wednesday"; "Thursday"; "Friday"; "Saturday"]%string.
Definition invariant_abbreviated_day_names : list text :=
  map str ["Sun"; "Mon"; "Tue"; "Wed"; "Thu"; "Fri"; "Sat"]%string.
Definition invariant_shortest_day_names : list text :=
  map str ["Su"; "Mo"; "Tu"; "We"; "Th"; "Fr"; "Sa"]%string.
Definition invariant_month_names : list text :=
  map str ["January"; "February"; "March"; "April"; "May"; "June"; "July"; "August";
           "September"; "October"; "November"; "December"; EmptyString]%string.
Definition invariant_abbreviated_month_names : list text :=
  map str ["Jan"; "Feb"; "Mar"; "Apr"; "May"; "Jun"; "Jul"; "Aug"; "Sep"; "Oct"; "Nov";
           "Dec"; EmptyString]%string.

(** DateTimeFormatInfo(): the member initialisers. *)
Definition default_info : DateTimeFormatInfo := {|
  isReadOnly := false;
  fullDateTimePattern := str "dddd, dd MMMM yyyy HH:mm:ss";
  longDatePattern := str "dddd, dd MMMM yyyy";
  longTimePattern := str "HH:mm:ss";
  shortDatePattern := str "MM/dd/yyyy";
  shortTimePattern := str "HH:mm";
  monthDayPattern := str "MMMM dd";
  yearMonthPattern := str "yyyy MMMM";
  amDesignator := str "AM";
  pmDesignator := str "PM";
  abbreviatedDayNames := invariant_abbreviated_day_names;
  dayNames := invariant_day_names;
  shortestDayNames := invariant_shortest_day_names;
  abbreviatedMonthNames := invariant_abbreviated_month_names;
  monthNames := invariant_month_names |}.

Definition with_read_only (info : DateTimeFormatInfo) (b : bool) : DateTimeFormatInfo := {|
  isReadOnly := b;
  fullDateTimePattern := fullDateTimePattern info;
  longDatePattern := longDatePattern info;
  longTimePattern := longTimePattern info;
  shortDatePattern := shortDatePattern info;
  shortTimePattern := shortTimePattern info;
  monthDayPattern := monthDayPattern info;
  yearMonthPattern := yearMonthPattern info;
  amDesignator := amDesignator info;
  pmDesignator := pmDesignator info;
  abbreviatedDayNames := abbreviatedDayNames info;
  dayNames := dayNames info;
  shortestDayNames := shortestDayNames info;
  abbreviatedMonthNames := abbreviatedMonthNames info;
  monthNames := monthNames info |}.

Definition ReadOnly (dtfi : DateTimeFormatInfo) : DateTimeFormatInfo := with_read_only dtfi true.
Definition Clone (this : DateTimeFormatInfo) : DateTimeFormatInfo := with_read_only this false.
Definition InvariantInfo : DateTimeFormatInfo := with_read_only default_info true.
Definition CurrentInfo : DateTimeFormatInfo := InvariantInfo.

(** VerifyWritable *)
Definition VerifyWritable (this : DateTimeFormatInfo) : res unit :=
  throw_if (isReadOnly this) (InvalidOperationException "Instance is read-only.").

(** A provider is a DateTimeFormatInfo itself, or an object whose GetFormat may
    answer one. *)
Inductive IFormatProvider :=
  | InfoProvider (info : DateTimeFormatInfo)
  | OtherProvider (GetFormat : option DateTimeFormatInfo).

(** GetInstance(provider); [None] is the null provider. *)
Definition GetInstance (provider : option IFormatProvider) : DateTimeFormatInfo :=
  match provider with
  | None => CurrentInfo
  | Some (InfoProvider asInfo) => asInfo
  | Some (OtherProvider (Some fromProvider)) => fromProvider
  | Some (OtherProvider None) => CurrentInfo
  end.

Definition RFC1123Pattern : text := str "ddd, dd MMM yyyy HH':'mm':'ss 'GMT'".
Definition SortableDateTimePattern : text := str "yyyy'-'MM'-'dd'T'HH':'mm':'ss".
Definition UniversalSortableDateTimePattern : text := str "yyyy'-'MM'-'dd HH':'mm':'ss'Z'".
Definition RoundtripPattern : text := str "yyyy'-'MM'-'dd'T'HH':'mm':'ss.fffffffK".

Definition is_one_of (c : ascii) (s : string) : bool := existsb (Ascii.eqb c) (str s).

(** GetAllDateTimePatterns(char) *)
Definition GetAllDateTimePatterns (this : DateTimeFormatInfo) (format : ascii)
    : res (list text) :=
  if is_one_of format "d" then Ok [shortDatePattern this]
  else if is_one_of format "D" then Ok [longDatePattern this]
  else if is_one_of format "f" then Ok [longDatePattern this ++ " "%char :: shortTimePattern this]
  else if is_one_of format "FU" then Ok [fullDateTimePattern this]
  else if is_one_of format "g" then Ok [shortDatePattern this ++ " "%char :: shortTimePattern this]
  else if is_one_of format "G" then Ok [shortDatePattern this ++ " "%char :: longTimePattern this]
  else if is_one_of format "mM" then Ok [monthDayPattern this]
  else if is_one_of format "oO" then Ok [RoundtripPattern]
  else if is_one_of format "rR" then Ok [RFC1123Pattern]
  else if is_one_of format "s" then Ok [SortableDateTimePattern]
  else if is_one_of format "t" then Ok [shortTimePattern this]
  else if is_one_of format "T" then Ok [longTimePattern this]
  else if is_one_of format "u" then Ok [UniversalSortableDateTimePattern]
  else if is_one_of format "yY" then Ok [yearMonthPattern this]
  else Throw (ArgumentException "Format specifier was invalid." "format").

(** The [array] part of a class invariant: the C++ types fix the sizes. *)
Definition info_wf (info : DateTimeFormatInfo) : Prop :=
  length (abbreviatedDayNames info) = 7%nat /\ length (dayNames info) = 7%nat /\
  length (abbreviatedMonthNames info) = 13%nat /\ length (monthNames info) = 13%nat.

End FormatInfo.
Export FormatInfo.

Lemma InvariantInfo_wf : FormatInfo.info_wf FormatInfo.InvariantInfo.
Proof. by repeat split. Qed.
