(* ===== verification/ExactParser.v ===== *)
(** * The invariant exact-format scanner

    [core/include/System/detail/InvariantExactDateTimeParser.hpp]: matching an
    input against a custom date/time format, the style validation and the
    ordered multi-format loop shared by the ParseExact members.  The input
    cursor is the text not consumed yet, as in [TextScanner]. *)

From S2P Require Export TextScanner FormatInfo.

Module Exact.

(** ** Fields, token sets, options *)

(** ExactDateTimeFields; -1 marks a field that is not bound. *)
Record ExactDateTimeFields := mkFields {
  year : Z; month : Z; day : Z; hour : Z; minute : Z; second : Z;
  fractionTicks : Z; weekday : Z; amPm : Z; twelveHour : bool;
  hasOffset : bool; zoneIsUtc : bool; offsetMinutes : Z }.

Definition no_fields : ExactDateTimeFields :=
  mkFields (-1) (-1) (-1) (-1) (-1) (-1) 0 (-1) (-1) false false false 0.

Definition set_year f v := mkFields v (month f) (day f) (hour f) (minute f) (second f)
  (fractionTicks f) (weekday f) (amPm f) (twelveHour f) (hasOffset f) (zoneIsUtc f) (offsetMinutes f).
Definition set_month f v := mkFields (year f) v (day f) (hour f) (minute f) (second f)
  (fractionTicks f) (weekday f) (amPm f) (twelveHour f) (hasOffset f) (zoneIsUtc f) (offsetMinutes f).
Definition set_day f v := mkFields (year f) (month f) v (hour f) (minute f) (second f)
  (fractionTicks f) (weekday f) (amPm f) (twelveHour f) (hasOffset f) (zoneIsUtc f) (offsetMinutes f).
Definition set_hour f v h12 := mkFields (year f) (month f) (day f) v (minute f) (second f)
  (fractionTicks f) (weekday f) (amPm f) h12 (hasOffset f) (zoneIsUtc f) (offsetMinutes f).
Definition set_minute f v := mkFields (year f) (month f) (day f) (hour f) v (second f)
  (fractionTicks f) (weekday f) (amPm f) (twelveHour f) (hasOffset f) (zoneIsUtc f) (offsetMinutes f).
Definition set_second f v := mkFields (year f) (month f) (day f) (hour f) (minute f) v
  (fractionTicks f) (weekday f) (amPm f) (twelveHour f) (hasOffset f) (zoneIsUtc f) (offsetMinutes f).
Definition set_fraction f v := mkFields (year f) (month f) (day f) (hour f) (minute f) (second f)
  v (weekday f) (amPm f) (twelveHour f) (hasOffset f) (zoneIsUtc f) (offsetMinutes f).
Definition set_weekday f v := mkFields (year f) (month f) (day f) (hour f) (minute f) (second f)
  (fractionTicks f) v (amPm f) (twelveHour f) (hasOffset f) (zoneIsUtc f) (offsetMinutes f).
Definition set_amPm f v := mkFields (year f) (month f) (day f) (hour f) (minute f) (second f)
  (fractionTicks f) (weekday f) v (twelveHour f) (hasOffset f) (zoneIsUtc f) (offsetMinutes f).
Definition set_zone f isUtc v := mkFields (year f) (month f) (day f) (hour f) (minute f) (second f)
  (fractionTicks f) (weekday f) (amPm f) (twelveHour f) true isUtc v.

(** enum class ExactTokenSet *)
Inductive ExactTokenSet := Date | Time | DateAndTime.

Record ExactParseOptions := mkOptions {
  abbreviatedMonths : list text; fullMonths : list text;
  abbreviatedDays : list text; fullDays : list text;
  allowLeadingWhite : bool; allowTrailingWhite : bool; allowInnerWhite : bool;
  allowZoneToken : bool }.

(** ** ExactInputCursor *)

(** skipWhitespace, and [find_first_not_of] of the same six characters *)
Fixpoint skipWhitespace (t : text) : text :=
  match t with
  | c :: t' => if is_space c then skipWhitespace t' else t
  | [] => []
  end.

(** peek(): the character at the cursor, NUL at the end *)
Definition peek (t : text) : ascii := match t with c :: _ => c | [] => chr 0 end.

(** takeNumber(specifierCount): 1 means one or two digits, n > 1 exactly n *)
Definition takeNumber (specifierCount : nat) (t : text) : option (Z * text) :=
  let minDigits := specifierCount in
  let maxDigits := if (specifierCount =? 1)%nat then 2%nat else specifierCount in
  match Scanner.digits_loop maxDigits 0 0 t with
  | (accumulated, count, rest) =>
      if (count <? minDigits)%nat then None else Some (accumulated, rest)
  end.

(** takeFixedDigits(digits) *)
Fixpoint fixed_digits (digits : nat) (accumulated : Z) (t : text) : option (Z * text) :=
  match digits with
  | O => Some (accumulated, t)
  | S digits =>
      match t with
      | c :: t => if is_digit c then fixed_digits digits (accumulated * 10 + digit_value c) t
                  else None
      | [] => None
      end
  end.
Definition takeFixedDigits (digits : nat) (t : text) : option (Z * text) :=
  fixed_digits digits 0 t.

(** takeUpToDigits(maxDigits): how many digits, their value, the rest *)
Definition takeUpToDigits (maxDigits : nat) (t : text) : nat * Z * text :=
  let '(value, count, rest) := Scanner.digits_loop maxDigits 0 0 t in (count, value, rest).

(** takeWord *)
Fixpoint strip_prefix (word t : text) : option text :=
  match word, t with
  | [], _ => Some t
  | w :: word, c :: t => if Ascii.eqb w c then strip_prefix word t else None
  | _ :: _, [] => None
  end.
Definition takeWord (word t : text) : option text :=
  match word with [] => None | _ => strip_prefix word t end.

(** matchName: the longest name the input continues with; [i] is the index of
    the head of [names], [best] the best match so far with its length. *)
Fixpoint best_name (names : list text) (i : Z) (best : Z) (bestLen : nat) (t : text) : Z :=
  match names with
  | [] => best
  | candidate :: names =>
      let len := length candidate in
      if (len =? 0)%nat || (len <=? bestLen)%nat then best_name names (i + 1) best bestLen t
      else match takeWord candidate t with
           | Some _ => best_name names (i + 1) i len t
           | None => best_name names (i + 1) best bestLen t
           end
  end.

Definition matchName (names : list text) (t : text) : option (Z * text) :=
  let best := best_name names 0 (-1) 0 t in
  if best <? 0 then None
  else match takeWord (nth (Z.to_nat best) names []) t with
       | Some rest => Some (best, rest)
       | None => Some (best, t)
       end.

(** ** One token of the format *)

(** runLength: the run of the character [c] that starts at the cursor of the
    format, [rest] being the format after that character. *)
Fixpoint runLength (c : ascii) (rest : text) : nat * text :=
  match rest with
  | c' :: rest' => if Ascii.eqb c' c
                   then let '(n, after) := runLength c rest' in (S n, after)
                   else (1%nat, rest)
  | [] => (1%nat, [])
  end.

(** How a token block answers: [return false], fall through to the code after
    the block, or bind and [continue] with the format after the run. *)
Inductive token :=
  | Reject
  | Fallthrough
  | Bound (fields : ExactDateTimeFields) (cursor : text).

Definition of_number {A} (r : option (A * text)) (k : A -> text -> token) : token :=
  match r with Some (v, cursor) => k v cursor | None => Reject end.

(** The [if (allowDate)] block. *)
Definition date_token (options : ExactParseOptions) (allowTime : bool) (c : ascii) (n : nat)
    (fields : ExactDateTimeFields) (cursor : text) : token :=
  if Ascii.eqb c "y" then
    if (4 <? n)%nat || (0 <=? year fields) then Reject
    else of_number (takeNumber n cursor) (fun value cursor =>
      Bound (set_year fields
        (if (n <=? 2)%nat && (value <=? 99)
         then (if value <=? 49 then 2000 + value else 1900 + value) else value)) cursor)
  else if Ascii.eqb c "M" then
    if (4 <? n)%nat || (0 <=? month fields) then Reject
    else if (n <=? 2)%nat
    then of_number (takeNumber n cursor) (fun value cursor => Bound (set_month fields value) cursor)
    else of_number (matchName (if (n =? 3)%nat then abbreviatedMonths options else fullMonths options) cursor)
           (fun index cursor => Bound (set_month fields (index + 1)) cursor)
  else if Ascii.eqb c "d" then
    if (n <=? 2)%nat then
      if 0 <=? day fields then Reject
      else of_number (takeNumber n cursor) (fun value cursor => Bound (set_day fields value) cursor)
    else if (4 <? n)%nat || (0 <=? weekday fields) then Reject
    else of_number (matchName (if (n =? 3)%nat then abbreviatedDays options else fullDays options) cursor)
           (fun index cursor => Bound (set_weekday fields index) cursor)
  else if Ascii.eqb c "g" then Reject
  else if negb (allowZoneToken options) && is_one_of c "zK" then Reject
  else if negb allowTime && is_one_of c "HhmsfFt" then Reject
  else Fallthrough.

(** [for (int k = read; k < 7; ++k) value *= 10;] *)
Definition scale_fraction (value : Z) (read : nat) : Z := value * 10 ^ Z.of_nat (7 - read).

(** The [if (allowTime)] block. *)
Definition time_token (options : ExactParseOptions) (allowDate : bool) (c : ascii) (n : nat)
    (fields : ExactDateTimeFields) (cursor : text) : token :=
  if is_one_of c "Hh" then
    if (2 <? n)%nat || (0 <=? hour fields) then Reject
    else of_number (takeNumber n cursor) (fun value cursor =>
           Bound (set_hour fields value (Ascii.eqb c "h")) cursor)
  else if Ascii.eqb c "m" then
    if (2 <? n)%nat || (0 <=? minute fields) then Reject
    else of_number (takeNumber n cursor) (fun value cursor => Bound (set_minute fields value) cursor)
  else if Ascii.eqb c "s" then
    if (2 <? n)%nat || (0 <=? second fields) then Reject
    else of_number (takeNumber n cursor) (fun value cursor => Bound (set_second fields value) cursor)
  else if is_one_of c "fF" then
    if (7 <? n)%nat || negb (fractionTicks fields =? 0) then Reject
    else if Ascii.eqb c "f"
    then of_number (takeFixedDigits n cursor) (fun value cursor =>
           Bound (set_fraction fields (scale_fraction value n)) cursor)
    else let '(read, value, cursor) := takeUpToDigits n cursor in
         Bound (set_fraction fields (scale_fraction value read)) cursor
  else if Ascii.eqb c "t" then
    if (2 <? n)%nat || (0 <=? amPm fields) then Reject
    else
      let take w := if (n =? 1)%nat then Scanner.take (peek w) cursor else takeWord w cursor in
      match take (str "AM") with
      | Some cursor => Bound (set_amPm fields 0) cursor
      | None => match take (str "PM") with
                | Some cursor => Bound (set_amPm fields 1) cursor
                | None => Reject
                end
      end
  else if Ascii.eqb c "g" then Reject
  else if negb (allowZoneToken options) && is_one_of c "zK" then Reject
  else if negb allowDate && is_one_of c "yMd" then Reject
  else Fallthrough.

(** The zone arm: [K] and [z], [zz], [zzz]. *)
Definition zone_offset (c : ascii) (n : nat) (fields : ExactDateTimeFields) (cursor : text) : token :=
  if is_one_of (peek cursor) "+-" && negb (Scanner.atEnd cursor) then
    let negative := Ascii.eqb (peek cursor) "-" in
    match Scanner.take (if negative then "-" else "+")%char cursor with
    | None => Reject
    | Some cursor =>
        of_number (takeNumber (if Ascii.eqb c "z" && (n =? 1)%nat then 1 else 2) cursor)
          (fun hours cursor =>
             match (if Ascii.eqb c "K" || (n =? 3)%nat
                    then match Scanner.take ":" cursor with
                         | Some cursor => takeNumber 2 cursor
                         | None => None
                         end
                    else Some (0, cursor)) with
             | None => Reject
             | Some (minutes, cursor) =>
                 if (hours >? 14) || (minutes >? 59) then Reject
                 else Bound (set_zone fields (zoneIsUtc fields)
                        ((if negative then -1 else 1) * (hours * 60 + minutes))) cursor
             end)
    end
  else if Ascii.eqb c "K" then Bound fields cursor else Reject.

Definition zone_token (c : ascii) (n : nat) (fields : ExactDateTimeFields) (cursor : text) : token :=
  if Ascii.eqb c "z" && (3 <? n)%nat then Reject
  else if Ascii.eqb c "K" && (1 <? n)%nat then Reject
  else if hasOffset fields || zoneIsUtc fields then Reject
  else match (if Ascii.eqb c "K" then Scanner.take "Z" cursor else None) with
       | Some cursor => Bound (set_zone fields true (offsetMinutes fields)) cursor
       | None => zone_offset c n fields cursor
       end.

(** [for (k < run) if (!cursor.take(c)) return false;] *)
Fixpoint take_run (n : nat) (c : ascii) (cursor : text) : option text :=
  match n with
  | O => Some cursor
  | S n => match Scanner.take c cursor with Some cursor => take_run n c cursor | None => None end
  end.

(** A run of [n] characters [c] of the format that is not a quote or escape. *)
Definition run_token (tokens : ExactTokenSet) (options : ExactParseOptions) (c : ascii) (n : nat)
    (fields : ExactDateTimeFields) (cursor : text) : option (ExactDateTimeFields * text) :=
  let allowDate := match tokens with Time => false | _ => true end in
  let allowTime := match tokens with Date => false | _ => true end in
  let literal := match take_run n c cursor with
                 | Some cursor => Some (fields, cursor) | None => None end in
  let zone := if allowZoneToken options && is_one_of c "Kz"
              then match zone_token c n fields cursor with
                   | Bound fields cursor => Some (fields, cursor)
                   | _ => None
                   end
              else literal in
  let time := if allowTime
              then match time_token options allowDate c n fields cursor with
                   | Bound fields cursor => Some (fields, cursor)
                   | Reject => None
                   | Fallthrough => zone
                   end
              else zone in
  if allowDate
  then match date_token options allowTime c n fields cursor with
       | Bound fields cursor => Some (fields, cursor)
       | Reject => None
       | Fallthrough => time
       end
  else time.

(** A quoted literal of the format: the characters up to [close], and the
    format after it. *)
Fixpoint until (close : ascii) (t : text) : option (text * text) :=
  match t with
  | c :: t => if Ascii.eqb c close then Some ([], t)
              else match until close t with
                   | Some (q, r) => Some (c :: q, r) | None => None end
  | [] => None
  end.

(** ** MatchExactFormat *)

(** The loop over the format.  Every iteration consumes at least one of its
    characters, so its length is enough fuel. *)
Fixpoint match_loop (fuel : nat) (tokens : ExactTokenSet) (options : ExactParseOptions)
    (format : text) (fields : ExactDateTimeFields) (cursor : text)
    : option ExactDateTimeFields :=
  match fuel with
  | O => None
  | S fuel =>
      match format with
      | [] => if Scanner.atEnd cursor then Some fields else None
      | c :: rest =>
          let cursor := if allowInnerWhite options then skipWhitespace cursor else cursor in
          if Ascii.eqb c "%" then
            match rest with
            | [] => None
            | c' :: _ => if Ascii.eqb c' "%" then None
                         else match_loop fuel tokens options rest fields cursor
            end
          else if Ascii.eqb c "\" then
            match rest with
            | [] => None
            | c' :: rest =>
                match Scanner.take c' cursor with
                | Some cursor => match_loop fuel tokens options rest fields cursor
                | None => None
                end
            end
          else if Ascii.eqb c "'" || Ascii.eqb c "034" then
            match until c rest with
            | None => None
            | Some (quoted, rest) =>
                match strip_prefix quoted cursor with
                | Some cursor => match_loop fuel tokens options rest fields cursor
                | None => None
                end
            end
          else
            let '(n, after) := runLength c rest in
            match run_token tokens options c n fields cursor with
            | Some (fields, cursor) => match_loop fuel tokens options after fields cursor
            | None => None
            end
      end
  end.

Definition trim_trailing (t : text) : text := reverse (skipWhitespace (reverse t)).

Definition MatchExactFormat (input format : text) (tokens : ExactTokenSet)
    (options : ExactParseOptions) : option ExactDateTimeFields :=
  match format with
  | [] => None
  | _ =>
      let trimmed := if allowLeadingWhite options then skipWhitespace input else input in
      let trimmed := if allowTrailingWhite options then trim_trailing trimmed else trimmed in
      match_loop (S (length format)) tokens options format no_fields trimmed
  end.

(** ** Standard formats *)

Definition ExpandStandardFormat (format : text) (forDate : bool) : text :=
  match format with
  | [c] => if is_one_of c "Oo" then (if forDate then str "yyyy-MM-dd" else str "HH:mm:ss.fffffff")
           else if is_one_of c "Rr" then (if forDate then str "ddd, dd MMM yyyy" else str "HH:mm:ss")
           else []
  | _ => []
  end.

Definition ExpandStandardDateTimeFormat (format : text) : text :=
  match format with
  | [c] => if is_one_of c "Oo" then str "yyyy-MM-ddTHH:mm:ss.fffffffK"
           else if is_one_of c "Rr" then str "ddd, dd MMM yyyy HH:mm:ss 'GMT'"
           else if Ascii.eqb c "s" then str "yyyy-MM-ddTHH:mm:ss"
           else if Ascii.eqb c "u" then str "yyyy-MM-dd HH:mm:ss'Z'"
           else []
  | _ => []
  end.

(** ** Styles *)

(** DateTimeStyles, by bit *)
Definition AllowLeadingWhite : Z := 1.
Definition AllowTrailingWhite : Z := 2.
Definition AllowInnerWhite : Z := 4.
Definition AllowWhiteSpaces : Z := 7.
Definition NoCurrentDateDefault : Z := 8.
Definition AdjustToUniversal : Z := 16.
Definition AssumeLocal : Z := 32.
Definition AssumeUniversal : Z := 64.
Definition RoundtripKind : Z := 128.

Definition has (styles flag : Z) : bool := negb (Z.land styles flag =? 0).

Definition ValidateDateTimeStyles (raw : Z) (paramName : string) : res unit :=
  let kValid := Z.lor AllowLeadingWhite (Z.lor AllowTrailingWhite (Z.lor AllowInnerWhite
    (Z.lor NoCurrentDateDefault (Z.lor AdjustToUniversal (Z.lor AssumeLocal
    (Z.lor AssumeUniversal RoundtripKind)))))) in
  let assumeBoth := Z.lor AssumeLocal AssumeUniversal in
  _ <- throw_if (negb (Z.land raw (Z.lnot kValid) =? 0))
    (ArgumentException "An undefined DateTimeStyles value is being used." paramName) ;;
  _ <- throw_if (Z.land raw assumeBoth =? assumeBoth)
    (ArgumentException "The DateTimeStyles values AssumeLocal and AssumeUniversal cannot be used together." paramName) ;;
  throw_if (has raw RoundtripKind && has raw (Z.lor assumeBoth AdjustToUniversal))
    (ArgumentException "The DateTimeStyles value RoundtripKind cannot be used with the values AssumeLocal, AssumeUniversal or AdjustToUniversal." paramName).

Definition ValidateDateTimeOnlyStyles (style : Z) : res unit :=
  throw_if (negb (Z.land style (Z.lnot AllowWhiteSpaces) =? 0))
    (ArgumentException "The only allowed values for the styles are AllowWhiteSpaces, AllowTrailingWhite, AllowLeadingWhite, and AllowInnerWhite." "style").

Definition ResolveExactParseOptions (provider : option IFormatProvider) (style : Z)
    : ExactParseOptions :=
  let info := GetInstance provider in
  mkOptions (firstn 12 (abbreviatedMonthNames info)) (firstn 12 (monthNames info))
    (abbreviatedDayNames info) (dayNames info)
    (has style AllowLeadingWhite) (has style AllowTrailingWhite) (has style AllowInnerWhite)
    false.

Definition with_zone_token (options : ExactParseOptions) : ExactParseOptions :=
  mkOptions (abbreviatedMonths options) (fullMonths options) (abbreviatedDays options)
    (fullDays options) (allowLeadingWhite options) (allowTrailingWhite options)
    (allowInnerWhite options) true.

(** ** The multi-format loop *)

(** The outcome, with what the matching call wrote on [Matched]. *)
Inductive MultiFormatOutcome (A : Type) :=
  | Matched (result : A) | NoFormatSpecifier | NotRecognized.
Arguments Matched {A} result.
Arguments NoFormatSpecifier {A}.
Arguments NotRecognized {A}.

Fixpoint first_match {A} (formats : list text) (tryOne : text -> res (option A))
    : res (MultiFormatOutcome A) :=
  match formats with
  | [] => Ok NotRecognized
  | format :: formats =>
      match format with
      | [] => Ok NoFormatSpecifier
      | _ => r <- tryOne format ;;
             match r with Some a => Ok (Matched a) | None => first_match formats tryOne end
      end
  end.

Definition MatchFirstOfManyFormats {A} (input : text) (formats : list text)
    (tryOne : text -> res (option A)) : res (MultiFormatOutcome A) :=
  match formats, input with
  | [], _ => Ok NoFormatSpecifier
  | _, [] => Ok NotRecognized
  | _, _ => first_match formats tryOne
  end.

End Exact.

(** ** Tests on concrete inputs *)

Example MatchExactFormat_o :
  Exact.MatchExactFormat (str "2024-06-15T10:20:30.1234567Z")
    (Exact.ExpandStandardDateTimeFormat (str "o")) Exact.DateAndTime
    (Exact.with_zone_token (Exact.ResolveExactParseOptions None 0)) =
  Some (Exact.mkFields 2024 6 15 10 20 30 1234567 (-1) (-1) false true true 0).
Proof. reflexivity. Qed.

Example MatchExactFormat_names :
  map (fun f => Exact.MatchExactFormat (str "Sat, 15 Jun 2024") (str f) Exact.Date
    (Exact.ResolveExactParseOptions None 0)) ["ddd, dd MMM yyyy"; "ddd, d MMMM yyyy"; "ddd, dd MMM yyy"]%string =
  [Some (Exact.mkFields 2024 6 15 (-1) (-1) (-1) 0 6 (-1) false false false 0); None; None].
Proof. reflexivity. Qed.
