(* ===== verification/DateTimeText.v ===== *)
(** * System::DateTime, text conversion

    [core/src/System/DateTime.cpp]: ToString(), the custom formatter behind
    ToString(format, provider), TryParse and Parse, and TryParseExact with its
    style and zone rules. *)

From S2P Require Export DateTime ExactParser.

Module DateTimeText.
Import DateTime.

(** [std::to_string] padded on the left with zeros: the lambda [pad]. *)
Definition pad (n : Z) (w : nat) : text := setw0 w (to_string n).

(** ** ToString() *)

(** [snprintf("%04d-%02d-%02d %02d:%02d:%02d", ...)] *)
Definition print_tm (t : tm) : text :=
  pad (tm_year t + 1900) 4 ++ "-"%char :: pad (tm_mon t + 1) 2 ++ "-"%char :: pad (tm_mday t) 2 ++
  " "%char :: pad (tm_hour t) 2 ++ ":"%char :: pad (tm_min t) 2 ++ ":"%char :: pad (tm_sec t) 2.

Definition ToString (this : DateTime) : res text := t <- toTm this ;; Ok (print_tm t).

(** ** The custom formatter *)

Definition invalid_format : exn := FormatException "Format specifier was invalid.".

(** The values formatCustom reads once, before its loop. *)
Record components := mkComponents {
  yr : Z; mo : Z; dy : Z; hr : Z; mn : Z; sc : Z; fraction : Z; weekday : Z;
  kind : DateTimeKind }.

Definition components_of (this : DateTime) : res components :=
  yr <- getYear this ;; mo <- getMonth this ;; dy <- getDay this ;;
  hr <- getHour this ;; mn <- getMinute this ;; sc <- getSecond this ;;
  wd <- getDayOfWeek this ;;
  Ok (mkComponents yr mo dy hr mn sc (i32 (Z.rem (ticks this) TicksPerSecond)) wd (getKind this)).

(** The lambda [appendOffset]. *)
Definition offset_text (offset : TimeSpan.TimeSpan) (width : nat) : res text :=
  let totalMinutes := Z.quot (TimeSpan.getTicks offset) TimeSpan.TicksPerMinute in
  let sign := if totalMinutes <? 0 then "-"%char else "+"%char in
  let totalMinutes := if totalMinutes <? 0 then - totalMinutes else totalMinutes in
  let hours := i32 (Z.quot totalMinutes 60) in
  let minutes := i32 (Z.rem totalMinutes 60) in
  match width with
  | 1%nat => Ok (sign :: to_string hours)
  | 2%nat => Ok (sign :: pad hours 2)
  | 3%nat => Ok (sign :: pad hours 2 ++ ":"%char :: pad minutes 2)
  | _ => Throw invalid_format
  end.

(** [while (!s.empty() && s.back() == '0') s.pop_back();] *)
Fixpoint drop_leading_zeros (t : text) : text :=
  match t with
  | c :: t' => if Ascii.eqb c "0" then drop_leading_zeros t' else t
  | [] => []
  end.
Definition pop_zeros (t : text) : text := reverse (drop_leading_zeros (reverse t)).

(** [result.back() == '.'], and the result without its last character *)
Definition ends_with_dot (result : text) : bool :=
  match reverse result with c :: _ => Ascii.eqb c "." | [] => false end.
Definition pop_back (result : text) : text := reverse (tail (reverse result)).

Definition tt_text (c : components) (info : DateTimeFormatInfo) (n : nat) : text :=
  let designator := if hr c <? 12 then amDesignator info else pmDesignator info in
  if (n =? 1)%nat then firstn 1 designator else designator.

(** A token that appends one text: a run of [n] specifiers [c]. [None] is a
    token of another kind. *)
Definition field_text (v : components) (info : DateTimeFormatInfo) (c : ascii) (n : nat)
    : option (res text) :=
  let two x := if (2 <=? n)%nat then pad x 2 else to_string x in
  if Ascii.eqb c "y" then Some (Ok (if (4 <=? n)%nat then pad (yr v) 4 else pad (Z.rem (yr v) 100) 2))
  else if Ascii.eqb c "M" then Some
    (if (4 <=? n)%nat then get (monthNames info) (mo v - 1)
     else if (n =? 3)%nat then get (abbreviatedMonthNames info) (mo v - 1)
     else Ok (two (mo v)))
  else if Ascii.eqb c "d" then Some
    (if (4 <=? n)%nat then get (dayNames info) (weekday v)
     else if (n =? 3)%nat then get (abbreviatedDayNames info) (weekday v)
     else Ok (two (dy v)))
  else if Ascii.eqb c "H" then Some (Ok (two (hr v)))
  else if Ascii.eqb c "h" then
    let h12 := Z.rem (hr v) 12 in
    let h12 := if h12 =? 0 then 12 else h12 in Some (Ok (two h12))
  else if Ascii.eqb c "m" then Some (Ok (two (mn v)))
  else if Ascii.eqb c "s" then Some (Ok (two (sc v)))
  else if Ascii.eqb c "f" then Some
    (if (7 <? n)%nat then Throw invalid_format else Ok (firstn n (pad (fraction v) 7)))
  else if Ascii.eqb c "t" then Some (Ok (tt_text v info n))
  else None.

Definition no_zone : exn := FormatException
  "The custom time-zone offset format requires a local time zone and is not supported by DateTime.ToString in Core.Base.".

(** One token: the new [result] and the format left.  [force] is
    [forceSingleToken]. *)
Definition format_token (v : components) (info : DateTimeFormatInfo)
    (offset : option TimeSpan.TimeSpan) (result : text) (force : bool) (c : ascii) (rest : text)
    : res (text * text) :=
  let '(n, after) := if force then (1%nat, rest) else Exact.runLength c rest in
  match field_text v info c n with
  | Some r => s <- r ;; Ok (result ++ s, after)
  | None =>
      if Ascii.eqb c "F" then
        if (7 <? n)%nat then Throw invalid_format
        else let fraction := pop_zeros (firstn n (pad (fraction v) 7)) in
             match fraction with
             | [] => if ends_with_dot result then Ok (pop_back result, after)
                     else Ok (result, after)
             | _ => Ok (result ++ fraction, after)
             end
      else if Ascii.eqb c "z" then
        match offset with
        | None => Throw no_zone
        | Some offset => s <- offset_text offset (if (3 <=? n)%nat then 3%nat else n) ;;
                         Ok (result ++ s, after)
        end
      else if Ascii.eqb c "K" then
        match offset with
        | Some offset => s <- offset_text offset 3 ;; Ok (result ++ s, rest)
        | None => Ok (match kind v with Utc => result ++ ["Z"%char] | _ => result end, rest)
        end
      else if Ascii.eqb c "'" || Ascii.eqb c "034" then
        match Exact.until c rest with
        | Some (q, rest) => Ok (result ++ q, rest)
        | None => Throw invalid_format
        end
      else Ok (result ++ [c], rest)
  end.

(** The [while (i < fmt.size())] loop; every iteration consumes at least one
    character of the format. *)
Fixpoint format_loop (fuel : nat) (v : components) (info : DateTimeFormatInfo)
    (offset : option TimeSpan.TimeSpan) (result format : text) : res text :=
  match fuel with
  | O => UB
  | S fuel =>
      match format with
      | [] => Ok result
      | c :: rest =>
          p <- (if Ascii.eqb c "%"
                then match rest with
                     | [] => Throw invalid_format
                     | c' :: rest' => if Ascii.eqb c' "%" then Throw invalid_format
                                      else format_token v info offset result true c' rest'
                     end
                else format_token v info offset result false c rest) ;;
          let '(result, format) := p in
          format_loop fuel v info offset result format
      end
  end.

Definition formatCustom (this : DateTime) (format : text) (info : DateTimeFormatInfo)
    (offset : option TimeSpan.TimeSpan) : res text :=
  v <- components_of this ;;
  format_loop (S (length format)) v info offset [] format.

Definition kStandard : string := "dDfFgGmMoOrRstTuyY".

(** ToString(format, provider) *)
Definition ToStringFormat (this : DateTime) (format : text) (provider : option IFormatProvider)
    : res text :=
  let info := GetInstance provider in
  expanded <- match format with
    | [c] =>
        _ <- throw_if (Ascii.eqb c "U") (FormatException
          "The universal full-date format requires a local time zone and is not supported by this overload.") ;;
        _ <- throw_if (negb (is_one_of c kStandard)) invalid_format ;;
        patterns <- GetAllDateTimePatterns info c ;;
        get patterns 0
    | _ => Ok format
    end ;;
  formatCustom this expanded info None.

(** ** TryParse and Parse *)

(** The designator after the date and time: [Z], [z], an offset or nothing. *)
Definition skip_zone (t : text) : option text :=
  match Scanner.take "Z" t with
  | Some t => Some t
  | None =>
      match Scanner.take "z" t with
      | Some t => Some t
      | None => if Scanner.atEnd t then Some t
                else match Scanner.takeUtcOffsetMinutes t with
                     | Some (_, t) => Some t
                     | None => None
                     end
      end
  end.

(** The [try { result = DateTime(dateToTicks(...) + fraction) } catch (...)]. *)
Definition build_parsed (p : Scanner.DateTimeParts) : res (option DateTime) :=
  match (t <- dateToTicks (Scanner.year p) (Scanner.month p) (Scanner.day p)
                (Scanner.hour p) (Scanner.minute p) (Scanner.second p) 0 ;;
         t <- sadd 64 t (Scanner.fractionTicks p) ;;
         of_ticks t) with
  | Ok d => Ok (Some d)
  | Throw _ => Ok None
  | UB => UB
  end.

(** TryParse: the out parameter is MinValue on failure, which is the [None]
    result. *)
Definition TryParse (s : text) : res (option DateTime) :=
  match Scanner.takeDateTimeParts (Scanner.trimDateTimeText s) with
  | None => Ok None
  | Some (parts, t) =>
      match skip_zone t with
      | None => Ok None
      | Some t => if Scanner.atEnd t then build_parsed parts else Ok None
      end
  end.

Definition not_recognized (s : text) : exn := FormatException
  (String.append "String was not recognized as a valid DateTime: " (String.string_of_list_ascii s)).

Definition Parse (s : text) : res DateTime :=
  r <- TryParse s ;;
  match r with Some d => Ok d | None => Throw (not_recognized s) end.

End DateTimeText.

(** ** Printed fields *)

Lemma pad_run w n : 0 <= n -> (0 < w)%nat -> n < 10 ^ Z.of_nat w ->
  all_digits (DateTimeText.pad n w) /\ DateTimeText.pad n w <> [] /\
  length (DateTimeText.pad n w) = w /\ dec_value 0 (DateTimeText.pad n w) = n.
Proof.
  intros Hn Hw Hlt. unfold DateTimeText.pad, to_string. decide_cmp.
  destruct (setw0_dec_spec w n) as (? & ? & ? & Hl); [done|]. rewrite Hl by done. done.
Qed.

(** A printed field is read back by the scanner. *)
Lemma takeDigits_pad min max w n rest : 0 <= n -> (0 < w)%nat -> n < 10 ^ Z.of_nat w ->
  (min <= w <= max)%nat -> w = max \/ stops is_digit rest ->
  Scanner.takeDigits min max (DateTimeText.pad n w ++ rest) = Some (n, w, rest).
Proof.
  intros Hn Hw Hlt Hr Hs. destruct (pad_run w n Hn Hw Hlt) as (Hd & _ & Hl & Hv).
  rewrite takeDigits_run; [by rewrite Hv, Hl | done | lia |]. rewrite Hl. exact Hs.
Qed.

(** Text that starts and ends with digits is not trimmed. *)
Lemma trim_digits_ends a mid b : all_digits a -> a <> [] -> all_digits b -> b <> [] ->
  Scanner.trimDateTimeText (a ++ mid ++ b) = a ++ mid ++ b.
Proof.
  intros Ha Ha0 Hb Hb0. apply trim_id.
  - destruct a as [|c a]; [done|]. apply Forall_cons in Ha as [Hc _]. by apply digit_not_ws.
  - rewrite !reverse_app. destruct (reverse b) as [|c r] eqn:E.
    { apply (f_equal reverse) in E. by rewrite reverse_involutive in E. }
    assert (Forall (fun c => is_digit c = true) (c :: r)) as [Hc _]%Forall_cons
      by (rewrite <- E; by apply Forall_reverse).
    by apply digit_not_ws.
Qed.

Section printed.
Context (y m d h mi s : Z).
Context (Hdate : valid_date y m d) (Htime : valid_time h mi s 0).

(** [yyyy-MM-dd] and [HH:mm:ss] *)
Definition date_text : text :=
  DateTimeText.pad y 4 ++ "-"%char :: DateTimeText.pad m 2 ++ "-"%char :: DateTimeText.pad d 2.
Definition clock_text : text :=
  DateTimeText.pad h 2 ++ ":"%char :: DateTimeText.pad mi 2 ++ ":"%char :: DateTimeText.pad s 2.

Lemma takeDate_printed rest : Scanner.takeDate (date_text ++ rest) = Some (y, m, d, rest).
Proof.
  pose proof (valid_date_bounds _ _ _ Hdate). destruct Hdate as (Hy & Hm & _).
  unfold Scanner.takeDate, date_text. rewrite <- !app_assoc. cbn [app]. rewrite <- app_assoc.
  cbn [app]. rewrite takeDigits_pad, take_hit by (lia || by left).
  rewrite takeDigits_pad, take_hit by (lia || by left).
  rewrite takeDigits_pad by (lia || by left). done.
Qed.

Lemma takeClock_printed rest : Scanner.takeClock (clock_text ++ rest) = Some (h, mi, s, rest).
Proof.
  destruct Htime as (Hh & Hmi & Hs & _).
  unfold Scanner.takeClock, clock_text. rewrite <- !app_assoc. cbn [app]. rewrite <- app_assoc.
  cbn [app]. rewrite takeDigits_pad, take_hit by (lia || by left).
  rewrite takeDigits_pad, take_hit by (lia || by left).
  rewrite takeDigits_pad by (lia || by left). done.
Qed.

Lemma takeFraction_printed f : 0 <= f < 10000000 ->
  Scanner.takeFraction ("."%char :: DateTimeText.pad f 7) = Some (f, []).
Proof.
  intros Hf. unfold Scanner.takeFraction. rewrite take_hit.
  rewrite <- (app_nil_r (DateTimeText.pad f 7)), takeDigits_pad by (cbn; lia || by left).
  rewrite scale_to7_value by lia. cbn [Nat.sub]. do 2 f_equal. change (10 ^ Z.of_nat 0) with 1. lia.
Qed.

Lemma takeParts_seconds :
  Scanner.takeDateTimeParts (date_text ++ " "%char :: clock_text) =
  Some (Scanner.mkParts y m d h mi s 0 true, []).
Proof.
  unfold Scanner.takeDateTimeParts. rewrite takeDate_printed, take_hit.
  rewrite <- (app_nil_r clock_text), takeClock_printed. done.
Qed.

Lemma takeParts_fraction f : 0 <= f < 10000000 ->
  Scanner.takeDateTimeParts (date_text ++ " "%char :: clock_text ++ "."%char :: DateTimeText.pad f 7) =
  Some (Scanner.mkParts y m d h mi s f true, []).
Proof.
  intros Hf. unfold Scanner.takeDateTimeParts. rewrite takeDate_printed, take_hit.
  rewrite takeClock_printed, takeFraction_printed by done. done.
Qed.

(** Building the parsed value. *)
Lemma build_parsed_ok f t : 0 <= f < 10000000 ->
  DateTimeText.build_parsed (Scanner.mkParts y m d h mi s f t) =
  Ok (Some (packed (date_ticks y m d + time_ticks h mi s 0 + f) 0)).
Proof.
  intros Hf. unfold DateTimeText.build_parsed. cbn [Scanner.year Scanner.month Scanner.day
    Scanner.hour Scanner.minute Scanner.second Scanner.fractionTicks].
  rewrite dateToTicks_valid by done. rewrite bind_Ok.
  pose proof (date_ticks_range _ _ _ Hdate).
  assert (0 <= time_ticks h mi s 0 <= 863990000000)
    by (destruct Htime as (? & ? & ? & _); unfold time_ticks; lia).
  unfold sadd. rewrite schk_Ok by (eval_pow; lia). rewrite bind_Ok, of_ticks_spec.
  unfold DateTime.MaxTicks. by decide_cmp.
Qed.

Lemma date_text_ends rest b : all_digits b -> b <> [] ->
  Scanner.trimDateTimeText (date_text ++ rest ++ b) = date_text ++ rest ++ b.
Proof.
  intros Hb Hb0. destruct (pad_run 4 y) as (Hd4 & Hne & _); [destruct Hdate; cbn; lia..|].
  set (mid := "-"%char :: DateTimeText.pad m 2 ++ "-"%char :: DateTimeText.pad d 2).
  assert (E : date_text ++ rest ++ b = DateTimeText.pad y 4 ++ (mid ++ rest) ++ b)
    by (unfold date_text; fold mid; by rewrite <- !app_assoc).
  rewrite E. by apply trim_digits_ends.
Qed.

Lemma spaced_clock c : c :: clock_text =
  (c :: DateTimeText.pad h 2 ++ ":"%char :: DateTimeText.pad mi 2 ++ [":"%char]) ++
  DateTimeText.pad s 2.
Proof. unfold clock_text. cbn [app]. rewrite <- !app_assoc. cbn [app]. by rewrite <- !app_assoc. Qed.
End printed.

(** ** ToString *)

Lemma ToString_text v : dt_wf v -> exists y m d h mi s,
  valid_date y m d /\ valid_time h mi s 0 /\
  DateTimeText.ToString v = Ok (date_text y m d ++ " "%char :: clock_text h mi s) /\
  date_ticks y m d + time_ticks h mi s 0 = DateTime.ticks v - DateTime.ticks v mod 10000000 /\
  DateTimeText.components_of v = Ok (DateTimeText.mkComponents y m d h mi s
    (DateTime.ticks v mod 10000000) ((day_number y m d + 1) mod 7) (DateTime.getKind v)).
Proof.
  intros Hv. destruct (toTm_spec v Hv) as (y & m & d & x & Hd & Hn & Hx & Htm & Hh & Hmi & Hs & Ht).
  exists y, m, d, (DateTime.tm_hour x), (DateTime.tm_min x), (DateTime.tm_sec x).
  pose proof (dt_wf_ticks v Hv) as Hr. unfold in_ticks, DateTime.MaxTicks in Hr.
  split_and!; [done | unfold valid_time; lia | | |].
  - unfold DateTimeText.ToString. rewrite Hx, bind_Ok. unfold DateTimeText.print_tm.
    rewrite Htm. cbn [DateTime.tm_year DateTime.tm_mon DateTime.tm_mday DateTime.tm_hour
      DateTime.tm_min DateTime.tm_sec].
    replace (y - 1900 + 1900) with y by lia. replace (m - 1 + 1) with m by lia.
    unfold date_text, clock_text. rewrite <- !app_assoc. cbn [app]. by rewrite <- !app_assoc.
  - unfold date_ticks, time_ticks. rewrite Hn. clear Htm Hx. zlia.
  - unfold DateTimeText.components_of, DateTime.getYear, DateTime.getMonth, DateTime.getDay,
      DateTime.getHour, DateTime.getMinute, DateTime.getSecond, DateTime.getDayOfWeek.
    rewrite Hx, !bind_Ok, Htm. cbn [DateTime.tm_year DateTime.tm_mon DateTime.tm_mday
      DateTime.tm_hour DateTime.tm_min DateTime.tm_sec DateTime.tm_wday].
    change DateTime.TicksPerSecond with 10000000. rewrite Z.rem_mod_nonneg by lia.
    unfold i32. rewrite wraps_id by (eval_pow; zlia).
    do 2 f_equal; lia.
Qed.

(** ToString() and TryParse: printing never fails, and reading the printed
    text back gives the value truncated to whole seconds, with kind
    Unspecified. *)
Theorem DateTime_text_roundtrip v (Hv : dt_wf v) :
  exists s w, DateTimeText.ToString v = Ok s /\ DateTimeText.TryParse s = Ok (Some w) /\
    DateTimeText.Parse s = Ok w /\ dt_wf w /\
    DateTime.getTicks w = DateTime.getTicks v - DateTime.getTicks v mod 10000000 /\
    DateTime.getKind w = DateTime.Unspecified.
Proof.
  destruct (ToString_text v Hv) as (y & m & d & h & mi & s & Hd & Ht & Hs & Hsum & _).
  set (w := packed (date_ticks y m d + time_ticks h mi s 0 + 0) 0).
  assert (Hin : in_ticks (date_ticks y m d + time_ticks h mi s 0 + 0)).
  { pose proof (dt_wf_ticks v Hv) as Hr. unfold in_ticks in *. rewrite Z.add_0_r, Hsum.
    pose proof (Z.mod_pos_bound (DateTime.ticks v) 10000000 ltac:(lia)).
    pose proof (Z.mod_le (DateTime.ticks v) 10000000 ltac:(lia) ltac:(lia)). lia. }
  assert (Hp : DateTimeText.TryParse (date_text y m d ++ " "%char :: clock_text h mi s) =
               Ok (Some w)).
  { unfold DateTimeText.TryParse.
    replace (Scanner.trimDateTimeText _) with (date_text y m d ++ " "%char :: clock_text h mi s).
    - by rewrite takeParts_seconds, build_parsed_ok.
    - symmetry. destruct (pad_run 2 s) as (? & ? & _);
        [destruct Ht as (? & ? & ? & ?); cbn; lia..|].
      rewrite spaced_clock. by apply date_text_ends. }
  exists (date_text y m d ++ " "%char :: clock_text h mi s), w.
  assert (Hw : dt_wf w) by (apply packed_wf; [done|lia]).
  unfold DateTimeText.Parse. rewrite Hp, bind_Ok. unfold DateTime.getTicks.
  split_and!; try done.
  - unfold w. rewrite packed_ticks by done. lia.
  - rewrite getKind_raw by done. unfold w. by rewrite packed_raw.
Qed.

(** ** A lossless custom format *)

Definition lossless_format : text := str "yyyy-MM-dd HH:mm:ss.fffffff".

Lemma firstn_pad n w : 0 <= n -> (0 < w)%nat -> n < 10 ^ Z.of_nat w ->
  firstn w (DateTimeText.pad n w) = DateTimeText.pad n w.
Proof. intros H1 H2 H3. destruct (pad_run w n H1 H2 H3) as (_ & _ & Hl & _). apply take_ge. lia. Qed.

Lemma format_lossless v y m d h mi s info : dt_wf v ->
  DateTimeText.components_of v = Ok (DateTimeText.mkComponents y m d h mi s
    (DateTime.ticks v mod 10000000) ((day_number y m d + 1) mod 7) (DateTime.getKind v)) ->
  DateTimeText.formatCustom v lossless_format info None =
  Ok (date_text y m d ++ " "%char :: clock_text h mi s ++
      "."%char :: DateTimeText.pad (DateTime.ticks v mod 10000000) 7).
Proof.
  intros Hv Hc. unfold DateTimeText.formatCustom. rewrite Hc, bind_Ok.
  pose proof (Z.mod_pos_bound (DateTime.ticks v) 10000000 ltac:(lia)).
  set (f := DateTime.ticks v mod 10000000) in *.
  unfold lossless_format. cbn -[DateTimeText.pad firstn].
  rewrite firstn_pad by (cbn; lia).
  unfold date_text, clock_text. f_equal. rewrite <- !app_assoc. cbn [app].
  by rewrite <- !app_assoc.
Qed.

Lemma ticks_seconds_split v : dt_wf v ->
  0 <= DateTime.ticks v mod 10000000 < 10000000 /\
  DateTime.ticks v - DateTime.ticks v mod 10000000 + DateTime.ticks v mod 10000000 =
  DateTime.ticks v.
Proof. intros. pose proof (Z.mod_pos_bound (DateTime.ticks v) 10000000 ltac:(lia)). lia. Qed.

(** The custom format [yyyy-MM-dd HH:mm:ss.fffffff] is lossless for ticks:
    for every value and every provider, formatting succeeds and TryParse reads
    the text back as exactly the same tick count. *)
Theorem DateTime_custom_format_roundtrip v provider (Hv : dt_wf v) :
  exists s w, DateTimeText.ToStringFormat v lossless_format provider = Ok s /\
    DateTimeText.TryParse s = Ok (Some w) /\ DateTime.getTicks w = DateTime.getTicks v /\
    DateTime.getKind w = DateTime.Unspecified.
Proof.
  destruct (ToString_text v Hv) as (y & m & d & h & mi & s & Hd & Ht & _ & Hsum & Hc).
  destruct (ticks_seconds_split v Hv) as [Hf Hsplit].
  eexists. exists (packed (DateTime.ticks v) 0). split.
  - unfold DateTimeText.ToStringFormat. cbn [lossless_format str String.list_ascii_of_string].
    rewrite bind_Ok. apply (format_lossless v y m d h mi s _ Hv Hc).
  - split; [|split].
    + unfold DateTimeText.TryParse.
      set (f := DateTime.ticks v mod 10000000) in *.
      replace (Scanner.trimDateTimeText _) with (date_text y m d ++ " "%char ::
        clock_text h mi s ++ "."%char :: DateTimeText.pad f 7).
      * rewrite takeParts_fraction by done. cbn [DateTimeText.skip_zone Scanner.take Scanner.atEnd].
        rewrite build_parsed_ok by done. do 3 f_equal. lia.
      * symmetry. destruct (pad_run 7 f) as (? & ? & _); [cbn; lia..|].
        replace (" "%char :: clock_text h mi s ++ "."%char :: DateTimeText.pad f 7) with
          ((" "%char :: clock_text h mi s ++ ["."%char]) ++ DateTimeText.pad f 7)
          by (cbn [app]; by rewrite <- app_assoc).
        by apply date_text_ends.
    + unfold DateTime.getTicks. apply packed_ticks. by apply dt_wf_ticks.
    + rewrite getKind_raw by (apply packed_wf; [by apply dt_wf_ticks | lia]).
      rewrite packed_raw by (by apply dt_wf_ticks). done.
Qed.

(** ** What TryParse accepts *)

Lemma fraction_read_bounds f t : fraction_read f t -> 0 <= f < 10000000.
Proof.
  intros [|n ds (Hds & Hlen & <-)]; [lia|]. pose proof (dec_value_range ds Hds).
  assert (10 ^ Z.of_nat (length ds) * 10 ^ Z.of_nat (7 - length ds) = 10000000).
  { rewrite <- Z.pow_add_r by lia. by replace (Z.of_nat _ + _) with 7 by lia. }
  pose proof (Z.pow_pos_nonneg 10 (Z.of_nat (7 - length ds)) ltac:(lia) ltac:(lia)). nia.
Qed.

Lemma number_bounds lo hi n t : number lo hi n t -> 0 <= n < 10 ^ Z.of_nat hi.
Proof.
  intros (Hd & Hl & <-). pose proof (dec_value_range t Hd).
  assert (10 ^ Z.of_nat (length t) <= 10 ^ Z.of_nat hi) by (apply Z.pow_le_mono_r; lia). lia.
Qed.

Lemma time_read_bounds h mi sec f t : time_read h mi sec f t ->
  0 <= h < 100 /\ 0 <= mi < 100 /\ 0 <= sec < 100 /\ 0 <= f < 10000000.
Proof.
  intros [|c h' mi' sec' f' tc tf _ [? ? ? ? ? ? Hh Hm Hs] Hf%fraction_read_bounds]; [lia|].
  apply number_bounds in Hh, Hm, Hs. cbn in *. lia.
Qed.

Lemma takeFraction_bounds t f r : Scanner.takeFraction t = Some (f, r) -> 0 <= f < 10000000.
Proof. by intros (tf & _ & Hf%fraction_read_bounds)%takeFraction_read. Qed.

Lemma takeParts_bounds t p r : Scanner.takeDateTimeParts t = Some (p, r) ->
  0 <= Scanner.hour p < 100 /\ 0 <= Scanner.minute p < 100 /\ 0 <= Scanner.second p < 100 /\
  0 <= Scanner.fractionTicks p < 10000000.
Proof. by intros (td & tt & _ & _ & Ht%time_read_bounds)%takeDateTimeParts_read. Qed.

(** ** The texts TryParse accepts *)

(** What may stand for a zone: nothing, Z, or an offset. *)
Definition zone_read (t : text) : Prop := t = [] \/ t = ["Z"%char] \/ t = ["z"%char] \/ exists k, offset_read k t.

(** [s] writes a date, a time and a fraction of a second, between white space. *)
Definition writes (s : text) (y m d h mi sec f : Z) : Prop :=
  exists a td tt tz b, s = a ++ (td ++ tt ++ tz) ++ b /\ white a /\ white b /\
    date_read y m d td /\ time_read h mi sec f tt /\ zone_read tz.

Lemma offset_read_first k t : offset_read k t -> exists c t', t = c :: t' /\ (c = "-"%char \/ c = "+"%char).
Proof. intros []; eauto. Qed.

Lemma zone_read_first t : zone_read t -> zone_first t.
Proof.
  intros [->|[->|[->|(k & (c & t' & -> & Hc)%offset_read_first)]]]; cbn; try tauto.
  destruct Hc as [->| ->]; tauto.
Qed.

Lemma zone_read_skips t : zone_read t -> DateTimeText.skip_zone t = Some [].
Proof.
  intros [->|[->|[->|(k & Hk)]]]; try done. pose proof (offset_read_takes k t Hk) as E.
  destruct (offset_read_first k t Hk) as (c & t' & -> & Hc). unfold DateTimeText.skip_zone.
  rewrite E. by destruct Hc as [->| ->].
Qed.

Lemma skip_zone_reads t t' : DateTimeText.skip_zone t = Some t' -> Scanner.atEnd t' = true -> zone_read t.
Proof.
  unfold DateTimeText.skip_zone. intros E He. destruct t' as [|]; [|done]. clear He.
  destruct (Scanner.take "Z" t) eqn:E1; [injection E as ->; apply take_length in E1 as ->; right; by left|].
  destruct (Scanner.take "z" t) eqn:E2; [injection E as ->; apply take_length in E2 as ->; right; right; by left|].
  destruct (Scanner.atEnd t) eqn:E3; [by left; destruct t|].
  destruct (Scanner.takeUtcOffsetMinutes t) as [[k r]|] eqn:E4; [|done]. injection E as ->.
  apply takeUtcOffsetMinutes_read in E4 as (t' & -> & Hk). rewrite app_nil_r. do 3 right. by exists k.
Qed.

(** Digits and zone letters end a text; white space does not. *)
Definition ends_dark (t : text) : Prop :=
  exists t' c, t = t' ++ [c] /\ Scanner.isDateTimeTextWhitespace c = false.

Lemma ends_dark_app t u : ends_dark u -> ends_dark (t ++ u).
Proof. intros (t' & c & -> & Hc). exists (t ++ t'), c. by rewrite app_assoc. Qed.

Lemma ends_dark_cons c u : ends_dark u -> ends_dark (c :: u).
Proof. apply (ends_dark_app [c]). Qed.

Lemma number_ends lo hi n t : number lo hi n t -> (1 <= lo)%nat -> ends_dark t.
Proof.
  intros (Hd & Hl & _) Hlo. destruct t as [|c t _] using rev_ind; [cbn in Hl; lia|].
  apply Forall_app in Hd as [_ Hd]. apply Forall_inv in Hd. exists t, c. split; [done|]. by apply digit_not_ws.
Qed.

Create HintDb dark.
#[local] Hint Resolve ends_dark_app ends_dark_cons number_ends : dark.
#[local] Hint Extern 1 (_ <= _)%nat => lia : dark.

Lemma zone_read_ends t : zone_read t -> t = [] \/ ends_dark t.
Proof.
  intros [->|[->|[->|(k & [])]]]; [by left| | |right; eauto with dark..].
  - right. by exists [], "Z"%char.
  - right. by exists [], "z"%char.
Qed.

Lemma body_ends y m d h mi sec f td tt tz : date_read y m d td -> time_read h mi sec f tt -> zone_read tz ->
  ends_dark (td ++ tt ++ tz).
Proof.
  intros Hd Ht Hz. assert (Hdd : ends_dark td) by (destruct Hd; eauto 6 with dark).
  destruct (zone_read_ends tz Hz) as [->|He]; [|auto with dark]. rewrite app_nil_r.
  destruct Ht as [|c h' mi' sec' f' tc tf _ [] Hf]; [by rewrite app_nil_r|]. apply ends_dark_app, ends_dark_cons.
  destruct Hf; [rewrite app_nil_r|]; eauto 7 with dark.
Qed.

Lemma trim_writes y m d h mi sec f a td tt tz b : date_read y m d td -> time_read h mi sec f tt -> zone_read tz ->
  white a -> white b -> Scanner.trimDateTimeText (a ++ (td ++ tt ++ tz) ++ b) = td ++ tt ++ tz.
Proof.
  intros Hd Ht Hz Ha Hb. destruct (body_ends _ _ _ _ _ _ _ _ _ _ Hd Ht Hz) as (t' & c & E & Hc).
  assert (Hf : exists c t', td = c :: t' /\ is_digit c = true).
  { destruct Hd as [? ? ? ty ? ? (Hdg & Hl & _) _ _]. destruct ty as [|c0 ty]; [cbn in Hl; lia|].
    apply Forall_inv in Hdg. cbn. eauto. }
  destruct Hf as (c0 & t0 & Etd & Hc0). apply trim_around; try done.
  - rewrite Etd. by apply digit_not_ws.
  - by rewrite E, reverse_app.
  - by rewrite Etd.
Qed.

(** The value of a valid date, time and fraction. *)
Lemma packed_instant y m d h mi sec f : valid_date y m d -> valid_time h mi sec 0 -> 0 <= f < 10000000 ->
  let v := packed (date_ticks y m d + time_ticks h mi sec 0 + f) 0 in
  dt_wf v /\ DateTime.getKind v = DateTime.Unspecified /\
  DateTime.getTicks v = date_ticks y m d + time_ticks h mi sec 0 + f.
Proof.
  intros Hd Ht Hf v.
  assert (Hin : in_ticks (date_ticks y m d + time_ticks h mi sec 0 + f)).
  { pose proof (date_ticks_range _ _ _ Hd).
    assert (0 <= time_ticks h mi sec 0 <= 863990000000)
      by (destruct Ht as (? & ? & ? & _); unfold time_ticks; lia).
    unfold in_ticks, DateTime.MaxTicks. lia. }
  assert (Hw : dt_wf v) by (apply packed_wf; [done|lia]).
  split; [done|]. split; [|by apply packed_ticks]. rewrite getKind_raw by done. subst v. by rewrite packed_raw.
Qed.

(** Building a value from numbers that are no date or no time. *)
Lemma build_parsed_invalid y m d h mi sec f t : in_s 32 h -> in_s 32 mi -> in_s 32 sec ->
  ~ (valid_date y m d /\ valid_time h mi sec 0) ->
  DateTimeText.build_parsed (Scanner.mkParts y m d h mi sec f t) = Ok None.
Proof.
  intros Hh Hm Hs Hinv. unfold DateTimeText.build_parsed. cbn [Scanner.year Scanner.month Scanner.day
    Scanner.hour Scanner.minute Scanner.second Scanner.fractionTicks].
  destruct (dateToTicks_invalid y m d h mi sec 0) as (param & msg & ->); try done; unfold in_s; cbn; lia.
Qed.

(** TryParse on a text of the grammar. *)
Lemma TryParse_writes s y m d h mi sec f : writes s y m d h mi sec f -> exists b,
  DateTimeText.TryParse s = DateTimeText.build_parsed (Scanner.mkParts y m d h mi sec f b).
Proof.
  intros (a & td & tt & tz & b & -> & Ha & Hb & Hd & Ht & Hz). unfold DateTimeText.TryParse.
  rewrite (trim_writes _ _ _ _ _ _ _ _ _ _ _ _ Hd Ht Hz Ha Hb).
  destruct (parts_read_takes _ _ _ _ _ _ _ _ _ tz Hd Ht (zone_read_first tz Hz)) as (x & ->).
  exists x. by rewrite zone_read_skips.
Qed.

(** Any other text is refused. *)
Lemma TryParse_refuses s : DateTimeText.TryParse s = Ok None \/
  exists y m d h mi sec f, writes s y m d h mi sec f.
Proof.
  unfold DateTimeText.TryParse. destruct (Scanner.takeDateTimeParts _) as [[p t]|] eqn:Ep; [|by left].
  destruct (DateTimeText.skip_zone t) as [t'|] eqn:Ez; [|by left].
  destruct (Scanner.atEnd t') eqn:Ee; [|by left]. right.
  apply takeDateTimeParts_read in Ep as (td & tt & Et & Hd & Ht).
  destruct (trim_split s) as (a & b & Es & Ha & Hb). rewrite Et in Es.
  do 7 eexists. exists a, td, tt, t, b. split; [exact Es|]. split; [done|]. split; [done|].
  split; [exact Hd|]. split; [exact Ht|]. by eapply skip_zone_reads.
Qed.

(** C23: TryParse reads exactly its grammar: a date yyyy-M-d, then nothing or a blank or
    T with H:m:s and up to seven digits of a fraction, then nothing, Z or an offset,
    between white space.  A text that writes a valid date and time is accepted, and
    the value is exactly that instant, of kind Unspecified whatever the zone says; any
    other text is refused, without an exception or undefined behaviour; and Parse
    throws FormatException exactly when TryParse fails. *)
Theorem DateTime_TryParse_exact s :
  (DateTimeText.TryParse s = Ok None /\
   DateTimeText.Parse s = Throw (DateTimeText.not_recognized s) /\
   forall y m d h mi sec f, writes s y m d h mi sec f -> ~ (valid_date y m d /\ valid_time h mi sec 0)) \/
  exists v, DateTimeText.TryParse s = Ok (Some v) /\ DateTimeText.Parse s = Ok v /\
    dt_wf v /\ DateTime.getKind v = DateTime.Unspecified /\
    (exists y m d h mi sec f, writes s y m d h mi sec f) /\
    forall y m d h mi sec f, writes s y m d h mi sec f ->
      valid_date y m d /\ valid_time h mi sec 0 /\ 0 <= f < 10000000 /\
      DateTime.getTicks v = date_ticks y m d + time_ticks h mi sec 0 + f.
Proof.
  assert (Hrange : forall y m d h mi sec f, writes s y m d h mi sec f ->
    in_s 32 h /\ in_s 32 mi /\ in_s 32 sec /\ 0 <= f < 10000000).
  { intros y m d h mi sec f (a & td & tt & tz & b & _ & _ & _ & _ & Ht%time_read_bounds & _).
    unfold in_s. cbn. lia. }
  assert (Hdec : forall y m d h mi sec, Decision (valid_date y m d /\ valid_time h mi sec 0))
    by (intros; unfold valid_date, valid_time; apply _).
  assert (Hrefused : forall y m d h mi sec f, DateTimeText.TryParse s = Ok None -> writes s y m d h mi sec f ->
    ~ (valid_date y m d /\ valid_time h mi sec 0)).
  { intros y m d h mi sec f E Hw [Hd Ht]. destruct (Hrange _ _ _ _ _ _ _ Hw) as (_ & _ & _ & Hf).
    destruct (TryParse_writes _ _ _ _ _ _ _ _ Hw) as (b & Eb). rewrite build_parsed_ok, E in Eb by done. done. }
  unfold DateTimeText.Parse. destruct (TryParse_refuses s) as [E|(y & m & d & h & mi & sec & f & Hw)];
    [left; rewrite E; split; [done|]; split; [done|]; eauto|].
  destruct (TryParse_writes _ _ _ _ _ _ _ _ Hw) as (b & Eb).
  destruct (Hrange _ _ _ _ _ _ _ Hw) as (Hh & Hm & Hs & Hf).
  destruct (decide (valid_date y m d /\ valid_time h mi sec 0)) as [[Hd Ht]|Hinv].
  2:{ rewrite build_parsed_invalid in Eb by done. left. rewrite Eb. split; [done|]. split; [done|]. eauto. }
  right. rewrite build_parsed_ok in Eb by done.
  destruct (packed_instant y m d h mi sec f Hd Ht Hf) as (Hwf & Hk & Htk).
  eexists. rewrite Eb. split; [done|]. split; [done|]. split; [done|]. split; [done|]. split; [by do 7 eexists|].
  intros y' m' d' h' mi' sec' f' Hw'. destruct (TryParse_writes _ _ _ _ _ _ _ _ Hw') as (b' & Eb').
  destruct (Hrange _ _ _ _ _ _ _ Hw') as (Hh' & Hm' & Hs' & Hf').
  destruct (decide (valid_date y' m' d' /\ valid_time h' mi' sec' 0)) as [[Hd' Ht']|Hinv'].
  - rewrite build_parsed_ok in Eb' by done.
    destruct (packed_instant y' m' d' h' mi' sec' f' Hd' Ht' Hf') as (_ & _ & Htk').
    split; [done|]. split; [done|]. split; [done|]. rewrite <- Htk'. congruence.
  - by rewrite build_parsed_invalid, Eb in Eb' by done.
Qed.

(** ** The theorems at concrete inputs *)

Lemma number_of_text (lo hi : nat) n t : forallb is_digit t && Nat.leb lo (length t) && Nat.leb (length t) hi = true ->
  dec_value 0 t = n -> number lo hi n t.
Proof.
  intros [[H ?%Nat.leb_le]%andb_true_iff ?%Nat.leb_le]%andb_true_iff E. split; [|done].
  apply List.Forall_forall. by apply forallb_forall.
Qed.

Lemma DateTime_TryParse_exact_witness :
  let s := str " 2024-3-01T10:20:30.05+02:00" in
  writes s 2024 3 1 10 20 30 500000 /\ exists v, DateTimeText.TryParse s = Ok (Some v) /\
    DateTime.getTicks v = date_ticks 2024 3 1 + time_ticks 10 20 30 0 + 500000.
Proof.
  intros s. assert (Hw : writes s 2024 3 1 10 20 30 500000).
  { exists [" "%char], (str "2024-3-01"), (str "T10:20:30.05"), (str "+02:00"), [].
    split; [reflexivity|]. split; [by repeat constructor|]. split; [constructor|]. split; [|split].
    - apply (reads_date 2024 3 1 (str "2024") (str "3") (str "01")); by apply number_of_text.
    - apply (reads_time "T" 10 20 30 500000 (str "10:20:30") (str ".05")); [by right|..].
      + apply (reads_clock 10 20 30 (str "10") (str "20") (str "30")); by apply number_of_text.
      + apply (reads_fraction 5 (str "05")). by apply number_of_text.
    - right. right. right. eexists. apply (reads_hours_minutes "+" 2 0 (str "02") (str "00"));
        [by apply number_of_text..|lia|by right]. }
  split; [exact Hw|]. destruct (DateTime_TryParse_exact s) as [(E & _)|(v & E & _ & _ & _ & _ & Hv)]; [vm_compute in E; discriminate E|].
  exists v. split; [exact E|]. apply (Hv _ _ _ _ _ _ _ Hw).
Defined.

Lemma DateTime_text_roundtrip_witness :
  exists s w, DateTimeText.ToString sample = Ok s /\ DateTimeText.Parse s = Ok w /\
    DateTime.getTicks w = 638448183590000000.
Proof.
  destruct (DateTime_text_roundtrip sample sample_wf) as (s & w & Hs & _ & Hp & _ & Ht & _).
  exists s, w. split; [exact Hs|]. split; [exact Hp|]. rewrite Ht. vm_compute. reflexivity.
Defined.

Lemma DateTime_custom_format_roundtrip_witness :
  exists s w, DateTimeText.ToStringFormat sample lossless_format None = Ok s /\
    DateTimeText.TryParse s = Ok (Some w) /\ DateTime.getTicks w = DateTime.getTicks sample.
Proof.
  destruct (DateTime_custom_format_roundtrip sample None sample_wf) as (s & w & Hs & Hp & Ht & _).
  exists s, w. auto.
Defined.
