(* ===== verification/DateTimeExact.v ===== *)
(** * System::DateTime, exact parsing

    [core/src/System/DateTime.cpp]: TryParseExact and ParseExact, with the
    12-hour rule, the weekday agreement, the style rules and the zone
    adjustment, over the scanner of [ExactParser]. *)

From S2P Require Export DateTimeText.

Module DateTimeExact.
Import DateTime.

(** The 12-hour rule: [None] is [return false]. *)
Definition clock_hour (f : Exact.ExactDateTimeFields) : option Z :=
  let hour := if Exact.hour f <? 0 then 0 else Exact.hour f in
  if Exact.twelveHour f then
    if (hour <? 1) || (hour >? 12) then None
    else Some (if Exact.amPm f =? 1 then (if hour =? 12 then 12 else hour + 12)
               else if Exact.amPm f =? 0 then (if hour =? 12 then 0 else hour)
               else hour)
  else Some hour.

(** The checks on the bound fields, and the candidate they make: year, month,
    day, hour, minute, second. *)
Definition bound_fields (f : Exact.ExactDateTimeFields) : res (option (Z * Z * Z * Z * Z * Z)) :=
  if (Exact.year f <? 0) || (Exact.month f <? 0) || (Exact.day f <? 0) then Ok None
  else if (Exact.year f <? 1) || (Exact.year f >? 9999) then Ok None
  else if (Exact.month f <? 1) || (Exact.month f >? 12) then Ok None
  else
    dim <- DaysInMonth (Exact.year f) (Exact.month f) ;;
    if (Exact.day f <? 1) || (Exact.day f >? dim) then Ok None
    else
      let minute := if Exact.minute f <? 0 then 0 else Exact.minute f in
      let second := if Exact.second f <? 0 then 0 else Exact.second f in
      match clock_hour f with
      | None => Ok None
      | Some hour =>
          if (hour <? 0) || (hour >? 23) || (minute <? 0) || (minute >? 59) ||
             (second <? 0) || (second >? 59)
          then Ok None
          else Ok (Some (Exact.year f, Exact.month f, Exact.day f, hour, minute, second))
      end.

(** The candidate before the zone rules; [None] is [return false]. *)
Definition candidate_of (f : Exact.ExactDateTimeFields) : res (option DateTime) :=
  b <- bound_fields f ;;
  match b with
  | None => Ok None
  | Some (y, mo, d, h, mi, s) =>
      match of_ymdhms y mo d h mi s with
      | UB => UB
      | Throw _ => Ok None
      | Ok candidate =>
          candidate <- (if Exact.fractionTicks f =? 0 then Ok candidate
                        else AddTicks candidate (Exact.fractionTicks f)) ;;
          wd <- getDayOfWeek candidate ;;
          if (0 <=? Exact.weekday f) && negb (wd =? Exact.weekday f) then Ok None
          else Ok (Some candidate)
      end
  end.

(** requireZone(why) *)
Definition requireZone (zone : option ILocalTimeZone) (why : string) : res ILocalTimeZone :=
  match zone with
  | Some z => Ok z
  | None => Throw (ArgumentNullException "zone"
      (String.append "A local time zone is required because " (String.append why
        ". Pass System::TimeZone::CurrentTimeZone(), or use a style that does not convert.")))
  end.

(** The zone adjustments; [None] is [return false]. *)
Definition adjust_zone (f : Exact.ExactDateTimeFields) (styles : Z) (zone : option ILocalTimeZone)
    (candidate : DateTime) : res (option DateTime) :=
  if Exact.hasOffset f &&
     ((Exact.offsetMinutes f <? -14 * 60) || (Exact.offsetMinutes f >? 14 * 60))
  then Ok None
  else if negb (Exact.hasOffset f) then
    if Exact.has styles Exact.AssumeLocal then
      local <- SpecifyKind candidate (kind_value Local) ;;
      if Exact.has styles Exact.AdjustToUniversal then
        z <- requireZone zone "AssumeLocal with AdjustToUniversal converts a local value to UTC" ;;
        r <- @ToUniversalTime z local ;; Ok (Some r)
      else Ok (Some local)
    else if Exact.has styles Exact.AssumeUniversal then
      utc <- SpecifyKind candidate (kind_value Utc) ;;
      if Exact.has styles Exact.AdjustToUniversal then Ok (Some utc)
      else
        z <- requireZone zone "AssumeUniversal without AdjustToUniversal converts a UTC value to local" ;;
        r <- @ToLocalTime z utc ;; Ok (Some r)
    else Ok (Some candidate)
  else if Exact.has styles Exact.RoundtripKind && Exact.zoneIsUtc f then
    utc <- SpecifyKind candidate (kind_value Utc) ;; Ok (Some utc)
  else
    offsetTicks <- smul 64 (Exact.offsetMinutes f) TimeSpan.TicksPerMinute ;;
    let utcTicks := usub 64 (u64 (getTicks candidate)) (u64 offsetTicks) in
    if utcTicks >? u64 MaxTicks then Ok None
    else
      asUtc <- of_ticks_kind (i64 utcTicks) (kind_value Utc) ;;
      if Exact.has styles Exact.AdjustToUniversal then Ok (Some asUtc)
      else
        z <- requireZone zone "a zone-qualified input is converted to local time unless AdjustToUniversal or RoundtripKind is used" ;;
        r <- @ToLocalTime z asUtc ;; Ok (Some r).

(** TryParseExact(input, format, provider, styles, result, zone); the out
    parameter is MinValue on failure, which is the [None] result. *)
Definition TryParseExact (input format : text) (provider : option IFormatProvider) (styles : Z)
    (zone : option ILocalTimeZone) : res (option DateTime) :=
  _ <- Exact.ValidateDateTimeStyles styles "style" ;;
  let options := Exact.with_zone_token (Exact.ResolveExactParseOptions provider styles) in
  match (match Exact.ExpandStandardDateTimeFormat format with
         | [] => if (length format =? 1)%nat then None else Some format
         | pattern => Some pattern
         end) with
  | None => Ok None
  | Some pattern =>
      match Exact.MatchExactFormat input pattern Exact.DateAndTime options with
      | None => Ok None
      | Some fields =>
          c <- candidate_of fields ;;
          match c with
          | None => Ok None
          | Some candidate => adjust_zone fields styles zone candidate
          end
      end
  end.

Definition ParseExact (input format : text) (provider : option IFormatProvider) (styles : Z)
    (zone : option ILocalTimeZone) : res DateTime :=
  r <- TryParseExact input format provider styles zone ;;
  match r with Some d => Ok d | None => Throw (DateTimeText.not_recognized input) end.

(** The overloads that take a list of formats. *)
Definition TryParseExactMany (input : text) (formats : list text)
    (provider : option IFormatProvider) (styles : Z) (zone : option ILocalTimeZone)
    : res (option DateTime) :=
  _ <- Exact.ValidateDateTimeStyles styles "styles" ;;
  outcome <- Exact.MatchFirstOfManyFormats input formats
    (fun format => TryParseExact input format provider styles zone) ;;
  match outcome with Exact.Matched d => Ok (Some d) | _ => Ok None end.

Definition ParseExactMany (input : text) (formats : list text)
    (provider : option IFormatProvider) (styles : Z) (zone : option ILocalTimeZone)
    : res DateTime :=
  _ <- Exact.ValidateDateTimeStyles styles "styles" ;;
  outcome <- Exact.MatchFirstOfManyFormats input formats
    (fun format => TryParseExact input format provider styles zone) ;;
  match outcome with
  | Exact.Matched d => Ok d
  | Exact.NoFormatSpecifier => Throw (FormatException "No format specifiers were provided.")
  | Exact.NotRecognized => Throw (DateTimeText.not_recognized input)
  end.

End DateTimeExact.

(** ** Tests on concrete inputs *)

Example ParseExact_rfc1123 :
  (d <- DateTimeExact.ParseExact (str "Sat, 15 Jun 2024 10:20:30 GMT") (str "R") None 0 None ;;
   Ok (DateTime.getTicks d)) =
  (d <- DateTime.of_ymdhms 2024 6 15 10 20 30 ;; Ok (DateTime.getTicks d)).
Proof. vm_compute. reflexivity. Qed.

Example ParseExact_wrong_weekday :
  DateTimeExact.TryParseExact (str "Sun, 15 Jun 2024 10:20:30 GMT") (str "R") None 0 None = Ok None.
Proof. vm_compute. reflexivity. Qed.

Example ParseExact_needs_zone :
  exists msg, DateTimeExact.TryParseExact (str "2024-06-15T10:20:30.0000000+02:00") (str "o") None 0 None =
  Throw (ArgumentNullException "zone" msg).
Proof. eexists. vm_compute. reflexivity. Qed.

(** ** Reading printed fields *)

Lemma takeNumber_pad n w rest : 0 <= n -> (1 < w)%nat -> n < 10 ^ Z.of_nat w ->
  Exact.takeNumber w (DateTimeText.pad n w ++ rest) = Some (n, rest).
Proof.
  intros Hn Hw Hlt. destruct (pad_run w n Hn ltac:(lia) Hlt) as (Hd & _ & Hl & Hv).
  unfold Exact.takeNumber. rewrite (proj2 (Nat.eqb_neq w 1)) by lia.
  rewrite digits_loop_run by (done || lia). rewrite Hv, Hl. cbn [Nat.add].
  by rewrite Nat.ltb_irrefl.
Qed.

Lemma fixed_digits_run acc ds rest : all_digits ds ->
  Exact.fixed_digits (length ds) acc (ds ++ rest) = Some (dec_value acc ds, rest).
Proof.
  intros Hds. revert acc. induction Hds as [|c ds Hc Hds IH]; intros acc; [done|].
  cbn [length app Exact.fixed_digits dec_value]. by rewrite Hc.
Qed.

Lemma takeFixedDigits_pad n w rest : 0 <= n -> (0 < w)%nat -> n < 10 ^ Z.of_nat w ->
  Exact.takeFixedDigits w (DateTimeText.pad n w ++ rest) = Some (n, rest).
Proof.
  intros Hn Hw Hlt. destruct (pad_run w n Hn Hw Hlt) as (Hd & _ & Hl & Hv).
  unfold Exact.takeFixedDigits. rewrite <- Hl at 1. by rewrite fixed_digits_run, Hv.
Qed.

(** ** The round-trip format *)

Definition zone_mark (v : DateTime.DateTime) : text :=
  match DateTime.getKind v with DateTime.Utc => ["Z"%char] | _ => [] end.

(** [yyyy-MM-ddTHH:mm:ss.fffffff] and the zone mark *)
Definition roundtrip_text (y m d h mi s f : Z) (zone : text) : text :=
  date_text y m d ++ "T"%char :: clock_text h mi s ++ "."%char :: DateTimeText.pad f 7 ++ zone.

Lemma format_roundtrip v y m d h mi s info : dt_wf v ->
  DateTimeText.components_of v = Ok (DateTimeText.mkComponents y m d h mi s
    (DateTime.ticks v mod 10000000) ((day_number y m d + 1) mod 7) (DateTime.getKind v)) ->
  DateTimeText.formatCustom v RoundtripPattern info None =
  Ok (roundtrip_text y m d h mi s (DateTime.ticks v mod 10000000) (zone_mark v)).
Proof.
  intros Hv Hc. unfold DateTimeText.formatCustom. rewrite Hc, bind_Ok.
  destruct (ticks_seconds_split v Hv) as [Hf _]. unfold zone_mark.
  set (f := DateTime.ticks v mod 10000000) in *. clearbody f.
  unfold RoundtripPattern. destruct (DateTime.getKind v); cbn -[DateTimeText.pad firstn];
    rewrite firstn_pad by (cbn; lia); unfold roundtrip_text, date_text, clock_text; f_equal;
    rewrite <- ?app_assoc; cbn [app]; rewrite <- ?app_assoc; cbn [app];
    rewrite <- ?app_assoc; cbn [app]; by rewrite ?app_nil_r.
Qed.

Definition roundtrip_fields (y m d h mi s f : Z) (utc : bool) : Exact.ExactDateTimeFields :=
  Exact.mkFields y m d h mi s f (-1) (-1) false utc utc 0.

(** One step of the loop on a run that is neither a quote nor an escape. *)
Lemma match_loop_step fuel tokens options c rest n after fields cursor fields' cursor' :
  Exact.allowInnerWhite options = false ->
  Ascii.eqb c "%" || Ascii.eqb c "\" || Ascii.eqb c "'" || Ascii.eqb c "034" = false ->
  Exact.runLength c rest = (n, after) ->
  Exact.run_token tokens options c n fields cursor = Some (fields', cursor') ->
  Exact.match_loop (S fuel) tokens options (c :: rest) fields cursor =
  Exact.match_loop fuel tokens options after fields' cursor'.
Proof.
  intros Hw Hc Hrun Htok. cbn [Exact.match_loop]. rewrite Hw.
  apply orb_false_iff in Hc as [Hc ->]. apply orb_false_iff in Hc as [Hc ->].
  apply orb_false_iff in Hc as [-> ->]. cbn [orb]. by rewrite Hrun, Htok.
Qed.

(** A token that reads a number of fixed width. *)
Ltac number_step :=
  erewrite match_loop_step; [| done | reflexivity | reflexivity
    | unfold Exact.run_token, Exact.date_token, Exact.time_token;
      cbn -[Exact.takeNumber DateTimeText.pad Z.leb]; try (change (0 <=? -1) with false);
      cbn -[Exact.takeNumber DateTimeText.pad Z.leb];
      rewrite takeNumber_pad by (cbn; lia); reflexivity].

Ltac literal_step := erewrite match_loop_step; [| done | reflexivity | reflexivity | reflexivity].

(** The fields before the zone token. *)
Lemma match_upto_zone y m d h mi s f zone options : valid_date y m d ->
  valid_time h mi s 0 -> 0 <= f < 10000000 ->
  Exact.allowZoneToken options = true -> Exact.allowLeadingWhite options = false ->
  Exact.allowTrailingWhite options = false -> Exact.allowInnerWhite options = false ->
  Exact.MatchExactFormat (roundtrip_text y m d h mi s f zone)
    (str "yyyy-MM-ddTHH:mm:ss.fffffffK") Exact.DateAndTime options =
  Exact.match_loop 16 Exact.DateAndTime options ["K"%char]
    (Exact.mkFields y m d h mi s f (-1) (-1) false false false 0) zone.
Proof.
  intros Hd (Hh & Hmi & Hs & _) Hf H1 H2 H3 H4.
  pose proof (valid_date_bounds _ _ _ Hd). destruct Hd as (Hy & Hm & _).
  unfold Exact.MatchExactFormat. rewrite H2, H3. cbn [str String.list_ascii_of_string].
  destruct options as [am fm ad fd lw tw iw zt]. cbn in H1, H2, H3, H4. subst zt lw tw iw.
  unfold roundtrip_text, date_text, clock_text.
  rewrite <- ?app_assoc. cbn [app length]. rewrite <- ?app_assoc. cbn [app].
  rewrite <- ?app_assoc. cbn [app].
  number_step. literal_step. number_step. literal_step. number_step.
  literal_step. number_step. literal_step. number_step. literal_step. number_step. literal_step.
  erewrite match_loop_step; [| done | reflexivity | reflexivity
    | unfold Exact.run_token; cbn -[Exact.takeFixedDigits DateTimeText.pad];
      rewrite takeFixedDigits_pad by (cbn; lia); reflexivity].
  by replace (Exact.scale_fraction f 7) with f by (unfold Exact.scale_fraction; cbn; lia).
Qed.

Lemma match_roundtrip y m d h mi s f zone utc options : valid_date y m d ->
  valid_time h mi s 0 -> 0 <= f < 10000000 ->
  (zone = [] /\ utc = false \/ zone = ["Z"%char] /\ utc = true) ->
  Exact.allowZoneToken options = true -> Exact.allowLeadingWhite options = false ->
  Exact.allowTrailingWhite options = false -> Exact.allowInnerWhite options = false ->
  Exact.MatchExactFormat (roundtrip_text y m d h mi s f zone)
    (str "yyyy-MM-ddTHH:mm:ss.fffffffK") Exact.DateAndTime options =
  Some (roundtrip_fields y m d h mi s f utc).
Proof.
  intros Hd Ht Hf Hz H1 H2 H3 H4. rewrite match_upto_zone by done.
  destruct options as [am fm ad fd lw tw iw zt]. cbn in H1, H2, H3, H4. subst zt lw tw iw.
  by destruct Hz as [[-> ->]|[-> ->]].
Qed.

(** The candidate a fully bound set of fields makes. *)
Lemma candidate_roundtrip y m d h mi s f utc : valid_date y m d -> valid_time h mi s 0 ->
  0 <= f < 10000000 ->
  DateTimeExact.candidate_of (roundtrip_fields y m d h mi s f utc) =
  Ok (Some (packed (date_ticks y m d + time_ticks h mi s 0 + f) 0)).
Proof.
  intros Hd Ht Hf. pose proof (valid_date_bounds _ _ _ Hd).
  destruct (built_value y m d h mi s 0 Hd Ht) as (v & Hb & Hv & Hvt & Hk).
  pose proof Hd as (Hy & Hm & Hdd). pose proof Ht as (Hh & Hmi & Hs & _).
  pose proof (date_ticks_range _ _ _ Hd).
  assert (Hin : in_ticks (DateTime.ticks v + f)).
  { rewrite Hvt. unfold in_ticks, DateTime.MaxTicks, time_ticks. lia. }
  unfold DateTimeExact.candidate_of, DateTimeExact.bound_fields, DateTimeExact.clock_hour.
  cbn [roundtrip_fields Exact.year Exact.month Exact.day Exact.hour Exact.minute Exact.second
    Exact.twelveHour Exact.fractionTicks Exact.weekday Exact.amPm].
  decide_cmp. rewrite DaysInMonth_spec, bind_Ok by lia. decide_cmp.
  unfold DateTime.of_ymdhms. rewrite Hb. rewrite <- Hvt.
  set (w := packed (DateTime.ticks v + f) 0).
  assert (Hw : dt_wf w) by (apply packed_wf; [done|lia]).
  replace (if f =? 0 then Ok v else DateTime.AddTicks v f) with (@Ok DateTime.DateTime w).
  - rewrite bind_Ok. destruct (toTm_spec w Hw) as (? & ? & ? & x & _ & _ & Hx & _).
    unfold DateTime.getDayOfWeek. rewrite Hx. done.
  - assert (Hpk : packed (DateTime.ticks v) 0 = v)
      by (rewrite <- Hk; symmetry; apply packed_eta).
    unfold w. destruct (Z.eqb_spec f 0) as [->|].
    + by rewrite Z.add_0_r, Hpk.
    + rewrite AddTicks_spec by (done || (eval_pow; lia)). rewrite advance_Ok by done. by rewrite Hk.
Qed.

Lemma resolve_options provider :
  let options := Exact.with_zone_token (Exact.ResolveExactParseOptions provider Exact.RoundtripKind) in
  Exact.allowZoneToken options = true /\ Exact.allowLeadingWhite options = false /\
  Exact.allowTrailingWhite options = false /\ Exact.allowInnerWhite options = false.
Proof. done. Qed.

Lemma ToStringFormat_o v provider : DateTimeText.ToStringFormat v (str "o") provider =
  DateTimeText.formatCustom v RoundtripPattern (GetInstance provider) None.
Proof. reflexivity. Qed.

(** The kind the round-trip text carries: the marker exists for Utc alone. *)
Definition marked_kind (k : DateTime.DateTimeKind) : DateTime.DateTimeKind :=
  match k with DateTime.Utc => DateTime.Utc | _ => DateTime.Unspecified end.

Lemma SpecifyKind_Utc t raw : in_ticks t ->
  DateTime.SpecifyKind (packed t raw) (DateTime.kind_value DateTime.Utc) = Ok (packed t 1).
Proof.
  intros Ht. unfold DateTime.SpecifyKind.
  change (DateTime.throwIfInvalidKind _) with (@Ok unit tt). rewrite bind_Ok.
  rewrite packed_ticks by done. by rewrite of_ticks_kind_spec.
Qed.

(** C21: The [o] format is a round trip: for every value and all providers,
    ToString with [o] succeeds, and ParseExact with [o] and the RoundtripKind
    style reads it back with every tick and with the kind the text carries
    (Utc, or Unspecified otherwise), without needing a time zone; for a value
    that is Utc or Unspecified the result is the value itself. *)
Theorem DateTime_roundtrip_format v provider provider' zone (Hv : dt_wf v) :
  exists s w, DateTimeText.ToStringFormat v (str "o") provider = Ok s /\
    DateTimeExact.ParseExact s (str "o") provider' Exact.RoundtripKind zone = Ok w /\
    DateTimeExact.TryParseExact s (str "o") provider' Exact.RoundtripKind zone = Ok (Some w) /\
    dt_wf w /\ DateTime.getTicks w = DateTime.getTicks v /\
    DateTime.getKind w = marked_kind (DateTime.getKind v) /\
    (DateTime.getKind v <> DateTime.Local -> w = v).
Proof.
  destruct (ToString_text v Hv) as (y & m & d & h & mi & s & Hd & Ht & _ & Hsum & Hc).
  destruct (ticks_seconds_split v Hv) as [Hf Hsplit].
  pose proof (dt_wf_ticks v Hv) as Hin.
  set (f := DateTime.ticks v mod 10000000) in *.
  set (raw := DateTime.kind_value (marked_kind (DateTime.getKind v))).
  assert (Hraw : 0 <= raw <= 1) by (unfold raw; destruct (DateTime.getKind v); cbn; lia).
  set (w := packed (DateTime.ticks v) raw).
  assert (Hw : dt_wf w) by (apply packed_wf; [done|lia]).
  exists (roundtrip_text y m d h mi s f (zone_mark v)), w.
  assert (Hparse : DateTimeExact.TryParseExact (roundtrip_text y m d h mi s f (zone_mark v))
    (str "o") provider' Exact.RoundtripKind zone = Ok (Some w)).
  { unfold DateTimeExact.TryParseExact.
    change (Exact.ValidateDateTimeStyles Exact.RoundtripKind "style") with (Ok tt).
    rewrite bind_Ok. change (Exact.ExpandStandardDateTimeFormat (str "o")) with
      (str "yyyy-MM-ddTHH:mm:ss.fffffffK").
    destruct (resolve_options provider') as (H1 & H2 & H3 & H4).
    assert (Hz : exists utc, (zone_mark v = [] /\ utc = false \/
        zone_mark v = ["Z"%char] /\ utc = true) /\ raw = (if utc : bool then 1 else 0)).
    { unfold zone_mark, raw. destruct (DateTime.getKind v);
        [exists false | exists true | exists false]; split; auto. }
    destruct Hz as (utc & Hz & Hutc).
    cbn [str String.list_ascii_of_string] in *.
    rewrite (match_roundtrip y m d h mi s f _ utc) by done.
    rewrite candidate_roundtrip, bind_Ok by done.
    replace (date_ticks y m d + time_ticks h mi s 0 + f) with (DateTime.ticks v) by lia.
    unfold w. rewrite Hutc. destruct utc; [|done].
    unfold DateTimeExact.adjust_zone. cbn [roundtrip_fields Exact.hasOffset Exact.offsetMinutes
      Exact.zoneIsUtc]. cbn. change 1 with (DateTime.kind_value DateTime.Utc).
    rewrite SpecifyKind_Utc by done. done. }
  unfold DateTimeExact.ParseExact. rewrite Hparse, bind_Ok.
  split_and!; try done.
  - rewrite ToStringFormat_o. exact (format_roundtrip v y m d h mi s _ Hv Hc).
  - by apply packed_ticks.
  - rewrite getKind_raw by done. unfold w. rewrite packed_raw by done. apply kind_of_raw_value.
  - intros Hk. unfold w. rewrite (packed_eta v) at 2. f_equal. unfold raw.
    rewrite getKind_raw in * by done. pose proof (raw_kind_range v Hv) as Hr.
    unfold kind_of_raw in *. destruct (Z.eqb_spec (raw_kind v) 1) as [->|]; [done|].
    destruct (Z.eqb_spec (raw_kind v) 0) as [->|]; [done|]. done.
Qed.

(** ** What the exact parser accepts *)

(** The bounds every set of fields the scanner produces satisfies. *)
Definition fields_ok (f : Exact.ExactDateTimeFields) : Prop :=
  0 <= Exact.fractionTicks f < 10000000 /\ -899 <= Exact.offsetMinutes f <= 899.

Lemma takeNumber_nonneg n t v r : Exact.takeNumber n t = Some (v, r) -> 0 <= v.
Proof.
  unfold Exact.takeNumber. destruct (Scanner.digits_loop _ 0 0 t) as [[a k] r'] eqn:E.
  destruct (_ <? _)%nat; [done|]. intros [= <- _].
  apply digits_loop_sound in E as (ds & _ & Hds & -> & _).
  pose proof (dec_value_range ds Hds). lia.
Qed.

Lemma fixed_digits_sound n acc t v r : Exact.fixed_digits n acc t = Some (v, r) ->
  exists ds, length ds = n /\ all_digits ds /\ v = dec_value acc ds.
Proof.
  revert acc t. induction n as [|n IH]; intros acc t; cbn [Exact.fixed_digits].
  - intros [= <- _]. exists []. repeat split. constructor.
  - destruct t as [|c t]; [done|]. destruct (is_digit c) eqn:Hc; [|done].
    intros (ds & Hl & Hds & ->)%IH. exists (c :: ds). cbn. split_and!; [lia|by constructor|done].
Qed.

Lemma scale_fraction_bound ds n : all_digits ds -> (length ds <= n <= 7)%nat ->
  0 <= Exact.scale_fraction (dec_value 0 ds) (length ds) < 10000000.
Proof.
  intros Hds Hn. pose proof (dec_value_range ds Hds). unfold Exact.scale_fraction.
  assert (10 ^ Z.of_nat (length ds) * 10 ^ Z.of_nat (7 - length ds) = 10000000).
  { rewrite <- Z.pow_add_r by lia. by replace (Z.of_nat _ + _) with 7 by lia. }
  pose proof (Z.pow_pos_nonneg 10 (Z.of_nat (7 - length ds)) ltac:(lia) ltac:(lia)). nia.
Qed.

Lemma date_token_ok options allowTime c n f cur f' cur' : fields_ok f ->
  Exact.date_token options allowTime c n f cur = Exact.Bound f' cur' -> fields_ok f'.
Proof.
  unfold Exact.date_token, Exact.of_number. intros Hf H.
  repeat case_match; simplify_eq; exact Hf.
Qed.

Lemma time_token_ok options allowDate c n f cur f' cur' : fields_ok f ->
  Exact.time_token options allowDate c n f cur = Exact.Bound f' cur' -> fields_ok f'.
Proof.
  intros [Hf Ho]. unfold Exact.time_token.
  destruct (is_one_of c "Hh"); [unfold Exact.of_number; repeat case_match; intros; simplify_eq; done|].
  destruct (Ascii.eqb c "m"); [unfold Exact.of_number; repeat case_match; intros; simplify_eq; done|].
  destruct (Ascii.eqb c "s"); [unfold Exact.of_number; repeat case_match; intros; simplify_eq; done|].
  destruct (is_one_of c "fF").
  - destruct (Nat.ltb_spec 7 n); cbn [orb]; [done|].
    destruct (negb _); [done|]. destruct (Ascii.eqb c "f").
    + unfold Exact.of_number, Exact.takeFixedDigits.
      destruct (Exact.fixed_digits n 0 cur) as [[v r]|] eqn:E; [|done]. intros [= <- _].
      apply fixed_digits_sound in E as (ds & Hl & Hds & ->). rewrite <- Hl.
      split; [|done]. apply (scale_fraction_bound ds n); [done|lia].
    + unfold Exact.takeUpToDigits.
      destruct (Scanner.digits_loop n 0 0 cur) as [[v k] r] eqn:E. intros [= <- _].
      apply digits_loop_sound in E as (ds & _ & Hds & -> & -> & Hl).
      split; [|done]. apply (scale_fraction_bound ds n); [done|lia].
  - repeat case_match; intros; simplify_eq; done.
Qed.

Lemma zone_token_ok c n f cur f' cur' : fields_ok f ->
  Exact.zone_token c n f cur = Exact.Bound f' cur' -> fields_ok f'.
Proof.
  intros [Hf Ho]. unfold Exact.zone_token.
  destruct (_ && _); [done|]. destruct (_ && _); [done|]. destruct (_ || _); [done|].
  destruct (if Ascii.eqb c "K" then Scanner.take "Z" cur else None) as [cur0|];
    [intros [= <- _]; done|].
  unfold Exact.zone_offset. destruct (_ && _).
  - destruct (Scanner.take _ cur) as [cur1|]; [|done]. unfold Exact.of_number.
    destruct (Exact.takeNumber _ cur1) as [[hours cur2]|] eqn:Eh; [|done].
    apply takeNumber_nonneg in Eh.
    destruct (if _ || _ then _ else _) as [[minutes cur3]|] eqn:Em; [|done].
    assert (0 <= minutes).
    { destruct (_ || _); [|injection Em; lia]. destruct (Scanner.take ":" cur2); [|done].
      by apply takeNumber_nonneg in Em. }
    clear Em. destruct (_ || _) eqn:Eb; [done|]. bool_to_prop. intros [= <- _].
    split; [done|]. cbn [Exact.set_zone Exact.offsetMinutes]. destruct (Ascii.eqb _ _); lia.
  - destruct (Ascii.eqb c "K"); [|done]. by intros [= <- _].
Qed.

Lemma run_token_ok tokens options c n f cur f' cur' : fields_ok f ->
  Exact.run_token tokens options c n f cur = Some (f', cur') -> fields_ok f'.
Proof.
  intros Hf. unfold Exact.run_token.
  set (literal := match Exact.take_run n c cur with Some _ => _ | None => _ end).
  assert (Hlit : literal = Some (f', cur') -> fields_ok f')
    by (unfold literal; destruct (Exact.take_run n c cur); intros; simplify_eq; done).
  set (zone := if _ && _ then _ else _).
  assert (Hzone : zone = Some (f', cur') -> fields_ok f').
  { unfold zone. destruct (_ && _); [|done].
    destruct (Exact.zone_token c n f cur) eqn:E; [done|done|]. intros [= <- <-].
    by eapply zone_token_ok. }
  clearbody literal zone. destruct tokens; cbn [Exact.time_token]; intros H.
  - destruct (Exact.date_token _ _ c n f cur) eqn:E; [done|auto|].
    simplify_eq. by eapply date_token_ok.
  - destruct (Exact.time_token _ _ c n f cur) eqn:E; [done|auto|].
    simplify_eq. by eapply time_token_ok.
  - destruct (Exact.date_token _ _ c n f cur) eqn:E; [done| |simplify_eq; by eapply date_token_ok].
    destruct (Exact.time_token _ _ c n f cur) eqn:E'; [done|auto|].
    simplify_eq. by eapply time_token_ok.
Qed.

Lemma match_loop_ok fuel tokens options format f cur f' : fields_ok f ->
  Exact.match_loop fuel tokens options format f cur = Some f' -> fields_ok f'.
Proof.
  revert format f cur. induction fuel as [|fuel IH]; intros format f cur Hf; [done|].
  cbn [Exact.match_loop]. destruct format as [|c rest].
  - destruct (Scanner.atEnd cur); [|done]. by intros [= <-].
  - destruct (Ascii.eqb c "%").
    { destruct rest as [|c' rest]; [done|]. destruct (Ascii.eqb c' "%"); [done|].
      by apply IH. }
    destruct (Ascii.eqb c "\").
    { destruct rest as [|c' rest]; [done|]. destruct (Scanner.take c' _); [|done].
      by apply IH. }
    destruct (_ || _).
    { destruct (Exact.until c rest) as [[q r]|]; [|done].
      destruct (Exact.strip_prefix q _); [|done]. by apply IH. }
    destruct (Exact.runLength c rest) as [n after].
    destruct (Exact.run_token _ _ _ _ _ _) as [[f1 cur1]|] eqn:E; [|done].
    apply IH. by eapply run_token_ok.
Qed.

(** The candidate of bounded fields: a well-formed value of kind Unspecified,
    or a refusal. *)
Lemma candidate_ok f : fields_ok f ->
  exists r, DateTimeExact.candidate_of f = Ok r /\
    forall v, r = Some v -> dt_wf v /\ raw_kind v = 0.
Proof.
  intros [Hf _]. unfold DateTimeExact.candidate_of, DateTimeExact.bound_fields.
  set (y := Exact.year f). set (m := Exact.month f). set (d := Exact.day f).
  destruct (_ || _ || _); [by exists None|].
  destruct ((y <? 1) || (y >? 9999)) eqn:Ey; [by exists None|].
  destruct ((m <? 1) || (m >? 12)) eqn:Em; [by exists None|]. bool_to_prop.
  rewrite DaysInMonth_spec, bind_Ok by lia.
  destruct ((d <? 1) || (d >? month_days y m)) eqn:Ed; [by exists None|]. bool_to_prop.
  set (mi := if Exact.minute f <? 0 then _ else _). set (s := if Exact.second f <? 0 then _ else _).
  destruct (DateTimeExact.clock_hour f) as [h|]; [|by exists None].
  destruct (_ || _) eqn:E; [by exists None|]. rewrite bind_Ok. bool_to_prop.
  assert (Hd : valid_date y m d) by (unfold valid_date; lia).
  assert (Ht : valid_time h mi s 0) by (unfold valid_time; lia).
  destruct (built_value y m d h mi s 0 Hd Ht) as (v & Hb & Hv & Hvt & Hk).
  unfold DateTime.of_ymdhms. rewrite Hb.
  assert (Hadd : exists w, (dt_wf w /\ raw_kind w = 0) /\
    (if Exact.fractionTicks f =? 0 then Ok v else DateTime.AddTicks v (Exact.fractionTicks f)) = Ok w).
  { destruct (Exact.fractionTicks f =? 0); [by exists v|].
    pose proof (date_ticks_range _ _ _ Hd).
    assert (in_ticks (DateTime.ticks v + Exact.fractionTicks f)).
    { rewrite Hvt. unfold in_ticks, DateTime.MaxTicks, time_ticks, valid_time in *. lia. }
    exists (packed (DateTime.ticks v + Exact.fractionTicks f) (raw_kind v)).
    rewrite AddTicks_spec by (done || (eval_pow; lia)). rewrite advance_Ok by done.
    split; [|done]. split; [apply packed_wf; [done|]; by apply raw_kind_range | by rewrite packed_raw]. }
  destruct Hadd as (w & [Hw Hkw] & ->). rewrite bind_Ok.
  destruct (toTm_spec w Hw) as (? & ? & ? & x & _ & _ & Hx & _).
  unfold DateTime.getDayOfWeek. rewrite Hx, !bind_Ok.
  destruct (_ && _); [by exists None|]. exists (Some w). split; [done|]. by intros ? [= <-].
Qed.

Lemma SpecifyKind_spec v k : dt_wf v ->
  DateTime.SpecifyKind v (DateTime.kind_value k) =
  Ok (packed (DateTime.ticks v) (DateTime.kind_value k)).
Proof.
  intros Hv. unfold DateTime.SpecifyKind.
  replace (DateTime.throwIfInvalidKind _) with (@Ok unit tt) by (by destruct k).
  rewrite bind_Ok. apply of_ticks_kind_spec. by apply dt_wf_ticks.
Qed.

Lemma packed_kind_ok t k : in_ticks t -> dt_wf (packed t (DateTime.kind_value k)) /\
  DateTime.getKind (packed t (DateTime.kind_value k)) = k.
Proof.
  intros Ht. assert (dt_wf (packed t (DateTime.kind_value k)))
    by (apply packed_wf; [done|]; pose proof (kind_value_range k); lia).
  split; [done|]. rewrite getKind_raw by done. by rewrite packed_raw, kind_of_raw_value.
Qed.

(** An outcome of the zone rules: an optional well-formed value, or the
    exception for a missing time zone. *)
Definition zone_outcome (zone : option DateTime.ILocalTimeZone) (r : res (option DateTime.DateTime)) :=
  (exists o, r = Ok o /\ forall w, o = Some w -> dt_wf w) \/
  (zone = None /\ exists msg, r = Throw (ArgumentNullException "zone" msg)).

Lemma zone_outcome_value zone w : dt_wf w -> zone_outcome zone (Ok (Some w)).
Proof. intros Hw. left. exists (Some w). split; [done|]. by intros ? [= <-]. Qed.

Lemma require_outcome zone why (k : DateTime.ILocalTimeZone -> res DateTime.DateTime) :
  (forall z, exists w, k z = Ok w /\ dt_wf w) ->
  zone_outcome zone (z <- DateTimeExact.requireZone zone why ;; r <- k z ;; Ok (Some r)).
Proof.
  intros Hk. destruct zone as [z|]; cbn [DateTimeExact.requireZone bind].
  - destruct (Hk z) as (w & -> & Hw). by apply zone_outcome_value.
  - right. split; [done|]. by eexists.
Qed.

Lemma adjust_zone_ok f styles zone v : fields_ok f -> dt_wf v ->
  zone_outcome zone (DateTimeExact.adjust_zone f styles zone v).
Proof.
  intros [_ Ho] Hv. pose proof (dt_wf_ticks v Hv) as Ht. unfold DateTimeExact.adjust_zone.
  destruct (_ && _); [left; by exists None|]. destruct (negb _).
  { destruct (Exact.has styles Exact.AssumeLocal).
    - rewrite SpecifyKind_spec, bind_Ok by done.
      destruct (packed_kind_ok (DateTime.ticks v) DateTime.Local Ht) as [Hw Hk].
      destruct (Exact.has styles _); [|by apply zone_outcome_value].
      apply require_outcome. intros z. eexists. split.
      + apply ToUniversalTime_spec; [done|]. by rewrite Hk.
      + apply converted_value. by rewrite Hk.
    - destruct (Exact.has styles Exact.AssumeUniversal); [|by apply zone_outcome_value].
      rewrite SpecifyKind_spec, bind_Ok by done.
      destruct (packed_kind_ok (DateTime.ticks v) DateTime.Utc Ht) as [Hw Hk].
      destruct (Exact.has styles _); [by apply zone_outcome_value|].
      apply require_outcome. intros z. eexists. split.
      + apply ToLocalTime_spec; [done|]. by rewrite Hk.
      + apply converted_value. by rewrite Hk. }
  destruct (_ && _).
  { rewrite SpecifyKind_spec, bind_Ok by done. apply zone_outcome_value.
    by apply packed_kind_ok. }
  unfold smul. change TimeSpan.TicksPerMinute with 600000000.
  rewrite schk_Ok, bind_Ok by (eval_pow; lia). rewrite usub_wraps. cbv zeta.
  unfold DateTime.getTicks. set (x := DateTime.ticks v - Exact.offsetMinutes f * 600000000).
  unfold in_ticks, DateTime.MaxTicks in Ht.
  rewrite unsigned_range by (unfold x; eval_pow; lia).
  destruct (negb _) eqn:E; [left; by exists None|].
  apply negb_false_iff in E. bool_to_prop.
  assert (Hx : in_ticks x) by done.
  replace (i64 (wrapu 64 x)) with x.
  2:{ unfold in_ticks, DateTime.MaxTicks in Hx. rewrite wrapu_id by (eval_pow; lia).
      symmetry. apply wraps_id; [lia|]. eval_pow. lia. }
  rewrite of_ticks_kind_spec, bind_Ok by done.
  destruct (packed_kind_ok x DateTime.Utc Hx) as [Hw Hk].
  destruct (Exact.has styles _); [by apply zone_outcome_value|].
  apply require_outcome. intros z. eexists. split.
  - apply ToLocalTime_spec; [done|]. by rewrite Hk.
  - apply converted_value. by rewrite Hk.
Qed.

(** C22: TryParseExact is safe on every input: for all texts, formats,
    providers, styles and zones it never reaches undefined behaviour, an
    accepted value satisfies the class invariant, and the only exceptions are
    the documented ones: an ArgumentException for an illegal style, and the
    missing-zone ArgumentNullException, which needs a null zone. *)
Theorem DateTime_TryParseExact_safe input format provider styles zone :
  (exists msg, DateTimeExact.TryParseExact input format provider styles zone =
     Throw (ArgumentException msg "style") /\
     Exact.ValidateDateTimeStyles styles "style" = Throw (ArgumentException msg "style")) \/
  (Exact.ValidateDateTimeStyles styles "style" = Ok tt /\
   zone_outcome zone (DateTimeExact.TryParseExact input format provider styles zone)).
Proof.
  unfold DateTimeExact.TryParseExact.
  destruct (Exact.ValidateDateTimeStyles styles "style") as [[]|e|] eqn:Ev.
  - right. split; [done|]. rewrite bind_Ok. cbv zeta.
    destruct (match Exact.ExpandStandardDateTimeFormat format with [] => _ | _ => _ end)
      as [pattern|]; [|left; by exists None].
    unfold Exact.MatchExactFormat. destruct pattern as [|c pattern]; [left; by exists None|].
    destruct (Exact.match_loop _ _ _ _ _ _) as [f|] eqn:Em; [|left; by exists None].
    apply match_loop_ok in Em; [|split; cbn; lia].
    destruct (candidate_ok f Em) as ([v|] & -> & Hv); rewrite bind_Ok.
    + apply adjust_zone_ok; [done|]. by apply Hv.
    + left. by exists None.
  - left. unfold Exact.ValidateDateTimeStyles in *. unfold throw_if in *.
    repeat case_match; simplify_eq; cbn in Ev; simplify_eq; by eexists.
  - exfalso. unfold Exact.ValidateDateTimeStyles, throw_if in Ev.
    repeat case_match; done.
Qed.

(** ** The theorem at a concrete input *)

Lemma DateTime_roundtrip_format_witness :
  exists s, DateTimeText.ToStringFormat sample (str "o") None = Ok s /\
    DateTimeExact.ParseExact s (str "o") None Exact.RoundtripKind None = Ok sample.
Proof.
  destruct (DateTime_roundtrip_format sample None None None sample_wf)
    as (s & w & Hs & Hp & _ & _ & _ & _ & Heq).
  exists s. split; [exact Hs|]. rewrite Hp, (Heq ltac:(vm_compute; discriminate)). reflexivity.
Defined.
