(* ===== verification/DateTimeOffsetText.v ===== *)
(** * System::DateTimeOffset, text conversion

    [core/src/System/DateTimeOffset.cpp]: ToString, the standard and custom
    formats, TryParse and Parse, TryParseExact and ParseExact with their style
    and offset rules. *)

From S2P Require Export DateTimeOffset.

Module DateTimeOffsetText.
Import DateTimeOffset.

(** ** Formatting *)

(** The static formatOffset: the [double] quotient of getTotalMinutesProperty
    is the integer one for an offset of whole minutes. *)
Definition formatOffset (off : TimeSpan.TimeSpan) : text :=
  let totalMin := i32 (Z.quot (TimeSpan.getTicks off) TimeSpan.TicksPerMinute) in
  let sign := if totalMin <? 0 then "-"%char else "+"%char in
  let totalMin := if totalMin <? 0 then - totalMin else totalMin in
  firstn 7 (sign :: DateTimeText.pad (Z.quot totalMin 60) 2 ++
            ":"%char :: DateTimeText.pad (Z.rem totalMin 60) 2).

Definition ToString (this : DateTimeOffset) : res text :=
  s <- DateTimeText.ToString (dateTime_ this) ;; Ok (s ++ formatOffset (offset_ this)).

(** ToString(format) *)
Definition ToStringFormat (this : DateTimeOffset) (format : text) : res text :=
  match format with
  | [] => ToString this
  | [c] =>
      let info := GetInstance None in
      if is_one_of c "Oo" then
        DateTimeText.formatCustom (dateTime_ this) (str "yyyy-MM-ddTHH:mm:ss.fffffffzzz") info
          (Some (offset_ this))
      else if is_one_of c "Rr" then
        utc <- getUtcDateTime this ;;
        s <- DateTimeText.ToStringFormat utc (str "ddd, dd MMM yyyy HH:mm:ss") None ;;
        Ok (s ++ str " GMT")
      else if Ascii.eqb c "u" then
        utc <- getUtcDateTime this ;;
        DateTimeText.ToStringFormat utc (str "yyyy-MM-dd HH:mm:ssZ") None
      else if Ascii.eqb c "U" then Throw (FormatException "Format specifier was invalid.")
      else DateTimeText.ToStringFormat (dateTime_ this) format None
  | _ => DateTimeText.formatCustom (dateTime_ this) format (GetInstance None) (Some (offset_ this))
  end.

(** ** TryParse and Parse *)

(** [TimeSpan::FromMinutes(double)] on a whole number of minutes within 14
    hours: the product with TicksPerMinute is below 2^53, so it is exact. *)
Definition FromMinutes (minutes : Z) : TimeSpan.TimeSpan :=
  TimeSpan.mk (minutes * TimeSpan.TicksPerMinute).

(** The designator after the date and time: a literal UTC mark, nothing (the
    process offset), or an offset within 14 hours; [None] is [return fail()]. *)
Definition take_offset `{ProcessZone} (t : text) : res (option (TimeSpan.TimeSpan * text)) :=
  match (match Scanner.take "Z" t with Some t => Some t | None => Scanner.take "z" t end) with
  | Some t => Ok (Some (TimeSpan.Zero, t))
  | None =>
      if negb (Scanner.atEnd t) then
        match Scanner.takeUtcOffsetMinutes t with
        | None => Ok None
        | Some (signedMinutes, t) =>
            if (signedMinutes <? -14 * 60) || (signedMinutes >? 14 * 60) then Ok None
            else Ok (Some (FromMinutes signedMinutes, t))
        end
      else l <- currentLocalOffsetTicks ;; Ok (Some (TimeSpan.mk l, t))
  end.

(** The out parameter is MinValue on failure, which is the [None] result. *)
Definition TryParse `{ProcessZone} (s : text) : res (option DateTimeOffset) :=
  match Scanner.takeDateTimeParts (Scanner.trimDateTimeText s) with
  | None => Ok None
  | Some (parts, t) =>
      r <- take_offset t ;;
      match r with
      | None => Ok None
      | Some (offset, t) =>
          if negb (Scanner.atEnd t) then Ok None
          else
            dt <- caught (dt <- DateTime.of_ymdhms (Scanner.year parts) (Scanner.month parts)
                                  (Scanner.day parts) (Scanner.hour parts)
                                  (Scanner.minute parts) (Scanner.second parts) ;;
                          DateTime.AddTicks dt (Scanner.fractionTicks parts)) ;;
            match dt with
            | None => Ok None
            | Some dt => caught (of_datetime_offset dt offset)
            end
      end
  end.

Definition Parse `{ProcessZone} (s : text) : res DateTimeOffset :=
  or_throw (TryParse s)
    (FormatException "String was not recognized as a valid DateTimeOffset.").

(** ** TryParseExact and ParseExact *)

Definition validateDateTimeOffsetStyles (raw : Z) : res Z :=
  let kAllowed := Z.lor Exact.AllowLeadingWhite (Z.lor Exact.AllowTrailingWhite
    (Z.lor Exact.AllowInnerWhite (Z.lor Exact.AdjustToUniversal (Z.lor Exact.AssumeLocal
    (Z.lor Exact.AssumeUniversal Exact.RoundtripKind))))) in
  let assumeBoth := Z.lor Exact.AssumeLocal Exact.AssumeUniversal in
  _ <- throw_if (negb (Z.land raw (Z.lnot kAllowed) =? 0)) (ArgumentException
         "An undefined or unsupported DateTimeStyles value is being used for DateTimeOffset." "styles") ;;
  _ <- throw_if (Z.land raw assumeBoth =? assumeBoth) (ArgumentException
         "The DateTimeStyles values AssumeLocal and AssumeUniversal cannot be used together." "styles") ;;
  Ok (Z.land raw (Z.lnot (Z.lor Exact.RoundtripKind Exact.AssumeLocal))).

(** The checks on the bound fields and the candidate are, statement for
    statement, those of DateTime::TryParseExact. *)
Definition candidate_of (f : Exact.ExactDateTimeFields) : res (option DateTime.DateTime) :=
  DateTimeExact.candidate_of f.

Definition zone_required : exn := ArgumentNullException "zone"
  "A local time zone is required because the format carries no offset token, so the offset defaults to local. Pass System::TimeZone::CurrentTimeZone(), use a format with `zzz` or `K`, or use DateTimeStyles::AssumeUniversal.".

(** The offset the input names or defaults to; [None] is [return false]. *)
Definition exact_offset (f : Exact.ExactDateTimeFields) (styles : Z)
    (zone : option DateTime.ILocalTimeZone) (candidate : DateTime.DateTime)
    : res (option TimeSpan.TimeSpan) :=
  if Exact.hasOffset f then
    if (Exact.offsetMinutes f <? -14 * 60) || (Exact.offsetMinutes f >? 14 * 60) then Ok None
    else Ok (Some (FromMinutes (Exact.offsetMinutes f)))
  else if Exact.has styles Exact.AssumeUniversal then Ok (Some (TimeSpan.mk 0))
  else match zone with
       | None => Throw zone_required
       | Some z => Ok (Some (@DateTime.GetUtcOffset z candidate))
       end.

(** The checks of offset and instant, and the result; [None] is
    [return false]. *)
Definition exact_result `{ProcessZone} (styles : Z) (candidate : DateTime.DateTime)
    (offset : TimeSpan.TimeSpan) : res (option DateTimeOffset) :=
  let offsetTicks := TimeSpan.getTicks offset in
  if negb (Z.rem offsetTicks TimeSpan.TicksPerMinute =? 0) ||
     (offsetTicks <? -14 * TimeSpan.TicksPerHour) || (offsetTicks >? 14 * TimeSpan.TicksPerHour)
  then Ok None
  else
    let utcTicksUnsigned := usub 64 (u64 (DateTime.getTicks candidate)) (u64 offsetTicks) in
    if utcTicksUnsigned >? u64 DateTime.MaxTicks then Ok None
    else
      let utcTicks := i64 utcTicksUnsigned in
      r <- (if Exact.has styles Exact.AdjustToUniversal
            then (candidate <- DateTime.of_ticks utcTicks ;;
                  of_datetime_offset candidate TimeSpan.Zero)
            else of_datetime_offset candidate offset) ;;
      Ok (Some r).

(** TryParseExact(input, format, provider, styles, result, zone) *)
Definition TryParseExact `{ProcessZone} (input format : text) (provider : option IFormatProvider)
    (styles : Z) (zone : option DateTime.ILocalTimeZone) : res (option DateTimeOffset) :=
  styles <- validateDateTimeOffsetStyles styles ;;
  let options := Exact.with_zone_token (Exact.ResolveExactParseOptions provider styles) in
  match (match Exact.ExpandStandardDateTimeFormat format with
         | [] => if (length format =? 1)%nat then None else Some format
         | pattern => Some pattern
         end) with
  | None => Ok None
  | Some pattern =>
      match Exact.MatchExactFormat input pattern Exact.DateAndTime options with
      | None => Ok None
      | Some fields =>
          c <- candidate_of fields ;;
          match c with
          | None => Ok None
          | Some candidate =>
              o <- exact_offset fields styles zone candidate ;;
              match o with
              | None => Ok None
              | Some offset => exact_result styles candidate offset
              end
          end
      end
  end.

Definition not_recognized (input : text) : exn := FormatException
  (String.append "String was not recognized as a valid DateTimeOffset: "
     (String.string_of_list_ascii input)).

Definition ParseExact `{ProcessZone} (input format : text) (provider : option IFormatProvider)
    (styles : Z) (zone : option DateTime.ILocalTimeZone) : res DateTimeOffset :=
  or_throw (TryParseExact input format provider styles zone) (not_recognized input).

(** The overloads that take a list of formats. *)
Definition TryParseExactMany `{ProcessZone} (input : text) (formats : list text)
    (provider : option IFormatProvider) (styles : Z) (zone : option DateTime.ILocalTimeZone)
    : res (option DateTimeOffset) :=
  styles <- validateDateTimeOffsetStyles styles ;;
  outcome <- Exact.MatchFirstOfManyFormats input formats
    (fun format => TryParseExact input format provider styles zone) ;;
  match outcome with Exact.Matched d => Ok (Some d) | _ => Ok None end.

Definition ParseExactMany `{ProcessZone} (input : text) (formats : list text)
    (provider : option IFormatProvider) (styles : Z) (zone : option DateTime.ILocalTimeZone)
    : res DateTimeOffset :=
  styles <- validateDateTimeOffsetStyles styles ;;
  outcome <- Exact.MatchFirstOfManyFormats input formats
    (fun format => TryParseExact input format provider styles zone) ;;
  match outcome with
  | Exact.Matched d => Ok d
  | Exact.NoFormatSpecifier => Throw (FormatException "No format specifiers were provided.")
  | Exact.NotRecognized => Throw (not_recognized input)
  end.

End DateTimeOffsetText.

(** ** Tests on concrete inputs *)

#[local] Instance utc_plus_2 : DateTimeOffset.ProcessZone := {| DateTimeOffset.offset_secs := 7200 |}.

Example DateTimeOffset_prints :
  DateTimeOffsetText.ToStringFormat sample_dto (str "o") = Ok (str "2024-02-29T15:45:59.1234567+02:00") /\
  DateTimeOffsetText.ToStringFormat sample_dto (str "R") = Ok (str "Thu, 29 Feb 2024 13:45:59 GMT") /\
  DateTimeOffsetText.ToString (at_clock 638448183590000000 (-198000000000)) =
    Ok (str "2024-02-29 15:45:59-05:30").
Proof. split; [|split]; vm_compute; reflexivity. Qed.

Example DateTimeOffset_parses :
  DateTimeOffsetText.Parse (str " 2024-2-29T15:45:59.1234567+0200 ") = Ok sample_dto /\
  DateTimeOffsetText.Parse (str "2024-02-29 15:45:59.1234567") = Ok sample_dto /\
  DateTimeOffsetText.TryParse (str "2024-02-29 15:45:59+14:01") = Ok None.
Proof. split; [|split]; vm_compute; reflexivity. Qed.

(** ** Printed offsets *)

(** [+hh:mm] of a number of minutes *)
Definition offset_digits (k : Z) : text :=
  (if k <? 0 then "-"%char else "+"%char) :: DateTimeText.pad (Z.abs k / 60) 2 ++
  ":"%char :: DateTimeText.pad (Z.abs k mod 60) 2.

(** The minutes of an admissible offset. *)
Definition minutes_of (o : Z) : Z := o / 600000000.

Lemma minutes_of_ok o : offset_ok o -> o = minutes_of o * 600000000 /\ -840 <= minutes_of o <= 840.
Proof. unfold offset_ok, minutes_of. intros. zlia. Qed.

Lemma FromMinutes_ok k : -840 <= k <= 840 ->
  DateTimeOffsetText.FromMinutes k = TimeSpan.mk (k * 600000000) /\ offset_ok (k * 600000000).
Proof. intros. split; [done|]. unfold offset_ok. zlia. Qed.

Lemma minutes_bounds k : -840 <= k <= 840 -> 0 <= Z.abs k / 60 <= 14 /\ 0 <= Z.abs k mod 60 < 60.
Proof. intros. zlia. Qed.

Lemma offset_quot o : offset_ok o -> Z.quot o 600000000 = minutes_of o.
Proof. unfold offset_ok, minutes_of. intros. zlia. Qed.

Lemma offset_parts k : -840 <= k <= 840 ->
  let a := if k <? 0 then - k else k in
  Z.quot a 60 = Z.abs k / 60 /\ Z.rem a 60 = Z.abs k mod 60.
Proof. intros. cbv zeta. destruct (Z.ltb_spec k 0); zlia. Qed.

Lemma formatOffset_spec o : offset_ok o ->
  DateTimeOffsetText.formatOffset (TimeSpan.mk o) = offset_digits (minutes_of o).
Proof.
  intros Ho. destruct (minutes_of_ok o Ho) as [_ Hk]. unfold DateTimeOffsetText.formatOffset.
  cbn [TimeSpan.getTicks TimeSpan.ticks_internal].
  change TimeSpan.TicksPerMinute with 600000000. rewrite offset_quot by done.
  set (k := minutes_of o) in *. unfold i32. rewrite wraps_id by (eval_pow; lia). cbv zeta.
  destruct (offset_parts k Hk) as [-> ->]. destruct (minutes_bounds k Hk).
  destruct (pad_run 2 (Z.abs k / 60)) as (_ & _ & Hl1 & _); [cbn; lia..|].
  destruct (pad_run 2 (Z.abs k mod 60)) as (_ & _ & Hl2 & _); [cbn; lia..|].
  apply take_ge. unfold offset_digits. cbn [length]. rewrite length_app. cbn [length]. lia.
Qed.

Lemma offset_text_spec o : offset_ok o ->
  DateTimeText.offset_text (TimeSpan.mk o) 3 = Ok (offset_digits (minutes_of o)).
Proof.
  intros Ho. destruct (minutes_of_ok o Ho) as [_ Hk]. unfold DateTimeText.offset_text.
  cbn [TimeSpan.getTicks TimeSpan.ticks_internal].
  change TimeSpan.TicksPerMinute with 600000000. rewrite offset_quot by done.
  set (k := minutes_of o) in *. cbv zeta.
  destruct (offset_parts k Hk) as [-> ->]. destruct (minutes_bounds k Hk).
  unfold i32. by rewrite !wraps_id by (eval_pow; lia).
Qed.

(** The scanner reads a printed offset back. *)
Lemma takeOffset_printed k : -840 <= k <= 840 ->
  Scanner.takeUtcOffsetMinutes (offset_digits k) = Some (k, []).
Proof.
  intros Hk. destruct (minutes_bounds k Hk) as [Hh Hm]. unfold Scanner.takeUtcOffsetMinutes, offset_digits.
  set (rest := DateTimeText.pad _ 2 ++ _).
  replace (match Scanner.take "-" ((if k <? 0 then "-"%char else "+"%char) :: rest) with
           | Some t' => Some (true, t') | None => _ end) with (Some (k <? 0, rest))
    by (by destruct (k <? 0)).
  unfold rest. rewrite (takeDigits_pad 1 4 2) by (lia || by right). cbn [Nat.leb].
  rewrite take_hit. rewrite <- (app_nil_r (DateTimeText.pad (Z.abs k mod 60) 2)).
  rewrite takeDigits_pad by (lia || by left). rewrite Z.geb_leb. decide_cmp. do 2 f_equal.
  destruct (Z.ltb_spec k 0); zlia.
Qed.

Lemma offset_digits_start k : exists c rest, offset_digits k = c :: rest /\ (c = "-" \/ c = "+")%char.
Proof. unfold offset_digits. destruct (k <? 0); eauto. Qed.

Lemma take_offset_printed `{DateTimeOffset.ProcessZone} k : -840 <= k <= 840 ->
  DateTimeOffsetText.take_offset (offset_digits k) = Ok (Some (TimeSpan.mk (k * 600000000), [])).
Proof.
  intros Hk. unfold DateTimeOffsetText.take_offset. rewrite takeOffset_printed by done.
  destruct (offset_digits_start k) as (c & rest & -> & Hc).
  replace (match Scanner.take "Z" (c :: rest) with Some t => Some t | None => _ end)
    with (@None text) by (by destruct Hc as [-> | ->]).
  cbn [Scanner.atEnd negb]. by decide_cmp.
Qed.

(** ** Reading a printed clock *)

Lemma takeParts_rest y m d h mi s c rest f t : valid_date y m d -> valid_time h mi s 0 ->
  c = " "%char \/ c = "T"%char -> Scanner.takeFraction rest = Some (f, t) ->
  Scanner.takeDateTimeParts (date_text y m d ++ c :: clock_text h mi s ++ rest) =
  Some (Scanner.mkParts y m d h mi s f true, t).
Proof.
  intros Hd Ht Hc Hf. unfold Scanner.takeDateTimeParts.
  rewrite takeDate_printed by done.
  replace (match Scanner.take " " _ with Some t' => Some t' | None => _ end)
    with (Some (clock_text h mi s ++ rest)) by (by destruct Hc as [-> | ->]).
  by rewrite takeClock_printed, Hf.
Qed.

Lemma takeFraction_rest f rest : 0 <= f < 10000000 ->
  Scanner.takeFraction ("."%char :: DateTimeText.pad f 7 ++ rest) = Some (f, rest).
Proof.
  intros Hf. unfold Scanner.takeFraction. rewrite take_hit.
  rewrite takeDigits_pad by (cbn; lia || by left).
  rewrite scale_to7_value by lia. cbn [Nat.sub]. do 2 f_equal.
  change (10 ^ Z.of_nat 0) with 1. lia.
Qed.

Lemma takeFraction_none k : Scanner.takeFraction (offset_digits k) = Some (0, offset_digits k).
Proof. destruct (offset_digits_start k) as (c & rest & -> & [-> | ->]); done. Qed.

(** The value of the scanned parts: clock and fraction. *)
Lemma parts_value y m d h mi s f : valid_date y m d -> valid_time h mi s 0 -> 0 <= f < 10000000 ->
  in_ticks (date_ticks y m d + time_ticks h mi s 0 + f) /\
  (dt <- DateTime.of_ymdhms y m d h mi s ;; DateTime.AddTicks dt f) =
  Ok (packed (date_ticks y m d + time_ticks h mi s 0 + f) 0).
Proof.
  intros Hd Ht Hf. destruct (built_value y m d h mi s 0 Hd Ht) as (v & Hb & Hv & Hvt & Hk).
  pose proof (date_ticks_range _ _ _ Hd).
  assert (Hin : in_ticks (DateTime.ticks v + f)).
  { rewrite Hvt. destruct Ht as (? & ? & ? & _). unfold in_ticks, DateTime.MaxTicks, time_ticks. lia. }
  rewrite <- Hvt. split; [done|]. unfold DateTime.of_ymdhms. rewrite Hb, bind_Ok.
  rewrite AddTicks_spec by (done || (eval_pow; lia)). by rewrite advance_Ok, Hk.
Qed.

(** What TryParse answers on text that starts and ends with a printed date
    and a printed offset. *)
Lemma TryParse_printed `{DateTimeOffset.ProcessZone} y m d h mi s c rest f k :
  valid_date y m d -> valid_time h mi s 0 -> 0 <= f < 10000000 -> -840 <= k <= 840 ->
  c = " "%char \/ c = "T"%char -> Scanner.takeFraction (rest ++ offset_digits k) = Some (f, offset_digits k) ->
  DateTimeOffsetText.TryParse (date_text y m d ++ c :: clock_text h mi s ++ rest ++ offset_digits k) =
  caught (place (date_ticks y m d + time_ticks h mi s 0 + f) (k * 600000000)).
Proof.
  intros Hd Ht Hf Hk Hc Hfrac. destruct (minutes_bounds k Hk) as [_ Hm].
  unfold DateTimeOffsetText.TryParse.
  replace (Scanner.trimDateTimeText _) with
    (date_text y m d ++ c :: clock_text h mi s ++ rest ++ offset_digits k).
  - rewrite (takeParts_rest y m d h mi s c _ f (offset_digits k)) by done.
    rewrite take_offset_printed, bind_Ok by done. cbn [Scanner.atEnd negb Scanner.year Scanner.month
      Scanner.day Scanner.hour Scanner.minute Scanner.second Scanner.fractionTicks].
    destruct (parts_value y m d h mi s f Hd Ht Hf) as [Hin ->]. cbn [caught bind].
    rewrite placed_ticks; [done|done|]. by apply FromMinutes_ok.
  - symmetry. unfold offset_digits.
    destruct (pad_run 2 (Z.abs k mod 60)) as (Hds & Hne & _); [cbn; lia..|].
    set (sign := if k <? 0 then "-"%char else "+"%char).
    replace (c :: clock_text h mi s ++ rest ++ _) with
      ((c :: clock_text h mi s ++ rest ++ sign :: DateTimeText.pad (Z.abs k / 60) 2 ++ [":"%char]) ++
       DateTimeText.pad (Z.abs k mod 60) 2).
    + by apply date_text_ends.
    + cbn [app]. rewrite <- !app_assoc. cbn [app]. rewrite <- !app_assoc. done.
Qed.

(** ** Round trips *)

(** Printing: the components of the clock and the digits of the offset. *)
Lemma dto_printed x : dto_wf x -> exists y m d h mi s, exists f k,
  valid_date y m d /\ valid_time h mi s 0 /\ 0 <= f < 10000000 /\ -840 <= k <= 840 /\
  date_ticks y m d + time_ticks h mi s 0 + f = clock_of x /\ f = clock_of x mod 10000000 /\
  offset_of x = k * 600000000 /\
  DateTimeOffsetText.ToString x =
    Ok (date_text y m d ++ " "%char :: clock_text h mi s ++ offset_digits k) /\
  DateTimeOffsetText.ToStringFormat x (str "o") =
    Ok (roundtrip_text y m d h mi s f (offset_digits k)).
Proof.
  intros Hx. pose proof Hx as (Hw & _ & Ho & _).
  destruct (ToString_text _ Hw) as (y & m & d & h & mi & s & Hd & Ht & Hs & Hsum & Hc).
  destruct (ticks_seconds_split _ Hw) as [Hf _]. fold (clock_of x) in *.
  destruct (minutes_of_ok _ Ho) as [Hoff Hk].
  exists y, m, d, h, mi, s, (clock_of x mod 10000000), (minutes_of (offset_of x)).
  split; [done|]. split; [done|]. split; [done|]. split; [done|]. split; [lia|]. split; [done|].
  split; [done|]. split.
  - unfold DateTimeOffsetText.ToString. rewrite Hs, bind_Ok, dto_offset, formatOffset_spec by done.
    by rewrite <- !app_assoc.
  - unfold DateTimeOffsetText.ToStringFormat. cbn [str String.list_ascii_of_string].
    change (is_one_of "o" "Oo") with true. cbv iota. unfold DateTimeText.formatCustom.
    rewrite Hc, bind_Ok, dto_offset. set (f := clock_of x mod 10000000) in *. clearbody f.
    pose proof (offset_text_spec _ Ho) as Hoffset.
    cbn -[DateTimeText.pad firstn DateTimeText.offset_text]. rewrite Hoffset, bind_Ok.
    rewrite firstn_pad by (cbn; lia). unfold roundtrip_text, date_text, clock_text. f_equal.
    rewrite <- ?app_assoc; cbn [app]; rewrite <- ?app_assoc; cbn [app]; by rewrite <- ?app_assoc.
Qed.

Lemma placed_back x : dto_wf x -> place (clock_of x) (offset_of x) = Ok x.
Proof.
  intros Hx. pose proof Hx as (_ & _ & _ & Hu). rewrite place_Ok by done. by rewrite <- at_clock_eta.
Qed.

(** The zone token on a printed offset. *)
Lemma match_offset options f k : -840 <= k <= 840 -> Exact.allowZoneToken options = true ->
  Exact.allowInnerWhite options = false -> Exact.hasOffset f = false -> Exact.zoneIsUtc f = false ->
  Exact.match_loop 16 Exact.DateAndTime options ["K"%char] f (offset_digits k) =
  Some (Exact.set_zone f false k).
Proof.
  intros Hk H1 H2 Hf1 Hf2. destruct (minutes_bounds k Hk) as [Hh Hm].
  rewrite (match_loop_step 15 _ _ _ _ 1%nat [] _ _ (Exact.set_zone f false k) []); [done|done|done|done|].
  unfold Exact.run_token. rewrite H1. cbn -[Exact.zone_token]. rewrite H1.
  cbn -[Exact.zone_token]. unfold Exact.zone_token. rewrite Hf1, Hf2. cbn [Ascii.eqb andb orb].
  unfold offset_digits, Exact.zone_offset.
  set (rest := DateTimeText.pad (Z.abs k / 60) 2 ++ _).
  assert (Hrest : Exact.takeNumber 2 rest =
    Some (Z.abs k / 60, ":"%char :: DateTimeText.pad (Z.abs k mod 60) 2))
    by (apply takeNumber_pad; cbn; lia).
  assert (Hlast : Exact.takeNumber 2 (DateTimeText.pad (Z.abs k mod 60) 2) =
    Some (Z.abs k mod 60, [])).
  { rewrite <- (app_nil_r (DateTimeText.pad _ 2)). apply takeNumber_pad; cbn; lia. }
  clearbody rest.
  destruct (Z.ltb_spec k 0); cbn -[Exact.takeNumber Exact.set_zone Z.mul Z.add Z.gtb];
    rewrite Hrest; cbn -[Exact.takeNumber Exact.set_zone Z.mul Z.add Z.gtb];
    rewrite Hlast; cbn -[Exact.set_zone Z.mul Z.add Z.gtb]; rewrite !Z.gtb_ltb; decide_cmp;
    rewrite Hf2; do 3 f_equal; zlia.
Qed.

(** Text in the round-trip format names the value itself. *)
Lemma exact_printed `{DateTimeOffset.ProcessZone} y m d h mi s f k provider zone :
  valid_date y m d -> valid_time h mi s 0 -> 0 <= f < 10000000 -> -840 <= k <= 840 ->
  in_ticks (date_ticks y m d + time_ticks h mi s 0 + f - k * 600000000) ->
  DateTimeOffsetText.TryParseExact (roundtrip_text y m d h mi s f (offset_digits k)) (str "o")
    provider 0 zone =
  Ok (Some (at_clock (date_ticks y m d + time_ticks h mi s 0 + f) (k * 600000000))).
Proof.
  intros Hd Ht Hf Hk Hu. destruct (parts_value y m d h mi s f Hd Ht Hf) as [Hin _].
  unfold DateTimeOffsetText.TryParseExact.
  change (DateTimeOffsetText.validateDateTimeOffsetStyles 0) with (@Ok Z 0). rewrite bind_Ok.
  change (Exact.ExpandStandardDateTimeFormat (str "o")) with (str "yyyy-MM-ddTHH:mm:ss.fffffffK").
  cbn [str String.list_ascii_of_string]. rewrite match_upto_zone by done.
  rewrite match_offset by done. unfold DateTimeOffsetText.candidate_of.
  replace (DateTimeExact.candidate_of _) with
    (DateTimeExact.candidate_of (roundtrip_fields y m d h mi s f false)) by reflexivity.
  rewrite candidate_roundtrip, bind_Ok by done.
  set (t := date_ticks y m d + time_ticks h mi s 0 + f) in *. clearbody t.
  unfold DateTimeOffsetText.exact_offset. cbn [Exact.set_zone Exact.hasOffset Exact.offsetMinutes].
  decide_cmp. destruct (FromMinutes_ok k Hk) as [-> Hok].
  unfold DateTimeOffsetText.exact_result. cbn [TimeSpan.getTicks TimeSpan.ticks_internal].
  change TimeSpan.TicksPerMinute with 600000000. change TimeSpan.TicksPerHour with 36000000000.
  rewrite Z.rem_mul by lia. decide_cmp. cbv zeta. rewrite usub_wraps.
  unfold DateTime.getTicks. rewrite packed_ticks by done.
  pose proof Hin as [Hin0 Hin1]. unfold DateTime.MaxTicks in Hin1.
  rewrite <- Z.gtb_ltb, unsigned_range by (eval_pow; lia). pose proof Hu as [Hu0 Hu1]. decide_cmp.
  change (Exact.has 0 Exact.AdjustToUniversal) with false. cbv iota.
  by rewrite placed_ticks, place_Ok, bind_Ok.
Qed.

(** Text round trips: the o format is lossless, offset included, both
    through TryParse and through ParseExact with o under every provider and
    zone; ToString() is read back truncated to whole seconds at the same
    offset. Printing never fails. *)
Theorem DateTimeOffset_text_roundtrip `{DateTimeOffset.ProcessZone} x provider zone (Hx : dto_wf x) :
  (exists s, DateTimeOffsetText.ToStringFormat x (str "o") = Ok s /\
     DateTimeOffsetText.TryParse s = Ok (Some x) /\ DateTimeOffsetText.Parse s = Ok x /\
     DateTimeOffsetText.ParseExact s (str "o") provider 0 zone = Ok x) /\
  (exists s w, DateTimeOffsetText.ToString x = Ok s /\ DateTimeOffsetText.TryParse s = Ok (Some w) /\
     dto_wf w /\ clock_of w = clock_of x - clock_of x mod 10000000 /\ offset_of w = offset_of x).
Proof.
  destruct (dto_printed x Hx) as (y & m & d & h & mi & s & f & k & Hd & Ht & Hf & Hk & Hc & Hfc & Ho & Hp & Hr).
  split.
  - exists (roundtrip_text y m d h mi s f (offset_digits k)).
    assert (Htry : DateTimeOffsetText.TryParse (roundtrip_text y m d h mi s f (offset_digits k)) =
                   Ok (Some x)).
    { unfold roundtrip_text.
      rewrite (TryParse_printed y m d h mi s _ ("."%char :: DateTimeText.pad f 7) f k)
        by (done || (by right) || by apply takeFraction_rest).
      by rewrite Hc, <- Ho, placed_back. }
    split; [done|]. split; [done|]. unfold DateTimeOffsetText.Parse. rewrite Htry. split; [done|].
    unfold DateTimeOffsetText.ParseExact.
    rewrite exact_printed; [|done..|].
    + cbn [or_throw bind]. by rewrite Hc, <- Ho, <- at_clock_eta.
    + rewrite Hc, <- Ho. apply Hx.
  - set (t := date_ticks y m d + time_ticks h mi s 0).
    assert (Ht0 : in_ticks t /\ t = clock_of x - clock_of x mod 10000000).
    { destruct (parts_value y m d h mi s 0 Hd Ht ltac:(lia)) as [Hin _].
      rewrite Z.add_0_r in Hin. fold t in Hin, Hc. split; [done|lia]. }
    destruct Ht0 as [Hin Htc]. pose proof Hx as (_ & _ & Hok & [Hu0 Hu1]).
    assert (Hu : in_ticks (t - k * 600000000)) by (unfold instant, in_ticks in *; zlia).
    exists (date_text y m d ++ " "%char :: clock_text h mi s ++ offset_digits k), (at_clock t (k * 600000000)).
    split; [done|].
    pose proof (TryParse_printed y m d h mi s " "%char [] 0 k Hd Ht ltac:(lia) Hk ltac:(by left)
      (takeFraction_none k)) as E.
    rewrite Z.add_0_r in E. fold t in E. rewrite place_Ok in E by done.
    split; [exact E|]. destruct (FromMinutes_ok k Hk) as [_ Hok'].
    destruct (at_clock_fields t (k * 600000000) Hin) as (-> & -> & _).
    split; [by apply at_clock_wf|]. by rewrite Ho.
Qed.

(** ** What the parsers accept *)

(** What [try { result = DateTimeOffset(dt, offset); }] makes of a clock of
    kind Unspecified and any offset. *)
Lemma caught_placed `{DateTimeOffset.ProcessZone} t o : in_ticks t ->
  (exists x, caught (DateTimeOffset.of_datetime_offset (packed t 0) (TimeSpan.mk o)) = Ok (Some x) /\
     dto_wf x /\ clock_of x = t /\ offset_of x = o) \/
  caught (DateTimeOffset.of_datetime_offset (packed t 0) (TimeSpan.mk o)) = Ok None.
Proof.
  intros Ht. destruct (decide (offset_ok o)) as [Ho|Ho].
  - rewrite placed_ticks by done. destruct (decide (in_ticks (t - o))) as [Hu|Hu].
    + left. rewrite place_Ok by done. exists (at_clock t o). split; [done|].
      destruct (at_clock_fields t o Ht) as (-> & -> & _). split; [by apply at_clock_wf|done].
    + right. by rewrite place_Throw.
  - right. destruct (unspecified_ticks t Ht) as (_ & Hk & _).
    destruct (validateOffset_refuses o Ho) as (e & He & _).
    unfold DateTimeOffset.of_datetime_offset. rewrite Hk, !bind_Ok.
    unfold DateTimeOffset.validateOffsetAndRange. by rewrite He.
Qed.

Lemma take_offset_total `{DateTimeOffset.ProcessZone} t l :
  DateTimeOffset.currentLocalOffsetTicks = Ok l ->
  exists r, DateTimeOffsetText.take_offset t = Ok r /\ forall o t', r = Some (o, t') ->
    (o = TimeSpan.mk l /\ t' = []) \/ offset_ok (TimeSpan.getTicks o).
Proof.
  intros Hl. unfold DateTimeOffsetText.take_offset. rewrite Hl.
  destruct (match Scanner.take "Z" t with Some _ => _ | None => _ end) as [t1|].
  { eexists. split; [done|]. intros o t' [= <- <-]. right. split; [reflexivity|cbn; lia]. }
  destruct t as [|c t]; cbn [Scanner.atEnd negb].
  { eexists. split; [done|]. intros o t' [= <- <-]. by left. }
  destruct (Scanner.takeUtcOffsetMinutes (c :: t)) as [[k t1]|]; [|by eexists].
  destruct (_ || _) eqn:E; [by eexists|]. eexists. split; [done|].
  intros o t' [= <- <-]. right. bool_to_prop. apply FromMinutes_ok. lia.
Qed.

Lemma TryParse_cases `{DateTimeOffset.ProcessZone} s l :
  DateTimeOffset.currentLocalOffsetTicks = Ok l ->
  DateTimeOffsetText.TryParse s = Ok None \/
  exists x, DateTimeOffsetText.TryParse s = Ok (Some x) /\ dto_wf x /\
    exists y m d h mi sec f, valid_date y m d /\ valid_time h mi sec 0 /\
      0 <= f < 10000000 /\ clock_of x = date_ticks y m d + time_ticks h mi sec 0 + f.
Proof.
  intros Hl. unfold DateTimeOffsetText.TryParse.
  destruct (Scanner.takeDateTimeParts _) as [[p t]|] eqn:Ep; [|by left].
  apply takeParts_bounds in Ep as (Hh & Hm & Hs & Hf).
  destruct (take_offset_total t l Hl) as (r & -> & _). rewrite bind_Ok.
  destruct r as [[[o] t']|]; [|by left].
  destruct (negb (Scanner.atEnd t')); [by left|].
  destruct p as [y m d h mi sec f tm]. cbn [Scanner.year Scanner.month Scanner.day
    Scanner.hour Scanner.minute Scanner.second Scanner.fractionTicks] in *.
  assert (Hdec : Decision (valid_date y m d /\ valid_time h mi sec 0))
    by (unfold valid_date, valid_time; apply _).
  destruct (decide (valid_date y m d /\ valid_time h mi sec 0)) as [[Hd Ht]|Hinv].
  - destruct (parts_value y m d h mi sec f Hd Ht Hf) as [Hin ->]. cbn [caught bind].
    destruct (caught_placed _ o Hin) as [(x & -> & Hx & Hc & _)| ->]; [right|by left].
    exists x. split; [done|]. split; [done|]. exists y, m, d, h, mi, sec, f. done.
  - left. unfold DateTime.of_ymdhms, DateTime.of_ymdhmsm.
    destruct (dateToTicks_invalid y m d h mi sec 0) as (param & msg & ->);
      [unfold in_s; cbn; lia..|done|]. done.
Qed.

(** TryParse is total and sound for every text and every process offset:
    it returns without exception or undefined behaviour, and an accepted text
    denotes a valid date and a time of day with at most seven fractional
    digits; the value shows exactly that clock and satisfies the class
    invariant, so its offset is whole minutes within 14 hours. Parse throws
    FormatException exactly on the refused texts. *)
Theorem DateTimeOffset_TryParse_sound `{DateTimeOffset.ProcessZone} s l
  (Hl : DateTimeOffset.currentLocalOffsetTicks = Ok l) :
  (DateTimeOffsetText.TryParse s = Ok None /\ exists msg,
   DateTimeOffsetText.Parse s = Throw (FormatException msg)) \/
  exists x, DateTimeOffsetText.TryParse s = Ok (Some x) /\ DateTimeOffsetText.Parse s = Ok x /\
    dto_wf x /\ exists y m d h mi sec f, valid_date y m d /\ valid_time h mi sec 0 /\
      0 <= f < 10000000 /\ clock_of x = date_ticks y m d + time_ticks h mi sec 0 + f.
Proof.
  unfold DateTimeOffsetText.Parse.
  destruct (TryParse_cases s l Hl) as [-> |(x & -> & Hx)]; [left|right; exists x; auto].
  split; [done|]. by eexists.
Qed.

(** The result of the exact parser on bounded fields. *)
Lemma exact_result_ok `{DateTimeOffset.ProcessZone} styles v o : dt_wf v -> raw_kind v = 0 ->
  exists r, DateTimeOffsetText.exact_result styles v (TimeSpan.mk o) = Ok r /\
    forall x, r = Some x -> dto_wf x.
Proof.
  intros Hv Hk. unfold DateTimeOffsetText.exact_result.
  cbn [TimeSpan.getTicks TimeSpan.ticks_internal]. change TimeSpan.TicksPerMinute with 600000000.
  change (-14 * TimeSpan.TicksPerHour) with (-504000000000).
  change (14 * TimeSpan.TicksPerHour) with 504000000000. cbv zeta.
  destruct (_ || _ || _) eqn:E; [by exists None|].
  assert (Ho : offset_ok o) by (bool_to_prop; unfold offset_ok; zlia). clear E.
  pose proof (dt_wf_ticks v Hv) as Ht. destruct (id Ho) as [_ Hb].
  assert (Hvp : v = packed (DateTime.ticks v) 0) by (rewrite <- Hk; apply packed_eta).
  rewrite usub_wraps. unfold DateTime.getTicks. set (t := DateTime.ticks v) in *.
  pose proof Ht as [Ht0 Ht1]. unfold DateTime.MaxTicks in Ht1.
  rewrite unsigned_range by (eval_pow; lia).
  destruct (negb _) eqn:E; [by exists None|]. apply negb_false_iff in E. bool_to_prop.
  assert (Hu : in_ticks (t - o)) by done. unfold DateTime.MaxTicks in *.
  unfold i64. rewrite wrapu_id, wraps_id by (eval_pow; lia).
  destruct (Exact.has styles Exact.AdjustToUniversal).
  - rewrite of_ticks_spec. unfold DateTime.MaxTicks. decide_cmp. unfold TimeSpan.Zero.
    rewrite placed_ticks by (done || (split; [reflexivity|lia])).
    rewrite place_Ok by (by rewrite Z.sub_0_r). eexists. split; [done|]. intros x [= <-].
    apply at_clock_wf; [done|split; [reflexivity|lia]|by rewrite Z.sub_0_r].
  - rewrite Hvp, placed_ticks, place_Ok by done. eexists. split; [done|]. intros x [= <-].
    by apply at_clock_wf.
Qed.

(** TryParseExact is safe on every input: for all texts, formats,
    providers, styles and zones, even one that answers an impossible offset,
    it never reaches undefined behaviour, an accepted value satisfies the
    class invariant, and it throws only the two documented exceptions: an
    ArgumentException for illegal styles, and the ArgumentNullException of a
    missing zone, only without a zone. *)
Theorem DateTimeOffset_TryParseExact_safe `{DateTimeOffset.ProcessZone} input format provider styles zone :
  (exists msg, DateTimeOffsetText.TryParseExact input format provider styles zone =
     Throw (ArgumentException msg "styles") /\
   DateTimeOffsetText.validateDateTimeOffsetStyles styles = Throw (ArgumentException msg "styles")) \/
  (zone = None /\ DateTimeOffsetText.TryParseExact input format provider styles zone =
     Throw DateTimeOffsetText.zone_required) \/
  exists r, DateTimeOffsetText.TryParseExact input format provider styles zone = Ok r /\
    forall x, r = Some x -> dto_wf x.
Proof.
  unfold DateTimeOffsetText.TryParseExact.
  destruct (DateTimeOffsetText.validateDateTimeOffsetStyles styles) as [st|e|] eqn:Ev.
  - right. rewrite bind_Ok. cbv zeta.
    destruct (match Exact.ExpandStandardDateTimeFormat format with [] => _ | _ => _ end)
      as [pattern|]; [|right; by exists None].
    unfold Exact.MatchExactFormat. destruct pattern as [|c pattern]; [right; by exists None|].
    destruct (Exact.match_loop _ _ _ _ _ _) as [f|] eqn:Em; [|right; by exists None].
    apply match_loop_ok in Em; [|split; cbn; lia]. unfold DateTimeOffsetText.candidate_of.
    destruct (candidate_ok f Em) as ([v|] & -> & Hv); rewrite bind_Ok; [|right; by exists None].
    destruct (Hv v eq_refl) as [Hw Hk]. unfold DateTimeOffsetText.exact_offset.
    destruct (Exact.hasOffset f).
    { right. destruct (_ || _); rewrite bind_Ok; [by exists None|]. by apply exact_result_ok. }
    destruct (Exact.has st Exact.AssumeUniversal); [right; rewrite bind_Ok; by apply exact_result_ok|].
    destruct zone as [z|]; [right; rewrite bind_Ok|by left].
    destruct (DateTime.GetUtcOffset v) as [o]. by apply exact_result_ok.
  - left. unfold DateTimeOffsetText.validateDateTimeOffsetStyles, throw_if in Ev |- *.
    repeat case_match; cbn [bind] in *; simplify_eq; by eexists.
  - exfalso. unfold DateTimeOffsetText.validateDateTimeOffsetStyles, throw_if in Ev.
    repeat case_match; done.
Qed.

(** ** The theorems at concrete inputs *)

Lemma DateTimeOffset_text_roundtrip_witness :
  exists s, DateTimeOffsetText.ToStringFormat sample_dto (str "o") = Ok s /\
    DateTimeOffsetText.Parse s = Ok sample_dto /\
    DateTimeOffsetText.ParseExact s (str "o") None 0 None = Ok sample_dto.
Proof.
  destruct (DateTimeOffset_text_roundtrip sample_dto None None sample_dto_wf)
    as [(s & Hs & _ & Hp & He) _].
  exists s. auto.
Defined.

Lemma DateTimeOffset_TryParse_sound_witness :
  DateTimeOffset.currentLocalOffsetTicks = Ok 72000000000 /\
  exists msg, DateTimeOffsetText.Parse (str "2024-02-30") = Throw (FormatException msg).
Proof.
  assert (Hl : DateTimeOffset.currentLocalOffsetTicks = Ok 72000000000) by reflexivity.
  split; [exact Hl|].
  destruct (DateTimeOffset_TryParse_sound (str "2024-02-30") 72000000000 Hl)
    as [[_ H]|(x & H & _)]; [exact H|]. vm_compute in H. discriminate H.
Defined.
