(* ===== verification/DateOnly.v ===== *)
(** * System::DateOnly

    [core/src/System/DateOnly.cpp] and [DateOnly.hpp]: a year, month and day;
    its day number through Julian day numbers, its arithmetic, comparison,
    conversion from DateTime, and its text.  The [int] computations are
    checked: leaving the range is undefined. *)

From S2P Require Export DateTimeExact.

Module DateOnly.

(** The object: [year_], [month_], [day_]. *)
Record DateOnly := mk { year_ : Z; month_ : Z; day_ : Z }.

Definition MinValue : DateOnly := mk 1 1 1.
Definition MaxValue : DateOnly := mk 9999 12 31.

(** The constructor, validated by DateTime's. *)
Definition of_ymd (year month day : Z) : res DateOnly :=
  _ <- DateTime.of_ymd year month day ;; Ok (mk year month day).

(** ** Julian day numbers *)

Definition dateToJDN (y m d : Z) : res Z :=
  let a := Z.quot (m - 14) 12 in
  p <- smul 32 1461 (y + 4800 + a) ;;
  q <- smul 32 367 (m - 2 - a * 12) ;;
  let c := Z.quot (y + 4900 + a) 100 in
  t <- smul 32 3 c ;;
  schk 32 (d - 32075 + Z.quot p 4 + Z.quot q 12 - Z.quot t 4).

(** The year, month and day of a Julian day number. *)
Definition jdnToDate (jdn : Z) : res (Z * Z * Z) :=
  l <- sadd 32 jdn 68569 ;;
  p <- smul 32 4 l ;;
  let n := Z.quot p 146097 in
  p <- smul 32 146097 n ;;
  p <- sadd 32 p 3 ;;
  let l := l - Z.quot p 4 in
  p <- smul 32 4000 (l + 1) ;;
  let i := Z.quot p 1461001 in
  p <- smul 32 1461 i ;;
  let l := l - Z.quot p 4 + 31 in
  p <- smul 32 80 l ;;
  let j := Z.quot p 2447 in
  p <- smul 32 2447 j ;;
  let d := l - Z.quot p 80 in
  let l := Z.quot j 11 in
  let m := j + 2 - 12 * l in
  p <- smul 32 100 (n - 49) ;;
  Ok (p + i + l, m, d).

Definition JDN_EPOCH : Z := 1721426.
Definition kMaxDayNumber : Z := 3652058.

(** ** Properties *)

Definition getDayOfWeek (this : DateOnly) : res Z :=
  jdn <- dateToJDN (year_ this) (month_ this) (day_ this) ;;
  Ok (Z.rem (jdn + 1) 7).

Definition getDayOfYear (this : DateOnly) : res Z :=
  a <- dateToJDN (year_ this) (month_ this) (day_ this) ;;
  b <- dateToJDN (year_ this) 1 1 ;;
  Ok (a - b + 1).

Definition getDayNumber (this : DateOnly) : res Z :=
  jdn <- dateToJDN (year_ this) (month_ this) (day_ this) ;;
  ssub 32 jdn JDN_EPOCH.

Definition FromDayNumber (dayNumber : Z) : res DateOnly :=
  _ <- throw_if (u32 dayNumber >? u32 kMaxDayNumber)
         (ArgumentOutOfRangeException "dayNumber"
            "Day number must be between 0 and DateOnly.MaxValue.DayNumber.") ;;
  jdn <- sadd 32 dayNumber JDN_EPOCH ;;
  ymd <- jdnToDate jdn ;;
  let '(y, m, d) := ymd in of_ymd y m d.

Definition GetHashCode (this : DateOnly) : res Z := getDayNumber this.

Definition CompareTo (this other : DateOnly) : res Z :=
  a <- getDayNumber this ;;
  b <- getDayNumber other ;;
  Ok (if a <? b then -1 else if a >? b then 1 else 0).

(** The operators compare [year * 10000 + month * 100 + day]. *)
Definition toDays (this : DateOnly) : Z := year_ this * 10000 + month_ this * 100 + day_ this.
Definition op_eq (a b : DateOnly) : bool :=
  (year_ a =? year_ b) && (month_ a =? month_ b) && (day_ a =? day_ b).
Definition op_lt (a b : DateOnly) : bool := toDays a <? toDays b.
Definition op_le (a b : DateOnly) : bool := toDays a <=? toDays b.

(** ** Arithmetic *)

Definition AddDays (this : DateOnly) (n : Z) : res DateOnly :=
  dayNumber <- getDayNumber this ;;
  let newDayNumber := i32 (uadd 32 (u32 dayNumber) (u32 n)) in
  _ <- throw_if (u32 newDayNumber >? u32 kMaxDayNumber)
         (ArgumentOutOfRangeException "value" "Value to add was out of range.") ;;
  jdn <- sadd 32 newDayNumber JDN_EPOCH ;;
  ymd <- jdnToDate jdn ;;
  let '(y, m, d) := ymd in of_ymd y m d.

Definition dpm : list Z := [0; 31; 28; 31; 30; 31; 30; 31; 31; 30; 31; 30; 31].

Definition AddMonths (this : DateOnly) (n : Z) : res DateOnly :=
  _ <- throw_if ((n <? -120000) || (n >? 120000))
         (ArgumentOutOfRangeException "months" "DateTime: months out of range") ;;
  m <- sadd 32 (month_ this) n ;;
  let q := if m >? 0 then Z.quot (m - 1) 12 else Z.quot m 12 - 1 in
  let y := year_ this + q in
  let m := m - q * 12 in
  _ <- throw_if ((y <? 1) || (y >? 9999))
         (ArgumentOutOfRangeException "months" "DateTime: resulting year out of range") ;;
  let leap := (Z.rem y 4 =? 0) && (negb (Z.rem y 100 =? 0) || (Z.rem y 400 =? 0)) in
  maxDay <- (if (m =? 2) && leap then Ok 29 else get dpm m) ;;
  let d := if day_ this >? maxDay then maxDay else day_ this in
  of_ymd y m d.

Definition AddYears (this : DateOnly) (n : Z) : res DateOnly :=
  _ <- throw_if ((n <? -10000) || (n >? 10000))
         (ArgumentOutOfRangeException "value" "DateTime: years out of range") ;;
  resultingYear <- sadd 32 (year_ this) n ;;
  _ <- throw_if ((resultingYear <? 1) || (resultingYear >? 9999))
         (ArgumentOutOfRangeException "value" "DateTime: resulting year out of range") ;;
  months <- smul 32 n 12 ;;
  AddMonths this months.

Definition FromDateTime (dt : DateTime.DateTime) : res DateOnly :=
  y <- DateTime.getYear dt ;; m <- DateTime.getMonth dt ;; d <- DateTime.getDay dt ;;
  of_ymd y m d.

(** ** Text *)

(** ToString(): the year is streamed without a width. *)
Definition ToString (this : DateOnly) : text :=
  to_string (year_ this) ++ "-"%char :: setw0 2 (to_string (month_ this)) ++
  "-"%char :: setw0 2 (to_string (day_ this)).

(** One token of ToString(format): what it appends and the format left. *)
Definition format_token (this : DateOnly) (c : ascii) (rest : text) : text * text :=
  let '(n, after) := Exact.runLength c rest in
  if Ascii.eqb c "y" then
    ((if (4 <=? n)%nat then DateTimeText.pad (year_ this) 4
      else DateTimeText.pad (Z.rem (year_ this) 100) 2), after)
  else if Ascii.eqb c "M" then
    ((if (2 <=? n)%nat then DateTimeText.pad (month_ this) 2 else to_string (month_ this)), after)
  else if Ascii.eqb c "d" then
    ((if (2 <=? n)%nat then DateTimeText.pad (day_ this) 2 else to_string (day_ this)), after)
  else if Ascii.eqb c "'" then
    match Exact.until "'" rest with Some (q, rest) => (q, rest) | None => (rest, []) end
  else ([c], rest).

(** The loop consumes at least one character of the format per iteration. *)
Fixpoint format_loop (fuel : nat) (this : DateOnly) (result format : text) : res text :=
  match fuel with
  | O => UB
  | S fuel =>
      match format with
      | [] => Ok result
      | c :: rest =>
          let '(s, format) := format_token this c rest in
          format_loop fuel this (result ++ s) format
      end
  end.

Definition ToStringFormat (this : DateOnly) (format : text) : res text :=
  format_loop (S (length format)) this [] format.

(** TryParse: [None] is [return fail()], which assigns MinValue. *)
Definition TryParse (s : text) : res (option DateOnly) :=
  match Scanner.takeDate (Scanner.trimDateTimeText s) with
  | None => Ok None
  | Some (y, m, d, t) =>
      let t := match Scanner.take "Z" t with
               | Some t => t
               | None => match Scanner.take "z" t with Some t => t | None => t end
               end in
      if negb (Scanner.atEnd t) then Ok None
      else if (y <? 1) || (y >? 9999) || (m <? 1) || (m >? 12) || (d <? 1) || (d >? 31)
      then Ok None
      else caught (of_ymd y m d)
  end.

Definition not_recognized (s : text) : exn := FormatException
  (String.append "String was not recognized as a valid DateOnly: " (String.string_of_list_ascii s)).

Definition Parse (s : text) : res DateOnly := or_throw (TryParse s) (not_recognized s).

(** The candidate the bound fields make; [None] is [return false]. *)
Definition candidate_of (f : Exact.ExactDateTimeFields) : res (option DateOnly) :=
  if (Exact.year f <? 0) || (Exact.month f <? 0) || (Exact.day f <? 0) then Ok None
  else if (Exact.year f <? 1) || (Exact.year f >? 9999) then Ok None
  else if (Exact.month f <? 1) || (Exact.month f >? 12) then Ok None
  else
    dim <- DateTime.DaysInMonth (Exact.year f) (Exact.month f) ;;
    if (Exact.day f <? 1) || (Exact.day f >? dim) then Ok None
    else
      candidate <- caught (of_ymd (Exact.year f) (Exact.month f) (Exact.day f)) ;;
      match candidate with
      | None => Ok None
      | Some candidate =>
          wd <- getDayOfWeek candidate ;;
          if (0 <=? Exact.weekday f) && negb (wd =? Exact.weekday f) then Ok None
          else Ok (Some candidate)
      end.

(** The pattern a format stands for; [None] is [return false]. *)
Definition pattern_of (forDate : bool) (format : text) : option text :=
  match Exact.ExpandStandardFormat format forDate with
  | [] => if (length format =? 1)%nat then None else Some format
  | pattern => Some pattern
  end.

Definition TryParseExact (input format : text) (provider : option IFormatProvider) (style : Z)
  : res (option DateOnly) :=
  _ <- Exact.ValidateDateTimeOnlyStyles style ;;
  let options := Exact.ResolveExactParseOptions provider style in
  match pattern_of true format with
  | None => Ok None
  | Some pattern =>
      match Exact.MatchExactFormat input pattern Exact.Date options with
      | None => Ok None
      | Some fields => candidate_of fields
      end
  end.

Definition ParseExact (input format : text) (provider : option IFormatProvider) (style : Z)
  : res DateOnly := or_throw (TryParseExact input format provider style) (not_recognized input).

Definition TryParseExactMany (input : text) (formats : list text)
    (provider : option IFormatProvider) (style : Z) : res (option DateOnly) :=
  outcome <- Exact.MatchFirstOfManyFormats input formats
    (fun format => TryParseExact input format provider style) ;;
  match outcome with Exact.Matched d => Ok (Some d) | _ => Ok None end.

Definition ParseExactMany (input : text) (formats : list text)
    (provider : option IFormatProvider) (style : Z) : res DateOnly :=
  outcome <- Exact.MatchFirstOfManyFormats input formats
    (fun format => TryParseExact input format provider style) ;;
  match outcome with
  | Exact.Matched d => Ok d
  | Exact.NoFormatSpecifier => Throw (FormatException "No format specifiers were provided.")
  | Exact.NotRecognized => Throw (not_recognized input)
  end.

End DateOnly.

(** ** Tests on concrete inputs *)

Example DateOnly_max : DateOnly.FromDayNumber 3652058 = Ok DateOnly.MaxValue.
Proof. vm_compute. reflexivity. Qed.

Example DateOnly_unpadded_year : DateOnly.ToString (DateOnly.mk 5 1 2) = str "5-01-02".
Proof. vm_compute. reflexivity. Qed.

Example DateOnly_exact : DateOnly.ParseExact (str "Sat, 15 Jun 2024") (str "R") None 0
  = Ok (DateOnly.mk 2024 6 15).
Proof. vm_compute. reflexivity. Qed.

(** ** Julian day numbers are the calendar's day numbers *)

(** The March-based year: its number, and the day of it that starts a month. *)
Definition march_year (y m : Z) : Z := if m <=? 2 then y - 1 else y.
Definition march_month (m : Z) : Z := if m <=? 2 then m + 10 else m - 2.
Definition march_start (j : Z) : Z :=
  nth (Z.to_nat j) [0; 0; 31; 61; 92; 122; 153; 184; 214; 245; 275; 306; 337] 0.

(** Evaluate the month tables at constant months. *)
Ltac eval_months :=
  repeat match goal with
    | |- context [cumulative ?l ?m] =>
        let v := eval vm_compute in (cumulative l m) in change (cumulative l m) with v
    | H : context [cumulative ?l ?m] |- _ =>
        let v := eval vm_compute in (cumulative l m) in change (cumulative l m) with v in H
    | |- context [march_month ?m] =>
        let v := eval vm_compute in (march_month m) in change (march_month m) with v
    | |- context [march_start ?m] =>
        let v := eval vm_compute in (march_start m) in change (march_start m) with v
    | |- context [march_year ?y ?m] =>
        let v := eval vm_compute in (m <=? 2) in
        change (march_year y m) with (if v then y - 1 else y); cbv iota
    end.

Lemma day_number_march y m d : valid_date y m d ->
  day_number y m d = days_before_year (march_year y m + 1) + march_start (march_month m) + d - 307.
Proof.
  intros (Hy & Hm & Hd). unfold day_number.
  pose proof (days_before_next y ltac:(lia)) as Hn. unfold year_days in Hn.
  month_cases m; destruct (is_leap y); eval_months; rewrite ?Z.sub_add, ?Hn; lia.
Qed.

Lemma march_last y m d : valid_date y m d -> 0 <= march_start (march_month m) + d - 1 <= 365 /\
  (march_start (march_month m) + d - 1 = 365 -> is_leap (march_year y m + 1) = true).
Proof.
  intros (Hy & Hm & Hd). unfold month_days in *.
  month_cases m; destruct (is_leap y) eqn:E; eval_months; split; try lia; intros; try lia;
    by rewrite Z.sub_add.
Qed.

Lemma march_year_range y m d : valid_date y m d -> 0 <= march_year y m <= 9999.
Proof. intros (Hy & Hm & _). unfold march_year. split_if; lia. Qed.

(** The two quotients of dateToJDN count the days of the March-based years. *)
Lemma jdn_years y : 0 <= y <= 9999 ->
  Z.quot (1461 * (y + 4800)) 4 - Z.quot (3 * Z.quot (y + 4900) 100) 4
  = days_before_year (y + 1) + 1753164.
Proof. intros. unfold days_before_year. rewrite Z.add_simpl_r. zlia. Qed.

(** Checked arithmetic whose result is known to be in range. *)
Ltac checked :=
  repeat (first [rewrite bind_Ok
                | unfold smul, sadd, ssub; rewrite schk_Ok by (eval_pow; lia)]).

Lemma dateToJDN_exact y m d : valid_date y m d ->
  DateOnly.dateToJDN y m d = Ok (day_number y m d + 1721426).
Proof.
  intros Hv. pose proof (day_number_march _ _ _ Hv) as Hdn.
  pose proof (day_number_range _ _ _ Hv) as Hr. pose proof (valid_date_bounds _ _ _ Hv) as Hd.
  destruct Hv as (Hy & Hm & _). unfold DateOnly.dateToJDN.
  set (a := Z.quot (m - 14) 12).
  assert (Ha : y + a = march_year y m /\ -1 <= a <= 0 /\
               Z.quot (367 * (m - 2 - a * 12)) 12 = march_start (march_month m) + 30).
  { unfold a. clear a Hdn Hr Hd. month_cases m; eval_months; zlia. }
  destruct Ha as (Ha & Ha01 & Hq). clearbody a.
  assert (Hmy : 0 <= march_year y m <= 9999) by lia.
  pose proof (jdn_years (march_year y m) Hmy) as HY.
  checked. rewrite Hq.
  replace (y + 4800 + a) with (march_year y m + 4800) by lia.
  replace (y + 4900 + a) with (march_year y m + 4900) by lia.
  assert (0 <= Z.quot (march_year y m + 4900) 100 <= 200) by zlia.
  checked. f_equal. lia.
Qed.

(** One quotient of jdnToDate whose value is known. *)
Lemma quot_is p k q : 0 <= p -> 0 < k -> k * q <= p < k * (q + 1) -> Z.quot p k = q.
Proof. intros. rewrite Z.quot_div_nonneg by lia. symmetry. apply Z.div_unique with (p - k * q); lia. Qed.

Lemma march_month_found m d y : valid_date y m d ->
  let l := march_start (march_month m) + d - 1 + 31 in
  Z.quot (80 * l) 2447 = march_month m /\
  l - Z.quot (2447 * march_month m) 80 = d /\
  march_month m + 2 - 12 * Z.quot (march_month m) 11 = m /\
  march_year y m + Z.quot (march_month m) 11 = y.
Proof.
  intros (Hy & Hm & Hd). unfold month_days in *.
  month_cases m; destruct (is_leap y); eval_months;
    (split; [apply quot_is; lia | split; [zlia | split; zlia]]).
Qed.

Lemma jdnToDate_exact y m d : valid_date y m d ->
  DateOnly.jdnToDate (day_number y m d + 1721426) = Ok (y, m, d).
Proof.
  intros Hv. pose proof (day_number_march _ _ _ Hv) as Hdn.
  pose proof (march_last _ _ _ Hv) as [Ht Hlast].
  pose proof (march_month_found m d y Hv) as Hmm. cbn zeta in Hmm.
  set (t := march_start (march_month m) + d - 1) in *.
  destruct (year_cycle (march_year y m + 1)) as (a & b & c & e & Hc & Ha & Hb & Hcc & He).
  { pose proof (march_year_range _ _ _ Hv). lia. }
  assert (Ha25 : a <= 24) by (pose proof (march_year_range _ _ _ Hv); lia).
  rewrite Hc, days_before_cycle in Hdn by done.
  rewrite Hc, is_leap_cycle in Hlast by done.
  assert (Hlast' : t = 365 -> e = 3 /\ (c <> 24 \/ b = 3)).
  { intros E. specialize (Hlast E). bool_to_prop; (split; [lia|]); auto. }
  clear Hlast Hv. unfold DateOnly.jdnToDate.
  set (k := day_number y m d) in *. clearbody k.
  checked.
  rewrite (quot_is (4 * (k + 1721426 + 68569)) 146097 (4 * (a + 12) + b + 1)) by lia.
  checked.
  set (l1 := k + 1721426 + 68569 - Z.quot (146097 * (4 * (a + 12) + b + 1) + 3) 4).
  assert (Hl1 : l1 = 1461 * c + 365 * e + t).
  { unfold l1. assert (b = 0 \/ b = 1 \/ b = 2 \/ b = 3) as Hb4 by lia.
    destruct Hb4 as [-> | [-> | [-> | ->]]]; zlia. }
  clearbody l1. checked.
  rewrite (quot_is (4000 * (l1 + 1)) 1461001 (4 * c + e)) by lia.
  checked.
  assert (Hq : Z.quot (1461 * (4 * c + e)) 4 = 1461 * c + 365 * e).
  { assert (e = 0 \/ e = 1 \/ e = 2 \/ e = 3) as He4 by lia.
    destruct He4 as [-> | [-> | [-> | ->]]]; zlia. }
  rewrite Hq. replace (l1 - (1461 * c + 365 * e) + 31) with (t + 31) by lia.
  destruct Hmm as (H1 & H2 & H3 & H4). checked. rewrite H1.
  assert (1 <= march_month m <= 12).
  { clear -H1 Ht. zlia. }
  checked. rewrite H2, H3. do 3 f_equal. lia.
Qed.

(** ** Values *)

(** A constructed date is a valid one; its day number. *)
Definition date_wf (d : DateOnly.DateOnly) : Prop :=
  valid_date (DateOnly.year_ d) (DateOnly.month_ d) (DateOnly.day_ d).
Definition number (d : DateOnly.DateOnly) : Z :=
  day_number (DateOnly.year_ d) (DateOnly.month_ d) (DateOnly.day_ d).

Lemma number_range d : date_wf d -> 0 <= number d <= 3652058.
Proof. apply day_number_range. Qed.

Lemma number_inj a b : date_wf a -> date_wf b -> number a = number b -> a = b.
Proof.
  destruct a, b. intros Ha Hb E. destruct (day_number_inj _ _ _ _ _ _ Ha Hb E) as (? & ? & ?).
  cbn in *. congruence.
Qed.

Lemma of_ymd_valid y m d : valid_date y m d -> DateOnly.of_ymd y m d = Ok (DateOnly.mk y m d).
Proof.
  intros Hd. unfold DateOnly.of_ymd, DateTime.of_ymd, DateTime.of_ymdhms.
  destruct (built_value y m d 0 0 0 0 Hd) as (v & -> & _); [unfold valid_time; lia|]. done.
Qed.

Lemma of_ymd_invalid y m d : ~ valid_date y m d ->
  exists param msg, DateOnly.of_ymd y m d = Throw (ArgumentOutOfRangeException param msg).
Proof.
  intros Hd. unfold DateOnly.of_ymd, DateTime.of_ymd, DateTime.of_ymdhms, DateTime.of_ymdhmsm.
  destruct (dateToTicks_invalid y m d 0 0 0 0) as (p & msg & ->); [unfold in_s; cbn; lia..| |].
  - tauto.
  - by exists p, msg.
Qed.

Lemma getDayNumber_number d : date_wf d -> DateOnly.getDayNumber d = Ok (number d).
Proof.
  intros Hd. pose proof (number_range d Hd). unfold DateOnly.getDayNumber.
  rewrite (dateToJDN_exact _ _ _ Hd). fold (number d).
  unfold DateOnly.JDN_EPOCH. rewrite bind_Ok. unfold ssub.
  rewrite schk_Ok by (eval_pow; lia). f_equal. lia.
Qed.

(** Every day number in range is a date's. *)
Lemma date_of_number k : 0 <= k <= 3652058 -> exists d, date_wf d /\ number d = k.
Proof.
  intros Hk. set (v := packed (k * 864000000000) 0).
  assert (Hin : in_ticks (k * 864000000000)) by (unfold in_ticks, DateTime.MaxTicks; lia).
  assert (Hv : dt_wf v) by (apply packed_wf; [done|lia]).
  destruct (toTm_spec v Hv) as (y & m & d & _ & Hd & Hn & _). exists (DateOnly.mk y m d).
  split; [done|]. unfold number; cbn. rewrite Hn. unfold v. rewrite packed_ticks by done.
  by apply Z.div_mul.
Qed.

(** From a Julian day number back to the object. *)
Lemma date_from_jdn d : date_wf d ->
  (ymd <- DateOnly.jdnToDate (number d + 1721426) ;;
   let '(y, m, d) := ymd in DateOnly.of_ymd y m d) = Ok d.
Proof.
  intros Hd. unfold number. rewrite jdnToDate_exact by done. rewrite bind_Ok.
  rewrite of_ymd_valid by done. by destruct d.
Qed.

Lemma unsigned_in_range x : in_s 32 x ->
  (u32 x >? u32 DateOnly.kMaxDayNumber) = negb ((0 <=? x) && (x <=? 3652058)).
Proof.
  intros Hx. unfold DateOnly.kMaxDayNumber. change (u32 3652058) with 3652058. rewrite Z.gtb_ltb.
  unfold in_s in Hx. cbn in Hx. destruct (Z.leb_spec 0 x).
  - unfold u32. rewrite wrapu_id by (eval_pow; lia).
    destruct (Z.leb_spec x 3652058); decide_cmp; done.
  - cbn [andb negb]. apply Z.ltb_lt. zlia.
Qed.

Lemma FromDayNumber_ok d : date_wf d -> DateOnly.FromDayNumber (number d) = Ok d.
Proof.
  intros Hd. pose proof (number_range d Hd). unfold DateOnly.FromDayNumber.
  rewrite unsigned_in_range by (eval_pow; lia). decide_cmp.
  unfold sadd, DateOnly.JDN_EPOCH. rewrite schk_Ok by (eval_pow; lia). rewrite bind_Ok.
  by apply date_from_jdn.
Qed.

Lemma AddDays_spec d n : date_wf d -> in_s 32 n ->
  (exists d', date_wf d' /\ number d' = number d + n /\ DateOnly.AddDays d n = Ok d') \/
  (~ 0 <= number d + n <= 3652058 /\ DateOnly.AddDays d n =
     Throw (ArgumentOutOfRangeException "value" "Value to add was out of range.")).
Proof.
  intros Hd Hn. pose proof (number_range d Hd) as Hr. unfold DateOnly.AddDays.
  rewrite getDayNumber_number, bind_Ok by done.
  assert (Hsum : i32 (uadd 32 (u32 (number d)) (u32 n)) = i32 (number d + n)).
  { unfold i32. rewrite <- (wraps_wrapu 32 (number d + n)) by lia. f_equal.
    unfold uadd, u32, wrapu. symmetry. apply Zplus_mod. }
  rewrite Hsum. rewrite unsigned_in_range by (apply wraps_range; lia).
  unfold in_s in Hn. cbn in Hn.
  destruct (decide (0 <= number d + n <= 3652058)) as [Hin|Hout].
  - left. destruct (date_of_number (number d + n) Hin) as (d' & Hd' & Hd'n). exists d'.
    split; [done|]. split; [done|]. rewrite <- Hd'n in Hin |- *.
    unfold i32. rewrite wraps_id by (lia || (eval_pow; lia)). decide_cmp.
    unfold sadd, DateOnly.JDN_EPOCH. rewrite schk_Ok by (eval_pow; lia). rewrite bind_Ok.
    by apply date_from_jdn.
  - right. split; [done|].
    replace ((0 <=? i32 (number d + n)) && (i32 (number d + n) <=? 3652058)) with false; [done|].
    symmetry. apply andb_false_iff. unfold i32, wraps. eval_pow.
    assert (number d + n > 2147483647 \/ number d + n <= 2147483647) as [Hbig|Hsm] by lia.
    + left. apply Z.leb_gt. zlia.
    + rewrite Z.mod_small by lia.
      destruct (Z.le_gt_cases 0 (number d + n)); [right; apply Z.leb_gt; lia | left; apply Z.leb_gt; lia].
Qed.

(** ** Order *)

Lemma toDays_lt a b : date_wf a -> date_wf b ->
  (DateOnly.toDays a < DateOnly.toDays b <-> number a < number b).
Proof.
  destruct a as [y m d], b as [y' m' d']. unfold date_wf, number, DateOnly.toDays.
  cbn [DateOnly.year_ DateOnly.month_ DateOnly.day_]. intros Ha Hb.
  pose proof (valid_date_bounds _ _ _ Ha). pose proof (valid_date_bounds _ _ _ Hb).
  pose proof (day_number_lt _ _ _ _ _ _ Ha Hb) as L1.
  pose proof (day_number_lt _ _ _ _ _ _ Hb Ha) as L2.
  pose proof (day_number_inj _ _ _ _ _ _ Ha Hb) as Hi.
  destruct Ha as (? & ? & _), Hb as (? & ? & _). split; intros Hlt.
  - apply L1. lia.
  - assert (~ (y' < y \/ y' = y /\ (m' < m \/ m' = m /\ d' < d))) by (intros X; specialize (L2 X); lia).
    assert (~ (y = y' /\ m = m' /\ d = d')) by (intros (-> & -> & ->); lia). lia.
Qed.

(** ** Month arithmetic *)

Lemma max_day y m : 1 <= y -> 1 <= m <= 12 ->
  (if (m =? 2) && is_leap y then Ok 29 else get DateOnly.dpm m) = Ok (month_days y m).
Proof. intros Hy Hm. unfold month_days. month_cases m; destruct (is_leap y); reflexivity. Qed.

(** The date [n] months later, clamped to the end of its month. *)
Definition months_later (d : DateOnly.DateOnly) (n : Z) : DateOnly.DateOnly :=
  let k := DateOnly.year_ d * 12 + (DateOnly.month_ d - 1) + n in
  let y := k / 12 in let m := k mod 12 + 1 in
  DateOnly.mk y m (Z.min (DateOnly.day_ d) (month_days y m)).

Lemma DateOnly_AddMonths_spec d n : date_wf d -> -120000 <= n <= 120000 ->
  DateOnly.AddMonths d n =
  if (1 <=? DateOnly.year_ (months_later d n)) && (DateOnly.year_ (months_later d n) <=? 9999)
  then Ok (months_later d n)
  else Throw (ArgumentOutOfRangeException "months" "DateTime: resulting year out of range").
Proof.
  destruct d as [y m d]. intros Hd Hn. pose proof (valid_date_bounds _ _ _ Hd) as Hdb.
  destruct Hd as (Hy & Hm & _). cbn [DateOnly.year_ DateOnly.month_ DateOnly.day_] in *.
  unfold DateOnly.AddMonths. cbn [DateOnly.year_ DateOnly.month_ DateOnly.day_].
  decide_cmp. unfold sadd at 1. rewrite schk_Ok by (eval_pow; lia). cbn [bind].
  destruct (month_carry y (m + n)) as [Hyq Hmq]. cbv zeta in *. rewrite Hyq, Hmq.
  unfold months_later. cbn [DateOnly.year_ DateOnly.month_ DateOnly.day_].
  replace (y * 12 + (m + n - 1)) with (y * 12 + (m - 1) + n) by lia.
  set (k := y * 12 + (m - 1) + n). cbv zeta.
  assert (Hm' : 1 <= k mod 12 + 1 <= 12) by zlia.
  set (y' := k / 12). set (m' := k mod 12 + 1) in *.
  destruct ((1 <=? y') && (y' <=? 9999)) eqn:E; bool_to_prop; decide_cmp; [|done|done].
  rewrite leap_rem, max_day by lia. cbn [bind]. rewrite Z.gtb_ltb.
  replace (if month_days y' m' <? d then month_days y' m' else d)
    with (Z.min d (month_days y' m')) by (destruct (Z.ltb_spec (month_days y' m') d); lia).
  apply of_ymd_valid, clamped_date_valid; lia.
Qed.

Lemma months_later_wf d n : date_wf d -> 1 <= DateOnly.year_ (months_later d n) <= 9999 ->
  date_wf (months_later d n).
Proof.
  intros Hd Hy. pose proof (valid_date_bounds _ _ _ Hd). unfold date_wf, months_later in *.
  cbn [DateOnly.year_ DateOnly.month_ DateOnly.day_] in *.
  apply clamped_date_valid; [done | zlia | lia].
Qed.

Lemma years_later d n : date_wf d -> DateOnly.year_ (months_later d (n * 12)) = DateOnly.year_ d + n.
Proof.
  intros (_ & Hm & _). unfold months_later. cbn [DateOnly.year_]. zlia.
Qed.

(** ** Theorems *)

(** a DateOnly and its day number determine each other: the Julian-day
    formulas never overflow, FromDayNumber yields the date of every number
    from 0 to 3652058 and rejects every other 32-bit value, a date's own
    number leads back to it, and the day of the week and of the year are the
    calendar's. *)
Theorem DateOnly_day_number_bijection :
  (forall k, 0 <= k <= 3652058 -> exists d, DateOnly.FromDayNumber k = Ok d /\ date_wf d /\
     DateOnly.getDayNumber d = Ok k) /\
  (forall k, in_s 32 k -> ~ 0 <= k <= 3652058 -> exists msg,
     DateOnly.FromDayNumber k = Throw (ArgumentOutOfRangeException "dayNumber" msg)) /\
  (forall d, date_wf d -> exists k, 0 <= k <= 3652058 /\ DateOnly.getDayNumber d = Ok k /\
     DateOnly.FromDayNumber k = Ok d /\ DateOnly.getDayOfWeek d = Ok ((k + 1) mod 7) /\
     DateOnly.getDayOfYear d = Ok (k - day_number (DateOnly.year_ d) 1 1 + 1)).
Proof.
  split; [|split].
  - intros k Hk. destruct (date_of_number k Hk) as (d & Hd & <-). exists d.
    rewrite FromDayNumber_ok, getDayNumber_number by done. done.
  - intros k Hk Hout. unfold DateOnly.FromDayNumber. rewrite unsigned_in_range by done.
    destruct (andb _ _) eqn:E; bool_to_prop; [lia|..]; by eexists.
  - intros d Hd. pose proof (number_range d Hd) as Hr. exists (number d).
    rewrite getDayNumber_number, FromDayNumber_ok by done. split_and!; try done; try lia.
    + unfold DateOnly.getDayOfWeek. rewrite (dateToJDN_exact _ _ _ Hd), bind_Ok. f_equal.
      fold (number d). zlia.
    + unfold DateOnly.getDayOfYear. rewrite (dateToJDN_exact _ _ _ Hd), bind_Ok.
      rewrite dateToJDN_exact, bind_Ok.
      * f_equal. unfold number. lia.
      * destruct Hd as (Hy & _). split; [done|]. split; [lia|].
        unfold month_days. pose proof (cumulative_month (is_leap (DateOnly.year_ d)) 1). lia.
Qed.

(** arithmetic and order: AddDays moves by exactly that many days for
    every 32-bit count, or rejects it when the result is not a date;
    AddMonths and AddYears move the month or year and clamp the day to the
    end of the month, rejecting results outside years 1 to 9999 and larger
    counts; the comparison operators, CompareTo and Equals agree with the
    order of the day numbers. *)
Theorem DateOnly_arithmetic d e n (Hd : date_wf d) (He : date_wf e) (Hn : in_s 32 n) :
  ((exists d', date_wf d' /\ number d' = number d + n /\ DateOnly.AddDays d n = Ok d') \/
   (~ 0 <= number d + n <= 3652058 /\ DateOnly.AddDays d n =
      Throw (ArgumentOutOfRangeException "value" "Value to add was out of range."))) /\
  (let y := DateOnly.year_ (months_later d n) in
   if (-120000 <=? n) && (n <=? 120000) && (1 <=? y) && (y <=? 9999)
   then DateOnly.AddMonths d n = Ok (months_later d n) /\ date_wf (months_later d n)
   else exists msg, DateOnly.AddMonths d n = Throw (ArgumentOutOfRangeException "months" msg)) /\
  (let y := DateOnly.year_ d + n in
   if (-10000 <=? n) && (n <=? 10000) && (1 <=? y) && (y <=? 9999)
   then DateOnly.AddYears d n = Ok (months_later d (n * 12)) /\
        DateOnly.year_ (months_later d (n * 12)) = y
   else exists msg, DateOnly.AddYears d n = Throw (ArgumentOutOfRangeException "value" msg)) /\
  (DateOnly.op_lt d e = true <-> number d < number e) /\
  (DateOnly.op_le d e = true <-> number d <= number e) /\
  (DateOnly.op_eq d e = true <-> d = e) /\
  DateOnly.CompareTo d e = Ok (Z.sgn (number d - number e)).
Proof.
  split_and!.
  - by apply AddDays_spec.
  - cbv zeta. destruct (andb (andb _ _) _ && _) eqn:E.
    + bool_to_prop. rewrite DateOnly_AddMonths_spec by (done || lia). decide_cmp.
      split; [done|]. by apply months_later_wf; [|lia].
    + destruct (decide (-120000 <= n <= 120000)) as [Hin|Hout].
      * rewrite DateOnly_AddMonths_spec by done.
        replace ((1 <=? _) && _) with false; [by eexists|]. symmetry. bool_to_prop; lia.
      * unfold DateOnly.AddMonths.
        replace ((n <? -120000) || (n >? 120000)) with true; [by eexists|].
        symmetry. rewrite Z.gtb_ltb. apply orb_true_iff. rewrite !Z.ltb_lt. lia.
  - pose proof (years_later d n Hd) as Hy'. cbv zeta. unfold DateOnly.AddYears.
    destruct (andb (andb _ _) _ && _) eqn:E.
    + bool_to_prop. pose proof (proj1 Hd) as Hy. unfold sadd.
      rewrite schk_Ok by (eval_pow; lia). decide_cmp. unfold smul.
      rewrite schk_Ok by (eval_pow; lia). rewrite bind_Ok, DateOnly_AddMonths_spec by (done || lia).
      rewrite Hy'. decide_cmp. done.
    + destruct (decide (-10000 <= n <= 10000)) as [Hin|Hout].
      * destruct Hd as (Hy & _). decide_cmp. unfold sadd. rewrite schk_Ok by (eval_pow; lia).
        rewrite bind_Ok. replace ((_ <? 1) || _) with true; [by eexists|].
        symmetry. rewrite Z.gtb_ltb. apply orb_true_iff. rewrite !Z.ltb_lt. bool_to_prop; lia.
      * replace ((n <? -10000) || (n >? 10000)) with true; [by eexists|].
        symmetry. rewrite Z.gtb_ltb. apply orb_true_iff. rewrite !Z.ltb_lt. lia.
  - unfold DateOnly.op_lt. rewrite Z.ltb_lt. by apply toDays_lt.
  - unfold DateOnly.op_le. rewrite Z.leb_le. pose proof (toDays_lt e d He Hd). lia.
  - unfold DateOnly.op_eq. rewrite !andb_true_iff, !Z.eqb_eq. destruct d, e; cbn.
    split; [intros [[? ?] ?]; congruence | intros [=]; auto].
  - unfold DateOnly.CompareTo. rewrite !getDayNumber_number, !bind_Ok by done. f_equal.
    rewrite Z.gtb_ltb. destruct (Z.ltb_spec (number d) (number e)); [lia|].
    destruct (Z.ltb_spec (number e) (number d)); lia.
Qed.

Definition sample_date_only : DateOnly.DateOnly := DateOnly.mk 2024 1 31.

Lemma sample_date_only_wf : date_wf sample_date_only.
Proof. unfold date_wf, valid_date, month_days; cbn. split; [lia|]. split; [lia|]. by vm_compute. Qed.

Lemma DateOnly_arithmetic_witness :
  DateOnly.AddMonths sample_date_only 1 = Ok (DateOnly.mk 2024 2 29) /\
  DateOnly.AddYears sample_date_only (-23) = Ok (DateOnly.mk 2001 1 31).
Proof.
  split.
  - exact (proj1 (proj1 (proj2 (DateOnly_arithmetic sample_date_only sample_date_only 1
      sample_date_only_wf sample_date_only_wf ltac:(by split))))).
  - exact (proj1 (proj1 (proj2 (proj2 (DateOnly_arithmetic sample_date_only sample_date_only (-23)
      sample_date_only_wf sample_date_only_wf ltac:(by split)))))).
Defined.

(** ** Text *)

Lemma setw0_full w t : (w <= length t)%nat -> setw0 w t = t.
Proof. intros Hl. unfold setw0. by replace (w - length t)%nat with O by lia. Qed.

(** The unpadded year: four digits exactly from 1000 on. *)
Lemma year_digits y : 1 <= y <= 9999 ->
  all_digits (to_string y) /\ to_string y <> [] /\
  (1000 <= y -> to_string y = DateTimeText.pad y 4) /\
  (y < 1000 -> (length (to_string y) <= 3)%nat).
Proof.
  intros Hy. unfold DateTimeText.pad, to_string. decide_cmp.
  destruct (dec_spec y ltac:(lia)) as (Hd & Hv & Hne & Hlen).
  pose proof (dec_value_range _ Hd) as Hr. rewrite Hv in Hr.
  pose proof (Hlen 4%nat ltac:(lia) ltac:(cbn; lia)) as H4.
  split; [done|]. split; [done|]. split; intros Hc.
  - symmetry. apply setw0_full.
    assert (~ (length (dec y) <= 3)%nat); [|lia]. intros H3.
    pose proof (Z.pow_le_mono_r 10 (Z.of_nat (length (dec y))) 3 ltac:(lia) ltac:(lia)). lia.
  - apply (Hlen 3%nat); [lia | cbn; lia].
Qed.

Lemma DateOnly_printed d : date_wf d ->
  DateOnly.ToStringFormat d (str "yyyy-MM-dd")
    = Ok (date_text (DateOnly.year_ d) (DateOnly.month_ d) (DateOnly.day_ d)).
Proof.
  intros Hd. unfold DateOnly.ToStringFormat. destruct d as [y m dd].
  cbn -[DateTimeText.pad]. unfold date_text. f_equal. rewrite <- !app_assoc. reflexivity.
Qed.

Lemma DateOnly_TryParse_printed d : date_wf d ->
  DateOnly.TryParse (date_text (DateOnly.year_ d) (DateOnly.month_ d) (DateOnly.day_ d)) = Ok (Some d).
Proof.
  intros Hd. destruct d as [y m dd]. unfold date_wf in Hd.
  cbn [DateOnly.year_ DateOnly.month_ DateOnly.day_] in *.
  pose proof (valid_date_bounds _ _ _ Hd) as Hb. unfold DateOnly.TryParse.
  replace (Scanner.trimDateTimeText (date_text y m dd)) with (date_text y m dd).
  - rewrite <- (app_nil_r (date_text y m dd)), takeDate_printed by done.
    cbn [Scanner.take Scanner.atEnd negb]. destruct Hd as (Hy & Hm & Hdd).
    decide_cmp. rewrite of_ymd_valid by done. done.
  - symmetry. destruct Hd as (Hy & Hm & _).
    destruct (pad_run 4 y) as (Hd4 & Hn4 & _); [lia|lia|cbn;lia|].
    destruct (pad_run 2 dd) as (Hd2 & Hn2 & _); [lia|lia|cbn;lia|].
    assert (E : date_text y m dd =
      DateTimeText.pad y 4 ++ ("-"%char :: DateTimeText.pad m 2 ++ ["-"%char]) ++ DateTimeText.pad dd 2).
    { unfold date_text. cbn [app]. by rewrite <- app_assoc. }
    rewrite E. by apply trim_digits_ends.
Qed.

(** ToString is the padded form exactly from year 1000 on. *)
Lemma DateOnly_ToString_shape d : date_wf d ->
  DateOnly.ToString d = to_string (DateOnly.year_ d) ++ "-"%char ::
    DateTimeText.pad (DateOnly.month_ d) 2 ++ "-"%char :: DateTimeText.pad (DateOnly.day_ d) 2.
Proof. done. Qed.

Lemma DateOnly_short_year_rejected d : date_wf d -> DateOnly.year_ d < 1000 ->
  DateOnly.TryParse (DateOnly.ToString d) = Ok None.
Proof.
  intros Hd Hy. pose proof (valid_date_bounds _ _ _ Hd) as Hb. destruct Hd as (Hyr & Hm & _).
  destruct (year_digits (DateOnly.year_ d) Hyr) as (Hdg & Hne & _ & Hl). specialize (Hl Hy).
  destruct (pad_run 2 (DateOnly.day_ d)) as (Hd2 & Hn2 & _); [lia|lia|cbn;lia|].
  unfold DateOnly.TryParse.
  assert (E : Scanner.trimDateTimeText (DateOnly.ToString d) = DateOnly.ToString d).
  { assert (E2 : DateOnly.ToString d = to_string (DateOnly.year_ d) ++
      ("-"%char :: DateTimeText.pad (DateOnly.month_ d) 2 ++ ["-"%char]) ++
      DateTimeText.pad (DateOnly.day_ d) 2).
    { unfold DateOnly.ToString, DateTimeText.pad. cbn [app]. by rewrite <- app_assoc. }
    rewrite E2. by apply trim_digits_ends. }
  rewrite E. unfold Scanner.takeDate, Scanner.takeDigits, DateOnly.ToString.
  rewrite digits_loop_run by (done || lia || (by right)). cbn [Nat.add].
  by rewrite (proj2 (Nat.ltb_lt _ _)) by lia.
Qed.

(** ** Exact formats *)

Lemma caught_of_ymd y m d : (valid_date y m d /\ caught (DateOnly.of_ymd y m d)
    = Ok (Some (DateOnly.mk y m d))) \/
  (~ valid_date y m d /\ caught (DateOnly.of_ymd y m d) = Ok None).
Proof.
  assert (Hdec : Decision (valid_date y m d)) by (unfold valid_date; apply _).
  destruct (decide (valid_date y m d)) as [Hd|Hd].
  - left. by rewrite of_ymd_valid.
  - right. by destruct (of_ymd_invalid y m d Hd) as (p & msg & ->).
Qed.

Lemma candidate_sound f : DateOnly.candidate_of f = Ok None \/
  exists d, DateOnly.candidate_of f = Ok (Some d) /\ date_wf d /\
    d = DateOnly.mk (Exact.year f) (Exact.month f) (Exact.day f) /\
    (0 <= Exact.weekday f -> DateOnly.getDayOfWeek d = Ok (Exact.weekday f)).
Proof.
  unfold DateOnly.candidate_of. do 3 (split_if; try by left).
  rewrite DaysInMonth_spec, bind_Ok by lia. split_if; try by left.
  assert (Hd : valid_date (Exact.year f) (Exact.month f) (Exact.day f))
    by (unfold valid_date; lia).
  rewrite of_ymd_valid by done. cbn [caught bind].
  set (d := DateOnly.mk _ _ _).
  assert (Hw : DateOnly.getDayOfWeek d = Ok (Z.rem (number d + 1721426 + 1) 7)).
  { unfold DateOnly.getDayOfWeek. by rewrite (dateToJDN_exact (DateOnly.year_ d) (DateOnly.month_ d) (DateOnly.day_ d) Hd). }
  rewrite Hw, bind_Ok.
  destruct ((0 <=? Exact.weekday f) && _) eqn:E; [by left|]. right. exists d.
  split; [done|]. split; [done|]. split; [done|]. intros Hwd. rewrite Hw. f_equal.
  bool_to_prop; lia.
Qed.

Lemma TryParseExact_sound input format provider style :
  (exists e, Exact.ValidateDateTimeOnlyStyles style = Throw e /\
     DateOnly.TryParseExact input format provider style = Throw e) \/
  (Exact.ValidateDateTimeOnlyStyles style = Ok tt /\
   (DateOnly.TryParseExact input format provider style = Ok None \/
    exists d, DateOnly.TryParseExact input format provider style = Ok (Some d) /\ date_wf d)).
Proof.
  unfold DateOnly.TryParseExact, Exact.ValidateDateTimeOnlyStyles.
  destruct (negb _); cbn [throw_if bind]; [left; by eexists|]. right. split; [done|].
  destruct (DateOnly.pattern_of true format) as [p|]; [|by left].
  destruct (Exact.MatchExactFormat _ _ _ _) as [f|]; [|by left].
  destruct (candidate_sound f) as [->|(d & -> & Hd & _)]; [by left | right; by exists d].
Qed.

(** the text of a date: the format [yyyy-MM-dd] is read back by TryParse
    and Parse as the same date; ToString(), whose documented form that is,
    does not pad the year, and its text is read back exactly from year 1000
    on and rejected before. *)
Theorem DateOnly_text_roundtrip d (Hd : date_wf d) :
  (exists s, DateOnly.ToStringFormat d (str "yyyy-MM-dd") = Ok s /\
     DateOnly.TryParse s = Ok (Some d) /\ DateOnly.Parse s = Ok d) /\
  DateOnly.TryParse (DateOnly.ToString d)
    = Ok (if DateOnly.year_ d <? 1000 then None else Some d).
Proof.
  split.
  - eexists. split; [by apply DateOnly_printed|]. unfold DateOnly.Parse.
    rewrite DateOnly_TryParse_printed by done. done.
  - split_if; [by apply DateOnly_short_year_rejected|].
    rewrite <- (DateOnly_TryParse_printed d) by done. f_equal.
    rewrite DateOnly_ToString_shape by done. unfold date_text.
    destruct (year_digits (DateOnly.year_ d)) as (_ & _ & -> & _); [apply Hd | done | lia].
Qed.

Lemma DateOnly_text_roundtrip_witness :
  DateOnly.TryParse (DateOnly.ToString sample_date_only) = Ok (Some sample_date_only).
Proof. exact (proj2 (DateOnly_text_roundtrip sample_date_only sample_date_only_wf)). Defined.

(** parsing a date is total and sound: TryParse never throws, and it and
    TryParseExact return only valid dates; an illegal style throws from
    TryParseExact, whatever the input, and from the list form when there are
    formats and input, but not when the list, its first format or the input
    is empty. *)
Theorem DateOnly_parse_safe s format formats provider style :
  (DateOnly.TryParse s = Ok None \/
   exists d, DateOnly.TryParse s = Ok (Some d) /\ date_wf d) /\
  ((exists e, Exact.ValidateDateTimeOnlyStyles style = Throw e /\
      DateOnly.TryParseExact s format provider style = Throw e /\
      DateOnly.TryParseExactMany s (format :: formats) provider style
        = (if (length s =? 0)%nat || (length format =? 0)%nat then Ok None else Throw e)) \/
   (Exact.ValidateDateTimeOnlyStyles style = Ok tt /\
    (DateOnly.TryParseExact s format provider style = Ok None \/
     exists d, DateOnly.TryParseExact s format provider style = Ok (Some d) /\ date_wf d))) /\
  DateOnly.TryParseExactMany s [] provider style = Ok None.
Proof.
  split; [|split].
  - unfold DateOnly.TryParse. destruct (Scanner.takeDate _) as [[[[y m] d] t]|]; [|by left].
    destruct (negb _); [by left|]. destruct (_ || (d >? 31)); [by left|].
    destruct (caught_of_ymd y m d) as [[Hd ->]|[_ ->]]; [right; by eexists | by left].
  - destruct (TryParseExact_sound s format provider style) as [(e & Hv & He)|[Hv H]].
    + left. exists e. split; [done|]. split; [done|].
      unfold DateOnly.TryParseExactMany, Exact.MatchFirstOfManyFormats.
      destruct s as [|c s]; [done|]. destruct format as [|f format]; [done|].
      cbn [length Nat.eqb orb Exact.first_match]. by rewrite He.
    + by right.
  - done.
Qed.

Lemma DateOnly_day_number_bijection_witness :
  exists d, DateOnly.FromDayNumber 738916 = Ok d /\ DateOnly.getDayNumber d = Ok 738916.
Proof.
  destruct (proj1 DateOnly_day_number_bijection 738916 ltac:(lia)) as (d & H1 & _ & H2).
  exists d. split; [exact H1 | exact H2].
Defined.
