(* ===== verification/TimeOnly.v ===== *)
(** * System::TimeOnly

    [core/src/System/TimeOnly.cpp] and [TimeOnly.hpp]: a time of day as hour,
    minute, second and ticks within the second; its tick count, arithmetic
    modulo a day, intervals, text, and the conversions that join it with
    DateOnly and DateTime.  AddHours and AddMinutes take doubles; the tick
    count their product is cast to is a parameter. *)

From S2P Require Export DateOnly.

Module TimeOnly.

Record TimeOnly := mk { hour_ : Z; minute_ : Z; second_ : Z; subsecondTicks_ : Z }.

Definition TicksPerMs : Z := 10000.
Definition TicksPerSecond : Z := 10000000.
Definition TicksPerMinute : Z := 600000000.
Definition TicksPerHour : Z := 36000000000.
Definition TicksPerDay : Z := 864000000000.

Definition validateHms (hour minute second : Z) : res unit :=
  throw_if ((u32 hour >=? 24) || (u32 minute >=? 60) || (u32 second >=? 60))
    (ArgumentOutOfRangeException EmptyString
       "Hour, Minute, and Second parameters describe an un-representable DateTime.").

(** ** Constructors *)

Definition of_hm (hour minute : Z) : res TimeOnly :=
  _ <- validateHms hour minute 0 ;; Ok (mk hour minute 0 0).

Definition of_hms (hour minute second : Z) : res TimeOnly :=
  _ <- validateHms hour minute second ;; Ok (mk hour minute second 0).

Definition of_hmsm (hour minute second millisecond : Z) : res TimeOnly :=
  _ <- validateHms hour minute second ;;
  _ <- throw_if (u32 millisecond >=? 1000)
         (ArgumentOutOfRangeException "millisecond"
            "Valid values are between 0 and 999, inclusive.") ;;
  t <- smul 32 millisecond TicksPerMs ;;
  Ok (mk hour minute second t).

Definition of_ticks (ticks : Z) : res TimeOnly :=
  _ <- throw_if (u64 ticks >=? u64 TicksPerDay)
         (ArgumentOutOfRangeException "ticks"
            "Ticks must be between 0 and and TimeOnly.MaxValue.Ticks.") ;;
  Ok (mk (i32 (Z.quot ticks TicksPerHour))
         (i32 (Z.rem (Z.quot ticks TicksPerMinute) 60))
         (i32 (Z.rem (Z.quot ticks TicksPerSecond) 60))
         (i32 (Z.rem ticks TicksPerSecond))).

Definition getMinValue : res TimeOnly := of_hmsm 0 0 0 0.
Definition getMaxValue : res TimeOnly := of_ticks (TicksPerDay - 1).

(** ** Properties *)

Definition getHour (this : TimeOnly) : Z := hour_ this.
Definition getMinute (this : TimeOnly) : Z := minute_ this.
Definition getSecond (this : TimeOnly) : Z := second_ this.
Definition getMillisecond (this : TimeOnly) : Z := Z.quot (subsecondTicks_ this) TicksPerMs.
Definition getMicrosecond (this : TimeOnly) : Z := Z.rem (Z.quot (subsecondTicks_ this) 10) 1000.
Definition getNanosecond (this : TimeOnly) : Z := Z.rem (subsecondTicks_ this) 10 * 100.

(** The 64-bit sum cannot overflow on 32-bit fields. *)
Definition getTicks (this : TimeOnly) : Z :=
  hour_ this * TicksPerHour + minute_ this * TicksPerMinute + second_ this * TicksPerSecond
  + subsecondTicks_ this.

(** ** Arithmetic *)

Definition Add (this : TimeOnly) (value : TimeSpan.TimeSpan) : res TimeOnly :=
  let deltaModDay := Z.rem (TimeSpan.getTicks value) TicksPerDay in
  of_ticks (Z.rem (getTicks this + TicksPerDay + deltaModDay) TicksPerDay).

Definition AddTicksWrapped (baseTicks deltaTicks : Z) : res TimeOnly :=
  of_ticks (Z.rem (baseTicks + TicksPerDay + Z.rem deltaTicks TicksPerDay) TicksPerDay).

(** [toTicks] is the cast to [long long] of a [double] product. *)
Definition AddHours {Double : Type} (toTicks : Double -> Z -> Z) (this : TimeOnly) (value : Double)
  : res TimeOnly := AddTicksWrapped (getTicks this) (toTicks value TicksPerHour).
Definition AddMinutes {Double : Type} (toTicks : Double -> Z -> Z) (this : TimeOnly) (value : Double)
  : res TimeOnly := AddTicksWrapped (getTicks this) (toTicks value TicksPerMinute).

(** [t1 - t2]. *)
Definition Subtract (t1 t2 : TimeOnly) : TimeSpan.TimeSpan :=
  let diff := getTicks t1 - getTicks t2 in
  TimeSpan.mk (if diff <? 0 then diff + TicksPerDay else diff).

(** ** Comparison *)

Definition Equals (this value : TimeOnly) : bool := getTicks this =? getTicks value.
Definition CompareTo (this value : TimeOnly) : Z :=
  let a := getTicks this in let b := getTicks value in
  if a <? b then -1 else if a >? b then 1 else 0.
Definition GetHashCode (this : TimeOnly) : Z :=
  let ticks := u64 (getTicks this) in
  Z.lxor (i32 ticks) (i32 (Z.shiftr ticks 32)).
Definition op_eq (a b : TimeOnly) : bool :=
  (hour_ a =? hour_ b) && (minute_ a =? minute_ b) && (second_ a =? second_ b) &&
  (subsecondTicks_ a =? subsecondTicks_ b).
Definition op_lt (a b : TimeOnly) : bool := getTicks a <? getTicks b.
Definition op_le (a b : TimeOnly) : bool := getTicks a <=? getTicks b.

(** Unsigned wrap-around, as in the source. *)
Definition IsBetween (this start end_ : TimeOnly) : bool :=
  let t := u64 (getTicks this) in
  let s := u64 (getTicks start) in
  let e := u64 (getTicks end_) in
  if s <=? e then usub 64 t s <? usub 64 e s else usub 64 t e >=? usub 64 s e.

(** ** Conversion *)

Definition FromTimeSpan (ts : TimeSpan.TimeSpan) : res TimeOnly :=
  let ticks := Z.rem (TimeSpan.getTicks ts) TicksPerDay in
  of_ticks (if ticks <? 0 then ticks + TicksPerDay else ticks).
Definition ToTimeSpan (this : TimeOnly) : TimeSpan.TimeSpan := TimeSpan.mk (getTicks this).
Definition FromDateTime (dt : DateTime.DateTime) : res TimeOnly :=
  of_ticks (Z.rem (DateTime.getTicks dt) TicksPerDay).

(** [DateOnly::ToDateTime(time)]. *)
Definition ToDateTime (date : DateOnly.DateOnly) (time : TimeOnly) : res DateTime.DateTime :=
  d <- DateTime.of_ymd (DateOnly.year_ date) (DateOnly.month_ date) (DateOnly.day_ date) ;;
  DateTime.AddTicks d (getTicks time).

(** ** Text *)

Definition ToString (this : TimeOnly) : text :=
  setw0 2 (to_string (hour_ this)) ++ ":"%char :: setw0 2 (to_string (minute_ this)) ++
  ":"%char :: setw0 2 (to_string (second_ this)).
Definition ToShortTimeString (this : TimeOnly) : text := ToString this.
Definition ToLongTimeString (this : TimeOnly) : text :=
  ToString this ++ "."%char :: setw0 3 (to_string (getMillisecond this)).

Definition format_token (this : TimeOnly) (c : ascii) (rest : text) : text * text :=
  let '(n, after) := Exact.runLength c rest in
  let two x := if (2 <=? n)%nat then DateTimeText.pad x 2 else to_string x in
  if Ascii.eqb c "H" then (two (hour_ this), after)
  else if Ascii.eqb c "h" then
    let h12 := Z.rem (hour_ this) 12 in
    let h12 := if h12 =? 0 then 12 else h12 in (two h12, after)
  else if Ascii.eqb c "m" then (two (minute_ this), after)
  else if Ascii.eqb c "s" then (two (second_ this), after)
  else if Ascii.eqb c "f" then
    let fraction := DateTimeText.pad (subsecondTicks_ this) 7 in
    let width := if (n <=? 7)%nat then n else 3%nat in
    (firstn width fraction, after)
  else if Ascii.eqb c "'" then
    match Exact.until "'" rest with Some (q, rest) => (q, rest) | None => (rest, []) end
  else ([c], rest).

Fixpoint format_loop (fuel : nat) (this : TimeOnly) (result format : text) : res text :=
  match fuel with
  | O => UB
  | S fuel =>
      match format with
      | [] => Ok result
      | c :: rest =>
          let '(s, format) := format_token this c rest in
          format_loop fuel this (result ++ s) format
      end
  end.

Definition ToStringFormat (this : TimeOnly) (format : text) : res text :=
  format_loop (S (length format)) this [] format.

(** TryParse: [None] is [return fail()], which assigns MinValue. *)
Definition TryParse (s : text) : option TimeOnly :=
  match Scanner.takeClock (Scanner.trimDateTimeText s) with
  | None => None
  | Some (h, m, sc, t) =>
      match Scanner.takeFraction t with
      | None => None
      | Some (fractionTicks, t) =>
          if negb (Scanner.atEnd t) then None
          else if (h <? 0) || (h >? 23) || (m <? 0) || (m >? 59) || (sc <? 0) || (sc >? 59)
          then None
          else Some (mk h m sc fractionTicks)
      end
  end.

Definition not_recognized (s : text) : exn := FormatException
  (String.append "String was not recognized as a valid TimeOnly: " (String.string_of_list_ascii s)).

Definition Parse (s : text) : res TimeOnly :=
  match TryParse s with Some t => Ok t | None => Throw (not_recognized s) end.

(** The 12-hour rule; [None] is [return false]. *)
Definition hour_of (f : Exact.ExactDateTimeFields) : option Z :=
  if Exact.twelveHour f && (Exact.amPm f <? 0) then None
  else if negb (Exact.twelveHour f) && (0 <=? Exact.amPm f) then None
  else
    let hour := Exact.hour f in
    if Exact.twelveHour f then
      if (hour <? 1) || (hour >? 12) then None
      else Some (if Exact.amPm f =? 1 then (if hour =? 12 then 12 else hour + 12)
                 else if hour =? 12 then 0 else hour)
    else if hour >? 23 then None else Some hour.

Definition time_of_fields (f : Exact.ExactDateTimeFields) : res (option TimeOnly) :=
  if (Exact.hour f <? 0) || (Exact.minute f <? 0) then Ok None
  else
    let second := if Exact.second f <? 0 then 0 else Exact.second f in
    match hour_of f with
    | None => Ok None
    | Some hour =>
        if (Exact.minute f >? 59) || (second >? 59) then Ok None
        else caught (of_ticks (hour * TimeSpan.TicksPerHour +
               Exact.minute f * TimeSpan.TicksPerMinute +
               second * TimeSpan.TicksPerSecond + Exact.fractionTicks f))
    end.

Definition TryParseExact (input format : text) (provider : option IFormatProvider) (style : Z)
  : res (option TimeOnly) :=
  _ <- Exact.ValidateDateTimeOnlyStyles style ;;
  let options := Exact.ResolveExactParseOptions provider style in
  match DateOnly.pattern_of false format with
  | None => Ok None
  | Some pattern =>
      match Exact.MatchExactFormat input pattern Exact.Time options with
      | None => Ok None
      | Some fields => time_of_fields fields
      end
  end.

Definition ParseExact (input format : text) (provider : option IFormatProvider) (style : Z)
  : res TimeOnly :=
  or_throw (TryParseExact input format provider style) (not_recognized input).

Definition TryParseExactMany (input : text) (formats : list text)
    (provider : option IFormatProvider) (style : Z) : res (option TimeOnly) :=
  outcome <- Exact.MatchFirstOfManyFormats input formats
    (fun format => TryParseExact input format provider style) ;;
  match outcome with Exact.Matched d => Ok (Some d) | _ => Ok None end.

Definition ParseExactMany (input : text) (formats : list text)
    (provider : option IFormatProvider) (style : Z) : res TimeOnly :=
  outcome <- Exact.MatchFirstOfManyFormats input formats
    (fun format => TryParseExact input format provider style) ;;
  match outcome with
  | Exact.Matched d => Ok d
  | Exact.NoFormatSpecifier => Throw (FormatException "No format specifiers were provided.")
  | Exact.NotRecognized => Throw (not_recognized input)
  end.

End TimeOnly.

(** ** Ticks *)

Definition time_wf (t : TimeOnly.TimeOnly) : Prop :=
  0 <= TimeOnly.hour_ t < 24 /\ 0 <= TimeOnly.minute_ t < 60 /\ 0 <= TimeOnly.second_ t < 60 /\
  0 <= TimeOnly.subsecondTicks_ t < 10000000.

(** Ticks of a day. *)
Definition in_day (t : Z) : Prop := 0 <= t < 864000000000.

Ltac unfold_ticks := unfold TimeOnly.getTicks, TimeOnly.TicksPerHour, TimeOnly.TicksPerMinute,
  TimeOnly.TicksPerSecond, TimeOnly.TicksPerDay in *.

Lemma getTicks_in_day t : time_wf t -> in_day (TimeOnly.getTicks t).
Proof. unfold time_wf, in_day. unfold_ticks. lia. Qed.

Lemma getTicks_inj a b : time_wf a -> time_wf b ->
  TimeOnly.getTicks a = TimeOnly.getTicks b -> a = b.
Proof.
  destruct a, b. unfold time_wf. unfold_ticks. cbn. intros Ha Hb E. f_equal; lia.
Qed.

(** The fields of a tick count within the day. *)
Lemma day_fields t : in_day t ->
  let x := TimeOnly.mk (i32 (Z.quot t 36000000000)) (i32 (Z.rem (Z.quot t 600000000) 60))
             (i32 (Z.rem (Z.quot t 10000000) 60)) (i32 (Z.rem t 10000000)) in
  time_wf x /\ TimeOnly.getTicks x = t.
Proof.
  unfold in_day, time_wf. unfold_ticks. cbn. intros Ht. unfold i32.
  rewrite !wraps_id by (lia || (eval_pow; zlia)). zlia.
Qed.

Lemma of_ticks_in t : in_day t ->
  exists x, TimeOnly.of_ticks t = Ok x /\ time_wf x /\ TimeOnly.getTicks x = t.
Proof.
  intros Ht. destruct (day_fields t Ht) as [Hw Hx]. eexists. split; [|split; [exact Hw | exact Hx]].
  unfold TimeOnly.of_ticks, TimeOnly.TicksPerDay. unfold in_day in Ht. unfold u64.
  rewrite !wrapu_id by (eval_pow; lia). decide_cmp. reflexivity.
Qed.

Lemma of_ticks_out t : in_s 64 t -> ~ in_day t -> exists msg,
  TimeOnly.of_ticks t = Throw (ArgumentOutOfRangeException "ticks" msg).
Proof.
  intros Ht Hout. unfold TimeOnly.of_ticks, TimeOnly.TicksPerDay.
  replace (u64 t >=? u64 864000000000) with true; [by eexists|]. symmetry.
  rewrite Z.geb_leb. apply Z.leb_le. change (u64 864000000000) with 864000000000.
  unfold in_day in Hout. unfold in_s in Ht. cbn in Ht. unfold u64.
  destruct (Z.le_gt_cases 0 t).
  - rewrite wrapu_id by (eval_pow; lia). lia.
  - zlia.
Qed.

Lemma of_ticks_getTicks x : time_wf x -> TimeOnly.of_ticks (TimeOnly.getTicks x) = Ok x.
Proof.
  intros Hx. destruct (of_ticks_in _ (getTicks_in_day x Hx)) as (y & -> & Hy & E).
  f_equal. by apply getTicks_inj.
Qed.

(** A result that is the wrapped sum of ticks. *)
Lemma wrapped_sum t delta : in_day t -> in_s 64 delta ->
  Z.rem (t + 864000000000 + Z.rem delta 864000000000) 864000000000
  = (t + delta) mod 864000000000.
Proof. unfold in_day. intros Ht _. zlia. Qed.

Lemma Add_spec x ts : time_wf x -> in_s 64 (TimeSpan.getTicks ts) ->
  exists y, TimeOnly.Add x ts = Ok y /\ time_wf y /\
    TimeOnly.getTicks y = (TimeOnly.getTicks x + TimeSpan.getTicks ts) mod 864000000000.
Proof.
  intros Hx Hts. unfold TimeOnly.Add, TimeOnly.TicksPerDay.
  rewrite wrapped_sum by (done || by apply getTicks_in_day).
  apply of_ticks_in. unfold in_day. apply Z.mod_pos_bound. lia.
Qed.

Lemma u64_in_day t : in_day t -> u64 t = t.
Proof. unfold in_day. intros. unfold u64. apply wrapu_id. eval_pow. lia. Qed.

Lemma usub_cases a b : in_day a -> in_day b ->
  usub 64 a b = if b <=? a then a - b else a - b + 2 ^ 64.
Proof.
  unfold in_day, usub. intros. split_if; unfold wrapu.
  - apply Z.mod_small. eval_pow. lia.
  - symmetry. apply Z.mod_unique with (-1); eval_pow; lia.
Qed.

(** a TimeOnly and its tick count determine each other and every result
    stays a time of day: the tick constructor accepts exactly 0 to one day;
    Add moves the clock by the span modulo a day, subtraction is the time from
    the second operand forward to the first, so adding it back restores the
    first; FromTimeSpan reduces modulo a day; IsBetween holds exactly on the
    half-open interval, across midnight when the start is later than the
    end. *)
Theorem TimeOnly_arithmetic x y z ts (Hx : time_wf x) (Hy : time_wf y) (Hz : time_wf z)
  (Hts : in_s 64 (TimeSpan.getTicks ts)) :
  (forall t, in_s 64 t -> if (0 <=? t) && (t <? 864000000000)
     then exists w, TimeOnly.of_ticks t = Ok w /\ time_wf w /\ TimeOnly.getTicks w = t
     else exists msg, TimeOnly.of_ticks t = Throw (ArgumentOutOfRangeException "ticks" msg)) /\
  TimeOnly.of_ticks (TimeOnly.getTicks x) = Ok x /\
  (exists w, TimeOnly.Add x ts = Ok w /\ time_wf w /\
     TimeOnly.getTicks w = (TimeOnly.getTicks x + TimeSpan.getTicks ts) mod 864000000000) /\
  (TimeSpan.getTicks (TimeOnly.Subtract x y)
     = (TimeOnly.getTicks x - TimeOnly.getTicks y) mod 864000000000 /\
   TimeOnly.Add y (TimeOnly.Subtract x y) = Ok x) /\
  (exists w, TimeOnly.FromTimeSpan ts = Ok w /\ time_wf w /\
     TimeOnly.getTicks w = TimeSpan.getTicks ts mod 864000000000) /\
  (let t := TimeOnly.getTicks x in let s := TimeOnly.getTicks y in let e := TimeOnly.getTicks z in
   TimeOnly.IsBetween x y z = true <-> (if s <=? e then s <= t < e else s <= t \/ t < e)) /\
  (TimeOnly.op_eq x y = true <-> x = y) /\ (TimeOnly.Equals x y = true <-> x = y) /\
  TimeOnly.CompareTo x y = Z.sgn (TimeOnly.getTicks x - TimeOnly.getTicks y).
Proof.
  pose proof (getTicks_in_day x Hx) as Dx. pose proof (getTicks_in_day y Hy) as Dy.
  pose proof (getTicks_in_day z Hz) as Dz.
  assert (Hsub : TimeSpan.getTicks (TimeOnly.Subtract x y)
                 = (TimeOnly.getTicks x - TimeOnly.getTicks y) mod 864000000000).
  { unfold TimeOnly.Subtract, TimeOnly.TicksPerDay, TimeSpan.getTicks; cbn.
    unfold in_day in *. split_if; zlia. }
  split_and!.
  - intros t Ht. destruct (andb _ _) eqn:E.
    + apply of_ticks_in. unfold in_day. bool_to_prop. lia.
    + apply of_ticks_out; [done|]. unfold in_day. bool_to_prop; lia.
  - by apply of_ticks_getTicks.
  - by apply Add_spec.
  - done.
  - destruct (Add_spec y (TimeOnly.Subtract x y) Hy) as (w & -> & Hw & E).
    { rewrite Hsub. pose proof (Z.mod_pos_bound (TimeOnly.getTicks x - TimeOnly.getTicks y)
        864000000000 ltac:(lia)). eval_pow. lia. }
    f_equal. apply getTicks_inj; [done..|]. rewrite E, Hsub. unfold in_day in *. clear -Dx Dy. zlia.
  - unfold TimeOnly.FromTimeSpan, TimeOnly.TicksPerDay.
    replace (if _ <? 0 then _ else _) with (TimeSpan.getTicks ts mod 864000000000).
    + apply of_ticks_in. unfold in_day. apply Z.mod_pos_bound. lia.
    + clear. split_if; zlia.
  - cbv zeta. unfold TimeOnly.IsBetween. rewrite !u64_in_day by done.
    unfold in_day in *. destruct (Z.leb_spec (TimeOnly.getTicks y) (TimeOnly.getTicks z));
      rewrite !usub_cases by (unfold in_day; lia).
    + rewrite Z.ltb_lt. split_if; split_if; eval_pow; lia.
    + rewrite Z.geb_leb, Z.leb_le. split_if; split_if; eval_pow; lia.
  - unfold TimeOnly.op_eq. rewrite !andb_true_iff, !Z.eqb_eq. destruct x, y; cbn.
    split; [intros [[[? ?] ?] ?]; congruence | intros [=]; auto].
  - unfold TimeOnly.Equals. rewrite Z.eqb_eq. split; [by apply getTicks_inj | congruence].
  - unfold TimeOnly.CompareTo. rewrite Z.gtb_ltb.
    destruct (Z.ltb_spec (TimeOnly.getTicks x) (TimeOnly.getTicks y)); [lia|].
    destruct (Z.ltb_spec (TimeOnly.getTicks y) (TimeOnly.getTicks x)); lia.
Qed.

Definition late : TimeOnly.TimeOnly := TimeOnly.mk 22 30 0 0.
Definition early : TimeOnly.TimeOnly := TimeOnly.mk 1 15 0 5.

Lemma TimeOnly_arithmetic_witness :
  TimeOnly.IsBetween early late (TimeOnly.mk 6 0 0 0) = true /\
  TimeOnly.Add late (TimeOnly.Subtract early late) = Ok early.
Proof.
  pose proof (TimeOnly_arithmetic early late (TimeOnly.mk 6 0 0 0) (TimeSpan.mk 0)) as H.
  unfold time_wf in H. specialize (H ltac:(cbn; lia) ltac:(cbn; lia) ltac:(cbn; lia) ltac:(by split)).
  destruct H as (_ & _ & _ & (_ & H1) & _ & H2 & _). split; [|exact H1].
  apply H2. cbv. right. reflexivity.
Defined.

(** ** Text *)

Section TimeText.
Context (x : TimeOnly.TimeOnly) (Hx : time_wf x).

#[local] Abbreviation h := (TimeOnly.hour_ x).
#[local] Abbreviation mi := (TimeOnly.minute_ x).
#[local] Abbreviation s := (TimeOnly.second_ x).
#[local] Abbreviation f := (TimeOnly.subsecondTicks_ x).

Lemma clock_valid : valid_time h mi s 0.
Proof. unfold time_wf, valid_time in *. lia. Qed.

Lemma TimeOnly_printed_long :
  TimeOnly.ToStringFormat x (str "HH:mm:ss.fffffff")
    = Ok (clock_text h mi s ++ "."%char :: DateTimeText.pad f 7).
Proof.
  unfold TimeOnly.ToStringFormat. cbn -[DateTimeText.pad firstn].
  rewrite firstn_pad by (unfold time_wf in Hx; cbn; lia).
  unfold clock_text. f_equal. rewrite <- !app_assoc. cbn [app]. by rewrite <- !app_assoc.
Qed.

Lemma TimeOnly_ToString_text : TimeOnly.ToString x = clock_text h mi s.
Proof. reflexivity. Qed.

(** A text that starts with the clock and ends with digits is not trimmed. *)
Lemma clock_trim mid b : all_digits b -> b <> [] ->
  Scanner.trimDateTimeText (clock_text h mi s ++ mid ++ b) = clock_text h mi s ++ mid ++ b.
Proof.
  intros Hb Hb0. destruct clock_valid as (Hh & _).
  destruct (pad_run 2 h) as (Hd & Hne & _); [lia|lia|cbn;lia|].
  set (m2 := ":"%char :: DateTimeText.pad mi 2 ++ ":"%char :: DateTimeText.pad s 2).
  assert (E : clock_text h mi s ++ mid ++ b = DateTimeText.pad h 2 ++ (m2 ++ mid) ++ b)
    by (unfold clock_text; fold m2; by rewrite <- !app_assoc).
  rewrite E. by apply trim_digits_ends.
Qed.

Lemma clock_trim_seconds : Scanner.trimDateTimeText (clock_text h mi s) = clock_text h mi s.
Proof.
  destruct clock_valid as (Hh & Hmi & Hs & _).
  destruct (pad_run 2 h) as (Hd & Hne & _); [lia|lia|cbn;lia|].
  destruct (pad_run 2 s) as (Hd2 & Hne2 & _); [lia|lia|cbn;lia|].
  assert (E : clock_text h mi s = DateTimeText.pad h 2 ++
    (":"%char :: DateTimeText.pad mi 2 ++ [":"%char]) ++ DateTimeText.pad s 2).
  { unfold clock_text. cbn [app]. by rewrite <- app_assoc. }
  rewrite E. by apply trim_digits_ends.
Qed.

Lemma TimeOnly_parse_long :
  TimeOnly.TryParse (clock_text h mi s ++ "."%char :: DateTimeText.pad f 7) = Some x.
Proof.
  pose proof Hx as (Hh & Hmi & Hs & Hf). unfold TimeOnly.TryParse.
  destruct (pad_run 7 f) as (Hd & Hne & _); [lia|lia|cbn;lia|].
  pose proof (clock_trim ["."%char] (DateTimeText.pad f 7) Hd Hne) as Htrim. cbn [app] in Htrim.
  rewrite Htrim, takeClock_printed by apply clock_valid.
  rewrite takeFraction_printed by lia. cbn [Scanner.atEnd negb]. decide_cmp. by destruct x.
Qed.

Lemma TimeOnly_parse_short :
  TimeOnly.TryParse (TimeOnly.ToString x) = Some (TimeOnly.mk h mi s 0).
Proof.
  pose proof Hx as (Hh & Hmi & Hs & Hf). rewrite TimeOnly_ToString_text.
  unfold TimeOnly.TryParse. rewrite clock_trim_seconds.
  rewrite <- (app_nil_r (clock_text h mi s)), takeClock_printed by apply clock_valid.
  cbn [Scanner.takeFraction Scanner.take Scanner.atEnd negb]. by decide_cmp.
Qed.
End TimeText.

(** the text of a time: the format [HH:mm:ss.fffffff] is read back as the
    same time, and ToString() as the time truncated to whole seconds; whatever
    text TryParse accepts is a time of day, and what it rejects makes Parse
    throw FormatException. *)
Theorem TimeOnly_text_roundtrip x s (Hx : time_wf x) :
  (exists t, TimeOnly.ToStringFormat x (str "HH:mm:ss.fffffff") = Ok t /\
     TimeOnly.TryParse t = Some x /\ TimeOnly.Parse t = Ok x) /\
  TimeOnly.Parse (TimeOnly.ToString x)
    = TimeOnly.of_hms (TimeOnly.hour_ x) (TimeOnly.minute_ x) (TimeOnly.second_ x) /\
  (TimeOnly.Parse s = Throw (TimeOnly.not_recognized s) \/
   exists y, TimeOnly.Parse s = Ok y /\ time_wf y).
Proof.
  split; [|split].
  - eexists. split; [by apply TimeOnly_printed_long|]. unfold TimeOnly.Parse.
    by rewrite TimeOnly_parse_long.
  - unfold TimeOnly.Parse. rewrite TimeOnly_parse_short by done.
    unfold TimeOnly.of_hms, TimeOnly.validateHms. destruct Hx as (Hh & Hmi & Hs & _).
    unfold u32. rewrite !wrapu_id by (eval_pow; lia). by decide_cmp.
  - unfold TimeOnly.Parse, TimeOnly.TryParse.
    destruct (Scanner.takeClock _) as [[[[h mi] sc] t]|] eqn:Ec; [|by left].
    destruct (Scanner.takeFraction t) as [[f t']|] eqn:Ef; [|by left].
    apply takeFraction_bounds in Ef. destruct (negb _); [by left|].
    split_if; try (by left). right. eexists. split; [done|]. unfold time_wf; cbn. lia.
Qed.

Lemma TimeOnly_text_roundtrip_witness :
  TimeOnly.Parse (TimeOnly.ToString early) = Ok (TimeOnly.mk 1 15 0 0).
Proof.
  refine (eq_trans (proj1 (proj2 (TimeOnly_text_roundtrip early [] _))) _).
  - unfold time_wf; cbn; lia.
  - vm_compute. reflexivity.
Defined.

(** ** Splitting and joining *)

Lemma join_spec d t : date_wf d -> time_wf t ->
  exists w, TimeOnly.ToDateTime d t = Ok w /\ dt_wf w /\ raw_kind w = 0 /\
    DateTime.ticks w = number d * 864000000000 + TimeOnly.getTicks t.
Proof.
  intros Hd Ht. unfold TimeOnly.ToDateTime, DateTime.of_ymd, DateTime.of_ymdhms.
  destruct (built_value (DateOnly.year_ d) (DateOnly.month_ d) (DateOnly.day_ d) 0 0 0 0 Hd)
    as (v & -> & Hv & Hvt & Hk); [unfold valid_time; lia|]. rewrite bind_Ok.
  pose proof (getTicks_in_day t Ht) as Hday. pose proof (number_range d Hd) as Hr.
  unfold in_day in Hday. change (time_ticks 0 0 0 0) with 0 in Hvt.
  unfold date_ticks in Hvt. fold (number d) in Hvt.
  rewrite AddTicks_spec by (done || (eval_pow; lia)).
  assert (Hin : in_ticks (DateTime.ticks v + TimeOnly.getTicks t))
    by (rewrite Hvt; unfold in_ticks, DateTime.MaxTicks; lia).
  rewrite advance_Ok, Hk by done. eexists. split; [done|].
  split; [apply packed_wf; [done|lia]|]. rewrite packed_raw, packed_ticks by done.
  split; [done | lia].
Qed.

Lemma split_spec v : dt_wf v -> exists d t, DateOnly.FromDateTime v = Ok d /\
  TimeOnly.FromDateTime v = Ok t /\ date_wf d /\ time_wf t /\
  DateTime.ticks v = number d * 864000000000 + TimeOnly.getTicks t.
Proof.
  intros Hv. destruct (toTm_spec v Hv) as (y & m & d & x & Hd & Hn & Hxx & Htm & _).
  pose proof (dt_wf_ticks v Hv) as Hr. unfold in_ticks in Hr.
  destruct (of_ticks_in (DateTime.ticks v mod 864000000000)) as (t & Ht & Hw & Et).
  { unfold in_day. apply Z.mod_pos_bound. lia. }
  exists (DateOnly.mk y m d), t. split_and!; try done.
  - unfold DateOnly.FromDateTime, DateTime.getYear, DateTime.getMonth, DateTime.getDay.
    rewrite Hxx, !bind_Ok, Htm. cbn [DateTime.tm_year DateTime.tm_mon DateTime.tm_mday].
    replace (y - 1900 + 1900) with y by lia. replace (m - 1 + 1) with m by lia.
    by apply of_ymd_valid.
  - unfold TimeOnly.FromDateTime, TimeOnly.TicksPerDay, DateTime.getTicks.
    by rewrite Z.rem_mod_nonneg by lia.
  - unfold number; cbn. rewrite Hn, Et. rewrite (Z.div_mod (DateTime.ticks v) 864000000000) at 1 by lia.
    lia.
Qed.

(** a DateTime splits into its date and its time of day, and joining the
    two gives back the same instant with kind Unspecified; and any date and
    time join into the instant whose parts they are. *)
Theorem DateTime_split_join :
  (forall v, dt_wf v -> exists d t w, DateOnly.FromDateTime v = Ok d /\
     TimeOnly.FromDateTime v = Ok t /\ date_wf d /\ time_wf t /\
     TimeOnly.ToDateTime d t = Ok w /\ DateTime.getTicks w = DateTime.getTicks v /\
     DateTime.getKind w = DateTime.Unspecified) /\
  (forall d t, date_wf d -> time_wf t -> exists w, TimeOnly.ToDateTime d t = Ok w /\ dt_wf w /\
     DateTime.getTicks w = number d * 864000000000 + TimeOnly.getTicks t /\
     DateOnly.FromDateTime w = Ok d /\ TimeOnly.FromDateTime w = Ok t).
Proof.
  split.
  - intros v Hv. destruct (split_spec v Hv) as (d & t & H1 & H2 & Hd & Ht & E).
    destruct (join_spec d t Hd Ht) as (w & Hw & Hwf & Hk & Ew). exists d, t, w.
    unfold DateTime.getTicks. rewrite getKind_raw, Hk, E by done. done.
  - intros d t Hd Ht. destruct (join_spec d t Hd Ht) as (w & Hw & Hwf & Hk & Ew). exists w.
    destruct (split_spec w Hwf) as (d' & t' & H1 & H2 & Hd' & Ht' & E).
    pose proof (getTicks_in_day t Ht). pose proof (getTicks_in_day t' Ht'). unfold in_day in *.
    assert (number d = number d' /\ TimeOnly.getTicks t = TimeOnly.getTicks t') as [En Et] by lia.
    apply number_inj in En; [|done..]. apply getTicks_inj in Et; [|done..]. subst. done.
Qed.

Lemma DateTime_split_join_witness :
  exists w, TimeOnly.ToDateTime sample_date_only early = Ok w /\
    DateTime.getTicks w = 638422605000000005.
Proof.
  destruct (proj2 DateTime_split_join sample_date_only early sample_date_only_wf)
    as (w & H1 & _ & H2 & _).
  - unfold time_wf; cbn; lia.
  - exists w. split; [exact H1|]. rewrite H2. vm_compute. reflexivity.
Defined.
