(* ===== verification/HashBase.v ===== *)
(** * The hashing component: buffers, validation, base class

    [HashingArgumentValidation.hpp], [HashingByteOrder.hpp] and
    [NonCryptographicHashAlgorithm] of the io-hashing module.  The virtual
    operations of the base class are the type class [HashAlgorithm]; what an
    algorithm promises (its state refines the message absorbed since
    construction or [Reset]) is the type class [HashContract], against which
    the base class's own operations are proved, and which every algorithm file
    implements. *)

From S2P Require Export MachineInt.

Module HashBase.

(** A raw [bytecs*] argument: null, or the bytes from the pointer to the end
    of the array it points into. *)
Definition pointer := option (list Z).

Definition byte_list (l : list Z) : Prop := Forall (in_u 8) l.

Abbreviation zlen l := (Z.of_nat (length l)).

Definition is_null (p : pointer) : bool := match p with None => true | Some _ => false end.

(** Reading [n] bytes through a pointer: undefined past the end of the array
    or through null. *)
Definition read_span (p : pointer) (n : Z) : res (list Z) :=
  if n =? 0 then Ok []
  else match p with
       | Some m => if n <=? zlen m then Ok (take (Z.to_nat n) m) else UB
       | None => UB
       end.

(** Writing bytes through a pointer. *)
Definition write_span (p : pointer) (bytes : list Z) : res pointer :=
  match p with
  | Some m => if zlen bytes <=? zlen m
              then Ok (Some (bytes ++ drop (length bytes) m)) else UB
  | None => UB
  end.

(** ** HashingArgumentValidation *)

Definition ThrowNegativeLength : exn :=
  ArgumentOutOfRangeException "length" "Non-negative number required.".
Definition ThrowNullSource : exn :=
  ArgumentNullException "source" "Value cannot be null.".
Definition ThrowNullDestination : exn :=
  ArgumentNullException "destination" "Value cannot be null.".
Definition ThrowDestinationTooShort : exn :=
  ArgumentException "Destination is too short." "destination".

Definition ValidateLength (length : Z) : res unit :=
  throw_if (length <? 0) ThrowNegativeLength.

Definition ValidateSource (source : pointer) (length : Z) : res unit :=
  _ <- ValidateLength length ;;
  throw_if ((0 <? length) && is_null source) ThrowNullSource.

Definition ValidateDestination (destination : pointer) (destinationLength requiredLength : Z)
  : res unit :=
  _ <- throw_if (destinationLength <? requiredLength) ThrowDestinationTooShort ;;
  throw_if (is_null destination) ThrowNullDestination.

Definition TryValidateDestination (destination : pointer)
    (destinationLength requiredLength : Z) : res bool :=
  if destinationLength <? requiredLength then Ok false
  else _ <- throw_if (is_null destination) ThrowNullDestination ;; Ok true.

Definition ValidateNonNullDestination (destination : pointer) : res unit :=
  throw_if (is_null destination) ThrowNullDestination.

(** ** HashingByteOrder *)

(** [source[i]] of a lane already known to be long enough ([0] is never read
    in the modelled code: every lane is taken from a complete block). *)
Definition at_ (source : list Z) (i : nat) : Z := nth i source 0.

Definition ReadUInt32LittleEndian (source : list Z) : Z :=
  Z.lor (Z.lor (Z.lor (at_ source 0) (ushl 32 (at_ source 1) 8))
               (ushl 32 (at_ source 2) 16))
        (ushl 32 (at_ source 3) 24).

Definition ReadUInt64LittleEndian (source : list Z) : Z :=
  Z.lor (ReadUInt32LittleEndian source)
        (ushl 64 (ReadUInt32LittleEndian (drop 4 source)) 32).

(** [for (i = 0; i < n; ++i) destination[i] = (bytecs)(value >> (8 * i))]: the
    bytes written. *)
Definition little_endian (n : nat) (value : Z) : list Z :=
  (fun i => u8 (Z.shiftr value (8 * Z.of_nat i))) <$> seq 0 n.

(** [destination[i] = (bytecs)(value >> (8 * (n - 1) - 8 * i))]. *)
Definition big_endian (n : nat) (value : Z) : list Z :=
  (fun i => u8 (Z.shiftr value (8 * (Z.of_nat n - 1) - 8 * Z.of_nat i))) <$> seq 0 n.

Definition WriteUInt64LittleEndian (destination : pointer) (value : Z) : res pointer :=
  write_span destination (little_endian 8 value).

(** ** The virtual operations of the base class *)

Class HashAlgorithm (S : Type) := {
  hashLengthInBytes_ : Z;
  virtual_Append : S -> pointer -> Z -> res S;
  virtual_Reset : S -> S;
  virtual_GetCurrentHashCore : S -> pointer -> res pointer;
  virtual_GetHashAndResetCore : S -> pointer -> res (S * pointer)
}.

(** The base-class constructor's check. *)
Definition NonCryptographicHashAlgorithm (hashLengthInBytes : Z) : res Z :=
  _ <- throw_if (hashLengthInBytes <? 1)
         (ArgumentOutOfRangeException "hashLengthInBytes"
            "Specified argument was out of the range of valid values.") ;;
  Ok hashLengthInBytes.

(** An abstract [System::IO::Stream]: [Read] fills the buffer and returns the
    number of bytes read, or throws. *)
Class Stream (T : Type) := {
  Read : T -> list Z -> Z -> Z -> T * res (list Z * Z)
}.

Section Operations.
Context {S : Type} `{HashAlgorithm S}.
Implicit Type s : S.

(** The base class's [GetHashAndResetCore], used unless overridden. *)
Definition GetHashAndResetCore s (destination : pointer) : res (S * pointer) :=
  d <- virtual_GetCurrentHashCore s destination ;;
  Ok (virtual_Reset s, d).

(** [Append(const std::vector<bytecs>&)]: the size is narrowed to [intcs]. *)
Definition Append_vector s (source : list Z) : res S :=
  virtual_Append s (Some source) (i32 (zlen source)).

(** [Append(Stream&)]: the state of the hash and of the stream after the
    loop, and whether it ended or threw; [None] when [fuel] reads were not
    enough. *)
Fixpoint Append_stream `{Stream T} (fuel : nat) s (stream : T) (buffer : list Z)
  : option (S * T * res unit) :=
  match fuel with
  | O => None
  | Datatypes.S fuel =>
      match Read stream buffer 0 65536 with
      | (stream, Ok (buffer, n)) =>
          if 0 <? n then
            match virtual_Append s (Some buffer) n with
            | Ok s => Append_stream fuel s stream buffer
            | Throw e => Some (s, stream, Throw e)
            | UB => Some (s, stream, UB)
            end
          else Some (s, stream, Ok tt)
      | (stream, Throw e) => Some (s, stream, Throw e)
      | (stream, UB) => Some (s, stream, UB)
      end
  end.

(** [std::vector<bytecs> ret(hashLengthInBytes_)]. *)
Definition new_vector (n : Z) : list Z := replicate (Z.to_nat n) 0.

Definition vector_of (r : res pointer) : res (list Z) :=
  d <- r ;; match d with Some l => Ok l | None => UB end.

Definition GetCurrentHash s : res (list Z) :=
  vector_of (virtual_GetCurrentHashCore s (Some (new_vector hashLengthInBytes_))).

(** Returned value, [bytesWritten] and the destination afterwards. *)
Definition TryGetCurrentHash s (destination : pointer) (destinationLength : Z)
  : res (bool * Z * pointer) :=
  b <- TryValidateDestination destination destinationLength hashLengthInBytes_ ;;
  if negb b then Ok (false, 0, destination)
  else d <- virtual_GetCurrentHashCore s destination ;;
       Ok (true, hashLengthInBytes_, d).

Definition GetCurrentHash_to s (destination : pointer) (destinationLength : Z)
  : res (Z * pointer) :=
  _ <- ValidateDestination destination destinationLength hashLengthInBytes_ ;;
  d <- virtual_GetCurrentHashCore s destination ;;
  Ok (hashLengthInBytes_, d).

Definition GetHashAndReset s : res (S * list Z) :=
  r <- virtual_GetHashAndResetCore s (Some (new_vector hashLengthInBytes_)) ;;
  v <- vector_of (Ok (snd r)) ;;
  Ok (fst r, v).

Definition TryGetHashAndReset s (destination : pointer) (destinationLength : Z)
  : res (S * (bool * Z * pointer)) :=
  b <- TryValidateDestination destination destinationLength hashLengthInBytes_ ;;
  if negb b then Ok (s, (false, 0, destination))
  else r <- virtual_GetHashAndResetCore s destination ;;
       Ok (fst r, (true, hashLengthInBytes_, snd r)).

Definition GetHashAndReset_to s (destination : pointer) (destinationLength : Z)
  : res (S * (Z * pointer)) :=
  _ <- ValidateDestination destination destinationLength hashLengthInBytes_ ;;
  r <- virtual_GetHashAndResetCore s destination ;;
  Ok (fst r, (hashLengthInBytes_, snd r)).
End Operations.

(** ** The contract of an algorithm

    [refines s c m]: the object state [s], configured by [c], has absorbed the
    bytes [m] since construction or [Reset]; [H c m] is the hash of [m].  The
    class states what the base class and the callers rely on. *)
Class HashContract (S C : Type) `{HashAlgorithm S}
    (refines : S -> C -> list Z -> Prop) (H : C -> list Z -> list Z) := {
  hc_length : 1 <= hashLengthInBytes_;
  hc_digest_length : forall s c m, refines s c m -> zlen (H c m) = hashLengthInBytes_;
  hc_append : forall s c m b rest, refines s c m -> byte_list b ->
    zlen b <= INTCS_MAX -> zlen m + zlen b < 2 ^ 64 ->
    exists s', virtual_Append s (Some (b ++ rest)) (zlen b) = Ok s' /\ refines s' c (m ++ b);
  hc_append_empty : forall s c m p, refines s c m -> virtual_Append s p 0 = Ok s;
  hc_append_invalid : forall s p n e,
    ValidateSource p n = Throw e -> virtual_Append s p n = Throw e;
  hc_reset : forall s c m, refines s c m -> refines (virtual_Reset s) c [];
  hc_core : forall s c m d, refines s c m ->
    virtual_GetCurrentHashCore s (Some d) = write_span (Some d) (H c m);
  hc_reset_core : forall s c m d, refines s c m ->
    virtual_GetHashAndResetCore s (Some d)
    = (r <- write_span (Some d) (H c m) ;; Ok (virtual_Reset s, r))
}.

(** ** Lemmas on buffers *)

Lemma read_span_prefix b rest : read_span (Some (b ++ rest)) (zlen b) = Ok b.
Proof.
  unfold read_span. destruct b as [|x b]; [done|].
  rewrite length_app. decide_cmp. by rewrite Nat2Z.id, take_app_length.
Qed.

Lemma read_span_nil p : read_span p 0 = Ok [].
Proof. done. Qed.

Lemma ValidateSource_prefix b rest : ValidateSource (Some (b ++ rest)) (zlen b) = Ok tt.
Proof. unfold ValidateSource, ValidateLength. decide_cmp. by rewrite andb_false_r. Qed.

Lemma ValidateSource_empty p : ValidateSource p 0 = Ok tt.
Proof. done. Qed.

(** A validated source is readable. *)
Lemma ValidateSource_Ok p n : ValidateSource p n = Ok tt ->
  0 <= n /\ (n = 0 \/ exists m, p = Some m).
Proof.
  unfold ValidateSource, ValidateLength. intros H. invert_ok H.
  apply throw_if_Ok in H. bool_to_prop; [lia|].
  split; [lia|]. destruct p as [m|]; [right; eauto | done].
Qed.

Lemma write_span_Some d bytes : zlen bytes <= zlen d ->
  write_span (Some d) bytes = Ok (Some (bytes ++ drop (length bytes) d)).
Proof. intros. unfold write_span. by decide_cmp. Qed.

(** A vector of exactly the hash length receives the whole hash. *)
Lemma vector_of_write bytes n : zlen bytes = n ->
  vector_of (write_span (Some (new_vector n)) bytes) = Ok bytes.
Proof.
  intros <-. unfold new_vector. rewrite Nat2Z.id, write_span_Some.
  - cbn. by rewrite drop_ge, app_nil_r by (rewrite length_replicate; lia).
  - rewrite length_replicate. lia.
Qed.

Lemma length_little_endian n v : length (little_endian n v) = n.
Proof. unfold little_endian. by rewrite length_fmap, length_seq. Qed.

Lemma length_big_endian n v : length (big_endian n v) = n.
Proof. unfold big_endian. by rewrite length_fmap, length_seq. Qed.

End HashBase.
Export HashBase.
