(* ===== verification/Adler32.v ===== *)
(** * Adler-32

    [System::IO::Hashing::Adler32]: the blocked checksum loop with its
    deferred reductions on 32-bit unsigned sums, the object's operations and
    the one-shot doors; the loop computes the checksum of RFC 1950, whose sums
    are reduced after every byte. *)

From S2P Require Export HashBase.

Module Adler32.

Definition ModBase : Z := 65521.
Definition NMax : Z := 5552.

(** One iteration of the inner loop. *)
Definition accumulate (s : Z * Z) (x : Z) : Z * Z :=
  let s1 := u32 (fst s + x) in
  let s2 := u32 (snd s + s1) in
  (s1, s2).

(** [while (length > 0)]: [source] is what is left to read. *)
Fixpoint blocks (fuel : nat) (s1 s2 : Z) (source : list Z) : res (Z * Z) :=
  if 0 <? zlen source then
    match fuel with
    | O => UB
    | S fuel =>
        let k := if zlen source <? NMax then zlen source else NMax in
        let '(s1, s2) := fold_left accumulate (take (Z.to_nat k) source) (s1, s2) in
        blocks fuel (s1 mod ModBase) (s2 mod ModBase) (drop (Z.to_nat k) source)
    end
  else Ok (s1, s2).

Definition Update (adler : Z) (source : pointer) (length : Z) : res Z :=
  _ <- ValidateSource source length ;;
  if length =? 0 then Ok adler
  else
    bytes <- read_span source length ;;
    let s1 := Z.land adler 65535 in
    let s2 := Z.land (Z.shiftr adler 16) 65535 in
    s <- blocks (Z.to_nat length) s1 s2 bytes ;;
    Ok (Z.lor (ushl 32 (snd s) 16) (fst s)).

Definition WriteUInt32BigEndian (value : Z) (destination : pointer) : res pointer :=
  write_span destination
    [u8 (Z.shiftr value 24); u8 (Z.shiftr value 16); u8 (Z.shiftr value 8); u8 value].

(** ** The object: [adler_] *)

Record Adler32 := mk { adler_ : Z }.

Definition Size : Z := 4.
Definition InitialState : Z := 1.
Definition new : Adler32 := mk InitialState.
Definition Clone (a : Adler32) : Adler32 := mk (adler_ a).

Definition Append (a : Adler32) (source : pointer) (length : Z) : res Adler32 :=
  r <- Update (adler_ a) source length ;; Ok (mk r).

Definition Reset (a : Adler32) : Adler32 := mk InitialState.

Definition GetCurrentHashCore (a : Adler32) (destination : pointer) : res pointer :=
  WriteUInt32BigEndian (adler_ a) destination.

Definition GetHashAndResetCore (a : Adler32) (destination : pointer)
  : res (Adler32 * pointer) :=
  d <- WriteUInt32BigEndian (adler_ a) destination ;;
  Ok (mk InitialState, d).

Definition GetCurrentHashAsUInt32 (a : Adler32) : Z := adler_ a.

#[global] Instance Adler32_algorithm : HashAlgorithm Adler32 := {
  hashLengthInBytes_ := Size;
  virtual_Append := Append;
  virtual_Reset := Reset;
  virtual_GetCurrentHashCore := GetCurrentHashCore;
  virtual_GetHashAndResetCore := GetHashAndResetCore
}.

(** ** One-shot doors *)

Definition HashToUInt32 (source : pointer) (length : Z) : res Z :=
  Update InitialState source length.

Definition Hash (source : pointer) (length : Z) : res (list Z) :=
  h <- HashToUInt32 source length ;;
  vector_of (WriteUInt32BigEndian h (Some (new_vector Size))).

Definition TryHash (source : pointer) (length : Z) (destination : pointer)
    (destinationLength : Z) : res (bool * Z * pointer) :=
  b <- TryValidateDestination destination destinationLength Size ;;
  if negb b then Ok (false, 0, destination)
  else h <- HashToUInt32 source length ;;
       d <- WriteUInt32BigEndian h destination ;;
       Ok (true, Size, d).

Definition Hash_to (source : pointer) (length : Z) (destination : pointer)
    (destinationLength : Z) : res (Z * pointer) :=
  _ <- ValidateDestination destination destinationLength Size ;;
  h <- HashToUInt32 source length ;;
  d <- WriteUInt32BigEndian h destination ;;
  Ok (Size, d).

(** ** Reference: RFC 1950, reduced after every byte *)

Definition rfc_step (s : Z * Z) (x : Z) : Z * Z :=
  let s1 := (fst s + x) mod ModBase in (s1, (snd s + s1) mod ModBase).

Definition rfc_adler (message : list Z) : Z :=
  let s := fold_left rfc_step message (1, 0) in snd s * 65536 + fst s.

(** The halves of a value with both sums reduced. *)
Definition reduced (s : Z * Z) : Prop := 0 <= fst s < ModBase /\ 0 <= snd s < ModBase.

Definition packed (s : Z * Z) : Z := snd s * 65536 + fst s.

(** ** The deferred reductions *)

Lemma rfc_step_reduced s x : reduced (rfc_step s x).
Proof. unfold reduced, rfc_step, ModBase; cbn. split; apply Z.mod_pos_bound; lia. Qed.

Lemma rfc_fold_reduced l s : reduced s -> reduced (fold_left rfc_step l s).
Proof.
  revert s. induction l as [|x l IH]; intros s Hs; [done|].
  apply IH, rfc_step_reduced.
Qed.

(** The reduction after a byte depends only on the sums modulo [ModBase]. *)
Lemma rfc_step_mod s1 s2 x :
  rfc_step (s1 mod ModBase, s2 mod ModBase) x
  = ((s1 + x) mod ModBase, (s2 + (s1 + x)) mod ModBase).
Proof.
  unfold rfc_step, ModBase; cbn.
  by rewrite Z.add_mod_idemp_l, Z.add_mod_idemp_r, Z.add_mod_idemp_l by lia.
Qed.

(** Bounds of the unreduced sums after [i] bytes, as in the comment on [NMax]. *)
Definition bounded (i : Z) (s : Z * Z) : Prop :=
  0 <= fst s <= 65520 + 255 * i /\
  0 <= 2 * snd s <= 2 * 65520 * (i + 1) + 255 * (i * (i + 1)).

Lemma accumulate_exact i s x : 0 <= i < NMax -> in_u 8 x -> bounded i s ->
  accumulate s x = (fst s + x, snd s + (fst s + x)) /\ bounded (i + 1) (accumulate s x).
Proof.
  unfold NMax, bounded, accumulate. destruct s as [s1 s2]; cbn [fst snd].
  intros Hi Hx [H1 H2]. eval_pow.
  assert (i * (i + 1) <= 5551 * 5552) by nia.
  rewrite !(wrapu_id 32) by (unfold in_u; change (2 ^ 32) with 4294967296; rewrite ?wrapu_id by (unfold in_u; change (2 ^ 32) with 4294967296; lia); lia).
  split; [done|]. split; nia.
Qed.

(** A run of at most [NMax] bytes never wraps, and agrees with the reference
    modulo [ModBase]. *)
Lemma run_exact l : forall i s, byte_list l -> 0 <= i -> i + zlen l <= NMax -> bounded i s ->
  let s' := fold_left accumulate l s in
  (fst s' mod ModBase, snd s' mod ModBase)
  = fold_left rfc_step l (fst s mod ModBase, snd s mod ModBase).
Proof.
  induction l as [|x l IH]; intros i s Hl Hi Hn Hs; [done|].
  apply Forall_cons in Hl as [Hx Hl]. cbn [length] in Hn. cbn [fold_left].
  destruct (accumulate_exact i s x ltac:(lia) Hx Hs) as [He Hb].
  rewrite rfc_step_mod. rewrite (IH (i + 1)) by (done || lia). by rewrite He.
Qed.

Lemma bounded_reduced s : reduced s -> bounded 0 s.
Proof. unfold reduced, bounded, ModBase. lia. Qed.

Lemma blocks_exact fuel : forall s1 s2 l, byte_list l -> reduced (s1, s2) ->
  zlen l <= Z.of_nat fuel ->
  blocks fuel s1 s2 l = Ok (fold_left rfc_step l (s1, s2)).
Proof.
  induction fuel as [|fuel IH]; intros s1 s2 l Hl Hs Hf.
  { destruct l; [done | cbn in Hf; lia]. }
  destruct l as [|x l]; [done|]. set (m := x :: l) in *.
  assert (0 < zlen m) by (cbn; lia). cbn [blocks]. decide_cmp.
  set (k := if zlen m <? NMax then zlen m else NMax).
  assert (Hk : 0 < k <= NMax /\ k <= zlen m) by (unfold k, NMax; split_if; lia).
  assert (Hrun : let s' := fold_left accumulate (take (Z.to_nat k) m) (s1, s2) in
            (fst s' mod ModBase, snd s' mod ModBase)
            = fold_left rfc_step (take (Z.to_nat k) m) (s1, s2)).
  { pose proof (run_exact (take (Z.to_nat k) m) 0 (s1, s2)) as R. cbn zeta in R |- *.
    rewrite R.
    - destruct Hs as [? ?]; cbn [fst snd] in *. by rewrite !Z.mod_small by lia.
    - by apply Forall_take.
    - lia.
    - rewrite length_take. lia.
    - by apply bounded_reduced. }
  destruct (fold_left accumulate _ _) as [t1 t2] eqn:Et. cbn [fst snd] in Hrun.
  rewrite IH.
  - rewrite Hrun, <- fold_left_app. by rewrite take_drop.
  - by apply Forall_drop.
  - rewrite Hrun. by apply rfc_fold_reduced.
  - rewrite length_drop. lia.
Qed.

(** Packing and unpacking the halves of [adler_]. *)
Lemma packed_halves s : reduced s ->
  Z.land (packed s) 65535 = fst s /\ Z.land (Z.shiftr (packed s) 16) 65535 = snd s.
Proof.
  unfold reduced, packed, ModBase. destruct s as [a b]; cbn [fst snd]. intros [? ?].
  change 65535 with (2 ^ 16 - 1). rewrite !land_mask, Z.shiftr_div_pow2 by lia.
  change (2 ^ 16) with 65536. split.
  - rewrite Z.add_comm, Z.mod_add by lia. apply Z.mod_small. lia.
  - rewrite Z.div_add_l, (Z.div_small a) by lia. rewrite Z.mod_small; lia.
Qed.

Lemma pack_halves s : reduced s -> Z.lor (ushl 32 (snd s) 16) (fst s) = packed s.
Proof.
  unfold reduced, packed, ModBase, ushl. destruct s as [a b]; cbn [fst snd]. intros [? ?].
  rewrite Z.shiftl_mul_pow2 by lia.
  rewrite wrapu_id by (unfold in_u; change (2 ^ 32) with 4294967296; change (2 ^ 16) with 65536; lia).
  rewrite Z.lor_comm, lor_high; change (2 ^ 16) with 65536; lia.
Qed.

Lemma adler32_Update_exact s b rest : reduced s -> byte_list b ->
  Update (packed s) (Some (b ++ rest)) (zlen b) = Ok (packed (fold_left rfc_step b s)).
Proof.
  intros Hs Hb. unfold Update. rewrite ValidateSource_prefix, read_span_prefix. cbn [bind].
  destruct b as [|x b]; [done|]. set (m := x :: b) in *.
  assert (0 < zlen m) by (cbn; lia). decide_cmp.
  destruct (packed_halves s Hs) as [-> ->].
  rewrite blocks_exact by (done || lia || by destruct s). cbn [bind].
  rewrite <- surjective_pairing, pack_halves; [done|]. by apply rfc_fold_reduced.
Qed.

(** ** Contract *)

Definition refines (a : Adler32) (_ : unit) (message : list Z) : Prop :=
  byte_list message /\ adler_ a = rfc_adler message.

Definition digest (_ : unit) (message : list Z) : list Z := big_endian 4 (rfc_adler message).

Lemma initial_reduced : reduced (1, 0).
Proof. unfold reduced, ModBase; cbn; lia. Qed.

Lemma adler32_refines_new : refines new tt [].
Proof. split; [constructor | reflexivity]. Qed.

Lemma adler32_Append_absorbs a m b rest : refines a tt m -> byte_list b ->
  exists a', Append a (Some (b ++ rest)) (zlen b) = Ok a' /\ refines a' tt (m ++ b).
Proof.
  intros [Hm Ha] Hb. unfold Append. rewrite Ha.
  change (rfc_adler m) with (packed (fold_left rfc_step m (1, 0))).
  rewrite adler32_Update_exact by (done || apply rfc_fold_reduced, initial_reduced).
  eexists; split; [reflexivity|]. split; [by apply Forall_app|].
  cbn [adler_]. unfold rfc_adler. by rewrite <- fold_left_app.
Qed.

Lemma Append_empty a p : Append a p 0 = Ok a.
Proof. destruct a. reflexivity. Qed.

#[global] Instance Adler32_contract : HashContract Adler32 unit refines digest.
Proof.
  split; try done.
  - intros a [] m b rest Ha Hb _ _. by apply adler32_Append_absorbs.
  - intros a _ m p _. apply Append_empty.
  - intros a p n e He. cbn. unfold Append, Update. by rewrite He.
  - intros a [] m _. apply adler32_refines_new.
  - intros a [] m d [_ Ha]. cbn. unfold GetCurrentHashCore. by rewrite Ha.
  - intros a [] m d [_ Ha]. cbn. unfold GetHashAndResetCore. by rewrite Ha.
Qed.

(** the checksum of RFC 1950 is computed exactly: however the message is
    cut, the blocked loop with its deferred reductions never wraps a sum and
    continues the checksum of what was absorbed; the one-shot value of any
    message of at most 2^31 - 1 bytes is the byte-by-byte definition. *)
Theorem Adler32_exact : forall (m b rest : list Z), byte_list m -> byte_list b ->
  Update (rfc_adler m) (Some (b ++ rest)) (zlen b) = Ok (rfc_adler (m ++ b)) /\
  HashToUInt32 (Some (b ++ rest)) (zlen b) = Ok (rfc_adler b) /\
  Hash (Some (b ++ rest)) (zlen b) = Ok (big_endian 4 (rfc_adler b)).
Proof.
  intros m b rest Hm Hb.
  assert (HH : HashToUInt32 (Some (b ++ rest)) (zlen b) = Ok (rfc_adler b)).
  { unfold HashToUInt32. change InitialState with (packed (1, 0)).
    by rewrite adler32_Update_exact by (done || apply initial_reduced). }
  split; [|split; [done|]].
  - change (rfc_adler m) with (packed (fold_left rfc_step m (1, 0))).
    rewrite adler32_Update_exact by (done || apply rfc_fold_reduced, initial_reduced).
    unfold rfc_adler. by rewrite <- fold_left_app.
  - unfold Hash. rewrite HH. reflexivity.
Qed.

(** The checksum of "Wikipedia", absorbed in two parts. *)
Lemma Adler32_exact_witness :
  Update (rfc_adler [87; 105; 107]) (Some ([105; 112; 101; 100; 105; 97] ++ [0])) 6
    = Ok 300286872.
Proof.
  apply (Adler32_exact [87; 105; 107] [105; 112; 101; 100; 105; 97] [0]);
    unfold byte_list, in_u; repeat constructor; done.
Defined.

End Adler32.
