(* ===== verification/CrcCommon.v ===== *)
(** * Cyclic redundancy checks of any width

    [Crc32ParameterSet.cpp] and [Crc64ParameterSet.cpp] are the same code at
    two widths.  This file holds that code over the width [w] and the file's
    own [ReverseBits], the bit-serial definition of a CRC, and the proof that
    the generated table makes the byte-wise loop compute it. *)

From S2P Require Export HashBase.

Module CrcCommon.

(** ** The code, over the width *)

Section Code.
Context (w : Z) (ReverseBits : Z -> Z).

(** [(r & LastBit) ? (r << 1) ^ polynomial : r << 1]. *)
Definition shift_step (polynomial r : Z) : Z :=
  if negb (Z.land r (2 ^ (w - 1)) =? 0) then Z.lxor (ushl w r 1) polynomial
  else ushl w r 1.

(** [for (j = 0; j < i; ++j) table[i + j] = crc ^ table[j];]. *)
Definition fill (crc : Z) (i : nat) (table : list Z) : list Z :=
  fold_left (fun t j => <[(i + j)%nat := Z.lxor crc (nth j t 0)]> t) (seq 0 i) table.

(** One iteration of [for (i = 1; i < 256; i <<= 1)]. *)
Definition doubling (polynomial : Z) (s : Z * list Z) (i : nat) : Z * list Z :=
  let crc := shift_step polynomial (fst s) in
  (crc, fill crc i (snd s)).

(** The values of [i] in that loop. *)
Definition powers : list nat := [1; 2; 4; 8; 16; 32; 64; 128]%nat.

(** One entry of the reflected table: eight shifts of the reversed index. *)
Definition reflected_entry (polynomial : Z) (i : nat) : Z :=
  ReverseBits (Nat.iter 8 (shift_step polynomial) (ReverseBits (Z.of_nat i))).

Definition generate_lookup_table (polynomial : Z) (reflectInput : bool) : list Z :=
  let table := replicate 256 0 in
  if negb reflectInput then
    snd (fold_left (doubling polynomial) powers (2 ^ (w - 1), table))
  else
    fold_left (fun t i => <[i := reflected_entry polynomial i]> t) (seq 1 255) table.

(** [for (i = 0; i < length; ++i)] over the bytes of the source. *)
Fixpoint update_loop (table : list Z) (reflectValues : bool) (crc : Z) (source : list Z)
  : res Z :=
  match source with
  | [] => Ok crc
  | x :: source =>
      if reflectValues then
        let idx := u8 (Z.lxor crc x) in
        e <- get table idx ;;
        update_loop table reflectValues (Z.lxor e (Z.shiftr crc 8)) source
      else
        let idx := u8 (Z.lxor (Z.shiftr crc (w - 8)) x) in
        e <- get table idx ;;
        update_loop table reflectValues (Z.lxor e (ushl w crc 8)) source
  end.

(** ** The bit-serial definition

    A register of [w] bits, most significant bit first: a byte is added to
    the top eight bits, then the register is shifted eight times and the
    polynomial subtracted whenever a one leaves it.  The reflected variant
    is the mirror image: the byte enters at the bottom, the register shifts
    down, and the polynomial is written backwards. *)
Definition division_step (polynomial r : Z) : Z :=
  Z.lxor (wrapu w (2 * r)) (if Z.testbit r (w - 1) then polynomial else 0).

Definition crc_forward (polynomial crc : Z) (message : list Z) : Z :=
  fold_left (fun r x => Nat.iter 8 (division_step polynomial) (Z.lxor r (x * 2 ^ (w - 8))))
    message crc.

Definition mirrored_step (reversed r : Z) : Z :=
  Z.lxor (r / 2) (if Z.testbit r 0 then reversed else 0).

Definition crc_reflected (reversed crc : Z) (message : list Z) : Z :=
  fold_left (fun r x => Nat.iter 8 (mirrored_step reversed) (Z.lxor r x)) message crc.

Definition crc_bits (polynomial : Z) (reflectValues : bool) (crc : Z) (message : list Z) : Z :=
  if reflectValues then crc_reflected (ReverseBits polynomial) crc message
  else crc_forward polynomial crc message.
End Code.

(** [value] written backwards in [w] bits, bit by bit. *)
Definition reverses (w : Z) (ReverseBits : Z -> Z) : Prop :=
  forall v, in_u w v -> in_u w (ReverseBits v) /\
    forall i, 0 <= i < w -> Z.testbit (ReverseBits v) i = Z.testbit v (w - 1 - i).

(** ** Bits *)

Lemma testbit_out w v i : 0 <= w -> in_u w v -> w <= i -> Z.testbit v i = false.
Proof. intros ? ? ?. by apply (bits_high v w i). Qed.

Lemma in_u_bits w v : 0 <= w -> 0 <= v -> (forall i, w <= i -> Z.testbit v i = false) -> in_u w v.
Proof.
  intros Hw Hv Hb. assert (Hm : v mod 2 ^ w = v).
  { apply Z.bits_inj'. intros i Hi. destruct (Z.lt_ge_cases i w).
    - by rewrite Z.mod_pow2_bits_low by lia.
    - by rewrite Z.mod_pow2_bits_high, Hb by lia. }
  rewrite <- Hm. apply Z.mod_pos_bound. lia.
Qed.

(** Equality of two [w]-bit values, bit by bit. *)
Lemma bits_eq w a b : 0 <= w -> in_u w a -> in_u w b ->
  (forall i, 0 <= i < w -> Z.testbit a i = Z.testbit b i) -> a = b.
Proof.
  intros Hw Ha Hb H. apply Z.bits_inj'. intros i Hi.
  destruct (Z.lt_ge_cases i w); [apply H; lia|].
  by rewrite !(testbit_out w) by done.
Qed.

Lemma lxor_in_u w a b : 0 <= w -> in_u w a -> in_u w b -> in_u w (Z.lxor a b).
Proof.
  intros Hw Ha Hb. apply in_u_bits; [done| |].
  - apply Z.lxor_nonneg. unfold in_u in *. lia.
  - intros i Hi. by rewrite Z.lxor_spec, !(testbit_out w).
Qed.

Lemma wrapu_bits w v i : 0 <= w -> 0 <= i ->
  Z.testbit (wrapu w v) i = if i <? w then Z.testbit v i else false.
Proof.
  intros Hw Hi. unfold wrapu. split_if.
  - by rewrite Z.mod_pow2_bits_low by lia.
  - by rewrite Z.mod_pow2_bits_high by lia.
Qed.

Lemma wrapu_lxor w a b : 0 <= w -> wrapu w (Z.lxor a b) = Z.lxor (wrapu w a) (wrapu w b).
Proof.
  intros Hw. apply (bits_eq w); [done | by apply wrapu_range | |].
  { apply lxor_in_u; [done|..]; by apply wrapu_range. }
  intros i Hi. rewrite Z.lxor_spec, !wrapu_bits, Z.lxor_spec by lia. by decide_cmp.
Qed.

Lemma land_pow2 a n : 0 <= n ->
  negb (Z.land a (2 ^ n) =? 0) = Z.testbit a n.
Proof.
  intros Hn. destruct (Z.testbit a n) eqn:E.
  - apply negb_true_iff, Z.eqb_neq. intros H0.
    pose proof (Z.land_spec a (2 ^ n) n) as Hs.
    by rewrite H0, Z.bits_0, E, Z.pow2_bits_true in Hs.
  - apply negb_false_iff, Z.eqb_eq, Z.bits_inj'. intros i Hi.
    rewrite Z.land_spec, Z.bits_0, Z.pow2_bits_eqb by done.
    destruct (Z.eqb_spec n i); [subst; by rewrite E | apply andb_false_r].
Qed.

Lemma mul2_lxor a b : 2 * Z.lxor a b = Z.lxor (2 * a) (2 * b).
Proof.
  assert (Hs : forall x, 2 * x = Z.shiftl x 1) by (intros; rewrite Z.shiftl_mul_pow2; lia).
  by rewrite !Hs, Z.shiftl_lxor.
Qed.

Lemma div2_lxor a b : Z.lxor a b / 2 = Z.lxor (a / 2) (b / 2).
Proof.
  assert (Hs : forall x, x / 2 = Z.shiftr x 1) by (intros; by rewrite Z.shiftr_div_pow2 by lia).
  by rewrite !Hs, Z.shiftr_lxor.
Qed.

Lemma lxor_if_add (x y : bool) p :
  Z.lxor (if x then p else 0) (if y then p else 0) = if xorb x y then p else 0.
Proof. by destruct x, y; cbn; rewrite ?Z.lxor_nilpotent, ?Z.lxor_0_r. Qed.

Lemma lxor_swap a b c d : Z.lxor (Z.lxor a b) (Z.lxor c d) = Z.lxor (Z.lxor a c) (Z.lxor b d).
Proof.
  rewrite !Z.lxor_assoc. f_equal. by rewrite <- !Z.lxor_assoc, (Z.lxor_comm b c).
Qed.

(** ** Linear steps *)

(** A map that commutes with exclusive or. *)
Definition linear (f : Z -> Z) : Prop := forall a b, f (Z.lxor a b) = Z.lxor (f a) (f b).

Lemma linear_iter n f : linear f -> linear (Nat.iter n f).
Proof.
  intros Hf a b. induction n as [|n IH]; [done|].
  by rewrite !Nat.iter_succ, IH, Hf.
Qed.

Lemma linear_0 f : linear f -> f 0 = 0.
Proof.
  intros Hf. pose proof (Hf 0 0) as H. rewrite Z.lxor_0_l in H.
  by rewrite H, Z.lxor_nilpotent.
Qed.

Lemma linear_division w p : 0 <= w -> linear (division_step w p).
Proof.
  intros Hw a b. unfold division_step.
  rewrite mul2_lxor, wrapu_lxor, Z.lxor_spec, <- lxor_if_add by done. apply lxor_swap.
Qed.

Lemma linear_mirrored p : linear (mirrored_step p).
Proof.
  intros a b. unfold mirrored_step.
  rewrite div2_lxor, Z.lxor_spec, <- lxor_if_add. apply lxor_swap.
Qed.

(** ** Width-[w] facts *)

Section Width.
Context (w : Z) (Hw : 8 <= w).
Context (rev : Z -> Z) (Hrev : reverses w rev).
Context (polynomial : Z) (Hp : in_u w polynomial).

Lemma shift_step_division r : in_u w r -> shift_step w polynomial r = division_step w polynomial r.
Proof.
  intros Hr. unfold shift_step, division_step. rewrite land_pow2 by lia.
  unfold ushl. rewrite Z.shiftl_mul_pow2, Z.mul_comm by lia. change (2 ^ 1) with 2.
  destruct (Z.testbit r (w - 1)); [done|]. by rewrite Z.lxor_0_r.
Qed.

Lemma division_step_range r : in_u w (division_step w polynomial r).
Proof.
  unfold division_step. apply lxor_in_u; [lia | apply wrapu_range; lia |].
  destruct (Z.testbit r (w - 1)); [done|]. split; [lia | by apply Z.pow_pos_nonneg; lia].
Qed.

Lemma iter_range n r : in_u w r -> in_u w (Nat.iter n (division_step w polynomial) r).
Proof. intros Hr. destruct n; [done|]. apply division_step_range. Qed.

Lemma iter_shift_step n r : in_u w r ->
  Nat.iter n (shift_step w polynomial) r = Nat.iter n (division_step w polynomial) r.
Proof.
  intros Hr. induction n as [|n IH]; [done|]. rewrite !Nat.iter_succ, IH.
  by apply shift_step_division, iter_range.
Qed.

(** While no one leaves the register, shifting only multiplies. *)
Lemma iter_small n v : 0 <= v -> v * 2 ^ Z.of_nat n < 2 ^ w ->
  Nat.iter n (division_step w polynomial) v = v * 2 ^ Z.of_nat n.
Proof.
  intros Hv. induction n as [|n IH]; intros Hn; [cbn; lia|].
  rewrite Nat2Z.inj_succ, Z.pow_succ_r in Hn |- * by lia.
  assert (Hpow : 2 ^ w = 2 * 2 ^ (w - 1)) by (rewrite <- Z.pow_succ_r by lia; f_equal; lia).
  rewrite Nat.iter_succ, IH by lia. unfold division_step.
  rewrite (testbit_out (w - 1)) by (unfold in_u; lia).
  rewrite Z.lxor_0_r. rewrite wrapu_id; [lia | unfold in_u; lia].
Qed.

(** Entry [v] of the forward table. *)
Definition entry (v : Z) : Z := Nat.iter 8 (division_step w polynomial) (v * 2 ^ (w - 8)).

Lemma pow_split k : 0 <= k <= w -> 2 ^ w = 2 ^ k * 2 ^ (w - k).
Proof. intros. rewrite <- Z.pow_add_r by lia. f_equal. lia. Qed.

Lemma byte_top_range v : in_u 8 v -> in_u w (v * 2 ^ (w - 8)).
Proof.
  intros Hv. unfold in_u in *. rewrite (pow_split 8) by lia.
  pose proof (Z.pow_pos_nonneg 2 (w - 8) ltac:(lia) ltac:(lia)). nia.
Qed.

Lemma entry_power (k : nat) : (k < 8)%nat ->
  entry (2 ^ Z.of_nat k) = Nat.iter (S k) (division_step w polynomial) (2 ^ (w - 1)).
Proof.
  intros Hk. unfold entry.
  assert (H8 : 8%nat = (S k + (7 - k))%nat) by lia.
  rewrite H8, Nat.iter_add. f_equal. rewrite <- Z.pow_add_r by lia.
  rewrite iter_small.
  - rewrite <- Z.pow_add_r by lia. f_equal. lia.
  - apply Z.pow_nonneg. lia.
  - rewrite <- Z.pow_add_r by lia. apply Z.pow_lt_mono_r; lia.
Qed.

Lemma mul_pow2_lxor a b n : 0 <= n -> Z.lxor a b * 2 ^ n = Z.lxor (a * 2 ^ n) (b * 2 ^ n).
Proof. intros. by rewrite <- !Z.shiftl_mul_pow2, Z.shiftl_lxor by done. Qed.

Lemma entry_lxor a b : entry (Z.lxor a b) = Z.lxor (entry a) (entry b).
Proof.
  unfold entry. rewrite mul_pow2_lxor by lia.
  apply linear_iter, linear_division. lia.
Qed.

Lemma entry_0 : entry 0 = 0.
Proof.
  unfold entry. rewrite Z.mul_0_l. apply linear_0, linear_iter, linear_division. lia.
Qed.

Lemma entry_add (k : nat) j : (k < 8)%nat -> 0 <= j < 2 ^ Z.of_nat k ->
  entry (2 ^ Z.of_nat k + j) = Z.lxor (entry (2 ^ Z.of_nat k)) (entry j).
Proof.
  intros Hk Hj. rewrite <- entry_lxor. f_equal.
  rewrite <- Z.add_nocarry_lxor; [done|].
  rewrite Z.land_comm, <- (Z.mul_1_l (2 ^ Z.of_nat k)). apply land_low_high; lia.
Qed.

(** *** The forward table *)

(** The first [n] entries are in place. *)
Definition filled (n : nat) (t : list Z) : Prop :=
  length t = 256%nat /\ forall v, (v < n)%nat -> t !! v = Some (entry (Z.of_nat v)).

Lemma fill_filled (k : nat) t : (k < 8)%nat -> filled (2 ^ k) t ->
  filled (2 ^ S k) (fill (entry (2 ^ Z.of_nat k)) (2 ^ k) t).
Proof.
  intros Hk [Hlen Ht]. unfold fill.
  assert (H256 : (2 ^ S k <= 256)%nat).
  { change 256%nat with (2 ^ 8)%nat. apply Nat.pow_le_mono_r; lia. }
  cbn [Nat.pow] in H256 |- *.
  assert (Hgen : forall n, (n <= 2 ^ k)%nat ->
    filled (2 ^ k + n)
      (fold_left (fun t j => <[(2 ^ k + j)%nat := Z.lxor (entry (2 ^ Z.of_nat k)) (nth j t 0)]> t)
         (seq 0 n) t)).
  { induction n as [|n IH]; intros Hn.
    { cbn. by rewrite Nat.add_0_r. }
    specialize (IH ltac:(lia)). rewrite seq_S, fold_left_app. cbn [fold_left Nat.add].
    set (u := fold_left _ (seq 0 n) t) in *. destruct IH as [Hul Hu]. split.
    { by rewrite length_insert. }
    intros v Hv. destruct (decide (v = (2 ^ k + n)%nat)) as [->|Hne].
    - rewrite list_lookup_insert_eq by lia. f_equal.
      rewrite Nat2Z.inj_add, Nat2Z.inj_pow. change (Z.of_nat 2) with 2.
      rewrite entry_add; [|lia|]. 2:{ split; [lia|]. change 2 with (Z.of_nat 2). rewrite <- Nat2Z.inj_pow. lia. }
      f_equal. apply (nth_lookup_Some u n 0). apply Hu. lia.
    - rewrite list_lookup_insert_ne by done. apply Hu. lia. }
  replace (2 * 2 ^ k)%nat with (2 ^ k + 2 ^ k)%nat by lia. by apply Hgen.
Qed.

Lemma forward_table : filled 256 (generate_lookup_table w rev polynomial false).
Proof.
  unfold generate_lookup_table. cbn [negb].
  change 256%nat with (2 ^ 8)%nat at 1.
  assert (Hgen : forall k, (k <= 8)%nat ->
    let s := fold_left (doubling w polynomial) (take k powers) (2 ^ (w - 1), replicate 256 0) in
    fst s = Nat.iter k (division_step w polynomial) (2 ^ (w - 1)) /\ filled (2 ^ k) (snd s)).
  { induction k as [|k IH]; intros Hk.
    - cbn. split; [done|]. split; [done|]. intros v Hv.
      assert (v = 0)%nat as -> by lia.
      change (Some 0 = Some (entry 0)). by rewrite entry_0.
    - specialize (IH ltac:(lia)). cbn zeta in IH |- *.
      rewrite (take_S_r _ _ (2 ^ k)%nat), fold_left_app
        by (do 8 (destruct k as [|k]; [reflexivity|]); lia).
      destruct (fold_left _ (take k powers) _) as [crc t]. cbn [fst snd] in IH.
      destruct IH as [-> Ht]. cbn [fold_left doubling fst snd].
      assert (Hpow1 : in_u w (2 ^ (w - 1))).
      { split; [apply Z.pow_nonneg; lia | apply Z.pow_lt_mono_r; lia]. }
      rewrite shift_step_division by (apply iter_range, Hpow1).
      rewrite <- Nat.iter_succ. split; [done|]. rewrite <- entry_power by lia.
      apply fill_filled; [lia | done]. }
  destruct (Hgen 8%nat ltac:(lia)) as [_ H]. by rewrite firstn_all2 in H by (cbn; lia).
Qed.

(** *** The reflected table *)

Definition rpoly : Z := rev polynomial.
Definition rentry (v : Z) : Z := Nat.iter 8 (mirrored_step rpoly) v.

Lemma rev_range v : in_u w v -> in_u w (rev v).
Proof. intros Hv. by apply Hrev. Qed.

Lemma rev_bit v i : in_u w v -> 0 <= i < w -> Z.testbit (rev v) i = Z.testbit v (w - 1 - i).
Proof. intros Hv Hi. by apply Hrev. Qed.

Lemma rev_involutive v : in_u w v -> rev (rev v) = v.
Proof.
  intros Hv. apply (bits_eq w); [lia | by apply rev_range, rev_range | done |].
  intros i Hi. rewrite !rev_bit by (try apply rev_range; lia || done). f_equal. lia.
Qed.

Lemma mirrored_step_range r : in_u w r -> in_u w (mirrored_step rpoly r).
Proof.
  intros Hr. unfold mirrored_step. apply lxor_in_u; [lia| |].
  - unfold in_u in *. split; [apply Z.div_pos; lia | apply Z.div_lt_upper_bound; lia].
  - destruct (Z.testbit r 0); [by apply rev_range|]. unfold in_u in *. lia.
Qed.

Lemma mul2_bit r i : 0 <= i -> Z.testbit (2 * r) i = if i =? 0 then false else Z.testbit r (i - 1).
Proof.
  intros Hi. destruct (Z.eqb_spec i 0) as [->|Hne]; [apply Z.testbit_even_0|].
  replace i with (Z.succ (i - 1)) at 1 by lia. apply Z.double_bits_succ.
Qed.

(** The mirror image of a forward step. *)
Lemma rev_division_step r : in_u w r ->
  rev (division_step w polynomial r) = mirrored_step rpoly (rev r).
Proof.
  intros Hr. apply (bits_eq w).
  - lia.
  - apply rev_range, division_step_range.
  - by apply mirrored_step_range, rev_range.
  - intros i Hi. rewrite rev_bit by (done || apply division_step_range).
    unfold division_step, mirrored_step. rewrite !Z.lxor_spec, wrapu_bits, mul2_bit by lia.
    replace (rev r / 2) with (Z.shiftr (rev r) 1) by (by rewrite Z.shiftr_div_pow2 by lia).
    rewrite Z.shiftr_spec by lia.
    rewrite (rev_bit r 0) by (done || lia). replace (w - 1 - 0) with (w - 1) by lia.
    f_equal.
    + replace (w - 1 - i <? w) with true by (symmetry; apply Z.ltb_lt; lia).
      destruct (Z.eqb_spec (w - 1 - i) 0).
      * symmetry. apply (testbit_out w); [lia | by apply rev_range | lia].
      * rewrite rev_bit by (done || lia). f_equal. lia.
    + destruct (Z.testbit r (w - 1)); [|by rewrite !Z.bits_0].
      unfold rpoly. by rewrite rev_bit by (done || lia).
Qed.

Lemma rev_iter n r : in_u w r ->
  rev (Nat.iter n (division_step w polynomial) r) = Nat.iter n (mirrored_step rpoly) (rev r).
Proof.
  intros Hr. induction n as [|n IH]; [done|].
  rewrite !Nat.iter_succ, rev_division_step, IH by (by apply iter_range). done.
Qed.

Lemma byte_range v : in_u 8 v -> in_u w v.
Proof.
  unfold in_u. intros. pose proof (Z.pow_le_mono_r 2 8 w ltac:(lia) Hw). lia.
Qed.

Lemma reflected_entry_spec (i : nat) : (i < 256)%nat ->
  reflected_entry w rev polynomial i = rentry (Z.of_nat i).
Proof.
  intros Hi. unfold reflected_entry, rentry.
  assert (Hb : in_u w (Z.of_nat i)).
  { apply byte_range. unfold in_u. change (2 ^ 8) with 256. lia. }
  rewrite iter_shift_step, rev_iter by (by apply rev_range). by rewrite rev_involutive.
Qed.

Lemma reflected_table :
  let t := generate_lookup_table w rev polynomial true in
  length t = 256%nat /\
  forall v, (v < 256)%nat -> t !! v = Some (rentry (Z.of_nat v)).
Proof.
  unfold generate_lookup_table. cbn [negb].
  assert (Hgen : forall n, (n <= 255)%nat ->
    let t := fold_left (fun t i => <[i := reflected_entry w rev polynomial i]> t)
               (seq 1 n) (replicate 256 0) in
    length t = 256%nat /\ forall v, (v <= n)%nat -> t !! v = Some (rentry (Z.of_nat v))).
  { induction n as [|n IH]; intros Hn.
    - cbn [seq fold_left]. split; [apply length_replicate|]. intros v Hv.
      assert (v = 0)%nat as -> by lia. rewrite lookup_replicate_2 by lia. f_equal.
    - specialize (IH ltac:(lia)). cbn zeta in IH |- *. rewrite seq_S, fold_left_app.
      set (u := fold_left _ (seq 1 n) _) in *. destruct IH as [Hul Hu].
      cbn [fold_left Nat.add]. split; [by rewrite length_insert|].
      intros v Hv. destruct (decide (v = S n)) as [->|Hne].
      + rewrite list_lookup_insert_eq by lia. f_equal. apply reflected_entry_spec. lia.
      + rewrite list_lookup_insert_ne by done. apply Hu. lia. }
  destruct (Hgen 255%nat ltac:(lia)) as [Hl Ht]. split; [done|].
  intros v Hv. apply Ht. lia.
Qed.

(** *** The byte-wise loop *)

Lemma lxor_hi_lo n v : 0 <= n -> v = Z.lxor (v / 2 ^ n * 2 ^ n) (v mod 2 ^ n).
Proof.
  intros Hn. assert (Hpos : 0 < 2 ^ n) by (by apply Z.pow_pos_nonneg).
  rewrite <- Z.add_nocarry_lxor.
  - rewrite (Z.div_mod v (2 ^ n)) at 1 by lia. lia.
  - rewrite Z.land_comm. apply land_low_high; [done|]. by apply Z.mod_pos_bound.
Qed.

Lemma iter_mirrored_small n v : Nat.iter n (mirrored_step rpoly) (v * 2 ^ Z.of_nat n) = v.
Proof.
  induction n as [|n IH]; [cbn; lia|].
  rewrite Nat.iter_succ_r. rewrite <- IH at 2. f_equal.
  rewrite Nat2Z.inj_succ, Z.pow_succ_r by lia. unfold mirrored_step.
  replace (v * (2 * 2 ^ Z.of_nat n)) with (2 * (v * 2 ^ Z.of_nat n)) by lia.
  rewrite Z.testbit_even_0, Z.lxor_0_r, Z.mul_comm. by apply Z.div_mul.
Qed.

Lemma forward_byte crc x : in_u w crc -> in_u 8 x ->
  let idx := u8 (Z.lxor (Z.shiftr crc (w - 8)) x) in
  Z.lxor (entry idx) (ushl w crc 8)
  = Nat.iter 8 (division_step w polynomial) (Z.lxor crc (x * 2 ^ (w - 8))).
Proof.
  intros Hc Hx. cbn zeta.
  assert (Hpos : 0 < 2 ^ (w - 8)) by (apply Z.pow_pos_nonneg; lia).
  assert (Hs : 2 ^ w = 2 ^ 8 * 2 ^ (w - 8)) by (apply pow_split; lia).
  rewrite Z.shiftr_div_pow2 by lia. unfold u8.
  rewrite wrapu_id.
  2:{ apply lxor_in_u; [lia| |done]. unfold in_u in *.
      split; [apply Z.div_pos; lia | apply Z.div_lt_upper_bound; lia]. }
  set (hi := crc / 2 ^ (w - 8)). set (lo := crc mod 2 ^ (w - 8)).
  assert (HR : Z.lxor crc (x * 2 ^ (w - 8)) = Z.lxor (Z.lxor hi x * 2 ^ (w - 8)) lo).
  { rewrite mul_pow2_lxor, Z.lxor_assoc, (Z.lxor_comm (x * _)), <- Z.lxor_assoc by lia.
    f_equal. apply lxor_hi_lo. lia. }
  rewrite HR, (linear_iter 8 _ (linear_division w polynomial ltac:(lia))). f_equal.
  assert (Hlo : 0 <= lo < 2 ^ (w - 8)) by (by apply Z.mod_pos_bound).
  rewrite iter_small; change (2 ^ Z.of_nat 8) with (2 ^ 8); [|lia|nia].
  unfold ushl, wrapu. rewrite Z.shiftl_mul_pow2, Hs, (Z.mul_comm (2 ^ 8)) by lia.
  rewrite Z.mul_mod_distr_r by lia. done.
Qed.

Lemma reflected_byte crc x : in_u w crc -> in_u 8 x ->
  let idx := u8 (Z.lxor crc x) in
  Z.lxor (rentry idx) (Z.shiftr crc 8)
  = Nat.iter 8 (mirrored_step rpoly) (Z.lxor crc x).
Proof.
  intros Hc Hx. cbn zeta. set (y := Z.lxor crc x).
  rewrite (lxor_hi_lo 8 y) at 2 by lia. rewrite Z.lxor_comm.
  rewrite (linear_iter 8 _ (linear_mirrored rpoly)). f_equal.
  change (2 ^ 8) with (2 ^ Z.of_nat 8) at 2. rewrite iter_mirrored_small.
  rewrite <- Z.shiftr_div_pow2 by lia. unfold y.
  rewrite Z.shiftr_lxor, (Z.shiftr_div_pow2 x), (Z.div_small x) by (unfold in_u in *; lia).
  by rewrite Z.lxor_0_r.
Qed.

Lemma mirrored_iter_range n r : in_u w r -> in_u w (Nat.iter n (mirrored_step rpoly) r).
Proof.
  intros Hr. induction n as [|n IH]; [done|]. rewrite Nat.iter_succ.
  by apply mirrored_step_range.
Qed.

Lemma crc_bits_range reflect l : forall crc, in_u w crc -> byte_list l ->
  in_u w (crc_bits w rev polynomial reflect crc l).
Proof.
  induction l as [|x l IH]; intros crc Hc Hl; [by destruct reflect|].
  apply Forall_cons in Hl as [Hx Hl]. destruct reflect; apply IH; try done.
  - apply mirrored_iter_range, lxor_in_u; [lia | done | by apply byte_range].
  - apply iter_range, lxor_in_u; [lia | done | by apply byte_top_range].
Qed.

Lemma get_table (f : Z -> Z) (t : list Z) idx : (forall v, (v < 256)%nat -> t !! v = Some (f (Z.of_nat v))) ->
  in_u 8 idx -> get t idx = Ok (f idx).
Proof.
  intros Ht Hi. unfold in_u in Hi. change (2 ^ 8) with 256 in Hi.
  apply get_Ok; [lia|]. rewrite Ht by lia. by rewrite Z2Nat.id by lia.
Qed.

(** The table-driven loop computes the bit-serial CRC. *)
Lemma update_loop_exact reflect l : forall crc, in_u w crc -> byte_list l ->
  update_loop w (generate_lookup_table w rev polynomial reflect) reflect crc l
  = Ok (crc_bits w rev polynomial reflect crc l).
Proof.
  induction l as [|x l IH]; intros crc Hc Hl; [by destruct reflect|].
  pose proof Hl as Hxl. apply Forall_cons in Hl as [Hx Hl]. cbn [update_loop].
  destruct reflect.
  - rewrite (get_table rentry) by
      (apply reflected_table || (apply wrapu_range; lia)). cbn [bind].
    rewrite reflected_byte by done. rewrite IH; [done | | done].
    apply mirrored_iter_range, lxor_in_u; [lia | done | by apply byte_range].
  - rewrite (get_table entry) by
      (apply forward_table || (apply wrapu_range; lia)). cbn [bind].
    rewrite forward_byte by done. rewrite IH; [done | | done].
    apply iter_range, lxor_in_u; [lia | done | by apply byte_top_range].
Qed.

Lemma crc_bits_app reflect crc a b :
  crc_bits w rev polynomial reflect crc (a ++ b)
  = crc_bits w rev polynomial reflect (crc_bits w rev polynomial reflect crc a) b.
Proof. destruct reflect; apply fold_left_app. Qed.

End Width.

(** ** Mask-and-shift permutations

    A statement such as [((v & M1) >> k) | ((v & M2) << k)] moves bits; that it
    is the permutation [p] is decided on the masks alone. *)

(** The masked value shifted left by [s] (right when negative). *)
Definition moved (w v m s : Z) : Z :=
  if 0 <=? s then ushl w (Z.land v m) s else Z.shiftr (Z.land v m) (- s).

Fixpoint moves (w : Z) (terms : list (Z * Z)) (v : Z) : Z :=
  match terms with
  | [] => 0
  | (m, s) :: terms => Z.lor (moved w v m s) (moves w terms v)
  end.

Definition permutes (w : Z) (terms : list (Z * Z)) (p : Z -> Z) : bool :=
  forallb (fun i =>
    forallb (fun t => implb (Z.testbit (fst t) (i - snd t)) (i - snd t =? p i)) terms &&
    existsb (fun t => Z.testbit (fst t) (i - snd t)) terms) (seqZ 0 w).

Lemma moved_bit w v m s i : 0 <= i < w ->
  Z.testbit (moved w v m s) i = Z.testbit v (i - s) && Z.testbit m (i - s).
Proof.
  intros Hi. unfold moved. split_if.
  - unfold ushl. rewrite wrapu_bits by lia. decide_cmp.
    by rewrite Z.shiftl_spec, Z.land_spec by lia.
  - rewrite Z.shiftr_spec, Z.land_spec by lia. by replace (i + - s) with (i - s) by lia.
Qed.

Lemma moved_range w v m s : 0 <= w -> in_u w v -> in_u w (moved w v m s).
Proof.
  intros Hw Hv. unfold moved. split_if; [by apply wrapu_range|].
  apply in_u_bits; [done| |].
  - apply Z.shiftr_nonneg, Z.land_nonneg. unfold in_u in Hv. lia.
  - intros i Hi. rewrite Z.shiftr_spec, Z.land_spec by lia.
    by rewrite (testbit_out w) by (done || lia).
Qed.

Lemma moves_range w terms v : 0 <= w -> in_u w v -> in_u w (moves w terms v).
Proof.
  intros Hw Hv. induction terms as [|[m s] terms IH]; cbn [moves].
  - unfold in_u in *. lia.
  - pose proof (moved_range w v m s Hw Hv) as Hm. apply in_u_bits; [done| |].
    + apply Z.lor_nonneg. unfold in_u in *. lia.
    + intros i Hi. by rewrite Z.lor_spec, !(testbit_out w).
Qed.

Lemma moves_bit w terms p v i : permutes w terms p = true -> 0 <= i < w ->
  Z.testbit (moves w terms v) i = Z.testbit v (p i).
Proof.
  unfold permutes. rewrite forallb_forall. intros H Hi.
  assert (Hin : In i (seqZ 0 w)) by (apply list_elem_of_In, elem_of_seqZ; lia).
  apply H, andb_true_iff in Hin as [Hall Hex]. clear H.
  induction terms as [|[m s] terms IH]; [done|].
  cbn [forallb existsb fst snd] in Hall, Hex. apply andb_true_iff in Hall as [Ht Hall].
  cbn [moves]. rewrite Z.lor_spec, moved_bit by done.
  destruct (Z.testbit m (i - s)) eqn:Em.
  - cbn [implb] in Ht. apply Z.eqb_eq in Ht. rewrite Ht, andb_true_r.
    destruct (existsb (fun t => Z.testbit (fst t) (i - snd t)) terms) eqn:Ee.
    + rewrite IH by done. apply orb_diag.
    + assert (Hz : Z.testbit (moves w terms v) i = false).
      { clear - Ee Hi. induction terms as [|[m s] terms IH]; [by rewrite Z.bits_0|].
        cbn [existsb fst snd] in Ee. apply orb_false_iff in Ee as [Em Ee]. cbn [moves].
        by rewrite Z.lor_spec, moved_bit, Em, andb_false_r, IH. }
      by rewrite Hz, orb_false_r.
  - rewrite andb_false_r. cbn [orb] in Hex |- *. by apply IH.
Qed.

(** A decidable fact about every bit index. *)
Lemma range_check w (P : Z -> bool) i :
  forallb P (seqZ 0 w) = true -> 0 <= i < w -> P i = true.
Proof.
  rewrite forallb_forall. intros H Hi. apply H, list_elem_of_In, elem_of_seqZ. lia.
Qed.

(** Complementing a [w]-bit value is adding all ones. *)
Lemma unot_lxor w v : 0 < w -> in_u w v -> unot w v = Z.lxor v (2 ^ w - 1).
Proof.
  intros Hw [Hv0 Hv]. unfold unot.
  assert (Hl : Z.log2 v < w).
  { destruct (Z.eq_dec v 0) as [->|Hne]; [done|]. apply Z.log2_lt_pow2; lia. }
  replace (2 ^ w - 1) with (Z.ones w) by (rewrite Z.ones_equiv; lia).
  rewrite Z.sub_nocarry_ldiff by (by apply Z.ldiff_ones_r_low).
  by apply Z.ldiff_ones_l_low.
Qed.

End CrcCommon.
Export CrcCommon.
