(* ===== verification/Crc32.v ===== *)
(** * CRC-32

    [Crc32ParameterSet] (bit reversal, lookup table, update, output order) and
    the [Crc32] object with its one-shot doors, at width 32. *)

From S2P Require Export CrcCommon.

Module Crc32ParameterSet.

Definition ReverseBits (value : Z) : Z :=
  let value := Z.lor (Z.shiftr (Z.land value 0xAAAAAAAA) 1)
                     (ushl 32 (Z.land value 0x55555555) 1) in
  let value := Z.lor (Z.shiftr (Z.land value 0xCCCCCCCC) 2)
                     (ushl 32 (Z.land value 0x33333333) 2) in
  let value := Z.lor (Z.shiftr (Z.land value 0xF0F0F0F0) 4)
                     (ushl 32 (Z.land value 0x0F0F0F0F) 4) in
  Z.lor (Z.lor (Z.lor (ushl 32 (Z.land value 0x000000FF) 24) (ushl 32 (Z.land value 0x0000FF00) 8))
               (Z.shiftr (Z.land value 0x00FF0000) 8))
        (Z.shiftr (Z.land value 0xFF000000) 24).

Definition GenerateLookupTable (polynomial : Z) (reflectInput : bool) : list Z :=
  generate_lookup_table 32 ReverseBits polynomial reflectInput.

Record ParameterSet := mk {
  polynomial_ : Z;
  initialValue_ : Z;
  finalXorValue_ : Z;
  reflectValues_ : bool;
  lookupTable_ : list Z
}.

Definition Create (polynomial initialValue finalXorValue : Z) (reflectValues : bool)
  : ParameterSet :=
  mk polynomial initialValue finalXorValue reflectValues
     (GenerateLookupTable polynomial reflectValues).

Definition getCrc32Property : ParameterSet :=
  Create 0x04C11DB7 0xFFFFFFFF 0xFFFFFFFF true.
Definition getCrc32CProperty : ParameterSet :=
  Create 0x1EDC6F41 0xFFFFFFFF 0xFFFFFFFF true.

Definition Update (ps : ParameterSet) (value : Z) (source : pointer) (length : Z) : res Z :=
  _ <- ValidateSource source length ;;
  bytes <- read_span source length ;;
  update_loop 32 (lookupTable_ ps) (reflectValues_ ps) value bytes.

Definition Finalize (ps : ParameterSet) (value : Z) : Z := Z.lxor value (finalXorValue_ ps).

Definition WriteCrcToSpan (ps : ParameterSet) (crc : Z) (destination : pointer) : res pointer :=
  _ <- ValidateNonNullDestination destination ;;
  if reflectValues_ ps then
    write_span destination
      [u8 crc; u8 (Z.shiftr crc 8); u8 (Z.shiftr crc 16); u8 (Z.shiftr crc 24)]
  else
    write_span destination
      [u8 (Z.shiftr crc 24); u8 (Z.shiftr crc 16); u8 (Z.shiftr crc 8); u8 crc].

(** ** Bit reversal *)

Definition terms_24 : list (Z * Z) :=
  [(0x000000FF, 24); (0x0000FF00, 8); (0x00FF0000, -8); (0xFF000000, -24)].
Definition terms_4 : list (Z * Z) :=
  [(0xF0F0F0F0, -4); (0x0F0F0F0F, 4)].
Definition terms_2 : list (Z * Z) :=
  [(0xCCCCCCCC, -2); (0x33333333, 2)].
Definition terms_1 : list (Z * Z) :=
  [(0xAAAAAAAA, -1); (0x55555555, 1)].

Lemma terms_24_ok : permutes 32 terms_24 (fun i => Z.lxor i 24) = true.
Proof. vm_compute. reflexivity. Qed.
Lemma crc32_terms_4_ok : permutes 32 terms_4 (fun i => Z.lxor i 4) = true.
Proof. vm_compute. reflexivity. Qed.
Lemma crc32_terms_2_ok : permutes 32 terms_2 (fun i => Z.lxor i 2) = true.
Proof. vm_compute. reflexivity. Qed.
Lemma crc32_terms_1_ok : permutes 32 terms_1 (fun i => Z.lxor i 1) = true.
Proof. vm_compute. reflexivity. Qed.

Lemma crc32_ReverseBits_moves value : in_u 32 value ->
  ReverseBits value = moves 32 terms_24 (moves 32 terms_4 (moves 32 terms_2 (moves 32 terms_1 value))).
Proof.
  intros Hv. unfold ReverseBits, terms_24, terms_4, terms_2, terms_1. cbn [moves moved].
  unfold moved. cbn [Z.leb Z.compare Z.opp]. by rewrite !Z.lor_0_r, !Z.lor_assoc.
Qed.

Lemma crc32_xor_range i k : 0 <= i < 32 -> 0 <= k < 32 -> 0 <= Z.lxor i k < 32.
Proof. apply (lxor_in_u 5). lia. Qed.

(** The masks of [ReverseBits] write the value backwards. *)
Lemma crc32_ReverseBits_reverses : reverses 32 ReverseBits.
Proof.
  intros v Hv. split.
  - rewrite crc32_ReverseBits_moves by done. by repeat apply moves_range.
  - intros i Hi. rewrite crc32_ReverseBits_moves by done.
    rewrite (moves_bit _ _ _ _ _ terms_24_ok) by (repeat apply crc32_xor_range; lia).
    rewrite (moves_bit _ _ _ _ _ crc32_terms_4_ok) by (repeat apply crc32_xor_range; lia).
    rewrite (moves_bit _ _ _ _ _ crc32_terms_2_ok) by (repeat apply crc32_xor_range; lia).
    rewrite (moves_bit _ _ _ _ _ crc32_terms_1_ok) by (repeat apply crc32_xor_range; lia).
    f_equal. apply Z.eqb_eq.
    apply (range_check 32 (fun i => Z.lxor (Z.lxor (Z.lxor (Z.lxor i 24) 4) 2) 1 =? 31 - i)); [vm_compute; reflexivity | done].
Qed.

(** ** Parameter sets *)

(** A set as [Create] builds it: 32-bit values and the generated table. *)
Definition created (ps : ParameterSet) : Prop :=
  in_u 32 (polynomial_ ps) /\ in_u 32 (initialValue_ ps) /\ in_u 32 (finalXorValue_ ps) /\
  lookupTable_ ps = GenerateLookupTable (polynomial_ ps) (reflectValues_ ps).

Lemma crc32_Create_created p i x r : in_u 32 p -> in_u 32 i -> in_u 32 x -> created (Create p i x r).
Proof. intros. unfold created. auto. Qed.

(** The bit-serial register of a set after a message. *)
Definition register (ps : ParameterSet) (crc : Z) (message : list Z) : Z :=
  crc_bits 32 ReverseBits (polynomial_ ps) (reflectValues_ ps) crc message.

Lemma crc32_Update_exact ps crc b rest : created ps -> in_u 32 crc -> byte_list b ->
  Update ps crc (Some (b ++ rest)) (zlen b) = Ok (register ps crc b).
Proof.
  intros (Hp & _ & _ & Ht) Hc Hb. unfold Update.
  rewrite ValidateSource_prefix, read_span_prefix. cbn [bind]. rewrite Ht.
  apply update_loop_exact; (lia || done || apply crc32_ReverseBits_reverses).
Qed.

Lemma crc32_register_range ps crc b : created ps -> in_u 32 crc -> byte_list b ->
  in_u 32 (register ps crc b).
Proof.
  intros (Hp & _) Hc Hb. apply crc_bits_range; (lia || done || apply crc32_ReverseBits_reverses).
Qed.

Lemma crc32_register_app ps crc a b :
  register ps crc (a ++ b) = register ps (register ps crc a) b.
Proof. apply crc_bits_app. Qed.

Lemma crc32_Update_empty ps crc p : Update ps crc p 0 = Ok crc.
Proof. reflexivity. Qed.

(** The bytes of a finished value, in the order of the set. *)
Definition ordered (ps : ParameterSet) (crc : Z) : list Z :=
  if reflectValues_ ps then little_endian 4 crc else big_endian 4 crc.

Lemma crc32_WriteCrcToSpan_Some ps crc d :
  WriteCrcToSpan ps crc (Some d) = write_span (Some d) (ordered ps crc).
Proof. unfold WriteCrcToSpan, ordered. by destruct (reflectValues_ ps). Qed.

Lemma crc32_length_ordered ps crc : length (ordered ps crc) = 4%nat.
Proof. unfold ordered. by destruct (reflectValues_ ps). Qed.

End Crc32ParameterSet.

Module Crc32.
Import Crc32ParameterSet.

(** ** The object: [crc_] and the shared parameter set *)

Record Crc32 := mk { crc_ : Z; parameterSet_ : ParameterSet }.

Definition Size : Z := 4.

Definition new : Crc32 :=
  let ps := getCrc32Property in mk (initialValue_ ps) ps.

(** The constructor taking a [shared_ptr], which may be null. *)
Definition new_with (parameterSet : option ParameterSet) : res Crc32 :=
  match parameterSet with
  | None => Throw (ArgumentNullException "parameterSet" "Value cannot be null.")
  | Some ps => Ok (mk (initialValue_ ps) ps)
  end.

Definition Clone (c : Crc32) : Crc32 := mk (crc_ c) (parameterSet_ c).

Definition Append (c : Crc32) (source : pointer) (length : Z) : res Crc32 :=
  r <- Update (parameterSet_ c) (crc_ c) source length ;;
  Ok (mk r (parameterSet_ c)).

Definition Reset (c : Crc32) : Crc32 :=
  mk (initialValue_ (parameterSet_ c)) (parameterSet_ c).

Definition GetCurrentHashCore (c : Crc32) (destination : pointer) : res pointer :=
  WriteCrcToSpan (parameterSet_ c) (Finalize (parameterSet_ c) (crc_ c)) destination.

Definition GetHashAndResetCore (c : Crc32) (destination : pointer) : res (Crc32 * pointer) :=
  d <- WriteCrcToSpan (parameterSet_ c) (Finalize (parameterSet_ c) (crc_ c)) destination ;;
  Ok (mk (initialValue_ (parameterSet_ c)) (parameterSet_ c), d).

Definition GetCurrentHashAsUInt32 (c : Crc32) : Z := Finalize (parameterSet_ c) (crc_ c).

#[global] Instance Crc32_algorithm : HashAlgorithm Crc32 := {
  hashLengthInBytes_ := Size;
  virtual_Append := Append;
  virtual_Reset := Reset;
  virtual_GetCurrentHashCore := GetCurrentHashCore;
  virtual_GetHashAndResetCore := GetHashAndResetCore
}.

(** ** One-shot doors *)

Definition HashToUInt32_with (parameterSet : option ParameterSet) (source : pointer)
    (length : Z) : res Z :=
  match parameterSet with
  | None => Throw (ArgumentNullException "parameterSet" "Value cannot be null.")
  | Some ps =>
      crc <- Update ps (initialValue_ ps) source length ;;
      Ok (Finalize ps crc)
  end.

(** The default set is complemented instead of finalized. *)
Definition HashToUInt32 (source : pointer) (length : Z) : res Z :=
  let ps := getCrc32Property in
  crc <- Update ps (initialValue_ ps) source length ;;
  Ok (unot 32 crc).

(** A null parameter set has already thrown when it is dereferenced. *)
Definition deref (parameterSet : option ParameterSet) : res ParameterSet :=
  match parameterSet with Some ps => Ok ps | None => UB end.

Definition Hash_with (parameterSet : option ParameterSet) (source : pointer) (length : Z)
  : res (list Z) :=
  hash <- HashToUInt32_with parameterSet source length ;;
  ps <- deref parameterSet ;;
  vector_of (WriteCrcToSpan ps hash (Some (new_vector Size))).

Definition Hash (source : pointer) (length : Z) : res (list Z) :=
  Hash_with (Some getCrc32Property) source length.

Definition Hash_to_with (parameterSet : option ParameterSet) (source : pointer) (length : Z)
    (destination : pointer) (destinationLength : Z) : res (Z * pointer) :=
  _ <- ValidateDestination destination destinationLength Size ;;
  hash <- HashToUInt32_with parameterSet source length ;;
  ps <- deref parameterSet ;;
  d <- WriteCrcToSpan ps hash destination ;;
  Ok (Size, d).

Definition Hash_to (source : pointer) (length : Z) (destination : pointer)
    (destinationLength : Z) : res (Z * pointer) :=
  Hash_to_with (Some getCrc32Property) source length destination destinationLength.

Definition TryHash_with (parameterSet : option ParameterSet) (source : pointer) (length : Z)
    (destination : pointer) (destinationLength : Z) : res (bool * Z * pointer) :=
  b <- TryValidateDestination destination destinationLength Size ;;
  if negb b then Ok (false, 0, destination)
  else
    hash <- HashToUInt32_with parameterSet source length ;;
    ps <- deref parameterSet ;;
    d <- WriteCrcToSpan ps hash destination ;;
    Ok (true, Size, d).

Definition TryHash (source : pointer) (length : Z) (destination : pointer)
    (destinationLength : Z) : res (bool * Z * pointer) :=
  TryHash_with (Some getCrc32Property) source length destination destinationLength.

(** ** Contract *)

(** The hash of a message under a set: the finished register, in its order. *)
Definition digest (ps : ParameterSet) (message : list Z) : list Z :=
  ordered ps (Z.lxor (register ps (initialValue_ ps) message) (finalXorValue_ ps)).

Definition refines (c : Crc32) (ps : ParameterSet) (message : list Z) : Prop :=
  byte_list message /\ created ps /\ parameterSet_ c = ps /\
  crc_ c = register ps (initialValue_ ps) message.

Lemma crc32_refines_new_with ps c : created ps -> new_with (Some ps) = Ok c -> refines c ps [].
Proof.
  intros Hps [= <-]. split; [constructor|]. split; [done|]. split; [done|].
  unfold register, crc_bits. by destruct (reflectValues_ ps).
Qed.

#[global] Instance Crc32_contract : HashContract Crc32 ParameterSet refines digest.
Proof.
  split.
  - done.
  - intros s ps m _. unfold digest. by rewrite crc32_length_ordered.
  - intros s ps m b rest (Hm & Hps & Hset & Hc) Hb _ _. cbn. unfold Append.
    assert (Hi : in_u 32 (initialValue_ ps)) by apply Hps.
    rewrite Hset, Hc, crc32_Update_exact by (done || by apply crc32_register_range).
    eexists. split; [reflexivity|]. split; [by apply Forall_app|].
    split; [done|]. split; [done|]. cbn [crc_]. by rewrite crc32_register_app.
  - intros [] ps m p _. reflexivity.
  - intros s p n e He. cbn. unfold Append, Update. by rewrite He.
  - intros s ps m (_ & Hps & <- & _). by apply (crc32_refines_new_with _ _ Hps).
  - intros s ps m d (_ & _ & <- & Hc). cbn [virtual_GetCurrentHashCore Crc32_algorithm].
    unfold GetCurrentHashCore, Finalize.
    by rewrite crc32_WriteCrcToSpan_Some, Hc.
  - intros s ps m d (_ & _ & <- & Hc). cbn [virtual_GetHashAndResetCore Crc32_algorithm].
    unfold GetHashAndResetCore, Finalize.
    by rewrite crc32_WriteCrcToSpan_Some, Hc.
Qed.

(** C28: for every polynomial, initial and final value and both orientations,
    the table-driven update computes the bit-serial CRC of width 32 exactly,
    whatever was absorbed before; the one-shot value is the finished register
    (for the default set, the complement is that final step), and its bytes
    are written least significant first exactly when the set reflects. *)
Theorem Crc32_exact : forall p i x r (m b rest : list Z),
  in_u 32 p -> in_u 32 i -> in_u 32 x -> byte_list m -> byte_list b ->
  let ps := Create p i x r in
  let source := Some (b ++ rest) in
  Update ps (crc_bits 32 ReverseBits p r i m) source (zlen b)
    = Ok (crc_bits 32 ReverseBits p r i (m ++ b)) /\
  HashToUInt32_with (Some ps) source (zlen b)
    = Ok (Z.lxor (crc_bits 32 ReverseBits p r i b) x) /\
  Hash_with (Some ps) source (zlen b)
    = Ok (let h := Z.lxor (crc_bits 32 ReverseBits p r i b) x in
          if r then little_endian 4 h else big_endian 4 h) /\
  HashToUInt32 source (zlen b) = HashToUInt32_with (Some getCrc32Property) source (zlen b).
Proof.
  intros p i x r m b rest Hp Hi Hx Hm Hb ps source.
  assert (Hps : created ps) by (by apply crc32_Create_created).
  assert (Hone : HashToUInt32_with (Some ps) source (zlen b)
                 = Ok (Z.lxor (register ps i b) x)).
  { unfold HashToUInt32_with, source. by rewrite crc32_Update_exact. }
  split; [|split; [exact Hone|split]].
  - change (crc_bits 32 ReverseBits p r i m) with (register ps i m).
    unfold source. rewrite crc32_Update_exact by (done || by apply crc32_register_range).
    by rewrite <- crc32_register_app.
  - unfold Hash_with. rewrite Hone. cbn [bind deref]. rewrite crc32_WriteCrcToSpan_Some.
    apply (vector_of_write (ordered ps _)). by rewrite crc32_length_ordered.
  - unfold HashToUInt32, HashToUInt32_with, source. rewrite crc32_Update_exact.
    + cbn [bind]. f_equal. unfold Finalize. apply (unot_lxor 32); [lia|].
      apply crc32_register_range; [by apply crc32_Create_created | done | done].
    + by apply crc32_Create_created.
    + done.
    + done.
Qed.

(** "123456789", the check value of CRC-32, after "1234" was absorbed. *)
Lemma Crc32_exact_witness :
  Hash_with (Some getCrc32Property) (Some ([49; 50; 51; 52; 53; 54; 55; 56; 57] ++ [0])) 9
    = Ok [0x26; 0x39; 0xF4; 0xCB].
Proof.
  refine (eq_trans (proj1 (proj2 (proj2 (Crc32_exact 0x04C11DB7 0xFFFFFFFF 0xFFFFFFFF true
            [49; 50; 51; 52] [49; 50; 51; 52; 53; 54; 55; 56; 57] [0] _ _ _ _ _)))) _);
    [done | done | done | | | vm_compute; reflexivity];
    unfold byte_list, in_u; repeat constructor; done.
Defined.

End Crc32.
