(* ===== verification/Crc64.v ===== *)
(** * CRC-64

    [Crc64ParameterSet] (bit reversal, lookup table, update, output order) and
    the [Crc64] object with its one-shot doors, at width 64. *)

From S2P Require Export CrcCommon.

Module Crc64ParameterSet.

Definition ReverseBits (value : Z) : Z :=
  let value := Z.lor (Z.shiftr (Z.land value 0xAAAAAAAAAAAAAAAA) 1)
                     (ushl 64 (Z.land value 0x5555555555555555) 1) in
  let value := Z.lor (Z.shiftr (Z.land value 0xCCCCCCCCCCCCCCCC) 2)
                     (ushl 64 (Z.land value 0x3333333333333333) 2) in
  let value := Z.lor (Z.shiftr (Z.land value 0xF0F0F0F0F0F0F0F0) 4)
                     (ushl 64 (Z.land value 0x0F0F0F0F0F0F0F0F) 4) in
  let value := Z.lor (Z.shiftr (Z.land value 0xFF00FF00FF00FF00) 8)
                     (ushl 64 (Z.land value 0x00FF00FF00FF00FF) 8) in
  let value := Z.lor (Z.shiftr (Z.land value 0xFFFF0000FFFF0000) 16)
                     (ushl 64 (Z.land value 0x0000FFFF0000FFFF) 16) in
  Z.lor (Z.shiftr value 32) (ushl 64 value 32).

Definition GenerateLookupTable (polynomial : Z) (reflectInput : bool) : list Z :=
  generate_lookup_table 64 ReverseBits polynomial reflectInput.

Record ParameterSet := mk {
  polynomial_ : Z;
  initialValue_ : Z;
  finalXorValue_ : Z;
  reflectValues_ : bool;
  lookupTable_ : list Z
}.

Definition Create (polynomial initialValue finalXorValue : Z) (reflectValues : bool)
  : ParameterSet :=
  mk polynomial initialValue finalXorValue reflectValues
     (GenerateLookupTable polynomial reflectValues).

Definition getCrc64Property : ParameterSet :=
  Create 0x42F0E1EBA9EA3693 0x0000000000000000 0x0000000000000000 false.
Definition getNvmeProperty : ParameterSet :=
  Create 0xAD93D23594C93659 0xFFFFFFFFFFFFFFFF 0xFFFFFFFFFFFFFFFF true.

Definition Update (ps : ParameterSet) (value : Z) (source : pointer) (length : Z) : res Z :=
  _ <- ValidateSource source length ;;
  bytes <- read_span source length ;;
  update_loop 64 (lookupTable_ ps) (reflectValues_ ps) value bytes.

Definition Finalize (ps : ParameterSet) (value : Z) : Z := Z.lxor value (finalXorValue_ ps).

Definition WriteCrcToSpan (ps : ParameterSet) (crc : Z) (destination : pointer) : res pointer :=
  _ <- ValidateNonNullDestination destination ;;
  if reflectValues_ ps then write_span destination (little_endian 8 crc)
  else write_span destination (big_endian 8 crc).

(** ** Bit reversal *)

Definition terms_32 : list (Z * Z) :=
  [(0xFFFFFFFFFFFFFFFF, -32); (0xFFFFFFFFFFFFFFFF, 32)].
Definition terms_16 : list (Z * Z) :=
  [(0xFFFF0000FFFF0000, -16); (0x0000FFFF0000FFFF, 16)].
Definition terms_8 : list (Z * Z) :=
  [(0xFF00FF00FF00FF00, -8); (0x00FF00FF00FF00FF, 8)].
Definition terms_4 : list (Z * Z) :=
  [(0xF0F0F0F0F0F0F0F0, -4); (0x0F0F0F0F0F0F0F0F, 4)].
Definition terms_2 : list (Z * Z) :=
  [(0xCCCCCCCCCCCCCCCC, -2); (0x3333333333333333, 2)].
Definition terms_1 : list (Z * Z) :=
  [(0xAAAAAAAAAAAAAAAA, -1); (0x5555555555555555, 1)].

Lemma terms_32_ok : permutes 64 terms_32 (fun i => Z.lxor i 32) = true.
Proof. vm_compute. reflexivity. Qed.
Lemma terms_16_ok : permutes 64 terms_16 (fun i => Z.lxor i 16) = true.
Proof. vm_compute. reflexivity. Qed.
Lemma terms_8_ok : permutes 64 terms_8 (fun i => Z.lxor i 8) = true.
Proof. vm_compute. reflexivity. Qed.
Lemma crc64_terms_4_ok : permutes 64 terms_4 (fun i => Z.lxor i 4) = true.
Proof. vm_compute. reflexivity. Qed.
Lemma crc64_terms_2_ok : permutes 64 terms_2 (fun i => Z.lxor i 2) = true.
Proof. vm_compute. reflexivity. Qed.
Lemma crc64_terms_1_ok : permutes 64 terms_1 (fun i => Z.lxor i 1) = true.
Proof. vm_compute. reflexivity. Qed.

Lemma crc64_ReverseBits_moves value : in_u 64 value ->
  ReverseBits value = moves 64 terms_32 (moves 64 terms_16 (moves 64 terms_8 (moves 64 terms_4 (moves 64 terms_2 (moves 64 terms_1 value))))).
Proof.
  intros Hv. assert (Hmask : forall v, in_u 64 v -> Z.land v 0xFFFFFFFFFFFFFFFF = v).
  { intros v Hr. change 0xFFFFFFFFFFFFFFFF with (2 ^ 64 - 1). rewrite land_mask by lia.
    by apply Z.mod_small. }
  unfold ReverseBits. cbn zeta.
  set (v5 := moves 64 terms_16 _).
  assert (Hr : in_u 64 v5) by (by repeat apply moves_range).
  unfold terms_32. cbn [moves]. unfold moved. cbn [Z.leb Z.compare Z.opp].
  rewrite Hmask, Z.lor_0_r by done. unfold v5, terms_16, terms_8, terms_4, terms_2, terms_1.
  cbn [moves]. unfold moved. cbn [Z.leb Z.compare Z.opp]. by rewrite !Z.lor_0_r.
Qed.

Lemma crc64_xor_range i k : 0 <= i < 64 -> 0 <= k < 64 -> 0 <= Z.lxor i k < 64.
Proof. apply (lxor_in_u 6). lia. Qed.

(** The masks of [ReverseBits] write the value backwards. *)
Lemma crc64_ReverseBits_reverses : reverses 64 ReverseBits.
Proof.
  intros v Hv. split.
  - rewrite crc64_ReverseBits_moves by done. by repeat apply moves_range.
  - intros i Hi. rewrite crc64_ReverseBits_moves by done.
    rewrite (moves_bit _ _ _ _ _ terms_32_ok) by (repeat apply crc64_xor_range; lia).
    rewrite (moves_bit _ _ _ _ _ terms_16_ok) by (repeat apply crc64_xor_range; lia).
    rewrite (moves_bit _ _ _ _ _ terms_8_ok) by (repeat apply crc64_xor_range; lia).
    rewrite (moves_bit _ _ _ _ _ crc64_terms_4_ok) by (repeat apply crc64_xor_range; lia).
    rewrite (moves_bit _ _ _ _ _ crc64_terms_2_ok) by (repeat apply crc64_xor_range; lia).
    rewrite (moves_bit _ _ _ _ _ crc64_terms_1_ok) by (repeat apply crc64_xor_range; lia).
    f_equal. apply Z.eqb_eq.
    apply (range_check 64 (fun i => Z.lxor (Z.lxor (Z.lxor (Z.lxor (Z.lxor (Z.lxor i 32) 16) 8) 4) 2) 1 =? 63 - i)); [vm_compute; reflexivity | done].
Qed.

(** ** Parameter sets *)

(** A set as [Create] builds it: 64-bit values and the generated table. *)
Definition created (ps : ParameterSet) : Prop :=
  in_u 64 (polynomial_ ps) /\ in_u 64 (initialValue_ ps) /\ in_u 64 (finalXorValue_ ps) /\
  lookupTable_ ps = GenerateLookupTable (polynomial_ ps) (reflectValues_ ps).

Lemma crc64_Create_created p i x r : in_u 64 p -> in_u 64 i -> in_u 64 x -> created (Create p i x r).
Proof. intros. unfold created. auto. Qed.

(** The bit-serial register of a set after a message. *)
Definition register (ps : ParameterSet) (crc : Z) (message : list Z) : Z :=
  crc_bits 64 ReverseBits (polynomial_ ps) (reflectValues_ ps) crc message.

Lemma crc64_Update_exact ps crc b rest : created ps -> in_u 64 crc -> byte_list b ->
  Update ps crc (Some (b ++ rest)) (zlen b) = Ok (register ps crc b).
Proof.
  intros (Hp & _ & _ & Ht) Hc Hb. unfold Update.
  rewrite ValidateSource_prefix, read_span_prefix. cbn [bind]. rewrite Ht.
  apply update_loop_exact; (lia || done || apply crc64_ReverseBits_reverses).
Qed.

Lemma crc64_register_range ps crc b : created ps -> in_u 64 crc -> byte_list b ->
  in_u 64 (register ps crc b).
Proof.
  intros (Hp & _) Hc Hb. apply crc_bits_range; (lia || done || apply crc64_ReverseBits_reverses).
Qed.

Lemma crc64_register_app ps crc a b :
  register ps crc (a ++ b) = register ps (register ps crc a) b.
Proof. apply crc_bits_app. Qed.

Lemma crc64_Update_empty ps crc p : Update ps crc p 0 = Ok crc.
Proof. reflexivity. Qed.

(** The bytes of a finished value, in the order of the set. *)
Definition ordered (ps : ParameterSet) (crc : Z) : list Z :=
  if reflectValues_ ps then little_endian 8 crc else big_endian 8 crc.

Lemma crc64_WriteCrcToSpan_Some ps crc d :
  WriteCrcToSpan ps crc (Some d) = write_span (Some d) (ordered ps crc).
Proof. unfold WriteCrcToSpan, ordered. by destruct (reflectValues_ ps). Qed.

Lemma crc64_length_ordered ps crc : length (ordered ps crc) = 8%nat.
Proof. unfold ordered. by destruct (reflectValues_ ps). Qed.

End Crc64ParameterSet.

Module Crc64.
Import Crc64ParameterSet.

(** ** The object: [crc_] and the shared parameter set *)

Record Crc64 := mk { crc_ : Z; parameterSet_ : ParameterSet }.

Definition Size : Z := 8.

Definition new : Crc64 :=
  let ps := getCrc64Property in mk (initialValue_ ps) ps.

(** The constructor taking a [shared_ptr], which may be null. *)
Definition new_with (parameterSet : option ParameterSet) : res Crc64 :=
  match parameterSet with
  | None => Throw (ArgumentNullException "parameterSet" "Value cannot be null.")
  | Some ps => Ok (mk (initialValue_ ps) ps)
  end.

Definition Clone (c : Crc64) : Crc64 := mk (crc_ c) (parameterSet_ c).

Definition Append (c : Crc64) (source : pointer) (length : Z) : res Crc64 :=
  r <- Update (parameterSet_ c) (crc_ c) source length ;;
  Ok (mk r (parameterSet_ c)).

Definition Reset (c : Crc64) : Crc64 :=
  mk (initialValue_ (parameterSet_ c)) (parameterSet_ c).

Definition GetCurrentHashCore (c : Crc64) (destination : pointer) : res pointer :=
  WriteCrcToSpan (parameterSet_ c) (Finalize (parameterSet_ c) (crc_ c)) destination.

Definition GetHashAndResetCore (c : Crc64) (destination : pointer) : res (Crc64 * pointer) :=
  d <- WriteCrcToSpan (parameterSet_ c) (Finalize (parameterSet_ c) (crc_ c)) destination ;;
  Ok (mk (initialValue_ (parameterSet_ c)) (parameterSet_ c), d).

Definition GetCurrentHashAsUInt64 (c : Crc64) : Z := Finalize (parameterSet_ c) (crc_ c).

#[global] Instance Crc64_algorithm : HashAlgorithm Crc64 := {
  hashLengthInBytes_ := Size;
  virtual_Append := Append;
  virtual_Reset := Reset;
  virtual_GetCurrentHashCore := GetCurrentHashCore;
  virtual_GetHashAndResetCore := GetHashAndResetCore
}.

(** ** One-shot doors *)

Definition HashToUInt64_with (parameterSet : option ParameterSet) (source : pointer)
    (length : Z) : res Z :=
  match parameterSet with
  | None => Throw (ArgumentNullException "parameterSet" "Value cannot be null.")
  | Some ps =>
      crc <- Update ps (initialValue_ ps) source length ;;
      Ok (Finalize ps crc)
  end.

Definition HashToUInt64 (source : pointer) (length : Z) : res Z :=
  HashToUInt64_with (Some getCrc64Property) source length.

(** A null parameter set has already thrown when it is dereferenced. *)
Definition deref (parameterSet : option ParameterSet) : res ParameterSet :=
  match parameterSet with Some ps => Ok ps | None => UB end.

Definition Hash_with (parameterSet : option ParameterSet) (source : pointer) (length : Z)
  : res (list Z) :=
  hash <- HashToUInt64_with parameterSet source length ;;
  ps <- deref parameterSet ;;
  vector_of (WriteCrcToSpan ps hash (Some (new_vector Size))).

Definition Hash (source : pointer) (length : Z) : res (list Z) :=
  Hash_with (Some getCrc64Property) source length.

Definition Hash_to_with (parameterSet : option ParameterSet) (source : pointer) (length : Z)
    (destination : pointer) (destinationLength : Z) : res (Z * pointer) :=
  _ <- ValidateDestination destination destinationLength Size ;;
  hash <- HashToUInt64_with parameterSet source length ;;
  ps <- deref parameterSet ;;
  d <- WriteCrcToSpan ps hash destination ;;
  Ok (Size, d).

Definition Hash_to (source : pointer) (length : Z) (destination : pointer)
    (destinationLength : Z) : res (Z * pointer) :=
  Hash_to_with (Some getCrc64Property) source length destination destinationLength.

Definition TryHash_with (parameterSet : option ParameterSet) (source : pointer) (length : Z)
    (destination : pointer) (destinationLength : Z) : res (bool * Z * pointer) :=
  b <- TryValidateDestination destination destinationLength Size ;;
  if negb b then Ok (false, 0, destination)
  else
    hash <- HashToUInt64_with parameterSet source length ;;
    ps <- deref parameterSet ;;
    d <- WriteCrcToSpan ps hash destination ;;
    Ok (true, Size, d).

Definition TryHash (source : pointer) (length : Z) (destination : pointer)
    (destinationLength : Z) : res (bool * Z * pointer) :=
  TryHash_with (Some getCrc64Property) source length destination destinationLength.

(** ** Contract *)

(** The hash of a message under a set: the finished register, in its order. *)
Definition digest (ps : ParameterSet) (message : list Z) : list Z :=
  ordered ps (Z.lxor (register ps (initialValue_ ps) message) (finalXorValue_ ps)).

Definition refines (c : Crc64) (ps : ParameterSet) (message : list Z) : Prop :=
  byte_list message /\ created ps /\ parameterSet_ c = ps /\
  crc_ c = register ps (initialValue_ ps) message.

Lemma crc64_refines_new_with ps c : created ps -> new_with (Some ps) = Ok c -> refines c ps [].
Proof.
  intros Hps [= <-]. split; [constructor|]. split; [done|]. split; [done|].
  unfold register, crc_bits. by destruct (reflectValues_ ps).
Qed.

#[global] Instance Crc64_contract : HashContract Crc64 ParameterSet refines digest.
Proof.
  split.
  - done.
  - intros s ps m _. unfold digest. by rewrite crc64_length_ordered.
  - intros s ps m b rest (Hm & Hps & Hset & Hc) Hb _ _. cbn. unfold Append.
    assert (Hi : in_u 64 (initialValue_ ps)) by apply Hps.
    rewrite Hset, Hc, crc64_Update_exact by (done || by apply crc64_register_range).
    eexists. split; [reflexivity|]. split; [by apply Forall_app|].
    split; [done|]. split; [done|]. cbn [crc_]. by rewrite crc64_register_app.
  - intros [] ps m p _. reflexivity.
  - intros s p n e He. cbn. unfold Append, Update. by rewrite He.
  - intros s ps m (_ & Hps & <- & _). by apply (crc64_refines_new_with _ _ Hps).
  - intros s ps m d (_ & _ & <- & Hc). cbn [virtual_GetCurrentHashCore Crc64_algorithm].
    unfold GetCurrentHashCore, Finalize.
    by rewrite crc64_WriteCrcToSpan_Some, Hc.
  - intros s ps m d (_ & _ & <- & Hc). cbn [virtual_GetHashAndResetCore Crc64_algorithm].
    unfold GetHashAndResetCore, Finalize.
    by rewrite crc64_WriteCrcToSpan_Some, Hc.
Qed.

(** for every polynomial, initial and final value and both orientations,
    the table-driven update computes the bit-serial CRC of width 64 exactly,
    whatever was absorbed before; the one-shot value is the finished register, and its bytes
    are written least significant first exactly when the set reflects. *)
Theorem Crc64_exact : forall p i x r (m b rest : list Z),
  in_u 64 p -> in_u 64 i -> in_u 64 x -> byte_list m -> byte_list b ->
  let ps := Create p i x r in
  let source := Some (b ++ rest) in
  Update ps (crc_bits 64 ReverseBits p r i m) source (zlen b)
    = Ok (crc_bits 64 ReverseBits p r i (m ++ b)) /\
  HashToUInt64_with (Some ps) source (zlen b)
    = Ok (Z.lxor (crc_bits 64 ReverseBits p r i b) x) /\
  Hash_with (Some ps) source (zlen b)
    = Ok (let h := Z.lxor (crc_bits 64 ReverseBits p r i b) x in
          if r then little_endian 8 h else big_endian 8 h) /\
  HashToUInt64 source (zlen b) = HashToUInt64_with (Some getCrc64Property) source (zlen b).
Proof.
  intros p i x r m b rest Hp Hi Hx Hm Hb ps source.
  assert (Hps : created ps) by (by apply crc64_Create_created).
  assert (Hone : HashToUInt64_with (Some ps) source (zlen b)
                 = Ok (Z.lxor (register ps i b) x)).
  { unfold HashToUInt64_with, source. by rewrite crc64_Update_exact. }
  split; [|split; [exact Hone|split]].
  - change (crc_bits 64 ReverseBits p r i m) with (register ps i m).
    unfold source. rewrite crc64_Update_exact by (done || by apply crc64_register_range).
    by rewrite <- crc64_register_app.
  - unfold Hash_with. rewrite Hone. cbn [bind deref]. rewrite crc64_WriteCrcToSpan_Some.
    apply (vector_of_write (ordered ps _)). by rewrite crc64_length_ordered.
  - reflexivity.
Qed.

(** "123456789", the check value of CRC-64 (ECMA-182). *)
Lemma Crc64_exact_witness :
  Hash_with (Some getCrc64Property) (Some ([49; 50; 51; 52; 53; 54; 55; 56; 57] ++ [0])) 9
    = Ok (big_endian 8 0x6C40DF5F0B497347).
Proof.
  refine (eq_trans (proj1 (proj2 (proj2 (Crc64_exact 0x42F0E1EBA9EA3693 0 0 false
            [49; 50; 51; 52] [49; 50; 51; 52; 53; 54; 55; 56; 57] [0] _ _ _ _ _)))) _);
    [done | done | done | | | vm_compute; reflexivity];
    unfold byte_list, in_u; repeat constructor; done.
Defined.

End Crc64.
