(* ===== verification/BlockBuffer.v ===== *)
(** * Buffered absorption of fixed-size blocks

    [XxHash32::Append] and [XxHash64::Append] are the same loop over a block
    size: top up a partial block, process whole blocks from the source, keep
    the remainder.  This file holds that code over the block size and the
    block function, and the proof that it depends only on the concatenation
    of everything appended. *)

From S2P Require Export HashBase.

Module BlockBuffer.

(** ** Loops over a pointer and what remains *)

(** [while (remaining >= n) { a = f(a, p); p += n; remaining -= n; }]: the
    final value and what is left; every iteration consumes, so the length of
    the source is enough fuel. *)
Fixpoint while_blocks {A} (n : nat) (f : A -> list Z -> A) (fuel : nat) (a : A) (p : list Z)
  : res (A * list Z) :=
  if (n <=? length p)%nat then
    match fuel with
    | O => UB
    | S fuel => while_blocks n f fuel (f a (take n p)) (drop n p)
    end
  else Ok (a, p).

(** [memcpy(dst + off, src, |src|)]: undefined outside the array. *)
Definition memcpy (dst : list Z) (off : Z) (src : list Z) : res (list Z) :=
  if (0 <=? off) && (off + zlen src <=? zlen dst) then
    Ok (take (Z.to_nat off) dst ++ src ++ drop (Z.to_nat off + length src) dst)
  else UB.

(** ** The buffered state *)

Record Buffered (L : Type) := mk { lanes : L; buf_ : list Z; bufLen_ : Z }.
Arguments mk {L}.
Arguments lanes {L}.
Arguments buf_ {L}.
Arguments bufLen_ {L}.

Section Code.
Context {L : Type} (B : nat) (processBlock : L -> list Z -> L).

(** The whole blocks of the source, then its remainder. *)
Definition append_tail (l : L) (buf p : list Z) : res (Buffered L) :=
  r <- while_blocks B processBlock (length p) l p ;;
  let '(l, p) := r in
  let bufLen := zlen p in
  buf <- (if 0 <? bufLen then memcpy buf 0 p else Ok buf) ;;
  Ok (mk l buf bufLen).

(** [Append] after validation, on a source of positive length. *)
Definition append_bytes (h : Buffered L) (p : list Z) : res (Buffered L) :=
  if 0 <? bufLen_ h then
    let need := Z.of_nat B - bufLen_ h in
    let copy := if zlen p <? need then zlen p else need in
    buf <- memcpy (buf_ h) (bufLen_ h) (take (Z.to_nat copy) p) ;;
    let bufLen := bufLen_ h + copy in
    let p := drop (Z.to_nat copy) p in
    if bufLen <? Z.of_nat B then Ok (mk (lanes h) buf bufLen)
    else append_tail (processBlock (lanes h) buf) buf p
  else append_tail (lanes h) (buf_ h) p.
End Code.

(** ** The message in blocks *)

Definition blocks_of (B : nat) (m : list Z) : list (list Z) :=
  (fun i => take B (drop (i * B)%nat m)) <$> seq 0 (length m / B).

Definition remainder_of (B : nat) (m : list Z) : list Z :=
  drop (length m / B * B)%nat m.

(** A cut of a message into whole blocks and a shorter remainder. *)
Definition cut (B : nat) (m : list Z) (blocks : list (list Z)) (rest : list Z) : Prop :=
  m = concat blocks ++ rest /\ Forall (fun b => length b = B) blocks /\ (length rest < B)%nat.

Section Cut.
Context (B : nat) (HB : (0 < B)%nat).

Lemma length_concat_blocks (blocks : list (list Z)) :
  Forall (fun b => length b = B) blocks -> length (concat blocks) = (length blocks * B)%nat.
Proof.
  induction 1 as [|b l Hb _ IH]; [done|]. cbn [concat length]. rewrite length_app. lia.
Qed.

Lemma cut_short m : (length m < B)%nat -> cut B m [] m.
Proof. intros. by repeat split. Qed.

Lemma cut_cons b m blocks rest : length b = B -> cut B m blocks rest ->
  cut B (b ++ m) (b :: blocks) rest.
Proof.
  intros Hb (-> & Hbs & Hr). split; [cbn; by rewrite app_assoc|]. by split; [constructor|].
Qed.

(** There is only one cut. *)
Lemma cut_unique m blocks rest : cut B m blocks rest ->
  blocks_of B m = blocks /\ remainder_of B m = rest.
Proof.
  intros (-> & Hb & Hr).
  assert (Hdiv : (length (concat blocks ++ rest) / B = length blocks)%nat).
  { rewrite length_app, length_concat_blocks by done. symmetry.
    apply Nat.div_unique with (length rest); lia. }
  unfold blocks_of, remainder_of. rewrite Hdiv. split.
  - clear Hdiv. induction Hb as [|b l Hb Hl IH]; [done|].
    cbn [length seq fmap list_fmap]. rewrite <- fmap_S_seq. f_equal.
    + cbn [concat]. by rewrite <- app_assoc, drop_0, <- Hb, take_app_length.
    + rewrite <- IH at 2. rewrite <- list_fmap_compose. apply list_fmap_ext.
      intros i x _. cbn [compose concat]. f_equal.
      rewrite <- app_assoc, drop_app_ge by lia. f_equal. lia.
  - by rewrite <- length_concat_blocks, drop_app_length by done.
Qed.

Lemma cut_exists m : cut B m (blocks_of B m) (remainder_of B m).
Proof.
  assert (H : forall n m, (length m <= n)%nat -> exists blocks rest, cut B m blocks rest).
  { clear m. induction n as [|n IH]; intros m Hm.
    - exists [], m. apply cut_short. lia.
    - destruct (decide (length m < B)%nat); [exists [], m; by apply cut_short|].
      destruct (IH (drop B m)) as (bs & r & Hc); [rewrite length_drop; lia|].
      exists (take B m :: bs), r. rewrite <- (take_drop B m) at 1.
      apply cut_cons; [rewrite length_take; lia | done]. }
  destruct (H (length m) m) as (bs & r & Hc); [done|].
  by destruct (cut_unique _ _ _ Hc) as [-> ->].
Qed.

(** The loop folds the block function over the blocks. *)
Lemma while_blocks_cut {A} (f : A -> list Z -> A) blocks : forall fuel a m rest,
  cut B m blocks rest -> (length m <= fuel)%nat ->
  while_blocks B f fuel a m = Ok (fold_left f blocks a, rest).
Proof.
  induction blocks as [|b blocks IH]; intros fuel a m rest (-> & Hb & Hr) Hf.
  - cbn [concat app fold_left]. destruct fuel; cbn [while_blocks];
      by rewrite (proj2 (Nat.leb_gt _ _)) by lia.
  - apply Forall_cons in Hb as [Hb Hbs]. cbn [concat] in Hf |- *.
    rewrite <- app_assoc in Hf |- *. rewrite length_app in Hf.
    destruct fuel as [|fuel]; [lia|]. cbn [while_blocks].
    rewrite (proj2 (Nat.leb_le _ _)) by (rewrite length_app; lia).
    rewrite take_app_length', drop_app_length' by done. cbn [fold_left].
    apply IH; [done | lia].
Qed.

Lemma while_blocks_spec {A} (f : A -> list Z -> A) a m :
  while_blocks B f (length m) a m = Ok (fold_left f (blocks_of B m) a, remainder_of B m).
Proof. apply while_blocks_cut; [apply cut_exists | done]. Qed.

Lemma cut_app m blocks rest m' blocks' rest' :
  cut B m blocks rest -> cut B (rest ++ m') blocks' rest' ->
  cut B (m ++ m') (blocks ++ blocks') rest'.
Proof.
  intros (-> & Hb & _) (Hm' & Hb' & Hr'). split; [|split; [by apply Forall_app|done]].
  by rewrite concat_app, <- !app_assoc, <- Hm'.
Qed.
End Cut.

(** ** Appending absorbs *)

Lemma memcpy_Ok dst off src : 0 <= off -> off + zlen src <= zlen dst ->
  memcpy dst off src
  = Ok (take (Z.to_nat off) dst ++ src ++ drop (Z.to_nat off + length src) dst).
Proof. intros. unfold memcpy. by decide_cmp. Qed.

Lemma memcpy_0 dst src : zlen src <= zlen dst ->
  memcpy dst 0 src = Ok (src ++ drop (length src) dst).
Proof. intros. by rewrite memcpy_Ok by lia. Qed.


Section Absorb.
Context {L : Type} (B : nat) (HB : (0 < B)%nat) (processBlock : L -> list Z -> L) (init : L).

(** The state after the message [m]: its blocks processed, its remainder in
    the first [bufLen_] bytes of the buffer (whose other bytes are stale). *)
Definition holds (h : Buffered L) (m : list Z) : Prop :=
  lanes h = fold_left processBlock (blocks_of B m) init /\
  bufLen_ h = zlen (remainder_of B m) /\ length (buf_ h) = B /\
  take (length (remainder_of B m)) (buf_ h) = remainder_of B m.

Lemma holds_cut l buf n m blocks rest : cut B m blocks rest ->
  l = fold_left processBlock blocks init -> n = zlen rest -> length buf = B ->
  take (length rest) buf = rest -> holds (mk l buf n) m.
Proof.
  intros Hc -> -> Hl Ht. destruct (cut_unique B HB _ _ _ Hc) as [E1 E2].
  unfold holds. cbn [lanes bufLen_ buf_]. by rewrite E1, E2.
Qed.

Lemma holds_nil buf : length buf = B -> holds (mk init buf 0) [].
Proof.
  intros Hb. by apply (holds_cut _ _ _ _ [] []).
Qed.

Lemma append_tail_holds l buf p m blocks : cut B m blocks [] ->
  l = fold_left processBlock blocks init -> length buf = B ->
  exists h, append_tail B processBlock l buf p = Ok h /\ holds h (m ++ p).
Proof.
  intros Hm -> Hbuf. unfold append_tail. rewrite while_blocks_spec by done. cbn [bind].
  pose proof (cut_exists B HB p) as Hp. set (bs := blocks_of B p) in *.
  set (r := remainder_of B p) in *.
  assert (Hr : (length r < B)%nat) by apply Hp.
  assert (Hcut : cut B (m ++ p) (blocks ++ bs) r) by (by eapply cut_app).
  rewrite <- fold_left_app. split_if.
  - rewrite memcpy_0 by lia. cbn [bind].
    eexists. split; [reflexivity|]. apply (holds_cut _ _ _ _ _ _ Hcut); try done.
    + rewrite length_app, length_drop. lia.
    + by rewrite take_app_length.
  - cbn [bind]. eexists. split; [reflexivity|].
    apply (holds_cut _ _ _ _ _ _ Hcut); try done. by destruct r; [|cbn in E; lia].
Qed.

Lemma append_bytes_holds h m p : holds h m ->
  exists h', append_bytes B processBlock h p = Ok h' /\ holds h' (m ++ p).
Proof.
  destruct h as [l buf n]. intros (Hl & Hn & Hbuf & Ht). cbn [lanes bufLen_ buf_] in *.
  pose proof (cut_exists B HB m) as Hm. set (bs := blocks_of B m) in *.
  set (r := remainder_of B m) in *. assert (Hr : (length r < B)%nat) by apply Hm.
  clearbody bs r. unfold append_bytes. cbn [lanes bufLen_ buf_]. split_if.
  2:{ assert (r = []) as Hr0 by (destruct r; [done | cbn in Hn; lia]). rewrite Hr0 in Hm.
      by apply (append_tail_holds _ _ _ _ bs). }
  set (copy := if zlen p <? Z.of_nat B - n then zlen p else Z.of_nat B - n).
  assert (Hcopy : 0 <= copy <= zlen p /\ n + copy <= Z.of_nat B /\
                  (n + copy < Z.of_nat B -> copy = zlen p)) by (unfold copy; split_if; lia).
  clearbody copy. destruct Hcopy as (Hc1 & Hc2 & Hc3).
  assert (Htake : length (take (Z.to_nat copy) p) = Z.to_nat copy)
    by (rewrite length_take; lia).
  rewrite memcpy_Ok by lia. cbn [bind]. replace (Z.to_nat n) with (length r) by lia.
  rewrite Ht, Htake.
  assert (Hcat : (r ++ take (Z.to_nat copy) p) ++ drop (Z.to_nat copy) p = r ++ p)
    by (by rewrite <- app_assoc, take_drop).
  split_if.
  - rewrite take_ge, app_assoc by lia. eexists. split; [reflexivity|].
    apply (holds_cut _ _ _ _ bs (r ++ p)); try done.
    + destruct Hm as (-> & Hb & _). split; [by rewrite app_assoc|]. split; [done|].
      rewrite length_app. lia.
    + rewrite length_app. lia.
    + rewrite !length_app, length_drop. lia.
    + by rewrite take_app_length.
  - rewrite (drop_ge buf), app_nil_r by lia.
    destruct (append_tail_holds
                (processBlock l (r ++ take (Z.to_nat copy) p)) (r ++ take (Z.to_nat copy) p)
                (drop (Z.to_nat copy) p) (m ++ take (Z.to_nat copy) p)
                (bs ++ [r ++ take (Z.to_nat copy) p])) as (h' & Hh & Hh').
    + apply (cut_app B m bs r); [done|].
      rewrite <- (app_nil_r (r ++ _)) at 1. apply cut_cons; [rewrite length_app; lia|].
      by apply cut_short.
    + by rewrite fold_left_app, Hl.
    + rewrite length_app. lia.
    + exists h'. split; [done|]. by rewrite <- app_assoc, take_drop in Hh'.
Qed.
End Absorb.

End BlockBuffer.
Export BlockBuffer.
