(* ===== verification/XxHash32.v ===== *)
(** * xxHash32

    [System::IO::Hashing::XxHash32]: the four-lane state, its buffered
    [Append], the finalization and the one-shot doors, with the proof that any
    way of cutting a message into appends gives the one-shot hash. *)

From S2P Require Export BlockBuffer.

Module XxHash32.

Definition Size : Z := 4.
Definition Prime1 : Z := 0x9E3779B1.
Definition Prime2 : Z := 0x85EBCA77.
Definition Prime3 : Z := 0xC2B2AE3D.
Definition Prime4 : Z := 0x27D4EB2F.
Definition Prime5 : Z := 0x165667B1.

Definition rotl32 (v n : Z) : Z := Z.lor (ushl 32 v n) (Z.shiftr v (32 - n)).

Definition round (acc input : Z) : Z :=
  let acc := uadd 32 acc (umul 32 input Prime2) in
  let acc := rotl32 acc 13 in
  umul 32 acc Prime1.

(** [v1_] to [v4_]. *)
Record Lanes := lanes_of { v1_ : Z; v2_ : Z; v3_ : Z; v4_ : Z }.

(** The object: the seed, the running length and the lanes with the buffered
    partial block. *)
Record XxHash32 := mk { seed_ : Z; totalLength_ : Z; blocks_ : Buffered Lanes }.

Definition initState (seed : Z) : Lanes :=
  lanes_of (uadd 32 (uadd 32 seed Prime1) Prime2) (uadd 32 seed Prime2)
           seed (usub 32 seed Prime1).

Definition processBlock (v : Lanes) (block : list Z) : Lanes :=
  lanes_of (round (v1_ v) (ReadUInt32LittleEndian block))
           (round (v2_ v) (ReadUInt32LittleEndian (drop 4 block)))
           (round (v3_ v) (ReadUInt32LittleEndian (drop 8 block)))
           (round (v4_ v) (ReadUInt32LittleEndian (drop 12 block))).

(** The constructor: the seed is signed in the interface. *)
Definition new (seed : Z) : XxHash32 :=
  let seed := u32 seed in
  mk seed 0 (BlockBuffer.mk (initState seed) (replicate 16 0) 0).

(** The private constructor copies the buffered bytes into a zeroed buffer. *)
Definition Clone (h : XxHash32) : res XxHash32 :=
  let b := blocks_ h in
  buf <- (if 0 <? bufLen_ b
          then memcpy (replicate 16 0) 0 (take (Z.to_nat (bufLen_ b)) (buf_ b))
          else Ok (replicate 16 0)) ;;
  Ok (mk (seed_ h) (totalLength_ h) (BlockBuffer.mk (lanes b) buf (bufLen_ b))).

(** The buffer keeps its stale bytes. *)
Definition Reset (h : XxHash32) : XxHash32 :=
  mk (seed_ h) 0 (BlockBuffer.mk (initState (seed_ h)) (buf_ (blocks_ h)) 0).

Definition Append (h : XxHash32) (source : pointer) (length : Z) : res XxHash32 :=
  _ <- ValidateSource source length ;;
  if length =? 0 then Ok h
  else
    let totalLength := uadd 64 (totalLength_ h) (u64 length) in
    p <- read_span source length ;;
    b <- append_bytes 16 processBlock (blocks_ h) p ;;
    Ok (mk (seed_ h) totalLength b).

(** The bodies of the two loops over the buffered bytes. *)
Definition lane_step (h32 : Z) (p : list Z) : Z :=
  let lane := ReadUInt32LittleEndian p in
  let h32 := uadd 32 h32 (umul 32 lane Prime3) in
  umul 32 (rotl32 h32 17) Prime4.

Definition byte_step (h32 : Z) (p : list Z) : Z :=
  let h32 := uadd 32 h32 (umul 32 (at_ p 0) Prime5) in
  umul 32 (rotl32 h32 11) Prime1.

Definition avalanche (h32 : Z) : Z :=
  let h32 := umul 32 (Z.lxor h32 (Z.shiftr h32 15)) Prime2 in
  let h32 := umul 32 (Z.lxor h32 (Z.shiftr h32 13)) Prime3 in
  Z.lxor h32 (Z.shiftr h32 16).

Definition merged (v : Lanes) : Z :=
  uadd 32 (uadd 32 (uadd 32 (rotl32 (v1_ v) 1) (rotl32 (v2_ v) 7)) (rotl32 (v3_ v) 12))
          (rotl32 (v4_ v) 18).

Definition GetCurrentHashAsUInt32 (h : XxHash32) : res Z :=
  let b := blocks_ h in
  let h32 := if 16 <=? totalLength_ h then merged (lanes b)
             else uadd 32 (seed_ h) Prime5 in
  let h32 := uadd 32 h32 (u32 (totalLength_ h)) in
  p <- read_span (Some (buf_ b)) (bufLen_ b) ;;
  r <- while_blocks 4 lane_step (length p) h32 p ;;
  r <- while_blocks 1 byte_step (length (snd r)) (fst r) (snd r) ;;
  Ok (avalanche (fst r)).

Definition GetCurrentHashCore (h : XxHash32) (destination : pointer) : res pointer :=
  h32 <- GetCurrentHashAsUInt32 h ;;
  write_span destination
    [u8 (Z.shiftr h32 24); u8 (Z.shiftr h32 16); u8 (Z.shiftr h32 8); u8 h32].

#[global] Instance XxHash32_algorithm : HashAlgorithm XxHash32 := {
  hashLengthInBytes_ := Size;
  virtual_Append := Append;
  virtual_Reset := Reset;
  virtual_GetCurrentHashCore := GetCurrentHashCore;
  virtual_GetHashAndResetCore s destination :=
    d <- GetCurrentHashCore s destination ;; Ok (Reset s, d)
}.

(** ** One-shot doors *)

Definition Hash (source : pointer) (length seed : Z) : res (list Z) :=
  h <- Append (new seed) source length ;;
  vector_of (GetCurrentHashCore h (Some (new_vector Size))).

Definition Hash_to (source : pointer) (length : Z) (destination : pointer)
    (destinationLength seed : Z) : res (Z * pointer) :=
  _ <- ValidateDestination destination destinationLength Size ;;
  h <- Append (new seed) source length ;;
  d <- GetCurrentHashCore h destination ;;
  Ok (Size, d).

Definition TryHash (source : pointer) (length : Z) (destination : pointer)
    (destinationLength seed : Z) : res (bool * Z * pointer) :=
  b <- TryValidateDestination destination destinationLength Size ;;
  if negb b then Ok (false, 0, destination)
  else
    h <- Append (new seed) source length ;;
    d <- GetCurrentHashCore h destination ;;
    Ok (true, Size, d).

Definition HashToUInt32 (source : pointer) (length seed : Z) : res Z :=
  h <- Append (new seed) source length ;;
  GetCurrentHashAsUInt32 h.

(** ** Reference: the whole message at once

    The specification's description: blocks of 16 bytes through the lanes,
    then the remainder in lanes of 4 bytes and single bytes. *)

Definition singles (l : list Z) : list (list Z) := (fun x => [x]) <$> l.

Definition tail_hash (acc : Z) (rest : list Z) : Z :=
  let acc := fold_left lane_step (blocks_of 4 rest) acc in
  let rest := remainder_of 4 rest in
  avalanche (fold_left byte_step (singles rest) acc).

Definition reference (seed : Z) (message : list Z) : Z :=
  let acc :=
    if zlen message <? 16 then uadd 32 seed Prime5
    else merged (fold_left processBlock (blocks_of 16 message) (initState seed)) in
  tail_hash (uadd 32 acc (zlen message)) (remainder_of 16 message).

(** ** Streaming *)

Definition refines (h : XxHash32) (seed : Z) (message : list Z) : Prop :=
  byte_list message /\ seed_ h = seed /\ totalLength_ h = zlen message /\
  zlen message < 2 ^ 64 /\ holds 16 processBlock (initState seed) (blocks_ h) message.

Definition digest (seed : Z) (message : list Z) : list Z :=
  big_endian 4 (reference seed message).

Lemma xx32_refines_new seed : refines (new seed) (u32 seed) [].
Proof.
  do 4 (split; [done || constructor|]). unfold new. cbn [blocks_].
  apply holds_nil; [lia | apply length_replicate].
Qed.

Lemma xx32_singles_cut l : cut 1 l (singles l) [].
Proof.
  split; [|split; [by apply Forall_fmap, Forall_true | cbn; lia]].
  rewrite app_nil_r. induction l as [|x l IH]; [done|]. cbn. by f_equal.
Qed.

Lemma xx32_read_buffer h seed m : refines h seed m ->
  read_span (Some (buf_ (blocks_ h))) (bufLen_ (blocks_ h)) = Ok (remainder_of 16 m).
Proof.
  intros (_ & _ & _ & _ & _ & Hn & Hl & Ht). rewrite Hn. rewrite <- Ht at 2.
  rewrite <- (take_drop (length (remainder_of 16 m)) (buf_ (blocks_ h))) at 1.
  rewrite Ht. apply read_span_prefix.
Qed.

Lemma uadd_u32 a b : uadd 32 a (u32 b) = uadd 32 a b.
Proof. unfold uadd, u32, wrapu. by rewrite Z.add_mod_idemp_r by lia. Qed.

Lemma xx32_GetCurrentHash_reference h seed m : refines h seed m ->
  GetCurrentHashAsUInt32 h = Ok (reference seed m).
Proof.
  intros Hr. unfold GetCurrentHashAsUInt32. rewrite (xx32_read_buffer _ _ _ Hr). cbn [bind].
  destruct Hr as (_ & -> & -> & Hlen & Hlanes & _). rewrite Hlanes.
  rewrite (while_blocks_spec 4) by lia. cbn [bind fst snd].
  rewrite (while_blocks_cut 1 ltac:(lia) _ _ _ _ _ _ (xx32_singles_cut _)) by done.
  cbn [bind fst snd]. unfold reference, tail_hash.
  replace (zlen m <? 16) with (negb (16 <=? zlen m)) by lia.
  rewrite uadd_u32. destruct (16 <=? zlen m); reflexivity.
Qed.

Lemma xx32_Append_absorbs h seed m b rest : refines h seed m -> byte_list b ->
  zlen b <= INTCS_MAX -> zlen m + zlen b < 2 ^ 64 ->
  exists h', Append h (Some (b ++ rest)) (zlen b) = Ok h' /\ refines h' seed (m ++ b).
Proof.
  intros (Hm & Hs & Ht & Hlen & Hb) Hbytes Hmax Htot. unfold Append.
  rewrite ValidateSource_prefix, read_span_prefix. cbn [bind].
  destruct (append_bytes_holds 16 ltac:(lia) processBlock _ _ _ b Hb) as (b' & Hb' & Hh').
  split_if.
  - destruct b; [|cbn in E; lia]. rewrite app_nil_r. by exists h.
  - rewrite Hb'. cbn [bind]. eexists. split; [reflexivity|].
    split; [by apply Forall_app|]. cbn [seed_ totalLength_ blocks_].
    split; [done|]. rewrite length_app. split; [|split; [lia|done]].
    rewrite Ht. unfold uadd. unfold u64 at 1. rewrite (wrapu_id 64 (zlen b)) by (unfold in_u; lia).
    rewrite wrapu_id by (unfold in_u; lia). lia.
Qed.

#[global] Instance XxHash32_contract : HashContract XxHash32 Z refines digest.
Proof.
  split.
  - done.
  - intros s seed m _. unfold digest. by rewrite length_big_endian.
  - intros s seed m b rest. apply xx32_Append_absorbs.
  - done.
  - intros s p n e He. cbn. unfold Append. by rewrite He.
  - intros s seed m (_ & <- & _ & _ & _ & _ & Hl & _). split; [constructor|].
    do 3 (split; [done|]). by apply holds_nil; [lia|].
  - intros s seed m d Hr. cbn [virtual_GetCurrentHashCore XxHash32_algorithm].
    unfold GetCurrentHashCore. rewrite (xx32_GetCurrentHash_reference _ _ _ Hr).
    unfold digest. by generalize (reference seed m).
  - intros s seed m d Hr. cbn [virtual_GetHashAndResetCore XxHash32_algorithm virtual_Reset].
    unfold GetCurrentHashCore. rewrite (xx32_GetCurrentHash_reference _ _ _ Hr).
    unfold digest. by generalize (reference seed m).
Qed.

(** The state after a sequence of appends. *)
Fixpoint append_all (h : XxHash32) (parts : list (list Z)) : res XxHash32 :=
  match parts with
  | [] => Ok h
  | p :: parts => h <- Append h (Some p) (zlen p) ;; append_all h parts
  end.

(** A clone refines the same message. *)
Lemma xx32_Clone_refines h seed m : refines h seed m ->
  exists c, Clone h = Ok c /\ refines c seed m.
Proof.
  intros (Hm & Hs & Ht & Hlen & Hl & Hn & Hbuf & Htake). unfold Clone.
  assert (Hr : (length (remainder_of 16 m) < 16)%nat) by (by apply (cut_exists 16 ltac:(lia) m)).
  rewrite Hn, Nat2Z.id, Htake.
  assert (Hbuf' : exists buf, (if 0 <? zlen (remainder_of 16 m)
      then memcpy (replicate 16 0) 0 (remainder_of 16 m) else Ok (replicate 16 0)) = Ok buf /\
      length buf = 16%nat /\ take (length (remainder_of 16 m)) buf = remainder_of 16 m).
  { split_if.
    - rewrite memcpy_0 by (rewrite length_replicate; lia). eexists. split; [reflexivity|].
      split; [rewrite length_app, length_drop, length_replicate; lia | apply take_app_length].
    - exists (replicate 16 0). split; [done|]. split; [apply length_replicate|].
      by destruct (remainder_of 16 m); [|cbn in E; lia]. }
  destruct Hbuf' as (buf & -> & Hb1 & Hb2). cbn [bind]. eexists. split; [reflexivity|].
  repeat (split; [done|]). by cbn [blocks_ lanes bufLen_ buf_].
Qed.

Lemma xx32_append_all_refines parts : forall h seed m, refines h seed m ->
  Forall byte_list parts -> Forall (fun p => zlen p <= INTCS_MAX) parts ->
  zlen m + zlen (concat parts) < 2 ^ 64 ->
  exists h', append_all h parts = Ok h' /\ refines h' seed (m ++ concat parts).
Proof.
  induction parts as [|p parts IH]; intros h seed m Hr Hb Hmax Hlen.
  - exists h. cbn [concat]. by rewrite app_nil_r.
  - apply Forall_cons in Hb as [Hp Hb]. apply Forall_cons in Hmax as [Hpm Hmax].
    cbn [concat] in Hlen |- *. rewrite length_app in Hlen.
    destruct (xx32_Append_absorbs h seed m p [] Hr Hp Hpm ltac:(lia)) as (h1 & Hh1 & Hr1).
    rewrite app_nil_r in Hh1. cbn [append_all]. rewrite Hh1. cbn [bind].
    destruct (IH h1 seed (m ++ p) Hr1 Hb Hmax) as (h' & Hh' & Hr').
    { rewrite length_app. lia. }
    exists h'. by rewrite app_assoc.
Qed.

(** however a message is cut into appends, after them the object returns
    the hash the specification defines on the whole message with the object's
    seed (lanes, buffered remainder and length included), the one-shot call
    returns the same value, and so does a clone. *)
Theorem XxHash32_streaming : forall seed (parts : list (list Z)),
  Forall byte_list parts -> Forall (fun p => zlen p <= INTCS_MAX) parts ->
  zlen (concat parts) < 2 ^ 64 ->
  exists h c, append_all (new seed) parts = Ok h /\ Clone h = Ok c /\
    GetCurrentHashAsUInt32 h = Ok (reference (u32 seed) (concat parts)) /\
    GetCurrentHashAsUInt32 c = Ok (reference (u32 seed) (concat parts)) /\
    (zlen (concat parts) <= INTCS_MAX ->
     HashToUInt32 (Some (concat parts)) (zlen (concat parts)) seed
     = Ok (reference (u32 seed) (concat parts))).
Proof.
  intros seed parts Hb Hmax Hlen.
  destruct (xx32_append_all_refines parts (new seed) (u32 seed) [] (xx32_refines_new seed) Hb Hmax)
    as (h & Hh & Hr); [cbn [length]; lia|].
  destruct (xx32_Clone_refines h _ _ Hr) as (c & Hc & Hcr). exists h, c.
  repeat (split; [done || by apply xx32_GetCurrentHash_reference|]).
  intros Hone. unfold HashToUInt32.
  assert (Hbytes : byte_list (concat parts)) by (by apply Forall_concat).
  destruct (xx32_Append_absorbs (new seed) (u32 seed) [] (concat parts) [] (xx32_refines_new seed))
    as (h1 & Hh1 & Hr1); [done | lia | cbn [length]; lia |].
  rewrite app_nil_r in Hh1. rewrite Hh1. by apply xx32_GetCurrentHash_reference.
Qed.

(** "abc" with seed 0, appended as "a", nothing, "bc". *)
Lemma XxHash32_streaming_witness :
  (exists h, append_all (new 0) [[97]; []; [98; 99]] = Ok h /\
             GetCurrentHashAsUInt32 h = Ok 0x32D153FF).
Proof.
  refine (match XxHash32_streaming 0 [[97]; []; [98; 99]] _ _ _ with
          | ex_intro _ h (ex_intro _ c (conj Ha (conj _ (conj Hh _)))) =>
              ex_intro _ h (conj Ha (eq_trans Hh _))
          end).
  - unfold byte_list, in_u. repeat constructor; done.
  - repeat constructor; done.
  - done.
  - vm_compute. reflexivity.
Defined.

End XxHash32.
