(* ===== verification/XxHash64.v ===== *)
(** * xxHash64

    [System::IO::Hashing::XxHash64]: the four-lane state, its buffered
    [Append], the finalization and the one-shot doors, with the proof that any
    way of cutting a message into appends gives the one-shot hash. *)

From S2P Require Export BlockBuffer.

Module XxHash64.

Definition Size : Z := 8.
Definition Prime1 : Z := 0x9E3779B185EBCA87.
Definition Prime2 : Z := 0xC2B2AE3D27D4EB4F.
Definition Prime3 : Z := 0x165667B19E3779F9.
Definition Prime4 : Z := 0x85EBCA77C2B2AE63.
Definition Prime5 : Z := 0x27D4EB2F165667C5.

Definition rotl64 (v n : Z) : Z := Z.lor (ushl 64 v n) (Z.shiftr v (64 - n)).

Definition round (acc input : Z) : Z :=
  let acc := uadd 64 acc (umul 64 input Prime2) in
  let acc := rotl64 acc 31 in
  umul 64 acc Prime1.

Definition mergeAccumulator (h64 acc : Z) : Z :=
  let h64 := Z.lxor h64 (round 0 acc) in
  uadd 64 (umul 64 h64 Prime1) Prime4.

(** [v1_] to [v4_]. *)
Record Lanes := lanes_of { v1_ : Z; v2_ : Z; v3_ : Z; v4_ : Z }.

(** The object: the seed, the running length and the lanes with the buffered
    partial block. *)
Record XxHash64 := mk { seed_ : Z; totalLength_ : Z; blocks_ : Buffered Lanes }.

Definition initState (seed : Z) : Lanes :=
  lanes_of (uadd 64 (uadd 64 seed Prime1) Prime2) (uadd 64 seed Prime2)
           seed (usub 64 seed Prime1).

Definition processBlock (v : Lanes) (block : list Z) : Lanes :=
  lanes_of (round (v1_ v) (ReadUInt64LittleEndian block))
           (round (v2_ v) (ReadUInt64LittleEndian (drop 8 block)))
           (round (v3_ v) (ReadUInt64LittleEndian (drop 16 block)))
           (round (v4_ v) (ReadUInt64LittleEndian (drop 24 block))).

(** The constructor: the seed is signed in the interface. *)
Definition new (seed : Z) : XxHash64 :=
  let seed := u64 seed in
  mk seed 0 (BlockBuffer.mk (initState seed) (replicate 32 0) 0).

(** The private constructor copies the buffered bytes into a zeroed buffer. *)
Definition Clone (h : XxHash64) : res XxHash64 :=
  let b := blocks_ h in
  buf <- (if 0 <? bufLen_ b
          then memcpy (replicate 32 0) 0 (take (Z.to_nat (bufLen_ b)) (buf_ b))
          else Ok (replicate 32 0)) ;;
  Ok (mk (seed_ h) (totalLength_ h) (BlockBuffer.mk (lanes b) buf (bufLen_ b))).

(** The buffer keeps its stale bytes. *)
Definition Reset (h : XxHash64) : XxHash64 :=
  mk (seed_ h) 0 (BlockBuffer.mk (initState (seed_ h)) (buf_ (blocks_ h)) 0).

Definition Append (h : XxHash64) (source : pointer) (length : Z) : res XxHash64 :=
  _ <- ValidateSource source length ;;
  if length =? 0 then Ok h
  else
    let totalLength := uadd 64 (totalLength_ h) (u64 length) in
    p <- read_span source length ;;
    b <- append_bytes 32 processBlock (blocks_ h) p ;;
    Ok (mk (seed_ h) totalLength b).

(** The bodies of the loops and of the branch over the buffered bytes. *)
Definition lane_step (h64 : Z) (p : list Z) : Z :=
  let lane := ReadUInt64LittleEndian p in
  let h64 := Z.lxor h64 (round 0 lane) in
  uadd 64 (umul 64 (rotl64 h64 27) Prime1) Prime4.

Definition half_step (h64 : Z) (p : list Z) : Z :=
  let lane := ReadUInt32LittleEndian p in
  let h64 := Z.lxor h64 (umul 64 lane Prime1) in
  uadd 64 (umul 64 (rotl64 h64 23) Prime2) Prime3.

Definition byte_step (h64 : Z) (p : list Z) : Z :=
  let h64 := Z.lxor h64 (umul 64 (at_ p 0) Prime5) in
  umul 64 (rotl64 h64 11) Prime1.

Definition avalanche (h64 : Z) : Z :=
  let h64 := umul 64 (Z.lxor h64 (Z.shiftr h64 33)) Prime2 in
  let h64 := umul 64 (Z.lxor h64 (Z.shiftr h64 29)) Prime3 in
  Z.lxor h64 (Z.shiftr h64 32).

Definition merged (v : Lanes) : Z :=
  let h64 := uadd 64 (uadd 64 (uadd 64 (rotl64 (v1_ v) 1) (rotl64 (v2_ v) 7))
                              (rotl64 (v3_ v) 12)) (rotl64 (v4_ v) 18) in
  let h64 := mergeAccumulator h64 (v1_ v) in
  let h64 := mergeAccumulator h64 (v2_ v) in
  let h64 := mergeAccumulator h64 (v3_ v) in
  mergeAccumulator h64 (v4_ v).

Definition GetCurrentHashAsUInt64 (h : XxHash64) : res Z :=
  let b := blocks_ h in
  let h64 := if 32 <=? totalLength_ h then merged (lanes b)
             else uadd 64 (seed_ h) Prime5 in
  let h64 := uadd 64 h64 (totalLength_ h) in
  p <- read_span (Some (buf_ b)) (bufLen_ b) ;;
  r <- while_blocks 8 lane_step (length p) h64 p ;;
  let r := if 4 <=? zlen (snd r)
           then (half_step (fst r) (take 4 (snd r)), drop 4 (snd r)) else r in
  r <- while_blocks 1 byte_step (length (snd r)) (fst r) (snd r) ;;
  Ok (avalanche (fst r)).

Definition GetCurrentHashCore (h : XxHash64) (destination : pointer) : res pointer :=
  h64 <- GetCurrentHashAsUInt64 h ;;
  write_span destination (big_endian 8 h64).

#[global] Instance XxHash64_algorithm : HashAlgorithm XxHash64 := {
  hashLengthInBytes_ := Size;
  virtual_Append := Append;
  virtual_Reset := Reset;
  virtual_GetCurrentHashCore := GetCurrentHashCore;
  virtual_GetHashAndResetCore s destination :=
    d <- GetCurrentHashCore s destination ;; Ok (Reset s, d)
}.

(** ** One-shot doors *)

Definition Hash (source : pointer) (length seed : Z) : res (list Z) :=
  h <- Append (new seed) source length ;;
  vector_of (GetCurrentHashCore h (Some (new_vector Size))).

Definition Hash_to (source : pointer) (length : Z) (destination : pointer)
    (destinationLength seed : Z) : res (Z * pointer) :=
  _ <- ValidateDestination destination destinationLength Size ;;
  h <- Append (new seed) source length ;;
  d <- GetCurrentHashCore h destination ;;
  Ok (Size, d).

Definition TryHash (source : pointer) (length : Z) (destination : pointer)
    (destinationLength seed : Z) : res (bool * Z * pointer) :=
  b <- TryValidateDestination destination destinationLength Size ;;
  if negb b then Ok (false, 0, destination)
  else
    h <- Append (new seed) source length ;;
    d <- GetCurrentHashCore h destination ;;
    Ok (true, Size, d).

Definition HashToUInt64 (source : pointer) (length seed : Z) : res Z :=
  h <- Append (new seed) source length ;;
  GetCurrentHashAsUInt64 h.

(** ** Reference: the whole message at once

    The specification's description: blocks of 32 bytes through the lanes,
    then the remainder in lanes of 8 bytes, at most one of 4 and single bytes. *)

Definition singles (l : list Z) : list (list Z) := (fun x => [x]) <$> l.

Definition tail_hash (acc : Z) (rest : list Z) : Z :=
  let acc := fold_left lane_step (blocks_of 8 rest) acc in
  let rest := remainder_of 8 rest in
  let acc := fold_left half_step (blocks_of 4 rest) acc in
  let rest := remainder_of 4 rest in
  avalanche (fold_left byte_step (singles rest) acc).

Definition reference (seed : Z) (message : list Z) : Z :=
  let acc :=
    if zlen message <? 32 then uadd 64 seed Prime5
    else merged (fold_left processBlock (blocks_of 32 message) (initState seed)) in
  tail_hash (uadd 64 acc (zlen message)) (remainder_of 32 message).

(** ** Streaming *)

Definition refines (h : XxHash64) (seed : Z) (message : list Z) : Prop :=
  byte_list message /\ seed_ h = seed /\ totalLength_ h = zlen message /\
  zlen message < 2 ^ 64 /\ holds 32 processBlock (initState seed) (blocks_ h) message.

Definition digest (seed : Z) (message : list Z) : list Z :=
  big_endian 8 (reference seed message).

Lemma xx64_refines_new seed : refines (new seed) (u64 seed) [].
Proof.
  do 4 (split; [done || constructor|]). unfold new. cbn [blocks_].
  apply holds_nil; [lia | apply length_replicate].
Qed.

Lemma xx64_singles_cut l : cut 1 l (singles l) [].
Proof.
  split; [|split; [by apply Forall_fmap, Forall_true | cbn; lia]].
  rewrite app_nil_r. induction l as [|x l IH]; [done|]. cbn. by f_equal.
Qed.

Lemma xx64_read_buffer h seed m : refines h seed m ->
  read_span (Some (buf_ (blocks_ h))) (bufLen_ (blocks_ h)) = Ok (remainder_of 32 m).
Proof.
  intros (_ & _ & _ & _ & _ & Hn & Hl & Ht). rewrite Hn. rewrite <- Ht at 2.
  rewrite <- (take_drop (length (remainder_of 32 m)) (buf_ (blocks_ h))) at 1.
  rewrite Ht. apply read_span_prefix.
Qed.

(** Fewer than eight bytes hold at most one half lane. *)
Lemma half_blocks acc rest : (length rest < 8)%nat ->
  (if 4 <=? zlen rest then (half_step acc (take 4 rest), drop 4 rest) else (acc, rest))
  = (fold_left half_step (blocks_of 4 rest) acc, remainder_of 4 rest).
Proof.
  intros Hl. split_if.
  - destruct (cut_unique 4 ltac:(lia) rest [take 4 rest] (drop 4 rest)) as [-> ->]; [|done].
    rewrite <- (take_drop 4 rest) at 1. apply cut_cons; [rewrite length_take; lia|].
    apply cut_short. rewrite length_drop. lia.
  - destruct (cut_unique 4 ltac:(lia) rest [] rest) as [-> ->]; [|done].
    apply cut_short. lia.
Qed.

Lemma xx64_GetCurrentHash_reference h seed m : refines h seed m ->
  GetCurrentHashAsUInt64 h = Ok (reference seed m).
Proof.
  intros Hr. unfold GetCurrentHashAsUInt64. rewrite (xx64_read_buffer _ _ _ Hr). cbn [bind].
  destruct Hr as (_ & -> & -> & Hlen & Hlanes & _). rewrite Hlanes.
  rewrite (while_blocks_spec 8) by lia. cbn [bind fst snd].
  unfold reference, tail_hash.
  replace (zlen m <? 32) with (negb (32 <=? zlen m)) by lia.
  replace (if 32 <=? zlen m then _ else _)
    with (if negb (32 <=? zlen m) then uadd 64 seed Prime5
          else merged (fold_left processBlock (blocks_of 32 m) (initState seed)))
    by (by destruct (32 <=? zlen m)).
  set (acc := fold_left lane_step _ _). set (rest := remainder_of 8 _).
  assert (Hrest : (length rest < 8)%nat) by (by eapply (cut_exists 8); lia).
  rewrite half_blocks by done. cbn [fst snd].
  rewrite (while_blocks_cut 1 ltac:(lia) _ _ _ _ _ _ (xx64_singles_cut _)) by done. done.
Qed.

Lemma xx64_Append_absorbs h seed m b rest : refines h seed m -> byte_list b ->
  zlen b <= INTCS_MAX -> zlen m + zlen b < 2 ^ 64 ->
  exists h', Append h (Some (b ++ rest)) (zlen b) = Ok h' /\ refines h' seed (m ++ b).
Proof.
  intros (Hm & Hs & Ht & Hlen & Hb) Hbytes Hmax Htot. unfold Append.
  rewrite ValidateSource_prefix, read_span_prefix. cbn [bind].
  destruct (append_bytes_holds 32 ltac:(lia) processBlock _ _ _ b Hb) as (b' & Hb' & Hh').
  split_if.
  - destruct b; [|cbn in E; lia]. rewrite app_nil_r. by exists h.
  - rewrite Hb'. cbn [bind]. eexists. split; [reflexivity|].
    split; [by apply Forall_app|]. cbn [seed_ totalLength_ blocks_].
    split; [done|]. rewrite length_app. split; [|split; [lia|done]].
    rewrite Ht. unfold uadd. unfold u64 at 1. rewrite (wrapu_id 64 (zlen b)) by (unfold in_u; lia).
    rewrite wrapu_id by (unfold in_u; lia). lia.
Qed.

#[global] Instance XxHash64_contract : HashContract XxHash64 Z refines digest.
Proof.
  split.
  - done.
  - intros s seed m _. unfold digest. by rewrite length_big_endian.
  - intros s seed m b rest. apply xx64_Append_absorbs.
  - done.
  - intros s p n e He. cbn. unfold Append. by rewrite He.
  - intros s seed m (_ & <- & _ & _ & _ & _ & Hl & _). split; [constructor|].
    do 3 (split; [done|]). by apply holds_nil; [lia|].
  - intros s seed m d Hr. cbn [virtual_GetCurrentHashCore XxHash64_algorithm].
    unfold GetCurrentHashCore. by rewrite (xx64_GetCurrentHash_reference _ _ _ Hr).
  - intros s seed m d Hr. cbn [virtual_GetHashAndResetCore XxHash64_algorithm virtual_Reset].
    unfold GetCurrentHashCore. by rewrite (xx64_GetCurrentHash_reference _ _ _ Hr).
Qed.

(** The state after a sequence of appends. *)
Fixpoint append_all (h : XxHash64) (parts : list (list Z)) : res XxHash64 :=
  match parts with
  | [] => Ok h
  | p :: parts => h <- Append h (Some p) (zlen p) ;; append_all h parts
  end.

(** A clone refines the same message. *)
Lemma xx64_Clone_refines h seed m : refines h seed m ->
  exists c, Clone h = Ok c /\ refines c seed m.
Proof.
  intros (Hm & Hs & Ht & Hlen & Hl & Hn & Hbuf & Htake). unfold Clone.
  assert (Hr : (length (remainder_of 32 m) < 32)%nat) by (by apply (cut_exists 32 ltac:(lia) m)).
  rewrite Hn, Nat2Z.id, Htake.
  assert (Hbuf' : exists buf, (if 0 <? zlen (remainder_of 32 m)
      then memcpy (replicate 32 0) 0 (remainder_of 32 m) else Ok (replicate 32 0)) = Ok buf /\
      length buf = 32%nat /\ take (length (remainder_of 32 m)) buf = remainder_of 32 m).
  { split_if.
    - rewrite memcpy_0 by (rewrite length_replicate; lia). eexists. split; [reflexivity|].
      split; [rewrite length_app, length_drop, length_replicate; lia | apply take_app_length].
    - exists (replicate 32 0). split; [done|]. split; [apply length_replicate|].
      by destruct (remainder_of 32 m); [|cbn in E; lia]. }
  destruct Hbuf' as (buf & -> & Hb1 & Hb2). cbn [bind]. eexists. split; [reflexivity|].
  repeat (split; [done|]). by cbn [blocks_ lanes bufLen_ buf_].
Qed.

Lemma xx64_append_all_refines parts : forall h seed m, refines h seed m ->
  Forall byte_list parts -> Forall (fun p => zlen p <= INTCS_MAX) parts ->
  zlen m + zlen (concat parts) < 2 ^ 64 ->
  exists h', append_all h parts = Ok h' /\ refines h' seed (m ++ concat parts).
Proof.
  induction parts as [|p parts IH]; intros h seed m Hr Hb Hmax Hlen.
  - exists h. cbn [concat]. by rewrite app_nil_r.
  - apply Forall_cons in Hb as [Hp Hb]. apply Forall_cons in Hmax as [Hpm Hmax].
    cbn [concat] in Hlen |- *. rewrite length_app in Hlen.
    destruct (xx64_Append_absorbs h seed m p [] Hr Hp Hpm ltac:(lia)) as (h1 & Hh1 & Hr1).
    rewrite app_nil_r in Hh1. cbn [append_all]. rewrite Hh1. cbn [bind].
    destruct (IH h1 seed (m ++ p) Hr1 Hb Hmax) as (h' & Hh' & Hr').
    { rewrite length_app. lia. }
    exists h'. by rewrite app_assoc.
Qed.

(** however a message is cut into appends, after them the object returns
    the hash the specification defines on the whole message with the object's
    seed (lanes, buffered remainder and length included), the one-shot call
    returns the same value, and so does a clone. *)
Theorem XxHash64_streaming : forall seed (parts : list (list Z)),
  Forall byte_list parts -> Forall (fun p => zlen p <= INTCS_MAX) parts ->
  zlen (concat parts) < 2 ^ 64 ->
  exists h c, append_all (new seed) parts = Ok h /\ Clone h = Ok c /\
    GetCurrentHashAsUInt64 h = Ok (reference (u64 seed) (concat parts)) /\
    GetCurrentHashAsUInt64 c = Ok (reference (u64 seed) (concat parts)) /\
    (zlen (concat parts) <= INTCS_MAX ->
     HashToUInt64 (Some (concat parts)) (zlen (concat parts)) seed
     = Ok (reference (u64 seed) (concat parts))).
Proof.
  intros seed parts Hb Hmax Hlen.
  destruct (xx64_append_all_refines parts (new seed) (u64 seed) [] (xx64_refines_new seed) Hb Hmax)
    as (h & Hh & Hr); [cbn [length]; lia|].
  destruct (xx64_Clone_refines h _ _ Hr) as (c & Hc & Hcr). exists h, c.
  repeat (split; [done || by apply xx64_GetCurrentHash_reference|]).
  intros Hone. unfold HashToUInt64.
  assert (Hbytes : byte_list (concat parts)) by (by apply Forall_concat).
  destruct (xx64_Append_absorbs (new seed) (u64 seed) [] (concat parts) [] (xx64_refines_new seed))
    as (h1 & Hh1 & Hr1); [done | lia | cbn [length]; lia |].
  rewrite app_nil_r in Hh1. rewrite Hh1. by apply xx64_GetCurrentHash_reference.
Qed.

(** "abc" with seed 0, appended as "a", nothing, "bc". *)
Lemma XxHash64_streaming_witness :
  (exists h, append_all (new 0) [[97]; []; [98; 99]] = Ok h /\
             GetCurrentHashAsUInt64 h = Ok 0x44BC2CF5AD770999).
Proof.
  refine (match XxHash64_streaming 0 [[97]; []; [98; 99]] _ _ _ with
          | ex_intro _ h (ex_intro _ c (conj Ha (conj _ (conj Hh _)))) =>
              ex_intro _ h (conj Ha (eq_trans Hh _))
          end).
  - unfold byte_list, in_u. repeat constructor; done.
  - repeat constructor; done.
  - done.
  - vm_compute. reflexivity.
Defined.

End XxHash64.
