(* ===== verification/HashClient.v ===== *)
(** * The base class against the contract

    What [NonCryptographicHashAlgorithm] adds to an algorithm, proved once for
    every implementation of [HashContract]: appending vectors and streams, and
    the checked, resetting and non-resetting ways of reading the hash. *)

From S2P Require Export Adler32 Crc32 Crc64 XxHash32 XxHash64.

(** A stream that delivers the chunks [cs] (each at most the 64 KiB asked for)
    and then reports its end; whatever the buffer held before is overwritten
    from its start. *)
Inductive delivers {T : Type} `{Stream T} : T -> list (list Z) -> T -> Prop :=
  | delivers_end t t' :
      (forall buf, length buf = Z.to_nat 65536 ->
         exists buf', Read t buf 0 65536 = (t', Ok (buf', 0))) ->
      delivers t [] t'
  | delivers_chunk t c t1 cs t' :
      0 < zlen c <= 65536 -> byte_list c ->
      (forall buf, length buf = Z.to_nat 65536 ->
         Read t buf 0 65536 = (t1, Ok (c ++ drop (length c) buf, zlen c))) ->
      delivers t1 cs t' -> delivers t (c :: cs) t'.

(** A destination array after [bytes] were written at its start. *)
Definition overwritten (d bytes : list Z) : list Z := bytes ++ drop (length bytes) d.

Section Client.
Context {S C : Type} `{Halg : HashAlgorithm S}.
Context {refines : S -> C -> list Z -> Prop} {H : C -> list Z -> list Z}.
Context `{Hc : !HashContract S C refines H}.

Lemma stream_loop fuel : forall (T : Type) (HT : Stream T) s c m t cs t' buffer,
  refines s c m -> delivers t cs t' -> (length cs < fuel)%nat ->
  length buffer = Z.to_nat 65536 -> zlen m + zlen (concat cs) < 2 ^ 64 ->
  exists s', Append_stream fuel s t buffer = Some (s', t', Ok tt) /\
             refines s' c (m ++ concat cs).
Proof.
  induction fuel as [|fuel IH]; intros T HT s c m t cs t' buffer Hs Hd Hf Hbuf Hlen; [lia|].
  cbn [Append_stream]. destruct Hd as [t t' Hend | t ch t1 cs t' Hch Hbytes Hread Hd].
  - destruct (Hend buffer Hbuf) as (buf' & ->). exists s. cbn. by rewrite app_nil_r.
  - rewrite Hread by done. cbn [concat] in Hlen |- *. rewrite length_app in Hlen.
    replace (0 <? zlen ch) with true by (symmetry; apply Z.ltb_lt; lia).
    destruct (hc_append s c m ch (drop (length ch) buffer) Hs Hbytes ltac:(lia) ltac:(lia))
      as (s1 & -> & Hs1).
    destruct (IH T HT s1 c (m ++ ch) t1 cs t' (ch ++ drop (length ch) buffer) Hs1 Hd)
      as (s' & Hs' & Hr).
    + cbn in Hf. lia.
    + rewrite length_app, length_drop. lia.
    + rewrite length_app. lia.
    + exists s'. by rewrite app_assoc.
Qed.

Lemma write_digest s c m d : refines s c m -> hashLengthInBytes_ <= zlen d ->
  write_span (Some d) (H c m)
  = Ok (Some (overwritten d (H c m))).
Proof.
  intros Hs Hd. pose proof (hc_digest_length s c m Hs) as Hl.
  by apply write_span_Some; lia.
Qed.

Lemma GetCurrentHash_digest s c m : refines s c m -> GetCurrentHash s = Ok (H c m).
Proof.
  intros Hs. unfold GetCurrentHash. rewrite (hc_core s c m _ Hs).
  apply vector_of_write. by apply (hc_digest_length s c m).
Qed.

Lemma GetHashAndReset_digest s c m : refines s c m ->
  GetHashAndReset s = Ok (virtual_Reset s, H c m).
Proof.
  intros Hs. unfold GetHashAndReset. rewrite (hc_reset_core s c m _ Hs).
  pose proof (hc_digest_length s c m Hs) as Hl.
  rewrite write_span_Some; unfold new_vector; rewrite ?length_replicate; [|lia].
  cbn [bind snd fst vector_of]. rewrite drop_ge by (rewrite length_replicate; lia).
  by rewrite app_nil_r.
Qed.

(** A vector of exactly 2^32 bytes: its size is narrowed to zero and nothing
    is appended. *)
Lemma Append_vector_narrowed s c m v : refines s c m -> zlen v = 2 ^ 32 ->
  Append_vector s v = Ok s.
Proof.
  intros Hs Hv. unfold Append_vector. rewrite Hv. change (i32 (2 ^ 32)) with 0.
  by apply (hc_append_empty s c m).
Qed.
End Client.

(** appending a stream absorbs exactly the concatenation of the chunks its
    reads deliver, in order, for every algorithm that meets the contract; the
    hash of the whole is then returned and the object is back to a state that
    has absorbed nothing. *)
Theorem Append_stream_absorbs : forall (S C T : Type) (HA : HashAlgorithm S)
    (refines : S -> C -> list Z -> Prop) (H : C -> list Z -> list Z)
    (HC : HashContract S C refines H) (HT : Stream T) fuel s c m t cs t' buffer,
  refines s c m -> delivers t cs t' -> (length cs < fuel)%nat ->
  length buffer = Z.to_nat 65536 -> zlen m + zlen (concat cs) < 2 ^ 64 ->
  exists s', Append_stream fuel s t buffer = Some (s', t', Ok tt) /\
    refines s' c (m ++ concat cs) /\
    GetHashAndReset s' = Ok (virtual_Reset s', H c (m ++ concat cs)) /\
    refines (virtual_Reset s') c [].
Proof.
  intros S C T HA refines H HC HT fuel s c m t cs t' buffer Hs Hd Hf Hbuf Hlen.
  destruct (stream_loop fuel T HT s c m t cs t' buffer Hs Hd Hf Hbuf Hlen) as (s' & Ha & Hr).
  exists s'. split; [done|]. split; [done|]. split; [by apply (GetHashAndReset_digest s' c)|].
  by apply (hc_reset s' c (m ++ concat cs)).
Qed.

(** A stream over a list of chunks, as a memory stream would deliver them. *)
#[export] Instance chunk_stream : Stream (list (list Z)) := {
  Read t buffer _ _ :=
    match t with
    | [] => ([], Ok (buffer, 0))
    | c :: t => (t, Ok (c ++ drop (length c) buffer, zlen c))
    end
}.

(** "Wikipedia" read as "Wiki" and "pedia" into a fresh Adler-32 object. *)
Lemma Append_stream_absorbs_witness :
  exists s', Append_stream 3 Adler32.new [[87; 105; 107; 105]; [112; 101; 100; 105; 97]]
               (replicate (Z.to_nat 65536) 0) = Some (s', [], Ok tt) /\
             GetHashAndReset s' = Ok (Adler32.new, [0x11; 0xE6; 0x03; 0x98]).
Proof.
  refine (match Append_stream_absorbs Adler32.Adler32 unit (list (list Z)) _ _ _ _ _ 3
                  Adler32.new tt [] [[87; 105; 107; 105]; [112; 101; 100; 105; 97]]
                  [[87; 105; 107; 105]; [112; 101; 100; 105; 97]] []
                  (replicate (Z.to_nat 65536) 0) Adler32.adler32_refines_new _ _ _ _ with
          | ex_intro _ s' (conj Ha (conj _ (conj Hh _))) =>
              ex_intro _ s' (conj Ha (eq_trans Hh _))
          end).
  - apply (delivers_chunk _ _ [[112; 101; 100; 105; 97]]); [done | | done |].
    { unfold byte_list, in_u. repeat constructor; done. }
    apply (delivers_chunk _ _ []); [done | | done |].
    { unfold byte_list, in_u. repeat constructor; done. }
    apply delivers_end. intros buf _. by exists buf.
  - cbn. lia.
  - apply length_replicate.
  - done.
  - reflexivity.
Defined.

(** the ways of reading the hash, for every algorithm that meets the
    contract: a destination that is too short is reported before a null one
    ([false] and no byte written from the Try forms, an exception from the
    others), a null one of sufficient length always throws; otherwise exactly
    the hash is written at the start of the destination, the state is kept by
    the Current forms, and is one that has absorbed nothing after the Reset
    forms; an invalid source throws before the state is touched. *)
Theorem hash_doors : forall (S C : Type) (HA : HashAlgorithm S)
    (refines : S -> C -> list Z -> Prop) (H : C -> list Z -> list Z)
    (HC : HashContract S C refines H) s c m, refines s c m ->
  (forall dst n, n < hashLengthInBytes_ ->
     TryGetCurrentHash s dst n = Ok (false, 0, dst) /\
     TryGetHashAndReset s dst n = Ok (s, (false, 0, dst)) /\
     GetCurrentHash_to s dst n = Throw ThrowDestinationTooShort /\
     GetHashAndReset_to s dst n = Throw ThrowDestinationTooShort) /\
  (forall n, hashLengthInBytes_ <= n ->
     TryGetCurrentHash s None n = Throw ThrowNullDestination /\
     TryGetHashAndReset s None n = Throw ThrowNullDestination /\
     GetCurrentHash_to s None n = Throw ThrowNullDestination /\
     GetHashAndReset_to s None n = Throw ThrowNullDestination) /\
  (forall d n, hashLengthInBytes_ <= n <= zlen d ->
     let d' := Some (overwritten d (H c m)) in
     TryGetCurrentHash s (Some d) n = Ok (true, hashLengthInBytes_, d') /\
     GetCurrentHash_to s (Some d) n = Ok (hashLengthInBytes_, d') /\
     TryGetHashAndReset s (Some d) n
       = Ok (virtual_Reset s, (true, hashLengthInBytes_, d')) /\
     GetHashAndReset_to s (Some d) n = Ok (virtual_Reset s, (hashLengthInBytes_, d'))) /\
  GetCurrentHash s = Ok (H c m) /\
  refines (virtual_Reset s) c [] /\
  (forall p n, n < 0 -> virtual_Append s p n = Throw ThrowNegativeLength) /\
  (forall n, 0 < n -> virtual_Append s None n = Throw ThrowNullSource).
Proof.
  intros S C HA refines H HC s c m Hs.
  unfold TryGetCurrentHash, TryGetHashAndReset, GetCurrentHash_to, GetHashAndReset_to,
    TryValidateDestination, ValidateDestination.
  split; [|split; [|split; [|split; [|split; [|split]]]]].
  - intros dst n Hn. by decide_cmp.
  - intros n Hn. by decide_cmp.
  - intros d n Hn. decide_cmp. cbn [is_null throw_if bind negb].
    rewrite (hc_core s c m _ Hs), (hc_reset_core s c m _ Hs), (write_digest s c m d Hs) by lia.
    done.
  - by apply (GetCurrentHash_digest s c).
  - by apply (hc_reset s c m).
  - intros p n Hn. apply hc_append_invalid. unfold ValidateSource, ValidateLength. by decide_cmp.
  - intros n Hn. apply hc_append_invalid. unfold ValidateSource, ValidateLength. by decide_cmp.
Qed.

(** A CRC-32 object that absorbed "1": its value in a six-byte array. *)
Lemma hash_doors_witness :
  TryGetHashAndReset (Crc32.mk (Crc32ParameterSet.register Crc32ParameterSet.getCrc32Property 0xFFFFFFFF [49])
                        Crc32ParameterSet.getCrc32Property) (Some [9; 9; 9; 9; 9; 9]) 5
  = Ok (Crc32.new, (true, 4, Some [0xB7; 0xEF; 0xDC; 0x83; 9; 9])).
Proof.
  refine (eq_trans (proj1 (proj2 (proj2 (proj1 (proj2 (proj2
            (hash_doors Crc32.Crc32 Crc32ParameterSet.ParameterSet _ _ _ Crc32.Crc32_contract
               _ Crc32ParameterSet.getCrc32Property [49] _)))
               [9; 9; 9; 9; 9; 9] 5 _)))) _).
  - split; [unfold byte_list, in_u; repeat constructor; done|].
    split; [by apply Crc32ParameterSet.crc32_Create_created|]. done.
  - split; done.
  - vm_compute. reflexivity.
Defined.
