(* ===== verification/Guards.v ===== *)
(** * Argument guards

    The static guards of [core/include/System/ArgumentOutOfRangeException.hpp] that
    members call on their arguments, with the messages they compose, and the
    exceptions built from a parameter name alone. *)

From S2P Require Export Text.

Definition number (z : Z) : string := String.string_of_list_ascii (to_string z).

Definition guard_message (param rest : string) : string :=
  String.append "'" (String.append param (String.append "' must be " rest)).

Definition ThrowIfNegative (value : Z) (param : string) : res unit :=
  throw_if (value <? 0) (ArgumentOutOfRangeActual param (number value)
    (guard_message param "a non-negative value.")).
Definition ThrowIfNegativeOrZero (value : Z) (param : string) : res unit :=
  throw_if (value <=? 0) (ArgumentOutOfRangeActual param (number value)
    (guard_message param "a positive value.")).
Definition ThrowIfLessThan (value other : Z) (param : string) : res unit :=
  throw_if (value <? other) (ArgumentOutOfRangeActual param (number value)
    (guard_message param (String.append "greater than or equal to "
      (String.append (number other) ".")))).

(** ArgumentOutOfRangeException(paramName), with the default message. *)
Definition out_of_range (param : string) : exn :=
  ArgumentOutOfRangeException param "Specified argument was out of the range of valid values.".

(** ArgumentNullException(paramName), with the default message. *)
Definition null_argument (param : string) : exn :=
  ArgumentNullException param "Value cannot be null.".
