(* ===== verification/Monitor.v ===== *)
(** * Monitors: threads, one mutex, one condition variable

    The execution model of the synchronisation classes of
    [threading/include/System/Threading/]: an object whose members lock one
    [std::mutex], wait on one [std::condition_variable] with a predicate and
    call [notify_all] (not the class System::Threading::Monitor). A critical
    section is one step, every interleaving of the steps of any number of
    threads is an execution, and wake-ups may be spurious. A class states its members as an instance of [Program]; the
    theorems at the end, that no wake-up is lost and that under a fair
    scheduler a waiter whose condition holds returns, are proved once for
    every instance that notifies when it should ([Announces]). *)

From stdpp Require Export gmap.
From S2P Require Export MachineInt.

#[global] Open Scope Z_scope.

(** ** Counting the entries of a table *)

Definition b2z (b : bool) : Z := if b then 1 else 0.

Definition count {A} (p : A -> bool) (m : gmap nat A) : Z :=
  map_fold (fun _ a z => b2z (p a) + z) 0 m.

Section Counting.
Context {A : Type} (p : A -> bool).

Lemma count_empty : count p ∅ = 0.
Proof. done. Qed.

Lemma count_fresh m i x : m !! i = None -> count p (<[i:=x]> m) = b2z (p x) + count p m.
Proof.
  intros Hi. unfold count. apply (map_fold_insert_L (fun _ a z => b2z (p a) + z) 0 i x m); [|done].
  intros. lia.
Qed.

Lemma count_split m i x : m !! i = Some x -> count p m = b2z (p x) + count p (delete i m).
Proof.
  intros Hi. rewrite <- (insert_delete_id m i x Hi) at 1.
  by rewrite count_fresh by apply lookup_delete_eq.
Qed.

(** The weight of one entry: what [m !! i] adds to the count. *)
Definition weight (o : option A) : Z := match o with Some x => b2z (p x) | None => 0 end.

Lemma count_insert m i x :
  count p (<[i:=x]> m) = count p m - weight (m !! i) + b2z (p x).
Proof.
  destruct (m !! i) as [y|] eqn:Hi; cbn [weight].
  - rewrite <- insert_delete_eq, count_fresh by apply lookup_delete_eq.
    rewrite (count_split m i y Hi). lia.
  - rewrite count_fresh by done. lia.
Qed.

Lemma weight_bounds o : 0 <= weight o <= 1.
Proof. destruct o as [x|]; cbn [weight]; [destruct (p x); cbn|]; lia. Qed.

Lemma count_nonneg m : 0 <= count p m.
Proof.
  induction m as [|i x m Hi IH] using map_ind; [done|].
  rewrite count_fresh by done. destruct (p x); cbn; lia.
Qed.

Lemma count_member m i x : m !! i = Some x -> b2z (p x) <= count p m.
Proof.
  intros Hi. rewrite (count_split m i x Hi). pose proof (count_nonneg (delete i m)). lia.
Qed.

Lemma count_two m i j x y : i <> j -> m !! i = Some x -> m !! j = Some y ->
  b2z (p x) + b2z (p y) <= count p m.
Proof.
  intros Hij Hi Hj. rewrite (count_split m i x Hi).
  pose proof (count_member (delete i m) j y) as H.
  rewrite lookup_delete_ne in H by done. specialize (H Hj). lia.
Qed.

(** At most one entry satisfies a predicate counted at most once. *)
Lemma count_unique m i j x y : count p m <= 1 -> m !! i = Some x -> m !! j = Some y ->
  p x = true -> p y = true -> i = j.
Proof.
  intros Hm Hi Hj Hx Hy. destruct (decide (i = j)) as [|Hij]; [done|].
  pose proof (count_two m i j x y Hij Hi Hj) as H. rewrite Hx, Hy in H. cbn in H. lia.
Qed.

Lemma count_fmap (g : A -> A) m : (forall x, p (g x) = p x) -> count p (g <$> m) = count p m.
Proof.
  intros Hg. induction m as [|i x m Hi IH] using map_ind; [by rewrite fmap_empty|].
  rewrite fmap_insert, !count_fresh by (try rewrite lookup_fmap, Hi; done).
  by rewrite IH, Hg.
Qed.

Lemma count_positive m : 0 < count p m -> exists i x, m !! i = Some x /\ p x = true.
Proof.
  induction m as [|i x m Hi IH] using map_ind; [rewrite count_empty; lia|].
  rewrite count_fresh by done. destruct (p x) eqn:Hx; cbn.
  - intros _. exists i, x. by rewrite lookup_insert_eq.
  - intros H. destruct IH as (j & y & Hj & Hy); [lia|]. exists j, y. split; [|done].
    rewrite lookup_insert_ne; [done|]. congruence.
Qed.

(** In a table with a default entry that does not count. *)
Lemma count_default (d : A) m i x : p d = false ->
  count p (<[i:=x]> m) = count p m - b2z (p (default d (m !! i))) + b2z (p x).
Proof.
  intros Hd. rewrite count_insert. destruct (m !! i); cbn; [done|]. rewrite Hd. cbn. lia.
Qed.

Lemma count_none (d : A) m i : p d = false -> count p m = 0 -> p (default d (m !! i)) = false.
Proof.
  intros Hd Hm. destruct (m !! i) as [x|] eqn:E; [cbn|done].
  pose proof (count_member m i x E). destruct (p x); cbn in *; [lia|done].
Qed.

Lemma count_only (d : A) m i j : p d = false -> count p m <= 1 -> i <> j ->
  p (default d (m !! i)) = true -> p (default d (m !! j)) = false.
Proof.
  intros Hd Hm Hij Hi. destruct (m !! i) as [x|] eqn:Ex; cbn in Hi; [|congruence].
  destruct (m !! j) as [y|] eqn:Ey; [cbn|done]. destruct (p y) eqn:Hy; [|done].
  by destruct (count_unique m i j x y).
Qed.

Lemma count_some (d : A) m : p d = false -> 0 < count p m -> exists i, p (default d (m !! i)) = true.
Proof. intros Hd (i & x & Hi & Hx)%count_positive. exists i. by rewrite Hi. Qed.

Lemma count_zero m : (forall i x, m !! i = Some x -> p x = false) -> count p m = 0.
Proof.
  intros Hm. destruct (Z.eq_dec (count p m) 0) as [|Hne]; [done|].
  destruct (count_positive m) as (i & x & Hi & Hx); [pose proof (count_nonneg m); lia|].
  by rewrite (Hm i x Hi) in Hx.
Qed.

End Counting.

(** Two predicates that no entry satisfies together. *)
Lemma count_or {A} (p q r : A -> bool) m : (forall x, b2z (p x) + b2z (q x) = b2z (r x)) ->
  count p m + count q m = count r m.
Proof.
  intros Hr. induction m as [|i x m Hi IH] using map_ind; [done|].
  rewrite !count_fresh by done. specialize (Hr x). lia.
Qed.

Lemma count_ext {A} (p q : A -> bool) m : (forall i x, m !! i = Some x -> p x = q x) ->
  count p m = count q m.
Proof.
  induction m as [|i x m Hi IH] using map_ind; [done|]. intros Hm.
  rewrite !count_fresh by done. rewrite (Hm i x) by apply lookup_insert_eq.
  rewrite IH; [done|]. intros j y Hj. apply (Hm j). rewrite lookup_insert_ne; [done|]. congruence.
Qed.

(** ** The machine *)

Module Monitor.

Section Machine.
Context {S Op K R : Type}.

(** How a critical section ends: the lock is released and the call returns
    or throws ([Finish]), or code follows the critical section ([Later]); the
    flag says whether [notify_all] was called under the lock. *)
Inductive finish :=
  | Finish (s : S) (r : res R) (notified : bool)
  | Later (s : S) (notified : bool).

(** A critical section that may reach [cv_.wait(lock, pred)], with the locals
    [k] the rest of the call needs. *)
Inductive section :=
  | Leave (f : finish)
  | Wait (s : S) (k : K).

(** What a call does before it locks: it returns there, or goes on, as another
    member when it forwards to one. *)
Inductive entry :=
  | Return (r : res R)
  | Proceed (op : Op).

End Machine.
Arguments entry : clear implicits.
Arguments finish : clear implicits.
Arguments section : clear implicits.

(** The members of a class. [typed] tells that the arguments of a call fit
    their C++ types, [begin] is what a call does before it locks the
    mutex: checks, and the paths that never lock, which return there; [body]
    is the critical section up to the wait, [pred] the predicate of the wait,
    [timed] whether it is a [wait_for], [resume] what follows a wait that
    ended with the predicate true and [expire] one that ended with it false;
    [epilogue] follows a critical section that ended [Later], and [notifies]
    tells whether it calls [notify_all]. *)
Class Program (S Op K R : Type) := {
  typed : Op -> bool;
  begin : nat -> Op -> S -> S * entry Op R;
  body : nat -> Op -> S -> section S K R;
  pred : K -> S -> bool;
  timed : K -> bool;
  resume : nat -> Op -> K -> S -> finish S R;
  expire : nat -> Op -> K -> S -> finish S R;
  epilogue : nat -> Op -> S -> S * res R;
  notifies : Op -> bool;
}.

Section Executions.
Context {S Op K R : Type} `{Program S Op K R}.

(** Where a thread is: outside the object, about to lock, blocked in a wait,
    notified (or woken spuriously) and about to lock again, timed out and
    about to lock again, or past its critical section. *)
Inductive pc :=
  | Idle
  | Entering (op : Op)
  | Asleep (op : Op) (k : K)
  | Awake (op : Op) (k : K)
  | Expired (op : Op) (k : K)
  | Leaving (op : Op).

Record config := Config { shared : S; threads : gmap nat pc }.

Definition pc_of (c : config) (t : nat) : pc := default Idle (threads c !! t).
Definition move (c : config) (t : nat) (p : pc) : config :=
  Config (shared c) (<[t:=p]> (threads c)).

(** [notify_all] *)
Definition wake (p : pc) : pc := match p with Asleep op k => Awake op k | p => p end.
Definition wake_all (b : bool) (ths : gmap nat pc) : gmap nat pc :=
  if b then wake <$> ths else ths.

(** What a step shows: the call that returned, with its result. *)
Definition event : Type := option (Op * res R).

Definition leave (t : nat) (op : Op) (f : finish S R) (ths : gmap nat pc) : config * event :=
  match f with
  | Finish s r n => (Config s (<[t:=Idle]> (wake_all n ths)), Some (op, r))
  | Later s n => (Config s (<[t:=Leaving op]> (wake_all n ths)), None)
  end.

(** [cv_.wait(lock, pred)]: return at once when the predicate holds, else
    release the lock and sleep. *)
Definition await (t : nat) (op : Op) (k : K) (s : S) (ths : gmap nat pc) : config * event :=
  if pred k s then leave t op (resume t op k s) ths
  else (Config s (<[t:=Asleep op k]> ths), None).

Definition enter (t : nat) (op : Op) (c : config) : config * event :=
  match body t op (shared c) with
  | Leave f => leave t op f (threads c)
  | Wait s k => await t op k s (threads c)
  end.

(** The step of a thread that the scheduler runs: it has locked the mutex, or
    is past its critical section. *)
Definition go (t : nat) (c : config) : option (config * event) :=
  match pc_of c t with
  | Entering op => Some (enter t op c)
  | Awake op k => Some (await t op k (shared c) (threads c))
  | Expired op k => Some (leave t op (if pred k (shared c) then resume t op k (shared c)
                                      else expire t op k (shared c)) (threads c))
  | Leaving op =>
      let (s, r) := epilogue t op (shared c) in
      Some (Config s (<[t:=Idle]> (wake_all (notifies op) (threads c))), Some (op, r))
  | Idle | Asleep _ _ => None
  end.

Definition call (t : nat) (op : Op) (c : config) : option (config * event) :=
  match pc_of c t with
  | Idle => if negb (typed op) then None else
            match begin t op (shared c) with
            | (s, Return r) => Some (Config s (threads c), Some (op, r))
            | (s, Proceed op') => Some (Config s (<[t:=Entering op']> (threads c)), None)
            end
  | _ => None
  end.

(** The steps of thread [t]. *)
Inductive step (t : nat) : config -> event -> config -> Prop :=
  | step_call op c c' e : call t op c = Some (c', e) -> step t c e c'
  | step_go c c' e : go t c = Some (c', e) -> step t c e c'
  | step_spurious op k c : pc_of c t = Asleep op k -> step t c None (move c t (Awake op k))
  | step_timeout op k c : pc_of c t = Asleep op k -> timed k = true ->
      step t c None (move c t (Expired op k)).

(** Executions from [c0], with the events in order. *)
Inductive exec (c0 : config) : list (nat * event) -> config -> Prop :=
  | exec_nil : exec c0 [] c0
  | exec_snoc tr c t e c' : exec c0 tr c -> step t c e c' -> exec c0 (tr ++ [(t, e)]) c'.

(** A schedule, to run an execution. *)
Inductive choice :=
  | Call (t : nat) (op : Op)
  | Go (t : nat)
  | Spurious (t : nat)
  | Timeout (t : nat).

Definition choose (ch : choice) (c : config) : option (nat * event * config) :=
  match ch with
  | Call t op => '(c', e) ← call t op c; Some (t, e, c')
  | Go t => '(c', e) ← go t c; Some (t, e, c')
  | Spurious t => match pc_of c t with
                  | Asleep op k => Some (t, None, move c t (Awake op k))
                  | _ => None
                  end
  | Timeout t => match pc_of c t with
                 | Asleep op k => if timed k then Some (t, None, move c t (Expired op k)) else None
                 | _ => None
                 end
  end.

Fixpoint run (sched : list choice) (c : config) : option (list (nat * event) * config) :=
  match sched with
  | [] => Some ([], c)
  | ch :: sched =>
      '(t, e, c') ← choose ch c;
      '(tr, c'') ← run sched c';
      Some ((t, e) :: tr, c'')
  end.

(** ** Executions *)

Lemma choose_step ch c t e c' : choose ch c = Some (t, e, c') -> step t c e c'.
Proof.
  destruct ch as [u op|u|u|u]; cbn [choose]; intros Hc.
  - destruct (call u op c) as [[c1 e1]|] eqn:E; simplify_eq/=. by eapply step_call.
  - destruct (go u c) as [[c1 e1]|] eqn:E; simplify_eq/=. by eapply step_go.
  - destruct (pc_of c u) eqn:E; simplify_eq/=. by eapply step_spurious.
  - destruct (pc_of c u) eqn:E; simplify_eq/=. destruct (timed k) eqn:Ek; simplify_eq/=.
    by eapply step_timeout.
Qed.

Lemma exec_app c0 tr c : exec c0 tr c -> forall tr' c', exec c tr' c' -> exec c0 (tr ++ tr') c'.
Proof.
  intros Hc tr' c' Hc'. induction Hc' as [|tr' c1 t e c2 _ IH Hs]; [by rewrite app_nil_r|].
  rewrite app_assoc. by eapply exec_snoc.
Qed.

Lemma run_exec sched : forall c tr c', run sched c = Some (tr, c') -> exec c tr c'.
Proof.
  induction sched as [|ch sched IH]; cbn [run]; intros c tr c' Hr; [simplify_eq; constructor|].
  destruct (choose ch c) as [[[t e] c1]|] eqn:E; [|done]. cbn in Hr.
  destruct (run sched c1) as [[tr1 c2]|] eqn:Er; [|done]. cbn in Hr. simplify_eq.
  apply (exec_app _ [(t, e)] c1); [|by apply IH].
  apply (exec_snoc _ [] c); [constructor|]. by eapply choose_step.
Qed.

Lemma pc_of_eq s t p ths : pc_of (Config s (<[t:=p]> ths)) t = p.
Proof. unfold pc_of. cbn. by rewrite lookup_insert_eq. Qed.

Lemma pc_of_ne s s' t u p ths : t <> u ->
  pc_of (Config s (<[t:=p]> ths)) u = pc_of (Config s' ths) u.
Proof. intros. unfold pc_of. cbn. by rewrite lookup_insert_ne. Qed.

Lemma pc_of_wake s b ths u :
  pc_of (Config s (wake_all b ths)) u =
  if b then wake (pc_of (Config s ths) u) else pc_of (Config s ths) u.
Proof.
  destruct b; [|done]. unfold pc_of, wake_all. cbn. rewrite lookup_fmap.
  by destruct (ths !! u).
Qed.

(** Every step of [t] sets its own place and, at most, wakes the others. *)
Definition rewritten (t : nat) (c : config) (p : pc) (n : bool) (c' : config) : Prop :=
  threads c' = <[t:=p]> (wake_all n (threads c)).

Lemma rewritten_self t c p n c' : rewritten t c p n c' -> pc_of c' t = p.
Proof. destruct c' as [s ths]. unfold rewritten. cbn. intros ->. apply pc_of_eq. Qed.

Lemma rewritten_other t c p n c' u : rewritten t c p n c' -> t <> u ->
  pc_of c' u = if n then wake (pc_of c u) else pc_of c u.
Proof.
  destruct c' as [s ths], c as [s0 ths0]. unfold rewritten. cbn. intros -> Hu.
  by rewrite (pc_of_ne _ s0), pc_of_wake by done.
Qed.

Lemma leave_rewritten t op f c c' e : leave t op f (threads c) = (c', e) ->
  exists p n, rewritten t c p n c' /\ (p = Leaving op \/ p = Idle /\ exists r, e = Some (op, r)).
Proof.
  destruct f; cbn [leave]; intros [= <- <-]; eexists _, _; (split; [reflexivity|]); eauto.
Qed.

Lemma await_rewritten t op k c s c' e : await t op k s (threads c) = (c', e) ->
  exists p n, rewritten t c p n c' /\
    (p = Asleep op k /\ pred k s = false \/ p = Leaving op \/
     p = Idle /\ exists r, e = Some (op, r)).
Proof.
  unfold await. destruct (pred k s) eqn:E.
  - intros (p & n & Hr & Hp)%leave_rewritten. eauto 10.
  - intros [= <- <-]. exists (Asleep op k), false. split; [reflexivity|auto].
Qed.

Lemma step_other t c e c' u : step t c e c' -> t <> u ->
  pc_of c' u = pc_of c u \/ pc_of c' u = wake (pc_of c u).
Proof.
  intros Hs Hu.
  assert (Hrw : forall p n, rewritten t c p n c' ->
    pc_of c' u = pc_of c u \/ pc_of c' u = wake (pc_of c u)).
  { intros p n Hr. rewrite (rewritten_other _ _ _ _ _ _ Hr Hu). destruct n; auto. }
  destruct Hs as [op c c' e Hc|c c' e Hg|op k c Hp|op k c Hp Ht].
  - unfold call in Hc. destruct (pc_of c t); try done. destruct (typed op); [cbn [negb] in Hc|done].
    destruct (begin t op (shared c)) as [s [r|op']]; injection Hc as <- <-; [by left|].
    by apply (Hrw (Entering op') false).
  - unfold go, enter in Hg. destruct (pc_of c t) as [|op|op k|op k|op k|op]; try done.
    + injection Hg as Hg. destruct (body t op (shared c)).
      * apply leave_rewritten in Hg as (p & n & Hr & _). eauto.
      * apply await_rewritten in Hg as (p & n & Hr & _). eauto.
    + injection Hg as Hg. apply await_rewritten in Hg as (p & n & Hr & _). eauto.
    + injection Hg as Hg. apply leave_rewritten in Hg as (p & n & Hr & _). eauto.
    + destruct (epilogue t op (shared c)). injection Hg as <- <-.
      by apply (Hrw Idle (notifies op)).
  - by apply (Hrw (Awake op k) false).
  - by apply (Hrw (Expired op k) false).
Qed.

(** ** No wake-up is lost *)

(** A change of state that makes no waited-for condition true. *)
Definition quiet (s s' : S) : Prop := forall k, pred k s' = true -> pred k s = true.

(** A critical section that makes a condition true notifies. *)
Definition announced (op : Op) (s : S) (f : finish S R) : Prop :=
  match f with
  | Finish s' _ n => n = true \/ quiet s s'
  | Later s' n => n = true \/ notifies op = true \/ quiet s s'
  end.

Lemma quiet_refl s : quiet s s.
Proof. by intros k. Qed.

(** [admits] is what holds of a member and the state when it has locked. *)
Class Announces (admits : Op -> S -> Prop) := {
  begin_quiet t op s : quiet s (begin t op s).1;
  body_announced t op s : admits op s ->
    match body t op s with
    | Leave f => announced op s f
    | Wait s' _ => quiet s s' /\ admits op s'
    end;
  resume_announced t op k s : admits op s -> pred k s = true -> announced op s (resume t op k s);
  expire_announced t op k s : admits op s -> pred k s = false -> announced op s (expire t op k s);
  epilogue_quiet t op s : notifies op = true \/ quiet s (epilogue t op s).1;
}.

(** A thread about to call [notify_all]. *)
Definition notifier (c : config) (t : nat) : Prop :=
  exists op, pc_of c t = Leaving op /\ notifies op = true.

(** Nobody sleeps on a true condition, unless a notification is on its way. *)
Definition no_lost_wakeup (c : config) : Prop :=
  forall t op k, pc_of c t = Asleep op k -> pred k (shared c) = true -> exists u, notifier c u.

Lemma asleep_wake p op k : wake p <> Asleep op k.
Proof. by destruct p. Qed.

(** The step of one thread keeps the property when the sleeper's condition
    is false, no pending notification is dropped, and a condition made true
    is or will be notified. *)
Lemma rewritten_no_lost_wakeup t c p n c' : no_lost_wakeup c -> rewritten t c p n c' ->
  (forall op k, p = Asleep op k -> pred k (shared c') = false) ->
  (notifier c t -> n = true) ->
  (n = true \/ quiet (shared c) (shared c') \/ exists op, p = Leaving op /\ notifies op = true) ->
  no_lost_wakeup c'.
Proof.
  intros Hc Hr Hp Hn Hq u op k Hu Hk. destruct (decide (t = u)) as [->|Htu].
  { rewrite (rewritten_self _ _ _ _ _ Hr) in Hu. rewrite (Hp op k Hu) in Hk. done. }
  rewrite (rewritten_other _ _ _ _ _ _ Hr Htu) in Hu.
  destruct n; [by destruct (asleep_wake _ _ _ Hu)|].
  destruct Hq as [|[Hq|(op' & -> & Hop')]]; [done| |].
  - destruct (Hc u op k Hu (Hq k Hk)) as (v & op' & Hv & Hop'). exists v, op'.
    destruct (decide (t = v)) as [->|Htv]; [|by rewrite (rewritten_other _ _ _ _ _ _ Hr Htv)].
    enough (false = true) by done. apply Hn. by exists op'.
  - exists t, op'. by rewrite (rewritten_self _ _ _ _ _ Hr).
Qed.

Lemma leave_no_lost_wakeup t op f c c' e : no_lost_wakeup c -> ~ notifier c t ->
  announced op (shared c) f -> leave t op f (threads c) = (c', e) -> no_lost_wakeup c'.
Proof.
  intros Hc Ht Ha Hl. destruct f as [s' r n|s' n]; cbn [leave announced] in *; injection Hl as <- _.
  - apply (rewritten_no_lost_wakeup t c Idle n); cbn; [done..|tauto].
  - apply (rewritten_no_lost_wakeup t c (Leaving op) n); cbn; [done..|].
    destruct Ha as [?|[?|?]]; eauto.
Qed.

Lemma await_no_lost_wakeup `{!Announces admits} t op k s c c' e : no_lost_wakeup c -> ~ notifier c t -> admits op s ->
  quiet (shared c) s -> await t op k s (threads c) = (c', e) -> no_lost_wakeup c'.
Proof.
  intros Hc Ht Had Hq. pose proof (resume_announced (admits:=admits)) as Hres.
  unfold await. destruct (pred k s) eqn:E.
  - assert (Hc1 : no_lost_wakeup (Config s (threads c))).
    { intros u op' k' Hu Hk'. apply (Hc u op' k' Hu), Hq, Hk'. }
    intros Hl. apply (leave_no_lost_wakeup t op (resume t op k s) (Config s (threads c)) c' e);
      auto.
  - intros [= <- _]. apply (rewritten_no_lost_wakeup t c (Asleep op k) false); cbn; [done|done| |done|auto].
    by intros op' k' [= <- <-].
Qed.

Lemma not_notifier c t p : pc_of c t = p -> (forall op, p <> Leaving op) -> ~ notifier c t.
Proof. intros <- Hp (op & Hop & _). by apply (Hp op). Qed.

(** Every thread about to lock is admitted. *)
Definition entered (admits : Op -> S -> Prop) (c : config) : Prop :=
  forall t op, pc_of c t = Entering op \/
    (exists k, pc_of c t = Awake op k \/ pc_of c t = Expired op k) -> admits op (shared c).

Lemma step_no_lost_wakeup `{!Announces admits} t c e c' :
  step t c e c' -> entered admits c -> no_lost_wakeup c -> no_lost_wakeup c'.
Proof.
  intros Hs Hen Hc. pose proof (await_no_lost_wakeup (admits:=admits)) as Hawait.
  pose proof (resume_announced (admits:=admits)) as Hres.
  pose proof (expire_announced (admits:=admits)) as Hexp. destruct Hs as [op c c' e Hs|c c' e Hg|op k c Hp|op k c Hp Ht].
  - unfold call in Hs. destruct (pc_of c t) eqn:Hp; try done.
    destruct (typed op); [cbn [negb] in Hs|done]. pose proof (begin_quiet t op (shared c)) as Hq.
    destruct (begin t op (shared c)) as [s [r|op']]; injection Hs as <- <-; cbn in Hq.
    + intros u o k' Hu Hk'. apply (Hc u o k' Hu), Hq, Hk'.
    + apply (rewritten_no_lost_wakeup t c (Entering op') false); cbn; [done..| |auto].
      by intros Hn%(not_notifier c t Idle Hp).
  - unfold go, enter in Hg. destruct (pc_of c t) as [|op|op k|op k|op k|op] eqn:Hp; try done.
    + assert (Ht : ~ notifier c t) by by eapply not_notifier.
      pose proof (body_announced t op (shared c) (Hen t op (or_introl Hp))) as Hb. injection Hg as Hg.
      destruct (body t op (shared c)); [by eapply leave_no_lost_wakeup|].
      destruct Hb as [Hq Had]. by eapply Hawait.
    + injection Hg as Hg. eapply (Hawait t op k); eauto using quiet_refl.
      by eapply not_notifier.
    + injection Hg as Hg. assert (Had : admits op (shared c)) by eauto.
      eapply leave_no_lost_wakeup; [done| |  |done]; [by eapply not_notifier|].
      destruct (pred k (shared c)) eqn:E; auto.
    + pose proof (epilogue_quiet t op (shared c)) as Hq.
      destruct (epilogue t op (shared c)) as [s r]. injection Hg as <- <-. cbn in Hq.
      apply (rewritten_no_lost_wakeup t c Idle (notifies op)); cbn; [done..| |tauto].
      intros (op' & Hop' & Hn). rewrite Hp in Hop'. by injection Hop' as <-.
  - apply (rewritten_no_lost_wakeup t c (Awake op k) false); cbn; [done..| |auto using quiet_refl].
    by intros ?%(not_notifier c t _ Hp).
  - apply (rewritten_no_lost_wakeup t c (Expired op k) false); cbn; [done..| |auto using quiet_refl].
    by intros ?%(not_notifier c t _ Hp).
Qed.

Lemma exec_no_lost_wakeup `{!Announces admits} c0 tr c : (forall t, pc_of c0 t = Idle) ->
  (forall tr' c', exec c0 tr' c' -> (length tr' <= length tr)%nat -> entered admits c') ->
  exec c0 tr c -> no_lost_wakeup c.
Proof.
  intros Hc0 Hen Hx. induction Hx as [|tr c t e c' Hx IH Hs].
  - intros t op k Ht. by rewrite Hc0 in Ht.
  - rewrite length_app in Hen. cbn [length] in Hen.
    apply (step_no_lost_wakeup t c e); [done|apply (Hen tr); [done|lia]|].
    apply IH. intros tr' c1 Hx' Hl. apply (Hen tr' c1 Hx'). lia.
Qed.

(** ** Fair schedules

    An infinite schedule: [lab n] is the thread that moves at time [n] with
    the event of its step, or nothing. *)

Record schedule := Schedule { at_time : nat -> config; lab : nat -> option (nat * event) }.

Definition follows (x : schedule) : Prop :=
  forall n, match lab x n with
            | Some (t, e) => step t (at_time x n) e (at_time x (n + 1)%nat)
            | None => at_time x (n + 1)%nat = at_time x n
            end.

(** A thread that can run whenever it is scheduled. *)
Definition ready (p : pc) : Prop :=
  match p with Idle | Asleep _ _ => False | _ => True end.

(** Weak fairness: a ready thread is scheduled again. *)
Definition fair (x : schedule) : Prop :=
  forall n t, ready (pc_of (at_time x n) t) -> exists m e, (n <= m)%nat /\ lab x m = Some (t, e).

(** The call [op] of [t] returns at or after time [n]. *)
Definition returns (x : schedule) (n t : nat) (op : Op) : Prop :=
  exists m r, (n <= m)%nat /\ lab x m = Some (t, Some (op, r)).

Lemma ready_wake p : ready p -> wake p = p.
Proof. by destruct p. Qed.

Lemma go_step t c e c' : ready (pc_of c t) -> step t c e c' -> go t c = Some (c', e).
Proof.
  intros Hr Hs. destruct Hs as [op c c' e Hs|c c' e Hg|op k c Hp|op k c Hp Ht]; [|done|..].
  - unfold call in Hs. by destruct (pc_of c t).
  - by rewrite Hp in Hr.
  - by rewrite Hp in Hr.
Qed.

Lemma asleep_step t c e c' op k : step t c e c' -> pc_of c t = Asleep op k ->
  pc_of c' t = Awake op k \/ pc_of c' t = Expired op k.
Proof.
  intros Hs Hp. destruct Hs as [o c c' e Hs|c c' e Hg|o k' c Hc|o k' c Hc Ht].
  - unfold call in Hs. by rewrite Hp in Hs.
  - unfold go in Hg. by rewrite Hp in Hg.
  - rewrite Hp in Hc. injection Hc as <- <-. left. apply pc_of_eq.
  - rewrite Hp in Hc. injection Hc as <- <-. right. apply pc_of_eq.
Qed.

(** A ready thread keeps its place until it moves, which it does. *)
Lemma next_move x n t : follows x -> fair x -> ready (pc_of (at_time x n) t) ->
  exists m e, (n <= m)%nat /\ lab x m = Some (t, e) /\ pc_of (at_time x m) t = pc_of (at_time x n) t.
Proof.
  intros Hx Hf Hr. destruct (Hf n t Hr) as (m & e & Hm & Hl).
  remember (m - n)%nat as d eqn:Hd. revert n Hr Hm Hd. induction d as [|d IH]; intros n Hr Hm Hd.
  { assert (n = m) as -> by lia. by exists m, e. }
  specialize (Hx n) as Hn. destruct (lab x n) as [[u e']|] eqn:El.
  - destruct (decide (u = t)) as [->|Hu]; [by exists n, e'|].
    assert (Hp : pc_of (at_time x (n + 1)) t = pc_of (at_time x n) t).
    { destruct (step_other _ _ _ _ t Hn Hu) as [E|E]; [done|]. by rewrite E, ready_wake. }
    destruct (IH (n + 1)%nat) as (m' & e1 & ? & ? & E); [by rewrite Hp|lia..|].
    exists m', e1. split; [lia|]. by rewrite E.
  - destruct (IH (n + 1)%nat) as (m' & e1 & ? & ? & E); [by rewrite Hn|lia..|].
    exists m', e1. split; [lia|]. by rewrite E, Hn.
Qed.

Lemma leaving_returns x n t op : follows x -> fair x ->
  pc_of (at_time x n) t = Leaving op -> returns x n t op.
Proof.
  intros Hx Hf Hp. destruct (next_move x n t Hx Hf) as (m & e & Hm & Hl & E); [by rewrite Hp|].
  specialize (Hx m) as Hs. rewrite Hl in Hs. rewrite Hp in E.
  apply go_step in Hs; [|by rewrite E]. unfold go in Hs. rewrite E in Hs.
  destruct (epilogue t op (shared (at_time x m))) as [s r]. injection Hs as _ <-.
  by exists m, r.
Qed.

Lemma left_returns x m t op f e : follows x -> fair x -> lab x m = Some (t, e) ->
  leave t op f (threads (at_time x m)) = (at_time x (m + 1)%nat, e) -> returns x m t op.
Proof.
  intros Hx Hf Hl Hs. destruct (leave_rewritten _ _ _ _ _ _ Hs) as (p & b & Hr & [->|(-> & r & ->)]).
  - destruct (leaving_returns x (m + 1) t op Hx Hf) as (m' & r & ? & ?).
    { by apply (rewritten_self _ _ _ _ _ Hr). }
    exists m', r. split; [lia|done].
  - by exists m, r.
Qed.

Lemma returns_later x n m t op : (n <= m)%nat -> returns x m t op -> returns x n t op.
Proof. intros ? (m' & r & ? & ?). exists m', r. split; [lia|done]. Qed.

(** A thread that is awake in its wait returns if its condition stays true. *)
Lemma awake_returns x n t op k : follows x -> fair x ->
  (forall m, (n <= m)%nat -> pred k (shared (at_time x m)) = true) ->
  pc_of (at_time x n) t = Awake op k \/ pc_of (at_time x n) t = Expired op k -> returns x n t op.
Proof.
  intros Hx Hf Hk Hp. assert (Hr : ready (pc_of (at_time x n) t)) by (by destruct Hp as [-> | ->]).
  destruct (next_move x n t Hx Hf Hr) as (m & e & Hm & Hl & E).
  specialize (Hx m) as Hs. rewrite Hl in Hs. rewrite <- E in Hr, Hp.
  apply go_step in Hs; [|done]. apply (returns_later _ _ m); [done|].
  unfold go, await in Hs. destruct Hp as [Hp|Hp]; rewrite Hp, (Hk m Hm) in Hs;
    injection Hs as Hs; by eapply left_returns.
Qed.

(** Until the pending notification a sleeper either stays asleep or is woken. *)
Lemma notified_returns x t u op k op' m e : follows x -> fair x ->
  pc_of (at_time x m) u = Leaving op' -> notifies op' = true -> lab x m = Some (u, e) ->
  forall n, (n <= m)%nat -> (forall i, (n <= i)%nat -> pred k (shared (at_time x i)) = true) ->
  pc_of (at_time x n) t = Asleep op k -> returns x n t op.
Proof.
  intros Hx Hf Hu Hn Hl n Hm. remember (m - n)%nat as d eqn:Hd. revert n Hm Hd.
  induction d as [|d IH]; intros n Hm Hd Hk Hp.
  - assert (n = m) as -> by lia. specialize (Hx m) as Hs. rewrite Hl in Hs.
    assert (Hut : u <> t) by congruence. apply go_step in Hs; [|by rewrite Hu].
    unfold go in Hs. rewrite Hu, Hn in Hs.
    destruct (epilogue u op' (shared (at_time x m))) as [s r]. injection Hs as Hs _.
    apply (returns_later _ _ (m + 1)); [lia|]. apply (awake_returns x (m + 1) t op k); auto with lia.
    left. rewrite (rewritten_other u (at_time x m) Idle true), Hp; [done| |done].
    by rewrite <- Hs.
  - specialize (Hx n) as Hs. destruct (lab x n) as [[v e']|] eqn:El.
    + apply (returns_later _ _ (n + 1)); [lia|].
      assert (Hk' : forall i, (n + 1 <= i)%nat -> pred k (shared (at_time x i)) = true) by auto with lia.
      destruct (decide (v = t)) as [->|Hv].
      * apply (awake_returns x (n + 1) t op k); auto. by eapply asleep_step.
      * destruct (step_other _ _ _ _ t Hs Hv) as [E|E]; rewrite Hp in E; cbn in E;
          [apply IH; auto with lia|apply (awake_returns x (n + 1) t op k); auto].
    + apply (returns_later _ _ (n + 1)); [lia|]. apply IH; [lia..|auto with lia|by rewrite Hs].
Qed.

(** Under a fair scheduler, a thread that waits for a condition that stays
    true returns. *)
Lemma waiter_returns x n t op k : follows x -> fair x ->
  no_lost_wakeup (at_time x n) ->
  (forall m, (n <= m)%nat -> pred k (shared (at_time x m)) = true) ->
  pc_of (at_time x n) t = Asleep op k \/ pc_of (at_time x n) t = Awake op k \/
  pc_of (at_time x n) t = Expired op k ->
  returns x n t op.
Proof.
  intros Hx Hf Hw Hk [Hp|Hp]; [|by eapply awake_returns].
  destruct (Hw t op k Hp (Hk n (le_n n))) as (u & op' & Hu & Hn).
  destruct (next_move x n u Hx Hf) as (m & e & Hm & Hl & E); [by rewrite Hu|].
  rewrite Hu in E. by eapply notified_returns.
Qed.

(** ** Replaying a finite schedule for ever *)

(** The configuration after the choices, those that are not possible skipped. *)
Definition chosen (ch : choice) (c : config) : config :=
  match choose ch c with Some (_, _, c') => c' | None => c end.

Fixpoint final (sched : list choice) (c : config) : config :=
  match sched with [] => c | ch :: sched => final sched (chosen ch c) end.

Definition replay (sched : list choice) (c : config) : schedule :=
  Schedule (fun n => final (firstn n sched) c)
    (fun n => ch ← nth_error sched n; '(t, e, _) ← choose ch (final (firstn n sched) c); Some (t, e)).

Lemma final_snoc sched ch : forall c, final (sched ++ [ch]) c = chosen ch (final sched c).
Proof. induction sched as [|ch' sched IH]; intros c; [done|]. apply IH. Qed.

Lemma firstn_snoc {A} (l : list A) n :
  firstn (n + 1) l = firstn n l ++ match nth_error l n with Some x => [x] | None => [] end.
Proof.
  revert n. induction l as [|x l IH]; intros [|n]; [done..|]. cbn. f_equal. apply IH.
Qed.

Lemma replay_follows sched c : follows (replay sched c).
Proof.
  intros n. cbn [replay at_time lab]. rewrite firstn_snoc.
  destruct (nth_error sched n) as [ch|] eqn:En; cbn; [|by rewrite app_nil_r].
  rewrite final_snoc. unfold chosen.
  destruct (choose ch _) as [[[t e] c']|] eqn:Ec; [|done]. by eapply choose_step.
Qed.

#[global] Instance ready_dec p : Decision (ready p).
Proof. destruct p; cbn; apply _. Defined.

(** No thread can run. *)
Definition quiescent (c : config) : Prop := map_Forall (fun _ p => ~ ready p) (threads c).

#[global] Instance quiescent_dec c : Decision (quiescent c).
Proof. unfold quiescent. apply _. Defined.

Lemma quiescent_pc c t : quiescent c -> ~ ready (pc_of c t).
Proof.
  intros Hq. unfold pc_of. destruct (threads c !! t) as [p|] eqn:E; [by apply (Hq t)|auto].
Qed.

(** A schedule that ends with no thread able to run is fair. *)
Lemma replay_fair sched c : quiescent (final sched c) -> fair (replay sched c).
Proof.
  intros Hq n t. remember (length sched - n)%nat as d eqn:Hd. revert n Hd.
  induction d as [|d IH]; intros n Hd Hr.
  - cbn [replay at_time] in Hr. rewrite take_ge in Hr by lia. by destruct (quiescent_pc _ t Hq).
  - pose proof (replay_follows sched c n) as Hs.
    destruct (lab (replay sched c) n) as [[u e]|] eqn:El.
    + destruct (decide (u = t)) as [->|Hu]; [by exists n, e|].
      destruct (IH (n + 1)%nat) as (m & e' & ? & ?); [lia| |exists m, e'; auto with lia].
      destruct (step_other _ _ _ _ t Hs Hu) as [->| ->]; [done|]. by rewrite ready_wake.
    + destruct (IH (n + 1)%nat) as (m & e' & ? & ?); [lia|by rewrite Hs|exists m, e'; auto with lia].
Qed.

(** The times of a schedule are reachable. *)
Lemma follows_exec x n : follows x -> exists tr, exec (at_time x 0) tr (at_time x n).
Proof.
  intros Hx. induction n as [|n [tr IH]]; [exists []; constructor|].
  specialize (Hx n). rewrite Nat.add_1_r in Hx. destruct (lab x n) as [[t e]|].
  - exists (tr ++ [(t, e)]). by eapply exec_snoc.
  - exists tr. by rewrite Hx.
Qed.

(** ** The rule for invariants

    Which of sleeping, woken or timed out a waiting thread is makes no
    difference to an invariant: [place] forgets it. *)

Inductive place :=
  | Outside
  | Before (op : Op)
  | Waiting (op : Op) (k : K)
  | After (op : Op).

Definition place_of (p : pc) : place :=
  match p with
  | Idle => Outside
  | Entering op => Before op
  | Asleep op k | Awake op k | Expired op k => Waiting op k
  | Leaving op => After op
  end.

Definition places (c : config) : gmap nat place := place_of <$> threads c.
Definition at_place (A : gmap nat place) (t : nat) : place := default Outside (A !! t).

(** The calls that have returned, with their results. *)
Definition returned (tr : list (nat * event)) : list (nat * Op * res R) :=
  omap (fun '(t, e) => match e with Some (op, r) => Some (t, op, r) | None => None end) tr.

(** An invariant of the state, the places, the returned calls and a bound [n]
    on the number of moves so far. *)
Definition invariant : Type := nat -> S -> gmap nat place -> list (nat * Op * res R) -> Prop.

Definition after (Inv : invariant) (n : nat) (t : nat) (op : Op) (f : finish S R)
    (A : gmap nat place) (out : list (nat * Op * res R)) : Prop :=
  match f with
  | Finish s r _ => Inv n s (<[t:=Outside]> A) (out ++ [(t, op, r)])
  | Later s _ => Inv n s (<[t:=After op]> A) out
  end.

(** What an invariant must satisfy: one condition per kind of move. *)
Class Preserved (Inv : invariant) := {
  inv_mono n m s A out : Inv n s A out -> (n <= m)%nat -> Inv m s A out;
  inv_call n t op s A out : Inv n s A out -> at_place A t = Outside -> typed op = true ->
    match begin t op s with
    | (s', Return r) => Inv (n + 1)%nat s' A (out ++ [(t, op, r)])
    | (s', Proceed op') => Inv (n + 1)%nat s' (<[t:=Before op']> A) out
    end;
  inv_body n t op s A out : Inv n s A out -> at_place A t = Before op ->
    match body t op s with
    | Leave f => after Inv (n + 1) t op f A out
    | Wait s' k => Inv (n + 1)%nat s' (<[t:=Waiting op k]> A) out
    end;
  inv_resume n t op k s A out : Inv n s A out -> at_place A t = Waiting op k -> pred k s = true ->
    after Inv (n + 1) t op (resume t op k s) A out;
  inv_expire n t op k s A out : Inv n s A out -> at_place A t = Waiting op k -> pred k s = false ->
    timed k = true -> after Inv (n + 1) t op (expire t op k s) A out;
  inv_epilogue n t op s A out : Inv n s A out -> at_place A t = After op ->
    Inv (n + 1)%nat (epilogue t op s).1 (<[t:=Outside]> A) (out ++ [(t, op, (epilogue t op s).2)]);
}.

Lemma returned_snoc tr t e : returned (tr ++ [(t, e)]) =
  returned tr ++ match e with Some (op, r) => [(t, op, r)] | None => [] end.
Proof. unfold returned. rewrite omap_app. by destruct e as [[op r]|]. Qed.

Lemma places_wake s b ths : places (Config s (wake_all b ths)) = place_of <$> ths.
Proof.
  destruct b; [|done]. unfold places, wake_all. cbn. rewrite <- map_fmap_compose.
  apply map_fmap_ext. intros i p _. by destruct p.
Qed.

Lemma places_set s t p b ths :
  places (Config s (<[t:=p]> (wake_all b ths))) = <[t:=place_of p]> (place_of <$> ths).
Proof. rewrite <- (places_wake s b ths). unfold places. cbn. by rewrite fmap_insert. Qed.

Lemma at_places c t : at_place (places c) t = place_of (pc_of c t).
Proof. unfold at_place, places, pc_of. rewrite lookup_fmap. by destruct (threads c !! t). Qed.

(** Putting a thread where it already is changes nothing an invariant sees. *)
Lemma places_same c t p : pc_of c t <> Idle -> place_of p = place_of (pc_of c t) ->
  places (move c t p) = places c.
Proof.
  intros Hn Hp. unfold move, places. cbn. rewrite fmap_insert, Hp.
  apply insert_id. unfold pc_of in *. rewrite lookup_fmap. by destruct (threads c !! t).
Qed.

(** The invariant of a reachable configuration, with the fact that only a
    timed wait expires. *)
Definition holds (Inv : invariant) (n : nat) (c : config) (tr : list (nat * event)) : Prop :=
  Inv n (shared c) (places c) (returned tr) /\
  forall t op k, pc_of c t = Expired op k -> timed k = true.

Definition only_timed (c : config) : Prop :=
  forall t op k, pc_of c t = Expired op k -> timed k = true.

Lemma rewritten_places t c p n c' : rewritten t c p n c' ->
  places c' = <[t:=place_of p]> (places c).
Proof. destruct c' as [s ths]. unfold rewritten. intros Hr. cbn in Hr. by rewrite Hr, places_set. Qed.

Lemma rewritten_timed t c p n c' : only_timed c -> rewritten t c p n c' ->
  (forall op k, p = Expired op k -> timed k = true) -> only_timed c'.
Proof.
  intros Hc Hr Hp u op k Hu. destruct (decide (t = u)) as [->|Hne].
  - rewrite (rewritten_self _ _ _ _ _ Hr) in Hu. by eapply Hp.
  - rewrite (rewritten_other _ _ _ _ _ _ Hr Hne) in Hu. apply (Hc u op k).
    destruct n; [|done]. by destruct (pc_of c u).
Qed.

Lemma leave_holds Inv n t op f c c' tr e : only_timed c -> after Inv n t op f (places c) (returned tr) ->
  leave t op f (threads c) = (c', e) -> holds Inv n c' (tr ++ [(t, e)]).
Proof.
  intros Hc Ha Hl. unfold holds. rewrite returned_snoc.
  destruct f as [s' r b|s' b]; cbn [leave after] in *; injection Hl as <- <-; rewrite ?app_nil_r.
  - split; [rewrite places_set; exact Ha|]. by apply (rewritten_timed t c Idle b).
  - split; [rewrite places_set; exact Ha|]. by apply (rewritten_timed t c (Leaving op) b).
Qed.

(** A step that an invariant cannot see. *)
Lemma unseen_holds Inv n c c' tr t : only_timed c' -> holds Inv n c tr -> shared c' = shared c ->
  places c' = places c -> holds Inv n c' (tr ++ [(t, None)]).
Proof.
  intros Hc [HI _] Hs Hp. split; [|done]. by rewrite returned_snoc, app_nil_r, Hs, Hp.
Qed.

Lemma place_known c t p : pc_of c t = p -> at_place (places c) t = place_of p.
Proof. intros <-. apply at_places. Qed.

Lemma holds_mono Inv `{!Preserved Inv} n m c tr : holds Inv n c tr -> (n <= m)%nat -> holds Inv m c tr.
Proof. intros [HI Hc] Hm. split; [|done]. by eapply inv_mono. Qed.

Lemma await_holds Inv `{!Preserved Inv} n t op k s c c' tr e : only_timed c ->
  Inv n s (<[t:=Waiting op k]> (places c)) (returned tr) ->
  await t op k s (threads c) = (c', e) -> holds Inv (n + 1) c' (tr ++ [(t, e)]).
Proof.
  intros Hc HI. unfold await. destruct (pred k s) eqn:E.
  - intros Hl. apply (leave_holds Inv (n + 1) t op (resume t op k s) c); [done| |done].
    assert (Hat : at_place (<[t:=Waiting op k]> (places c)) t = Waiting op k)
      by (unfold at_place; by rewrite lookup_insert_eq).
    pose proof (inv_resume n t op k s _ _ HI Hat E) as Ha.
    destruct (resume t op k s); cbn [after] in *; by rewrite insert_insert_eq in Ha.
  - intros [= <- <-]. split; [|by apply (rewritten_timed t c (Asleep op k) false)].
    rewrite returned_snoc, app_nil_r. rewrite (rewritten_places t c (Asleep op k) false) by done. cbn [place_of].
    eapply inv_mono; [exact HI|lia].
Qed.

Lemma step_holds Inv `{!Preserved Inv} n t c e c' tr : step t c e c' -> holds Inv n c tr ->
  holds Inv (n + 2) c' (tr ++ [(t, e)]).
Proof.
  intros Hs Hh. destruct (id Hh) as [HI Hc].
  destruct Hs as [op c c' e Hs|c c' e Hg|op k c Hp|op k c Hp Ht].
  - unfold call in Hs. destruct (pc_of c t) eqn:Hp; try done.
    destruct (typed op) eqn:Hty; [cbn [negb] in Hs|done].
    pose proof (inv_call n t op _ _ _ HI (place_known c t _ Hp) Hty) as H1.
    apply (holds_mono Inv (n + 1)); [|lia].
    destruct (begin t op (shared c)) as [s' [r|op']]; injection Hs as <- <-.
    + split; [|done]. by rewrite returned_snoc.
    + split; [|by apply (rewritten_timed t c (Entering op') false)].
      rewrite returned_snoc, app_nil_r.
      by rewrite (rewritten_places t c (Entering op') false).
  - unfold go, enter in Hg. destruct (pc_of c t) as [|op|op k|op k|op k|op] eqn:Hp; try done;
      pose proof (place_known c t _ Hp) as Hat; cbn [place_of] in Hat.
    + pose proof (inv_body n t op _ _ _ HI Hat) as H1. injection Hg as Hg.
      destruct (body t op (shared c)) as [f|s' k].
      * apply (holds_mono Inv (n + 1)); [|lia]. by eapply (leave_holds Inv).
      * replace (n + 2)%nat with (n + 1 + 1)%nat by lia. by eapply (await_holds Inv).
    + injection Hg as Hg. apply (holds_mono Inv (n + 1)); [|lia]. eapply (await_holds Inv); [done| |done].
      rewrite insert_id; [done|]. unfold at_place in Hat.
      by destruct (places c !! t); cbn in Hat; simplify_eq.
    + injection Hg as Hg. apply (holds_mono Inv (n + 1)); [|lia].
      eapply (leave_holds Inv); [done| |done]. destruct (pred k (shared c)) eqn:E.
      * by apply inv_resume.
      * eapply inv_expire; eauto.
    + pose proof (inv_epilogue n t op _ _ _ HI Hat) as H1. apply (holds_mono Inv (n + 1)); [|lia].
      destruct (epilogue t op (shared c)) as [s' r]. injection Hg as <- <-. split.
      * rewrite returned_snoc. by rewrite places_set.
      * by apply (rewritten_timed t c Idle (notifies op)).
  - apply (unseen_holds Inv _ c); [|apply (holds_mono Inv n); [done|lia]|done|].
    + by apply (rewritten_timed t c (Awake op k) false).
    + apply places_same; by rewrite Hp.
  - apply (unseen_holds Inv _ c); [|apply (holds_mono Inv n); [done|lia]|done|].
    + apply (rewritten_timed t c (Expired op k) false); [done..|]. by intros o k' [= _ <-].
    + apply places_same; by rewrite Hp.
Qed.

(** The invariant holds of every reachable configuration; each step is at
    most two moves. *)
Lemma exec_invariant Inv `{!Preserved Inv} c0 tr c : (forall t, pc_of c0 t = Idle) ->
  Inv 0%nat (shared c0) (places c0) [] -> exec c0 tr c -> holds Inv (2 * length tr) c tr.
Proof.
  intros Hc0 HI Hx. induction Hx as [|tr c t e c' _ IH Hs].
  - split; [done|]. intros t op k Ht. by rewrite Hc0 in Ht.
  - rewrite length_app. cbn [length].
    replace (2 * (length tr + 1))%nat with (2 * length tr + 2)%nat by lia.
    by eapply (step_holds Inv).
Qed.

Lemma exec_holds Inv `{!Preserved Inv} c0 tr c : (forall t, pc_of c0 t = Idle) ->
  Inv 0%nat (shared c0) (places c0) [] -> exec c0 tr c ->
  Inv (2 * length tr)%nat (shared c) (places c) (returned tr).
Proof. intros. by apply (exec_invariant Inv c0). Qed.

#[global] Instance True_preserved : Preserved (fun _ _ _ _ => True).
Proof. split; intros; unfold after; repeat case_match; exact I. Qed.

Lemma exec_only_timed c0 tr c : (forall t, pc_of c0 t = Idle) -> exec c0 tr c -> only_timed c.
Proof. intros Hc Hx. by destruct (exec_invariant (fun _ _ _ _ => True) c0 tr c Hc I Hx). Qed.

(** ** What the answers say

    [told t op r s]: the answer [r] of the call [op] of [t] is true of the
    state [s] it leaves. It is checked where a call can return, knowing [Q] of
    the state and the place of the thread. *)

Definition finish_told (told : nat -> Op -> res R -> S -> Prop) (t : nat) (op : Op)
    (f : finish S R) : Prop :=
  match f with Finish s r _ => told t op r s | Later _ _ => True end.

Class Truthful (Q : S -> nat -> place -> Prop) (told : nat -> Op -> res R -> S -> Prop) := {
  begin_told t op s s' r : begin t op s = (s', Return r) -> told t op r s';
  body_told t op s f : Q s t (Before op) -> body t op s = Leave f -> finish_told told t op f;
  wait_told t op s s' k : Q s t (Before op) -> body t op s = Wait s' k -> pred k s' = true ->
    finish_told told t op (resume t op k s');
  resume_told t op k s : Q s t (Waiting op k) -> pred k s = true ->
    finish_told told t op (resume t op k s);
  expire_told t op k s : Q s t (Waiting op k) -> pred k s = false -> timed k = true ->
    finish_told told t op (expire t op k s);
  epilogue_told t op s : Q s t (After op) -> told t op (epilogue t op s).2 (epilogue t op s).1;
}.

Lemma leave_told told t op f ths c' o r : finish_told told t op f ->
  leave t op f ths = (c', Some (o, r)) -> told t o r (shared c').
Proof. destruct f; cbn; intros Hf; [|done]. intros [= <- <- <-]. exact Hf. Qed.

Lemma await_told told t op k s ths c' o r :
  (pred k s = true -> finish_told told t op (resume t op k s)) ->
  await t op k s ths = (c', Some (o, r)) -> told t o r (shared c').
Proof.
  unfold await. destruct (pred k s); [|done]. intros Hf. apply leave_told. by apply Hf.
Qed.

Lemma step_told `{!Truthful Q told} t c op r c' :
  (forall u, Q (shared c) u (at_place (places c) u)) -> only_timed c ->
  step t c (Some (op, r)) c' -> told t op r (shared c').
Proof.
  intros HQ HT. remember (Some (op, r)) as e eqn:He. intros Hs. specialize (HQ t).
  destruct Hs as [o c c' e Hs|c c' e Hg| |]; [| |done..]; subst e.
  - unfold call in Hs. destruct (pc_of c t); try done. destruct (typed o); [cbn [negb] in Hs|done].
    destruct (begin t o (shared c)) as [s [r'|]] eqn:Eb; simplify_eq/=. by eapply begin_told.
  - unfold go, enter in Hg. rewrite at_places in HQ.
    destruct (pc_of c t) as [|o|o k|o k|o k|o] eqn:Et; try done; cbn [place_of] in HQ.
    + destruct (body t o (shared c)) as [f|s k] eqn:Eb; injection Hg as Hg.
      * eapply leave_told; [|done]. by eapply body_told.
      * eapply await_told; [|done]. by eapply wait_told.
    + injection Hg as Hg. eapply await_told; [|done]. by eapply resume_told.
    + injection Hg as Hg. eapply leave_told; [|done].
      destruct (pred k (shared c)) eqn:E; [by eapply resume_told|].
      eapply expire_told; [done..|]. by eapply HT.
    + pose proof (epilogue_told t o (shared c) HQ) as Ht.
      destruct (epilogue t o (shared c)) as [s r']. by injection Hg as <- <- <-.
Qed.

(** Where an invariant says what a thread about to lock has passed. *)
Lemma entering_place c t op : pc_of c t = Entering op -> at_place (places c) t = Before op.
Proof. apply (place_known c t (Entering op)). Qed.

(** An object right after its construction, no thread inside. *)
Definition fresh (s : S) : config := Config s ∅.

Lemma fresh_idle s t : pc_of (fresh s) t = Idle.
Proof. done. Qed.

End Executions.
Arguments pc : clear implicits.
Arguments config : clear implicits.
Arguments event : clear implicits.
Arguments choice : clear implicits.
Arguments place : clear implicits.
Arguments schedule : clear implicits.

End Monitor.
