(* ===== verification/Threading.v ===== *)
(** * Threading: what the synchronisation classes share

    The checks of [threading/include/System/Threading/WaitHandle.hpp] that the
    classes of [System/Threading/] make before they lock, and the results of
    their members. *)

From S2P Require Export Monitor Guards.

#[global] Open Scope Z_scope.

(** The value a member returns. *)
Inductive reply := Unit | Bool (b : bool) | Int (z : Z).

#[export] Instance reply_eq_dec : EqDecision reply.
Proof. solve_decision. Defined.

(** The checks a member makes before it locks: the exception they throw, or
    the call goes on as [op]. *)
Definition checked {Op R} (checks : res unit) (op : Op) : Monitor.entry Op R :=
  match checks with
  | Ok _ => Monitor.Proceed op
  | Throw e => Monitor.Return (Throw e)
  | UB => Monitor.Return UB
  end.

Lemma checked_Return {Op R} (m : res unit) (op : Op) (r : res R) :
  checked m op = Monitor.Return r -> (exists e, r = Throw e) \/ r = UB.
Proof. destruct m; cbn; intros [=]; eauto. Qed.

(** WaitHandle::ValidateTimeout *)
Definition ValidateTimeout (ms : Z) : res unit := ThrowIfLessThan ms (-1) "millisecondsTimeout".

(** The duration of a wait: [Timeout.Infinite] is -1. *)
Definition timeout_of (ms : Z) : option Z := if ms =? -1 then None else Some ms.
Definition is_timed (k : option Z) : bool := match k with Some _ => true | None => false end.

(** ** Counting returned calls *)

(** The sum of [f] over a list. *)
Definition total {A} (f : A -> Z) (l : list A) : Z := foldr (fun x z => f x + z) 0 l.

Lemma total_snoc {A} (f : A -> Z) l x : total f (l ++ [x]) = total f l + f x.
Proof.
  induction l as [|y l IH]; [cbn; lia|]. change (f y + total f (l ++ [x]) = f y + total f l + f x).
  lia.
Qed.

(** Looking up a place after a thread has moved. *)
Lemma at_place_set {Op K} (A : gmap nat (Monitor.place Op K)) t u p :
  Monitor.at_place (<[t:=p]> A) u = if decide (t = u) then p else Monitor.at_place A u.
Proof.
  unfold Monitor.at_place. destruct (decide (t = u)) as [->|Hu].
  - by rewrite lookup_insert_eq.
  - by rewrite lookup_insert_ne.
Qed.

(** A fact of every thread's place. *)
Definition everywhere {Op K} (Q : Monitor.place Op K -> Prop) (A : gmap nat (Monitor.place Op K)) : Prop :=
  forall t, Q (Monitor.at_place A t).

Lemma everywhere_set {Op K} (Q : Monitor.place Op K -> Prop) A t p :
  everywhere Q A -> Q p -> everywhere Q (<[t:=p]> A).
Proof. intros HA Hp u. rewrite at_place_set. by case_decide. Qed.

Lemma everywhere_at {Op K} (Q : Monitor.place Op K -> Prop) A t p :
  everywhere Q A -> Monitor.at_place A t = p -> Q p.
Proof. intros HA Hp. rewrite <- Hp. apply HA. Qed.

Lemma everywhere_empty {Op K} (Q : Monitor.place Op K -> Prop) : Q Monitor.Outside -> everywhere Q ∅.
Proof. intros HQ t. unfold Monitor.at_place. by rewrite lookup_empty. Qed.

(** Counting the threads at some places: the places outside do not count. *)
Section Count_places.
Context {Op K : Type} (p : Monitor.place Op K -> bool) (Hp : p Monitor.Outside = false).

Lemma count_set (A : gmap nat (Monitor.place Op K)) t q :
  count p (<[t:=q]> A) = count p A - b2z (p (Monitor.at_place A t)) + b2z (p q).
Proof. by apply count_default. Qed.

Lemma count_nowhere (A : gmap nat (Monitor.place Op K)) :
  everywhere (fun q => p q = false) A -> count p A = 0.
Proof.
  intros HA. apply count_zero. intros t q Ht. specialize (HA t). unfold Monitor.at_place in HA.
  by rewrite Ht in HA.
Qed.
End Count_places.
