(* ===== verification/SemaphoreSlim.v ===== *)
(** * System::Threading::SemaphoreSlim

    [threading/include/System/Threading/SemaphoreSlim.hpp] as a [Monitor]
    program: the count is between zero and the maximum in every interleaving,
    it is the initial count plus the releases minus the entries, no increment
    overflows, and nobody sleeps while the count is positive. *)

From S2P Require Export Threading.

Module SemaphoreSlim.

Record SemaphoreSlim := mk { count_ : Z; maxCount_ : Z; disposed_ : bool }.

(** The members: Wait(), Wait(milliseconds), Release(releaseCount), Dispose()
    and the property CurrentCount; Release() is [Release 1]. *)
Inductive Op :=
  | Wait
  | WaitFor (milliseconds : Z)
  | Release (releaseCount : Z)
  | Dispose
  | CurrentCount.

(** SemaphoreSlim(initialCount, maxCount) *)
Definition construct (initialCount maxCount : Z) : res SemaphoreSlim :=
  _ <- throw_if (maxCount <? 1) (out_of_range "maxCount") ;;
  _ <- throw_if ((initialCount <? 0) || (initialCount >? maxCount)) (out_of_range "initialCount") ;;
  Ok (mk initialCount maxCount false).

Definition ThrowIfDisposed (this : SemaphoreSlim) : res unit :=
  throw_if (disposed_ this) (ObjectDisposedException "SemaphoreSlim").

Definition set_count (this : SemaphoreSlim) (n : Z) : SemaphoreSlim :=
  mk n (maxCount_ this) (disposed_ this).
Definition set_disposed (this : SemaphoreSlim) : SemaphoreSlim :=
  mk (count_ this) (maxCount_ this) true.

(** Up to the lock. CurrentCount is an atomic read and Dispose an atomic
    store. *)
Definition begin (op : Op) (this : SemaphoreSlim) : SemaphoreSlim * Monitor.entry Op reply :=
  match op with
  | Wait => (this, checked (ThrowIfDisposed this) op)
  | WaitFor ms => (this, checked (_ <- ValidateTimeout ms ;; ThrowIfDisposed this) op)
  | Release n => (this, checked (_ <- ThrowIfDisposed this ;;
                                 throw_if (n <? 1) (out_of_range "releaseCount")) op)
  | Dispose => (set_disposed this, Monitor.Return (Ok Unit))
  | CurrentCount => (this, Monitor.Return (Ok (Int (count_ this))))
  end.

(** The critical section of Release; the atomic [+=] wraps. *)
Definition release (n : Z) (this : SemaphoreSlim) : Monitor.finish SemaphoreSlim reply :=
  match ssub 32 (maxCount_ this) (count_ this) with
  | Ok room =>
      if room <? n then Monitor.Finish this (Throw SemaphoreFullException) false
      else Monitor.Finish (set_count this (i32 (count_ this + n))) (Ok (Int (count_ this))) true
  | _ => Monitor.Finish this UB false
  end.

Definition body (op : Op) (this : SemaphoreSlim)
    : Monitor.section SemaphoreSlim (option Z) reply :=
  match op with
  | Wait => Monitor.Wait this None
  | WaitFor ms => Monitor.Wait this (timeout_of ms)
  | Release n => Monitor.Leave (release n this)
  | Dispose | CurrentCount => Monitor.Leave (Monitor.Finish this (Ok Unit) false)  (* never lock *)
  end.

(** [--count_] after the wait, and the result of the call. *)
Definition taken (op : Op) (this : SemaphoreSlim) : Monitor.finish SemaphoreSlim reply :=
  Monitor.Finish (set_count this (i32 (count_ this - 1)))
    (Ok (match op with WaitFor _ => Bool true | _ => Unit end)) false.

#[global] Instance program : Monitor.Program SemaphoreSlim Op (option Z) reply := {
  Monitor.typed op := match op with WaitFor n | Release n => in_sb 32 n | _ => true end;
  Monitor.begin _ := begin;
  Monitor.body _ := body;
  Monitor.pred _ this := count_ this >? 0;
  Monitor.timed := is_timed;
  Monitor.resume _ op _ := taken op;
  Monitor.expire _ _ _ this := Monitor.Finish this (Ok (Bool false)) false;
  Monitor.epilogue _ _ this := (this, Ok Unit);
  Monitor.notifies _ := false;
}.

End SemaphoreSlim.

(** ** What the returned calls did to the count *)

(** Units put back by a Release, less the unit taken by an entry. *)
Definition unit_change (x : nat * SemaphoreSlim.Op * res reply) : Z :=
  match x with
  | (_, SemaphoreSlim.Release n, Ok _) => n
  | (_, SemaphoreSlim.Wait, Ok _) => -1
  | (_, SemaphoreSlim.WaitFor _, Ok (Bool true)) => -1
  | _ => 0
  end.

(** The results a member may have. *)
Definition semaphore_result (max : Z) (x : nat * SemaphoreSlim.Op * res reply) : Prop :=
  let '(_, op, r) := x in
  match op, r with
  | SemaphoreSlim.Wait, Ok Unit | SemaphoreSlim.WaitFor _, Ok (Bool _)
  | SemaphoreSlim.Dispose, Ok Unit => True
  | SemaphoreSlim.CurrentCount, Ok (Int n) => 0 <= n <= max
  | SemaphoreSlim.Release n, Ok (Int previous) => 1 <= n /\ 0 <= previous /\ previous + n <= max
  | SemaphoreSlim.Release n, Throw SemaphoreFullException => 1 <= n
  | SemaphoreSlim.Release n, Throw (ArgumentOutOfRangeException "releaseCount" _) => n < 1
  | SemaphoreSlim.WaitFor ms, Throw (ArgumentOutOfRangeActual "millisecondsTimeout" _ _) => ms < -1
  | (SemaphoreSlim.Wait | SemaphoreSlim.WaitFor _ | SemaphoreSlim.Release _),
    Throw (ObjectDisposedException "SemaphoreSlim") => True
  | _, _ => False
  end.

(** ** The invariant *)

Definition locks (op : SemaphoreSlim.Op) : Prop :=
  match op with SemaphoreSlim.Dispose | SemaphoreSlim.CurrentCount => False | _ => True end.

(** What a thread inside has passed: the checks of its call. *)
Definition passed (p : Monitor.place SemaphoreSlim.Op (option Z)) : Prop :=
  match p with
  | Monitor.Outside => True
  | Monitor.Before (SemaphoreSlim.Release n) => 1 <= n
  | Monitor.Before op => locks op
  | Monitor.Waiting SemaphoreSlim.Wait None | Monitor.Waiting (SemaphoreSlim.WaitFor _) _ => True
  | _ => False
  end.

Definition semaphore_inv (initial max : Z) : Monitor.invariant :=
  fun _ this A out =>
    SemaphoreSlim.maxCount_ this = max /\ 1 <= max < 2 ^ 31 /\
    0 <= SemaphoreSlim.count_ this <= max /\
    SemaphoreSlim.count_ this = initial + total unit_change out /\
    Forall (semaphore_result max) out /\ everywhere passed A.

Lemma semaphore_returned initial max n m this A A' out this' t op r :
  semaphore_inv initial max n this A out -> everywhere passed A' ->
  SemaphoreSlim.maxCount_ this' = max -> 0 <= SemaphoreSlim.count_ this' <= max ->
  SemaphoreSlim.count_ this' = SemaphoreSlim.count_ this + unit_change (t, op, r) ->
  semaphore_result max (t, op, r) ->
  semaphore_inv initial max m this' A' (out ++ [(t, op, r)]).
Proof.
  intros (_ & Hm & _ & Hc & Ho & _) HA Hmax Hb Hd Hr.
  repeat (split; [done|]). rewrite total_snoc. split; [lia|]. split; [|done].
  apply Forall_app. split; [done|]. by constructor.
Qed.

Lemma semaphore_moved initial max n m this A A' out :
  semaphore_inv initial max n this A out -> everywhere passed A' ->
  semaphore_inv initial max m this A' out.
Proof. intros (? & ? & ? & ? & ? & _) HA. repeat (split; [done|]). done. Qed.

(** The checks of a call: what it throws, or what it has passed. *)
Lemma semaphore_begin max op this : 0 <= SemaphoreSlim.count_ this <= max ->
  match SemaphoreSlim.begin op this with
  | (this', Monitor.Return r) =>
      (forall t, unit_change (t, op, r) = 0) /\ (forall t, semaphore_result max (t, op, r))
  | (this', Monitor.Proceed op') => this' = this /\ passed (Monitor.Before op')
  end.
Proof.
  intros Hc. destruct op as [|ms|n| |]; cbn [SemaphoreSlim.begin]; [..|done|done];
    unfold SemaphoreSlim.ThrowIfDisposed, ValidateTimeout, ThrowIfLessThan, throw_if.
  - by destruct (SemaphoreSlim.disposed_ this).
  - destruct (ms <? -1) eqn:E; [|by destruct (SemaphoreSlim.disposed_ this)].
    split; [done|]. intros t. cbn. lia.
  - destruct (SemaphoreSlim.disposed_ this); [done|]. destruct (n <? 1) eqn:E.
    + split; [done|]. intros t. cbn. lia.
    + split; [done|]. cbn. lia.
Qed.

Lemma begin_keeps op this : SemaphoreSlim.maxCount_ (SemaphoreSlim.begin op this).1 = SemaphoreSlim.maxCount_ this /\
  SemaphoreSlim.count_ (SemaphoreSlim.begin op this).1 = SemaphoreSlim.count_ this.
Proof. by destruct op. Qed.

#[export] Instance semaphore_preserved initial max : Monitor.Preserved (semaphore_inv initial max).
Proof.
  split.
  - intros n m this A out H _. exact H.
  - intros n t op this A out Hinv Hat _. cbn [Monitor.begin SemaphoreSlim.program].
    pose proof (begin_keeps op this) as [Hk1 Hk2]. pose proof Hinv as (Hm & _ & Hc & _ & _ & HA).
    pose proof (semaphore_begin max op this Hc) as Hb.
    destruct (SemaphoreSlim.begin op this) as [this' [r|op']]; cbn [fst snd] in *.
    + destruct Hb as [Hu Hres]. eapply semaphore_returned; [exact Hinv|done|congruence|lia| |done].
      rewrite Hu. lia.
    + destruct Hb as [-> Hp]. eapply semaphore_moved; [exact Hinv|by apply everywhere_set].
  - intros n t op this A out Hinv Hat. pose proof Hinv as (Hm & Hmax & Hc & _ & _ & HA).
    pose proof (everywhere_at _ A t _ HA Hat) as Hp.
    destruct op as [|ms|k| |]; cbn [Monitor.body SemaphoreSlim.program SemaphoreSlim.body]; [..|done|done].
    + eapply semaphore_moved; [exact Hinv|by apply everywhere_set].
    + eapply semaphore_moved; [exact Hinv|by apply everywhere_set].
    + cbn in Hp. unfold SemaphoreSlim.release, ssub. rewrite schk_Ok by (unfold in_s; cbn; lia).
      destruct (_ <? k) eqn:E; cbn [Monitor.after]; eapply semaphore_returned; try exact Hinv;
        try (by apply everywhere_set); cbn [SemaphoreSlim.set_count SemaphoreSlim.count_
          SemaphoreSlim.maxCount_ unit_change semaphore_result]; try done; try lia.
      all: unfold i32; rewrite ?wraps_id by (unfold in_s; cbn; lia); lia.
  - intros n t op k this A out Hinv Hat Hpred. pose proof Hinv as (Hm & Hmax & Hc & _ & _ & HA).
    pose proof (everywhere_at _ A t _ HA Hat) as Hp. cbn in Hpred. bool_to_prop.
    cbn [Monitor.resume SemaphoreSlim.program SemaphoreSlim.taken Monitor.after].
    destruct op; try done; (eapply semaphore_returned; [exact Hinv|by apply everywhere_set|..];
      cbn [SemaphoreSlim.set_count SemaphoreSlim.count_ SemaphoreSlim.maxCount_ unit_change];
      unfold i32; rewrite ?wraps_id by (unfold in_s; cbn; lia); try done; lia).
  - intros n t op k this A out Hinv Hat _ Htimed. pose proof Hinv as (Hm & Hmax & Hc & _ & _ & HA).
    pose proof (everywhere_at _ A t _ HA Hat) as Hp.
    cbn [Monitor.expire SemaphoreSlim.program Monitor.after].
    destruct op as [|ms| | |]; [by destruct k| |done..].
    eapply semaphore_returned; [exact Hinv|by apply everywhere_set|done..|cbn; lia|done].
  - intros n t op this A out (_ & _ & _ & _ & _ & HA) Hat. by pose proof (everywhere_at _ A t _ HA Hat).
Qed.

#[export] Instance semaphore_announces :
  @Monitor.Announces SemaphoreSlim.SemaphoreSlim SemaphoreSlim.Op (option Z) reply SemaphoreSlim.program (fun _ _ => True).
Proof.
  assert (Hq : forall s s' : SemaphoreSlim.SemaphoreSlim,
    SemaphoreSlim.count_ s' = SemaphoreSlim.count_ s -> Monitor.quiet s s').
  { intros s s' E k. cbn. by rewrite E. }
  split.
  - intros t op s. apply Hq. cbn. apply (proj2 (begin_keeps op s)).
  - intros t [|ms|n| |] s _; cbn; try (split; [by apply Hq|done]); auto. unfold SemaphoreSlim.release.
    destruct (ssub _ _ _) as [room| |]; [|by right; apply Hq..].
    destruct (room <? n); [by right; apply Hq|by left].
  - intros t op k s _ Hk. cbn in *. right. intros k' _. exact Hk.
  - intros t op k s _ Hk. right. by apply Hq.
  - intros t op s. right. by apply Hq.
Qed.

Lemma semaphore_start initial max s : in_s 32 max -> SemaphoreSlim.construct initial max = Ok s ->
  semaphore_inv initial max 0%nat s ∅ [].
Proof.
  unfold SemaphoreSlim.construct, throw_if, in_s. intros [_ Hm].
  destruct (max <? 1) eqn:E1; [done|]. destruct ((initial <? 0) || (initial >? max)) eqn:E2; [done|].
  intros [= <-]. bool_to_prop. unfold semaphore_inv.
  cbn [SemaphoreSlim.maxCount_ SemaphoreSlim.count_ total foldr]. repeat (split; [done || lia|]).
  by apply everywhere_empty.
Qed.

(** C34: In every interleaving of any number of threads, timeouts and spurious
    wake-ups included, the count stays between zero and the maximum and equals
    the initial count plus the units released minus the entries; every call
    returns a documented value or exception, Release the previous count and
    never past the maximum, and none overflows; and no thread sleeps while the
    count is positive. *)
Theorem SemaphoreSlim_safe initial max s tr c (Hmax : in_s 32 max)
  (Hs : SemaphoreSlim.construct initial max = Ok s) (Hx : Monitor.exec (Monitor.fresh s) tr c) :
  0 <= SemaphoreSlim.count_ (Monitor.shared c) <= max /\
  SemaphoreSlim.count_ (Monitor.shared c) = initial + total unit_change (Monitor.returned tr) /\
  Forall (semaphore_result max) (Monitor.returned tr) /\
  (forall t op k, Monitor.pc_of c t = Monitor.Asleep op k ->
     SemaphoreSlim.count_ (Monitor.shared c) = 0).
Proof.
  pose proof (semaphore_start initial max s Hmax Hs) as H0.
  destruct (Monitor.exec_holds (semaphore_inv initial max) (Monitor.fresh s) tr c)
    as (_ & _ & Hc & Hsum & Hout & _); [by apply Monitor.fresh_idle|exact H0|exact Hx|].
  split; [exact Hc|]. split; [exact Hsum|]. split; [exact Hout|]. intros t op k Ht.
  pose proof (Monitor.exec_no_lost_wakeup _ tr c (Monitor.fresh_idle s) (fun _ _ _ _ _ _ _ => I) Hx) as Hw.
  destruct (Z.eq_dec (SemaphoreSlim.count_ (Monitor.shared c)) 0) as [|Hne]; [done|].
  destruct (Hw t op k Ht) as (u & op' & _ & Hn); [|done]. cbn. lia.
Qed.

(** ** An execution

    Two units at most, one at first: thread 2 sleeps until thread 3 releases,
    and a timed wait of thread 4 expires. *)

Definition semaphore_schedule : list (Monitor.choice SemaphoreSlim.Op) :=
  [Monitor.Call 1 SemaphoreSlim.Wait; Monitor.Go 1;
   Monitor.Call 2 SemaphoreSlim.Wait; Monitor.Go 2; Monitor.Spurious 2; Monitor.Go 2;
   Monitor.Call 4 (SemaphoreSlim.WaitFor 10); Monitor.Go 4; Monitor.Timeout 4; Monitor.Go 4;
   Monitor.Call 3 (SemaphoreSlim.Release 1); Monitor.Go 3; Monitor.Go 2].

Lemma SemaphoreSlim_safe_witness :
  exists tr c, Monitor.exec (Monitor.fresh (SemaphoreSlim.mk 1 2 false)) tr c /\
    Monitor.returned tr = [(1%nat, SemaphoreSlim.Wait, Ok Unit);
      (4%nat, SemaphoreSlim.WaitFor 10, Ok (Bool false));
      (3%nat, SemaphoreSlim.Release 1, Ok (Int 0)); (2%nat, SemaphoreSlim.Wait, Ok Unit)] /\
    SemaphoreSlim.count_ (Monitor.shared c) = 0.
Proof.
  destruct (Monitor.run semaphore_schedule (Monitor.fresh (SemaphoreSlim.mk 1 2 false)))
    as [[tr c]|] eqn:E; [|vm_compute in E; discriminate E].
  pose proof (Monitor.run_exec _ _ _ _ E) as Hx. exists tr, c. split; [exact Hx|].
  assert (Hr : Monitor.returned tr = [(1%nat, SemaphoreSlim.Wait, Ok Unit);
      (4%nat, SemaphoreSlim.WaitFor 10, Ok (Bool false));
      (3%nat, SemaphoreSlim.Release 1, Ok (Int 0)); (2%nat, SemaphoreSlim.Wait, Ok Unit)])
    by (vm_compute in E; injection E as <- _; reflexivity).
  split; [exact Hr|].
  destruct (SemaphoreSlim_safe 1 2 (SemaphoreSlim.mk 1 2 false) tr c) as (_ & -> & _);
    [unfold in_s; cbn; lia|reflexivity|exact Hx|]. by rewrite Hr.
Defined.
