(* ===== verification/CountdownEvent.v ===== *)
(** * System::Threading::CountdownEvent

    [threading/include/System/Threading/CountdownEvent.hpp] as a [Monitor]
    program: the counts stay in range in every interleaving, the members
    answer as documented, a Wait succeeds only while the count is zero, and
    under a fair scheduler every waiter of an event that stays set returns.
    Reset() reads initialCount_ without the lock; the read is one step here. *)

From S2P Require Export Threading.

Module CountdownEvent.

Record CountdownEvent := mk { initialCount_ : Z; currentCount_ : Z; disposed_ : bool }.

Inductive Op :=
  | Signal (signalCount : Z)
  | AddCount (signalCount : Z)
  | Reset
  | ResetTo (count : Z)
  | Wait
  | WaitFor (millisecondsTimeout : Z)
  | Dispose
  | CurrentCount
  | InitialCount
  | IsSet.

(** CountdownEvent(initialCount) *)
Definition construct (initialCount : Z) : res CountdownEvent :=
  _ <- ThrowIfNegative initialCount "initialCount" ;; Ok (mk initialCount initialCount false).

Definition ThrowIfDisposed (this : CountdownEvent) : res unit :=
  throw_if (disposed_ this) (ObjectDisposedException "CountdownEvent").

Definition set_current (this : CountdownEvent) (n : Z) : CountdownEvent :=
  mk (initialCount_ this) n (disposed_ this).

Definition intcs_max : Z := 2147483647.

(** Up to the lock. Reset() forwards to Reset(initialCount_). *)
Definition begin (op : Op) (this : CountdownEvent) : CountdownEvent * Monitor.entry Op reply :=
  match op with
  | Signal n | AddCount n =>
      (this, checked (_ <- ThrowIfNegativeOrZero n "signalCount" ;; ThrowIfDisposed this) op)
  | Reset => (this, checked (_ <- ThrowIfDisposed this ;; ThrowIfNegative (initialCount_ this) "count")
                            (ResetTo (initialCount_ this)))
  | ResetTo n => (this, checked (_ <- ThrowIfDisposed this ;; ThrowIfNegative n "count") op)
  | Wait => (this, checked (ThrowIfDisposed this) op)
  | WaitFor ms => (this, checked (_ <- ValidateTimeout ms ;; ThrowIfDisposed this) op)
  | Dispose => (mk (initialCount_ this) (currentCount_ this) true, Monitor.Return (Ok Unit))
  | CurrentCount | IsSet => (this, Monitor.Proceed op)
  | InitialCount => (this, Monitor.Return (Ok (Int (initialCount_ this))))
  end.

(** The critical section of Signal *)
Definition signal (n : Z) (this : CountdownEvent) : Monitor.finish CountdownEvent reply :=
  if (currentCount_ this =? 0) || (currentCount_ this <? n) then
    Monitor.Finish this (Throw (InvalidOperationException
      "Invalid attempt made to decrement the event's count below zero.")) false
  else match ssub 32 (currentCount_ this) n with
       | Ok c => let set := c =? 0 in
                 Monitor.Finish (set_current this c) (Ok (Bool set)) set
       | _ => Monitor.Finish this UB false
       end.

(** The critical section of AddCount *)
Definition add_count (n : Z) (this : CountdownEvent) : Monitor.finish CountdownEvent reply :=
  if currentCount_ this =? 0 then
    Monitor.Finish this (Throw (InvalidOperationException
      "The event is already signaled and cannot be incremented.")) false
  else match ssub 32 intcs_max n with
       | Ok room =>
           if currentCount_ this >? room then
             Monitor.Finish this (Throw (InvalidOperationException
               "The increment operation would cause the CurrentCount to overflow.")) false
           else match sadd 32 (currentCount_ this) n with
                | Ok c => Monitor.Finish (set_current this c) (Ok Unit) false
                | _ => Monitor.Finish this UB false
                end
       | _ => Monitor.Finish this UB false
       end.

Definition body (op : Op) (this : CountdownEvent)
    : Monitor.section CountdownEvent (option Z) reply :=
  match op with
  | Signal n => Monitor.Leave (signal n this)
  | AddCount n => Monitor.Leave (add_count n this)
  | ResetTo n => Monitor.Leave (Monitor.Later (mk n n (disposed_ this)) false)
  | Wait => Monitor.Wait this None
  | WaitFor ms => Monitor.Wait this (timeout_of ms)
  | CurrentCount => Monitor.Leave (Monitor.Finish this (Ok (Int (currentCount_ this))) false)
  | IsSet => Monitor.Leave (Monitor.Finish this (Ok (Bool (currentCount_ this =? 0))) false)
  | Reset | Dispose | InitialCount => Monitor.Leave (Monitor.Finish this (Ok Unit) false)  (* never lock *)
  end.

(** The result of a wait. *)
Definition waited (op : Op) (set : bool) : res reply :=
  Ok (match op with WaitFor _ => Bool set | _ => Unit end).

(** Reset calls [notify_all] after it has unlocked. *)
#[global] Instance program : Monitor.Program CountdownEvent Op (option Z) reply := {
  Monitor.typed op := match op with
                      | Signal n | AddCount n | ResetTo n | WaitFor n => in_sb 32 n
                      | _ => true
                      end;
  Monitor.begin _ := begin;
  Monitor.body _ := body;
  Monitor.pred _ this := currentCount_ this =? 0;
  Monitor.timed := is_timed;
  Monitor.resume _ op _ this := Monitor.Finish this (waited op true) false;
  Monitor.expire _ op _ this := Monitor.Finish this (waited op false) false;
  Monitor.epilogue _ _ this := (this, Ok Unit);
  Monitor.notifies op := match op with ResetTo _ => true | _ => false end;
}.

End CountdownEvent.

(** ** The invariant *)

(** The results a member may have. *)
Definition countdown_result (x : nat * CountdownEvent.Op * res reply) : Prop :=
  let '(_, op, r) := x in
  match op, r with
  | CountdownEvent.Signal n, Ok (Bool _) | CountdownEvent.AddCount n, Ok Unit
  | (CountdownEvent.Signal n | CountdownEvent.AddCount n), Throw (InvalidOperationException _) => 1 <= n
  | (CountdownEvent.Signal n | CountdownEvent.AddCount n),
    Throw (ArgumentOutOfRangeActual "signalCount" _ _) => n <= 0
  | CountdownEvent.ResetTo n, Ok Unit => 0 <= n
  | CountdownEvent.ResetTo n, Throw (ArgumentOutOfRangeActual "count" _ _) => n < 0
  | CountdownEvent.WaitFor ms, Throw (ArgumentOutOfRangeActual "millisecondsTimeout" _ _) => ms < -1
  | (CountdownEvent.Wait | CountdownEvent.Dispose), Ok Unit
  | CountdownEvent.WaitFor _, Ok (Bool _) | CountdownEvent.IsSet, Ok (Bool _) => True
  | (CountdownEvent.CurrentCount | CountdownEvent.InitialCount), Ok (Int n) => 0 <= n < 2 ^ 31
  | (CountdownEvent.Signal _ | CountdownEvent.AddCount _ | CountdownEvent.Reset
     | CountdownEvent.ResetTo _ | CountdownEvent.Wait | CountdownEvent.WaitFor _),
    Throw (ObjectDisposedException "CountdownEvent") => True
  | _, _ => False
  end.

(** What a thread inside has passed: the checks of its call. *)
Definition countdown_passed (p : Monitor.place CountdownEvent.Op (option Z)) : Prop :=
  match p with
  | Monitor.Before (CountdownEvent.Signal n | CountdownEvent.AddCount n) => 1 <= n < 2 ^ 31
  | Monitor.Before (CountdownEvent.ResetTo n) | Monitor.After (CountdownEvent.ResetTo n) => 0 <= n < 2 ^ 31
  | Monitor.Before (CountdownEvent.Reset | CountdownEvent.Dispose | CountdownEvent.InitialCount) => False
  | Monitor.Outside | Monitor.Before _ => True
  | Monitor.Waiting CountdownEvent.Wait None | Monitor.Waiting (CountdownEvent.WaitFor _) _ => True
  | _ => False
  end.

Definition countdown_ok (this : CountdownEvent.CountdownEvent) : Prop :=
  0 <= CountdownEvent.currentCount_ this < 2 ^ 31 /\ 0 <= CountdownEvent.initialCount_ this < 2 ^ 31.

Definition countdown_inv : Monitor.invariant := fun _ this A out =>
  countdown_ok this /\ Forall countdown_result out /\ everywhere countdown_passed A.

Lemma countdown_returned n m this this' A A' out t op r : countdown_inv n this A out ->
  countdown_ok this' -> everywhere countdown_passed A' -> countdown_result (t, op, r) ->
  countdown_inv m this' A' (out ++ [(t, op, r)]).
Proof.
  intros (_ & Ho & _) Hok HA Hr. split; [done|]. split; [|done].
  apply Forall_app. split; [done|]. by constructor.
Qed.

Lemma countdown_begin op this : countdown_ok this -> Monitor.typed op = true ->
  match CountdownEvent.begin op this with
  | (this', Monitor.Return r) => countdown_ok this' /\ forall t, countdown_result (t, op, r)
  | (this', Monitor.Proceed op') => this' = this /\ countdown_passed (Monitor.Before op')
  end.
Proof.
  intros Hok Ht. destruct (id Hok) as [Hc Hi].
  destruct op as [n|n| |n| |n| | | |]; cbn [CountdownEvent.begin Monitor.typed CountdownEvent.program] in *;
    try (apply in_sb_spec in Ht; unfold in_s in Ht; cbn in Ht);
    unfold CountdownEvent.ThrowIfDisposed, ValidateTimeout, ThrowIfLessThan, ThrowIfNegative,
      ThrowIfNegativeOrZero, throw_if; destruct (CountdownEvent.disposed_ this); try done;
    repeat match goal with |- context [if (?a <? ?b) then _ else _] => destruct (Z.ltb_spec a b)
           | |- context [if (?a <=? ?b) then _ else _] => destruct (Z.leb_spec a b) end;
    cbn; repeat split; intros; try done; try lia.
Qed.

(** The end of a critical section. *)
Definition countdown_finish (op : CountdownEvent.Op)
    (f : Monitor.finish CountdownEvent.CountdownEvent reply) : Prop :=
  match f with
  | Monitor.Finish this r _ => countdown_ok this /\ forall t, countdown_result (t, op, r)
  | Monitor.Later this _ => countdown_ok this /\ countdown_passed (Monitor.After op)
  end.

Lemma countdown_after n m t op f this A out : countdown_inv n this A out ->
  countdown_finish op f -> Monitor.after countdown_inv m t op f A out.
Proof.
  intros Hinv. pose proof Hinv as (_ & Ho & HA).
  destruct f as [this' r b|this' b]; cbn [countdown_finish Monitor.after]; intros [Hok Hr].
  - eapply countdown_returned; [exact Hinv|done|by apply everywhere_set|done].
  - split; [done|]. split; [done|]. by apply everywhere_set.
Qed.

Lemma signal_finish n this : countdown_ok this -> 1 <= n < 2 ^ 31 ->
  countdown_finish (CountdownEvent.Signal n) (CountdownEvent.signal n this).
Proof.
  intros Hok Hn. destruct (id Hok) as [Hc Hi]. unfold CountdownEvent.signal.
  destruct (_ || _) eqn:E; [split; [done|]; intros t; cbn; lia|]. bool_to_prop.
  unfold ssub. rewrite schk_Ok by (unfold in_s; cbn in *; lia).
  split; [|intros t; cbn; lia]. split; cbn [CountdownEvent.set_current
    CountdownEvent.currentCount_ CountdownEvent.initialCount_]; lia.
Qed.

Lemma add_count_finish n this : countdown_ok this -> 1 <= n < 2 ^ 31 ->
  countdown_finish (CountdownEvent.AddCount n) (CountdownEvent.add_count n this).
Proof.
  intros Hok Hn. destruct (id Hok) as [Hc Hi]. unfold CountdownEvent.add_count, CountdownEvent.intcs_max.
  destruct (_ =? 0) eqn:E; [split; [done|]; intros t; cbn; lia|].
  unfold ssub. rewrite schk_Ok by (unfold in_s; cbn in *; lia).
  destruct (_ >? _) eqn:E2; [split; [done|]; intros t; cbn; lia|].
  unfold sadd. rewrite schk_Ok by (unfold in_s; cbn in *; lia).
  split; [|intros t; cbn; lia]. split; cbn [CountdownEvent.set_current
    CountdownEvent.currentCount_ CountdownEvent.initialCount_] in *; cbn in *; lia.
Qed.

#[export] Instance countdown_preserved : Monitor.Preserved countdown_inv.
Proof.
  split.
  - intros n m this A out H _. exact H.
  - intros n t op this A out Hinv Hat Ht. pose proof Hinv as (Hok & Ho & HA).
    pose proof (countdown_begin op this Hok Ht) as Hb. cbn [Monitor.begin CountdownEvent.program].
    destruct (CountdownEvent.begin op this) as [this' [r|op']].
    + destruct Hb as [Hok' Hr]. by eapply countdown_returned.
    + destruct Hb as [-> Hp]. split; [done|]. split; [done|]. by apply everywhere_set.
  - intros n t op this A out Hinv Hat. pose proof Hinv as (Hok & Ho & HA).
    pose proof (everywhere_at _ A t _ HA Hat) as Hp.
    destruct op as [k|k| |k| |ms| | | |]; cbn [Monitor.body CountdownEvent.program CountdownEvent.body];
      try done; try (eapply countdown_after; [exact Hinv|]).
    + by apply signal_finish.
    + by apply add_count_finish.
    + split; [by split|done].
    + split; [done|]. split; [done|]. by apply everywhere_set.
    + split; [done|]. split; [done|]. by apply everywhere_set.
    + destruct Hok. by split.
    + by split.
  - intros n t op k this A out Hinv Hat Hk. pose proof Hinv as (Hok & Ho & HA).
    pose proof (everywhere_at _ A t _ HA Hat) as Hp.
    eapply countdown_after; [exact Hinv|]. split; [done|]. by destruct op, k.
  - intros n t op k this A out Hinv Hat Hk Htimed. pose proof Hinv as (Hok & Ho & HA).
    pose proof (everywhere_at _ A t _ HA Hat) as Hp.
    eapply countdown_after; [exact Hinv|]. split; [done|]. by destruct op, k.
  - intros n t op this A out Hinv Hat. pose proof Hinv as (Hok & Ho & HA).
    pose proof (everywhere_at _ A t _ HA Hat) as Hp.
    eapply countdown_returned; [exact Hinv|done|by apply everywhere_set|].
    destruct op; try done. cbn in *. lia.
Qed.

Definition countdown_admits (op : CountdownEvent.Op) (this : CountdownEvent.CountdownEvent) : Prop :=
  countdown_ok this /\ countdown_passed (Monitor.Before op).

#[export] Instance countdown_announces :
  @Monitor.Announces _ _ _ _ CountdownEvent.program countdown_admits.
Proof.
  assert (Hq : forall s s' : CountdownEvent.CountdownEvent,
    (CountdownEvent.currentCount_ s' = 0 -> CountdownEvent.currentCount_ s = 0) -> Monitor.quiet s s').
  { intros s s' E k. cbn. rewrite !Z.eqb_eq. exact E. }
  split.
  - intros t op s. apply Hq. by destruct op.
  - intros t [n|n| |n| |ms| | | |] s [[Hc Hci] Hp]; cbn; try (right; by apply Hq); try (split; [by apply Hq|done]); auto.
    + unfold CountdownEvent.signal. destruct (_ || _) eqn:E; [by right; apply Hq|].
      destruct (ssub _ _ _) as [c| |]; [|by right; apply Hq..].
      destruct (c =? 0) eqn:Ec; [by left|]. right. apply Hq. cbn. lia.
    + unfold CountdownEvent.add_count. destruct (_ =? 0) eqn:E; [by right; apply Hq|].
      destruct (ssub _ _ _) as [room| |]; [|by right; apply Hq..].
      destruct (_ >? room); [by right; apply Hq|].
      destruct (sadd _ _ _) as [c| |] eqn:Ea; [|by right; apply Hq..].
      right. apply Hq. apply schk_Ok_inv in Ea as [-> _]. cbn in Hp |- *. lia.
  - intros t op k s _ Hk. right. by apply Hq.
  - intros t op k s _ Hk. right. by apply Hq.
  - intros t op s. right. by apply Hq.
Qed.

(** ** Every execution *)

Lemma countdown_start initial s : in_s 32 initial -> CountdownEvent.construct initial = Ok s ->
  countdown_inv 0%nat s ∅ [].
Proof.
  unfold CountdownEvent.construct, ThrowIfNegative, throw_if, in_s. intros [_ Hi].
  destruct (Z.ltb_spec initial 0); [done|]. intros [= <-].
  split; [split; cbn in *; lia|]. split; [constructor|]. by apply everywhere_empty.
Qed.

Section Reachable.
Context (initial : Z) (s : CountdownEvent.CountdownEvent).
Context (Hi : in_s 32 initial) (Hs : CountdownEvent.construct initial = Ok s).

Lemma countdown_reached tr c : Monitor.exec (Monitor.fresh s) tr c ->
  exists n, countdown_inv n (Monitor.shared c) (Monitor.places c) (Monitor.returned tr).
Proof.
  intros Hx. eexists. apply (Monitor.exec_holds countdown_inv (Monitor.fresh s) tr c); [|by eapply countdown_start|done].
  apply Monitor.fresh_idle.
Qed.

Lemma countdown_attended tr c : Monitor.exec (Monitor.fresh s) tr c -> Monitor.no_lost_wakeup c.
Proof.
  apply (Monitor.exec_no_lost_wakeup _ tr c (Monitor.fresh_idle s)).
  intros tr' c' Hx _ t op Ht. destruct (countdown_reached tr' c' Hx) as (n & Hok & _ & HA).
  split; [done|]. destruct Ht as [Ht|(k & [Ht|Ht])];
    pose proof (everywhere_at _ _ t _ HA (Monitor.place_known c' t _ Ht)) as Hp; [done|..];
    by destruct op.
Qed.

End Reachable.

(** What a result says of the count at the moment the call returns. *)
Definition countdown_truth (op : CountdownEvent.Op) (r : res reply)
    (this : CountdownEvent.CountdownEvent) : Prop :=
  match op, r with
  | CountdownEvent.Wait, Ok Unit => CountdownEvent.currentCount_ this = 0
  | (CountdownEvent.WaitFor _ | CountdownEvent.Signal _ | CountdownEvent.IsSet), Ok (Bool b) =>
      b = (CountdownEvent.currentCount_ this =? 0)
  | CountdownEvent.CurrentCount, Ok (Int n) => n = CountdownEvent.currentCount_ this
  | _, _ => True
  end.

#[export] Instance countdown_truthful : Monitor.Truthful (fun _ _ => countdown_passed) (fun _ => countdown_truth).
Proof.
  split.
  - intros t op s s' r. destruct op as [n|n| |n| |ms| | | |]; cbn [Monitor.begin CountdownEvent.program
      CountdownEvent.begin]; intros [= <- Hr];
      try (apply checked_Return in Hr as [[e ->]| ->]; done); subst r; done.
  - intros t op s f _. destruct op as [n|n| |n| |ms| | | |]; cbn; intros [= <-]; try done.
    + unfold CountdownEvent.signal. destruct (_ || _); [done|]. by destruct (ssub _ _ _).
    + unfold CountdownEvent.add_count. repeat case_match; done.
  - intros t op s s' k _ _ E. destruct op; cbn in *; auto. lia.
  - intros t op k s _ E. destruct op; cbn in *; auto. lia.
  - intros t op k s Hp E Ht. destruct op, k; cbn in *; done.
  - intros t op s Hp. by destruct op.
Qed.

(** C36: In every interleaving, timeouts and spurious wake-ups included, both
    counts stay between zero and Int32.MaxValue, every member answers with a
    documented value or exception and none overflows, and the answers are
    true: Wait returns only while the count is zero, a timed Wait, IsSet and
    Signal say exactly whether it is zero when they return. *)
Theorem CountdownEvent_safe initial s tr c (Hi : in_s 32 initial)
  (Hs : CountdownEvent.construct initial = Ok s) (Hx : Monitor.exec (Monitor.fresh s) tr c) :
  0 <= CountdownEvent.currentCount_ (Monitor.shared c) < 2 ^ 31 /\
  0 <= CountdownEvent.initialCount_ (Monitor.shared c) < 2 ^ 31 /\
  Forall countdown_result (Monitor.returned tr) /\
  (forall t op r c', Monitor.step t c (Some (op, r)) c' -> countdown_truth op r (Monitor.shared c')).
Proof.
  destruct (countdown_reached initial s Hi Hs tr c Hx) as (n & [Hc Hini] & Ho & HA).
  split; [exact Hc|]. split; [exact Hini|]. split; [exact Ho|].
  intros t op r c'. apply (Monitor.step_told (Q:=fun _ _ => countdown_passed) (told:=fun _ => countdown_truth)); [exact HA|].
  by apply (Monitor.exec_only_timed (Monitor.fresh s) tr); [apply Monitor.fresh_idle|].
Qed.

(** C35: Under every fair schedule, a thread that waits at time [n] on an
    event that stays set from then on, whatever the other threads do and
    however often it is woken for nothing, returns from its Wait. *)
Theorem CountdownEvent_releases initial s x n t op k (Hi : in_s 32 initial)
  (Hs : CountdownEvent.construct initial = Ok s) (H0 : Monitor.at_time x 0 = Monitor.fresh s)
  (Hx : Monitor.follows x) (Hf : Monitor.fair x)
  (Hset : forall m, (n <= m)%nat -> CountdownEvent.currentCount_ (Monitor.shared (Monitor.at_time x m)) = 0)
  (Hw : Monitor.pc_of (Monitor.at_time x n) t = Monitor.Asleep op k \/
        Monitor.pc_of (Monitor.at_time x n) t = Monitor.Awake op k \/
        Monitor.pc_of (Monitor.at_time x n) t = Monitor.Expired op k) :
  Monitor.returns x n t op.
Proof.
  destruct (Monitor.follows_exec x n Hx) as [tr Htr]. rewrite H0 in Htr.
  apply (Monitor.waiter_returns x n t op k Hx Hf); [| |exact Hw].
  - by eapply countdown_attended.
  - intros m Hm. cbn. by rewrite Hset.
Qed.

(** ** Executions

    Thread 1 waits for two signals; a third thread resets the event to zero
    instead and thread 1 is woken by the notification after the unlock. *)

Definition countdown_schedule : list (Monitor.choice CountdownEvent.Op) :=
  [Monitor.Call 1 CountdownEvent.Wait; Monitor.Go 1;
   Monitor.Call 2 (CountdownEvent.Signal 1); Monitor.Go 2;
   Monitor.Call 3 (CountdownEvent.ResetTo 0); Monitor.Go 3; Monitor.Go 3; Monitor.Go 1].

Definition countdown_sample : CountdownEvent.CountdownEvent := CountdownEvent.mk 2 2 false.

Lemma CountdownEvent_safe_witness :
  exists tr c, Monitor.exec (Monitor.fresh countdown_sample) tr c /\
    Monitor.returned tr = [(2%nat, CountdownEvent.Signal 1, Ok (Bool false));
      (3%nat, CountdownEvent.ResetTo 0, Ok Unit); (1%nat, CountdownEvent.Wait, Ok Unit)] /\
    Forall countdown_result (Monitor.returned tr).
Proof.
  destruct (Monitor.run countdown_schedule (Monitor.fresh countdown_sample)) as [[tr c]|] eqn:E;
    [|vm_compute in E; discriminate E].
  pose proof (Monitor.run_exec _ _ _ _ E) as Hx. exists tr, c. split; [exact Hx|]. split.
  - vm_compute in E. injection E as <- _. reflexivity.
  - apply (CountdownEvent_safe 2 countdown_sample tr c); [unfold in_s; cbn; lia|reflexivity|exact Hx].
Defined.

Lemma CountdownEvent_releases_witness :
  Monitor.returns (Monitor.replay countdown_schedule (Monitor.fresh countdown_sample)) 6 1
    CountdownEvent.Wait.
Proof.
  apply (CountdownEvent_releases 2 countdown_sample _ 6 1 CountdownEvent.Wait None);
    [unfold in_s; cbn; lia|reflexivity|reflexivity|apply Monitor.replay_follows| | |].
  - apply Monitor.replay_fair. refine (bool_decide_unpack _ _). vm_compute. exact I.
  - intros [|[|[|[|[|[|[|[|m]]]]]]]] Hm; try lia; try reflexivity. destruct m; reflexivity.
  - left. reflexivity.
Defined.
