(* ===== verification/Barrier.v ===== *)
(** * System::Threading::Barrier

    [threading/include/System/Threading/Barrier.hpp] as a [Monitor] program.
    The post-phase action is a parameter: the calls it makes on the barrier, one after
    the other's answer, and what it throws. In every interleaving the threads
    waiting on the current phase are exactly the participants that have
    signalled, nobody sleeps on a finished phase, and each phase lets through
    as many calls as there are participants. *)

From S2P Require Export Threading.

Module Barrier.

Record Barrier := mk {
  participantCount_ : Z;
  remainingCount_ : Z;
  phaseCount_ : Z;
  lastPostPhaseException_ : option exn;
  actionCallerId_ : option nat;
  disposed_ : bool;
}.

Inductive Op :=
  | SignalAndWait
  | AddParticipant
  | RemoveParticipant
  | Dispose
  | ParticipantCount
  | CurrentPhaseNumber.

(** What a post-phase action does with its barrier: it ends, by an exception or not,
    or calls a member and goes on with what the call returned or threw. *)
Inductive script :=
  | Ends (thrown : option exn)
  | Calls (op : Op) (k : res reply -> script).

(** [postPhaseAction_], if there is one. *)
Class PostPhaseAction := { postPhaseAction_ : option script }.

(** Barrier(participantCount, postPhaseAction) *)
Definition construct (participantCount : Z) : res Barrier :=
  _ <- throw_if ((participantCount <? 0) || (participantCount >? 32767))
         (out_of_range "participantCount") ;;
  Ok (mk participantCount participantCount 0 None None false).

Definition set_counts (this : Barrier) (participants remaining : Z) : Barrier :=
  mk participants remaining (phaseCount_ this) (lastPostPhaseException_ this)
    (actionCallerId_ this) (disposed_ this).
Definition set_caller (this : Barrier) (t : option nat) : Barrier :=
  mk (participantCount_ this) (remainingCount_ this) (phaseCount_ this)
    (lastPostPhaseException_ this) t (disposed_ this).
Definition set_exception (this : Barrier) (e : option exn) : Barrier :=
  mk (participantCount_ this) (remainingCount_ this) (phaseCount_ this) e
    (actionCallerId_ this) (disposed_ this).
Definition set_phase (this : Barrier) (n : Z) : Barrier :=
  mk (participantCount_ this) (remainingCount_ this) n (lastPostPhaseException_ this)
    (actionCallerId_ this) (disposed_ this).
Definition set_disposed (this : Barrier) : Barrier :=
  mk (participantCount_ this) (remainingCount_ this) (phaseCount_ this)
    (lastPostPhaseException_ this) (actionCallerId_ this) true.

Definition called_from_action : exn :=
  InvalidOperationException "This method may not be called from within the postPhaseAction.".

Definition ThrowIfCalledFromPostPhaseAction (t : nat) (this : Barrier) : res unit :=
  throw_if (bool_decide (actionCallerId_ this = Some t)) called_from_action.

Definition ThrowIfDisposed (this : Barrier) : res unit :=
  throw_if (disposed_ this) (ObjectDisposedException "Barrier").

(** Up to the lock; the properties are atomic reads. *)
Definition begin (t : nat) (op : Op) (this : Barrier) : Barrier * Monitor.entry Op reply :=
  match op with
  | SignalAndWait | AddParticipant | RemoveParticipant =>
      (this, checked (_ <- ThrowIfDisposed this ;; ThrowIfCalledFromPostPhaseAction t this) op)
  | Dispose =>
      match ThrowIfCalledFromPostPhaseAction t this with
      | Ok _ => (set_disposed this, Monitor.Return (Ok Unit))
      | Throw e => (this, Monitor.Return (Throw e))
      | UB => (this, Monitor.Return UB)
      end
  | ParticipantCount => (this, Monitor.Return (Ok (Int (participantCount_ this))))
  | CurrentPhaseNumber => (this, Monitor.Return (Ok (Int (phaseCount_ this))))
  end.

(** [postPhaseAction_( *this)] on thread [t], which holds the mutex: a call that goes on
    to the mutex locks it twice, which is undefined. *)
Fixpoint play (t : nat) (action : script) (this : Barrier) : Barrier * res (option exn) :=
  match action with
  | Ends thrown => (this, Ok thrown)
  | Calls op k =>
      match begin t op this with
      | (this, Monitor.Return UB) | (this, Monitor.Proceed _) => (this, UB)
      | (this, Monitor.Return r) => play t (k r) this
      end
  end.

(** [if (lastPostPhaseException_) throw BarrierPostPhaseException(...)] *)
Definition rethrow (this : Barrier) (r : reply) : res reply :=
  match lastPostPhaseException_ this with
  | Some e => Throw (BarrierPostPhaseException e)
  | None => Ok r
  end.

(** The branch of FinishPhase on [postPhaseAction_]. *)
Definition run_action `{PostPhaseAction} (t : nat) (this : Barrier) : Barrier * res unit :=
  match postPhaseAction_ with
  | Some action =>
      match play t action (set_caller this (Some t)) with
      | (this, Ok thrown) => (set_caller (set_exception this thrown) None, Ok tt)
      | (this, _) => (this, UB)
      end
  | None => (set_exception this None, Ok tt)
  end.

(** FinishPhase, under the lock; the phase number is an atomic longcs. *)
Definition FinishPhase `{PostPhaseAction} (t : nat) (this : Barrier) : Monitor.finish Barrier reply :=
  let this := set_counts this (participantCount_ this) (participantCount_ this) in
  match run_action t this with
  | (this, Ok _) =>
      let this := set_phase this (i64 (phaseCount_ this + 1)) in
      Monitor.Finish this (rethrow this Unit) true
  | (this, _) => Monitor.Finish this UB false
  end.

(** The critical section of SignalAndWait *)
Definition signal `{PostPhaseAction} (t : nat) (this : Barrier) : Monitor.section Barrier Z reply :=
  if participantCount_ this =? 0 then
    Monitor.Leave (Monitor.Finish this (Throw (InvalidOperationException
      "The barrier has no registered participants.")) false)
  else match ssub 32 (remainingCount_ this) 1 with
       | Ok remaining =>
           let this := set_counts this (participantCount_ this) remaining in
           if remaining =? 0 then Monitor.Leave (FinishPhase t this)
           else Monitor.Wait this (phaseCount_ this)
       | _ => Monitor.Leave (Monitor.Finish this UB false)
       end.

(** The critical section of AddParticipant *)
Definition add_participant (this : Barrier) : Monitor.finish Barrier reply :=
  if participantCount_ this >=? 32767 then
    Monitor.Finish this (Throw (InvalidOperationException
      "Adding the specified number of participants would cause the Barrier's participants count to exceed the maximum allowed.")) false
  else match sadd 32 (remainingCount_ this) 1 with
       | Ok remaining =>
           let this := set_counts this (i32 (participantCount_ this + 1)) remaining in
           Monitor.Finish this (Ok (Int (participantCount_ this))) false
       | _ => Monitor.Finish this UB false
       end.

(** The critical section of RemoveParticipant *)
Definition remove_participant `{PostPhaseAction} (t : nat) (this : Barrier) : Monitor.finish Barrier reply :=
  if participantCount_ this =? 0 then
    Monitor.Finish this (Throw (out_of_range "participantCount")) false
  else if remainingCount_ this =? 0 then
    Monitor.Finish this (Throw (InvalidOperationException
      "The number of participants to remove would result in a negative number of remaining participants for this phase.")) false
  else match ssub 32 (remainingCount_ this) 1 with
       | Ok remaining =>
           let this := set_counts this (i32 (participantCount_ this - 1)) remaining in
           if remaining =? 0 then FinishPhase t this
           else Monitor.Finish this (Ok Unit) false
       | _ => Monitor.Finish this UB false
       end.

Definition body `{PostPhaseAction} (t : nat) (op : Op) (this : Barrier) : Monitor.section Barrier Z reply :=
  match op with
  | SignalAndWait => signal t this
  | AddParticipant => Monitor.Leave (add_participant this)
  | RemoveParticipant => Monitor.Leave (remove_participant t this)
  | Dispose | ParticipantCount | CurrentPhaseNumber =>
      Monitor.Leave (Monitor.Finish this (Ok Unit) false)  (* never lock *)
  end.

(** The locals of the wait are [myPhase]. *)
#[global] Instance program `{PostPhaseAction} : Monitor.Program Barrier Op Z reply := {
  Monitor.typed _ := true;
  Monitor.begin := begin;
  Monitor.body := body;
  Monitor.pred myPhase this := phaseCount_ this >? myPhase;
  Monitor.timed _ := false;
  Monitor.resume _ _ _ this := Monitor.Finish this (rethrow this Unit) false;
  Monitor.expire _ _ _ this := Monitor.Finish this (rethrow this Unit) false;
  Monitor.epilogue _ _ this := (this, Ok Unit);
  Monitor.notifies _ := false;
}.

End Barrier.

(** ** The invariant *)

(** The results a member may have. *)
Definition barrier_result (x : nat * Barrier.Op * res reply) : Prop :=
  let '(_, op, r) := x in
  match op, r with
  | (Barrier.SignalAndWait | Barrier.RemoveParticipant | Barrier.Dispose), Ok Unit
  | (Barrier.SignalAndWait | Barrier.RemoveParticipant), Throw (BarrierPostPhaseException _)
  | Barrier.RemoveParticipant, Throw (ArgumentOutOfRangeException "participantCount" _)
  | (Barrier.SignalAndWait | Barrier.AddParticipant), Throw (InvalidOperationException _)
  | (Barrier.SignalAndWait | Barrier.AddParticipant | Barrier.RemoveParticipant),
    Throw (ObjectDisposedException "Barrier") => True
  | Barrier.AddParticipant, Ok (Int n) => 1 <= n <= 32767
  | Barrier.ParticipantCount, Ok (Int n) => 0 <= n <= 32767
  | Barrier.CurrentPhaseNumber, Ok (Int n) => 0 <= n
  | _, _ => False
  end.

(** A call that came through the barrier at the end of a phase. *)
Definition came_through (x : nat * Barrier.Op * res reply) : Z :=
  match x with
  | (_, Barrier.SignalAndWait, (Ok _ | Throw (BarrierPostPhaseException _))) => 1
  | _ => 0
  end.

(** A call that did not change the number of participants. *)
Definition steady (x : nat * Barrier.Op * res reply) : Prop :=
  match x with
  | (_, (Barrier.AddParticipant | Barrier.RemoveParticipant),
     (Ok _ | Throw (BarrierPostPhaseException _))) => False
  | _ => True
  end.

(** Threads in the wait, by the phase they wait for. *)
Definition waits (f : Z -> bool) (p : Monitor.place Barrier.Op Z) : bool :=
  match p with Monitor.Waiting _ k => f k | _ => false end.

Definition barrier_passed (phase : Z) (p : Monitor.place Barrier.Op Z) : Prop :=
  match p with
  | Monitor.Outside => True
  | Monitor.Before op => match op with
      | Barrier.SignalAndWait | Barrier.AddParticipant | Barrier.RemoveParticipant => True
      | _ => False
      end
  | Monitor.Waiting op k => op = Barrier.SignalAndWait /\ 0 <= k <= phase
  | Monitor.After _ => False
  end.

Definition barrier_counts (this : Barrier.Barrier) : Prop :=
  0 <= Barrier.remainingCount_ this <= Barrier.participantCount_ this /\
  Barrier.participantCount_ this <= 32767 /\
  (Barrier.remainingCount_ this = 0 -> Barrier.participantCount_ this = 0).

(** Who waits, and who came through, of [p0] participants. *)
Record barrier_facts (p0 : Z) (n : nat) (this : Barrier.Barrier)
    (A : gmap nat (Monitor.place Barrier.Op Z)) (out : list (nat * Barrier.Op * res reply)) : Prop := {
  facts_counts : barrier_counts this;
  facts_phase : 0 <= Barrier.phaseCount_ this <= Z.of_nat n;
  facts_caller : Barrier.actionCallerId_ this = None;
  facts_waiting : count (waits (Z.eqb (Barrier.phaseCount_ this))) A =
    Barrier.participantCount_ this - Barrier.remainingCount_ this;
  facts_places : everywhere (barrier_passed (Barrier.phaseCount_ this)) A;
  facts_results : Forall barrier_result out;
  facts_through : Forall steady out -> Barrier.participantCount_ this = p0 /\
    total came_through out + count (waits (fun k => k <? Barrier.phaseCount_ this)) A =
    p0 * Barrier.phaseCount_ this;
}.

(** The phase number does not wrap in fewer than 2^63 moves. *)
Definition barrier_inv (p0 : Z) : Monitor.invariant := fun n this A out =>
  Z.of_nat n < 2 ^ 63 -> barrier_facts p0 n this A out.

Lemma waits_outside f : waits f Monitor.Outside = false.
Proof. done. Qed.

Lemma waits_set f A t q : count (waits f) (<[t:=q]> A) =
  count (waits f) A - b2z (waits f (Monitor.at_place A t)) + b2z (waits f q).
Proof. apply count_set, waits_outside. Qed.

(** Everyone waiting is waiting on this phase or on a finished one. *)
Lemma waits_split ph A : everywhere (barrier_passed ph) A ->
  count (waits (Z.eqb ph)) A + count (waits (fun k => k <? ph)) A = count (waits (fun k => k <=? ph)) A.
Proof.
  intros _. apply count_or. intros [|op|op k|op]; cbn; try done.
  destruct (Z.eqb_spec ph k), (Z.ltb_spec k ph), (Z.leb_spec k ph); cbn; lia.
Qed.

(** No thread waits on a phase that has not begun. *)
Lemma waits_next ph A : everywhere (barrier_passed ph) A -> count (waits (Z.eqb (ph + 1))) A = 0.
Proof.
  intros HA. apply count_nowhere. intros t. specialize (HA t).
  destruct (Monitor.at_place A t) as [|op|op k|op]; cbn in *; try done.
  apply Z.eqb_neq. lia.
Qed.

(** When a phase ends, all those who waited on it wait on a finished phase. *)
Lemma waits_finished ph A : everywhere (barrier_passed ph) A ->
  count (waits (fun k => k <? ph + 1)) A =
  count (waits (Z.eqb ph)) A + count (waits (fun k => k <? ph)) A.
Proof.
  intros HA. rewrite waits_split by done. apply count_ext. intros t [|op|op k|op] _; cbn; try done.
  destruct (Z.ltb_spec k (ph + 1)), (Z.leb_spec k ph); lia.
Qed.

Lemma passed_later ph ph' A : ph <= ph' -> everywhere (barrier_passed ph) A ->
  everywhere (barrier_passed ph') A.
Proof.
  intros Hph HA t. specialize (HA t). destruct (Monitor.at_place A t) as [|op|op k|op]; cbn in *; try done.
  destruct HA as [-> Hk]. split; [done|lia].
Qed.

(** A call that returns without a change of counts, phase or waiters. *)
Lemma facts_same p0 n m this this' A A' out x : barrier_facts p0 n this A out -> (n <= m)%nat ->
  Barrier.participantCount_ this' = Barrier.participantCount_ this ->
  Barrier.remainingCount_ this' = Barrier.remainingCount_ this ->
  Barrier.phaseCount_ this' = Barrier.phaseCount_ this ->
  Barrier.actionCallerId_ this' = None ->
  (forall f, count (waits f) A' = count (waits f) A) ->
  everywhere (barrier_passed (Barrier.phaseCount_ this)) A' ->
  barrier_result x -> came_through x = 0 ->
  barrier_facts p0 m this' A' (out ++ [x]).
Proof.
  intros [Hc Hp Hcall Hw HA Ho Hth] Hnm EP ER Eph Ecall Hcnt HA' Hx Hcame.
  split; rewrite ?Eph; try done.
  - unfold barrier_counts in *. by rewrite EP, ER.
  - lia.
  - by rewrite Hcnt, EP, ER.
  - apply Forall_app. split; [done|]. by constructor.
  - intros [Hs _]%Forall_app. destruct (Hth Hs) as [EP0 Hsum].
    rewrite EP, total_snoc, Hcnt, Hcame. split; [done|lia].
Qed.

(** A thread that moves without waiting before or after. *)
Lemma facts_moved p0 n m this A A' out : barrier_facts p0 n this A out -> (n <= m)%nat ->
  (forall f, count (waits f) A' = count (waits f) A) ->
  everywhere (barrier_passed (Barrier.phaseCount_ this)) A' -> barrier_facts p0 m this A' out.
Proof.
  intros [Hc Hp Hcall Hw HA Ho Hth] Hnm Hcnt HA'. split; try done.
  - lia.
  - by rewrite Hcnt.
  - intros Hs. rewrite Hcnt. by apply Hth.
Qed.

Lemma waits_still f A t q : waits f (Monitor.at_place A t) = false -> waits f q = false ->
  count (waits f) (<[t:=q]> A) = count (waits f) A.
Proof. intros H1 H2. rewrite waits_set, H1, H2. cbn. lia. Qed.

(** What a call from inside the action is told. *)
Definition told (this : Barrier.Barrier) (op : Barrier.Op) : res reply :=
  match op with
  | Barrier.SignalAndWait | Barrier.AddParticipant | Barrier.RemoveParticipant =>
      if Barrier.disposed_ this then Throw (ObjectDisposedException "Barrier")
      else Throw Barrier.called_from_action
  | Barrier.Dispose => Throw Barrier.called_from_action
  | Barrier.ParticipantCount => Ok (Int (Barrier.participantCount_ this))
  | Barrier.CurrentPhaseNumber => Ok (Int (Barrier.phaseCount_ this))
  end.

Lemma told_defined this op : told this op <> UB.
Proof. unfold told. by destruct op, (Barrier.disposed_ this). Qed.

(** A call on the barrier by the thread that runs the action. *)
Lemma begin_inside t op this : Barrier.actionCallerId_ this = Some t ->
  Barrier.begin t op this = (this, Monitor.Return (told this op)).
Proof.
  intros E. destruct op; cbn; unfold Barrier.ThrowIfDisposed, Barrier.ThrowIfCalledFromPostPhaseAction,
    throw_if; rewrite ?E, ?bool_decide_true by done; by try destruct (Barrier.disposed_ this).
Qed.

Lemma play_Calls t op k this : Barrier.actionCallerId_ this = Some t ->
  Barrier.play t (Barrier.Calls op k) this = Barrier.play t (k (told this op)) this.
Proof.
  intros E. cbn [Barrier.play]. rewrite begin_inside by done.
  pose proof (told_defined this op). by destruct (told this op).
Qed.

(** The action comes to its end, and leaves the barrier as it is. *)
Lemma play_ends t action this : Barrier.actionCallerId_ this = Some t ->
  exists thrown, Barrier.play t action this = (this, Ok thrown).
Proof.
  intros E. induction action as [thrown|op k IH]; [by exists thrown|].
  rewrite play_Calls by done. apply IH.
Qed.

Section Preservation.
Context `{Barrier.PostPhaseAction} (p0 : Z).

(** The action always comes back. *)
Lemma run_action_ends t this : exists thrown caller,
  Barrier.run_action t this = (Barrier.set_caller (Barrier.set_exception this thrown) caller, Ok tt) /\
  (Barrier.actionCallerId_ this = None -> caller = None).
Proof.
  unfold Barrier.run_action. destruct Barrier.postPhaseAction_ as [action|].
  - destruct (play_ends t action (Barrier.set_caller this (Some t)) eq_refl) as (thrown & ->).
    by exists thrown, None.
  - by exists None, (Barrier.actionCallerId_ this).
Qed.

Lemma FinishPhase_notifies t this : exists this' r,
  Barrier.FinishPhase t this = Monitor.Finish this' r true.
Proof.
  unfold Barrier.FinishPhase.
  edestruct run_action_ends as (thrown & caller & -> & _). by eexists _, _.
Qed.

(** What FinishPhase leaves behind: everybody still to come, the next phase,
    and the exception of the action, rethrown. *)
Lemma FinishPhase_spec t this : 0 <= Barrier.phaseCount_ this < 2 ^ 63 - 1 ->
  Barrier.actionCallerId_ this = None ->
  exists this' r, Barrier.FinishPhase t this = Monitor.Finish this' r true /\
    Barrier.participantCount_ this' = Barrier.participantCount_ this /\
    Barrier.remainingCount_ this' = Barrier.participantCount_ this /\
    Barrier.phaseCount_ this' = Barrier.phaseCount_ this + 1 /\
    Barrier.actionCallerId_ this' = None /\
    (r = Ok Unit \/ exists e, r = Throw (BarrierPostPhaseException e)).
Proof.
  intros Hph Hcall. unfold Barrier.FinishPhase.
  assert (Hi : i64 (Barrier.phaseCount_ this + 1) = Barrier.phaseCount_ this + 1)
    by (unfold i64; apply wraps_id; unfold in_s; cbn in *; lia).
  edestruct run_action_ends as (thrown & caller & -> & Hcaller). cbn in Hcaller.
  eexists _, _. split; [reflexivity|]. cbn. split; [done|]. split; [done|]. split; [exact Hi|].
  split; [by apply Hcaller|]. unfold Barrier.rethrow. cbn. destruct thrown; eauto.
Qed.

(** The end of a phase. [this] has just counted the last signal. *)
Lemma finish_facts n this this1 A out t op : barrier_facts p0 n this A out ->
  Monitor.at_place A t = Monitor.Before op -> Z.of_nat (n + 1) < 2 ^ 63 ->
  0 <= Barrier.participantCount_ this1 <= 32767 ->
  Barrier.phaseCount_ this1 = Barrier.phaseCount_ this -> Barrier.actionCallerId_ this1 = None ->
  op = Barrier.RemoveParticipant \/ op = Barrier.SignalAndWait /\
    Barrier.participantCount_ this1 = Barrier.participantCount_ this /\
    Barrier.remainingCount_ this = 1 ->
  Monitor.after (barrier_inv p0) (n + 1) t op (Barrier.FinishPhase t this1) A out.
Proof.
  intros [Hc Hp Hcall Hw HA Ho Hth] Hat Hn HP Eph Ecall Hop.
  destruct (FinishPhase_spec t this1) as (this' & r & -> & EP & ER & Eph' & Ecall' & Hr);
    [cbn in *; lia|done|].
  cbn [Monitor.after]. intros _. rewrite Eph in Eph'.
  set (ph := Barrier.phaseCount_ this) in *.
  assert (Hstill : forall f, count (waits f) (<[t:=Monitor.Outside]> A) = count (waits f) A)
    by (intros f; apply waits_still; [by rewrite Hat|done]).
  split; rewrite ?Eph', ?EP, ?ER, ?Hstill; try done.
  - unfold barrier_counts. rewrite EP, ER. lia.
  - lia.
  - rewrite (waits_next ph) by done. lia.
  - apply everywhere_set; [|done]. apply (passed_later ph); [lia|done].
  - apply Forall_app. split; [done|]. constructor; [|done].
    destruct Hop as [->|[-> _]], Hr as [->|[e ->]]; done.
  - intros [Hs Hx]%Forall_app. apply Forall_inv in Hx. destruct (Hth Hs) as [EP0 Hsum].
    destruct Hop as [->|(-> & EP1 & ER1)]; [by destruct Hr as [->|[e ->]]|].
    rewrite EP1. split; [done|]. rewrite total_snoc, (waits_finished ph) by done. fold ph in Hw, Hsum.
    replace (came_through (t, Barrier.SignalAndWait, r)) with 1
      by (by destruct Hr as [->|[e ->]]). lia.
Qed.

(** A signal that is not the last of its phase. *)
Lemma wait_facts n this A out t : barrier_facts p0 n this A out ->
  Monitor.at_place A t = Monitor.Before Barrier.SignalAndWait -> 1 < Barrier.remainingCount_ this ->
  barrier_facts p0 (n + 1) (Barrier.set_counts this (Barrier.participantCount_ this)
      (Barrier.remainingCount_ this - 1))
    (<[t:=Monitor.Waiting Barrier.SignalAndWait (Barrier.phaseCount_ this)]> A) out.
Proof.
  intros [Hc Hp Hcall Hw HA Ho Hth] Hat Hrem.
  split; cbn [Barrier.set_counts Barrier.participantCount_ Barrier.remainingCount_
    Barrier.phaseCount_ Barrier.actionCallerId_]; try done.
  - unfold barrier_counts in *. cbn. lia.
  - lia.
  - rewrite waits_set, Hat. cbn. rewrite Z.eqb_refl. cbn. lia.
  - apply everywhere_set; [done|]. split; [done|lia].
  - intros Hs. destruct (Hth Hs) as [EP Hsum]. split; [done|].
    rewrite waits_set, Hat. cbn. rewrite Z.ltb_irrefl. cbn. lia.
Qed.

(** A waiter of a finished phase leaves. *)
Lemma resume_facts n this A out t op k : barrier_facts p0 n this A out ->
  Monitor.at_place A t = Monitor.Waiting op k -> k < Barrier.phaseCount_ this ->
  barrier_facts p0 (n + 1) this (<[t:=Monitor.Outside]> A) (out ++ [(t, op, Barrier.rethrow this Unit)]).
Proof.
  intros [Hc Hp Hcall Hw HA Ho Hth] Hat Hk.
  destruct (everywhere_at _ A t _ HA Hat) as [-> _].
  assert (Hr : barrier_result (t, Barrier.SignalAndWait, Barrier.rethrow this Unit) /\
    came_through (t, Barrier.SignalAndWait, Barrier.rethrow this Unit) = 1)
    by (unfold Barrier.rethrow; by destruct (Barrier.lastPostPhaseException_ this)).
  split; try done.
  - lia.
  - rewrite waits_set, Hat. cbn. rewrite (proj2 (Z.eqb_neq _ _)) by lia. cbn. lia.
  - by apply everywhere_set.
  - apply Forall_app. split; [done|]. constructor; [apply Hr|done].
  - intros [Hs _]%Forall_app. destruct (Hth Hs) as [EP Hsum]. split; [done|].
    rewrite total_snoc, (proj2 Hr), waits_set, Hat. cbn. rewrite (proj2 (Z.ltb_lt _ _)) by done.
    cbn. lia.
Qed.

(** AddParticipant, and RemoveParticipant within a phase. *)
Lemma recount_facts n this A out t op r P R : barrier_facts p0 n this A out ->
  Monitor.at_place A t = Monitor.Before op -> 
  P - R = Barrier.participantCount_ this - Barrier.remainingCount_ this ->
  0 < R <= P -> P <= 32767 -> barrier_result (t, op, Ok r) ->
  op = Barrier.AddParticipant \/ op = Barrier.RemoveParticipant ->
  barrier_facts p0 (n + 1) (Barrier.set_counts this P R) (<[t:=Monitor.Outside]> A)
    (out ++ [(t, op, Ok r)]).
Proof.
  intros [Hc Hp Hcall Hw HA Ho Hth] Hat HPR HR HP Hr Hop.
  assert (Hstill : forall f, count (waits f) (<[t:=Monitor.Outside]> A) = count (waits f) A)
    by (intros f; apply waits_still; [by rewrite Hat|done]).
  split; cbn [Barrier.set_counts Barrier.participantCount_ Barrier.remainingCount_
    Barrier.phaseCount_ Barrier.actionCallerId_]; rewrite ?Hstill; try done; try lia.
  - unfold barrier_counts. cbn. lia.
  - by apply everywhere_set.
  - apply Forall_app. split; [done|]. by constructor.
  - intros [_ Hx]%Forall_app. apply Forall_inv in Hx. by destruct Hop as [->| ->].
Qed.

End Preservation.

Section Executions.
Context `{Barrier.PostPhaseAction} (p0 : Z).

Lemma barrier_begin t op this : barrier_counts this -> 0 <= Barrier.phaseCount_ this ->
  Barrier.actionCallerId_ this = None ->
  match Barrier.begin t op this with
  | (this', Monitor.Return r) =>
      barrier_result (t, op, r) /\ came_through (t, op, r) = 0 /\
      Barrier.participantCount_ this' = Barrier.participantCount_ this /\
      Barrier.remainingCount_ this' = Barrier.remainingCount_ this /\
      Barrier.phaseCount_ this' = Barrier.phaseCount_ this /\ Barrier.actionCallerId_ this' = None
  | (this', Monitor.Proceed op') => this' = this /\ barrier_passed 0 (Monitor.Before op')
  end.
Proof.
  intros (Hr & HP & _) Hph Hc.
  destruct op; cbn [Barrier.begin]; unfold Barrier.ThrowIfDisposed, Barrier.ThrowIfCalledFromPostPhaseAction,
    throw_if; rewrite ?Hc; cbn; try (destruct (Barrier.disposed_ this)); cbn;
    repeat split; try done; lia.
Qed.

Lemma barrier_entered n this A out t op : barrier_facts p0 n this A out ->
  Z.of_nat (n + 1) < 2 ^ 63 -> Monitor.at_place A t = Monitor.Before op ->
  match Barrier.body t op this with
  | Monitor.Leave f => Monitor.after (barrier_inv p0) (n + 1) t op f A out
  | Monitor.Wait this' k => barrier_facts p0 (n + 1) this' (<[t:=Monitor.Waiting op k]> A) out
  end.
Proof.
  intros Hf Hn Hat. destruct (id Hf) as [(Hr & HP & Hz) Hph Hcall _ HA _ _].
  pose proof (everywhere_at _ A t _ HA Hat) as Hp.
  assert (Hsame : forall op' r, op = op' -> barrier_result (t, op', r) ->
    came_through (t, op', r) = 0 ->
    Monitor.after (barrier_inv p0) (n + 1) t op' (Monitor.Finish this r false) A out).
  { intros op' r <- Hres Hcame _. apply (facts_same p0 n (n + 1) this this A); try done; try lia.
    - intros f. apply waits_still; [by rewrite Hat|done].
    - by apply everywhere_set. }
  destruct op; try done; cbn [Barrier.body].
  - unfold Barrier.signal. destruct (Z.eqb_spec (Barrier.participantCount_ this) 0) as [|HP0];
      [by apply Hsame|].
    unfold ssub. rewrite schk_Ok by (unfold in_s; cbn; lia).
    destruct (Z.eqb_spec (Barrier.remainingCount_ this - 1) 0).
    + eapply finish_facts; [exact Hf|done..|cbn; lia|done|done|right; split; [done|split; [done|lia]]].
    + apply (wait_facts p0 n this A out t Hf Hat). lia.
  - unfold Barrier.add_participant. rewrite Z.geb_leb.
    destruct (Z.leb_spec 32767 (Barrier.participantCount_ this)); [by apply Hsame|].
    unfold sadd. rewrite schk_Ok by (unfold in_s; cbn; lia). unfold i32.
    rewrite wraps_id by (unfold in_s; cbn; lia). cbn [Monitor.after]. intros _.
    apply recount_facts; try done; try lia; [|by left]. cbn. lia.
  - unfold Barrier.remove_participant.
    destruct (Z.eqb_spec (Barrier.participantCount_ this) 0) as [|HP0]; [by apply Hsame|].
    destruct (Z.eqb_spec (Barrier.remainingCount_ this) 0); [lia|].
    unfold ssub. rewrite schk_Ok by (unfold in_s; cbn; lia). unfold i32.
    rewrite wraps_id by (unfold in_s; cbn; lia).
    destruct (Z.eqb_spec (Barrier.remainingCount_ this - 1) 0).
    + eapply finish_facts; [exact Hf|done..|cbn; lia|done|done|by left].
    + intros _. apply recount_facts; try done; try lia. by right.
Qed.

#[local] Instance barrier_preserved : Monitor.Preserved (barrier_inv p0).
Proof.
  split.
  - intros n m this A out Hinv Hnm Hm. apply (facts_moved p0 n m this A A); [apply Hinv; lia|done..|].
    apply Hinv. lia.
  - intros n t op this A out Hinv Hat _. cbn [Monitor.begin Barrier.program].
    destruct (decide (Z.of_nat (n + 1) < 2 ^ 63)) as [Hn|Hn];
      [|by destruct (Barrier.begin t op this) as [this' []]; intros ?].
    assert (Hf : barrier_facts p0 n this A out) by (apply Hinv; lia).
    destruct (id Hf) as [Hc Hph Hcall _ HA _ _].
    pose proof (barrier_begin t op this Hc (proj1 Hph) Hcall) as Hb.
    destruct (Barrier.begin t op this) as [this' [r|op']]; intros _.
    + destruct Hb as (Hres & Hcame & EP & ER & Eph & Ecall).
      by apply (facts_same p0 n (n + 1) this this' A); try lia.
    + destruct Hb as [-> Hp]. apply (facts_moved p0 n (n + 1) this A); [done|lia| |].
      * intros f. apply waits_still; [by rewrite Hat|done].
      * apply everywhere_set; [done|]. by destruct op'.
  - intros n t op this A out Hinv Hat. cbn [Monitor.body Barrier.program].
    destruct (decide (Z.of_nat (n + 1) < 2 ^ 63)) as [Hn|Hn].
    + pose proof (barrier_entered n this A out t op (Hinv ltac:(lia)) Hn Hat) as Hb.
      destruct (Barrier.body t op this); [exact Hb|]. by intros _.
    + destruct (Barrier.body t op this) as [[]|]; by intros ?.
  - intros n t op k this A out Hinv Hat Hk Hn. cbn in Hk. apply resume_facts with k; [|done|lia].
    apply Hinv. lia.
  - intros n t op k this A out _ _ _ Htimed. done.
  - intros n t op this A out Hinv Hat Hn. cbn [Monitor.epilogue Barrier.program fst snd].
    destruct (Hinv ltac:(lia)) as [_ _ _ _ HA _ _]. by pose proof (everywhere_at _ A t _ HA Hat).
Qed.

#[local] Instance barrier_announces : Monitor.Announces (fun (_ : Barrier.Op) (_ : Barrier.Barrier) => True).
Proof.
  assert (Hq : forall s s' : Barrier.Barrier,
    Barrier.phaseCount_ s' = Barrier.phaseCount_ s -> Monitor.quiet s s').
  { intros s s' E k. cbn. by rewrite E. }
  split.
  - intros t op s. apply Hq. destruct op; try done. cbn.
    unfold Barrier.ThrowIfCalledFromPostPhaseAction, throw_if. by case_bool_decide.
  - intros t op s _. destruct op; cbn; try (by right; apply Hq).
    + unfold Barrier.signal. destruct (_ =? 0); [by right; apply Hq|].
      destruct (ssub _ _ _) as [n| |]; [|by right; apply Hq..].
      destruct (n =? 0); [|split; [by apply Hq|done]].
      edestruct FinishPhase_notifies as (u & r & ->). by left.
    + unfold Barrier.add_participant. destruct (_ >=? _); [by right; apply Hq|].
      destruct (sadd _ _ _); by right; apply Hq.
    + unfold Barrier.remove_participant. do 2 (destruct (_ =? 0); [by right; apply Hq|]).
      destruct (ssub _ _ _) as [n| |]; [|by right; apply Hq..].
      destruct (n =? 0); [|by right; apply Hq].
      edestruct FinishPhase_notifies as (u & r & ->). by left.
  - intros t op k s _ _. right. by apply Hq.
  - intros t op k s _ _. right. by apply Hq.
  - intros t op s. right. by apply Hq.
Qed.

Lemma barrier_start s : Barrier.construct p0 = Ok s -> barrier_inv p0 0%nat s ∅ [].
Proof.
  unfold Barrier.construct, throw_if. destruct (_ || _) eqn:E; [done|]. intros [= <-] _. bool_to_prop.
  split; cbn; try done; try lia.
  - rewrite count_empty. lia.
  - intros _. rewrite count_empty. lia.
Qed.

(** C37: In every interleaving of fewer than 2^62 steps, whatever the post-phase
    action throws: no more participants remain than there are, none remain
    only when there are none, and the threads waiting on the current phase are
    exactly as many as the participants that have signalled; every sleeping
    thread waits on the current phase, so no finished phase keeps a thread;
    while participants neither join nor leave, the calls that have come
    through the barrier and those about to are exactly the participants times
    the finished phases; every answer is documented and nothing overflows or locks
    twice, whatever calls the action makes; and FinishPhase runs the action so that
    each of its calls goes on with what the documentation says: the guarded members
    refuse it, the properties tell the participants and the phase that is ending. *)
Theorem Barrier_phases s tr c (Hs : Barrier.construct p0 = Ok s)
  (Hx : Monitor.exec (Monitor.fresh s) tr c) (Hlen : Z.of_nat (length tr) < 2 ^ 62) :
  let this := Monitor.shared c in
  let waiting f := count (waits f) (Monitor.places c) in
  barrier_counts this /\
  waiting (Z.eqb (Barrier.phaseCount_ this)) =
    Barrier.participantCount_ this - Barrier.remainingCount_ this /\
  (forall t op k, Monitor.pc_of c t = Monitor.Asleep op k -> k = Barrier.phaseCount_ this) /\
  (Forall steady (Monitor.returned tr) ->
     total came_through (Monitor.returned tr) + waiting (fun k => k <? Barrier.phaseCount_ this) =
     p0 * Barrier.phaseCount_ this) /\
  Forall barrier_result (Monitor.returned tr) /\
  (forall t op k,
     let finish action := Barrier.FinishPhase (H := {| Barrier.postPhaseAction_ := Some action |}) t this in
     finish (Barrier.Calls op k) = finish (k (told this op))).
Proof.
  intros this waiting. pose proof (barrier_start s Hs) as H0.
  destruct (Monitor.exec_holds (barrier_inv p0) (Monitor.fresh s) tr c (Monitor.fresh_idle s) H0 Hx)
    as [Hc Hph Hcall Hw HA Ho Hth]; [cbn in *; lia|]. fold this in Hc, Hph, Hcall, Hw, HA, Hth.
  pose proof (Monitor.exec_no_lost_wakeup _ tr c (Monitor.fresh_idle s) (fun _ _ _ _ _ _ _ => I) Hx) as Hn.
  split; [exact Hc|]. split; [exact Hw|]. split; [|split; [|split; [exact Ho|]]].
  - intros t op k Ht. destruct (Z.eq_dec k (Barrier.phaseCount_ this)) as [|Hne]; [done|].
    pose proof (everywhere_at _ _ t _ HA (Monitor.place_known c t _ Ht)) as [_ Hk].
    destruct (Hn t op k Ht) as (u & op' & _ & Hno); [|done]. cbn. fold this. lia.
  - intros Hst. by apply Hth.
  - intros t op k finish. unfold finish, Barrier.FinishPhase, Barrier.run_action.
    cbn [Barrier.postPhaseAction_]. by rewrite play_Calls.
Qed.

End Executions.

(** ** An execution

    Three participants; the action of phase 0 calls SignalAndWait and lets the refusal
    out; each of them throws it, and phase 1 begins. *)

#[local] Instance faulty : Barrier.PostPhaseAction := {|
  Barrier.postPhaseAction_ := Some (Barrier.Calls Barrier.CurrentPhaseNumber (fun phase =>
    if decide (phase = Ok (Int 0))
    then Barrier.Calls Barrier.SignalAndWait (fun r =>
           Barrier.Ends (match r with Throw e => Some e | _ => None end))
    else Barrier.Ends None)) |}.

Definition barrier_schedule : list (Monitor.choice Barrier.Op) :=
  [Monitor.Call 1 Barrier.SignalAndWait; Monitor.Go 1; Monitor.Call 2 Barrier.SignalAndWait;
   Monitor.Go 2; Monitor.Spurious 2; Monitor.Go 2; Monitor.Call 3 Barrier.SignalAndWait; Monitor.Go 3;
   Monitor.Go 1; Monitor.Call 3 Barrier.SignalAndWait; Monitor.Go 3].

Lemma Barrier_phases_witness :
  exists tr c, Monitor.exec (Monitor.fresh (Barrier.mk 3 3 0 None None false)) tr c /\
    Monitor.returned tr = [
      (3%nat, Barrier.SignalAndWait, Throw (BarrierPostPhaseException Barrier.called_from_action));
      (1%nat, Barrier.SignalAndWait, Throw (BarrierPostPhaseException Barrier.called_from_action))] /\
    count (waits (Z.eqb (Barrier.phaseCount_ (Monitor.shared c)))) (Monitor.places c) =
      Barrier.participantCount_ (Monitor.shared c) - Barrier.remainingCount_ (Monitor.shared c).
Proof.
  destruct (Monitor.run barrier_schedule (Monitor.fresh (Barrier.mk 3 3 0 None None false)))
    as [[tr c]|] eqn:E; [|vm_compute in E; discriminate E].
  pose proof (Monitor.run_exec _ _ _ _ E) as Hx. exists tr, c. split; [exact Hx|].
  assert (Hl : length tr = 11%nat /\ Monitor.returned tr = [
      (3%nat, Barrier.SignalAndWait, Throw (BarrierPostPhaseException Barrier.called_from_action));
      (1%nat, Barrier.SignalAndWait, Throw (BarrierPostPhaseException Barrier.called_from_action))])
    by (vm_compute in E; injection E as <- _; split; reflexivity).
  destruct Hl as [Hl Hr]. split; [exact Hr|].
  apply (Barrier_phases 3 (Barrier.mk 3 3 0 None None false) tr c); [reflexivity|exact Hx|].
  rewrite Hl. reflexivity.
Defined.
