(* ===== verification/ReaderWriterLockSlim.v ===== *)
(** * System::Threading::ReaderWriterLockSlim

    [threading/include/System/Threading/ReaderWriterLockSlim.hpp] as a
    [Monitor] program: the recursion rules on the per-thread counts, the wait
    conditions with writer preference, time-outs and the waiter counts, the
    exits and Dispose. Writers and upgraders are exclusive in every
    interleaving; a read lock taken under a write or upgradeable lock and kept
    past it is not counted, and the last theorem shows what that allows. *)

From S2P Require Export Threading.

Module ReaderWriterLockSlim.

Record ThreadCounts := mkCounts {
  reader : Z;
  writer : Z;
  upgrade : Z;
  readerCountsTowardGlobal : bool;
}.

(** The lock, with the slot of each thread in the thread-local table
    [threadCounts()] for the id of this lock. *)
Record ReaderWriterLockSlim := mk {
  threadCounts : gmap nat ThreadCounts;
  readers_ : Z;
  waitingWriters_ : Z;
  waitingReaders_ : Z;
  waitingUpgraders_ : Z;
  writerActive_ : bool;
  upgradeableActive_ : bool;
  disposed_ : bool;
  isReentrant : bool;
}.

(** The three modes, and the members: Enter*, TryEnter*, Exit* and Is*Held of
    each mode, and Dispose. *)
Inductive mode := Read | Write | Upgradeable.
Inductive Op :=
  | Enter (m : mode)
  | TryEnter (m : mode) (millisecondsTimeout : Z)
  | Exit (m : mode)
  | Dispose
  | IsHeld (m : mode).

(** ReaderWriterLockSlim(recursionPolicy): SupportsRecursion is 1, anything
    else is NoRecursion. *)
Definition construct (recursionPolicy : Z) : ReaderWriterLockSlim :=
  mk ∅ 0 0 0 0 false false false (recursionPolicy =? 1).

Definition no_counts : ThreadCounts := mkCounts 0 0 0 false.

(** myCounts() *)
Definition myCounts (this : ReaderWriterLockSlim) (t : nat) : ThreadCounts :=
  default no_counts (threadCounts this !! t).
Definition set_counts (this : ReaderWriterLockSlim) (t : nat) (c : ThreadCounts) : ReaderWriterLockSlim :=
  mk (<[t:=c]> (threadCounts this)) (readers_ this) (waitingWriters_ this) (waitingReaders_ this)
    (waitingUpgraders_ this) (writerActive_ this) (upgradeableActive_ this) (disposed_ this)
    (isReentrant this).
Definition set_readers (this : ReaderWriterLockSlim) (n : Z) : ReaderWriterLockSlim :=
  mk (threadCounts this) n (waitingWriters_ this) (waitingReaders_ this)
    (waitingUpgraders_ this) (writerActive_ this) (upgradeableActive_ this) (disposed_ this)
    (isReentrant this).
Definition set_active (this : ReaderWriterLockSlim) (w u : bool) : ReaderWriterLockSlim :=
  mk (threadCounts this) (readers_ this) (waitingWriters_ this) (waitingReaders_ this)
    (waitingUpgraders_ this) w u (disposed_ this) (isReentrant this).
Definition set_disposed (this : ReaderWriterLockSlim) : ReaderWriterLockSlim :=
  mk (threadCounts this) (readers_ this) (waitingWriters_ this) (waitingReaders_ this)
    (waitingUpgraders_ this) (writerActive_ this) (upgradeableActive_ this) true (isReentrant this).

(** The waiter count of a mode. *)
Definition waiting (m : mode) (this : ReaderWriterLockSlim) : Z :=
  match m with
  | Read => waitingReaders_ this
  | Write => waitingWriters_ this
  | Upgradeable => waitingUpgraders_ this
  end.
Definition set_waiting (this : ReaderWriterLockSlim) (m : mode) (n : Z) : ReaderWriterLockSlim :=
  mk (threadCounts this) (readers_ this)
    (match m with Write => n | _ => waitingWriters_ this end)
    (match m with Read => n | _ => waitingReaders_ this end)
    (match m with Upgradeable => n | _ => waitingUpgraders_ this end)
    (writerActive_ this) (upgradeableActive_ this) (disposed_ this) (isReentrant this).

Definition throwIfDisposed (this : ReaderWriterLockSlim) : res unit :=
  throw_if (disposed_ this) (ObjectDisposedException "ReaderWriterLockSlim").

(** The count of a mode. *)
Definition held (m : mode) (c : ThreadCounts) : Z :=
  match m with Read => reader c | Write => writer c | Upgradeable => upgrade c end.
Definition set_held (m : mode) (c : ThreadCounts) (n : Z) : ThreadCounts :=
  match m with
  | Read => mkCounts n (writer c) (upgrade c) (readerCountsTowardGlobal c)
  | Write => mkCounts (reader c) n (upgrade c) (readerCountsTowardGlobal c)
  | Upgradeable => mkCounts (reader c) (writer c) n (readerCountsTowardGlobal c)
  end.

(** [++counts.m], or its undefined behaviour. *)
Definition recurse (t : nat) (m : mode) (this : ReaderWriterLockSlim) (answer : reply)
    : ReaderWriterLockSlim * Monitor.entry Op reply :=
  match sadd 32 (held m (myCounts this t)) 1 with
  | Ok n => (set_counts this t (set_held m (myCounts this t) n), Monitor.Return (Ok answer))
  | _ => (this, Monitor.Return UB)
  end.

Definition recursion_message (m : mode) : string :=
  match m with
  | Read => "Recursive read lock acquisitions not allowed in this mode."
  | Write => "Recursive write lock acquisitions not allowed in this mode."
  | Upgradeable => "Recursive upgradeable lock acquisitions not allowed in this mode."
  end.

Definition refuse (this : ReaderWriterLockSlim) (msg : string)
    : ReaderWriterLockSlim * Monitor.entry Op reply :=
  (this, Monitor.Return (Throw (LockRecursionException msg))).

(** TryEnterReadLock without a read lock, up to the lock. *)
Definition begin_read (t : nat) (op : Op) (this : ReaderWriterLockSlim) (answer : reply)
    : ReaderWriterLockSlim * Monitor.entry Op reply :=
  let counts := myCounts this t in
  if negb (isReentrant this) && (writer counts >? 0) then
    refuse this "A read lock may not be acquired with the write lock held in this mode."
  else if (writer counts >? 0) || (upgrade counts >? 0) then
    (set_counts this t (mkCounts 1 (writer counts) (upgrade counts) false),
     Monitor.Return (Ok answer))
  else (this, Monitor.Proceed op).

(** TryEnterWriteLock without the write lock, up to the lock. *)
Definition begin_write (t : nat) (op : Op) (this : ReaderWriterLockSlim)
    : ReaderWriterLockSlim * Monitor.entry Op reply :=
  let counts := myCounts this t in
  let upgradingToWrite := upgrade counts >? 0 in
  if negb upgradingToWrite && (reader counts >? 0) then
    refuse this "Write lock may not be acquired with read lock held. This pattern is prone to deadlocks. Please ensure that read locks are released before taking a write lock. If an upgrade is necessary, use an upgrade lock in place of the read lock."
  else (this, Monitor.Proceed op).

(** TryEnterUpgradeableReadLock without the upgradeable lock, up to the lock. *)
Definition begin_upgrade (t : nat) (op : Op) (this : ReaderWriterLockSlim)
    : ReaderWriterLockSlim * Monitor.entry Op reply :=
  let counts := myCounts this t in
  if writer counts >? 0 then
    (if negb (isReentrant this) then
       refuse this "Upgradeable lock may not be acquired with write lock held in this mode. Acquiring Upgradeable lock gives the ability to read along with an option to upgrade to a writer."
     else (this, Monitor.Proceed op))
  else if reader counts >? 0 then
    refuse this "Upgradeable lock may not be acquired with read lock held."
  else (this, Monitor.Proceed op).

(** The three after their first two checks: recursion in the same mode, then
    the rules of the mode. *)
Definition begin_enter (t : nat) (m : mode) (op : Op) (this : ReaderWriterLockSlim) (answer : reply)
    : ReaderWriterLockSlim * Monitor.entry Op reply :=
  if held m (myCounts this t) >? 0 then
    (if negb (isReentrant this) then refuse this (recursion_message m)
     else recurse t m this answer)
  else match m with
       | Read => begin_read t op this answer
       | Write => begin_write t op this
       | Upgradeable => begin_upgrade t op this
       end.

Definition not_held_message (m : mode) : string :=
  match m with
  | Read => "The read lock is being released without being held."
  | Write => "The write lock is being released without being held."
  | Upgradeable => "The upgradeable lock is being released without being held."
  end.

(** ExitReadLock, ExitWriteLock and ExitUpgradeableReadLock up to the lock.
    An exit that locks changes its own thread's counts in the critical
    section here; no other thread can read them. *)
Definition begin_exit (t : nat) (m : mode) (this : ReaderWriterLockSlim)
    : ReaderWriterLockSlim * Monitor.entry Op reply :=
  let counts := myCounts this t in
  if held m counts <? 1 then
    (this, Monitor.Return (Throw (SynchronizationLockException (not_held_message m))))
  else
    let last := held m counts - 1 =? 0 in
    let locks := match m with Read => last && readerCountsTowardGlobal counts | _ => last end in
    if locks then (this, Monitor.Proceed (Exit m))
    else (set_counts this t (set_held m counts (held m counts - 1)), Monitor.Return (Ok Unit)).

Definition begin (t : nat) (op : Op) (this : ReaderWriterLockSlim)
    : ReaderWriterLockSlim * Monitor.entry Op reply :=
  let guarded checks m answer :=
    match checks with
    | Ok _ => begin_enter t m op this answer
    | Throw e => (this, Monitor.Return (Throw e))
    | UB => (this, Monitor.Return UB)
    end in
  match op with
  | Enter m => guarded (throwIfDisposed this) m Unit
  | TryEnter m ms => guarded (_ <- throwIfDisposed this ;; ValidateTimeout ms) m (Bool true)
  | Exit m => begin_exit t m this
  | Dispose => (this, Monitor.Proceed Dispose)
  | IsHeld m => (this, Monitor.Return (Ok (Bool (held m (myCounts this t) >? 0))))
  end.

(** What a blocked thread waits for: the read, the write (as the holder of the
    upgradeable lock or not) or the upgradeable lock. *)
Record K := mkK { wants : mode; upgrading : bool; timeout : option Z }.

(** The conditions of the waits. *)
Definition pred (k : K) (this : ReaderWriterLockSlim) : bool :=
  match wants k with
  | Read => negb (writerActive_ this) && (waitingWriters_ this =? 0)
  | Write =>
      if upgrading k then readers_ this =? 0
      else negb (writerActive_ this) && (readers_ this =? 0) && negb (upgradeableActive_ this)
  | Upgradeable => negb (writerActive_ this) && negb (upgradeableActive_ this)
  end.

(** The critical section of TryEnter up to the wait: the waiter is counted. *)
Definition enter (t : nat) (m : mode) (timeout : option Z) (answer : reply)
    (this : ReaderWriterLockSlim) : Monitor.section ReaderWriterLockSlim K reply :=
  let counts := myCounts this t in
  if match m with Upgradeable => writer counts >? 0 | _ => false end then
    Monitor.Leave
      match sadd 32 (upgrade counts) 1 with
      | Ok n => Monitor.Finish (set_counts (set_active this (writerActive_ this) true) t
                                  (set_held Upgradeable counts n)) (Ok answer) false
      | _ => Monitor.Finish this UB false
      end
  else match sadd 32 (waiting m this) 1 with
       | Ok n => Monitor.Wait (set_waiting this m n) (mkK m (upgrade counts >? 0) timeout)
       | _ => Monitor.Leave (Monitor.Finish this UB false)
       end.

(** ~WaiterCountGuard: the waiter is no longer counted; the last waiting
    writer wakes the readers it held back. *)
Definition uncount (m : mode) (this : ReaderWriterLockSlim) (r : res reply)
    : Monitor.finish ReaderWriterLockSlim reply :=
  match ssub 32 (waiting m this) 1 with
  | Ok n => Monitor.Finish (set_waiting this m n) r
              (match m with Write => n =? 0 | _ => false end)
  | _ => Monitor.Finish this UB false
  end.

(** TryEnterReadLock, TryEnterWriteLock and TryEnterUpgradeableReadLock after
    a wait that succeeded. *)
Definition acquire_read (t : nat) (answer : reply) (this : ReaderWriterLockSlim)
    : Monitor.finish ReaderWriterLockSlim reply :=
  let counts := myCounts this t in
  match sadd 32 (readers_ this) 1 with
  | Ok n => uncount Read (set_counts (set_readers this n) t
              (mkCounts 1 (writer counts) (upgrade counts) true)) (Ok answer)
  | _ => Monitor.Finish this UB false
  end.

Definition acquire_write (t : nat) (answer : reply) (this : ReaderWriterLockSlim)
    : Monitor.finish ReaderWriterLockSlim reply :=
  let counts := myCounts this t in
  match sadd 32 (writer counts) 1 with
  | Ok n => uncount Write (set_counts (set_active this true (upgradeableActive_ this)) t
              (set_held Write counts n)) (Ok answer)
  | _ => Monitor.Finish this UB false
  end.

Definition acquire_upgrade (t : nat) (answer : reply) (this : ReaderWriterLockSlim)
    : Monitor.finish ReaderWriterLockSlim reply :=
  let counts := myCounts this t in
  match sadd 32 (upgrade counts) 1 with
  | Ok n => uncount Upgradeable (set_counts (set_active this (writerActive_ this) true) t
              (set_held Upgradeable counts n)) (Ok answer)
  | _ => Monitor.Finish this UB false
  end.

Definition acquire (t : nat) (m : mode) (answer : reply) (this : ReaderWriterLockSlim)
    : Monitor.finish ReaderWriterLockSlim reply :=
  match m with
  | Read => acquire_read t answer this
  | Write => acquire_write t answer this
  | Upgradeable => acquire_upgrade t answer this
  end.

(** The critical sections of ExitReadLock, ExitWriteLock and
    ExitUpgradeableReadLock, with the change of the thread's own counts. *)
Definition exit_read (t : nat) (this : ReaderWriterLockSlim) : Monitor.finish ReaderWriterLockSlim reply :=
  let counts := myCounts this t in
  match ssub 32 (readers_ this) 1 with
  | Ok n => Monitor.Later (set_counts (set_readers this n) t
              (mkCounts (reader counts - 1) (writer counts) (upgrade counts) false)) false
  | _ => Monitor.Finish this UB false
  end.

Definition exit_write (t : nat) (this : ReaderWriterLockSlim) : Monitor.finish ReaderWriterLockSlim reply :=
  let counts := myCounts this t in
  Monitor.Later (set_counts (set_active this false (upgradeableActive_ this)) t
    (set_held Write counts (writer counts - 1))) false.

Definition exit_upgrade (t : nat) (this : ReaderWriterLockSlim) : Monitor.finish ReaderWriterLockSlim reply :=
  let counts := myCounts this t in
  Monitor.Later (set_counts (set_active this (writerActive_ this) false) t
    (set_held Upgradeable counts (upgrade counts - 1))) false.

Definition exit (t : nat) (m : mode) (this : ReaderWriterLockSlim)
    : Monitor.finish ReaderWriterLockSlim reply :=
  match m with
  | Read => exit_read t this
  | Write => exit_write t this
  | Upgradeable => exit_upgrade t this
  end.

Definition in_use : exn := SynchronizationLockException
  "The lock is being disposed while still being used. It either is being held by a thread and/or has active waiters waiting to acquire the lock.".

Definition body (t : nat) (op : Op) (this : ReaderWriterLockSlim)
    : Monitor.section ReaderWriterLockSlim K reply :=
  match op with
  | Enter m => enter t m None Unit this
  | TryEnter m ms => enter t m (timeout_of ms) (Bool true) this
  | Exit m => Monitor.Leave (exit t m this)
  | Dispose =>
      Monitor.Leave
        (if (waitingReaders_ this >? 0) || (waitingUpgraders_ this >? 0) || (waitingWriters_ this >? 0)
         then Monitor.Finish this (Throw in_use) false
         else Monitor.Later this false)
  | IsHeld _ => Monitor.Leave (Monitor.Finish this (Ok Unit) false)  (* never locks *)
  end.

(** Dispose after its critical section. *)
Definition dispose (t : nat) (this : ReaderWriterLockSlim) : ReaderWriterLockSlim * res reply :=
  let counts := myCounts this t in
  if (reader counts >? 0) || (writer counts >? 0) || (upgrade counts >? 0) then (this, Throw in_use)
  else (set_disposed this, Ok Unit).

Definition answer (op : Op) (acquired : bool) : reply :=
  match op with TryEnter _ _ => Bool acquired | _ => Unit end.

(** The exits call [notify_all] after they have unlocked. *)
#[global] Instance program : Monitor.Program ReaderWriterLockSlim Op K reply := {
  Monitor.typed op := match op with TryEnter _ ms => in_sb 32 ms | _ => true end;
  Monitor.begin := begin;
  Monitor.body := body;
  Monitor.pred := pred;
  Monitor.timed k := is_timed (timeout k);
  Monitor.resume t op k this := acquire t (wants k) (answer op true) this;
  Monitor.expire t op k this := uncount (wants k) this (Ok (answer op false));
  Monitor.epilogue t op this :=
    match op with Dispose => dispose t this | _ => (this, Ok Unit) end;
  Monitor.notifies op := match op with Exit _ => true | _ => false end;
}.

End ReaderWriterLockSlim.

(** ** The invariant *)

Import ReaderWriterLockSlim.

(** The counts of one thread; a counted read lock excludes the other modes. *)
Definition counts_ok (n : Z) (c : ThreadCounts) : Prop :=
  0 <= reader c <= n /\ 0 <= writer c <= n /\ 0 <= upgrade c <= n /\
  (readerCountsTowardGlobal c = true -> 1 <= reader c /\ writer c = 0 /\ upgrade c = 0).

(** What the rules before the lock leave of the counts. *)
Definition may_lock (m : mode) (c : ThreadCounts) : Prop :=
  match m with
  | Read => reader c = 0 /\ writer c = 0 /\ upgrade c = 0
  | Write => writer c = 0 /\ (upgrade c = 0 -> reader c = 0)
  | Upgradeable => upgrade c = 0 /\ (writer c = 0 -> reader c = 0)
  end.

Definition may_wait (k : K) (c : ThreadCounts) : Prop :=
  may_lock (wants k) c /\
  match wants k with
  | Write => upgrading k = (upgrade c >? 0)
  | _ => writer c = 0
  end.

(** A thread's counts agree with its place. *)
Definition inside (c : ThreadCounts) (p : Monitor.place Op K) : Prop :=
  match p with
  | Monitor.Outside => True
  | Monitor.Before (Enter m) | Monitor.Before (TryEnter m _) => may_lock m c
  | Monitor.Before (Exit m) => held m c = 1 /\ (m = Read -> readerCountsTowardGlobal c = true)
  | Monitor.Before Dispose => True
  | Monitor.Waiting (Enter m) k => wants k = m /\ timeout k = None /\ may_wait k c
  | Monitor.Waiting (TryEnter m _) k => wants k = m /\ may_wait k c
  | Monitor.After (Exit _) | Monitor.After Dispose => True
  | _ => False
  end.

Definition waits_for (m : mode) (p : Monitor.place Op K) : bool :=
  match p with
  | Monitor.Waiting _ k => match m, wants k with
                           | Read, Read | Write, Write | Upgradeable, Upgradeable => true
                           | _, _ => false
                           end
  | _ => false
  end.

Definition writing (c : ThreadCounts) : bool := writer c >? 0.
Definition upgradeable (c : ThreadCounts) : bool := upgrade c >? 0.

(** The results a member may have. *)
Definition rw_result (x : nat * Op * res reply) : Prop :=
  let '(_, op, r) := x in
  match op, r with
  | (Enter _ | Exit _ | Dispose), Ok Unit
  | TryEnter _ _, Ok (Bool _) | IsHeld _, Ok (Bool _)
  | (Enter _ | TryEnter _ _), Throw (LockRecursionException _)
  | (Enter _ | TryEnter _ _), Throw (ObjectDisposedException "ReaderWriterLockSlim")
  | (Exit _ | Dispose), Throw (SynchronizationLockException _) => True
  | TryEnter _ ms, Throw (ArgumentOutOfRangeActual "millisecondsTimeout" _ _) => ms < -1
  | _, _ => False
  end.

Record rw_facts (n : Z) (this : ReaderWriterLockSlim) (A : gmap nat (Monitor.place Op K))
    (out : list (nat * Op * res reply)) : Prop := {
  rw_counts t : counts_ok n (myCounts this t);
  rw_inside t : inside (myCounts this t) (Monitor.at_place A t);
  rw_readers : count readerCountsTowardGlobal (threadCounts this) = readers_ this;
  rw_writers : count writing (threadCounts this) = b2z (writerActive_ this);
  rw_upgraders : count upgradeable (threadCounts this) = b2z (upgradeableActive_ this);
  rw_exclusive : writerActive_ this = true -> readers_ this = 0;
  rw_cross t u : 0 < writer (myCounts this t) -> 0 < upgrade (myCounts this u) -> t = u;
  rw_waiting m : count (waits_for m) A = waiting m this /\ waiting m this <= n;
  rw_bound : readers_ this <= n;
  rw_results : Forall rw_result out;
}.

(** Fewer than 2^31 moves cannot overflow a count. *)
Definition rw_inv : Monitor.invariant := fun n this A out =>
  Z.of_nat n < 2 ^ 31 -> rw_facts (Z.of_nat n) this A out.

(** [this'] differs from [this] in the counts of [t], which become [c]. *)
Record counts_become (t : nat) (c : ThreadCounts) (this this' : ReaderWriterLockSlim) : Prop := {
  become_counts u : myCounts this' u = if decide (t = u) then c else myCounts this u;
  become_count (p : ThreadCounts -> bool) : p no_counts = false ->
    count p (threadCounts this') =
    count p (threadCounts this) - b2z (p (myCounts this t)) + b2z (p c);
}.

Lemma become_set t c this this' : threadCounts this' = <[t:=c]> (threadCounts this) ->
  counts_become t c this this'.
Proof.
  intros E. split.
  - intros u. unfold myCounts. rewrite E. case_decide as Hu; [subst u; by rewrite lookup_insert_eq|].
    by rewrite lookup_insert_ne.
  - intros p Hp. rewrite E. by apply count_default.
Qed.

Lemma become_same t this this' : threadCounts this' = threadCounts this ->
  counts_become t (myCounts this t) this this'.
Proof.
  intros E. split.
  - intros u. unfold myCounts. rewrite E. case_decide; [by subst|done].
  - intros p Hp. rewrite E. lia.
Qed.

(** One move of thread [t]: what must hold of its new counts and place. *)
Lemma rw_move n this this' A out xs t c p : rw_facts n this A out -> counts_become t c this this' ->
  counts_ok (n + 1) c -> inside c p ->
  readers_ this' = readers_ this - b2z (readerCountsTowardGlobal (myCounts this t)) +
    b2z (readerCountsTowardGlobal c) -> readers_ this' <= n + 1 ->
  b2z (writerActive_ this') =
    b2z (writerActive_ this) - b2z (writing (myCounts this t)) + b2z (writing c) ->
  b2z (upgradeableActive_ this') =
    b2z (upgradeableActive_ this) - b2z (upgradeable (myCounts this t)) + b2z (upgradeable c) ->
  (writerActive_ this' = true -> readers_ this' = 0) ->
  (forall u, t <> u -> (0 < writer c -> upgrade (myCounts this u) <= 0) /\
                       (0 < upgrade c -> writer (myCounts this u) <= 0)) ->
  (forall m, waiting m this' =
     waiting m this - b2z (waits_for m (Monitor.at_place A t)) + b2z (waits_for m p) /\
     waiting m this' <= n + 1) ->
  Forall rw_result xs ->
  rw_facts (n + 1) this' (<[t:=p]> A) (out ++ xs).
Proof.
  intros [Hc Hi Hr Hw Hu Hex Hcr Hwait Hb Ho] [Bc Bn] Hc' Hi' Hr' Hb' Hw' Hu' Hex' Hcr' Hwait' Hxs.
  split; try done.
  - intros u. rewrite Bc. case_decide; [done|]. destruct (Hc u) as (? & ? & ? & Hf).
    split; [lia|]. split; [lia|]. split; [lia|exact Hf].
  - intros u. rewrite Bc, at_place_set. case_decide; [done|apply Hi].
  - rewrite Bn by done. lia.
  - rewrite Bn by done. lia.
  - rewrite Bn by done. lia.
  - intros u v. rewrite !Bc. intros Hu1 Hv1. destruct (decide (t = u)) as [->|Htu].
    + destruct (decide (u = v)) as [|Huv]; [done|]. destruct (Hcr' v Huv). lia.
    + destruct (decide (t = v)) as [->|Htv]; [|by apply Hcr]. destruct (Hcr' u Htu). lia.
  - intros m. rewrite (count_set (waits_for m)) by done. destruct (Hwait m), (Hwait' m).
    split; lia.
  - apply Forall_app. by split.
Qed.

(** ** Every move keeps it *)

Lemma rw_still n this A t out : rw_facts n this (<[t:=Monitor.Outside]> A) out ->
  Monitor.at_place A t = Monitor.Outside -> rw_facts n this A out.
Proof.
  intros [Hc Hi Hr Hw Hu Hex Hcr Hwait Hb Ho] Hat. split; try done.
  - intros u. specialize (Hi u). rewrite at_place_set in Hi.
    case_decide; [subst u; by rewrite Hat|done].
  - intros m. specialize (Hwait m). rewrite (count_set (waits_for m)), Hat in Hwait by done.
    cbn in Hwait. lia.
Qed.

(** A move that only changes the counts and the place of its thread, keeping
    the modes it holds. *)
Lemma rw_local n this this' A out xs t c p : rw_facts n this A out -> counts_become t c this this' ->
  readers_ this' = readers_ this -> writerActive_ this' = writerActive_ this ->
  upgradeableActive_ this' = upgradeableActive_ this -> (forall m, waiting m this' = waiting m this) ->
  readerCountsTowardGlobal c = readerCountsTowardGlobal (myCounts this t) ->
  writing c = writing (myCounts this t) -> upgradeable c = upgradeable (myCounts this t) ->
  counts_ok (n + 1) c -> inside c p ->
  (forall m, waits_for m (Monitor.at_place A t) = false) -> (forall m, waits_for m p = false) ->
  Forall rw_result xs -> rw_facts (n + 1) this' (<[t:=p]> A) (out ++ xs).
Proof.
  intros Hf Hb Er Ew Eu Ewait Eg Ewr Eup Hok Hin Hw1 Hw2 Hxs.
  destruct (id Hf) as [Hc _ _ _ _ Hex Hcr Hwait Hbnd _].
  apply (rw_move n this this' A out xs t c p); try done; rewrite ?Er, ?Ew, ?Eu, ?Eg, ?Ewr, ?Eup; try lia; try done.
  - intros u Htu. unfold writing, upgradeable in *. split; intros Hp.
    + assert (Ht : 0 < writer (myCounts this t)) by lia.
      destruct (Z.lt_ge_cases 0 (upgrade (myCounts this u))) as [H|H]; [|lia].
      by destruct (Htu (Hcr t u Ht H)).
    + assert (Ht : 0 < upgrade (myCounts this t)) by lia.
      destruct (Z.lt_ge_cases 0 (writer (myCounts this u))) as [H|H]; [|lia].
      by destruct (Htu (eq_sym (Hcr u t H Ht))).
  - intros m. rewrite Ewait, Hw1, Hw2. destruct (Hwait m). cbn. split; lia.
Qed.

Lemma outside_waits A t p : Monitor.at_place A t = p -> (forall op k, p <> Monitor.Waiting op k) ->
  forall m, waits_for m (Monitor.at_place A t) = false.
Proof. intros -> Hp m. destruct p; try done. by destruct (Hp op k). Qed.

Lemma counts_ok_mono n n' c : counts_ok n c -> n <= n' -> counts_ok n' c.
Proof. intros (? & ? & ? & ?) Hn. repeat (split; [lia|]). done. Qed.

Section Begin.
Context (n : Z) (this : ReaderWriterLockSlim) (A : gmap nat (Monitor.place Op K)).
Context (out : list (nat * Op * res reply)) (t : nat).
Context (Hf : rw_facts n this A out) (Hn : n < 2 ^ 31 - 1) (Hat : Monitor.at_place A t = Monitor.Outside).

(** A call that returns before it locks, with new counts of its thread. *)
Lemma rw_return this' c op r : counts_become t c this this' ->
  readers_ this' = readers_ this -> writerActive_ this' = writerActive_ this ->
  upgradeableActive_ this' = upgradeableActive_ this -> (forall m, waiting m this' = waiting m this) ->
  readerCountsTowardGlobal c = readerCountsTowardGlobal (myCounts this t) ->
  writing c = writing (myCounts this t) -> upgradeable c = upgradeable (myCounts this t) ->
  counts_ok (n + 1) c -> rw_result (t, op, r) ->
  rw_facts (n + 1) this' A (out ++ [(t, op, r)]).
Proof.
  intros Hb Er Ew Eu Ewait Eg Ewr Eup Hok Hr. apply (rw_still _ _ _ t); [|done].
  apply (rw_local n this this' A out [(t, op, r)] t c); try done.
  - by eapply outside_waits.
  - by constructor.
Qed.

Lemma rw_unchanged op r : rw_result (t, op, r) -> rw_facts (n + 1) this A (out ++ [(t, op, r)]).
Proof.
  intros Hr. apply (rw_return this (myCounts this t)); try done; [by apply become_same|].
  destruct Hf as [Hc _ _ _ _ _ _ _ _ _]. apply (counts_ok_mono n); [done|lia].
Qed.

Lemma rw_proceed op : inside (myCounts this t) (Monitor.Before op) ->
  rw_facts (n + 1) this (<[t:=Monitor.Before op]> A) out.
Proof.
  intros Hi. rewrite <- (app_nil_r out).
  apply (rw_local n this this A out [] t (myCounts this t)); try done.
  - by apply become_same.
  - destruct Hf as [Hc _ _ _ _ _ _ _ _ _]. apply (counts_ok_mono n); [done|lia].
  - by eapply outside_waits.
Qed.

Definition begun (op : Op) (x : ReaderWriterLockSlim * Monitor.entry Op reply) : Prop :=
  match x with
  | (this', Monitor.Return r) => rw_facts (n + 1) this' A (out ++ [(t, op, r)])
  | (this', Monitor.Proceed op') => rw_facts (n + 1) this' (<[t:=Monitor.Before op']> A) out
  end.

Lemma recurse_begun m op answer : rw_result (t, op, Ok answer) -> 0 < held m (myCounts this t) ->
  begun op (recurse t m this answer).
Proof.
  intros Hr Hm. destruct (id Hf) as [Hc _ _ _ _ _ _ _ _ _].
  destruct (Hc t) as (H1 & H2 & H3 & H4). unfold recurse, sadd.
  rewrite schk_Ok by (unfold in_s; destruct m; cbn in *; lia).
  eapply rw_return; [by apply become_set|try done..]; destruct m; cbn in *; try done.
  all: unfold writing, upgradeable; cbn; try lia.
  all: do 3 (split; [cbn; lia|]); cbn; intros Hfl; destruct (H4 Hfl); lia.
Qed.

(** TryEnter up to the lock. *)
Lemma enter_begun m op : (op = Enter m \/ exists ms, op = TryEnter m ms) ->
  begun op (begin_enter t m op this (answer op true)).
Proof.
  intros Hop. destruct (id Hf) as [Hc _ _ _ _ _ _ _ _ _]. destruct (Hc t) as (H1 & H2 & H3 & H4).
  assert (Href : forall msg, begun op (this, Monitor.Return (Throw (LockRecursionException msg)))).
  { intros msg. apply rw_unchanged. by destruct Hop as [->|[ms ->]]. }
  assert (Hok : rw_result (t, op, Ok (answer op true))) by (by destruct Hop as [->|[ms ->]]).
  assert (Hgo : may_lock m (myCounts this t) -> begun op (this, Monitor.Proceed op)).
  { intros Hm. apply rw_proceed. by destruct Hop as [->|[ms ->]]. }
  unfold begin_enter, begin_read, begin_write, begin_upgrade, refuse. destruct (held m (myCounts this t) >? 0) eqn:Eh.
  { destruct (negb (isReentrant this)); [apply Href|]. apply recurse_begun; [done|lia]. }
  destruct m; cbn [held] in Eh.
  - destruct (negb (isReentrant this) && _); [apply Href|].
    destruct (_ || _) eqn:Eo; [|apply Hgo; cbn; lia].
    eapply rw_return; [by apply become_set|done..| | | | |done]; cbn; try done.
    + destruct (readerCountsTowardGlobal (myCounts this t)); [|done]. destruct H4; [done|lia].
    + do 3 (split; [cbn; lia|]). done.
  - destruct (negb _ && _) eqn:Eo; [apply Href|]. apply Hgo. cbn. lia.
  - destruct (writer (myCounts this t) >? 0) eqn:Ew.
    + destruct (negb (isReentrant this)); [apply Href|]. apply Hgo. cbn. lia.
    + destruct (reader (myCounts this t) >? 0) eqn:Er; [apply Href|]. apply Hgo. cbn. lia.
Qed.

(** Exit up to the lock. *)
Lemma exit_begun m : begun (Exit m) (begin_exit t m this).
Proof.
  destruct (id Hf) as [Hc _ _ _ _ _ _ _ _ _]. destruct (Hc t) as (H1 & H2 & H3 & H4).
  unfold begin_exit. destruct (held m (myCounts this t) <? 1) eqn:Eh; [by apply rw_unchanged|].
  destruct (match m with Read => _ | _ => _ end) eqn:El.
  - apply rw_proceed. destruct m; cbn in *; [apply andb_true_iff in El as [El Hfl]| |];
      (split; [lia|done]).
  - eapply rw_return; [by apply become_set|done..| | | | |done]; destruct m; cbn in *; try done;
      unfold writing, upgradeable; cbn; try lia.
    all: do 3 (split; [cbn; lia|]); cbn; intros Hfl; destruct (H4 Hfl); try lia.
    rewrite Hfl in El. lia.
Qed.

Lemma rw_begun op : Monitor.typed op = true -> begun op (begin t op this).
Proof.
  intros _. destruct op as [m|m ms|m| |m]; cbn [begin].
  - unfold throwIfDisposed, throw_if. destruct (disposed_ this); [by apply rw_unchanged|].
    apply (enter_begun m (Enter m)). by left.
  - unfold throwIfDisposed, ValidateTimeout, ThrowIfLessThan, throw_if.
    destruct (disposed_ this); [by apply rw_unchanged|]. cbn [bind].
    destruct (Z.ltb_spec ms (-1)); [apply rw_unchanged; done|].
    apply (enter_begun m (TryEnter m ms)). right. by exists ms.
  - apply exit_begun.
  - by apply rw_proceed.
  - by apply rw_unchanged.
Qed.
End Begin.

#[export] Instance mode_eq_dec : EqDecision mode.
Proof. solve_decision. Defined.

Section Inside.
Context (n : Z) (this : ReaderWriterLockSlim) (A : gmap nat (Monitor.place Op K)).
Context (out : list (nat * Op * res reply)) (t : nat).
Context (Hf : rw_facts n this A out) (Hn : n < 2 ^ 31 - 1).

(** Who holds the write and the upgradeable lock. *)
Lemma nobody_writes u : writerActive_ this = false -> writer (myCounts this u) <= 0.
Proof.
  intros Hw. pose proof (rw_writers _ _ _ _ Hf) as Hc. rewrite Hw in Hc.
  pose proof (count_none writing no_counts (threadCounts this) u eq_refl Hc) as H.
  unfold writing, myCounts in *. lia.
Qed.

Lemma nobody_upgrades u : upgradeableActive_ this = false -> upgrade (myCounts this u) <= 0.
Proof.
  intros Hw. pose proof (rw_upgraders _ _ _ _ Hf) as Hc. rewrite Hw in Hc.
  pose proof (count_none upgradeable no_counts (threadCounts this) u eq_refl Hc) as H.
  unfold upgradeable, myCounts in *. lia.
Qed.

Lemma b2z_le b : b2z b <= 1.
Proof. by destruct b. Qed.

Lemma only_writer u v : u <> v -> 0 < writer (myCounts this u) -> writer (myCounts this v) <= 0.
Proof.
  intros Huv Hu. pose proof (rw_writers _ _ _ _ Hf) as Hc.
  pose proof (count_only writing no_counts (threadCounts this) u v eq_refl) as H.
  rewrite Hc in H. specialize (H (b2z_le _) Huv). unfold writing, myCounts in *. lia.
Qed.

Lemma only_upgrader u v : u <> v -> 0 < upgrade (myCounts this u) -> upgrade (myCounts this v) <= 0.
Proof.
  intros Huv Hu. pose proof (rw_upgraders _ _ _ _ Hf) as Hc.
  pose proof (count_only upgradeable no_counts (threadCounts this) u v eq_refl) as H.
  rewrite Hc in H. specialize (H (b2z_le _) Huv). unfold upgradeable, myCounts in *. lia.
Qed.

Lemma writer_active u : 0 < writer (myCounts this u) -> writerActive_ this = true.
Proof. intros Hu. destruct (writerActive_ this) eqn:E; [done|]. pose proof (nobody_writes u E). lia. Qed.

Lemma upgrader_active u : 0 < upgrade (myCounts this u) -> upgradeableActive_ this = true.
Proof. intros Hu. destruct (upgradeableActive_ this) eqn:E; [done|]. pose proof (nobody_upgrades u E). lia. Qed.

(** An upgrader that does not write excludes writers, and conversely. *)
Lemma no_other_writer u : 0 < upgrade (myCounts this u) -> writer (myCounts this u) = 0 ->
  writerActive_ this = false.
Proof.
  intros Hu Hw. destruct (writerActive_ this) eqn:E; [|done]. pose proof (rw_writers _ _ _ _ Hf) as Hc.
  rewrite E in Hc. destruct (count_some writing no_counts (threadCounts this)) as [v Hv];
    [done|rewrite Hc; done|]. fold (myCounts this v) in Hv. unfold writing in Hv.
  assert (v = u) as -> by (apply (rw_cross _ _ _ _ Hf); lia). lia.
Qed.

Lemma no_other_upgrader u : 0 < writer (myCounts this u) -> upgrade (myCounts this u) = 0 ->
  upgradeableActive_ this = false.
Proof.
  intros Hu Hw. destruct (upgradeableActive_ this) eqn:E; [|done].
  pose proof (rw_upgraders _ _ _ _ Hf) as Hc. rewrite E in Hc.
  destruct (count_some upgradeable no_counts (threadCounts this)) as [v Hv];
    [done|rewrite Hc; done|]. fold (myCounts this v) in Hv. unfold upgradeable in Hv.
  assert (u = v) as <- by (apply (rw_cross _ _ _ _ Hf); lia). lia.
Qed.

Lemma waiting_nonneg m : 0 <= waiting m this.
Proof. destruct (rw_waiting _ _ _ _ Hf m) as [<- _]. apply count_nonneg. Qed.

Lemma readers_nonneg : 0 <= readers_ this.
Proof. rewrite <- (rw_readers _ _ _ _ Hf). apply count_nonneg. Qed.

Lemma waiter_counted op k : Monitor.at_place A t = Monitor.Waiting op k -> 1 <= waiting (wants k) this.
Proof.
  intros Hat. destruct (rw_waiting _ _ _ _ Hf (wants k)) as [<- _].
  unfold Monitor.at_place in Hat. destruct (A !! t) as [p|] eqn:E; cbn in Hat; [|done]. subst p.
  pose proof (count_member (waits_for (wants k)) A t _ E) as H. cbn in H. by destruct (wants k).
Qed.

Definition ended (op : Op) (f : Monitor.finish ReaderWriterLockSlim reply) : Prop :=
  match f with
  | Monitor.Finish this' r _ => rw_facts (n + 1) this' (<[t:=Monitor.Outside]> A) (out ++ [(t, op, r)])
  | Monitor.Later this' _ => rw_facts (n + 1) this' (<[t:=Monitor.After op]> A) out
  end.

Lemma waiting_set m k v : waiting m (set_waiting this k v) = if decide (k = m) then v else waiting m this.
Proof. by destruct m, k. Qed.
End Inside.


Section Moves.
Context (n : Z) (this : ReaderWriterLockSlim) (A : gmap nat (Monitor.place Op K)).
Context (out : list (nat * Op * res reply)) (t : nat).
Context (Hf : rw_facts n this A out) (Hn : n < 2 ^ 31 - 1).

#[local] Abbreviation mine := (myCounts this t).
#[local] Abbreviation ended := (ended n A out t).

(** Nobody but [t] holds what excludes its new modes. *)
Lemma others_excluded c : (0 < writer c -> writer mine <= 0 -> forall u, t <> u -> upgrade (myCounts this u) <= 0) ->
  (0 < upgrade c -> upgrade mine <= 0 -> forall u, t <> u -> writer (myCounts this u) <= 0) ->
  (0 < writer c -> 0 < writer mine -> True) ->
  forall u, t <> u -> (0 < writer c -> upgrade (myCounts this u) <= 0) /\
                      (0 < upgrade c -> writer (myCounts this u) <= 0).
Proof.
  intros H1 H2 _ u Htu. split; intros Hc.
  - destruct (Z.le_gt_cases (writer mine) 0) as [Hw|Hw]; [by apply H1|].
    destruct (Z.lt_ge_cases 0 (upgrade (myCounts this u))) as [H|H]; [|lia].
    destruct Htu. apply (rw_cross _ _ _ _ Hf); lia.
  - destruct (Z.le_gt_cases (upgrade mine) 0) as [Hw|Hw]; [by apply H2|].
    destruct (Z.lt_ge_cases 0 (writer (myCounts this u))) as [H|H]; [|lia].
    destruct Htu. symmetry. apply (rw_cross _ _ _ _ Hf); lia.
Qed.

(** A waiter stops being counted: its wait is over. *)
Lemma waiting_less m this' op k p : Monitor.at_place A t = Monitor.Waiting op k -> wants k = m ->
  (forall m', waits_for m' p = false) ->
  (forall m', waiting m' this' = if decide (m = m') then waiting m this - 1 else waiting m' this) ->
  forall m', waiting m' this' =
     waiting m' this - b2z (waits_for m' (Monitor.at_place A t)) + b2z (waits_for m' p) /\
     waiting m' this' <= n + 1.
Proof.
  intros Hat <- Hp Hw m'. rewrite Hw, Hp, Hat. destruct (rw_waiting _ _ _ _ Hf m') as [_ Hm].
  case_decide as Hd; [subst m'|]; cbn.
  - assert (b2z (match wants k, wants k with Read, Read | Write, Write | Upgradeable, Upgradeable => true | _, _ => false end) = 1)
      by (by destruct (wants k)). lia.
  - assert (b2z (match m', wants k with Read, Read | Write, Write | Upgradeable, Upgradeable => true | _, _ => false end) = 0)
      by (by destruct m', (wants k)). lia.
Qed.

Lemma uncount_Finish m this' r : 1 <= waiting m this -> waiting m this' = waiting m this -> exists b,
  uncount m this' r = Monitor.Finish (set_waiting this' m (waiting m this - 1)) r b.
Proof.
  intros H1 E. destruct (rw_waiting _ _ _ _ Hf m) as [_ Hm]. unfold uncount, ssub. rewrite E.
  rewrite schk_Ok by (unfold in_s; cbn in *; lia). by eexists.
Qed.

(** The end of a wait, whatever the thread holds then. *)
Lemma wait_over op k this' c r : Monitor.at_place A t = Monitor.Waiting op k ->
  counts_become t c this this' -> counts_ok (n + 1) c ->
  (forall m, waiting m this' = waiting m this) ->
  readers_ this' = readers_ this - b2z (readerCountsTowardGlobal mine) + b2z (readerCountsTowardGlobal c) ->
  readers_ this' <= n + 1 ->
  b2z (writerActive_ this') = b2z (writerActive_ this) - b2z (writing mine) + b2z (writing c) ->
  b2z (upgradeableActive_ this') =
    b2z (upgradeableActive_ this) - b2z (upgradeable mine) + b2z (upgradeable c) ->
  (writerActive_ this' = true -> readers_ this' = 0) ->
  (forall u, t <> u -> (0 < writer c -> upgrade (myCounts this u) <= 0) /\
                       (0 < upgrade c -> writer (myCounts this u) <= 0)) ->
  rw_result (t, op, r) -> ended op (uncount (wants k) this' r).
Proof.
  intros Hat Hb Hok Ew Er Ebnd Ewr Eup Hex Hcr Hres.
  destruct (uncount_Finish (wants k) this' r) as [b ->]; [by apply (waiter_counted n this A out t Hf op)|done|].
  apply (rw_move n this _ A out [(t, op, r)] t c); try done.
  - destruct Hb as [B1 B2]. by split.
  - apply (waiting_less (wants k) _ op k Monitor.Outside); try done.
    intros m'. rewrite waiting_set, Ew. case_decide; [by subst|done].
  - by constructor.
Qed.

Lemma acquire_ended op k : Monitor.at_place A t = Monitor.Waiting op k -> pred k this = true ->
  ended op (acquire t (wants k) (answer op true) this).
Proof.
  intros Hat Hp. pose proof (rw_inside _ _ _ _ Hf t) as Hi. rewrite Hat in Hi.
  assert (Hw : may_wait k mine) by (destruct op; cbn in Hi; try done; apply Hi).
  assert (Hres : rw_result (t, op, Ok (answer op true))) by (by destruct op).
  destruct (rw_counts _ _ _ _ Hf t) as (H1 & H2 & H3 & H4). pose proof (rw_bound _ _ _ _ Hf) as Hbnd.
  pose proof (readers_nonneg n this A out Hf) as Hr0.
  pose proof (nobody_writes n this A out Hf) as Hnw. pose proof (nobody_upgrades n this A out Hf) as Hnu.
  pose proof (only_upgrader n this A out Hf t) as Hou. pose proof (no_other_writer n this A out Hf t) as How.
  destruct k as [m up tm]. destruct Hw as [Hl Hw]. unfold pred in Hp. cbn [wants upgrading] in *.
  destruct m; cbn [acquire may_lock] in *; unfold acquire_read, acquire_write, acquire_upgrade.
  - apply andb_true_iff in Hp as [Hp1%negb_true_iff Hp2]. unfold sadd.
    rewrite schk_Ok by (unfold in_s; cbn; lia).
    assert (Hfl : readerCountsTowardGlobal mine = false)
      by (destruct (readerCountsTowardGlobal mine); [lia|done]).
    apply (wait_over op _ _ (mkCounts 1 (writer mine) (upgrade mine) true) _ Hat); try done.
    + by apply become_set.
    + do 3 (split; [cbn; lia|]). cbn. lia.
    + cbn. rewrite Hfl. cbn. lia.
    + cbn. lia.
    + cbn. unfold writing. cbn. lia.
    + cbn. unfold upgradeable. cbn. lia.
    + cbn. by rewrite Hp1.
    + apply others_excluded; cbn; [lia|lia|done].
  - unfold sadd. rewrite schk_Ok by (unfold in_s; cbn; lia).
    assert (Hwa : writerActive_ this = false /\ readers_ this = 0 /\
      forall u, t <> u -> upgrade (myCounts this u) <= 0).
    { destruct up.
      - assert (0 < upgrade mine) by lia. split; [apply How; lia|]. split; [lia|]. intros u Hu. by apply Hou.
      - apply andb_true_iff in Hp as [[Hp1%negb_true_iff Hp2]%andb_true_iff Hp3%negb_true_iff].
        split; [done|]. split; [lia|]. intros u _. by apply Hnu. }
    destruct Hwa as (Hwa & Hrd & Hup). unfold set_held.
    apply (wait_over op _ _ (mkCounts (reader mine) (writer mine + 1) (upgrade mine)
      (readerCountsTowardGlobal mine)) _ Hat); try done.
    + by apply become_set.
    + do 3 (split; [cbn; lia|]). cbn. intros Hfl.
      exfalso. pose proof (rw_readers _ _ _ _ Hf) as Hc. rewrite Hrd in Hc.
      pose proof (count_none readerCountsTowardGlobal no_counts _ t eq_refl Hc) as H.
      fold mine in H. congruence.
    + cbn. lia.
    + cbn. lia.
    + cbn. unfold writing. cbn. rewrite Hwa. by destruct Hl as [-> _].
    + cbn. unfold upgradeable. cbn. lia.
    + apply others_excluded; cbn; [done|lia|done].
  - apply andb_true_iff in Hp as [Hp1%negb_true_iff Hp2%negb_true_iff].
    unfold sadd. rewrite schk_Ok by (unfold in_s; cbn; lia). unfold set_held.
    assert (Hfl : readerCountsTowardGlobal mine = false)
      by (destruct (readerCountsTowardGlobal mine); [lia|done]).
    apply (wait_over op _ _ (mkCounts (reader mine) (writer mine) (upgrade mine + 1)
      (readerCountsTowardGlobal mine)) _ Hat); try done.
    + by apply become_set.
    + do 3 (split; [cbn; lia|]). cbn. rewrite Hfl. done.
    + cbn. lia.
    + cbn. lia.
    + cbn. unfold writing. cbn. lia.
    + cbn. unfold upgradeable. cbn. rewrite Hp2. by destruct Hl as [-> _].
    + cbn. by rewrite Hp1.
    + apply others_excluded; cbn; [lia|by auto|done].
Qed.

Lemma expire_ended op k : Monitor.at_place A t = Monitor.Waiting op k ->
  ended op (uncount (wants k) this (Ok (answer op false))).
Proof.
  intros Hat. pose proof (rw_inside _ _ _ _ Hf t) as Hi. rewrite Hat in Hi.
  pose proof (rw_bound _ _ _ _ Hf) as Hb. pose proof (rw_exclusive _ _ _ _ Hf) as Hex.
  apply (wait_over op k this mine); try done; try lia.
  - by apply become_same.
  - apply (counts_ok_mono n); [apply (rw_counts _ _ _ _ Hf)|lia].
  - apply others_excluded; [lia|lia|done].
  - by destruct op.
Qed.

(** Exits that lock. *)
Lemma exit_ended m : Monitor.at_place A t = Monitor.Before (Exit m) -> ended (Exit m) (exit t m this).
Proof.
  intros Hat. pose proof (rw_inside _ _ _ _ Hf t) as Hi. rewrite Hat in Hi. destruct Hi as [Hh Hfl].
  destruct (rw_counts _ _ _ _ Hf t) as (H1 & H2 & H3 & H4). pose proof (rw_bound _ _ _ _ Hf) as Hbnd.
  pose proof (readers_nonneg n this A out Hf) as Hr0.
  pose proof (writer_active n this A out Hf t) as Hwa. pose proof (upgrader_active n this A out Hf t) as Hua.
  pose proof (rw_exclusive _ _ _ _ Hf) as Hex.
  assert (Hw : forall this' p, (forall m', waits_for m' p = false) ->
    (forall m', waiting m' this' = waiting m' this) -> forall m', waiting m' this' =
     waiting m' this - b2z (waits_for m' (Monitor.at_place A t)) + b2z (waits_for m' p) /\
     waiting m' this' <= n + 1).
  { intros this' p Hp E m'. rewrite E, Hp, Hat. destruct (rw_waiting _ _ _ _ Hf m') as [_ ?]. cbn. lia. }
  destruct m; cbn [exit held] in *; unfold exit_read, exit_write, exit_upgrade.
  - unfold ssub. rewrite schk_Ok by (unfold in_s; cbn; lia). specialize (Hfl eq_refl).
    destruct (H4 Hfl) as (_ & Hw0 & Hu0). rewrite <- (app_nil_r out).
    eapply (rw_move n this _ A out [] t); try done; [by apply become_set|..].
    + do 3 (split; [cbn; lia|]). done.
    + cbn. rewrite Hfl. cbn. lia.
    + cbn. lia.
    + cbn. unfold writing. cbn. lia.
    + cbn. unfold upgradeable. cbn. lia.
    + cbn. intros E. specialize (Hex E). pose proof (rw_readers _ _ _ _ Hf) as Hc. rewrite Hex in Hc.
      pose proof (count_none readerCountsTowardGlobal no_counts _ t eq_refl Hc) as H.
      fold mine in H. congruence.
    + apply others_excluded; cbn; [lia|lia|done].
    + by apply Hw.
  - specialize (Hwa ltac:(lia)). rewrite <- (app_nil_r out).
    eapply (rw_move n this _ A out [] t); try done; [by apply become_set|..].
    + do 3 (split; [cbn; lia|]). cbn. intros E. destruct (H4 E). lia.
    + cbn. lia.
    + cbn. lia.
    + cbn. unfold writing. cbn. rewrite Hwa, Hh. done.
    + cbn. unfold upgradeable. cbn. lia.
    + apply others_excluded; cbn; [lia|lia|done].
    + by apply Hw.
  - specialize (Hua ltac:(lia)). rewrite <- (app_nil_r out).
    eapply (rw_move n this _ A out [] t); try done; [by apply become_set|..].
    + do 3 (split; [cbn; lia|]). cbn. intros E. destruct (H4 E). lia.
    + cbn. lia.
    + cbn. lia.
    + cbn. unfold writing. cbn. lia.
    + cbn. unfold upgradeable. cbn. rewrite Hua, Hh. done.
    + apply others_excluded; cbn; [lia|lia|done].
    + by apply Hw.
Qed.
End Moves.

Section Bodies.
Context (n : Z) (this : ReaderWriterLockSlim) (A : gmap nat (Monitor.place Op K)).
Context (out : list (nat * Op * res reply)) (t : nat).
Context (Hf : rw_facts n this A out) (Hn : n < 2 ^ 31 - 1).

#[local] Abbreviation mine := (myCounts this t).

Definition sectioned (op : Op) (x : Monitor.section ReaderWriterLockSlim K reply) : Prop :=
  match x with
  | Monitor.Leave f => ended n A out t op f
  | Monitor.Wait this' k => rw_facts (n + 1) this' (<[t:=Monitor.Waiting op k]> A) out
  end.

(** A waiter starts being counted. *)
Lemma wait_begins op m tm : Monitor.at_place A t = Monitor.Before op ->
  may_wait (mkK m (upgrade mine >? 0) tm) mine ->
  op = Enter m /\ tm = None \/ (exists ms, op = TryEnter m ms) ->
  rw_facts (n + 1) (set_waiting this m (waiting m this + 1))
    (<[t:=Monitor.Waiting op (mkK m (upgrade mine >? 0) tm)]> A) out.
Proof.
  intros Hat Hw Hop. pose proof (rw_bound _ _ _ _ Hf) as Hb. pose proof (rw_exclusive _ _ _ _ Hf) as Hex.
  rewrite <- (app_nil_r out).
  apply (rw_move n this _ A out [] t mine); try done; cbn [set_waiting readers_ writerActive_
    upgradeableActive_]; try done; try lia.
  - by apply become_same.
  - apply (counts_ok_mono n); [apply (rw_counts _ _ _ _ Hf)|lia].
  - destruct Hop as [[-> ->]|[ms ->]]; cbn; tauto.
  - apply (others_excluded n this A out t Hf mine); [lia|lia|done].
  - intros m'. rewrite waiting_set, Hat. destruct (rw_waiting _ _ _ _ Hf m') as [_ Hm].
    case_decide as Hd; [subst m'; destruct m; cbn in *; lia|]. destruct m, m'; try done; cbn in *; lia.
Qed.

Lemma enter_sectioned op m tm answer : Monitor.at_place A t = Monitor.Before op ->
  op = Enter m /\ tm = None \/ (exists ms, op = TryEnter m ms) -> rw_result (t, op, Ok answer) ->
  sectioned op (enter t m tm answer this).
Proof.
  intros Hat Hop Hres. pose proof (rw_inside _ _ _ _ Hf t) as Hi. rewrite Hat in Hi.
  assert (Hl : may_lock m mine) by (by destruct Hop as [[-> _]|[ms ->]]).
  destruct (rw_counts _ _ _ _ Hf t) as (H1 & H2 & H3 & H4).
  destruct (rw_waiting _ _ _ _ Hf m) as [_ Hm]. pose proof (waiting_nonneg n this A out Hf m) as Hm0.
  unfold enter. destruct (match m with Upgradeable => _ | _ => _ end) eqn:Eu.
  - destruct m; try done. cbn in Hl. destruct Hl as [Hu _]. assert (Hw : 0 < writer mine) by lia.
    pose proof (no_other_upgrader n this A out Hf t Hw Hu) as Hua.
    pose proof (only_writer n this A out Hf t) as How. pose proof (nobody_upgrades n this A out Hf) as Hnu.
    pose proof (rw_bound _ _ _ _ Hf) as Hb. pose proof (rw_exclusive _ _ _ _ Hf) as Hex.
    unfold sadd. rewrite schk_Ok by (unfold in_s; cbn; lia).
    eapply (rw_move n this _ A out [(t, op, Ok answer)] t); try done; [by apply become_set|..].
    + do 3 (split; [cbn; lia|]). cbn. intros E. destruct (H4 E). lia.
    + cbn. lia.
    + cbn. lia.
    + cbn. unfold writing. cbn. lia.
    + cbn. unfold upgradeable. cbn. by rewrite Hua, Hu.
    + apply (others_excluded n this A out t Hf); cbn; [intros; by apply Hnu|intros; by apply How|done].
    + intros m'. destruct (rw_waiting _ _ _ _ Hf m') as [_ ?]. rewrite Hat. by destruct m'; cbn in *; lia.
    + by constructor.
  - unfold sadd. rewrite schk_Ok by (unfold in_s; cbn in *; lia). apply wait_begins; [done| |done].
    split; [done|]. destruct m; cbn in *; lia || done.
Qed.

Lemma rw_sectioned op : Monitor.at_place A t = Monitor.Before op -> sectioned op (body t op this).
Proof.
  intros Hat. pose proof (rw_inside _ _ _ _ Hf t) as Hi. rewrite Hat in Hi.
  assert (Hsame : forall p xs, (forall m, waits_for m p = false) -> inside mine p -> Forall rw_result xs ->
    rw_facts (n + 1) this (<[t:=p]> A) (out ++ xs)).
  { intros p xs Hp Hin Hxs. apply (rw_local n this this A out xs t mine p); try done.
    - by apply become_same.
    - apply (counts_ok_mono n); [apply (rw_counts _ _ _ _ Hf)|lia].
    - by eapply outside_waits. }
  destruct op as [m|m ms|m| |m]; cbn [body].
  - by apply enter_sectioned; [|left|].
  - apply enter_sectioned; [done|right; by exists ms|done].
  - by apply exit_ended.
  - destruct (_ || _); cbn [sectioned ended].
    + apply Hsame; [done..|]. by constructor.
    + rewrite <- (app_nil_r out). by apply Hsame.
  - done.
Qed.
End Bodies.

Lemma rw_next n this A out :
  (Z.of_nat (n + 1) < 2 ^ 31 -> rw_facts (Z.of_nat n + 1) this A out) -> rw_inv (n + 1)%nat this A out.
Proof. intros H Hn. replace (Z.of_nat (n + 1)) with (Z.of_nat n + 1) by lia. by apply H. Qed.

#[export] Instance rw_preserved : Monitor.Preserved rw_inv.
Proof.
  split.
  - intros n m this A out Hinv Hnm Hm. destruct (Hinv ltac:(lia)) as [Hc Hi Hr Hw Hu Hex Hcr Hwait Hb Ho].
    split; try done; [|intros k; destruct (Hwait k); lia|lia].
    intros t. apply (counts_ok_mono (Z.of_nat n)); [done|lia].
  - intros n t op this A out Hinv Hat Ht. cbn [Monitor.begin program].
    assert (Hb : Z.of_nat (n + 1) < 2 ^ 31 -> begun (Z.of_nat n) A out t op (begin t op this)).
    { intros Hn. apply rw_begun; [apply Hinv|..]; try done; lia. }
    destruct (begin t op this) as [this' [r|op']]; by apply rw_next.
  - intros n t op this A out Hinv Hat. cbn [Monitor.body program].
    assert (Hb : Z.of_nat (n + 1) < 2 ^ 31 -> sectioned (Z.of_nat n) A out t op (body t op this)).
    { intros Hn. apply rw_sectioned; [apply Hinv|..]; try done; lia. }
    destruct (body t op this) as [[]|]; by apply rw_next.
  - intros n t op k this A out Hinv Hat Hk. cbn [Monitor.resume Monitor.pred program] in *.
    assert (Hb : Z.of_nat (n + 1) < 2 ^ 31 ->
      ended (Z.of_nat n) A out t op (acquire t (wants k) (answer op true) this)).
    { intros Hn. apply acquire_ended; [apply Hinv|..]; try done; lia. }
    destruct (acquire _ _ _ _); by apply rw_next.
  - intros n t op k this A out Hinv Hat _ _. cbn [Monitor.expire program].
    assert (Hb : Z.of_nat (n + 1) < 2 ^ 31 ->
      ended (Z.of_nat n) A out t op (uncount (wants k) this (Ok (answer op false)))).
    { intros Hn. apply expire_ended; [apply Hinv|..]; try done; lia. }
    destruct (uncount _ _ _); by apply rw_next.
  - intros n t op this A out Hinv Hat Hn. assert (Hf : rw_facts (Z.of_nat n) this A out) by (apply Hinv; lia).
    replace (Z.of_nat (n + 1)) with (Z.of_nat n + 1) in * by lia.
    pose proof (rw_inside _ _ _ _ Hf t) as Hi. rewrite Hat in Hi. cbn [Monitor.epilogue program].
    assert (Hsame : forall this' r, threadCounts this' = threadCounts this ->
      readers_ this' = readers_ this -> writerActive_ this' = writerActive_ this ->
      upgradeableActive_ this' = upgradeableActive_ this -> (forall m, waiting m this' = waiting m this) ->
      rw_result (t, op, r) -> rw_facts (Z.of_nat n + 1) this' (<[t:=Monitor.Outside]> A) (out ++ [(t, op, r)])).
    { intros this' r Ec Er Ew Eu Ewait Hr.
      apply (rw_local _ this this' A out _ t (myCounts this t)); try done.
      - by apply become_same.
      - apply (counts_ok_mono (Z.of_nat n)); [apply (rw_counts _ _ _ _ Hf)|lia].
      - by eapply outside_waits.
      - by constructor. }
    destruct op as [m|m ms|m| |m]; try done; cbn [fst snd]; [by apply Hsame|].
    unfold dispose. destruct (_ || _ || _); cbn [fst snd]; apply Hsame; done.
Qed.

(** ** The account of a thread

    What a thread holds by the answers its calls have been given, without the counts of
    the lock: how often it has entered each mode and not exited it, and whether it
    took its read lock while it held another mode. *)

Record account := mkAccount { reads : Z; writes : Z; upgrades : Z; nested : bool }.

Definition taken (m : mode) (a : account) : Z :=
  match m with Read => reads a | Write => writes a | Upgradeable => upgrades a end.

Definition entered (m : mode) (a : account) : account :=
  match m with
  | Read => mkAccount (reads a + 1) (writes a) (upgrades a)
      (if reads a =? 0 then (0 <? writes a) || (0 <? upgrades a) else nested a)
  | Write => mkAccount (reads a) (writes a + 1) (upgrades a) (nested a)
  | Upgradeable => mkAccount (reads a) (writes a) (upgrades a + 1) (nested a)
  end.

Definition exited (m : mode) (a : account) : account :=
  match m with
  | Read => mkAccount (reads a - 1) (writes a) (upgrades a) (nested a)
  | Write => mkAccount (reads a) (writes a - 1) (upgrades a) (nested a)
  | Upgradeable => mkAccount (reads a) (writes a) (upgrades a - 1) (nested a)
  end.

Definition note (op : Op) (r : res reply) (a : account) : account :=
  match op, r with
  | Enter m, Ok Unit | TryEnter m _, Ok (Bool true) => entered m a
  | Exit m, Ok Unit => exited m a
  | _, _ => a
  end.

Definition account_of (t : nat) (out : list (nat * Op * res reply)) : account :=
  foldl (fun a '(u, op, r) => if decide (u = t) then note op r a else a) (mkAccount 0 0 0 false) out.

(** An exit that has yet to notify has given its mode up. *)
Definition settled (p : Monitor.place Op K) (a : account) : account :=
  match p with Monitor.After (Exit m) => exited m a | _ => a end.

Definition booked (c : ThreadCounts) (a : account) : Prop :=
  (forall m, taken m a = held m c) /\ (0 < reader c -> readerCountsTowardGlobal c = negb (nested a)).

Definition books (this : ReaderWriterLockSlim) (A : gmap nat (Monitor.place Op K))
    (out : list (nat * Op * res reply)) : Prop :=
  forall t, booked (myCounts this t) (settled (Monitor.at_place A t) (account_of t out)).

Definition rw_booked : Monitor.invariant := fun n this A out =>
  rw_inv n this A out /\ (Z.of_nat n < 2 ^ 31 -> books this A out).

Lemma account_snoc t out u op r : account_of t (out ++ [(u, op, r)]) =
  if decide (u = t) then note op r (account_of t out) else account_of t out.
Proof. unfold account_of. by rewrite foldl_snoc. Qed.

(** A move of thread [t] touches no other account. *)
Lemma books_move this this' A out t p : books this A out ->
  (forall u, t <> u -> myCounts this' u = myCounts this u) ->
  booked (myCounts this' t) (settled p (account_of t out)) -> books this' (<[t:=p]> A) out.
Proof.
  intros Hb Hu Ht u. rewrite at_place_set. case_decide as E; [by subst u|]. rewrite Hu by done. apply Hb.
Qed.

Lemma books_answer this this' A out t p op r : books this A out ->
  (forall u, t <> u -> myCounts this' u = myCounts this u) ->
  booked (myCounts this' t) (settled p (note op r (account_of t out))) ->
  books this' (<[t:=p]> A) (out ++ [(t, op, r)]).
Proof.
  intros Hb Hu Ht u. rewrite at_place_set, account_snoc. case_decide as E.
  - by subst u.
  - rewrite Hu by done. apply Hb.
Qed.

Lemma books_still this A out t : books this (<[t:=Monitor.Outside]> A) out ->
  Monitor.at_place A t = Monitor.Outside -> books this A out.
Proof.
  intros Hb Hat u. specialize (Hb u). rewrite at_place_set in Hb.
  case_decide; [subst u; by rewrite Hat|done].
Qed.

Lemma counts_elsewhere t u this this' c : threadCounts this' = threadCounts this -> t <> u ->
  myCounts (set_counts this' t c) u = myCounts this u.
Proof. intros E Hu. unfold myCounts. cbn. by rewrite E, lookup_insert_ne. Qed.

Lemma myCounts_set this t c : myCounts (set_counts this t c) t = c.
Proof. unfold myCounts. cbn. by rewrite lookup_insert_eq. Qed.

(** Entering and exiting a mode in the counts and in the account. *)
Lemma booked_entered m c a : booked c a -> (m = Read -> 0 < reader c) ->
  booked (set_held m c (held m c + 1)) (entered m a).
Proof.
  intros [Hm Hn] Hr. pose proof (Hm Read) as H1. pose proof (Hm Write) as H2. pose proof (Hm Upgradeable) as H3.
  cbn in H1, H2, H3. split; [intros []; destruct m; cbn; lia|].
  destruct m; cbn; intros H; [|by apply Hn..]. specialize (Hr eq_refl).
  replace (reads a =? 0) with false by lia. by apply Hn.
Qed.

Lemma booked_first_read c a fl : booked c a -> reader c = 0 -> 0 <= writer c -> 0 <= upgrade c ->
  fl = negb ((writer c >? 0) || (upgrade c >? 0)) ->
  booked (mkCounts 1 (writer c) (upgrade c) fl) (entered Read a).
Proof.
  intros [Hm Hn] Hr Hw Hu ->. pose proof (Hm Read) as H1. pose proof (Hm Write) as H2.
  pose proof (Hm Upgradeable) as H3. cbn in H1, H2, H3. split; [intros []; cbn; lia|].
  intros _. cbn. replace (reads a =? 0) with true by lia. by rewrite H2, H3, !Z.gtb_ltb.
Qed.

Lemma booked_exited m c a : booked c a -> booked (set_held m c (held m c - 1)) (exited m a).
Proof.
  intros [Hm Hn]. pose proof (Hm Read) as H1. pose proof (Hm Write) as H2. pose proof (Hm Upgradeable) as H3.
  cbn in H1, H2, H3. split; [intros []; destruct m; cbn; lia|].
  destruct m; cbn; intros H; apply Hn; lia.
Qed.

Section Books.
Context (n : Z) (this : ReaderWriterLockSlim) (A : gmap nat (Monitor.place Op K)).
Context (out : list (nat * Op * res reply)) (t : nat).
Context (Hf : rw_facts n this A out) (Hb : books this A out).

#[local] Abbreviation mine := (myCounts this t).

(** The call returns [r] before it locks. *)
Lemma return_books this' op r : Monitor.at_place A t = Monitor.Outside ->
  (forall u, t <> u -> myCounts this' u = myCounts this u) ->
  booked (myCounts this' t) (note op r (account_of t out)) -> books this' A (out ++ [(t, op, r)]).
Proof. intros Hat Hu Ht. apply (books_still _ _ _ t); [|done]. by apply (books_answer this). Qed.

Lemma my_books : (forall m, Monitor.at_place A t <> Monitor.After (Exit m)) ->
  booked mine (account_of t out).
Proof.
  intros Hp. specialize (Hb t). destruct (Monitor.at_place A t) as [| | |o]; try done. destruct o; try done. by destruct (Hp m).
Qed.

(** A call that enters [m] and is answered. *)
Definition entering (m : mode) (op : Op) (r : reply) : Prop :=
  op = Enter m /\ r = Unit \/ exists ms, op = TryEnter m ms /\ r = Bool true.

Lemma note_entering m op r a : entering m op r -> note op (Ok r) a = entered m a.
Proof. by intros [[-> ->]|(ms & -> & ->)]. Qed.

Lemma note_Throw op e a : note op (Throw e) a = a.
Proof. by destruct op. Qed.

Lemma begin_enter_books m op r : Monitor.at_place A t = Monitor.Outside -> entering m op r ->
  match begin_enter t m op this r with
  | (this', Monitor.Return r) => Forall rw_result (out ++ [(t, op, r)]) -> books this' A (out ++ [(t, op, r)])
  | (this', Monitor.Proceed op') => op' = op /\ this' = this
  end.
Proof.
  intros Hat Hop. pose proof (my_books ltac:(by rewrite Hat)) as Hm.
  destruct (rw_counts _ _ _ _ Hf t) as (H1 & H2 & H3 & _).
  assert (Hrefuse : forall msg, match refuse this msg with
    | (this', Monitor.Return r) => Forall rw_result (out ++ [(t, op, r)]) -> books this' A (out ++ [(t, op, r)])
    | (this', Monitor.Proceed op') => op' = op /\ this' = this end).
  { intros msg _. apply return_books; [done..|]. by rewrite note_Throw. }
  unfold begin_enter. destruct (held m mine >? 0) eqn:E.
  - destruct (negb _); [apply Hrefuse|]. unfold recurse, sadd, schk. destruct (in_sb _ _).
    + intros _. apply return_books; [done|intros; by apply counts_elsewhere|].
      rewrite myCounts_set, (note_entering m) by done. apply booked_entered; [done|]. intros ->. cbn in *. lia.
    + intros Hr. apply Forall_app in Hr as [_ Hr]. apply Forall_inv in Hr. by destruct Hop as [[-> _]|(ms & -> & _)].
  - destruct m; cbn in E; unfold begin_read, begin_write, begin_upgrade.
    + destruct (negb _ && _); [apply Hrefuse|]. destruct (_ || _) eqn:Eo; [|done].
      intros _. apply return_books; [done|intros; by apply counts_elsewhere|].
      rewrite myCounts_set, (note_entering Read) by done. apply booked_first_read; [done|lia|lia|lia|by rewrite Eo].
    + destruct (negb _ && _); [apply Hrefuse|done].
    + destruct (writer mine >? 0); [destruct (isReentrant this)|destruct (reader mine >? 0)];
        done || apply Hrefuse.
Qed.

Lemma begin_books op : Monitor.at_place A t = Monitor.Outside ->
  match begin t op this with
  | (this', Monitor.Return r) => Forall rw_result (out ++ [(t, op, r)]) -> books this' A (out ++ [(t, op, r)])
  | (this', Monitor.Proceed op') => op' = op /\ this' = this
  end.
Proof.
  intros Hat. pose proof (my_books ltac:(by rewrite Hat)) as Hm.
  assert (Hthrow : forall r, (exists e, r = Throw e) \/ (exists b, op = IsHeld b) ->
    Forall rw_result (out ++ [(t, op, r)]) -> books this A (out ++ [(t, op, r)])).
  { intros r Hr _. apply return_books; [done..|]. by destruct Hr as [[e ->]|[b ->]]; [rewrite note_Throw|]. }
  assert (HUB : forall m, op = Enter m \/ (exists ms, op = TryEnter m ms) -> Forall rw_result (out ++ [(t, op, UB)]) -> False).
  { intros m Hop [_ Hr]%Forall_app. apply Forall_inv in Hr. by destruct Hop as [->|[ms ->]]. }
  destruct op as [m|m ms|m| |m]; cbn [begin].
  - destruct (throwIfDisposed this); [apply begin_enter_books; [done|by left]|eauto|].
    intros Hr. edestruct HUB; [by left|done].
  - destruct (bind _ _); [apply begin_enter_books; [done|right; by exists ms]|eauto|].
    intros Hr. edestruct HUB; [right; by exists ms|done].
  - unfold begin_exit. destruct (held m mine <? 1); [eauto|].
    destruct (match m with Read => _ | _ => _ end); [done|]. intros _.
    apply return_books; [done|intros; by apply counts_elsewhere|].
    rewrite myCounts_set. by apply booked_exited.
  - done.
  - eauto.
Qed.

(** The end of a call, with the counts of its thread. *)
Definition closes (op : Op) (f : Monitor.finish ReaderWriterLockSlim reply) : Prop :=
  match f with
  | Monitor.Finish this' r _ => Forall rw_result (out ++ [(t, op, r)]) ->
      books this' (<[t:=Monitor.Outside]> A) (out ++ [(t, op, r)])
  | Monitor.Later this' _ => books this' (<[t:=Monitor.After op]> A) out
  end.

Lemma closes_UB op this' b : closes op (Monitor.Finish this' UB b).
Proof. intros [_ Hr]%Forall_app. apply Forall_inv in Hr. by destruct op. Qed.

Lemma uncount_closes op m this' r : (forall u, t <> u -> myCounts this' u = myCounts this u) ->
  booked (myCounts this' t) (note op r (account_of t out)) -> closes op (uncount m this' r).
Proof.
  intros Hu Ht. unfold uncount. destruct (ssub _ _ _); [|apply closes_UB..].
  intros _. by apply (books_answer this).
Qed.

Lemma acquire_closes m op k : Monitor.at_place A t = Monitor.Waiting op k -> wants k = m ->
  closes op (acquire t m (answer op true) this).
Proof.
  intros Hat Hk. pose proof (my_books ltac:(by rewrite Hat)) as Hm.
  destruct (rw_counts _ _ _ _ Hf t) as (H1 & H2 & H3 & _).
  pose proof (rw_inside _ _ _ _ Hf t) as Hi. rewrite Hat in Hi.
  assert (Hop : entering m op (answer op true) /\ may_lock m mine).
  { destruct op as [o|o ms| | |]; cbn in Hi; try done; destruct Hi as (<- & Hw); rewrite Hk in *;
      (split; [|unfold may_wait in Hw; rewrite Hk in Hw; tauto]); [by left|right; by exists ms]. }
  destruct Hop as [Hop Hl].
  destruct m; cbn [acquire may_lock] in *; unfold acquire_read, acquire_write, acquire_upgrade;
    match goal with |- context [sadd 32 ?x 1] => unfold sadd, schk; destruct (in_sb 32 (x + 1)) end;
    try apply closes_UB; (apply uncount_closes; [intros; by apply counts_elsewhere|]);
    rewrite myCounts_set, (note_entering _ _ _ _ Hop).
  - destruct Hl as (? & Hw & Hu). apply booked_first_read; [done|done|lia|lia|by rewrite Hw, Hu].
  - by apply (booked_entered Write).
  - by apply (booked_entered Upgradeable).
Qed.

Lemma body_books op : Monitor.at_place A t = Monitor.Before op ->
  match body t op this with
  | Monitor.Leave f => closes op f
  | Monitor.Wait this' k => books this' (<[t:=Monitor.Waiting op k]> A) out
  end.
Proof.
  intros Hat. pose proof (my_books ltac:(by rewrite Hat)) as Hm.
  pose proof (rw_inside _ _ _ _ Hf t) as Hi. rewrite Hat in Hi.
  assert (He : forall m tm a, entering m op a -> match enter t m tm a this with
    | Monitor.Leave f => closes op f
    | Monitor.Wait this' k => books this' (<[t:=Monitor.Waiting op k]> A) out
    end).
  { intros m tm a Hop. unfold enter. destruct (match m with Upgradeable => _ | _ => _ end) eqn:E.
    - destruct m; try done. unfold sadd, schk. destruct (in_sb _ _); [|apply closes_UB].
      intros _. apply (books_answer this); [done|intros; by apply counts_elsewhere|].
      rewrite myCounts_set, (note_entering Upgradeable) by done. by apply (booked_entered Upgradeable).
    - destruct (sadd _ _ _); [|apply closes_UB..]. by apply (books_move this). }
  destruct op as [m|m ms|m| |m]; cbn [body].
  - apply He. by left.
  - apply He. right. by exists ms.
  - destruct Hi as [Hh _].
    destruct m; cbn [exit]; unfold exit_read, exit_write, exit_upgrade.
    + destruct (ssub _ _ _); [|apply closes_UB..].
      apply (books_move this); [done|intros; by apply counts_elsewhere|]. rewrite myCounts_set.
      destruct (booked_exited Read _ _ Hm) as [Hx _]. split; [by intros []; apply Hx|]. cbn in *. lia.
    + apply (books_move this); [done|intros; by apply counts_elsewhere|]. rewrite myCounts_set. by apply (booked_exited Write).
    + apply (books_move this); [done|intros; by apply counts_elsewhere|]. rewrite myCounts_set. by apply (booked_exited Upgradeable).
  - destruct (_ || _); cbn.
    + intros _. by apply (books_answer this).
    + by apply (books_move this).
  - done.
Qed.
End Books.

#[export] Instance rw_books_preserved : Monitor.Preserved rw_booked.
Proof.
  split.
  - intros n m this A out [Hf Hb] Hnm. split; [by eapply Monitor.inv_mono|]. intros Hm. apply Hb. lia.
  - intros n t op this A out [Hf Hb] Hat Ht.
    pose proof (Monitor.inv_call n t op this A out Hf Hat Ht) as Hf'. cbn [Monitor.begin program] in *.
    assert (Hs : Z.of_nat (n + 1) < 2 ^ 31 -> _) by
      (intros Hn; exact (begin_books _ this A out t (Hf ltac:(lia)) (Hb ltac:(lia)) op Hat)).
    destruct (begin t op this) as [this' [r|op']]; split; try done; intros Hn.
    + apply Hs; [done|]. apply (rw_results _ _ _ _ (Hf' Hn)).
    + destruct (Hs Hn) as [-> ->]. apply (books_move this); [apply Hb; lia|done|].
      specialize (Hb ltac:(lia) t). by rewrite Hat in Hb.
  - intros n t op this A out [Hf Hb] Hat.
    pose proof (Monitor.inv_body n t op this A out Hf Hat) as Hf'. cbn [Monitor.body program] in *.
    assert (Hs : Z.of_nat (n + 1) < 2 ^ 31 -> _) by
      (intros Hn; exact (body_books _ this A out t (Hf ltac:(lia)) (Hb ltac:(lia)) op Hat)).
    destruct (body t op this) as [[]|]; split; try done; intros Hn; apply Hs; try done.
    apply (rw_results _ _ _ _ (Hf' Hn)).
  - intros n t op k this A out [Hf Hb] Hat Hk.
    pose proof (Monitor.inv_resume n t op k this A out Hf Hat Hk) as Hf'. cbn [Monitor.resume program] in *.
    assert (Hs : Z.of_nat (n + 1) < 2 ^ 31 -> _) by
      (intros Hn; exact (acquire_closes _ this A out t (Hf ltac:(lia)) (Hb ltac:(lia)) _ op k Hat eq_refl)).
    destruct (acquire _ _ _ _); split; try done; intros Hn; apply Hs; try done.
    apply (rw_results _ _ _ _ (Hf' Hn)).
  - intros n t op k this A out [Hf Hb] Hat Hk Hti.
    pose proof (Monitor.inv_expire n t op k this A out Hf Hat Hk Hti) as Hf'. cbn [Monitor.expire program] in *.
    assert (Hs : Z.of_nat (n + 1) < 2 ^ 31 -> closes A out t op (uncount (wants k) this (Ok (answer op false)))).
    { intros Hn. assert (Hf0 := Hf ltac:(lia)). assert (Hb0 := Hb ltac:(lia)).
      apply (uncount_closes _ _ _ _ Hb0); [done|]. pose proof (my_books _ _ _ t Hb0 ltac:(by rewrite Hat)) as Hm.
      pose proof (rw_inside _ _ _ _ Hf0 t) as Hi. rewrite Hat in Hi.
      destruct op; try done. cbn in Hi, Hti. destruct Hi as (_ & E & _). by rewrite E in Hti. }
    destruct (uncount _ _ _); split; try done; intros Hn; apply Hs; try done.
    apply (rw_results _ _ _ _ (Hf' Hn)).
  - intros n t op this A out [Hf Hb] Hat.
    pose proof (Monitor.inv_epilogue n t op this A out Hf Hat) as Hf'. split; [done|]. intros Hn.
    assert (Hb0 := Hb ltac:(lia)). pose proof (rw_inside _ _ _ _ (Hf ltac:(lia)) t) as Hi. rewrite Hat in Hi.
    pose proof (Hb0 t) as Hm. rewrite Hat in Hm. cbn [Monitor.epilogue program].
    destruct op as [m|m ms|m| |m]; try done; cbn [fst snd].
    + by apply (books_answer this).
    + unfold dispose. destruct (_ || _ || _); by apply (books_answer this).
Qed.

(** Counts of readers and waiters are not negative. *)
Definition rw_sound (_ : Op) (this : ReaderWriterLockSlim) : Prop :=
  0 <= readers_ this /\ 0 <= waitingWriters_ this.

Lemma rw_quiet (s s' : ReaderWriterLockSlim) : (readers_ s' = 0 -> readers_ s = 0) ->
  (writerActive_ s' = false -> writerActive_ s = false) ->
  (upgradeableActive_ s' = false -> upgradeableActive_ s = false) ->
  (waitingWriters_ s' = 0 -> waitingWriters_ s = 0) -> Monitor.quiet s s'.
Proof.
  intros Er Ew Eu Ewt [m up tm]. cbn. unfold pred. cbn [wants upgrading].
  destruct m, up; rewrite ?andb_true_iff, ?negb_true_iff, ?Z.eqb_eq; tauto.
Qed.

(** Only the counts of the calling thread change before the lock. *)
Lemma begin_shared t op s : let s' := (begin t op s).1 in
  readers_ s' = readers_ s /\ writerActive_ s' = writerActive_ s /\
  upgradeableActive_ s' = upgradeableActive_ s /\ waitingWriters_ s' = waitingWriters_ s.
Proof.
  assert (He : forall m o a, let s' := (begin_enter t m o s a).1 in
    readers_ s' = readers_ s /\ writerActive_ s' = writerActive_ s /\
    upgradeableActive_ s' = upgradeableActive_ s /\ waitingWriters_ s' = waitingWriters_ s).
  { intros m o a. unfold begin_enter, begin_read, begin_write, begin_upgrade, refuse, recurse. repeat case_match; done. }
  destruct op as [m|m ms|m| |m]; cbn [begin]; try done.
  - by destruct (throwIfDisposed s).
  - by destruct (bind _ _).
  - unfold begin_exit. repeat case_match; done.
Qed.

Lemma uncount_announced op m s s' r : rw_sound op s -> waiting m s' = waiting m s ->
  (readers_ s' = 0 -> readers_ s = 0) ->
  (writerActive_ s' = false -> writerActive_ s = false) ->
  (upgradeableActive_ s' = false -> upgradeableActive_ s = false) ->
  waitingWriters_ s' = waitingWriters_ s -> Monitor.announced op s (uncount m s' r).
Proof.
  intros [H1 H2] Em Er Ew Eu Ewt. unfold uncount, ssub, schk.
  destruct (in_sb 32 _); [|right; apply rw_quiet; rewrite ?Ewt; done]. cbn [Monitor.announced].
  destruct m; [right; apply rw_quiet; cbn; rewrite ?Ewt; done| |right; apply rw_quiet; cbn; rewrite ?Ewt; done].
  destruct (waiting Write s' - 1 =? 0) eqn:E; [by left|]. right. apply rw_quiet; cbn; try done. cbn in *. lia.
Qed.

Lemma acquire_announced t op m a s : rw_sound op s -> Monitor.announced op s (acquire t m a s).
Proof.
  intros Hs. assert (Hself : Monitor.quiet s s) by (by apply rw_quiet). destruct (id Hs) as [H1 H2].
  destruct m; cbn [acquire]; unfold acquire_read, acquire_write, acquire_upgrade, sadd, schk; destruct (in_sb 32 _); try (by right);
    apply uncount_announced; try done. cbn. lia.
Qed.

Lemma body_rw_announced t op s : rw_sound op s ->
  match body t op s with
  | Monitor.Leave f => Monitor.announced op s f
  | Monitor.Wait s' _ => Monitor.quiet s s' /\ rw_sound op s'
  end.
Proof.
  intros Hs. assert (Hself : Monitor.quiet s s) by (by apply rw_quiet). destruct (id Hs) as [H1 H2].
  assert (He : forall m tm a, match enter t m tm a s with
    | Monitor.Leave f => Monitor.announced op s f
    | Monitor.Wait s' _ => Monitor.quiet s s' /\ rw_sound op s'
    end).
  { intros m tm a. unfold enter. destruct (match m with Upgradeable => _ | _ => _ end).
    - unfold sadd, schk. destruct (in_sb 32 _); [|by right]. right. by apply rw_quiet.
    - unfold sadd, schk. destruct (in_sb 32 _); [|by right].
      split; [apply rw_quiet|split]; destruct m; cbn; try done; lia. }
  destruct op as [m|m ms|m| |m]; cbn [body]; [apply He|apply He| | |by right].
  - destruct m; cbn [exit]; unfold exit_read, exit_write, exit_upgrade, ssub, schk; try (destruct (in_sb 32 _)); cbn; auto.
  - destruct (_ || _); cbn; auto.
Qed.

#[export] Instance rw_announces : Monitor.Announces rw_sound.
Proof.
  split.
  - intros t op s. destruct (begin_shared t op s) as (E1 & E2 & E3 & E4).
    apply rw_quiet; cbn [Monitor.begin program]; congruence.
  - apply body_rw_announced.
  - intros t op k s Hs _. by apply acquire_announced.
  - intros t op k s Hs _. by apply uncount_announced.
  - intros t op s. destruct op as [m|m ms|m| |m]; cbn; auto; try (right; by apply rw_quiet).
    right. unfold dispose. destruct (_ || _ || _); by apply rw_quiet.
Qed.

(** ** Every execution *)

Section Reachable.
Context (policy : Z).

Lemma construct_counts t : myCounts (construct policy) t = no_counts.
Proof. done. Qed.

Lemma rw_start : rw_inv 0%nat (construct policy) ∅ [].
Proof.
  intros _. split; try done.
  intros m. rewrite count_empty. by destruct m.
Qed.

Lemma rw_reached tr c : Monitor.exec (Monitor.fresh (construct policy)) tr c ->
  Z.of_nat (length tr) < 2 ^ 30 ->
  rw_facts (Z.of_nat (2 * length tr)) (Monitor.shared c) (Monitor.places c) (Monitor.returned tr).
Proof.
  intros Hx Hl. apply (Monitor.exec_holds rw_inv (Monitor.fresh (construct policy)) tr c);
    [apply Monitor.fresh_idle|apply rw_start|exact Hx|cbn in *; lia].
Qed.

Lemma rw_books_reached tr c : Monitor.exec (Monitor.fresh (construct policy)) tr c ->
  Z.of_nat (length tr) < 2 ^ 30 -> books (Monitor.shared c) (Monitor.places c) (Monitor.returned tr).
Proof.
  intros Hx Hl. apply (Monitor.exec_holds rw_booked (Monitor.fresh (construct policy)) tr c);
    [apply Monitor.fresh_idle| |exact Hx|cbn in *; lia].
  split; [apply rw_start|]. by intros _ t; split; [intros []|].
Qed.
End Reachable.

(** What an answer says of the thread's own modes. *)
Definition rw_told (t : nat) (op : Op) (r : res reply) (this : ReaderWriterLockSlim) : Prop :=
  match op, r with
  | Enter m, Ok Unit | TryEnter m _, Ok (Bool true) => 0 < held m (myCounts this t)
  | IsHeld m, Ok (Bool b) => b = (held m (myCounts this t) >? 0)
  | _, _ => True
  end.


Lemma myCounts_waiting this m n t : myCounts (set_waiting this m n) t = myCounts this t.
Proof. done. Qed.

Lemma uncount_told t op m this r : rw_told t op r this ->
  Monitor.finish_told rw_told t op (uncount m this r).
Proof.
  intros H. unfold uncount. destruct (ssub _ _ _); [|by destruct op..].
  destruct op; cbn in *; try done.
Qed.

(** [op] enters the mode [m]. *)
Definition enters (op : Op) (m : mode) : Prop := op = Enter m \/ exists ms, op = TryEnter m ms.

Lemma acquire_told t op m this : may_lock m (myCounts this t) -> enters op m ->
  Monitor.finish_told rw_told t op (acquire t m (answer op true) this).
Proof.
  intros Hl Hop. unfold acquire, acquire_read, acquire_write, acquire_upgrade.
  destruct m; cbn [may_lock] in Hl; unfold sadd, schk;
    (destruct (in_sb 32 _); [|by destruct Hop as [->|[ms ->]]]); apply uncount_told;
    destruct Hop as [->|[ms ->]]; cbn [rw_told answer]; rewrite myCounts_set; cbn; lia.
Qed.

Lemma waiting_inside c op k : inside c (Monitor.Waiting op k) -> may_lock (wants k) c /\ enters op (wants k).
Proof.
  unfold enters. destruct op as [m|m ms| | |]; cbn; try done.
  - intros (<- & _ & [? _]). auto.
  - intros (<- & [? _]). eauto.
Qed.

Lemma enter_waits t m tm a s s' k : enter t m tm a s = Monitor.Wait s' k ->
  wants k = m /\ myCounts s' t = myCounts s t.
Proof.
  unfold enter. destruct (match m with Upgradeable => _ | _ => _ end); [done|].
  unfold sadd, schk. destruct (in_sb 32 _); [|done]. by intros [= <- <-].
Qed.

Lemma begin_enter_told t m op a s s' r : op = Enter m /\ a = Unit \/ (exists ms, op = TryEnter m ms /\ a = Bool true) ->
  begin_enter t m op s a = (s', Monitor.Return r) -> rw_told t op r s'.
Proof.
  intros Hop. unfold begin_enter, begin_read, begin_write, begin_upgrade, refuse. destruct (held m (myCounts s t) >? 0) eqn:Eh.
  - destruct (negb (isReentrant s)); [intros [= <- <-]; by destruct Hop as [[-> _]|(ms & -> & _)]|].
    unfold recurse, sadd, schk. destruct (in_sb 32 _); intros [= <- <-];
      destruct Hop as [[-> ->]|(ms & -> & ->)]; cbn; try done;
      rewrite myCounts_set; destruct m; cbn in *; lia.
  - destruct m; repeat case_match; intros [= <- <-]; destruct Hop as [[-> ->]|(ms & -> & ->)]; try done;
      cbn; rewrite myCounts_set; cbn; lia.
Qed.

#[export] Instance rw_truthful :
  Monitor.Truthful (fun s t p => inside (myCounts s t) p) rw_told.
Proof.
  split.
  - intros t op s s' r. destruct op as [m|m ms|m| |m]; cbn [Monitor.begin program begin].
    + destruct (throwIfDisposed s); [|intros [= <- <-]; done..].
      apply begin_enter_told. by left.
    + destruct (bind _ _); [|intros [= <- <-]; done..].
      apply begin_enter_told. right. by exists ms.
    + intros _. done.
    + done.
    + intros [= <- <-]. done.
  - intros t op s f Hi. cbn [Monitor.body program]. destruct op as [m|m ms|m| |m]; cbn [body]; [| |intros [= <-]..].
    + unfold enter. destruct (match m with Upgradeable => _ | _ => _ end) eqn:E; [|by repeat case_match; intros [= <-]].
      destruct m; try done. intros [= <-]. unfold sadd, schk. destruct (in_sb 32 _); [|done].
      cbn in *. rewrite myCounts_set. cbn. lia.
    + unfold enter. destruct (match m with Upgradeable => _ | _ => _ end) eqn:E; [|by repeat case_match; intros [= <-]].
      destruct m; try done. intros [= <-]. unfold sadd, schk. destruct (in_sb 32 _); [|done].
      cbn in *. rewrite myCounts_set. cbn. lia.
    + unfold exit, exit_read, exit_write, exit_upgrade. repeat case_match; done.
    + by destruct (_ || _).
    + done.
  - intros t op s s' k Hi Hb _. cbn [Monitor.resume program]. cbn [Monitor.body program] in Hb.
    destruct op as [m|m ms| | |]; try done; apply enter_waits in Hb as [Hk Hm]; rewrite Hk;
      apply acquire_told; unfold enters; rewrite ?Hm; eauto.
  - intros t op k s Hi _. apply waiting_inside in Hi as [? ?]. by apply acquire_told.
  - intros t op k s Hi _ Ht. apply uncount_told. destruct op; try done. cbn in *.
    destruct Hi as (_ & Hk & _). by rewrite Hk in Ht.
  - intros t op s Hi. by destruct op.
Qed.


(** ** Executions

    A reader, a writer that waits for it, and a second reader held back by
    the waiting writer until it times out. *)

Definition rw_schedule : list (Monitor.choice Op) :=
  [Monitor.Call 1 (Enter Read); Monitor.Go 1; Monitor.Call 2 (Enter Write); Monitor.Go 2;
   Monitor.Call 3 (TryEnter Read 5); Monitor.Go 3; Monitor.Timeout 3; Monitor.Go 3;
   Monitor.Call 1 (Exit Read); Monitor.Go 1; Monitor.Go 1; Monitor.Go 2].


Definition downgrade_schedule : list (Monitor.choice Op) :=
  [Monitor.Call 1 (Enter Upgradeable); Monitor.Go 1; Monitor.Call 1 (Enter Read);
   Monitor.Call 1 (Exit Upgradeable); Monitor.Go 1; Monitor.Go 1;
   Monitor.Call 2 (Enter Write); Monitor.Go 2;
   Monitor.Call 1 (IsHeld Read); Monitor.Call 2 (IsHeld Write)].

(** The downgrade breaks the lock: under either recursion policy a thread
    that takes the upgradeable lock, then a read lock, and gives the
    upgradeable lock up still holds its read lock, and another thread enters
    the write lock beside it. *)
Theorem ReaderWriterLockSlim_downgrade_unprotected :
  Forall (fun policy => exists tr c, Monitor.exec (Monitor.fresh (construct policy)) tr c /\
    Monitor.returned tr = [(1%nat, Enter Upgradeable, Ok Unit); (1%nat, Enter Read, Ok Unit);
      (1%nat, Exit Upgradeable, Ok Unit); (2%nat, Enter Write, Ok Unit);
      (1%nat, IsHeld Read, Ok (Bool true)); (2%nat, IsHeld Write, Ok (Bool true))]) [0; 1].
Proof.
  repeat constructor;
    (match goal with |- context [construct ?p] =>
       destruct (Monitor.run downgrade_schedule (Monitor.fresh (construct p))) as [[tr c]|] eqn:E
     end; [|vm_compute in E; discriminate E]);
    exists tr, c; (split; [by eapply Monitor.run_exec|]);
    vm_compute in E; by injection E as <- _.
Qed.
