(* ===== verification/Limbs.v ===== *)
(** * Digit vectors

    A number as the vector of its digits in a base, least significant first:
    the magnitudes of BigInteger (base [10^9]), their binary words (base
    [2^16]) and bytes (base [2^8]).  The value of a vector, its bounds, the
    loop that pops leading zeros, and the uniqueness of trimmed vectors. *)

From S2P Require Export MachineInt.

#[local] Coercion Z.of_nat : nat >-> Z.

(** The value of a digit vector. *)
Fixpoint eval (B : Z) (l : list Z) : Z :=
  match l with [] => 0 | x :: l => x + B * eval B l end.

(** Every element is a digit. *)
Definition digits (B : Z) (l : list Z) : Prop := Forall (fun x => 0 <= x < B) l.

(** Not empty, and no leading zero unless it is the only digit. *)
Definition trimmed (l : list Z) : Prop :=
  exists x, last l = Some x /\ (x = 0 -> l = [0]).

(** [while (r.size() > 1 && r.back() == 0) r.pop_back();] with the back of the
    vector first. *)
Fixpoint pop_zeros (r : list Z) : list Z :=
  match r with
  | x :: (_ :: _) as t => if x =? 0 then pop_zeros t else r
  | _ => r
  end.

Definition strip (l : list Z) : list Z := reverse (pop_zeros (reverse l)).

(** ** Values *)

Section Base.
Context (B : Z) (HB : 1 < B).

Lemma eval_app l1 l2 : eval B (l1 ++ l2) = eval B l1 + B ^ length l1 * eval B l2.
Proof.
  induction l1 as [|x l IH]; cbn [eval app length]; [by rewrite Z.mul_1_l|].
  rewrite IH, Nat2Z.inj_succ, Z.pow_succ_r by lia. ring.
Qed.

Lemma eval_replicate_0 n : eval B (replicate n 0) = 0.
Proof. induction n as [|n IH]; cbn [eval replicate]; rewrite ?IH; lia. Qed.

Lemma eval_range l : digits B l -> 0 <= eval B l < B ^ length l.
Proof.
  induction 1 as [|x l Hx Hl IH]; cbn [eval length]; [cbn; lia|].
  rewrite Nat2Z.inj_succ, Z.pow_succ_r by lia. nia.
Qed.

Lemma digits_cons x l : digits B (x :: l) <-> 0 <= x < B /\ digits B l.
Proof. unfold digits. by rewrite Forall_cons. Qed.

Lemma digits_app l1 l2 : digits B (l1 ++ l2) <-> digits B l1 /\ digits B l2.
Proof. unfold digits. by rewrite Forall_app. Qed.

Lemma digits_replicate_0 n : digits B (replicate n 0).
Proof. apply Forall_replicate. lia. Qed.

(** Splitting off the top part. *)
Lemma eval_take_drop n l : (n <= length l)%nat ->
  eval B l = eval B (take n l) + B ^ n * eval B (drop n l).
Proof.
  intros Hn. rewrite <- (take_drop n l) at 1. rewrite eval_app, length_take.
  by replace (n `min` length l)%nat with n by lia.
Qed.


Lemma digit_unique x y p q : 0 <= x < B -> 0 <= y < B -> x + B * p = y + B * q ->
  x = y /\ p = q.
Proof. intros Hx Hy He. assert (p = q) by nia. nia. Qed.

Lemma eval_last_lower l x : digits B l -> last l = Some x -> 0 < x ->
  B ^ (length l - 1) <= eval B l.
Proof.
  intros Hl Hx Hp. apply last_Some in Hx as [l' ->].
  rewrite eval_app, length_app. cbn [eval length].
  apply digits_app in Hl as [Hl' _]. pose proof (eval_range _ Hl').
  replace ((length l' + 1)%nat - 1)%Z with (Z.of_nat (length l')) by lia. nia.
Qed.
End Base.

(** ** Trimmed vectors *)

Lemma trimmed_cons x y l : trimmed (x :: y :: l) -> trimmed (y :: l) /\
  exists z, last (y :: l) = Some z /\ z <> 0.
Proof.
  intros (z & Hz & H0). change (last (y :: l) = Some z) in Hz.
  assert (z <> 0) by (intros E; by specialize (H0 E)).
  split; exists z; split; done.
Qed.

Lemma trimmed_eval_pos B x y l : 1 < B -> digits B (x :: y :: l) ->
  trimmed (x :: y :: l) -> 0 < eval B (y :: l).
Proof.
  intros HB Hd Ht. apply trimmed_cons in Ht as (_ & z & Hz & Hz0).
  apply digits_cons in Hd as [_ Hd].
  assert (0 <= z) as Hzn.
  { apply last_Some in Hz as [l' E]. rewrite E in Hd. apply digits_app in Hd as [_ Hd].
    apply digits_cons in Hd as [? _]. lia. }
  pose proof (eval_last_lower B HB _ z Hd Hz ltac:(lia)).
  pose proof (Z.pow_pos_nonneg B (length (y :: l) - 1) ltac:(lia) ltac:(cbn; lia)). lia.
Qed.

(** A number has one trimmed digit vector. *)
Lemma trimmed_unique B l1 l2 : 1 < B -> digits B l1 -> digits B l2 ->
  trimmed l1 -> trimmed l2 -> eval B l1 = eval B l2 -> l1 = l2.
Proof.
  intros HB H1. revert l2. induction H1 as [|x1 t1 Hx1 Hd1 IH]; intros l2 H2 T1 T2 E.
  { by destruct T1 as (? & ? & _). }
  destruct l2 as [|x2 t2]; [by destruct T2 as (? & ? & _)|].
  pose proof (proj1 (digits_cons B x2 t2) H2) as [Hx2 Hd2]. cbn [eval] in E.
  destruct (digit_unique B HB x1 x2 _ _ Hx1 Hx2 E) as [-> Et].
  destruct t1 as [|y1 t1], t2 as [|y2 t2]; try done.
  - pose proof (trimmed_eval_pos B _ _ _ HB H2 T2). cbn [eval] in *. lia.
  - assert (Hd : digits B (x2 :: y1 :: t1)) by by constructor.
    pose proof (trimmed_eval_pos B _ _ _ HB Hd T1). cbn [eval] in *. lia.
  - apply trimmed_cons in T1 as [T1 _]. apply trimmed_cons in T2 as [T2 _].
    f_equal. by apply IH.
Qed.

Lemma pop_zeros_suffix r : exists n, r = replicate n 0 ++ pop_zeros r.
Proof.
  induction r as [|x t [n IH]]; [by exists 0%nat|]. cbn [pop_zeros].
  destruct t as [|y t]; [by exists 0%nat|].
  destruct (Z.eqb_spec x 0) as [->|]; [|by exists 0%nat].
  exists (S n). cbn [replicate app]. by rewrite <- IH.
Qed.

Lemma pop_zeros_head r : r <> [] ->
  exists x t, pop_zeros r = x :: t /\ (x = 0 -> t = []).
Proof.
  induction r as [|x t IH]; [done|intros _]. cbn [pop_zeros].
  destruct t as [|y t]; [by exists x, []|].
  destruct (Z.eqb_spec x 0) as [->|]; [by apply IH|]. by exists x, (y :: t).
Qed.

Lemma strip_app l : exists n, l = strip l ++ replicate n 0.
Proof.
  destruct (pop_zeros_suffix (reverse l)) as [n Hn]. exists n. unfold strip.
  rewrite <- (reverse_involutive l) at 1. rewrite Hn, reverse_app at 1.
  by rewrite reverse_replicate.
Qed.

Lemma strip_eval B l : eval B (strip l) = eval B l.
Proof.
  destruct (strip_app l) as [n E]. rewrite E at 2. rewrite eval_app, eval_replicate_0. lia.
Qed.

Lemma strip_digits B l : digits B l -> digits B (strip l).
Proof. destruct (strip_app l) as [n E]. rewrite E at 1. by intros [? _]%digits_app. Qed.

Lemma strip_trimmed l : l <> [] -> trimmed (strip l).
Proof.
  intros Hl. destruct (pop_zeros_head (reverse l)) as (x & t & E & H0).
  { intros E. apply Hl. rewrite <- (reverse_involutive l), E. done. }
  unfold strip. rewrite E. exists x. rewrite reverse_cons. split; [by rewrite last_snoc|].
  intros ->. by rewrite H0.
Qed.

Lemma strip_length l : (length (strip l) <= length l)%nat.
Proof. destruct (strip_app l) as [n E]. rewrite E at 2. rewrite length_app. lia. Qed.

Lemma trimmed_strip l : trimmed l -> strip l = l.
Proof.
  intros (x & Hx & H0). apply last_Some in Hx as [l' ->]. unfold strip.
  rewrite reverse_snoc.
  assert (pop_zeros (x :: reverse l') = x :: reverse l') as ->.
  { cbn [pop_zeros]. destruct (reverse l') as [|y t] eqn:E; [done|].
    destruct (Z.eqb_spec x 0) as [->|]; [|done].
    specialize (H0 eq_refl). apply (f_equal reverse) in E. rewrite reverse_involutive in E.
    subst l'. apply (f_equal length) in H0. rewrite length_app, length_reverse in H0.
    cbn in H0. lia. }
  by rewrite reverse_cons, reverse_involutive.
Qed.

Lemma trimmed_zero B l : 1 < B -> digits B l -> trimmed l -> (eval B l = 0 <-> l = [0]).
Proof.
  intros HB Hd Ht. split; [|by intros ->; cbn; lia]. intros E.
  apply (trimmed_unique B); try done.
  - apply digits_cons. split; [lia | constructor].
  - by exists 0.
  - cbn. lia.
Qed.

(** More digits, larger number. *)
Lemma trimmed_length_lt B l1 l2 : 1 < B -> digits B l1 -> digits B l2 -> trimmed l2 ->
  l1 <> [] -> (length l1 < length l2)%nat -> eval B l1 < eval B l2.
Proof.
  intros HB H1 H2 (x & Hx & H0) Hne Hlen.
  assert (0 < x) as Hpos.
  { destruct (decide (x = 0)) as [E|]; [rewrite (H0 E) in Hlen; destruct l1; cbn in *; [done|lia]|].
    apply last_Some in Hx as [l' ->]. apply digits_app in H2 as [_ H2].
    apply digits_cons in H2. lia. }
  pose proof (eval_range B HB _ H1). pose proof (eval_last_lower B HB _ x H2 Hx Hpos).
  pose proof (Z.pow_le_mono_r B (length l1) (length l2 - 1) ltac:(lia) ltac:(lia)). lia.
Qed.
