(* ===== verification/BigMag.v ===== *)
(** * BigInteger: magnitudes

    The private magnitude helpers of [System::Numerics::BigInteger]: vectors
    of base-[10^9] limbs, least significant first.  Comparison, addition,
    subtraction, multiplication and division by one limb, with the proof that
    each computes on the values of its arguments.  An [int] loop counter over a
    vector is its structural recursion (limb counts fit an [int]). *)

From S2P Require Export Limbs.

#[local] Coercion Z.of_nat : nat >-> Z.

Definition BASE : Z := 1000000000.

(** [a.empty()] *)
Definition empty {A} (l : list A) : bool := match l with [] => true | _ => false end.

(** [if (i < a.size()) sum += a[i];] on what is left of [a] at index [i]. *)
Definition limb (a : list Z) : Z := match a with [] => 0 | x :: _ => x end.

(** The loop of [cmpMag] from the top index down to this one. *)
Fixpoint cmp_limbs (a b : list Z) : Z :=
  match a, b with
  | x :: a, y :: b =>
      let above := cmp_limbs a b in
      if negb (above =? 0) then above
      else if negb (x =? y) then (if x <? y then -1 else 1) else 0
  | _, _ => 0
  end.

Definition cmpMag (a b : list Z) : Z :=
  if negb (Nat.eqb (length a) (length b))
  then (if Nat.ltb (length a) (length b) then -1 else 1)
  else cmp_limbs a b.

Fixpoint addMag_loop (fuel : nat) (a b : list Z) (carry : Z) : list Z :=
  match fuel with
  | O => []
  | S fuel =>
      if empty a && empty b && (carry =? 0) then []
      else
        let sum := u64 (u64 (carry + limb a) + limb b) in
        u32 (sum mod BASE) :: addMag_loop fuel (tail a) (tail b) (sum / BASE)
  end.

(** A carry is at most one, so one round after the longer operand ends it. *)
Definition addMag (a b : list Z) : list Z :=
  addMag_loop (S (max (length a) (length b))) a b 0.

(** The operands are 32-bit, so the [int64_t] difference is exact. *)
Fixpoint subMag_loop (a b : list Z) (borrow : Z) : list Z :=
  match a with
  | [] => []
  | x :: a =>
      let d := x - borrow - limb b in
      if d <? 0 then u32 (d + BASE) :: subMag_loop a (tail b) 1
      else u32 d :: subMag_loop a (tail b) 0
  end.

Definition subMag (a b : list Z) : list Z := strip (subMag_loop a b 0).

(** The inner loop of [mulMag] at [a[i] = ai], on [r] from index [i + j] and
    [b] from [j]; an index past the end of [r] is undefined. *)
Fixpoint mul_row (ai : Z) (b r : list Z) (carry : Z) : res (list Z) :=
  match r with
  | [] => if empty b && (carry =? 0) then Ok [] else UB
  | x :: r' =>
      if empty b && (carry =? 0) then Ok r
      else
        let cur := u64 (x + carry) in
        let cur := if empty b then cur else u64 (cur + u64 (ai * limb b)) in
        t <- mul_row ai (tail b) r' (cur / BASE) ;;
        Ok (u32 (cur mod BASE) :: t)
  end.

(** The outer loop, on [a] and [r] from index [i]. *)
Fixpoint mul_rows (a b r : list Z) : res (list Z) :=
  match a with
  | [] => Ok r
  | ai :: a =>
      r <- mul_row ai b r 0 ;;
      match r with
      | [] => UB
      | x :: r => t <- mul_rows a b r ;; Ok (x :: t)
      end
  end.

Definition mulMag (a b : list Z) : res (list Z) :=
  r <- mul_rows a b (replicate (length a + length b) 0) ;; Ok (strip r).

(** The loop of [divMagByLimb] from the top index down: the quotient limbs and
    the running remainder. *)
Fixpoint div_limbs (a : list Z) (b : Z) : res (list Z * Z) :=
  match a with
  | [] => Ok ([], 0)
  | x :: a =>
      qr <- div_limbs a b ;;
      let cur := u64 (u64 (snd qr * BASE) + x) in
      if b =? 0 then UB else Ok (u32 (cur / b) :: fst qr, cur mod b)
  end.

(** The quotient and the out parameter [rem]. *)
Definition divMagByLimb (a : list Z) (b : Z) : res (list Z * Z) :=
  qr <- div_limbs a b ;; Ok (strip (fst qr), u32 (snd qr)).

(** [while (v) { r.push_back(v % BASE); v /= BASE; }]: at most three limbs. *)
Fixpoint fromUInt64_loop (fuel : nat) (v : Z) : list Z :=
  match fuel with
  | O => []
  | S fuel => if v =? 0 then [] else u32 (v mod BASE) :: fromUInt64_loop fuel (v / BASE)
  end.

Definition fromUInt64 (v : Z) : list Z :=
  if v =? 0 then [0] else fromUInt64_loop 3 v.

(** ** Values *)

Abbreviation value := (eval BASE).
Abbreviation limbs := (digits BASE).

(** A canonical magnitude: what every constructor and operator leaves. *)
Definition canonical (m : list Z) : Prop := limbs m /\ trimmed m.

Lemma BASE_gt_1 : 1 < BASE.
Proof. done. Qed.
#[export] Hint Resolve BASE_gt_1 : sharp.

Lemma u64_id z : 0 <= z < 2 ^ 64 -> u64 z = z.
Proof. apply wrapu_id. Qed.

Lemma u32_id z : 0 <= z < 2 ^ 32 -> u32 z = z.
Proof. apply wrapu_id. Qed.

(** Drop the conversions that do not change their argument, innermost first. *)
Ltac u64_exact :=
  repeat match goal with
    | |- context [u64 ?z] =>
        lazymatch z with context [u64 _] => fail | _ => idtac end;
        rewrite (u64_id z) by (unfold BASE in *; nia)
    end.

Lemma limb_mod z : u32 (z mod BASE) = z mod BASE.
Proof. apply u32_id. pose proof (Z.mod_pos_bound z BASE ltac:(done)). unfold BASE in *. lia. Qed.

Lemma value_range m : limbs m -> 0 <= value m < BASE ^ length m.
Proof. apply eval_range, BASE_gt_1. Qed.

Lemma split_limb l : limbs l -> 0 <= limb l < BASE /\ limbs (tail l) /\
  value l = limb l + BASE * value (tail l).
Proof. intros [|x t Hx Ht]; cbn [limb tail eval]; [|done]. unfold BASE. repeat split; lia || constructor. Qed.

Lemma canonical_unique a b : canonical a -> canonical b -> value a = value b -> a = b.
Proof. intros [? ?] [? ?]. by apply trimmed_unique. Qed.

Lemma canonical_zero m : canonical m -> (value m = 0 <-> m = [0]).
Proof. intros [? ?]. by apply trimmed_zero. Qed.

Lemma canonical_0 : canonical [0].
Proof. split; [by repeat constructor | by exists 0]. Qed.

(** ** Comparison *)

Lemma cmp_limbs_spec a b : limbs a -> limbs b -> length a = length b ->
  cmp_limbs a b = Z.sgn (value a - value b).
Proof.
  intros Ha. revert b. induction Ha as [|x a Hx Ha IH]; intros b Hb Hl;
    destruct b as [|y b]; try done.
  apply digits_cons in Hb as [Hy Hb]. injection Hl as Hl.
  cbn [cmp_limbs eval]. rewrite IH by done.
  destruct (Z.compare_spec (value a) (value b)) as [E|E|E].
  - replace (value a - value b) with 0 by lia. cbn [Z.sgn Z.eqb negb].
    replace (x + BASE * value a - (y + BASE * value b)) with (x - y) by (rewrite E; ring).
    destruct (Z.eqb_spec x y), (Z.ltb_spec x y); cbn [negb]; lia.
  - rewrite (Z.sgn_neg (value a - value b)) by lia. cbn [Z.eqb negb].
    symmetry. apply Z.sgn_neg. unfold BASE in *. lia.
  - rewrite (Z.sgn_pos (value a - value b)) by lia. cbn [Z.eqb negb].
    symmetry. apply Z.sgn_pos. unfold BASE in *. lia.
Qed.

Lemma cmpMag_spec a b : canonical a -> canonical b ->
  cmpMag a b = Z.sgn (value a - value b).
Proof.
  intros [Ha Ta] [Hb Tb]. unfold cmpMag.
  assert (a <> [] /\ b <> []) as [Na Nb].
  { split; intros ->; [destruct Ta as (? & ? & _) | destruct Tb as (? & ? & _)]; done. }
  destruct (Nat.eqb_spec (length a) (length b)) as [E|E]; cbn [negb]; [by apply cmp_limbs_spec|].
  destruct (Nat.ltb_spec (length a) (length b)).
  - pose proof (trimmed_length_lt BASE a b BASE_gt_1 Ha Hb Tb Na ltac:(lia)). lia.
  - pose proof (trimmed_length_lt BASE b a BASE_gt_1 Hb Ha Ta Nb ltac:(lia)). lia.
Qed.

(** ** Addition *)

Lemma addMag_loop_spec fuel a b carry : limbs a -> limbs b -> 0 <= carry <= 1 ->
  (max (length a) (length b) < fuel)%nat ->
  limbs (addMag_loop fuel a b carry) /\
  value (addMag_loop fuel a b carry) = value a + value b + carry.
Proof.
  revert a b carry. induction fuel as [|fuel IH]; intros a b carry Ha Hb Hc Hf; [lia|].
  cbn [addMag_loop].
  destruct (empty a && empty b && (carry =? 0)) eqn:E.
  { bool_to_prop. destruct a, b; try discriminate. cbn. split; [constructor | lia]. }
  destruct (split_limb a Ha) as (Hx & Ha' & ->), (split_limb b Hb) as (Hy & Hb' & ->).
  assert (Hs : 0 <= carry + limb a + limb b < 2 * BASE) by lia.
  u64_exact. rewrite limb_mod.
  pose proof (Z.div_mod (carry + limb a + limb b) BASE ltac:(done)) as Hdm.
  pose proof (Z.mod_pos_bound (carry + limb a + limb b) BASE ltac:(done)) as Hm.
  assert (Hc' : 0 <= (carry + limb a + limb b) / BASE <= 1) by (unfold BASE in *; lia).
  assert (Hf' : tail a = [] /\ tail b = [] /\ (carry + limb a + limb b) / BASE = 0 \/
    (max (length (tail a)) (length (tail b)) < fuel)%nat).
  { destruct a as [|? a], b as [|? b]; cbn [limb tail length] in *; try (right; lia).
    left. rewrite Z.div_small by (unfold BASE in *; lia). done. }
  destruct Hf' as [(Ea & Eb & Ec) | Hf'].
  - rewrite Ea, Eb, Ec in *. assert (addMag_loop fuel [] [] 0 = []) as -> by by destruct fuel.
    cbn [eval]. split; [constructor; [done | constructor] | lia].
  - destruct (IH (tail a) (tail b) _ Ha' Hb' Hc' Hf') as [Hd Hv].
    split; [by constructor|]. cbn [eval]. rewrite Hv. lia.
Qed.

Lemma addMag_spec a b : limbs a -> limbs b ->
  limbs (addMag a b) /\ value (addMag a b) = value a + value b.
Proof.
  intros Ha Hb. destruct (addMag_loop_spec (S (max (length a) (length b))) a b 0) as [? Hv];
    try done; try lia. unfold addMag. rewrite Hv. split; [done | lia].
Qed.

Lemma addMag_ne a b : a <> [] -> addMag a b <> [].
Proof. destruct a; [done|]. by unfold addMag; cbn [addMag_loop empty andb]. Qed.

(** ** Subtraction *)

Lemma subMag_loop_spec a b borrow : limbs a -> limbs b -> 0 <= borrow <= 1 ->
  value b + borrow <= value a ->
  limbs (subMag_loop a b borrow) /\
  value (subMag_loop a b borrow) = value a - value b - borrow.
Proof.
  intros Ha. revert b borrow. induction Ha as [|x a Hx Ha IH]; intros b borrow Hb Hw Hle.
  { pose proof (value_range b Hb). cbn [subMag_loop eval] in *. split; [constructor | lia]. }
  destruct (split_limb b Hb) as (Hy & Hb' & Ev). cbn [subMag_loop]. rewrite Ev in Hle |- *.
  cbn [eval] in Hle |- *. destruct (Z.ltb_spec (x - borrow - limb b) 0).
  - destruct (IH (tail b) 1) as [Hd Hv]; [done | lia | unfold BASE in *; lia |].
    rewrite u32_id by (unfold BASE in *; lia).
    split; [constructor; [unfold BASE in *; lia | done]|]. cbn [eval]. rewrite Hv. lia.
  - destruct (IH (tail b) 0) as [Hd Hv]; [done | lia | unfold BASE in *; lia |].
    rewrite u32_id by (unfold BASE in *; lia).
    split; [constructor; [unfold BASE in *; lia | done]|]. cbn [eval]. rewrite Hv. lia.
Qed.

Lemma subMag_spec a b : limbs a -> limbs b -> value b <= value a -> a <> [] ->
  canonical (subMag a b) /\ value (subMag a b) = value a - value b.
Proof.
  intros Ha Hb Hle Hne. unfold subMag.
  destruct (subMag_loop_spec a b 0 Ha Hb) as [Hd Hv]; [lia | lia |].
  rewrite strip_eval, Hv. split; [|lia]. split; [by apply strip_digits|].
  apply strip_trimmed. destruct a; [done|]. cbn [subMag_loop]. by destruct (_ <? 0).
Qed.

(** ** Multiplication *)

Lemma mul_row_spec ai b r carry : 0 <= ai < BASE -> limbs b -> limbs r ->
  0 <= carry < BASE -> value r + ai * value b + carry < BASE ^ length r ->
  (length b <= length r)%nat ->
  exists r', mul_row ai b r carry = Ok r' /\ limbs r' /\ length r' = length r /\
    value r' = value r + ai * value b + carry.
Proof.
  intros Hai Hb Hr. revert b Hb carry. induction Hr as [|x r Hx Hr IH]; intros b Hb carry Hc Hlt Hl.
  { destruct b; [|cbn in Hl; lia]. cbn in Hlt. exists []. cbn.
    assert (carry = 0) as -> by lia. cbn. repeat split; [constructor | lia]. }
  cbn [mul_row]. destruct (empty b && (carry =? 0)) eqn:E.
  { bool_to_prop. destruct b; [|done]. exists (x :: r). cbn [eval].
    repeat split; [by constructor | lia]. }
  destruct (split_limb b Hb) as (Hy & Hb' & Ev).
  set (cur := x + carry + ai * limb b).
  assert (Hcur : 0 <= cur < BASE * BASE) by (unfold cur; nia).
  assert ((if empty b then u64 (x + carry) else u64 (u64 (x + carry) + u64 (ai * limb b))) = cur) as ->.
  { unfold cur in *. destruct b; cbn [empty limb] in *; u64_exact; lia. }
  rewrite limb_mod. pose proof (Z.div_mod cur BASE ltac:(done)) as Hdm.
  pose proof (Z.mod_pos_bound cur BASE ltac:(done)) as Hm.
  assert (Hc' : 0 <= cur / BASE < BASE).
  { split; [apply Z.div_pos; lia | apply Z.div_lt_upper_bound; lia]. }
  destruct (IH (tail b) Hb' (cur / BASE) Hc') as (r' & -> & Hr' & Hlr & Hv).
  - cbn [eval length] in Hlt. rewrite Ev, Nat2Z.inj_succ, Z.pow_succ_r in Hlt by lia.
    apply Z.mul_lt_mono_pos_l with BASE; [done|]. unfold cur in *. lia.
  - destruct b; cbn [tail length] in *; lia.
  - exists (cur mod BASE :: r'). cbn [bind length]. repeat split; [by constructor | by rewrite Hlr|].
    cbn [eval]. rewrite Hv, Ev. unfold cur in *. lia.
Qed.

Lemma mul_rows_spec a b r : limbs a -> limbs b -> limbs r ->
  length r = (length a + length b)%nat -> value r < BASE ^ length b ->
  exists r', mul_rows a b r = Ok r' /\ limbs r' /\ length r' = length r /\
    value r' = value r + value a * value b.
Proof.
  intros Ha. revert r. induction Ha as [|ai a Hai Ha IH]; intros r Hb Hr Hl Hlt.
  { exists r. cbn [mul_rows eval]. repeat split; try done. lia. }
  pose proof (value_range b Hb) as Hbr. pose proof (value_range r Hr) as Hrr. cbn [length] in Hl.
  destruct (mul_row_spec ai b r 0) as (r1 & E & Hr1 & Hl1 & Hv1); try done; try lia.
  { rewrite Hl, Nat2Z.inj_add, Nat2Z.inj_succ, Z.pow_add_r, Z.pow_succ_r by lia.
    pose proof (Z.pow_pos_nonneg BASE (length a) ltac:(done) ltac:(lia)). unfold BASE in *. nia. }
  cbn [mul_rows]. rewrite E. cbn [bind].
  destruct r1 as [|x r1]; [cbn in Hl1; lia|].
  apply digits_cons in Hr1 as [Hx Hr1]. cbn [eval length] in *.
  destruct (IH r1) as (r2 & -> & Hr2 & Hl2 & Hv2); try done; try lia.
  { unfold BASE in *. nia. }
  exists (x :: r2). cbn [bind eval length]. repeat split; [by constructor | lia |].
  rewrite Hv2. lia.
Qed.

Lemma mulMag_spec a b : limbs a -> limbs b -> a <> [] ->
  exists m, mulMag a b = Ok m /\ canonical m /\ value m = value a * value b.
Proof.
  intros Ha Hb Hne. unfold mulMag.
  destruct (mul_rows_spec a b (replicate (length a + length b) 0) Ha Hb) as
    (r & -> & Hr & Hl & Hv).
  - by apply digits_replicate_0.
  - apply length_replicate.
  - rewrite eval_replicate_0. apply Z.pow_pos_nonneg; [done | lia].
  - cbn [bind]. exists (strip r). rewrite strip_eval, Hv, eval_replicate_0.
    repeat split; [by apply strip_digits | apply strip_trimmed; intros ->].
    rewrite length_replicate in Hl. destruct a; cbn in *; [done | lia].
Qed.

(** ** Division by one limb *)

Lemma div_limbs_spec a b : limbs a -> 0 < b < BASE ->
  exists q r, div_limbs a b = Ok (q, r) /\ limbs q /\ length q = length a /\
    0 <= r < b /\ value a = b * value q + r.
Proof.
  intros Ha Hb. induction Ha as [|x a Hx Ha (q & r & E & Hq & Hl & Hr & Hv)].
  { exists [], 0. cbn. repeat split; try lia. constructor. }
  cbn [div_limbs]. rewrite E. cbn [bind fst snd].
  u64_exact. decide_cmp.
  pose proof (Z.div_mod (r * BASE + x) b ltac:(lia)) as Hdm.
  pose proof (Z.mod_pos_bound (r * BASE + x) b ltac:(lia)) as Hm.
  assert (Hd : 0 <= (r * BASE + x) / b < BASE).
  { split; [apply Z.div_pos; unfold BASE in *; lia|]. apply Z.div_lt_upper_bound; nia. }
  rewrite u32_id by (unfold BASE in *; lia).
  exists ((r * BASE + x) / b :: q), ((r * BASE + x) mod b). cbn [eval length].
  repeat split; try lia. by constructor.
Qed.

Lemma divMagByLimb_spec a b : limbs a -> a <> [] -> 0 < b < BASE ->
  exists q, divMagByLimb a b = Ok (q, value a mod b) /\ canonical q /\
    value q = value a / b.
Proof.
  intros Ha Hne Hb. destruct (div_limbs_spec a b Ha Hb) as (q & r & E & Hq & Hl & Hr & Hv).
  unfold divMagByLimb. rewrite E. cbn [bind fst snd].
  rewrite u32_id by (unfold BASE in *; lia). exists (strip q).
  rewrite strip_eval, (Z.mod_unique_pos _ _ _ _ Hr Hv), (Z.div_unique_pos _ _ _ _ Hr Hv).
  repeat split; [by apply strip_digits|].
  apply strip_trimmed. intros ->. by destruct a.
Qed.

(** ** Conversion from [uint64_t] *)

Lemma fromUInt64_loop_spec (fuel : nat) v : 0 <= v < BASE ^ fuel ->
  limbs (fromUInt64_loop fuel v) /\ value (fromUInt64_loop fuel v) = v /\
  (v <> 0 -> trimmed (fromUInt64_loop fuel v)).
Proof.
  revert v. induction fuel as [|fuel IH]; intros v Hv.
  { cbn in *. repeat split; [constructor | lia | lia]. }
  cbn [fromUInt64_loop]. destruct (Z.eqb_spec v 0) as [->|]; [by repeat constructor|].
  rewrite limb_mod. rewrite Nat2Z.inj_succ, Z.pow_succ_r in Hv by lia.
  pose proof (Z.div_mod v BASE ltac:(done)) as Hdm.
  pose proof (Z.mod_pos_bound v BASE ltac:(done)) as Hm.
  destruct (IH (v / BASE)) as (Hd & Hvv & Ht).
  { split; [apply Z.div_pos; unfold BASE in *; lia | apply Z.div_lt_upper_bound; unfold BASE in *; lia]. }
  repeat split; [by constructor | cbn [eval]; rewrite Hvv; lia | intros _].
  destruct (decide (v / BASE = 0)) as [E|E].
  - rewrite E. assert (fromUInt64_loop fuel 0 = []) as -> by by destruct fuel.
    exists (v mod BASE). split; [done|]. lia.
  - destruct (Ht E) as (x & Hx & H0). exists x.
    destruct (fromUInt64_loop fuel (v / BASE)) as [|y l]; [done|]. split; [done|].
    intros ->. specialize (H0 eq_refl). injection H0 as -> ->. cbn in Hvv. lia.
Qed.

Lemma fromUInt64_spec v : 0 <= v < 2 ^ 64 ->
  canonical (fromUInt64 v) /\ value (fromUInt64 v) = v.
Proof.
  intros Hv. unfold fromUInt64. destruct (Z.eqb_spec v 0) as [->|]; [split; [apply canonical_0|done]|].
  destruct (fromUInt64_loop_spec 3 v) as (? & ? & ?); [unfold BASE; lia|].
  split; [split; auto | done].
Qed.
