(* ===== verification/BigDiv.v ===== *)
(** * BigInteger: multi-limb division

    [BigInteger::divmodMag]: Knuth's Algorithm D in base [10^9], with the
    estimate of each quotient limb, its refinement loop, the multiply-subtract
    and the add-back on the window of the dividend.  The theorems show that the
    refinement loop ends after at most two rounds, that the estimate is then at
    most one too large, and that the result is the quotient and remainder. *)

From S2P Require Export BigMag.

#[local] Coercion Z.of_nat : nat >-> Z.

(** [for (auto& x : u) { p = x * d + carry; x = p % BASE; carry = p / BASE; }] *)
Fixpoint scale (d carry : Z) (u : list Z) : list Z :=
  match u with
  | [] => []
  | x :: u =>
      let p := u64 (u64 (x * d) + carry) in
      u32 (p mod BASE) :: scale d (p / BASE) u
  end.

(** The loop that adjusts the estimate; [more] is [n >= 2].  A loop that is
    still running when the fuel is spent has no value. *)
Fixpoint refine (fuel : nat) (more : bool) (vn1 vn2 un2 qhat rhat : Z) : res Z :=
  match fuel with
  | O => UB
  | S fuel =>
      if (BASE <=? qhat)
         || (more && (u64 (u64 (rhat * BASE) + un2) <? u64 (qhat * vn2))) then
        let qhat := u64 (qhat - 1) in
        let rhat := u64 (rhat + vn1) in
        if BASE <=? rhat then Ok qhat else refine fuel more vn1 vn2 un2 qhat rhat
      else Ok qhat
  end.

(** Step D3 on [u[j..]]: the estimate of a quotient limb. *)
Definition estimate_in (rounds : nat) (v u : list Z) (j : nat) : res Z :=
  let n := length v in
  hi <- get u (j + n) ;;
  lo <- get u (j + n - 1) ;;
  vn1 <- get v (n - 1) ;;
  if vn1 =? 0 then UB
  else
    let top2 := u64 (u64 (hi * BASE) + lo) in
    let more := Nat.leb 2 n in
    vn2 <- (if more then get v (n - 2) else Ok 0) ;;
    un2 <- (if more then get u (j + n - 2) else Ok 0) ;;
    refine rounds more vn1 vn2 un2 (top2 / vn1) (top2 mod vn1).

(** Two adjustments are the most a normalised divisor needs. *)
Definition estimate : list Z -> list Z -> nat -> res Z := estimate_in 3.

(** Step D4 on the window [u[j..j+n]]: the new window and the last borrow. *)
Fixpoint mul_sub (qhat : Z) (v w : list Z) (carry borrow : Z) : list Z * Z :=
  match w with
  | [] => ([], borrow)
  | x :: w =>
      let prod := if empty v then carry else u64 (u64 (qhat * limb v) + carry) in
      let diff := x - prod mod BASE - borrow in
      if diff <? 0 then
        let r := mul_sub qhat (tail v) w (prod / BASE) 1 in (u32 (diff + BASE) :: fst r, snd r)
      else
        let r := mul_sub qhat (tail v) w (prod / BASE) 0 in (u32 diff :: fst r, snd r)
  end.

(** Step D5 on the window. *)
Fixpoint add_back (v w : list Z) (c : Z) : list Z :=
  match w with
  | [] => []
  | x :: w =>
      let s := u64 (u64 (x + limb v) + c) in
      u32 (s mod BASE) :: add_back (tail v) w (s / BASE)
  end.

(** Steps D4 and D5 for one quotient limb. *)
Definition reduce (qhat : Z) (v w : list Z) : Z * list Z :=
  let r := mul_sub qhat v w 0 0 in
  if negb (snd r =? 0) then (u64 (qhat - 1), add_back v (fst r) 0) else (qhat, fst r).

(** One round of the main loop: the quotient limb and the new [u]. *)
Definition div_step (v u : list Z) (j : nat) : res (Z * list Z) :=
  let n := length v in
  qhat <- estimate v u j ;;
  let r := reduce qhat v (take (S n) (drop j u)) in
  Ok (u32 (fst r), take j u ++ snd r ++ drop (j + S n) u).

(** [for (int j = k - 1; j >= 0; --j)]; the limbs of [q] above [j] are known. *)
Fixpoint div_loop (v : list Z) (k : nat) (u q : list Z) : res (list Z * list Z) :=
  match k with
  | O => Ok (q, u)
  | S j => r <- div_step v u j ;; div_loop v j (snd r) (fst r :: q)
  end.

(** The quotient and the remainder; a dividend with fewer limbs than the
    divisor would size [q] negatively. *)
Definition divmodMag (u v : list Z) : res (list Z * list Z) :=
  let n := length v in
  vn1 <- get v (n - 1) ;;
  if Nat.ltb (length u) n then UB
  else
    let d := BASE / (vn1 + 1) in
    let u := u ++ [0] in
    let u' := if 1 <? d then scale d 0 u else u in
    let v' := if 1 <? d then scale d 0 v else v in
    qu <- div_loop v' (length u - n) u' [] ;;
    let rem := take n (snd qu) in
    rem <- (if 1 <? d then r <- div_limbs rem d ;; Ok (fst r) else Ok rem) ;;
    Ok (strip (fst qu), strip rem).

(** A division whose estimate is adjusted once and then added back. *)
Example divmodMag_add_back :
  divmodMag [2; 0; 0; 999999998] [500000001; 0; 999999998] =
    Ok ([999999999], [500000003; 499999999; 999999997]).
Proof. vm_compute. reflexivity. Qed.

(** ** Scaling *)

Lemma scale_spec d carry u : 0 < d < BASE -> limbs u -> 0 <= carry < BASE ->
  d * value u + carry < BASE ^ length u ->
  limbs (scale d carry u) /\ length (scale d carry u) = length u /\
  value (scale d carry u) = d * value u + carry.
Proof.
  intros Hd Hu. revert carry. induction Hu as [|x u Hx Hu IH]; intros carry Hc Hlt.
  { cbn in *. repeat split; [constructor | lia]. }
  cbn [scale]. u64_exact. rewrite limb_mod.
  pose proof (Z.div_mod (x * d + carry) BASE ltac:(done)) as Hdm.
  pose proof (Z.mod_pos_bound (x * d + carry) BASE ltac:(done)) as Hm.
  cbn [eval length] in Hlt. rewrite Nat2Z.inj_succ, Z.pow_succ_r in Hlt by lia.
  destruct (IH ((x * d + carry) / BASE)) as (Hd1 & Hl & Hv).
  - split; [apply Z.div_pos; unfold BASE in *; nia|].
    apply Z.div_lt_upper_bound; [done|]. nia.
  - apply Z.mul_lt_mono_pos_l with BASE; [done|]. lia.
  - cbn [length eval]. repeat split; [by constructor | by rewrite Hl | rewrite Hv; lia].
Qed.

(** More fuel does not change the result. *)
Lemma refine_more fuel fuel' more vn1 vn2 un2 qhat rhat q : (fuel <= fuel')%nat ->
  refine fuel more vn1 vn2 un2 qhat rhat = Ok q ->
  refine fuel' more vn1 vn2 un2 qhat rhat = Ok q.
Proof.
  revert fuel' qhat rhat. induction fuel as [|fuel IH]; intros fuel' qhat rhat Hf; [done|].
  destruct fuel' as [|fuel']; [lia|]. cbn [refine].
  destruct ((_ <=? qhat) || _); [|done]. destruct (_ <=? _); [done|]. apply IH. lia.
Qed.

Lemma estimate_more rounds v u j q : (3 <= rounds)%nat ->
  estimate v u j = Ok q -> estimate_in rounds v u j = Ok q.
Proof.
  intros Hr. unfold estimate, estimate_in. destruct (get u _) as [hi| |]; try done.
  cbn [bind]. destruct (get u _) as [lo| |]; try done. cbn [bind].
  destruct (get v _) as [vn1| |]; try done. cbn [bind].
  destruct (vn1 =? 0); [done|]. cbv zeta.
  match goal with |- bind ?m _ = _ -> _ => destruct m as [vn2| |]; try done end. cbn [bind].
  match goal with |- bind ?m _ = _ -> _ => destruct m as [un2| |]; try done end.
  by apply refine_more.
Qed.

(** ** The refinement loop

    [q] is the true quotient limb; the test never fires at or below it. *)
Lemma refine_spec fuel more vn1 vn2 un2 qhat rhat top2 q :
  0 < vn1 < BASE -> 0 <= vn2 < BASE -> 0 <= un2 < BASE ->
  0 <= q < BASE -> q <= qhat <= BASE + 1 -> 0 <= rhat < BASE ->
  qhat * vn1 + rhat = top2 -> top2 < vn1 * BASE + BASE ->
  (more = true -> forall qh rh, qh * vn1 + rh = top2 -> rh * BASE + un2 < qh * vn2 -> q < qh) ->
  (0 < fuel)%nat -> BASE <= (fuel - 1) * vn1 + rhat ->
  exists qh rh, refine fuel more vn1 vn2 un2 qhat rhat = Ok qh /\
    q <= qh < BASE /\ qhat - (fuel - 1) <= qh /\ 0 <= rh /\ qh * vn1 + rh = top2 /\
    (more = true -> qh * vn2 <= rh * BASE + un2).
Proof.
  intros Hv1 Hv2 Hu2 Hq. revert qhat rhat.
  induction fuel as [|fuel IH]; intros qhat rhat Hqh Hrh Htop Hmax Hmore Hf Hpot; [lia|].
  cbn [refine]. u64_exact.
  destruct ((BASE <=? qhat) || (more && (rhat * BASE + un2 <? qhat * vn2))) eqn:E.
  - assert (Hdec : q < qhat).
    { bool_to_prop; [lia|]. by apply (Hmore ltac:(done) _ rhat). }
    u64_exact. destruct (Z.leb_spec BASE (rhat + vn1)).
    + exists (qhat - 1), (rhat + vn1). assert (qhat - 1 < BASE) by nia.
      repeat split; try lia. intros _. nia.
    + destruct (IH (qhat - 1) (rhat + vn1)) as (qh & rh & E1 & H1 & H2 & H3 & H4 & H5);
        try done; try lia.
      exists qh, rh. repeat split; try done; lia.
  - bool_to_prop; exists qhat, rhat; repeat split; try done; try lia; intros ->;
      cbn [andb] in *; bool_to_prop; try done; lia.
Qed.

(** ** Multiply, subtract, add back *)

Lemma mul_sub_spec qhat v w carry borrow : limbs v -> limbs w ->
  length w = S (length v) -> 0 <= qhat < BASE -> 0 <= carry < BASE -> 0 <= borrow <= 1 ->
  let r := mul_sub qhat v w carry borrow in
  limbs (fst r) /\ length (fst r) = length w /\ 0 <= snd r <= 1 /\
  value (fst r) = value w - (qhat * value v + carry) - borrow + BASE ^ length w * snd r.
Proof.
  intros Hv. revert w carry borrow. induction Hv as [|y v Hy Hv IH];
    intros w carry borrow Hw Hl Hq Hc Hb; (destruct w as [|x w]; [done|]);
    apply digits_cons in Hw as [Hx Hw]; injection Hl as Hl.
  - destruct w; [|done]. cbn [mul_sub empty]. rewrite Z.mod_small by lia.
    destruct (Z.ltb_spec (x - carry - borrow) 0);
      cbn [fst snd eval length mul_sub]; rewrite u32_id by (unfold BASE in *; lia);
      (split; [constructor; [unfold BASE in *; lia|constructor] | lia]).
  - cbn [mul_sub empty limb tail]. u64_exact. set (prod := qhat * y + carry).
    pose proof (Z.div_mod prod BASE ltac:(done)) as Hdm.
    pose proof (Z.mod_pos_bound prod BASE ltac:(done)) as Hm.
    assert (Hc' : 0 <= prod / BASE < BASE).
    { split; [apply Z.div_pos; unfold prod, BASE in *; nia|].
      apply Z.div_lt_upper_bound; [done|]. unfold prod. nia. }
    cbn [length]. rewrite Nat2Z.inj_succ, Z.pow_succ_r by lia.
    destruct (Z.ltb_spec (x - prod mod BASE - borrow) 0).
    + destruct (IH w (prod / BASE) 1) as (H1 & H2 & H3 & H4); try done; try lia.
      cbn [fst snd eval length]. rewrite u32_id, H2, H4 by (unfold BASE in *; lia).
      repeat split; unfold prod in *; try lia; constructor; [unfold BASE in *; lia | done].
    + destruct (IH w (prod / BASE) 0) as (H1 & H2 & H3 & H4); try done; try lia.
      cbn [fst snd eval length]. rewrite u32_id, H2, H4 by (unfold BASE in *; lia).
      repeat split; unfold prod in *; try lia; constructor; [unfold BASE in *; lia | done].
Qed.

Lemma add_back_spec v w c : limbs v -> limbs w -> length w = S (length v) -> 0 <= c <= 1 ->
  limbs (add_back v w c) /\ length (add_back v w c) = length w /\
  exists out, 0 <= out <= 1 /\
    value (add_back v w c) = value w + value v + c - BASE ^ length w * out.
Proof.
  intros Hv Hw. revert v Hv c. induction Hw as [|x w Hx Hw IH]; intros v Hv c Hl Hc; [done|].
  destruct (split_limb v Hv) as (Hy & Hv' & Ev). cbn [add_back]. u64_exact. rewrite limb_mod.
  pose proof (Z.div_mod (x + limb v + c) BASE ltac:(done)) as Hdm.
  pose proof (Z.mod_pos_bound (x + limb v + c) BASE ltac:(done)) as Hm.
  assert (Hc' : 0 <= (x + limb v + c) / BASE <= 1) by (unfold BASE in *; lia).
  cbn [length eval]. rewrite Nat2Z.inj_succ, Z.pow_succ_r by lia.
  destruct w as [|x' w].
  - destruct v; [|done]. cbn [add_back eval length tail limb] in *.
    repeat split; [by constructor|]. exists ((x + 0 + c) / BASE).
    change (BASE ^ 0%nat) with 1. lia.
  - destruct (IH (tail v) Hv' ((x + limb v + c) / BASE)) as (H1 & H2 & out & H3 & H4);
      [destruct v; cbn in *; lia | done |].
    repeat split; [by constructor | by rewrite H2 |]. exists out. split; [done|].
    rewrite H4, Ev. lia.
Qed.

(** The window after a round holds the remainder, whichever of the two
    estimates it was. *)
Lemma reduce_spec qhat v w : limbs v -> limbs w -> length w = S (length v) ->
  0 < value v -> 0 <= qhat < BASE -> value w / value v <= qhat <= value w / value v + 1 ->
  fst (reduce qhat v w) = value w / value v /\ limbs (snd (reduce qhat v w)) /\
  length (snd (reduce qhat v w)) = length w /\
  value (snd (reduce qhat v w)) = value w mod value v.
Proof.
  intros Hv Hw Hl Hpos Hq Hest. unfold reduce.
  destruct (mul_sub_spec qhat v w 0 0 Hv Hw Hl) as (H1 & H2 & H3 & H4); try done; try lia.
  pose proof (value_range _ H1) as Hr. rewrite H2 in Hr.
  pose proof (value_range _ Hw) as Hwr.
  pose proof (Z.div_mod (value w) (value v) ltac:(lia)) as Hdm.
  pose proof (Z.mod_pos_bound (value w) (value v) ltac:(lia)) as Hm.
  assert (HVw : value v < BASE ^ length w).
  { pose proof (value_range _ Hv). rewrite Hl, Nat2Z.inj_succ, Z.pow_succ_r by lia. 
    unfold BASE in *. lia. }
  set (W := BASE ^ length w) in *. set (r := mul_sub qhat v w 0 0) in *.
  set (q := value w / value v) in *.
  destruct (Z.eqb_spec (snd r) 0) as [E|E]; cbn [negb].
  - cbn [fst snd]. rewrite E in H4.
    assert (qhat = q) as -> by nia. repeat split; try done. nia.
  - assert (Es : snd r = 1) by lia. rewrite Es in H4.
    assert (qhat = q + 1) as -> by nia. cbn [fst snd].
    destruct (add_back_spec v (fst r) 0 Hv H1) as (B1 & B2 & out & B3 & B4);
      [congruence | lia |].
    pose proof (value_range _ B1) as Br. rewrite B2, H2 in Br. rewrite H2 in B4. fold W in Br, B4.
    assert (Eo : out = 1).
    { destruct (decide (out = 0)) as [->|]; [|lia]. nia. }
    u64_exact. repeat split; [lia | done | congruence |]. rewrite B4, Eo. nia.
Qed.

(** ** The estimate of a quotient limb

    [P] is the weight of the leading limbs the estimate reads. *)

Lemma estimate_upper P V U vn1 top2 : 0 < P -> 0 < vn1 -> vn1 * P <= V -> 0 <= U ->
  U < (top2 + 1) * P -> U / V <= top2 / vn1.
Proof.
  intros HP Hv HV HU Ht. assert (0 < V) by nia. apply Z.div_le_lower_bound; [done|].
  pose proof (Z.mul_div_le U V ltac:(lia)). pose proof (Z.div_pos U V ltac:(lia) ltac:(lia)).
  assert (vn1 * (U / V) * P < (top2 + 1) * P) by nia. nia.
Qed.

Lemma estimate_fires P V U v2 t3 qh : 0 < P -> 0 < v2 -> v2 * P <= V -> 0 <= t3 ->
  U < (t3 + 1) * P -> t3 < qh * v2 -> U / V < qh.
Proof.
  intros HP Hv HV Ht HU Hq. assert (0 < V) by nia. apply Z.div_lt_upper_bound; [done|].
  assert (0 < qh) by nia. assert (qh * (v2 * P) <= qh * V) by nia. nia.
Qed.

Lemma estimate_close P V U v2 t3 qh : 0 < P -> 0 < V -> V < (v2 + 1) * P -> t3 * P <= U ->
  0 <= qh <= v2 + 1 -> 0 <= t3 -> qh * v2 <= t3 -> qh <= U / V + 1.
Proof.
  intros HP HV HV2 HU Hq Ht Hle.
  assert (qh - 1 <= U / V); [|lia]. apply Z.div_le_lower_bound; [done|].
  destruct (decide (qh = 0)) as [->|]; [nia|].
  assert (V * (qh - 1) <= (v2 + 1) * P * (qh - 1)) by nia. nia.
Qed.

Lemma leading_le P V U vn1 vn2 hi lo un2 : 0 < P -> 0 <= vn2 < BASE ->
  0 <= lo < BASE -> 0 <= un2 < BASE ->
  V < P * (vn2 + BASE * vn1) + P -> P * (un2 + BASE * (lo + BASE * hi)) <= U ->
  U < BASE * V -> hi < vn1 + 1.
Proof.
  intros HP Hv2 Hlo Hu2 HV HU Hlt. apply Z.mul_lt_mono_pos_l with (P * (BASE * BASE)).
  - unfold BASE. lia.
  - assert (P * (vn2 + 1) <= P * BASE) by (apply Z.mul_le_mono_nonneg_l; lia).
    assert (0 <= P * un2 /\ 0 <= P * lo) as [? ?] by (split; apply Z.mul_nonneg_nonneg; lia).
    unfold BASE in *. lia.
Qed.

(** The estimate from the leading limbs is the true limb or one more. *)
Lemma estimate_arith P V U vn1 vn2 hi lo un2 :
  0 < P -> 0 <= vn1 < BASE -> BASE <= 2 * vn1 -> 0 <= vn2 < BASE ->
  0 <= hi < BASE -> 0 <= lo < BASE -> 0 <= un2 < BASE ->
  P * (vn2 + BASE * vn1) <= V < P * (vn2 + BASE * vn1) + P ->
  P * (un2 + BASE * (lo + BASE * hi)) <= U < P * (un2 + BASE * (lo + BASE * hi)) + P ->
  U < BASE * V ->
  exists qhat,
    (if vn1 =? 0 then UB
     else let top2 := u64 (u64 (hi * BASE) + lo) in
          refine 3 true vn1 vn2 un2 (top2 / vn1) (top2 mod vn1)) = Ok qhat /\
    0 <= qhat < BASE /\ U / V <= qhat <= U / V + 1.
Proof.
  intros HP Hv1 Hn Hv2 Hhi Hlo Hu2 HV HU Hlt. decide_cmp. u64_exact.
  set (top2 := hi * BASE + lo). cbv zeta.
  assert (Hp : 0 <= P * vn2 /\ 0 <= P * un2 /\ 0 <= P * lo /\ 0 <= P * hi /\
    P * un2 + P <= P * BASE /\ P * vn1 > 0) by nia.
  assert (HVp : 0 < V) by (unfold BASE in *; nia).
  assert (HU0 : 0 <= U) by (unfold BASE in *; nia).
  pose proof (Z.div_pos U V HU0 HVp) as Hq0.
  pose proof (Z.div_lt_upper_bound U V BASE HVp ltac:(lia)) as Hq1.
  assert (Htop : top2 < vn1 * BASE + BASE).
  { unfold top2. assert (hi < vn1 + 1); [|unfold BASE in *; lia].
    apply (leading_le P V U vn1 vn2 hi lo un2); tauto. }
  pose proof (Z.div_mod top2 vn1 ltac:(lia)) as Hdm.
  pose proof (Z.mod_pos_bound top2 vn1 ltac:(lia)) as Hm.
  pose proof (estimate_upper (P * BASE) V U vn1 top2 ltac:(unfold BASE in *; lia)
    ltac:(lia) ltac:(unfold BASE in *; lia) HU0 ltac:(unfold top2, BASE in *; lia)) as Hup.
  destruct (refine_spec 3 true vn1 vn2 un2 (top2 / vn1) (top2 mod vn1) top2 (U / V)) as
    (qh & rh & -> & Hqh & _ & Hrh & Heq & Hex); try lia.
  - split; [done|]. apply Z.lt_succ_r, Z.div_lt_upper_bound; [lia|]. unfold BASE in *; lia.
  - intros _ q r Hqr Hf. apply (estimate_fires P V U (vn2 + BASE * vn1) (un2 + BASE * top2));
      unfold top2, BASE in *; lia.
  - exists qh. repeat split; try lia. specialize (Hex eq_refl).
    apply (estimate_close P V U (vn2 + BASE * vn1) (un2 + BASE * top2));
      unfold top2, BASE in *; lia.
Qed.

(** A vector whose last two digits are [y] and [x], the last one first. *)
Lemma last_two (l : list Z) n : length l = S (S n) ->
  exists l0 y x, l = l0 ++ [y; x] /\ length l0 = n.
Proof.
  intros Hl. destruct l as [|x l1 _] using rev_ind; [done|].
  destruct l1 as [|y l0 _] using rev_ind; [done|].
  exists l0, y, x. rewrite !length_app in Hl. cbn in Hl. rewrite <- app_assoc. split; [done | lia].
Qed.

Lemma take_drop_get (u : list Z) j n i x : (i <= n)%nat -> take (S n) (drop j u) !! i = Some x ->
  u !! (j + i)%nat = Some x.
Proof. intros Hi. by rewrite lookup_take_lt, lookup_drop by lia. Qed.

(** The limbs the estimate reads, for a divisor of at least two limbs. *)
Lemma estimate_reads v u j v0 vn2 vn1 w0 un2 lo hi :
  v = v0 ++ [vn2; vn1] -> take (S (length v)) (drop j u) = w0 ++ [un2; lo; hi] ->
  length w0 = length v0 ->
  estimate v u j =
    if vn1 =? 0 then UB
    else let top2 := u64 (u64 (hi * BASE) + lo) in
         refine 3 true vn1 vn2 un2 (top2 / vn1) (top2 mod vn1).
Proof.
  intros Ev Ew Hl.
  assert (En : length v = S (S (length v0))) by (rewrite Ev, length_app; cbn; lia).
  assert (Hg : forall (i : nat) x, [un2; lo; hi] !! i = Some x -> get u (j + length v0 + i)%Z = Ok x).
  { intros i x Hx. pose proof (lookup_lt_Some _ _ _ Hx) as Hi. cbn in Hi.
    apply get_Ok; [lia|]. replace (Z.to_nat (j + length v0 + i)) with (j + (length v0 + i))%nat by lia.
    apply (take_drop_get u j (length v)); [lia|]. rewrite Ew, lookup_app_r by lia.
    by replace (length v0 + i - length w0)%nat with i by lia. }
  assert (Hgv : forall (i : nat) x, [vn2; vn1] !! i = Some x -> get v (length v0 + i)%Z = Ok x).
  { intros i x Hx. apply get_Ok; [lia|]. rewrite Ev.
    replace (Z.to_nat (length v0 + i)) with (length v0 + i)%nat by lia.
    rewrite lookup_app_r by lia. by replace (length v0 + i - length v0)%nat with i by lia. }
  unfold estimate, estimate_in. rewrite En.
  replace (j + S (S (length v0))) with (j + length v0 + 2%nat) by lia.
  replace (j + length v0 + 2%nat - 1) with (j + length v0 + 1%nat) by lia.
  replace (j + length v0 + 2%nat - 2) with (j + length v0 + 0%nat) by lia.
  replace (S (S (length v0)) - 1) with (length v0 + 1%nat) by lia.
  replace (S (S (length v0)) - 2) with (length v0 + 0%nat) by lia.
  by rewrite (Hg 2%nat hi), (Hg 1%nat lo), (Hg 0%nat un2), (Hgv 1%nat vn1), (Hgv 0%nat vn2).
Qed.

Lemma estimate_spec v u j : limbs v -> limbs u -> (2 <= length v)%nat ->
  (j + length v < length u)%nat ->
  (exists vn1, last v = Some vn1 /\ BASE <= 2 * vn1) ->
  let w := take (S (length v)) (drop j u) in
  value w < BASE * value v ->
  exists qhat, estimate v u j = Ok qhat /\ 0 <= qhat < BASE /\
    value w / value v <= qhat <= value w / value v + 1.
Proof.
  intros Hv Hu Hn Hj (vn1 & Hlast & Hnorm) w Hw.
  destruct (last_two v (length v - 2)) as (v0 & vn2 & x & Ev & Hl0); [lia|].
  assert (x = vn1) as ->.
  { rewrite Ev, (last_app_cons v0) in Hlast. by injection Hlast. }
  assert (Hlw : length w = S (length v)) by (unfold w; rewrite length_take, length_drop; lia).
  destruct (last_two w (length v - 1)) as (w1 & lo & hi & Ew & Hl1); [lia|].
  destruct w1 as [|un2 w0 _] using rev_ind; [cbn in Hl1; lia|].
  rewrite length_app in Hl1. cbn in Hl1.
  rewrite <- app_assoc in Ew. cbn [app] in Ew.
  rewrite (estimate_reads v u j v0 vn2 vn1 w0 un2 lo hi Ev Ew ltac:(lia)).

  assert (Hwd : limbs w) by (apply Forall_take, Forall_drop, Hu).
  fold w in Ew. rewrite Ev in Hv. rewrite Ew in Hwd, Hw |- *. rewrite Ev in Hw |- *.
  apply digits_app in Hv as [Hv0 Hv]. apply digits_app in Hwd as [Hw0 Hwd].
  pose proof (value_range _ Hv0) as Rv. pose proof (value_range _ Hw0) as Rw.
  apply digits_cons in Hv as [Hb2 [Hb1 _]%digits_cons].
  apply digits_cons in Hwd as [Hd2 [Hlo [Hhi _]%digits_cons]%digits_cons].
  rewrite !eval_app in Hw |- *. replace (length w0) with (length v0) in * by lia.
  cbn [eval] in Hw |- *. set (P := BASE ^ length v0) in *.
  set (V := value v0 + P * (vn2 + BASE * (vn1 + BASE * 0))) in *.
  set (U := value w0 + P * (un2 + BASE * (lo + BASE * (hi + BASE * 0)))) in *.
  apply (estimate_arith P V U vn1 vn2 hi lo un2); unfold U, V in *; try done; lia.
Qed.

(** ** The main loop *)

(** A normalised divisor: Algorithm D wants its top limb at least half the
    base. *)
Definition normalised (v : list Z) : Prop :=
  limbs v /\ (2 <= length v)%nat /\ exists vn1, last v = Some vn1 /\ BASE <= 2 * vn1.

Lemma normalised_pos v : normalised v -> 0 < value v.
Proof.
  intros (Hv & Hn & vn1 & Hl & H).
  pose proof (eval_last_lower BASE BASE_gt_1 v vn1 Hv Hl ltac:(unfold BASE in *; lia)).
  pose proof (Z.pow_pos_nonneg BASE (length v - 1) ltac:(done) ltac:(lia)). lia.
Qed.

(** The limbs above a part smaller than the divisor are zero. *)
Lemma above_zero v l : limbs v -> limbs l -> value l < value v ->
  (length v <= length l)%nat -> value (drop (length v) l) = 0.
Proof.
  intros Hv Hl Hlt Hlen. rewrite (eval_take_drop BASE (length v) l Hlen) in Hlt.
  pose proof (value_range v Hv). pose proof (value_range _ (Forall_take _ (length v) _ Hl)).
  pose proof (value_range _ (Forall_drop _ (length v) _ Hl)). nia.
Qed.

Lemma div_step_spec v u j : normalised v -> limbs u -> (j + length v < length u)%nat ->
  value (drop (S j) u) < value v ->
  exists q u', div_step v u j = Ok (q, u') /\ 0 <= q < BASE /\ limbs u' /\
    length u' = length u /\ value (drop j u') < value v /\
    value u = value u' + BASE ^ j * (q * value v).
Proof.
  intros Hnv Hu Hj Hlt. pose proof (normalised_pos v Hnv) as Hpos.
  destruct Hnv as (Hv & Hn & Hnorm).
  set (w := take (S (length v)) (drop j u)). set (rest := drop (j + S (length v)) u).
  assert (Hlw : length w = S (length v)) by (unfold w; rewrite length_take, length_drop; lia).
  assert (Hw : limbs w) by apply Forall_take, Forall_drop, Hu.
  assert (Hrest : value rest = 0).
  { replace rest with (drop (length v) (drop (S j) u)) by (unfold rest; rewrite drop_drop; f_equal; lia).
    apply above_zero; [done | apply Forall_drop, Hu | done | rewrite length_drop; lia]. }
  assert (Eu : u = take j u ++ w ++ rest).
  { unfold w, rest. rewrite <- drop_drop, take_drop, take_drop. done. }
  assert (Hval : value (drop j u) = value w).
  { rewrite Eu at 1. rewrite drop_app_length' by (rewrite length_take; lia).
    rewrite eval_app, Hrest. lia. }
  assert (Hwin : value w < BASE * value v).
  { rewrite <- Hval. destruct (drop j u) as [|x t] eqn:E.
    { apply (f_equal length) in E. rewrite length_drop in E. cbn in E. lia. }
    assert (drop (S j) u = t) as Et by (by rewrite <- Nat.add_1_r, <- drop_drop, E).
    rewrite Et in Hlt. assert (limbs (x :: t)) as [Hx _]%digits_cons.
    { rewrite <- E. apply Forall_drop, Hu. }
    cbn [eval]. unfold BASE in *. lia. }
  destruct (estimate_spec v u j Hv Hu Hn Hj Hnorm Hwin) as (qhat & Eq & Hq & Hest).
  destruct (reduce_spec qhat v w Hv Hw Hlw Hpos Hq Hest) as (Hf & Hd & Hl & Hm).
  pose proof (Z.mod_pos_bound (value w) (value v) Hpos) as Hmod.
  assert (Hqr : 0 <= value w / value v < BASE).
  { pose proof (value_range w Hw). split; [apply Z.div_pos; lia|].
    by apply Z.div_lt_upper_bound; [|rewrite Z.mul_comm]. }
  unfold div_step. rewrite Eq. cbn [bind]. fold w rest. rewrite Hf.
  rewrite u32_id by (unfold BASE in *; lia).
  exists (value w / value v), (take j u ++ snd (reduce qhat v w) ++ rest).
  assert (Hlj : length (take j u) = j) by (rewrite length_take; lia).
  split; [done|]. split; [done|]. split.
  { apply digits_app. split; [apply Forall_take, Hu|]. apply digits_app.
    split; [done | apply Forall_drop, Hu]. }
  split; [rewrite Eu at 2; rewrite !length_app, Hl; done|]. split.
  - rewrite drop_app_length' by done. rewrite eval_app, Hrest, Hm. lia.
  - rewrite Eu at 1. rewrite !eval_app, Hlj, Hl, Hrest, Hm.
    pose proof (Z.div_mod (value w) (value v) ltac:(lia)). nia.
Qed.

Lemma div_loop_spec v k u q : normalised v -> limbs u ->
  (k + length v <= length u)%nat -> value (drop k u) < value v ->
  exists qs u', div_loop v k u q = Ok (qs ++ q, u') /\ limbs qs /\ length qs = k /\
    limbs u' /\ length u' = length u /\ value u' < value v /\
    value u = value u' + value qs * value v.
Proof.
  intros Hv. revert u q. induction k as [|k IH]; intros u q Hu Hk Hlt.
  { exists [], u. cbn [div_loop app eval length]. repeat split; [constructor | done | done | lia]. }
  destruct (div_step_spec v u k Hv Hu) as (qj & u1 & E & Hq & Hu1 & Hl1 & Hd1 & He1);
    [lia | done|].
  cbn [div_loop]. rewrite E. cbn [bind fst snd].
  destruct (IH u1 (qj :: q)) as (qs & u2 & -> & Hqs & Hlq & Hu2 & Hl2 & Hlt2 & He2);
    [done | lia | done|].
  exists (qs ++ [qj]), u2. rewrite <- app_assoc. split; [done|]. split.
  { apply digits_app. split; [done|]. apply digits_cons. by split; [|constructor]. }
  rewrite length_app, eval_app, Hlq. cbn [length eval].
  do 4 (split; [first [done | lia]|]). rewrite He1, He2. ring.
Qed.

(** ** The whole division *)

(** The divisor is normalised by [d = BASE / (v[n-1] + 1)]. *)
Lemma scale_factor x : 0 < x < BASE ->
  let d := BASE / (x + 1) in 0 < d < BASE /\ d * (x + 1) <= BASE /\ BASE <= 2 * (d * x).
Proof.
  intros Hx d. pose proof (Z.div_mod BASE (x + 1) ltac:(lia)) as Hdm.
  pose proof (Z.mod_pos_bound BASE (x + 1) ltac:(lia)) as Hm. fold d in Hdm.
  assert (1 <= d) by (apply Z.div_le_lower_bound; lia).
  assert (d * 2 <= d * (x + 1)) by (apply Z.mul_le_mono_nonneg_l; lia).
  assert (2 <= x + 1) by lia.
  destruct (decide (d = 1)) as [E|]; [rewrite E in *; unfold BASE in *; lia|].
  repeat split; try lia. unfold BASE in *. nia.
Qed.

(** Scaling by [d], skipped when [d] is one. *)
Lemma scaled_spec d l : 0 < d < BASE -> limbs l -> d * value l < BASE ^ length l ->
  let l' := if 1 <? d then scale d 0 l else l in
  limbs l' /\ length l' = length l /\ value l' = d * value l.
Proof.
  intros Hd Hl Hlt l'. subst l'. destruct (Z.ltb_spec 1 d).
  - destruct (scale_spec d 0 l) as (? & ? & Hv); try done; try lia. split; [done|].
    rewrite Hv. split; [done | lia].
  - assert (d = 1) as -> by lia. repeat split; [done | lia].
Qed.

(** The divisor of the main loop is normalised. *)
Lemma scaled_normalised v vn1 : limbs v -> (2 <= length v)%nat ->
  last v = Some vn1 -> 0 < vn1 ->
  let d := BASE / (vn1 + 1) in
  let v' := if 1 <? d then scale d 0 v else v in
  normalised v' /\ length v' = length v /\ value v' = d * value v.
Proof.
  intros Hv Hn Hlast Hpos d v'.
  pose proof Hlast as Hl. apply last_Some in Hl as [v0 Ev].
  assert (Hvn : 0 <= vn1 < BASE).
  { rewrite Ev in Hv. by apply digits_app in Hv as [_ [? _]%digits_cons]. }
  destruct (scale_factor vn1 ltac:(lia)) as (Hd & Hup & Hlow). fold d in Hd, Hup, Hlow.
  assert (Hval : value v = value v0 + BASE ^ length v0 * vn1).
  { rewrite Ev, eval_app. cbn [eval]. lia. }
  assert (Hlen : length v = S (length v0)) by (rewrite Ev, length_app; cbn; lia).
  assert (Hv0 : 0 <= value v0 < BASE ^ length v0).
  { apply value_range. rewrite Ev in Hv. by apply digits_app in Hv as [? _]. }
  destruct (scaled_spec d v Hd Hv) as (H1 & H2 & H3).
  { rewrite Hlen, Nat2Z.inj_succ, Z.pow_succ_r, Hval by lia. nia. }
  fold v' in H1, H2, H3. split; [|by split]. split; [done|]. split; [lia|].
  destruct v' as [|x v1 _] using rev_ind; [cbn in H2; lia|].
  exists x. split; [by rewrite last_snoc|].
  apply digits_app in H1 as [H1 _]. apply value_range in H1.
  rewrite length_app in H2. cbn in H2. assert (length v1 = length v0) as E by lia.
  rewrite eval_app, E in H3. rewrite E in H1. cbn [eval] in H3. rewrite Hval in H3.
  assert (d * vn1 < x + 1); [|lia].
  apply Z.mul_lt_mono_pos_l with (BASE ^ length v0); nia.
Qed.

(** The limbs of the scaled dividend above the first window. *)
Lemma scaled_top d u v u' : 0 < d -> limbs u -> limbs u' -> (2 <= length v)%nat ->
  (length v <= length u)%nat -> BASE ^ (length v - 1) <= value v ->
  length u' = S (length u) -> value u' = d * value u ->
  value (drop (S (length u) - length v) u') < d * value v.
Proof.
  intros Hd Hu Hu' Hn Hl Hlow Hl' Hv. set (k := (S (length u) - length v)%nat).
  rewrite (eval_take_drop BASE k u') in Hv by lia.
  pose proof (value_range _ (Forall_take _ k _ Hu')) as Ht. pose proof (value_range u Hu) as Hr.
  replace (Z.of_nat (length u)) with (Z.of_nat k + (length v - 1)) in Hr by lia.
  rewrite Z.pow_add_r in Hr by lia.
  assert (value (drop k u') < d * BASE ^ (length v - 1)); [|nia].
  pose proof (Z.pow_pos_nonneg BASE k ltac:(done) ltac:(lia)).
  apply Z.mul_lt_mono_pos_l with (BASE ^ k); nia.
Qed.

(** Step D8 divides the scaled remainder by [d] exactly. *)
Lemma unscale_spec d rem r : 0 < d < BASE -> limbs rem -> value rem = d * r ->
  exists rem', (if 1 <? d then x <- div_limbs rem d ;; Ok (fst x) else Ok rem) = Ok rem' /\
    limbs rem' /\ length rem' = length rem /\ value rem' = r.
Proof.
  intros Hd Hrem Hr. destruct (Z.ltb_spec 1 d).
  - destruct (div_limbs_spec rem d Hrem Hd) as (q & x & -> & Hq & Hl & Hx & Hv).
    exists q. cbn [bind fst]. split; [done|]. split; [done|]. split; [done|].
    rewrite Hr in Hv. assert (value q <= r < value q + 1) by nia. lia.
  - assert (d = 1) as -> by lia. exists rem. repeat split; [done | lia].
Qed.

Lemma unscaled d U V q r : 0 < d -> 0 < V -> d * U = r + q * (d * V) -> 0 <= r < d * V ->
  q = U / V /\ r = d * (U mod V).
Proof.
  intros Hd HV He Hr. assert (Hr0 : 0 <= U - V * q < V) by nia.
  assert (Hdm : U = V * q + (U - V * q)) by lia.
  rewrite <- (Z.div_unique_pos U V q _ Hr0 Hdm), <- (Z.mod_unique_pos U V q _ Hr0 Hdm). lia.
Qed.

Lemma divmodMag_spec u v : limbs u -> canonical v -> (2 <= length v)%nat ->
  (length v <= length u)%nat ->
  exists q r, divmodMag u v = Ok (q, r) /\ canonical q /\ canonical r /\
    value q = value u / value v /\ value r = value u mod value v.
Proof.
  intros Hu [Hv (vn1 & Hlast & Hnz)] Hn Hl.
  assert (Hpos : 0 < vn1 < BASE).
  { assert (vn1 <> 0) by (intros E; rewrite (Hnz E) in Hn; cbn in Hn; lia).
    pose proof Hlast as [v0 E]%last_Some. rewrite E in Hv.
    apply digits_app in Hv as [_ [? _]%digits_cons]. lia. }
  pose proof (eval_last_lower BASE BASE_gt_1 v vn1 Hv Hlast ltac:(lia)) as Hlow.
  destruct (scale_factor vn1 Hpos) as (Hd & _ & _).
  destruct (scaled_normalised v vn1 Hv Hn Hlast ltac:(lia)) as (Hnv & Hlv & Hvv).
  unfold divmodMag.
  assert (get v (length v - 1) = Ok vn1) as ->.
  { apply get_Ok; [lia|]. replace (Z.to_nat (length v - 1)) with (pred (length v)) by lia.
    by rewrite <- last_lookup. }
  cbn [bind]. destruct (Nat.ltb_spec (length u) (length v)); [lia|].
  set (d := BASE / (vn1 + 1)) in *.
  set (v' := if 1 <? d then scale d 0 v else v) in *.
  destruct (scaled_spec d (u ++ [0]) Hd) as (Hu' & Hlu & Hvu).
  { apply digits_app. split; [done | by repeat constructor]. }
  { rewrite eval_app, length_app, Nat2Z.inj_add, Z.pow_add_r by lia. cbn [eval length].
    pose proof (value_range u Hu). change (BASE ^ 1%nat) with BASE. nia. }
  set (u' := if 1 <? d then scale d 0 (u ++ [0]) else u ++ [0]) in *.
  rewrite length_app, Nat.add_1_r in Hlu |- *.
  rewrite eval_app in Hvu. cbn [eval] in Hvu.
  assert (Hk : value (drop (S (length u) - length v) u') < value v').
  { rewrite Hvv. apply (scaled_top d u v u'); try done; lia. }
  destruct (div_loop_spec v' (S (length u) - length v) u' [] Hnv Hu') as
    (q & uf & -> & Hq & Hlq & Huf & Hlf & Hlt & He); [lia | done |].
  cbn [bind fst snd]. rewrite app_nil_r.
  assert (Hrem : value (take (length v) uf) = value uf).
  { destruct Hnv as [Hv' _]. pose proof (above_zero v' uf Hv' Huf Hlt ltac:(lia)) as Hz.
    rewrite Hlv in Hz. rewrite (eval_take_drop BASE (length v) uf), Hz by lia. lia. }
  assert (HV : 0 < value v).
  { pose proof (Z.pow_pos_nonneg BASE (length v - 1) ltac:(done) ltac:(lia)). lia. }
  destruct (unscaled d (value u) (value v) (value q) (value uf)) as [Eq Er]; try lia.
  { pose proof (value_range uf Huf). lia. }
  rewrite Er in Hrem.
  destruct (unscale_spec d (take (length v) uf) _ Hd (Forall_take _ _ _ Huf) Hrem) as
    (rem & -> & Hr & Hlr & Hvr).
  cbn [bind]. exists (strip q), (strip rem). rewrite !strip_eval.
  split; [done|]. split; [|split; [|by split]].
  - split; [by apply strip_digits|]. apply strip_trimmed. intros ->. cbn in Hlq. lia.
  - split; [by apply strip_digits|]. apply strip_trimmed. intros ->.
    rewrite length_take in Hlr. cbn in Hlr. lia.
Qed.

(** ** Properties *)

(** C5: for a normalised divisor of at least two limbs and a window below
    [BASE] times the divisor, the refinement loop of Algorithm D ends within
    two adjustments - any larger bound on its rounds gives the same estimate -
    the estimate is the true quotient limb or one more, and the
    multiply-subtract with its add-back then leaves the true limb and the
    remainder in the window. *)
Theorem divmodMag_estimate_terminates v u j rounds :
  normalised v -> limbs u -> (j + length v < length u)%nat ->
  value (take (S (length v)) (drop j u)) < BASE * value v -> (3 <= rounds)%nat ->
  let w := take (S (length v)) (drop j u) in
  exists qhat, estimate_in rounds v u j = Ok qhat /\
    value w / value v <= qhat <= value w / value v + 1 /\
    fst (reduce qhat v w) = value w / value v /\
    value (snd (reduce qhat v w)) = value w mod value v.
Proof.
  intros Hv Hu Hj Hlt Hr w. pose proof (normalised_pos v Hv) as Hpos.
  destruct Hv as (Hd & Hn & Hnorm).
  destruct (estimate_spec v u j Hd Hu Hn Hj Hnorm Hlt) as (qhat & E & Hq & Hest).
  assert (Hw : limbs w) by apply Forall_take, Forall_drop, Hu.
  assert (Hl : length w = S (length v)) by (unfold w; rewrite length_take, length_drop; lia).
  destruct (reduce_spec qhat v w Hd Hw Hl Hpos Hq Hest) as (H1 & _ & _ & H2).
  exists qhat. split; [by apply estimate_more|]. exact (conj Hest (conj H1 H2)).
Qed.

Lemma divmodMag_estimate_terminates_witness :
  exists qhat, estimate_in 7 [2; 999999999; 500000000] [999999998; 2; 500000001; 499999999] 0 = Ok qhat.
Proof.
  destruct (divmodMag_estimate_terminates [2; 999999999; 500000000]
    [999999998; 2; 500000001; 499999999] 0 7) as (qhat & H & _).
  - refine (conj (bool_decide_unpack _ _) (conj (bool_decide_unpack _ _)
      (ex_intro _ 500000000 (conj eq_refl _)))); try (vm_compute; exact I).
    vm_compute. intros H. discriminate H.
  - refine (bool_decide_unpack _ _). vm_compute. exact I.
  - vm_compute. lia.
  - vm_compute. reflexivity.
  - lia.
  - exact (ex_intro _ qhat H).
Defined.
