(* ===== verification/BigInteger.v ===== *)
(** * BigInteger: the value and its arithmetic

    [System::Numerics::BigInteger]: sign and magnitude, the integer
    constructors, the properties, the arithmetic and comparison operators.
    Every object the class hands out is in canonical form, and on canonical
    objects each operator is the operator of the integers. *)

From S2P Require Export BigDiv.

Module BigInteger.

Record BigInteger := mk { negative_ : bool; mag_ : list Z }.

#[global] Instance BigInteger_eq_dec : EqDecision BigInteger.
Proof. solve_decision. Defined.

(** [mag_.size() == 1 && mag_[0] == 0] *)
Definition is_zero_mag (m : list Z) : bool := match m with [x] => x =? 0 | _ => false end.

Definition trim (r : BigInteger) : BigInteger :=
  let m := strip (mag_ r) in
  mk (if is_zero_mag m then false else negative_ r) m.

(** ** Constructors *)

Definition new : BigInteger := mk false [0].

(** From [intcs]; the negation is of the value widened to [int64_t]. *)
Definition of_intcs (v : Z) : BigInteger :=
  let negative := v <? 0 in
  mk negative (fromUInt64 (if negative then u64 (- v) else u64 v)).

(** From [longcs]: [0ULL - (uint64_t)v]. *)
Definition of_longcs (v : Z) : BigInteger :=
  let negative := v <? 0 in
  mk negative (fromUInt64 (if negative then usub 64 0 (u64 v) else u64 v)).

(** ** Properties *)

Definition getIsZeroProperty (x : BigInteger) : bool := is_zero_mag (mag_ x).

Definition getIsOneProperty (x : BigInteger) : bool :=
  negb (negative_ x) && match mag_ x with [y] => y =? 1 | _ => false end.

Definition getIsNegativeProperty (x : BigInteger) : bool := negative_ x.

Definition Sign (x : BigInteger) : Z :=
  if getIsZeroProperty x then 0 else if negative_ x then -1 else 1.

(** ** Arithmetic operators *)

Definition op_neg (x : BigInteger) : BigInteger :=
  if negb (getIsZeroProperty x) then mk (negb (negative_ x)) (mag_ x) else x.

Definition Abs (x : BigInteger) : BigInteger := mk false (mag_ x).

Definition op_add (x o : BigInteger) : BigInteger :=
  if eqb (negative_ x) (negative_ o) then trim (mk (negative_ x) (addMag (mag_ x) (mag_ o)))
  else
    let c := cmpMag (mag_ x) (mag_ o) in
    if c =? 0 then of_intcs 0
    else if 0 <? c then trim (mk (negative_ x) (subMag (mag_ x) (mag_ o)))
    else trim (mk (negative_ o) (subMag (mag_ o) (mag_ x))).

Definition op_sub (x o : BigInteger) : BigInteger := op_add x (op_neg o).

Definition op_mul (x o : BigInteger) : res BigInteger :=
  m <- mulMag (mag_ x) (mag_ o) ;;
  Ok (trim (mk (negb (eqb (negative_ x) (negative_ o))) m)).

Definition divide_by_zero : exn := DivideByZeroException "Attempted to divide by zero.".

Definition op_div (x o : BigInteger) : res BigInteger :=
  _ <- throw_if (getIsZeroProperty o) divide_by_zero ;;
  if getIsZeroProperty x then Ok (of_intcs 0)
  else
    let c := cmpMag (mag_ x) (mag_ o) in
    if c <? 0 then Ok (of_intcs 0)
    else if c =? 0 then
      Ok (mk (negb (eqb (negative_ x) (negative_ o))) (mag_ (of_intcs 1)))
    else
      q <- match mag_ o with
           | [b] => qr <- divMagByLimb (mag_ x) b ;; Ok (fst qr)
           | _ => qr <- divmodMag (mag_ x) (mag_ o) ;; Ok (fst qr)
           end ;;
      Ok (trim (mk (negb (eqb (negative_ x) (negative_ o))) q)).

Definition op_rem (x o : BigInteger) : res BigInteger :=
  _ <- throw_if (getIsZeroProperty o) divide_by_zero ;;
  if getIsZeroProperty x then Ok (of_intcs 0)
  else
    let c := cmpMag (mag_ x) (mag_ o) in
    if c <? 0 then Ok x
    else if c =? 0 then Ok (of_intcs 0)
    else
      rem <- match mag_ o with
             | [b] => qr <- divMagByLimb (mag_ x) b ;; Ok [snd qr]
             | _ => qr <- divmodMag (mag_ x) (mag_ o) ;; Ok (snd qr)
             end ;;
      Ok (trim (mk (negative_ x) rem)).

(** ** Comparison operators *)

Definition op_eq (x o : BigInteger) : bool :=
  eqb (negative_ x) (negative_ o) && bool_decide (mag_ x = mag_ o).
Definition op_ne (x o : BigInteger) : bool := negb (op_eq x o).
Definition op_lt (x o : BigInteger) : bool :=
  if negb (eqb (negative_ x) (negative_ o)) then negative_ x
  else
    let c := cmpMag (mag_ x) (mag_ o) in
    if negative_ x then 0 <? c else c <? 0.
Definition op_le (x o : BigInteger) : bool := negb (op_lt o x).
Definition op_gt (x o : BigInteger) : bool := op_lt o x.
Definition op_ge (x o : BigInteger) : bool := negb (op_lt x o).

(** ** Compound assignment: the new value of [*this] *)

Definition add_assign (x o : BigInteger) : BigInteger := op_add x o.
Definition sub_assign (x o : BigInteger) : BigInteger := op_sub x o.
Definition mul_assign (x o : BigInteger) : res BigInteger := op_mul x o.
Definition div_assign (x o : BigInteger) : res BigInteger := op_div x o.
Definition rem_assign (x o : BigInteger) : res BigInteger := op_rem x o.

(** ** Constants *)

Definition Zero : BigInteger := of_intcs 0.
Definition One : BigInteger := of_intcs 1.
Definition MinusOne : BigInteger := of_intcs (-1).

(** ** The integer an object stands for *)

(** The invariant of the class: a canonical magnitude, and no negative zero. *)
Definition well_formed (x : BigInteger) : Prop :=
  canonical (mag_ x) /\ (mag_ x = [0] -> negative_ x = false).

Definition signed (neg : bool) (m : Z) : Z := if neg then - m else m.
Definition to_Z (x : BigInteger) : Z := signed (negative_ x) (value (mag_ x)).

(** [x] is the canonical object of the integer [z]. *)
Definition represents (x : BigInteger) (z : Z) : Prop := well_formed x /\ to_Z x = z.

(** ** Canonical objects *)

Lemma canonical_value m : canonical m -> 0 <= value m.
Proof. intros [Hm _]. pose proof (value_range m Hm). lia. Qed.

Lemma is_zero_mag_true m : is_zero_mag m = true <-> m = [0].
Proof.
  destruct m as [|x [|y m]]; cbn; rewrite ?Z.eqb_eq; split; congruence.
Qed.

Lemma canonical_ne m : canonical m -> m <> [].
Proof. by intros [_ (? & ? & _)] ->. Qed.

Lemma canonical_is_zero m : canonical m -> is_zero_mag m = (value m =? 0).
Proof.
  intros Hm. apply eq_true_iff_eq. rewrite is_zero_mag_true, Z.eqb_eq.
  by rewrite (canonical_zero m Hm).
Qed.

Lemma represents_mk neg m : canonical m -> (value m = 0 -> neg = false) ->
  represents (mk neg m) (signed neg (value m)).
Proof.
  intros Hm Hz. split; [split; [done|]|done]. cbn [mag_ negative_]. intros ->. by apply Hz.
Qed.

Lemma trim_represents neg m : limbs m -> m <> [] ->
  represents (trim (mk neg m)) (signed neg (value m)).
Proof.
  intros Hm Hne. unfold trim. cbn [mag_ negative_].
  assert (Hc : canonical (strip m)) by (split; [by apply strip_digits | by apply strip_trimmed]).
  rewrite <- (strip_eval BASE m), canonical_is_zero by done.
  destruct (Z.eqb_spec (value (strip m)) 0) as [E|E].
  - rewrite E. assert (signed neg 0 = 0) as -> by by destruct neg.
    rewrite <- E. by apply (represents_mk false).
  - by apply represents_mk.
Qed.

(** An integer has one object. *)
Lemma represents_unique x y z : represents x z -> represents y z -> x = y.
Proof.
  intros [[Hcx Hzx] Hx] [[Hcy Hzy] Hy]. destruct x as [nx mx], y as [ny my].
  unfold to_Z in *. cbn [mag_ negative_] in *.
  pose proof (canonical_value mx Hcx). pose proof (canonical_value my Hcy).
  pose proof (canonical_zero mx Hcx). pose proof (canonical_zero my Hcy).
  destruct nx, ny; cbn [signed] in *.
  - f_equal. apply canonical_unique; try done. lia.
  - assert (mx = [0]) as E by (apply canonical_zero; [done | lia]). by specialize (Hzx E).
  - assert (my = [0]) as E by (apply canonical_zero; [done | lia]). by specialize (Hzy E).
  - f_equal. apply canonical_unique; try done. lia.
Qed.

(** What a represented integer says of the fields. *)
Lemma represents_inv x z : represents x z ->
  canonical (mag_ x) /\ value (mag_ x) = Z.abs z /\ negative_ x = (z <? 0) /\
  getIsZeroProperty x = (z =? 0).
Proof.
  intros [[Hc Hz] <-]. pose proof (canonical_value _ Hc) as Hv.
  pose proof (canonical_is_zero _ Hc) as Hzero. pose proof (canonical_zero _ Hc) as Hc0.
  unfold getIsZeroProperty, to_Z. destruct x as [neg m]. cbn [mag_ negative_] in *.
  rewrite Hzero. destruct neg; cbn [signed].
  - assert (value m <> 0) by (intros E; apply Hc0, Hz in E; done).
    repeat split; try apply Hc; lia.
  - repeat split; try apply Hc; lia.
Qed.

Lemma signed_abs z : signed (z <? 0) (Z.abs z) = z.
Proof. unfold signed. destruct (Z.ltb_spec z 0); lia. Qed.

Lemma signed_0 neg : signed neg 0 = 0.
Proof. by destruct neg. Qed.

(** ** Constructors *)

Lemma of_magnitude_represents z m : 0 <= m < 2 ^ 64 -> m = Z.abs z ->
  represents (mk (z <? 0) (fromUInt64 m)) z.
Proof.
  intros Hm ->. destruct (fromUInt64_spec _ Hm) as [Hc Hv].
  pose proof (represents_mk (z <? 0) _ Hc) as H. rewrite Hv, signed_abs in H.
  apply H. lia.
Qed.

Lemma of_intcs_represents v : in_s 32 v -> represents (of_intcs v) v.
Proof.
  intros Hv. unfold of_intcs. apply of_magnitude_represents;
    destruct (Z.ltb_spec v 0); unfold in_s in Hv; rewrite u64_id; lia.
Qed.

Lemma of_longcs_represents v : in_s 64 v -> represents (of_longcs v) v.
Proof.
  intros Hv. unfold of_longcs, usub.
  assert (wrapu 64 (0 - u64 v) = u64 (- v)) as -> by wrap_eq.
  apply of_magnitude_represents; destruct (Z.ltb_spec v 0); unfold in_s in Hv; rewrite u64_id; lia.
Qed.

Lemma zero_represents : represents (of_intcs 0) 0.
Proof. by apply of_intcs_represents. Qed.

(** ** Arithmetic *)

Lemma op_neg_represents x z : represents x z -> represents (op_neg x) (- z).
Proof.
  intros Hx. destruct (represents_inv x z Hx) as (Hc & Hv & Hn & Hz).
  unfold op_neg. rewrite Hz. destruct (Z.eqb_spec z 0) as [->|E]; cbn [negb]; [done|].
  rewrite Hn. pose proof (represents_mk (negb (z <? 0)) (mag_ x) Hc) as H.
  rewrite Hv in H. replace (- z) with (signed (negb (z <? 0)) (Z.abs z)).
  - apply H. lia.
  - unfold signed. destruct (Z.ltb_spec z 0); cbn [negb]; lia.
Qed.

Lemma Abs_represents x z : represents x z -> represents (Abs x) (Z.abs z).
Proof.
  intros Hx. destruct (represents_inv x z Hx) as (Hc & Hv & _ & _).
  rewrite <- Hv. by apply (represents_mk false).
Qed.

Lemma op_add_represents x y a b : represents x a -> represents y b ->
  represents (op_add x y) (a + b).
Proof.
  intros Hx Hy. destruct (represents_inv x a Hx) as (Hcx & Hvx & Hnx & _).
  destruct (represents_inv y b Hy) as (Hcy & Hvy & Hny & _).
  pose proof (canonical_ne _ Hcx) as Nx. pose proof (canonical_ne _ Hcy) as Ny.
  unfold op_add. rewrite cmpMag_spec, Hvx, Hvy, Hnx, Hny by done.
  destruct Hcx as [Hlx _], Hcy as [Hly _].
  destruct (eqb_spec (a <? 0) (b <? 0)) as [E|E].
  - destruct (addMag_spec _ _ Hlx Hly) as [Hl Hv].
    pose proof (trim_represents (a <? 0) _ Hl (addMag_ne _ _ Nx)) as H.
    rewrite Hv, Hvx, Hvy in H. replace (a + b) with (signed (a <? 0) (Z.abs a + Z.abs b)); [done|].
    unfold signed. destruct (Z.ltb_spec a 0), (Z.ltb_spec b 0); try done; lia.
  - destruct (Z.eqb_spec (Z.sgn (Z.abs a - Z.abs b)) 0).
    { replace (a + b) with 0; [apply zero_represents|].
      destruct (Z.ltb_spec a 0), (Z.ltb_spec b 0); try done; lia. }
    destruct (Z.ltb_spec 0 (Z.sgn (Z.abs a - Z.abs b))).
    + destruct (subMag_spec _ _ Hlx Hly) as [[Hl Ht] Hv]; [lia | done|].
      pose proof (trim_represents (a <? 0) _ Hl (canonical_ne _ (conj Hl Ht))) as H1.
      rewrite Hv, Hvx, Hvy in H1. replace (a + b) with (signed (a <? 0) (Z.abs a - Z.abs b)); [done|].
      unfold signed. destruct (Z.ltb_spec a 0), (Z.ltb_spec b 0); try done; lia.
    + destruct (subMag_spec _ _ Hly Hlx) as [[Hl Ht] Hv]; [lia | done|].
      pose proof (trim_represents (b <? 0) _ Hl (canonical_ne _ (conj Hl Ht))) as H1.
      rewrite Hv, Hvx, Hvy in H1. replace (a + b) with (signed (b <? 0) (Z.abs b - Z.abs a)); [done|].
      unfold signed. destruct (Z.ltb_spec a 0), (Z.ltb_spec b 0); try done; lia.
Qed.

Lemma op_sub_represents x y a b : represents x a -> represents y b ->
  represents (op_sub x y) (a - b).
Proof.
  intros Hx Hy. unfold op_sub, Z.sub. apply op_add_represents; [done|].
  by apply op_neg_represents.
Qed.

Lemma op_mul_represents x y a b : represents x a -> represents y b ->
  exists r, op_mul x y = Ok r /\ represents r (a * b).
Proof.
  intros Hx Hy. destruct (represents_inv x a Hx) as (Hcx & Hvx & Hnx & _).
  destruct (represents_inv y b Hy) as (Hcy & Hvy & Hny & _).
  destruct (mulMag_spec (mag_ x) (mag_ y) (proj1 Hcx) (proj1 Hcy) (canonical_ne _ Hcx)) as
    (m & E & Hm & Hv).
  unfold op_mul. rewrite E, Hnx, Hny. cbn [bind]. eexists. split; [done|].
  pose proof (trim_represents (negb (eqb (a <? 0) (b <? 0))) m (proj1 Hm) (canonical_ne _ Hm)) as H.
  rewrite Hv, Hvx, Hvy in H.
  replace (a * b) with (signed (negb (eqb (a <? 0) (b <? 0))) (Z.abs a * Z.abs b)); [done|].
  unfold signed. destruct (Z.ltb_spec a 0), (Z.ltb_spec b 0); cbn [eqb negb]; lia.
Qed.

(** The magnitude division of [/] and [%], by one limb or by several. *)
Lemma magnitude_division m d : canonical m -> canonical d -> 0 < value d < value m ->
  exists q r,
    match d with
    | [b] => qr <- divMagByLimb m b ;; Ok (fst qr)
    | _ => qr <- divmodMag m d ;; Ok (fst qr)
    end = Ok q /\
    match d with
    | [b] => qr <- divMagByLimb m b ;; Ok [snd qr]
    | _ => qr <- divmodMag m d ;; Ok (snd qr)
    end = Ok r /\
    limbs q /\ q <> [] /\ limbs r /\ r <> [] /\
    value q = value m / value d /\ value r = value m mod value d.
Proof.
  intros Hm Hd Hlt. pose proof (canonical_ne m Hm) as Hne.
  destruct d as [|b d]; [by apply canonical_ne in Hd|].
  destruct d as [|b' d].
  - destruct Hd as [[Hb _]%digits_cons _].
    assert (Hvb : value [b] = b) by (cbn [eval]; lia). rewrite Hvb in *.
    destruct (divMagByLimb_spec m b (proj1 Hm) Hne ltac:(lia)) as (q & -> & Hq & Hv).
    exists q, [value m mod b]. cbn [bind fst snd].
    pose proof (Z.mod_pos_bound (value m) b ltac:(lia)).
    do 2 (split; [done|]). split; [apply Hq|]. split; [by apply canonical_ne|].
    split; [apply digits_cons; split; [lia | constructor]|]. split; [done|].
    split; [done|]. cbn [eval]. lia.
  - set (v := b :: b' :: d) in *.
    assert (Hlen : (length v <= length m)%nat).
    { destruct (decide (length v <= length m)%nat); [done|].
      pose proof (trimmed_length_lt BASE m v BASE_gt_1 (proj1 Hm) (proj1 Hd) (proj2 Hd) Hne
        ltac:(lia)). lia. }
    destruct (divmodMag_spec m v (proj1 Hm) Hd) as (q & r & -> & Hq & Hr & Hvq & Hvr);
      [cbn; lia | done|].
    exists q, r. cbn [bind fst snd].
    do 2 (split; [done|]). split; [apply Hq|]. split; [by apply canonical_ne|].
    split; [apply Hr|]. split; [by apply canonical_ne|]. done.
Qed.

Lemma op_div_zero x y : represents y 0 -> op_div x y = Throw divide_by_zero.
Proof. intros (_ & _ & _ & Hz)%represents_inv. unfold op_div. by rewrite Hz. Qed.

Lemma op_rem_zero x y : represents y 0 -> op_rem x y = Throw divide_by_zero.
Proof. intros (_ & _ & _ & Hz)%represents_inv. unfold op_rem. by rewrite Hz. Qed.

Lemma signed_quot a b q : b <> 0 -> q = Z.abs a / Z.abs b ->
  signed (negb (eqb (a <? 0) (b <? 0))) q = Z.quot a b.
Proof.
  intros Hb ->. rewrite Z.quot_div by done. unfold signed.
  destruct (Z.ltb_spec a 0), (Z.ltb_spec b 0); cbn [eqb negb].
  - rewrite (Z.sgn_neg a), (Z.sgn_neg b) by lia. lia.
  - rewrite (Z.sgn_neg a), (Z.sgn_pos b) by lia. lia.
  - destruct (decide (a = 0)) as [->|]; [done|]. rewrite (Z.sgn_pos a), (Z.sgn_neg b) by lia. lia.
  - destruct (decide (a = 0)) as [->|]; [done|]. rewrite (Z.sgn_pos a), (Z.sgn_pos b) by lia. lia.
Qed.

Lemma signed_rem a b r : b <> 0 -> r = Z.abs a mod Z.abs b ->
  signed (a <? 0) r = Z.rem a b.
Proof.
  intros Hb ->. rewrite Z.rem_mod by done. unfold signed.
  destruct (Z.ltb_spec a 0); [rewrite Z.sgn_neg by lia; lia|].
  destruct (decide (a = 0)) as [->|]; [done|]. rewrite (Z.sgn_pos a) by lia. lia.
Qed.

Lemma op_div_represents x y a b : represents x a -> represents y b -> b <> 0 ->
  exists r, op_div x y = Ok r /\ represents r (Z.quot a b).
Proof.
  intros Hx Hy Hb. destruct (represents_inv x a Hx) as (Hcx & Hvx & Hnx & Hzx).
  destruct (represents_inv y b Hy) as (Hcy & Hvy & Hny & Hzy).
  unfold op_div. rewrite Hzx, Hzy, cmpMag_spec, Hvx, Hvy, Hnx, Hny by done.
  rewrite (proj2 (Z.eqb_neq b 0)) by done. cbn [throw_if bind].
  destruct (Z.eqb_spec a 0) as [->|Ha].
  { exists (of_intcs 0). split; [done|]. rewrite Z.quot_0_l by done. apply zero_represents. }
  rewrite <- (signed_quot a b (Z.abs a / Z.abs b)) by done.
  destruct (Z.ltb_spec (Z.sgn (Z.abs a - Z.abs b)) 0).
  { exists (of_intcs 0). split; [done|]. rewrite Z.div_small, signed_0 by lia. apply zero_represents. }
  destruct (Z.eqb_spec (Z.sgn (Z.abs a - Z.abs b)) 0).
  { eexists. split; [done|]. replace (Z.abs b) with (Z.abs a) by lia.
    rewrite Z.div_same by lia. apply (represents_mk _ (mag_ (of_intcs 1))); [|done].
    apply (of_intcs_represents 1). done. }
  destruct (magnitude_division (mag_ x) (mag_ y) Hcx Hcy ltac:(lia)) as
    (q & r & -> & _ & Hq & Hqn & _ & _ & Hvq & _).
  cbn [bind]. eexists. split; [done|]. rewrite Hvx, Hvy in Hvq. rewrite <- Hvq.
  by apply trim_represents.
Qed.

Lemma op_rem_represents x y a b : represents x a -> represents y b -> b <> 0 ->
  exists r, op_rem x y = Ok r /\ represents r (Z.rem a b).
Proof.
  intros Hx Hy Hb. destruct (represents_inv x a Hx) as (Hcx & Hvx & Hnx & Hzx).
  destruct (represents_inv y b Hy) as (Hcy & Hvy & Hny & Hzy).
  unfold op_rem. rewrite Hzx, Hzy, cmpMag_spec, Hvx, Hvy, Hnx by done.
  rewrite (proj2 (Z.eqb_neq b 0)) by done. cbn [throw_if bind].
  destruct (Z.eqb_spec a 0) as [->|Ha].
  { exists (of_intcs 0). split; [done|]. rewrite Z.rem_0_l by done. apply zero_represents. }
  rewrite <- (signed_rem a b (Z.abs a mod Z.abs b)) by done.
  destruct (Z.ltb_spec (Z.sgn (Z.abs a - Z.abs b)) 0).
  { exists x. split; [done|]. by rewrite Z.mod_small, signed_abs by lia. }
  destruct (Z.eqb_spec (Z.sgn (Z.abs a - Z.abs b)) 0).
  { eexists. split; [done|]. replace (Z.abs b) with (Z.abs a) by lia.
    rewrite Z_mod_same_full, signed_0. apply zero_represents. }
  destruct (magnitude_division (mag_ x) (mag_ y) Hcx Hcy ltac:(lia)) as
    (q & r & _ & -> & _ & _ & Hr & Hrn & _ & Hvr).
  cbn [bind]. eexists. split; [done|]. rewrite Hvx, Hvy in Hvr. rewrite <- Hvr.
  by apply trim_represents.
Qed.

(** ** Comparison *)

Lemma op_eq_represents x y a b : represents x a -> represents y b ->
  op_eq x y = (a =? b).
Proof.
  intros Hx Hy. apply eq_true_iff_eq. unfold op_eq.
  rewrite andb_true_iff, eqb_true_iff, bool_decide_eq_true, Z.eqb_eq. split.
  - destruct x as [nx mx], y as [ny my]. cbn [negative_ mag_]. intros [-> ->].
    by destruct Hx as [_ <-], Hy as [_ <-].
  - intros ->. by rewrite (represents_unique x y b Hx Hy).
Qed.

Lemma op_lt_represents x y a b : represents x a -> represents y b ->
  op_lt x y = (a <? b).
Proof.
  intros Hx Hy. destruct (represents_inv x a Hx) as (Hcx & Hvx & Hnx & _).
  destruct (represents_inv y b Hy) as (Hcy & Hvy & Hny & _).
  unfold op_lt. rewrite cmpMag_spec, Hvx, Hvy, Hnx, Hny by done.
  apply eq_true_iff_eq. rewrite Z.ltb_lt.
  destruct (Z.ltb_spec a 0), (Z.ltb_spec b 0); cbn [eqb negb]; rewrite ?Z.ltb_lt; lia.
Qed.

Lemma Sign_represents x a : represents x a -> Sign x = Z.sgn a.
Proof.
  intros Hx. destruct (represents_inv x a Hx) as (Hc & Hv & Hn & Hz).
  unfold Sign. rewrite Hz, Hn. destruct (Z.eqb_spec a 0), (Z.ltb_spec a 0); lia.
Qed.

Lemma getIsOneProperty_represents x a : represents x a -> getIsOneProperty x = (a =? 1).
Proof.
  intros Hx. unfold getIsOneProperty.
  assert (H1 : represents (of_intcs 1) 1) by by apply of_intcs_represents.
  apply eq_true_iff_eq. rewrite Z.eqb_eq. split.
  - intros [Hn Hm]%andb_true_iff. destruct Hx as [_ <-]. destruct x as [[] [|y [|]]]; try done.
    cbn in Hm |- *. apply Z.eqb_eq in Hm as ->. done.
  - intros ->. by rewrite (represents_unique _ _ _ Hx H1).
Qed.

(** ** Properties *)

(** C3: every constructor and arithmetic operator hands out the canonical
    object of an integer and computes on the integers: the sign-magnitude
    limbs refine [Z], and the comparisons, [==] of the fields included, are
    those of the integers. *)
Theorem BigInteger_refines_Z x y a b : represents x a -> represents y b ->
  represents (op_neg x) (- a) /\ represents (Abs x) (Z.abs a) /\
  represents (op_add x y) (a + b) /\ represents (op_sub x y) (a - b) /\
  (exists r, op_mul x y = Ok r /\ represents r (a * b)) /\
  op_eq x y = (a =? b) /\ op_lt x y = (a <? b) /\ op_le x y = (a <=? b) /\
  op_gt x y = (b <? a) /\ op_ge x y = (b <=? a) /\
  Sign x = Z.sgn a /\ getIsZeroProperty x = (a =? 0) /\ getIsOneProperty x = (a =? 1) /\
  (forall v, in_s 32 v -> represents (of_intcs v) v) /\
  (forall v, in_s 64 v -> represents (of_longcs v) v).
Proof.
  intros Hx Hy. pose proof (op_lt_represents x y a b Hx Hy) as L1.
  pose proof (op_lt_represents y x b a Hy Hx) as L2.
  split; [by apply op_neg_represents|]. split; [by apply Abs_represents|].
  split; [by apply op_add_represents|]. split; [by apply op_sub_represents|].
  split; [by apply op_mul_represents|]. split; [by apply op_eq_represents|].
  split; [done|]. unfold op_le, op_gt, op_ge. rewrite L1, L2.
  do 2 (split; [by rewrite ?Z.leb_antisym|]). split; [by rewrite Z.leb_antisym|].
  split; [by apply Sign_represents|]. split; [by apply represents_inv in Hx as (_ & _ & _ & ?)|].
  split; [by apply getIsOneProperty_represents|].
  split; [exact of_intcs_represents | exact of_longcs_represents].
Qed.

(** A canonical object, decided by computation. *)
Definition well_formedb (x : BigInteger) : bool :=
  bool_decide (limbs (mag_ x)) && bool_decide (strip (mag_ x) = mag_ x) &&
  negb (empty (mag_ x)) && negb (negative_ x && is_zero_mag (mag_ x)).

Lemma well_formedb_represents x : well_formedb x = true -> represents x (to_Z x).
Proof.
  unfold well_formedb. intros H. apply andb_true_iff in H as [H Hneg].
  apply andb_true_iff in H as [H Hne]. apply andb_true_iff in H as [Hl Hs].
  apply bool_decide_eq_true in Hl, Hs. split; [|done]. split.
  - split; [done|]. rewrite <- Hs. apply strip_trimmed. by destruct (mag_ x).
  - intros E. rewrite E in Hneg. by destruct (negative_ x).
Qed.

Lemma BigInteger_refines_Z_witness :
  exists r, op_mul (mk true [999999999; 999999999; 7]) (mk false [5; 0; 12]) = Ok r /\
    represents r (to_Z (mk true [999999999; 999999999; 7]) * to_Z (mk false [5; 0; 12])).
Proof.
  destruct (BigInteger_refines_Z (mk true [999999999; 999999999; 7]) (mk false [5; 0; 12])
    (to_Z (mk true [999999999; 999999999; 7])) (to_Z (mk false [5; 0; 12])))
    as (_ & _ & _ & _ & H & _).
  - apply well_formedb_represents. vm_compute. reflexivity.
  - apply well_formedb_represents. vm_compute. reflexivity.
  - exact H.
Defined.

(** C4: [/] and [%] throw exactly for a zero divisor; otherwise, by whichever
    of the five paths, they return the truncated quotient and the remainder
    with the sign of the dividend, in canonical form. *)
Theorem BigInteger_division x y a b : represents x a -> represents y b ->
  if b =? 0 then
    op_div x y = Throw (DivideByZeroException "Attempted to divide by zero.") /\
    op_rem x y = Throw (DivideByZeroException "Attempted to divide by zero.")
  else exists q r, op_div x y = Ok q /\ op_rem x y = Ok r /\
    represents q (Z.quot a b) /\ represents r (Z.rem a b) /\
    (p <- op_mul y q ;; Ok (op_add p r)) = Ok x.
Proof.
  intros Hx Hy. destruct (Z.eqb_spec b 0) as [->|Hb].
  { split; [by apply op_div_zero | by apply op_rem_zero]. }
  destruct (op_div_represents x y a b Hx Hy Hb) as (q & Eq & Hq).
  destruct (op_rem_represents x y a b Hx Hy Hb) as (r & Er & Hr).
  exists q, r. do 4 (split; [done|]).
  destruct (op_mul_represents y q _ _ Hy Hq) as (p & -> & Hp). cbn [bind]. f_equal.
  apply (represents_unique _ _ a); [|done]. rewrite (Z.quot_rem' a b).
  by apply op_add_represents.
Qed.

Lemma BigInteger_division_witness :
  exists q r, op_div (mk true [2; 0; 0; 999999998]) (mk false [500000001; 0; 999999998]) = Ok q /\
    op_rem (mk true [2; 0; 0; 999999998]) (mk false [500000001; 0; 999999998]) = Ok r.
Proof.
  pose proof (BigInteger_division (mk true [2; 0; 0; 999999998])
    (mk false [500000001; 0; 999999998]) (to_Z (mk true [2; 0; 0; 999999998]))
    (to_Z (mk false [500000001; 0; 999999998]))) as H.
  destruct H as (q & r & H1 & H2 & _).
  - apply well_formedb_represents. vm_compute. reflexivity.
  - apply well_formedb_represents. vm_compute. reflexivity.
  - exact (ex_intro _ q (ex_intro _ r (conj H1 H2))).
Defined.

End BigInteger.
