(* ===== verification/BigText.v ===== *)
(** * BigInteger: decimal text

    [BigInteger::Parse], [TryParse] and [ToString].  The parser accepts
    exactly an optionally signed digit run between white space and returns the
    number it denotes; the printer writes the decimal form of the integer, and
    parsing it back gives the object. *)

From S2P Require Export Text BigInteger.

#[local] Coercion Z.of_nat : nat >-> Z.

Module BigText.
Import BigInteger.

Definition isParseWhite (c : ascii) : bool :=
  (code c =? 32) || ((9 <=? code c) && (code c <=? 13)).

(** The two loops that move [first] forward and [last] back, and the
    substring between them. *)
Definition trim_white (s : text) : text := trim_both isParseWhite s.

Definition format_error : exn := FormatException "The value could not be parsed.".

(** The loop that cuts the digits into limbs from the end; [std::stoul] of at
    most nine digits.  Each round takes at least one digit. *)
Fixpoint limbs_of (fuel : nat) (ds : text) : list Z :=
  match fuel with
  | O => []
  | S fuel =>
      match ds with
      | [] => []
      | _ =>
          let from := (length ds - 9)%nat in
          u32 (dec_value 0 (drop from ds)) :: limbs_of fuel (take from ds)
      end
  end.

(** [Parse] on the trimmed text. *)
Definition parse_trimmed (trimmed : text) : res BigInteger :=
  match trimmed with
  | [] => Throw format_error
  | c :: t =>
      let neg := Ascii.eqb c "-" in
      let ds := if neg || Ascii.eqb c "+" then t else trimmed in
      _ <- throw_if (empty ds) format_error ;;
      _ <- throw_if (negb (forallb is_digit ds)) format_error ;;
      let m := limbs_of (length ds) ds in
      let m := if empty m then [0] else m in
      Ok (trim (mk neg m))
  end.

Definition Parse (s : text) : res BigInteger := parse_trimmed (trim_white s).

(** The returned flag and the out parameter. *)
Definition TryParse (s : text) : res (bool * BigInteger) :=
  match Parse s with
  | Ok r => Ok (true, r)
  | Throw _ => Ok (false, of_intcs 0)
  | UB => UB
  end.

(** The limbs from the top one down, appended to [s]. *)
Fixpoint print_limbs (s : text) (l : list Z) : text :=
  match l with
  | [] => s
  | x :: l =>
      if empty s then print_limbs (s ++ dec x) l
      else print_limbs (s ++ setw0 9 (dec x)) l
  end.

Definition ToString (x : BigInteger) : text :=
  if getIsZeroProperty x then str "0"
  else
    let s := print_limbs [] (reverse (mag_ x)) in
    if negative_ x then "-"%char :: s else s.

Example Parse_ex : Parse (str "  -12345678901234567890 ") =
  Ok (mk true [234567890; 345678901; 12]).
Proof. vm_compute. reflexivity. Qed.

Example ToString_ex : ToString (mk true [7; 0; 12]) = str "-12000000000000000007".
Proof. vm_compute. reflexivity. Qed.

(** ** Decimal forms are unique *)

(** A digit run as a base-10 digit vector. *)
Definition digit_vector (t : text) : list Z := reverse (map digit_value t).

Lemma digit_vector_digits t : all_digits t -> digits 10 (digit_vector t).
Proof.
  intros H. unfold digits, digit_vector. apply Forall_reverse, Forall_map.
  eapply Forall_weaken; [|exact H]. apply is_digit_range.
Qed.

Lemma digit_vector_eval t : eval 10 (digit_vector t) = dec_value 0 t.
Proof.
  unfold digit_vector. induction t as [|c t IH] using rev_ind; [done|].
  rewrite map_app, reverse_app, dec_value_app. cbn [map dec_value].
  change (reverse [digit_value c]) with [digit_value c]. cbn [app eval]. rewrite IH. lia.
Qed.

(** No leading zero. *)
Definition plain (t : text) : Prop :=
  all_digits t /\ match t with [] => False | [c] => True | c :: _ => digit_value c <> 0 end.

Lemma plain_trimmed t : plain t -> trimmed (digit_vector t).
Proof.
  intros [_ Hp]. unfold digit_vector. destruct t as [|c t]; [done|].
  cbn [map]. exists (digit_value c). rewrite reverse_cons, last_snoc. split; [done|].
  destruct t; [|done]. by intros ->.
Qed.

Lemma digit_value_inj c1 c2 : digit_value c1 = digit_value c2 -> c1 = c2.
Proof. unfold digit_value. intros. apply code_inj. lia. Qed.

Lemma plain_unique t1 t2 : plain t1 -> plain t2 -> dec_value 0 t1 = dec_value 0 t2 -> t1 = t2.
Proof.
  intros H1 H2 E. rewrite <- !digit_vector_eval in E.
  apply trimmed_unique in E; [|done|by apply digit_vector_digits, H1|by apply digit_vector_digits, H2
    |by apply plain_trimmed|by apply plain_trimmed].
  unfold digit_vector in E. apply (inj reverse) in E.
  eapply list_fmap_eq_inj; [|exact E]. exact digit_value_inj.
Qed.

Lemma dec_plain n : 0 <= n -> plain (dec n).
Proof.
  intros Hn. destruct (dec_spec n Hn) as (Hd & Hv & Hne & Hmin). split; [done|].
  destruct (dec n) as [|c [|c' t]] eqn:E; try done. intros H0.
  specialize (Hmin (length (c' :: t)) ltac:(cbn; lia)).
  cbn [dec_value] in Hv. rewrite H0 in Hv.
  assert (Ht : all_digits (c' :: t)) by by inversion Hd.
  pose proof (dec_value_range _ Ht) as Hr. cbn [dec_value] in Hr.
  assert ((length (c :: c' :: t) <= length (c' :: t))%nat); [|cbn in *; lia].
  apply Hmin. rewrite <- Hv. apply Hr.
Qed.

(** ** Limbs and digits *)

Lemma limbs_of_spec fuel ds : all_digits ds -> (length ds <= fuel)%nat ->
  limbs (limbs_of fuel ds) /\ value (limbs_of fuel ds) = dec_value 0 ds /\
  (ds <> [] -> limbs_of fuel ds <> []).
Proof.
  revert ds. induction fuel as [|fuel IH]; intros ds Hds Hf.
  { destruct ds; [|cbn in Hf; lia]. cbn. repeat split; [constructor | done]. }
  cbn [limbs_of]. destruct ds as [|c ds]; [repeat split; [constructor | done]|].
  set (t := c :: ds) in *. set (k := (length t - 9)%nat).
  assert (Hk : (k < length t)%nat) by (unfold k; cbn; lia).
  destruct (IH (take k t)) as (Hl & Hv & _);
    [by apply Forall_take | rewrite length_take; lia |].
  pose proof (dec_value_range _ (Forall_drop _ k _ Hds)) as Hr. rewrite length_drop in Hr.
  assert (H9 : 0 <= dec_value 0 (drop k t) < BASE).
  { pose proof (Z.pow_le_mono_r 10 (length t - k)%nat 9 ltac:(lia) ltac:(lia)).
    unfold BASE. lia. }
  rewrite u32_id by (unfold BASE in *; lia). split; [by constructor|]. split; [|done].
  cbn [eval]. rewrite Hv. rewrite <- (take_drop k t) at 3.
  rewrite dec_value_app, (dec_value_shift (dec_value 0 (take k t))), length_drop.
  destruct (decide (k = 0%nat)) as [->|]; [cbn; lia|].
  replace (length t - k)%nat with 9%nat by lia. change (10 ^ 9%nat) with BASE. lia.
Qed.

(** Printing the limbs below the top one. *)
Lemma print_limbs_spec s l : s <> [] -> all_digits s -> limbs l ->
  exists t, print_limbs s l = s ++ t /\ all_digits t /\
    dec_value 0 (s ++ t) = dec_value 0 s * BASE ^ length l + value (reverse l).
Proof.
  intros Hne Hs Hl. revert s Hne Hs. induction Hl as [|x l Hx Hl IH]; intros s Hne Hs.
  { exists []. rewrite app_nil_r. cbn. repeat split; [constructor | lia]. }
  cbn [print_limbs]. assert (empty s = false) as -> by by destruct s.
  destruct (field_run 9 x) as (Hd & Hdne & Hlen & Hv); [lia | lia | unfold BASE in *; lia |].
  destruct (IH (s ++ setw0 9 (dec x))) as (t & -> & Ht & Hvt).
  - by destruct s.
  - apply Forall_app. by split.
  - exists (setw0 9 (dec x) ++ t). rewrite app_assoc. split; [done|].
    split; [apply Forall_app; by split|]. rewrite Hvt, dec_value_app, dec_value_shift, Hlen, Hv.
    change (10 ^ 9%nat) with BASE. rewrite reverse_cons, eval_app, length_reverse.
    cbn [eval length]. rewrite Nat2Z.inj_succ, Z.pow_succ_r by lia. ring.
Qed.

(** The printed magnitude is the decimal form of its value. *)
Lemma print_limbs_dec m : canonical m -> value m <> 0 ->
  print_limbs [] (reverse m) = dec (value m).
Proof.
  intros [Hm (x & Hx & Hx0)] Hnz. apply last_Some in Hx as [m0 ->].
  apply digits_app in Hm as [Hm0 [Hxr _]%digits_cons].
  assert (x <> 0) as Hxn.
  { intros ->. rewrite Hx0 in Hnz by done. done. }
  rewrite reverse_snoc. cbn [print_limbs empty app].
  destruct (dec_plain x ltac:(lia)) as [Hd Hp].
  destruct (dec_spec x ltac:(lia)) as (_ & Hv & Hne & _).
  destruct (print_limbs_spec (dec x) (reverse m0) Hne Hd) as (t & -> & Ht & Hvt).
  { by apply Forall_reverse. }
  assert (Hval : dec_value 0 (dec x ++ t) = value (m0 ++ [x])).
  { rewrite Hvt, Hv, reverse_involutive, length_reverse, eval_app. cbn [eval]. ring. }
  assert (0 <= value (m0 ++ [x])).
  { rewrite <- Hval. apply (dec_value_range (dec x ++ t)). apply Forall_app. by split. }
  apply plain_unique; [|by apply dec_plain|].
  - split; [apply Forall_app; by split|]. destruct (dec x) as [|c [|c' d]] eqn:E; try done.
    cbn [app]. destruct t; [done|]. cbn in Hv. lia.
  - rewrite Hval. symmetry. by apply dec_spec.
Qed.

Lemma ToString_represents x z : represents x z -> ToString x = to_string z.
Proof.
  intros Hx. destruct (represents_inv x z Hx) as (Hc & Hv & Hn & Hz).
  unfold ToString, to_string. rewrite Hz, Hn. destruct (Z.eqb_spec z 0) as [->|E]; [done|].
  rewrite print_limbs_dec, Hv by (done || lia).
  destruct (Z.ltb_spec z 0); [by rewrite Z.abs_neq by lia | by rewrite Z.abs_eq by lia].
Qed.

(** ** Parsing *)

(** The texts of a number after trimming, and the number. *)
Inductive signed_digits : text -> Z -> Prop :=
  | sd_plain ds : ds <> [] -> all_digits ds -> signed_digits ds (dec_value 0 ds)
  | sd_plus ds : ds <> [] -> all_digits ds -> signed_digits ("+"%char :: ds) (dec_value 0 ds)
  | sd_minus ds : ds <> [] -> all_digits ds -> signed_digits ("-"%char :: ds) (- dec_value 0 ds).

Definition white (w : text) : Prop := Forall (fun c => isParseWhite c = true) w.

(** NumberStyles.Integer: white space, a sign, digits, white space. *)
Definition denotes (s : text) (z : Z) : Prop :=
  exists w1 t w2, s = w1 ++ t ++ w2 /\ white w1 /\ white w2 /\ signed_digits t z.

Lemma all_digits_forallb ds : forallb is_digit ds = true <-> all_digits ds.
Proof.
  unfold all_digits. induction ds as [|c ds IH]; cbn [forallb]; [by split|].
  by rewrite andb_true_iff, IH, Forall_cons.
Qed.

(** What is left of [Parse] once the digits are known to be digits. *)
Lemma parsed_digits neg ds : ds <> [] -> all_digits ds ->
  let m := limbs_of (length ds) ds in
  represents (trim (mk neg (if empty m then [0] else m))) (signed neg (dec_value 0 ds)).
Proof.
  intros Hne Hds m. destruct (limbs_of_spec (length ds) ds Hds ltac:(lia)) as (Hl & Hv & Hm).
  specialize (Hm Hne). fold m in Hl, Hv, Hm.
  assert (empty m = false) as -> by by destruct m.
  rewrite <- Hv. by apply trim_represents.
Qed.

Lemma digit_not_sign c : is_digit c = true ->
  Ascii.eqb c "-" = false /\ Ascii.eqb c "+" = false.
Proof.
  unfold is_digit. rewrite !eqb_code. change (code "-") with 45. change (code "+") with 43.
  intros. bool_to_prop. by decide_cmp.
Qed.

Lemma parse_trimmed_ok t z : signed_digits t z ->
  exists r, parse_trimmed t = Ok r /\ represents r z.
Proof.
  intros H. destruct H as [ds Hne Hds | ds Hne Hds | ds Hne Hds].
  - destruct ds as [|c ds]; [done|].
    assert (is_digit c = true) as [E1 E2]%digit_not_sign by by inversion Hds.
    unfold parse_trimmed. rewrite E1, E2. cbn [orb].
    rewrite (proj2 (all_digits_forallb _) Hds). cbn [empty negb throw_if bind].
    eexists. split; [done|]. by apply (parsed_digits false).
  - unfold parse_trimmed. cbn [Ascii.eqb Bool.eqb orb andb].
    rewrite (proj2 (all_digits_forallb _) Hds).
    assert (empty ds = false) as -> by by destruct ds. cbn [negb throw_if bind].
    eexists. split; [done|]. by apply (parsed_digits false).
  - unfold parse_trimmed. cbn [Ascii.eqb Bool.eqb orb andb].
    rewrite (proj2 (all_digits_forallb _) Hds).
    assert (empty ds = false) as -> by by destruct ds. cbn [negb throw_if bind].
    eexists. split; [done|]. by apply (parsed_digits true).
Qed.

Lemma parse_trimmed_cases t :
  (exists z, signed_digits t z) \/ parse_trimmed t = Throw format_error.
Proof.
  destruct t as [|c t]; [by right|]. unfold parse_trimmed.
  set (ds := if (Ascii.eqb c "-") || _ then t else c :: t).
  destruct (empty ds) eqn:En; [by right|]. cbn [throw_if bind].
  destruct (forallb is_digit ds) eqn:Ed; [|by right]. left.
  apply all_digits_forallb in Ed.
  assert (Hne : ds <> []) by (intros E; rewrite E in En; done).
  destruct (Ascii.eqb_spec c "-") as [->|N1]; [exists (- dec_value 0 ds); by apply sd_minus|].
  destruct (Ascii.eqb_spec c "+") as [->|N2]; [exists (dec_value 0 ds); by apply sd_plus|].
  exists (dec_value 0 ds). by apply sd_plain.
Qed.

(** ** Trimming *)

Lemma trim_white_app s : exists w1 w2, s = w1 ++ trim_white s ++ w2 /\ white w1 /\ white w2.
Proof. apply trim_both_app. Qed.

Lemma trim_white_core w1 t w2 : white w1 -> white w2 ->
  stops isParseWhite t -> stops isParseWhite (reverse t) -> t <> [] ->
  trim_white (w1 ++ t ++ w2) = t.
Proof. apply trim_both_core. Qed.

Lemma digit_not_white c : is_digit c = true -> isParseWhite c = false.
Proof. apply digit_not_space. Qed.

Lemma digits_stop ds : ds <> [] -> all_digits ds -> stops isParseWhite ds.
Proof. intros Hne [|c t Hc Ht]; [done|]. by apply digit_not_white. Qed.

Lemma signed_digits_stops t z : signed_digits t z ->
  t <> [] /\ stops isParseWhite t /\ stops isParseWhite (reverse t).
Proof.
  assert (Hr : forall ds pre, ds <> [] -> all_digits ds -> stops isParseWhite (reverse (pre ++ ds))).
  { intros ds pre Hne Hds. rewrite reverse_app.
    assert (Hn : reverse ds <> []) by (intros E; apply Hne, (inj reverse); done).
    pose proof (digits_stop (reverse ds) Hn (proj2 (Forall_reverse _ _) Hds)) as H.
    by destruct (reverse ds). }
  intros [ds Hne Hds | ds Hne Hds | ds Hne Hds].
  - split; [done|]. split; [by apply digits_stop | by apply (Hr ds [])].
  - split; [done|]. split; [done | by apply (Hr ds ["+"%char])].
  - split; [done|]. split; [done | by apply (Hr ds ["-"%char])].
Qed.

Lemma Parse_denotes s z : denotes s z -> exists r, Parse s = Ok r /\ represents r z.
Proof.
  intros (w1 & t & w2 & -> & H1 & H2 & Ht).
  destruct (signed_digits_stops t z Ht) as (Hne & Hs & He).
  unfold Parse. rewrite trim_white_core by done. by apply parse_trimmed_ok.
Qed.

(** The parser succeeds on exactly the texts that denote an integer. *)
Lemma Parse_cases s :
  (exists z, denotes s z) \/ (Parse s = Throw format_error /\ forall z, ~ denotes s z).
Proof.
  destruct (parse_trimmed_cases (trim_white s)) as [[z Hz] | E].
  - left. exists z. destruct (trim_white_app s) as (w1 & w2 & Es & ? & ?).
    by exists w1, (trim_white s), w2.
  - right. split; [done|]. intros z Hz. destruct (Parse_denotes s z Hz) as (r & Er & _).
    unfold Parse in Er. congruence.
Qed.

(** Printing gives a text that denotes the integer. *)
Lemma to_string_denotes z : denotes (to_string z) z.
Proof.
  exists [], (to_string z), []. rewrite app_nil_r. split; [done|].
  split; [constructor|]. split; [constructor|]. unfold to_string.
  destruct (Z.ltb_spec z 0).
  - destruct (dec_spec (- z) ltac:(lia)) as (Hd & Hv & Hne & _).
    replace z with (- dec_value 0 (dec (- z))) at 2 by lia. by apply sd_minus.
  - destruct (dec_spec z ltac:(lia)) as (Hd & Hv & Hne & _).
    rewrite <- Hv at 2. by apply sd_plain.
Qed.

(** ** Properties *)

(** C24: [Parse] returns the canonical object of the integer its text denotes -
    white space, an optional sign, at least one digit, white space - and throws
    FormatException on every other text; [TryParse] answers accordingly, with
    zero as its out parameter, and never throws. *)
Theorem BigInteger_Parse_exact s :
  (exists z r, denotes s z /\ represents r z /\ Parse s = Ok r /\ TryParse s = Ok (true, r)) \/
  ((forall z, ~ denotes s z) /\
   Parse s = Throw (FormatException "The value could not be parsed.") /\
   TryParse s = Ok (false, of_intcs 0)).
Proof.
  destruct (Parse_cases s) as [[z Hz] | [E Hn]].
  - left. destruct (Parse_denotes s z Hz) as (r & E & Hr). exists z, r.
    unfold TryParse. by rewrite E.
  - right. unfold TryParse. by rewrite E.
Qed.

(** C25: [ToString] writes the decimal form of the integer - a minus sign for a
    negative one, no leading zero - and [Parse] reads it back as the same
    object. *)
Theorem BigInteger_text_roundtrip x z : represents x z ->
  ToString x = to_string z /\ Parse (ToString x) = Ok x.
Proof.
  intros Hx. rewrite (ToString_represents x z Hx). split; [done|].
  destruct (Parse_denotes _ _ (to_string_denotes z)) as (r & -> & Hr).
  by rewrite (represents_unique r x z).
Qed.

Lemma BigInteger_text_roundtrip_witness :
  Parse (ToString (mk true [7; 0; 12])) = Ok (mk true [7; 0; 12]).
Proof.
  apply (BigInteger_text_roundtrip (mk true [7; 0; 12]) (to_Z (mk true [7; 0; 12]))).
  apply well_formedb_represents. vm_compute. reflexivity.
Defined.

End BigText.
