(* ===== verification/BigBits.v ===== *)
(** * BigInteger: binary words, bit operations and shifts

    The conversions of a magnitude to and from 16-bit words, the two's
    complement of a fixed number of words, and what is built on them: [&], [|],
    [^], [~] and the shifts.  The bit operations are those of the integers
    (infinite two's complement) and a shift by any [intcs] is the floor shift. *)

From S2P Require Export BigInteger.

#[local] Coercion Z.of_nat : nat >-> Z.

Module BigBits.
Import BigInteger.

Definition u16 := wrapu 16.

(** [static_cast<uint16_t>(~word)] *)
Definition not16 (w : Z) : Z := u16 (Z.lnot w).

(** ** Words of a magnitude *)

(** Each round takes 16 bits of a value below [2^(32 n)]; a loop that is still
    running when the fuel is spent has no value. *)
Fixpoint to_words (fuel : nat) (remaining : list Z) : res (list Z) :=
  match fuel with
  | O => UB
  | S fuel =>
      if is_zero_mag remaining then Ok []
      else
        qr <- divMagByLimb remaining 65536 ;;
        words <- to_words fuel (fst qr) ;;
        Ok (u16 (snd qr) :: words)
  end.

Definition magnitudeToBinary16 (magnitude : list Z) : res (list Z) :=
  words <- to_words (S (2 * length magnitude)) magnitude ;;
  Ok (if empty words then [0] else words).

(** The loop from the most significant word down. *)
Fixpoint binary16ToMagnitude (words : list Z) : res (list Z) :=
  match words with
  | [] => Ok [0]
  | w :: words =>
      magnitude <- binary16ToMagnitude words ;;
      magnitude <- mulMag magnitude [65536] ;;
      Ok (if negb (w =? 0) then addMag magnitude [w] else magnitude)
  end.

(** ** Two's complement *)

(** Adding one; the loop stops when the carry is used up. *)
Fixpoint add_carry (carry : Z) (words : list Z) : list Z :=
  match words with
  | [] => []
  | w :: words =>
      let sum := u32 (w + carry) in
      let carry := Z.shiftr sum 16 in
      u16 sum :: (if carry =? 0 then words else add_carry carry words)
  end.

Definition negate_words (words : list Z) : list Z := add_carry 1 (map not16 words).

Definition toTwosComplement16 (x : BigInteger) (wordCount : nat) : res (list Z) :=
  words <- magnitudeToBinary16 (mag_ x) ;;
  let words := resize wordCount 0 words in
  if negb (negative_ x) then Ok words else Ok (negate_words words).

(** [words.back()] of an empty vector is undefined. *)
Definition fromTwosComplement16 (words : list Z) : res BigInteger :=
  match last words with
  | None => UB
  | Some back =>
      let negative := negb (Z.land back 0x8000 =? 0) in
      m <- binary16ToMagnitude (if negative then negate_words words else words) ;;
      Ok (trim (mk negative m))
  end.

(** ** Bit operators *)

(** The [char] that selects the operation. *)
Inductive operation := And | Or | Xor.

Definition word_op (op : operation) (l r : Z) : Z :=
  match op with
  | And => u16 (Z.land l r)
  | Or => u16 (Z.lor l r)
  | Xor => u16 (Z.lxor l r)
  end.

Definition bitwise (x other : BigInteger) (op : operation) : res BigInteger :=
  wx <- magnitudeToBinary16 (mag_ x) ;;
  wo <- magnitudeToBinary16 (mag_ other) ;;
  let wordCount := S (max (length wx) (length wo)) in
  left <- toTwosComplement16 x wordCount ;;
  right <- toTwosComplement16 other wordCount ;;
  fromTwosComplement16 (zip_with (word_op op) left right).

Definition op_and (x o : BigInteger) : res BigInteger := bitwise x o And.
Definition op_or (x o : BigInteger) : res BigInteger := bitwise x o Or.
Definition op_xor (x o : BigInteger) : res BigInteger := bitwise x o Xor.

Definition op_not (x : BigInteger) : res BigInteger :=
  w <- magnitudeToBinary16 (mag_ x) ;;
  words <- toTwosComplement16 x (S (length w)) ;;
  fromTwosComplement16 (map not16 words).

(** ** Shifts *)

(** The word loop of [<<] with the carry pushed at the end. *)
Fixpoint shl_words (bitShift carry : Z) (words : list Z) : list Z :=
  match words with
  | [] => if negb (carry =? 0) then [u16 carry] else []
  | w :: words =>
      let shifted := Z.lor (ushl 32 w bitShift) carry in
      u16 shifted :: shl_words bitShift (Z.shiftr shifted 16) words
  end.

(** [<<] by a positive count of a number that is not zero. *)
Definition shl_body (x : BigInteger) (shift : Z) : res BigInteger :=
  source <- magnitudeToBinary16 (mag_ x) ;;
  let words := replicate (Z.to_nat (shift / 16)) 0 ++ shl_words (shift mod 16) 0 source in
  m <- binary16ToMagnitude words ;;
  Ok (trim (mk (negative_ x) m)).

(** The word loop of [>>] when [bitShift] is not zero. *)
Fixpoint shr_words (bitShift : Z) (words : list Z) : list Z :=
  match words with
  | [] => []
  | w :: words =>
      u16 (Z.lor (Z.shiftr w bitShift) (ushl 32 (limb words) (16 - bitShift)))
        :: shr_words bitShift words
  end.

(** [>>] by a positive count of a number that is not zero. *)
Definition shr_body (x : BigInteger) (shift : Z) : res BigInteger :=
  let wordShift := Z.to_nat (shift / 16) in
  let bitShift := shift mod 16 in
  source <- magnitudeToBinary16 (mag_ x) ;;
  if Nat.leb (length source) wordShift then
    Ok (if negative_ x then of_intcs (-1) else Zero)
  else
    let remainder := existsb (fun w => negb (w =? 0)) (take wordShift source) in
    let words := drop wordShift source in
    let lowerMask := usub 32 (ushl 32 1 bitShift) 1 in
    let remainder := if negb (bitShift =? 0)
                     then remainder || negb (Z.land (limb words) lowerMask =? 0)
                     else remainder in
    let words := if negb (bitShift =? 0) then shr_words bitShift words else words in
    m <- binary16ToMagnitude words ;;
    let m := if negative_ x && remainder then addMag m [1] else m in
    Ok (trim (mk (negative_ x) m)).

(** The operators on a count that is not negative. *)
Definition shl_nonneg (x : BigInteger) (shift : Z) : res BigInteger :=
  if (shift =? 0) || getIsZeroProperty x then Ok x else shl_body x shift.
Definition shr_nonneg (x : BigInteger) (shift : Z) : res BigInteger :=
  if (shift =? 0) || getIsZeroProperty x then Ok x else shr_body x shift.

Definition op_shl (x : BigInteger) (shift : Z) : res BigInteger :=
  if (shift =? 0) || getIsZeroProperty x then Ok x
  else if shift =? INTCS_MIN then r <- shr_nonneg x INTCS_MAX ;; shr_nonneg r 1
  else if shift <? 0 then shr_nonneg x (- shift)
  else shl_body x shift.

Definition op_shr (x : BigInteger) (shift : Z) : res BigInteger :=
  if (shift =? 0) || getIsZeroProperty x then Ok x
  else if shift =? INTCS_MIN then r <- shl_nonneg x 1 ;; shl_nonneg r INTCS_MAX
  else if shift <? 0 then shl_nonneg x (- shift)
  else shr_body x shift.

Definition and_assign (x o : BigInteger) : res BigInteger := op_and x o.
Definition or_assign (x o : BigInteger) : res BigInteger := op_or x o.
Definition xor_assign (x o : BigInteger) : res BigInteger := op_xor x o.
Definition shl_assign (x : BigInteger) (shift : Z) : res BigInteger := op_shl x shift.
Definition shr_assign (x : BigInteger) (shift : Z) : res BigInteger := op_shr x shift.

Example op_xor_ex : (x <- op_xor (of_longcs 123456789012) (of_longcs (-987654321)) ;; Ok (to_Z x)) =
  Ok (Z.lxor 123456789012 (-987654321)).
Proof. vm_compute. reflexivity. Qed.

Example op_shr_ex : (x <- op_shr (of_longcs (-123456789012)) 35 ;; Ok (to_Z x)) = Ok (-4).
Proof. vm_compute. reflexivity. Qed.

(** ** Words and magnitudes *)

Abbreviation W := 65536.

Lemma u16_id z : 0 <= z < W -> u16 z = z.
Proof. apply (wrapu_id 16). Qed.

Lemma words_pow n : 0 <= n -> W ^ n = 2 ^ (16 * n).
Proof. intros. by rewrite Z.pow_mul_r by lia. Qed.

Lemma to_words_spec fuel m : canonical m -> value m < W ^ (Z.of_nat fuel - 1) -> (0 < fuel)%nat ->
  exists ws, to_words fuel m = Ok ws /\ digits W ws /\ eval W ws = value m.
Proof.
  revert m. induction fuel as [|fuel IH]; intros m Hm Hlt Hf; [lia|].
  cbn [to_words]. rewrite canonical_is_zero by done. pose proof (canonical_value m Hm) as H0.
  destruct (Z.eqb_spec (value m) 0) as [E|E].
  { exists []. rewrite E. repeat split. constructor. }
  destruct (divMagByLimb_spec m 65536 (proj1 Hm) (canonical_ne m Hm)) as (q & -> & Hq & Hv);
    [done|]. cbn [bind fst snd].
  pose proof (Z.mod_pos_bound (value m) W ltac:(lia)) as Hmod.
  pose proof (Z.div_mod (value m) W ltac:(lia)) as Hdm.
  destruct fuel as [|fuel]; [cbn in Hlt; lia|].
  destruct (IH q Hq) as (ws & -> & Hws & Hev); [|lia|].
  - rewrite Hv. apply Z.div_lt_upper_bound; [lia|].
    rewrite <- Z.pow_succ_r by lia. by replace (Z.succ _) with (Z.of_nat (S (S fuel)) - 1) by lia.
  - cbn [bind]. rewrite u16_id by done. eexists. split; [done|].
    split; [by constructor|]. cbn [eval]. rewrite Hev, Hv. lia.
Qed.

Lemma magnitudeToBinary16_spec m : canonical m ->
  exists ws, magnitudeToBinary16 m = Ok ws /\ digits W ws /\ eval W ws = value m /\ ws <> [].
Proof.
  intros Hm. unfold magnitudeToBinary16.
  destruct (to_words_spec (S (2 * length m)) m Hm) as (ws & -> & Hws & Hev); [|lia|].
  - pose proof (value_range m (proj1 Hm)) as Hr.
    replace (Z.of_nat (S (2 * length m)) - 1) with (2 * length m) by lia.
    rewrite Z.pow_mul_r by lia.
    pose proof (Z.pow_le_mono_l BASE (W ^ 2) (length m) ltac:(done)). lia.
  - cbn [bind]. destruct ws as [|w ws]; cbn [empty].
    + exists [0]. split; [done|]. split; [by repeat constructor|]. split; [exact Hev | done].
    + by exists (w :: ws).
Qed.

Lemma binary16ToMagnitude_spec ws : digits W ws ->
  exists m, binary16ToMagnitude ws = Ok m /\ limbs m /\ m <> [] /\ value m = eval W ws.
Proof.
  induction 1 as [|w ws Hw Hws (m & E & Hm & Hne & Hv)].
  { exists [0]. split; [done|]. split; [by repeat constructor | done]. }
  cbn [binary16ToMagnitude eval]. rewrite E. cbn [bind].
  destruct (mulMag_spec m [65536] Hm) as (p & -> & Hp & Hvp); [by repeat constructor | done|].
  cbn [bind eval] in *. destruct (Z.eqb_spec w 0) as [->|]; cbn [negb].
  - exists p. split; [done|]. split; [apply Hp|]. split; [by apply canonical_ne | lia].
  - destruct (addMag_spec p [w] (proj1 Hp)) as [Hs Hvs].
    { apply digits_cons. split; [unfold BASE; lia | constructor]. }
    exists (addMag p [w]). split; [done|]. split; [done|].
    split; [by apply addMag_ne, canonical_ne|]. rewrite Hvs. cbn [eval]. lia.
Qed.

(** ** Negating a word vector *)

Lemma not16_spec w : 0 <= w < W -> not16 w = W - 1 - w.
Proof. intros Hw. unfold not16, u16, wrapu, Z.lnot. symmetry. apply Z.mod_unique with (-1); lia. Qed.

Lemma map_not16_spec ws : digits W ws ->
  digits W (map not16 ws) /\ eval W (map not16 ws) = W ^ length ws - 1 - eval W ws.
Proof.
  induction 1 as [|w ws Hw Hws [Hd Hv]]; [by split; [constructor|]|].
  cbn [map eval length]. rewrite not16_spec by done. split; [constructor; [lia | done]|].
  rewrite Hv, Nat2Z.inj_succ, Z.pow_succ_r by lia. lia.
Qed.

Lemma add_carry_spec ws : digits W ws ->
  digits W (add_carry 1 ws) /\ length (add_carry 1 ws) = length ws /\
  exists out, 0 <= out <= 1 /\ eval W (add_carry 1 ws) = eval W ws + 1 - W ^ length ws * out.
Proof.
  induction 1 as [|w ws Hw Hws (Hd & Hl & out & Ho & Hv)].
  { repeat split; [constructor|]. exists 1. cbn. lia. }
  cbn [add_carry]. rewrite u32_id, Z.shiftr_div_pow2 by lia. change (2 ^ 16) with W.
  unfold u16, wrapu. change (2 ^ 16) with W.
  cbn [length eval]. rewrite Nat2Z.inj_succ, Z.pow_succ_r by lia.
  destruct (decide (w = W - 1)) as [->|].
  - change ((W - 1 + 1) / W) with 1. change ((W - 1 + 1) mod W) with 0. cbn [Z.eqb].
    split; [apply digits_cons; split; [lia | done]|]. split; [cbn [length]; by rewrite Hl|].
    exists out. split; [done|]. cbn [eval]. rewrite Hv. lia.
  - rewrite Z.div_small, Z.mod_small by lia. cbn [Z.eqb].
    split; [apply digits_cons; split; [lia | done]|]. split; [done|].
    exists 0. cbn [eval]. lia.
Qed.

Lemma negate_words_spec ws : digits W ws ->
  digits W (negate_words ws) /\ length (negate_words ws) = length ws /\
  eval W (negate_words ws) = wrapu (16 * length ws) (- eval W ws).
Proof.
  intros Hws. unfold negate_words. destruct (map_not16_spec ws Hws) as [Hd Hv].
  destruct (add_carry_spec _ Hd) as (Ha & Hl & out & Ho & Hva).
  rewrite length_map in Hl, Hva. split; [done|]. split; [done|].
  pose proof (eval_range W ltac:(lia) _ Ha) as Hr. rewrite Hl in Hr.
  unfold wrapu. rewrite <- words_pow by lia.
  apply Z.mod_unique with (out - 1); [by left|]. rewrite Hva, Hv. lia.
Qed.

(** ** Two's complement of a fixed width *)

(** The top bit of a digit of [k + 1] bits. *)
Lemma top_bit k b : 0 <= k -> in_u (k + 1) b ->
  negb (Z.land b (2 ^ k) =? 0) = (2 ^ k <=? b).
Proof.
  intros Hk Hb. pose proof (land_high_mask b k 1 Hk ltac:(lia) Hb) as E.
  change (2 ^ 1 - 1) with 1 in E. rewrite Z.mul_1_l in E. rewrite E.
  destruct Hb as [H0 H1]. rewrite Z.pow_add_r in H1 by lia. change (2 ^ 1) with 2 in H1.
  pose proof (Z.pow_pos_nonneg 2 k ltac:(lia) Hk).
  destruct (Z.leb_spec (2 ^ k) b).
  - rewrite <- (Z.div_unique b (2 ^ k) 1 (b - 2 ^ k)) by lia.
    apply negb_true_iff, Z.eqb_neq. lia.
  - rewrite Z.div_small by lia. done.
Qed.

(** The two's complement reading of an unsigned value. *)
Lemma wraps_of_unsigned w e : 0 < w -> in_u w e ->
  wraps w e = if e <? 2 ^ (w - 1) then e else e - 2 ^ w.
Proof.
  intros Hw [H0 H1]. unfold wraps.
  assert (E : 2 ^ w = 2 * 2 ^ (w - 1)) by (rewrite <- Z.pow_succ_r by lia; f_equal; lia).
  split_if; [by rewrite Z.mod_small; lia|].
  rewrite (Z.mod_eq _ (2 ^ w)) by lia.
  rewrite <- (Z.div_unique (e + 2 ^ (w - 1)) (2 ^ w) 1 (e - 2 ^ (w - 1))) by lia. lia.
Qed.

(** ... of a digit vector in base [2^(k+1)], from its top digit. *)
Lemma wraps_snoc k l t : 0 <= k -> digits (2 ^ (k + 1)) (l ++ [t]) ->
  let n := (k + 1) * length (l ++ [t]) in
  wraps n (eval (2 ^ (k + 1)) (l ++ [t])) =
    eval (2 ^ (k + 1)) (l ++ [t]) - (if 2 ^ k <=? t then 2 ^ n else 0).
Proof.
  intros Hk Hd n. set (B := 2 ^ (k + 1)) in *.
  assert (HB : 1 < B) by (unfold B; apply Z.pow_gt_1; lia).
  assert (Hn : 2 ^ n = B * B ^ length l).
  { unfold n, B. rewrite length_app, Nat2Z.inj_add, <- Z.pow_succ_r, <- Z.pow_mul_r by lia.
    reflexivity. }
  assert (H2 : B = 2 * 2 ^ k) by (unfold B; rewrite Z.pow_add_r by lia; change (2 ^ 1) with 2; lia).
  assert (Hn1 : 2 ^ (n - 1) = 2 ^ k * B ^ length l).
  { apply Z.mul_cancel_l with 2; [lia|]. rewrite <- Z.pow_succ_r.
    - replace (Z.succ (n - 1)) with n by lia. rewrite Hn, H2. lia.
    - unfold n. rewrite length_app. cbn [length]. lia. }
  pose proof (eval_range B HB _ Hd) as Hr.
  assert (Hw : 0 < n) by (unfold n; rewrite length_app; cbn [length]; lia).
  assert (He : in_u n (eval B (l ++ [t]))).
  { unfold in_u. rewrite Hn. rewrite length_app, Nat2Z.inj_add, Z.pow_add_r in Hr by lia.
    cbn [length] in Hr. change (B ^ 1%nat) with (B ^ 1) in Hr. rewrite Z.pow_1_r in Hr. lia. }
  rewrite wraps_of_unsigned by done. rewrite Hn1.
  apply digits_app in Hd as [Hl [Ht _]%digits_cons]. pose proof (eval_range B HB l Hl).
  rewrite eval_app in *. cbn [eval] in *.
  destruct (Z.leb_spec (2 ^ k) t).
  - rewrite (proj2 (Z.ltb_ge _ _)); [done|]. nia.
  - rewrite (proj2 (Z.ltb_lt _ _)); [lia|].
    assert (t + 1 <= 2 ^ k) by lia. nia.
Qed.

Lemma fromTwosComplement16_spec ws : digits W ws -> ws <> [] ->
  exists r, fromTwosComplement16 ws = Ok r /\
    represents r (wraps (16 * length ws) (eval W ws)).
Proof.
  intros Hws Hne. unfold fromTwosComplement16.
  destruct ws as [|t l _] using rev_ind; [done|]. rewrite last_snoc.
  pose proof (wraps_snoc 15 l t ltac:(lia) Hws) as Hs. cbv zeta in Hs.
  change (2 ^ (15 + 1)) with W in Hs. change (15 + 1) with 16 in Hs. rewrite Hs. clear Hs.
  apply digits_app in Hws as Hsp. destruct Hsp as [Hl [Ht _]%digits_cons].
  change 0x8000 with (2 ^ 15). rewrite top_bit by (try lia; exact Ht).
  destruct (Z.leb_spec (2 ^ 15) t) as [Hneg|Hpos].
  - destruct (negate_words_spec _ Hws) as (Hd & Hlen & Hv).
    destruct (binary16ToMagnitude_spec _ Hd) as (m & -> & Hm & Hmne & Hmv).
    cbn [bind]. eexists. split; [done|].
    pose proof (trim_represents true m Hm Hmne) as H. rewrite Hmv, Hv in H.
    replace (eval W (l ++ [t]) - 2 ^ (16 * length (l ++ [t]))) with
      (signed true (wrapu (16 * length (l ++ [t])) (- eval W (l ++ [t])))); [done|].
    pose proof (eval_range W ltac:(lia) _ Hws) as Hr. rewrite words_pow in Hr by lia.
    assert (0 < eval W (l ++ [t])).
    { rewrite eval_app. cbn [eval]. pose proof (eval_range W ltac:(lia) _ Hl).
      pose proof (Z.pow_pos_nonneg W (length l) ltac:(lia) ltac:(lia)). nia. }
    unfold signed, wrapu.
    rewrite <- (Z.mod_unique (- eval W (l ++ [t])) _ (-1)
      (2 ^ (16 * length (l ++ [t])) - eval W (l ++ [t]))) by lia. lia.
  - destruct (binary16ToMagnitude_spec _ Hws) as (m & -> & Hm & Hmne & Hmv).
    cbn [bind]. eexists. split; [done|]. rewrite Z.sub_0_r, <- Hmv. by apply (trim_represents false).
Qed.

Lemma resize_digits n l : (length l <= n)%nat -> digits W l ->
  digits W (resize n 0 l) /\ length (resize n 0 l) = n /\ eval W (resize n 0 l) = eval W l.
Proof.
  intros Hn Hl. rewrite resize_spec, take_ge by done. split.
  - apply digits_app. split; [done|]. apply digits_replicate_0. lia.
  - rewrite length_app, length_replicate, eval_app, eval_replicate_0. split; lia.
Qed.

Lemma toTwosComplement16_spec x z ws n : represents x z ->
  magnitudeToBinary16 (mag_ x) = Ok ws -> (length ws <= n)%nat ->
  exists ws', toTwosComplement16 x n = Ok ws' /\ digits W ws' /\ length ws' = n /\
    eval W ws' = wrapu (16 * n) z.
Proof.
  intros Hx E Hn. destruct (represents_inv x z Hx) as (Hc & Hv & Hneg & _).
  destruct (magnitudeToBinary16_spec _ Hc) as (ws0 & E0 & Hws & Hev & _).
  rewrite E0 in E. injection E as ->. unfold toTwosComplement16. rewrite E0. cbn [bind].
  destruct (resize_digits n ws Hn Hws) as (Hd & Hl & He). rewrite Hev, Hv in He. rewrite Hneg.
  destruct (Z.ltb_spec z 0); cbn [negb].
  - destruct (negate_words_spec _ Hd) as (Hnd & Hnl & Hnv).
    eexists. split; [done|]. split; [done|]. split; [congruence|].
    rewrite Hnv, Hl, He. f_equal. lia.
  - eexists. split; [done|]. split; [done|]. split; [done|]. rewrite He, Z.abs_eq by lia.
    symmetry. apply wrapu_id. pose proof (eval_range W ltac:(lia) _ Hws) as Hr.
    rewrite Hev, Hv, words_pow in Hr by lia.
    pose proof (Z.pow_le_mono_r 2 (16 * length ws) (16 * n) ltac:(lia) ltac:(lia)).
    unfold in_u. lia.
Qed.

(** A number fits in one word more than its magnitude. *)
Lemma fits_words x z ws n : represents x z -> magnitudeToBinary16 (mag_ x) = Ok ws ->
  (length ws < n)%nat -> in_s (16 * n) z.
Proof.
  intros Hx E Hn. destruct (represents_inv x z Hx) as (Hc & Hv & _ & _).
  destruct (magnitudeToBinary16_spec _ Hc) as (ws0 & E0 & Hws & Hev & _).
  rewrite E0 in E. injection E as ->. pose proof (eval_range W ltac:(lia) _ Hws) as Hr.
  rewrite Hev, Hv, words_pow in Hr by lia.
  pose proof (Z.pow_le_mono_r 2 (16 * length ws) (16 * n - 1) ltac:(lia) ltac:(lia)).
  unfold in_s. lia.
Qed.

(** ** Bit operations *)

Definition zop (op : operation) : Z -> Z -> Z :=
  match op with And => Z.land | Or => Z.lor | Xor => Z.lxor end.
Definition bop (op : operation) : bool -> bool -> bool :=
  match op with And => andb | Or => orb | Xor => xorb end.

Lemma zop_bits op a b i : Z.testbit (zop op a b) i = bop op (Z.testbit a i) (Z.testbit b i).
Proof. destruct op; [apply Z.land_spec | apply Z.lor_spec | apply Z.lxor_spec]. Qed.

Lemma bop_false op : bop op false false = false.
Proof. by destruct op. Qed.

Lemma zop_mod op a b k : 0 <= k -> zop op a b mod 2 ^ k = zop op (a mod 2 ^ k) (b mod 2 ^ k).
Proof.
  intros Hk. apply Z.bits_inj'. intros i Hi. rewrite zop_bits.
  destruct (Z.lt_ge_cases i k).
  - by rewrite !Z.mod_pow2_bits_low, zop_bits by done.
  - by rewrite !Z.mod_pow2_bits_high, bop_false by lia.
Qed.

Lemma zop_div op a b k : 0 <= k -> zop op a b / 2 ^ k = zop op (a / 2 ^ k) (b / 2 ^ k).
Proof.
  intros Hk. apply Z.bits_inj'. intros i Hi. by rewrite zop_bits, !Z.div_pow2_bits, zop_bits.
Qed.

Lemma zop_range op a b k : 0 <= k -> in_u k a -> in_u k b -> in_u k (zop op a b).
Proof.
  intros Hk Ha Hb. unfold in_u in *. rewrite <- (Z.mod_small a (2 ^ k)), <- (Z.mod_small b (2 ^ k)) by done.
  rewrite <- zop_mod by done. apply Z.mod_pos_bound. lia.
Qed.

Lemma zop_small op a b : -1 <= a <= 0 -> -1 <= b <= 0 -> -1 <= zop op a b <= 0.
Proof.
  intros Ha Hb. assert (a = -1 \/ a = 0) as [-> | ->] by lia;
    assert (b = -1 \/ b = 0) as [-> | ->] by lia; by destruct op.
Qed.

(** An operation on signed [w]-bit integers stays in range. *)
Lemma in_s_div w z : 0 < w -> in_s w z <-> -1 <= z / 2 ^ (w - 1) <= 0.
Proof.
  intros Hw. unfold in_s. pose proof (Z.pow_pos_nonneg 2 (w - 1) ltac:(lia) ltac:(lia)) as Hp.
  pose proof (Z.div_mod z (2 ^ (w - 1)) ltac:(lia)) as Hdm.
  pose proof (Z.mod_pos_bound z (2 ^ (w - 1)) Hp) as Hm.
  split; intros H; [|nia]. split.
  - apply Z.div_le_lower_bound; lia.
  - assert (z / 2 ^ (w - 1) < 1); [|lia]. apply Z.div_lt_upper_bound; lia.
Qed.

Lemma zop_in_s op w a b : 0 < w -> in_s w a -> in_s w b -> in_s w (zop op a b).
Proof.
  intros Hw Ha Hb. apply in_s_div in Ha, Hb; [|done|done]. apply in_s_div; [done|].
  rewrite zop_div by lia. by apply zop_small.
Qed.

(** Two's complement turns the operation on words into the one on integers. *)
Lemma zop_wraps op w a b : 0 < w -> in_s w a -> in_s w b ->
  wraps w (zop op (wrapu w a) (wrapu w b)) = zop op a b.
Proof.
  intros Hw Ha Hb. unfold wrapu at 1 2. rewrite <- zop_mod by lia.
  change (zop op a b mod 2 ^ w) with (wrapu w (zop op a b)).
  rewrite wraps_wrapu by done. apply wraps_id; [done|]. by apply zop_in_s.
Qed.

Lemma word_op_zop op x y : 0 <= x < W -> 0 <= y < W ->
  word_op op x y = zop op x y /\ 0 <= zop op x y < W.
Proof.
  intros Hx Hy. pose proof (zop_range op x y 16 ltac:(lia) Hx Hy) as H.
  split; [|exact H]. by destruct op; apply (wrapu_id 16).
Qed.

Lemma zip_words_spec op l r : digits W l -> digits W r -> length l = length r ->
  digits W (zip_with (word_op op) l r) /\
  length (zip_with (word_op op) l r) = length l /\
  eval W (zip_with (word_op op) l r) = zop op (eval W l) (eval W r).
Proof.
  intros Hl. revert r. induction Hl as [|x l Hx Hl IH]; intros r Hr Hlen;
    destruct r as [|y r]; try done.
  { repeat split; [constructor | by destruct op]. }
  apply digits_cons in Hr as [Hy Hr]. injection Hlen as Hlen.
  destruct (IH r Hr Hlen) as (Hd & Hll & Hv). destruct (word_op_zop op x y Hx Hy) as [E Hxy].
  cbn [zip_with length eval]. rewrite E. split; [by constructor|]. split; [by rewrite Hll|]. rewrite Hv.
  pose proof (zop_mod op (x + W * eval W l) (y + W * eval W r) 16 ltac:(lia)) as Hm.
  pose proof (zop_div op (x + W * eval W l) (y + W * eval W r) 16 ltac:(lia)) as Hq.
  change (2 ^ 16) with W in Hm, Hq.
  rewrite !(Z.mul_comm W), !Z_mod_plus_full, (Z.mod_small x), (Z.mod_small y) in Hm by lia.
  rewrite !(Z.mul_comm W), !Z_div_plus_full, (Z.div_small x), (Z.div_small y), !Z.add_0_l in Hq by lia.
  rewrite (Z.div_mod (zop op (x + W * eval W l) (y + W * eval W r)) W) by lia.
  rewrite !(Z.mul_comm W), Hm, Hq. lia.
Qed.

Lemma bitwise_represents x y a b op : represents x a -> represents y b ->
  exists r, bitwise x y op = Ok r /\ represents r (zop op a b).
Proof.
  intros Hx Hy. destruct (represents_inv x a Hx) as (Hcx & _).
  destruct (represents_inv y b Hy) as (Hcy & _).
  destruct (magnitudeToBinary16_spec _ Hcx) as (wx & Ex & _).
  destruct (magnitudeToBinary16_spec _ Hcy) as (wy & Ey & _).
  unfold bitwise. rewrite Ex, Ey. cbn [bind]. set (n := S (max (length wx) (length wy))).
  destruct (toTwosComplement16_spec x a wx n Hx Ex ltac:(lia)) as (l & -> & Hl & Hll & Hlv).
  destruct (toTwosComplement16_spec y b wy n Hy Ey ltac:(lia)) as (r & -> & Hr & Hrl & Hrv).
  cbn [bind]. destruct (zip_words_spec op l r Hl Hr ltac:(congruence)) as (Hd & Hzl & Hzv).
  destruct (fromTwosComplement16_spec _ Hd) as (z & -> & Hz).
  { intros E. rewrite E in Hzl. cbn in Hzl. lia. }
  exists z. split; [done|]. rewrite Hzl, Hll, Hzv, Hlv, Hrv, zop_wraps in Hz; [done | lia | |].
  - apply (fits_words x a wx); [done | done | lia].
  - apply (fits_words y b wy); [done | done | lia].
Qed.

Lemma op_not_represents x a : represents x a ->
  exists r, op_not x = Ok r /\ represents r (Z.lnot a).
Proof.
  intros Hx. destruct (represents_inv x a Hx) as (Hcx & _).
  destruct (magnitudeToBinary16_spec _ Hcx) as (wx & Ex & _).
  unfold op_not. rewrite Ex. cbn [bind]. set (n := S (length wx)).
  destruct (toTwosComplement16_spec x a wx n Hx Ex ltac:(lia)) as (l & -> & Hl & Hll & Hlv).
  cbn [bind]. destruct (map_not16_spec l Hl) as [Hd Hv].
  destruct (fromTwosComplement16_spec _ Hd) as (z & -> & Hz).
  { intros E. apply (f_equal length) in E. rewrite length_map, Hll in E. done. }
  exists z. split; [done|]. rewrite length_map, Hll, Hv, Hll, Hlv, words_pow in Hz by lia.
  pose proof (fits_words x a wx n Hx Ex ltac:(lia)) as Hin.
  replace (2 ^ (16 * n) - 1 - wrapu (16 * n) a) with
    (Z.lnot a + (1 + a / 2 ^ (16 * n)) * 2 ^ (16 * n)) in Hz.
  - unfold wraps in Hz at 1. rewrite Z.add_shuffle0, Z_mod_plus_full in Hz.
    change (_ mod _ - _) with (wraps (16 * n) (Z.lnot a)) in Hz.
    rewrite wraps_id in Hz; [done | lia |]. unfold Z.lnot, in_s in *. lia.
  - unfold Z.lnot, wrapu. pose proof (Z.div_mod a (2 ^ (16 * n)) ltac:(lia)). lia.
Qed.

(** ** Shifts *)

Lemma pow2_range bit : 0 <= bit < 16 -> 0 < 2 ^ bit <= 32768 /\ W = 2 ^ bit * 2 ^ (16 - bit).
Proof.
  intros Hb. split.
  - split; [apply Z.pow_pos_nonneg; lia|]. change 32768 with (2 ^ 15).
    apply Z.pow_le_mono_r; lia.
  - rewrite <- Z.pow_add_r by lia. by replace (bit + (16 - bit)) with 16 by lia.
Qed.

Lemma shl_words_spec bit carry ws : 0 <= bit < 16 -> digits W ws -> 0 <= carry < 2 ^ bit ->
  digits W (shl_words bit carry ws) /\
  eval W (shl_words bit carry ws) = eval W ws * 2 ^ bit + carry.
Proof.
  intros Hb Hws. destruct (pow2_range bit Hb) as [Hp _]. revert carry.
  induction Hws as [|w ws Hw Hws IH]; intros carry Hc; cbn [shl_words].
  { destruct (Z.eqb_spec carry 0) as [->|]; cbn [negb]; [by split; [constructor|]|].
    rewrite u16_id by lia. split; [apply digits_cons; split; [lia | constructor]|]. cbn. lia. }
  unfold ushl. rewrite Z.shiftl_mul_pow2 by lia.
  rewrite (wrapu_id 32) by (unfold in_u; nia). rewrite Z.lor_comm, lor_high by lia.
  rewrite Z.shiftr_div_pow2 by lia. change (2 ^ 16) with W.
  pose proof (Z.div_mod (carry + w * 2 ^ bit) W ltac:(lia)) as Hdm.
  pose proof (Z.mod_pos_bound (carry + w * 2 ^ bit) W ltac:(lia)) as Hm.
  destruct (IH ((carry + w * 2 ^ bit) / W)) as [Hd Hv].
  { split; [apply Z.div_pos; nia|]. apply Z.div_lt_upper_bound; nia. }
  split; [by constructor|]. cbn [eval]. rewrite Hv.
  change (u16 (carry + w * 2 ^ bit)) with ((carry + w * 2 ^ bit) mod W). lia.
Qed.

Lemma shr_words_spec bit ws : 0 < bit < 16 -> digits W ws ->
  digits W (shr_words bit ws) /\ eval W (shr_words bit ws) = eval W ws / 2 ^ bit.
Proof.
  intros Hb. destruct (pow2_range bit ltac:(lia)) as [Hp HW].
  assert (HW' : 0 < 2 ^ (16 - bit) <= 32768).
  { split; [apply Z.pow_pos_nonneg; lia|]. change 32768 with (2 ^ 15). apply Z.pow_le_mono_r; lia. }
  induction 1 as [|w ws Hw Hws [Hd Hv]]; cbn [shr_words eval]; [by split; [constructor|]|].
  assert (Hnext : 0 <= limb ws < W) by (destruct Hws; cbn; lia).
  unfold ushl. rewrite Z.shiftl_mul_pow2, Z.shiftr_div_pow2 by lia.
  rewrite (wrapu_id 32) by (unfold in_u; nia).
  assert (Hq : 0 <= w / 2 ^ bit < 2 ^ (16 - bit)).
  { split; [apply Z.div_pos; lia | apply Z.div_lt_upper_bound; lia]. }
  rewrite lor_high by lia. split.
  - constructor; [|done]. apply (Z.mod_pos_bound _ W). lia.
  - rewrite Hv. set (e := eval W ws) in *.
    assert (He : exists e', e = limb ws + W * e').
    { unfold e. destruct ws as [|x ws]; [by exists 0|]. by exists (eval W ws). }
    destruct He as [e' He]. set (q := (w + W * e) / 2 ^ bit).
    assert (Eq : q = w / 2 ^ bit + e * 2 ^ (16 - bit)).
    { unfold q. rewrite HW, <- Z.div_add by lia. f_equal. lia. }
    assert (Ed : q / W = e / 2 ^ bit).
    { unfold q. rewrite Z.div_div by lia. rewrite (Z.mul_comm (2 ^ bit)), <- Z.div_div by lia.
      f_equal. rewrite (Z.mul_comm W), Z.div_add, Z.div_small by lia. done. }
    assert (Em : u16 (w / 2 ^ bit + limb ws * 2 ^ (16 - bit)) = q mod W).
    { unfold u16, wrapu. change (2 ^ 16) with W. rewrite Eq, He.
      replace (w / 2 ^ bit + (limb ws + W * e') * 2 ^ (16 - bit)) with
        (w / 2 ^ bit + limb ws * 2 ^ (16 - bit) + (e' * 2 ^ (16 - bit)) * W) by lia.
      by rewrite Z_mod_plus_full. }
    rewrite Em, <- Ed. pose proof (Z.div_mod q W ltac:(lia)). lia.
Qed.

Lemma signed_mul neg a b : signed neg (a * b) = signed neg a * b.
Proof. destruct neg; cbn [signed]; lia. Qed.

(** The count as words and bits. *)
Lemma shift_split s : 0 <= s ->
  0 <= s mod 16 < 16 /\ 2 ^ s = W ^ Z.to_nat (s / 16) * 2 ^ (s mod 16).
Proof.
  intros Hs. pose proof (Z.mod_pos_bound s 16 ltac:(lia)).
  pose proof (Z.div_pos s 16 Hs ltac:(lia)). split; [done|].
  rewrite Z2Nat.id, words_pow, <- Z.pow_add_r by lia. f_equal.
  pose proof (Z.div_mod s 16). lia.
Qed.

Lemma shl_body_represents x z s : represents x z -> 0 <= s ->
  exists r, shl_body x s = Ok r /\ represents r (z * 2 ^ s).
Proof.
  intros Hx Hs. destruct (represents_inv x z Hx) as (Hc & Hv & Hn & _).
  destruct (magnitudeToBinary16_spec _ Hc) as (ws & E & Hws & Hev & _).
  destruct (shift_split s Hs) as [Hb Hpow].
  destruct (shl_words_spec (s mod 16) 0 ws Hb Hws) as [Hd Hsv].
  { split; [lia|]. apply Z.pow_pos_nonneg; lia. }
  unfold shl_body. rewrite E. cbn [bind].
  destruct (binary16ToMagnitude_spec
    (replicate (Z.to_nat (s / 16)) 0 ++ shl_words (s mod 16) 0 ws)) as (m & -> & Hm & Hne & Hmv).
  { apply digits_app. split; [apply digits_replicate_0; lia | done]. }
  cbn [bind]. eexists. split; [done|]. rewrite Hn.
  replace (z * 2 ^ s) with (signed (z <? 0) (value m)); [by apply trim_represents|].
  rewrite Hmv, eval_app, eval_replicate_0, length_replicate, Hsv, Hev, Hv.
  replace (0 + W ^ Z.to_nat (s / 16) * (Z.abs z * 2 ^ (s mod 16) + 0)) with (Z.abs z * 2 ^ s)
    by (rewrite Hpow; lia).
  by rewrite signed_mul, signed_abs.
Qed.

(** Rounding towards minus infinity of a negative number. *)
Lemma div_negative a n : 0 < n ->
  (- a) / n = - (a / n + if a mod n =? 0 then 0 else 1).
Proof.
  intros Hn. destruct (Z.eqb_spec (a mod n) 0) as [E|E].
  - rewrite Z.div_opp_l_z by lia. lia.
  - rewrite Z.div_opp_l_nz by lia. lia.
Qed.

(** The bits the shift drops. *)
Lemma nonzero_word ws : digits W ws ->
  existsb (fun w => negb (w =? 0)) ws = negb (eval W ws =? 0).
Proof.
  induction 1 as [|w ws Hw Hws IH]; [done|]. cbn [existsb eval]. rewrite IH.
  pose proof (eval_range W ltac:(lia) _ Hws) as [Hr _].
  destruct (Z.eqb_spec w 0), (Z.eqb_spec (eval W ws) 0), (Z.eqb_spec (w + W * eval W ws) 0);
    try done; lia.
Qed.

Lemma limb_bits bit ws : 0 <= bit < 16 -> digits W ws ->
  Z.land (limb ws) (usub 32 (ushl 32 1 bit) 1) = eval W ws mod 2 ^ bit.
Proof.
  intros Hb Hws. destruct (pow2_range bit Hb) as [Hp HW]. unfold usub, ushl.
  rewrite Z.shiftl_mul_pow2, Z.mul_1_l by lia.
  rewrite !(wrapu_id 32) by (unfold in_u; rewrite ?(wrapu_id 32) by (unfold in_u; lia); lia).
  rewrite land_mask by lia. destruct ws as [|w ws]; [done|]. cbn [limb eval].
  replace (w + W * eval W ws) with (w + (2 ^ (16 - bit) * eval W ws) * 2 ^ bit)
    by (rewrite HW at 2; lia).
  by rewrite Z_mod_plus_full.
Qed.

(** Dropping words and bits divides; the flag says whether a bit was lost. *)
Lemma shr_parts ws s : digits W ws -> 0 <= s ->
  let k := Z.to_nat (s / 16) in
  let bit := s mod 16 in
  let words := drop k ws in
  let lost := existsb (fun w => negb (w =? 0)) (take k ws) in
  (k < length ws)%nat ->
  digits W (if negb (bit =? 0) then shr_words bit words else words) /\
  eval W (if negb (bit =? 0) then shr_words bit words else words) = eval W ws / 2 ^ s /\
  (if negb (bit =? 0)
   then lost || negb (Z.land (limb words) (usub 32 (ushl 32 1 bit) 1) =? 0) else lost) =
  negb (eval W ws mod 2 ^ s =? 0).
Proof.
  intros Hws Hs k bit words lost Hk. destruct (shift_split s Hs) as [Hb Hpow].
  fold k bit in Hpow, Hb. assert (Hdr : digits W words) by apply Forall_drop, Hws.
  assert (Htk : digits W (take k ws)) by apply Forall_take, Hws.
  pose proof (eval_take_drop W k ws ltac:(lia)) as Hsplit. fold words in Hsplit.
  pose proof (eval_range W ltac:(lia) _ Htk) as Hlo. rewrite length_take_le in Hlo by lia.
  assert (Hp : 0 < W ^ k) by (apply Z.pow_pos_nonneg; lia).
  destruct (pow2_range bit Hb) as [Hp2 _].
  assert (Hhi : eval W ws / W ^ k = eval W words).
  { rewrite Hsplit, (Z.mul_comm (W ^ k)), Z.div_add, Z.div_small by lia. lia. }
  assert (Hlow : eval W ws mod W ^ k = eval W (take k ws)).
  { rewrite Hsplit, (Z.mul_comm (W ^ k)), Z_mod_plus_full, Z.mod_small by lia. done. }
  rewrite Hpow, <- Z.div_div, Hhi, Z.rem_mul_r, Hhi, Hlow by lia.
  unfold lost. rewrite nonzero_word by done.
  pose proof (Z.mod_pos_bound (eval W words) (2 ^ bit) ltac:(lia)) as Hm.
  destruct (Z.eqb_spec bit 0) as [E|E]; cbn [negb].
  - rewrite E. change (2 ^ 0) with 1. rewrite Z.div_1_r, Z.mod_1_r, Z.mul_0_r, Z.add_0_r.
    repeat split; done.
  - destruct (shr_words_spec bit words ltac:(lia) Hdr) as [Hd Hv].
    split; [done|]. split; [done|]. rewrite limb_bits by done.
    destruct (Z.eqb_spec (eval W (take k ws)) 0), (Z.eqb_spec (eval W words mod 2 ^ bit) 0),
      (Z.eqb_spec (eval W (take k ws) + W ^ k * (eval W words mod 2 ^ bit)) 0); try done; nia.
Qed.

Lemma shr_body_represents x z s : represents x z -> 0 <= s ->
  exists r, shr_body x s = Ok r /\ represents r (z / 2 ^ s).
Proof.
  intros Hx Hs. destruct (represents_inv x z Hx) as (Hc & Hv & Hn & _).
  destruct (magnitudeToBinary16_spec _ Hc) as (ws & E & Hws & Hev & _).
  pose proof (eval_range W ltac:(lia) _ Hws) as Hr. rewrite Hev, Hv in Hr.
  destruct (shift_split s Hs) as [Hb Hpow]. destruct (pow2_range _ Hb) as [Hp2 _].
  pose proof (Z.pow_pos_nonneg 2 s ltac:(lia) Hs) as Hps.
  unfold shr_body. rewrite E. cbn [bind].
  destruct (Nat.leb_spec (length ws) (Z.to_nat (s / 16))) as [Hk|Hk].
  - assert (Hbound : Z.abs z < 2 ^ s).
    { pose proof (Z.pow_le_mono_r W (length ws) (Z.to_nat (s / 16)) ltac:(lia) ltac:(lia)). nia. }
    rewrite Hn. destruct (Z.ltb_spec z 0).
    + exists (of_intcs (-1)). split; [done|].
      rewrite <- (Z.div_unique z (2 ^ s) (-1) (z + 2 ^ s)) by lia. by apply of_intcs_represents.
    + exists Zero. split; [done|]. rewrite Z.div_small by lia. apply zero_represents.
  - destruct (shr_parts ws s Hws Hs Hk) as (Hd & Hval & Hlost). rewrite Hlost.
    destruct (binary16ToMagnitude_spec _ Hd) as (m & -> & Hm & Hne & Hmv).
    cbn [bind]. eexists. split; [done|]. rewrite Hval, Hev, Hv in Hmv. rewrite Hev, Hv, Hn.
    destruct (Z.ltb_spec z 0); cbn [andb].
    + replace (z / 2 ^ s) with
        (signed true (Z.abs z / 2 ^ s + if Z.abs z mod 2 ^ s =? 0 then 0 else 1)).
      2:{ unfold signed. rewrite <- div_negative by done. f_equal. lia. }
      destruct (Z.abs z mod 2 ^ s =? 0); cbn [negb].
      * rewrite Z.add_0_r, <- Hmv. by apply trim_represents.
      * destruct (addMag_spec m [1] Hm) as [Ha Hav]; [by repeat constructor|].
        rewrite <- Hmv. replace (value m + 1) with (value (addMag m [1])) by (rewrite Hav; done).
        apply trim_represents; [done | by apply addMag_ne].
    + replace (z / 2 ^ s) with (signed false (value m)) by (cbn [signed]; rewrite Hmv; f_equal; lia).
      by apply trim_represents.
Qed.

(** The operators on a count that is not negative, zero included. *)
Lemma shl_nonneg_represents x z s : represents x z -> 0 <= s ->
  exists r, shl_nonneg x s = Ok r /\ represents r (Z.shiftl z s).
Proof.
  intros Hx Hs. destruct (represents_inv x z Hx) as (_ & _ & _ & Hz).
  rewrite Z.shiftl_mul_pow2 by done. unfold shl_nonneg. rewrite Hz.
  destruct (Z.eqb_spec s 0) as [->|]; [exists x; by rewrite Z.mul_1_r|].
  destruct (Z.eqb_spec z 0) as [->|]; [by exists x|]. by apply shl_body_represents.
Qed.

Lemma shr_nonneg_represents x z s : represents x z -> 0 <= s ->
  exists r, shr_nonneg x s = Ok r /\ represents r (Z.shiftr z s).
Proof.
  intros Hx Hs. destruct (represents_inv x z Hx) as (_ & _ & _ & Hz).
  rewrite Z.shiftr_div_pow2 by done. unfold shr_nonneg. rewrite Hz.
  destruct (Z.eqb_spec s 0) as [->|]; [exists x; by rewrite Z.div_1_r|].
  destruct (Z.eqb_spec z 0) as [->|]; [by exists x|]. by apply shr_body_represents.
Qed.

Lemma shl_min z : Z.shiftr (Z.shiftr z INTCS_MAX) 1 = Z.shiftl z INTCS_MIN.
Proof. rewrite Z.shiftr_shiftr by lia. exact (Z.shiftr_opp_r z INTCS_MIN). Qed.

Lemma shr_min z : Z.shiftl (Z.shiftl z 1) INTCS_MAX = Z.shiftr z INTCS_MIN.
Proof. rewrite Z.shiftl_shiftl by lia. exact (Z.shiftl_opp_r z INTCS_MIN). Qed.

Lemma op_shl_represents x z s : represents x z ->
  exists r, op_shl x s = Ok r /\ represents r (Z.shiftl z s).
Proof.
  intros Hx. destruct (represents_inv x z Hx) as (_ & _ & _ & Hz).
  unfold op_shl. rewrite Hz.
  destruct (Z.eqb_spec s 0) as [->|]; [by exists x|].
  destruct (Z.eqb_spec z 0) as [->|]; [exists x; by rewrite Z.shiftl_0_l|]. cbn [orb].
  destruct (Z.eqb_spec s INTCS_MIN) as [->|].
  { destruct (shr_nonneg_represents x z INTCS_MAX Hx ltac:(lia)) as (y & -> & Hy).
    rewrite <- shl_min. by apply (shr_nonneg_represents y). }
  destruct (Z.ltb_spec s 0).
  - destruct (shr_nonneg_represents x z (- s) Hx ltac:(lia)) as (y & -> & Hy).
    exists y. split; [done|]. by rewrite Z.shiftr_opp_r in Hy.
  - rewrite Z.shiftl_mul_pow2 by lia. by apply shl_body_represents.
Qed.

Lemma op_shr_represents x z s : represents x z ->
  exists r, op_shr x s = Ok r /\ represents r (Z.shiftr z s).
Proof.
  intros Hx. destruct (represents_inv x z Hx) as (_ & _ & _ & Hz).
  unfold op_shr. rewrite Hz.
  destruct (Z.eqb_spec s 0) as [->|]; [by exists x|].
  destruct (Z.eqb_spec z 0) as [->|]; [exists x; by rewrite Z.shiftr_0_l|]. cbn [orb].
  destruct (Z.eqb_spec s INTCS_MIN) as [->|].
  { destruct (shl_nonneg_represents x z 1 Hx ltac:(lia)) as (y & -> & Hy).
    rewrite <- shr_min. by apply (shl_nonneg_represents y). }
  destruct (Z.ltb_spec s 0).
  - destruct (shl_nonneg_represents x z (- s) Hx ltac:(lia)) as (y & -> & Hy).
    exists y. split; [done|]. by rewrite Z.shiftl_opp_r in Hy.
  - rewrite Z.shiftr_div_pow2 by lia. by apply shr_body_represents.
Qed.

(** ** Properties *)

(** C26: the bit operators and the shifts by any [intcs] count are those of the
    integers in infinite two's complement, and each result is canonical: [<<]
    multiplies, [>>] rounds towards minus infinity, a negative count shifts the
    other way, the most negative one included. *)
Theorem BigInteger_bits x y a b s : represents x a -> represents y b ->
  (exists r, op_and x y = Ok r /\ represents r (Z.land a b)) /\
  (exists r, op_or x y = Ok r /\ represents r (Z.lor a b)) /\
  (exists r, op_xor x y = Ok r /\ represents r (Z.lxor a b)) /\
  (exists r, op_not x = Ok r /\ represents r (Z.lnot a)) /\
  (exists r, op_shl x s = Ok r /\ represents r (Z.shiftl a s)) /\
  (exists r, op_shr x s = Ok r /\ represents r (Z.shiftr a s)).
Proof.
  intros Hx Hy.
  split; [exact (bitwise_represents x y a b And Hx Hy)|].
  split; [exact (bitwise_represents x y a b Or Hx Hy)|].
  split; [exact (bitwise_represents x y a b Xor Hx Hy)|].
  split; [by apply op_not_represents|].
  split; [by apply op_shl_represents | by apply op_shr_represents].
Qed.

Lemma BigInteger_bits_witness :
  (exists r, op_and (of_longcs (-123456789012)) (of_intcs 65535) = Ok r /\
    represents r (Z.land (-123456789012) 65535)) /\
  (exists r, op_shr (of_longcs (-123456789012)) 35 = Ok r /\
    represents r (Z.shiftr (-123456789012) 35)).
Proof.
  destruct (BigInteger_bits (of_longcs (-123456789012)) (of_intcs 65535) (-123456789012) 65535 35)
    as (H1 & _ & _ & _ & _ & H2).
  - apply of_longcs_represents. split; vm_compute; [intros H; discriminate H | reflexivity].
  - apply of_intcs_represents. split; vm_compute; [intros H; discriminate H | reflexivity].
  - exact (conj H1 H2).
Defined.

End BigBits.
