(* ===== verification/BigBytes.v ===== *)
(** * BigInteger: bytes

    The byte-vector constructor and [ToByteArray], under both byte orders, as
    two's complement or as an unsigned magnitude.  Bytes round trip, and no
    shorter vector denotes the number. *)

From S2P Require Export BigBits.

#[local] Coercion Z.of_nat : nat >-> Z.

Module BigBytes.
Import BigInteger BigBits.

(** [words[index / 2] |= byte << ((index % 2) * 8)] over the bytes. *)
Fixpoint pack_bytes (bytes : list Z) : list Z :=
  match bytes with
  | [] => []
  | [a] => [u16 a]
  | a :: b :: bytes => Z.lor (u16 a) (u16 (Z.shiftl b 8)) :: pack_bytes bytes
  end.

(** [words.back() |= 0xFF00u] *)
Definition extend_back (words : list Z) : list Z :=
  match reverse words with
  | [] => []
  | w :: r => reverse (Z.lor w 0xFF00 :: r)
  end.

Definition of_bytes (bytes : list Z) (isUnsigned isBigEndian : bool) : res BigInteger :=
  match bytes with
  | [] => Ok (mk false [0])
  | _ =>
      let littleEndian := if isBigEndian then reverse bytes else bytes in
      let negative := negb isUnsigned && negb (Z.land (default 0 (last littleEndian)) 0x80 =? 0) in
      let words := pack_bytes littleEndian in
      let words := if negative && Nat.odd (length littleEndian) then extend_back words else words in
      if negative then fromTwosComplement16 words
      else m <- binary16ToMagnitude words ;; Ok (trim (mk false m))
  end.

Fixpoint unpack_words (words : list Z) : list Z :=
  match words with
  | [] => []
  | w :: words => u8 w :: u8 (Z.shiftr w 8) :: unpack_words words
  end.

(** [while (bytes.size() > 1 && bytes.back() == 0xFF &&
    (bytes[bytes.size() - 2] & 0x80) != 0) bytes.pop_back();], back first. *)
Fixpoint pop_signs (r : list Z) : list Z :=
  match r with
  | a :: (b :: _) as t => if (a =? 0xFF) && negb (Z.land b 0x80 =? 0) then pop_signs t else r
  | _ => r
  end.

Definition ToByteArray (x : BigInteger) (isUnsigned isBigEndian : bool) : res (list Z) :=
  _ <- throw_if (isUnsigned && negative_ x)
         (OverflowException "A negative value cannot be represented as unsigned bytes.") ;;
  words <- (if negative_ x
            then w <- magnitudeToBinary16 (mag_ x) ;; toTwosComplement16 x (S (length w))
            else magnitudeToBinary16 (mag_ x)) ;;
  let bytes := unpack_words words in
  let bytes :=
    if negative_ x then reverse (pop_signs (reverse bytes))
    else
      let bytes := strip bytes in
      if negb isUnsigned && negb (Z.land (default 0 (last bytes)) 0x80 =? 0)
      then bytes ++ [0] else bytes in
  Ok (if isBigEndian then reverse bytes else bytes).

Example ToByteArray_ex :
  ToByteArray (of_intcs (-129)) false true = Ok [0xFF; 0x7F] /\
  ToByteArray (of_intcs 128) false false = Ok [0x80; 0] /\
  ToByteArray (of_intcs 128) true false = Ok [0x80].
Proof. vm_compute. done. Qed.


(** ** Bytes *)

Abbreviation bytes := (digits 256).

Lemma u8_id z : 0 <= z < 256 -> u8 z = z.
Proof. apply (wrapu_id 8). Qed.

Lemma bytes_pow n : 0 <= n -> 256 ^ n = 2 ^ (8 * n).
Proof. intros. by rewrite Z.pow_mul_r by lia. Qed.

Lemma u16_shl8 b : 0 <= b < 256 -> u16 (Z.shiftl b 8) = b * 2 ^ 8.
Proof. intros. rewrite Z.shiftl_mul_pow2 by lia. apply u16_id. lia. Qed.

(** Induction on a list by two elements at a time. *)
Lemma pairs_ind {A} (P : list A -> Prop) : P [] -> (forall a, P [a]) ->
  (forall a b l, P l -> P (a :: b :: l)) -> forall l, P l.
Proof.
  intros H0 H1 H2. fix IH 1. intros [|a [|b l]]; [done | done |]. apply H2, IH.
Qed.

Lemma pack_bytes_spec bs : bytes bs ->
  digits W (pack_bytes bs) /\ eval W (pack_bytes bs) = eval 256 bs /\
  (2 * length (pack_bytes bs) = length bs + if Nat.odd (length bs) then 1 else 0)%nat.
Proof.
  induction bs as [|a|a b bs IH] using pairs_ind; intros Hb.
  - repeat split. constructor.
  - apply digits_cons in Hb as [Ha _]. cbn [pack_bytes]. rewrite u16_id by lia.
    repeat split. constructor; [lia | constructor].
  - apply digits_cons in Hb as [Ha [Hb Hbs]%digits_cons].
    destruct (IH Hbs) as (Hd & Hv & Hl). cbn [pack_bytes].
    rewrite u16_shl8, u16_id, lor_high by lia. cbn [eval length Nat.odd]. rewrite Hv.
    split; [constructor; [lia | done]|]. split; [lia|].
    change (Nat.odd (S (S (length bs)))) with (Nat.odd (length bs)). lia.
Qed.

(** An odd number of bytes leaves the last one alone in its word. *)
Lemma pack_bytes_snoc l t : Nat.odd (length l) = false ->
  pack_bytes (l ++ [t]) = pack_bytes l ++ [u16 t].
Proof.
  induction l as [|a|a b l IH] using pairs_ind; intros H; [done | done |].
  cbn [pack_bytes app]. by rewrite IH.
Qed.

Lemma unpack_words_spec ws : digits W ws ->
  bytes (unpack_words ws) /\ eval 256 (unpack_words ws) = eval W ws /\
  length (unpack_words ws) = (2 * length ws)%nat.
Proof.
  induction 1 as [|w ws Hw Hws (Hd & Hv & Hl)]; [repeat split; constructor|].
  cbn [unpack_words]. rewrite Z.shiftr_div_pow2 by lia. change (2 ^ 8) with 256.
  assert (Hq : 0 <= w / 256 < 256).
  { split; [apply Z.div_pos; lia | apply Z.div_lt_upper_bound; lia]. }
  rewrite (u8_id (w / 256)) by done. unfold u8, wrapu. change (2 ^ 8) with 256.
  pose proof (Z.mod_pos_bound w 256 ltac:(lia)). pose proof (Z.div_mod w 256 ltac:(lia)).
  split; [apply digits_cons; split; [done|]; by apply digits_cons|].
  cbn [eval length]. rewrite Hv, Hl. lia.
Qed.

Lemma extend_back_snoc l w : extend_back (l ++ [w]) = l ++ [Z.lor w 0xFF00].
Proof. unfold extend_back. rewrite reverse_snoc, reverse_cons. by rewrite reverse_involutive. Qed.

(** The two's complement value of bytes, least significant first. *)
Definition signed_value (l : list Z) : Z := wraps (8 * length l) (eval 256 l).

(** The integer bytes stand for under the two flags. *)
Definition bytes_value (bs : list Z) (isUnsigned isBigEndian : bool) : Z :=
  let le := if isBigEndian then reverse bs else bs in
  if isUnsigned then eval 256 le else signed_value le.

Lemma signed_value_snoc l t : bytes (l ++ [t]) ->
  signed_value (l ++ [t]) =
    eval 256 (l ++ [t]) - (if 128 <=? t then 256 ^ length (l ++ [t]) else 0).
Proof.
  intros Hd. pose proof (wraps_snoc 7 l t ltac:(lia) Hd) as H. cbv zeta in H.
  rewrite bytes_pow by lia. exact H.
Qed.

(** A sign byte on top of a negative number changes nothing. *)
Lemma signed_value_sign l t : bytes (l ++ [t]) -> 128 <= t ->
  signed_value ((l ++ [t]) ++ [255]) = signed_value (l ++ [t]).
Proof.
  intros Hd Ht. rewrite signed_value_snoc.
  - rewrite signed_value_snoc by done. decide_cmp.
    rewrite (eval_app _ (l ++ [t])), !(length_app (l ++ [t])). cbn [eval length].
    rewrite Nat2Z.inj_add, Z.pow_add_r by lia. change (256 ^ 1%nat) with 256. lia.
  - apply digits_app. split; [done|]. apply digits_cons. split; [lia | constructor].
Qed.

Lemma signed_value_zero l : bytes l -> signed_value (l ++ [0]) = eval 256 l.
Proof.
  intros Hd. rewrite signed_value_snoc.
  - cbn [Z.leb]. rewrite eval_app. cbn. lia.
  - apply digits_app. split; [done|]. apply digits_cons. split; [lia | constructor].
Qed.

(** The words of the constructor, sign extension included. *)
Lemma negative_words l t : bytes (l ++ [t]) -> 128 <= t ->
  let le := l ++ [t] in
  let words := if Nat.odd (length le) then extend_back (pack_bytes le) else pack_bytes le in
  digits W words /\ words <> [] /\ wraps (16 * length words) (eval W words) = signed_value le.
Proof.
  intros Hd Ht le words. destruct (pack_bytes_spec le Hd) as (Hp & Hv & Hl). unfold words.
  destruct (Nat.odd (length le)) eqn:Hodd.
  - assert (Hev : Nat.odd (length l) = false).
    { unfold le in Hodd. rewrite length_app, Nat.odd_add in Hodd. cbn in Hodd.
      by destruct (Nat.odd (length l)). }
    unfold le in *. rewrite pack_bytes_snoc in * by done. rewrite extend_back_snoc.
    pose proof (proj1 (digits_app _ _ _) Hd) as [Hlb [Htr _]%digits_cons].
    rewrite u16_id in * by lia. change 0xFF00 with (255 * 2 ^ 8). rewrite lor_high by lia.
    apply digits_app in Hp as [Hpl _].
    split; [apply digits_app; split; [done | apply digits_cons; split; [lia | constructor]]|].
    split; [by destruct (pack_bytes l)|].
    rewrite <- (signed_value_sign l t Hd Ht). unfold signed_value.
    rewrite (eval_app W), (eval_app 256 (l ++ [t])). rewrite eval_app in Hv. cbn [eval] in *.
    rewrite !length_app in *. cbn [length] in *. f_equal; [lia|].
    rewrite <- Hv. rewrite words_pow, bytes_pow by lia.
    replace (8 * (length l + 1)%nat) with (16 * length (pack_bytes l) + 8) by lia.
    rewrite Z.pow_add_r by lia. change (2 ^ 8) with 256. lia.
  - split; [done|]. split.
    + intros E. rewrite E in Hl. unfold le in Hl. rewrite length_app in Hl. cbn in Hl. lia.
    + unfold signed_value. rewrite Hv. f_equal. lia.
Qed.

Lemma of_bytes_spec bs u be : bytes bs ->
  exists r, of_bytes bs u be = Ok r /\ represents r (bytes_value bs u be).
Proof.
  intros Hd. unfold of_bytes, bytes_value.
  destruct bs as [|b bs].
  { exists (mk false [0]). split; [done|].
    assert ((if be then reverse [] else []) = ([] : list Z)) as -> by by destruct be.
    assert ((if u then eval 256 [] else signed_value []) = 0) as -> by by destruct u.
    apply zero_represents. }
  set (le := if be then reverse (b :: bs) else b :: bs). cbv zeta.
  assert (Hle : bytes le) by (unfold le; destruct be; [by apply Forall_reverse | done]).
  assert (Hne : le <> []).
  { unfold le. destruct be; [|done]. rewrite reverse_cons. by destruct (reverse bs). }
  clearbody le. destruct le as [|t l _] using rev_ind; [done|].
  rewrite last_snoc. cbn [default id]. change 0x80 with (2 ^ 7).
  pose proof (proj1 (digits_app _ _ _) Hle) as [_ [Ht _]%digits_cons].
  rewrite top_bit by (try lia; exact Ht). change (2 ^ 7) with 128.
  destruct (pack_bytes_spec _ Hle) as (Hp & Hv & Hpl).
  destruct (negb u && (128 <=? t)) eqn:E.
  - bool_to_prop. rewrite H. cbn [andb].
    destruct (negative_words l t Hle ltac:(done)) as (Hw & Hwn & Hval).
    destruct (fromTwosComplement16_spec _ Hw Hwn) as (r & -> & Hr).
    exists r. split; [done|]. by rewrite Hval in Hr.
  - cbn [andb]. destruct (binary16ToMagnitude_spec _ Hp) as (m & -> & Hm & Hmn & Hmv).
    cbn [bind]. eexists. split; [done|].
    replace (if u then _ else _) with (signed false (value m)); [by apply trim_represents|].
    cbn [signed]. rewrite Hmv, Hv. destruct u; [done|]. rewrite signed_value_snoc by done.
    bool_to_prop; [done|]. decide_cmp. lia.
Qed.

(** No shorter two's complement form: the top byte is not implied by the one
    below it. *)
Definition tight (r : list Z) : Prop :=
  match r with
  | a :: b :: _ => ~ (a = 0xFF /\ 128 <= b) /\ ~ (a = 0 /\ b < 128)
  | _ => True
  end.

(** Popping sign bytes, last byte first. *)
Lemma pop_signs_spec r : bytes r -> match r with a :: _ => 128 <= a | [] => False end ->
  bytes (pop_signs r) /\ pop_signs r <> [] /\ tight (pop_signs r) /\
  signed_value (reverse (pop_signs r)) = signed_value (reverse r).
Proof.
  induction 1 as [|a r Ha Hr IH]; intros Htop; [done|]. cbn [pop_signs].
  destruct r as [|b r].
  { split; [apply digits_cons; by split|]. done. }
  pose proof (proj1 (digits_cons _ _ _) Hr) as [Hb Hr'].
  change 0x80 with (2 ^ 7). rewrite top_bit by (try lia; exact Hb). change (2 ^ 7) with 128.
  destruct (Z.eqb_spec a 0xFF) as [->|]; cbn [andb].
  - destruct (Z.leb_spec 128 b).
    + destruct (IH ltac:(done)) as (Hd & Hne & Htt & Hv). split; [done|]. split; [done|].
      split; [done|]. rewrite Hv, (reverse_cons _ 255), reverse_cons.
      symmetry. apply signed_value_sign; [|done]. rewrite <- reverse_cons. by apply Forall_reverse.
    + split; [by constructor|]. split; [done|]. split; [cbn; lia | done].
  - split; [by constructor|]. split; [done|]. split; [cbn; lia | done].
Qed.

(** The bytes of a number that is not negative. *)
Lemma positive_bytes l : bytes l -> l <> [] ->
  let l := strip l in
  let le := if negb (Z.land (default 0 (last l)) 0x80 =? 0) then l ++ [0] else l in
  bytes le /\ le <> [] /\ tight (reverse le) /\ signed_value le = eval 256 l.
Proof.
  intros Hl Hne l' le. assert (Hd : bytes l') by by apply strip_digits.
  pose proof (strip_trimmed l Hne) as Ht. fold l' in Ht.
  destruct Ht as (t & Hlast & Hz). subst le. rewrite Hlast. cbn [default id].
  clearbody l'. clear Hl Hne l. apply last_Some in Hlast as [l ->].
  pose proof (proj1 (digits_app _ _ _) Hd) as [Hl [Ht _]%digits_cons].
  change 0x80 with (2 ^ 7). rewrite top_bit by (try lia; exact Ht). change (2 ^ 7) with 128.
  destruct (Z.leb_spec 128 t).
  - split; [apply digits_app; split; [done | by repeat constructor]|].
    split; [by destruct l|]. split; [rewrite !reverse_snoc; cbn; lia|]. by apply signed_value_zero.
  - split; [done|]. split; [by destruct l|]. split.
    + rewrite reverse_snoc. destruct (reverse l) as [|b r] eqn:E; [done|]. cbn.
      split; [lia|]. intros [-> _]. specialize (Hz eq_refl).
      apply (f_equal reverse) in Hz. rewrite reverse_snoc, E in Hz. done.
    + rewrite signed_value_snoc by done. decide_cmp. lia.
Qed.

(** The bytes before the byte order is applied. *)
Lemma ToByteArray_cases x z u be : represents x z ->
  (u = true /\ z < 0 /\
   ToByteArray x u be = Throw (OverflowException
     "A negative value cannot be represented as unsigned bytes.")) \/
  exists le, ToByteArray x u be = Ok (if be then reverse le else le) /\
    bytes le /\ le <> [] /\
    (if u then 0 <= z /\ trimmed le /\ eval 256 le = z
     else tight (reverse le) /\ signed_value le = z).
Proof.
  intros Hx. destruct (represents_inv x z Hx) as (Hc & Hv & Hn & _).
  destruct (magnitudeToBinary16_spec _ Hc) as (ws & E & Hws & Hev & Hwn).
  unfold ToByteArray. rewrite Hn, E. cbn [bind].
  destruct (u && (z <? 0)) eqn:Eu; [left; bool_to_prop; by subst u|]. right. cbn [throw_if bind].
  destruct (Z.ltb_spec z 0).
  - destruct u; [done|]. cbn [negb].
    destruct (toTwosComplement16_spec x z ws (S (length ws)) Hx E ltac:(lia)) as
      (w2 & -> & Hd2 & Hl2 & Hv2). cbn [bind].
    assert (Hin : in_s (16 * S (length ws)) z) by (apply (fits_words x z ws); [done | done | lia]).
    destruct (unpack_words_spec w2 Hd2) as (Hb & Hbv & Hbl).
    set (le := pop_signs (reverse (unpack_words w2))).
    assert (Hs : signed_value (unpack_words w2) = z).
    { unfold signed_value. rewrite Hbv, Hv2, Hbl, Hl2.
      replace (8 * (2 * S (length ws))%nat) with (16 * S (length ws)) by lia.
      rewrite wraps_wrapu by lia. apply wraps_id; [lia | done]. }
    destruct (pop_signs_spec (reverse (unpack_words w2))) as (H1 & H2 & H3 & H4).
    { by apply Forall_reverse. }
    { destruct (unpack_words w2) as [|t l _] using rev_ind; [cbn in Hbl; lia|].
      rewrite reverse_snoc. rewrite signed_value_snoc in Hs by done.
      destruct (Z.leb_spec 128 t); [done|].
      pose proof (eval_range 256 ltac:(lia) _ Hb). lia. }
    exists (reverse le). split; [done|]. split; [by apply Forall_reverse|].
    split; [intros E0; apply H2, (inj reverse); done|].
    rewrite reverse_involutive. split; [done|]. unfold le. by rewrite H4, reverse_involutive.
  - destruct (unpack_words_spec ws Hws) as (Hb & Hbv & Hbl). cbn [bind].
    assert (Hbn : unpack_words ws <> []) by (destruct ws; done).
    rewrite Hev, Hv, Z.abs_eq in Hbv by lia.
    destruct u; cbn [negb andb].
    + exists (strip (unpack_words ws)). rewrite strip_eval.
      split; [done|]. split; [by apply strip_digits|].
      pose proof (strip_trimmed _ Hbn) as Ht. split; [by intros E'; destruct Ht as (? & Hl & _); rewrite E' in Hl|].
      split; [done|]. by split.
    + destruct (positive_bytes _ Hb Hbn) as (H1 & H2 & H3 & H4).
      eexists. split; [done|]. split; [done|]. split; [done|]. split; [done|].
      by rewrite H4, strip_eval.
Qed.

(** ** Shortest forms *)

Lemma tight_out l b a : bytes (l ++ [b; a]) -> tight [a; b] ->
  ~ in_s (8 * S (length l)) (signed_value (l ++ [b; a])).
Proof.
  intros Hd Ht. assert (E : l ++ [b; a] = (l ++ [b]) ++ [a]) by by rewrite <- app_assoc.
  rewrite E in *. rewrite signed_value_snoc by done. rewrite <- E in *.
  apply digits_app in Hd as [Hl [Hb [Ha _]%digits_cons]%digits_cons].
  pose proof (eval_range 256 ltac:(lia) _ Hl) as Hr.
  rewrite eval_app, length_app. cbn [eval length] in *.
  set (P := 256 ^ length l) in *.
  assert (Hp1 : 2 ^ (8 * S (length l) - 1) = 128 * P).
  { unfold P. rewrite bytes_pow by lia. change 128 with (2 ^ 7). rewrite <- Z.pow_add_r by lia.
    f_equal. lia. }
  assert (Hp2 : 256 ^ (length l + 2)%nat = 65536 * P).
  { rewrite Nat2Z.inj_add, Z.pow_add_r by lia. change (256 ^ 2%nat) with 65536. fold P. lia. }
  unfold in_s. rewrite Hp1, Hp2. cbn [tight] in Ht. destruct (Z.leb_spec 128 a); nia.
Qed.

(** No [k] bytes hold a tight number of more than [k]. *)
Lemma tight_shortest le bs : bytes le -> tight (reverse le) -> bytes bs -> bs <> [] ->
  signed_value bs = signed_value le -> (length le <= length bs)%nat.
Proof.
  intros Hle Ht Hbs Hne E. destruct (decide (length le <= length bs)%nat) as [|Hlt]; [done|exfalso].
  assert (Hn : (1 <= length bs)%nat) by (destruct bs; [done | cbn; lia]).
  destruct le as [|a l _] using rev_ind; [cbn in Hlt; lia|].
  destruct l as [|b l _] using rev_ind; [cbn in Hlt; lia|].
  rewrite <- app_assoc in *. cbn [app] in *.
  rewrite reverse_app in Ht. apply (tight_out l b a Hle); [exact Ht|].
  rewrite <- E. pose proof (wraps_range (8 * length bs) (eval 256 bs) ltac:(lia)) as Hr.
  rewrite length_app in Hlt. cbn [length] in Hlt.
  pose proof (Z.pow_le_mono_r 2 (8 * length bs - 1) (8 * S (length l) - 1) ltac:(lia) ltac:(lia)).
  unfold in_s, signed_value in *. lia.
Qed.

Lemma trimmed_shortest le bs : bytes le -> trimmed le -> bytes bs -> bs <> [] ->
  eval 256 bs = eval 256 le -> (length le <= length bs)%nat.
Proof.
  intros Hle Ht Hbs Hne E. rewrite <- (strip_eval 256 bs) in E.
  apply trimmed_unique in E; [|lia|by apply strip_digits|done|by apply strip_trimmed|done].
  rewrite <- E. apply strip_length.
Qed.

(** ** Properties *)

(** [ToByteArray] refuses exactly a negative number as unsigned bytes;
    otherwise the constructor reads its bytes back as the same object, under
    either byte order and signedness, and no shorter byte vector denotes the
    number. *)
Theorem BigInteger_bytes_roundtrip x z u be : represents x z ->
  if u && (z <? 0) then
    ToByteArray x u be = Throw (OverflowException
      "A negative value cannot be represented as unsigned bytes.")
  else exists bs, ToByteArray x u be = Ok bs /\ bytes bs /\ of_bytes bs u be = Ok x /\
    forall bs', bytes bs' -> bs' <> [] -> of_bytes bs' u be = Ok x ->
      (length bs <= length bs')%nat.
Proof.
  intros Hx. destruct (ToByteArray_cases x z u be Hx) as
    [(-> & Hneg & E) | (le & E & Hd & Hne & Hval)]; [by rewrite (proj2 (Z.ltb_lt z 0) Hneg)|].
  assert ((u && (z <? 0)) = false) as ->.
  { destruct u; [|done]. destruct Hval as [H0 _]. by apply Z.ltb_ge. }
  set (order := fun l : list Z => if be then reverse l else l).
  assert (Hord : forall l, bytes l -> bytes (order l)).
  { intros l Hl. unfold order. destruct be; [by apply Forall_reverse | done]. }
  assert (Hinv : forall l, order (order l) = l).
  { intros l. unfold order. destruct be; [apply reverse_involutive | done]. }
  assert (Hlen : forall l, length (order l) = length l).
  { intros l. unfold order. destruct be; [apply length_reverse | done]. }
  assert (Hbv : bytes_value (order le) u be = z).
  { unfold bytes_value. fold (order (order le)). rewrite Hinv. destruct u; tauto. }
  exists (order le). split; [done|]. split; [by apply Hord|]. split.
  - destruct (of_bytes_spec (order le) u be (Hord le Hd)) as (r & -> & Hr).
    rewrite Hbv in Hr. by rewrite (represents_unique r x z).
  - intros bs' Hd' Hne' E'. destruct (of_bytes_spec bs' u be Hd') as (r & Er & Hr).
    rewrite E' in Er. injection Er as <-. rewrite Hlen, <- (Hlen bs').
    assert (Hz : z = bytes_value bs' u be) by (destruct Hx as [_ <-], Hr as [_ <-]; done).
    assert (Hne2 : order bs' <> []).
    { intros E2. apply Hne'. rewrite <- (Hinv bs'), E2. unfold order. by destruct be. }
    unfold bytes_value in Hz. fold (order bs') in Hz. destruct u.
    + apply trimmed_shortest; [done | apply Hval | by apply Hord | done |]. rewrite <- Hz.
      symmetry. apply Hval.
    + apply tight_shortest; [done | apply Hval | by apply Hord | done |]. rewrite <- Hz.
      symmetry. apply Hval.
Qed.

Lemma BigInteger_bytes_roundtrip_witness :
  exists bs, ToByteArray (of_longcs (-123456789012)) false true = Ok bs /\
    of_bytes bs false true = Ok (of_longcs (-123456789012)).
Proof.
  pose proof (BigInteger_bytes_roundtrip (of_longcs (-123456789012)) (-123456789012) false true)
    as H. destruct H as (bs & H1 & _ & H2 & _).
  - apply of_longcs_represents. split; vm_compute; [intros H; discriminate H | reflexivity].
  - exact (ex_intro _ bs (conj H1 H2)).
Defined.

End BigBytes.
