(* ===== verification/Base64Common.v ===== *)
(** * Base64: shared code and memory

    What [System::Buffers::Text::Base64] and [Base64Url] have in common: the
    operation status, the alphabet lookup, the packing of bytes into sextets,
    the encoding loops over whole groups (forwards into another buffer,
    backwards in place) and the memory a decoder reads and writes, which is
    either two buffers or one. *)

From S2P Require Export Text Limbs.

#[local] Coercion Z.of_nat : nat >-> Z.

Inductive OperationStatus := Done | DestinationTooSmall | NeedMoreData | InvalidData.

#[export] Instance OperationStatus_eq_dec : EqDecision OperationStatus.
Proof. solve_decision. Defined.

Abbreviation zlen l := (Z.of_nat (length l)).

(** ' ', '\t', '\r', '\n' *)
Definition isWhitespace (c : Z) : bool := (c =? 32) || (c =? 9) || (c =? 13) || (c =? 10).

(** ** Memory *)

(** The spans of a decoder: [read] indexes the source, [write] the
    destination. *)
Class Memory (M : Type) := {
  read : M -> Z -> res Z;
  write : M -> Z -> Z -> res M
}.

(** A source and a destination that do not overlap. *)
Record Separate := separate { source : list Z; destination : list Z }.

#[global] Instance Separate_memory : Memory Separate := {
  read m i := get (source m) i;
  write m i b := d <- put (destination m) i b ;; Ok (separate (source m) d)
}.

(** One buffer that is both. *)
#[global] Instance InPlace_memory : Memory (list Z) := {
  read m i := get m i;
  write m i b := put m i b
}.

Fixpoint writes {M} `{Memory M} (m : M) (i : Z) (bs : list Z) : res M :=
  match bs with
  | [] => Ok m
  | b :: bs => m <- write m i b ;; writes m (i + 1) bs
  end.

(** ** Sextets *)

(** [kEncTable[(b >> k) & 0x3F]] *)
Definition symbol (table : list Z) (b k : Z) : Z :=
  nth (Z.to_nat (Z.land (Z.shiftr b k) 0x3F)) table 0.

(** [(uint32_t(x) << 16) | (uint32_t(y) << 8) | z] *)
Definition pack (x y z : Z) : Z := Z.lor (Z.lor (Z.shiftl x 16) (Z.shiftl y 8)) z.

(** The four symbols of three bytes. *)
Definition group (table : list Z) (x y z : Z) : list Z :=
  let b := pack x y z in [symbol table b 18; symbol table b 12; symbol table b 6; symbol table b 0].

(** [(v0 << 18) | (v1 << 12) | (v2 << 6) | v3] *)
Definition unpack (v0 v1 v2 v3 : Z) : Z :=
  Z.lor (Z.lor (Z.lor (Z.shiftl v0 18) (Z.shiftl v1 12)) (Z.shiftl v2 6)) v3.

(** The bytes of four sextets: [val >> 16], [val >> 8], [val]. *)
Definition ungroup (v0 v1 v2 v3 : Z) : list Z :=
  let val := unpack v0 v1 v2 v3 in
  [wrapu 8 (Z.shiftr val 16); wrapu 8 (Z.shiftr val 8); wrapu 8 val].

(** ** Encoding whole groups *)

(** What [encodeCore] returns: the status, [bytesConsumed], [written] and the
    destination. *)
Record encoded := encoded_of {
  e_status : OperationStatus; e_consumed : Z; e_written : Z; e_dst : list Z
}.

(** The loop over the full groups, [src] being the pointer that moves; it
    leaves early when the destination is too small. *)
Fixpoint encode_groups (table : list Z) (groups : nat) (src dst : list Z) (consumed written : Z)
  : res (encoded + (list Z * encoded)) :=
  match groups with
  | O => Ok (inr (src, encoded_of Done consumed written dst))
  | S groups =>
      if zlen dst - written <? 4 then Ok (inl (encoded_of DestinationTooSmall consumed written dst))
      else
        match src with
        | x :: y :: z :: src =>
            dst <- puts dst written (group table x y z) ;;
            encode_groups table groups src dst (consumed + 3) (written + 4)
        | _ => UB
        end
  end.

(** [for (intcs i = groups - 1; i >= 0; --i)] over the full groups in place. *)
Fixpoint encode_groups_in_place (table : list Z) (groups : nat) (buf : list Z) : res (list Z) :=
  match groups with
  | O => Ok buf
  | S i =>
      x <- get buf (i * 3) ;;
      y <- get buf (i * 3 + 1) ;;
      z <- get buf (i * 3 + 2) ;;
      buf <- puts buf (i * 4) (group table x y z) ;;
      encode_groups_in_place table i buf
  end.

(** [encodeCore]: the full groups, then in the final block the symbols [last]
    makes of the one or two bytes left over. *)
Definition encode_with (table : list Z) (last : list Z -> res (list Z)) (src dst : list Z)
  (isFinalBlock : bool) : res encoded :=
  let fullGroups := (length src / 3)%nat in
  let remainder := (length src mod 3)%nat in
  r <- encode_groups table fullGroups src dst 0 0 ;;
  match r with
  | inl e => Ok e
  | inr (src, e) =>
      if negb isFinalBlock && Nat.ltb 0 remainder then
        Ok (encoded_of NeedMoreData (e_consumed e) (e_written e) (e_dst e))
      else if isFinalBlock && Nat.ltb 0 remainder then
        g <- last src ;;
        if zlen dst - e_written e <? zlen g then
          Ok (encoded_of DestinationTooSmall (e_consumed e) (e_written e) (e_dst e))
        else
          d <- puts (e_dst e) (e_written e) g ;;
          Ok (encoded_of Done (e_consumed e + remainder) (e_written e + zlen g) d)
      else Ok e
  end.

(** The work of the encoders in place: the last pack first, then the full packs
    backwards. *)
Definition encode_in_place (table : list Z) (last : list Z -> res (list Z)) (buffer : list Z)
  (dataLength : Z) : res (list Z) :=
  let fullGroups := Z.quot dataLength 3 in
  let remainder := Z.rem dataLength 3 in
  let dstOff := fullGroups * 4 in
  buf <- (if remainder =? 1 then
            b0 <- get buffer (fullGroups * 3) ;;
            g <- last [b0] ;; puts buffer dstOff g
          else if remainder =? 2 then
            b0 <- get buffer (fullGroups * 3) ;;
            b1 <- get buffer (fullGroups * 3 + 1) ;;
            g <- last [b0; b1] ;; puts buffer dstOff g
          else Ok buffer) ;;
  encode_groups_in_place table (Z.to_nat fullGroups) buf.

(** ** Decoding *)

(** The locals the decoders share: the cursors, the sextets of the quantum being
    read, where a failed decode reports its cursor, and the out parameters. *)
Record locals := locals_of {
  si : Z; di : Z; vals : list Z; valCount : nat;
  failCursor : Z; consumed : Z; written : Z
}.

Definition start : locals := locals_of 0 0 [0; 0; 0; 0] 0 0 0 0.

(** What [decodeCore] returns. *)
Record decoded (M : Type) := decoded_of {
  d_status : OperationStatus; d_consumed : Z; d_written : Z; d_mem : M
}.
Arguments decoded_of {M}.
Arguments d_status {M}.
Arguments d_consumed {M}.
Arguments d_written {M}.
Arguments d_mem {M}.

(** ** What the memories promise *)

(** [after m out]: the memory [m] once the bytes [out] have been written from
    the start of the destination.  A source index not yet reached by the
    output still reads the source. *)
Class MemoryLaws (M : Type) `{Memory M} := {
  source_of : M -> list Z;
  room : M -> Z;
  after : M -> list Z -> M;
  after_nil m : after m [] = m;
  read_after m out i c : (length out <= i)%nat -> source_of m !! i = Some c ->
    read (after m out) i = Ok c;
  write_after m out b : zlen out < room m ->
    write (after m out) (zlen out) b = Ok (after m (out ++ [b]))
}.

#[global, refine] Instance Separate_laws : MemoryLaws Separate := {
  source_of := source;
  room m := zlen (destination m);
  after m out := separate (source m) (out ++ drop (length out) (destination m))
}.
Proof.
  - by intros [].
  - intros m out i c _ Hc. cbn. by apply get_Some.
  - intros m out b Hr. cbn. by rewrite put_app by lia.
Defined.

#[global, refine] Instance InPlace_laws : MemoryLaws (list Z) := {
  source_of m := m;
  room m := zlen m;
  after m out := out ++ drop (length out) m
}.
Proof.
  - done.
  - intros m out i c Hi Hc. cbn. apply get_Some. rewrite lookup_app_r by done.
    rewrite lookup_drop. rewrite <- Hc. f_equal. lia.
  - intros m out b Hr. cbn. by rewrite put_app by lia.
Defined.

(** ** Lemmas: memory *)

Lemma writes_after {M} `{MemoryLaws M} m out bs : zlen out + zlen bs <= room m ->
  writes (after m out) (zlen out) bs = Ok (after m (out ++ bs)).
Proof.
  revert out. induction bs as [|b bs IH]; intros out Hr; cbn [writes].
  { by rewrite app_nil_r. }
  cbn [length] in Hr. rewrite write_after by lia. cbn [bind].
  replace (zlen out + 1) with (zlen (out ++ [b])) by (rewrite length_app; cbn; lia).
  rewrite IH by (rewrite length_app; cbn; lia). by rewrite <- app_assoc.
Qed.

Lemma puts_at (i : nat) (d bs : list Z) : (i + length bs <= length d)%nat ->
  puts d i bs = Ok (take i d ++ bs ++ drop (i + length bs) d).
Proof.
  intros Hl. pose proof (puts_app (take i d) d bs) as H.
  rewrite length_app, !length_take_le, take_drop, <- app_assoc in H by lia. apply H. lia.
Qed.

(** ** Lemmas: sextets *)

Definition byte (b : Z) : Prop := 0 <= b < 256.

Lemma pack_value x y z : byte x -> byte y -> byte z -> pack x y z = x * 65536 + y * 256 + z.
Proof.
  unfold byte, pack. intros Hx Hy Hz. rewrite !Z.shiftl_mul_pow2 by lia.
  change (2 ^ 16) with (2 ^ 8 * 2 ^ 8). rewrite (Z.mul_assoc x), <- Z.lor_assoc.
  rewrite (Z.lor_comm _ z), (lor_high z y 8) by lia.
  rewrite Z.lor_comm, <- Z.mul_assoc. change (2 ^ 8 * 2 ^ 8) with (2 ^ 16).
  rewrite lor_high by lia. lia.
Qed.

Lemma unpack_value v0 v1 v2 v3 : 0 <= v0 < 64 -> 0 <= v1 < 64 -> 0 <= v2 < 64 -> 0 <= v3 < 64 ->
  unpack v0 v1 v2 v3 = v0 * 262144 + v1 * 4096 + v2 * 64 + v3.
Proof.
  unfold unpack. intros H0 H1 H2 H3. rewrite !Z.shiftl_mul_pow2 by lia.
  rewrite Z.lor_comm, (Z.lor_comm _ (v2 * 2 ^ 6)), Z.lor_assoc, (lor_high v3 v2 6) by lia.
  rewrite (Z.lor_comm _ (v1 * 2 ^ 12)), Z.lor_assoc, (lor_high _ v1 12) by lia.
  rewrite (lor_high _ v0 18) by lia. lia.
Qed.

Lemma ungroup_value v0 v1 v2 v3 : 0 <= v0 < 64 -> 0 <= v1 < 64 -> 0 <= v2 < 64 -> 0 <= v3 < 64 ->
  ungroup v0 v1 v2 v3 = [v0 * 4 + v1 / 16; v1 mod 16 * 16 + v2 / 4; v2 mod 4 * 64 + v3].
Proof.
  intros. unfold ungroup. rewrite unpack_value, !Z.shiftr_div_pow2 by lia.
  change (2 ^ 16) with 65536. change (2 ^ 8) with 256. unfold wrapu. change (2 ^ 8) with 256.
  f_equal; [|f_equal; [|f_equal]]; Z.to_euclidean_division_equations; lia.
Qed.

Lemma symbol_nth table b k : 0 <= k -> symbol table b k = nth (Z.to_nat (b / 2 ^ k mod 64)) table 0.
Proof.
  intros. unfold symbol. rewrite Z.shiftr_div_pow2 by done. change 63 with (2 ^ 6 - 1).
  by rewrite land_mask by lia.
Qed.

(** The sextets of three bytes are their bits in sixes. *)
Lemma group_symbols table x y z : byte x -> byte y -> byte z ->
  group table x y z =
    map (fun v => nth (Z.to_nat v) table 0)
      [x / 4; x mod 4 * 16 + y / 16; y mod 16 * 4 + z / 64; z mod 64].
Proof.
  unfold byte. intros Hx Hy Hz. unfold group. rewrite !symbol_nth, pack_value by done.
  cbn [map]. set (b := x * 65536 + y * 256 + z).
  assert (E0 : b / 2 ^ 18 mod 64 = x / 4) by (unfold b; Z.to_euclidean_division_equations; lia).
  assert (E1 : b / 2 ^ 12 mod 64 = x mod 4 * 16 + y / 16)
    by (unfold b; Z.to_euclidean_division_equations; lia).
  assert (E2 : b / 2 ^ 6 mod 64 = y mod 16 * 4 + z / 64)
    by (unfold b; Z.to_euclidean_division_equations; lia).
  assert (E3 : b / 2 ^ 0 mod 64 = z mod 64) by (unfold b; Z.to_euclidean_division_equations; lia).
  by rewrite E0, E1, E2, E3.
Qed.

(** ** Encoding *)

Section Encoding.
Context (table : list Z).

(** The encoding of the whole groups of three, and of the bytes left over by
    [finish]. *)
Fixpoint encoding (finish : list Z -> list Z) (bs : list Z) : list Z :=
  match bs with
  | x :: y :: z :: bs => group table x y z ++ encoding finish bs
  | _ => finish bs
  end.

(** Whole groups only. *)
Definition whole : list Z -> list Z := encoding (fun _ => []).

Lemma triples_ind (P : list Z -> Prop) : (forall r, (length r < 3)%nat -> P r) ->
  (forall x y z l, P l -> P (x :: y :: z :: l)) -> forall l, P l.
Proof.
  intros H0 H1. fix IH 1. intros [|x [|y [|z l]]]; try (apply H0; cbn; lia). apply H1, IH.
Qed.

Lemma group_length x y z : length (group table x y z) = 4%nat.
Proof. done. Qed.

Lemma take_triples k (x y z : Z) l :
  take (3 * S k) (x :: y :: z :: l) = x :: y :: z :: take (3 * k) l.
Proof. by replace (3 * S k)%nat with (S (S (S (3 * k)))) by lia. Qed.

Lemma drop_triples k (x y z : Z) l : drop (3 * S k) (x :: y :: z :: l) = drop (3 * k) l.
Proof. by replace (3 * S k)%nat with (S (S (S (3 * k)))) by lia. Qed.

Lemma whole_length k bs : (3 * k <= length bs)%nat -> length (whole (take (3 * k) bs)) = (4 * k)%nat.
Proof.
  revert bs. induction k as [|k IH]; intros bs Hk; [done|].
  destruct bs as [|x [|y [|z bs]]]; cbn [length] in Hk; try lia.
  rewrite take_triples. unfold whole in *. cbn [encoding]. rewrite length_app, group_length, IH; lia.
Qed.

Lemma encoding_split finish k bs : (3 * k <= length bs)%nat ->
  encoding finish bs = whole (take (3 * k) bs) ++ encoding finish (drop (3 * k) bs).
Proof.
  revert bs. induction k as [|k IH]; intros bs Hk; [done|].
  destruct bs as [|x [|y [|z bs]]]; cbn [length] in Hk; try lia.
  rewrite take_triples, drop_triples. unfold whole in *. cbn [encoding].
  rewrite (IH bs) by lia. by rewrite <- app_assoc.
Qed.

(** The loop encodes as many groups as fit. *)
Lemma encode_groups_spec groups src dst out consumed : (3 * groups <= length src)%nat ->
  (length out <= length dst)%nat ->
  exists k, (k <= groups)%nat /\ zlen out + 4 * k <= zlen dst /\
    let done := out ++ whole (take (3 * k) src) in
    let e st := encoded_of st (consumed + 3 * k) (zlen out + 4 * k) (done ++ drop (length done) dst) in
    encode_groups table groups src (out ++ drop (length out) dst) consumed (zlen out) =
      (if Nat.eqb k groups then Ok (inr (drop (3 * k) src, e Done))
       else Ok (inl (e DestinationTooSmall))) /\
    (k <> groups -> zlen dst < zlen out + 4 * k + 4).
Proof.
  revert src out consumed. induction groups as [|g IH]; intros src out consumed Hs Ho.
  { exists 0%nat. split; [lia|]. split; [lia|]. cbn [encode_groups Nat.eqb].
    split; [|lia]. change (3 * 0)%nat with 0%nat. rewrite drop_0, take_0. cbn.
    by rewrite app_nil_r, !Z.add_0_r. }
  destruct src as [|x [|y [|z src]]]; cbn [length] in Hs; try lia.
  cbn [encode_groups].
  assert (zlen (out ++ drop (length out) dst) = zlen dst) as ->
    by (rewrite length_app, length_drop; lia).
  destruct (Z.ltb_spec (zlen dst - zlen out) 4).
  { exists 0%nat. split; [lia|]. split; [lia|]. cbn [Nat.eqb]. split; [|lia].
    change (3 * 0)%nat with 0%nat. rewrite take_0. cbn. by rewrite app_nil_r, !Z.add_0_r. }
  rewrite puts_app by (rewrite group_length; lia). cbn [bind].
  destruct (IH src (out ++ group table x y z) (consumed + 3)) as (k & Hk & Hr & E & Hfull).
  { lia. }
  { rewrite length_app, group_length. lia. }
  rewrite length_app, group_length in Hr, E, Hfull.
  exists (S k). split; [lia|]. split; [lia|]. cbv zeta in E |- *.
  rewrite (length_app out (group table x y z)), group_length.
  replace (zlen out + 4) with (Z.of_nat (length out + 4)) by lia. rewrite E.
  rewrite take_triples, drop_triples. unfold whole. cbn [encoding Nat.eqb]. fold whole.
  rewrite <- (app_assoc out). split; [|lia].
  replace (consumed + 3 * S k) with (consumed + 3 + 3 * k) by lia.
  replace (zlen out + 4 * S k) with ((length out + 4)%nat + 4 * k) by lia. done.
Qed.

(** The backward loop in place: each group is read before it is overwritten. *)
Lemma encode_groups_in_place_spec groups buf : (4 * groups <= length buf)%nat ->
  encode_groups_in_place table groups buf =
    Ok (whole (take (3 * groups) buf) ++ drop (4 * groups) buf).
Proof.
  revert buf. induction groups as [|i IH]; intros buf Hl; [done|].
  cbn [encode_groups_in_place].
  destruct (lookup_lt_is_Some_2 buf (3 * i)) as [x Hx]; [lia|].
  destruct (lookup_lt_is_Some_2 buf (3 * i + 1)) as [y Hy]; [lia|].
  destruct (lookup_lt_is_Some_2 buf (3 * i + 2)) as [z Hz]; [lia|].
  replace (i * 3 + 1) with (Z.of_nat (3 * i + 1)) by lia.
  replace (i * 3 + 2) with (Z.of_nat (3 * i + 2)) by lia.
  replace (i * 3) with (Z.of_nat (3 * i)) by lia.
  rewrite (get_Some _ _ _ Hx), (get_Some _ _ _ Hy), (get_Some _ _ _ Hz). cbn [bind].
  replace (i * 4) with (Z.of_nat (4 * i)) by lia.
  rewrite puts_at, group_length by (rewrite group_length; lia). cbn [bind].
  set (buf1 := take (4 * i) buf ++ group table x y z ++ drop (4 * i + 4) buf).
  rewrite IH.
  2:{ unfold buf1. rewrite !length_app, length_take, length_drop, group_length. lia. }
  f_equal. unfold buf1. rewrite drop_app_length' by (rewrite length_take; lia).
  rewrite take_app_le, take_take by (rewrite length_take; lia).
  rewrite Nat.min_l by lia.
  rewrite app_assoc. f_equal; [|f_equal; lia].
  replace (3 * S i)%nat with (3 * i + 3)%nat by lia.
  unfold whole. rewrite (encoding_split _ i (take (3 * i + 3) buf)) by (rewrite length_take; lia).
  rewrite take_take, Nat.min_l, <- take_drop_commute by lia. f_equal.
  rewrite (drop_S _ _ _ Hx). replace (S (3 * i)) with (3 * i + 1)%nat by lia.
  rewrite (drop_S _ _ _ Hy). replace (S (3 * i + 1)) with (3 * i + 2)%nat by lia.
  rewrite (drop_S _ _ _ Hz). done.
Qed.
End Encoding.
