(* ===== verification/Base64.v ===== *)
(** * Base64

    [System::Buffers::Text::Base64]: the encoder, forwards and in place, the
    decoder as a state machine over characters that reads and writes one memory
    or two, the validator, and the throwing and allocating doors. *)

From S2P Require Export Base64Common.

#[local] Coercion Z.of_nat : nat >-> Z.

Module Base64.

Definition kMaximumEncodeLength : Z := 1610612733.

Definition kEncTable : list Z :=
  map code (str "ABCDEFGHIJKLMNOPQRSTUVWXYZabcdefghijklmnopqrstuvwxyz0123456789+/").

(** -2 is '=', -1 is any other byte outside the alphabet. *)
Definition kDecTable : list Z :=
  [(-1); (-1); (-1); (-1); (-1); (-1); (-1); (-1); (-1); (-1); (-1); (-1); (-1); (-1); (-1); (-1);
   (-1); (-1); (-1); (-1); (-1); (-1); (-1); (-1); (-1); (-1); (-1); (-1); (-1); (-1); (-1); (-1);
   (-1); (-1); (-1); (-1); (-1); (-1); (-1); (-1); (-1); (-1); (-1); 62; (-1); (-1); (-1); 63;
   52; 53; 54; 55; 56; 57; 58; 59; 60; 61; (-1); (-1); (-1); (-2); (-1); (-1);
   (-1); 0; 1; 2; 3; 4; 5; 6; 7; 8; 9; 10; 11; 12; 13; 14;
   15; 16; 17; 18; 19; 20; 21; 22; 23; 24; 25; (-1); (-1); (-1); (-1); (-1);
   (-1); 26; 27; 28; 29; 30; 31; 32; 33; 34; 35; 36; 37; 38; 39; 40;
   41; 42; 43; 44; 45; 46; 47; 48; 49; 50; 51; (-1); (-1); (-1); (-1); (-1);
   (-1); (-1); (-1); (-1); (-1); (-1); (-1); (-1); (-1); (-1); (-1); (-1); (-1); (-1); (-1); (-1);
   (-1); (-1); (-1); (-1); (-1); (-1); (-1); (-1); (-1); (-1); (-1); (-1); (-1); (-1); (-1); (-1);
   (-1); (-1); (-1); (-1); (-1); (-1); (-1); (-1); (-1); (-1); (-1); (-1); (-1); (-1); (-1); (-1);
   (-1); (-1); (-1); (-1); (-1); (-1); (-1); (-1); (-1); (-1); (-1); (-1); (-1); (-1); (-1); (-1);
   (-1); (-1); (-1); (-1); (-1); (-1); (-1); (-1); (-1); (-1); (-1); (-1); (-1); (-1); (-1); (-1);
   (-1); (-1); (-1); (-1); (-1); (-1); (-1); (-1); (-1); (-1); (-1); (-1); (-1); (-1); (-1); (-1);
   (-1); (-1); (-1); (-1); (-1); (-1); (-1); (-1); (-1); (-1); (-1); (-1); (-1); (-1); (-1); (-1);
   (-1); (-1); (-1); (-1); (-1); (-1); (-1); (-1); (-1); (-1); (-1); (-1); (-1); (-1); (-1); (-1)].

(** [kDecTable[ch]] *)
Definition dec (ch : Z) : Z := nth (Z.to_nat ch) kDecTable (-1).

(** ** Encoding *)

(** The four symbols of the one or two bytes left over. *)
Definition last_group (src : list Z) : res (list Z) :=
  match src with
  | [x] =>
      let b := Z.shiftl x 16 in
      Ok [symbol kEncTable b 18; symbol kEncTable b 12; 61; 61]
  | [x; y] =>
      let b := Z.lor (Z.shiftl x 16) (Z.shiftl y 8) in
      Ok [symbol kEncTable b 18; symbol kEncTable b 12; symbol kEncTable b 6; 61]
  | _ => UB
  end.

Definition encodeCore (src dst : list Z) (isFinalBlock : bool) : res encoded :=
  encode_with kEncTable last_group src dst isFinalBlock.

(** ** Decoding *)

(** The locals of [decodeCore]. *)
Record cursor := cursor_of { cur :> locals; padCount : nat }.

(** A round of the loop returns or goes on. *)
Inductive step (M : Type) := Return (d : decoded M) | Next (c : cursor) (m : M).
Arguments Return {M}.
Arguments Next {M}.

Section Decode.
Context {M : Type} `{Memory M} (srcLen dstLen : Z) (isFinalBlock : bool).

(** [return fail(status)] *)
Definition fail (status : OperationStatus) (c : cursor) (m : M) : res (step M) :=
  Ok (Return (decoded_of status (failCursor c) (written c) m)).

(** The loop over what follows the padding. *)
Fixpoint trailing (m : M) (r : Z) (n : nat) : res bool :=
  match n with
  | O => Ok true
  | S n => ch <- read m r ;; if isWhitespace ch then trailing m (r + 1) n else Ok false
  end.

(** [consumed = si; written = di;] after the bytes of a quantum, and what
    follows: the next quantum, or the end of the text after padding. *)
Definition commit (c : cursor) (m : M) (bytes : list Z) : res (step M) :=
  m <- writes m (di c) bytes ;;
  let di := di c + zlen bytes in
  if Nat.ltb 0 (padCount c) then
    ok <- trailing m (si c) (Z.to_nat (srcLen - si c)) ;;
    if ok then Ok (Return (decoded_of Done srcLen di m))
    else Ok (Return (decoded_of InvalidData (si c) di m))
  else Ok (Next (cursor_of (locals_of (si c) di (vals c) 0 (failCursor c) (si c) di) 0) m).

(** A quantum of four symbols. *)
Definition quantum (c : cursor) (m : M) : res (step M) :=
  let v i := nth i (vals c) 0 in
  match padCount c with
  | 0%nat =>
      if dstLen - di c <? 3 then fail DestinationTooSmall c m
      else commit c m (ungroup (v 0%nat) (v 1%nat) (v 2%nat) (v 3%nat))
  | 1%nat =>
      if negb (Z.land (v 2%nat) 0x03 =? 0) then fail InvalidData c m
      else if dstLen - di c <? 2 then fail DestinationTooSmall c m
      else
        let val := Z.lor (Z.lor (Z.shiftl (v 0%nat) 18) (Z.shiftl (v 1%nat) 12)) (Z.shiftl (v 2%nat) 6) in
        commit c m [wrapu 8 (Z.shiftr val 16); wrapu 8 (Z.shiftr val 8)]
  | _ =>
      if negb (Z.land (v 1%nat) 0x0F =? 0) then fail InvalidData c m
      else if dstLen - di c <? 1 then fail DestinationTooSmall c m
      else
        let val := Z.lor (Z.shiftl (v 0%nat) 18) (Z.shiftl (v 1%nat) 12) in
        commit c m [wrapu 8 (Z.shiftr val 16)]
  end.

(** [vals[valCount] = v; ++valCount;] and the quantum it may complete. *)
Definition accept (c : cursor) (v : Z) (pads : nat) (m : M) : res (step M) :=
  let c := cursor_of (locals_of (si c) (di c) (<[valCount c := v]> (vals c)) (S (valCount c))
             (failCursor c) (consumed c) (written c)) pads in
  if Nat.eqb (valCount c) 4 then quantum c m else Ok (Next c m).

(** The body of the loop on the character at [si]. *)
Definition decode_char (c : cursor) (m : M) : res (step M) :=
  ch <- read m (si c) ;;
  if isWhitespace ch then
    Ok (Next (cursor_of (locals_of (si c + 1) (di c) (vals c) (valCount c)
                (failCursor c) (consumed c) (written c)) (padCount c)) m)
  else
    let c := cursor_of (locals_of (si c + 1) (di c) (vals c) (valCount c)
               (if Nat.eqb (valCount c) 0 then si c else failCursor c) (consumed c) (written c))
               (padCount c) in
    let v := dec ch in
    if v =? -1 then fail InvalidData c m
    else if v =? -2 then
      if negb isFinalBlock then fail InvalidData c m
      else if Nat.ltb (valCount c) 2 then fail InvalidData c m
      else accept c 0 (S (padCount c)) m
    else if Nat.ltb 0 (padCount c) then fail InvalidData c m
    else accept c v (padCount c) m.

Fixpoint decode_loop (fuel : nat) (c : cursor) (m : M) : res (step M) :=
  match fuel with
  | O => UB
  | S fuel =>
      if si c <? srcLen then
        s <- decode_char c m ;;
        match s with
        | Return d => Ok (Return d)
        | Next c m => decode_loop fuel c m
        end
      else Ok (Next c m)
  end.

(** Every round reads one character, so one more than the source has is
    enough. *)
Definition decodeCore (m : M) : res (decoded M) :=
  s <- decode_loop (S (Z.to_nat srcLen)) (cursor_of start 0) m ;;
  match s with
  | Return d => Ok d
  | Next c m =>
      if Nat.ltb 0 (valCount c) then
        if isFinalBlock then Ok (decoded_of InvalidData (failCursor c) (written c) m)
        else Ok (decoded_of NeedMoreData (consumed c) (written c) m)
      else Ok (decoded_of Done (si c) (di c) m)
  end.
End Decode.

(** ** Validation *)

(** The loop of [validateCore] on what is left of the source: the decoded
    length, or nothing for [false]. *)
Fixpoint validate_loop (src : list Z) (di : Z) (vals : list Z) (valCount padCount : nat)
  : option Z :=
  match src with
  | [] => if Nat.ltb 0 valCount then None else Some di
  | ch :: src =>
      if isWhitespace ch then validate_loop src di vals valCount padCount
      else
        let v := dec ch in
        if v =? -1 then None
        else if (v =? -2) && Nat.ltb valCount 2 then None
        else if negb (v =? -2) && Nat.ltb 0 padCount then None
        else
          let padCount := if v =? -2 then S padCount else padCount in
          let vals := <[valCount := if v =? -2 then 0 else v]> vals in
          let valCount := S valCount in
          if Nat.eqb valCount 4 then
            if Nat.eqb padCount 1 && negb (Z.land (nth 2 vals 0) 0x03 =? 0) then None
            else if Nat.eqb padCount 2 && negb (Z.land (nth 1 vals 0) 0x0F =? 0) then None
            else
              let di := di + (if Nat.eqb padCount 0 then 3 else if Nat.eqb padCount 1 then 2 else 1) in
              if Nat.ltb 0 padCount then
                if forallb isWhitespace src then Some di else None
              else validate_loop src di vals 0 0
          else validate_loop src di vals valCount padCount
  end.

(** The returned flag and [decodedLength]. *)
Definition validateCore (src : list Z) : bool * Z :=
  match validate_loop src 0 [0; 0; 0; 0] 0 0 with
  | Some n => (true, n)
  | None => (false, 0)
  end.

End Base64.
