(* ===== verification/Base64Spec.v ===== *)
(** * Base64: what a codec promises

    The interface [Codec] states what the two alphabets share: the reference
    meaning of a text without white space, as bytes, and the text of bytes.  The
    specification of one call of a decoder, the facts that follow from it for the
    public overloads, the round trip, and the encoders, forwards and in place, are
    proved once against it. *)

From S2P Require Export Base64Common.

#[local] Coercion Z.of_nat : nat >-> Z.

(** ** Texts *)

Definition nonws (src : list Z) : list Z := List.filter (fun c => negb (isWhitespace c)) src.

Lemma nonws_app a b : nonws (a ++ b) = nonws a ++ nonws b.
Proof. apply List.filter_app. Qed.

Lemma nonws_cons c l : nonws (c :: l) = if isWhitespace c then nonws l else c :: nonws l.
Proof. unfold nonws. cbn [List.filter]. by destruct (isWhitespace c). Qed.

Lemma nonws_snoc a c : nonws (a ++ [c]) = if isWhitespace c then nonws a else nonws a ++ [c].
Proof.
  rewrite nonws_app, nonws_cons. destruct (isWhitespace c); [by rewrite app_nil_r | done].
Qed.

Lemma nonws_length l : (length (nonws l) <= length l)%nat.
Proof. apply List.filter_length_le. Qed.

Lemma nonws_split src p : nonws src = nonws (take p src) ++ nonws (drop p src).
Proof. by rewrite <- nonws_app, take_drop. Qed.

Lemma forallb_white src : forallb isWhitespace src = Nat.eqb (length (nonws src)) 0.
Proof.
  induction src as [|c l IH]; [done|]. rewrite nonws_cons. cbn [forallb].
  by destruct (isWhitespace c).
Qed.

Lemma nonws_white l : forallb isWhitespace l = true <-> nonws l = [].
Proof. rewrite forallb_white, Nat.eqb_eq. apply length_zero_iff_nil. Qed.

(** The character at a cursor. *)
Lemma take_next src p ch : src !! p = Some ch ->
  nonws (take (S p) src) = (if isWhitespace ch then nonws (take p src) else nonws (take p src) ++ [ch]) /\
  nonws (drop p src) = (if isWhitespace ch then nonws (drop (S p) src) else ch :: nonws (drop (S p) src)).
Proof.
  intros H. by rewrite (take_S_r _ _ _ H), nonws_snoc, (drop_S _ _ _ H), nonws_cons.
Qed.

Lemma nth_insert (l : list Z) i j x d : (i < length l)%nat ->
  nth j (<[i := x]> l) d = if Nat.eqb j i then x else nth j l d.
Proof.
  intros Hi. rewrite !nth_lookup. destruct (Nat.eqb_spec j i) as [->|Hn].
  - by rewrite list_lookup_insert_eq.
  - by rewrite list_lookup_insert_ne.
Qed.

(** ** Sextets and octets *)

(** The bytes of four sextets, by arithmetic. *)
Definition octets (v0 v1 v2 v3 : Z) : list Z :=
  [v0 * 4 + v1 / 16; v1 mod 16 * 16 + v2 / 4; v2 mod 4 * 64 + v3].

(** The one or two bytes of an unfinished quantum. *)
Lemma two_bytes v0 v1 v2 : 0 <= v0 < 64 -> 0 <= v1 < 64 -> 0 <= v2 < 64 ->
  let val := Z.lor (Z.lor (Z.shiftl v0 18) (Z.shiftl v1 12)) (Z.shiftl v2 6) in
  [wrapu 8 (Z.shiftr val 16); wrapu 8 (Z.shiftr val 8)] =
    [v0 * 4 + v1 / 16; v1 mod 16 * 16 + v2 / 4].
Proof.
  intros H0 H1 H2 val.
  pose proof (ungroup_value v0 v1 v2 0 H0 H1 H2 ltac:(lia)) as H. unfold ungroup in H.
  assert (unpack v0 v1 v2 0 = val) as E by apply Z.lor_0_r.
  rewrite E in H. injection H as E1 E2 _. by rewrite E1, E2.
Qed.

Lemma one_byte v0 v1 : 0 <= v0 < 64 -> 0 <= v1 < 64 ->
  let val := Z.lor (Z.shiftl v0 18) (Z.shiftl v1 12) in
  [wrapu 8 (Z.shiftr val 16)] = [v0 * 4 + v1 / 16].
Proof.
  intros H0 H1 val. pose proof (two_bytes v0 v1 0 H0 H1 ltac:(lia)) as H. cbv zeta in H.
  change (Z.shiftl 0 6) with 0 in H. rewrite Z.lor_0_r in H. injection H as H _.
  exact (f_equal (fun x => [x]) H).
Qed.

Lemma land_3 v : 0 <= v -> (Z.land v 0x03 =? 0) = (v mod 4 =? 0).
Proof. intros. change 0x03 with (2 ^ 2 - 1). by rewrite land_mask by lia. Qed.

Lemma land_15 v : 0 <= v -> (Z.land v 0x0F =? 0) = (v mod 16 =? 0).
Proof. intros. change 0x0F with (2 ^ 4 - 1). by rewrite land_mask by lia. Qed.

(** ** The interface *)

(** [alphabet] is the encoder's table and [sextet] the decoder's; [denotes] is the
    meaning of a text without white space, [capacity n] the most bytes [n]
    characters can denote, and [last_text] the symbols of one or two bytes. *)
Class Codec := {
  alphabet : list Z;
  sextet : Z -> Z;
  denotes : list Z -> option (list Z);
  capacity : nat -> nat;
  last_text : list Z -> list Z;
  sextet_alphabet v : 0 <= v < 64 ->
    sextet (nth (Z.to_nat v) alphabet 0) = v /\ isWhitespace (nth (Z.to_nat v) alphabet 0) = false;
  denotes_nil : denotes [] = Some [];
  denotes_quantum a b c d r : 0 <= sextet a -> 0 <= sextet b -> 0 <= sextet c -> 0 <= sextet d ->
    denotes (a :: b :: c :: d :: r) =
      option_map (app (octets (sextet a) (sextet b) (sextet c) (sextet d))) (denotes r);
  denotes_capacity s bs : denotes s = Some bs -> (length bs <= capacity (length s))%nat;
  capacity_mono m n : (m <= n)%nat -> (capacity m <= capacity n)%nat;
  capacity_quantum n : capacity (n + 4) = (capacity n + 3)%nat;
  capacity_le n : (capacity n <= n)%nat;
  last_denotes bs : Forall byte bs -> (0 < length bs < 3)%nat -> denotes (last_text bs) = Some bs;
  last_symbols bs : Forall byte bs -> (length bs < 3)%nat -> nonws (last_text bs) = last_text bs;
  last_length bs : (0 < length bs < 3)%nat -> (0 < length (last_text bs) <= 4)%nat;
  last_nil : last_text [] = []
}.

Section Decoder.
Context `{Codec}.

(** The text [q] is made of whole quanta without padding, with the bytes
    [out]. *)
Definition full (q out : list Z) : Prop :=
  forall r, denotes (q ++ r) = option_map (app out) (denotes r).

Lemma full_nil : full [] [].
Proof. intros r. cbn [app]. by destruct (denotes r). Qed.

Lemma full_ref q out : full q out -> denotes q = Some out.
Proof.
  intros Hf. specialize (Hf []). rewrite app_nil_r, denotes_nil in Hf. rewrite Hf.
  cbn [option_map]. by rewrite app_nil_r.
Qed.

Lemma full_none q out r : full q out -> denotes r = None -> denotes (q ++ r) = None.
Proof. intros Hf E. by rewrite Hf, E. Qed.

Lemma full_quantum q out a b c d : full q out ->
  0 <= sextet a -> 0 <= sextet b -> 0 <= sextet c -> 0 <= sextet d ->
  full (q ++ [a; b; c; d]) (out ++ octets (sextet a) (sextet b) (sextet c) (sextet d)).
Proof.
  intros Hf Ha Hb Hc Hd r. rewrite <- app_assoc, Hf. cbn [app].
  rewrite denotes_quantum by done. destruct (denotes r); [|done].
  cbn [option_map]. by rewrite <- app_assoc.
Qed.

(** ** What a call of a decoder delivers *)

(** The status [st], the [n] characters consumed and the bytes [out]: the
    consumed text denotes exactly the bytes written (and a block that is not
    the last one never consumes part of a quantum, or its padding), and the
    status tells the truth about the rest. *)
Definition delivers (src : list Z) (room : Z) (isFinal : bool) (st : OperationStatus) (n : nat)
  (out : list Z) : Prop :=
  (n <= length src)%nat /\ zlen out <= room /\
  denotes (nonws (take n src)) = Some out /\
  (isFinal = false -> full (nonws (take n src)) out) /\
  match st with
  | Done => n = length src
  | InvalidData =>
      if isFinal then denotes (nonws src) = None
      else exists c, c ∈ nonws src /\ sextet c < 0
  | DestinationTooSmall =>
      room < zlen out + 3 /\
      ((4 <= length (nonws (drop n src)))%nat \/ denotes (nonws src) <> None) /\
      forall bs, denotes (nonws src) = Some bs -> room < zlen bs
  | NeedMoreData =>
      isFinal = false /\ (0 < length (nonws (drop n src)) < 4)%nat /\
      Forall (fun c => 0 <= sextet c) (nonws (drop n src))
  end.

(** A call [r] on the memory [m] that delivers. *)
Definition good_call {M} `{MemoryLaws M} (m : M) (isFinal : bool) (r : res (decoded M)) : Prop :=
  exists d n out, r = Ok d /\ d_consumed d = Z.of_nat n /\ d_written d = zlen out /\
    d_mem d = after m out /\ delivers (source_of m) (room m) isFinal (d_status d) n out.

(** ** The locals of a decoder *)

(** The sextet the decoder stores for a symbol; padding counts as zero. *)
Definition value (a : Z) : Z := Z.max 0 (sextet a).

(** The locals after [p] characters, with [ps] the quantum being read and [out]
    the bytes written: [consumed] is the end of the last whole quantum, and
    [failCursor] where the quantum being read starts. *)
Record progress (src : list Z) (room : Z) (p : nat) (c : locals) (ps out : list Z) : Prop := {
  pr_p : (p <= length src)%nat;
  pr_si : si c = p;
  pr_di : di c = zlen out;
  pr_written : written c = zlen out;
  pr_room : zlen out <= room;
  pr_count : valCount c = length ps;
  pr_vals : length (vals c) = 4%nat;
  pr_val i a : ps !! i = Some a -> nth i (vals c) 0 = value a;
  pr_n : exists n q, consumed c = Z.of_nat n /\ (n <= p)%nat /\ nonws (take n src) = q /\
    nonws (take p src) = q ++ ps /\ full q out /\
    (ps <> [] -> exists f, failCursor c = Z.of_nat f /\ (n <= f <= p)%nat /\ nonws (take f src) = q);
  pr_behind : (length out + length ps <= p)%nat
}.

(** Moving past white space, past the first look at another character, storing
    its sextet, and committing a quantum of three bytes. *)
Definition skip (c : locals) : locals :=
  locals_of (si c + 1) (di c) (vals c) (valCount c) (failCursor c) (consumed c) (written c).
Definition mark (c : locals) : locals :=
  locals_of (si c) (di c) (vals c) (valCount c)
    (if Nat.eqb (valCount c) 0 then si c else failCursor c) (consumed c) (written c).
Definition push (c : locals) (v : Z) : locals :=
  locals_of (si c) (di c) (<[valCount c := v]> (vals c)) (S (valCount c)) (failCursor c)
    (consumed c) (written c).
Definition flush (c : locals) (n : Z) : locals :=
  locals_of (si c) (di c + n) (vals c) 0 (failCursor c) (si c) (di c + n).

Section Progress.
Context {M : Type} `{MemoryLaws M} (m : M) (isFinal : bool).
Abbreviation src := (source_of m).
Abbreviation progress := (progress (source_of m) (room m)).

Lemma progress_start : 0 <= room m -> progress 0 start [] [].
Proof.
  intros Hr. constructor; try done; try lia. exists 0%nat, []. repeat split; try done.
  exact full_nil.
Qed.

Lemma progress_read p c ps out ch : progress p c ps out -> src !! p = Some ch ->
  read (after m out) (si c) = Ok ch.
Proof.
  intros Hp Hch. rewrite (pr_si _ _ _ _ _ _ Hp). apply read_after; [|done].
  pose proof (pr_behind _ _ _ _ _ _ Hp). lia.
Qed.

(** The whole text, seen from the cursor. *)
Lemma progress_text p c ps out : progress p c ps out ->
  denotes (nonws src) = option_map (app out) (denotes (ps ++ nonws (drop p src))).
Proof.
  intros Hp. destruct (pr_n _ _ _ _ _ _ Hp) as (n & q & _ & _ & _ & Hps & Hf & _).
  rewrite (nonws_split src p), Hps, <- app_assoc. apply Hf.
Qed.

Lemma progress_skip p c ps out ch : progress p c ps out -> src !! p = Some ch ->
  isWhitespace ch = true -> progress (S p) (skip c) ps out.
Proof.
  intros Hp Hch Hw. pose proof (lookup_lt_Some _ _ _ Hch).
  destruct (take_next src p ch Hch) as [Ht _]. rewrite Hw in Ht.
  destruct Hp as [? Hsi ? ? ? ? ? Hv (n & q & Hn & Hnp & Hq & Hps & Hf & Hfc) ?].
  constructor; cbn [skip si di vals valCount failCursor consumed written]; try done; try lia.
  exists n, q. split; [done|]. split; [lia|]. split; [done|]. split; [by rewrite Ht|].
  split; [done|]. intros Hne. destruct (Hfc Hne) as (f & Ef & Hfr & Hfq).
  exists f. split; [done|]. split; [lia|done].
Qed.

(** At a character that is not white space. *)
Lemma progress_mark p c ps out : progress p c ps out ->
  exists f q, failCursor (mark c) = Z.of_nat f /\ (f <= p)%nat /\ nonws (take f src) = q /\
    full q out /\ nonws (take p src) = q ++ ps.
Proof.
  intros Hp. destruct (pr_n _ _ _ _ _ _ Hp) as (n & q & Hn & Hnp & Hq & Hps & Hf & Hfc).
  cbn [mark failCursor]. rewrite (pr_count _ _ _ _ _ _ Hp).
  destruct ps as [|a ps]; cbn [length Nat.eqb].
  - exists p, q. rewrite app_nil_r in Hps. rewrite app_nil_r. by rewrite (pr_si _ _ _ _ _ _ Hp).
  - destruct (Hfc ltac:(done)) as (f & Ef & Hfr & Hfq). exists f, q. repeat split; try done. lia.
Qed.

Lemma progress_push p c ps out ch : progress p c ps out -> src !! p = Some ch ->
  isWhitespace ch = false -> (length ps < 4)%nat ->
  progress (S p) (push (skip (mark c)) (value ch)) (ps ++ [ch]) out.
Proof.
  intros Hp Hch Hw Hl. pose proof (lookup_lt_Some _ _ _ Hch).
  destruct (take_next src p ch Hch) as [Ht _]. rewrite Hw in Ht.
  destruct (progress_mark _ _ _ _ Hp) as (f & q & Ef & Hfp & Hfq & Hf & Hps).
  destruct Hp as [? Hsi ? ? ? Hc Hv4 Hv (n & q' & Hn & Hnp & Hq & Hps' & _ & Hfc) ?].
  assert (q' = q) as -> by (rewrite Hps' in Hps; by apply app_inv_tail in Hps).
  cbn [mark failCursor] in Ef.
  constructor; cbn [push skip mark si di vals valCount failCursor consumed written]; try done; try lia.
  - rewrite length_app. cbn. lia.
  - by rewrite length_insert.
  - intros i a Ha. rewrite nth_insert by lia.
    destruct (Nat.eqb_spec i (valCount c)) as [->|Hn'].
    + rewrite lookup_app_r, Hc, Nat.sub_diag in Ha by lia. by injection Ha as ->.
    + pose proof (lookup_lt_Some _ _ _ Ha) as Hil. rewrite length_app in Hil. cbn in Hil.
      rewrite lookup_app_l in Ha by lia. by apply Hv.
  - exists n, q. split; [done|]. split; [lia|]. split; [done|].
    split; [by rewrite Ht, Hps, <- app_assoc|]. split; [done|]. intros _.
    exists f. split; [done|]. split; [|done]. split; [|lia].
    destruct ps as [|a ps]; rewrite Hc in Ef; cbn [length Nat.eqb] in Ef; [lia|].
    destruct (Hfc ltac:(done)) as (f' & Ef' & Hfr & _). lia.
  - rewrite length_app. cbn. lia.
Qed.

Lemma progress_flush p c out a b x y : progress p c [a; b; x; y] out ->
  0 <= sextet a -> 0 <= sextet b -> 0 <= sextet x -> 0 <= sextet y -> zlen out + 3 <= room m ->
  progress p (flush c 3) [] (out ++ octets (sextet a) (sextet b) (sextet x) (sextet y)).
Proof.
  intros Hp Ha Hb Hx Hy Hr. pose proof (pr_behind _ _ _ _ _ _ Hp) as Hbehind.
  destruct (pr_n _ _ _ _ _ _ Hp) as (n & q & Hn & Hnp & Hq & Hps & Hf & Hfc).
  assert (Hl : forall bs, zlen (out ++ octets (sextet a) (sextet b) (sextet x) bs) = zlen out + 3)
    by (intros; rewrite length_app; cbn [length octets]; lia).
  constructor; cbn [flush si di vals valCount failCursor consumed written];
    rewrite ?Hl; try (by apply Hp); try done; try (rewrite (pr_di _ _ _ _ _ _ Hp); lia).
  - exists p, (q ++ [a; b; x; y]). rewrite app_nil_r. split; [apply Hp|]. split; [lia|].
    split; [done|]. split; [done|]. split; [by apply full_quantum | done].
  - rewrite length_app. cbn [length octets] in *. lia.
Qed.

(** Leaving by [fail]: inside a quantum, and at a character that spoils the
    text. *)
Lemma progress_fail p c ps out st : progress p c ps out -> ps <> [] ->
  (forall n, full (nonws (take n src)) out -> (n <= length src)%nat ->
     nonws (drop n src) = ps ++ nonws (drop p src) -> delivers src (room m) isFinal st n out) ->
  good_call m isFinal (Ok (decoded_of st (failCursor c) (written c) (after m out))).
Proof.
  intros Hp Hne Hst. destruct (pr_n _ _ _ _ _ _ Hp) as (n & q & Hn & Hnp & Hq & Hps & Hf & Hfc).
  destruct (Hfc Hne) as (f & Ef & Hfr & Hfq). pose proof (pr_p _ _ _ _ _ _ Hp).
  eexists _, f, out. split; [done|]. split; [done|]. split; [apply Hp|]. split; [done|].
  assert (Hd : nonws src = q ++ nonws (drop f src)) by (by rewrite (nonws_split src f), Hfq).
  rewrite (nonws_split src p), Hps, <- app_assoc in Hd. apply app_inv_head in Hd.
  apply Hst; [by rewrite Hfq | lia | done].
Qed.

Lemma progress_invalid p c ps out ch : progress p c ps out -> src !! p = Some ch ->
  isWhitespace ch = false ->
  (isFinal = true -> denotes (ps ++ ch :: nonws (drop (S p) src)) = None) ->
  (isFinal = false -> sextet ch < 0) ->
  good_call m isFinal (Ok (decoded_of InvalidData (failCursor (mark c)) (written c) (after m out))).
Proof.
  intros Hp Hch Hw Hnone Hsym.
  destruct (progress_mark _ _ _ _ Hp) as (f & q & Ef & Hfp & Hfq & Hf & Hps).
  eexists _, f, out. split; [done|]. split; [done|]. split; [apply Hp|]. split; [done|].
  pose proof (pr_p _ _ _ _ _ _ Hp).
  split; [lia|]. split; [apply Hp|]. split; [rewrite Hfq; by apply full_ref|].
  split; [by rewrite Hfq|]. destruct (take_next src p ch Hch) as [_ Hd]. rewrite Hw in Hd.
  assert (E : nonws src = q ++ ps ++ ch :: nonws (drop (S p) src))
    by (by rewrite (nonws_split src p), Hps, Hd, <- app_assoc).
  rewrite E. cbn [d_status]. destruct isFinal.
  - apply (full_none _ _ _ Hf). by apply Hnone.
  - exists ch. split; [set_solver | by apply Hsym].
Qed.

(** Leaving at the end of the source. *)
Lemma progress_end p c out : progress p c [] out -> p = length src ->
  good_call m isFinal (Ok (decoded_of Done (si c) (di c) (after m out))).
Proof.
  intros Hp ->. destruct (pr_n _ _ _ _ _ _ Hp) as (n & q & Hn & Hnp & Hq & Hps & Hf & Hfc).
  rewrite app_nil_r in Hps. eexists _, (length src), out. split; [done|].
  split; [apply Hp|]. split; [apply Hp|]. split; [done|]. split; [done|]. split; [apply Hp|].
  rewrite Hps. split; [by apply full_ref | done].
Qed.

Lemma progress_more p c ps out : progress p c ps out -> p = length src -> isFinal = false ->
  (0 < length ps < 4)%nat -> Forall (fun a => 0 <= sextet a) ps ->
  good_call m isFinal (Ok (decoded_of NeedMoreData (consumed c) (written c) (after m out))).
Proof.
  intros Hp -> EF Hl Hsym. destruct (pr_n _ _ _ _ _ _ Hp) as (n & q & Hn & Hnp & Hq & Hps & Hf & Hfc).
  eexists _, n, out. split; [done|]. split; [done|]. split; [apply Hp|]. split; [done|].
  split; [done|]. split; [apply Hp|]. split; [rewrite Hq; by apply full_ref|]. split; [by rewrite Hq|].
  cbn [d_status]. rewrite take_ge, (nonws_split src n), Hq in Hps by done.
  apply app_inv_head in Hps. rewrite Hps. by split.
Qed.

(** A complete text, padding included. *)
Lemma progress_done p c ps out bytes : progress p c ps out -> isFinal = true ->
  denotes (ps ++ nonws (drop p src)) = Some bytes -> zlen out + zlen bytes <= room m ->
  good_call m isFinal (Ok (decoded_of Done (zlen src) (zlen out + zlen bytes) (after m (out ++ bytes)))).
Proof.
  intros Hp EF Hd Hr. pose proof (progress_text _ _ _ _ Hp) as Ht. rewrite Hd in Ht.
  eexists _, (length src), (out ++ bytes). cbn [d_consumed d_written d_mem d_status].
  assert (El : zlen (out ++ bytes) = zlen out + zlen bytes) by (rewrite length_app; lia).
  split; [done|]. split; [done|]. split; [done|]. split; [done|]. split; [done|].
  split; [lia|]. rewrite take_ge by done. split; [done|]. split; [congruence | done].
Qed.
End Progress.

Section Final.
Context {M : Type} `{MemoryLaws M} (m : M) (r : res (decoded M)) (Hr : good_call m true r).
Abbreviation src := (source_of m).

(** A final call succeeds on a well-formed text that fits. *)
Lemma call_done bs : denotes (nonws src) = Some bs -> zlen bs <= room m ->
  r = Ok (decoded_of Done (zlen src) (zlen bs) (after m bs)).
Proof using Hr.
  intros Hbs Hfit. destruct Hr as (d & n & out & -> & Hc & Hw & Hm & Hd).
  destruct d as [st dc dw dm]. cbn [d_consumed d_written d_mem d_status] in *. subst.
  destruct Hd as (Hn & Ho & Href & _ & Hst). destruct st.
  - subst n. rewrite take_ge, Hbs in Href by done. by injection Href as ->.
  - destruct Hst as (_ & _ & Hst). specialize (Hst bs Hbs). lia.
  - by destruct Hst.
  - congruence.
Qed.

(** With room for what a text of its length can denote, it succeeds or says
    [InvalidData]. *)
Lemma call_roomy : capacity (length src) <= room m ->
  match denotes (nonws src) with
  | Some bs => zlen bs <= room m /\ r = Ok (decoded_of Done (zlen src) (zlen bs) (after m bs))
  | None => exists d, r = Ok d /\ d_status d = InvalidData
  end.
Proof using Hr.
  intros Hroom. destruct (denotes (nonws src)) as [bs|] eqn:E.
  - pose proof (denotes_capacity _ _ E). pose proof (capacity_mono _ _ (nonws_length src)).
    assert (zlen bs <= room m) by lia. split; [done|]. by apply call_done.
  - destruct Hr as (d & n & out & -> & Hc & Hw & Hm & Hn & Ho & Href & _ & Hst).
    exists d. split; [done|]. destruct (d_status d).
    + subst n. rewrite take_ge in Href by done. congruence.
    + exfalso. destruct Hst as (Hs & [H4|] & _); [|congruence].
      pose proof (denotes_capacity _ _ Href) as Hcap.
      pose proof (nonws_length src) as Hlen. rewrite (nonws_split src n), length_app in Hlen.
      assert (Hm4 : (length (nonws (take n src)) + 4 <= length src)%nat) by lia.
      apply capacity_mono in Hm4. rewrite capacity_quantum in Hm4. lia.
    + by destruct Hst.
    + done.
Qed.
End Final.

(** What an allocating overload makes of a final call with enough room, and an
    overload in place. *)
Lemma separate_call (source dst : list Z) r : good_call (separate source dst) true r ->
  capacity (length source) <= zlen dst ->
  match denotes (nonws source) with
  | Some bs => r = Ok (decoded_of Done (zlen source) (zlen bs)
                         (separate source (bs ++ drop (length bs) dst)))
  | None => exists d, r = Ok d /\ d_status d = InvalidData
  end.
Proof.
  intros Hr Hroom. pose proof (call_roomy _ _ Hr Hroom) as Hc.
  cbn [source_of room Separate_laws Base64Common.source destination after] in Hc.
  destruct (denotes (nonws source)); [by destruct Hc as [_ ->] | done].
Qed.

Lemma in_place_call (buffer : list Z) r : good_call buffer true r ->
  match denotes (nonws buffer) with
  | Some bs => r = Ok (decoded_of Done (zlen buffer) (zlen bs) (bs ++ drop (length bs) buffer))
  | None => exists d, r = Ok d /\ d_status d = InvalidData
  end.
Proof.
  intros Hr. pose proof (call_roomy _ _ Hr) as Hc. cbn [source_of room InPlace_laws after] in Hc.
  pose proof (capacity_le (length buffer)). specialize (Hc ltac:(lia)).
  destruct (denotes (nonws buffer)); [by destruct Hc as [_ ->] | done].
Qed.

(** The rest of a text after a block that is not the last one. *)
Lemma call_streams (a b dst : list Z) r : good_call (separate a dst) false r ->
  exists d, r = Ok d /\
    denotes (nonws (a ++ b)) =
      option_map (app (take (Z.to_nat (d_written d)) (destination (d_mem d))))
        (denotes (nonws (drop (Z.to_nat (d_consumed d)) a ++ b))).
Proof.
  intros (d & n & out & -> & Hc & Hw & Hm & _ & _ & _ & Hf & _). exists d. split; [done|].
  rewrite Hc, Hw, Hm, !Nat2Z.id. cbn [after source_of Separate_laws destination source] in *.
  rewrite take_app_length, !nonws_app, (nonws_split a n), <- app_assoc. by apply Hf.
Qed.
End Decoder.
