(* ===== verification/Base64Encoder.v ===== *)
(** * Base64: the encoders are correct

    Over any [Codec]: what a call of the encoder delivers, the encoder in place,
    and that the text of bytes denotes them. *)

From S2P Require Export Base64Spec.

#[local] Coercion Z.of_nat : nat >-> Z.

Section Encoder.
Context `{Codec} (last : list Z -> res (list Z)).
Context (Hlast : forall r, (0 < length r < 3)%nat -> last r = Ok (last_text r)).

(** Groups of symbols of three bytes, and the symbols of what is left over. *)
Definition text : list Z -> list Z := encoding alphabet last_text.

Lemma text_split k bs : (3 * k <= length bs)%nat ->
  text bs = whole alphabet (take (3 * k) bs) ++ text (drop (3 * k) bs).
Proof. apply encoding_split. Qed.

Lemma text_short r : (length r < 3)%nat -> text r = last_text r.
Proof. destruct r as [|x [|y [|]]]; cbn [length]; (done || lia). Qed.

Lemma text_nil : text [] = [].
Proof. rewrite text_short by (cbn; lia). apply last_nil. Qed.

Lemma text_whole k bs : (3 * k <= length bs)%nat ->
  text (take (3 * k) bs) = whole alphabet (take (3 * k) bs).
Proof.
  intros Hk. rewrite (text_split k) by (rewrite length_take; lia).
  by rewrite take_take, Nat.min_id, drop_ge, text_nil, app_nil_r by (rewrite length_take; lia).
Qed.

(** The whole groups and the rest. *)
Lemma text_groups bs : let k := (length bs / 3)%nat in
  text bs = whole alphabet (take (3 * k) bs) ++ last_text (drop (3 * k) bs) /\
  length (whole alphabet (take (3 * k) bs)) = (4 * k)%nat /\
  length (drop (3 * k) bs) = (length bs mod 3)%nat /\
  (0 < length bs mod 3 -> 0 < length (last_text (drop (3 * k) bs)) <= 4)%nat.
Proof.
  intros k. pose proof (Nat.div_mod_eq (length bs) 3) as Hdm.
  pose proof (Nat.mod_upper_bound (length bs) 3 ltac:(done)) as Hm. fold k in Hdm.
  assert (Hd : length (drop (3 * k) bs) = (length bs mod 3)%nat) by (rewrite length_drop; lia).
  split; [|split; [apply whole_length; lia|split; [done|]]].
  - rewrite (text_split k) by lia. f_equal. apply text_short. lia.
  - intros Hr. apply last_length. lia.
Qed.

(** What one call of the encoder delivers: the text of the bytes consumed;
    short of the end of the source only whole groups are consumed. *)
Lemma encode_with_spec src dst isFinal :
  exists st n, (n <= length src)%nat /\
    let out := text (take n src) in
    encode_with alphabet last src dst isFinal =
      Ok (encoded_of st n (zlen out) (out ++ drop (length out) dst)) /\
    zlen out <= zlen dst /\
    (isFinal = false -> exists k, n = (3 * k)%nat) /\
    match st with
    | Done => n = length src
    | DestinationTooSmall => zlen dst < zlen out + 4 /\ zlen dst < zlen (text src)
    | NeedMoreData => isFinal = false /\ n = (3 * (length src / 3))%nat /\ (n < length src)%nat
    | InvalidData => False
    end.
Proof using Hlast.
  pose proof (Nat.div_mod_eq (length src) 3) as Hdm.
  pose proof (Nat.mod_upper_bound (length src) 3 ltac:(done)) as Hm.
  destruct (text_groups src) as (Etext & Hw & Hd & Hll).
  destruct (encode_groups_spec alphabet (length src / 3) src dst [] 0) as (k & Hk & Hroom & E & Hfull);
    [lia | cbn; lia |].
  rewrite drop_0 in E. cbn [app length] in E, Hroom, Hfull. change (Z.of_nat 0) with 0 in *.
  cbv zeta in E |- *. rewrite <- (text_whole k) in E by lia.
  assert (Hl : length (text (take (3 * k) src)) = (4 * k)%nat)
    by (rewrite text_whole by lia; apply whole_length; lia).
  unfold encode_with. rewrite E. destruct (Nat.eqb_spec k (length src / 3)) as [Hkk|Hkk]; cbn [bind].
  2:{ exists DestinationTooSmall, (3 * k)%nat. split; [lia|].
      split; [do 2 f_equal; lia|]. rewrite Hl, Etext, length_app, Hw. specialize (Hfull Hkk).
      split; [lia|]. split; [by exists k | lia]. }
  cbn [e_consumed e_written e_dst]. rewrite <- Hkk in *.
  destruct (Nat.ltb_spec 0 (length src mod 3)) as [Hr|Hr]; rewrite ?andb_true_r, ?andb_false_r.
  2:{ exists Done, (3 * k)%nat. split; [lia|]. split; [do 2 f_equal; lia|]. rewrite Hl.
      split; [lia|]. split; [by exists k | lia]. }
  destruct isFinal; cbn [negb].
  2:{ exists NeedMoreData, (3 * k)%nat. split; [lia|]. split; [do 2 f_equal; lia|]. rewrite Hl.
      split; [lia|]. split; [by exists k | lia]. }
  rewrite Hlast by lia. cbn [bind]. rewrite <- text_whole in Etext by lia. specialize (Hll Hr).
  assert (Hlt : length (text src) = (4 * k + length (last_text (drop (3 * k) src)))%nat)
    by (rewrite Etext, length_app; lia).
  destruct (Z.ltb_spec (zlen dst - (0 + 4 * k)) (zlen (last_text (drop (3 * k) src)))) as [Hs|Hs].
  - exists DestinationTooSmall, (3 * k)%nat. split; [lia|]. split; [do 2 f_equal; lia|].
    rewrite Hl. split; [lia|]. split; [done | lia].
  - replace (0 + 4 * k) with (zlen (text (take (3 * k) src))) by lia.
    rewrite puts_app by lia. cbn [bind]. rewrite <- Etext.
    exists Done, (length src). rewrite (take_ge src (length src)) by done. split; [done|].
    split; [do 2 f_equal; lia|]. split; [lia|]. done.
Qed.

(** A final block with room encodes everything. *)
Lemma encode_with_done src dst : zlen (text src) <= zlen dst ->
  encode_with alphabet last src dst true =
    Ok (encoded_of Done (zlen src) (zlen (text src)) (text src ++ drop (length (text src)) dst)).
Proof using Hlast.
  intros Hr. destruct (encode_with_spec src dst true) as (st & n & Hn & E & Hl & _ & Hst).
  cbv zeta in *. rewrite E. destruct st; [|lia|by destruct Hst|done].
  subst n. by rewrite take_ge.
Qed.

(** The text of bytes cut after a block that is not the last. *)
Lemma encode_streams (a b dst : list Z) :
  exists e, encode_with alphabet last a dst false = Ok e /\
    text (a ++ b) =
      take (Z.to_nat (e_written e)) (e_dst e) ++ text (drop (Z.to_nat (e_consumed e)) a ++ b).
Proof using Hlast.
  destruct (encode_with_spec a dst false) as (st & n & Hn & E & Hroom & Hk & _). cbv zeta in *.
  destruct (Hk eq_refl) as (k & ->). eexists. split; [exact E|].
  cbn [e_consumed e_written e_dst]. rewrite !Nat2Z.id, take_app_length, text_whole by done.
  rewrite (text_split k) by (rewrite length_app; lia).
  by rewrite take_app_le, drop_app_le by lia.
Qed.

(** ** In place *)

(** Writing the last pack leaves the groups before it alone. *)
Lemma last_in_place (bs rest tail : list Z) (g : nat) : (3 * g <= length bs)%nat ->
  (4 * g + length tail <= length (bs ++ rest))%nat ->
  exists buf, puts (bs ++ rest) (4 * g)%nat tail = Ok buf /\ (4 * g <= length buf)%nat /\
    take (3 * g) buf = take (3 * g) bs /\
    drop (4 * g) buf = tail ++ drop (4 * g + length tail) (bs ++ rest).
Proof.
  intros Hg Hlen. rewrite puts_at by done. eexists. split; [done|].
  rewrite !length_app, length_take, length_app. split; [rewrite length_app in Hlen; lia|]. split.
  - rewrite take_app_le by (rewrite length_take; lia). rewrite take_take, Nat.min_l by lia.
    by rewrite take_app_le by lia.
  - by rewrite drop_app_length' by (rewrite length_take; lia).
Qed.

(** In place, the text overwrites the bytes. *)
Lemma encode_in_place_text (bs rest : list Z) : zlen (text bs) <= zlen (bs ++ rest) ->
  encode_in_place alphabet last (bs ++ rest) (zlen bs) =
    Ok (text bs ++ drop (length (text bs)) (bs ++ rest)).
Proof using Hlast.
  intros Hroom. unfold encode_in_place. destruct (text_groups bs) as (Etext & Hw & Hd & _).
  pose proof (Nat.div_mod_eq (length bs) 3) as Hdm.
  pose proof (Nat.mod_upper_bound (length bs) 3 ltac:(done)) as Hm.
  rewrite Z.quot_div_nonneg, Z.rem_mod_nonneg by lia.
  replace (zlen bs / 3) with (Z.of_nat (length bs / 3)) by (by rewrite Nat2Z.inj_div).
  replace (zlen bs mod 3) with (Z.of_nat (length bs mod 3)) by (by rewrite Nat2Z.inj_mod).
  set (g := (length bs / 3)%nat) in *. rewrite Nat2Z.id.
  destruct (last_in_place bs rest (last_text (drop (3 * g) bs)) g) as (buf & Hp & Hb & Ht & Hdr).
  { lia. }
  { rewrite Etext, length_app, Hw in Hroom. lia. }
  replace (g * 4) with (Z.of_nat (4 * g)) by lia.
  replace (g * 3 + 1) with (Z.of_nat (3 * g + 1)) by lia.
  replace (g * 3) with (Z.of_nat (3 * g + 0)) by lia.
  assert (Hget : forall i x, drop (3 * g) bs !! i = Some x -> get (bs ++ rest) (3 * g + i)%nat = Ok x).
  { intros i x Hx. apply get_Some. rewrite lookup_drop in Hx. by apply lookup_app_l_Some. }
  match goal with |- bind ?c _ = _ => assert (Hfirst : c = Ok buf) end.
  { pose proof (Hlast (drop (3 * g) bs)) as Hg.
    destruct (drop (3 * g) bs) as [|x [|y [|]]]; cbn [length] in Hd; rewrite <- Hd; cbn [Z.of_nat Z.eqb
      Pos.eqb Pos.of_succ_nat Pos.succ]; try lia.
    - rewrite <- Hp, last_nil. done.
    - rewrite (Hget 0%nat x eq_refl). cbn [bind]. rewrite Hg by (cbn; lia). exact Hp.
    - rewrite (Hget 0%nat x eq_refl), (Hget 1%nat y eq_refl). cbn [bind].
      rewrite Hg by (cbn; lia). exact Hp. }
  rewrite Hfirst. cbn [bind]. rewrite encode_groups_in_place_spec by done.
  by rewrite Ht, Hdr, Etext, <- app_assoc, length_app, Hw.
Qed.
End Encoder.

(** ** The text denotes the bytes *)

Section RoundTrip.
Context `{Codec}.

Lemma quantum_of_group x y z r : byte x -> byte y -> byte z ->
  denotes (group alphabet x y z ++ r) = option_map (app [x; y; z]) (denotes r) /\
  nonws (group alphabet x y z ++ r) = group alphabet x y z ++ nonws r.
Proof.
  intros Hx Hy Hz. rewrite group_symbols by done. unfold byte in *. cbn [map app].
  destruct (sextet_alphabet (x / 4)) as [D0 W0]; [Z.to_euclidean_division_equations; lia|].
  destruct (sextet_alphabet (x mod 4 * 16 + y / 16)) as [D1 W1];
    [Z.to_euclidean_division_equations; lia|].
  destruct (sextet_alphabet (y mod 16 * 4 + z / 64)) as [D2 W2];
    [Z.to_euclidean_division_equations; lia|].
  destruct (sextet_alphabet (z mod 64)) as [D3 W3]; [Z.to_euclidean_division_equations; lia|].
  split; [|by rewrite !nonws_cons, W0, W1, W2, W3].
  rewrite denotes_quantum, D0, D1, D2, D3 by (rewrite ?D0, ?D1, ?D2, ?D3;
    Z.to_euclidean_division_equations; lia).
  enough (octets (x / 4) (x mod 4 * 16 + y / 16) (y mod 16 * 4 + z / 64) (z mod 64) = [x; y; z])
    as -> by done.
  unfold octets. f_equal; [|f_equal; [|f_equal]]; Z.to_euclidean_division_equations; lia.
Qed.

Lemma text_roundtrip bs : Forall byte bs -> denotes (nonws (text bs)) = Some bs.
Proof.
  intros Hb. enough (denotes (text bs) = Some bs /\ nonws (text bs) = text bs) as [E ->] by done.
  revert Hb. induction bs as [r Hr|x y z bs IH] using triples_ind; intros Hb.
  - rewrite text_short by done. split; [|by apply last_symbols]. destruct r as [|x r].
    + rewrite last_nil. apply denotes_nil.
    + apply last_denotes; [done|]. cbn [length] in *. lia.
  - apply Forall_cons in Hb as [Hx Hb]. apply Forall_cons in Hb as [Hy Hb].
    apply Forall_cons in Hb as [Hz Hb]. destruct (IH Hb) as [E W].
    unfold text in *. cbn [encoding].
    destruct (quantum_of_group x y z (encoding alphabet last_text bs)) as [-> ->]; try done.
    by rewrite E, W.
Qed.
End RoundTrip.
