(* ===== verification/Base64Decode.v ===== *)
(** * Base64: the decoder and the validator are correct

    The reference decoder, RFC 4648 with canonical trailing bits; Base64 as a
    [Codec]; the decoder's loop, over any memory that obeys [MemoryLaws], keeps an
    invariant that ties its locals to the reference, and every way out of it meets
    the specification [delivers].  The validator computes the reference's verdict
    and length. *)

From S2P Require Export Base64 Base64Encoder.

#[local] Coercion Z.of_nat : nat >-> Z.

Module Base64Decode.
Import Base64.

(** ** The reference: RFC 4648 with canonical trailing bits *)

(** The value of a symbol, Table 1 of RFC 4648; negative for any other character. *)
Definition rfc4648 (c : Z) : Z :=
  if (65 <=? c) && (c <=? 90) then c - 65           (* A to Z *)
  else if (97 <=? c) && (c <=? 122) then c - 71     (* a to z *)
  else if (48 <=? c) && (c <=? 57) then c + 4       (* 0 to 9 *)
  else if c =? 43 then 62                           (* + *)
  else if c =? 47 then 63                           (* / *)
  else -1.

Definition sym (c : Z) : bool := 0 <=? rfc4648 c.
Definition pad (c : Z) : bool := c =? 61.

(** The bytes a text without white space denotes, if it is well formed: groups
    of four symbols, the last one padded with one or two '=', the bits that
    padding drops being zero. *)
Fixpoint decode_ref (s : list Z) : option (list Z) :=
  match s with
  | [] => Some []
  | a :: b :: c :: d :: s' =>
      if sym a && sym b && sym c && sym d then
        option_map (app (octets (rfc4648 a) (rfc4648 b) (rfc4648 c) (rfc4648 d))) (decode_ref s')
      else if sym a && sym b && sym c && pad d && Nat.eqb (length s') 0 && (rfc4648 c mod 4 =? 0) then
        Some [rfc4648 a * 4 + rfc4648 b / 16; rfc4648 b mod 16 * 16 + rfc4648 c / 4]
      else if sym a && sym b && pad c && pad d && Nat.eqb (length s') 0 && (rfc4648 b mod 16 =? 0) then
        Some [rfc4648 a * 4 + rfc4648 b / 16]
      else None
  | _ => None
  end.

(** ** The table *)

Lemma dec_table_range : Forall (fun v => -2 <= v < 64) kDecTable.
Proof. refine (bool_decide_unpack _ _). vm_compute. exact I. Qed.

(** The code's table is that of the RFC. *)
Lemma dec_rfc4648 c : dec c = if pad c then -2 else rfc4648 c.
Proof.
  assert (Hall : forallb (fun i => dec (Z.of_nat i) =?
    (if pad (Z.of_nat i) then -2 else rfc4648 (Z.of_nat i))) (seq 0 256) = true)
    by (vm_compute; reflexivity).
  destruct (decide (0 <= c < 256)) as [Hc|Hc].
  - rewrite forallb_forall in Hall. specialize (Hall (Z.to_nat c)). rewrite Z2Nat.id in Hall by lia.
    apply Z.eqb_eq, Hall, in_seq. lia.
  - assert (E : dec c = -1).
    { unfold dec. destruct (Z.lt_ge_cases c 0).
      - by replace (Z.to_nat c) with 0%nat by lia.
      - apply nth_overflow. change (length kDecTable) with 256%nat. lia. }
    rewrite E. unfold pad, rfc4648. repeat (case_match; bool_to_prop; try lia).
Qed.

Lemma rfc4648_dec c : sym c = true -> rfc4648 c = dec c.
Proof.
  rewrite dec_rfc4648. unfold sym, pad. intros H.
  destruct (Z.eqb_spec c 61) as [->|]; [by vm_compute in H|done].
Qed.

Lemma sym_dec c : sym c = (0 <=? dec c).
Proof.
  rewrite dec_rfc4648. unfold sym, pad. by destruct (Z.eqb_spec c 61) as [->|].
Qed.

Lemma dec_range c : -2 <= dec c < 64.
Proof.
  unfold dec. destruct (nth_in_or_default (Z.to_nat c) kDecTable (-1)) as [H | ->]; [|lia].
  apply (proj1 (List.Forall_forall _ _) dec_table_range _ H).
Qed.

Lemma dec_pad_index :
  forallb (fun i => negb (nth i kDecTable (-1) =? -2) || Nat.eqb i 61) (seq 0 256) = true.
Proof. vm_compute. reflexivity. Qed.

Lemma dec_pad c : dec c = -2 <-> c = 61.
Proof.
  split; [|by intros ->]. intros H. unfold dec in H.
  assert (Hi : (Z.to_nat c < 256)%nat).
  { destruct (decide (Z.to_nat c < 256)%nat) as [|Hn]; [done|].
    rewrite nth_overflow in H; [done|]. change (length kDecTable) with 256%nat. lia. }
  pose proof (proj1 (forallb_forall _ _) dec_pad_index (Z.to_nat c)) as Hf.
  cbv beta in Hf. rewrite H in Hf. change (negb (-2 =? -2)) with false in Hf. cbn [orb] in Hf.
  assert (Z.to_nat c = 61%nat); [|lia].
  apply Nat.eqb_eq, Hf, in_seq. lia.
Qed.

Lemma sym_range c : sym c = true -> 0 <= dec c < 64.
Proof. rewrite sym_dec. intros H. apply Z.leb_le in H. pose proof (dec_range c). lia. Qed.

Lemma sym_not_pad c : sym c = true -> pad c = false.
Proof.
  unfold pad. rewrite sym_dec. intros H. apply Z.leb_le in H. apply Z.eqb_neq. intros ->.
  by vm_compute in H.
Qed.

Lemma pad_not_sym c : pad c = true -> sym c = false.
Proof. unfold pad. intros H. apply Z.eqb_eq in H as ->. reflexivity. Qed.

(** ** Texts that cannot be completed *)

(** A quantum still being read: one or two symbols, or three with the third
    possibly padding. *)
Definition pending (ps : list Z) : Prop :=
  match ps with
  | [] => True
  | [a] => sym a = true
  | [a; b] => sym a = true /\ sym b = true
  | [a; b; c] => sym a = true /\ sym b = true /\ (sym c = true \/ pad c = true)
  | _ => False
  end.

Definition pads (ps : list Z) : nat := length (List.filter pad ps).

Lemma pending_short ps : pending ps -> ps <> [] -> decode_ref ps = None.
Proof. by destruct ps as [|a [|b [|c [|]]]]. Qed.

(** A byte outside the alphabet spoils any text. *)
Lemma bad_byte ps c r : pending ps -> sym c = false -> pad c = false ->
  decode_ref (ps ++ c :: r) = None.
Proof.
  intros Hp Hs Hq. destruct ps as [|p0 [|p1 [|p2 [|]]]]; try done; cbn [app].
  - destruct r as [|b [|c' [|d r]]]; try done. cbn [decode_ref]. by rewrite Hs.
  - destruct r as [|c' [|d r]]; try done. cbn [decode_ref]. by rewrite Hs, !andb_false_r.
  - destruct r as [|d r]; try done. cbn [decode_ref]. by rewrite Hs, Hq, !andb_false_r.
  - cbn [decode_ref]. by rewrite Hs, Hq, !andb_false_r.
Qed.

(** Padding too early. *)
Lemma early_pad ps c r : pending ps -> (length ps < 2)%nat -> pad c = true ->
  decode_ref (ps ++ c :: r) = None.
Proof.
  intros Hp Hl Hc. apply pad_not_sym in Hc.
  destruct ps as [|p0 [|p1 ps]]; cbn [length] in Hl; try lia; cbn [app].
  - destruct r as [|b [|c' [|d r]]]; try done. cbn [decode_ref]. by rewrite Hc.
  - destruct r as [|c' [|d r]]; try done. cbn [decode_ref]. by rewrite Hc, !andb_false_r.
Qed.

(** A symbol after padding. *)
Lemma symbol_after_pad ps c r : pending ps -> (0 < pads ps)%nat -> sym c = true ->
  decode_ref (ps ++ c :: r) = None.
Proof.
  intros Hp Hl Hc. pose proof (sym_not_pad c Hc) as Hn. unfold pads in Hl.
  destruct ps as [|p0 [|p1 [|p2 [|]]]]; cbn [app List.filter length pending] in *; [lia| | | |done].
  - rewrite (sym_not_pad p0) in Hl by done. cbn in Hl. lia.
  - destruct Hp as [H0 H1]. rewrite (sym_not_pad p0), (sym_not_pad p1) in Hl by done. cbn in Hl. lia.
  - destruct Hp as (H0 & H1 & H2). rewrite (sym_not_pad p0), (sym_not_pad p1) in Hl by done.
    cbn [decode_ref]. destruct H2 as [H2|H2].
    + rewrite (sym_not_pad p2) in Hl by done. cbn in Hl. lia.
    + by rewrite (pad_not_sym p2), Hn, !andb_false_r.
Qed.

(** The text from a quantum on. *)
Lemma ref_full a b x y r : sym a = true -> sym b = true -> sym x = true -> sym y = true ->
  decode_ref (a :: b :: x :: y :: r) =
    option_map (app (octets (dec a) (dec b) (dec x) (dec y))) (decode_ref r).
Proof. intros Ha Hb Hx Hy. cbn [decode_ref]. by rewrite Ha, Hb, Hx, Hy, !rfc4648_dec. Qed.

Lemma ref_pad1 a b x y r : sym a = true -> sym b = true -> sym x = true -> pad y = true ->
  decode_ref (a :: b :: x :: y :: r) =
    if Nat.eqb (length r) 0 && (dec x mod 4 =? 0)
    then Some [dec a * 4 + dec b / 16; dec b mod 16 * 16 + dec x / 4] else None.
Proof.
  intros Ha Hb Hx Hy. cbn [decode_ref].
  by rewrite Ha, Hb, Hx, Hy, (pad_not_sym y), (sym_not_pad x), !rfc4648_dec by done.
Qed.

Lemma ref_pad2 a b x y r : sym a = true -> sym b = true -> pad x = true -> pad y = true ->
  decode_ref (a :: b :: x :: y :: r) =
    if Nat.eqb (length r) 0 && (dec b mod 16 =? 0) then Some [dec a * 4 + dec b / 16] else None.
Proof.
  intros Ha Hb Hx Hy. cbn [decode_ref]. by rewrite Ha, Hb, Hx, Hy, (pad_not_sym x), !rfc4648_dec by done.
Qed.

(** ** The codec *)

Lemma quads_ind (P : list Z -> Prop) : (forall r, (length r < 4)%nat -> P r) ->
  (forall a b c d l, P l -> P (a :: b :: c :: d :: l)) -> forall l, P l.
Proof.
  intros H0 H1. fix IH 1. intros [|a [|b [|c [|d l]]]]; try (apply H0; cbn; lia). apply H1, IH.
Qed.

Lemma decode_ref_quads s bs : decode_ref s = Some bs ->
  exists k, length s = (4 * k)%nat /\ (length bs <= 3 * k)%nat.
Proof.
  assert (Hlast : forall p q l, p && Nat.eqb l 0 && q = true -> l = 0%nat).
  { intros p q l. destruct (Nat.eqb_spec l 0); [done|]. by rewrite andb_false_r. }
  revert bs. induction s as [r Hr|a b c d s IH] using quads_ind; intros bs.
  { destruct r as [|? [|? [|? [|]]]]; cbn [length] in Hr; try lia; try done.
    intros [= <-]. by exists 0%nat. }
  cbn [decode_ref]. destruct (sym a && sym b && sym c && sym d).
  { destruct (decode_ref s) as [t|]; [|done]. cbn [option_map]. intros Hb.
    destruct (IH t eq_refl) as (k & Hk & Hl). exists (S k).
    injection Hb as <-. cbn [length app octets]. lia. }
  destruct (sym a && sym b && sym c && pad d && (length s =? 0)%nat && (rfc4648 c mod 4 =? 0)) eqn:E1.
  { apply Hlast in E1. intros [= <-]. exists 1%nat. cbn [length]. lia. }
  destruct (sym a && sym b && pad c && pad d && (length s =? 0)%nat && (rfc4648 b mod 16 =? 0)) eqn:E2;
    [|done].
  apply Hlast in E2. intros [= <-]. exists 1%nat. cbn [length]. lia.
Qed.

(** The symbols of the one or two bytes left over. *)
Definition tail_text (r : list Z) : list Z :=
  match r with
  | [x] => take 2 (group kEncTable x 0 0) ++ [61; 61]
  | [x; y] => take 3 (group kEncTable x y 0) ++ [61]
  | _ => []
  end.

Lemma symbol_of v : 0 <= v < 64 ->
  dec (nth (Z.to_nat v) kEncTable 0) = v /\ isWhitespace (nth (Z.to_nat v) kEncTable 0) = false.
Proof.
  intros Hv. pose proof (proj1 (forallb_forall (fun i =>
    (dec (nth i kEncTable 0) =? Z.of_nat i) && negb (isWhitespace (nth i kEncTable 0))) (seq 0 64))
    ltac:(vm_compute; reflexivity) (Z.to_nat v)) as H.
  rewrite in_seq, Z2Nat.id in H by lia. specialize (H ltac:(lia)). bool_to_prop.
  split; [lia | done].
Qed.

Lemma sym_of v : 0 <= v < 64 -> sym (nth (Z.to_nat v) kEncTable 0) = true.
Proof. intros Hv. rewrite sym_dec, (proj1 (symbol_of v Hv)). lia. Qed.

Lemma tail_roundtrip bs : Forall byte bs -> (0 < length bs < 3)%nat ->
  decode_ref (tail_text bs) = Some bs.
Proof.
  destruct bs as [|x [|y [|]]]; cbn [length]; try lia; intros Hb _.
  - apply Forall_cons in Hb as [Hx _]. cbn [tail_text].
    rewrite group_symbols by (done || unfold byte; lia). unfold byte in *. cbn [map take app].
    assert (R1 : 0 <= x mod 4 * 16 + 0 / 16 < 64) by (Z.to_euclidean_division_equations; lia).
    assert (R0 : 0 <= x / 4 < 64) by (Z.to_euclidean_division_equations; lia).
    rewrite ref_pad2 by (done || by apply sym_of).
    rewrite (proj1 (symbol_of _ R0)), (proj1 (symbol_of _ R1)).
    change (0 / 16) with 0. rewrite Z.add_0_r, Z.mod_mul by lia.
    cbn [length Nat.eqb Z.eqb andb]. do 2 f_equal. Z.to_euclidean_division_equations; lia.
  - apply Forall_cons in Hb as [Hx Hb]. apply Forall_cons in Hb as [Hy _]. cbn [tail_text].
    rewrite group_symbols by (done || unfold byte; lia). unfold byte in *. cbn [map take app].
    assert (R0 : 0 <= x / 4 < 64) by (Z.to_euclidean_division_equations; lia).
    assert (R1 : 0 <= x mod 4 * 16 + y / 16 < 64) by (Z.to_euclidean_division_equations; lia).
    assert (R2 : 0 <= y mod 16 * 4 + 0 / 64 < 64) by (Z.to_euclidean_division_equations; lia).
    rewrite ref_pad1 by (done || by apply sym_of).
    rewrite (proj1 (symbol_of _ R0)), (proj1 (symbol_of _ R1)), (proj1 (symbol_of _ R2)).
    change (0 / 64) with 0.
    rewrite Z.add_0_r, Z.mod_mul by lia. cbn [length Nat.eqb Z.eqb andb].
    f_equal. f_equal; [|f_equal]; Z.to_euclidean_division_equations; lia.
Qed.

Lemma tail_symbols bs : Forall byte bs -> (length bs < 3)%nat -> nonws (tail_text bs) = tail_text bs.
Proof.
  destruct bs as [|x [|y [|]]]; cbn [length]; try lia; intros Hb _; [done| |].
  all: apply Forall_cons in Hb as [Hx Hb]; try (apply Forall_cons in Hb as [Hy _]); cbn [tail_text].
  all: rewrite group_symbols by (done || unfold byte; lia); unfold byte in *; cbn [map take app].
  all: assert (Hn : forall v, 0 <= v < 64 -> isWhitespace (nth (Z.to_nat v) kEncTable 0) = false)
    by apply symbol_of.
  all: rewrite !nonws_cons, !Hn by (Z.to_euclidean_division_equations; lia); done.
Qed.

#[export, refine] Instance codec : Codec := {
  alphabet := kEncTable;
  sextet := dec;
  denotes := decode_ref;
  capacity n := (3 * (n / 4))%nat;
  last_text := tail_text
}.
Proof.
  - exact symbol_of.
  - done.
  - intros a b c d r Ha Hb Hc Hd. apply ref_full; rewrite sym_dec; by apply Z.leb_le.
  - intros s bs Hs. destruct (decode_ref_quads _ _ Hs) as (k & -> & Hk).
    pose proof (Nat.div_mul k 4 ltac:(done)). rewrite (Nat.mul_comm 4 k). lia.
  - intros m n Hmn. pose proof (Nat.Div0.div_le_mono m n 4 Hmn). lia.
  - intros n. replace (n + 4)%nat with (n + 1 * 4)%nat by lia. rewrite Nat.div_add by done. lia.
  - intros n. pose proof (Nat.div_mod_eq n 4). lia.
  - exact tail_roundtrip.
  - exact tail_symbols.
  - intros [|x [|y [|]]] Hl; cbn [length] in Hl; try lia; cbn; lia.
  - done.
Defined.

Lemma full_symbols q out a b x y : full q out ->
  sym a = true -> sym b = true -> sym x = true -> sym y = true ->
  full (q ++ [a; b; x; y]) (out ++ octets (dec a) (dec b) (dec x) (dec y)).
Proof. intros Hf Ha Hb Hx Hy. exact (full_quantum q out a b x y Hf (proj1 (sym_range a Ha)) (proj1 (sym_range b Hb))
  (proj1 (sym_range x Hx)) (proj1 (sym_range y Hy))). Qed.

Lemma full_bytes q out r : full q out -> decode_ref (q ++ r) = option_map (app out) (decode_ref r).
Proof. intros Hf. apply Hf. Qed.

Lemma pads_snoc ps ch : pads (ps ++ [ch]) = (pads ps + if pad ch then 1 else 0)%nat.
Proof.
  unfold pads. rewrite List.filter_app, length_app. cbn. by destruct (pad ch).
Qed.

Lemma pending_length ps : pending ps -> (length ps <= 3)%nat.
Proof. destruct ps as [|? [|? [|? [|]]]]; cbn; (lia || done). Qed.

(** ** The decoder meets its specification, over any memory *)

Section Correct.
Context {M : Type} `{MemoryLaws M} (m0 : M) (isFinal : bool).
Abbreviation src := (source_of m0).
Abbreviation progress := (progress (source_of m0) (room m0)).
Abbreviation good_return := (good_call m0 isFinal).

(** A running loop keeps [progress], with the padding counted; padding is only
    accepted in a final block. *)
Record invariant (p : nat) (c : cursor) (ps out : list Z) : Prop := {
  inv_progress : progress p c ps out;
  inv_pending : pending ps;
  inv_pads : padCount c = pads ps;
  inv_final : isFinal = false -> pads ps = 0%nat
}.

(** A returned outcome meets the specification, a running loop its
    invariant. *)
Definition good (p : nat) (s : step M) : Prop :=
  match s with
  | Return d => good_return (Ok d)
  | Next c m => exists ps out, m = after m0 out /\ invariant p c ps out
  end.

Lemma fail_good p st (c : cursor) out : good_return (Ok (decoded_of st (failCursor c) (written c) (after m0 out))) ->
  exists s, fail st c (after m0 out) = Ok s /\ good p s.
Proof. intros Hg. by eexists. Qed.

Lemma trailing_spec out r k : (length out <= r)%nat -> (r + k = length src)%nat ->
  trailing (after m0 out) r k = Ok (forallb isWhitespace (drop r src)).
Proof.
  revert r. induction k as [|k IH]; intros r Ho Hr; cbn [trailing].
  { by rewrite drop_ge by lia. }
  destruct (lookup_lt_is_Some_2 src r) as [ch Hch]; [lia|].
  rewrite (read_after _ _ _ ch) by done. cbn [bind]. rewrite (drop_S _ _ _ Hch). cbn [forallb].
  destruct (isWhitespace ch); [|done]. cbn [andb].
  replace (r + 1) with (Z.of_nat (S r)) by lia. apply IH; lia.
Qed.

(** Committing a quantum without padding. *)
Lemma commit_next p (c : cursor) a b x y out : progress p c [a; b; x; y] out -> padCount c = 0%nat ->
  sym a = true -> sym b = true -> sym x = true -> sym y = true -> zlen out + 3 <= room m0 ->
  exists s, commit (zlen src) c (after m0 out) (octets (dec a) (dec b) (dec x) (dec y)) = Ok s /\
    good p s.
Proof.
  intros Hp Hp0 Ha Hb Hx Hy Hroom.
  unfold commit. rewrite (pr_di _ _ _ _ _ _ Hp), writes_after by (cbn; lia). cbn [bind].
  rewrite Hp0. cbn [Nat.ltb Nat.leb]. eexists. split; [done|].
  exists [], (out ++ octets (dec a) (dec b) (dec x) (dec y)). split; [done|].
  constructor; try done. cbn [cur]. rewrite <- (pr_di _ _ _ _ _ _ Hp).
  apply (progress_flush m0 p c out a b x y Hp); done || (by apply sym_range).
Qed.

(** Committing the final quantum: what follows must be white space. *)
Lemma commit_last p (c : cursor) a b x y out bytes : progress p c [a; b; x; y] out -> (0 < padCount c)%nat ->
  isFinal = true -> zlen out + zlen bytes <= room m0 -> (length bytes <= 3)%nat ->
  (forall r, decode_ref (a :: b :: x :: y :: r) = if Nat.eqb (length r) 0 then Some bytes else None) ->
  exists s, commit (zlen src) c (after m0 out) bytes = Ok s /\ good p s.
Proof.
  intros Hp Hp0 Hfin Hroom Hlen Href. pose proof (progress_text _ _ _ _ _ Hp) as Htext.
  destruct (pr_n _ _ _ _ _ _ Hp) as (n & q & _ & _ & _ & Hps & Hf & _).
  pose proof (pr_behind _ _ _ _ _ _ Hp) as Hb. pose proof (pr_p _ _ _ _ _ _ Hp) as Hle.
  cbn [length] in Hb.
  unfold commit. rewrite (pr_di _ _ _ _ _ _ Hp), writes_after by done. cbn [bind].
  rewrite (proj2 (Nat.ltb_lt _ _) Hp0), (pr_si _ _ _ _ _ _ Hp).
  replace (Z.to_nat (zlen src - p)) with (length src - p)%nat by lia.
  rewrite trailing_spec by (rewrite ?length_app; lia). cbn [bind].
  rewrite forallb_white. destruct (Nat.eqb _ 0) eqn:E; (eexists; split; [done|]).
  - apply (progress_done m0 isFinal p c [a; b; x; y] out bytes Hp Hfin); [|done].
    cbn [app]. change (denotes ?s) with (decode_ref s). by rewrite Href, E.
  - assert (Hpre : decode_ref (nonws (take p src)) = Some (out ++ bytes)).
    { rewrite Hps, (full_bytes _ _ _ Hf), (Href []). done. }
    eexists _, p, (out ++ bytes). cbn [d_consumed d_written d_mem d_status].
    assert (Hl2 : zlen (out ++ bytes) = zlen out + zlen bytes) by (rewrite length_app; lia).
    rewrite Hl2. do 5 (split; [done|]). split; [lia|]. split; [done|]. split; [congruence|].
    rewrite Hfin, Htext. cbn [app]. change (denotes ?s) with (decode_ref s). by rewrite Href, E.
Qed.

Lemma map_app_length (out bytes : list Z) o bs :
  option_map (app out) (option_map (app bytes) o) = Some bs -> zlen out + zlen bytes <= zlen bs.
Proof. destruct o; [|done]. cbn. intros [= <-]. rewrite !length_app. lia. Qed.

(** Failing on a quantum: the destination is too small, or the bits that padding
    drops are not zero. *)
Lemma small_good p (c : cursor) a b x y out n : progress p c [a; b; x; y] out -> room m0 < zlen out + n -> n <= 3 ->
  (forall r bs, decode_ref (a :: b :: x :: y :: r) = Some bs -> n <= zlen bs) ->
  exists s, fail DestinationTooSmall c (after m0 out) = Ok s /\ good p s.
Proof.
  intros Hp Hr Hn Hbs. apply fail_good. apply (progress_fail m0 isFinal p c _ out _ Hp); [done|].
  intros k Hf Hle Hd. split; [done|]. split; [apply Hp|]. split; [by apply full_ref|]. split; [done|].
  split; [lia|]. split; [left; rewrite Hd; cbn; lia|].
  intros bs. rewrite (progress_text _ _ _ _ _ Hp). change (denotes ?s) with (decode_ref s).
  destruct (decode_ref _) as [t|] eqn:E; [|done]. apply Hbs in E.
  cbn. intros [= <-]. rewrite length_app. lia.
Qed.

Lemma noncanonical_good p (c : cursor) a b x y out : progress p c [a; b; x; y] out -> isFinal = true ->
  (forall r, decode_ref (a :: b :: x :: y :: r) = None) ->
  exists s, fail InvalidData c (after m0 out) = Ok s /\ good p s.
Proof.
  intros Hp Hfin Hbs. apply fail_good. apply (progress_fail m0 isFinal p c _ out _ Hp); [done|].
  intros k Hf Hle Hd. split; [done|]. split; [apply Hp|]. split; [by apply full_ref|]. split; [done|].
  rewrite Hfin, (progress_text _ _ _ _ _ Hp). change (denotes ?s) with (decode_ref s).
  cbn [app]. by rewrite Hbs.
Qed.

Lemma quantum_good p (c : cursor) a b x y out : progress p c [a; b; x; y] out ->
  pending [a; b; x] -> padCount c = pads [a; b; x; y] -> (isFinal = false -> pads [a; b; x; y] = 0%nat) ->
  (sym y = true /\ pads [a; b; x] = 0%nat) \/ pad y = true ->
  exists s, quantum (zlen src) (room m0) c (after m0 out) = Ok s /\ good p s.
Proof.
  intros Hp (Ha & Hb & Hx) Hpads Hfin Hy.
  assert (Hfin' : (0 < pads [a; b; x; y])%nat -> isFinal = true) by (destruct isFinal; [done|]; lia).
  clear Hfin. unfold pads in *. cbn [List.filter] in *.
  rewrite (sym_not_pad a), (sym_not_pad b) in * by done.
  pose proof (sym_range _ Ha) as Ra. pose proof (sym_range _ Hb) as Rb.
  assert (Hv : forall i s, [a; b; x; y] !! i = Some s -> sym s = true -> nth i (vals c) 0 = dec s).
  { intros i s Hs Hss. rewrite (pr_val _ _ _ _ _ _ Hp i s Hs). apply sym_range in Hss. apply Z.max_r, Hss. }
  unfold quantum. rewrite (pr_di _ _ _ _ _ _ Hp), Hpads.
  rewrite (Hv 0%nat a), (Hv 1%nat b) by done. destruct Hx as [Hx|Hx].
  - rewrite (sym_not_pad x) in * by done. pose proof (sym_range _ Hx) as Rx.
    rewrite (Hv 2%nat x) by done. destruct Hy as [[Hy _]|Hy].
    + pose proof (sym_range _ Hy) as Ry. rewrite (sym_not_pad y) in * by done. cbn [length] in *.
      rewrite (Hv 3%nat y), ungroup_value by done. destruct (Z.ltb_spec (room m0 - zlen out) 3).
      * apply (small_good p c a b x y out 3 Hp); [lia|lia|]. intros r bs. rewrite ref_full by done.
        destruct (decode_ref r); [|done]. cbn [option_map]. intros [= <-]. cbn [length octets app]. lia.
      * apply commit_next; try done. lia.
    + rewrite Hy in *. cbn [length] in *. specialize (Hfin' ltac:(lia)).
      rewrite land_3 by lia. destruct (Z.eqb_spec (dec x mod 4) 0) as [E|E]; cbn [negb].
      * destruct (Z.ltb_spec (room m0 - zlen out) 2).
        -- apply (small_good p c a b x y out 2 Hp); [lia|lia|]. intros r bs. rewrite ref_pad1 by done.
           destruct (_ && _); [|done]. intros [= <-]. cbn [length]. lia.
        -- rewrite two_bytes by done. apply (commit_last p c a b x y); try done; [lia|cbn; lia|cbn; lia|].
           intros r. by rewrite ref_pad1, E, andb_true_r.
      * apply (noncanonical_good p c a b x y out Hp Hfin'). intros r.
        by rewrite ref_pad1, (proj2 (Z.eqb_neq _ _) E), andb_false_r.
  - rewrite Hx in *. destruct Hy as [[_ Hy]|Hy]; [done|]. rewrite Hy in *. cbn [length] in *.
    specialize (Hfin' ltac:(lia)).
    rewrite land_15 by lia. destruct (Z.eqb_spec (dec b mod 16) 0) as [E|E]; cbn [negb].
    + destruct (Z.ltb_spec (room m0 - zlen out) 1).
      * apply (small_good p c a b x y out 1 Hp); [lia|lia|]. intros r bs. rewrite ref_pad2 by done.
        destruct (_ && _); [|done]. intros [= <-]. cbn [length]. lia.
      * rewrite one_byte by done. apply (commit_last p c a b x y); try done; [lia|cbn; lia|cbn; lia|].
        intros r. by rewrite ref_pad2, E, andb_true_r.
    + apply (noncanonical_good p c a b x y out Hp Hfin'). intros r.
      by rewrite ref_pad2, (proj2 (Z.eqb_neq _ _) E), andb_false_r.
Qed.

(** The locals once the loop has moved past a character that is not white
    space. *)
Definition past (c : cursor) : cursor := cursor_of (skip (mark c)) (padCount c).

(** An invalid character. *)
Lemma past_invalid p c ps out ch : invariant p c ps out -> src !! p = Some ch ->
  isWhitespace ch = false ->
  (isFinal = true -> forall r, decode_ref (ps ++ ch :: r) = None) ->
  (isFinal = false -> sym ch = false) ->
  exists s, fail InvalidData (past c) (after m0 out) = Ok s /\ good (S p) s.
Proof.
  intros Hi Hch Hw Hnone Hsym. apply fail_good.
  apply (progress_invalid m0 isFinal p c ps out ch (inv_progress _ _ _ _ Hi) Hch Hw).
  - intros E. by apply Hnone.
  - intros E. specialize (Hsym E). rewrite sym_dec in Hsym. by apply Z.leb_gt.
Qed.

(** An accepted character [ch]. *)
Lemma accept_good p c ps out ch : invariant p c ps out -> src !! p = Some ch -> isWhitespace ch = false ->
  (sym ch = true /\ pads ps = 0%nat) \/ (pad ch = true /\ (2 <= length ps)%nat /\ isFinal = true) ->
  exists s, accept (zlen src) (room m0) (past c) (value ch) (pads (ps ++ [ch]))
      (after m0 out) = Ok s /\ good (S p) s.
Proof.
  intros Hi Hch Hw Hcase. destruct Hi as [Hp Hpend Hpads Hfin].
  pose proof (pending_length _ Hpend) as Hl3.
  pose proof (progress_push _ _ _ _ _ _ Hp Hch Hw ltac:(lia)) as Hpush.
  assert (Hfinal : isFinal = false -> pads (ps ++ [ch]) = 0%nat).
  { intros E. rewrite pads_snoc, (Hfin E).
    destruct Hcase as [[Hs _]|(_ & _ & E2)]; [|congruence]. by rewrite sym_not_pad. }
  unfold accept. change (valCount _) with (S (valCount (past c))) at 1. cbn [past cur skip mark valCount].
  rewrite (pr_count _ _ _ _ _ _ Hp). change (S (length ps) =? 4)%nat with (length ps =? 3)%nat.
  destruct (Nat.eqb_spec (length ps) 3) as [E3|E3].
  - destruct ps as [|a [|b [|x [|]]]]; try done. rewrite <- (pr_count _ _ _ _ _ _ Hp).
    apply (quantum_good _ _ a b x ch); try done. destruct Hcase as [[Hs H0']|(Hpd & _)]; [by left | by right].
  - eexists. split; [done|]. exists (ps ++ [ch]), out. split; [done|].
    rewrite <- (pr_count _ _ _ _ _ _ Hp). constructor; try done.
    destruct ps as [|a [|b [|x [|]]]]; try done; cbn [app pending] in *.
    + destruct Hcase as [[Hs _]|(_ & Hl & _)]; [done | cbn in Hl; lia].
    + destruct Hcase as [[Hs _]|(_ & Hl & _)]; [done | cbn in Hl; lia].
    + destruct Hpend. split; [done|]. split; [done|].
      destruct Hcase as [[Hs _]|(Hpd & _)]; [by left | by right].
Qed.

Lemma decode_char_good p c ps out : invariant p c ps out -> (p < length src)%nat ->
  exists s, decode_char (zlen src) (room m0) isFinal c (after m0 out) = Ok s /\ good (S p) s.
Proof.
  intros Hi Hlt. destruct (lookup_lt_is_Some_2 src p Hlt) as [ch Hch].
  pose proof (inv_progress _ _ _ _ Hi) as Hp. pose proof (inv_pending _ _ _ _ Hi) as Hpend.
  unfold decode_char. rewrite (progress_read _ _ _ _ _ _ Hp Hch). cbn [bind].
  destruct (isWhitespace ch) eqn:Hw.
  { eexists. split; [done|]. exists ps, out. split; [done|].
    destruct Hi. constructor; try done. cbn [cur]. by apply (progress_skip _ _ _ _ _ ch). }
  change (cursor_of _ _) with (past c). cbv zeta.
  replace (valCount (past c)) with (length ps) by (symmetry; apply Hp).
  change (padCount (past c)) with (padCount c). rewrite (inv_pads _ _ _ _ Hi).
  destruct (Z.eqb_spec (dec ch) (-1)) as [E1|E1].
  { assert (Hs : sym ch = false) by (rewrite sym_dec; by rewrite E1).
    assert (Hpd : pad ch = false) by (apply Z.eqb_neq; intros ->; by vm_compute in E1).
    apply (past_invalid p c ps out ch); try done. intros _ r. by apply bad_byte. }
  destruct (Z.eqb_spec (dec ch) (-2)) as [E2|E2].
  { assert (Hpd : pad ch = true) by (apply Z.eqb_eq; by apply dec_pad).
    pose proof (pad_not_sym _ Hpd) as Hs. destruct (negb isFinal) eqn:EF.
    { apply negb_true_iff in EF. apply (past_invalid p c ps out ch); try done. congruence. }
    apply negb_false_iff in EF. destruct (Nat.ltb_spec (length ps) 2).
    - apply (past_invalid p c ps out ch); try done. intros _ r. by apply early_pad.
    - pose proof (accept_good p c ps out ch Hi Hch Hw ltac:(by right)) as Ha.
      rewrite pads_snoc, Hpd, Nat.add_1_r in Ha. unfold value in Ha. cbn [sextet codec] in Ha.
      by rewrite E2 in Ha. }
  assert (Hs : sym ch = true) by (rewrite sym_dec; apply Z.leb_le; pose proof (dec_range ch); lia).
  destruct (Nat.ltb_spec 0 (pads ps)).
  - apply (past_invalid p c ps out ch); try done.
    + intros _ r. by apply symbol_after_pad.
    + intros EF. rewrite (inv_final _ _ _ _ Hi EF) in *. lia.
  - pose proof (accept_good p c ps out ch Hi Hch Hw ltac:(left; split; [done|lia])) as Ha.
    rewrite pads_snoc, (sym_not_pad _ Hs), Nat.add_0_r in Ha. unfold value in Ha.
    rewrite Z.max_r in Ha by (by apply sym_range). exact Ha.
Qed.

Lemma decode_loop_good fuel p c ps out : invariant p c ps out -> (length src - p < fuel)%nat ->
  exists s, decode_loop (zlen src) (room m0) isFinal fuel c (after m0 out) = Ok s /\
    good (length src) s.
Proof.
  revert p c ps out. induction fuel as [|fuel IH]; intros p c ps out Hi Hfuel; [lia|].
  cbn [decode_loop]. pose proof (inv_progress _ _ _ _ Hi) as Hp. rewrite (pr_si _ _ _ _ _ _ Hp).
  pose proof (pr_p _ _ _ _ _ _ Hp) as Hle. destruct (Z.ltb_spec p (zlen src)) as [Hlt|Hge].
  - destruct (decode_char_good p c ps out Hi ltac:(lia)) as (s & -> & Hg). cbn [bind].
    destruct s as [d|c' m']; [by exists (Return d)|].
    destruct Hg as (ps' & out' & -> & Hi'). apply (IH (S p) c' ps' out' Hi'). lia.
  - eexists. split; [done|]. exists ps, out. split; [done|]. by replace (length src) with p by lia.
Qed.

Lemma pending_sym ps : pending ps -> pads ps = 0%nat -> Forall (fun c => 0 <= sextet c) ps.
Proof.
  intros Hp Hn. apply (Forall_impl (fun c => sym c = true)); [|by intros c Hc; apply sym_range].
  revert Hp Hn. destruct ps as [|a [|b [|x [|]]]]; cbn [pending]; try done.
  - intros Ha _. by repeat constructor.
  - intros [Ha Hb] _. by repeat constructor.
  - intros (Ha & Hb & [Hx|Hx]); [by repeat constructor|]. unfold pads. cbn [List.filter].
    rewrite Hx. by destruct (pad a), (pad b).
Qed.

Lemma decodeCore_good : 0 <= room m0 ->
  good_return (decodeCore (zlen src) (room m0) isFinal m0).
Proof.
  intros Hr. unfold decodeCore.
  assert (Hstart : invariant 0 (cursor_of start 0) [] []) by (constructor; try done; by apply progress_start).
  destruct (decode_loop_good (S (Z.to_nat (zlen src))) 0 _ [] [] Hstart) as (s & Es & Hg); [lia|].
  rewrite after_nil in Es. rewrite Es. cbn [bind]. destruct s as [d|c m]; cbn [good] in Hg; [done|].
  destruct Hg as (ps & out & -> & Hi). pose proof (inv_progress _ _ _ _ Hi) as Hp.
  rewrite (pr_count _ _ _ _ _ _ Hp). pose proof (inv_pending _ _ _ _ Hi) as Hpend.
  pose proof (pending_length _ Hpend) as Hl3.
  destruct ps as [|a ps]; cbn [length Nat.ltb Nat.leb]; [by apply (progress_end m0 _ (length src))|].
  destruct (bool_decide_reflect (isFinal = true)) as [EF|EF].
  - rewrite EF. apply (progress_fail m0 true _ c (a :: ps) out _ Hp); [done|].
    intros n Hf Hle Hd. split; [done|]. split; [apply Hp|]. split; [by apply full_ref|]. split; [done|].
    rewrite (progress_text _ _ _ _ _ Hp), drop_ge, app_nil_r by done.
    change (denotes ?s) with (decode_ref s). by rewrite pending_short.
  - apply not_true_is_false in EF. pose proof (inv_final _ _ _ _ Hi EF) as Hpd. rewrite EF.
    apply (progress_more m0 false _ c (a :: ps) out Hp); try done; [cbn [length] in *; lia|].
    by apply pending_sym.
Qed.
End Correct.

(** ** Validation *)

Lemma validate_loop_spec src : forall ps vals di,
  pending ps -> length vals = 4%nat ->
  (forall i a, ps !! i = Some a -> nth i vals 0 = if sym a then dec a else 0) ->
  validate_loop src di vals (length ps) (pads ps) =
    option_map (fun bs => di + zlen bs) (decode_ref (ps ++ nonws src)).
Proof.
  induction src as [|ch src IH]; intros ps vals di Hp Hlen Hvals; cbn [validate_loop].
  { rewrite app_nil_r. destruct ps as [|a ps]; [cbn; by rewrite Z.add_0_r|].
    by rewrite pending_short. }
  change (nonws (ch :: src)) with (if negb (isWhitespace ch) then ch :: nonws src else nonws src).
  destruct (isWhitespace ch) eqn:Hw; cbn [negb]; [by apply IH|].
  destruct (Z.eqb_spec (dec ch) (-1)) as [E1|E1].
  { rewrite bad_byte; try done; [rewrite sym_dec; by rewrite E1|].
    apply Z.eqb_neq. intros ->. by vm_compute in E1. }
  assert (Hc : (dec ch =? -2) = pad ch /\ sym ch = negb (pad ch)).
  { pose proof (dec_range ch). rewrite sym_dec. unfold pad. destruct (Z.eqb_spec (dec ch) (-2)) as [E2|E2].
    - apply dec_pad in E2 as ->. done.
    - rewrite (proj2 (Z.eqb_neq ch 61)) by (by rewrite <- dec_pad). split; [done|].
      apply Z.leb_le. lia. }
  destruct Hc as [-> Hs].
  destruct (pad ch && Nat.ltb (length ps) 2) eqn:E2.
  { apply andb_true_iff in E2 as [Hpd Hl]. apply Nat.ltb_lt in Hl. by rewrite early_pad. }
  destruct (negb (pad ch) && Nat.ltb 0 (pads ps)) eqn:E3.
  { apply andb_true_iff in E3 as [Hpd Hl]. apply Nat.ltb_lt in Hl. rewrite symbol_after_pad; congruence || done. }
  assert (Hpads : (if pad ch then S (pads ps) else pads ps) = pads (ps ++ [ch])).
  { rewrite pads_snoc. destruct (pad ch); lia. }
  rewrite Hpads.
  set (vals' := <[length ps := if pad ch then 0 else dec ch]> vals).
  pose proof (pending_length _ Hp) as Hl3.
  assert (Hvals' : forall i a, (ps ++ [ch]) !! i = Some a -> nth i vals' 0 = if sym a then dec a else 0).
  { intros i a Ha. unfold vals'. rewrite nth_insert by lia.
    destruct (Nat.eqb_spec i (length ps)) as [->|Hn].
    - rewrite lookup_app_r, Nat.sub_diag in Ha by done. injection Ha as ->. rewrite Hs.
      by destruct (pad a).
    - pose proof (lookup_lt_Some _ _ _ Ha) as Hil. rewrite length_app in Hil. cbn in Hil.
      rewrite lookup_app_l in Ha by lia. by apply Hvals. }
  assert (Hlen' : length vals' = 4%nat) by (unfold vals'; by rewrite length_insert).
  clearbody vals'. change (S (length ps) =? 4)%nat with (length ps =? 3)%nat.
  destruct (Nat.eqb_spec (length ps) 3) as [E4|E4].
  - destruct ps as [|a [|b [|x [|]]]]; try done. destruct Hp as (Ha & Hb & Hx). cbn [app] in *.
    rewrite (Hvals' 2%nat x), (Hvals' 1%nat b), Hb by done.
    pose proof (IH [] vals' (di + 3) I Hlen' ltac:(done)) as IH0.
    change (pads []) with 0%nat in IH0. change (length []) with 0%nat in IH0.
    clear IH. unfold pads in *. cbn [List.filter] in *. rewrite (sym_not_pad a), (sym_not_pad b) in * by done.
    destruct Hx as [Hx|Hx].
    + rewrite (sym_not_pad x) in * by done. rewrite Hx. destruct (pad ch) eqn:Hpd; cbn [length Nat.eqb andb Nat.ltb Nat.leb].
      * rewrite ref_pad1, land_3 by (done || by apply sym_range).
        destruct (dec x mod 4 =? 0); cbn [negb]; [|by rewrite andb_false_r]. rewrite andb_true_r.
        rewrite forallb_white. by destruct (Nat.eqb _ _).
      * rewrite ref_full by done. cbn [length Nat.eqb Nat.ltb Nat.leb negb andb]. rewrite IH0.
        rewrite app_nil_l. destruct (decode_ref (nonws src)); [|done].
        cbn [option_map]. rewrite length_app. cbn [length octets]. f_equal. lia.
    + destruct (pad ch) eqn:Hpd; [|by rewrite Hx in E3].
      rewrite Hx. cbn [length Nat.eqb andb Nat.ltb Nat.leb].
      rewrite ref_pad2, land_15 by (done || by apply sym_range).
      destruct (dec b mod 16 =? 0); cbn [negb]; [|by rewrite andb_false_r]. rewrite andb_true_r.
      rewrite forallb_white. by destruct (Nat.eqb _ _).
  - replace (S (length ps)) with (length (ps ++ [ch])) by (rewrite length_app; cbn; lia).
    rewrite IH; try done.
    + by rewrite <- app_assoc.
    + destruct ps as [|a [|b [|x [|]]]]; try done; cbn [app pending length pads] in *.
      * destruct (pad ch); [done|]. done.
      * destruct (pad ch); [done|]. done.
      * destruct Hp. split; [done|]. split; [done|]. destruct (pad ch); [by right | by left].
Qed.

(** The validator accepts exactly what the decoder decodes, and counts right. *)
Lemma validateCore_spec src :
  validateCore src =
    match decode_ref (nonws src) with Some bs => (true, zlen bs) | None => (false, 0) end.
Proof.
  unfold validateCore. change 0%nat with (length (@nil Z)) at 1.
  change 0%nat with (pads []). rewrite validate_loop_spec by done. cbn [app].
  by destruct (decode_ref _).
Qed.

End Base64Decode.
