(* ===== verification/Base64Doors.v ===== *)
(** * Base64: the public overloads

    The overloads of [System::Buffers::Text::Base64] on top of the decoder, the
    validator and the encoder: what each returns or throws, round trips and
    streaming. *)

From S2P Require Export Base64Decode.

#[local] Coercion Z.of_nat : nat >-> Z.

Module Base64Doors.
Import Base64 Base64Decode.

(** ** Length helpers *)

Definition GetMaxDecodedFromUtf8Length (base64Length : Z) : res Z :=
  _ <- throw_if (base64Length <? 0)
         (ArgumentOutOfRangeException "base64Length" "Non-negative number required.") ;;
  smul 32 (Z.quot base64Length 4) 3.

Definition GetMaxDecodedLength (base64Length : Z) : res Z :=
  GetMaxDecodedFromUtf8Length base64Length.

Definition GetMaxEncodedToUtf8Length (bytesLength : Z) : res Z :=
  _ <- throw_if ((bytesLength <? 0) || (kMaximumEncodeLength <? bytesLength))
         (ArgumentOutOfRangeException "bytesLength"
            "Non-negative number required, and less than or equal to 1610612733.") ;;
  n <- sadd 32 bytesLength 2 ;;
  smul 32 (Z.quot n 3) 4.

Definition GetEncodedLength (bytesLength : Z) : res Z := GetMaxEncodedToUtf8Length bytesLength.

(** ** Encoding *)

(** The overloads for bytes; the [char] ones differ only in the element type. *)
Definition EncodeToUtf8 (source destination : list Z) (isFinalBlock : bool) : res encoded :=
  encodeCore source destination isFinalBlock.

Definition too_short : exn := ArgumentException "Destination is too short." "destination".

(** The count written, and the destination. *)
Definition EncodeToUtf8_to (source destination : list Z) : res (Z * list Z) :=
  e <- EncodeToUtf8 source destination true ;;
  if decide (e_status e = Done) then Ok (e_written e, e_dst e) else Throw too_short.

Definition EncodeToUtf8_new (source : list Z) : res (list Z) :=
  len <- GetEncodedLength (zlen source) ;;
  e <- EncodeToUtf8 source (replicate (Z.to_nat len) 0) true ;;
  Ok (e_dst e).

(** The returned flag, [bytesWritten] and the destination. *)
Definition TryEncodeToUtf8 (source destination : list Z) : res (bool * Z * list Z) :=
  e <- EncodeToUtf8 source destination true ;;
  Ok (bool_decide (e_status e = Done), e_written e, e_dst e).

Definition EncodeToChars (source destination : list Z) (isFinalBlock : bool) : res encoded :=
  encodeCore source destination isFinalBlock.
Definition EncodeToChars_to (source destination : list Z) : res (Z * list Z) :=
  e <- EncodeToChars source destination true ;;
  if decide (e_status e = Done) then Ok (e_written e, e_dst e) else Throw too_short.
Definition TryEncodeToChars (source destination : list Z) : res (bool * Z * list Z) :=
  e <- EncodeToChars source destination true ;;
  Ok (bool_decide (e_status e = Done), e_written e, e_dst e).
Definition EncodeToString (source : list Z) : res (list Z) :=
  len <- GetEncodedLength (zlen source) ;;
  e <- EncodeToChars source (replicate (Z.to_nat len) 0) true ;;
  Ok (e_dst e).

(** The status, [bytesWritten] and the buffer. *)
Definition EncodeToUtf8InPlace (buffer : list Z) (dataLength : Z)
  : res (OperationStatus * Z * list Z) :=
  if zlen buffer =? 0 then Ok (Done, 0, buffer)
  else
    encodedLen <- GetEncodedLength dataLength ;;
    if zlen buffer <? encodedLen then Ok (DestinationTooSmall, 0, buffer)
    else
      buf <- encode_in_place kEncTable last_group buffer dataLength ;;
      Ok (Done, encodedLen, buf).

Definition TryEncodeToUtf8InPlace (buffer : list Z) (dataLength : Z) : res (bool * Z * list Z) :=
  r <- EncodeToUtf8InPlace buffer dataLength ;;
  let '(status, bytesWritten, buf) := r in
  Ok (bool_decide (status = Done), bytesWritten, buf).

(** ** Decoding *)

Definition invalid_data : exn := FormatException
  "The input is not a valid Base-64 string as it contains a non-base 64 character, more than two padding characters, or an illegal character among the padding characters.".

Definition DecodeFromUtf8 (utf8 bytes : list Z) (isFinalBlock : bool) : res (decoded Separate) :=
  decodeCore (zlen utf8) (zlen bytes) isFinalBlock (separate utf8 bytes).

(** What the throwing overload makes of a final block: the count written and
    the destination. *)
Definition DecodeFromUtf8_to (source dst : list Z) : res (Z * list Z) :=
  d <- DecodeFromUtf8 source dst true ;;
  match d_status d with
  | Done => Ok (d_written d, destination (d_mem d))
  | DestinationTooSmall => Throw too_short
  | _ => Throw invalid_data
  end.

Definition DecodeFromUtf8_new (source : list Z) : res (list Z) :=
  upperBound <- GetMaxDecodedLength (zlen source) ;;
  d <- DecodeFromUtf8 source (replicate (Z.to_nat upperBound) 0) true ;;
  if decide (d_status d = Done)
  then Ok (take (Z.to_nat (d_written d)) (destination (d_mem d)))
  else Throw invalid_data.

Definition TryDecodeFromUtf8 (source dst : list Z) : res (bool * Z * list Z) :=
  d <- DecodeFromUtf8 source dst true ;;
  if decide (d_status d = InvalidData) then Throw invalid_data
  else Ok (bool_decide (d_status d = Done), d_written d, destination (d_mem d)).

(** The status, [bytesWritten] and the buffer. *)
Definition DecodeFromUtf8InPlace (buffer : list Z) : res (OperationStatus * Z * list Z) :=
  d <- decodeCore (zlen buffer) (zlen buffer) true buffer ;;
  Ok (d_status d, d_written d, d_mem d).

(** The overloads for characters. *)
Definition DecodeFromChars (chars bytes : list Z) (isFinalBlock : bool) : res (decoded Separate) :=
  decodeCore (zlen chars) (zlen bytes) isFinalBlock (separate chars bytes).
Definition DecodeFromChars_to (source dst : list Z) : res (Z * list Z) :=
  d <- DecodeFromChars source dst true ;;
  match d_status d with
  | Done => Ok (d_written d, destination (d_mem d))
  | DestinationTooSmall => Throw too_short
  | _ => Throw invalid_data
  end.
Definition TryDecodeFromChars (source dst : list Z) : res (bool * Z * list Z) :=
  d <- DecodeFromChars source dst true ;;
  if decide (d_status d = InvalidData) then Throw invalid_data
  else Ok (bool_decide (d_status d = Done), d_written d, destination (d_mem d)).
Definition DecodeFromChars_new (source : list Z) : res (list Z) :=
  upperBound <- GetMaxDecodedLength (zlen source) ;;
  d <- DecodeFromChars source (replicate (Z.to_nat upperBound) 0) true ;;
  if decide (d_status d = Done)
  then Ok (take (Z.to_nat (d_written d)) (destination (d_mem d)))
  else Throw invalid_data.

(** ** Validation *)

Definition IsValid (base64Text : list Z) : bool := fst (validateCore base64Text).
Definition IsValid_length (base64Text : list Z) : bool * Z := validateCore base64Text.

Definition bytes_of (s : string) : list Z := map code (str s).

Example decode_ex : (d <- DecodeFromUtf8_new (bytes_of " QU JD
RA= = ") ;; Ok d) = Ok (bytes_of "ABCD").
Proof. vm_compute. reflexivity. Qed.

Example in_place_ex : EncodeToUtf8InPlace (bytes_of "ABCDE...") 5 = Ok (Done, 8, bytes_of "QUJDREU=").
Proof. vm_compute. reflexivity. Qed.

(** ** The encoder *)

Lemma last_group_text r : (0 < length r < 3)%nat -> last_group r = Ok (last_text r).
Proof.
  destruct r as [|x [|y [|]]]; cbn [length]; try lia; intros _; cbn;
    unfold group, pack; change (Z.shiftl 0 8) with 0; by rewrite !Z.lor_0_r.
Qed.

Lemma text_length bs : length (text bs) = (4 * ((length bs + 2) / 3))%nat.
Proof.
  induction bs as [r Hr|x y z bs IH] using triples_ind.
  - destruct r as [|x [|y [|]]]; cbn [length] in Hr; try lia; reflexivity.
  - unfold text in *. cbn [encoding]. rewrite length_app, IH, group_length. cbn [length].
    replace (S (S (S (length bs))) + 2)%nat with (length bs + 2 + 1 * 3)%nat by lia.
    rewrite Nat.div_add by lia. lia.
Qed.

Lemma GetEncodedLength_text (bs : list Z) : zlen bs <= kMaximumEncodeLength ->
  GetEncodedLength (zlen bs) = Ok (zlen (text bs)).
Proof.
  intros Hl. unfold GetEncodedLength, GetMaxEncodedToUtf8Length. unfold kMaximumEncodeLength in *.
  rewrite (proj2 (Z.ltb_ge _ _)), (proj2 (Z.ltb_ge 1610612733 _)) by lia. cbn [throw_if orb bind].
  unfold sadd, smul. rewrite schk_Ok by (unfold in_s; lia). cbn [bind].
  rewrite Z.quot_div_nonneg, schk_Ok by (unfold in_s; Z.to_euclidean_division_equations; lia).
  rewrite text_length. f_equal. rewrite Nat2Z.inj_mul, Nat2Z.inj_div, Nat2Z.inj_add. lia.
Qed.

Lemma GetEncodedLength_large (bs : list Z) : kMaximumEncodeLength < zlen bs ->
  exists m, GetEncodedLength (zlen bs) = Throw (ArgumentOutOfRangeException "bytesLength" m).
Proof.
  intros Hl. unfold GetEncodedLength, GetMaxEncodedToUtf8Length.
  rewrite (proj2 (Z.ltb_ge _ _)), (proj2 (Z.ltb_lt _ _)) by lia. by eexists.
Qed.

Lemma EncodeToUtf8_new_text (bs : list Z) : zlen bs <= kMaximumEncodeLength ->
  EncodeToUtf8_new bs = Ok (text bs).
Proof.
  intros Hl. unfold EncodeToUtf8_new. rewrite GetEncodedLength_text by done. cbn [bind].
  unfold EncodeToUtf8, encodeCore.
  rewrite (encode_with_done _ last_group_text) by (rewrite length_replicate; lia). cbn [bind e_dst].
  rewrite drop_ge, app_nil_r; [done|]. rewrite length_replicate. lia.
Qed.

Lemma EncodeToUtf8InPlace_text (bs rest : list Z) : zlen bs <= kMaximumEncodeLength ->
  bs ++ rest <> [] -> zlen (text bs) <= zlen (bs ++ rest) ->
  EncodeToUtf8InPlace (bs ++ rest) (zlen bs) =
    Ok (Done, zlen (text bs), text bs ++ drop (length (text bs)) (bs ++ rest)).
Proof.
  intros Hl Hne Hroom. unfold EncodeToUtf8InPlace.
  destruct (Z.eqb_spec (zlen (bs ++ rest)) 0) as [E|_].
  { destruct (bs ++ rest); [done|]. cbn in E. lia. }
  rewrite GetEncodedLength_text by done. cbn [bind]. rewrite (proj2 (Z.ltb_ge _ _)) by done.
  by rewrite (encode_in_place_text _ last_group_text).
Qed.

(** ** The decoders *)

Lemma upperBound_Ok (source : list Z) : in_s 32 (zlen source) ->
  GetMaxDecodedLength (zlen source) = Ok (3 * (zlen source / 4)).
Proof.
  unfold in_s. intros Hl. unfold GetMaxDecodedLength, GetMaxDecodedFromUtf8Length.
  rewrite (proj2 (Z.ltb_ge _ _)) by lia. cbn [throw_if bind]. unfold smul.
  rewrite Z.quot_div_nonneg, schk_Ok by (unfold in_s; Z.to_euclidean_division_equations; lia).
  f_equal. lia.
Qed.

(** The allocating overload decodes well-formed text and throws otherwise. *)
Lemma DecodeFromUtf8_good (source dst : list Z) isFinal :
  good_call (separate source dst) isFinal (DecodeFromUtf8 source dst isFinal).
Proof. exact (decodeCore_good (separate source dst) isFinal (Nat2Z.is_nonneg _)). Qed.

(** The allocating overload decodes well-formed text and throws otherwise. *)
Lemma DecodeFromUtf8_new_ref (source : list Z) : in_s 32 (zlen source) ->
  DecodeFromUtf8_new source =
    match denotes (nonws source) with Some bs => Ok bs | None => Throw invalid_data end.
Proof.
  intros Hl. unfold DecodeFromUtf8_new. rewrite upperBound_Ok by done. cbn [bind].
  set (dst := replicate (Z.to_nat (3 * (zlen source / 4))) 0).
  assert (Hroom : capacity (length source) <= zlen dst).
  { unfold dst. rewrite length_replicate. change (capacity ?n) with (3 * (n / 4))%nat.
    rewrite Nat2Z.inj_mul, Nat2Z.inj_div, Z2Nat.id by (Z.to_euclidean_division_equations; lia).
    lia. }
  pose proof (separate_call source dst _ (DecodeFromUtf8_good source dst true) Hroom) as Hc.
  destruct (denotes (nonws source)) as [bs|].
  - rewrite Hc. cbn [bind d_status d_written d_mem destination]. rewrite decide_True by done.
    by rewrite Nat2Z.id, take_app_length.
  - destruct Hc as (d & -> & Hs). cbn [bind]. by rewrite Hs.
Qed.

Lemma DecodeFromUtf8InPlace_ref (buffer : list Z) :
  match denotes (nonws buffer) with
  | Some bs => DecodeFromUtf8InPlace buffer = Ok (Done, zlen bs, bs ++ drop (length bs) buffer)
  | None => exists w buf, DecodeFromUtf8InPlace buffer = Ok (InvalidData, w, buf)
  end.
Proof.
  pose proof (in_place_call buffer _ (decodeCore_good buffer true (Nat2Z.is_nonneg _))) as Hc.
  unfold DecodeFromUtf8InPlace. cbn [source_of room InPlace_laws] in Hc.
  destruct (denotes (nonws buffer)) as [bs|].
  - by rewrite Hc.
  - destruct Hc as (d & -> & Hs). cbn [bind]. rewrite Hs. by eexists _, _.
Qed.

(** ** Properties *)

(** C29: One call of [Base64::DecodeFromUtf8], on any source, destination and
    [isFinalBlock], returns; the bytes it leaves at the start of the destination
    are exactly those the consumed characters denote, nothing else is written,
    and the status is right: [Done] when all is consumed, [InvalidData] only when
    the whole text is malformed (in a block that is not the last, when it holds a
    character that is no symbol), [DestinationTooSmall] only when the decoded
    bytes exceed the destination, [NeedMoreData] only in a non-final block with
    one to three symbols left. *)
Theorem Base64_decode_delivers (src dst : list Z) (isFinal : bool) :
  exists d n out, DecodeFromUtf8 src dst isFinal = Ok d /\
    d_consumed d = Z.of_nat n /\ d_written d = zlen out /\
    d_mem d = separate src (out ++ drop (length out) dst) /\
    delivers src (zlen dst) isFinal (d_status d) n out.
Proof. exact (DecodeFromUtf8_good src dst isFinal). Qed.

(** A text without its spaces, tabs, line feeds and carriage returns. *)
Definition unspaced (src : list Z) : list Z :=
  List.filter (fun c => negb ((c =? 32) || (c =? 9) || (c =? 10) || (c =? 13))) src.

Lemma unspaced_nonws src : unspaced src = nonws src.
Proof.
  apply List.filter_ext. intros c. unfold isWhitespace.
  by destruct (c =? 32), (c =? 9), (c =? 10), (c =? 13).
Qed.

(** C30: The decoder, the decoder in place and the validator of [Base64] agree with
    RFC 4648: on well-formed text (groups of four symbols of its Table 1, the last
    padded, the dropped bits zero, spaces, tabs and line ends anywhere) the allocating overload returns the bytes
    the text denotes, the overload in place leaves the same bytes at the start of
    the buffer it reads from, and [IsValid] says true with their number; on any
    other text the first throws [FormatException], the second reports
    [InvalidData] and the third says false. *)
Theorem Base64_decoders_agree (src : list Z) : in_s 32 (zlen src) ->
  match decode_ref (unspaced src) with
  | Some bs =>
      DecodeFromUtf8_new src = Ok bs /\
      DecodeFromUtf8InPlace src = Ok (Done, zlen bs, bs ++ drop (length bs) src) /\
      IsValid_length src = (true, zlen bs)
  | None =>
      DecodeFromUtf8_new src = Throw invalid_data /\
      (exists w buf, DecodeFromUtf8InPlace src = Ok (InvalidData, w, buf)) /\
      IsValid_length src = (false, 0)
  end.
Proof.
  intros Hl. pose proof (DecodeFromUtf8_new_ref src Hl) as H1.
  pose proof (DecodeFromUtf8InPlace_ref src) as H2. pose proof (validateCore_spec src) as H3.
  change (denotes ?s) with (decode_ref s) in *.
  unfold IsValid_length. rewrite unspaced_nonws. by destruct (decode_ref (nonws src)).
Qed.

Lemma Base64_decoders_agree_witness :
  DecodeFromUtf8_new (bytes_of " QUJD RA= =") = Ok (bytes_of "ABCD") /\
  DecodeFromUtf8_new (bytes_of "QUJDRB==") = Throw invalid_data.
Proof.
  pose proof (Base64_decoders_agree (bytes_of " QUJD RA= =") ltac:(vm_compute; by split)) as H1.
  pose proof (Base64_decoders_agree (bytes_of "QUJDRB==") ltac:(vm_compute; by split)) as H2.
  assert (E1 : decode_ref (unspaced (bytes_of " QUJD RA= =")) = Some (bytes_of "ABCD"))
    by (vm_compute; reflexivity).
  assert (E2 : decode_ref (unspaced (bytes_of "QUJDRB==")) = None) by (vm_compute; reflexivity).
  rewrite E1 in H1. rewrite E2 in H2. split; [apply H1 | apply H2].
Defined.

(** C31: Base64 round trip: every byte sequence short enough to encode encodes to
    [(n + 2) / 3 * 4] characters, which decode to it again, and the encoder in
    place, given a buffer with room that starts with the bytes, leaves the same
    text at its start. *)
Theorem Base64_roundtrip (bs rest : list Z) : Forall byte bs -> zlen bs <= kMaximumEncodeLength ->
  exists t, EncodeToUtf8_new bs = Ok t /\
    zlen t = (zlen bs + 2) / 3 * 4 /\
    DecodeFromUtf8_new t = Ok bs /\
    (bs ++ rest <> [] -> zlen t <= zlen (bs ++ rest) ->
       EncodeToUtf8InPlace (bs ++ rest) (zlen bs) =
         Ok (Done, zlen t, t ++ drop (length t) (bs ++ rest))).
Proof.
  intros Hb Hl. exists (text bs).
  assert (Hz : zlen (text bs) = (zlen bs + 2) / 3 * 4).
  { rewrite text_length, Nat2Z.inj_mul, Nat2Z.inj_div, Nat2Z.inj_add. lia. }
  split; [|split; [done|split]].
  - by apply EncodeToUtf8_new_text.
  - rewrite DecodeFromUtf8_new_ref, text_roundtrip; try done.
    unfold in_s, kMaximumEncodeLength in *. Z.to_euclidean_division_equations. lia.
  - intros Hne Hroom. by apply EncodeToUtf8InPlace_text.
Qed.

Lemma Base64_roundtrip_witness :
  exists t, EncodeToUtf8_new (bytes_of "ABCDE") = Ok t /\ DecodeFromUtf8_new t = Ok (bytes_of "ABCDE") /\
    EncodeToUtf8InPlace (bytes_of "ABCDE...") 5 = Ok (Done, 8, t).
Proof.
  destruct (Base64_roundtrip (bytes_of "ABCDE") (bytes_of "...")) as (t & H1 & H2 & H3 & H4).
  - refine (bool_decide_unpack (Forall (fun b => 0 <= b < 256) _) _). vm_compute. exact I.
  - vm_compute. discriminate.
  - assert (t = bytes_of "QUJDREU=") as ->.
    { transitivity (match EncodeToUtf8_new (bytes_of "ABCDE") with Ok t => t | _ => [] end);
        [by rewrite H1 | vm_compute; reflexivity]. }
    eexists. split; [exact H1|]. split; [exact H3|]. apply H4; [discriminate | vm_compute; discriminate].
Defined.

(** Base64 streams: cutting a text or a byte sequence into a first block,
    coded with [isFinalBlock] false, and the rest together with what the call
    left unconsumed, gives the whole result in two parts, whatever the first
    call's status and destination were. *)
Theorem Base64_streams (a b dst : list Z) :
  (in_s 32 (zlen (a ++ b)) ->
   exists d, DecodeFromUtf8 a dst false = Ok d /\
     DecodeFromUtf8_new (a ++ b) =
       (bs <- DecodeFromUtf8_new (drop (Z.to_nat (d_consumed d)) a ++ b) ;;
        Ok (take (Z.to_nat (d_written d)) (destination (d_mem d)) ++ bs))) /\
  (zlen (a ++ b) <= kMaximumEncodeLength ->
   exists e, EncodeToUtf8 a dst false = Ok e /\
     EncodeToUtf8_new (a ++ b) =
       (t <- EncodeToUtf8_new (drop (Z.to_nat (e_consumed e)) a ++ b) ;;
        Ok (take (Z.to_nat (e_written e)) (e_dst e) ++ t))).
Proof.
  split; intros Hl.
  - destruct (call_streams a b dst _ (DecodeFromUtf8_good a dst false)) as (d & Ed & Hd).
    exists d. split; [exact Ed|]. rewrite !DecodeFromUtf8_new_ref, Hd.
    2:{ unfold in_s in *. rewrite !length_app, length_drop in *. lia. }
    2:{ done. }
    by destruct (denotes (nonws (drop _ a ++ b))).
  - destruct (encode_streams _ last_group_text a b dst) as (e & Ee & Ht).
    exists e. split; [exact Ee|].
    rewrite !EncodeToUtf8_new_text by (rewrite ?length_app, ?length_drop in *; lia).
    cbn [bind]. by rewrite Ht.
Qed.

Lemma Base64_streams_witness :
  exists d, DecodeFromUtf8 (bytes_of "QUJDR") [] false = Ok d /\
     DecodeFromUtf8_new (bytes_of "QUJDRA==") =
       (bs <- DecodeFromUtf8_new (drop (Z.to_nat (d_consumed d)) (bytes_of "QUJDR") ++ bytes_of "A==") ;;
        Ok (take (Z.to_nat (d_written d)) (destination (d_mem d)) ++ bs)).
Proof.
  apply (proj1 (Base64_streams (bytes_of "QUJDR") (bytes_of "A==") [])). vm_compute. by split.
Defined.

End Base64Doors.
