(* ===== verification/Base64Url.v ===== *)
(** * Base64Url

    [System::Buffers::Text::Base64Url]: the unpadded encoder, the decoder and
    validator that accept optional final padding in either spelling, and the
    throwing and allocating doors.  The overloads for characters read each as its
    [uint8_t]. *)

From S2P Require Export Base64Common.

#[local] Coercion Z.of_nat : nat >-> Z.

Module Base64Url.

Definition kMaximumEncodeLength : Z := 1610612733.

Definition kEncTable : list Z :=
  map code (str "ABCDEFGHIJKLMNOPQRSTUVWXYZabcdefghijklmnopqrstuvwxyz0123456789-_").

(** -1 is any byte outside the alphabet, padding included. *)
Definition kDecTable : list Z :=
  [(-1); (-1); (-1); (-1); (-1); (-1); (-1); (-1); (-1); (-1); (-1); (-1); (-1); (-1); (-1); (-1);
   (-1); (-1); (-1); (-1); (-1); (-1); (-1); (-1); (-1); (-1); (-1); (-1); (-1); (-1); (-1); (-1);
   (-1); (-1); (-1); (-1); (-1); (-1); (-1); (-1); (-1); (-1); (-1); (-1); (-1); 62; (-1); (-1);
   52; 53; 54; 55; 56; 57; 58; 59; 60; 61; (-1); (-1); (-1); (-1); (-1); (-1);
   (-1); 0; 1; 2; 3; 4; 5; 6; 7; 8; 9; 10; 11; 12; 13; 14;
   15; 16; 17; 18; 19; 20; 21; 22; 23; 24; 25; (-1); (-1); (-1); (-1); 63;
   (-1); 26; 27; 28; 29; 30; 31; 32; 33; 34; 35; 36; 37; 38; 39; 40;
   41; 42; 43; 44; 45; 46; 47; 48; 49; 50; 51; (-1); (-1); (-1); (-1); (-1);
   (-1); (-1); (-1); (-1); (-1); (-1); (-1); (-1); (-1); (-1); (-1); (-1); (-1); (-1); (-1); (-1);
   (-1); (-1); (-1); (-1); (-1); (-1); (-1); (-1); (-1); (-1); (-1); (-1); (-1); (-1); (-1); (-1);
   (-1); (-1); (-1); (-1); (-1); (-1); (-1); (-1); (-1); (-1); (-1); (-1); (-1); (-1); (-1); (-1);
   (-1); (-1); (-1); (-1); (-1); (-1); (-1); (-1); (-1); (-1); (-1); (-1); (-1); (-1); (-1); (-1);
   (-1); (-1); (-1); (-1); (-1); (-1); (-1); (-1); (-1); (-1); (-1); (-1); (-1); (-1); (-1); (-1);
   (-1); (-1); (-1); (-1); (-1); (-1); (-1); (-1); (-1); (-1); (-1); (-1); (-1); (-1); (-1); (-1);
   (-1); (-1); (-1); (-1); (-1); (-1); (-1); (-1); (-1); (-1); (-1); (-1); (-1); (-1); (-1); (-1);
   (-1); (-1); (-1); (-1); (-1); (-1); (-1); (-1); (-1); (-1); (-1); (-1); (-1); (-1); (-1); (-1)].

(** [kDecTable[ch]] *)
Definition dec (ch : Z) : Z := nth (Z.to_nat ch) kDecTable (-1).

(** '=' or '%' *)
Definition isPadding (c : Z) : bool := (c =? 61) || (c =? 37).

(** ** Length helpers *)

Definition GetEncodedLength (bytesLength : Z) : res Z :=
  _ <- throw_if ((bytesLength <? 0) || (kMaximumEncodeLength <? bytesLength))
         (ArgumentOutOfRangeException "bytesLength"
            "Non-negative number required, and less than or equal to 1610612733.") ;;
  let remainder := Z.rem bytesLength 3 in
  n <- smul 32 (Z.quot bytesLength 3) 4 ;;
  sadd 32 n (if 0 <? remainder then remainder + 1 else 0).

Definition GetMaxDecodedLength (base64UrlLength : Z) : res Z :=
  _ <- throw_if (base64UrlLength <? 0)
         (ArgumentOutOfRangeException "base64UrlLength" "Non-negative number required.") ;;
  let remainder := Z.rem base64UrlLength 4 in
  n <- smul 32 (Z.quot base64UrlLength 4) 3 ;;
  sadd 32 n (if 0 <? remainder then remainder - 1 else 0).

(** ** Encoding *)

(** The two or three symbols of the one or two bytes left over. *)
Definition last_group (src : list Z) : res (list Z) :=
  match src with
  | [x] =>
      let b := Z.shiftl x 16 in
      Ok [symbol kEncTable b 18; symbol kEncTable b 12]
  | [x; y] =>
      let b := Z.lor (Z.shiftl x 16) (Z.shiftl y 8) in
      Ok [symbol kEncTable b 18; symbol kEncTable b 12; symbol kEncTable b 6]
  | _ => UB
  end.

Definition encodeCore (src dst : list Z) (isFinalBlock : bool) : res encoded :=
  encode_with kEncTable last_group src dst isFinalBlock.

Definition EncodeToUtf8 (bytes utf8 : list Z) (isFinalBlock : bool) : res encoded :=
  encodeCore bytes utf8 isFinalBlock.

Definition too_short : exn := ArgumentException "Destination is too short." "destination".

(** The count written, and the destination. *)
Definition EncodeToUtf8_to (source destination : list Z) : res (Z * list Z) :=
  e <- EncodeToUtf8 source destination true ;;
  if decide (e_status e = Done) then Ok (e_written e, e_dst e) else Throw too_short.

Definition EncodeToUtf8_new (source : list Z) : res (list Z) :=
  len <- GetEncodedLength (zlen source) ;;
  e <- EncodeToUtf8 source (replicate (Z.to_nat len) 0) true ;;
  Ok (e_dst e).

(** The returned flag, [bytesWritten] and the destination. *)
Definition TryEncodeToUtf8 (source destination : list Z) : res (bool * Z * list Z) :=
  e <- EncodeToUtf8 source destination true ;;
  Ok (bool_decide (e_status e = Done), e_written e, e_dst e).

(** The returned flag, [bytesWritten] and the buffer. *)
Definition TryEncodeToUtf8InPlace (buffer : list Z) (dataLength : Z) : res (bool * Z * list Z) :=
  if zlen buffer =? 0 then Ok (true, 0, buffer)
  else
    encodedLen <- GetEncodedLength dataLength ;;
    if zlen buffer <? encodedLen then Ok (false, 0, buffer)
    else
      buf <- encode_in_place kEncTable last_group buffer dataLength ;;
      Ok (true, encodedLen, buf).

Definition EncodeToChars (source destination : list Z) (isFinalBlock : bool) : res encoded :=
  encodeCore source destination isFinalBlock.
Definition EncodeToChars_to (source destination : list Z) : res (Z * list Z) :=
  e <- EncodeToChars source destination true ;;
  if decide (e_status e = Done) then Ok (e_written e, e_dst e) else Throw too_short.
Definition TryEncodeToChars (source destination : list Z) : res (bool * Z * list Z) :=
  e <- EncodeToChars source destination true ;;
  Ok (bool_decide (e_status e = Done), e_written e, e_dst e).
Definition EncodeToString (source : list Z) : res (list Z) :=
  len <- GetEncodedLength (zlen source) ;;
  e <- EncodeToChars source (replicate (Z.to_nat len) 0) true ;;
  Ok (e_dst e).

(** ** Decoding *)

(** A round of the loop returns, goes on, or breaks out at the end of the
    source. *)
Inductive step (M : Type) :=
  | Return (d : decoded M)
  | Next (c : locals) (m : M)
  | Break (c : locals) (m : M).
Arguments Return {M}.
Arguments Next {M}.
Arguments Break {M}.

Section Decode.
Context {M : Type} `{Memory M} (srcLen dstLen : Z) (isFinalBlock : bool).

(** What [fail(status)] makes of the out parameters. *)
Definition failed (status : OperationStatus) (c : locals) (m : M) : decoded M :=
  decoded_of status (failCursor c) (written c) m.

(** The loop over the padding from [si]; [None] is an invalid text. *)
Fixpoint padding (m : M) (si : Z) (n padCount : nat) : res (option nat) :=
  match n with
  | O => Ok (Some padCount)
  | S n =>
      p <- read m si ;;
      if isWhitespace p then padding m (si + 1) n padCount
      else if negb (isPadding p) then Ok None
      else if Nat.eqb padCount 2 then Ok None
      else padding m (si + 1) n (S padCount)
  end.

(** The body of the loop on the character at [si]. *)
Definition decode_char (c : locals) (m : M) : res (step M) :=
  ch <- read m (si c) ;;
  if isWhitespace ch then
    Ok (Next (locals_of (si c + 1) (di c) (vals c) (valCount c) (failCursor c) (consumed c)
                (written c)) m)
  else
    let c := locals_of (si c) (di c) (vals c) (valCount c)
               (if Nat.eqb (valCount c) 0 then si c else failCursor c) (consumed c) (written c) in
    if isPadding ch then
      if negb isFinalBlock then Ok (Return (failed InvalidData c m))
      else if Nat.ltb (valCount c) 2 then Ok (Return (failed InvalidData c m))
      else
        p <- padding m (si c) (Z.to_nat (srcLen - si c)) 0 ;;
        match p with
        | None => Ok (Return (failed InvalidData c m))
        | Some padCount =>
            if Nat.ltb 4 (valCount c + padCount) then Ok (Return (failed InvalidData c m))
            else Ok (Break (locals_of srcLen (di c) (vals c) (valCount c) (failCursor c)
                              (consumed c) (written c)) m)
        end
    else
      let v := dec ch in
      if v <? 0 then Ok (Return (failed InvalidData c m))
      else
        let c := locals_of (si c + 1) (di c) (<[valCount c := v]> (vals c)) (S (valCount c))
                   (failCursor c) (consumed c) (written c) in
        if Nat.eqb (valCount c) 4 then
          if dstLen - di c <? 3 then Ok (Return (failed DestinationTooSmall c m))
          else
            let v i := nth i (vals c) 0 in
            m <- writes m (di c) (ungroup (v 0%nat) (v 1%nat) (v 2%nat) (v 3%nat)) ;;
            Ok (Next (locals_of (si c) (di c + 3) (vals c) 0 (failCursor c) (si c) (di c + 3)) m)
        else Ok (Next c m).

Fixpoint decode_loop (fuel : nat) (c : locals) (m : M) : res (step M) :=
  match fuel with
  | O => UB
  | S fuel =>
      if si c <? srcLen then
        s <- decode_char c m ;;
        match s with
        | Next c m => decode_loop fuel c m
        | s => Ok s
        end
      else Ok (Break c m)
  end.

(** The trailing quantum, and the end. *)
Definition finish (c : locals) (m : M) : res (decoded M) :=
  let v i := nth i (vals c) 0 in
  match valCount c with
  | 0%nat => Ok (decoded_of Done (si c) (di c) m)
  | n =>
      if negb isFinalBlock then Ok (decoded_of NeedMoreData (consumed c) (written c) m)
      else
        match n with
        | 1%nat => Ok (failed InvalidData c m)
        | 2%nat =>
            if negb (Z.land (v 1%nat) 0x0F =? 0) then Ok (failed InvalidData c m)
            else if dstLen - di c <? 1 then Ok (failed DestinationTooSmall c m)
            else
              let val := Z.lor (Z.shiftl (v 0%nat) 18) (Z.shiftl (v 1%nat) 12) in
              m <- writes m (di c) [wrapu 8 (Z.shiftr val 16)] ;;
              Ok (decoded_of Done (si c) (di c + 1) m)
        | _ =>
            if negb (Z.land (v 2%nat) 0x03 =? 0) then Ok (failed InvalidData c m)
            else if dstLen - di c <? 2 then Ok (failed DestinationTooSmall c m)
            else
              let val := Z.lor (Z.lor (Z.shiftl (v 0%nat) 18) (Z.shiftl (v 1%nat) 12))
                           (Z.shiftl (v 2%nat) 6) in
              m <- writes m (di c) [wrapu 8 (Z.shiftr val 16); wrapu 8 (Z.shiftr val 8)] ;;
              Ok (decoded_of Done (si c) (di c + 2) m)
        end
  end.

(** Every round reads one character, so one more than the source has is
    enough. *)
Definition decodeCore (m : M) : res (decoded M) :=
  s <- decode_loop (S (Z.to_nat srcLen)) start m ;;
  match s with
  | Return d => Ok d
  | Next c m | Break c m => finish c m
  end.
End Decode.

Definition invalid_data : exn := FormatException
  "The input is not a valid Base-64 string as it contains a non-base 64 character, more than two padding characters, or an illegal character among the padding characters.".

Definition DecodeFromUtf8 (utf8 bytes : list Z) (isFinalBlock : bool) : res (decoded Separate) :=
  decodeCore (zlen utf8) (zlen bytes) isFinalBlock (separate utf8 bytes).

(** The count written and the destination. *)
Definition DecodeFromUtf8_to (source dst : list Z) : res (Z * list Z) :=
  d <- DecodeFromUtf8 source dst true ;;
  match d_status d with
  | Done => Ok (d_written d, destination (d_mem d))
  | DestinationTooSmall => Throw too_short
  | _ => Throw invalid_data
  end.

Definition DecodeFromUtf8_new (source : list Z) : res (list Z) :=
  upperBound <- GetMaxDecodedLength (zlen source) ;;
  d <- DecodeFromUtf8 source (replicate (Z.to_nat upperBound) 0) true ;;
  if decide (d_status d = Done)
  then Ok (take (Z.to_nat (d_written d)) (destination (d_mem d)))
  else Throw invalid_data.

Definition TryDecodeFromUtf8 (source dst : list Z) : res (bool * Z * list Z) :=
  d <- DecodeFromUtf8 source dst true ;;
  if decide (d_status d = InvalidData) then Throw invalid_data
  else Ok (bool_decide (d_status d = Done), d_written d, destination (d_mem d)).

(** The count written and the buffer. *)
Definition DecodeFromUtf8InPlace (buffer : list Z) : res (Z * list Z) :=
  d <- decodeCore (zlen buffer) (zlen buffer) true buffer ;;
  if decide (d_status d = InvalidData) then Throw invalid_data
  else Ok (d_written d, d_mem d).

Definition DecodeFromChars (chars bytes : list Z) (isFinalBlock : bool) : res (decoded Separate) :=
  decodeCore (zlen chars) (zlen bytes) isFinalBlock (separate chars bytes).
Definition DecodeFromChars_to (source dst : list Z) : res (Z * list Z) :=
  d <- DecodeFromChars source dst true ;;
  match d_status d with
  | Done => Ok (d_written d, destination (d_mem d))
  | DestinationTooSmall => Throw too_short
  | _ => Throw invalid_data
  end.
Definition TryDecodeFromChars (source dst : list Z) : res (bool * Z * list Z) :=
  d <- DecodeFromChars source dst true ;;
  if decide (d_status d = InvalidData) then Throw invalid_data
  else Ok (bool_decide (d_status d = Done), d_written d, destination (d_mem d)).
Definition DecodeFromChars_new (source : list Z) : res (list Z) :=
  upperBound <- GetMaxDecodedLength (zlen source) ;;
  d <- DecodeFromChars source (replicate (Z.to_nat upperBound) 0) true ;;
  if decide (d_status d = Done)
  then Ok (take (Z.to_nat (d_written d)) (destination (d_mem d)))
  else Throw invalid_data.

(** ** Validation *)

(** The validator's loop over the padding: the count, or nothing for
    [false]. *)
Fixpoint validate_padding (src : list Z) (padCount : nat) : option nat :=
  match src with
  | [] => Some padCount
  | p :: src =>
      if isWhitespace p then validate_padding src padCount
      else if negb (isPadding p) then None
      else if Nat.eqb padCount 2 then None
      else validate_padding src (S padCount)
  end.

(** What follows the loop of [validateCore]. *)
Definition validate_end (di : Z) (vals : list Z) (valCount : nat) : option Z :=
  if Nat.eqb valCount 1 then None
  else if Nat.eqb valCount 2 && negb (Z.land (nth 1 vals 0) 0x0F =? 0) then None
  else if Nat.eqb valCount 3 && negb (Z.land (nth 2 vals 0) 0x03 =? 0) then None
  else Some (di + (if Nat.eqb valCount 2 then 1 else if Nat.eqb valCount 3 then 2 else 0)).

(** The loop on what is left of the source: the decoded length, or nothing for
    [false]. *)
Fixpoint validate_loop (src : list Z) (di : Z) (vals : list Z) (valCount : nat) : option Z :=
  match src with
  | [] => validate_end di vals valCount
  | ch :: rest =>
      if isWhitespace ch then validate_loop rest di vals valCount
      else if isPadding ch then
        if Nat.ltb valCount 2 then None
        else
          match validate_padding src 0 with
          | None => None
          | Some padCount => if Nat.ltb 4 (valCount + padCount) then None else validate_end di vals valCount
          end
      else
        let v := dec ch in
        if v <? 0 then None
        else
          let vals := <[valCount := v]> vals in
          let valCount := S valCount in
          if Nat.eqb valCount 4 then validate_loop rest (di + 3) vals 0
          else validate_loop rest di vals valCount
  end.

(** The returned flag and [decodedLength]. *)
Definition validateCore (src : list Z) : bool * Z :=
  match validate_loop src 0 [0; 0; 0; 0] 0 with
  | Some n => (true, n)
  | None => (false, 0)
  end.

Definition IsValid (base64UrlText : list Z) : bool := fst (validateCore base64UrlText).
Definition IsValid_length (base64UrlText : list Z) : bool * Z := validateCore base64UrlText.

Definition bytes_of (s : string) : list Z := map code (str s).

Example url_decode_ex : DecodeFromUtf8_new (bytes_of "QUJD RA% =") = Ok (bytes_of "ABCD").
Proof. vm_compute. reflexivity. Qed.

Example url_in_place_ex :
  TryEncodeToUtf8InPlace (bytes_of "ABCDE...") 5 = Ok (true, 7, bytes_of "QUJDREU.").
Proof. vm_compute. reflexivity. Qed.
End Base64Url.
