(* ===== verification/Base64UrlDecode.v ===== *)
(** * Base64Url: the decoder, the validator and the encoder are correct

    The reference decoder of the unpadded alphabet with optional final padding;
    Base64Url as a [Codec]; the decoder's loop keeps [progress] and every way out
    meets the specification [delivers]; the public overloads. *)

From S2P Require Export Base64Url Base64Encoder.

#[local] Coercion Z.of_nat : nat >-> Z.

Module Base64UrlDecode.
Import Base64Url.

(** ** The reference *)

Definition sym (c : Z) : bool := 0 <=? dec c.

(** What ends a text after whole quanta: nothing, or two or three symbols whose
    last bits are zero, with at most the padding that completes them. *)
Definition tail_ref (s : list Z) : option (list Z) :=
  match s with
  | [] => Some []
  | a :: b :: r =>
      if sym a && sym b then
        match r with
        | c :: r' =>
            if sym c then
              if forallb isPadding r' && Nat.leb (length r') 1 && (dec c mod 4 =? 0)
              then Some [dec a * 4 + dec b / 16; dec b mod 16 * 16 + dec c / 4] else None
            else if forallb isPadding r && Nat.leb (length r) 2 && (dec b mod 16 =? 0)
            then Some [dec a * 4 + dec b / 16] else None
        | [] => if dec b mod 16 =? 0 then Some [dec a * 4 + dec b / 16] else None
        end
      else None
  | _ => None
  end.

(** The bytes a text without white space denotes, if it is well formed. *)
Fixpoint url_ref (s : list Z) : option (list Z) :=
  match s with
  | a :: b :: c :: d :: s' =>
      if sym a && sym b && sym c && sym d then
        option_map (app (octets (dec a) (dec b) (dec c) (dec d))) (url_ref s')
      else tail_ref s
  | _ => tail_ref s
  end.

(** ** The table *)

Lemma url_table_range : Forall (fun v => -1 <= v < 64) kDecTable.
Proof. refine (bool_decide_unpack _ _). vm_compute. exact I. Qed.

Lemma url_dec_range c : -1 <= dec c < 64.
Proof.
  unfold dec. destruct (nth_in_or_default (Z.to_nat c) kDecTable (-1)) as [H | ->]; [|lia].
  apply (proj1 (List.Forall_forall _ _) url_table_range _ H).
Qed.

Lemma url_sym_range c : sym c = true -> 0 <= dec c < 64.
Proof. unfold sym. intros H. apply Z.leb_le in H. pose proof (url_dec_range c). lia. Qed.

Lemma padding_not_sym c : isPadding c = true -> sym c = false.
Proof.
  unfold isPadding. intros H. apply orb_true_iff in H as [H|H]; apply Z.eqb_eq in H as ->; reflexivity.
Qed.

Lemma url_symbol_of v : 0 <= v < 64 ->
  dec (nth (Z.to_nat v) kEncTable 0) = v /\ isWhitespace (nth (Z.to_nat v) kEncTable 0) = false.
Proof.
  intros Hv. pose proof (proj1 (forallb_forall (fun i =>
    (dec (nth i kEncTable 0) =? Z.of_nat i) && negb (isWhitespace (nth i kEncTable 0))) (seq 0 64))
    ltac:(vm_compute; reflexivity) (Z.to_nat v)) as H.
  rewrite in_seq, Z2Nat.id in H by lia. specialize (H ltac:(lia)). bool_to_prop.
  split; [lia | done].
Qed.

(** ** The codec *)

Lemma url_ref_short s : (length s < 4)%nat -> url_ref s = tail_ref s.
Proof. destruct s as [|? [|? [|? [|]]]]; cbn [length]; (done || lia). Qed.

(** The most bytes [n] characters denote. *)
Definition maxDecoded (n : nat) : nat := (3 * (n / 4) + (n mod 4 - 1))%nat.

Lemma maxDecoded_spec n k r : (n = 4 * k + r)%nat -> (r < 4)%nat -> maxDecoded n = (3 * k + (r - 1))%nat.
Proof.
  intros Hn Hr. unfold maxDecoded.
  by rewrite <- (Nat.div_unique n 4 k r Hr Hn), <- (Nat.mod_unique n 4 k r Hr Hn).
Qed.

Lemma maxDecoded_quantum n : maxDecoded (n + 4) = (maxDecoded n + 3)%nat.
Proof.
  pose proof (Nat.div_mod_eq n 4) as E. pose proof (Nat.mod_upper_bound n 4 ltac:(done)).
  rewrite (maxDecoded_spec n (n / 4) (n mod 4)), (maxDecoded_spec (n + 4) (S (n / 4)) (n mod 4)) by lia. lia.
Qed.

Lemma maxDecoded_mono m n : (m <= n)%nat -> (maxDecoded m <= maxDecoded n)%nat.
Proof.
  intros Hmn. pose proof (Nat.div_mod_eq n 4). pose proof (Nat.mod_upper_bound n 4 ltac:(done)).
  pose proof (Nat.div_mod_eq m 4). pose proof (Nat.mod_upper_bound m 4 ltac:(done)).
  rewrite (maxDecoded_spec n (n / 4) (n mod 4)), (maxDecoded_spec m (m / 4) (m mod 4)) by lia.
  assert (m / 4 <= n / 4)%nat by (by apply Nat.Div0.div_le_mono).
  destruct (decide (m / 4 = n / 4)%nat); lia.
Qed.

Lemma tail_ref_length s bs : tail_ref s = Some bs -> (length bs <= maxDecoded (length s))%nat.
Proof.
  destruct s as [|a [|b r]]; cbn [tail_ref]; try done; [by intros [= <-]|].
  destruct (_ && _); [|done]. destruct r as [|c r].
  { destruct (_ =? 0); [|done]. intros [= <-]. cbn. lia. }
  assert (H3 : (2 <= maxDecoded (length (a :: b :: c :: r)))%nat).
  { change 2%nat with (maxDecoded 3). apply maxDecoded_mono. cbn. lia. }
  destruct (sym c); (destruct (_ && _); [|done]); intros [= <-]; cbn [length] in *; lia.
Qed.

Lemma url_quads_ind (P : list Z -> Prop) : (forall r, (length r < 4)%nat -> P r) ->
  (forall a b c d l, P l -> P (a :: b :: c :: d :: l)) -> forall l, P l.
Proof.
  intros H0 H1. fix IH 1. intros [|a [|b [|c [|d l]]]]; try (apply H0; cbn; lia). apply H1, IH.
Qed.

Lemma url_ref_length s bs : url_ref s = Some bs -> (length bs <= maxDecoded (length s))%nat.
Proof.
  revert bs. induction s as [r Hr|a b c d s IH] using url_quads_ind; intros bs.
  { rewrite url_ref_short by done. apply tail_ref_length. }
  cbn [url_ref]. destruct (sym a && sym b && sym c && sym d); [|apply tail_ref_length].
  destruct (url_ref s) as [t|] eqn:E; [|done]. cbn [option_map]. intros Hb. injection Hb as <-.
  specialize (IH t eq_refl). cbn [length app octets].
  replace (S (S (S (S (length s))))) with (length s + 4)%nat by lia. rewrite maxDecoded_quantum. lia.
Qed.

(** The symbols of the one or two bytes left over. *)
Definition tail_text (r : list Z) : list Z :=
  match r with
  | [x] => take 2 (group kEncTable x 0 0)
  | [x; y] => take 3 (group kEncTable x y 0)
  | _ => []
  end.

Lemma url_sym_of v : 0 <= v < 64 -> sym (nth (Z.to_nat v) kEncTable 0) = true.
Proof. intros Hv. unfold sym. rewrite (proj1 (url_symbol_of v Hv)). lia. Qed.

Lemma url_tail_roundtrip bs : Forall byte bs -> (0 < length bs < 3)%nat ->
  url_ref (tail_text bs) = Some bs.
Proof.
  destruct bs as [|x [|y [|]]]; cbn [length]; try lia; intros Hb _.
  - apply Forall_cons in Hb as [Hx _]. cbn [tail_text].
    rewrite group_symbols by (done || unfold byte; lia). unfold byte in *. cbn [map take].
    assert (R1 : 0 <= x mod 4 * 16 + 0 / 16 < 64) by (Z.to_euclidean_division_equations; lia).
    assert (R0 : 0 <= x / 4 < 64) by (Z.to_euclidean_division_equations; lia).
    cbn [url_ref tail_ref]. rewrite !url_sym_of by done.
    rewrite (proj1 (url_symbol_of _ R0)), (proj1 (url_symbol_of _ R1)).
    change (0 / 16) with 0. rewrite Z.add_0_r, Z.mod_mul by lia.
    cbn [Z.eqb andb]. do 2 f_equal. Z.to_euclidean_division_equations; lia.
  - apply Forall_cons in Hb as [Hx Hb]. apply Forall_cons in Hb as [Hy _]. cbn [tail_text].
    rewrite group_symbols by (done || unfold byte; lia). unfold byte in *. cbn [map take].
    assert (R0 : 0 <= x / 4 < 64) by (Z.to_euclidean_division_equations; lia).
    assert (R1 : 0 <= x mod 4 * 16 + y / 16 < 64) by (Z.to_euclidean_division_equations; lia).
    assert (R2 : 0 <= y mod 16 * 4 + 0 / 64 < 64) by (Z.to_euclidean_division_equations; lia).
    cbn [url_ref tail_ref]. rewrite !url_sym_of by done.
    rewrite (proj1 (url_symbol_of _ R0)), (proj1 (url_symbol_of _ R1)), (proj1 (url_symbol_of _ R2)).
    change (0 / 64) with 0.
    rewrite Z.add_0_r, Z.mod_mul by lia. cbn [length forallb Nat.leb Z.eqb andb].
    f_equal. f_equal; [|f_equal]; Z.to_euclidean_division_equations; lia.
Qed.

Lemma url_tail_symbols bs : Forall byte bs -> (length bs < 3)%nat -> nonws (tail_text bs) = tail_text bs.
Proof.
  destruct bs as [|x [|y [|]]]; cbn [length]; try lia; intros Hb _; [done| |].
  all: apply Forall_cons in Hb as [Hx Hb]; try (apply Forall_cons in Hb as [Hy _]); cbn [tail_text].
  all: rewrite group_symbols by (done || unfold byte; lia); unfold byte in *; cbn [map take].
  all: assert (Hn : forall v, 0 <= v < 64 -> isWhitespace (nth (Z.to_nat v) kEncTable 0) = false)
    by apply url_symbol_of.
  all: rewrite !nonws_cons, !Hn by (Z.to_euclidean_division_equations; lia); done.
Qed.

#[export, refine] Instance codec : Codec := {
  alphabet := kEncTable;
  sextet := dec;
  denotes := url_ref;
  capacity := maxDecoded;
  last_text := tail_text
}.
Proof.
  - exact url_symbol_of.
  - done.
  - intros a b c d r Ha Hb Hc Hd. cbn [url_ref]. unfold sym.
    by rewrite !(proj2 (Z.leb_le _ _)) by done.
  - exact url_ref_length.
  - exact maxDecoded_mono.
  - exact maxDecoded_quantum.
  - intros n. pose proof (Nat.div_mod_eq n 4). unfold maxDecoded. lia.
  - exact url_tail_roundtrip.
  - exact url_tail_symbols.
  - intros [|x [|y [|]]] Hl; cbn [length] in Hl; try lia; cbn; lia.
  - done.
Defined.

(** ** Texts seen from a quantum *)

Definition pending (ps : list Z) : Prop := Forall (fun a => sym a = true) ps /\ (length ps < 4)%nat.

(** A byte outside the alphabet, or padding too early. *)
Lemma spoiled ps c r : pending ps -> sym c = false -> isPadding c = false \/ (length ps < 2)%nat ->
  url_ref (ps ++ c :: r) = None.
Proof.
  intros [Hs Hl] Hc Hp. destruct ps as [|a [|b [|x [|]]]]; cbn [length] in *; try lia; cbn [app];
    repeat (apply Forall_cons in Hs as [? Hs]).
  - destruct r as [|b [|x [|y r]]]; cbn [url_ref tail_ref]; rewrite ?Hc; done.
  - destruct r as [|x [|y r]]; cbn [url_ref tail_ref]; rewrite ?Hc, ?andb_false_r; done.
  - destruct Hp as [Hp|]; [|lia].
    destruct r as [|y r]; cbn [url_ref tail_ref forallb]; rewrite Hc, Hp, ?andb_false_r; cbn [andb]; by destruct (sym a && sym b).
  - destruct Hp as [Hp|]; [|lia].
    cbn [url_ref tail_ref forallb]. rewrite Hc, Hp, !andb_false_r. cbn [andb].
    destruct (sym a && sym b), (sym x); done.
Qed.

(** The bytes of the two or three symbols that end a text. *)
Definition tail_bytes (ps : list Z) : option (list Z) :=
  match ps with
  | [a; b] => if dec b mod 16 =? 0 then Some [dec a * 4 + dec b / 16] else None
  | [a; b; c] =>
      if dec c mod 4 =? 0
      then Some [dec a * 4 + dec b / 16; dec b mod 16 * 16 + dec c / 4] else None
  | _ => None
  end.

Definition padded (ps t : list Z) : bool :=
  forallb isPadding t && Nat.leb (length ps + length t) 4.

Lemma ref_padded ps t : pending ps -> (2 <= length ps)%nat ->
  (forall c r, t = c :: r -> isPadding c = true) ->
  url_ref (ps ++ t) = if padded ps t then tail_bytes ps else None.
Proof.
  intros [Hs Hl] H2 Ht. unfold padded.
  destruct ps as [|a [|b [|x [|]]]]; cbn [length] in *; try lia; cbn [app];
    repeat (apply Forall_cons in Hs as [? Hs]).
  - destruct t as [|c t]; [cbn; by rewrite H, H0|].
    pose proof (padding_not_sym c (Ht c t eq_refl)) as Hc.
    assert (E : url_ref (a :: b :: c :: t) = tail_ref (a :: b :: c :: t)).
    { destruct t; cbn [url_ref]; [done|]. by rewrite Hc, !andb_false_r. }
    rewrite E. cbn [tail_ref length]. rewrite H, H0, Hc. cbn [andb tail_bytes].
    change (2 + S (length t) <=? 4)%nat with (S (length t) <=? 2)%nat.
    by destruct (forallb _ _ && _).
  - destruct t as [|c t]; [cbn; by rewrite H, H0, H1|].
    pose proof (padding_not_sym c (Ht c t eq_refl)) as Hc.
    cbn [url_ref tail_ref length]. rewrite Hc, !andb_false_r, H, H0, H1. cbn [andb tail_bytes].
    change (3 + S (length t) <=? 4)%nat with (S (length t) <=? 1)%nat.
    by destruct (forallb _ _ && _).
Qed.

Lemma tail_bytes_length ps bs : tail_bytes ps = Some bs -> length ps = S (length bs).
Proof.
  destruct ps as [|a [|b [|c [|]]]]; cbn [tail_bytes]; try done;
    (destruct (_ =? 0); [|done]); by intros [= <-].
Qed.

Lemma validate_padding_spec l n : (n <= 2)%nat ->
  validate_padding l n =
    if forallb isPadding (nonws l) && Nat.leb (n + length (nonws l)) 2
    then Some (n + length (nonws l))%nat else None.
Proof.
  revert n. induction l as [|c l IH]; intros n Hn; cbn [validate_padding].
  { cbn. rewrite Nat.add_0_r. by rewrite (proj2 (Nat.leb_le _ _)). }
  rewrite nonws_cons. destruct (isWhitespace c); [by apply IH|]. cbn [forallb length].
  destruct (isPadding c); cbn [negb andb]; [|done].
  replace (n + S (length (nonws l)))%nat with (S n + length (nonws l))%nat by lia.
  destruct (Nat.eqb_spec n 2) as [->|]; [|apply IH; lia].
  cbn [Nat.add Nat.leb]. by rewrite andb_false_r.
Qed.

(** Both tests of the padding together. *)
Lemma padding_ok ps l : (2 <= length ps)%nat ->
  match validate_padding l 0 with
  | None => padded ps (nonws l) = false
  | Some n => (4 <? length ps + n)%nat = negb (padded ps (nonws l))
  end.
Proof.
  intros H2. rewrite validate_padding_spec by lia. unfold padded. cbn [Nat.add].
  destruct (forallb isPadding (nonws l)); cbn [andb]; [|done].
  destruct (Nat.leb_spec (length (nonws l)) 2).
  - rewrite Nat.ltb_antisym. done.
  - apply Nat.leb_gt. lia.
Qed.

(** ** The decoder *)

Section Correct.
Context {M : Type} `{MemoryLaws M} (m0 : M) (isFinal : bool).
Abbreviation src := (source_of m0).
Abbreviation progress := (progress (source_of m0) (room m0)).
Abbreviation good_return := (good_call m0 isFinal).

(** The loop ends at the end of the source, or at padding that completes a final
    block. *)
Definition ending (p : nat) (ps : list Z) : Prop :=
  p = length src \/
  isFinal = true /\ (2 <= length ps)%nat /\ padded ps (nonws (drop p src)) = true.

Definition good (p : nat) (s : step M) : Prop :=
  match s with
  | Return d => good_return (Ok d)
  | Next c m => exists ps out, m = after m0 out /\ progress p c ps out /\ pending ps
  | Break c m => exists p c0 ps out, m = after m0 out /\ progress p c0 ps out /\ pending ps /\
      ending p ps /\
      c = locals_of (zlen src) (di c0) (vals c0) (valCount c0) (failCursor c0) (consumed c0) (written c0)
  end.

Lemma padding_loop out r k n : (length out <= r)%nat -> (r + k = length src)%nat ->
  padding (after m0 out) r k n = Ok (validate_padding (drop r src) n).
Proof.
  revert r n. induction k as [|k IH]; intros r n Ho Hr; cbn [padding].
  { by rewrite drop_ge by lia. }
  destruct (lookup_lt_is_Some_2 src r) as [ch Hch]; [lia|].
  rewrite (read_after _ _ _ ch) by done. cbn [bind]. rewrite (drop_S _ _ _ Hch).
  cbn [validate_padding]. replace (r + 1) with (Z.of_nat (S r)) by lia.
  rewrite !IH by lia. by destruct (isWhitespace ch), (isPadding ch), (Nat.eqb n 2).
Qed.

Lemma mark_pending p c ps out : progress p c ps out -> ps <> [] -> mark c = c.
Proof.
  intros Hp Hne. pose proof (pr_count _ _ _ _ _ _ Hp) as Hc. destruct c as [s d v n f k w].
  unfold mark. cbn [si di vals valCount failCursor consumed written] in *.
  destruct n; [|done]. by destruct ps.
Qed.

(** Padding at the cursor. *)
Lemma padding_good p c ps out ch : progress p c ps out -> pending ps -> src !! p = Some ch ->
  isWhitespace ch = false -> isPadding ch = true ->
  exists s, decode_char (zlen src) (room m0) isFinal c (after m0 out) = Ok s /\ good (S p) s.
Proof.
  intros Hp Hpend Hch Hw Hpd. pose proof (padding_not_sym _ Hpd) as Hs.
  destruct (take_next src p ch Hch) as [_ Hd]. rewrite Hw in Hd.
  assert (Hfail : (isFinal = true -> url_ref (ps ++ ch :: nonws (drop (S p) src)) = None) ->
    exists s, Ok (Return (failed InvalidData (mark c) (after m0 out))) = Ok s /\ good (S p) s).
  { intros Hn. eexists. split; [done|]. apply (progress_invalid m0 isFinal p c ps out ch Hp Hch Hw Hn).
    intros _. by apply Z.leb_gt. }
  unfold decode_char. rewrite (progress_read _ _ _ _ _ _ Hp Hch). cbn [bind]. rewrite Hw, Hpd.
  fold (mark c). change (valCount (mark c)) with (valCount c). rewrite (pr_count _ _ _ _ _ _ Hp).
  destruct (negb isFinal) eqn:EF; [apply negb_true_iff in EF; apply Hfail; congruence|].
  apply negb_false_iff in EF. destruct (Nat.ltb_spec (length ps) 2).
  { apply Hfail. intros _. apply spoiled; [done|done|by right]. }
  change (si (mark c)) with (si c). rewrite (pr_si _ _ _ _ _ _ Hp).
  pose proof (lookup_lt_Some _ _ _ Hch). pose proof (pr_behind _ _ _ _ _ _ Hp).
  replace (Z.to_nat (zlen src - p)) with (length src - p)%nat by lia.
  rewrite padding_loop by lia. cbn [bind].
  assert (Href : url_ref (ps ++ ch :: nonws (drop (S p) src)) =
    if padded ps (nonws (drop p src)) then tail_bytes ps else None).
  { rewrite <- Hd. apply ref_padded; [done|done|]. intros c' r E. rewrite Hd in E. by injection E as <- _. }
  pose proof (padding_ok ps (drop p src) ltac:(done)) as Hok.
  destruct (validate_padding (drop p src) 0) as [n|].
  - rewrite Hok. destruct (padded ps (nonws (drop p src))) eqn:Epd; cbn [negb]; [|by apply Hfail].
    rewrite (mark_pending _ _ _ _ Hp) by (intros ->; cbn in *; lia).
    eexists. split; [done|]. exists p, c, ps, out. repeat (split; [done|]). split; [|by rewrite (pr_count _ _ _ _ _ _ Hp)].
    by right.
  - rewrite Hok in Href. by apply Hfail.
Qed.

Lemma url_quantum_good p c a b x y out : progress p c [a; b; x; y] out ->
  Forall (fun s => sym s = true) [a; b; x; y] ->
  exists s,
    (if room m0 - di c <? 3 then Ok (Return (failed DestinationTooSmall c (after m0 out)))
     else
       m <- writes (after m0 out) (di c)
              (ungroup (nth 0 (vals c) 0) (nth 1 (vals c) 0) (nth 2 (vals c) 0) (nth 3 (vals c) 0)) ;;
       Ok (Next (locals_of (si c) (di c + 3) (vals c) 0 (failCursor c) (si c) (di c + 3)) m)) = Ok s /\
    good p s.
Proof.
  intros Hp Hs. repeat (apply Forall_cons in Hs as [?%url_sym_range Hs]).
  assert (Hv : forall i s, [a; b; x; y] !! i = Some s -> 0 <= dec s -> nth i (vals c) 0 = dec s).
  { intros i s Hi Hss. rewrite (pr_val _ _ _ _ _ _ Hp i s Hi). by apply Z.max_r. }
  rewrite (Hv 0%nat a), (Hv 1%nat b), (Hv 2%nat x), (Hv 3%nat y), ungroup_value by (done || lia).
  rewrite (pr_di _ _ _ _ _ _ Hp). destruct (Z.ltb_spec (room m0 - zlen out) 3).
  - eexists. split; [done|]. apply (progress_fail m0 isFinal p c _ out _ Hp); [done|].
    intros n Hf Hle Hd. split; [done|]. split; [apply Hp|]. split; [by apply full_ref|]. split; [done|].
    split; [lia|]. split; [left; rewrite Hd; cbn; lia|]. intros bs.
    rewrite (progress_text _ _ _ _ _ Hp). cbn [app]. rewrite denotes_quantum by (cbn [sextet codec]; lia).
    destruct (denotes _) as [t|]; [|done]. cbn [option_map]. intros Hb. injection Hb as <-.
    rewrite length_app. cbn [length octets app]. lia.
  - rewrite writes_after by (cbn [length]; lia). cbn [bind]. eexists. split; [done|].
    exists [], (out ++ octets (dec a) (dec b) (dec x) (dec y)). split; [done|].
    split; [|by split; [constructor | cbn; lia]]. rewrite <- (pr_di _ _ _ _ _ _ Hp).
    apply (progress_flush m0 p c out a b x y Hp); cbn [sextet codec]; lia.
Qed.

Lemma url_decode_char_good p c ps out : progress p c ps out -> pending ps -> (p < length src)%nat ->
  exists s, decode_char (zlen src) (room m0) isFinal c (after m0 out) = Ok s /\ good (S p) s.
Proof.
  intros Hp Hpend Hlt. destruct (lookup_lt_is_Some_2 src p Hlt) as [ch Hch].
  destruct (isWhitespace ch) eqn:Hw.
  { unfold decode_char. rewrite (progress_read _ _ _ _ _ _ Hp Hch). cbn [bind]. rewrite Hw.
    eexists. split; [done|]. exists ps, out. split; [done|]. split; [|done].
    by apply (progress_skip _ _ _ _ _ ch). }
  destruct (isPadding ch) eqn:Hpd; [by apply (padding_good p c ps out ch)|].
  unfold decode_char. rewrite (progress_read _ _ _ _ _ _ Hp Hch). cbn [bind]. rewrite Hw, Hpd.
  cbv zeta. destruct (Z.ltb_spec (dec ch) 0) as [E|E].
  { eexists. split; [done|]. apply (progress_invalid m0 isFinal p c ps out ch Hp Hch Hw); [|done].
    intros _. apply spoiled; [done| |by left]. unfold sym. apply Z.leb_gt. lia. }
  pose proof (progress_push _ _ _ _ _ _ Hp Hch Hw (proj2 Hpend)) as Hpush.
  unfold value in Hpush. cbn [sextet codec] in Hpush. rewrite Z.max_r in Hpush by done.
  fold (mark c). change (locals_of (si (mark c) + 1) _ _ _ _ _ _) with (push (skip (mark c)) (dec ch)).
  assert (Hall : Forall (fun s => sym s = true) (ps ++ [ch])).
  { apply Forall_app. split; [apply Hpend|]. constructor; [|done]. by apply Z.leb_le. }
  set (c' := push (skip (mark c)) (dec ch)) in *.
  replace (valCount c') with (length (ps ++ [ch])) by (symmetry; apply Hpush).
  destruct (Nat.eqb_spec (length (ps ++ [ch])) 4) as [E4|E4].
  - rewrite length_app in E4. cbn [length] in E4.
    destruct ps as [|a [|b [|x [|]]]]; cbn [length] in E4; try lia.
    by apply (url_quantum_good (S p) c' a b x ch out).
  - eexists. split; [done|]. exists (ps ++ [ch]), out. split; [done|]. split; [done|]. split; [done|].
    destruct Hpend as [_ Hl4]. rewrite length_app in *. cbn [length] in *. lia.
Qed.

Lemma url_decode_loop_good fuel p c ps out : progress p c ps out -> pending ps -> (length src - p < fuel)%nat ->
  exists s, decode_loop (zlen src) (room m0) isFinal fuel c (after m0 out) = Ok s /\
    good (length src) s /\ forall c m, s <> Next c m.
Proof.
  revert p c ps out. induction fuel as [|fuel IH]; intros p c ps out Hp Hpend Hfuel; [lia|].
  cbn [decode_loop]. rewrite (pr_si _ _ _ _ _ _ Hp).
  pose proof (pr_p _ _ _ _ _ _ Hp) as Hle. destruct (Z.ltb_spec p (zlen src)) as [Hlt|Hge].
  - destruct (url_decode_char_good p c ps out Hp Hpend ltac:(lia)) as (s & -> & Hg). cbn [bind].
    destruct s as [d|c' m'|c' m']; [by exists (Return d)| |by exists (Break c' m')].
    destruct Hg as (ps' & out' & -> & Hp' & Hpend'). apply (IH (S p) c' ps' out' Hp' Hpend'). lia.
  - eexists. split; [done|]. split; [|done]. exists p, c, ps, out. split; [done|]. split; [done|].
    split; [done|]. split; [left; lia|]. pose proof (pr_si _ _ _ _ _ _ Hp) as E.
    destruct c as [s d v n f k w]. cbn [si di vals valCount failCursor consumed written] in *.
    f_equal. lia.
Qed.

(** The two or three symbols that end a final block. *)
Lemma tail_good p c ps out v : progress p c ps out -> pending ps -> (2 <= length ps)%nat ->
  isFinal = true -> ending p ps ->
  let c' := locals_of (zlen src) (di c) (vals c) (valCount c) (failCursor c) (consumed c) (written c) in
  let k := zlen ps - 1 in
  (tail_bytes ps = Some v \/ tail_bytes ps = None /\ zlen v = k) ->
  good_return
    (if bool_decide (tail_bytes ps = None) then Ok (failed InvalidData c' (after m0 out))
     else if room m0 - di c' <? k then Ok (failed DestinationTooSmall c' (after m0 out))
     else m <- writes (after m0 out) (di c') v ;; Ok (decoded_of Done (si c') (di c' + k) m)).
Proof.
  intros Hp Hpend H2 EF Hend c' k Hv.
  assert (Href : url_ref (ps ++ nonws (drop p src)) = tail_bytes ps).
  { rewrite ref_padded by (done || (intros ch r E; destruct Hend as [->|(_ & _ & Hpd)];
      [by rewrite drop_ge in E by done | rewrite E in Hpd; by apply andb_true_iff in Hpd as [[? _]%andb_true_iff _]])).
    destruct Hend as [->|(_ & _ & ->)]; [|done]. rewrite drop_ge by done. unfold padded. cbn.
    rewrite Nat.add_0_r, (proj2 (Nat.leb_le _ _)); [done|]. destruct Hpend. lia. }
  assert (Hne : ps <> []) by (intros ->; cbn in H2; lia).
  change (failed ?st c' ?m) with (decoded_of st (failCursor c) (written c) m).
  destruct (bool_decide_reflect (tail_bytes ps = None)) as [E|E].
  - apply (progress_fail m0 isFinal p c ps out _ Hp Hne). intros n Hf Hle Hd.
    split; [done|]. split; [apply Hp|]. split; [by apply full_ref|]. split; [done|].
    rewrite EF, (progress_text _ _ _ _ _ Hp). change (denotes ?s) with (url_ref s). by rewrite Href, E.
  - destruct Hv as [Hv|[? _]]; [|done]. pose proof (tail_bytes_length _ _ Hv) as Hl.
    assert (Hk : zlen v = k) by (unfold k; lia).
    assert (Htext : denotes (nonws src) = Some (out ++ v)).
    { rewrite (progress_text _ _ _ _ _ Hp). change (denotes ?s) with (url_ref s). by rewrite Href, Hv. }
    cbn [c' di si]. rewrite (pr_di _ _ _ _ _ _ Hp). destruct (Z.ltb_spec (room m0 - zlen out) k).
    + apply (progress_fail m0 isFinal p c ps out _ Hp Hne). intros n Hf Hle Hd.
      split; [done|]. split; [apply Hp|]. split; [by apply full_ref|]. split; [done|].
      rewrite Htext. destruct Hpend as [_ Hpl]. split; [unfold k in *; lia|]. split; [by right|].
      intros bs [= <-]. rewrite length_app. lia.
    + rewrite writes_after by lia. cbn [bind]. rewrite <- Hk.
      apply (progress_done m0 isFinal p c ps out v Hp EF); [|lia].
      change (denotes ?s) with (url_ref s). by rewrite Href.
Qed.

Lemma finish_good p c ps out : progress p c ps out -> pending ps -> ending p ps ->
  good_return (finish (room m0) isFinal
    (locals_of (zlen src) (di c) (vals c) (valCount c) (failCursor c) (consumed c) (written c))
    (after m0 out)).
Proof.
  intros Hp Hpend Hend. unfold finish. cbn [valCount]. rewrite (pr_count _ _ _ _ _ _ Hp).
  destruct ps as [|a ps]; cbn [length].
  { destruct Hend as [->|(_ & H2 & _)]; [|cbn in H2; lia].
    cbn [si di]. rewrite <- (pr_si _ _ _ _ _ _ Hp). by apply (progress_end m0 isFinal (length src)). }
  destruct (negb isFinal) eqn:EF.
  { apply negb_true_iff in EF. destruct Hend as [->|(E & _)]; [|congruence].
    apply (progress_more m0 isFinal (length src) c (a :: ps) out Hp); try done.
    - destruct Hpend. cbn [length] in *. lia.
    - apply (Forall_impl _ _ _ (proj1 Hpend)). intros x Hx. by apply Z.leb_le. }
  apply negb_false_iff in EF. destruct ps as [|b ps]; cbn [length].
  { destruct Hend as [->|(_ & H2 & _)]; [|cbn in H2; lia].
    apply (progress_fail m0 isFinal _ c [a] out _ Hp); [done|]. intros n Hf Hle Hd.
    split; [done|]. split; [apply Hp|]. split; [by apply full_ref|]. split; [done|].
    by rewrite EF, (progress_text _ _ _ _ _ Hp), drop_ge. }
  pose proof (proj1 Hpend) as Hs. repeat (apply Forall_cons in Hs as [?%url_sym_range Hs]).
  assert (Hv : forall i s, (a :: b :: ps) !! i = Some s -> 0 <= dec s -> nth i (vals c) 0 = dec s).
  { intros i s Hi Hss. rewrite (pr_val _ _ _ _ _ _ Hp i s Hi). by apply Z.max_r. }
  cbn [vals di]. rewrite (Hv 0%nat a), (Hv 1%nat b) by (done || lia).
  destruct ps as [|x [|]]; [| |destruct Hpend; cbn [length] in *; lia]; cbn [length].
  - rewrite land_15, one_byte by lia.
    pose proof (tail_good p c [a; b] out [dec a * 4 + dec b / 16] Hp Hpend ltac:(cbn; lia) EF Hend) as Ht.
    cbn [tail_bytes length] in Ht. change (Z.of_nat 2 - 1) with 1 in Ht.
    destruct (dec b mod 16 =? 0); cbn [negb];
      [exact (Ht (or_introl eq_refl)) | exact (Ht (or_intror (conj eq_refl eq_refl)))].
  - apply Forall_cons in Hs as [?%url_sym_range Hs]. rewrite (Hv 2%nat x) by (done || lia).
    rewrite land_3, two_bytes by lia.
    pose proof (tail_good p c [a; b; x] out
      [dec a * 4 + dec b / 16; dec b mod 16 * 16 + dec x / 4] Hp Hpend ltac:(cbn; lia) EF Hend) as Ht.
    cbn [tail_bytes length] in Ht. change (Z.of_nat 3 - 1) with 2 in Ht.
    destruct (dec x mod 4 =? 0); cbn [negb];
      [exact (Ht (or_introl eq_refl)) | exact (Ht (or_intror (conj eq_refl eq_refl)))].
Qed.

Lemma url_decodeCore_good : 0 <= room m0 -> good_return (decodeCore (zlen src) (room m0) isFinal m0).
Proof.
  intros Hr. unfold decodeCore.
  destruct (url_decode_loop_good (S (Z.to_nat (zlen src))) 0 start [] [] (progress_start m0 Hr))
    as (s & Es & Hg & Hn); [by split; [|cbn; lia]|lia|].
  rewrite after_nil in Es. rewrite Es. cbn [bind]. destruct s as [d|c m|c m]; [done|by destruct (Hn c m)|].
  destruct Hg as (p & c0 & ps & out & -> & Hp & Hpend & Hend & ->). by apply (finish_good p c0 ps out).
Qed.
End Correct.

(** ** The validator *)

Lemma validate_end_spec ps vals di t : pending ps ->
  (forall i a, ps !! i = Some a -> nth i vals 0 = dec a) ->
  ((2 <= length ps)%nat /\ padded ps t = true /\ (forall c r, t = c :: r -> isPadding c = true)) \/ t = [] ->
  validate_end di vals (length ps) = option_map (fun bs => di + zlen bs) (url_ref (ps ++ t)).
Proof.
  intros Hpend Hv Ht. assert (Hr : (2 <= length ps)%nat -> url_ref (ps ++ t) = tail_bytes ps).
  { intros H2. destruct Ht as [(_ & Hp & Hc)| ->].
    - by rewrite ref_padded, Hp.
    - rewrite ref_padded by done. unfold padded. cbn [forallb length andb].
      rewrite Nat.add_0_r, (proj2 (Nat.leb_le _ _)); [done|]. destruct Hpend. lia. }
  unfold validate_end. destruct Hpend as [Hs Hl].
  destruct ps as [|a [|b [|x [|]]]]; cbn [length] in *; try lia; cbn [Nat.eqb andb].
  - destruct Ht as [[? _]| ->]; [lia|reflexivity].
  - destruct Ht as [[? _]| ->]; [lia|reflexivity].
  - rewrite Hr by lia. repeat (apply Forall_cons in Hs as [?%url_sym_range Hs]).
    rewrite (Hv 1%nat b), land_15 by (done || lia). cbn [tail_bytes].
    by destruct (dec b mod 16 =? 0).
  - rewrite Hr by lia. repeat (apply Forall_cons in Hs as [?%url_sym_range Hs]).
    rewrite (Hv 2%nat x), land_3 by (done || lia). cbn [tail_bytes].
    by destruct (dec x mod 4 =? 0).
Qed.

Lemma url_validate_loop_spec src : forall ps vals di, pending ps -> length vals = 4%nat ->
  (forall i a, ps !! i = Some a -> nth i vals 0 = dec a) ->
  validate_loop src di vals (length ps) =
    option_map (fun bs => di + zlen bs) (url_ref (ps ++ nonws src)).
Proof.
  induction src as [|ch src IH]; intros ps vals di Hpend Hlen Hv; cbn [validate_loop].
  { apply validate_end_spec; [done|done|by right]. }
  rewrite nonws_cons. destruct (isWhitespace ch) eqn:Hw; [by apply IH|].
  destruct (isPadding ch) eqn:Hpd.
  { pose proof (padding_not_sym _ Hpd) as Hs. destruct (Nat.ltb_spec (length ps) 2).
    { rewrite spoiled; [done|done|done|by right]. }
    assert (Hn : nonws (ch :: src) = ch :: nonws src) by (by rewrite nonws_cons, Hw).
    assert (Hc : forall c r, ch :: nonws src = c :: r -> isPadding c = true) by (by intros c r [= <- _]).
    pose proof (padding_ok ps (ch :: src) ltac:(done)) as Hok. rewrite Hn in Hok.
    pose proof (ref_padded ps _ Hpend ltac:(done) Hc) as Href.
    destruct (validate_padding (ch :: src) 0) as [n|].
    - rewrite Hok. destruct (padded ps (ch :: nonws src)) eqn:E; cbn [negb].
      + apply validate_end_spec; [done|done|]. by left.
      + by rewrite Href.
    - by rewrite Href, Hok. }
  cbv zeta. destruct (Z.ltb_spec (dec ch) 0) as [E|E].
  { rewrite spoiled; [done|done| |by left]. unfold sym. apply Z.leb_gt. lia. }
  assert (Hs : sym ch = true) by (by apply Z.leb_le). destruct Hpend as [Hall Hl].
  assert (Hv' : forall i a, (ps ++ [ch]) !! i = Some a -> nth i (<[length ps := dec ch]> vals) 0 = dec a).
  { intros i a Ha. rewrite nth_insert by lia. destruct (Nat.eqb_spec i (length ps)) as [->|Hn].
    - rewrite lookup_app_r, Nat.sub_diag in Ha by done. by injection Ha as ->.
    - pose proof (lookup_lt_Some _ _ _ Ha) as Hil. rewrite length_app in Hil. cbn in Hil.
      rewrite lookup_app_l in Ha by lia. by apply Hv. }
  assert (Hlen' : length (<[length ps := dec ch]> vals) = 4%nat) by (by rewrite length_insert).
  change (S (length ps) =? 4)%nat with (length ps =? 3)%nat.
  destruct (Nat.eqb_spec (length ps) 3) as [E4|E4].
  - destruct ps as [|a [|b [|x [|]]]]; try done. repeat (apply Forall_cons in Hall as [? Hall]).
    pose proof (IH [] _ (di + 3) ltac:(by split; [constructor | cbn; lia]) Hlen' ltac:(done)) as IH0.
    cbn [length app] in IH0 |- *. rewrite IH0. cbn [url_ref]. rewrite H, H0, H1, Hs. cbn [andb].
    destruct (url_ref (nonws src)); [|done]. cbn [option_map]. rewrite length_app.
    cbn [length octets]. f_equal. lia.
  - replace (S (length ps)) with (length (ps ++ [ch])) by (rewrite length_app; cbn; lia).
    rewrite IH; try done.
    + by rewrite <- app_assoc.
    + split; [|rewrite length_app; cbn; lia]. apply Forall_app. split; [done|]. by constructor.
Qed.

Lemma url_validateCore_spec src :
  validateCore src =
    match url_ref (nonws src) with Some bs => (true, zlen bs) | None => (false, 0) end.
Proof.
  unfold validateCore. change 0%nat with (length (@nil Z)).
  rewrite url_validate_loop_spec by (done || by split; [constructor | cbn; lia]). cbn [app].
  by destruct (url_ref _).
Qed.

(** ** The public overloads *)

Lemma url_last_group_text r : (0 < length r < 3)%nat -> last_group r = Ok (last_text r).
Proof.
  destruct r as [|x [|y [|]]]; cbn [length]; try lia; intros _; cbn;
    unfold group, pack; change (Z.shiftl 0 8) with 0; by rewrite !Z.lor_0_r.
Qed.

(** [n] bytes need [encodedLength n] symbols. *)
Definition encodedLength (n : Z) : Z := n / 3 * 4 + (if 0 <? n mod 3 then n mod 3 + 1 else 0).

Lemma url_text_length bs : zlen (text bs) = encodedLength (zlen bs).
Proof.
  unfold encodedLength. induction bs as [r Hr|x y z bs IH] using triples_ind.
  - destruct r as [|x [|y [|]]]; cbn [length] in Hr; try lia; reflexivity.
  - unfold text in *. cbn [encoding]. rewrite length_app, group_length, Nat2Z.inj_add, IH.
    cbn [length]. replace (Z.of_nat (S (S (S (length bs))))) with (zlen bs + 1 * 3) by lia.
    rewrite Z.div_add, Z.mod_add by lia. lia.
Qed.

Lemma url_GetEncodedLength_text (bs : list Z) : zlen bs <= kMaximumEncodeLength ->
  GetEncodedLength (zlen bs) = Ok (zlen (text bs)).
Proof.
  intros Hl. unfold GetEncodedLength. unfold kMaximumEncodeLength in *.
  rewrite (proj2 (Z.ltb_ge _ _)), (proj2 (Z.ltb_ge 1610612733 _)) by lia. cbn [throw_if orb bind].
  unfold sadd, smul. rewrite Z.quot_div_nonneg, Z.rem_mod_nonneg, schk_Ok by
    (unfold in_s; Z.to_euclidean_division_equations; lia). cbn [bind].
  rewrite url_text_length. unfold encodedLength. apply schk_Ok. unfold in_s.
  destruct (Z.ltb_spec 0 (zlen bs mod 3)); Z.to_euclidean_division_equations; lia.
Qed.

Lemma url_EncodeToUtf8_new_text (bs : list Z) : zlen bs <= kMaximumEncodeLength ->
  EncodeToUtf8_new bs = Ok (text bs).
Proof.
  intros Hl. unfold EncodeToUtf8_new. rewrite url_GetEncodedLength_text by done. cbn [bind].
  unfold EncodeToUtf8, encodeCore.
  rewrite (encode_with_done _ url_last_group_text) by (rewrite length_replicate; lia). cbn [bind e_dst].
  rewrite drop_ge, app_nil_r; [done|]. rewrite length_replicate. lia.
Qed.

Lemma TryEncodeToUtf8InPlace_text (bs rest : list Z) : zlen bs <= kMaximumEncodeLength ->
  bs ++ rest <> [] ->
  TryEncodeToUtf8InPlace (bs ++ rest) (zlen bs) =
    Ok (if zlen (text bs) <=? zlen (bs ++ rest)
        then (true, zlen (text bs), text bs ++ drop (length (text bs)) (bs ++ rest))
        else (false, 0, bs ++ rest)).
Proof.
  intros Hl Hne. unfold TryEncodeToUtf8InPlace.
  destruct (Z.eqb_spec (zlen (bs ++ rest)) 0) as [E|_].
  { destruct (bs ++ rest); [done|]. cbn in E. lia. }
  rewrite url_GetEncodedLength_text by done. cbn [bind].
  destruct (Z.ltb_spec (zlen (bs ++ rest)) (zlen (text bs))).
  - by rewrite (proj2 (Z.leb_gt _ _)).
  - rewrite (proj2 (Z.leb_le _ _)) by done. by rewrite (encode_in_place_text _ url_last_group_text).
Qed.

Lemma url_upperBound_Ok (source : list Z) : in_s 32 (zlen source) ->
  GetMaxDecodedLength (zlen source) = Ok (Z.of_nat (maxDecoded (length source))).
Proof.
  unfold in_s. intros Hl. unfold GetMaxDecodedLength.
  rewrite (proj2 (Z.ltb_ge _ _)) by lia. cbn [throw_if bind]. unfold smul, sadd.
  rewrite Z.quot_div_nonneg, Z.rem_mod_nonneg by lia.
  replace (zlen source / 4) with (Z.of_nat (length source / 4)) by (by rewrite Nat2Z.inj_div).
  replace (zlen source mod 4) with (Z.of_nat (length source mod 4)) by (by rewrite Nat2Z.inj_mod).
  pose proof (Nat.div_mod_eq (length source) 4). pose proof (Nat.mod_upper_bound (length source) 4 ltac:(done)).
  rewrite schk_Ok by (unfold in_s; lia). cbn [bind]. unfold maxDecoded.
  destruct (Z.ltb_spec 0 (length source mod 4)%nat); rewrite schk_Ok by (unfold in_s; lia); f_equal; lia.
Qed.

Lemma url_DecodeFromUtf8_good (source dst : list Z) isFinal :
  good_call (separate source dst) isFinal (DecodeFromUtf8 source dst isFinal).
Proof. exact (url_decodeCore_good (separate source dst) isFinal (Nat2Z.is_nonneg _)). Qed.

Lemma url_DecodeFromUtf8_new_ref (source : list Z) : in_s 32 (zlen source) ->
  DecodeFromUtf8_new source =
    match url_ref (nonws source) with Some bs => Ok bs | None => Throw invalid_data end.
Proof.
  intros Hl. unfold DecodeFromUtf8_new. rewrite url_upperBound_Ok by done. cbn [bind]. rewrite Nat2Z.id.
  set (dst := replicate (maxDecoded (length source)) 0).
  assert (Hroom : capacity (length source) <= zlen dst) by (unfold dst; by rewrite length_replicate).
  pose proof (separate_call source dst _ (url_DecodeFromUtf8_good source dst true) Hroom) as Hc.
  change (denotes ?s) with (url_ref s) in Hc. destruct (url_ref (nonws source)) as [bs|].
  - rewrite Hc. cbn [bind d_status d_written d_mem destination]. rewrite decide_True by done.
    by rewrite Nat2Z.id, take_app_length.
  - destruct Hc as (d & -> & Hs). cbn [bind]. by rewrite Hs.
Qed.

Lemma url_DecodeFromUtf8InPlace_ref (buffer : list Z) :
  DecodeFromUtf8InPlace buffer =
    match url_ref (nonws buffer) with
    | Some bs => Ok (zlen bs, bs ++ drop (length bs) buffer)
    | None => Throw invalid_data
    end.
Proof.
  pose proof (in_place_call buffer _ (url_decodeCore_good buffer true (Nat2Z.is_nonneg _))) as Hc.
  cbn [source_of room InPlace_laws] in Hc. change (denotes ?s) with (url_ref s) in Hc.
  unfold DecodeFromUtf8InPlace. destruct (url_ref (nonws buffer)) as [bs|].
  - by rewrite Hc.
  - destruct Hc as (d & -> & Hs). cbn [bind]. by rewrite Hs.
Qed.

(** ** Properties *)

(** The decoder, the decoder in place and the validator of [Base64Url] agree
    on every text: it is well formed exactly when it is whole groups of symbols
    and a tail of none, two or three, the dropped bits zero, the tail followed by
    at most the '=' or '%' that complete it, white space anywhere; then all give
    the bytes it denotes, and otherwise the decoders throw [FormatException] and
    [IsValid] is false.  A block that is not the last decodes its whole groups and
    leaves the rest: decoding the rest with what follows gives the same bytes. *)
Theorem Base64Url_decoders_agree (src more dst : list Z) : in_s 32 (zlen (src ++ more)) ->
  DecodeFromUtf8_new src =
    match url_ref (nonws src) with Some bs => Ok bs | None => Throw invalid_data end /\
  DecodeFromUtf8InPlace src =
    match url_ref (nonws src) with
    | Some bs => Ok (zlen bs, bs ++ drop (length bs) src)
    | None => Throw invalid_data
    end /\
  IsValid_length src =
    match url_ref (nonws src) with Some bs => (true, zlen bs) | None => (false, 0) end /\
  exists d, DecodeFromUtf8 src dst false = Ok d /\
    DecodeFromUtf8_new (src ++ more) =
      (bs <- DecodeFromUtf8_new (drop (Z.to_nat (d_consumed d)) src ++ more) ;;
       Ok (take (Z.to_nat (d_written d)) (destination (d_mem d)) ++ bs)).
Proof.
  intros Hl. assert (Hl1 : in_s 32 (zlen src)) by (unfold in_s in *; rewrite length_app in Hl; lia).
  split; [by apply url_DecodeFromUtf8_new_ref|]. split; [apply url_DecodeFromUtf8InPlace_ref|].
  split; [apply url_validateCore_spec|].
  destruct (call_streams src more dst _ (url_DecodeFromUtf8_good src dst false)) as (d & Ed & Hd).
  exists d. split; [exact Ed|]. rewrite !url_DecodeFromUtf8_new_ref.
  2:{ unfold in_s in *. rewrite !length_app, length_drop in *. lia. }
  2:{ done. }
  change (denotes ?s) with (url_ref s) in Hd. rewrite Hd.
  by destruct (url_ref (nonws (drop _ src ++ more))).
Qed.

Lemma Base64Url_decoders_agree_witness :
  DecodeFromUtf8_new (bytes_of "QUJD RA%") = Ok (bytes_of "ABCD").
Proof.
  assert (E : url_ref (nonws (bytes_of "QUJD RA%")) = Some (bytes_of "ABCD"))
    by (vm_compute; reflexivity).
  pose proof (proj1 (Base64Url_decoders_agree (bytes_of "QUJD RA%") [] [] ltac:(vm_compute; by split))) as H.
  by rewrite E in H.
Defined.

(** Base64Url round trip: every byte sequence short enough to encode encodes to
    unpadded text of the length [GetEncodedLength] says, which decodes to it again;
    the encoder in place leaves the same text in a buffer with room, and says
    false and leaves a buffer without room alone. *)
Theorem Base64Url_roundtrip (bs rest : list Z) : Forall byte bs -> zlen bs <= kMaximumEncodeLength ->
  exists t, EncodeToUtf8_new bs = Ok t /\
    zlen t = encodedLength (zlen bs) /\
    DecodeFromUtf8_new t = Ok bs /\
    (bs ++ rest <> [] ->
       TryEncodeToUtf8InPlace (bs ++ rest) (zlen bs) =
         Ok (if zlen t <=? zlen (bs ++ rest) then (true, zlen t, t ++ drop (length t) (bs ++ rest))
             else (false, 0, bs ++ rest))).
Proof.
  intros Hb Hl. exists (text bs). pose proof (url_text_length bs) as Hz.
  split; [by apply url_EncodeToUtf8_new_text|]. split; [done|]. split.
  - rewrite url_DecodeFromUtf8_new_ref.
    + change (url_ref ?s) with (denotes s). by rewrite text_roundtrip.
    + rewrite Hz. unfold in_s, kMaximumEncodeLength, encodedLength in *.
      destruct (Z.ltb_spec 0 (zlen bs mod 3)); Z.to_euclidean_division_equations; lia.
  - intros Hne. by apply TryEncodeToUtf8InPlace_text.
Qed.

Lemma Base64Url_roundtrip_witness :
  exists t, EncodeToUtf8_new (bytes_of "AB") = Ok t /\ zlen t = 3 /\
    DecodeFromUtf8_new t = Ok (bytes_of "AB").
Proof.
  destruct (Base64Url_roundtrip (bytes_of "AB") []) as (t & H1 & H2 & H3 & H4).
  - refine (bool_decide_unpack (Forall (fun b => 0 <= b < 256) _) _). vm_compute. exact I.
  - vm_compute. discriminate.
  - exists t. split; [exact H1|]. split; [exact H2 | exact H3].
Defined.
End Base64UrlDecode.
