(* ===== verification/Enumeration.v ===== *)
(** * Enumerators and mutation counters

    [collections/include/System/Collections/detail/MutationCounter.hpp] and the
    enumerator guards of [IEnumerator.hpp]: a 64-bit counter a collection advances
    on each effective mutation, the snapshot an enumerator compares with it, and
    the state that guards [Current]. *)

From S2P Require Export MachineInt.

(** [BasicMutationCounter<ulongcs>]: the unsigned value wraps. *)
Definition bump (version : Z) : Z := wrapu 64 (version + 1).

Inductive Position := BeforeFirst | AtCurrent | AfterLast.

#[export] Instance Position_eq_dec : EqDecision Position.
Proof. solve_decision. Defined.

(** [EnumeratorState::requireCurrent] *)
Definition requireCurrent (p : Position) : res unit :=
  match p with
  | BeforeFirst => Throw (InvalidOperationException "Enumeration has not started. Call MoveNext.")
  | AfterLast => Throw (InvalidOperationException "Enumeration already finished.")
  | AtCurrent => Ok tt
  end.

Definition requireUnmodified (unmodified : bool) : res unit :=
  throw_if (negb unmodified)
    (InvalidOperationException "Collection was modified; enumeration operation may not execute.").

(** ** Lemmas *)

(** A counter that has advanced fewer than [2^64] times since a snapshot differs
    from it. *)
Lemma bumps_differ (v : Z) (n : nat) : 0 < Z.of_nat n < 2 ^ 64 -> Nat.iter n bump v <> v.
Proof.
  intros Hn. assert (E : Nat.iter n bump v = (v + Z.of_nat n) mod 2 ^ 64).
  { destruct n as [|n]; [lia|]. clear Hn. induction n as [|n IH]; [done|].
    cbn [Nat.iter nat_rect] in *. unfold Nat.iter in *. rewrite IH. unfold bump at 1, wrapu.
    rewrite Z.add_mod_idemp_l by lia. f_equal. lia. }
  rewrite E. intros H. Z.to_euclidean_division_equations. lia.
Qed.
