(* ===== verification/LinkedList.v ===== *)
(** * LinkedList

    [collections/include/System/Collections/Generic/LinkedList.hpp].  Nodes are
    reference-counted objects that several handles, lists and enumerators may refer
    to, so the model is a shared store: a node or list is named by its address,
    [next] and [head_] own, [prev] and [tail_] are weak and expire with the node,
    and a node that is neither linked nor held by a handle can be freed. *)

From S2P Require Export Enumeration.
From stdpp Require Export gmap.

#[local] Open Scope Z_scope.

Module LinkedList.

(** A handle: null, or a node. *)
Abbreviation handle := (option positive).

Section LinkedList.
Context {T : Type} (equalValues : T -> T -> bool).

(** ** The store *)

(** [LinkedListNodeData<T>] *)
Record node := Node {
  item : T; owner : option positive; next : option positive; prev : option positive
}.

(** The fields of [LinkedList<T>]. *)
Record llist := List_ {
  head_ : option positive; tail_ : option positive; count_ : Z; version_ : Z
}.

(** The live nodes and lists, and the next address that has not been used. *)
Record world := World {
  nodes : gmap positive node; lists : gmap positive llist; brk : positive
}.

Definition empty_world : world := World ∅ ∅ 1.

(** Reaching through a pointer; a pointer to freed memory is undefined. *)
Definition deref (w : world) (x : positive) : res node :=
  match nodes w !! x with Some n => Ok n | None => UB end.
Definition the (w : world) (this : positive) : res llist :=
  match lists w !! this with Some l => Ok l | None => UB end.

Definition store_node (w : world) (x : positive) (n : node) : world :=
  World (<[x := n]> (nodes w)) (lists w) (brk w).
Definition store_list (w : world) (this : positive) (l : llist) : world :=
  World (nodes w) (<[this := l]> (lists w)) (brk w).

Definition set_owner (w : world) (x : positive) (o : option positive) : res world :=
  n <- deref w x ;; Ok (store_node w x (Node (item n) o (next n) (prev n))).
Definition set_next (w : world) (x : positive) (p : option positive) : res world :=
  n <- deref w x ;; Ok (store_node w x (Node (item n) (owner n) p (prev n))).
Definition set_prev (w : world) (x : positive) (p : option positive) : res world :=
  n <- deref w x ;; Ok (store_node w x (Node (item n) (owner n) (next n) p)).
Definition set_head (w : world) (this : positive) (p : option positive) : res world :=
  l <- the w this ;; Ok (store_list w this (List_ p (tail_ l) (count_ l) (version_ l))).
Definition set_tail (w : world) (this : positive) (p : option positive) : res world :=
  l <- the w this ;; Ok (store_list w this (List_ (head_ l) p (count_ l) (version_ l))).
Definition bump_version (w : world) (this : positive) : res world :=
  l <- the w this ;; Ok (store_list w this (List_ (head_ l) (tail_ l) (count_ l) (bump (version_ l)))).

(** [++count_; ++version_] and [--count_; ++version_] *)
Definition count_by (w : world) (this : positive) (d : Z) : res world :=
  l <- the w this ;;
  c <- sadd 32 (count_ l) d ;;
  Ok (store_list w this (List_ (head_ l) (tail_ l) c (bump (version_ l)))).

(** [weak_ptr::lock()] *)
Definition lock (w : world) (p : option positive) : option positive :=
  match p with
  | Some x => match nodes w !! x with Some _ => Some x | None => None end
  | None => None
  end.

(** [std::make_shared<data_t>(value)] *)
Definition make_node (w : world) (value : T) : world * positive :=
  (World (<[brk w := Node value None None None]> (nodes w)) (lists w) (Pos.succ (brk w)), brk w).

(** Reference counting: what is left when the handles [held] are the only ones a
    client still has. *)
Definition release (w : world) (held : gset positive) : world :=
  World (filter (fun xn => owner (snd xn) <> None \/ xn.1 ∈ held) (nodes w)) (lists w) (brk w).

(** ** Linking *)

Definition insertLast (w : world) (this x : positive) : res world :=
  l <- the w this ;;
  w <- match lock w (tail_ l) with
       | None => set_head w this (Some x)
       | Some last => w <- set_prev w x (Some last) ;; set_next w last (Some x)
       end ;;
  w <- set_tail w this (Some x) ;;
  w <- set_owner w x (Some this) ;;
  count_by w this 1.

Definition insertBefore (w : world) (this position x : positive) : res world :=
  p <- deref w position ;;
  let previous := lock w (prev p) in
  w <- set_next w x (Some position) ;;
  w <- set_prev w x previous ;;
  w <- set_prev w position (Some x) ;;
  w <- match previous with
       | Some y => set_next w y (Some x)
       | None => set_head w this (Some x)
       end ;;
  w <- set_owner w x (Some this) ;;
  count_by w this 1.

Definition insertAfter (w : world) (this position x : positive) : res world :=
  p <- deref w position ;;
  match next p with
  | Some y => insertBefore w this y x
  | None => insertLast w this x
  end.

Definition unlink (w : world) (this x : positive) : res world :=
  n <- deref w x ;;
  let previous := lock w (prev n) in
  w <- match previous with
       | Some y => set_next w y (next n)
       | None => set_head w this (next n)
       end ;;
  w <- match next n with
       | Some y => set_prev w y previous
       | None => set_tail w this previous
       end ;;
  w <- set_owner w x None ;;
  w <- set_next w x None ;;
  w <- set_prev w x None ;;
  count_by w this (-1).

(** The loop of [detachAll] from [current]; it visits each node once, so one more
    round than there are nodes is enough. *)
Fixpoint detach_loop (fuel : nat) (w : world) (current : option positive) : res world :=
  match fuel, current with
  | _, None => Ok w
  | O, Some _ => UB
  | S fuel, Some x =>
      n <- deref w x ;;
      detach_loop fuel (store_node w x (Node (item n) None None None)) (next n)
  end.

Definition chain_fuel (w : world) : nat := S (size (nodes w)).

Definition detachAll (w : world) (this : positive) : res world :=
  l <- the w this ;;
  let w := store_list w this (List_ None None 0 (version_ l)) in
  detach_loop (chain_fuel w) w (head_ l).

(** [for (current = other.head_; current; current = current->next)] of
    [copyNodesFrom]. *)
Fixpoint copy_loop (fuel : nat) (w : world) (this : positive) (current : option positive) : res world :=
  match fuel, current with
  | _, None => Ok w
  | O, Some _ => UB
  | S fuel, Some x =>
      n <- deref w x ;;
      let '(w, y) := make_node w (item n) in
      w <- insertLast w this y ;;
      n <- deref w x ;;
      copy_loop fuel w this (next n)
  end.

Definition copyNodesFrom (w : world) (this other : positive) : res world :=
  o <- the w other ;; copy_loop (chain_fuel w) w this (head_ o).

Fixpoint adopt_loop (fuel : nat) (w : world) (this : positive) (current : option positive) : res world :=
  match fuel, current with
  | _, None => Ok w
  | O, Some _ => UB
  | S fuel, Some x =>
      w <- set_owner w x (Some this) ;;
      n <- deref w x ;;
      adopt_loop fuel w this (next n)
  end.

Definition adoptNodesFrom (w : world) (this other : positive) : res world :=
  o <- the w other ;;
  l <- the w this ;;
  let w := store_list w this (List_ (head_ o) (tail_ o) (count_ o) (version_ l)) in
  w <- adopt_loop (chain_fuel w) w this (head_ o) ;;
  o <- the w other ;;
  Ok (store_list w other (List_ None None 0 (bump (version_ o)))).

(** ** Handles *)

(** [LinkedListNode(const T&)] *)
Definition new_node (w : world) (value : T) : res (world * handle) :=
  let '(w, x) := make_node w value in Ok (w, Some x).

Definition requireNode (w : world) (h : handle) : res node :=
  match h with None => Throw NullReferenceException | Some x => deref w x end.

Definition getValue (w : world) (h : handle) : res T := n <- requireNode w h ;; Ok (item n).

Definition setValue (w : world) (h : handle) (value : T) : res world :=
  match h with
  | None => Throw NullReferenceException
  | Some x => n <- deref w x ;; Ok (store_node w x (Node value (owner n) (next n) (prev n)))
  end.

Definition getList (w : world) (h : handle) : res (option positive) :=
  match h with None => Ok None | Some x => n <- deref w x ;; Ok (owner n) end.

Definition getNext (w : world) (h : handle) : res handle :=
  match h with None => Ok None | Some x => n <- deref w x ;; Ok (next n) end.

Definition getPrevious (w : world) (h : handle) : res handle :=
  match h with None => Ok None | Some x => n <- deref w x ;; Ok (lock w (prev n)) end.

(** [operator==(const T&)] *)
Definition equals_value (w : world) (h : handle) (other : T) : res bool :=
  match h with None => Ok false | Some x => n <- deref w x ;; Ok (equalValues (item n) other) end.

(** The handle must be a node of this list; the checked handle's address. *)
Definition validateNode (w : world) (this : positive) (h : handle) : res positive :=
  match h with
  | None => Throw (ArgumentNullException "node" "Value cannot be null.")
  | Some x =>
      n <- deref w x ;;
      if decide (owner n = Some this) then Ok x
      else Throw (InvalidOperationException "The LinkedList node does not belong to current LinkedList.")
  end.

(** The handle must be a detached node. *)
Definition validateNewNode (w : world) (h : handle) : res positive :=
  match h with
  | None => Throw (ArgumentNullException "node" "Value cannot be null.")
  | Some x =>
      n <- deref w x ;;
      if decide (owner n = None) then Ok x
      else Throw (InvalidOperationException "The LinkedList node already belongs to a LinkedList.")
  end.

(** ** Lists *)

(** [LinkedList()] *)
Definition new_list (w : world) : world * positive :=
  (World (nodes w) (<[brk w := List_ None None 0 0]> (lists w)) (Pos.succ (brk w)), brk w).

(** [~LinkedList()] *)
Definition destroy (w : world) (this : positive) : res world :=
  w <- detachAll w this ;; Ok (World (nodes w) (delete this (lists w)) (brk w)).

(** [LinkedList(const LinkedList&)], [LinkedList(LinkedList&&)] *)
Definition copy_construct (w : world) (other : positive) : res (world * positive) :=
  let '(w, this) := new_list w in
  w <- copyNodesFrom w this other ;; Ok (w, this).
Definition move_construct (w : world) (other : positive) : res (world * positive) :=
  let '(w, this) := new_list w in
  w <- adoptNodesFrom w this other ;; Ok (w, this).

(** The two assignments. *)
Definition copy_assign (w : world) (this other : positive) : res world :=
  if decide (this = other) then Ok w
  else
    w <- detachAll w this ;;
    w <- bump_version w this ;;
    copyNodesFrom w this other.
Definition move_assign (w : world) (this other : positive) : res world :=
  if decide (this = other) then Ok w
  else
    w <- detachAll w this ;;
    w <- bump_version w this ;;
    adoptNodesFrom w this other.

Definition getCount (w : world) (this : positive) : res Z := l <- the w this ;; Ok (count_ l).
Definition getFirst (w : world) (this : positive) : res handle := l <- the w this ;; Ok (head_ l).
Definition getLast (w : world) (this : positive) : res handle := l <- the w this ;; Ok (lock w (tail_ l)).

(** [if (head_) insertBefore(head_, node); else insertLast(node);] *)
Definition attach_first (w : world) (this x : positive) : res world :=
  l <- the w this ;;
  match head_ l with Some h => insertBefore w this h x | None => insertLast w this x end.

Definition AddFirst (w : world) (this : positive) (value : T) : res (world * handle) :=
  let '(w, x) := make_node w value in w <- attach_first w this x ;; Ok (w, Some x).
Definition AddFirst_node (w : world) (this : positive) (h : handle) : res world :=
  x <- validateNewNode w h ;; attach_first w this x.

Definition AddLast (w : world) (this : positive) (value : T) : res (world * handle) :=
  let '(w, x) := make_node w value in w <- insertLast w this x ;; Ok (w, Some x).
Definition AddLast_node (w : world) (this : positive) (h : handle) : res world :=
  x <- validateNewNode w h ;; insertLast w this x.

Definition AddBefore (w : world) (this : positive) (h : handle) (value : T) : res (world * handle) :=
  p <- validateNode w this h ;;
  let '(w, x) := make_node w value in w <- insertBefore w this p x ;; Ok (w, Some x).
Definition AddBefore_node (w : world) (this : positive) (h newNode : handle) : res world :=
  p <- validateNode w this h ;; x <- validateNewNode w newNode ;; insertBefore w this p x.

Definition AddAfter (w : world) (this : positive) (h : handle) (value : T) : res (world * handle) :=
  p <- validateNode w this h ;;
  let '(w, x) := make_node w value in w <- insertAfter w this p x ;; Ok (w, Some x).
Definition AddAfter_node (w : world) (this : positive) (h newNode : handle) : res world :=
  p <- validateNode w this h ;; x <- validateNewNode w newNode ;; insertAfter w this p x.

Definition empty_list : exn := InvalidOperationException "The LinkedList is empty.".

Definition RemoveFirst (w : world) (this : positive) : res world :=
  l <- the w this ;;
  match head_ l with Some x => unlink w this x | None => Throw empty_list end.
Definition RemoveLast (w : world) (this : positive) : res world :=
  l <- the w this ;;
  match lock w (tail_ l) with Some x => unlink w this x | None => Throw empty_list end.
Definition Remove_node (w : world) (this : positive) (h : handle) : res world :=
  x <- validateNode w this h ;; unlink w this x.

(** The loop that looks for a value from [current] along [step], which is [next]
    or [prev.lock()]. *)
Fixpoint search (fuel : nat) (step : world -> node -> handle) (w : world) (current : handle) (value : T)
  : res handle :=
  match fuel, current with
  | _, None => Ok None
  | O, Some _ => UB
  | S fuel, Some x =>
      n <- deref w x ;;
      if equalValues (item n) value then Ok (Some x) else search fuel step w (step w n) value
  end.

Definition Find (w : world) (this : positive) (value : T) : res handle :=
  l <- the w this ;; search (chain_fuel w) (fun _ n => next n) w (head_ l) value.
Definition FindLast (w : world) (this : positive) (value : T) : res handle :=
  l <- the w this ;; search (chain_fuel w) (fun w n => lock w (prev n)) w (lock w (tail_ l)) value.
Definition Contains (w : world) (this : positive) (value : T) : res bool :=
  h <- Find w this value ;; Ok (bool_decide (h <> None)).

Definition Remove (w : world) (this : positive) (value : T) : res (world * bool) :=
  h <- Find w this value ;;
  match h with
  | Some x => w <- unlink w this x ;; Ok (w, true)
  | None => Ok (w, false)
  end.

Definition Clear (w : world) (this : positive) : res world :=
  w <- detachAll w this ;; bump_version w this.

(** The loop of [CopyTo] from [current], and the values it writes from [index]. *)
Fixpoint copy_out (fuel : nat) (w : world) (current : handle) (dest : list T) (index : Z) : res (list T) :=
  match fuel, current with
  | _, None => Ok dest
  | O, Some _ => UB
  | S fuel, Some x =>
      n <- deref w x ;;
      if (0 <=? index) && (index <? Z.of_nat (length dest))
      then index' <- sadd 32 index 1 ;;
           copy_out fuel w (next n) (<[Z.to_nat index := item n]> dest) index'
      else UB
  end.

Definition CopyTo (w : world) (this : positive) (dest : list T) (index : Z) : res (list T) :=
  l <- the w this ;;
  _ <- throw_if (index <? 0) (ArgumentOutOfRangeException "index" "Non-negative number required.") ;;
  _ <- throw_if (Z.of_nat (length dest) <? index)
         (ArgumentOutOfRangeException "index" "Larger than collection size.") ;;
  _ <- throw_if (Z.of_nat (length dest) - index <? count_ l)
         (ArgumentException
            "Destination array is not long enough to copy all the items in the collection." "") ;;
  copy_out (chain_fuel w) w (head_ l) dest index.

(** ** Enumerators *)

Record enumerator := Enumerator {
  list_ : positive; snapshot : Z; cur_ : handle; started_ : bool; state_ : Position
}.

Definition GetEnumerator (w : world) (this : positive) : res enumerator :=
  l <- the w this ;; Ok (Enumerator this (version_ l) (head_ l) false BeforeFirst).

Definition MoveNext (w : world) (e : enumerator) : res (enumerator * bool) :=
  l <- the w (list_ e) ;;
  _ <- requireUnmodified (snapshot e =? version_ l) ;;
  if decide (state_ e = AfterLast) then Ok (e, false)
  else
    cur <- (if negb (started_ e) then Ok (cur_ e)
            else match cur_ e with Some x => n <- deref w x ;; Ok (next n) | None => Ok None end) ;;
    match cur with
    | Some _ => Ok (Enumerator (list_ e) (snapshot e) cur true AtCurrent, true)
    | None => Ok (Enumerator (list_ e) (snapshot e) cur true AfterLast, false)
    end.

Definition Reset (w : world) (e : enumerator) : res enumerator :=
  l <- the w (list_ e) ;;
  _ <- requireUnmodified (snapshot e =? version_ l) ;;
  Ok (Enumerator (list_ e) (snapshot e) (head_ l) false BeforeFirst).

Definition Current (w : world) (e : enumerator) : res T :=
  _ <- requireCurrent (state_ e) ;;
  match cur_ e with Some x => n <- deref w x ;; Ok (item n) | None => UB end.

End LinkedList.
End LinkedList.
