(* ===== verification/LinkedListStore.v ===== *)
(** * LinkedList: the store and the sequences it represents

    What it means for a store to represent one sequence of nodes per list ([wf]),
    that linking, unlinking, detaching and adopting keep it so, and that the loops
    that follow [next] visit the sequence. *)

From S2P Require Export LinkedList.

#[local] Open Scope Z_scope.

Module LinkedListStore.
Import LinkedList.

Section LinkedListStore.
Context {T : Type}.
#[local] Abbreviation node := (@LinkedList.node T).
#[local] Abbreviation world := (@LinkedList.world T).
Implicit Types w : world.

(** ** Abstract lists *)

(** Each list is its sequence of nodes with its version; each node has a value and
    the list it belongs to. *)
Record abs := Abs {
  seqs : gmap positive (list positive * Z);
  cells : gmap positive (T * option positive);
  next_address : positive
}.

(** The node before position [i]. *)
Definition before (xs : list positive) (i : nat) : option positive :=
  match i with O => None | S j => xs !! j end.

Definition header (s : list positive * Z) : llist :=
  List_ (head (fst s)) (last (fst s)) (Z.of_nat (length (fst s))) (snd s).

Definition cell (n : node) : T * option positive := (item n, owner n).

(** The nodes of [this] are linked in the order of the sequence. *)
Definition linked (ns : gmap positive node) (this : positive) (xs : list positive) : Prop :=
  forall i x, xs !! i = Some x ->
    exists v, ns !! x = Some (Node v (Some this) (xs !! S i) (before xs i)).

(** The store represents the abstract lists. *)
Record wf (w : world) (a : abs) : Prop := {
  wf_brk : brk w = next_address a;
  wf_lists : lists w = header <$> seqs a;
  wf_cells : cells a = cell <$> nodes w;
  wf_nodup this xs v : seqs a !! this = Some (xs, v) -> NoDup xs;
  wf_size this xs v : seqs a !! this = Some (xs, v) -> Z.of_nat (length xs) < 2 ^ 31;
  wf_linked this xs v : seqs a !! this = Some (xs, v) -> linked (nodes w) this xs;
  wf_owner x n : nodes w !! x = Some n ->
    match owner n with
    | Some this => exists xs v, seqs a !! this = Some (xs, v) /\ x ∈ xs
    | None => next n = None /\ prev n = None
    end;
  wf_fresh x : (brk w <= x)%positive -> nodes w !! x = None /\ lists w !! x = None
}.

(** Inserting a detached node at a position, and removing the node at one. *)
Definition insert_at (k : nat) (x : positive) (xs : list positive) : list positive :=
  take k xs ++ x :: drop k xs.

Definition attach (a : abs) (this : positive) (k : nat) (x : positive) : abs :=
  match seqs a !! this, cells a !! x with
  | Some (xs, v), Some (val, _) =>
      Abs (<[this := (insert_at k x xs, bump v)]> (seqs a)) (<[x := (val, Some this)]> (cells a))
        (next_address a)
  | _, _ => a
  end.

Definition detach (a : abs) (this : positive) (k : nat) : abs :=
  match seqs a !! this with
  | Some (xs, v) =>
      match xs !! k with
      | Some x =>
          match cells a !! x with
          | Some (val, _) =>
              Abs (<[this := (delete k xs, bump v)]> (seqs a)) (<[x := (val, None)]> (cells a))
                (next_address a)
          | None => a
          end
      | None => a
      end
  | None => a
  end.

(** Detaching every node, the version aside. *)
Definition detach_all (a : abs) (this : positive) : abs :=
  match seqs a !! this with
  | Some (xs, v) =>
      Abs (<[this := ([], v)]> (seqs a))
        (map_imap (fun x c => Some (if decide (x ∈ xs) then (c.1, None) else c)) (cells a))
        (next_address a)
  | None => a
  end.

(** ** Sequences *)

Lemma lookup_insert_at k x xs i : (k <= length xs)%nat ->
  insert_at k x xs !! i =
    if Nat.ltb i k then xs !! i else if Nat.eqb i k then Some x else xs !! (i - 1)%nat.
Proof.
  intros Hk. unfold insert_at. destruct (Nat.ltb_spec i k).
  - rewrite lookup_app_l by (rewrite length_take; lia). by rewrite lookup_take_lt.
  - rewrite lookup_app_r, length_take, Nat.min_l by (rewrite ?length_take; lia).
    destruct (Nat.eqb_spec i k) as [->|]; [by rewrite Nat.sub_diag|].
    rewrite lookup_cons_ne_0, lookup_drop by lia. f_equal. lia.
Qed.

Lemma length_insert_at k x xs : (k <= length xs)%nat -> length (insert_at k x xs) = S (length xs).
Proof. intros. unfold insert_at. rewrite length_app, length_take. cbn. rewrite length_drop. lia. Qed.

Lemma elem_of_insert_at k x xs y : y ∈ insert_at k x xs <-> y = x \/ y ∈ xs.
Proof.
  unfold insert_at. rewrite elem_of_app, elem_of_cons. rewrite <- (take_drop k xs) at 3.
  rewrite elem_of_app. tauto.
Qed.

Lemma NoDup_insert_at k x xs : x ∉ xs -> NoDup xs -> NoDup (insert_at k x xs).
Proof.
  intros Hx Hn. unfold insert_at. rewrite <- Permutation_middle, take_drop. by constructor.
Qed.

Lemma NoDup_index (xs : list positive) i j x : NoDup xs -> xs !! i = Some x -> xs !! j = Some x -> i = j.
Proof. intros Hn Hi Hj. by eapply NoDup_lookup. Qed.

(** ** Facts about a well-formed store *)

Section Facts.
Context (w : world) (a : abs) (Hwf : wf w a).

Lemma wf_the this xs v : seqs a !! this = Some (xs, v) -> the w this = Ok (header (xs, v)).
Proof. intros Hs. unfold the. by rewrite (wf_lists _ _ Hwf), lookup_fmap, Hs. Qed.

Lemma wf_the_none this : seqs a !! this = None -> the w this = UB.
Proof. intros Hs. unfold the. by rewrite (wf_lists _ _ Hwf), lookup_fmap, Hs. Qed.

Lemma wf_node x val o : cells a !! x = Some (val, o) ->
  exists nx pv, nodes w !! x = Some (Node val o nx pv).
Proof.
  rewrite (wf_cells _ _ Hwf), lookup_fmap. destruct (nodes w !! x) as [[i o' nx pv]|]; [|done].
  cbn. intros [= <- <-]. by exists nx, pv.
Qed.

Lemma wf_detached x val : cells a !! x = Some (val, None) -> nodes w !! x = Some (Node val None None None).
Proof.
  intros Hx. destruct (wf_node _ _ _ Hx) as (nx & pv & Hn). rewrite Hn.
  pose proof (wf_owner _ _ Hwf _ _ Hn) as Ho. cbn in Ho. by destruct Ho as [-> ->].
Qed.

(** A node belongs to the list whose sequence has it, and no other. *)
Lemma wf_member this xs v i x : seqs a !! this = Some (xs, v) -> xs !! i = Some x ->
  exists val, cells a !! x = Some (val, Some this) /\
    nodes w !! x = Some (Node val (Some this) (xs !! S i) (before xs i)).
Proof.
  intros Hs Hi. destruct (wf_linked _ _ Hwf _ _ _ Hs i x Hi) as (val & Hn). exists val.
  by rewrite (wf_cells _ _ Hwf), lookup_fmap, Hn.
Qed.

Lemma wf_member_elem this xs v x : seqs a !! this = Some (xs, v) -> x ∈ xs ->
  exists val, cells a !! x = Some (val, Some this).
Proof.
  intros Hs [i Hi]%list_elem_of_lookup. destruct (wf_member _ _ _ _ _ Hs Hi) as (val & Hc & _). by exists val.
Qed.

Lemma wf_cell_index x val this : cells a !! x = Some (val, Some this) ->
  exists xs v i, seqs a !! this = Some (xs, v) /\ xs !! i = Some x.
Proof.
  intros Hx. destruct (wf_node _ _ _ Hx) as (nx & pv & Hn).
  destruct (wf_owner _ _ Hwf _ _ Hn) as (xs & v & Hs & [i Hi]%list_elem_of_lookup). by exists xs, v, i.
Qed.

Lemma wf_before this xs v i : seqs a !! this = Some (xs, v) -> lock w (before xs i) = before xs i.
Proof.
  intros Hs. destruct i as [|i]; [done|]. cbn. destruct (xs !! i) as [x|] eqn:E; [|done]. cbn.
  destruct (wf_member _ _ _ _ _ Hs E) as (val & _ & ->). done.
Qed.

Lemma wf_last this xs v : seqs a !! this = Some (xs, v) -> lock w (last xs) = last xs.
Proof.
  intros Hs. rewrite last_lookup. apply (wf_before this xs v (length xs)) in Hs.
  destruct xs; [done|]. exact Hs.
Qed.
End Facts.

(** ** Linking and unlinking a node *)

Definition with_next (p : option positive) (n : node) : node := Node (item n) (owner n) p (prev n).
Definition with_prev (p : option positive) (n : node) : node := Node (item n) (owner n) (next n) p.

(** The store at [y] once [x] is linked into [this] at position [k]. *)
Definition linked_in (ns : gmap positive node) this k xs x val (y : positive) : option node :=
  if decide (y = x) then Some (Node val (Some this) (xs !! k) (before xs k))
  else if decide (before xs k = Some y) then with_next (Some x) <$> ns !! y
  else if decide (xs !! k = Some y) then with_prev (Some x) <$> ns !! y
  else ns !! y.

(** The store at [y] once the node [x] at position [k] is unlinked. *)
Definition unlinked (ns : gmap positive node) k (xs : list positive) x val (y : positive) : option node :=
  if decide (y = x) then Some (Node val None None None)
  else if decide (before xs k = Some y) then with_next (xs !! S k) <$> ns !! y
  else if decide (xs !! S k = Some y) then with_prev (before xs k) <$> ns !! y
  else ns !! y.

(** Where a sequence's nodes are, as far as one of its positions goes. *)
Lemma at_before (xs : list positive) k i y : NoDup xs -> xs !! i = Some y ->
  before xs k = Some y <-> k = S i.
Proof.
  intros Hn Hi. split.
  - destruct k as [|j]; [done|]. cbn. intros Hj. f_equal. by eapply NoDup_lookup.
  - by intros ->.
Qed.

Lemma at_index (xs : list positive) k i y : NoDup xs -> xs !! i = Some y ->
  xs !! k = Some y <-> k = i.
Proof.
  intros Hn Hi. split; [|by intros ->]. intros Hk. by eapply NoDup_lookup.
Qed.

Lemma attach_linked ns this xs k x val ns' : NoDup xs -> x ∉ xs -> (k <= length xs)%nat ->
  linked ns this xs -> (forall y, ns' !! y = linked_in ns this k xs x val y) ->
  linked ns' this (insert_at k x xs).
Proof.
  intros Hn Hx Hk Hl Hns i y Hy. rewrite lookup_insert_at in Hy by done. rewrite Hns. unfold linked_in.
  assert (Hnext : insert_at k x xs !! S i =
    if Nat.ltb (S i) k then xs !! S i else if Nat.eqb (S i) k then Some x else xs !! i).
  { rewrite lookup_insert_at by done. by rewrite Nat.sub_1_r. }
  assert (Hbefore : before (insert_at k x xs) i =
    if Nat.leb i k then before xs i else if Nat.eqb i (S k) then Some x else before xs (i - 1)).
  { destruct i as [|i]; [done|]. cbn [before]. rewrite lookup_insert_at by done.
    destruct (Nat.ltb_spec i k), (Nat.leb_spec (S i) k), (Nat.eqb_spec i k), (Nat.eqb_spec (S i) (S k)); try lia; try done.
    destruct i as [|i]; [lia|]. cbn. by rewrite Nat.sub_0_r. }
  rewrite Hnext, Hbefore. destruct (Nat.ltb_spec i k) as [Hik|Hik].
  - rewrite decide_False by (intros ->; by apply Hx, list_elem_of_lookup_2 with i).
    destruct (Hl i y Hy) as (v & Hv). exists v. rewrite Hv.
    rewrite (proj2 (Nat.leb_le i k)) by lia.
    destruct (decide (before xs k = Some y)) as [E|E].
    + apply (at_before _ _ i) in E; [|done|done]. subst k.
      by rewrite Nat.ltb_irrefl, Nat.eqb_refl.
    + rewrite decide_False by (rewrite (at_index _ _ i) by done; lia).
      rewrite (at_before _ _ i) in E by done.
      by rewrite (proj2 (Nat.ltb_lt (S i) k)) by lia.
  - destruct (Nat.eqb_spec i k) as [->|Hne].
    + injection Hy as <-. rewrite decide_True by done. exists val.
      rewrite Nat.leb_refl, (proj2 (Nat.ltb_ge (S k) k)), (proj2 (Nat.eqb_neq (S k) k)) by lia. done.
    + rewrite decide_False by (intros ->; by apply Hx, list_elem_of_lookup_2 with (i - 1)%nat).
      destruct (Hl _ y Hy) as (v & Hv). exists v. rewrite Hv.
      rewrite decide_False by (rewrite (at_before _ _ (i - 1)) by done; lia).
      rewrite (proj2 (Nat.ltb_ge (S i) k)), (proj2 (Nat.eqb_neq (S i) k)), (proj2 (Nat.leb_gt i k)) by lia.
      replace (S (i - 1)) with i by lia.
      destruct (Nat.eqb_spec i (S k)) as [->|]; [|].
      * rewrite decide_True by (rewrite (at_index _ _ (S k - 1)) by done; lia). done.
      * rewrite decide_False by (rewrite (at_index _ _ (i - 1)) by done; lia). done.
Qed.

Lemma detach_linked ns this xs k x val ns' : NoDup xs -> xs !! k = Some x ->
  linked ns this xs -> (forall y, ns' !! y = unlinked ns k xs x val y) ->
  linked ns' this (delete k xs).
Proof.
  intros Hn Hk Hl Hns i y Hy. rewrite Hns. unfold unlinked.
  assert (Hnext : delete k xs !! S i = if Nat.ltb (S i) k then xs !! S i else xs !! S (S i)).
  { destruct (Nat.ltb_spec (S i) k); [by rewrite list_lookup_delete_lt | by rewrite list_lookup_delete_ge]. }
  assert (Hbefore : before (delete k xs) i = if Nat.leb i k then before xs i else xs !! i).
  { destruct i as [|i]; [done|]. cbn [before].
    destruct (Nat.leb_spec (S i) k); [by rewrite list_lookup_delete_lt | by rewrite list_lookup_delete_ge by lia]. }
  assert (Hne : y <> x).
  { intros ->. destruct (Nat.lt_ge_cases i k) as [H|H].
    - rewrite list_lookup_delete_lt in Hy by done. pose proof (NoDup_index _ _ _ _ Hn Hy Hk). lia.
    - rewrite list_lookup_delete_ge in Hy by done. pose proof (NoDup_index _ _ _ _ Hn Hy Hk). lia. }
  rewrite decide_False, Hnext, Hbefore by done. destruct (Nat.lt_ge_cases i k) as [Hik|Hik].
  - rewrite list_lookup_delete_lt in Hy by done. destruct (Hl i y Hy) as (v & Hv). exists v. rewrite Hv.
    rewrite (proj2 (Nat.leb_le i k)) by lia. destruct (decide (before xs k = Some y)) as [E|E].
    + apply (at_before _ _ i) in E; [|done|done]. subst k. by rewrite Nat.ltb_irrefl.
    + rewrite (at_before _ _ i) in E by done.
      rewrite decide_False by (rewrite (at_index _ _ i) by done; lia).
      by rewrite (proj2 (Nat.ltb_lt (S i) k)) by lia.
  - rewrite list_lookup_delete_ge in Hy by done. destruct (Hl _ y Hy) as (v & Hv). exists v. rewrite Hv.
    rewrite decide_False by (rewrite (at_before _ _ (S i)) by done; lia).
    rewrite (proj2 (Nat.ltb_ge (S i) k)) by lia. destruct (Nat.leb_spec i k).
    + assert (i = k) as -> by lia. by rewrite decide_True by done.
    + by rewrite decide_False by (rewrite (at_index _ _ (S i)) by done; lia).
Qed.

(** Nodes of other lists and detached ones stay as they are. *)
Lemma linked_frame ns ns' this xs : linked ns this xs -> (forall x, x ∈ xs -> ns' !! x = ns !! x) ->
  linked ns' this xs.
Proof.
  intros Hl Hns i x Hx. destruct (Hl i x Hx) as (v & Hv). exists v.
  rewrite Hns; [done|]. by eapply list_elem_of_lookup_2.
Qed.

(** ** The three changes keep the store well formed *)

Lemma cells_of w a x : wf w a -> cells a !! x = cell <$> nodes w !! x.
Proof. intros Hwf. by rewrite (wf_cells _ _ Hwf), lookup_fmap. Qed.

Lemma before_elem (xs : list positive) k y : before xs k = Some y -> y ∈ xs.
Proof. destruct k; [done|]. apply list_elem_of_lookup_2. Qed.

Lemma attach_wf w a this xs v k x val ns' : wf w a ->
  seqs a !! this = Some (xs, v) -> cells a !! x = Some (val, None) -> (k <= length xs)%nat ->
  Z.of_nat (S (length xs)) < 2 ^ 31 -> (forall y, ns' !! y = linked_in (nodes w) this k xs x val y) ->
  wf (World ns' (<[this := header (insert_at k x xs, bump v)]> (lists w)) (brk w)) (attach a this k x).
Proof.
  intros Hwf Hs Hx Hk Hsz Hns. unfold attach. rewrite Hs, Hx.
  pose proof (wf_nodup _ _ Hwf _ _ _ Hs) as Hn. pose proof (wf_detached _ _ Hwf _ _ Hx) as Hxn.
  assert (Hxs : forall L ys u, seqs a !! L = Some (ys, u) -> x ∉ ys).
  { intros L ys u HL Hin. destruct (wf_member_elem _ _ Hwf _ _ _ _ HL Hin) as (? & ?). congruence. }
  assert (Hother : forall L ys u y, L <> this -> seqs a !! L = Some (ys, u) -> y ∈ ys -> y ∉ xs).
  { intros L ys u y HLt HL Hy Hin. destruct (wf_member_elem _ _ Hwf _ _ _ _ HL Hy) as (? & E1).
    destruct (wf_member_elem _ _ Hwf _ _ _ _ Hs Hin) as (? & E2). congruence. }
  assert (Hcell : forall y, cell <$> ns' !! y = if decide (y = x) then Some (val, Some this) else cells a !! y).
  { intros y. rewrite Hns, (cells_of w) by done. unfold linked_in. destruct (decide (y = x)); [done|].
    destruct (decide _); [by destruct (nodes w !! y)|]. destruct (decide _); by destruct (nodes w !! y). }
  constructor; cbn [brk lists nodes seqs cells next_address].
  - apply Hwf.
  - by rewrite (wf_lists _ _ Hwf), fmap_insert.
  - apply map_eq. intros y. rewrite lookup_fmap, Hcell. destruct (decide (y = x)) as [->|].
    + by rewrite lookup_insert_eq.
    + by rewrite lookup_insert_ne.
  - intros L ys u. rewrite lookup_insert. case_decide; [intros [= <- <-]|by apply Hwf].
    apply NoDup_insert_at; [by eapply Hxs | done].
  - intros L ys u. rewrite lookup_insert. case_decide; [intros [= <- <-]|by apply Hwf].
    by rewrite length_insert_at.
  - intros L ys u. rewrite lookup_insert. case_decide as HL.
    + subst. intros [= <- <-]. apply (attach_linked (nodes w) L xs k x val); try done.
      * by eapply Hxs.
      * by eapply wf_linked.
    + intros HLs. eapply linked_frame; [by eapply wf_linked|]. intros y Hy. rewrite Hns. unfold linked_in.
      pose proof (Hother L ys u y ltac:(done) HLs Hy) as Hny.
      rewrite decide_False by (intros ->; by eapply Hxs).
      rewrite decide_False by (by intros ?%before_elem).
      by rewrite decide_False by (by intros ?%list_elem_of_lookup_2).
  - intros y n Hy. assert (Hc : cell <$> ns' !! y = Some (cell n)) by (by rewrite Hy). rewrite Hcell in Hc.
    destruct (decide (y = x)) as [->|Hyx].
    + injection Hc as _ Ho. rewrite <- Ho. exists (insert_at k x xs), (bump v).
      rewrite lookup_insert_eq. split; [done|]. apply elem_of_insert_at. by left.
    + rewrite (cells_of w) in Hc by done. destruct (nodes w !! y) as [n0|] eqn:E; [|done].
      injection Hc as _ Ho. pose proof (wf_owner _ _ Hwf _ _ E) as HO. rewrite Ho in HO.
      destruct (owner n) as [L|] eqn:EL.
      * destruct HO as (ys & u & HLs & Hin). destruct (decide (L = this)) as [->|].
        -- exists (insert_at k x xs), (bump v). rewrite lookup_insert_eq. split; [done|].
           apply elem_of_insert_at. right. congruence.
        -- exists ys, u. by rewrite lookup_insert_ne.
      * rewrite Hns in Hy. unfold linked_in in Hy. rewrite decide_False in Hy by done.
        assert (Hny : y ∉ xs).
        { intros Hin. destruct (wf_member_elem _ _ Hwf _ _ _ _ Hs Hin) as (? & E2).
          rewrite (cells_of w), E in E2 by done. injection E2 as _ E2. congruence. }
        rewrite decide_False in Hy by (by intros ?%before_elem).
        rewrite decide_False in Hy by (by intros ?%list_elem_of_lookup_2).
        rewrite E in Hy. injection Hy as <-. done.
  - intros y Hy. destruct (wf_fresh _ _ Hwf y Hy) as [F1 F2].
    assert (Hc : cell <$> ns' !! y = None).
    { rewrite Hcell, (cells_of w), F1 by done. rewrite decide_False; [done|]. congruence. }
    split; [by destruct (ns' !! y)|]. rewrite lookup_insert_ne; [done|]. intros ->.
    by rewrite (wf_lists _ _ Hwf), lookup_fmap, Hs in F2.
Qed.

Lemma detach_wf w a this xs v k x ns' : wf w a ->
  seqs a !! this = Some (xs, v) -> xs !! k = Some x ->
  (forall val, cells a !! x = Some (val, Some this) ->
     forall y, ns' !! y = unlinked (nodes w) k xs x val y) ->
  wf (World ns' (<[this := header (delete k xs, bump v)]> (lists w)) (brk w)) (detach a this k).
Proof.
  intros Hwf Hs Hk Hns. unfold detach. rewrite Hs, Hk.
  destruct (wf_member _ _ Hwf _ _ _ _ _ Hs Hk) as (val & Hx & Hxn). rewrite Hx. specialize (Hns val Hx).
  pose proof (wf_nodup _ _ Hwf _ _ _ Hs) as Hn.
  assert (Hin : forall y, y ∈ delete k xs <-> y <> x /\ y ∈ xs).
  { intros y. rewrite !list_elem_of_lookup. split.
    - intros [i Hi]. destruct (Nat.lt_ge_cases i k).
      + rewrite list_lookup_delete_lt in Hi by done. split; [|by exists i].
        intros ->. pose proof (NoDup_index _ _ _ _ Hn Hi Hk). lia.
      + rewrite list_lookup_delete_ge in Hi by done. split; [|by exists (S i)].
        intros ->. pose proof (NoDup_index _ _ _ _ Hn Hi Hk). lia.
    - intros [Hyx [i Hi]]. destruct (Nat.lt_trichotomy i k) as [H|[H|H]].
      + exists i. by rewrite list_lookup_delete_lt.
      + congruence.
      + exists (i - 1)%nat. rewrite list_lookup_delete_ge by lia. by replace (S (i - 1)) with i by lia. }
  assert (Hcell : forall y, cell <$> ns' !! y = if decide (y = x) then Some (val, None) else cells a !! y).
  { intros y. rewrite Hns, (cells_of w) by done. unfold unlinked. destruct (decide (y = x)); [done|].
    destruct (decide _); [by destruct (nodes w !! y)|]. destruct (decide _); by destruct (nodes w !! y). }
  assert (Hkeep : forall y, y <> x -> y ∉ xs -> ns' !! y = nodes w !! y).
  { intros y Hyx Hy. rewrite Hns. unfold unlinked. rewrite decide_False by done.
    rewrite decide_False by (by intros ?%before_elem).
    by rewrite decide_False by (by intros ?%list_elem_of_lookup_2). }
  constructor; cbn [brk lists nodes seqs cells next_address].
  - apply Hwf.
  - by rewrite (wf_lists _ _ Hwf), fmap_insert.
  - apply map_eq. intros y. rewrite lookup_fmap, Hcell. destruct (decide (y = x)) as [->|].
    + by rewrite lookup_insert_eq.
    + by rewrite lookup_insert_ne.
  - intros L ys u. rewrite lookup_insert. case_decide; [intros [= <- <-]|by apply Hwf].
    eapply sublist_NoDup; [exact Hn | apply sublist_delete].
  - intros L ys u. rewrite lookup_insert. case_decide; [intros [= <- <-]|by apply Hwf].
    pose proof (wf_size _ _ Hwf _ _ _ Hs). rewrite length_delete by (by eexists). lia.
  - intros L ys u. rewrite lookup_insert. case_decide as HL.
    + subst. intros [= <- <-]. apply (detach_linked (nodes w) L xs k x val); try done. by eapply wf_linked.
    + intros HLs. eapply linked_frame; [by eapply wf_linked|]. intros y Hy.
      destruct (wf_member_elem _ _ Hwf _ _ _ _ HLs Hy) as (? & E1).
      apply Hkeep; [congruence|]. intros Hy2.
      destruct (wf_member_elem _ _ Hwf _ _ _ _ Hs Hy2) as (? & E2). congruence.
  - intros y n Hy. assert (Hc : cell <$> ns' !! y = Some (cell n)) by (by rewrite Hy). rewrite Hcell in Hc.
    destruct (decide (y = x)) as [->|Hyx].
    + rewrite Hns in Hy. unfold unlinked in Hy. rewrite decide_True in Hy by done. by injection Hy as <-.
    + rewrite (cells_of w) in Hc by done. destruct (nodes w !! y) as [n0|] eqn:E; [|done].
      injection Hc as _ Ho. pose proof (wf_owner _ _ Hwf _ _ E) as HO. rewrite Ho in HO.
      destruct (owner n) as [L|] eqn:EL.
      * destruct HO as (ys & u & HLs & Hiny). destruct (decide (L = this)) as [->|].
        -- exists (delete k xs), (bump v). rewrite lookup_insert_eq. split; [done|].
           apply Hin. split; [done|congruence].
        -- exists ys, u. by rewrite lookup_insert_ne.
      * rewrite Hkeep, E in Hy; [by injection Hy as <- | done |]. intros Hy2.
        destruct (wf_member_elem _ _ Hwf _ _ _ _ Hs Hy2) as (? & E2).
        rewrite (cells_of w), E in E2 by done. injection E2 as _ E2. congruence.
  - intros y Hy. destruct (wf_fresh _ _ Hwf y Hy) as [F1 F2].
    assert (Hc : cell <$> ns' !! y = None).
    { rewrite Hcell, (cells_of w), F1 by done. rewrite decide_False; [done|]. congruence. }
    split; [by destruct (ns' !! y)|]. rewrite lookup_insert_ne; [done|]. intros ->.
    by rewrite (wf_lists _ _ Hwf), lookup_fmap, Hs in F2.
Qed.

(** The store at [y] once every node of [xs] is detached. *)
Definition cleared (xs : list positive) (ns : gmap positive node) (y : positive) : option node :=
  if decide (y ∈ xs) then (fun n => Node (item n) None None None) <$> ns !! y else ns !! y.

Lemma detach_all_wf w a this xs v ns' : wf w a -> seqs a !! this = Some (xs, v) ->
  (forall y, ns' !! y = cleared xs (nodes w) y) ->
  wf (World ns' (<[this := header ([], v)]> (lists w)) (brk w)) (detach_all a this).
Proof.
  intros Hwf Hs Hns. unfold detach_all. rewrite Hs.
  assert (Hcell : forall y, cell <$> ns' !! y =
    (fun c => if decide (y ∈ xs) then (c.1, None) else c) <$> cells a !! y).
  { intros y. rewrite Hns, (cells_of w) by done. unfold cleared.
    destruct (decide (y ∈ xs)); by destruct (nodes w !! y). }
  constructor; cbn [brk lists nodes seqs cells next_address].
  - apply Hwf.
  - by rewrite (wf_lists _ _ Hwf), fmap_insert.
  - apply map_eq. intros y. rewrite lookup_fmap, Hcell, map_lookup_imap. by destruct (cells a !! y).
  - intros L ys u. rewrite lookup_insert. case_decide; [intros [= <- <-]; constructor|by apply Hwf].
  - intros L ys u. rewrite lookup_insert. case_decide; [by intros [= <- <-]|by apply Hwf].
  - intros L ys u. rewrite lookup_insert. case_decide as HL; [by intros [= <- <-]|].
    intros HLs. eapply linked_frame; [by eapply wf_linked|]. intros y Hy. rewrite Hns. unfold cleared.
    rewrite decide_False; [done|]. intros Hy2.
    destruct (wf_member_elem _ _ Hwf _ _ _ _ HLs Hy) as (? & E1).
    destruct (wf_member_elem _ _ Hwf _ _ _ _ Hs Hy2) as (? & E2). congruence.
  - intros y n Hy. rewrite Hns in Hy. unfold cleared in Hy. destruct (decide (y ∈ xs)) as [Hin|Hin].
    + destruct (nodes w !! y); [|done]. by injection Hy as <-.
    + pose proof (wf_owner _ _ Hwf _ _ Hy) as HO. destruct (owner n) as [L|]; [|done].
      destruct HO as (ys & u & HLs & Hiny). exists ys, u.
      rewrite lookup_insert_ne; [done|]. congruence.
  - intros y Hy. destruct (wf_fresh _ _ Hwf y Hy) as [F1 F2]. split.
    + rewrite Hns. unfold cleared. rewrite F1. by case_decide.
    + rewrite lookup_insert_ne; [done|]. intros ->. by rewrite (wf_lists _ _ Hwf), lookup_fmap, Hs in F2.
Qed.

(** Allocating a node or a list. *)
Definition allocate (a : abs) (value : T) : abs :=
  Abs (seqs a) (<[next_address a := (value, None)]> (cells a)) (Pos.succ (next_address a)).

Definition allocate_list (a : abs) : abs :=
  Abs (<[next_address a := ([], 0)]> (seqs a)) (cells a) (Pos.succ (next_address a)).

Lemma make_node_wf w a value : wf w a ->
  make_node w value = (fst (make_node w value), next_address a) /\
  wf (fst (make_node w value)) (allocate a value).
Proof.
  intros Hwf. split; [unfold make_node; by rewrite (wf_brk _ _ Hwf)|].
  destruct (wf_fresh _ _ Hwf (brk w) ltac:(lia)) as [F1 F2].
  constructor; cbn [make_node allocate fst brk lists nodes seqs cells next_address].
  - by rewrite (wf_brk _ _ Hwf).
  - apply Hwf.
  - by rewrite (wf_cells _ _ Hwf), fmap_insert, (wf_brk _ _ Hwf).
  - apply Hwf.
  - apply Hwf.
  - intros L ys u HLs. eapply linked_frame; [by eapply wf_linked|]. intros y Hy.
    rewrite lookup_insert_ne; [done|]. intros <-.
    destruct (wf_member_elem _ _ Hwf _ _ _ _ HLs Hy) as (? & E1). by rewrite (cells_of w), F1 in E1.
  - intros y n. rewrite lookup_insert. case_decide; [by intros [= <-]|]. apply Hwf.
  - intros y Hy. destruct (wf_fresh _ _ Hwf y ltac:(lia)). rewrite lookup_insert_ne by lia. done.
Qed.

Lemma new_list_wf w a : wf w a ->
  new_list w = (fst (new_list w), next_address a) /\ wf (fst (new_list w)) (allocate_list a).
Proof.
  intros Hwf. split; [unfold new_list; by rewrite (wf_brk _ _ Hwf)|].
  destruct (wf_fresh _ _ Hwf (brk w) ltac:(lia)) as [F1 F2].
  assert (F3 : seqs a !! brk w = None).
  { rewrite (wf_lists _ _ Hwf), lookup_fmap in F2. by destruct (seqs a !! brk w). }
  constructor; cbn [new_list allocate_list fst brk lists nodes seqs cells next_address].
  - by rewrite (wf_brk _ _ Hwf).
  - by rewrite (wf_lists _ _ Hwf), fmap_insert, (wf_brk _ _ Hwf).
  - apply Hwf.
  - intros L ys u. rewrite lookup_insert. case_decide; [intros [= <- <-]; constructor | apply Hwf].
  - intros L ys u. rewrite lookup_insert. case_decide; [by intros [= <- <-] | apply Hwf].
  - intros L ys u. rewrite lookup_insert. case_decide; [by intros [= <- <-] | apply Hwf].
  - intros y n Hy. pose proof (wf_owner _ _ Hwf _ _ Hy) as HO. destruct (owner n) as [L|]; [|done].
    destruct HO as (ys & u & HLs & Hin). exists ys, u. split; [|done].
    rewrite lookup_insert_ne; [done|]. rewrite <- (wf_brk _ _ Hwf). congruence.
  - intros y Hy. destruct (wf_fresh _ _ Hwf y ltac:(lia)). rewrite lookup_insert_ne by lia. done.
Qed.

(** ** Reaching through pointers to live nodes *)

Lemma deref_at w x n : nodes w !! x = Some n -> deref w x = Ok n.
Proof. unfold deref. by intros ->. Qed.

Lemma lock_at w x n : nodes w !! x = Some n -> lock w (Some x) = Some x.
Proof. cbn. by intros ->. Qed.

Lemma the_at w this l : lists w !! this = Some l -> the w this = Ok l.
Proof. unfold the. by intros ->. Qed.

Lemma set_owner_at w x n o : nodes w !! x = Some n ->
  set_owner w x o = Ok (store_node w x (Node (item n) o (next n) (prev n))).
Proof. intros H. unfold set_owner. by rewrite (deref_at _ _ _ H). Qed.

Lemma set_next_at w x n p : nodes w !! x = Some n -> set_next w x p = Ok (store_node w x (with_next p n)).
Proof. intros H. unfold set_next. by rewrite (deref_at _ _ _ H). Qed.

Lemma set_prev_at w x n p : nodes w !! x = Some n -> set_prev w x p = Ok (store_node w x (with_prev p n)).
Proof. intros H. unfold set_prev. by rewrite (deref_at _ _ _ H). Qed.

Lemma set_head_at w this l p : lists w !! this = Some l ->
  set_head w this p = Ok (store_list w this (List_ p (tail_ l) (count_ l) (version_ l))).
Proof. intros H. unfold set_head. by rewrite (the_at _ _ _ H). Qed.

Lemma set_tail_at w this l p : lists w !! this = Some l ->
  set_tail w this p = Ok (store_list w this (List_ (head_ l) p (count_ l) (version_ l))).
Proof. intros H. unfold set_tail. by rewrite (the_at _ _ _ H). Qed.

Lemma count_by_at w this l d : lists w !! this = Some l -> - 2 ^ 31 <= count_ l + d < 2 ^ 31 ->
  count_by w this d = Ok (store_list w this (List_ (head_ l) (tail_ l) (count_ l + d) (bump (version_ l)))).
Proof.
  intros Hl Hc. unfold count_by. rewrite (the_at _ _ _ Hl), bind_Ok.
  unfold sadd. by rewrite schk_Ok by exact Hc.
Qed.

(** Runs the next pointer operations of a store whose lookups are known. *)
Ltac known :=
  cbn [store_node store_list nodes lists brk];
  repeat first [ eassumption | rewrite lookup_insert_eq; reflexivity | rewrite lookup_insert_ne by congruence ].

Ltac run :=
  repeat first
    [ rewrite bind_Ok
    | erewrite deref_at by known | erewrite the_at by known
    | erewrite set_owner_at by known | erewrite set_next_at by known | erewrite set_prev_at by known
    | erewrite set_head_at by known | erewrite set_tail_at by known ];
  cbn [store_node store_list nodes lists brk item owner next prev head_ tail_ count_ version_ with_next with_prev].

(** Linking the detached node [x] into [this] at [k]: the outcome. *)
Definition attaches (w : world) (a : abs) (this : positive) (k : nat) (x : positive) (r : res world) : Prop :=
  exists w', r = Ok w' /\ wf w' (attach a this k x).

Lemma attaches_at w a this xs v k x val w' : wf w a ->
  seqs a !! this = Some (xs, v) -> cells a !! x = Some (val, None) -> (k <= length xs)%nat ->
  Z.of_nat (S (length xs)) < 2 ^ 31 ->
  (forall y, nodes w' !! y = linked_in (nodes w) this k xs x val y) ->
  (forall L, lists w' !! L = <[this := header (insert_at k x xs, bump v)]> (lists w) !! L) ->
  brk w' = brk w -> attaches w a this k x (Ok w').
Proof.
  intros Hwf Hs Hx Hk Hsz Hns Hls Hb. exists w'. split; [done|].
  destruct w' as [ns' ls' b']. cbn in *. apply map_eq in Hls as ->. subst b'. by eapply attach_wf.
Qed.

(** Decides what the two stores hold at an address. *)
Ltac same_store :=
  cbn; intros; rewrite ?lookup_insert;
  repeat (case_decide; simplify_eq/=; try congruence; try done);
  try match goal with H : ?ns !! ?y = Some _ |- context [?ns !! ?y] => by rewrite H end;
  try done.

Lemma wf_list_at w a this xs v : wf w a -> seqs a !! this = Some (xs, v) ->
  lists w !! this = Some (header (xs, v)).
Proof. intros Hwf Hs. by rewrite (wf_lists _ _ Hwf), lookup_fmap, Hs. Qed.

Lemma detached_not_in w a this xs v x val : wf w a -> seqs a !! this = Some (xs, v) ->
  cells a !! x = Some (val, None) -> x ∉ xs.
Proof. intros Hwf Hs Hx Hin. destruct (wf_member_elem _ _ Hwf _ _ _ _ Hs Hin) as (? & ?). congruence. Qed.

(** The fields of the list once a node is linked or unlinked. *)
Lemma header_insert_at k x xs v : (k <= length xs)%nat ->
  header (insert_at k x xs, v) =
  List_ (match before xs k with None => Some x | Some _ => head xs end)
    (match xs !! k with None => Some x | Some _ => last xs end) (Z.of_nat (length xs) + 1) v.
Proof.
  intros Hk. unfold header. cbn [fst snd]. rewrite length_insert_at by done. f_equal.
  - destruct k as [|k]; [done|]. cbn [before]. destruct (lookup_lt_is_Some_2 xs k) as [y ->]; [lia|].
    by rewrite !head_lookup, lookup_insert_at.
  - unfold insert_at. rewrite last_app_cons. destruct (xs !! k) as [y|] eqn:E.
    + rewrite <- (take_drop k xs) at 2. rewrite (drop_S _ _ _ E). by rewrite last_app_cons.
    + by rewrite drop_ge by (by apply lookup_ge_None_1).
  - lia.
Qed.

Lemma header_delete k x xs v : xs !! k = Some x ->
  header (delete k xs, v) =
  List_ (match before xs k with None => xs !! S k | Some _ => head xs end)
    (match xs !! S k with None => before xs k | Some _ => last xs end) (Z.of_nat (length xs) + -1) v.
Proof.
  intros Hk. pose proof (lookup_lt_Some _ _ _ Hk). unfold header. cbn [fst snd]. f_equal.
  - rewrite !head_lookup. destruct k as [|k]; [by rewrite list_lookup_delete_ge|]. cbn [before].
    destruct (lookup_lt_is_Some_2 xs k) as [y ->]; [lia|]. by rewrite list_lookup_delete_lt by lia.
  - rewrite !last_lookup, length_delete by (by eexists). destruct (xs !! S k) as [y|] eqn:E.
    + pose proof (lookup_lt_Some _ _ _ E). rewrite list_lookup_delete_ge by lia. f_equal. lia.
    + apply lookup_ge_None_1 in E. destruct k as [|k]; cbn [before].
      * apply lookup_ge_None_2. rewrite length_delete by (by eexists). lia.
      * rewrite list_lookup_delete_lt by lia. f_equal. lia.
  - rewrite length_delete by (by eexists). lia.
Qed.

Lemma last_before xs : last xs = before xs (length xs).
Proof. rewrite last_lookup. by destruct xs. Qed.

Lemma insertLast_ok w a this xs v x val : wf w a ->
  seqs a !! this = Some (xs, v) -> cells a !! x = Some (val, None) -> Z.of_nat (S (length xs)) < 2 ^ 31 ->
  attaches w a this (length xs) x (insertLast w this x).
Proof.
  intros Hwf Hs Hx Hsz. pose proof (wf_detached _ _ Hwf _ _ Hx) as Hxn.
  pose proof (wf_list_at _ _ _ _ _ Hwf Hs) as Hl. pose proof (detached_not_in _ _ _ _ _ _ _ Hwf Hs Hx) as Hxs.
  pose proof (header_insert_at (length xs) x xs (bump v) ltac:(lia)) as Hh.
  pose proof (lookup_ge_None_2 xs (length xs) ltac:(lia)) as Hend. rewrite Hend in Hh.
  unfold insertLast. rewrite (the_at _ _ _ Hl), bind_Ok. cbn [header tail_ fst snd].
  rewrite (wf_last _ _ Hwf _ _ _ Hs), last_before. destruct (before xs (length xs)) as [y|] eqn:Hy.
  - assert (Hyx : y <> x) by (intros ->; by eapply Hxs, before_elem).
    destruct (wf_member_elem _ _ Hwf _ _ _ _ Hs (before_elem _ _ _ Hy)) as (vy & Hyc).
    destruct (wf_node _ _ Hwf _ _ _ Hyc) as (ny & py & Hyn).
    run. erewrite count_by_at; [|known|cbn; lia]. run.
    eapply attaches_at; try done.
    + unfold linked_in. rewrite Hend, Hy. same_store.
    + rewrite Hh. same_store.
  - run. erewrite count_by_at; [|known|cbn; lia]. run.
    eapply attaches_at; try done.
    + unfold linked_in. rewrite Hend, Hy. same_store.
    + rewrite Hh. same_store.
Qed.

Lemma insertBefore_ok w a this xs v k p x val : wf w a ->
  seqs a !! this = Some (xs, v) -> xs !! k = Some p -> cells a !! x = Some (val, None) ->
  Z.of_nat (S (length xs)) < 2 ^ 31 ->
  attaches w a this k x (insertBefore w this p x).
Proof.
  intros Hwf Hs Hp Hx Hsz. pose proof (wf_detached _ _ Hwf _ _ Hx) as Hxn.
  pose proof (wf_list_at _ _ _ _ _ Hwf Hs) as Hl. pose proof (detached_not_in _ _ _ _ _ _ _ Hwf Hs Hx) as Hxs.
  assert (Hk : (k <= length xs)%nat) by (apply lookup_lt_Some in Hp; lia).
  pose proof (header_insert_at k x xs (bump v) Hk) as Hh. rewrite Hp in Hh.
  destruct (wf_member _ _ Hwf _ _ _ _ _ Hs Hp) as (vp & _ & Hpn).
  assert (Hpx : p <> x) by (intros ->; by eapply Hxs, list_elem_of_lookup_2).
  unfold insertBefore. rewrite (deref_at _ _ _ Hpn), bind_Ok. cbn [prev].
  rewrite (wf_before _ _ Hwf _ _ _ _ Hs). destruct (before xs k) as [y|] eqn:Hy.
  - assert (Hyx : y <> x) by (intros ->; by eapply Hxs, before_elem).
    assert (Hyp : y <> p).
    { intros ->. apply (at_before xs k k) in Hy; [lia|by eapply wf_nodup|done]. }
    destruct (wf_member_elem _ _ Hwf _ _ _ _ Hs (before_elem _ _ _ Hy)) as (vy & Hyc).
    destruct (wf_node _ _ Hwf _ _ _ Hyc) as (ny & py & Hyn).
    run. erewrite count_by_at; [|known|cbn; lia]. run.
    eapply attaches_at; try done.
    + unfold linked_in. rewrite Hp, Hy. same_store.
    + rewrite Hh. same_store.
  - run. erewrite count_by_at; [|known|cbn; lia]. run.
    eapply attaches_at; try done.
    + unfold linked_in. rewrite Hp, Hy. same_store.
    + rewrite Hh. same_store.
Qed.

Lemma insertAfter_ok w a this xs v k p x val : wf w a ->
  seqs a !! this = Some (xs, v) -> xs !! k = Some p -> cells a !! x = Some (val, None) ->
  Z.of_nat (S (length xs)) < 2 ^ 31 ->
  attaches w a this (S k) x (insertAfter w this p x).
Proof.
  intros Hwf Hs Hp Hx Hsz. destruct (wf_member _ _ Hwf _ _ _ _ _ Hs Hp) as (vp & _ & Hpn).
  unfold insertAfter. rewrite (deref_at _ _ _ Hpn), bind_Ok. cbn [next].
  destruct (xs !! S k) as [y|] eqn:E; [by eapply insertBefore_ok|].
  apply lookup_ge_None_1 in E. apply lookup_lt_Some in Hp.
  replace (S k) with (length xs) by lia. by eapply insertLast_ok.
Qed.

Lemma attach_first_ok w a this xs v x val : wf w a ->
  seqs a !! this = Some (xs, v) -> cells a !! x = Some (val, None) -> Z.of_nat (S (length xs)) < 2 ^ 31 ->
  attaches w a this 0 x (attach_first w this x).
Proof.
  intros Hwf Hs Hx Hsz. unfold attach_first. rewrite (wf_the _ _ Hwf _ _ _ Hs), bind_Ok.
  cbn [header head_ fst]. rewrite head_lookup. destruct (xs !! O) as [h|] eqn:E; [by eapply insertBefore_ok|].
  destruct xs; [|done]. by eapply (insertLast_ok w a this []).
Qed.

(** Unlinking the node at [k]: the outcome. *)
Definition detaches (w : world) (a : abs) (this : positive) (k : nat) (r : res world) : Prop :=
  exists w', r = Ok w' /\ wf w' (detach a this k).

Lemma unlink_ok w a this xs v k x : wf w a ->
  seqs a !! this = Some (xs, v) -> xs !! k = Some x -> detaches w a this k (unlink w this x).
Proof.
  intros Hwf Hs Hx. pose proof (wf_list_at _ _ _ _ _ Hwf Hs) as Hl.
  pose proof (wf_nodup _ _ Hwf _ _ _ Hs) as Hn. pose proof (wf_size _ _ Hwf _ _ _ Hs) as Hsz.
  destruct (wf_member _ _ Hwf _ _ _ _ _ Hs Hx) as (val & Hxc & Hxn).
  pose proof (header_delete k x xs (bump v) Hx) as Hh.
  assert (Hfin : forall w', (forall y, nodes w' !! y = unlinked (nodes w) k xs x val y) ->
    (forall L, lists w' !! L = <[this := header (delete k xs, bump v)]> (lists w) !! L) ->
    brk w' = brk w -> detaches w a this k (Ok w')).
  { intros [ns' ls' b'] Hns Hls Hb. cbn in *. apply map_eq in Hls as ->. subst b'.
    eexists. split; [done|]. eapply detach_wf; try done. intros val' Hv'. rewrite Hxc in Hv'.
    by injection Hv' as <-. }
  assert (Hyx : forall y, before xs k = Some y -> y <> x).
  { intros y Hy ->. apply (at_before xs k k) in Hy; [lia|done|done]. }
  assert (Hzx : forall z, xs !! S k = Some z -> z <> x).
  { intros z Hz ->. apply (at_index xs (S k) k) in Hz; [lia|done|done]. }
  assert (Hyz : forall y, before xs k = Some y -> xs !! S k <> Some y).
  { intros y Hy Hz. apply (at_before xs k (S k)) in Hy; [lia|done|done]. }
  assert (Hnode : forall y, y ∈ xs -> exists n, nodes w !! y = Some n).
  { intros y Hy. destruct (wf_member_elem _ _ Hwf _ _ _ _ Hs Hy) as (vy & Hyc).
    destruct (wf_node _ _ Hwf _ _ _ Hyc) as (ny & py & ?). by eexists. }
  assert (Hone : (1 <= length xs)%nat) by (apply lookup_lt_Some in Hx; lia).
  unfold unlink. rewrite (deref_at _ _ _ Hxn), bind_Ok. cbn [prev next].
  rewrite (wf_before _ _ Hwf _ _ _ _ Hs).
  destruct (before xs k) as [y|] eqn:Hy, (xs !! S k) as [z|] eqn:Hz.
  - destruct (Hnode y (before_elem _ _ _ Hy)) as [yn Hyn].
    destruct (Hnode z (list_elem_of_lookup_2 _ _ _ Hz)) as [zn Hzn].
    specialize (Hyx y eq_refl). specialize (Hzx z eq_refl). specialize (Hyz y eq_refl).
    assert (y <> z) by congruence.
    run. erewrite count_by_at; [|known|cbn; lia]. run.
    apply Hfin; [unfold unlinked; rewrite Hy, Hz|rewrite Hh|]; same_store.
  - destruct (Hnode y (before_elem _ _ _ Hy)) as [yn Hyn]. specialize (Hyx y eq_refl).
    run. erewrite count_by_at; [|known|cbn; lia]. run.
    apply Hfin; [unfold unlinked; rewrite Hy, Hz|rewrite Hh|]; same_store.
  - destruct (Hnode z (list_elem_of_lookup_2 _ _ _ Hz)) as [zn Hzn]. specialize (Hzx z eq_refl).
    run. erewrite count_by_at; [|known|cbn; lia]. run.
    apply Hfin; [unfold unlinked; rewrite Hy, Hz|rewrite Hh|]; same_store.
  - run. erewrite count_by_at; [|known|cbn; lia]. run.
    apply Hfin; [unfold unlinked; rewrite Hy, Hz|rewrite Hh|]; same_store.
Qed.

(** ** Loops along a list *)

(** Following [next] from the head of [ys] visits [ys]. *)
Definition chained (ns : gmap positive node) (ys : list positive) : Prop :=
  forall i x, ys !! i = Some x -> exists n, ns !! x = Some n /\ next n = ys !! S i.

Lemma chained_cons ns x ys : chained ns (x :: ys) ->
  (exists n, ns !! x = Some n /\ next n = head ys) /\ chained ns ys.
Proof.
  intros H. split; [|intros i; exact (H (S i))].
  destruct (H O x eq_refl) as (n & Hn & Hx). exists n. by rewrite head_lookup.
Qed.

Lemma wf_chained w a this xs v : wf w a -> seqs a !! this = Some (xs, v) -> chained (nodes w) xs.
Proof.
  intros Hwf Hs i x Hx. destruct (wf_linked _ _ Hwf _ _ _ Hs i x Hx) as (val & Hn).
  eexists. split; [exact Hn|done].
Qed.

(** A list has no more nodes than the store. *)
Lemma wf_chain_fuel w a this xs v : wf w a -> seqs a !! this = Some (xs, v) ->
  (length xs < chain_fuel w)%nat.
Proof.
  intros Hwf Hs. unfold chain_fuel. apply Nat.lt_succ_r.
  rewrite <- size_dom, <- (size_list_to_set (C := gset positive) xs) by (by eapply wf_nodup).
  apply subseteq_size. intros x. rewrite elem_of_list_to_set, elem_of_dom. intros Hx.
  destruct (wf_member_elem _ _ Hwf _ _ _ _ Hs Hx) as (val & Hc).
  destruct (wf_node _ _ Hwf _ _ _ Hc) as (nx & pv & Hn). by eexists.
Qed.

Lemma detach_loop_ok ys : forall fuel w, NoDup ys -> chained (nodes w) ys -> (length ys <= fuel)%nat ->
  exists w', detach_loop fuel w (head ys) = Ok w' /\ lists w' = lists w /\ brk w' = brk w /\
    forall y, nodes w' !! y = cleared ys (nodes w) y.
Proof.
  induction ys as [|x ys IH]; intros fuel w Hn Hc Hf.
  { exists w. split; [by destruct fuel|]. done. }
  apply NoDup_cons in Hn as [Hx Hn]. destruct fuel as [|fuel]; [cbn in Hf; lia|].
  apply chained_cons in Hc as [(n & Hxn & Hnx) Hc]. cbn [head detach_loop].
  rewrite (deref_at _ _ _ Hxn), bind_Ok, Hnx.
  destruct (IH fuel (store_node w x (Node (item n) None None None))) as (w' & E & El & Eb & Hns);
    [done| |cbn in Hf; lia|].
  { intros i y Hy. destruct (Hc i y Hy) as (m & Hm & ?). exists m. cbn.
    rewrite lookup_insert_ne; [done|]. intros ->. by apply Hx, list_elem_of_lookup_2 with i. }
  exists w'. split; [exact E|]. split; [done|]. split; [done|]. intros y. rewrite Hns. unfold cleared.
  cbn [store_node nodes]. destruct (decide (y = x)) as [->|Hyx].
  - rewrite decide_False, lookup_insert_eq by done. rewrite decide_True by constructor. by rewrite Hxn.
  - rewrite lookup_insert_ne by done. destruct (decide (y ∈ ys)).
    + by rewrite decide_True by (by constructor).
    + by rewrite decide_False by (by intros [|]%elem_of_cons).
Qed.

Lemma detachAll_ok w a this xs v : wf w a -> seqs a !! this = Some (xs, v) ->
  exists w', detachAll w this = Ok w' /\ wf w' (detach_all a this).
Proof.
  intros Hwf Hs. unfold detachAll. rewrite (wf_the _ _ Hwf _ _ _ Hs), bind_Ok. cbn [header head_ version_ fst snd].
  destruct (detach_loop_ok xs (chain_fuel w) (store_list w this (List_ None None 0 v)))
    as (w' & E & El & Eb & Hns).
  - by eapply wf_nodup.
  - exact (wf_chained _ _ _ _ _ Hwf Hs).
  - pose proof (wf_chain_fuel _ _ _ _ _ Hwf Hs). lia.
  - exists w'. split; [exact E|]. destruct w' as [ns' ls' b']. cbn in El, Eb, Hns. subst.
    by eapply (detach_all_wf w a this xs v).
Qed.

(** ** Adopting the nodes of another list *)

Definition adopted (os : list positive) (this : positive) (ns : gmap positive node) (y : positive) : option node :=
  if decide (y ∈ os) then (fun n => Node (item n) (Some this) (next n) (prev n)) <$> ns !! y else ns !! y.

Lemma adopt_loop_ok this ys : forall fuel w, NoDup ys -> chained (nodes w) ys -> (length ys <= fuel)%nat ->
  exists w', adopt_loop fuel w this (head ys) = Ok w' /\ lists w' = lists w /\ brk w' = brk w /\
    forall y, nodes w' !! y = adopted ys this (nodes w) y.
Proof.
  induction ys as [|x ys IH]; intros fuel w Hn Hc Hf.
  { exists w. split; [by destruct fuel|]. done. }
  apply NoDup_cons in Hn as [Hx Hn]. destruct fuel as [|fuel]; [cbn in Hf; lia|].
  apply chained_cons in Hc as [([i o nx pv] & Hxn & Hnx) Hc]. cbn in Hnx. subst nx. cbn [head adopt_loop].
  erewrite set_owner_at by exact Hxn. rewrite bind_Ok. erewrite deref_at by known.
  rewrite bind_Ok. cbn [next item owner prev].
  destruct (IH fuel (store_node w x (Node i (Some this) (head ys) pv))) as (w' & E & El & Eb & Hns);
    [done| |cbn in Hf; lia|].
  { intros j y Hy. destruct (Hc j y Hy) as (m & Hm & ?). exists m. cbn.
    rewrite lookup_insert_ne; [done|]. intros ->. by apply Hx, list_elem_of_lookup_2 with j. }
  exists w'. split; [exact E|]. split; [done|]. split; [done|].
  intros y. rewrite Hns. unfold adopted.
  cbn [store_node nodes]. destruct (decide (y = x)) as [->|Hyx].
  - rewrite decide_False, lookup_insert_eq by done. rewrite decide_True by constructor. by rewrite Hxn.
  - rewrite lookup_insert_ne by done. destruct (decide (y ∈ ys)).
    + by rewrite decide_True by (by constructor).
    + by rewrite decide_False by (by intros [|]%elem_of_cons).
Qed.

(** Giving the nodes of [other] to the empty list [this]. *)
Definition adopt (a : abs) (this other : positive) : abs :=
  match seqs a !! this, seqs a !! other with
  | Some (_, v), Some (os, ov) =>
      Abs (<[other := ([], bump ov)]> (<[this := (os, v)]> (seqs a)))
        (map_imap (fun x c => Some (if decide (x ∈ os) then (c.1, Some this) else c)) (cells a))
        (next_address a)
  | _, _ => a
  end.

Lemma adopt_wf w a this other v os ov ns' : wf w a -> this <> other ->
  seqs a !! this = Some ([], v) -> seqs a !! other = Some (os, ov) ->
  (forall y, ns' !! y = adopted os this (nodes w) y) ->
  wf (World ns' (<[other := header ([], bump ov)]> (<[this := header (os, v)]> (lists w))) (brk w))
    (adopt a this other).
Proof.
  intros Hwf Hne Hs Ho Hns. unfold adopt. rewrite Hs, Ho.
  assert (Hcell : forall y, cell <$> ns' !! y =
    (fun c => if decide (y ∈ os) then (c.1, Some this) else c) <$> cells a !! y).
  { intros y. rewrite Hns, (cells_of w) by done. unfold adopted.
    destruct (decide (y ∈ os)); by destruct (nodes w !! y). }
  assert (Hcase : forall L ys u, <[other := ([], bump ov)]> (<[this := (os, v)]> (seqs a)) !! L = Some (ys, u) ->
    ys = [] \/ L = this /\ ys = os \/ (L <> this /\ L <> other /\ seqs a !! L = Some (ys, u))).
  { intros L ys u. rewrite !lookup_insert. repeat case_decide; intros; simplify_eq; auto. }
  constructor; cbn [brk lists nodes seqs cells next_address].
  - apply Hwf.
  - by rewrite (wf_lists _ _ Hwf), !fmap_insert.
  - apply map_eq. intros y. rewrite lookup_fmap, Hcell, map_lookup_imap. by destruct (cells a !! y).
  - intros L ys u [->|[[-> ->]|(_ & _ & HL)]]%Hcase; [constructor| |]; by eapply wf_nodup.
  - intros L ys u [->|[[-> ->]|(_ & _ & HL)]]%Hcase; [done| |]; by eapply wf_size.
  - intros L ys u [->|[[-> ->]|(HLt & HLo & HL)]]%Hcase; [done| |].
    + intros i x Hx. destruct (wf_linked _ _ Hwf _ _ _ Ho i x Hx) as (val & Hn). exists val.
      rewrite Hns. unfold adopted. by rewrite decide_True, Hn by (by eapply list_elem_of_lookup_2).
    + eapply linked_frame; [by eapply wf_linked|]. intros y Hy. rewrite Hns. unfold adopted.
      rewrite decide_False; [done|]. intros Hy2.
      destruct (wf_member_elem _ _ Hwf _ _ _ _ HL Hy) as (? & E1).
      destruct (wf_member_elem _ _ Hwf _ _ _ _ Ho Hy2) as (? & E2). congruence.
  - intros y n Hy. rewrite Hns in Hy. unfold adopted in Hy. destruct (decide (y ∈ os)) as [Hin|Hin].
    + destruct (nodes w !! y); [|done]. injection Hy as <-. exists os, v.
      by rewrite lookup_insert_ne, lookup_insert_eq.
    + pose proof (wf_owner _ _ Hwf _ _ Hy) as HO. destruct (owner n) as [L|]; [|done].
      destruct HO as (ys & u & HLs & Hiny). exists ys, u.
      rewrite !lookup_insert_ne; [done| |]; intros <-; rewrite ?Hs, ?Ho in HLs; simplify_eq. by apply not_elem_of_nil in Hiny.
  - intros y Hy. destruct (wf_fresh _ _ Hwf y Hy) as [F1 F2]. split.
    + rewrite Hns. unfold adopted. rewrite F1. by case_decide.
    + rewrite (wf_lists _ _ Hwf), lookup_fmap in F2. rewrite !lookup_insert_ne; [|intros ->..].
      * by rewrite (wf_lists _ _ Hwf), lookup_fmap.
      * by rewrite Hs in F2.
      * by rewrite Ho in F2.
Qed.

Lemma adoptNodesFrom_ok w a this other v os ov : wf w a -> this <> other ->
  seqs a !! this = Some ([], v) -> seqs a !! other = Some (os, ov) ->
  exists w', adoptNodesFrom w this other = Ok w' /\ wf w' (adopt a this other).
Proof.
  intros Hwf Hne Hs Ho. unfold adoptNodesFrom.
  rewrite (wf_the _ _ Hwf _ _ _ Ho), bind_Ok, (wf_the _ _ Hwf _ _ _ Hs), bind_Ok.
  cbn [header head_ tail_ count_ version_ fst snd].
  destruct (adopt_loop_ok this os (chain_fuel w) (store_list w this (header (os, v)))) as (w' & E & El & Eb & Hns).
  - by eapply wf_nodup.
  - exact (wf_chained _ _ _ _ _ Hwf Ho).
  - pose proof (wf_chain_fuel _ _ _ _ _ Hwf Ho). lia.
  - cbv [header fst snd] in E, El. cbn zeta. cbn [fst snd] in E.
    replace (chain_fuel (store_list w this (List_ (head os) (last os) (Z.of_nat (length os)) v)))
      with (chain_fuel w) by done.
    rewrite E, bind_Ok. rewrite (the_at w' other (header (os, ov))).
    + rewrite bind_Ok. eexists. split; [done|]. destruct w' as [ns' ls' b']. cbn in El, Eb, Hns. subst.
      by eapply (adopt_wf w a this other v os ov).
    + rewrite El. cbn. rewrite lookup_insert_ne by done. by eapply wf_list_at.
Qed.

End LinkedListStore.
End LinkedListStore.
