(* ===== verification/LinkedListSpec.v ===== *)
(** * LinkedList: the operations on sequences

    The abstract operation for every public operation of [LinkedList.hpp] ([spec]),
    and what the code does for it ([exec]). *)

From S2P Require Export LinkedListStore.

#[local] Open Scope Z_scope.

Module LinkedListSpec.
Import LinkedList LinkedListStore.

Section LinkedListSpec.
Context {T : Type} (equalValues : T -> T -> bool).
#[local] Abbreviation node := (@LinkedList.node T).
#[local] Abbreviation world := (@LinkedList.world T).
#[local] Abbreviation abs := (@LinkedListStore.abs T).
#[local] Abbreviation search := (LinkedList.search equalValues).
#[local] Abbreviation Find := (LinkedList.Find equalValues).
#[local] Abbreviation FindLast := (LinkedList.FindLast equalValues).
#[local] Abbreviation Contains := (LinkedList.Contains equalValues).
#[local] Abbreviation Remove := (LinkedList.Remove equalValues).
Implicit Types w : world.
Implicit Types a : abs.

(** ** Copying the values of another list *)

(** Appending one value: a new node, linked at the end. *)
Definition push (a : abs) (this : positive) (value : T) : abs :=
  match seqs a !! this with
  | Some (xs, _) => attach (allocate a value) this (length xs) (next_address a)
  | None => a
  end.

Definition copies (a : abs) (this : positive) (vals : list T) : abs :=
  foldl (fun a value => push a this value) a vals.

(** The values of a sequence of nodes. *)
Definition values (a : abs) (xs : list positive) : list T :=
  omap (fun x => fst <$> cells a !! x) xs.

Lemma allocate_cell w a value : wf w a -> cells (allocate a value) !! next_address a = Some (value, None).
Proof. intros. cbn. by rewrite lookup_insert_eq. Qed.

Lemma allocate_fresh w a x c : wf w a -> cells a !! x = Some c -> x <> next_address a.
Proof.
  intros Hwf Hx ->. rewrite (cells_of w) in Hx by done. rewrite <- (wf_brk _ _ Hwf) in Hx.
  destruct (wf_fresh _ _ Hwf (brk w) ltac:(lia)) as [F _]. by rewrite F in Hx.
Qed.

Lemma push_ok w a this xs v value : wf w a -> seqs a !! this = Some (xs, v) -> Z.of_nat (S (length xs)) < 2 ^ 31 ->
  exists w', insertLast (fst (make_node w value)) this (next_address a) = Ok w' /\ wf w' (push a this value).
Proof.
  intros Hwf Hs Hsz. destruct (make_node_wf w a value Hwf) as [_ Hwf'].
  unfold push. rewrite Hs. eapply insertLast_ok; [exact Hwf'|exact Hs| |exact Hsz].
  by eapply allocate_cell.
Qed.

(** What pushing onto one list leaves of the others. *)
Lemma push_other w a this xs v value other : wf w a -> seqs a !! this = Some (xs, v) -> other <> this ->
  seqs (push a this value) !! other = seqs a !! other.
Proof.
  intros Hwf Hs Hne. unfold push, attach. rewrite Hs. cbn [allocate seqs cells]. rewrite Hs, lookup_insert_eq.
  cbn. by rewrite lookup_insert_ne.
Qed.

Lemma push_this a this xs v value : seqs a !! this = Some (xs, v) ->
  seqs (push a this value) !! this = Some (xs ++ [next_address a], bump v).
Proof.
  intros Hs. unfold push, attach. rewrite Hs. cbn [allocate seqs cells]. rewrite Hs, lookup_insert_eq.
  cbn. rewrite lookup_insert_eq. unfold insert_at. by rewrite take_ge, drop_ge by done.
Qed.

Lemma push_cell w a this xs v value x c : wf w a -> seqs a !! this = Some (xs, v) ->
  cells a !! x = Some c -> cells (push a this value) !! x = Some c.
Proof.
  intros Hwf Hs Hx. pose proof (allocate_fresh _ _ _ _ Hwf Hx).
  unfold push, attach. rewrite Hs. cbn [allocate seqs cells]. rewrite Hs, lookup_insert_eq.
  cbn. by rewrite !lookup_insert_ne.
Qed.

Lemma copy_loop_ok this other os ov : forall ys k fuel w a xs v, wf w a -> other <> this ->
  seqs a !! other = Some (os, ov) -> seqs a !! this = Some (xs, v) -> drop k os = ys ->
  (length ys <= fuel)%nat -> Z.of_nat (length xs + length ys) < 2 ^ 31 ->
  exists w', copy_loop fuel w this (head ys) = Ok w' /\ wf w' (copies a this (values a ys)).
Proof.
  induction ys as [|x ys IH]; intros k fuel w a xs v Hwf Hne Ho Hs Hk Hf Hsz.
  { exists w. by destruct fuel. }
  assert (Hx : os !! k = Some x) by (by rewrite <- (Nat.add_0_r k), <- lookup_drop, Hk).
  assert (Hys : drop (S k) os = ys) by (by rewrite (drop_S _ _ _ Hx) in Hk; injection Hk).
  destruct fuel as [|fuel]; [cbn in Hf; lia|]. cbn [length] in *.
  destruct (wf_member _ _ Hwf _ _ _ _ _ Ho Hx) as (val & Hxc & Hxn).
  destruct (push_ok w a this xs v val Hwf Hs ltac:(lia)) as (w1 & E1 & Hwf1).
  pose proof (push_other _ _ _ _ _ val other Hwf Hs Hne) as Ho1. rewrite Ho in Ho1.
  destruct (wf_member _ _ Hwf1 _ _ _ _ _ Ho1 Hx) as (val1 & _ & Hxn1).
  cbn [head copy_loop]. rewrite (deref_at _ _ _ Hxn), bind_Ok. cbn [item].
  rewrite (proj1 (make_node_wf w a val Hwf)), E1, bind_Ok, (deref_at _ _ _ Hxn1), bind_Ok. cbn [next].
  rewrite <- (Nat.add_0_r (S k)), <- lookup_drop, Hys, <- head_lookup.
  destruct (IH (S k) fuel w1 _ _ _ Hwf1 Hne Ho1 (push_this _ _ _ _ _ Hs) Hys) as (w' & E & Hw'); [lia|rewrite length_app; cbn [length]; lia|].
  assert (Hv : values (push a this val) ys = values a ys).
  { unfold values. apply list_omap_ext, Forall_Forall2_diag, Forall_forall. intros y Hy.
    assert (Hyo : y ∈ os) by (rewrite <- (take_drop (S k) os), Hys; apply elem_of_app; by right).
    destruct (wf_member_elem _ _ Hwf _ _ _ _ Ho Hyo) as (vy & Hyc).
    by rewrite (push_cell _ _ _ _ _ _ _ _ Hwf Hs Hyc), Hyc. }
  rewrite Hv in Hw'. exists w'. split; [exact E|]. unfold values at 1. cbn [omap list_omap]. rewrite Hxc.
  exact Hw'.
Qed.

Lemma copyNodesFrom_ok w a this other v os ov : wf w a -> other <> this ->
  seqs a !! other = Some (os, ov) -> seqs a !! this = Some ([], v) ->
  exists w', copyNodesFrom w this other = Ok w' /\ wf w' (copies a this (values a os)).
Proof.
  intros Hwf Hne Ho Hs. unfold copyNodesFrom. rewrite (wf_the _ _ Hwf _ _ _ Ho), bind_Ok. cbn [header head_ fst].
  apply (copy_loop_ok this other os ov os 0 (chain_fuel w) w a [] v); try done.
  - pose proof (wf_chain_fuel _ _ _ _ _ Hwf Ho). lia.
  - pose proof (wf_size _ _ Hwf _ _ _ Ho). cbn. lia.
Qed.

(** ** Reading along a list *)

Definition holds (a : abs) (value : T) (x : positive) : bool :=
  match cells a !! x with Some (v, _) => equalValues v value | None => false end.

(** [search] visits the nodes of [ys] in order, whichever pointer it follows. *)
Lemma search_ok stp w a value ys : forall fuel, wf w a -> (length ys <= fuel)%nat ->
  (forall i x, ys !! i = Some x -> exists n, nodes w !! x = Some n /\ stp w n = ys !! S i) ->
  search fuel stp w (head ys) value = Ok (List.find (holds a value) ys).
Proof.
  induction ys as [|x ys IH]; intros fuel Hwf Hf Hc; [by destruct fuel|].
  destruct fuel as [|fuel]; [cbn in Hf; lia|]. cbn [head search List.find].
  destruct (Hc O x eq_refl) as (n & Hn & Hnx). rewrite (deref_at _ _ _ Hn), bind_Ok.
  unfold holds at 1. rewrite (cells_of w), Hn by done. cbn [fmap option_fmap option_map cell].
  destruct (equalValues (item n) value); [done|]. rewrite Hnx.
  change ((x :: ys) !! 1%nat) with (ys !! 0%nat). rewrite <- head_lookup.
  apply IH; [done|cbn in Hf; lia|]. intros i. exact (Hc (S i)).
Qed.

Lemma Find_ok w a this xs v value : wf w a -> seqs a !! this = Some (xs, v) ->
  Find w this value = Ok (List.find (holds a value) xs).
Proof.
  intros Hwf Hs. unfold Find. rewrite (wf_the _ _ Hwf _ _ _ Hs), bind_Ok. cbn [header head_ fst].
  pose proof (wf_chain_fuel _ _ _ _ _ Hwf Hs). apply search_ok; [done|lia|].
  exact (wf_chained _ _ _ _ _ Hwf Hs).
Qed.

Lemma FindLast_ok w a this xs v value : wf w a -> seqs a !! this = Some (xs, v) ->
  FindLast w this value = Ok (List.find (holds a value) (reverse xs)).
Proof.
  intros Hwf Hs. unfold FindLast. rewrite (wf_the _ _ Hwf _ _ _ Hs), bind_Ok. cbn [header tail_ fst].
  rewrite (wf_last _ _ Hwf _ _ _ Hs). pose proof (wf_chain_fuel _ _ _ _ _ Hwf Hs).
  rewrite <- head_reverse. apply search_ok; [done|rewrite length_reverse; lia|].
  intros i x Hi. pose proof (lookup_lt_Some _ _ _ Hi) as Hlt. rewrite length_reverse in Hlt.
  rewrite reverse_lookup in Hi by done. destruct (wf_member _ _ Hwf _ _ _ _ _ Hs Hi) as (val & _ & Hn).
  eexists. split; [exact Hn|]. cbn [prev]. rewrite (wf_before _ _ Hwf _ _ _ _ Hs).
  destruct (decide (S i < length xs)%nat).
  - rewrite reverse_lookup by done. by replace (length xs - S i)%nat with (S (length xs - S (S i))) by lia.
  - replace (length xs - S i)%nat with 0%nat by lia. symmetry. apply lookup_ge_None_2.
    rewrite length_reverse. lia.
Qed.

(** The values of a list are all there. *)
Lemma values_of w a this xs v : wf w a -> seqs a !! this = Some (xs, v) ->
  forall i x, xs !! i = Some x -> exists val, values a xs !! i = Some val /\ cells a !! x = Some (val, Some this).
Proof.
  intros Hwf Hs. assert (Hall : forall ys, (forall y, y ∈ ys -> y ∈ xs) ->
    forall i x, ys !! i = Some x -> exists val, values a ys !! i = Some val /\ cells a !! x = Some (val, Some this)).
  { induction ys as [|y ys IH]; intros Hin i x Hx; [done|].
    destruct (wf_member_elem _ _ Hwf _ _ _ _ Hs (Hin y ltac:(by left))) as (vy & Hy).
    unfold values. cbn [omap list_omap]. rewrite Hy. destruct i as [|i].
    - injection Hx as ->. exists vy. by rewrite Hy.
    - apply IH; [|exact Hx]. intros z Hz. apply Hin. by right. }
  by apply Hall.
Qed.

(** The values a copy writes. *)
Lemma copy_out_ok w ys vals : forall fuel dest index, chained (nodes w) ys -> (length ys <= fuel)%nat ->
  Forall2 (fun x val => item <$> nodes w !! x = Some val) ys vals ->
  0 <= index -> index + Z.of_nat (length ys) <= Z.of_nat (length dest) ->
  index + Z.of_nat (length ys) < 2 ^ 31 ->
  copy_out fuel w (head ys) dest index = Ok (list_inserts (Z.to_nat index) vals dest).
Proof.
  revert vals. induction ys as [|x ys IH]; intros vals fuel dest index Hc Hf Hv Hi Hsz Hint.
  { apply Forall2_nil_inv_l in Hv as ->. by destruct fuel. }
  apply Forall2_cons_inv_l in Hv as (val & vals' & Hval & Hv & ->). cbn [length] in *.
  destruct fuel as [|fuel]; [lia|]. apply chained_cons in Hc as [(n & Hn & Hnx) Hc]. cbn [head copy_out].
  rewrite (deref_at _ _ _ Hn), bind_Ok, Hnx. rewrite Hn in Hval. injection Hval as <-.
  rewrite (proj2 (Z.leb_le 0 index)), (proj2 (Z.ltb_lt _ _)) by lia. cbn [andb].
  unfold sadd. rewrite schk_Ok, bind_Ok by (unfold in_s; cbn; lia).
  rewrite (IH vals'); [|done|lia|done|lia|rewrite length_insert; lia|lia].
  cbn [list_inserts]. rewrite list_insert_inserts_lt by lia. do 2 f_equal. lia.
Qed.

(** ** The abstract operations *)

Definition seq (a : abs) (this : positive) : res (list positive) :=
  match seqs a !! this with Some (xs, _) => Ok xs | None => UB end.

Definition info (a : abs) (x : positive) : res (T * option positive) :=
  match cells a !! x with Some c => Ok c | None => UB end.

(** The position of a node in a sequence that has it. *)
Definition position (xs : list positive) (x : positive) : res nat :=
  match list_find (x =.) xs with Some (i, _) => Ok i | None => UB end.

(** A handle must be a node of [this], at the position answered; a handle must be
    detached. *)
Definition member (a : abs) (this : positive) (h : handle) : res nat :=
  match h with
  | None => Throw (ArgumentNullException "node" "Value cannot be null.")
  | Some x =>
      c <- info a x ;;
      if decide (snd c = Some this) then xs <- seq a this ;; position xs x
      else Throw (InvalidOperationException "The LinkedList node does not belong to current LinkedList.")
  end.

Definition spare (a : abs) (h : handle) : res positive :=
  match h with
  | None => Throw (ArgumentNullException "node" "Value cannot be null.")
  | Some x =>
      c <- info a x ;;
      if decide (snd c = None) then Ok x
      else Throw (InvalidOperationException "The LinkedList node already belongs to a LinkedList.")
  end.

(** Inserting where there is room: the count is a 32-bit integer. *)
Definition insert (a : abs) (this : positive) (k : nat) (x : positive) : res abs :=
  xs <- seq a this ;;
  if Z.of_nat (S (length xs)) <? 2 ^ 31 then Ok (attach a this k x) else UB.

Definition append (a : abs) (this x : positive) : res abs :=
  xs <- seq a this ;; insert a this (length xs) x.

(** Advancing a list's version. *)
Definition touch (a : abs) (this : positive) : abs :=
  match seqs a !! this with
  | Some (xs, v) => Abs (<[this := (xs, bump v)]> (seqs a)) (cells a) (next_address a)
  | None => a
  end.

Definition vacate (a : abs) (this : positive) : abs := touch (detach_all a this) this.

Definition discard (a : abs) (this : positive) : abs :=
  Abs (delete this (seqs a)) (cells (detach_all a this)) (next_address a).

(** Detached nodes that no handle holds are gone. *)
Definition keep (a : abs) (held : gset positive) : abs :=
  Abs (seqs a) (filter (fun xc => snd (snd xc) <> None \/ xc.1 ∈ held) (cells a)) (next_address a).

(** Each operation of the public interface, and its answer. *)
Inductive op :=
  | NewNode (value : T) | Release (held : gset positive)
  | Value (h : handle) | SetValue (h : handle) (value : T) | ListOf (h : handle)
  | Next (h : handle) | Previous (h : handle)
  | NewList | Destroy (this : positive)
  | CopyConstruct (other : positive) | MoveConstruct (other : positive)
  | CopyAssign (this other : positive) | MoveAssign (this other : positive)
  | Count (this : positive) | First (this : positive) | Last (this : positive)
  | PutFirst (this : positive) (value : T) | LinkFirst (this : positive) (h : handle)
  | PutLast (this : positive) (value : T) | LinkLast (this : positive) (h : handle)
  | PutBefore (this : positive) (h : handle) (value : T) | LinkBefore (this : positive) (h newNode : handle)
  | PutAfter (this : positive) (h : handle) (value : T) | LinkAfter (this : positive) (h newNode : handle)
  | TakeFirst (this : positive) | TakeLast (this : positive) | TakeNode (this : positive) (h : handle)
  | TakeValue (this : positive) (value : T)
  | Search (this : positive) (value : T) | SearchLast (this : positive) (value : T)
  | Has (this : positive) (value : T) | Empty (this : positive)
  | Copy (this : positive) (dest : list T) (index : Z).

Inductive answer :=
  | Done | Node_ (h : handle) | List_at (this : option positive) | Item (value : T) | Bool (b : bool)
  | Number (n : Z) | Array (dest : list T).

(** What the operation does to sequences. *)
Definition spec (a : abs) (o : op) : res (abs * answer) :=
  let fresh := next_address a in
  match o with
  | NewNode value => Ok (allocate a value, Node_ (Some fresh))
  | Release held => Ok (keep a held, Done)
  | Value None | SetValue None _ => Throw NullReferenceException
  | Value (Some x) => c <- info a x ;; Ok (a, Item (fst c))
  | SetValue (Some x) value =>
      c <- info a x ;; Ok (Abs (seqs a) (<[x := (value, snd c)]> (cells a)) fresh, Done)
  | ListOf None => Ok (a, List_at None)
  | ListOf (Some x) => c <- info a x ;; Ok (a, List_at (snd c))
  | Next None | Previous None => Ok (a, Node_ None)
  | Next (Some x) =>
      c <- info a x ;;
      match snd c with
      | None => Ok (a, Node_ None)
      | Some this => xs <- seq a this ;; i <- position xs x ;; Ok (a, Node_ (xs !! S i))
      end
  | Previous (Some x) =>
      c <- info a x ;;
      match snd c with
      | None => Ok (a, Node_ None)
      | Some this => xs <- seq a this ;; i <- position xs x ;; Ok (a, Node_ (before xs i))
      end
  | NewList => Ok (allocate_list a, List_at (Some fresh))
  | Destroy this => _ <- seq a this ;; Ok (discard a this, Done)
  | CopyConstruct other =>
      os <- seq a other ;; Ok (copies (allocate_list a) fresh (values a os), List_at (Some fresh))
  | MoveConstruct other => _ <- seq a other ;; Ok (adopt (allocate_list a) fresh other, List_at (Some fresh))
  | CopyAssign this other =>
      _ <- seq a this ;; os <- seq a other ;;
      Ok (if decide (this = other) then a else copies (vacate a this) this (values a os), Done)
  | MoveAssign this other =>
      _ <- seq a this ;; _ <- seq a other ;;
      Ok (if decide (this = other) then a else adopt (vacate a this) this other, Done)
  | Count this => xs <- seq a this ;; Ok (a, Number (Z.of_nat (length xs)))
  | First this => xs <- seq a this ;; Ok (a, Node_ (head xs))
  | Last this => xs <- seq a this ;; Ok (a, Node_ (last xs))
  | PutFirst this value => a <- insert (allocate a value) this 0 fresh ;; Ok (a, Node_ (Some fresh))
  | LinkFirst this h => x <- spare a h ;; a <- insert a this 0 x ;; Ok (a, Done)
  | PutLast this value => a <- append (allocate a value) this fresh ;; Ok (a, Node_ (Some fresh))
  | LinkLast this h => x <- spare a h ;; a <- append a this x ;; Ok (a, Done)
  | PutBefore this h value =>
      i <- member a this h ;; a <- insert (allocate a value) this i fresh ;; Ok (a, Node_ (Some fresh))
  | LinkBefore this h newNode =>
      i <- member a this h ;; x <- spare a newNode ;; a <- insert a this i x ;; Ok (a, Done)
  | PutAfter this h value =>
      i <- member a this h ;; a <- insert (allocate a value) this (S i) fresh ;; Ok (a, Node_ (Some fresh))
  | LinkAfter this h newNode =>
      i <- member a this h ;; x <- spare a newNode ;; a <- insert a this (S i) x ;; Ok (a, Done)
  | TakeFirst this => xs <- seq a this ;; if xs is [] then Throw empty_list else Ok (detach a this 0, Done)
  | TakeLast this =>
      xs <- seq a this ;; if xs is [] then Throw empty_list else Ok (detach a this (length xs - 1), Done)
  | TakeNode this h => i <- member a this h ;; Ok (detach a this i, Done)
  | TakeValue this value =>
      xs <- seq a this ;;
      match List.find (holds a value) xs with
      | Some x => i <- position xs x ;; Ok (detach a this i, Bool true)
      | None => Ok (a, Bool false)
      end
  | Search this value => xs <- seq a this ;; Ok (a, Node_ (List.find (holds a value) xs))
  | SearchLast this value => xs <- seq a this ;; Ok (a, Node_ (List.find (holds a value) (reverse xs)))
  | Has this value => xs <- seq a this ;; Ok (a, Bool (List.existsb (holds a value) xs))
  | Empty this => _ <- seq a this ;; Ok (vacate a this, Done)
  | Copy this dest index =>
      xs <- seq a this ;;
      _ <- throw_if (index <? 0) (ArgumentOutOfRangeException "index" "Non-negative number required.") ;;
      _ <- throw_if (Z.of_nat (length dest) <? index)
             (ArgumentOutOfRangeException "index" "Larger than collection size.") ;;
      _ <- throw_if (Z.of_nat (length dest) - index <? Z.of_nat (length xs))
             (ArgumentException
                "Destination array is not long enough to copy all the items in the collection." "") ;;
      if index + Z.of_nat (length xs) <? 2 ^ 31
      then Ok (a, Array (list_inserts (Z.to_nat index) (values a xs) dest)) else UB
  end.

(** What the code does to the store. *)
Definition exec (w : world) (o : op) : res (world * answer) :=
  let done (r : res world) := w <- r ;; Ok (w, Done) in
  let handed (r : res (world * handle)) := p <- r ;; Ok (fst p, Node_ (snd p)) in
  let made (r : res (world * positive)) := p <- r ;; Ok (fst p, List_at (Some (snd p))) in
  let told {A} (f : A -> answer) (r : res A) := x <- r ;; Ok (w, f x) in
  match o with
  | NewNode value => handed (new_node w value)
  | Release held => Ok (release w held, Done)
  | Value h => told Item (getValue w h)
  | SetValue h value => done (setValue w h value)
  | ListOf h => told List_at (getList w h)
  | Next h => told Node_ (getNext w h)
  | Previous h => told Node_ (getPrevious w h)
  | NewList => made (Ok (new_list w))
  | Destroy this => done (destroy w this)
  | CopyConstruct other => made (copy_construct w other)
  | MoveConstruct other => made (move_construct w other)
  | CopyAssign this other => done (copy_assign w this other)
  | MoveAssign this other => done (move_assign w this other)
  | Count this => told Number (getCount w this)
  | First this => told Node_ (getFirst w this)
  | Last this => told Node_ (getLast w this)
  | PutFirst this value => handed (AddFirst w this value)
  | LinkFirst this h => done (AddFirst_node w this h)
  | PutLast this value => handed (AddLast w this value)
  | LinkLast this h => done (AddLast_node w this h)
  | PutBefore this h value => handed (AddBefore w this h value)
  | LinkBefore this h newNode => done (AddBefore_node w this h newNode)
  | PutAfter this h value => handed (AddAfter w this h value)
  | LinkAfter this h newNode => done (AddAfter_node w this h newNode)
  | TakeFirst this => done (RemoveFirst w this)
  | TakeLast this => done (RemoveLast w this)
  | TakeNode this h => done (Remove_node w this h)
  | TakeValue this value => p <- Remove w this value ;; Ok (fst p, Bool (snd p))
  | Search this value => told Node_ (Find w this value)
  | SearchLast this value => told Node_ (FindLast w this value)
  | Has this value => told Bool (Contains w this value)
  | Empty this => done (Clear w this)
  | Copy this dest index => told Array (CopyTo w this dest index)
  end.

(** The store answers as the sequences do, and still represents them; where the
    sequences leave the outcome undefined, nothing is said. *)
Definition agrees {A} (r : res (world * A)) (s : res (abs * A)) : Prop :=
  match s with
  | Ok (a, x) => exists w, r = Ok (w, x) /\ wf w a
  | Throw e => r = Throw e
  | UB => True
  end.

Lemma info_at w a x : wf w a -> info a x = (n <- deref w x ;; Ok (cell n)).
Proof. intros Hwf. unfold info, deref. rewrite (cells_of w) by done. by destruct (nodes w !! x). Qed.

Lemma position_at xs i x : NoDup xs -> xs !! i = Some x -> position xs x = Ok i.
Proof.
  intros Hn Hi. unfold position. assert (E : list_find (x =.) xs = Some (i, x)).
  { apply list_find_Some. split; [done|]. split; [done|]. intros j y Hj Hlt ->.
    pose proof (NoDup_index _ _ _ _ Hn Hi Hj). lia. }
  by rewrite E.
Qed.

Lemma wf_position w a this xs v i x : wf w a -> seqs a !! this = Some (xs, v) -> xs !! i = Some x ->
  position xs x = Ok i.
Proof. intros Hwf Hs Hi. apply position_at; [by eapply wf_nodup|done]. Qed.

(** Validation is the same check. *)
Lemma validateNode_ok w a this h : wf w a ->
  match member a this h with
  | Ok i => exists xs v x, h = Some x /\ seqs a !! this = Some (xs, v) /\ xs !! i = Some x /\ validateNode w this h = Ok x
  | Throw e => validateNode w this h = Throw e
  | UB => True
  end.
Proof.
  intros Hwf. destruct h as [x|]; [|done]. cbn [member validateNode]. rewrite (info_at w) by done.
  destruct (deref w x) as [n| |] eqn:E; [|by unfold deref in E; destruct (nodes w !! x)|done].
  rewrite !bind_Ok. cbn [cell snd]. destruct (decide (owner n = Some this)) as [Ho|]; [|done].
  unfold deref in E. destruct (nodes w !! x) as [n'|] eqn:Hn; [|done]. injection E as ->.
  pose proof (wf_owner _ _ Hwf _ _ Hn) as HO. rewrite Ho in HO.
  destruct HO as (xs & v & Hs & [i Hi]%list_elem_of_lookup). unfold seq. rewrite Hs, bind_Ok.
  rewrite (wf_position _ _ _ _ _ _ _ Hwf Hs Hi). by exists xs, v, x.
Qed.

Lemma validateNewNode_ok w a h : wf w a ->
  match spare a h with
  | Ok x => exists val, h = Some x /\ cells a !! x = Some (val, None) /\ validateNewNode w h = Ok x
  | Throw e => validateNewNode w h = Throw e
  | UB => True
  end.
Proof.
  intros Hwf. destruct h as [x|]; [|done]. cbn [spare validateNewNode]. unfold info.
  destruct (cells a !! x) as [[val o]|] eqn:E; [|done]. rewrite bind_Ok. cbn [snd].
  destruct (wf_node _ _ Hwf _ _ _ E) as (nx & pv & Hn). rewrite (deref_at _ _ _ Hn), bind_Ok. cbn [owner].
  destruct (decide (o = None)) as [->|]; [|done]. by exists val.
Qed.

End LinkedListSpec.
End LinkedListSpec.
