(* ===== verification/LinkedListRefinement.v ===== *)
(** * LinkedList: refinement, enumerators and the lifetime of nodes *)

From S2P Require Export LinkedListSpec.

#[local] Open Scope Z_scope.

Module LinkedListRefinement.
Import LinkedList LinkedListStore LinkedListSpec.

Section LinkedListRefinement.
Context {T : Type} (equalValues : T -> T -> bool).
#[local] Abbreviation node := (@LinkedList.node T).
#[local] Abbreviation world := (@LinkedList.world T).
#[local] Abbreviation abs := (@LinkedListStore.abs T).
#[local] Abbreviation search := (LinkedList.search equalValues).
#[local] Abbreviation Find := (LinkedList.Find equalValues).
#[local] Abbreviation FindLast := (LinkedList.FindLast equalValues).
#[local] Abbreviation Contains := (LinkedList.Contains equalValues).
#[local] Abbreviation Remove := (LinkedList.Remove equalValues).
#[local] Abbreviation op := (@LinkedListSpec.op T).
#[local] Abbreviation answer := (@LinkedListSpec.answer T).
#[local] Abbreviation holds := (LinkedListSpec.holds equalValues).
#[local] Abbreviation spec := (LinkedListSpec.spec equalValues).
#[local] Abbreviation exec := (LinkedListSpec.exec equalValues).
Implicit Types w : world.
Implicit Types a : abs.

(** ** The operations refine the abstract ones *)

Lemma insert_agrees {A} w a this k x (r : res world) (ans : A) :
  (forall xs v, seqs a !! this = Some (xs, v) -> Z.of_nat (S (length xs)) < 2 ^ 31 -> attaches w a this k x r) ->
  agrees (w' <- r ;; Ok (w', ans)) (a' <- insert a this k x ;; Ok (a', ans)).
Proof.
  intros H. unfold insert, seq. destruct (seqs a !! this) as [[xs v]|] eqn:Hs; [|done]. rewrite bind_Ok.
  destruct (Z.ltb_spec (Z.of_nat (S (length xs))) (2 ^ 31)); [|done].
  destruct (H xs v eq_refl) as (w' & -> & Hw'); [done|]. by exists w'.
Qed.

Lemma append_agrees {A} w a this x val (ans : A) : wf w a -> cells a !! x = Some (val, None) ->
  agrees (w' <- insertLast w this x ;; Ok (w', ans)) (a' <- append a this x ;; Ok (a', ans)).
Proof.
  intros Hwf Hx. unfold append. destruct (seqs a !! this) as [[xs v]|] eqn:Hs; unfold seq; rewrite Hs; [|done].
  rewrite bind_Ok. apply (insert_agrees w). intros xs' v' Hs' Hsz. rewrite Hs' in Hs. injection Hs as -> ->.
  by eapply insertLast_ok.
Qed.

Lemma read_agrees {A} w a (r : res A) (s : res A) (f : A -> answer) : wf w a ->
  (forall e, s = Throw e -> r = Throw e) -> (forall x, s = Ok x -> r = Ok x) ->
  agrees (x <- r ;; Ok (w, f x)) (x <- s ;; Ok (a, f x)).
Proof.
  intros Hwf He Ho. destruct s as [x|e|]; [|by rewrite (He e)|done]. rewrite (Ho x) by done. by exists w.
Qed.

Lemma wf_seq w a this xs : wf w a -> seq a this = Ok xs -> exists v, seqs a !! this = Some (xs, v).
Proof. unfold seq. destruct (seqs a !! this) as [[ys v]|]; [|done]. intros _ [= ->]. by exists v. Qed.

(** Operations on nodes. *)
Lemma release_wf w a held : wf w a -> wf (release w held) (keep a held).
Proof.
  intros Hwf. assert (Hkeep : forall x n, nodes w !! x = Some n -> owner n <> None ->
    nodes (release w held) !! x = Some n).
  { intros x n Hn Ho. apply map_lookup_filter_Some. auto. }
  constructor; cbn [keep seqs cells next_address].
  - apply Hwf.
  - apply Hwf.
  - rewrite (wf_cells _ _ Hwf). cbn [release nodes]. by rewrite map_filter_fmap.
  - apply Hwf.
  - apply Hwf.
  - intros L xs v Hs. eapply linked_frame; [by eapply wf_linked|]. intros x [i Hx]%list_elem_of_lookup.
    destruct (wf_member _ _ Hwf _ _ _ _ _ Hs Hx) as (val & _ & Hn). rewrite Hn. by apply Hkeep.
  - intros x n Hx. apply map_lookup_filter_Some in Hx as [Hx _]. by apply (wf_owner _ _ Hwf).
  - intros x Hx. destruct (wf_fresh _ _ Hwf x Hx) as [F1 F2]. split; [|exact F2].
    apply map_lookup_filter_None. by left.
Qed.

Lemma setValue_wf w a x n value : wf w a -> nodes w !! x = Some n ->
  wf (store_node w x (Node value (owner n) (next n) (prev n)))
    (Abs (seqs a) (<[x := (value, owner n)]> (cells a)) (next_address a)).
Proof.
  intros Hwf Hn. constructor; cbn [store_node brk lists nodes seqs cells next_address].
  - apply Hwf.
  - apply Hwf.
  - by rewrite (wf_cells _ _ Hwf), fmap_insert.
  - apply Hwf.
  - apply Hwf.
  - intros L xs v Hs i y Hy. destruct (wf_linked _ _ Hwf _ _ _ Hs i y Hy) as (val & Hv).
    rewrite lookup_insert. case_decide; [|by exists val]. subst. rewrite Hn in Hv. injection Hv as ->. by exists value.
  - intros y m. rewrite lookup_insert. case_decide; [|apply Hwf]. subst. intros [= <-].
    exact (wf_owner _ _ Hwf _ _ Hn).
  - intros y Hy. destruct (wf_fresh _ _ Hwf y Hy) as [F1 F2]. rewrite lookup_insert_ne; [done|]. congruence.
Qed.

(** What an owned node's neighbours are. *)
Lemma neighbours w a x val o : wf w a -> cells a !! x = Some (val, o) ->
  exists n, nodes w !! x = Some n /\ item n = val /\ owner n = o /\
  match o with
  | None => next n = None /\ prev n = None
  | Some this => exists xs v i, seqs a !! this = Some (xs, v) /\ position xs x = Ok i /\
      next n = xs !! S i /\ lock w (prev n) = before xs i
  end.
Proof.
  intros Hwf Hx. destruct (wf_node _ _ Hwf _ _ _ Hx) as (nx & pv & Hn). eexists. split; [exact Hn|].
  split; [done|]. split; [done|]. destruct o as [this|].
  - destruct (wf_cell_index _ _ Hwf _ _ _ Hx) as (xs & v & i & Hs & Hi). exists xs, v, i.
    destruct (wf_member _ _ Hwf _ _ _ _ _ Hs Hi) as (val' & _ & Hn'). rewrite Hn in Hn'.
    injection Hn' as _ -> ->. split; [done|]. split; [by eapply wf_position|]. split; [done|].
    exact (wf_before _ _ Hwf _ _ _ _ Hs).
  - exact (wf_owner _ _ Hwf _ _ Hn).
Qed.

Lemma node_refines w a o : wf w a ->
  match o with
  | NewNode _ | Release _ | Value _ | SetValue _ _ | ListOf _ | Next _ | Previous _ =>
      agrees (exec w o) (spec a o)
  | _ => True
  end.
Proof.
  intros Hwf. destruct o as [value|held|h|h value|h|h|h| | | | | | | | | | | | | | | | | | | | | | | | | | ]; try done.
  - destruct (make_node_wf w a value Hwf) as [E Hw]. cbn [exec spec]. unfold new_node. rewrite E, bind_Ok.
    eexists. split; [done|exact Hw].
  - eexists. split; [done|]. by apply release_wf.
  - destruct h as [x|]; [|done]. cbn [exec spec]. unfold getValue, requireNode. cbv beta iota. unfold info.
    destruct (cells a !! x) as [[val o]|] eqn:E; [|done].
    destruct (neighbours _ _ _ _ _ Hwf E) as (n & Hn & <- & _). rewrite (deref_at _ _ _ Hn), !bind_Ok. by exists w.
  - destruct h as [x|]; [|done]. cbn [exec spec]. unfold setValue. cbv beta iota. unfold info.
    destruct (cells a !! x) as [[val o]|] eqn:E; [|done].
    destruct (neighbours _ _ _ _ _ Hwf E) as (n & Hn & <- & <- & _). rewrite (deref_at _ _ _ Hn), !bind_Ok.
    eexists. split; [done|]. by apply setValue_wf.
  - destruct h as [x|]; [|by exists w]. cbn [exec spec]. unfold getList. cbv beta iota. unfold info.
    destruct (cells a !! x) as [[val o]|] eqn:E; [|done].
    destruct (neighbours _ _ _ _ _ Hwf E) as (n & Hn & <- & <- & _). rewrite (deref_at _ _ _ Hn), !bind_Ok. by exists w.
  - destruct h as [x|]; [|by exists w]. cbn [exec spec]. unfold getNext. cbv beta iota. unfold info.
    destruct (cells a !! x) as [[val o]|] eqn:E; [|done].
    destruct (neighbours _ _ _ _ _ Hwf E) as (n & Hn & _ & _ & Ho). rewrite (deref_at _ _ _ Hn), !bind_Ok.
    cbn [snd]. destruct o as [this|].
    + destruct Ho as (xs & v & i & Hs & Hi & -> & _). unfold seq. rewrite Hs, bind_Ok, Hi. by exists w.
    + destruct Ho as [-> _]. by exists w.
  - destruct h as [x|]; [|by exists w]. cbn [exec spec]. unfold getPrevious. cbv beta iota. unfold info.
    destruct (cells a !! x) as [[val o]|] eqn:E; [|done].
    destruct (neighbours _ _ _ _ _ Hwf E) as (n & Hn & _ & _ & Ho). rewrite (deref_at _ _ _ Hn), !bind_Ok.
    cbn [snd]. destruct o as [this|].
    + destruct Ho as (xs & v & i & Hs & Hi & _ & ->). unfold seq. rewrite Hs, bind_Ok, Hi. by exists w.
    + destruct Ho as [_ ->]. by exists w.
Qed.

(** Operations on whole lists. *)
Lemma detach_all_this a this xs v : seqs a !! this = Some (xs, v) ->
  seqs (detach_all a this) !! this = Some ([], v).
Proof. intros Hs. unfold detach_all. rewrite Hs. cbn. by rewrite lookup_insert_eq. Qed.

Lemma vacate_seqs a this xs v L : seqs a !! this = Some (xs, v) ->
  seqs (vacate a this) !! L = if decide (L = this) then Some ([], bump v) else seqs a !! L.
Proof.
  intros Hs. unfold vacate, touch. rewrite (detach_all_this _ _ _ _ Hs). cbn [seqs].
  unfold detach_all. rewrite Hs. cbn [seqs]. rewrite !lookup_insert. by repeat case_decide; subst.
Qed.

Lemma vacate_values a this xs v os : seqs a !! this = Some (xs, v) -> values (vacate a this) os = values a os.
Proof.
  intros Hs. unfold vacate, touch. rewrite (detach_all_this _ _ _ _ Hs). unfold detach_all. rewrite Hs.
  unfold values. cbn [cells]. apply list_omap_ext, Forall_Forall2_diag, Forall_forall. intros x _.
  rewrite map_lookup_imap. destruct (cells a !! x) as [c|]; [|done]. cbn. by case_decide.
Qed.

Lemma touch_wf w a this xs v : wf w a -> seqs a !! this = Some (xs, v) ->
  exists w', bump_version w this = Ok w' /\ wf w' (touch a this).
Proof.
  intros Hwf Hs. unfold bump_version. rewrite (wf_the _ _ Hwf _ _ _ Hs), bind_Ok. eexists. split; [done|].
  unfold touch. rewrite Hs. constructor; cbn [store_list header head_ tail_ count_ version_ fst snd brk lists nodes seqs cells next_address].
  - apply Hwf.
  - by rewrite (wf_lists _ _ Hwf), fmap_insert.
  - apply Hwf.
  - intros L ys u. rewrite lookup_insert. case_decide; [intros [= <- <-]|]; by eapply wf_nodup.
  - intros L ys u. rewrite lookup_insert. case_decide; [intros [= <- <-]|]; by eapply wf_size.
  - intros L ys u. rewrite lookup_insert. case_decide; [intros [= <- <-]; subst|]; by eapply wf_linked.
  - intros x n Hx. pose proof (wf_owner _ _ Hwf _ _ Hx) as HO. destruct (owner n) as [L|]; [|done].
    destruct HO as (ys & u & HL & Hin). destruct (decide (L = this)) as [->|].
    + exists ys, (bump v). rewrite lookup_insert_eq. by simplify_eq.
    + exists ys, u. by rewrite lookup_insert_ne.
  - intros x Hx. destruct (wf_fresh _ _ Hwf x Hx) as [F1 F2]. split; [done|].
    rewrite lookup_insert_ne; [done|]. intros ->. by rewrite (wf_list_at _ _ _ _ _ Hwf Hs) in F2.
Qed.

Lemma vacate_wf w a this xs v : wf w a -> seqs a !! this = Some (xs, v) ->
  exists w', (w <- detachAll w this ;; bump_version w this) = Ok w' /\ wf w' (vacate a this).
Proof.
  intros Hwf Hs. destruct (detachAll_ok _ _ _ _ _ Hwf Hs) as (w1 & -> & Hw1). rewrite bind_Ok.
  exact (touch_wf _ _ _ _ _ Hw1 (detach_all_this _ _ _ _ Hs)).
Qed.

Lemma destroy_wf w a this xs v : wf w a -> seqs a !! this = Some (xs, v) ->
  exists w', destroy w this = Ok w' /\ wf w' (discard a this).
Proof.
  intros Hwf Hs. destruct (detachAll_ok _ _ _ _ _ Hwf Hs) as (w1 & E & Hw1). unfold destroy. rewrite E, bind_Ok.
  eexists. split; [done|]. pose proof (detach_all_this _ _ _ _ Hs) as Hs1.
  assert (Hseq : seqs (discard a this) = delete this (seqs (detach_all a this))).
  { unfold discard, detach_all. rewrite Hs. cbn. by rewrite delete_insert_eq. }
  assert (Hsub : forall L ys u, seqs (discard a this) !! L = Some (ys, u) -> seqs (detach_all a this) !! L = Some (ys, u)).
  { intros L ys u. rewrite Hseq. intros H. by apply lookup_delete_Some in H as []. }
  constructor; cbn [brk lists nodes].
  - rewrite (wf_brk _ _ Hw1). unfold detach_all. by rewrite Hs.
  - by rewrite (wf_lists _ _ Hw1), Hseq, fmap_delete.
  - apply Hw1.
  - intros L ys u H%Hsub. by eapply wf_nodup.
  - intros L ys u H%Hsub. by eapply wf_size.
  - intros L ys u H%Hsub. by eapply wf_linked.
  - intros x n Hx. pose proof (wf_owner _ _ Hw1 _ _ Hx) as HO. destruct (owner n) as [L|]; [|done].
    destruct HO as (ys & u & HL & Hin). exists ys, u. rewrite Hseq, lookup_delete_ne; [done|].
    intros <-. rewrite Hs1 in HL. injection HL as <- <-. by apply not_elem_of_nil in Hin.
  - intros x Hx. destruct (wf_fresh _ _ Hw1 x Hx) as [F1 F2]. split; [done|].
    apply lookup_delete_None. by right.
Qed.

Lemma seq_Ok a this xs v : seqs a !! this = Some (xs, v) -> seq a this = Ok xs.
Proof. unfold seq. by intros ->. Qed.

Lemma allocate_list_seqs w a L : wf w a -> forall s, seqs a !! L = Some s ->
  L <> next_address a /\ seqs (allocate_list a) !! L = Some s.
Proof.
  intros Hwf s Hs. assert (Hne : L <> next_address a).
  { intros ->. rewrite <- (wf_brk _ _ Hwf) in Hs. destruct (wf_fresh _ _ Hwf (brk w) ltac:(lia)) as [_ F].
    by rewrite (wf_lists _ _ Hwf), lookup_fmap, Hs in F. }
  split; [done|]. cbn. by rewrite lookup_insert_ne.
Qed.

Lemma list_refines w a o : wf w a ->
  match o with
  | NewList | Destroy _ | CopyConstruct _ | MoveConstruct _ | CopyAssign _ _ | MoveAssign _ _ | Empty _ =>
      agrees (exec w o) (spec a o)
  | _ => True
  end.
Proof.
  intros Hwf. pose proof (new_list_wf w a Hwf) as [En Hwn].
  destruct o as [| | | | | | | |this|other|other|this other|this other| | | | | | | | | | | | | | | | | | |this|]; try done.
  - cbn [exec spec]. rewrite En, bind_Ok. eexists. by split; [|exact Hwn].
  - cbn [exec spec]. destruct (seqs a !! this) as [[xs v]|] eqn:Hs; unfold seq; rewrite Hs; [|done].
    destruct (destroy_wf _ _ _ _ _ Hwf Hs) as (w' & -> & Hw'). by exists w'.
  - cbn [exec spec]. destruct (seqs a !! other) as [[os ov]|] eqn:Ho; unfold seq; rewrite Ho; [|done].
    destruct (allocate_list_seqs _ _ _ Hwf _ Ho) as [Hne Ho'].
    unfold copy_construct. rewrite En.
    destruct (copyNodesFrom_ok _ (allocate_list a) (next_address a) other 0 os ov Hwn Hne Ho') as (w' & -> & Hw');
      [cbn; by rewrite lookup_insert_eq|]. by exists w'.
  - cbn [exec spec]. destruct (seqs a !! other) as [[os ov]|] eqn:Ho; unfold seq; rewrite Ho; [|done].
    destruct (allocate_list_seqs _ _ _ Hwf _ Ho) as [Hne Ho'].
    unfold move_construct. rewrite En.
    destruct (adoptNodesFrom_ok _ (allocate_list a) (next_address a) other 0 os ov Hwn ltac:(done)) as (w' & -> & Hw');
      [cbn; by rewrite lookup_insert_eq|done|]. by exists w'.
  - cbn [exec spec]. destruct (seqs a !! this) as [[xs v]|] eqn:Hs; unfold seq; rewrite Hs; [|done].
    destruct (seqs a !! other) as [[os ov]|] eqn:Ho; [|done]. rewrite !bind_Ok. unfold copy_assign.
    destruct (decide (this = other)) as [->|Hne]; [by exists w|].
    pose proof (vacate_seqs _ _ _ _ this Hs) as Hs'. rewrite decide_True in Hs' by done.
    pose proof (vacate_seqs _ _ _ _ other Hs) as Ho'. rewrite decide_False in Ho' by done. rewrite Ho in Ho'.
    destruct (vacate_wf _ _ _ _ _ Hwf Hs) as (w1 & E1 & Hw1).
    destruct (copyNodesFrom_ok _ _ this other _ _ _ Hw1 ltac:(done) Ho' Hs') as (w' & E & Hw').
    rewrite (vacate_values _ _ _ _ _ Hs) in Hw'. exists w'. split; [|exact Hw'].
    destruct (detachAll w this) as [w0| |]; cbn [bind] in *; try done. rewrite E1. cbn [bind]. by rewrite E.
  - cbn [exec spec]. destruct (seqs a !! this) as [[xs v]|] eqn:Hs; unfold seq; rewrite Hs; [|done].
    destruct (seqs a !! other) as [[os ov]|] eqn:Ho; [|done]. rewrite !bind_Ok. unfold move_assign.
    destruct (decide (this = other)) as [->|Hne]; [by exists w|].
    pose proof (vacate_seqs _ _ _ _ this Hs) as Hs'. rewrite decide_True in Hs' by done.
    pose proof (vacate_seqs _ _ _ _ other Hs) as Ho'. rewrite decide_False in Ho' by done. rewrite Ho in Ho'.
    destruct (vacate_wf _ _ _ _ _ Hwf Hs) as (w1 & E1 & Hw1).
    destruct (adoptNodesFrom_ok _ _ this other _ _ _ Hw1 ltac:(done) Hs' Ho') as (w' & E & Hw').
    exists w'. split; [|exact Hw'].
    destruct (detachAll w this) as [w0| |]; cbn [bind] in *; try done. rewrite E1. cbn [bind]. by rewrite E.
  - cbn [exec spec]. destruct (seqs a !! this) as [[xs v]|] eqn:Hs; unfold seq; rewrite Hs; [|done].
    destruct (vacate_wf _ _ _ _ _ Hwf Hs) as (w' & E & Hw'). unfold Clear. rewrite E. by exists w'.
Qed.

(** Operations on one node. *)
Lemma unlink_agrees {A} w a this xs v i x (ans : A) : wf w a -> seqs a !! this = Some (xs, v) ->
  xs !! i = Some x -> agrees (w' <- unlink w this x ;; Ok (w', ans)) (Ok (detach a this i, ans)).
Proof. intros Hwf Hs Hi. destruct (unlink_ok _ _ _ _ _ _ _ Hwf Hs Hi) as (w' & -> & Hw'). by exists w'. Qed.

(** The result of a computation repacked. *)
Lemma bind_assoc {A B C} (r : res A) (f : A -> res B) (g : B -> res C) :
  (y <- (x <- r ;; f x) ;; g y) = (x <- r ;; y <- f x ;; g y).
Proof. by destruct r. Qed.

Lemma link_refines w a o : wf w a ->
  match o with
  | PutFirst _ _ | LinkFirst _ _ | PutLast _ _ | LinkLast _ _ | PutBefore _ _ _ | LinkBefore _ _ _
  | PutAfter _ _ _ | LinkAfter _ _ _ => agrees (exec w o) (spec a o)
  | _ => True
  end.
Proof.
  intros Hwf.
  assert (Hmk : forall value, make_node w value = (fst (make_node w value), next_address a) /\
    wf (fst (make_node w value)) (allocate a value)) by (intros; by apply make_node_wf).
  assert (Hnew : forall value, cells (allocate a value) !! next_address a = Some (value, None)).
  { intros. by eapply allocate_cell. }
  destruct o as [| | | | | | | | | | | | | | | |this value|this h|this value|this h|this h value|this h nh
    |this h value|this h nh| | | | | | | | | ]; try done; cbn [exec spec].
  - destruct (Hmk value) as [E Hw]. unfold AddFirst. rewrite E, bind_assoc. cbn [bind fst snd].
    apply (insert_agrees (fst (make_node w value)) (allocate a value)). intros. by eapply attach_first_ok.
  - unfold AddFirst_node. rewrite bind_assoc. pose proof (validateNewNode_ok w a h Hwf) as H.
    destruct (spare a h) as [x|e|]; [|by rewrite H|done]. destruct H as (val & -> & Hx & ->). rewrite !bind_Ok.
    apply (insert_agrees w). intros. by eapply attach_first_ok.
  - destruct (Hmk value) as [E Hw]. unfold AddLast. rewrite E, bind_assoc. cbn [bind fst snd].
    by eapply append_agrees.
  - unfold AddLast_node. rewrite bind_assoc. pose proof (validateNewNode_ok w a h Hwf) as H.
    destruct (spare a h) as [x|e|]; [|by rewrite H|done]. destruct H as (val & -> & Hx & ->). rewrite !bind_Ok.
    by eapply append_agrees.
  - unfold AddBefore. rewrite bind_assoc. pose proof (validateNode_ok w a this h Hwf) as H.
    destruct (member a this h) as [i|e|]; [|by rewrite H|done]. destruct H as (xs & v & p & -> & Hs & Hi & ->).
    destruct (Hmk value) as [E Hw]. rewrite !bind_Ok, E, bind_assoc. cbn [bind fst snd].
    apply (insert_agrees (fst (make_node w value)) (allocate a value)). intros xs' v' Hs' Hsz. cbn in Hs'. rewrite Hs in Hs'.
    injection Hs' as <- <-. by eapply (insertBefore_ok _ (allocate a value)).
  - unfold AddBefore_node. rewrite !bind_assoc. pose proof (validateNode_ok w a this h Hwf) as H.
    destruct (member a this h) as [i|e|]; [|by rewrite H|done]. destruct H as (xs & v & p & -> & Hs & Hi & ->).
    rewrite !bind_Ok, bind_assoc. pose proof (validateNewNode_ok w a nh Hwf) as H.
    destruct (spare a nh) as [x|e|]; [|by rewrite H|done]. destruct H as (val & -> & Hx & ->). rewrite !bind_Ok.
    apply (insert_agrees w). intros xs' v' Hs' Hsz. rewrite Hs in Hs'. injection Hs' as <- <-.
    by eapply insertBefore_ok.
  - unfold AddAfter. rewrite bind_assoc. pose proof (validateNode_ok w a this h Hwf) as H.
    destruct (member a this h) as [i|e|]; [|by rewrite H|done]. destruct H as (xs & v & p & -> & Hs & Hi & ->).
    destruct (Hmk value) as [E Hw]. rewrite !bind_Ok, E, bind_assoc. cbn [bind fst snd].
    apply (insert_agrees (fst (make_node w value)) (allocate a value)). intros xs' v' Hs' Hsz. cbn in Hs'. rewrite Hs in Hs'.
    injection Hs' as <- <-. by eapply (insertAfter_ok _ (allocate a value)).
  - unfold AddAfter_node. rewrite !bind_assoc. pose proof (validateNode_ok w a this h Hwf) as H.
    destruct (member a this h) as [i|e|]; [|by rewrite H|done]. destruct H as (xs & v & p & -> & Hs & Hi & ->).
    rewrite !bind_Ok, bind_assoc. pose proof (validateNewNode_ok w a nh Hwf) as H.
    destruct (spare a nh) as [x|e|]; [|by rewrite H|done]. destruct H as (val & -> & Hx & ->). rewrite !bind_Ok.
    apply (insert_agrees w). intros xs' v' Hs' Hsz. rewrite Hs in Hs'. injection Hs' as <- <-.
    by eapply insertAfter_ok.
Qed.

Lemma find_index (f : positive -> bool) xs x : List.find f xs = Some x -> exists i, xs !! i = Some x.
Proof. intros H%List.find_some. apply list_elem_of_lookup, list_elem_of_In, H. Qed.

Lemma take_refines w a o : wf w a ->
  match o with
  | TakeFirst _ | TakeLast _ | TakeNode _ _ | TakeValue _ _ => agrees (exec w o) (spec a o)
  | _ => True
  end.
Proof.
  intros Hwf. destruct o as [| | | | | | | | | | | | | | | | | | | | | | | |this|this|this h|this value| | | | | ];
    try done; cbn [exec spec].
  - destruct (seqs a !! this) as [[xs v]|] eqn:Hs; unfold seq; rewrite Hs; [|done]. rewrite bind_Ok.
    unfold RemoveFirst. rewrite (wf_the _ _ Hwf _ _ _ Hs), bind_Ok. cbn [header head_ fst].
    destruct xs as [|x xs]; [done|]. by eapply unlink_agrees.
  - destruct (seqs a !! this) as [[xs v]|] eqn:Hs; unfold seq; rewrite Hs; [|done]. rewrite bind_Ok.
    unfold RemoveLast. rewrite (wf_the _ _ Hwf _ _ _ Hs), bind_Ok. cbn [header tail_ fst].
    rewrite (wf_last _ _ Hwf _ _ _ Hs), last_lookup. destruct xs as [|x xs]; [done|].
    destruct (lookup_lt_is_Some_2 (x :: xs) (pred (length (x :: xs)))) as [y Hy]; [cbn; lia|].
    rewrite Hy. eapply unlink_agrees; [done|done|]. rewrite <- Hy. f_equal. lia.
  - unfold Remove_node. rewrite bind_assoc. pose proof (validateNode_ok w a this h Hwf) as H.
    destruct (member a this h) as [i|e|]; [|by rewrite H|done]. destruct H as (xs & v & x & -> & Hs & Hi & ->).
    rewrite !bind_Ok. by eapply unlink_agrees.
  - destruct (seqs a !! this) as [[xs v]|] eqn:Hs; unfold seq; rewrite Hs; [|done]. rewrite bind_Ok.
    unfold Remove. rewrite (Find_ok equalValues _ _ _ _ _ value Hwf Hs), bind_Ok.
    destruct (List.find _ xs) as [x|] eqn:Hf; [|by exists w].
    destruct (find_index _ _ _ Hf) as (i & Hi). rewrite (wf_position _ _ _ _ _ _ _ Hwf Hs Hi), bind_Ok, bind_assoc.
    exact (unlink_agrees _ _ _ _ _ _ _ (Bool true) Hwf Hs Hi).
Qed.

Lemma existsb_find {A} (f : A -> bool) xs : bool_decide (List.find f xs <> None) = List.existsb f xs.
Proof. induction xs as [|x xs IH]; [done|]. cbn. by destruct (f x). Qed.

Lemma values_items w a this xs v : wf w a -> seqs a !! this = Some (xs, v) ->
  Forall2 (fun x val => item <$> nodes w !! x = Some val) xs (values a xs).
Proof.
  intros Hwf Hs. assert (Hall : forall ys, (forall y, y ∈ ys -> y ∈ xs) ->
    Forall2 (fun x val => item <$> nodes w !! x = Some val) ys (values a ys)).
  { induction ys as [|y ys IH]; intros Hin; [constructor|].
    destruct (wf_member_elem _ _ Hwf _ _ _ _ Hs (Hin y ltac:(by left))) as (vy & Hy).
    unfold values. cbn [omap list_omap]. rewrite Hy. constructor.
    - destruct (wf_node _ _ Hwf _ _ _ Hy) as (nx & pv & ->). done.
    - apply IH. intros z Hz. apply Hin. by right. }
  by apply Hall.
Qed.

Lemma query_refines w a o : wf w a ->
  match o with
  | Count _ | First _ | Last _ | Search _ _ | SearchLast _ _ | Has _ _ | Copy _ _ _ => agrees (exec w o) (spec a o)
  | _ => True
  end.
Proof.
  intros Hwf. destruct o as [| | | | | | | | | | | | |this|this|this| | | | | | | | | | | | |this value|this value
    |this value| |this dest index]; try done; cbn [exec spec];
    destruct (seqs a !! this) as [[xs v]|] eqn:Hs; unfold seq; rewrite Hs; try done; rewrite bind_Ok.
  - unfold getCount. rewrite (wf_the _ _ Hwf _ _ _ Hs). by exists w.
  - unfold getFirst. rewrite (wf_the _ _ Hwf _ _ _ Hs). by exists w.
  - unfold getLast. rewrite (wf_the _ _ Hwf _ _ _ Hs), bind_Ok. cbn [header tail_ fst].
    rewrite (wf_last _ _ Hwf _ _ _ Hs). by exists w.
  - rewrite (Find_ok equalValues _ _ _ _ _ value Hwf Hs). by exists w.
  - rewrite (FindLast_ok equalValues _ _ _ _ _ value Hwf Hs). by exists w.
  - unfold Contains. rewrite (Find_ok equalValues _ _ _ _ _ value Hwf Hs), !bind_Ok, existsb_find. by exists w.
  - unfold CopyTo. rewrite (wf_the _ _ Hwf _ _ _ Hs), bind_Ok. cbn [header count_ head_ fst].
    destruct (Z.ltb_spec index 0); [done|]. destruct (Z.ltb_spec (Z.of_nat (length dest)) index); [done|].
    destruct (Z.ltb_spec (Z.of_nat (length dest) - index) (Z.of_nat (length xs))); [done|].
    cbn [throw_if bind]. destruct (Z.ltb_spec (index + Z.of_nat (length xs)) (2 ^ 31)); [|done].
    erewrite copy_out_ok; [by exists w| | | | | |]; try done; try lia.
    + exact (wf_chained _ _ _ _ _ Hwf Hs).
    + pose proof (wf_chain_fuel _ _ _ _ _ Hwf Hs). lia.
    + by eapply values_items.
Qed.

Lemma exec_agrees w a o : wf w a -> agrees (exec w o) (spec a o).
Proof.
  intros Hwf. pose proof (node_refines w a o Hwf). pose proof (list_refines w a o Hwf).
  pose proof (link_refines w a o Hwf). pose proof (take_refines w a o Hwf). pose proof (query_refines w a o Hwf).
  by destruct o.
Qed.

(** ** Programs *)

(** The outcomes of a sequence of operations; an exception leaves the state as it
    was, since every operation checks its arguments before it changes anything. *)
Fixpoint perform {S} (act : S -> op -> res (S * answer)) (s : S) (ops : list op) : res (S * list (res answer)) :=
  match ops with
  | [] => Ok (s, [])
  | o :: ops =>
      match act s o with
      | Ok (s, r) => p <- perform act s ops ;; Ok (fst p, Ok r :: snd p)
      | Throw e => p <- perform act s ops ;; Ok (fst p, Throw e :: snd p)
      | UB => UB
      end
  end.

Definition no_lists : abs := Abs ∅ ∅ 1.

Lemma empty_wf : wf empty_world no_lists.
Proof. constructor; try done; by rewrite fmap_empty. Qed.

Lemma perform_agrees w a ops : wf w a -> agrees (perform exec w ops) (perform spec a ops).
Proof.
  revert w a. induction ops as [|o ops IH]; intros w a Hwf; [by exists w|]. cbn [perform].
  pose proof (exec_agrees w a o Hwf) as H. destruct (spec a o) as [[a1 r]|e|]; [| |done].
  - destruct H as (w1 & -> & Hw1). specialize (IH w1 a1 Hw1).
    destruct (perform spec a1 ops) as [[a2 rs]|e|]; [|by rewrite IH|done].
    destruct IH as (w2 & -> & Hw2). by exists w2.
  - unfold agrees in H. rewrite H. specialize (IH w a Hwf).
    destruct (perform spec a ops) as [[a2 rs]|e'|]; [|by rewrite IH|done].
    destruct IH as (w2 & -> & Hw2). by exists w2.
Qed.

(** ** Versions *)

(** From [a] to [a'] each list's version has advanced at most [n] times, at least
    once if its sequence changed, and no address has come back. *)
Definition evolves (n : Z) (a a' : abs) : Prop :=
  (next_address a <= next_address a')%positive /\
  forall this, (this < next_address a)%positive ->
    match seqs a !! this, seqs a' !! this with
    | Some (xs, v), Some (xs', v') =>
        exists k : nat, Z.of_nat k <= n /\ v' = Nat.iter k bump v /\ (k = 0%nat -> xs' = xs)
    | None, Some _ => False
    | _, None => True
    end.

Lemma evolves_same n a a' : 0 <= n -> (next_address a <= next_address a')%positive ->
  (forall this, (this < next_address a)%positive -> seqs a' !! this = seqs a !! this) -> evolves n a a'.
Proof.
  intros Hn Ha H. split; [done|]. intros this Hthis. rewrite H by done.
  destruct (seqs a !! this) as [[xs v]|]; [|done]. by exists 0%nat.
Qed.

Lemma evolves_trans n m a b c : evolves n a b -> evolves m b c -> evolves (n + m) a c.
Proof.
  intros [H1 A] [H2 B]. split; [lia|]. intros this Hthis. specialize (A this Hthis). specialize (B this ltac:(lia)).
  destruct (seqs a !! this) as [[xs v]|], (seqs b !! this) as [[ys u]|], (seqs c !! this) as [[zs t]|]; try done.
  destruct A as (i & Hi & -> & Ei), B as (j & Hj & -> & Ej). exists (j + i)%nat. split; [lia|].
  split; [by rewrite Nat.iter_add|]. intros. rewrite Ej, Ei by lia. done.
Qed.

Lemma evolves_one n a a' this xs' : 1 <= n -> next_address a' = next_address a ->
  (forall xs v, seqs a !! this = Some (xs, v) -> seqs a' = <[this := (xs', bump v)]> (seqs a)) ->
  is_Some (seqs a !! this) -> evolves n a a'.
Proof.
  intros Hn Ha H [[xs v] Hs]. split; [by rewrite Ha|]. intros L HL. rewrite (H _ _ Hs), lookup_insert.
  case_decide.
  - subst. rewrite Hs. by exists 1%nat.
  - destruct (seqs a !! L) as [[ys u]|]; [|done]. exists 0%nat. split; [lia|done].
Qed.

Lemma evolves_attach n a this k x : 1 <= n -> evolves n a (attach a this k x).
Proof.
  intros Hn. unfold attach. destruct (seqs a !! this) as [[xs v]|] eqn:Hs; [|by apply evolves_same; [lia|..]].
  destruct (cells a !! x) as [[val o]|]; [|by apply evolves_same; [lia|..]].
  eapply (evolves_one n _ _ this); [done|done| |by eexists]. rewrite Hs. by intros ? ? [= -> ->].
Qed.

Lemma evolves_detach n a this k : 1 <= n -> evolves n a (detach a this k).
Proof.
  intros Hn. unfold detach. destruct (seqs a !! this) as [[xs v]|] eqn:Hs; [|by apply evolves_same; [lia|..]].
  destruct (xs !! k) as [x|]; [|by apply evolves_same; [lia|..]].
  destruct (cells a !! x) as [[val o]|]; [|by apply evolves_same; [lia|..]].
  eapply (evolves_one n _ _ this); [done|done| |by eexists]. rewrite Hs. by intros ? ? [= -> ->].
Qed.

Lemma evolves_vacate n a this xs v : 1 <= n -> seqs a !! this = Some (xs, v) -> evolves n a (vacate a this).
Proof.
  intros Hn Hs. unfold vacate, touch. rewrite (detach_all_this _ _ _ _ Hs). unfold detach_all. rewrite Hs.
  eapply (evolves_one n _ _ this []); [done|done| |by eexists]. rewrite Hs. cbn.
  intros ? ? [= <- <-]. by rewrite insert_insert_eq.
Qed.

Lemma push_address a this value :
  is_Some (seqs a !! this) -> next_address (push a this value) = Pos.succ (next_address a).
Proof.
  intros [[xs v] Hs]. unfold push, attach. rewrite Hs. cbn [allocate seqs cells]. by rewrite Hs, lookup_insert_eq.
Qed.

Lemma evolves_push a this value : evolves 1 a (push a this value).
Proof.
  unfold push. destruct (seqs a !! this) as [[xs v]|]; [|by apply evolves_same].
  apply (evolves_trans 0 1 a (allocate a value)); [|by apply evolves_attach].
  apply evolves_same; cbn; [lia|lia|done].
Qed.

Lemma evolves_copies this vals : forall a, evolves (Z.of_nat (length vals)) a (copies a this vals).
Proof.
  induction vals as [|value vals IH]; intros a; [by apply evolves_same|]. cbn [copies foldl length].
  replace (Z.of_nat (S (length vals))) with (1 + Z.of_nat (length vals)) by lia.
  eapply evolves_trans; [apply evolves_push|apply IH].
Qed.

Lemma evolves_weaken n m a b : n <= m -> evolves n a b -> evolves m a b.
Proof.
  intros Hnm [H A]. split; [done|]. intros this Hthis. specialize (A this Hthis).
  destruct (seqs a !! this) as [[xs v]|], (seqs b !! this) as [[ys u]|]; try done.
  destruct A as (k & ? & ?). exists k. split; [lia|done].
Qed.

(** An operation that adopts: [this] had been emptied or is new. *)
Lemma adopt_seqs a this other xs v os ov L : seqs a !! this = Some (xs, v) -> seqs a !! other = Some (os, ov) ->
  seqs (adopt a this other) !! L =
    if decide (L = other) then Some ([], bump ov) else if decide (L = this) then Some (os, v) else seqs a !! L.
Proof.
  intros Hs Ho. unfold adopt. rewrite Hs, Ho. cbn [seqs]. rewrite !lookup_insert.
  by repeat case_decide; subst.
Qed.

Lemma adopt_address a this other : next_address (adopt a this other) = next_address a.
Proof. unfold adopt. by destruct (seqs a !! this) as [[]|], (seqs a !! other) as [[]|]. Qed.

Lemma vacate_address a this : next_address (vacate a this) = next_address a.
Proof.
  unfold vacate, touch, detach_all. by destruct (seqs a !! this) as [[]|]; [destruct (_ !! _) as [[]|]|destruct (_ !! _) as [[]|]].
Qed.

Lemma evolves_move_construct n w a other os ov : 1 <= n -> wf w a -> seqs a !! other = Some (os, ov) ->
  evolves n a (adopt (allocate_list a) (next_address a) other).
Proof.
  intros Hn Hwf Ho. split; [rewrite adopt_address; cbn; lia|]. intros L HL.
  destruct (allocate_list_seqs _ _ _ Hwf _ Ho) as [Hne Ho'].
  rewrite (adopt_seqs _ _ _ [] 0 os ov) by (done || cbn; by rewrite lookup_insert_eq).
  rewrite (decide_False (P := L = next_address a)) by lia. case_decide.
  - subst. rewrite Ho. by exists 1%nat.
  - cbn. rewrite lookup_insert_ne by lia. destruct (seqs a !! L) as [[ys u]|]; [|done]. exists 0%nat. split; [lia|done].
Qed.

Lemma evolves_move_assign n a this other xs v os ov : 1 <= n -> this <> other ->
  seqs a !! this = Some (xs, v) -> seqs a !! other = Some (os, ov) ->
  evolves n a (adopt (vacate a this) this other).
Proof.
  intros Hn Hne Hs Ho. split; [rewrite adopt_address, vacate_address; lia|]. intros L HL.
  rewrite (adopt_seqs _ _ _ [] (bump v) os ov); rewrite ?(vacate_seqs _ _ _ _ _ Hs);
    [|by rewrite decide_True|by rewrite decide_False].
  case_decide; [|case_decide].
  - subst. rewrite Ho. by exists 1%nat.
  - subst. rewrite Hs. by exists 1%nat.
  - destruct (seqs a !! L) as [[ys u]|]; [|done]. exists 0%nat. split; [lia|done].
Qed.

Lemma evolves_discard n a this : 0 <= n -> evolves n a (discard a this).
Proof.
  intros Hn. split; [cbn; lia|]. intros L HL. cbn. rewrite lookup_delete. case_decide.
  - by destruct (seqs a !! L) as [[]|].
  - destruct (seqs a !! L) as [[ys u]|]; [|done]. exists 0%nat. split; [lia|done].
Qed.

Lemma values_length a xs : (length (values a xs) <= length xs)%nat.
Proof.
  induction xs as [|x xs IH]; [done|]. unfold values in *. cbn [omap list_omap].
  destruct (fst <$> cells a !! x); cbn; lia.
Qed.

Lemma insert_evolves a this k x a' : insert a this k x = Ok a' -> evolves 1 a a'.
Proof.
  unfold insert, seq. destruct (seqs a !! this) as [[xs v]|]; [|done]. rewrite bind_Ok.
  destruct (_ <? _); [|done]. intros [= <-]. by apply evolves_attach.
Qed.

Lemma allocate_evolves a value b n : evolves n (allocate a value) b -> evolves n a b.
Proof.
  intros H. replace n with (0 + n) by lia. eapply evolves_trans; [|exact H].
  apply evolves_same; cbn; [lia|lia|done].
Qed.

(** The cases of [spec ... = Ok _] by operation, the arguments checked; [link] is for
    those that link a node, [new] for those that make it first. *)
Ltac spec_cases o link new :=
  destruct o as [value|held|[y|]|[y|] value|[y|]|[y|]|[y|]| |this|other|other|this other|this other|this|this|this
    |this value|this h|this value|this h|this h value|this h nh|this h value|this h nh|this|this|this h|this value
    |this value|this value|this value|this|this dest index]; cbn [spec] in *; unfold info, seq in *;
  repeat match goal with
  | |- context [bind ?m _] =>
      lazymatch m with
      | insert _ _ _ _ => fail | append _ _ _ => fail
      | match ?y with _ => _ end => destruct y as [[? ?]|] eqn:?; rewrite ?bind_Ok; try done
      | _ => destruct m; rewrite ?bind_Ok; try done
      end
  end; try done; try solve [link]; try solve [intros H; new];
  repeat match goal with
  | |- bind ?m _ = _ -> _ => destruct m as [?| |] eqn:?; rewrite ?bind_Ok; try done
  | |- match ?y with _ => _ end = _ -> _ => destruct y eqn:?; try done
  end.

(** One operation: at most one step for each node it moves. *)
Lemma spec_evolves w a o a' r : wf w a -> spec a o = Ok (a', r) -> evolves (2 ^ 31) a a'.
Proof.
  intros Hwf. pose proof (fun this xs v => wf_size _ _ Hwf this xs v) as Hsz.
  assert (Hins : forall b this k x (ans : answer), (b0 <- insert b this k x ;; Ok (b0, ans)) = Ok (a', r) -> evolves (2 ^ 31) b a').
  { intros b this k x ans H. destruct (insert b this k x) as [c| |] eqn:E; [|done|done]. injection H as <- _.
    eapply evolves_weaken; [|by eapply insert_evolves]. lia. }
  assert (Happ : forall b this x (ans : answer), (b0 <- append b this x ;; Ok (b0, ans)) = Ok (a', r) -> evolves (2 ^ 31) b a').
  { intros b this x ans. unfold append. destruct (seq b this) as [xs| |]; [|done|done]. rewrite bind_Ok. apply Hins. }
  assert (Hsame : forall b, b = a -> evolves (2 ^ 31) a b) by (intros ? ->; by apply evolves_same; [lia|..]).
  spec_cases o ltac:(first [eapply Hins | eapply Happ]) ltac:(eapply allocate_evolves; first [by eapply Hins | by eapply Happ]); try (intros [= <- <-]; solve [by apply Hsame | by apply evolves_same; cbn; [lia|lia|..]
    | by apply evolves_detach | by eapply evolves_vacate | by eapply evolves_move_construct | by apply evolves_discard]).
  - intros [= <- _]. apply evolves_same; [lia|cbn; lia|]. intros L HL. cbn. by rewrite lookup_insert_ne by lia.
  - intros [= <- _]. destruct (seqs a !! other) as [[os ov]|] eqn:Ho; [|done]. simplify_eq/=.
    specialize (Hsz _ _ _ Ho). replace (2 ^ 31) with (0 + 2 ^ 31) by lia.
    apply (evolves_trans _ _ _ (allocate_list a)).
    + apply evolves_same; [lia|cbn; lia|]. intros L HL. cbn. by rewrite lookup_insert_ne by lia.
    + eapply evolves_weaken, evolves_copies. pose proof (values_length a l). lia.
  - intros [= <- _]. case_decide; [by apply Hsame|].
    destruct (seqs a !! this) as [[xs v]|] eqn:Hs; [|done]. destruct (seqs a !! other) as [[os ov]|] eqn:Ho; [|done].
    simplify_eq/=. pose proof (Hsz _ _ _ Ho). pose proof (values_length a l0).
    replace (2 ^ 31) with (1 + (2 ^ 31 - 1)) by lia.
    apply (evolves_trans _ _ _ (vacate a this)); [by eapply evolves_vacate|].
    eapply evolves_weaken, evolves_copies. lia.
  - intros [= <- _]. case_decide; [by apply Hsame|].
    destruct (seqs a !! this) as [[xs v]|] eqn:Hs; [|done]. destruct (seqs a !! other) as [[os ov]|] eqn:Ho; [|done].
    by eapply evolves_move_assign.
Qed.

Lemma perform_evolves ops : forall w a a' rs, wf w a -> perform spec a ops = Ok (a', rs) ->
  evolves (2 ^ 31 * Z.of_nat (length ops)) a a'.
Proof.
  induction ops as [|o ops IH]; intros w a a' rs Hwf; cbn [perform].
  { intros [= <- _]. by apply evolves_same. }
  pose proof (exec_agrees w a o Hwf) as Ha. cbn [length].
  replace (2 ^ 31 * Z.of_nat (S (length ops))) with (2 ^ 31 + 2 ^ 31 * Z.of_nat (length ops)) by lia.
  destruct (spec a o) as [[a1 r]|e|] eqn:E; [| |done].
  - destruct Ha as (w1 & _ & Hw1). destruct (perform spec a1 ops) as [[a2 rs2]| |] eqn:E2; [|done|done].
    intros [= <- _]. eapply evolves_trans; [by eapply spec_evolves|by eapply IH].
  - destruct (perform spec a ops) as [[a2 rs2]| |] eqn:E2; [|done|done].
    intros [= <- _]. eapply (evolves_weaken (2 ^ 31 * Z.of_nat (length ops))); [lia|by eapply IH].
Qed.

(** ** Enumerating *)

(** [while (e.MoveNext()) { ... e.Current() ... }], the values seen and the
    enumerator at the end. *)
Fixpoint drain (fuel : nat) (w : world) (e : enumerator) : res (list T * enumerator) :=
  match fuel with
  | O => UB
  | S fuel =>
      p <- MoveNext w e ;;
      if snd p
      then val <- Current w (fst p) ;; q <- drain fuel w (fst p) ;; Ok (val :: fst q, snd q)
      else Ok ([], fst p)
  end.

Lemma drain_ok w a this xs v : wf w a -> seqs a !! this = Some (xs, v) ->
  forall ys k fuel cur started st, drop k xs = ys -> st <> AfterLast -> (length ys < fuel)%nat ->
  (if started : bool then exists x, cur = Some x /\ (0 < k)%nat /\ xs !! (k - 1)%nat = Some x
   else k = 0%nat /\ cur = head xs) ->
  drain fuel w (Enumerator this v cur started st) =
    Ok (values a ys, Enumerator this v None true AfterLast).
Proof.
  intros Hwf Hs. induction ys as [|x ys IH]; intros k fuel cur started st Hk Hst Hf Hcur;
    (destruct fuel as [|fuel]; [cbn in Hf; lia|]).
  all: assert (Hnext : (if negb started then Ok cur
      else match cur with Some y => n <- deref w y ;; Ok (next n) | None => Ok None end) = Ok (xs !! k)).
  1, 3: destruct started; cbn [negb];
    [destruct Hcur as (y & -> & Hpos & Hy); destruct (wf_member _ _ Hwf _ _ _ _ _ Hs Hy) as (val & _ & Hn);
     rewrite (deref_at _ _ _ Hn), bind_Ok; cbn [next]; by replace (S (k - 1)) with k by lia
    |destruct Hcur as [-> ->]; by rewrite head_lookup].
  all: assert (Hkx : xs !! k = head (drop k xs)) by (by rewrite head_lookup, lookup_drop, Nat.add_0_r).
  all: rewrite Hk in Hkx; rewrite Hkx in Hnext; cbn [head] in *; cbn [drain];
    unfold MoveNext at 1; cbn [list_ snapshot cur_ started_ state_];
    rewrite (wf_the _ _ Hwf _ _ _ Hs), bind_Ok; cbn [header version_ snd]; rewrite Z.eqb_refl;
    cbn [requireUnmodified throw_if negb bind]; rewrite decide_False, Hnext by done; cbn [bind snd fst].
  { done. }
  destruct (wf_member _ _ Hwf _ _ _ _ _ Hs Hkx) as (val & Hc & Hn).
  unfold Current. cbn [state_ cur_ requireCurrent bind]. rewrite (deref_at _ _ _ Hn), !bind_Ok. cbn [item].
  rewrite (IH (S k)), bind_Ok; [|by rewrite (drop_S _ _ _ Hkx) in Hk; injection Hk|done|cbn in Hf; lia|].
  - cbn [fst snd]. unfold values at 2. cbn [omap list_omap]. by rewrite Hc.
  - exists x. split; [done|]. split; [lia|]. by rewrite Nat.sub_1_r.
Qed.

(** An enumerator taken at another version refuses. *)
Lemma stale w a this xs v e : wf w a -> seqs a !! this = Some (xs, v) -> list_ e = this -> snapshot e <> v ->
  MoveNext w e = Throw (InvalidOperationException "Collection was modified; enumeration operation may not execute.") /\
  Reset w e = Throw (InvalidOperationException "Collection was modified; enumeration operation may not execute.").
Proof.
  intros Hwf Hs He Hv. unfold MoveNext, Reset. rewrite He, (wf_the _ _ Hwf _ _ _ Hs), !bind_Ok.
  cbn [header version_ snd]. by rewrite (proj2 (Z.eqb_neq _ _) Hv).
Qed.

(** ** Nodes that a handle holds *)

(** The value of [x] is there in both. *)
Definition retains (x : positive) (a b : abs) : Prop :=
  forall val, fst <$> cells a !! x = Some val -> fst <$> cells b !! x = Some val.

Lemma retains_trans x a b c : retains x a b -> retains x b c -> retains x a c.
Proof. unfold retains. auto. Qed.

Lemma retains_same x a b : cells b !! x = cells a !! x -> retains x a b.
Proof. intros H val. by rewrite H. Qed.

Lemma retains_attach x a this k y : retains x a (attach a this k y).
Proof.
  unfold attach. destruct (seqs a !! this) as [[xs v]|]; [|by apply retains_same].
  destruct (cells a !! y) as [[val o]|] eqn:E; [|by apply retains_same]. intros u. cbn. rewrite lookup_insert.
  case_decide; [by subst; rewrite E|done].
Qed.

Lemma retains_detach x a this k : retains x a (detach a this k).
Proof.
  unfold detach. destruct (seqs a !! this) as [[xs v]|]; [|by apply retains_same]. destruct (xs !! k) as [y|]; [|by apply retains_same].
  destruct (cells a !! y) as [[val o]|] eqn:E; [|by apply retains_same]. intros u. cbn. rewrite lookup_insert.
  case_decide; [by subst; rewrite E|done].
Qed.

Lemma retains_detach_all x a this : retains x a (detach_all a this).
Proof.
  unfold detach_all. destruct (seqs a !! this) as [[xs v]|]; [|by apply retains_same]. intros u. cbn. rewrite map_lookup_imap.
  destruct (cells a !! x) as [c|]; [|done]. cbn. by case_decide.
Qed.

Lemma retains_vacate x a this : retains x a (vacate a this).
Proof.
  unfold vacate, touch. destruct (seqs (detach_all a this) !! this) as [[]|]; apply retains_detach_all.
Qed.

Lemma retains_adopt x a this other : retains x a (adopt a this other).
Proof.
  unfold adopt. destruct (seqs a !! this) as [[xs v]|], (seqs a !! other) as [[os ov]|]; try by apply retains_same.
  intros u. cbn. rewrite map_lookup_imap. destruct (cells a !! x) as [c|]; [|done]. cbn. by case_decide.
Qed.

(** New addresses are not those of nodes there already. *)
Definition below (x : positive) (a : abs) : Prop := (x < next_address a)%positive.

Lemma retains_push x a this value : below x a -> retains x a (push a this value) /\ below x (push a this value).
Proof.
  intros Hx. unfold push. destruct (seqs a !! this) as [[xs v]|]; [|by split; [apply retains_same|]]. split.
  - eapply retains_trans; [|apply retains_attach]. apply retains_same. cbn. rewrite lookup_insert_ne; [done|].
    unfold below in Hx. lia.
  - unfold attach. cbn [allocate seqs cells]. destruct (seqs a !! this) as [[? ?]|]; [|cbn; unfold below in *; cbn; lia].
    rewrite lookup_insert_eq. unfold below in *. cbn. lia.
Qed.

Lemma retains_copies x this vals : forall a, below x a -> retains x a (copies a this vals).
Proof.
  induction vals as [|value vals IH]; intros a Hx; [by apply retains_same|]. cbn [copies foldl].
  destruct (retains_push x a this value Hx). eapply retains_trans; [done|by apply IH].
Qed.

(** The operations that neither set the value of [x] nor let its handle go. *)
Definition holds_on (x : positive) (o : op) : Prop :=
  match o with
  | Release held => x ∈ held
  | SetValue h _ => h <> Some x
  | _ => True
  end.

Lemma insert_retains x a this k y a' : insert a this k y = Ok a' -> retains x a a'.
Proof.
  unfold insert. destruct (seq a this); [|done|done]. rewrite bind_Ok. destruct (_ <? _); [|done].
  intros [= <-]. apply retains_attach.
Qed.

Lemma allocate_retains x a value b : below x a -> retains x (allocate a value) b -> retains x a b.
Proof.
  intros Hx. apply retains_trans, retains_same. cbn. rewrite lookup_insert_ne; [done|].
  unfold below in Hx. lia.
Qed.

Lemma spec_retains x a o a' r : below x a -> holds_on x o -> spec a o = Ok (a', r) -> retains x a a'.
Proof.
  intros Hx Ho.
  assert (Hins : forall b this k y (ans : answer), (b0 <- insert b this k y ;; Ok (b0, ans)) = Ok (a', r) -> retains x b a').
  { intros b this k y ans H. destruct (insert b this k y) as [c| |] eqn:E; [|done|done]. injection H as <- _.
    by eapply insert_retains. }
  assert (Happ : forall b this y (ans : answer), (b0 <- append b this y ;; Ok (b0, ans)) = Ok (a', r) -> retains x b a').
  { intros b this y ans. unfold append. destruct (seq b this) as [xs| |]; [|done|done]. rewrite bind_Ok. apply Hins. }
  spec_cases o ltac:(first [eapply Hins | eapply Happ]) ltac:(eapply allocate_retains; [done|first [by eapply Hins | by eapply Happ]]); try (intros [= <- <-]; solve [by apply retains_same | apply retains_detach | apply retains_vacate
    | apply retains_detach_all | eapply allocate_retains; [done|by apply retains_same] ]).
  - intros [= <- _] val. cbn. destruct (cells a !! x) as [c|] eqn:E; [|done].
    rewrite map_lookup_filter_Some_2 with (x := c); [done|done|by right].
  - intros [= <- _] val. cbn. rewrite lookup_insert_ne; [done|congruence].
  - intros [= <- _]. eapply retains_trans; [by apply (retains_same x a (allocate_list a))|].
    apply retains_copies. unfold below in *. cbn. lia.
  - intros [= <- _]. eapply retains_trans; [by apply (retains_same x a (allocate_list a))|apply retains_adopt].
  - intros [= <- _]. case_decide; [by apply retains_same|].
    eapply retains_trans; [apply retains_vacate|]. apply retains_copies. unfold below. by rewrite vacate_address.
  - intros [= <- _]. case_decide; [by apply retains_same|].
    eapply retains_trans; [apply retains_vacate|apply retains_adopt].
Qed.

Lemma perform_retains x ops : forall w a a' rs, wf w a -> below x a -> Forall (holds_on x) ops ->
  perform spec a ops = Ok (a', rs) -> retains x a a'.
Proof.
  induction ops as [|o ops IH]; intros w a a' rs Hwf Hx Hall; cbn [perform].
  { intros [= <- _]. by apply retains_same. }
  apply Forall_cons in Hall as [Ho Hall]. pose proof (exec_agrees w a o Hwf) as Ha.
  destruct (spec a o) as [[a1 r]|e|] eqn:E; [| |done].
  - destruct Ha as (w1 & _ & Hw1). destruct (perform spec a1 ops) as [[a2 rs2]| |] eqn:E2; [|done|done].
    intros [= <- _]. eapply retains_trans; [by eapply spec_retains|]. eapply IH; [done| |done|done].
    destruct (spec_evolves _ _ _ _ _ Hwf E) as [Hb _]. unfold below in *. lia.
  - destruct (perform spec a ops) as [[a2 rs2]| |] eqn:E2; [|done|done].
    intros [= <- _]. by eapply IH.
Qed.

Lemma wf_below w a x c : wf w a -> cells a !! x = Some c -> below x a.
Proof.
  intros Hwf Hx. unfold below. rewrite <- (wf_brk _ _ Hwf). destruct (Pos.lt_total x (brk w)) as [H|H]; [done|].
  destruct (wf_fresh _ _ Hwf x ltac:(lia)) as [F _]. by rewrite (cells_of w), F in Hx.
Qed.

(** ** Properties *)

(** Following handles from [h]: the nodes visited. *)
Fixpoint walk (fuel : nat) (step : handle -> res handle) (h : handle) : res (list positive) :=
  match fuel, h with
  | _, None => Ok []
  | O, Some _ => UB
  | S fuel, Some x => h <- step (Some x) ;; xs <- walk fuel step h ;; Ok (x :: xs)
  end.

Lemma walk_ok stp ys : forall fuel, (length ys <= fuel)%nat ->
  (forall i x, ys !! i = Some x -> stp (Some x) = Ok (ys !! S i)) -> walk fuel stp (head ys) = Ok ys.
Proof.
  induction ys as [|x ys IH]; intros fuel Hf H; [by destruct fuel|]. destruct fuel as [|fuel]; [cbn in Hf; lia|].
  cbn [head walk]. rewrite (H O x eq_refl), bind_Ok. change ((x :: ys) !! 1%nat) with (ys !! 0%nat).
  rewrite <- head_lookup, IH; [done|cbn in Hf; lia|]. intros i. exact (H (S i)).
Qed.

Lemma walks w a this xs v : wf w a -> seqs a !! this = Some (xs, v) ->
  walk (chain_fuel w) (getNext w) (head xs) = Ok xs /\
  walk (chain_fuel w) (getPrevious w) (last xs) = Ok (reverse xs).
Proof.
  intros Hwf Hs. pose proof (wf_chain_fuel _ _ _ _ _ Hwf Hs). split.
  - apply walk_ok; [lia|]. intros i x Hx. destruct (wf_member _ _ Hwf _ _ _ _ _ Hs Hx) as (val & _ & Hn).
    cbn. by rewrite (deref_at _ _ _ Hn).
  - rewrite <- head_reverse. apply walk_ok; [rewrite length_reverse; lia|]. intros i x Hi.
    pose proof (lookup_lt_Some _ _ _ Hi) as Hlt. rewrite length_reverse in Hlt. rewrite reverse_lookup in Hi by done.
    destruct (wf_member _ _ Hwf _ _ _ _ _ Hs Hi) as (val & _ & Hn).
    cbn [getPrevious]. rewrite (deref_at _ _ _ Hn), bind_Ok. cbn [prev]. rewrite (wf_before _ _ Hwf _ _ _ _ Hs).
    f_equal. destruct (decide (S i < length xs)%nat).
    + rewrite reverse_lookup by done. by replace (length xs - S i)%nat with (S (length xs - S (S i))) by lia.
    + replace (length xs - S i)%nat with 0%nat by lia. symmetry. apply lookup_ge_None_2. rewrite length_reverse. lia.
Qed.

(** C39: The lists on the shared store refine independent sequences of nodes: for every program of
    public operations from the empty store (insertions by value and of detached nodes, removals,
    copies, moves, assignments, destruction, searches, node navigation, handles let go) whose outcome
    the sequences define, the code gives the same answers and the same exceptions, operation by
    operation, and its store represents the sequences at the end. *)
Theorem LinkedList_refines_sequences ops a rs : perform spec no_lists ops = Ok (a, rs) ->
  exists w, perform exec empty_world ops = Ok (w, rs) /\ wf w a.
Proof. intros H. pose proof (perform_agrees _ _ ops empty_wf) as P. by rewrite H in P. Qed.

(** In every store a program reaches, each live list is one doubly linked chain: [Next] from
    [First] and [Previous] from [Last] visit the same nodes in opposite orders without a dangling
    pointer, each of them reports the list as its owner, and [Count] is their number. *)
Theorem LinkedList_chains ops a rs w this l : perform spec no_lists ops = Ok (a, rs) ->
  perform exec empty_world ops = Ok (w, rs) -> lists w !! this = Some l ->
  exists xs, walk (chain_fuel w) (getNext w) (head_ l) = Ok xs /\
    walk (chain_fuel w) (getPrevious w) (lock w (tail_ l)) = Ok (reverse xs) /\
    Forall (fun x => getList w (Some x) = Ok (Some this)) xs /\ count_ l = Z.of_nat (length xs) /\ NoDup xs.
Proof.
  intros H Hw Hl. pose proof (perform_agrees _ _ ops empty_wf) as P. rewrite H in P.
  destruct P as (w' & Hw' & Hwf). rewrite Hw in Hw'. injection Hw' as <-.
  rewrite (wf_lists _ _ Hwf), lookup_fmap in Hl. destruct (seqs a !! this) as [[xs v]|] eqn:Hs; [|done].
  injection Hl as <-. cbn [header head_ tail_ count_ fst]. exists xs.
  rewrite (wf_last _ _ Hwf _ _ _ Hs). destruct (walks _ _ _ _ _ Hwf Hs). split; [done|]. split; [done|].
  split; [|split; [done|by eapply wf_nodup]]. apply Forall_forall. intros x [i Hx]%list_elem_of_lookup.
  destruct (wf_member _ _ Hwf _ _ _ _ _ Hs Hx) as (val & _ & Hn). cbn. by rewrite (deref_at _ _ _ Hn).
Qed.

(** A node a client holds survives whatever happens to the lists: after any program that neither
    sets its value nor lets its handle go (its list may be cleared, assigned to, moved or destroyed),
    its value is still there to read. *)
Theorem LinkedListNode_survives w a x val ops a' rs : wf w a -> getValue w (Some x) = Ok val ->
  Forall (holds_on x) ops -> perform spec a ops = Ok (a', rs) ->
  exists w', perform exec w ops = Ok (w', rs) /\ getValue w' (Some x) = Ok val.
Proof.
  intros Hwf Hv Hall H. assert (Hc : fst <$> cells a !! x = Some val).
  { unfold getValue, requireNode, deref in Hv. rewrite (cells_of w) by done.
    destruct (nodes w !! x) as [n|]; [|done]. by injection Hv as <-. }
  assert (Hx : below x a) by (destruct (cells a !! x) eqn:E; [by eapply wf_below|done]).
  pose proof (perform_retains _ _ _ _ _ _ Hwf Hx Hall H _ Hc) as Hc'.
  pose proof (perform_agrees _ _ ops Hwf) as P. rewrite H in P. destruct P as (w' & Hw' & Hwf').
  exists w'. split; [done|]. rewrite (cells_of w') in Hc' by done. unfold getValue, requireNode, deref.
  destruct (nodes w' !! x) as [n|]; [|done]. by injection Hc' as <-.
Qed.

(** Enumerating a list nobody changes yields its values in order, within one step
    more than the store has nodes, and leaves the enumerator after the last of them. *)
Theorem LinkedList_enumerates w a this xs v e : wf w a -> seqs a !! this = Some (xs, v) ->
  GetEnumerator w this = Ok e ->
  exists e', drain (chain_fuel w) w e = Ok (values a xs, e') /\ MoveNext w e' = Ok (e', false) /\
    Current w e' = Throw (InvalidOperationException "Enumeration already finished.").
Proof.
  intros Hwf Hs. unfold GetEnumerator. rewrite (wf_the _ _ Hwf _ _ _ Hs), bind_Ok. intros H. injection H as <-.
  cbn [header version_ head_ fst snd]. exists (Enumerator this v None true AfterLast). split; [|split; [|done]].
  - apply (drain_ok _ _ _ _ _ Hwf Hs xs 0); [done|done|by eapply wf_chain_fuel|done].
  - unfold MoveNext. cbn [list_ snapshot state_]. rewrite (wf_the _ _ Hwf _ _ _ Hs), bind_Ok.
    cbn [header version_ snd]. by rewrite Z.eqb_refl.
Qed.

(** C40: An enumerator fails fast: once a program of fewer than [2^32] operations has left the list
    with another sequence of nodes, [MoveNext] and [Reset] of every enumerator taken before it throw
    [InvalidOperationException]. The 64-bit version cannot have come back round. *)
Theorem LinkedList_enumerator_fails_fast w a this xs v ops a' rs xs' v' e :
  wf w a -> seqs a !! this = Some (xs, v) -> Z.of_nat (length ops) < 2 ^ 32 ->
  perform spec a ops = Ok (a', rs) -> seqs a' !! this = Some (xs', v') -> xs' <> xs ->
  list_ e = this -> snapshot e = v ->
  exists w', perform exec w ops = Ok (w', rs) /\
    MoveNext w' e = Throw (InvalidOperationException "Collection was modified; enumeration operation may not execute.") /\
    Reset w' e = Throw (InvalidOperationException "Collection was modified; enumeration operation may not execute.").
Proof.
  intros Hwf Hs Hlen H Hs' Hne He Hv. pose proof (perform_agrees _ _ ops Hwf) as P. rewrite H in P.
  destruct P as (w' & Hw' & Hwf'). exists w'. split; [done|]. eapply stale; [done|done|done|].
  destruct (perform_evolves _ _ _ _ _ Hwf H) as [_ E].
  assert (Hthis : (this < next_address a)%positive).
  { rewrite <- (wf_brk _ _ Hwf). destruct (Pos.lt_total this (brk w)) as [?|?]; [done|].
    destruct (wf_fresh _ _ Hwf this ltac:(lia)) as [_ F]. by rewrite (wf_list_at _ _ _ _ _ Hwf Hs) in F. }
  specialize (E this Hthis). rewrite Hs, Hs' in E. destruct E as (k & Hk & -> & Hz). rewrite Hv.
  apply not_eq_sym, bumps_differ. destruct k; [by destruct Hne, Hz|]. lia.
Qed.

(** [Current] has no such guard: when the current node has been removed and no handle holds it,
    [Current] of the enumerator reads a freed node. *)
Theorem LinkedList_current_after_removal w a this xs v i x e held : wf w a ->
  seqs a !! this = Some (xs, v) -> xs !! i = Some x -> x ∉ held ->
  state_ e = AtCurrent -> cur_ e = Some x ->
  exists w' rs, perform exec w [TakeNode this (Some x); Release held] = Ok (w', rs) /\ Current w' e = UB.
Proof.
  intros Hwf Hs Hx Hh Hst Hcur. destruct (wf_member _ _ Hwf _ _ _ _ _ Hs Hx) as (val & Hc & _).
  pose proof (perform_agrees _ _ [TakeNode this (Some x); Release held] Hwf) as P.
  cbn [perform spec member] in P. unfold info, seq in P. rewrite Hc, bind_Ok in P. cbn [snd] in P.
  rewrite decide_True, Hs, bind_Ok, (wf_position _ _ _ _ _ _ _ Hwf Hs Hx) in P by done. cbn [bind fst snd] in P.
  destruct P as (w' & Hw' & Hwf'). exists w'. eexists. split; [exact Hw'|].
  unfold Current. rewrite Hst, Hcur. cbn [requireCurrent bind]. unfold deref.
  assert (Hgone : cell <$> nodes w' !! x = None).
  { rewrite <- (cells_of w') with (a := keep (detach a this i) held) by done. cbn [keep cells].
    apply map_lookup_filter_None. right. intros c Hc'. unfold detach in Hc'. rewrite Hs, Hx, Hc in Hc'.
    cbn [cells] in Hc'. rewrite lookup_insert_eq in Hc'. injection Hc' as <-. cbn. tauto. }
  by destruct (nodes w' !! x).
Qed.

End LinkedListRefinement.

(** ** A program that runs *)

Definition demo : list (op (T := Z)) :=
  [NewList; PutLast 1 10; PutFirst 1 20; PutAfter 1 (Some 3%positive) 30; NewNode 40; LinkBefore 1 (Some 2%positive) (Some 5%positive);
   LinkLast 1 (Some 5%positive); TakeValue 1 30; CopyConstruct 1; Previous (Some 2%positive); Search 1 40; Count 6;
   Copy 6 [0; 0; 0; 0] 1; MoveAssign 1 6; ListOf (Some 7%positive); ListOf (Some 3%positive); TakeNode 6 (Some 3%positive); Release {[2%positive; 3%positive]};
   Value (Some 3%positive); TakeLast 1].

Definition demo_world : world (T := Z) := match perform (exec Z.eqb) empty_world demo with Ok (w, _) => w | _ => empty_world end.
Definition demo_abs : abs (T := Z) := match perform (spec Z.eqb) no_lists demo with Ok (a, _) => a | _ => no_lists end.

(** What it answers. *)
Example demo_answers : (p <- perform (exec Z.eqb) empty_world demo ;; Ok (snd p)) = Ok
  [Ok (List_at (Some 1%positive)); Ok (Node_ (Some 2%positive)); Ok (Node_ (Some 3%positive)); Ok (Node_ (Some 4%positive)); Ok (Node_ (Some 5%positive)); Ok Done;
   Throw (InvalidOperationException "The LinkedList node already belongs to a LinkedList."); Ok (Bool true);
   Ok (List_at (Some 6%positive)); Ok (Node_ (Some 5%positive)); Ok (Node_ (Some 5%positive)); Ok (Number 3); Ok (Array [0; 20; 40; 10]);
   Ok Done; Ok (List_at (Some 1%positive)); Ok (List_at None);
   Throw (InvalidOperationException "The LinkedList node does not belong to current LinkedList."); Ok Done;
   Ok (Item 20); Ok Done].
Proof. vm_compute. reflexivity. Qed.

Lemma demo_runs : exists rs, perform (spec Z.eqb) no_lists demo = Ok (demo_abs, rs) /\
  perform (exec Z.eqb) empty_world demo = Ok (demo_world, rs).
Proof. eexists. split; vm_compute; reflexivity. Qed.

Lemma demo_wf : wf demo_world demo_abs.
Proof.
  destruct demo_runs as (rs & Es & Ew). pose proof (perform_agrees Z.eqb _ _ demo empty_wf) as P.
  rewrite Es in P. destruct P as (w & E & Hw). rewrite Ew in E.
  assert (F : forall (x y : world (T := Z) * list (res (answer (T := Z)))), Ok x = Ok y -> fst x = fst y) by (by intros ? ? [= ->]).
  apply F in E. cbn [fst] in E. rewrite E. exact Hw.
Qed.

Lemma LinkedList_refines_sequences_witness : exists rs w,
  perform (exec Z.eqb) empty_world demo = Ok (w, rs) /\ wf w demo_abs.
Proof. destruct demo_runs as (rs & Es & _). exists rs. exact (LinkedList_refines_sequences Z.eqb _ _ _ Es). Defined.

Lemma LinkedList_chains_witness : exists xs,
  walk (chain_fuel demo_world) (getNext demo_world) (Some 7%positive) = Ok xs /\ length xs = 2%nat.
Proof.
  destruct demo_runs as (rs & Es & Ew).
  assert (El : lists demo_world !! 1%positive = Some (List_ (Some 7%positive) (Some 8%positive) 2 7))
    by (vm_compute; reflexivity).
  destruct (LinkedList_chains Z.eqb _ _ _ _ _ _ Es Ew El) as (xs & Hxs & _ & _ & Hc & _).
  exists xs. split; [exact Hxs|]. cbn in Hc. lia.
Defined.

Lemma LinkedListNode_survives_witness : exists rs w,
  perform (exec Z.eqb) demo_world [Empty 1%positive; Destroy 1%positive; Release {[7%positive]}] = Ok (w, rs) /\
  getValue w (Some 7%positive) = Ok 20.
Proof.
  eexists. eapply (LinkedListNode_survives Z.eqb demo_world demo_abs).
  - exact demo_wf.
  - vm_compute. reflexivity.
  - repeat constructor.
  - vm_compute. reflexivity.
Defined.

Lemma LinkedList_enumerates_witness : exists e',
  drain (chain_fuel demo_world) demo_world (Enumerator 1 7 (Some 7%positive) false BeforeFirst) = Ok ([20; 40], e').
Proof.
  destruct (LinkedList_enumerates demo_world demo_abs 1 [7; 8]%positive 7
    (Enumerator 1 7 (Some 7%positive) false BeforeFirst) demo_wf) as (e' & E & _).
  - vm_compute. reflexivity.
  - vm_compute. reflexivity.
  - exists e'. rewrite E. f_equal.
Defined.

Lemma LinkedList_enumerator_fails_fast_witness : exists rs w,
  perform (exec Z.eqb) demo_world [TakeFirst 1%positive] = Ok (w, rs) /\
  MoveNext w (Enumerator 1 7 (Some 7%positive) true AtCurrent) =
    Throw (InvalidOperationException "Collection was modified; enumeration operation may not execute.").
Proof.
  eexists. edestruct (LinkedList_enumerator_fails_fast Z.eqb demo_world demo_abs 1 [7; 8]%positive 7
    [TakeFirst 1%positive]) with (e := Enumerator 1 7 (Some 7%positive) true AtCurrent) as (w & E & Hm & _).
  - exact demo_wf.
  - vm_compute. reflexivity.
  - cbn. lia.
  - vm_compute. reflexivity.
  - vm_compute. reflexivity.
  - discriminate.
  - reflexivity.
  - reflexivity.
  - exists w. split; [exact E|exact Hm].
Defined.

Lemma LinkedList_current_after_removal_witness : exists w rs,
  perform (exec Z.eqb) demo_world [TakeNode 1 (Some 7%positive); Release ∅] = Ok (w, rs) /\
  Current w (Enumerator 1 7 (Some 7%positive) true AtCurrent) = UB.
Proof.
  apply (LinkedList_current_after_removal Z.eqb demo_world demo_abs 1 [7; 8]%positive 7 0 7).
  - exact demo_wf.
  - vm_compute. reflexivity.
  - reflexivity.
  - by apply not_elem_of_empty.
  - reflexivity.
  - reflexivity.
Defined.

End LinkedListRefinement.
