(* ===== verification/Decimal.v ===== *)
(** * Decimal: the value and its arithmetic

    [core/src/System/Decimal.cpp] and [core/include/System/Decimal.hpp]: a 96-bit
    mantissa, a scale of at most 28 decimal digits and a sign, with arithmetic in
    unsigned 128-bit integers.  The members that take or return [double] or [float]
    are not modelled. *)

From S2P Require Export MachineInt Text.

#[local] Open Scope Z_scope.

Module Decimal.

(** The scaled magnitudes are [unsigned __int128], the scale is [uint8_t]. *)
Definition MAX_MANTISSA : Z := 2 ^ 96 - 1.

Record Decimal := decimal { mantissa_ : Z; scale_ : Z; negative_ : bool }.

#[export] Instance Decimal_eq_dec : EqDecision Decimal.
Proof. solve_decision. Defined.

Definition default : Decimal := decimal 0 0 false.

(** ** Helpers *)

Record uint192 := U192 { lo : Z; mid : Z; hi : Z }.

Definition mul96x96 (a b : Z) : uint192 :=
  let a0 := u64 a in let a1 := u64 (Z.shiftr a 64) in
  let b0 := u64 b in let b1 := u64 (Z.shiftr b 64) in
  let p00 := umul 128 a0 b0 in
  let p01 := umul 128 a0 b1 in
  let p10 := umul 128 a1 b0 in
  let p11 := umul 128 a1 b1 in
  let c1 := uadd 128 (uadd 128 (Z.shiftr p00 64) p01) p10 in
  let c2 := uadd 128 (Z.shiftr c1 64) p11 in
  U192 (u64 p00) (u64 c1) (u64 c2).

(** The remainder, and the quotient left in the argument. *)
Definition div192by10 (v : uint192) : Z * uint192 :=
  let r := hi v in
  let h := u64 (r / 10) in
  let r := Z.lor (ushl 128 (r mod 10) 64) (mid v) in
  let m := u64 (r / 10) in
  let r := Z.lor (ushl 128 (r mod 10) 64) (lo v) in
  let l := u64 (r / 10) in
  (u32 (r mod 10), U192 l m h).

Definition fits96 (v : uint192) : bool := (hi v =? 0) && (Z.shiftr (mid v) 32 =? 0).

Definition to128 (v : uint192) : Z := Z.lor (ushl 128 (mid v) 64) (lo v).

(** One decimal digit less, the digit dropped rounded half away from zero. *)
Definition drop_digit (m : Z) : Z :=
  let rem := u32 (m mod 10) in
  let m := m / 10 in
  if rem >=? 5 then uadd 128 m 1 else m.

(** [while (s1 < s2)] *)
Fixpoint align_loop (fuel : nat) (m1 s1 m2 s2 : Z) : res ((Z * Z) * (Z * Z)) :=
  if s1 <? s2 then
    match fuel with
    | O => UB
    | S fuel =>
        if m1 <=? MAX_MANTISSA / 10 then align_loop fuel (umul 128 m1 10) (u8 (s1 + 1)) m2 s2
        else align_loop fuel m1 s1 (drop_digit m2) (u8 (s2 - 1))
    end
  else Ok ((m1, s1), (m2, s2)).

(** The two loops; the second is the first with the operands exchanged. *)
Definition alignScales (m1 s1 m2 s2 : Z) : res ((Z * Z) * (Z * Z)) :=
  r <- align_loop (Z.to_nat (s2 - s1)) m1 s1 m2 s2 ;;
  let '((m1, s1), (m2, s2)) := r in
  r <- align_loop (Z.to_nat (s1 - s2)) m2 s2 m1 s1 ;;
  let '((m2, s2), (m1, s1)) := r in Ok ((m1, s1), (m2, s2)).

Definition decimal_overflow : exn := OverflowException "Decimal overflow.".

Fixpoint fit_loop (fuel : nat) (m s : Z) : res (Z * Z) :=
  if m >? MAX_MANTISSA then
    match fuel with
    | O => UB
    | S fuel =>
        let m := drop_digit m in
        if s =? 0 then Throw decimal_overflow else fit_loop fuel m (u8 (s - 1))
    end
  else Ok (m, s).

Definition fitMantissa (d : Decimal) : res Decimal :=
  r <- fit_loop (S (Z.to_nat (scale_ d))) (mantissa_ d) (scale_ d) ;;
  let '(m, s) := r in Ok (decimal m s (negative_ d)).

(** [while (scale_ > 0 && mantissa_ % 10 == 0)] *)
Fixpoint strip_loop (fuel : nat) (m s : Z) : res (Z * Z) :=
  if (s >? 0) && (m mod 10 =? 0) then
    match fuel with O => UB | S fuel => strip_loop fuel (m / 10) (u8 (s - 1)) end
  else Ok (m, s).

Definition normalize (d : Decimal) : res Decimal :=
  r <- strip_loop (Z.to_nat (scale_ d)) (mantissa_ d) (scale_ d) ;;
  let '(m, s) := r in
  Ok (if m =? 0 then decimal m 0 false else decimal m s (negative_ d)).

(** ** Constructors and parts *)

(** From [intcs], [long] and [long long]: the conversion to 128 bits wraps. *)
Definition of_signed (v : Z) : Decimal :=
  decimal (if v <? 0 then usub 128 0 (wrapu 128 v) else wrapu 128 v) 0 (v <? 0).

(** From [uintcs] and [ulongcs]. *)
Definition of_unsigned (v : Z) : Decimal := decimal v 0 false.

Definition of_parts (lo mid hi : Z) (isNegative : bool) (scale : Z) : res Decimal :=
  _ <- throw_if (scale >? 28)
         (ArgumentOutOfRangeException "scale" "Decimal scale must be in range 0-28.") ;;
  Ok (decimal (Z.lor (Z.lor (ushl 128 (u32 hi) 64) (ushl 128 (u32 mid) 32)) (u32 lo)) scale isNegative).

Definition GetBits (d : Decimal) : Z * Z * Z * Z :=
  (i32 (u32 (mantissa_ d)), i32 (u32 (Z.shiftr (mantissa_ d) 32)), i32 (u32 (Z.shiftr (mantissa_ d) 64)),
   i32 (Z.lor (ushl 32 (u32 (scale_ d)) 16) (if negative_ d then 0x80000000 else 0))).

Definition Zero : Decimal := default.
Definition One : Decimal := of_signed 1.
Definition MinusOne : Decimal := of_signed (-1).

(** ** Arithmetic *)

Definition op_add (a b : Decimal) : res Decimal :=
  r <- alignScales (mantissa_ a) (scale_ a) (mantissa_ b) (scale_ b) ;;
  let '((m1, s1), (m2, _)) := r in
  r <- (if eqb (negative_ a) (negative_ b) then fitMantissa (decimal (uadd 128 m1 m2) s1 (negative_ a))
        else if m1 >=? m2 then Ok (decimal (usub 128 m1 m2) s1 (negative_ a))
        else Ok (decimal (usub 128 m2 m1) s1 (negative_ b))) ;;
  Ok (if mantissa_ r =? 0 then decimal (mantissa_ r) (scale_ r) false else r).

Definition op_sub (a b : Decimal) : res Decimal :=
  if mantissa_ b =? 0 then Ok a
  else op_add a (decimal (mantissa_ b) (scale_ b) (negb (negative_ b))).

(** [if (++prod.lo == 0) if (++prod.mid == 0) ++prod.hi;] *)
Definition increment (v : uint192) : uint192 :=
  let l := uadd 64 (lo v) 1 in
  if l =? 0 then
    let m := uadd 64 (mid v) 1 in
    if m =? 0 then U192 l m (uadd 64 (hi v) 1) else U192 l m (hi v)
  else U192 l (mid v) (hi v).

(** [while (!fits96(prod) || scale > 28)] *)
Fixpoint reduce (fuel : nat) (prod : uint192) (scale : Z) : res (uint192 * Z) :=
  if negb (fits96 prod) || (scale >? 28) then
    match fuel with
    | O => UB
    | S fuel =>
        if scale =? 0 then Throw decimal_overflow
        else
          let '(rem, prod) := div192by10 prod in
          reduce fuel (if rem >=? 5 then increment prod else prod) (scale - 1)
    end
  else Ok (prod, scale).

Definition op_mul (a b : Decimal) : res Decimal :=
  if (mantissa_ a =? 0) || (mantissa_ b =? 0) then Ok default
  else
    let scale := scale_ a + scale_ b in
    r <- reduce (S (Z.to_nat scale)) (mul96x96 (mantissa_ a) (mantissa_ b)) scale ;;
    let '(prod, scale) := r in
    Ok (decimal (to128 prod) (u8 scale) (xorb (negative_ a) (negative_ b))).

(** [while (scale < 28 && dividend <= MAX_MANTISSA / 10)] *)
Fixpoint scale_up (fuel : nat) (dividend scale : Z) : res (Z * Z) :=
  if (scale <? 28) && (dividend <=? MAX_MANTISSA / 10) then
    match fuel with O => UB | S fuel => scale_up fuel (umul 128 dividend 10) (scale + 1) end
  else Ok (dividend, scale).

(** [while (scale < 0) { q /= 10; ++scale; }] *)
Fixpoint scale_down (fuel : nat) (q scale : Z) : res (Z * Z) :=
  if scale <? 0 then
    match fuel with O => UB | S fuel => scale_down fuel (q / 10) (scale + 1) end
  else Ok (q, scale).

Definition op_div (a b : Decimal) : res Decimal :=
  _ <- throw_if (mantissa_ b =? 0) (DivideByZeroException "Attempted to divide by zero.") ;;
  if mantissa_ a =? 0 then Ok default
  else
    let scale := scale_ a - scale_ b in
    r <- scale_up (Z.to_nat (28 - scale)) (mantissa_ a) scale ;;
    let '(dividend, scale) := r in
    let q := dividend / mantissa_ b in
    let rem := dividend mod mantissa_ b in
    let q := if umul 128 rem 2 >=? mantissa_ b then uadd 128 q 1 else q in
    r <- scale_down (Z.to_nat (- scale)) q scale ;;
    let '(q, scale) := r in
    fitMantissa (decimal q (u8 (Z.min scale 28)) (xorb (negative_ a) (negative_ b))).

Definition op_neg (d : Decimal) : Decimal :=
  if mantissa_ d =? 0 then d else decimal (mantissa_ d) (scale_ d) (negb (negative_ d)).

(** [while (s > 0) { m /= 10; --s; }] *)
Fixpoint truncate_loop (s : nat) (m : Z) : Z :=
  match s with O => m | S s => truncate_loop s (m / 10) end.

Definition Truncate (d : Decimal) : Decimal :=
  if scale_ d =? 0 then d
  else
    let m := truncate_loop (Z.to_nat (scale_ d)) (mantissa_ d) in
    decimal m 0 (negative_ d && negb (m =? 0)).

Definition op_rem (a b : Decimal) : res Decimal :=
  q <- op_div a b ;; p <- op_mul (Truncate q) b ;; op_sub a p.

Definition op_incr (d : Decimal) : res Decimal := op_add d One.
Definition op_decr (d : Decimal) : res Decimal := op_sub d One.

(** ** Comparison *)

Definition op_eq (a b : Decimal) : res bool :=
  if negb (eqb (negative_ a) (negative_ b)) then Ok ((mantissa_ a =? 0) && (mantissa_ b =? 0))
  else
    r <- alignScales (mantissa_ a) (scale_ a) (mantissa_ b) (scale_ b) ;;
    let '((m1, _), (m2, _)) := r in Ok (m1 =? m2).

Definition op_lt (a b : Decimal) : res bool :=
  if negb (eqb (negative_ a) (negative_ b)) then
    Ok (if (mantissa_ a =? 0) && (mantissa_ b =? 0) then false else negative_ a)
  else
    r <- alignScales (mantissa_ a) (scale_ a) (mantissa_ b) (scale_ b) ;;
    let '((m1, _), (m2, _)) := r in Ok (if negative_ a then m1 >? m2 else m1 <? m2).

Definition op_ne (a b : Decimal) : res bool := e <- op_eq a b ;; Ok (negb e).
Definition op_le (a b : Decimal) : res bool := l <- op_lt b a ;; Ok (negb l).
Definition op_gt (a b : Decimal) : res bool := op_lt b a.
Definition op_ge (a b : Decimal) : res bool := l <- op_lt a b ;; Ok (negb l).

Definition CompareTo (this other : Decimal) : res Z :=
  e <- op_eq this other ;;
  if e then Ok 0 else l <- op_lt this other ;; Ok (if l then -1 else 1).

(** ** Members over them *)

Definition Abs (d : Decimal) : Decimal := decimal (mantissa_ d) (scale_ d) false.

Definition Floor (d : Decimal) : res Decimal :=
  let t := Truncate d in
  if negative_ d then ne <- op_ne d t ;; if ne then op_sub t (of_signed 1) else Ok t else Ok t.

Definition Ceiling (d : Decimal) : res Decimal :=
  let t := Truncate d in
  if negb (negative_ d) then ne <- op_ne d t ;; if ne then op_add t (of_signed 1) else Ok t else Ok t.

(** A [MidpointRounding] is its underlying number, which a cast can put out of
    range. *)
Abbreviation ToEven := 0.
Abbreviation AwayFromZero := 1.
Abbreviation ToZero := 2.
Abbreviation ToNegativeInfinity := 3.
Abbreviation ToPositiveInfinity := 4.

Definition mode_message (mode : Z) : string :=
  String.append "The value '" (String.append (String.string_of_list_ascii (to_string mode))
    "' is not valid for this usage of the type MidpointRounding.").

Fixpoint power_loop (n : nat) (divisor : Z) : Z :=
  match n with O => divisor | S n => power_loop n (umul 128 divisor 10) end.

Definition round_up (mode : Z) (negative : bool) (quotient remainder half : Z) : bool :=
  if mode =? ToEven then
    if remainder >? half then true
    else if remainder <? half then false
    else negb (quotient mod 2 =? 0)
  else if mode =? AwayFromZero then remainder >=? half
  else if mode =? ToZero then false
  else if mode =? ToNegativeInfinity then negative && negb (remainder =? 0)
  else if mode =? ToPositiveInfinity then negb negative && negb (remainder =? 0)
  else false.

Definition Round (d : Decimal) (decimals mode : Z) : res Decimal :=
  _ <- throw_if ((decimals <? 0) || (decimals >? 28))
         (ArgumentOutOfRangeException "decimals" "decimals must be in range 0-28.") ;;
  _ <- throw_if (u32 mode >? u32 ToPositiveInfinity) (ArgumentException (mode_message mode) "mode") ;;
  if scale_ d <=? u8 decimals then Ok d
  else
    let dropCount := scale_ d - decimals in
    let divisor := power_loop (Z.to_nat dropCount) 1 in
    let m := mantissa_ d in
    let quotient := m / divisor in
    let remainder := m mod divisor in
    let quotient := if round_up mode (negative_ d) quotient remainder (divisor / 2)
                    then uadd 128 quotient 1 else quotient in
    Ok (decimal quotient (u8 decimals) (negative_ d && negb (quotient =? 0))).

Definition Max (a b : Decimal) : res Decimal := c <- op_ge a b ;; Ok (if c then a else b).
Definition Min (a b : Decimal) : res Decimal := c <- op_le a b ;; Ok (if c then a else b).

Definition MaxMagnitude (x y : Decimal) : res Decimal :=
  g <- op_gt (Abs x) (Abs y) ;;
  if g then Ok x
  else e <- op_eq (Abs x) (Abs y) ;; Ok (if e then if negative_ x then y else x else y).

Definition MinMagnitude (x y : Decimal) : res Decimal :=
  l <- op_lt (Abs x) (Abs y) ;;
  if l then Ok x
  else e <- op_eq (Abs x) (Abs y) ;; Ok (if e then if negative_ x then x else y else y).

Definition Clamp (value min max : Decimal) : res Decimal :=
  c <- op_gt min max ;;
  _ <- throw_if c (ArgumentException "min cannot be greater than max." "") ;;
  c <- op_lt value min ;;
  if c then Ok min else c <- op_gt value max ;; Ok (if c then max else value).

Definition Sign (d : Decimal) : res Z :=
  e <- op_eq d Zero ;; Ok (if e then 0 else if negative_ d then -1 else 1).

Definition CopySign (value sign : Decimal) : Decimal := decimal (mantissa_ value) (scale_ value) (negative_ sign).

Definition IsInteger (value : Decimal) : res bool := op_eq value (Truncate value).
Definition IsEvenInteger (value : Decimal) : res bool :=
  let t := Truncate value in
  e <- op_eq value t ;; Ok (e && (Z.land (u64 (mantissa_ t)) 1 =? 0)).
Definition IsOddInteger (value : Decimal) : res bool :=
  let t := Truncate value in
  e <- op_eq value t ;; Ok (e && negb (Z.land (u64 (mantissa_ t)) 1 =? 0)).
Definition IsCanonical (value : Decimal) : bool :=
  if scale_ value =? 0 then true else negb (mantissa_ value mod 10 =? 0).

(** ** Conversions *)

Definition too_large (what : string) : exn :=
  OverflowException (String.append "Value was either too large or too small for " (String.append what ".")).

Definition ToInt32 (d : Decimal) : res Z :=
  let t := Truncate d in
  _ <- throw_if (mantissa_ t >? 2 ^ 32 - 1) (too_large "an Int32") ;;
  let mag := u32 (mantissa_ t) in
  let v := if negative_ t then - mag else mag in
  _ <- throw_if ((v <? INTCS_MIN) || (v >? INTCS_MAX)) (too_large "an Int32") ;;
  Ok v.

Definition ToInt64 (d : Decimal) : res Z :=
  let t := Truncate d in
  _ <- throw_if (mantissa_ t >? ULONGCS_MAX) (too_large "an Int64") ;;
  let mag := u64 (mantissa_ t) in
  if negative_ t then
    _ <- throw_if (mag >? 2 ^ 63) (too_large "an Int64") ;;
    if mag =? 2 ^ 63 then Ok LONGCS_MIN else sneg 64 (i64 mag)
  else
    _ <- throw_if (mag >? LONGCS_MAX) (too_large "an Int64") ;;
    Ok (i64 mag).

Definition ToUInt32 (d : Decimal) : res Z :=
  let t := Truncate d in
  _ <- throw_if (mantissa_ t >? 2 ^ 32 - 1) (too_large "a UInt32") ;;
  let mag := u32 (mantissa_ t) in
  _ <- throw_if (negative_ t && negb (mag =? 0)) (too_large "a UInt32") ;;
  Ok mag.

Definition ToUInt64 (d : Decimal) : res Z :=
  let t := Truncate d in
  _ <- throw_if (mantissa_ t >? ULONGCS_MAX) (too_large "a UInt64") ;;
  let mag := u64 (mantissa_ t) in
  _ <- throw_if (negative_ t && negb (mag =? 0)) (too_large "a UInt64") ;;
  Ok mag.

(** [catch (const OverflowException&) { throw OverflowException(...); }] *)
Definition rethrow {A} (r : res A) (e : exn) : res A :=
  match r with Throw (OverflowException _) => Throw e | r => r end.

(** The narrow conversions: [convert] is [ToInt32] or [ToUInt32], [cast] the cast to
    the narrow type. *)
Definition narrow (convert : Decimal -> res Z) (cast : Z -> Z) (what : string) (value : Decimal) : res Z :=
  temp <- rethrow (convert value) (too_large what) ;;
  _ <- throw_if (negb (temp =? cast temp)) (too_large what) ;;
  Ok (cast temp).

Definition ToByte : Decimal -> res Z := narrow ToUInt32 u8 "an unsigned byte".
Definition ToSByte : Decimal -> res Z := narrow ToInt32 (wraps 8) "a signed byte".
Definition ToInt16 : Decimal -> res Z := narrow ToInt32 (wraps 16) "an Int16".
Definition ToUInt16 : Decimal -> res Z := narrow ToUInt32 (wrapu 16) "a UInt16".

Definition FromOACurrency (cy : Z) : res Decimal := op_div (of_signed cy) (of_signed 10000).

Definition ToOACurrency (d : Decimal) : res Z :=
  rethrow (rounded <- Round d 4 ToEven ;; p <- op_mul rounded (of_signed 10000) ;; ToInt64 p)
          (too_large "a Currency").

(** ** Hash code *)

Section hash.
(** [std::hash] of the standard library at [uint64_t], [uint8_t] and [bool]. *)
Context (hash64 hash8 : Z -> Z) (hashbool : bool -> Z).

(** [h ^= x + 0x9e3779b9 + (h << 6) + (h >> 2)] *)
Definition hash_mix (h x : Z) : Z :=
  Z.lxor h (u64 (x + 0x9e3779b9 + ushl 64 h 6 + Z.shiftr h 2)).

Definition GetHashCode (d : Decimal) : res Z :=
  r <- strip_loop (Z.to_nat (scale_ d)) (mantissa_ d) (scale_ d) ;;
  let '(m, s) := r in
  let neg := negative_ d && negb (m =? 0) in
  let h := hash64 (u64 m) in
  let h := hash_mix h (hash64 (u64 (Z.shiftr m 64))) in
  let h := hash_mix h (hash8 s) in
  let h := hash_mix h (hashbool neg) in
  Ok (i32 (Z.land h 0x7fffffff)).
End hash.

End Decimal.
