(* ===== verification/DecimalArith.v ===== *)
(** * Decimal: values, alignment, addition and multiplication

    A Decimal denotes an integer number of units of [10^-28].  Dropping digits one
    at a time, each rounded half away from zero, errs by less than five ninths of
    the last place that remains, however many are dropped. *)

From S2P Require Export Decimal.

#[local] Open Scope Z_scope.
#[local] Coercion Z.of_nat : nat >-> Z.

Import Decimal.

(** ** Values *)

(** One in the last place at a scale, in units of [10^-28]. *)
Definition unit_at (s : Z) : Z := 10 ^ (28 - s).

Definition signed (n : bool) (m : Z) : Z := if n then - m else m.

Definition magnitude (d : Decimal) : Z := mantissa_ d * unit_at (scale_ d).
Definition value (d : Decimal) : Z := signed (negative_ d) (magnitude d).

Definition wf (d : Decimal) : Prop := 0 <= mantissa_ d <= MAX_MANTISSA /\ 0 <= scale_ d <= 28.

(** The outcome of an operation whose exact result is [x] in units of
    [10^-28 / k], with [top] decimal places, from operands of total size [X]: with
    no more places, the exact result, or a Decimal less than five ninths of its last place away that is
    rounded only because there are more than 28 places or because ten of its last
    places exceed the precision of [X]; or an overflow, when no Decimal is as large
    as [x]. *)
Definition faithful (k top X x : Z) (r : res Decimal) : Prop :=
  match r with
  | Ok d => wf d /\ scale_ d <= top /\ 9 * Z.abs (value d * k - x) < 5 * (unit_at (scale_ d) * k)
            /\ (value d * k = x \/ 28 < top /\ scale_ d = 28
                \/ MAX_MANTISSA * (unit_at (scale_ d) * k) < 10 * X)
  | Throw e => e = decimal_overflow /\ MAX_MANTISSA * (10 ^ 28 * k) < Z.abs x
  | UB => False
  end.

Lemma MAX_MANTISSA_eq : MAX_MANTISSA = 79228162514264337593543950335.
Proof. reflexivity. Qed.

Ltac mantissas := rewrite ?MAX_MANTISSA_eq in *.

Lemma unit_at_pos s : s <= 28 -> 0 < unit_at s.
Proof. intros H. unfold unit_at. apply Z.pow_pos_nonneg; lia. Qed.

Lemma unit_at_add s j : 0 <= j -> s + j <= 28 -> unit_at s = 10 ^ j * unit_at (s + j).
Proof. intros Hj Hs. unfold unit_at. rewrite <- Z.pow_add_r by lia. f_equal. lia. Qed.

Lemma unit_at_le s : 0 <= s -> unit_at s <= 10 ^ 28.
Proof. intros H. unfold unit_at. apply Z.pow_le_mono_r; lia. Qed.

Lemma dec_signed_abs n m : 0 <= m -> Z.abs (signed n m) = m.
Proof. destruct n; cbn; lia. Qed.

Lemma dec_signed_mul n m k : signed n (m * k) = signed n m * k.
Proof. destruct n; cbn; lia. Qed.

Lemma wf_magnitude d : wf d -> 0 <= magnitude d.
Proof. intros [Hm Hs]. pose proof (unit_at_pos (scale_ d) ltac:(lia)). unfold magnitude. nia. Qed.

(** ** Dropping digits *)

Fixpoint drops (k : nat) (m : Z) : Z :=
  match k with O => m | S k => drops k ((m + 5) / 10) end.

Lemma drop_digit_eq m : 0 <= m < 2 ^ 127 -> drop_digit m = (m + 5) / 10.
Proof. intros H. unfold drop_digit, uadd. split_if; zlia. Qed.

Lemma drops_range k m : 0 <= m -> 0 <= drops k m <= m.
Proof.
  revert m. induction k as [|k IH]; intros m Hm; cbn [drops]; [lia|].
  pose proof (IH ((m + 5) / 10) ltac:(zlia)). zlia.
Qed.

Lemma drops_close k m : 0 <= m -> 9 * Z.abs (drops k m * 10 ^ k - m) <= 5 * (10 ^ k - 1).
Proof.
  revert m. induction k as [|k IH]; intros m Hm; cbn [drops]; [cbn; lia|].
  specialize (IH ((m + 5) / 10) ltac:(zlia)).
  rewrite Nat2Z.inj_succ, Z.pow_succ_r by lia.
  assert (Z.abs ((m + 5) / 10 * 10 - m) <= 5) by zlia.
  set (x := drops k ((m + 5) / 10)) in *. set (y := (m + 5) / 10) in *. set (p := 10 ^ k) in *.
  replace (x * (10 * p) - m) with ((x * p - y) * 10 + (y * 10 - m)) by lia. lia.
Qed.

(** ** Alignment *)

Lemma align_loop_spec (n : nat) : forall m1 s1 m2 s2,
  0 <= m1 <= MAX_MANTISSA -> 0 <= m2 <= MAX_MANTISSA -> 0 <= s1 -> s2 <= 28 -> s2 - s1 = n ->
  exists j : nat, (j <= n)%nat /\
  align_loop n m1 s1 m2 s2 = Ok ((m1 * 10 ^ j, s1 + j), (drops (n - j) m2, s1 + j))
  /\ m1 * 10 ^ j <= MAX_MANTISSA /\ ((j < n)%nat -> MAX_MANTISSA < 10 * (m1 * 10 ^ j)).
Proof.
  induction n as [|n IH]; intros m1 s1 m2 s2 H1 H2 Hs1 Hs2 E.
  - exists O. cbn [align_loop Nat.sub drops]. decide_cmp. split; [lia|].
    rewrite Z.mul_1_r, Z.add_0_r. replace s2 with s1 by lia. split; [done|]. lia.
  - cbn [align_loop]. decide_cmp. pose proof MAX_MANTISSA_eq as HM. split_if.
    + unfold umul, u8. rewrite !wrapu_id by (unfold in_u; zlia).
      destruct (IH (m1 * 10) (s1 + 1) m2 s2) as (j & Hj & -> & Hm & Hlast); try zlia.
      exists (S j). rewrite Nat2Z.inj_succ, Z.pow_succ_r by lia.
      replace (s1 + Z.succ j) with (s1 + 1 + j) by lia.
      replace (m1 * (10 * 10 ^ j)) with (m1 * 10 * 10 ^ j) by lia.
      split; [lia|]. split; [done|]. split; [done|]. intros. apply Hlast. lia.
    + unfold u8. rewrite drop_digit_eq, wrapu_id by (unfold in_u; mantissas; zlia).
      destruct (IH m1 s1 ((m2 + 5) / 10) (s2 - 1)) as (j & Hj & -> & Hm & Hlast); try (mantissas; zlia).
      assert (j = O) as -> by (destruct j; [done|]; rewrite Nat2Z.inj_succ, Z.pow_succ_r in Hm by lia;
        pose proof (Z.pow_pos_nonneg 10 j ltac:(done) ltac:(lia));
        assert (m1 * 10 <= m1 * (10 * 10 ^ j)) by nia; mantissas; zlia).
      exists O. split; [lia|]. split; [by rewrite !Nat.sub_0_r|]. split; [done|]. intros _. mantissas. zlia.
Qed.

Lemma align_loop_done n m1 s1 m2 s2 : s2 <= s1 -> align_loop n m1 s1 m2 s2 = Ok ((m1, s1), (m2, s2)).
Proof. intros H. destruct n; cbn [align_loop]; by decide_cmp. Qed.

(** What the alignment of one operand does: nothing to its value, or a rounding
    when the other one is too large to be scaled up. *)
Definition aligned (m s m' s' : Z) : Prop :=
  0 <= m' <= MAX_MANTISSA /\ 9 * Z.abs (m' * unit_at s' - m * unit_at s) < 5 * unit_at s'.

Lemma aligned_exact m s (j : nat) : 0 <= m -> m * 10 ^ j <= MAX_MANTISSA -> s + j <= 28 ->
  aligned m s (m * 10 ^ j) (s + j) /\ m * 10 ^ j * unit_at (s + j) = m * unit_at s.
Proof.
  intros Hm Hx Hs. pose proof (unit_at_pos (s + j) Hs). rewrite (unit_at_add s j) by lia.
  split; [|lia]. split; [pose proof (Z.pow_pos_nonneg 10 j ltac:(done) ltac:(lia)); nia|].
  rewrite (unit_at_add s j) by lia. lia.
Qed.

Lemma aligned_drops m s (j : nat) : 0 <= m <= MAX_MANTISSA -> 0 <= s <= 28 ->
  aligned m s (drops j m) (s - j).
Proof.
  intros Hm Hs. pose proof (drops_range j m ltac:(lia)) as Hr. split; [lia|].
  pose proof (unit_at_pos s ltac:(lia)) as Hu. rewrite (unit_at_add (s - j) j), Z.sub_add by lia.
  pose proof (drops_close j m ltac:(lia)) as Hd.
  replace (drops j m * (10 ^ j * unit_at s) - m * unit_at s)
    with ((drops j m * 10 ^ j - m) * unit_at s) by lia.
  rewrite Z.abs_mul, (Z.abs_eq (unit_at s)) by lia. nia.
Qed.

(** One of the two operands is kept exactly. *)
Lemma alignScales_spec m1 s1 m2 s2 :
  0 <= m1 <= MAX_MANTISSA -> 0 <= m2 <= MAX_MANTISSA -> 0 <= s1 <= 28 -> 0 <= s2 <= 28 ->
  exists m1' m2' s, alignScales m1 s1 m2 s2 = Ok ((m1', s), (m2', s))
  /\ Z.min s1 s2 <= s <= Z.max s1 s2 /\ aligned m1 s1 m1' s /\ aligned m2 s2 m2' s
  /\ (m1' * unit_at s = m1 * unit_at s1 \/ m2' * unit_at s = m2 * unit_at s2)
  /\ (s = Z.max s1 s2 /\ m1' * unit_at s = m1 * unit_at s1 /\ m2' * unit_at s = m2 * unit_at s2
      \/ s < Z.max s1 s2 /\ MAX_MANTISSA * unit_at s < 10 * Z.max (m1 * unit_at s1) (m2 * unit_at s2)).
Proof.
  intros H1 H2 Hs1 Hs2. unfold alignScales.
  destruct (Z.le_ge_cases s1 s2) as [Hle|Hge].
  - destruct (align_loop_spec (Z.to_nat (s2 - s1)) m1 s1 m2 s2) as (j & Hj & -> & Hm & Hlast); [lia..|].
    cbn [bind]. rewrite align_loop_done by lia. cbn [bind].
    set (i := (Z.to_nat (s2 - s1) - j)%nat) in *.
    destruct (aligned_exact m1 s1 j) as [A1 E1]; [lia..|].
    pose proof (aligned_drops m2 s2 i H2 Hs2) as A2. replace (s2 - i) with (s1 + j) in A2 by lia.
    do 3 eexists. split; [reflexivity|]. split; [lia|]. split; [done|]. split; [done|]. split; [by left|].
    destruct (decide (j < Z.to_nat (s2 - s1))%nat) as [Hlt|Hlt].
    + right. split; [lia|]. specialize (Hlast Hlt). pose proof (unit_at_pos (s1 + j) ltac:(lia)). nia.
    + left. assert (i = O) as -> by lia. cbn [drops]. replace (s1 + j) with s2 in * by lia. split; [lia|done].
  - rewrite align_loop_done by lia. cbn [bind].
    destruct (align_loop_spec (Z.to_nat (s1 - s2)) m2 s2 m1 s1) as (j & Hj & -> & Hm & Hlast); [lia..|].
    cbn [bind]. set (i := (Z.to_nat (s1 - s2) - j)%nat) in *.
    destruct (aligned_exact m2 s2 j) as [A2 E2]; [lia..|].
    pose proof (aligned_drops m1 s1 i H1 Hs1) as A1. replace (s1 - i) with (s2 + j) in A1 by lia.
    do 3 eexists. split; [reflexivity|]. split; [lia|]. split; [done|]. split; [done|]. split; [by right|].
    destruct (decide (j < Z.to_nat (s1 - s2))%nat) as [Hlt|Hlt].
    + right. split; [lia|]. specialize (Hlast Hlt). pose proof (unit_at_pos (s2 + j) ltac:(lia)). nia.
    + left. assert (i = O) as -> by lia. cbn [drops]. replace (s2 + j) with s1 in * by lia. split; [lia|done].
Qed.

(** ** Addition *)

Lemma fitMantissa_spec m s n : 0 <= m <= 2 * MAX_MANTISSA -> 0 <= s <= 28 ->
  fitMantissa (decimal m s n) =
    if m <=? MAX_MANTISSA then Ok (decimal m s n)
    else if s =? 0 then Throw decimal_overflow
    else Ok (decimal ((m + 5) / 10) (s - 1) n).
Proof.
  intros Hm Hs. unfold fitMantissa. cbn [scale_ mantissa_ negative_ fit_loop].
  rewrite drop_digit_eq by (mantissas; lia). pose proof MAX_MANTISSA_eq as HM.
  destruct (m <=? MAX_MANTISSA) eqn:E; bool_to_prop; decide_cmp; [done|].
  destruct (s =? 0) eqn:E0; [done|]. bool_to_prop.
  unfold u8. rewrite wrapu_id by (unfold in_u; lia).
  destruct (Z.to_nat s); cbn [fit_loop]; rewrite (Z.gtb_ltb _ MAX_MANTISSA);
    rewrite (proj2 (Z.ltb_ge MAX_MANTISSA _)) by zlia; done.
Qed.

(** A sum [m] of aligned magnitudes, exact up to [e < 5/9] of a last place. *)
Lemma fitMantissa_faithful m s n top X x :
  0 <= m <= 2 * MAX_MANTISSA -> 0 <= s <= 28 -> s <= top ->
  9 * Z.abs (signed n m * unit_at s - x) < 5 * unit_at s ->
  Z.abs x <= X ->
  (signed n m * unit_at s = x \/ MAX_MANTISSA * unit_at s < 10 * X) ->
  faithful 1 top X x (fitMantissa (decimal m s n)).
Proof.
  intros Hm Hs Htop He HX Hp. rewrite fitMantissa_spec by done. pose proof MAX_MANTISSA_eq as HM.
  pose proof (unit_at_pos s ltac:(lia)) as Hu.
  assert (Ha : Z.abs (signed n m * unit_at s) = m * unit_at s)
    by (rewrite <- dec_signed_mul; apply dec_signed_abs; nia).
  destruct (m <=? MAX_MANTISSA) eqn:E; bool_to_prop; [|destruct (s =? 0) eqn:E0; bool_to_prop];
    cbn [faithful].
  - unfold wf, value, magnitude. cbn [mantissa_ scale_ negative_]. rewrite dec_signed_mul.
    split; [lia|]. split; [lia|]. split; [lia|]. destruct Hp; [left; lia|right; right; lia].
  - split; [done|]. subst s. change (unit_at 0) with (10 ^ 28) in *.
    assert ((MAX_MANTISSA + 1) * 10 ^ 28 <= m * 10 ^ 28) by (apply Z.mul_le_mono_nonneg_r; lia). lia.
  - assert (Hu' : unit_at (s - 1) = 10 * unit_at s).
    { rewrite (unit_at_add (s - 1) 1), Z.sub_add by lia. lia. }
    set (q := (m + 5) / 10). assert (Hq : Z.abs (q * 10 - m) <= 5) by (subst q; zlia).
    unfold wf, value, magnitude. cbn [mantissa_ scale_ negative_]. rewrite dec_signed_mul, Hu'.
    assert (Z.abs (signed n q * (10 * unit_at s) - signed n m * unit_at s) <= 5 * unit_at s).
    { replace (signed n q * (10 * unit_at s) - signed n m * unit_at s)
        with (signed n (q * 10 - m) * unit_at s) by (destruct n; cbn [signed]; lia).
      rewrite Z.abs_mul, (Z.abs_eq (unit_at s)) by lia. apply Z.mul_le_mono_nonneg_r; [lia|].
      clear - Hq. destruct n; cbn [signed]; lia. }
    split; [subst q; zlia|]. split; [lia|]. split; [lia|]. right; right.
    assert ((MAX_MANTISSA + 1) * unit_at s <= m * unit_at s) by (apply Z.mul_le_mono_nonneg_r; lia). lia.
Qed.

Lemma u128_small m : 0 <= m <= 2 * MAX_MANTISSA -> wrapu 128 m = m.
Proof. intros H. apply wrapu_id. unfold in_u. mantissas. lia. Qed.

Lemma fitMantissa_fits m s n : 0 <= m <= MAX_MANTISSA -> 0 <= s <= 28 ->
  fitMantissa (decimal m s n) = Ok (decimal m s n).
Proof. intros Hm Hs. rewrite fitMantissa_spec by (mantissas; lia). by decide_cmp. Qed.

(** A zero loses its sign. *)
Definition unsigned_zero (d : Decimal) : Decimal :=
  if mantissa_ d =? 0 then decimal (mantissa_ d) (scale_ d) false else d.

Lemma unsigned_zero_value d : value (unsigned_zero d) = value d.
Proof.
  unfold unsigned_zero. split_if; [|done]. unfold value, magnitude. cbn [mantissa_ scale_ negative_ signed].
  rewrite E. by destruct (negative_ d).
Qed.

Lemma unsigned_zero_faithful k top X x r :
  faithful k top X x r -> faithful k top X x (d <- r ;; Ok (unsigned_zero d)).
Proof.
  destruct r as [d| |]; cbn [bind faithful]; try done. rewrite unsigned_zero_value.
  unfold unsigned_zero. split_if; [|done]. done.
Qed.

Lemma op_add_faithful a b : wf a -> wf b ->
  faithful 1 (Z.max (scale_ a) (scale_ b)) (Z.abs (value a) + Z.abs (value b)) (value a + value b)
    (op_add a b).
Proof.
  intros Ha Hb. pose proof (wf_magnitude a Ha) as Na. pose proof (wf_magnitude b Hb) as Nb.
  destruct Ha as [Ha Hsa], Hb as [Hb Hsb]. unfold op_add.
  destruct (alignScales_spec (mantissa_ a) (scale_ a) (mantissa_ b) (scale_ b)) as
    (m1 & m2 & s & -> & Hs & [H1 E1] & [H2 E2] & Hone & Hprec); [lia..|]. cbn [bind].
  pose proof (unit_at_pos s ltac:(lia)) as Hu. pose proof MAX_MANTISSA_eq as HM.
  assert (Hx : 9 * Z.abs (signed (negative_ a) (m1 * unit_at s) + signed (negative_ b) (m2 * unit_at s)
                          - (value a + value b)) < 5 * unit_at s
    /\ (signed (negative_ a) (m1 * unit_at s) + signed (negative_ b) (m2 * unit_at s) = value a + value b
        \/ MAX_MANTISSA * unit_at s < 10 * (Z.abs (value a) + Z.abs (value b)))).
  { unfold value. rewrite !dec_signed_abs by done. unfold magnitude in *.
    destruct (negative_ a), (negative_ b); cbn [signed]; lia. }
  destruct Hx as [Hx Hp].
  pose proof (Z.abs_triangle (value a) (value b)) as HX.
  clear E1 E2 Hone Hprec Na Nb Ha Hb. unfold uadd, usub.
  match goal with |- faithful ?k ?t ?X ?x (bind ?r _) => apply (unsigned_zero_faithful k t X x r) end.
  assert (Hm : 0 <= m1 + m2 <= 2 * MAX_MANTISSA) by (clear - H1 H2; lia).
  destruct (eqb (negative_ a) (negative_ b)) eqn:En; [|destruct (m1 >=? m2) eqn:Em];
    rewrite ?Bool.eqb_true_iff, ?Bool.eqb_false_iff in En.
  - rewrite u128_small by done. apply fitMantissa_faithful; try done; [clear - Hs Hsa Hsb; lia|clear - Hs; lia|..];
      (replace (signed (negative_ a) (m1 + m2) * unit_at s)
         with (signed (negative_ a) (m1 * unit_at s) + signed (negative_ b) (m2 * unit_at s))
         by (rewrite <- En; clear; destruct (negative_ a); cbn [signed]; lia)); done.
  - apply Z.geb_le in Em. assert (Hd : 0 <= m1 - m2 <= MAX_MANTISSA) by (clear - H1 H2 Em; lia).
    rewrite u128_small by (clear - Hd; lia). rewrite <- fitMantissa_fits by (clear - Hd Hs Hsa Hsb; lia).
    apply fitMantissa_faithful; try done; [clear - Hd; lia|clear - Hs Hsa Hsb; lia|clear - Hs; lia|..];
      (replace (signed (negative_ a) (m1 - m2) * unit_at s)
         with (signed (negative_ a) (m1 * unit_at s) + signed (negative_ b) (m2 * unit_at s))
         by (clear - En; destruct (negative_ a), (negative_ b); cbn [signed]; done || lia)); done.
  - rewrite Z.geb_leb in Em. apply Z.leb_gt in Em.
    assert (Hd : 0 <= m2 - m1 <= MAX_MANTISSA) by (clear - H1 H2 Em; lia).
    rewrite u128_small by (clear - Hd; lia). rewrite <- fitMantissa_fits by (clear - Hd Hs Hsa Hsb; lia).
    apply fitMantissa_faithful; try done; [clear - Hd; lia|clear - Hs Hsa Hsb; lia|clear - Hs; lia|..];
      (replace (signed (negative_ b) (m2 - m1) * unit_at s)
         with (signed (negative_ a) (m1 * unit_at s) + signed (negative_ b) (m2 * unit_at s))
         by (clear - En; destruct (negative_ a), (negative_ b); cbn [signed]; done || lia)); done.
Qed.

Lemma value_zero d : mantissa_ d = 0 -> value d = 0.
Proof. intros E. unfold value, magnitude. rewrite E. by destruct (negative_ d). Qed.

Lemma faithful_exact k top X x d : 0 < k -> wf d -> scale_ d <= top -> value d * k = x -> faithful k top X x (Ok d).
Proof.
  intros Hk Hd Ht E. split; [done|]. split; [done|]. pose proof (unit_at_pos (scale_ d) ltac:(apply Hd)) as Hu.
  split; [|by left]. rewrite E, Z.sub_diag. cbn [Z.abs]. nia.
Qed.

Lemma op_sub_faithful a b : wf a -> wf b ->
  faithful 1 (Z.max (scale_ a) (scale_ b)) (Z.abs (value a) + Z.abs (value b)) (value a - value b)
    (op_sub a b).
Proof.
  intros Ha Hb. unfold op_sub. split_if.
  - apply faithful_exact; [done|done|lia|]. rewrite (value_zero b E). lia.
  - pose proof (op_add_faithful a (decimal (mantissa_ b) (scale_ b) (negb (negative_ b))) Ha Hb) as H.
    assert (E' : value (decimal (mantissa_ b) (scale_ b) (negb (negative_ b))) = - value b).
    { unfold value, magnitude. cbn [mantissa_ scale_ negative_]. destruct (negative_ b); cbn [signed negb]; lia. }
    rewrite E', Z.abs_opp, Z.add_opp_r in H. exact H.
Qed.

(** ** Multiplication *)

Definition value192 (v : uint192) : Z := lo v + 2 ^ 64 * (mid v + 2 ^ 64 * hi v).
Definition ok192 (v : uint192) : Prop := in_u 64 (lo v) /\ in_u 64 (mid v) /\ in_u 64 (hi v).

Lemma limb_product x y n m : in_u n x -> in_u m y -> 0 <= n -> 0 <= m -> in_u (n + m) (x * y).
Proof. unfold in_u. intros Hx Hy Hn Hm. rewrite Z.pow_add_r by lia. nia. Qed.

Lemma mul96x96_spec a b : 0 <= a <= MAX_MANTISSA -> 0 <= b <= MAX_MANTISSA ->
  ok192 (mul96x96 a b) /\ value192 (mul96x96 a b) = a * b.
Proof.
  intros Ha Hb. unfold mul96x96. cbn zeta. rewrite !Z.shiftr_div_pow2 by lia.
  assert (Ha0 : in_u 64 (a mod 2 ^ 64)) by (apply Z.mod_pos_bound; lia).
  assert (Hb0 : in_u 64 (b mod 2 ^ 64)) by (apply Z.mod_pos_bound; lia).
  assert (Ha1 : in_u 32 (a / 2 ^ 64)) by (clear - Ha; mantissas; zlia).
  assert (Hb1 : in_u 32 (b / 2 ^ 64)) by (clear - Hb; mantissas; zlia).
  pose proof (Z.div_mod a (2 ^ 64) ltac:(lia)) as Ea. pose proof (Z.div_mod b (2 ^ 64) ltac:(lia)) as Eb.
  unfold u64, umul, uadd. change (wrapu 64 a) with (a mod 2 ^ 64). change (wrapu 64 b) with (b mod 2 ^ 64).
  rewrite (wrapu_id 64 (a / 2 ^ 64)), (wrapu_id 64 (b / 2 ^ 64)) by (clear - Ha1 Hb1; unfold in_u in *; lia).
  set (a0 := a mod 2 ^ 64) in *. set (a1 := a / 2 ^ 64) in *.
  set (b0 := b mod 2 ^ 64) in *. set (b1 := b / 2 ^ 64) in *.
  pose proof (limb_product a0 b0 64 64 Ha0 Hb0 ltac:(done) ltac:(done)) as P00.
  pose proof (limb_product a0 b1 64 32 Ha0 Hb1 ltac:(done) ltac:(done)) as P01.
  pose proof (limb_product a1 b0 32 64 Ha1 Hb0 ltac:(done) ltac:(done)) as P10.
  pose proof (limb_product a1 b1 32 32 Ha1 Hb1 ltac:(done) ltac:(done)) as P11.
  assert (E : a * b = a0 * b0 + 2 ^ 64 * (a0 * b1 + a1 * b0 + 2 ^ 64 * (a1 * b1))) by (rewrite Ea, Eb; ring).
  assert (T : a * b < 2 ^ 192) by (change (2 ^ 192) with (2 ^ 96 * 2 ^ 96); clear - Ha Hb; mantissas; nia).
  rewrite E in *. clear - P00 P01 P10 P11 T.
  set (p00 := a0 * b0) in *. set (p01 := a0 * b1) in *. set (p10 := a1 * b0) in *. set (p11 := a1 * b1) in *.
  clearbody p00 p01 p10 p11. clear - P00 P01 P10 P11 T.
  unfold in_u in *. cbn [Z.add Pos.add] in *.
  rewrite (wrapu_id 128 p00), (wrapu_id 128 p01), (wrapu_id 128 p10), (wrapu_id 128 p11)
    by (unfold in_u; lia).
  rewrite (wrapu_id 128 (p00 / 2 ^ 64 + p01)) by zlia.
  rewrite (wrapu_id 128 (p00 / 2 ^ 64 + p01 + p10)) by zlia.
  rewrite (wrapu_id 128 ((p00 / 2 ^ 64 + p01 + p10) / 2 ^ 64 + p11)) by zlia.
  unfold ok192, value192. cbn [lo mid hi]. set (c1 := p00 / 2 ^ 64 + p01 + p10) in *.
  assert (E1 : p00 = 2 ^ 64 * (p00 / 2 ^ 64) + p00 mod 2 ^ 64) by (apply Z.div_mod; lia).
  assert (E2 : c1 = 2 ^ 64 * (c1 / 2 ^ 64) + c1 mod 2 ^ 64) by (apply Z.div_mod; lia).
  pose proof (Z.mod_pos_bound p00 (2 ^ 64) ltac:(lia)). pose proof (Z.mod_pos_bound c1 (2 ^ 64) ltac:(lia)).
  assert (Hc2 : in_u 64 (c1 / 2 ^ 64 + p11)) by (unfold in_u; subst c1; zlia).
  rewrite (wrapu_id 64 (c1 / 2 ^ 64 + p11)) by done. unfold wrapu, in_u in *.
  split; [repeat split; lia|]. lia.
Qed.

Lemma shifted_limb r x : 0 <= r < 10 -> in_u 64 x -> Z.lor (ushl 128 r 64) x = r * 2 ^ 64 + x.
Proof.
  intros Hr Hx. unfold ushl. rewrite Z.shiftl_mul_pow2, wrapu_id by (unfold in_u; lia).
  rewrite Z.lor_comm, lor_high by (done || lia). lia.
Qed.

Lemma div192by10_spec v : ok192 v ->
  exists rem v', div192by10 v = (rem, v') /\ ok192 v' /\ value192 v = 10 * value192 v' + rem /\ 0 <= rem < 10.
Proof.
  destruct v as [l m h]. unfold ok192, div192by10, value192. cbn [lo mid hi]. intros (Hl & Hm & Hh).
  rewrite (shifted_limb (h mod 10) m) by (done || zlia).
  set (r := h mod 10 * 2 ^ 64 + m). rewrite (shifted_limb (r mod 10) l) by (done || zlia).
  set (t := r mod 10 * 2 ^ 64 + l).
  do 2 eexists. split; [reflexivity|]. unfold in_u in *. cbn [lo mid hi].
  assert (Hr : 0 <= r < 10 * 2 ^ 64) by (subst r; zlia). assert (Ht : 0 <= t < 10 * 2 ^ 64) by (subst t; zlia).
  split; [repeat split; zlia|]. subst t r. zlia.
Qed.

Lemma increment_spec v : ok192 v -> value192 v + 1 < 2 ^ 192 ->
  ok192 (increment v) /\ value192 (increment v) = value192 v + 1.
Proof.
  destruct v as [l m h]. unfold ok192, increment, value192, uadd. cbn [lo mid hi]. intros (Hl & Hm & Hh) H.
  unfold in_u in *. split_if; [split_if|]; cbn [lo mid hi]; zlia.
Qed.

Lemma fits96_spec v : ok192 v -> fits96 v = (value192 v <=? MAX_MANTISSA).
Proof.
  destruct v as [l m h]. unfold ok192, fits96, value192, in_u. cbn [lo mid hi]. intros (Hl & Hm & Hh).
  rewrite Z.shiftr_div_pow2 by lia. apply Bool.eq_true_iff_eq.
  rewrite andb_true_iff, !Z.eqb_eq, Z.leb_le. mantissas. split; [intros [-> E]|intros E; split]; zlia.
Qed.

Lemma to128_spec v : ok192 v -> value192 v <= MAX_MANTISSA -> to128 v = value192 v.
Proof.
  destruct v as [l m h]. unfold ok192, to128, value192, in_u. cbn [lo mid hi]. intros (Hl & Hm & Hh) H.
  assert (h = 0) as -> by (mantissas; lia). unfold ushl.
  rewrite Z.shiftl_mul_pow2, wrapu_id by (unfold in_u; lia).
  rewrite Z.lor_comm, lor_high by (unfold in_u; lia). lia.
Qed.

(** One round of the loop drops a digit. *)
Lemma reduce_step v : ok192 v -> exists rem v', div192by10 v = (rem, v')
  /\ ok192 (if rem >=? 5 then increment v' else v')
  /\ value192 (if rem >=? 5 then increment v' else v') = (value192 v + 5) / 10.
Proof.
  intros Hv. destruct (div192by10_spec v Hv) as (rem & v' & E & Hv' & Hq & Hr). exists rem, v'.
  split; [exact E|]. assert (value192 v < 2 ^ 192) by (destruct Hv as (? & ? & ?); unfold value192, in_u in *; lia).
  split_if.
  - destruct (increment_spec v' Hv' ltac:(lia)) as [Ho ->]. split; [done|]. zlia.
  - split; [done|]. assert (0 <= value192 v') by (destruct Hv' as (? & ? & ?); unfold value192, in_u in *; lia). zlia.
Qed.

Lemma product_reduce_spec (fuel : nat) : forall prod scale, ok192 prod -> 0 <= scale < fuel ->
  (exists (j : nat) prod', j <= scale /\ reduce fuel prod scale = Ok (prod', scale - j) /\ ok192 prod'
     /\ value192 prod' = drops j (value192 prod) /\ value192 prod' <= MAX_MANTISSA /\ scale - j <= 28
     /\ (j = O \/ scale - j = 28 \/ exists i, j = S i /\ MAX_MANTISSA < drops i (value192 prod)))
  \/ (reduce fuel prod scale = Throw decimal_overflow /\ MAX_MANTISSA < drops (Z.to_nat scale) (value192 prod)).
Proof.
  induction fuel as [|fuel IH]; intros prod scale Hp Hs; [lia|]. cbn [reduce]. rewrite (fits96_spec prod Hp).
  destruct (negb (value192 prod <=? MAX_MANTISSA) || (scale >? 28)) eqn:E.
  - destruct (scale =? 0) eqn:E0.
    + right. apply Z.eqb_eq in E0 as ->. split; [done|]. change (Z.to_nat 0) with O.
      cbn [drops]. bool_to_prop; lia.
    + apply Z.eqb_neq in E0. destruct (reduce_step prod Hp) as (rem & v' & -> & Ho & Hv).
      set (prod1 := if rem >=? 5 then increment v' else v') in *.
      destruct (IH prod1 (scale - 1) Ho ltac:(lia)) as [(j & prod' & Hj & -> & Ho' & Hv' & Hm & H28 & Hlast)|(-> & Hm)].
      * left. exists (S j), prod'. cbn [drops]. rewrite <- Hv. split; [lia|].
        split; [f_equal; f_equal; lia|]. split; [done|]. split; [done|]. split; [done|]. split; [lia|].
        destruct Hlast as [->|[Hl|(i & -> & Hl)]].
        -- destruct (decide (scale - 1 = 28)); [right; left; lia|]. right; right. exists O. split; [done|].
           cbn [drops]. bool_to_prop; lia.
        -- right; left. lia.
        -- right; right. exists (S i). split; [done|]. cbn [drops]. by rewrite <- Hv.
      * right. split; [done|]. replace (Z.to_nat scale) with (S (Z.to_nat (scale - 1))) by lia.
        cbn [drops]. by rewrite <- Hv.
  - left. exists O, prod. apply orb_false_iff in E as [E1 E2]. apply negb_false_iff, Z.leb_le in E1.
    rewrite Z.gtb_ltb in E2. apply Z.ltb_ge in E2.
    split; [lia|]. split; [f_equal; f_equal; lia|]. split; [done|]. split; [done|]. split; [done|].
    split; [lia|]. by left.
Qed.

(** Digits left after dropping some bound the number from below. *)
Lemma drops_above (i : nat) m : 0 <= m -> MAX_MANTISSA < drops i m -> MAX_MANTISSA * 10 ^ i < m.
Proof.
  intros Hm H. pose proof (drops_close i m Hm). pose proof (Z.pow_pos_nonneg 10 i ltac:(done) ltac:(lia)).
  assert ((MAX_MANTISSA + 1) * 10 ^ i <= drops i m * 10 ^ i) by (apply Z.mul_le_mono_nonneg_r; lia). lia.
Qed.

Lemma unit_at_mul sa sb j : 0 <= sa <= 28 -> 0 <= sb <= 28 -> 0 <= j <= sa + sb ->
  unit_at (sa + sb - j) * 10 ^ 28 = 10 ^ j * (unit_at sa * unit_at sb) \/ 28 < sa + sb - j.
Proof.
  intros Ha Hb Hj. destruct (Z.le_gt_cases (sa + sb - j) 28) as [H|H]; [left|by right].
  unfold unit_at. rewrite <- !Z.pow_add_r by lia. f_equal. lia.
Qed.

Lemma value_mul a b : value a * value b =
  signed (xorb (negative_ a) (negative_ b)) (mantissa_ a * mantissa_ b * (unit_at (scale_ a) * unit_at (scale_ b))).
Proof. unfold value, magnitude. destruct (negative_ a), (negative_ b); cbn [signed xorb]; ring. Qed.

Lemma op_mul_faithful a b : wf a -> wf b ->
  faithful (10 ^ 28) (scale_ a + scale_ b) (Z.abs (value a * value b)) (value a * value b) (op_mul a b).
Proof.
  intros [Ha Hsa] [Hb Hsb]. unfold op_mul.
  destruct ((mantissa_ a =? 0) || (mantissa_ b =? 0)) eqn:Ez.
  - apply faithful_exact; [done|split; cbn; lia|cbn; lia|]. bool_to_prop; rewrite value_zero by done.
    + by rewrite (value_zero a).
    + by rewrite (value_zero b), Z.mul_0_r.
  - destruct (mul96x96_spec (mantissa_ a) (mantissa_ b) Ha Hb) as [Ho Ev].
    rewrite value_mul. set (p := mantissa_ a * mantissa_ b) in *. set (n := xorb _ _).
    assert (Hp : 0 <= p) by (subst p; nia).
    pose proof (unit_at_pos (scale_ a) ltac:(lia)) as Ua. pose proof (unit_at_pos (scale_ b) ltac:(lia)) as Ub.
    set (U := unit_at (scale_ a) * unit_at (scale_ b)) in *. assert (HU : 0 < U) by (subst U; nia).
    set (t := scale_ a + scale_ b) in *.
    destruct (product_reduce_spec (S (Z.to_nat t)) (mul96x96 (mantissa_ a) (mantissa_ b)) t Ho ltac:(lia)) as
      [(j & v & Hj & -> & Ho' & Ev' & Hm & H28 & Hlast)|(-> & Hm)]; cbn [bind faithful]; rewrite Ev in *.
    + rewrite (to128_spec v Ho' Hm), Ev'. unfold u8. rewrite wrapu_id by (unfold in_u; lia).
      pose proof (drops_range j p Hp) as Hr. rewrite Ev' in Hm.
      destruct (unit_at_mul (scale_ a) (scale_ b) j Hsa Hsb ltac:(lia)) as [EU|]; [|lia].
      fold t U in EU. unfold wf, value, magnitude. cbn [mantissa_ scale_ negative_].
      pose proof (drops_close j p Hp) as Hd. pose proof (Z.pow_pos_nonneg 10 j ltac:(done) ltac:(lia)) as Hpj.
      rewrite !dec_signed_mul, <- !Z.mul_assoc, EU.
      replace (signed n (drops j p) * (10 ^ j * U) - signed n p * U)
        with (signed n (drops j p * 10 ^ j - p) * U) by (destruct n; cbn [signed]; ring).
      split; [lia|]. split; [lia|]. split.
      * rewrite Z.abs_mul, (Z.abs_eq U) by lia. destruct n; cbn [signed]; nia.
      * destruct (decide (j = O)) as [->|Hj0]; [left; cbn [drops]; change (10 ^ O) with 1; ring|right].
        destruct Hlast as [?|[Hl|(i & -> & Hl)]]; [done|left; lia|right].
        -- apply drops_above in Hl; [|done]. rewrite <- dec_signed_mul, dec_signed_abs by nia.
           rewrite Nat2Z.inj_succ, Z.pow_succ_r by lia. nia.
    + split; [done|]. rewrite dec_signed_abs by nia. apply drops_above in Hm; [|done].
      rewrite Z2Nat.id in Hm by lia.
      assert (E56 : 10 ^ 28 * 10 ^ 28 = 10 ^ t * U).
      { destruct (unit_at_mul (scale_ a) (scale_ b) t Hsa Hsb ltac:(lia)) as [EU|]; [|lia].
        fold t U in EU. rewrite Z.sub_diag in EU. exact EU. }
      rewrite E56. nia.
Qed.

(** ** Exact outcomes *)

Definition exactly (r : res Decimal) (x : Z) : Prop := exists d, r = Ok d /\ value d = x.

Lemma unit_at_step s t : s < t -> t <= 28 -> 10 * unit_at t <= unit_at s.
Proof.
  intros Hs Ht. rewrite (unit_at_add s 1), Z.pow_1_r by lia. apply Z.mul_le_mono_nonneg_l; [lia|].
  apply Z.pow_le_mono_r; lia.
Qed.

Lemma op_add_exact a b : wf a -> wf b ->
  let top := Z.max (scale_ a) (scale_ b) in
  let fits x := Z.abs x <= MAX_MANTISSA * unit_at top in
  fits (value a) -> fits (value b) -> fits (value a + value b) -> exactly (op_add a b) (value a + value b).
Proof.
  intros Ha Hb top fits Fa Fb Fs. pose proof (wf_magnitude a Ha) as Na. pose proof (wf_magnitude b Hb) as Nb.
  unfold fits, value in Fa, Fb. rewrite dec_signed_abs in Fa, Fb by done.
  destruct Ha as [Ha Hsa], Hb as [Hb Hsb]. unfold op_add.
  destruct (alignScales_spec (mantissa_ a) (scale_ a) (mantissa_ b) (scale_ b)) as
    (m1 & m2 & s & -> & Hs & [H1 _] & [H2 _] & _ & Hprec); [lia..|]. fold top in Hs, Hprec. cbn [bind].
  pose proof (unit_at_pos s ltac:(lia)) as Hu. pose proof MAX_MANTISSA_eq as HM.
  destruct Hprec as [(-> & E1 & E2)|(Hlt & Hp)].
  2:{ pose proof (unit_at_step s top Hlt ltac:(lia)). unfold magnitude in *. lia. }
  fold (magnitude a) in E1. fold (magnitude b) in E2. unfold fits in Fs. clear fits Fa Fb Na Nb Ha Hb.
  unfold uadd, usub, value in *. rewrite <- E1, <- E2 in *. unfold exactly, value, magnitude.
  assert (Hm : 0 <= m1 + m2 <= 2 * MAX_MANTISSA) by lia.
  assert (Fin : forall r n, signed (negative_ r) (mantissa_ r * unit_at (scale_ r)) = n ->
    exists d, Ok (if mantissa_ r =? 0 then decimal (mantissa_ r) (scale_ r) false else r) = Ok d /\
      signed (negative_ d) (mantissa_ d * unit_at (scale_ d)) = n).
  { intros r n <-. eexists. split; [done|]. apply (unsigned_zero_value r). }
  destruct (eqb (negative_ a) (negative_ b)) eqn:En; [|destruct (m1 >=? m2) eqn:Em];
    rewrite ?Bool.eqb_true_iff, ?Bool.eqb_false_iff in En.
  - rewrite u128_small, fitMantissa_fits; [|split; [lia|]|lia|done].
    + rewrite bind_Ok. apply Fin. cbn [negative_ mantissa_ scale_]. rewrite <- En. destruct (negative_ a); cbn [signed]; lia.
    + rewrite <- En in Fs. apply (Z.mul_le_mono_pos_r _ _ (unit_at top)); [done|]. destruct (negative_ a); cbn [signed] in Fs; lia.
  - apply Z.geb_le in Em. rewrite u128_small, bind_Ok by lia. apply Fin. cbn [negative_ mantissa_ scale_].
    destruct (negative_ a), (negative_ b); cbn [signed]; done || lia.
  - rewrite Z.geb_leb in Em. apply Z.leb_gt in Em. rewrite u128_small, bind_Ok by lia. apply Fin. cbn [negative_ mantissa_ scale_].
    destruct (negative_ a), (negative_ b); cbn [signed]; done || lia.
Qed.

Lemma op_sub_exact a b : wf a -> wf b ->
  let top := Z.max (scale_ a) (scale_ b) in
  let fits x := Z.abs x <= MAX_MANTISSA * unit_at top in
  fits (value a) -> fits (value b) -> fits (value a - value b) -> exactly (op_sub a b) (value a - value b).
Proof.
  intros Ha Hb top fits Fa Fb Fs. unfold op_sub. split_if.
  - exists a. split; [done|]. rewrite (value_zero b E). lia.
  - pose proof (op_add_exact a (decimal (mantissa_ b) (scale_ b) (negb (negative_ b))) Ha Hb) as H.
    assert (E' : value (decimal (mantissa_ b) (scale_ b) (negb (negative_ b))) = - value b).
    { unfold value, magnitude. cbn [mantissa_ scale_ negative_]. destruct (negative_ b); cbn [signed negb]; lia. }
    cbv zeta in H. cbn [scale_] in H. rewrite E', Z.abs_opp, Z.add_opp_r in H. by apply H.
Qed.

Lemma op_mul_exact a b : wf a -> wf b -> scale_ a + scale_ b <= 28 -> mantissa_ a * mantissa_ b <= MAX_MANTISSA ->
  exists d, op_mul a b = Ok d /\ value d * 10 ^ 28 = value a * value b.
Proof.
  intros [Ha Hsa] [Hb Hsb] Hs Hp. unfold op_mul.
  destruct ((mantissa_ a =? 0) || (mantissa_ b =? 0)) eqn:Ez.
  { exists default. split; [done|]. bool_to_prop; rewrite (value_zero _ E) || rewrite (value_zero _ H); change (value default) with 0; lia. }
  destruct (mul96x96_spec (mantissa_ a) (mantissa_ b) Ha Hb) as [Ho Ev].
  set (t := scale_ a + scale_ b) in *.
  assert (E : reduce (S (Z.to_nat t)) (mul96x96 (mantissa_ a) (mantissa_ b)) t = Ok (mul96x96 (mantissa_ a) (mantissa_ b), t)).
  { cbn [reduce]. rewrite fits96_spec, Ev by done. decide_cmp. done. }
  rewrite E, bind_Ok, to128_spec, Ev by (done || lia). unfold u8. rewrite wrapu_id by (unfold in_u; lia).
  eexists. split; [done|]. rewrite value_mul. unfold value, magnitude. cbn [mantissa_ scale_ negative_].
  rewrite <- dec_signed_mul. f_equal.
  destruct (unit_at_mul (scale_ a) (scale_ b) 0 Hsa Hsb ltac:(lia)) as [EU|]; [|lia].
  fold t in EU. rewrite Z.sub_0_r, Z.mul_1_l in EU. rewrite <- EU. ring.
Qed.

(** ** Property *)

(** C17: addition, subtraction and multiplication of any two Decimals, with unsigned
    128-bit integers that never wrap to a wrong result.  The outcome is a well-formed
    Decimal with no more places than the operands have (for a product, together), less
    than five ninths of its last place away (not one half: digits are rounded one after
    the other), or OverflowException, and then no Decimal is as large as the exact
    result.  It is exact, unless a product has more than 28 places or the last place of
    the outcome times [2^96 - 1] is less than ten times the operands' size.  In
    particular a sum or a difference is exact when the operands and it fit 96 bits at
    the larger scale, a product when its digits fit and its places are at most 28.
    Where an operand does not fit at the larger scale, digits of the other are rounded
    before the two are added, even when the exact outcome is a Decimal: so half a
    difference is lost in the last clause. *)
Theorem Decimal_arithmetic a b : wf a -> wf b ->
  let top := Z.max (scale_ a) (scale_ b) in
  let fits x := Z.abs x <= MAX_MANTISSA * unit_at top in
  faithful 1 top (Z.abs (value a) + Z.abs (value b)) (value a + value b) (op_add a b)
  /\ faithful 1 top (Z.abs (value a) + Z.abs (value b)) (value a - value b) (op_sub a b)
  /\ faithful (10 ^ 28) (scale_ a + scale_ b) (Z.abs (value a * value b)) (value a * value b) (op_mul a b)
  /\ (fits (value a) -> fits (value b) -> fits (value a + value b) -> exactly (op_add a b) (value a + value b))
  /\ (fits (value a) -> fits (value b) -> fits (value a - value b) -> exactly (op_sub a b) (value a - value b))
  /\ (scale_ a + scale_ b <= 28 -> mantissa_ a * mantissa_ b <= MAX_MANTISSA ->
      exists d, op_mul a b = Ok d /\ value d * 10 ^ 28 = value a * value b)
  /\ op_sub (decimal 7922816251426433759354395034 0 false) (decimal 79228162514264337593543950335 1 false)
       = Ok (decimal 0 0 false).
Proof.
  intros Ha Hb top fits. split; [by apply op_add_faithful|]. split; [by apply op_sub_faithful|].
  split; [by apply op_mul_faithful|]. split; [by apply op_add_exact|]. split; [by apply op_sub_exact|].
  split; [by apply op_mul_exact|by vm_compute].
Qed.

Lemma Decimal_arithmetic_witness :
  op_add (decimal 15 1 false) (decimal 25 2 true) = Ok (decimal 125 2 false)
  /\ op_mul (decimal 445 28 false) (decimal 1 3 false) = Ok (decimal 1 28 false)
  /\ op_mul (decimal MAX_MANTISSA 0 false) (decimal 2 0 true) = Throw decimal_overflow
  /\ faithful 1 2 (Z.abs (value (decimal 15 1 false)) + Z.abs (value (decimal 25 2 true)))
       (value (decimal 15 1 false) + value (decimal 25 2 true)) (op_add (decimal 15 1 false) (decimal 25 2 true)).
Proof.
  split; [by vm_compute|]. split; [by vm_compute|]. split; [by vm_compute|].
  refine (proj1 (Decimal_arithmetic (decimal 15 1 false) (decimal 25 2 true) _ _));
    split; vm_compute; split; discriminate.
Defined.
