(* ===== verification/DecimalDivide.v ===== *)
(** * Decimal: division and remainder *)

From S2P Require Export DecimalArith.

#[local] Open Scope Z_scope.
#[local] Coercion Z.of_nat : nat >-> Z.

Import Decimal.

(** The dividend scaled to the places of the divisor still fits 96 bits. *)
Definition scales (a b : Decimal) : Prop :=
  mantissa_ a * 10 ^ Z.max 0 (scale_ b - scale_ a) <= MAX_MANTISSA.

(** ** The loops *)

Lemma scale_up_spec (n : nat) : forall m s, 0 < m <= MAX_MANTISSA -> 28 - s <= n ->
  exists i : nat, scale_up n m s = Ok (m * 10 ^ i, s + i) /\ m * 10 ^ i <= MAX_MANTISSA
  /\ (28 <= s + i \/ MAX_MANTISSA < 10 * (m * 10 ^ i)) /\ (i = O \/ s + i <= 28).
Proof.
  induction n as [|n IH]; intros m s Hm Hn; cbn [scale_up]; pose proof MAX_MANTISSA_eq as HM;
    destruct ((s <? 28) && (m <=? MAX_MANTISSA / 10)) eqn:E; bool_to_prop; try lia.
  1, 2, 4, 5: exists O; change (10 ^ O) with 1; rewrite Z.mul_1_r, Z.add_0_r;
    (split; [done|]); (split; [lia|]); (split; [zlia|by left]).
  unfold umul. rewrite u128_small by zlia.
  destruct (IH (m * 10) (s + 1)) as (i & -> & Hi & Hend & Hmax); [zlia|lia|]. exists (S i).
  rewrite Nat2Z.inj_succ, Z.pow_succ_r by lia.
  replace (m * (10 * 10 ^ i)) with (m * 10 * 10 ^ i) by lia. replace (s + Z.succ i) with (s + 1 + i) by lia.
  split; [done|]. split; [done|]. split; [done|]. right. lia.
Qed.

Lemma scale_down_spec (n : nat) : forall q s, 0 <= q -> s = - n -> scale_down n q s = Ok (q / 10 ^ n, 0).
Proof.
  induction n as [|n IH]; intros q s Hq ->; cbn [scale_down]; decide_cmp.
  - by rewrite Z.div_1_r.
  - rewrite IH by zlia. rewrite Nat2Z.inj_succ, Z.pow_succ_r, Z.div_div by lia. do 3 f_equal; lia.
Qed.

Lemma scale_down_done n q s : 0 <= s -> scale_down n q s = Ok (q, s).
Proof. intros H. destruct n; cbn [scale_down]; by decide_cmp. Qed.

(** The quotient of two mantissas, rounded half up. *)
Definition half_up (d m : Z) : Z := d / m + (if 2 * (d mod m) >=? m then 1 else 0).

Lemma half_up_spec d m : 0 <= d -> 0 < m ->
  0 <= half_up d m <= Z.max 1 d /\ 2 * Z.abs (half_up d m * m - d) <= m /\ 2 * (half_up d m * m) <= 2 * d + m.
Proof.
  intros Hd Hm. unfold half_up. pose proof (Z.div_mod d m ltac:(lia)). pose proof (Z.mod_pos_bound d m Hm).
  pose proof (Z.div_pos d m ltac:(lia) ltac:(lia)).
  assert (d / m <= d) by (apply Z.div_le_upper_bound; nia).
  assert (m <> 1 -> 0 < d -> d / m < d) by (intros; apply Z.div_lt; lia).
  destruct (2 * (d mod m) >=? m) eqn:E; bool_to_prop; (split; [|nia]); [|lia].
  destruct (decide (m = 1)) as [->|]; [rewrite Z.mod_1_r in *; lia|]. lia.
Qed.

(** Division as one expression: the scaled dividend, the rounded quotient and what
    is left of it when the scale is still negative. *)
Lemma op_div_eq a b : wf a -> wf b -> mantissa_ a <> 0 -> mantissa_ b <> 0 ->
  exists i : nat, let t := scale_ a - scale_ b + i in let D := mantissa_ a * 10 ^ i in
  op_div a b = Ok (decimal (half_up D (mantissa_ b) / 10 ^ Z.max 0 (- t)) (Z.max 0 t)
                     (xorb (negative_ a) (negative_ b)))
  /\ D <= MAX_MANTISSA /\ (t = 28 \/ MAX_MANTISSA < 10 * D) /\ t <= 28.
Proof.
  intros [Ha Hsa] [Hb Hsb] Na Nb. unfold op_div. pose proof MAX_MANTISSA_eq as HM.
  rewrite throw_if_false by lia. cbn [bind]. rewrite (proj2 (Z.eqb_neq _ _) Na).
  destruct (scale_up_spec (Z.to_nat (28 - (scale_ a - scale_ b))) (mantissa_ a) (scale_ a - scale_ b)) as
    (i & -> & Hi & Hend & Hmax); [lia..|]. exists i. cbn [bind].
  set (t := scale_ a - scale_ b + i) in *. set (D := mantissa_ a * 10 ^ i) in *. cbn zeta.
  assert (Ht : t <= 28) by lia. pose proof (Z.pow_pos_nonneg 10 i ltac:(done) ltac:(lia)) as Hpi.
  assert (HD : 0 < D) by (subst D; nia).
  pose proof (half_up_spec D (mantissa_ b) ltac:(lia) ltac:(lia)) as (Hq & _ & _).
  assert (Eq : (if umul 128 (D mod mantissa_ b) 2 >=? mantissa_ b
                then uadd 128 (D / mantissa_ b) 1 else D / mantissa_ b) = half_up D (mantissa_ b)).
  { pose proof (Z.mod_pos_bound D (mantissa_ b) ltac:(lia)).
    unfold half_up, umul, uadd in *. rewrite u128_small, Z.mul_comm by lia.
    destruct (2 * (D mod mantissa_ b) >=? mantissa_ b); [|lia]. apply u128_small. lia. }
  rewrite Eq. clear Eq. set (q := half_up D (mantissa_ b)) in *.
  assert (Hfit : forall m s, 0 <= m <= q -> 0 <= s <= 28 ->
    fitMantissa (decimal m (u8 (Z.min s 28)) (xorb (negative_ a) (negative_ b)))
      = Ok (decimal m s (xorb (negative_ a) (negative_ b)))).
  { intros m s Hm Hs. unfold u8. rewrite Z.min_l, wrapu_id by (unfold in_u; lia).
    apply fitMantissa_fits; lia. }
  split; [|split; [done|split; [lia|done]]].
  destruct (Z.le_gt_cases 0 t) as [H0|H0].
  - rewrite scale_down_done by done. cbn [bind]. rewrite Hfit by lia.
    rewrite !Z.max_l, !Z.max_r by lia. by rewrite Z.div_1_r.
  - rewrite (scale_down_spec _ q t) by lia. cbn [bind].
    rewrite (Z.max_r 0 (- t)), (Z.max_l 0 t), Z2Nat.id by lia.
    pose proof (Z.pow_pos_nonneg 10 (- t) ltac:(done) ltac:(lia)).
    apply Hfit; [|lia]. split; [apply Z.div_pos; lia|apply Z.div_le_upper_bound; nia].
Qed.

(** ** Exactness of the quotient *)

Lemma value_quotient a b q (t : Z) : 0 <= scale_ a <= 28 -> 0 <= scale_ b <= 28 -> 0 <= t <= 28 ->
  0 <= t - scale_ a + scale_ b ->
  let D := mantissa_ a * 10 ^ (t - scale_ a + scale_ b) in
  let W := unit_at t * unit_at (scale_ b) in
  value (decimal q t (xorb (negative_ a) (negative_ b))) * value b = signed (negative_ a) (q * mantissa_ b) * W
  /\ value a * 10 ^ 28 = signed (negative_ a) D * W.
Proof.
  intros Ha Hb Ht Hi. cbn zeta. unfold value, magnitude. cbn [mantissa_ scale_ negative_]. split.
  - destruct (negative_ a), (negative_ b); cbn [signed xorb]; ring.
  - assert (E : unit_at (scale_ a) * 10 ^ 28 = 10 ^ (t - scale_ a + scale_ b) * (unit_at t * unit_at (scale_ b))).
    { unfold unit_at. rewrite <- !Z.pow_add_r by lia. f_equal. lia. }
    rewrite dec_signed_mul, <- Z.mul_assoc, E, !dec_signed_mul. ring.
Qed.

Lemma scales_reach a b (i : nat) : wf a -> mantissa_ a <> 0 ->
  mantissa_ a * 10 ^ i <= MAX_MANTISSA ->
  scale_ a - scale_ b + i = 28 \/ MAX_MANTISSA < 10 * (mantissa_ a * 10 ^ i) ->
  (scales a b <-> 0 <= scale_ a - scale_ b + i).
Proof.
  intros [Ha Hs] Na Hi Hend. unfold scales. split; intros H.
  - destruct Hend as [?|Hend]; [lia|]. destruct (Z.le_gt_cases 0 (scale_ a - scale_ b + i)) as [|Hn]; [done|].
    exfalso. assert (10 * 10 ^ i <= 10 ^ Z.max 0 (scale_ b - scale_ a)).
    { rewrite <- Z.pow_succ_r by lia. apply Z.pow_le_mono_r; lia. }
    nia.
  - assert (10 ^ Z.max 0 (scale_ b - scale_ a) <= 10 ^ i) by (apply Z.pow_le_mono_r; lia). nia.
Qed.

(** [n % 2] for an odd integer of 29 digits, and some of 28. *)
Lemma odd_remainder n : MAX_MANTISSA / 10 < n < MAX_MANTISSA -> n mod 2 = 1 ->
  op_rem (decimal n 0 false) (of_signed 2) = Ok (decimal 1 0 true).
Proof.
  intros Hn Ho. pose proof MAX_MANTISSA_eq as HM. unfold op_rem, op_div. change (of_signed 2) with (decimal 2 0 false).
  cbn [mantissa_ scale_ negative_ Z.sub Z.eqb throw_if bind xorb]. rewrite (proj2 (Z.eqb_neq n 0)) by zlia.
  assert (E : scale_up (Z.to_nat (28 - 0)) n 0 = Ok (n, 0)).
  { change (Z.to_nat (28 - 0)) with 28%nat. cbn [scale_up]. rewrite (proj2 (Z.leb_gt n _)) by lia.
    by rewrite andb_false_r. }
  change (0 - 0) with 0. rewrite E. cbn [bind]. clear E. rewrite Ho. change (umul 128 1 2 >=? 2) with true. cbn iota.
  unfold uadd. rewrite u128_small by zlia.
  assert (Eq : 2 * (n / 2 + 1) = n + 1 /\ 0 < n) by zlia. destruct Eq as [Eq Hn0]. set (q := n / 2 + 1) in *.
  rewrite scale_down_done by done. cbn [bind]. change (u8 (Z.min 0 28)) with 0.
  rewrite fitMantissa_fits by lia. cbn [bind]. unfold Truncate. cbn [scale_ Z.eqb].
  unfold op_mul. cbn [mantissa_ scale_ negative_ xorb]. rewrite (proj2 (Z.eqb_neq q 0)) by lia. cbn [Z.eqb orb].
  destruct (mul96x96_spec q 2 ltac:(lia) ltac:(lia)) as [Hok Hv].
  destruct (product_reduce_spec 1 (mul96x96 q 2) 0 Hok ltac:(done)) as
    [(j & v & Hj & E & Hok' & Hv' & Hm & _)|(_ & Hm)]; [|rewrite Hv in Hm; change (Z.to_nat 0) with O in Hm; cbn [drops] in Hm; lia].
  assert (j = O) as -> by lia. change (S (Z.to_nat (0 + 0))) with 1%nat. change (0 + 0) with 0.
  rewrite E. cbn [bind]. rewrite to128_spec, Hv', Hv by done. cbn [drops].
  change (u8 (0 - O)) with 0. unfold op_sub, op_add. cbn [mantissa_ scale_ negative_ negb].
  rewrite (proj2 (Z.eqb_neq (q * 2) 0)) by lia.
  unfold alignScales. rewrite align_loop_done by done. cbn [bind]. rewrite align_loop_done by done. cbn [bind eqb].
  rewrite Z.geb_leb, (proj2 (Z.leb_gt (q * 2) n)) by lia. cbn [bind]. unfold usub.
  rewrite u128_small by lia. cbn [mantissa_]. replace (q * 2 - n) with 1 by lia. done.
Qed.

(** A quotient divided once more by ten or more. *)
Lemma lost_quotient D m q P : 0 < m -> 0 <= q -> 10 <= P -> 2 * (q * m) <= 2 * D + m -> 0 <= D ->
  90 * (q / P * m) <= D * P.
Proof.
  intros Hm Hq HP Hu HD. pose proof (Z.mul_div_le q P ltac:(lia)) as Hd.
  pose proof (Z.div_pos q P Hq ltac:(lia)) as H0. set (r := q / P) in *.
  destruct (decide (r = 0)) as [->|]; [nia|].
  assert (10 * r <= q) by nia. assert (19 * (q * m) <= 20 * D) by nia.
  assert (10 * (r * m) <= q * m) by nia. nia.
Qed.

(** ** Properties *)

(** C18: division by zero throws, and nothing else does.  When the dividend,
    brought to the places of the divisor, still fits 96 bits, the quotient is the
    exact one rounded to the nearest at its own scale, which is 28 unless a further
    digit of the scaled dividend would not fit; it is an integer quotient, its
    places lost, for a dividend of 29 digits.  Otherwise the code divides where it
    should multiply, and the result is less than a ninetieth of the quotient.  So
    the remainder of an odd integer above [2^96 / 10] by two is minus one. *)
Theorem Decimal_divide a b : wf a -> wf b ->
  (mantissa_ b = 0 -> op_div a b = Throw (DivideByZeroException "Attempted to divide by zero."))
  /\ (mantissa_ b <> 0 -> exists r, op_div a b = Ok r /\ wf r
      /\ (scales a b -> 2 * Z.abs (value r * value b - value a * 10 ^ 28) <= unit_at (scale_ r) * Z.abs (value b)
            /\ (mantissa_ a = 0 \/ scale_ r = 28
                \/ MAX_MANTISSA < 10 * (mantissa_ a * 10 ^ (scale_ r - scale_ a + scale_ b))))
      /\ (~ scales a b -> 90 * Z.abs (value r * value b) <= Z.abs (value a * 10 ^ 28)))
  /\ (forall n, MAX_MANTISSA / 10 < n < MAX_MANTISSA -> n mod 2 = 1 ->
        op_rem (decimal n 0 false) (of_signed 2) = Ok (decimal 1 0 true)).
Proof.
  intros Wa Wb. split; [|split]; [|intros Nb|exact odd_remainder].
  { intros E. unfold op_div. by rewrite E. }
  destruct (decide (mantissa_ a = 0)) as [Za|Na].
  { exists default. pose proof (unit_at_pos 0 ltac:(done)) as Hu. split; [|split; [|split]].
    - unfold op_div. by rewrite (proj2 (Z.eqb_neq _ _) Nb), Za.
    - split; cbn; mantissas; lia.
    - intros _. rewrite (value_zero a Za), (value_zero default) by done. cbn [scale_ default]. split; [|by left]. lia.
    - intros _. rewrite (value_zero a Za), (value_zero default) by done. done. }
  destruct (op_div_eq a b Wa Wb Na Nb) as (i & E & HD & Hend & Ht). cbn zeta in *.
  pose proof (scales_reach a b i Wa Na HD Hend) as Hreach.
  destruct Wa as [Ha Hsa], Wb as [Hb Hsb]. 
  set (t := scale_ a - scale_ b + i) in *. set (D := mantissa_ a * 10 ^ i) in *.
  pose proof (Z.pow_pos_nonneg 10 i ltac:(done) ltac:(lia)) as Hpi. assert (HD0 : 0 < D) by (subst D; nia).
  pose proof (half_up_spec D (mantissa_ b) ltac:(lia) ltac:(lia)) as (Hq & He & Hu).
  set (q := half_up D (mantissa_ b)) in *. eexists. split; [exact E|]. cbn [scale_].
  assert (Hwf : wf (decimal (q / 10 ^ Z.max 0 (- t)) (Z.max 0 t) (xorb (negative_ a) (negative_ b)))).
  { pose proof (Z.pow_pos_nonneg 10 (Z.max 0 (- t)) ltac:(done) ltac:(lia)). pose proof MAX_MANTISSA_eq.
    split; cbn [mantissa_ scale_]; [|lia]. split; [apply Z.div_pos; lia|apply Z.div_le_upper_bound; nia]. }
  split; [exact Hwf|]. split.
  - intros Hs. apply Hreach in Hs. rewrite (Z.max_r 0 t), (Z.max_l 0 (- t)), Z.div_1_r by lia.
    destruct (value_quotient a b q t Hsa Hsb ltac:(lia) ltac:(lia)) as [-> ->].
    replace (t - scale_ a + scale_ b) with (i : Z) by lia. fold D.
    pose proof (unit_at_pos t ltac:(lia)) as Ut. pose proof (unit_at_pos (scale_ b) ltac:(lia)) as Ub.
    split; [|lia]. unfold value. rewrite dec_signed_abs by (unfold magnitude; nia). unfold magnitude.
    replace (signed (negative_ a) (q * mantissa_ b) * (unit_at t * unit_at (scale_ b))
             - signed (negative_ a) D * (unit_at t * unit_at (scale_ b)))
      with (signed (negative_ a) (q * mantissa_ b - D) * (unit_at t * unit_at (scale_ b)))
      by (destruct (negative_ a); cbn [signed]; ring).
    rewrite Z.abs_mul, (Z.abs_eq (unit_at t * unit_at (scale_ b))) by nia.
    assert (Z.abs (signed (negative_ a) (q * mantissa_ b - D)) = Z.abs (q * mantissa_ b - D)) as ->
      by (destruct (negative_ a); cbn [signed]; lia).
    nia.
  - intros Hs. assert (Ht0 : t < 0) by (destruct (Z.lt_ge_cases t 0); [done|]; exfalso; apply Hs, Hreach; done).
    clear Hreach Hs Hwf. rewrite (Z.max_l 0 t), (Z.max_r 0 (- t)) by lia.
    assert (HP : 10 ^ 1 <= 10 ^ (- t)) by (apply Z.pow_le_mono_r; lia).
    pose proof (lost_quotient D (mantissa_ b) q (10 ^ (- t)) ltac:(lia) ltac:(lia) HP Hu ltac:(lia)) as HL.
    pose proof (unit_at_pos (scale_ b) ltac:(lia)) as Ub.
    assert (EU : unit_at (scale_ a) = 10 ^ (- t) * 10 ^ i * unit_at (scale_ b)).
    { unfold unit_at. rewrite <- !Z.pow_add_r by lia. f_equal. lia. }
    unfold value, magnitude. cbn [mantissa_ scale_ negative_]. rewrite EU, !Z.abs_mul.
    pose proof (Z.pow_pos_nonneg 10 (- t) ltac:(done) ltac:(lia)).
    pose proof (Z.div_pos q (10 ^ (- t)) ltac:(lia) ltac:(lia)).
    change (unit_at 0) with (10 ^ 28). change (Z.abs (10 ^ 28)) with (10 ^ 28).
    rewrite !dec_signed_abs by nia. subst D. nia.
Qed.

Lemma Decimal_divide_witness :
  op_div (decimal 1 0 false) (decimal 3 0 true)
    = Ok (decimal 3333333333333333333333333333 28 true)
  /\ op_div (decimal 79228162514264337593543950335 0 false) (decimal 1 1 false)
    = Ok (decimal 7922816251426433759354395033 0 false)
  /\ op_rem (decimal 10000000000000000000000000001 0 false) (of_signed 2) = Ok (decimal 1 0 true)
  /\ exists r, op_div (decimal 1 0 false) (decimal 3 0 true) = Ok r /\ wf r.
Proof.
  split; [by vm_compute|]. split; [by vm_compute|].
  assert (W1 : wf (decimal 1 0 false)) by (split; vm_compute; split; discriminate).
  assert (W2 : wf (decimal 3 0 true)) by (split; vm_compute; split; discriminate).
  destruct (Decimal_divide (decimal 1 0 false) (decimal 3 0 true) W1 W2) as (_ & H & Hodd).
  split; [apply Hodd; vm_compute; done|].
  destruct (H ltac:(done)) as (r & E & Hr & _). exists r. split; [exact E|exact Hr].
Defined.
