(* ===== verification/DecimalOrder.v ===== *)
(** * Decimal: comparison and hash code *)

From S2P Require Export DecimalArith.

#[local] Open Scope Z_scope.
#[local] Coercion Z.of_nat : nat >-> Z.

Import Decimal.

(** Two values that agree to within the precision of the larger one: the first
    28 digits. *)
Definition indistinct (x y : Z) : Prop :=
  9 * (MAX_MANTISSA * Z.abs (x - y)) < 50 * Z.max (Z.abs x) (Z.abs y).

(** What comparing aligned mantissas says of the operands. *)
Lemma aligned_compare m1 s1 m2 s2 : 0 <= m1 <= MAX_MANTISSA -> 0 <= m2 <= MAX_MANTISSA ->
  0 <= s1 <= 28 -> 0 <= s2 <= 28 ->
  let A := m1 * unit_at s1 in let B := m2 * unit_at s2 in
  exists m1' m2' s, alignScales m1 s1 m2 s2 = Ok ((m1', s), (m2', s))
  /\ (m1' < m2' -> A < B) /\ (m2' < m1' -> B < A) /\ (m1' = m2' -> A = B \/ indistinct A B).
Proof.
  intros H1 H2 Hs1 Hs2. cbn zeta.
  destruct (alignScales_spec m1 s1 m2 s2) as (m1' & m2' & s & E & Hs & [_ E1] & [_ E2] & Hone & Hp); [done..|].
  exists m1', m2', s. split; [exact E|]. pose proof (unit_at_pos s ltac:(lia)) as Hu.
  pose proof (unit_at_pos s1 ltac:(lia)). pose proof (unit_at_pos s2 ltac:(lia)).
  set (A := m1 * unit_at s1) in *. set (B := m2 * unit_at s2) in *.
  assert (HA : 0 <= A) by (subst A; nia). assert (HB : 0 <= B) by (subst B; nia).
  clearbody A B. clear H1 H2 E. split; [|split].
  - intros Hl. assert (m1' * unit_at s + unit_at s <= m2' * unit_at s) by nia. lia.
  - intros Hl. assert (m2' * unit_at s + unit_at s <= m1' * unit_at s) by nia. lia.
  - intros ->. destruct Hp as [(_ & P1 & P2)|Hp]; [left; lia|right]. unfold indistinct.
    rewrite (Z.abs_eq A), (Z.abs_eq B) by done. assert (9 * Z.abs (A - B) < 5 * unit_at s) by lia.
    pose proof MAX_MANTISSA_eq as HM. assert (9 * (MAX_MANTISSA * Z.abs (A - B)) <= 5 * (MAX_MANTISSA * unit_at s)) by nia.
    lia.
Qed.

(** Equality and order of the operators against those of the values. *)
Lemma op_compare a b : wf a -> wf b ->
  exists e l, op_eq a b = Ok e /\ op_lt a b = Ok l
  /\ (l = true -> value a < value b) /\ (value a = value b -> e = true)
  /\ (e = true -> l = false /\ (value a = value b \/ indistinct (value a) (value b)))
  /\ (e = false -> l = false -> value b < value a).
Proof.
  intros Wa Wb. pose proof (wf_magnitude a Wa) as Na. pose proof (wf_magnitude b Wb) as Nb.
  destruct Wa as [Ha Hsa], Wb as [Hb Hsb]. unfold op_eq, op_lt.
  pose proof (unit_at_pos (scale_ a) ltac:(lia)) as Ua. pose proof (unit_at_pos (scale_ b) ltac:(lia)) as Ub.
  destruct (eqb (negative_ a) (negative_ b)) eqn:En; cbn [negb].
  - rewrite Bool.eqb_true_iff in En.
    destruct (aligned_compare (mantissa_ a) (scale_ a) (mantissa_ b) (scale_ b)) as
      (m1 & m2 & s & -> & Hlt & Hgt & Heq); [done..|]. cbn [bind].
    fold (magnitude a) (magnitude b) in Hlt, Hgt, Heq. unfold value. rewrite <- En.
    exists (m1 =? m2), (if negative_ a then m1 >? m2 else m1 <? m2). split; [done|]. split; [done|].
    assert (Hi : indistinct (magnitude a) (magnitude b) -> indistinct (- magnitude a) (- magnitude b))
      by (unfold indistinct; replace (- magnitude a - - magnitude b) with (- (magnitude a - magnitude b)) by lia;
          by rewrite !Z.abs_opp).
    destruct (Z.lt_total m1 m2) as [H|[H|H]]; [specialize (Hlt H)|specialize (Heq H)|specialize (Hgt H)];
      destruct (negative_ a); cbn [signed]; decide_cmp; (split; [intros; (done || lia)|]); (split; [intros; (done || lia)|]);
      (split; [try done; intros _|intros; (done || lia)]); (split; [done|]);
      (destruct Heq as [->|]; [by left|right; auto]).
  - apply Bool.eqb_false_iff in En. exists ((mantissa_ a =? 0) && (mantissa_ b =? 0)),
      (if (mantissa_ a =? 0) && (mantissa_ b =? 0) then false else negative_ a).
    split; [done|]. split; [done|]. unfold value, magnitude in *.
    destruct ((mantissa_ a =? 0) && (mantissa_ b =? 0)) eqn:Ez; bool_to_prop.
    + replace (mantissa_ a) with 0 by lia. replace (mantissa_ b) with 0 by lia.
      split; [done|]. split; [done|]. split; [|done]. intros _. split; [done|left].
      destruct (negative_ a), (negative_ b); done.
    + destruct (negative_ a), (negative_ b); try done; cbn [signed];
        (split; [intros; nia|]); (split; [intros; nia|]); (split; [done|]); intros; nia.
    + destruct (negative_ a), (negative_ b); try done; cbn [signed];
        (split; [intros; nia|]); (split; [intros; nia|]); (split; [done|]); intros; nia.
Qed.

(** ** Hash code *)

Definition stripped (m s : Z) : Prop := s = 0 \/ m mod 10 <> 0.

Lemma strip_loop_spec (n : nat) : forall m s, 0 <= m -> s = Z.of_nat n -> s <= 28 ->
  exists m' s', strip_loop n m s = Ok (m', s') /\ 0 <= m' /\ 0 <= s' <= s /\ stripped m' s'
  /\ m' * unit_at s' = m * unit_at s.
Proof.
  assert (stop : forall m s, (s >? 0) && (m mod 10 =? 0) = false -> 0 <= s -> stripped m s).
  { intros m s E Hs. unfold stripped. bool_to_prop; [left; lia|right; lia]. }
  induction n as [|n IH]; intros m s Hm Es Hs; cbn [strip_loop];
    destruct ((s >? 0) && (m mod 10 =? 0)) eqn:E.
  - bool_to_prop. lia.
  - exists m, s. split; [done|]. split; [done|]. split; [lia|]. split; [apply stop; [done|lia]|done].
  - bool_to_prop. unfold u8. rewrite wrapu_id by (unfold in_u; lia).
    destruct (IH (m / 10) (s - 1)) as (m' & s' & -> & Hm' & Hs' & Hst & Ev); [zlia|lia..|].
    exists m', s'. split; [done|]. split; [done|]. split; [lia|]. split; [done|].
    rewrite Ev, (unit_at_add (s - 1) 1), Z.sub_add by lia. change (10 ^ 1) with 10.
    assert (m = m / 10 * 10) by zlia. nia.
  - exists m, s. split; [done|]. split; [done|]. split; [lia|]. split; [apply stop; [done|lia]|done].
Qed.

Lemma stripped_unique m1 s1 m2 s2 : 0 <= s1 <= s2 -> s2 <= 28 -> stripped m2 s2 ->
  m1 * unit_at s1 = m2 * unit_at s2 -> m1 = m2 /\ s1 = s2.
Proof.
  intros Hs H28 Hst E. pose proof (unit_at_pos s2 H28) as Hu.
  rewrite (unit_at_add s1 (s2 - s1)) in E by lia. replace (s1 + (s2 - s1)) with s2 in E by lia.
  assert (E' : m2 = m1 * 10 ^ (s2 - s1)) by nia.
  destruct (decide (s1 = s2)) as [->|Hn]; [rewrite Z.sub_diag in E'; lia|]. exfalso.
  destruct Hst as [|Hst]; [lia|]. apply Hst. rewrite E'. replace (s2 - s1) with (Z.succ (s2 - s1 - 1)) by lia.
  rewrite Z.pow_succ_r, Z.mul_comm, <- Z.mul_assoc, Z.mul_comm by lia. apply Z.mod_mul. done.
Qed.

Lemma GetHashCode_equal h64 h8 hb a b : wf a -> wf b -> value a = value b ->
  GetHashCode h64 h8 hb a = GetHashCode h64 h8 hb b.
Proof.
  intros [Ha Hsa] [Hb Hsb] E. unfold GetHashCode.
  destruct (strip_loop_spec (Z.to_nat (scale_ a)) (mantissa_ a) (scale_ a)) as
    (m1 & s1 & -> & Hm1 & Hs1 & St1 & E1); [lia..|].
  destruct (strip_loop_spec (Z.to_nat (scale_ b)) (mantissa_ b) (scale_ b)) as
    (m2 & s2 & -> & Hm2 & Hs2 & St2 & E2); [lia..|]. cbn [bind].
  unfold value, magnitude in E. rewrite <- E1, <- E2 in E.
  pose proof (unit_at_pos s1 ltac:(lia)) as U1. pose proof (unit_at_pos s2 ltac:(lia)) as U2.
  assert (Em : m1 * unit_at s1 = m2 * unit_at s2) by (destruct (negative_ a), (negative_ b); cbn [signed] in E; nia).
  assert (m1 = m2 /\ s1 = s2) as [-> ->].
  { destruct (Z.le_ge_cases s1 s2).
    - apply stripped_unique; [lia|lia|exact St2|exact Em].
    - destruct (stripped_unique m2 s2 m1 s1) as [-> ->]; [lia|lia|exact St1|by symmetry|done]. }
  assert (negative_ a && negb (m2 =? 0) = negative_ b && negb (m2 =? 0)) as ->; [|done].
  destruct (m2 =? 0) eqn:Ez; [by rewrite !andb_false_r|]. apply Z.eqb_neq in Ez.
  destruct (negative_ a), (negative_ b); cbn [signed] in E; try done; nia.
Qed.

(** ** Property *)

(** C19: a Decimal that compares less is less, equal ones compare equal, and
    CompareTo is the sign of the difference: but for values that differ only beyond
    the precision of the larger, which the alignment rounds together, so that two
    different Decimals compare equal.  Equal values, whatever their scales, hash
    alike, for any hash of the parts. *)
Theorem Decimal_order a b : wf a -> wf b ->
  (exists c, CompareTo a b = Ok c
    /\ (c = -1 /\ value a < value b \/ c = 1 /\ value b < value a
        \/ c = 0 /\ (value a = value b \/ indistinct (value a) (value b)))
    /\ (value a = value b -> c = 0)
    /\ op_eq a b = Ok (c =? 0) /\ op_lt a b = Ok (c =? -1))
  /\ (value a = value b -> forall h64 h8 hb, GetHashCode h64 h8 hb a = GetHashCode h64 h8 hb b)
  /\ op_eq (decimal 7922816251426433759354395034 0 false) (decimal 79228162514264337593543950335 1 false) = Ok true.
Proof.
  intros Wa Wb. split; [|split; [|by vm_compute]].
  - destruct (op_compare a b Wa Wb) as (e & l & Ee & El & Hl & He & Heq & Hgt). unfold CompareTo. rewrite Ee, El.
    destruct e; cbn [bind].
    + exists 0. destruct (Heq eq_refl) as [-> Hv]. split; [done|]. split; [|done]. right; right. done.
    + assert (value a <> value b) by (intros E; by discriminate (He E)).
      destruct l; [exists (-1)|exists 1]; (split; [done|]); (split; [|done]); [left|right; left]; auto.
  - intros E h64 h8 hb. by apply GetHashCode_equal.
Qed.

Lemma Decimal_order_witness :
  wf (decimal 25 1 true) /\ CompareTo (decimal 25 1 true) (decimal 250 2 true) = Ok 0
  /\ GetHashCode id id Z.b2z (decimal 25 1 true) = GetHashCode id id Z.b2z (decimal 250 2 true).
Proof.
  assert (W1 : wf (decimal 25 1 true)) by (split; vm_compute; split; discriminate).
  assert (W2 : wf (decimal 250 2 true)) by (split; vm_compute; split; discriminate).
  destruct (Decimal_order (decimal 25 1 true) (decimal 250 2 true) W1 W2) as (_ & H & _).
  split; [exact W1|]. split; [by vm_compute|]. apply H. by vm_compute.
Defined.
