(* ===== verification/DecimalRound.v ===== *)
(** * Decimal: rounding and conversion *)

From S2P Require Export DecimalDivide DecimalOrder.

#[local] Open Scope Z_scope.
#[local] Coercion Z.of_nat : nat >-> Z.

Import Decimal.

(** [r] is the multiple of [u] the mode selects for [v]. *)
Definition rounds (mode u v r : Z) : Prop :=
  r mod u = 0 /\
  if mode =? ToEven then 2 * Z.abs (r - v) <= u /\ (2 * Z.abs (r - v) = u -> Z.even (r / u) = true)
  else if mode =? AwayFromZero then 2 * Z.abs (r - v) <= u /\ (2 * Z.abs (r - v) = u -> Z.abs v < Z.abs r)
  else if mode =? ToZero then Z.abs r <= Z.abs v < Z.abs r + u /\ 0 <= r * v
  else if mode =? ToNegativeInfinity then r <= v < r + u
  else v <= r < v + u.

(** The integer part, and the result of a conversion to an integer type. *)
Definition integer_part (d : Decimal) : Z := Z.quot (value d) (10 ^ 28).
Definition converted (lo hi z : Z) (what : string) : res Z :=
  if (lo <=? z) && (z <=? hi) then Ok z else Throw (too_large what).

(** ** Truncation *)

Lemma truncate_loop_eq (s : nat) m : 0 <= m -> truncate_loop s m = m / 10 ^ s.
Proof.
  revert m. induction s as [|s IH]; intros m Hm; cbn [truncate_loop]; [by rewrite Z.div_1_r|].
  rewrite IH by zlia. by rewrite Nat2Z.inj_succ, Z.pow_succ_r, Z.div_div by lia.
Qed.

(** Quotient and rest of a mantissa by a power of ten, in units. *)
Lemma mantissa_split m s k : 0 <= m -> 0 <= k <= s -> s <= 28 ->
  let u := unit_at (s - k) in
  m * unit_at s = m / 10 ^ k * u + m mod 10 ^ k * unit_at s /\ 0 <= m mod 10 ^ k * unit_at s < u.
Proof.
  intros Hm Hk Hs. cbn zeta. pose proof (unit_at_pos s Hs) as Hu.
  rewrite (unit_at_add (s - k) k), Z.sub_add by lia.
  pose proof (Z.pow_pos_nonneg 10 k ltac:(done) ltac:(lia)) as Hp.
  pose proof (Z.div_mod m (10 ^ k) ltac:(lia)). pose proof (Z.mod_pos_bound m (10 ^ k) Hp). nia.
Qed.

Lemma quot_signed n q r u : 0 < u -> 0 <= q -> 0 <= r < u -> Z.quot (signed n (q * u + r)) u = signed n q.
Proof.
  intros Hu Hq Hr. assert (Z.quot (q * u + r) u = q).
  { rewrite Z.quot_div_nonneg by nia. rewrite Z.add_comm, Z.div_add, Z.div_small by lia. lia. }
  destruct n; cbn [signed]; [|done]. rewrite Z.quot_opp_l by lia. lia.
Qed.

Lemma Truncate_spec d : wf d -> wf (Truncate d) /\ scale_ (Truncate d) = 0
  /\ signed (negative_ (Truncate d)) (mantissa_ (Truncate d)) = integer_part d
  /\ (scale_ d <> 0 -> 10 * mantissa_ (Truncate d) <= MAX_MANTISSA)
  /\ mantissa_ (Truncate d) * 10 ^ 28 <= magnitude d
  /\ (negative_ (Truncate d) = true -> negative_ d = true).
Proof.
  intros Hd. pose proof Hd as [Hm Hs]. unfold Truncate, integer_part, value, magnitude.
  destruct (scale_ d =? 0) eqn:E; bool_to_prop.
  - rewrite E. change (unit_at 0) with (10 ^ 28). split; [done|]. split; [done|]. split; [|split; [done|split; [lia|done]]].
    pose proof (quot_signed (negative_ d) (mantissa_ d) 0 (10 ^ 28) ltac:(done) ltac:(lia) ltac:(done)) as Hq.
    by rewrite Z.add_0_r in Hq.
  - rewrite truncate_loop_eq, Z2Nat.id by lia.
    destruct (mantissa_split (mantissa_ d) (scale_ d) (scale_ d)) as [Es Hr]; [lia..|].
    rewrite Z.sub_diag in Es, Hr. change (unit_at 0) with (10 ^ 28) in Es, Hr. rewrite Es.
    assert (Hp : 10 ^ 1 <= 10 ^ scale_ d) by (apply Z.pow_le_mono_r; lia).
    pose proof (Z.mul_div_le (mantissa_ d) (10 ^ scale_ d) ltac:(lia)) as Hle.
    pose proof (Z.div_pos (mantissa_ d) (10 ^ scale_ d) ltac:(lia) ltac:(lia)) as H0.
    set (q := mantissa_ d / 10 ^ scale_ d) in *. pose proof (unit_at_pos (scale_ d) ltac:(lia)).
    cbn [mantissa_ scale_ negative_]. assert (10 * q <= MAX_MANTISSA) by nia.
    split; [split; cbn [mantissa_ scale_]; lia|]. split; [done|].
    rewrite quot_signed by done. split.
    + destruct (q =? 0) eqn:Eq; bool_to_prop; [rewrite Eq; by destruct (negative_ d)|by rewrite andb_true_r].
    + split; [done|]. split; [lia|]. intros ?; bool_to_prop; done.
Qed.

Lemma Truncate_value d : wf d -> value (Truncate d) = integer_part d * 10 ^ 28.
Proof.
  intros Hd. destruct (Truncate_spec d Hd) as (_ & Hs & Hv & _). unfold value at 1, magnitude.
  rewrite Hs, dec_signed_mul, Hv. done.
Qed.

(** ** Floor and ceiling *)

(** The alignment with the truncated value is exact, so the comparison is. *)
Lemma op_eq_Truncate d : wf d -> op_eq d (Truncate d) = Ok (value d =? value (Truncate d)).
Proof.
  intros Hd. destruct (Truncate_spec d Hd) as (Ht & Hs & Hv & H10 & Hle & Hn).
  pose proof Hd as [Hm Hsd]. pose proof Ht as [Htm _]. unfold op_eq. unfold magnitude in Hle.
  set (t := Truncate d) in *. pose proof (unit_at_pos (scale_ d) ltac:(lia)) as Hu.
  destruct (eqb (negative_ d) (negative_ t)) eqn:En; cbn [negb].
  - rewrite Bool.eqb_true_iff in En.
    destruct (alignScales_spec (mantissa_ d) (scale_ d) (mantissa_ t) (scale_ t)) as
      (m1 & m2 & s & -> & Hs' & _ & _ & _ & [(E & E1 & E2)|[Hlt Hp]]); [lia..| |exfalso].
    + cbn [bind]. f_equal. pose proof (unit_at_pos s ltac:(lia)). unfold value, magnitude.
      rewrite <- En, <- E1, <- E2. apply Bool.eq_true_iff_eq. rewrite !Z.eqb_eq. destruct (negative_ d); cbn [signed]; nia.
    + rewrite Hs in Hlt, Hp, Hs'. change (unit_at 0) with (10 ^ 28) in Hp.
      rewrite (unit_at_add s (scale_ d - s)) in Hp by lia. replace (s + (scale_ d - s)) with (scale_ d) in Hp by lia.
      assert (HP : 10 ^ 1 <= 10 ^ (scale_ d - s)) by (apply Z.pow_le_mono_r; lia).
      rewrite Z.max_l in Hp by done. set (P := 10 ^ (scale_ d - s)) in *.
      assert (10 * unit_at (scale_ d) <= P * unit_at (scale_ d)) by nia.
      assert (mantissa_ d * unit_at (scale_ d) <= MAX_MANTISSA * unit_at (scale_ d)) by nia. nia.
  - apply Bool.eqb_false_iff in En. f_equal. unfold value, magnitude.
    destruct (negative_ d), (negative_ t); try done; [|by specialize (Hn eq_refl)]. cbn [signed].
    pose proof (unit_at_pos (scale_ t) ltac:(lia)).
    apply Bool.eq_true_iff_eq. rewrite andb_true_iff, !Z.eqb_eq. nia.
Qed.

Lemma op_add_integers m1 n1 m2 n2 : 0 <= m1 -> 0 <= m2 -> m1 + m2 <= MAX_MANTISSA ->
  exists r, op_add (decimal m1 0 n1) (decimal m2 0 n2) = Ok r /\ wf r
  /\ value r = (signed n1 m1 + signed n2 m2) * 10 ^ 28.
Proof.
  intros H1 H2 Hs. unfold op_add, alignScales. cbn [mantissa_ scale_ negative_].
  rewrite align_loop_done by done. cbn [bind]. rewrite align_loop_done by done. cbn [bind].
  unfold uadd, usub. change (unit_at 0) with (10 ^ 28).
  assert (Hw : forall m n, 0 <= m <= MAX_MANTISSA -> signed n m = signed n1 m1 + signed n2 m2 ->
    exists r, (d <- Ok (decimal m 0 n) ;; Ok (unsigned_zero d)) = Ok r /\ wf r
    /\ value r = (signed n1 m1 + signed n2 m2) * 10 ^ 28).
  { intros m n Hm E. cbn [bind]. eexists. split; [reflexivity|]. rewrite unsigned_zero_value.
    split; [unfold unsigned_zero; cbn [mantissa_ scale_ negative_]; destruct (m =? 0); split; cbn; lia|].
    unfold value, magnitude. cbn [mantissa_ scale_ negative_]. rewrite dec_signed_mul, E. done. }
  destruct (eqb n1 n2) eqn:En; [rewrite Bool.eqb_true_iff in En; subst n2|apply Bool.eqb_false_iff in En].
  - rewrite u128_small, fitMantissa_fits by lia. apply Hw; [lia|]. destruct n1; cbn [signed]; lia.
  - destruct (m1 >=? m2) eqn:E; bool_to_prop; rewrite u128_small by lia;
      (apply Hw; [lia|]); destruct n1, n2; try done; cbn [signed]; lia.
Qed.

Lemma integer_part_bounds d : wf d ->
  (negative_ d = false -> 0 <= value d) /\ (negative_ d = true -> value d <= 0).
Proof. intros Hd. pose proof (wf_magnitude d Hd). unfold value. by destruct (negative_ d); cbn [signed]; split; intros; lia || done. Qed.

Lemma Truncate_one d n : wf d -> scale_ d <> 0 ->
  exists r, op_add (Truncate d) (decimal 1 0 n) = Ok r /\ wf r /\ value r = (integer_part d + signed n 1) * 10 ^ 28.
Proof.
  intros Hd Ns. destruct (Truncate_spec d Hd) as ([Hm _] & Hs & Hv & H10 & _). specialize (H10 Ns).
  destruct (Truncate d) as [m s n']. cbn [mantissa_ scale_ negative_] in *. subst s. rewrite <- Hv.
  apply op_add_integers; mantissas; lia.
Qed.

Lemma Floor_spec d : wf d -> exists r, Floor d = Ok r /\ wf r /\ value r = value d / 10 ^ 28 * 10 ^ 28.
Proof.
  intros Hd. destruct (Truncate_spec d Hd) as (Ht & _). pose proof (Truncate_value d Hd) as Hv.
  destruct (integer_part_bounds d Hd) as [Hp Hn]. unfold Floor, op_ne. rewrite op_eq_Truncate, Hv by done. cbn [bind].
  unfold integer_part in *. destruct (negative_ d); [specialize (Hn eq_refl)|specialize (Hp eq_refl)].
  - destruct (value d =? Z.quot (value d) (10 ^ 28) * 10 ^ 28) eqn:E; bool_to_prop; cbn [negb].
    + exists (Truncate d). split; [done|]. split; [done|]. rewrite Hv. zlia.
    + assert (Ns : scale_ d <> 0).
      { intros E0. apply E. unfold value, magnitude. rewrite E0. change (unit_at 0) with (10 ^ 28).
        rewrite dec_signed_mul, Z.quot_mul by done. done. }
      unfold op_sub. cbn [of_signed mantissa_ scale_ negative_ Z.ltb Z.compare].
      change (wrapu 128 1) with 1. cbn [Z.eqb negb].
      destruct (Truncate_one d true Hd Ns) as (r & -> & Hr & E'). exists r. split; [done|]. split; [done|].
      rewrite E'. unfold integer_part. cbn [signed]. zlia.
  - exists (Truncate d). split; [done|]. split; [done|]. rewrite Hv, Z.quot_div_nonneg by done. done.
Qed.

Lemma Ceiling_spec d : wf d -> exists r, Ceiling d = Ok r /\ wf r /\ value r = - (- value d / 10 ^ 28) * 10 ^ 28.
Proof.
  intros Hd. destruct (Truncate_spec d Hd) as (Ht & _). pose proof (Truncate_value d Hd) as Hv.
  destruct (integer_part_bounds d Hd) as [Hp Hn]. unfold Ceiling, op_ne. rewrite op_eq_Truncate, Hv by done. cbn [bind].
  unfold integer_part in *. destruct (negative_ d); cbn [negb]; [specialize (Hn eq_refl)|specialize (Hp eq_refl)].
  - exists (Truncate d). split; [done|]. split; [done|]. rewrite Hv. zlia.
  - destruct (value d =? Z.quot (value d) (10 ^ 28) * 10 ^ 28) eqn:E; bool_to_prop; cbn [negb].
    + exists (Truncate d). split; [done|]. split; [done|]. rewrite Hv. zlia.
    + assert (Ns : scale_ d <> 0).
      { intros E0. apply E. unfold value, magnitude. rewrite E0. change (unit_at 0) with (10 ^ 28).
        rewrite dec_signed_mul, Z.quot_mul by done. done. }
      change (of_signed 1) with (decimal 1 0 false).
      destruct (Truncate_one d false Hd Ns) as (r & -> & Hr & E'). exists r. split; [done|]. split; [done|].
      rewrite E'. unfold integer_part. cbn [signed]. zlia.
Qed.

(** ** Round *)

Lemma power_loop_eq (n : nat) p : 0 <= p -> p * 10 ^ n < 2 ^ 128 -> power_loop n p = p * 10 ^ n.
Proof.
  revert p. induction n as [|n IH]; intros p Hp Hb; cbn [power_loop]; [change (10 ^ O) with 1; lia|].
  rewrite Nat2Z.inj_succ, Z.pow_succ_r in * by lia. pose proof (Z.pow_pos_nonneg 10 n ltac:(done) ltac:(lia)).
  unfold umul. rewrite wrapu_id by (unfold in_u; nia). rewrite IH; [lia..|]. 
  replace (p * 10 * 10 ^ n) with (p * (10 * 10 ^ n)) by lia. done.
Qed.

(** The decision to round up, on magnitudes: [q] units and a rest [r] of [u = 2 h]. *)
Lemma round_up_rounds mode n q r h : 0 <= mode <= 4 -> 0 < h -> 0 <= q -> 0 <= r < 2 * h ->
  let q' := if round_up mode n q r h then q + 1 else q in
  rounds mode (2 * h) (signed n (q * (2 * h) + r)) (signed n q' * (2 * h)).
Proof.
  intros Hmode Hh Hq Hr. cbn zeta. unfold rounds. rewrite Z.mod_mul, Z.div_mul by lia. split; [done|].
  assert (mode = 0 \/ mode = 1 \/ mode = 2 \/ mode = 3 \/ mode = 4) as [->|[->|[->|[->| ->]]]] by lia;
    cbn [Z.eqb Pos.eqb]; unfold round_up; cbn [Z.eqb Pos.eqb].
  - assert (Hev : forall x, Z.even (signed n x) = Z.even x) by (intros; destruct n; [apply Z.even_opp|done]).
    destruct (r >? h) eqn:E1; bool_to_prop; [|destruct (r <? h) eqn:E2; bool_to_prop].
    + rewrite Hev. split; [|intros; exfalso]; destruct n; cbn [signed] in *; lia.
    + rewrite Hev. split; [|intros; exfalso]; destruct n; cbn [signed] in *; lia.
    + assert (r = h) as -> by lia. rewrite Hev. split; [destruct (negb _), n; cbn [signed]; lia|]. intros _.
      rewrite Zmod_even. destruct (Z.even q) eqn:Eq; cbn [Z.eqb negb]; [done|]. by rewrite Z.even_add, Eq.
  - destruct (r >=? h) eqn:E; bool_to_prop; destruct n; cbn [signed]; nia.
  - destruct n; cbn [signed]; nia.
  - destruct n; cbn [andb signed]; [|lia]. destruct (r =? 0) eqn:E; bool_to_prop; cbn [negb]; lia.
  - destruct n; cbn [andb negb signed]; [lia|]. destruct (r =? 0) eqn:E; bool_to_prop; cbn [negb]; lia.
Qed.

Lemma rounds_exact mode u q : 0 <= mode <= 4 -> 0 < u -> rounds mode u (q * u) (q * u).
Proof.
  intros Hmode Hu. unfold rounds. rewrite Z.mod_mul, Z.sub_diag by lia. split; [done|].
  assert (mode = 0 \/ mode = 1 \/ mode = 2 \/ mode = 3 \/ mode = 4) as [->|[->|[->|[->| ->]]]] by lia;
    cbn [Z.eqb Pos.eqb Z.abs]; nia.
Qed.

Lemma rounds_scale mode u v r c : 0 < u -> 0 < c -> rounds mode u v r -> rounds mode (u * c) (v * c) (r * c).
Proof.
  intros Hu Hc. unfold rounds. rewrite Z.mul_mod_distr_r, Z.div_mul_cancel_r by lia. intros [-> H]. split; [done|].
  rewrite <- !Z.mul_sub_distr_r, !Z.abs_mul, (Z.abs_eq c) by lia.
  repeat match goal with |- context [if ?b then _ else _] => destruct b end.
  - destruct H as [H1 H2]. split; [nia|]. intros E. apply H2. nia.
  - destruct H as [H1 H2]. split; [nia|]. intros E. assert (Z.abs v < Z.abs r) by (apply H2; nia). nia.
  - destruct H as [H1 H2]. split; [nia|]. replace (r * c * (v * c)) with (r * v * (c * c)) by ring. nia.
  - nia.
  - nia.
Qed.

Lemma Round_spec d decimals mode : wf d -> 0 <= decimals <= 28 -> 0 <= mode <= 4 ->
  exists r, Round d decimals mode = Ok r /\ wf r /\ scale_ r = Z.min (scale_ d) decimals
  /\ rounds mode (unit_at decimals) (value d) (value r).
Proof.
  intros Hd Hdec Hmode. pose proof Hd as [Hm Hs]. unfold Round.
  rewrite throw_if_false by lia. cbn [bind]. unfold u32. rewrite wrapu_id by (unfold in_u; lia).
  change (wrapu 32 ToPositiveInfinity) with 4. rewrite throw_if_false by lia. cbn [bind].
  unfold u8. rewrite wrapu_id by (unfold in_u; lia). pose proof (unit_at_pos decimals ltac:(lia)) as Hu.
  destruct (scale_ d <=? decimals) eqn:E; bool_to_prop.
  - exists d. split; [done|]. split; [done|]. split; [lia|]. unfold value, magnitude.
    rewrite (unit_at_add (scale_ d) (decimals - scale_ d)) by lia.
    replace (scale_ d + (decimals - scale_ d)) with decimals by lia.
    rewrite Z.mul_assoc, dec_signed_mul. by apply rounds_exact.
  - set (k := scale_ d - decimals). assert (Hk : 0 < k <= 28) by (subst k; lia).
    rewrite power_loop_eq, Z.mul_1_l, Z2Nat.id;
      [|lia..|rewrite Z.mul_1_l, Z2Nat.id by lia; apply Z.le_lt_trans with (10 ^ 28); [apply Z.pow_le_mono_r; lia|done]].
    destruct (mantissa_split (mantissa_ d) (scale_ d) k) as [Es _]; [subst k; lia..|].
    replace (scale_ d - k) with decimals in Es by (subst k; lia).
    assert (Hp : 10 ^ k = 2 * (10 ^ k / 2) /\ 0 < 10 ^ k / 2).
    { replace k with (Z.succ (k - 1)) by lia. rewrite Z.pow_succ_r by lia.
      pose proof (Z.pow_pos_nonneg 10 (k - 1) ltac:(done) ltac:(lia)). set (x := 10 ^ (k - 1)) in *. zlia. }
    destruct Hp as [Hp Hh]. set (h := 10 ^ k / 2) in *.
    pose proof (Z.mod_pos_bound (mantissa_ d) (10 ^ k) ltac:(lia)) as Hr.
    pose proof (Z.div_pos (mantissa_ d) (10 ^ k) ltac:(lia) ltac:(lia)) as Hq.
    pose proof (Z.mul_div_le (mantissa_ d) (10 ^ k) ltac:(lia)) as Hle.
    pose proof (round_up_rounds mode (negative_ d) _ _ h Hmode Hh Hq (eq_rect _ (fun x => 0 <= _ < x) Hr _ Hp)) as Hrnd.
    set (q := mantissa_ d / 10 ^ k) in *. set (r := mantissa_ d mod 10 ^ k) in *.
    set (b := round_up mode (negative_ d) q r h) in *.
    assert (HM : q + 1 <= MAX_MANTISSA).
    { assert (10 ^ 1 <= 10 ^ k) by (apply Z.pow_le_mono_r; lia). mantissas. nia. }
    assert (Eq : (if b then uadd 128 q 1 else q) = if b then q + 1 else q).
    { destruct b; [|done]. unfold uadd. apply u128_small. lia. }
    rewrite Eq. set (q' := if b then q + 1 else q) in *.
    assert (Hq' : 0 <= q' <= MAX_MANTISSA) by (subst q'; destruct b; lia). clearbody q' b.
    eexists. split; [reflexivity|]. split; [by split|]. split; [cbn [scale_]; lia|].
    pose proof (unit_at_pos (scale_ d) ltac:(lia)) as Hus.
    apply (rounds_scale mode (2 * h) _ _ (unit_at (scale_ d)) ltac:(lia) Hus) in Hrnd.
    rewrite <- Hp in Hrnd. unfold value, magnitude. cbn [mantissa_ scale_ negative_].
    rewrite (unit_at_add decimals k) by (subst k; lia). replace (decimals + k) with (scale_ d) by (subst k; lia).
    replace (signed (negative_ d && negb (q' =? 0)) (q' * (10 ^ k * unit_at (scale_ d))))
      with (signed (negative_ d) q' * 10 ^ k * unit_at (scale_ d)).
    2:{ destruct (q' =? 0) eqn:E0; bool_to_prop;
          [subst q'; destruct (negative_ d); cbn [signed andb negb]; lia|rewrite andb_true_r, dec_signed_mul; ring]. }
    replace (signed (negative_ d) (mantissa_ d * unit_at (scale_ d)))
      with (signed (negative_ d) (q * 10 ^ k + r) * unit_at (scale_ d)); [exact Hrnd|].
    rewrite <- dec_signed_mul. do 2 f_equal. subst q r. pose proof (Z.div_mod (mantissa_ d) (10 ^ k) ltac:(lia)). lia.
Qed.

(** ** Conversions *)

(** What a conversion sees of a Decimal: the truncated magnitude and its sign. *)
Lemma Truncate_parts d : wf d -> exists n m, Truncate d = decimal m 0 n /\ 0 <= m <= MAX_MANTISSA
  /\ integer_part d = signed n m.
Proof.
  intros Hd. destruct (Truncate_spec d Hd) as ([Hm _] & Hs & Hv & _).
  destruct (Truncate d) as [m s n]. cbn [mantissa_ scale_ negative_] in *. subst s. by exists n, m.
Qed.

Ltac conversion :=
  unfold converted; repeat split_if; cbn [bind]; try reflexivity; try (exfalso; lia); f_equal; lia.

Lemma ToInt32_spec d : wf d -> ToInt32 d = converted INTCS_MIN INTCS_MAX (integer_part d) "an Int32".
Proof.
  intros Hd. destruct (Truncate_parts d Hd) as (n & m & E & Hm & ->). unfold ToInt32. rewrite E.
  cbn [mantissa_ negative_]. destruct (m >? 2 ^ 32 - 1) eqn:E1; bool_to_prop.
  - rewrite throw_if_true by done. cbn [bind]. destruct n; cbn [signed]; conversion.
  - rewrite throw_if_false by done. cbn [bind]. unfold u32. rewrite wrapu_id by (unfold in_u; lia).
    destruct n; cbn [signed]; unfold throw_if; conversion.
Qed.

Lemma ToInt64_spec d : wf d -> ToInt64 d = converted LONGCS_MIN LONGCS_MAX (integer_part d) "an Int64".
Proof.
  intros Hd. destruct (Truncate_parts d Hd) as (n & m & E & Hm & ->). unfold ToInt64. rewrite E.
  cbn [mantissa_ negative_]. destruct (m >? ULONGCS_MAX) eqn:E1; bool_to_prop.
  - rewrite throw_if_true by done. cbn [bind]. destruct n; cbn [signed]; conversion.
  - rewrite throw_if_false by done. cbn [bind]. unfold u64. rewrite wrapu_id by (unfold in_u; lia).
    destruct n; cbn [signed]; unfold throw_if.
    + destruct (m >? 2 ^ 63) eqn:E2; bool_to_prop; cbn [bind]; [conversion|].
      destruct (m =? 2 ^ 63) eqn:E3; bool_to_prop; [subst m; by unfold converted|].
      unfold sneg, i64. rewrite wraps_id, schk_Ok by (try lia; unfold in_s; lia). conversion.
    + destruct (m >? LONGCS_MAX) eqn:E2; bool_to_prop; cbn [bind]; [conversion|].
      unfold i64. rewrite wraps_id by (try lia; unfold in_s; lia). conversion.
Qed.

Lemma ToUInt32_spec d : wf d -> ToUInt32 d = converted 0 (2 ^ 32 - 1) (integer_part d) "a UInt32".
Proof.
  intros Hd. destruct (Truncate_parts d Hd) as (n & m & E & Hm & ->). unfold ToUInt32. rewrite E.
  cbn [mantissa_ negative_]. destruct (m >? 2 ^ 32 - 1) eqn:E1; bool_to_prop.
  - rewrite throw_if_true by done. cbn [bind]. destruct n; cbn [signed]; conversion.
  - rewrite throw_if_false by done. cbn [bind]. unfold u32. rewrite wrapu_id by (unfold in_u; lia).
    destruct n; cbn [signed andb]; unfold throw_if; [|conversion].
    destruct (m =? 0) eqn:E0; bool_to_prop; cbn [negb bind]; [subst m; reflexivity|conversion].
Qed.

Lemma ToUInt64_spec d : wf d -> ToUInt64 d = converted 0 ULONGCS_MAX (integer_part d) "a UInt64".
Proof.
  intros Hd. destruct (Truncate_parts d Hd) as (n & m & E & Hm & ->). unfold ToUInt64. rewrite E.
  cbn [mantissa_ negative_]. destruct (m >? ULONGCS_MAX) eqn:E1; bool_to_prop.
  - rewrite throw_if_true by done. cbn [bind]. destruct n; cbn [signed]; conversion.
  - rewrite throw_if_false by done. cbn [bind]. unfold u64. rewrite wrapu_id by (unfold in_u; lia).
    destruct n; cbn [signed andb]; unfold throw_if; [|conversion].
    destruct (m =? 0) eqn:E0; bool_to_prop; cbn [negb bind]; [subst m; reflexivity|conversion].
Qed.

(** A narrow conversion refines a wide one: [cast] is the identity exactly inside
    the narrow range. *)
Lemma narrow_spec convert cast lo hi lo' hi' wide what d :
  convert d = converted lo hi (integer_part d) wide -> lo <= lo' -> hi' <= hi ->
  (forall z, lo <= z <= hi -> cast z = z <-> lo' <= z <= hi') ->
  narrow convert cast what d = converted lo' hi' (integer_part d) what.
Proof.
  intros E Hlo Hhi Hc. unfold narrow. rewrite E. unfold converted. set (z := integer_part d).
  destruct ((lo <=? z) && (z <=? hi)) eqn:E1.
  - cbn [rethrow bind]. bool_to_prop. destruct ((lo' <=? z) && (z <=? hi')) eqn:E2.
    + bool_to_prop. rewrite (proj2 (Hc z ltac:(lia))) by lia. by rewrite Z.eqb_refl.
    + rewrite throw_if_true; [done|]. apply negb_true_iff, Z.eqb_neq. intros Ez.
      assert (lo' <= z <= hi') by (apply Hc; [lia|by symmetry]). bool_to_prop; lia.
  - unfold too_large at 1. cbn [rethrow bind]. split_if; done || lia.
Qed.

Lemma wraps_id_iff w z : 0 < w -> wraps w z = z <-> - 2 ^ (w - 1) <= z <= 2 ^ (w - 1) - 1.
Proof.
  intros Hw. split; intros H.
  - pose proof (wraps_range w z Hw) as Hr. rewrite H in Hr. unfold in_s in Hr. lia.
  - apply wraps_id; [done|]. unfold in_s. lia.
Qed.

Lemma wrapu_id_iff w z : 0 <= w -> wrapu w z = z <-> 0 <= z <= 2 ^ w - 1.
Proof.
  intros Hw. split; intros H.
  - pose proof (wrapu_range w z Hw) as Hr. rewrite H in Hr. unfold in_u in Hr. lia.
  - apply wrapu_id. unfold in_u. lia.
Qed.

(** ** Currency *)

Definition in_currency (c : Z) : res Z := converted LONGCS_MIN LONGCS_MAX c "a Currency".

Lemma rethrow_Int64 d : wf d -> rethrow (ToInt64 d) (too_large "a Currency") = in_currency (integer_part d).
Proof. intros Hd. rewrite ToInt64_spec by done. unfold in_currency, converted. by split_if. Qed.

Lemma ToOACurrency_spec d : wf d -> exists c, rounds ToEven (10 ^ 24) (value d) (c * 10 ^ 24)
  /\ ToOACurrency d = in_currency c.
Proof.
  intros Hd. destruct (Round_spec d 4 ToEven Hd ltac:(done) ltac:(done)) as (r & E & Hr & Hs & Hrnd).
  change (unit_at 4) with (10 ^ 24) in Hrnd. unfold ToOACurrency. rewrite E. cbn [bind]. clear E.
  exists (value r / 10 ^ 24). assert (Ec : value r = value r / 10 ^ 24 * 10 ^ 24).
  { destruct Hrnd as [Hmod _]. pose proof (Z.div_mod (value r) (10 ^ 24) ltac:(done)). lia. }
  set (c := value r / 10 ^ 24) in *. rewrite Ec in Hrnd. split; [exact Hrnd|]. clear Hrnd.
  assert (W : wf (of_signed 10000)) by (split; vm_compute; split; discriminate).
  pose proof (op_mul_faithful r (of_signed 10000) Hr W) as Hf.
  change (value (of_signed 10000)) with (10 ^ 32) in Hf. change (scale_ (of_signed 10000)) with 0 in Hf.
  rewrite Ec, Z.add_0_r in Hf. replace (c * 10 ^ 24 * 10 ^ 32) with (c * 10 ^ 56) in Hf by lia.
  pose proof MAX_MANTISSA_eq as HM.
  destruct (op_mul r (of_signed 10000)) as [p|e|]; cbn [faithful bind] in *; [|destruct Hf as [-> Hf]|done].
  - destruct Hf as (Hp & Hsp & He & Hx). rewrite rethrow_Int64 by done.
    pose proof (unit_at_pos (scale_ p) ltac:(apply Hp)) as Hu.
    pose proof (unit_at_le (scale_ p) ltac:(apply Hp)) as Hle. unfold integer_part.
    destruct Hx as [Hx|[Hx|Hx]]; [|lia|].
    + replace (value p) with (c * 10 ^ 28) by lia. by rewrite Z.quot_mul.
    + assert (Hu24 : 10 ^ 24 <= unit_at (scale_ p)) by (unfold unit_at; apply Z.pow_le_mono_r; lia).
      assert (Hbig : 10 ^ 20 < Z.abs c) by nia.
      assert (Hq : Z.abs (value p) >= (Z.abs c - 1) * 10 ^ 28) by lia.
      assert (Hq' : 10 ^ 19 < Z.abs (Z.quot (value p) (10 ^ 28))) by zlia.
      unfold in_currency, converted. repeat split_if; done || lia.
  - cbn [rethrow decimal_overflow]. assert (Hbig : 10 ^ 20 < Z.abs c) by nia.
    unfold in_currency, converted. split_if; done || lia.
Qed.

Lemma FromOACurrency_spec cy : in_s 64 cy ->
  exists r, FromOACurrency cy = Ok r /\ wf r /\ value r = cy * 10 ^ 24.
Proof.
  intros Hcy. unfold FromOACurrency. unfold in_s in Hcy.
  assert (Ea : of_signed cy = decimal (Z.abs cy) 0 (cy <? 0)).
  { unfold of_signed, usub. f_equal. split_if; [|rewrite wrapu_id by (unfold in_u; lia); lia].
    unfold wrapu. rewrite Zminus_mod_idemp_r. rewrite Z.mod_small; lia. }
  rewrite Ea. pose proof MAX_MANTISSA_eq as HM.
  destruct (decide (cy = 0)) as [->|Nz]; [exists default; split; [done|split; [split; cbn; lia|done]]|].
  destruct (op_div_eq (decimal (Z.abs cy) 0 (cy <? 0)) (decimal 10000 0 false)) as (i & E & HD & Hend & Ht);
    [split; cbn; lia|split; cbn; lia|cbn; lia|cbn; lia|].
  cbn [mantissa_ scale_ negative_] in *. rewrite xorb_false_r in E.
  assert (Hi : 4 <= i).
  { destruct (Z.le_gt_cases 4 i) as [|Hlt]; [done|]. exfalso. destruct Hend as [|Hend]; [lia|].
    assert (10 ^ i <= 10 ^ 3) by (apply Z.pow_le_mono_r; lia). nia. }
  assert (EP : 10 ^ i = 10000 * 10 ^ (i - 4)) by (change 10000 with (10 ^ 4); rewrite <- Z.pow_add_r by lia; f_equal; lia).
  assert (Eh : half_up (Z.abs cy * 10 ^ i) 10000 = Z.abs cy * 10 ^ (i - 4)).
  { unfold half_up. rewrite EP. replace (Z.abs cy * (10000 * 10 ^ (i - 4))) with (Z.abs cy * 10 ^ (i - 4) * 10000) by lia.
    rewrite Z.div_mul, Z.mod_mul by done. change (2 * 0 >=? 10000) with false. apply Z.add_0_r. }
  rewrite Eh, (Z.max_l 0 (- (0 - 0 + i))), Z.div_1_r, (Z.max_r 0 (0 - 0 + i)) in E by lia.
  pose proof (Z.pow_pos_nonneg 10 (i - 4) ltac:(done) ltac:(lia)).
  eexists. split; [exact E|]. split; [split; cbn [mantissa_ scale_]; [|lia]; nia|].
  unfold value, magnitude. cbn [mantissa_ scale_ negative_].
  assert (EU : 10 ^ (i - 4) * unit_at (0 - 0 + i) = 10 ^ 24)
    by (unfold unit_at; rewrite <- Z.pow_add_r by lia; f_equal; lia).
  rewrite <- Z.mul_assoc, EU. destruct (cy <? 0) eqn:Es; bool_to_prop; cbn [signed]; lia.
Qed.

(** ** Properties *)

(** C20: Truncate, Floor and Ceiling are the integer parts towards zero, below and
    above of every Decimal.  Round refuses a number of places outside 0 to 28, then
    a mode that is none of the five, and otherwise answers the multiple of the unit
    of those places that the mode selects: the nearest with ties to even or away
    from zero, or the next towards zero, below or above. *)
Theorem Decimal_rounding d decimals mode : wf d -> in_s 32 mode ->
  wf (Truncate d) /\ value (Truncate d) = Z.quot (value d) (10 ^ 28) * 10 ^ 28
  /\ (exists r, Floor d = Ok r /\ wf r /\ value r = value d / 10 ^ 28 * 10 ^ 28)
  /\ (exists r, Ceiling d = Ok r /\ wf r /\ value r = - (- value d / 10 ^ 28) * 10 ^ 28)
  /\ (~ 0 <= decimals <= 28 -> Round d decimals mode
        = Throw (ArgumentOutOfRangeException "decimals" "decimals must be in range 0-28."))
  /\ (0 <= decimals <= 28 -> ~ 0 <= mode <= 4 -> Round d decimals mode
        = Throw (ArgumentException (mode_message mode) "mode"))
  /\ (0 <= decimals <= 28 -> 0 <= mode <= 4 -> exists r, Round d decimals mode = Ok r /\ wf r
        /\ scale_ r = Z.min (scale_ d) decimals /\ rounds mode (10 ^ (28 - decimals)) (value d) (value r)).
Proof.
  intros Hd Hmode. split; [by apply Truncate_spec|]. split; [by apply Truncate_value|].
  split; [by apply Floor_spec|]. split; [by apply Ceiling_spec|]. unfold in_s in Hmode.
  split; [|split; [|by apply Round_spec]]; unfold Round.
  - intros Hdec. rewrite throw_if_true; [done|]. apply orb_true_iff. rewrite Z.ltb_lt, Z.gtb_lt. lia.
  - intros Hdec Hm. rewrite throw_if_false by lia. cbn [bind]. rewrite throw_if_true; [done|].
    change (u32 ToPositiveInfinity) with 4. apply Z.gtb_lt. zlia.
Qed.

Lemma Decimal_rounding_witness :
  Round (decimal 25 1 true) 0 ToEven = Ok (decimal 2 0 true)
  /\ Round (decimal 25 1 true) 0 AwayFromZero = Ok (decimal 3 0 true)
  /\ Floor (decimal 25 1 true) = Ok (decimal 3 0 true)
  /\ value (Truncate (decimal 25 1 true)) = - 2 * 10 ^ 28.
Proof.
  split; [by vm_compute|]. split; [by vm_compute|]. split; [by vm_compute|].
  assert (W : wf (decimal 25 1 true)) by (split; vm_compute; split; discriminate).
  assert (M : in_s 32 ToEven) by (vm_compute; split; [discriminate|reflexivity]).
  exact (proj1 (proj2 (Decimal_rounding (decimal 25 1 true) 0 ToEven W M))).
Defined.

(** every conversion of a Decimal to an integer type answers its integer part,
    or OverflowException naming the type exactly when that does not fit.  An OLE
    currency is the value rounded to four places, ties to even, with its own
    OverflowException; every 64-bit currency converts to a Decimal of its value and
    back to itself. *)
Theorem Decimal_conversions d : wf d ->
  (ToInt32 d = converted (- 2 ^ 31) (2 ^ 31 - 1) (integer_part d) "an Int32"
   /\ ToInt64 d = converted (- 2 ^ 63) (2 ^ 63 - 1) (integer_part d) "an Int64"
   /\ ToUInt32 d = converted 0 (2 ^ 32 - 1) (integer_part d) "a UInt32"
   /\ ToUInt64 d = converted 0 (2 ^ 64 - 1) (integer_part d) "a UInt64"
   /\ ToByte d = converted 0 (2 ^ 8 - 1) (integer_part d) "an unsigned byte"
   /\ ToSByte d = converted (- 2 ^ 7) (2 ^ 7 - 1) (integer_part d) "a signed byte"
   /\ ToInt16 d = converted (- 2 ^ 15) (2 ^ 15 - 1) (integer_part d) "an Int16"
   /\ ToUInt16 d = converted 0 (2 ^ 16 - 1) (integer_part d) "a UInt16")
  /\ (exists c, rounds ToEven (10 ^ 24) (value d) (c * 10 ^ 24)
        /\ ToOACurrency d = converted (- 2 ^ 63) (2 ^ 63 - 1) c "a Currency")
  /\ (forall cy, in_s 64 cy -> exists r, FromOACurrency cy = Ok r /\ wf r /\ value r = cy * 10 ^ 24
        /\ ToOACurrency r = Ok cy).
Proof.
  intros Hd. split; [|split; [by apply ToOACurrency_spec|]].
  - split; [by apply ToInt32_spec|]. split; [by apply ToInt64_spec|]. split; [by apply ToUInt32_spec|].
    split; [by apply ToUInt64_spec|].
    split; [eapply narrow_spec; [by apply ToUInt32_spec|done|done|intros; by apply wrapu_id_iff]|].
    split; [eapply narrow_spec; [by apply ToInt32_spec|done|done|intros; by apply wraps_id_iff]|].
    split; [eapply narrow_spec; [by apply ToInt32_spec|done|done|intros; by apply wraps_id_iff]|].
    eapply narrow_spec; [by apply ToUInt32_spec|done|done|intros; by apply wrapu_id_iff].
  - intros cy Hcy. destruct (FromOACurrency_spec cy Hcy) as (r & E & Hr & Hv). exists r.
    split; [done|]. split; [done|]. split; [done|].
    destruct (ToOACurrency_spec r Hr) as (c & [_ [Hc _]] & ->). rewrite Hv in Hc.
    assert (c = cy) as -> by lia. unfold in_currency, converted, in_s in *. split_if; done || lia.
Qed.

Lemma Decimal_conversions_witness :
  ToByte (decimal 2559 1 false) = Ok 255
  /\ ToByte (decimal 256 0 false) = Throw (too_large "an unsigned byte")
  /\ ToOACurrency (decimal 1234565 5 false) = Ok 123456
  /\ ToInt32 (decimal 25 1 true) = Ok (-2).
Proof.
  split; [by vm_compute|]. split; [by vm_compute|]. split; [by vm_compute|].
  assert (W : wf (decimal 25 1 true)) by (split; vm_compute; split; discriminate).
  transitivity (converted (- 2 ^ 31) (2 ^ 31 - 1) (integer_part (decimal 25 1 true)) "an Int32"); [|by vm_compute].
  exact (proj1 (proj1 (Decimal_conversions (decimal 25 1 true) W))).
Defined.
