(* ===== verification/DecimalText.v ===== *)
(** * Decimal: parsing and printing

    [tryParseCore], [Parse], [TryParse] and [ToString] of
    [core/src/System/Decimal.cpp]. *)

From S2P Require Export DecimalRound.

#[local] Open Scope Z_scope.
#[local] Coercion Z.of_nat : nat >-> Z.

Module DecimalText.
Import Decimal.

(** The status, and the value when it is [Ok]. *)
Inductive ParseStatus := StatusOk (result : Decimal) | Malformed | Overflow.

(** The locals of the scan. *)
Record state := scanned {
  mantissa : Z; scale : Z; seenDot : bool; seenDigit : bool;
  roundDigit : Z;       (** the first digit dropped past scale 28, or -1 *)
  nonZeroTail : bool    (** a later dropped digit is not zero *)
}.

Definition start : state := scanned 0 0 false false (-1) false.

(** The body of the loop: the next state, or the status it returns. *)
Definition scan_char (c : ascii) (st : state) : state + ParseStatus :=
  let '(scanned m s dot digit rd tail) := st in
  if code c =? 46 then
    if dot then inr Malformed else inl (scanned m s true digit rd tail)
  else if code c =? 44 then
    if negb digit || dot then inr Malformed else inl st
  else if is_digit c then
    let d := digit_value c in
    if dot && (s >=? 28) then
      if rd <? 0 then inl (scanned m s dot true d tail)
      else inl (scanned m s dot true rd (if negb (d =? 0) then true else tail))
    else
      let s := if dot then u8 (s + 1) else s in
      if m >? MAX_MANTISSA / 10 then inr Overflow
      else
        let m := uadd 128 (umul 128 m 10) (u8 d) in
        if m >? MAX_MANTISSA then inr Overflow else inl (scanned m s dot true rd tail)
  else inr Malformed.

Fixpoint scan_loop (t : text) (st : state) : state + ParseStatus :=
  match t with
  | [] => inl st
  | c :: t => match scan_char c st with inl st => scan_loop t st | r => r end
  end.

(** Half to even on the dropped digits. *)
Definition round_up_tail (st : state) : bool :=
  if roundDigit st >=? 0 then
    if roundDigit st >? 5 then true
    else if roundDigit st <? 5 then false
    else nonZeroTail st || negb (Z.land (u64 (mantissa st)) 1 =? 0)
  else false.

Definition finish (neg : bool) (st : state) : ParseStatus :=
  if negb (seenDigit st) then Malformed
  else
    let m := if round_up_tail st then uadd 128 (mantissa st) 1 else mantissa st in
    if round_up_tail st && (m >? MAX_MANTISSA) then
      StatusOk (decimal (uadd 128 m 5 / 10) (if scale st >? 0 then u8 (scale st - 1) else scale st) neg)
    else StatusOk (decimal m (scale st) neg).

(** The scan of [s[begin..end)] after the sign. *)
Definition scan_number (neg : bool) (t : text) : ParseStatus :=
  match scan_loop t start with inl st => finish neg st | inr r => r end.

Definition tryParseCore (s : text) : ParseStatus :=
  match trim_both is_space s with
  | [] => Malformed
  | c :: t =>
      if Ascii.eqb c "-" then scan_number true t
      else if Ascii.eqb c "+" then scan_number false t
      else scan_number false (c :: t)
  end.

Definition TryParse (s : text) : option Decimal :=
  match tryParseCore s with StatusOk r => Some r | _ => None end.

Definition Parse (s : text) : res Decimal :=
  match tryParseCore s with
  | StatusOk r => Ok r
  | Overflow => Throw (OverflowException "Value was either too large or too small for a Decimal.")
  | Malformed => Throw (FormatException "Input string was not in a correct format.")
  end.

(** [while (v > 0) { s = char('0' + v % 10) + s; v /= 10; }] *)
Fixpoint u128str_loop (fuel : nat) (v : Z) (s : text) : text :=
  match fuel with
  | O => s
  | S fuel => if v >? 0 then u128str_loop fuel (v / 10) (digit_char (v mod 10) :: s) else s
  end.

(** A 128-bit number has at most 39 digits. *)
Definition u128str (v : Z) : text := if v =? 0 then str "0" else u128str_loop 39 v [].

Definition ToString (d : Decimal) : text :=
  let m := u128str (mantissa_ d) in
  let minus := negative_ d && negb (mantissa_ d =? 0) in
  if scale_ d =? 0 then (if minus then str "-" else []) ++ m
  else
    (* while (m.size() <= scale) m = 0 + m *)
    let m := setw0 (S (Z.to_nat (scale_ d))) m in
    let dot := (length m - Z.to_nat (scale_ d))%nat in
    (if minus then str "-" else []) ++ take dot m ++ str "." ++ drop dot m.

Definition parsed (s : string) : Decimal :=
  match TryParse (str s) with Some d => d | None => default end.

Definition MaxValue : Decimal := parsed "79228162514264337593543950335".
Definition MinValue : Decimal := parsed "-79228162514264337593543950335".

End DecimalText.

Import Decimal DecimalText.

(** ** The texts of numbers *)

Definition comma (c : ascii) : bool := code c =? 44.

(** Digits in groups: [ip] are the digits. *)
Definition integer (g ip : text) : Prop :=
  Forall (fun c => is_digit c || comma c = true) g /\ stops comma g /\ ip = List.filter is_digit g.

Definition fraction (dp fp : text) : Prop := all_digits fp /\ (dp = [] /\ fp = [] \/ dp = "."%char :: fp).

Definition sign (sg : text) (neg : bool) : Prop :=
  sg = [] /\ neg = false \/ sg = str "+" /\ neg = false \/ sg = str "-" /\ neg = true.

Definition white (w : text) : Prop := Forall (fun c => is_space c = true) w.

(** [s] is white space around a signed number with these digits before and after
    the point, at least one in all. *)
Definition number (s : text) (neg : bool) (ip fp : text) : Prop :=
  exists w1 sg g dp w2, s = w1 ++ (sg ++ g ++ dp) ++ w2 /\ white w1 /\ white w2
  /\ sign sg neg /\ integer g ip /\ fraction dp fp /\ ip ++ fp <> [].

(** [q] is [n / u] rounded to the nearest integer, ties to even. *)
Definition nearest_even (u n q : Z) : Prop :=
  2 * Z.abs (q * u - n) <= u /\ (2 * Z.abs (q * u - n) = u -> Z.even q = true).

(** ** The scan of a number *)

Lemma dec_value_ge t : forall acc, 0 <= acc -> all_digits t -> acc <= dec_value acc t.
Proof.
  induction t as [|c t IH]; intros acc Ha Ht; cbn [dec_value]; [lia|]. inversion Ht as [|? ? Hc Ht']; subst.
  pose proof (is_digit_range c Hc). specialize (IH (acc * 10 + digit_value c) ltac:(lia) Ht'). lia.
Qed.

Lemma digit_code c : is_digit c = true -> (code c =? 46) = false /\ (code c =? 44) = false.
Proof. unfold is_digit. intros. bool_to_prop. by decide_cmp. Qed.

Lemma filter_digits g : all_digits (List.filter is_digit g).
Proof. apply List.Forall_forall. intros x [_ H]%filter_In. exact H. Qed.

(** A digit that is kept. *)
Lemma scan_digit c m s dot dg : is_digit c = true -> 0 <= m <= MAX_MANTISSA -> 0 <= s <= 28 ->
  dot = false \/ s < 28 ->
  scan_char c (scanned m s dot dg (-1) false) =
    if m * 10 + digit_value c <=? MAX_MANTISSA
    then inl (scanned (m * 10 + digit_value c) (if dot then s + 1 else s) dot true (-1) false) else inr Overflow.
Proof.
  intros Hc Hm Hs Hd. unfold scan_char. destruct (digit_code c Hc) as [-> ->]. rewrite Hc.
  pose proof (is_digit_range c Hc) as Hr. pose proof MAX_MANTISSA_eq as HM.
  assert (dot && (s >=? 28) = false) as ->.
  { destruct Hd as [->|Hd]; [done|]. rewrite Z.geb_leb, (proj2 (Z.leb_gt 28 s)) by lia. apply andb_false_r. }
  assert ((if dot then u8 (s + 1) else s) = if dot then s + 1 else s) as ->
    by (destruct dot; [unfold u8; apply wrapu_id; unfold in_u; lia|done]).
  unfold umul, uadd. rewrite (Z.gtb_ltb m).
  destruct (MAX_MANTISSA / 10 <? m) eqn:E; bool_to_prop; [by rewrite (proj2 (Z.leb_gt _ _)) by zlia|].
  unfold u8. rewrite (wrapu_id 8) by (unfold in_u; lia). rewrite (u128_small (m * 10)) by zlia.
  rewrite u128_small by zlia. rewrite Z.gtb_ltb, Z.ltb_antisym. by destruct (_ <=? _).
Qed.

Definition some_digit (dg : bool) (ds : text) : bool := match ds with [] => dg | _ => true end.

(** The digits before the point. *)
Lemma scan_integer g : forall m dg rest, 0 <= m <= MAX_MANTISSA ->
  Forall (fun c => is_digit c || comma c = true) g -> dg = true \/ stops comma g ->
  let ip := List.filter is_digit g in
  scan_loop (g ++ rest) (scanned m 0 false dg (-1) false) =
    if dec_value m ip <=? MAX_MANTISSA
    then scan_loop rest (scanned (dec_value m ip) 0 false (some_digit dg ip) (-1) false) else inr Overflow.
Proof.
  induction g as [|c g IH]; intros m dg rest Hm Hg Hs; cbn [app List.filter dec_value]; [by decide_cmp|].
  inversion Hg as [|? ? Hc Hg']; subst. cbn [scan_loop]. destruct (is_digit c) eqn:Ed.
  - clear Hc. rewrite scan_digit by (done || lia || by left). pose proof (is_digit_range c Ed). cbn [dec_value].
    pose proof (filter_digits g) as Hf.
    pose proof (dec_value_ge _ (m * 10 + digit_value c) ltac:(lia) Hf).
    destruct (m * 10 + digit_value c <=? MAX_MANTISSA) eqn:E; bool_to_prop;
      [|by rewrite (proj2 (Z.leb_gt _ _)) by lia].
    rewrite IH by (done || lia || by left). by destruct (List.filter is_digit g).
  - cbn [orb] in Hc. assert (dg = true) as -> by (destruct Hs as [|Hs]; [done|cbn in Hs; congruence]).
    unfold comma in Hc. assert (scan_char c (scanned m 0 false true (-1) false) = inl (scanned m 0 false true (-1) false)) as ->.
    { unfold scan_char. rewrite Hc. bool_to_prop. by rewrite (proj2 (Z.eqb_neq _ 46)) by lia. }
    by apply IH; [..|left].
Qed.

(** The digits after the point that are kept. *)
Lemma scan_fraction f : forall m s dg rest, 0 <= m <= MAX_MANTISSA -> 0 <= s -> s + length f <= 28 -> all_digits f ->
  scan_loop (f ++ rest) (scanned m s true dg (-1) false) =
    if dec_value m f <=? MAX_MANTISSA
    then scan_loop rest (scanned (dec_value m f) (s + length f) true (some_digit dg f) (-1) false) else inr Overflow.
Proof.
  induction f as [|c f IH]; intros m s dg rest Hm Hs Hl Hf; cbn [app dec_value length].
  - rewrite (proj2 (Z.leb_le m _)) by lia. by rewrite Z.add_0_r.
  - inversion Hf as [|? ? Hc Hf']; subst. cbn [scan_loop length] in *.
    rewrite scan_digit by (done || lia || right; lia). pose proof (is_digit_range c Hc).
    pose proof (dec_value_ge _ (m * 10 + digit_value c) ltac:(lia) Hf').
    destruct (m * 10 + digit_value c <=? MAX_MANTISSA) eqn:E; bool_to_prop;
      [|by rewrite (proj2 (Z.leb_gt _ _)) by lia].
    rewrite IH by (done || lia). replace (s + 1 + length f) with (s + S (length f)) by lia. by destruct f.
Qed.

Definition nonzero (c : ascii) : bool := negb (digit_value c =? 0).

(** The digits that are dropped. *)
Lemma scan_dropped f m dg : all_digits f ->
  scan_loop f (scanned m 28 true dg (-1) false) =
    inl (scanned m 28 true (some_digit dg f) (match f with [] => -1 | c :: _ => digit_value c end)
           (existsb nonzero (tail f))).
Proof.
  assert (later : forall f rd tl, 0 <= rd -> all_digits f ->
    scan_loop f (scanned m 28 true true rd tl) = inl (scanned m 28 true true rd (tl || existsb nonzero f))).
  { clear. induction f as [|c f IH]; intros rd tl Hr Hf; cbn [scan_loop existsb]; [by rewrite orb_false_r|].
    inversion Hf as [|? ? Hc Hf']; subst. unfold scan_char. destruct (digit_code c Hc) as [-> ->].
    rewrite Hc. cbn [andb Z.geb Z.compare Pos.compare Pos.compare_cont]. rewrite (proj2 (Z.ltb_ge rd 0)) by lia.
    rewrite IH by done. unfold nonzero. by destruct (digit_value c =? 0), tl. }
  intros Hf. destruct f as [|c f]; [done|]. inversion Hf as [|? ? Hc Hf']; subst. cbn [scan_loop tail].
  unfold scan_char. destruct (digit_code c Hc) as [-> ->]. rewrite Hc. pose proof (is_digit_range c Hc).
  change (true && (28 >=? 28)) with true. change (-1 <? 0) with true. cbn iota. by rewrite later by (done || lia).
Qed.

(** The whole scan: what is kept, and what the rounding will see. *)
Definition dropped_first (dr : text) : Z := match dr with [] => -1 | c :: _ => digit_value c end.

Lemma scan_all g ip dp fp : integer g ip -> fraction dp fp -> ip ++ fp <> [] ->
  let V := dec_value 0 (ip ++ take 28 fp) in
  exists dot, scan_loop (g ++ dp) start =
    if V <=? MAX_MANTISSA
    then inl (scanned V (Z.min 28 (length fp)) dot true (dropped_first (drop 28 fp)) (existsb nonzero (tail (drop 28 fp))))
    else inr Overflow.
Proof.
  intros (Hg & Hc & ->) (Hf & Hdp) Hne. cbn zeta. unfold start. pose proof MAX_MANTISSA_eq as HM.
  rewrite scan_integer by (done || lia || by right). set (ip := List.filter is_digit g) in *.
  pose proof (filter_digits g) as Hip. fold ip in Hip. rewrite dec_value_app.
  pose proof (dec_value_ge ip 0 ltac:(done) Hip) as H0.
  assert (Hf1 : all_digits (take 28 fp)) by (by apply Forall_take).
  pose proof (dec_value_ge _ _ H0 Hf1) as Hge. set (m := dec_value 0 ip) in *.
  destruct (m <=? MAX_MANTISSA) eqn:E; bool_to_prop; [|exists false; by rewrite (proj2 (Z.leb_gt _ _)) by lia].
  destruct Hdp as [[-> ->]| ->].
  - exists false. cbn [take drop dec_value scan_loop tail existsb dropped_first length].
    rewrite (proj2 (Z.leb_le m _)) by lia. destruct ip; [done|reflexivity].
  - exists true. cbn [scan_loop]. unfold scan_char at 1.
    change (code ".") with 46. cbn [Z.eqb Pos.eqb]. rewrite <- (take_drop 28 fp) at 1.
    rewrite scan_fraction; [|lia|done|rewrite length_take; lia|done].
    destruct (dec_value m (take 28 fp) <=? MAX_MANTISSA) eqn:E2; [|done]. rewrite length_take, Z.add_0_l.
    assert (Hd : some_digit (some_digit (some_digit false ip) (take 28 fp)) (drop 28 fp) = true).
    { assert (Ht : forall t, some_digit true t = true) by by intros [].
      clear - Hne Ht. destruct ip, fp; [done|apply Ht|done|apply Ht]. }
    destruct (decide (length fp <= 28)%nat) as [Hl|Hl].
    + rewrite drop_ge in * by done. cbn [scan_loop tail existsb dropped_first some_digit] in *. rewrite Hd.
      do 2 f_equal. lia.
    + replace (Z.of_nat (28 `min` length fp)) with 28 by lia.
      rewrite scan_dropped by (by apply Forall_drop). rewrite Hd, Z.min_l by lia. done.
Qed.

Lemma existsb_nonzero t : all_digits t -> existsb nonzero t = negb (dec_value 0 t =? 0).
Proof.
  induction t as [|c t IH]; intros Ht; [done|]. inversion Ht as [|? ? Hc Ht']; subst.
  cbn [existsb dec_value]. rewrite IH by done. pose proof (is_digit_range c Hc). pose proof (dec_value_range t Ht').
  rewrite (dec_value_shift (0 * 10 + digit_value c)). pose proof (Z.pow_pos_nonneg 10 (length t) ltac:(done) ltac:(lia)). unfold nonzero.
  destruct (digit_value c =? 0) eqn:E; bool_to_prop; cbn [negb orb].
  - rewrite E. done.
  - symmetry. apply negb_true_iff, Z.eqb_neq. nia.
Qed.

Lemma round_up_tail_spec V s dot dr : 0 <= V -> all_digits dr ->
  let up := round_up_tail (scanned V s dot true (dropped_first dr) (existsb nonzero (tail dr))) in
  nearest_even (10 ^ length dr) (V * 10 ^ length dr + dec_value 0 dr) (V + if up then 1 else 0).
Proof.
  intros HV Hd. cbn zeta. unfold round_up_tail. cbn [roundDigit nonZeroTail mantissa].
  destruct dr as [|c t]; cbn [dropped_first length tail].
  { cbn. split; [lia|]. intros. lia. }
  inversion Hd as [|? ? Hc Ht]; subst. pose proof (is_digit_range c Hc) as Hr.
  rewrite existsb_nonzero by done. cbn [dec_value]. rewrite (dec_value_shift (0 * 10 + digit_value c)).
  pose proof (dec_value_range t Ht) as Ht'. set (R := dec_value 0 t) in *.
  rewrite Nat2Z.inj_succ, Z.pow_succ_r by lia. set (p := 10 ^ length t) in *. set (d := digit_value c) in *.
  assert (Hland : Z.land (u64 V) 1 = V mod 2).
  { rewrite (Z.land_ones _ 1) by done. apply Z.mod_mod_divide. by exists (2 ^ 63). }
  rewrite Hland. unfold nearest_even. rewrite (Z.geb_leb d), (proj2 (Z.leb_le 0 d)) by lia.
  destruct (d >? 5) eqn:E1; bool_to_prop; [|destruct (d <? 5) eqn:E2; bool_to_prop].
  - assert (6 * p <= d * p <= 9 * p) by nia. split; [lia|]. intros; exfalso; lia.
  - assert (0 <= d * p <= 4 * p) by nia. split; [lia|]. intros; exfalso; lia.
  - assert (d = 5) as -> by lia. destruct (R =? 0) eqn:E3; bool_to_prop; cbn [negb orb].
    + rewrite E3, Zmod_even. destruct (Z.even V) eqn:Ev; cbn [Z.eqb negb]; (split; [lia|]); intros _.
      * by rewrite Z.add_0_r.
      * by rewrite Z.even_add, Ev.
    + split; [lia|]. intros; exfalso; lia.
Qed.

(** ** Parsing the text of a number *)

Definition overflowed : exn := OverflowException "Value was either too large or too small for a Decimal.".
Definition unreadable : exn := FormatException "Input string was not in a correct format.".

Definition reads (neg : bool) (ip fp : text) (r : ParseStatus) : Prop :=
  if dec_value 0 (ip ++ take 28 fp) <=? MAX_MANTISSA then
    exists q, nearest_even (10 ^ (length fp - 28)%nat) (dec_value 0 (ip ++ fp)) q
    /\ r = StatusOk (if q <=? MAX_MANTISSA then decimal q (Z.min 28 (length fp)) neg
                     else decimal 7922816251426433759354395034 27 neg)
  else r = Overflow.

Lemma scan_number_reads neg g ip dp fp : integer g ip -> fraction dp fp -> ip ++ fp <> [] ->
  reads neg ip fp (scan_number neg (g ++ dp)).
Proof.
  intros Hi Hf Hne. destruct (scan_all g ip dp fp Hi Hf Hne) as (dot & E). unfold reads, scan_number. rewrite E.
  clear E. assert (Hip : all_digits ip) by (destruct Hi as (_ & _ & ->); apply filter_digits).
  destruct Hf as [Hfp _]. pose proof MAX_MANTISSA_eq as HM.
  destruct (dec_value 0 (ip ++ take 28 fp) <=? MAX_MANTISSA) eqn:E; [|done]. apply Z.leb_le in E.
  assert (HV : 0 <= dec_value 0 (ip ++ take 28 fp))
    by (apply dec_value_ge; [done|apply Forall_app; split; [done|by apply Forall_take]]).
  pose proof (round_up_tail_spec _ (Z.min 28 (length fp)) dot (drop 28 fp) HV (Forall_drop _ _ _ Hfp)) as Hq.
  cbn zeta in Hq. rewrite <- dec_value_shift, <- dec_value_app, <- app_assoc, take_drop, length_drop in Hq.
  set (V := dec_value 0 (ip ++ take 28 fp)) in *. set (st := scanned V _ _ _ _ _) in *.
  eexists. split; [exact Hq|]. clear Hq. unfold finish. cbn [seenDigit st negb mantissa scale].
  unfold uadd. destruct (round_up_tail st) eqn:Eu; cbn [andb]; [|by rewrite Z.add_0_r, (proj2 (Z.leb_le V _) E)].
  rewrite u128_small, Z.gtb_ltb, Z.ltb_antisym by lia.
  destruct (V + 1 <=? MAX_MANTISSA) eqn:E1; [done|]. apply Z.leb_gt in E1. cbn [negb].
  assert (HV1 : V = MAX_MANTISSA) by lia. rewrite HV1, u128_small by lia.
  assert (Hl : Z.min 28 (length fp) = 28).
  { unfold st, round_up_tail in Eu. cbn [roundDigit] in Eu. destruct (decide (length fp <= 28)%nat); [|lia].
    rewrite drop_ge in Eu by done. discriminate Eu. }
  rewrite Hl. done.
Qed.

Lemma stops_all t : Forall (fun c => is_space c = false) t -> stops is_space t.
Proof. intros H. by inversion H. Qed.

Lemma part_not_space c : is_digit c || comma c = true -> is_space c = false.
Proof. unfold is_digit, comma, is_space. intros. bool_to_prop; by decide_cmp. Qed.

Lemma sign_digit c : is_digit c = true \/ c = "."%char -> Ascii.eqb c "-" = false /\ Ascii.eqb c "+" = false.
Proof.
  rewrite !eqb_code. change (code "-") with 45. change (code "+") with 43. unfold is_digit.
  intros [H| ->]; [bool_to_prop; by decide_cmp|done].
Qed.

(** White space and the sign taken off. *)
Lemma tryParseCore_scan w1 sg neg c y w2 : white w1 -> white w2 -> sign sg neg -> is_digit c = true \/ c = "."%char ->
  stops is_space (reverse (c :: y)) -> tryParseCore (w1 ++ (sg ++ c :: y) ++ w2) = scan_number neg (c :: y).
Proof.
  intros Hw1 Hw2 Hsg Hc He. unfold tryParseCore. rewrite trim_both_core; [|done|done| | |by destruct sg].
  2:{ destruct Hsg as [[-> _]|[[-> _]|[-> _]]]; [|done..]. destruct Hc as [Hc| ->]; [by apply digit_not_space|done]. }
  2:{ rewrite reverse_app. destruct (reverse (c :: y)) as [|x t] eqn:E; [|exact He].
      apply (f_equal reverse) in E. by rewrite reverse_involutive in E. }
  destruct Hsg as [[-> ->]|[[-> ->]|[-> ->]]]; [|done|done]. cbn [app].
  destruct (sign_digit c Hc) as [-> ->]. done.
Qed.

(** A number begins with a digit or a point, and has no white space. *)
Lemma number_head g ip dp fp : integer g ip -> fraction dp fp -> ip ++ fp <> [] ->
  exists c y, g ++ dp = c :: y /\ (is_digit c = true \/ c = "."%char).
Proof.
  intros (Hg & Hc & ->) Hf Hne. destruct g as [|c g]; cbn [app].
  - destruct Hf as [_ [[_ ->]| ->]]; [done|]. do 2 eexists. split; [done|]. by right.
  - do 2 eexists. split; [done|]. cbn in Hc. inversion Hg as [|? ? Hc' _]; subst.
    rewrite Hc, orb_false_r in Hc'. by left.
Qed.

Lemma number_not_space g ip dp fp : integer g ip -> fraction dp fp -> Forall (fun c => is_space c = false) (g ++ dp).
Proof.
  intros Hi Hf. apply Forall_app. split; [eapply Forall_weaken; [exact part_not_space|apply Hi]|].
  destruct Hf as [Hd [[-> _]| ->]]; [constructor|]. constructor; [done|].
  eapply Forall_weaken; [exact digit_not_space|exact Hd].
Qed.

Lemma tryParseCore_reads s neg ip fp : number s neg ip fp -> reads neg ip fp (tryParseCore s).
Proof.
  intros (w1 & sg & g & dp & w2 & -> & Hw1 & Hw2 & Hsg & Hi & Hf & Hne).
  pose proof (scan_number_reads neg g ip dp fp Hi Hf Hne) as Hr.
  pose proof (number_not_space g ip dp fp Hi Hf) as Hb.
  destruct (number_head g ip dp fp Hi Hf Hne) as (c & y & E & Hc). rewrite E in *.
  rewrite (tryParseCore_scan w1 sg neg); [exact Hr|done..|]. apply stops_all. by apply Forall_reverse.
Qed.

(** ** What overflows *)

(** [s] begins with a number whose digits up to the 28th place do not fit 96 bits;
    what follows is not looked at. *)
Definition too_large (s : text) : Prop :=
  exists w1 sg neg g ip dp fp rest, s = w1 ++ sg ++ (g ++ dp) ++ rest /\ white w1 /\ sign sg neg
  /\ integer g ip /\ fraction dp fp /\ MAX_MANTISSA < dec_value 0 (ip ++ take 28 fp).

Lemma scan_loop_app a b : forall st,
  scan_loop (a ++ b) st = match scan_loop a st with inl st => scan_loop b st | r => r end.
Proof.
  induction a as [|c a IH]; intros st; cbn [app scan_loop]; [done|].
  destruct (scan_char c st); [apply IH|done].
Qed.

(** White space at the end of a text. *)
Lemma white_end (t : text) : exists r w, t = r ++ w /\ white w /\ stops is_space (reverse r).
Proof.
  pose proof (span_while_app is_space (reverse t)) as H. destruct (span_while is_space (reverse t)) as [w r].
  destruct H as (E & Hw & Hs). exists (reverse r), (reverse w). rewrite reverse_involutive, <- reverse_app, <- E, reverse_involutive.
  split; [done|]. split; [by apply Forall_reverse|done].
Qed.

Lemma too_large_overflows s : too_large s -> tryParseCore s = Overflow.
Proof.
  intros (w1 & sg & neg & g & ip & dp & fp & rest & -> & Hw1 & Hsg & Hi & Hf & HV).
  assert (Hne : ip ++ fp <> []).
  { intros E. apply app_eq_nil in E as [-> ->]. revert HV. by vm_compute. }
  destruct (scan_all g ip dp fp Hi Hf Hne) as (dot & E). rewrite (proj2 (Z.leb_gt _ _) HV) in E.
  pose proof (number_not_space g ip dp fp Hi Hf) as Hb.
  destruct (number_head g ip dp fp Hi Hf Hne) as (c & y & Eg & Hc). rewrite Eg in *.
  destruct (white_end rest) as (r & w & -> & Hw & Hr).
  replace (w1 ++ sg ++ (c :: y) ++ r ++ w) with (w1 ++ (sg ++ c :: (y ++ r)) ++ w)
    by (f_equal; rewrite <- app_assoc; f_equal; cbn [app]; by rewrite <- app_assoc).
  rewrite (tryParseCore_scan w1 sg neg); [|done..|].
  - unfold scan_number. change (c :: y ++ r) with ((c :: y) ++ r). by rewrite scan_loop_app, E.
  - change (c :: y ++ r) with ((c :: y) ++ r). rewrite reverse_app.
    destruct (reverse r) as [|x t]; [|exact Hr]. apply stops_all. by apply Forall_reverse.
Qed.

(** ** Only numbers are read *)

Lemma scan_char_dot c st st' : scan_char c st = inl st' -> seenDot st = true ->
  is_digit c = true /\ seenDot st' = true /\ seenDigit st' = true.
Proof.
  destruct st as [m s dot dg rd tl]. cbn [seenDot]. unfold scan_char. intros H ->. revert H.
  destruct (code c =? 46); [done|]. destruct (code c =? 44); [by rewrite orb_true_r|].
  destruct (is_digit c); [|done].
  repeat (match goal with |- context [if ?b then _ else _] => destruct b end; try done); intros [= <-]; done.
Qed.

Lemma scan_char_nodot c st st' : scan_char c st = inl st' -> seenDot st = false ->
  (c = "."%char /\ seenDot st' = true /\ seenDigit st' = seenDigit st)
  \/ (comma c = true /\ is_digit c = false /\ seenDigit st = true /\ st' = st)
  \/ (is_digit c = true /\ comma c = false /\ seenDot st' = false /\ seenDigit st' = true).
Proof.
  destruct st as [m s dot dg rd tl]. cbn [seenDot seenDigit]. unfold scan_char, comma. intros H ->. revert H.
  destruct (code c =? 46) eqn:E1.
  { intros [= <-]. left. split; [|done]. apply code_inj. bool_to_prop. done. }
  destruct (code c =? 44) eqn:E2.
  { rewrite orb_false_r. destruct dg; [|done]. intros [= <-]. right; left. split; [done|].
    split; [|done]. unfold is_digit. bool_to_prop. by decide_cmp. }
  destruct (is_digit c) eqn:E3; [|done]. cbn [andb].
  repeat (match goal with |- context [if ?b then _ else _] => destruct b end; try done); intros [= <-].
  right; right. done.
Qed.

Lemma scan_after_dot t : forall st st', scan_loop t st = inl st' -> seenDot st = true ->
  all_digits t /\ (seenDigit st' = true -> seenDigit st = true \/ t <> []).
Proof.
  induction t as [|c t IH]; intros st st' E Hd; cbn [scan_loop] in E; [injection E as <-; split; [constructor|auto]|].
  destruct (scan_char c st) as [st1|] eqn:Ec; [|done].
  destruct (scan_char_dot c st st1 Ec Hd) as (Hc & Hd1 & _). destruct (IH _ _ E Hd1) as [Ht _].
  split; [by constructor|]. by right.
Qed.

Lemma scan_before_dot t : forall st st', scan_loop t st = inl st' -> seenDot st = false ->
  exists g dp fp, t = g ++ dp /\ Forall (fun c => is_digit c || comma c = true) g
  /\ (seenDigit st = true \/ stops comma g) /\ fraction dp fp
  /\ (seenDigit st' = true -> seenDigit st = true \/ List.filter is_digit g ++ fp <> []).
Proof.
  induction t as [|c t IH]; intros st st' E Hd; cbn [scan_loop] in E.
  { injection E as <-. exists [], [], []. split; [done|]. split; [constructor|]. split; [by right|].
    split; [split; [constructor|by left]|auto]. }
  destruct (scan_char c st) as [st1|] eqn:Ec; [|done].
  destruct (scan_char_nodot c st st1 Ec Hd) as [(-> & Hd1 & Hg1)|[(Hc & Hn & Hg & ->)|(Hc & Hn & Hd1 & Hg1)]].
  - destruct (scan_after_dot _ _ _ E Hd1) as [Ht Hs]. exists [], ("."%char :: t), t.
    split; [done|]. split; [constructor|]. split; [by right|]. split; [split; [done|by right]|].
    rewrite <- Hg1. exact Hs.
  - destruct (IH _ _ E Hd) as (g & dp & fp & -> & Hgs & _ & Hf & Hs). exists (c :: g), dp, fp.
    split; [done|]. split; [constructor; [by rewrite Hn|done]|]. split; [by left|]. split; [done|]. by left.
  - destruct (IH _ _ E Hd1) as (g & dp & fp & -> & Hgs & _ & Hf & Hs). exists (c :: g), dp, fp.
    split; [done|]. split; [constructor; [by rewrite Hc|done]|]. split; [by right|]. split; [done|].
    intros _. right. cbn [List.filter]. by rewrite Hc.
Qed.

Lemma scan_char_error c st r : scan_char c st <> inr (StatusOk r).
Proof.
  destruct st as [m s dot dg rd tl]. unfold scan_char.
  repeat match goal with |- context [if ?b then _ else _] => destruct b end; done.
Qed.

Lemma scan_loop_error t st r : scan_loop t st <> inr (StatusOk r).
Proof.
  revert st. induction t as [|c t IH]; intros st; cbn [scan_loop]; [done|].
  pose proof (scan_char_error c st r). by destruct (scan_char c st).
Qed.

Lemma tryParseCore_number s r : tryParseCore s = StatusOk r -> exists neg ip fp, number s neg ip fp.
Proof.
  unfold tryParseCore. destruct (trim_both_app is_space s) as (w1 & w2 & Es & Hw1 & Hw2).
  destruct (trim_both is_space s) as [|c t]; [done|].
  assert (H : forall sg neg body, c :: t = sg ++ body -> sign sg neg -> scan_number neg body = StatusOk r ->
    exists neg ip fp, number s neg ip fp).
  { intros sg neg body Eb Hsg E. unfold scan_number in E. destruct (scan_loop body start) as [st|] eqn:El;
      [|subst; by apply scan_loop_error in El].
    destruct (scan_before_dot body start st El eq_refl) as (g & dp & fp & -> & Hg & [|Hc] & Hf & Hd); [done|].
    assert (Hs : seenDigit st = true) by (unfold finish in E; destruct (seenDigit st); done).
    exists neg, (List.filter is_digit g), fp, w1, sg, g, dp, w2. rewrite <- Eb.
    split; [done|]. split; [done|]. split; [done|]. split; [done|]. split; [done|]. split; [done|].
    destruct (Hd Hs); done. }
  destruct (Ascii.eqb_spec c "-") as [->|]; [intros E; apply (H (str "-") true t); [done|right; right; done|done]|].
  destruct (Ascii.eqb_spec c "+") as [->|]; [intros E; apply (H (str "+") false t); [done|right; left; done|done]|].
  intros E. apply (H [] false (c :: t)); [done|by left|done].
Qed.

(** ** Only too large a beginning overflows *)

Lemma scan_char_overflow c st : scan_char c st = inr Overflow -> is_digit c = true.
Proof.
  destruct st as [m s dot dg rd tl]. unfold scan_char.
  destruct (is_digit c); [done|]. repeat match goal with |- context [if ?b then _ else _] => destruct b end; done.
Qed.

(** The first character that overflows. *)
Lemma scan_loop_overflow t : forall st, scan_loop t st = inr Overflow ->
  exists pre c rest st', t = pre ++ c :: rest /\ scan_loop pre st = inl st' /\ scan_char c st' = inr Overflow.
Proof.
  induction t as [|c t IH]; intros st E; cbn [scan_loop] in E; [done|].
  destruct (scan_char c st) as [st1|e] eqn:Ec.
  - destruct (IH st1 E) as (pre & c' & rest & st' & -> & Hp & Hc). exists (c :: pre), c', rest, st'.
    split; [done|]. cbn [scan_loop]. by rewrite Ec.
  - injection E as ->. by exists [], c, t, st.
Qed.

(** A digit more is still a number. *)
Lemma number_digit g dp fp c : Forall (fun c => is_digit c || comma c = true) g -> stops comma g -> fraction dp fp ->
  is_digit c = true -> exists g' dp' fp', (g ++ dp) ++ [c] = g' ++ dp' /\ integer g' (List.filter is_digit g')
  /\ fraction dp' fp' /\ List.filter is_digit g' ++ fp' <> [].
Proof.
  intros Hg Hs [Hf [[-> ->]| ->]] Hc.
  - exists (g ++ [c]), [], []. rewrite !app_nil_r. split; [done|]. split; [|split; [split; [constructor|by left]|]].
    + split; [apply Forall_app; split; [done|by repeat constructor; rewrite Hc]|]. split; [|done].
      destruct g; [|done]. cbn. by apply digit_code in Hc as [_ ?].
    + rewrite List.filter_app. cbn [List.filter]. rewrite Hc. by destruct (List.filter is_digit g).
  - exists g, ("."%char :: fp ++ [c]), (fp ++ [c]). rewrite <- app_assoc. split; [done|]. split; [done|].
    split; [split; [apply Forall_app; split; [done|by repeat constructor]|by right]|].
    intros E. apply app_eq_nil in E as [_ E]. by apply app_eq_nil in E as [_ ?].
Qed.

Lemma overflow_too_large s : tryParseCore s = Overflow -> too_large s.
Proof.
  unfold tryParseCore. destruct (trim_both_app is_space s) as (w1 & w2 & Es & Hw1 & _).
  destruct (trim_both is_space s) as [|c t]; [done|].
  assert (H : forall sg neg body, c :: t = sg ++ body -> sign sg neg -> scan_number neg body = Overflow -> too_large s).
  { intros sg neg body Eb Hsg E. unfold scan_number in E. destruct (scan_loop body start) as [st|e] eqn:El.
    { unfold finish in E. destruct (negb (seenDigit st)); [done|]. by destruct (round_up_tail st && _). }
    subst e. destruct (scan_loop_overflow body start El) as (pre & x & rest & st & Ebody & Hp & Hx).
    destruct (scan_before_dot pre start st Hp eq_refl) as (g & dp & fp & Epre & Hg & [|Hc] & Hf & _); [done|].
    destruct (number_digit g dp fp x Hg Hc Hf (scan_char_overflow x st Hx)) as (g' & dp' & fp' & E' & Hi' & Hf' & Hne).
    exists w1, sg, neg, g', (List.filter is_digit g'), dp', fp', (rest ++ w2).
    split; [|split; [done|]; split; [done|]; split; [done|]; split; [done|]].
    - rewrite Es, Eb, Ebody, Epre, <- E', <- !app_assoc. done.
    - destruct (scan_all g' _ dp' fp' Hi' Hf' Hne) as (dot & Ea). rewrite <- E', <- Epre, scan_loop_app, Hp in Ea.
      cbn [scan_loop] in Ea. rewrite Hx in Ea. destruct (_ <=? _) eqn:EV in Ea; [done|]. by apply Z.leb_gt. }
  destruct (Ascii.eqb_spec c "-") as [->|]; [intros E; apply (H (str "-") true t); [done|right; right; done|done]|].
  destruct (Ascii.eqb_spec c "+") as [->|]; [intros E; apply (H (str "+") false t); [done|right; left; done|done]|].
  intros E. apply (H [] false (c :: t)); [done|by left|done].
Qed.

(** ** Printing *)

Lemma u128str_loop_spec (fuel : nat) : forall v s, 0 <= v < 10 ^ fuel ->
  exists ds, u128str_loop fuel v s = ds ++ s /\ all_digits ds /\ dec_value 0 ds = v /\ (0 < v -> ds <> []).
Proof.
  induction fuel as [|fuel IH]; intros v s Hv; cbn [u128str_loop].
  { exists []. change (10 ^ O) with 1 in Hv. split; [done|]. split; [constructor|]. cbn. lia. }
  rewrite Nat2Z.inj_succ, Z.pow_succ_r in Hv by lia. destruct (v >? 0) eqn:E; bool_to_prop.
  - destruct (IH (v / 10) (digit_char (v mod 10) :: s)) as (ds & -> & Hd & Hval & _); [zlia|].
    assert (Hr : 0 <= v mod 10 < 10) by (apply Z.mod_pos_bound; lia).
    exists (ds ++ [digit_char (v mod 10)]). split; [by rewrite <- app_assoc|]. split.
    { apply Forall_app. split; [done|]. constructor; [by apply is_digit_digit|constructor]. }
    split; [|intros _ E'; by apply app_eq_nil in E' as [_ ?]].
    rewrite dec_value_app, Hval. cbn [dec_value]. rewrite digit_value_digit by done. zlia.
  - exists []. split; [done|]. split; [constructor|]. cbn. lia.
Qed.

Lemma u128str_spec v : 0 <= v <= MAX_MANTISSA -> all_digits (u128str v) /\ dec_value 0 (u128str v) = v /\ u128str v <> [].
Proof.
  intros Hv. unfold u128str. destruct (v =? 0) eqn:E; bool_to_prop.
  { subst v. split; [repeat constructor|]. split; done. }
  destruct (u128str_loop_spec 39 v []) as (ds & -> & Hd & Hval & Hne); [mantissas; lia|].
  rewrite app_nil_r. split; [done|]. split; [done|]. apply Hne. lia.
Qed.

Lemma digits_integer ip : all_digits ip -> integer ip ip.
Proof.
  intros H. split; [|split].
  - eapply Forall_weaken; [|exact H]. intros c Hc. cbv beta in *. by rewrite Hc.
  - destruct H as [|c t Hc _]; [done|]. cbn. by apply digit_code in Hc as [_ ?].
  - induction H as [|c t Hc Ht IH]; [done|]. cbn [List.filter]. rewrite Hc. by f_equal.
Qed.

(** The sign printed: none for a negative zero. *)
Definition printed_sign (d : Decimal) : bool := negative_ d && negb (mantissa_ d =? 0).

Lemma printed_sign_text d : sign (if printed_sign d then str "-" else []) (printed_sign d).
Proof. unfold sign. destruct (printed_sign d); [right; right|left]; done. Qed.

Lemma ToString_number d : wf d -> exists ip fp, number (ToString d) (printed_sign d) ip fp
  /\ dec_value 0 (ip ++ fp) = mantissa_ d /\ Z.of_nat (length fp) = scale_ d.
Proof.
  intros [Hm Hs]. destruct (u128str_spec (mantissa_ d) Hm) as (Hd & Hv & Hne). unfold ToString.
  fold (printed_sign d). destruct (scale_ d =? 0) eqn:E; bool_to_prop.
  - exists (u128str (mantissa_ d)), []. rewrite app_nil_r. split; [|by rewrite E].
    exists [], (if printed_sign d then str "-" else []), (u128str (mantissa_ d)), [], []. rewrite !app_nil_r.
    split; [done|]. split; [constructor|]. split; [constructor|]. split; [apply printed_sign_text|].
    split; [by apply digits_integer|]. split; [split; [constructor|by left]|done].
  - set (w := S (Z.to_nat (scale_ d))). set (m := setw0 w (u128str (mantissa_ d))).
    assert (Hmd : all_digits m) by (apply Forall_app; split; [apply all_digits_zeros|done]).
    assert (Hmv : dec_value 0 m = mantissa_ d) by (unfold m, setw0; by rewrite dec_value_zeros).
    assert (Hml : (w <= length m)%nat) by (unfold m, setw0; rewrite length_app, length_replicate; lia).
    set (dot := (length m - Z.to_nat (scale_ d))%nat).
    exists (take dot m), (drop dot m). rewrite take_drop, length_drop. split; [|split; [done|lia]].
    exists [], (if printed_sign d then str "-" else []), (take dot m), ("."%char :: drop dot m), [].
    rewrite !app_nil_r. split; [done|]. split; [constructor|]. split; [constructor|]. split; [apply printed_sign_text|].
    split; [apply digits_integer; by apply Forall_take|].
    split; [split; [by apply Forall_drop|by right]|]. rewrite take_drop. intros E'. rewrite E' in Hml. cbn in Hml. lia.
Qed.

(** ** Properties *)



(** every Decimal reads back from its text with its mantissa, its scale and its
    sign, but for a negative zero, which is printed without sign. *)
Theorem Decimal_text_roundtrip d : wf d ->
  Parse (ToString d) = Ok (decimal (mantissa_ d) (scale_ d) (printed_sign d))
  /\ TryParse (ToString d) = Some (decimal (mantissa_ d) (scale_ d) (printed_sign d)).
Proof.
  intros Hd. destruct (ToString_number d Hd) as (ip & fp & Hn & Hv & Hl). destruct Hd as [Hm Hs].
  apply tryParseCore_reads in Hn. unfold reads in Hn. rewrite take_ge, Hv in Hn by lia.
  rewrite (proj2 (Z.leb_le _ _)) in Hn by lia. destruct Hn as (q & [Hq _] & E).
  replace (length fp - 28)%nat with O in Hq by lia. change (10 ^ O) with 1 in Hq.
  assert (q = mantissa_ d) as -> by lia. rewrite (proj2 (Z.leb_le _ _)), Z.min_r, Hl in E by lia.
  unfold Parse, TryParse. by rewrite E.
Qed.

Lemma Decimal_text_roundtrip_witness :
  wf (decimal 5 3 true) /\ ToString (decimal 5 3 true) = str "-0.005"
  /\ Parse (ToString (decimal 5 3 true)) = Ok (decimal 5 3 true).
Proof.
  assert (W : wf (decimal 5 3 true)) by (split; vm_compute; split; discriminate).
  split; [exact W|]. split; [by vm_compute|]. exact (proj1 (Decimal_text_roundtrip (decimal 5 3 true) W)).
Defined.

Lemma extreme_values : MaxValue = decimal MAX_MANTISSA 0 false /\ MinValue = decimal MAX_MANTISSA 0 true.
Proof. split; by vm_compute. Qed.
