(* ===== verification/Guid.v ===== *)
(** * Guid: bytes, fields and versions

    [core/src/System/Guid.cpp] and [Guid.hpp]: the sixteen canonical bytes, the
    constructors and views in either byte order, the order, and the version 4 and
    version 7 identifiers.  The text forms are in GuidText. *)

From S2P Require Export DateTimeOffset.

#[local] Open Scope Z_scope.

Module Guid.

(** [bytes_], in the order the text shows. *)
Record Guid := mk { bytes_ : list Z }.

#[export] Instance Guid_eq_dec : EqDecision Guid.
Proof. solve_decision. Defined.

(** [bytes_\[i\]], for a constant index into sixteen bytes. *)
Definition byte_at (b : list Z) (i : nat) : Z := nth i b 0.

(** [std::swap(b\[i\], b\[j\])] *)
Definition swap (i j : nat) (b : list Z) : list Z := <[i := byte_at b j]> (<[j := byte_at b i]> b).

Definition ReverseComponentEndianness (b : list Z) : list Z :=
  swap 6 7 (swap 4 5 (swap 1 2 (swap 0 3 b))).

(** ** Constructors *)

Definition Empty : Guid := mk (replicate 16 0).

Definition getAllBitsSet : Guid := mk (replicate 16 255).

(** From sixteen bytes, little-endian or as told. *)
Definition of_array (b : list Z) : Guid := mk (ReverseComponentEndianness b).
Definition of_array_endian (b : list Z) (bigEndian : bool) : Guid :=
  mk (if bigEndian then b else ReverseComponentEndianness b).

Definition wrong_length : exn :=
  ArgumentException "Byte array for Guid must be exactly 16 bytes long." "b".

Definition of_span (b : list Z) : res Guid :=
  _ <- throw_if (negb (Nat.eqb (length b) 16)) wrong_length ;; Ok (mk (ReverseComponentEndianness b)).
Definition of_span_endian (b : list Z) (bigEndian : bool) : res Guid :=
  _ <- throw_if (negb (Nat.eqb (length b) 16)) wrong_length ;;
  Ok (mk (if bigEndian then b else ReverseComponentEndianness b)).

(** The byte of [v] that starts at bit [k]. *)
Definition octet (v k : Z) : Z := Z.land (Z.shiftr v k) 0xFF.

(** From unsigned fields and the last eight bytes; from signed fields. *)
Definition of_fields (a b c : Z) (d : list Z) : Guid :=
  mk ([octet a 24; octet a 16; octet a 8; Z.land a 0xFF;
       octet b 8; Z.land b 0xFF; octet c 8; Z.land c 0xFF] ++ d).
Definition of_signed (a b c : Z) (d : list Z) : Guid :=
  of_fields (wrapu 32 a) (wrapu 16 b) (wrapu 16 c) d.

(** ** Views *)

Definition getA (this : Guid) : Z :=
  Z.lor (Z.lor (Z.lor (Z.shiftl (byte_at (bytes_ this) 0) 24) (Z.shiftl (byte_at (bytes_ this) 1) 16))
    (Z.shiftl (byte_at (bytes_ this) 2) 8)) (byte_at (bytes_ this) 3).
Definition getB (this : Guid) : Z :=
  wrapu 16 (Z.lor (Z.shiftl (byte_at (bytes_ this) 4) 8) (byte_at (bytes_ this) 5)).
Definition getC (this : Guid) : Z :=
  wrapu 16 (Z.lor (Z.shiftl (byte_at (bytes_ this) 6) 8) (byte_at (bytes_ this) 7)).

Definition getVariant (this : Guid) : Z := Z.shiftr (byte_at (bytes_ this) 8) 4.
Definition getVersion (this : Guid) : Z := Z.shiftr (byte_at (bytes_ this) 6) 4.

Definition ToByteArray (this : Guid) : list Z := ReverseComponentEndianness (bytes_ this).
Definition ToByteArray_endian (this : Guid) (bigEndian : bool) : list Z :=
  if bigEndian then bytes_ this else ReverseComponentEndianness (bytes_ this).

(** The answer, what the destination holds then, and the count of bytes written. *)
Definition TryWriteBytes (this : Guid) (destination : list Z) : bool * list Z :=
  if Nat.ltb (length destination) 16 then (false, destination)
  else (true, ToByteArray this ++ drop 16 destination).
Definition TryWriteBytes_endian (this : Guid) (destination : list Z) (bigEndian : bool) : bool * list Z * Z :=
  if Nat.ltb (length destination) 16 then (false, destination, 0)
  else (true, ToByteArray_endian this bigEndian ++ drop 16 destination, 16).

Definition readLE32 (n : list Z) (off : nat) : Z :=
  wraps 32 (Z.lor (Z.lor (Z.lor (byte_at n off) (Z.shiftl (byte_at n (off + 1)) 8))
    (Z.shiftl (byte_at n (off + 2)) 16)) (Z.shiftl (byte_at n (off + 3)) 24)).
Definition GetHashCode (this : Guid) : Z :=
  let n := ToByteArray this in
  Z.lxor (Z.lxor (Z.lxor (readLE32 n 0) (readLE32 n 4)) (readLE32 n 8)) (readLE32 n 12).

(** ** Order *)

(** [<] on [std::array<bytecs, 16>] *)
Fixpoint lex_lt (a b : list Z) : bool :=
  match a, b with
  | _, [] => false
  | [], _ :: _ => true
  | x :: a, y :: b => if x <? y then true else if y <? x then false else lex_lt a b
  end.

Definition Equals (this other : Guid) : bool := bool_decide (bytes_ this = bytes_ other).

Definition CompareTo (this other : Guid) : Z :=
  if lex_lt (bytes_ this) (bytes_ other) then -1
  else if lex_lt (bytes_ other) (bytes_ this) then 1 else 0.

(** ** New identifiers, from the sixteen bytes the platform's generator gave *)

Definition NewGuid (entropy : list Z) : Guid :=
  mk (<[8%nat := Z.lor (Z.land (byte_at entropy 8) 0x3F) 0x80]>
       (<[6%nat := Z.lor (Z.land (byte_at entropy 6) 0x0F) 0x40]> entropy)).

Definition CreateVersion7 (entropy : list Z) (timestamp : DateTimeOffset.DateTimeOffset) : res Guid :=
  let result := bytes_ (NewGuid entropy) in
  unixTsMs <- DateTimeOffset.ToUnixTimeMilliseconds timestamp ;;
  _ <- throw_if (unixTsMs <? 0)
         (ArgumentOutOfRangeActual "timestamp" (String.string_of_list_ascii (to_string unixTsMs))
            "'timestamp' must be a non-negative value.") ;;
  let ts := wrapu 64 unixTsMs in
  let aVal := wrapu 32 (Z.shiftr ts 16) in
  let bVal := wrapu 16 (Z.land ts 0xFFFF) in
  let result := [octet aVal 24; octet aVal 16; octet aVal 8; Z.land aVal 0xFF;
                 octet bVal 8; Z.land bVal 0xFF] ++ drop 6 result in
  let result := <[6%nat := Z.lor (Z.land (byte_at result 6) 0x0F) 0x70]> result in
  let result := <[8%nat := Z.lor (Z.land (byte_at result 8) 0x3F) 0x80]> result in
  Ok (mk result).

End Guid.

(** ** The class invariant *)

Definition is_byte (b : Z) : Prop := 0 <= b < 256.

(** Sixteen bytes. *)
Definition sixteen (b : list Z) : Prop := length b = 16%nat /\ Forall is_byte b.

Definition guid_ok (g : Guid.Guid) : Prop := sixteen (Guid.bytes_ g).

(** The identifier as a 128-bit number, most significant byte first. *)
Definition number (b : list Z) : Z := foldl (fun acc x => acc * 256 + x) 0 b.

Lemma sixteen_inv b : sixteen b -> exists b0 b1 b2 b3 b4 b5 b6 b7 b8 b9 b10 b11 b12 b13 b14 b15,
  b = [b0; b1; b2; b3; b4; b5; b6; b7; b8; b9; b10; b11; b12; b13; b14; b15] /\
  (is_byte b0 /\ is_byte b1 /\ is_byte b2 /\ is_byte b3 /\ is_byte b4 /\ is_byte b5 /\ is_byte b6 /\ is_byte b7) /\
  Forall is_byte [b8; b9; b10; b11; b12; b13; b14; b15].
Proof.
  intros [Hl Hb]. do 16 (destruct b as [|? b]; [done|]). destruct b; [|done].
  do 8 (apply Forall_cons in Hb as [? Hb]). do 16 eexists. split; [reflexivity|]. by split_and!.
Qed.

(** Opens a list of sixteen bytes. *)
Ltac sixteen H :=
  let E := fresh "E" in
  apply sixteen_inv in H as
    (b0 & b1 & b2 & b3 & b4 & b5 & b6 & b7 & b8 & b9 & b10 & b11 & b12 & b13 & b14 & b15 & E &
     (Hb0 & Hb1 & Hb2 & Hb3 & Hb4 & Hb5 & Hb6 & Hb7) & Hd); subst.

(** ** Bytes and fields *)

Lemma swap_length i j b : length (Guid.swap i j b) = length b.
Proof. unfold Guid.swap. by rewrite !length_insert. Qed.

Lemma reverse_involutive b : sixteen b ->
  Guid.ReverseComponentEndianness (Guid.ReverseComponentEndianness b) = b.
Proof. intros H. by sixteen H. Qed.

Lemma reverse_sixteen b : sixteen b -> sixteen (Guid.ReverseComponentEndianness b).
Proof.
  intros H. sixteen H. split; [done|]. cbn. by repeat (apply Forall_cons; split; [done|]).
Qed.

Lemma byte_land x : Z.land x 0xFF = x mod 256.
Proof. exact (land_mask x 8 ltac:(lia)). Qed.

Lemma byte_lor a b : is_byte b -> Z.lor (Z.shiftl a 8) b = a * 256 + b.
Proof.
  intros H. rewrite Z.shiftl_mul_pow2, Z.lor_comm, lor_high by (unfold is_byte in H; cbn; lia). cbn. lia.
Qed.

Lemma octet_div v k : 0 <= k -> Guid.octet v k = v / 2 ^ k mod 256.
Proof. intros. unfold Guid.octet. by rewrite byte_land, Z.shiftr_div_pow2. Qed.

(** Joining bytes: the high part is a multiple of what the low part stays below. *)
Lemma lor_join a b n k : 0 <= k <= n -> 0 <= b < 2 ^ (n - k) ->
  Z.lor (Z.shiftl a n) (Z.shiftl b k) = Z.shiftl (a * 2 ^ (n - k) + b) k.
Proof.
  intros Hk Hb. replace n with ((n - k) + k) at 1 by lia. rewrite <- Z.shiftl_shiftl, <- Z.shiftl_lor by lia.
  f_equal. rewrite Z.shiftl_mul_pow2, Z.lor_comm, lor_high by lia. lia.
Qed.

Lemma getA_number b0 b1 b2 b3 rest : is_byte b0 -> is_byte b1 -> is_byte b2 -> is_byte b3 ->
  Guid.getA (Guid.mk (b0 :: b1 :: b2 :: b3 :: rest)) = number [b0; b1; b2; b3].
Proof.
  unfold is_byte. intros H0 H1 H2 H3. unfold Guid.getA. cbn [Guid.bytes_ Guid.byte_at nth].
  rewrite (lor_join b0 b1 24 16) by (cbn; lia).
  rewrite (lor_join (b0 * 2 ^ (24 - 16) + b1) b2 16 8) by (cbn; lia).
  rewrite <- (Z.shiftl_0_r b3), (lor_join _ b3 8 0); [|lia|simpl (2 ^ _); lia]. rewrite !Z.shiftl_0_r. cbn. lia.
Qed.

Lemma getB_number b0 b1 b2 b3 b4 b5 rest : is_byte b4 -> is_byte b5 ->
  Guid.getB (Guid.mk (b0 :: b1 :: b2 :: b3 :: b4 :: b5 :: rest)) = number [b4; b5].
Proof.
  unfold is_byte. intros H4 H5. unfold Guid.getB. cbn [Guid.bytes_ Guid.byte_at nth].
  rewrite byte_lor by done. unfold wrapu. rewrite Z.mod_small by (cbn; lia). cbn. lia.
Qed.

Lemma getC_number b0 b1 b2 b3 b4 b5 b6 b7 rest : is_byte b6 -> is_byte b7 ->
  Guid.getC (Guid.mk (b0 :: b1 :: b2 :: b3 :: b4 :: b5 :: b6 :: b7 :: rest)) = number [b6; b7].
Proof.
  unfold is_byte. intros H6 H7. unfold Guid.getC. cbn [Guid.bytes_ Guid.byte_at nth].
  rewrite byte_lor by done. unfold wrapu. rewrite Z.mod_small by (cbn; lia). cbn. lia.
Qed.

(** The bytes of a field, and the field they make. *)
Lemma octets_4 v : 0 <= v < 2 ^ 32 ->
  number [Guid.octet v 24; Guid.octet v 16; Guid.octet v 8; Z.land v 0xFF] = v.
Proof.
  intros Hv. cbn [number foldl]. rewrite !octet_div, byte_land by lia. cbn.
  Z.to_euclidean_division_equations. lia.
Qed.

Lemma octets_2 v : 0 <= v < 2 ^ 16 -> number [Guid.octet v 8; Z.land v 0xFF] = v.
Proof.
  intros Hv. cbn [number foldl]. rewrite !octet_div, byte_land by lia. cbn.
  Z.to_euclidean_division_equations. lia.
Qed.

Lemma octet_byte v k : 0 <= k -> is_byte (Guid.octet v k).
Proof. intros. rewrite octet_div by done. unfold is_byte. apply Z.mod_pos_bound. lia. Qed.

Lemma land_byte v : is_byte (Z.land v 0xFF).
Proof. rewrite byte_land. unfold is_byte. apply Z.mod_pos_bound. lia. Qed.

Create HintDb guid.
#[export] Hint Resolve octet_byte land_byte : guid.
#[export] Hint Extern 1 (_ <= _) => lia : guid.

Lemma number_octets_4 b0 b1 b2 b3 : is_byte b0 -> is_byte b1 -> is_byte b2 -> is_byte b3 ->
  let v := number [b0; b1; b2; b3] in
  [Guid.octet v 24; Guid.octet v 16; Guid.octet v 8; Z.land v 0xFF] = [b0; b1; b2; b3].
Proof.
  intros H0 H1 H2 H3 v. unfold is_byte in *. rewrite !octet_div, byte_land by lia. subst v. cbn [number foldl]. cbn.
  repeat f_equal; Z.to_euclidean_division_equations; lia.
Qed.

Lemma number_octets_2 b0 b1 : is_byte b0 -> is_byte b1 ->
  let v := number [b0; b1] in [Guid.octet v 8; Z.land v 0xFF] = [b0; b1].
Proof.
  intros H0 H1 v. unfold is_byte in *. rewrite !octet_div, byte_land by lia. subst v. cbn [number foldl]. cbn.
  repeat f_equal; Z.to_euclidean_division_equations; lia.
Qed.

Lemma of_fields_ok a b c d : length d = 8%nat -> Forall is_byte d -> guid_ok (Guid.of_fields a b c d).
Proof.
  intros Hl Hd. split; [cbn; by rewrite Hl|]. cbn.
  repeat (apply Forall_cons; split; [auto with guid|]). done.
Qed.

(** ** Order *)

Lemma number_acc b : forall acc, foldl (fun acc x => acc * 256 + x) acc b = acc * 256 ^ Z.of_nat (length b) + number b.
Proof.
  unfold number. induction b as [|x b IH]; intros acc; [cbn; lia|]. cbn [foldl length].
  rewrite IH, (IH (0 * 256 + x)). rewrite Nat2Z.inj_succ, Z.pow_succ_r by lia. lia.
Qed.

Lemma number_bound b : Forall is_byte b -> 0 <= number b < 256 ^ Z.of_nat (length b).
Proof.
  induction b as [|x b IH]; intros H; [cbn; lia|]. apply Forall_cons in H as [Hx Hb]. specialize (IH Hb).
  unfold is_byte in Hx. unfold number. cbn [foldl length]. rewrite number_acc, Nat2Z.inj_succ, Z.pow_succ_r by lia. nia.
Qed.

(** Byte order is the order of the numbers. *)
Lemma lex_lt_number a : forall b, length a = length b -> Forall is_byte a -> Forall is_byte b ->
  Guid.lex_lt a b = (number a <? number b).
Proof.
  induction a as [|x a IH]; intros [|y b] Hl Ha Hb; try done.
  apply Forall_cons in Ha as [Hx Ha]. apply Forall_cons in Hb as [Hy Hb]. injection Hl as Hl.
  pose proof (number_bound _ Ha) as Ra. pose proof (number_bound _ Hb) as Rb. unfold number. cbn [foldl Guid.lex_lt].
  rewrite !number_acc, <- Hl in *. rewrite (IH b) by done. unfold is_byte in *.
  destruct (Z.ltb_spec x y); [symmetry; apply Z.ltb_lt; nia|].
  destruct (Z.ltb_spec y x); [symmetry; apply Z.ltb_ge; nia|].
  assert (x = y) as -> by lia. destruct (Z.ltb_spec (number a) (number b)); symmetry; [apply Z.ltb_lt|apply Z.ltb_ge]; lia.
Qed.

Lemma number_eq a : forall b, length a = length b -> Forall is_byte a -> Forall is_byte b ->
  number a = number b -> a = b.
Proof.
  induction a as [|x a IH]; intros [|y b] Hl Ha Hb E; try done.
  apply Forall_cons in Ha as [Hx Ha]. apply Forall_cons in Hb as [Hy Hb]. injection Hl as Hl.
  pose proof (number_bound _ Ha) as Ra. pose proof (number_bound _ Hb) as Rb. unfold number in E. cbn [foldl] in E.
  rewrite !number_acc, <- Hl in *. unfold is_byte in *. assert (x = y) by nia. subst y. f_equal.
  apply IH; [done..|]. lia.
Qed.

Lemma CompareTo_spec g h : guid_ok g -> guid_ok h ->
  Guid.CompareTo g h = order_sign (number (Guid.bytes_ g)) (number (Guid.bytes_ h)).
Proof.
  intros [Lg Bg] [Lh Bh]. unfold Guid.CompareTo, order_sign. rewrite !lex_lt_number by (done || congruence).
  by rewrite Z.gtb_ltb.
Qed.

(** ** New identifiers *)

(** Keeping the low [k] bits of a byte under fixed high bits. *)
Lemma tag_bits x k v : 0 <= k -> Z.lor (Z.land x (2 ^ k - 1)) (v * 2 ^ k) = x mod 2 ^ k + v * 2 ^ k.
Proof.
  intros Hk. rewrite land_mask by done. apply lor_high; [done|]. apply Z.mod_pos_bound. apply Z.pow_pos_nonneg; lia.
Qed.

Lemma tag_nibble x v : 0 <= v < 16 -> let b := Z.lor (Z.land x 0x0F) (v * 16) in is_byte b /\ Z.shiftr b 4 = v.
Proof.
  intros Hv b. assert (Hb : b = x mod 16 + v * 16) by exact (tag_bits x 4 v ltac:(lia)).
  pose proof (Z.mod_pos_bound x 16 ltac:(lia)). rewrite Z.shiftr_div_pow2, Hb by lia. unfold is_byte.
  split; [lia|]. change (2 ^ 4) with 16. rewrite Z.div_add, Z.div_small by lia. lia.
Qed.

Lemma tag_variant x : let b := Z.lor (Z.land x 0x3F) 0x80 in is_byte b /\ 8 <= Z.shiftr b 4 <= 11.
Proof.
  intros b. assert (Hb : b = x mod 64 + 2 * 64) by exact (tag_bits x 6 2 ltac:(lia)).
  pose proof (Z.mod_pos_bound x 64 ltac:(lia)). rewrite Z.shiftr_div_pow2, Hb by lia. unfold is_byte.
  split; [lia|]. change (2 ^ 4) with 16. Z.to_euclidean_division_equations. lia.
Qed.

(** What a version 7 identifier made at [ms] milliseconds is. *)
Definition stamped (ms : Z) (g : Guid.Guid) : Prop :=
  guid_ok g /\ Guid.getVersion g = 7 /\ 8 <= Guid.getVariant g <= 11 /\ number (take 6 (Guid.bytes_ g)) = ms.

Lemma wrapu_small w v : 0 <= v < 2 ^ w -> wrapu w v = v.
Proof. intros. unfold wrapu. by rewrite Z.mod_small. Qed.

Lemma CreateVersion7_stamped e x ms : sixteen e ->
  DateTimeOffset.ToUnixTimeMilliseconds x = Ok ms -> 0 <= ms < 2 ^ 48 ->
  exists g, Guid.CreateVersion7 e x = Ok g /\ stamped ms g.
Proof.
  intros He Hx Hms. unfold Guid.CreateVersion7. rewrite Hx, bind_Ok.
  rewrite throw_if_false, bind_Ok by (apply Z.ltb_ge; lia).
  rewrite (wrapu_small 64) by lia. rewrite (wrapu_small 32) by (rewrite Z.shiftr_div_pow2 by lia; split;
    [apply Z.div_pos; lia|apply Z.div_lt_upper_bound; lia]).
  rewrite (wrapu_small 16) by (change 0xFFFF with (2 ^ 16 - 1); rewrite land_mask by lia; apply Z.mod_pos_bound; lia).
  set (a := Z.shiftr ms 16). set (b := Z.land ms 0xFFFF).
  assert (Ha : 0 <= a < 2 ^ 32) by (unfold a; rewrite Z.shiftr_div_pow2 by lia; split;
    [apply Z.div_pos; lia|apply Z.div_lt_upper_bound; lia]).
  assert (Hb : b = ms mod 2 ^ 16) by exact (land_mask ms 16 ltac:(lia)).
  assert (Hbr : 0 <= b < 2 ^ 16) by (rewrite Hb; apply Z.mod_pos_bound; lia).
  eexists. split; [done|]. sixteen He.
  cbn [Guid.NewGuid Guid.bytes_ Guid.byte_at nth insert list_insert drop skipn app].
  match goal with |- stamped _ (Guid.mk [_; _; _; _; _; _; ?p; _; ?q; _; _; _; _; _; _; _]) =>
    destruct (tag_nibble (Z.lor (Z.land b6 0x0F) 0x40) 7 ltac:(lia)) as [Hp Hv7];
    destruct (tag_variant (Z.lor (Z.land b8 0x3F) 0x80)) as [Hq Hvar] end.
  apply Forall_cons in Hd as [_ Hd]. split; [|split; [exact Hv7|split; [exact Hvar|]]].
  - split; [done|]. cbn [Guid.bytes_].
    do 6 (apply Forall_cons; split; [auto with guid|]). apply Forall_cons; split; [exact Hp|].
    apply Forall_cons; split; [done|]. by apply Forall_cons; split; [exact Hq|].
  - cbn [Guid.bytes_ take firstn]. transitivity (number [Guid.octet a 24; Guid.octet a 16; Guid.octet a 8; Z.land a 0xFF] * 65536
      + number [Guid.octet b 8; Z.land b 0xFF]); [cbn; lia|].
    rewrite octets_4, octets_2 by done. rewrite Hb. unfold a. rewrite Z.shiftr_div_pow2 by lia.
    change (2 ^ 16) with 65536. Z.to_euclidean_division_equations. lia.
Qed.

(** The first six bytes decide. *)
Lemma stamped_order m n g h : m < n -> stamped m g -> stamped n h -> Guid.CompareTo g h = -1.
Proof.
  intros Hmn (Hg & _ & _ & Hm) (Hh & _ & _ & Hn). rewrite CompareTo_spec by done. unfold order_sign.
  destruct Hg as [Lg Bg], Hh as [Lh Bh].
  assert (Hnum : forall b, length b = 16%nat -> Forall is_byte b ->
    exists r, 0 <= r < 256 ^ 10 /\ number b = number (take 6 b) * 256 ^ 10 + r).
  { intros b Hl Hb. exists (number (drop 6 b)). assert (Hd : Forall is_byte (drop 6 b)) by (by apply Forall_drop).
    pose proof (number_bound _ Hd) as Hr. rewrite length_drop, Hl in Hr. split; [exact Hr|].
    rewrite <- (take_drop 6 b) at 1. unfold number at 1. rewrite foldl_app, number_acc, length_drop, Hl. done. }
  destruct (Hnum _ Lg Bg) as (r & Hr & ->), (Hnum _ Lh Bh) as (t & Ht & ->). rewrite Hm, Hn.
  rewrite (proj2 (Z.ltb_lt _ _)) by nia. done.
Qed.

Lemma unix_milliseconds x : dto_wf x ->
  DateTimeOffset.ToUnixTimeMilliseconds x = Ok ((instant x - DateTime.UnixEpochTicks) / 10000) /\
  (instant x - DateTime.UnixEpochTicks) / 10000 < 2 ^ 48.
Proof.
  intros Hx. split.
  - unfold DateTimeOffset.ToUnixTimeMilliseconds. rewrite getUtcTicks_spec, bind_Ok by done.
    exact (to_unix_spec 10000 (or_introl eq_refl) x Hx).
  - destruct Hx as (_ & _ & _ & [_ H]). apply Z.div_lt_upper_bound; [lia|].
    unfold DateTime.MaxTicks, DateTime.UnixEpochTicks in *. lia.
Qed.

(** ** Properties *)

(** The sixteen bytes are the identity of a Guid under every view: the constructors from bytes in
    either order and from fields, and [ToByteArray] and the field accessors, are inverse, what
    [TryWriteBytes] writes builds the same Guid, and [CompareTo] orders Guids as 128-bit numbers,
    answering zero exactly on equal ones. *)
Theorem Guid_bytes_identity g h : guid_ok g -> guid_ok h ->
  (forall big, Guid.of_array_endian (Guid.ToByteArray_endian g big) big = g /\
     Guid.of_span_endian (Guid.ToByteArray_endian g big) big = Ok g /\ sixteen (Guid.ToByteArray_endian g big) /\
     forall dest, (16 <= length dest)%nat ->
       exists dest', Guid.TryWriteBytes_endian g dest big = (true, dest', 16) /\
         length dest' = length dest /\ Guid.of_span_endian (take 16 dest') big = Ok g) /\
  Guid.of_fields (Guid.getA g) (Guid.getB g) (Guid.getC g) (drop 8 (Guid.bytes_ g)) = g /\
  Guid.CompareTo g h = order_sign (number (Guid.bytes_ g)) (number (Guid.bytes_ h)) /\
  (Guid.CompareTo g h = 0 <-> g = h).
Proof.
  intros Hg Hh. split; [|split; [|split; [by apply CompareTo_spec|]]].
  - intros big.
    assert (Hs : sixteen (Guid.ToByteArray_endian g big)) by (destruct big; [done|by apply reverse_sixteen]).
    assert (Hr : (if big then Guid.ToByteArray_endian g big
                  else Guid.ReverseComponentEndianness (Guid.ToByteArray_endian g big)) = Guid.bytes_ g).
    { destruct big; [done|]. by apply reverse_involutive. }
    assert (Hspan : Guid.of_span_endian (Guid.ToByteArray_endian g big) big = Ok g).
    { unfold Guid.of_span_endian. rewrite (proj1 Hs). cbn [Nat.eqb negb throw_if bind]. rewrite Hr. by destruct g. }
    split; [unfold Guid.of_array_endian; rewrite Hr; by destruct g|]. split; [done|]. split; [done|].
    intros dest Hd. unfold Guid.TryWriteBytes_endian. rewrite (proj2 (Nat.ltb_ge _ _)) by done. eexists. split; [done|].
    rewrite length_app, length_drop, (proj1 Hs). split; [lia|].
    by rewrite take_app_length' by (symmetry; apply Hs).
  - destruct g as [b]. unfold guid_ok in Hg. cbn in Hg. sixteen Hg.
    rewrite getA_number, getB_number, getC_number by done. unfold Guid.of_fields.
    pose proof (number_octets_4 b0 b1 b2 b3 Hb0 Hb1 Hb2 Hb3) as E4. pose proof (number_octets_2 b4 b5 Hb4 Hb5) as E2.
    pose proof (number_octets_2 b6 b7 Hb6 Hb7) as E2'. cbv zeta in E4, E2, E2'.
    injection E4 as -> -> -> ->. injection E2 as -> ->. injection E2' as -> ->. done.
  - rewrite CompareTo_spec by done. unfold order_sign. split; [|intros ->; by rewrite Z.ltb_irrefl, Z.gtb_ltb, Z.ltb_irrefl].
    intros E. destruct g as [b], h as [c], Hg as [Lb Bb], Hh as [Lc Bc]. cbn [Guid.bytes_] in *. f_equal.
    apply number_eq; [congruence|done|done|]. rewrite Z.gtb_ltb in E. revert E.
    destruct (Z.ltb_spec (number b) (number c)), (Z.ltb_spec (number c) (number b)); intros; try done; lia.
Qed.

(** A version 7 identifier carries its instant: for sixteen bytes of entropy and any timestamp,
    [CreateVersion7] throws exactly when the Unix time in milliseconds is negative; otherwise it is a
    Guid of version 7 and variant 10 whose first 48 bits are that time, so identifiers of different
    milliseconds are ordered as their times are, whatever the entropy. *)
Theorem Guid_version7_ordered e1 e2 x y : sixteen e1 -> sixteen e2 -> dto_wf x -> dto_wf y ->
  let ms z := (instant z - DateTime.UnixEpochTicks) / 10000 in
  (ms x < 0 -> exists v, Guid.CreateVersion7 e1 x =
     Throw (ArgumentOutOfRangeActual "timestamp" v "'timestamp' must be a non-negative value.")) /\
  (0 <= ms x -> exists g, Guid.CreateVersion7 e1 x = Ok g /\ stamped (ms x) g /\
     (ms x < ms y -> exists h, Guid.CreateVersion7 e2 y = Ok h /\ Guid.CompareTo g h = -1)).
Proof.
  intros He1 He2 Hx Hy ms. destruct (unix_milliseconds x Hx) as [Ex Bx]. destruct (unix_milliseconds y Hy) as [Ey By].
  split.
  - intros Hneg. unfold Guid.CreateVersion7. rewrite Ex, bind_Ok, throw_if_true by (by apply Z.ltb_lt). by eexists.
  - intros Hpos. destruct (CreateVersion7_stamped e1 x _ He1 Ex (conj Hpos Bx)) as (g & Eg & Hg).
    exists g. split; [done|]. split; [done|]. intros Hlt.
    destruct (CreateVersion7_stamped e2 y _ He2 Ey) as (h & Eh & Hh); [unfold ms in *; lia|].
    exists h. split; [done|]. by eapply stamped_order.
Qed.

(** ** Witnesses *)

Definition sample_bytes : list Z := [216; 91; 20; 7; 53; 29; 70; 148; 147; 146; 3; 172; 197; 135; 14; 177].

Lemma sample_sixteen : sixteen sample_bytes.
Proof. split; [done|]. by repeat (apply Forall_cons; split; [unfold is_byte; lia|]). Qed.

Lemma Guid_bytes_identity_witness :
  Guid.of_fields (Guid.getA (Guid.mk sample_bytes)) (Guid.getB (Guid.mk sample_bytes)) (Guid.getC (Guid.mk sample_bytes))
    (drop 8 sample_bytes) = Guid.mk sample_bytes /\ Guid.getA (Guid.mk sample_bytes) = 0xd85b1407.
Proof.
  split; [|reflexivity].
  exact (proj1 (proj2 (Guid_bytes_identity (Guid.mk sample_bytes) (Guid.mk sample_bytes) sample_sixteen sample_sixteen))).
Defined.

Lemma Guid_version7_ordered_witness : exists g h,
  Guid.CreateVersion7 sample_bytes DateTimeOffset.UnixEpoch = Ok g /\
  Guid.CreateVersion7 (replicate 16 0) DateTimeOffset.MaxValue = Ok h /\ Guid.CompareTo g h = -1.
Proof.
  assert (Hx : dto_wf DateTimeOffset.UnixEpoch) by (vm_compute; intuition discriminate).
  assert (Hy : dto_wf DateTimeOffset.MaxValue) by (vm_compute; intuition discriminate).
  assert (He : sixteen (replicate 16 0)) by (split; [done|by repeat (apply Forall_cons; split; [unfold is_byte; lia|])]).
  destruct (proj2 (Guid_version7_ordered _ _ _ _ sample_sixteen He Hx Hy)) as (g & Hg & _ & H).
  - vm_compute. discriminate.
  - destruct H as (h & Hh & Hc); [vm_compute; reflexivity|]. exists g, h. exact (conj Hg (conj Hh Hc)).
Defined.
