(* ===== verification/GuidText.v ===== *)
(** * Guid: the text forms

    The parsers and formatters of [core/src/System/Guid.cpp] for the forms D, N, B,
    P and X.  Indexing a [std::string] past its end is undefined, so the parsers
    run in [res]; a refused text is a value, as in the code. *)

From S2P Require Export Guid.

#[local] Open Scope Z_scope.

Module GuidText.

(** [GuidParseStatus] with the bytes or the message. *)
Inductive parsed (A : Type) :=
  | Parsed (a : A)
  | FormatError (msg : string)
  | OverflowError (msg : string).
Arguments Parsed {A} a.
Arguments FormatError {A} msg.
Arguments OverflowError {A} msg.

(** [if (st != Ok) return st;] *)
Definition chain {A B} (m : res (parsed A)) (k : A -> res (parsed B)) : res (parsed B) :=
  r <- m ;;
  match r with
  | Parsed a => k a
  | FormatError e => Ok (FormatError e)
  | OverflowError e => Ok (OverflowError e)
  end.

#[local] Notation "x <== m ;; k" := (chain m (fun x => k))
  (at level 100, m at next level, right associativity).

Definition MSG_UNRECOGNIZED := "Unrecognized Guid format."%string.
Definition MSG_INVLEN :=
  "Guid should contain 32 digits with 4 dashes (xxxxxxxx-xxxx-xxxx-xxxx-xxxxxxxxxxxx)."%string.
Definition MSG_DASHES := "Dashes are in the wrong position for GUID parsing."%string.
Definition MSG_INVALIDCHAR := "Guid string should only contain hexadecimal characters."%string.
Definition MSG_BRACE := "Expected {0xdddddddd, etc}."%string.
Definition MSG_COMMA :=
  "Could not find a comma, or the length between the previous token and the comma was zero (i.e., '0x,'etc.)."%string.
Definition MSG_HEXPREFIX := "Expected 0x prefix."%string.
Definition MSG_BRACE_AFTER_LAST :=
  "Could not find a brace, or the length between the previous token and the brace was zero (i.e., '0x,'etc.)."%string.
Definition MSG_ENDBRACE := "Could not find the ending brace."%string.
Definition MSG_EXTRAJUNK := "Additional non-parsable characters are at the end of the string."%string.
Definition MSG_OVERFLOW_U32 := "Value was either too large or too small for a UInt32."%string.
Definition MSG_OVERFLOW_BYTE := "Value was either too large or too small for an unsigned byte."%string.

(** A letter between quotation marks. *)
Definition quoted (s : string) : string :=
  String.append (String.String (chr 34) s) (String.String (chr 34) String.EmptyString).
Definition MSG_INVALID_FORMAT_SPEC : string :=
  String.concat "" ["Format string can be only "; quoted "D"; ", "; quoted "d"; ", "; quoted "N"; ", "; quoted "n"; ", ";
    quoted "P"; ", "; quoted "p"; ", "; quoted "B"; ", "; quoted "b"; ", "; quoted "X"; " or "; quoted "x"; "."]%string.

(** [s\[i\]] on a [std::string] *)
Definition char_at (s : text) (i : nat) : res ascii :=
  match s !! i with
  | Some c => Ok c
  | None => if Nat.eqb i (length s) then Ok (chr 0) else UB
  end.

Definition IsAsciiWhitespace (c : ascii) : bool :=
  (code c =? 32) || (code c =? 9) || (code c =? 10) || (code c =? 13) || (code c =? 12) || (code c =? 11).

(** [while (b < e && ws(s\[b\])) ++b; while (e > b && ws(s\[e - 1\])) --e;] *)
Definition trim_start (s : text) : text := snd (span_while IsAsciiWhitespace s).
Definition Trim (s : text) : text := rev (trim_start (rev (trim_start s))).

Definition StripAsciiWhitespace (s : text) : text := List.filter (fun c => negb (IsAsciiWhitespace c)) s.

(** ** Hexadecimal digits *)

Definition HexVal (c : ascii) : Z :=
  if (48 <=? code c) && (code c <=? 57) then code c - 48
  else if (97 <=? code c) && (code c <=? 102) then code c - 97 + 10
  else if (65 <=? code c) && (code c <=? 70) then code c - 65 + 10
  else -1.

Definition DecodeByte (hi lo : ascii) : option Z :=
  let h := HexVal hi in let l := HexVal lo in
  if (h <? 0) || (l <? 0) then None else Some (wrapu 8 (Z.lor (Z.shiftl h 4) l)).

(** The loop over the significant digits: the value accumulated, unless a character
    is no digit, and how many digits were processed. *)
Fixpoint hex_loop (acc : Z) (processedDigits : nat) (s : text) : option Z * nat :=
  match s with
  | [] => (Some acc, processedDigits)
  | c :: s =>
      let v := HexVal c in
      if v <? 0 then (None, processedDigits)
      else hex_loop (Z.lor (wrapu 64 (Z.shiftl acc 4)) v) (S processedDigits) s
  end.

(** [outVal] when true is returned, and [overflow]. *)
Definition TryParseHexRun (s : text) : option Z * bool :=
  match s with
  | [] => (None, false)
  | _ =>
      let '(acc, processedDigits) := hex_loop 0 0 (snd (span_while (fun c => Ascii.eqb c "0") s)) in
      (option_map (fun acc => wrapu 32 (Z.land acc 0xFFFFFFFF)) acc, Nat.ltb 8 processedDigits)
  end.

(** [kDigits\[v & 0xF\]] *)
Definition hex_digit (d : Z) : ascii := chr (if d <? 10 then 48 + d else 87 + d).

(** The loop fills the string from its last character. *)
Fixpoint HexFixed (v : Z) (digits : nat) : text :=
  match digits with
  | O => []
  | S digits => HexFixed (Z.shiftr v 4) digits ++ [hex_digit (Z.land v 0xF)]
  end.

(** ** The exact forms *)

(** The loop that decodes the pairs of characters at the given places. *)
Fixpoint decode_pairs (s : text) (idx : list (nat * nat)) : res (parsed (list Z)) :=
  match idx with
  | [] => Ok (Parsed [])
  | (i, j) :: idx =>
      hi <- char_at s i ;; lo <- char_at s j ;;
      match DecodeByte hi lo with
      | None => Ok (FormatError MSG_INVALIDCHAR)
      | Some v => bytes <== decode_pairs s idx ;; Ok (Parsed (v :: bytes))
      end
  end.

Definition idx_D : list (nat * nat) :=
  [(0, 1); (2, 3); (4, 5); (6, 7); (9, 10); (11, 12); (14, 15); (16, 17); (19, 20); (21, 22); (24, 25); (26, 27);
   (28, 29); (30, 31); (32, 33); (34, 35)]%nat.

Definition is_at (s : text) (i : nat) (c : ascii) : res bool := x <- char_at s i ;; Ok (Ascii.eqb x c).

Definition TryParseExactD (s : text) : res (parsed (list Z)) :=
  if negb (Nat.eqb (length s) 36) then Ok (FormatError MSG_INVLEN)
  else
    d8 <- is_at s 8 "-" ;; d13 <- is_at s 13 "-" ;; d18 <- is_at s 18 "-" ;; d23 <- is_at s 23 "-" ;;
    if negb (d8 && d13 && d18 && d23) then Ok (FormatError MSG_DASHES)
    else decode_pairs s idx_D.

Definition idx_N : list (nat * nat) := map (fun k => (2 * k, 2 * k + 1)%nat) (List.seq 0 16).

Definition TryParseExactN (s : text) : res (parsed (list Z)) :=
  if negb (Nat.eqb (length s) 32) then Ok (FormatError MSG_INVLEN) else decode_pairs s idx_N.

(** [{...}] and [(...)] around the D form *)
Definition enclosed (front back : ascii) (s : text) : res (parsed (list Z)) :=
  if negb (Nat.eqb (length s) 38) then Ok (FormatError MSG_INVLEN)
  else
    f <- is_at s 0 front ;; b <- is_at s (length s - 1) back ;;
    if negb (f && b) then Ok (FormatError MSG_INVLEN) else TryParseExactD (take 36 (drop 1 s)).

Definition TryParseExactB (s : text) : res (parsed (list Z)) := enclosed "{" "}" s.
Definition TryParseExactP (s : text) : res (parsed (list Z)) := enclosed "(" ")" s.

(** [s.find(c, from)] *)
Definition find_from (c : ascii) (s : text) (from : nat) : option nat :=
  option_map (fun p => from + fst p)%nat (list_find (fun x => x = c) (drop from s)).

Definition isHexPrefix (s : text) (i : nat) : res bool :=
  if Nat.ltb (i + 1) (length s)
  then z <- is_at s i "0" ;;
       if z then x <- char_at s (i + 1) ;; Ok (Ascii.eqb x "x" || Ascii.eqb x "X") else Ok false
  else Ok false.

(** A component from [pos]: its value and the position after its terminator. *)
Definition parseComponent (s : text) (pos : nat) (terminator : ascii) : res (parsed (Z * nat)) :=
  p <- isHexPrefix s pos ;;
  if negb p then Ok (FormatError MSG_HEXPREFIX)
  else
    let numStart := (pos + 2)%nat in
    match find_from terminator s numStart with
    | None => Ok (FormatError (if Ascii.eqb terminator "," then MSG_COMMA else MSG_BRACE_AFTER_LAST))
    | Some termPos =>
        if Nat.eqb termPos numStart
        then Ok (FormatError (if Ascii.eqb terminator "," then MSG_COMMA else MSG_BRACE_AFTER_LAST))
        else
          match TryParseHexRun (take (termPos - numStart) (drop numStart s)) with
          | (Some v, false) => Ok (Parsed (v, termPos + 1)%nat)
          | (_, true) => Ok (OverflowError MSG_OVERFLOW_U32)
          | (None, false) => Ok (FormatError MSG_INVALIDCHAR)
          end
    end.

(** The loop over the last eight components, [n] of them left. *)
Fixpoint byte_components (n : nat) (s : text) (pos : nat) : res (parsed (list Z * nat)) :=
  match n with
  | O => Ok (Parsed ([], pos))
  | S n =>
      c <== parseComponent s pos (if Nat.eqb n 0 then "}" else ",")%char ;;
      if 0xFF <? fst c then Ok (OverflowError MSG_OVERFLOW_BYTE)
      else r <== byte_components n s (snd c) ;; Ok (Parsed (fst c :: fst r, snd r))
  end.

(** [pos >= s.size() || s\[pos\] != c] *)
Definition missing (s : text) (pos : nat) (c : ascii) : res bool :=
  if Nat.leb (length s) pos then Ok true else b <- is_at s pos c ;; Ok (negb b).

Definition TryParseExactX (sIn : text) : res (parsed (list Z)) :=
  let s := StripAsciiWhitespace sIn in
  m <- missing s 0 "{" ;;
  if m then Ok (FormatError MSG_BRACE)
  else
    a <== parseComponent s 1 "," ;;
    b <== parseComponent s (snd a) "," ;;
    c <== parseComponent s (snd b) "," ;;
    m <- missing s (snd c) "{" ;;
    if m then Ok (FormatError MSG_BRACE)
    else
      r <== byte_components 8 s (snd c + 1) ;;
      m <- missing s (snd r) "}" ;;
      if m then Ok (FormatError MSG_ENDBRACE)
      else if negb (Nat.eqb (snd r + 1) (length s)) then Ok (FormatError MSG_EXTRAJUNK)
      else
        let bb := wrapu 16 (Z.land (fst b) 0xFFFF) in
        let cc := wrapu 16 (Z.land (fst c) 0xFFFF) in
        Ok (Parsed ([Guid.octet (fst a) 24; Guid.octet (fst a) 16; Guid.octet (fst a) 8; Z.land (fst a) 0xFF;
                     Guid.octet bb 8; Z.land bb 0xFF; Guid.octet cc 8; Z.land cc 0xFF] ++ fst r)).

(** [formatChar | 0x20] *)
Definition lowered (c : ascii) : ascii := chr (Z.lor (code c) 0x20).

Definition DispatchExact (formatChar : ascii) (s : text) : res (parsed (list Z)) :=
  let f := lowered formatChar in
  if Ascii.eqb f "d" then TryParseExactD s
  else if Ascii.eqb f "n" then TryParseExactN s
  else if Ascii.eqb f "b" then TryParseExactB s
  else if Ascii.eqb f "p" then TryParseExactP s
  else if Ascii.eqb f "x" then TryParseExactX s
  else Ok (FormatError MSG_INVALID_FORMAT_SPEC).

Definition TryParseLoose (sIn : text) : res (parsed (list Z)) :=
  let s := Trim sIn in
  if Nat.ltb (length s) 32 then Ok (FormatError MSG_UNRECOGNIZED)
  else
    p <- is_at s 0 "(" ;;
    if p then TryParseExactP s
    else
      b <- is_at s 0 "{" ;;
      if b then d <- is_at s 9 "-" ;; if d then TryParseExactB s else TryParseExactX s
      else d <- is_at s 8 "-" ;; if d then TryParseExactD s else TryParseExactN s.

(** ** The public parsers *)

Definition thrown (r : parsed (list Z)) : res Guid.Guid :=
  match r with
  | Parsed bytes => Ok (Guid.mk bytes)
  | FormatError err => Throw (FormatException err)
  | OverflowError err => Throw (OverflowException err)
  end.
Definition answered (r : parsed (list Z)) : option Guid.Guid :=
  match r with Parsed bytes => Some (Guid.mk bytes) | _ => None end.

Definition Parse (s : text) : res Guid.Guid := r <- TryParseLoose s ;; thrown r.

(** The result when true is returned; the caller's variable keeps its value otherwise. *)
Definition TryParse (s : text) : res (option Guid.Guid) := r <- TryParseLoose s ;; Ok (answered r).

Definition ParseExact (s format : text) : res Guid.Guid :=
  match format with
  | [f] => r <- DispatchExact f (Trim s) ;; thrown r
  | _ => Throw (FormatException MSG_INVALID_FORMAT_SPEC)
  end.
Definition TryParseExact (s format : text) : res (option Guid.Guid) :=
  match format with
  | [f] => r <- DispatchExact f (Trim s) ;; Ok (answered r)
  | _ => Ok None
  end.

(** ** Formatting *)

Definition format_D (this : Guid.Guid) : text :=
  let at_ i := HexFixed (Guid.byte_at (Guid.bytes_ this) i) 2 in
  HexFixed (Guid.getA this) 8 ++ str "-" ++ HexFixed (Guid.getB this) 4 ++ str "-" ++ HexFixed (Guid.getC this) 4 ++
  str "-" ++ at_ 8%nat ++ at_ 9%nat ++ str "-" ++ concat (map at_ (List.seq 10 6)).

(** The last eight components, separated by commas. *)
Definition format_X_bytes (this : Guid.Guid) : text :=
  concat (map (fun idx => str "0x" ++ HexFixed (Guid.byte_at (Guid.bytes_ this) (8 + idx)) 2 ++
                          (if Nat.ltb idx 7 then str "," else [])) (List.seq 0 8)).

Definition ToStringCore (this : Guid.Guid) (format : text) : res text :=
  f <- match format with
       | [] => Ok "d"%char
       | [f] => Ok (lowered f)
       | _ => Throw (FormatException MSG_INVALID_FORMAT_SPEC)
       end ;;
  if Ascii.eqb f "n" then Ok (concat (map (fun byte => HexFixed byte 2) (Guid.bytes_ this)))
  else if Ascii.eqb f "d" then Ok (format_D this)
  else if Ascii.eqb f "b" then Ok (str "{" ++ format_D this ++ str "}")
  else if Ascii.eqb f "p" then Ok (str "(" ++ format_D this ++ str ")")
  else if Ascii.eqb f "x" then
    Ok (str "{0x" ++ HexFixed (Guid.getA this) 8 ++ str ",0x" ++ HexFixed (Guid.getB this) 4 ++ str ",0x" ++
        HexFixed (Guid.getC this) 4 ++ str ",{" ++ format_X_bytes this ++ str "}}")
  else Throw (FormatException MSG_INVALID_FORMAT_SPEC).

Definition ToString (this : Guid.Guid) : res text := ToStringCore this [].
Definition ToString_format (this : Guid.Guid) (format : text) : res text := ToStringCore this format.

(** The answer, the destination and the count written. *)
Definition TryFormat (this : Guid.Guid) (destination : text) (format : text) : res (bool * text * Z) :=
  s <- ToStringCore this format ;;
  if Nat.ltb (length destination) (length s) then Ok (false, destination, 0)
  else Ok (true, s ++ drop (length s) destination, Z.of_nat (length s)).
Definition TryFormatUtf8 (this : Guid.Guid) (utf8Destination : list Z) (format : text) : res (bool * list Z * Z) :=
  s <- ToStringCore this format ;;
  if Nat.ltb (length utf8Destination) (length s) then Ok (false, utf8Destination, 0)
  else Ok (true, map code s ++ drop (length s) utf8Destination, Z.of_nat (length s)).

End GuidText.

(** ** Hexadecimal digits *)

Definition lower (c : ascii) : ascii := if (65 <=? code c) && (code c <=? 90) then chr (code c + 32) else c.

Definition is_hex (c : ascii) : Prop := 0 <= GuidText.HexVal c.

(** A fact about characters checked on all of them. *)
Definition all_chars : list ascii := map (fun n => chr (Z.of_nat n)) (List.seq 0 256).

Lemma all_chars_complete c : In c all_chars.
Proof.
  assert (E : c = chr (Z.of_nat (Z.to_nat (code c)))).
  { rewrite Z2Nat.id by (unfold code; lia). unfold chr, code. by rewrite N2Z.id, ascii_N_embedding. }
  rewrite E. apply (in_map (fun n => chr (Z.of_nat n))), in_seq. pose proof (N_ascii_bounded c). unfold code. lia.
Qed.

Lemma by_chars (p : ascii -> bool) : forallb p all_chars = true -> forall c, p c = true.
Proof. intros H c. rewrite forallb_forall in H. apply H, all_chars_complete. Qed.

Lemma HexVal_range c : -1 <= GuidText.HexVal c < 16.
Proof.
  pose proof (by_chars (fun c => (-1 <=? GuidText.HexVal c) && (GuidText.HexVal c <? 16)) eq_refl c) as E.
  cbv beta in E. bool_to_prop. lia.
Qed.

Lemma HexVal_lower c : is_hex c -> lower c = GuidText.hex_digit (GuidText.HexVal c).
Proof.
  intros H. pose proof (by_chars (fun c => (GuidText.HexVal c <? 0) ||
    Ascii.eqb (lower c) (GuidText.hex_digit (GuidText.HexVal c))) eq_refl c) as E. cbv beta in E.
  unfold is_hex in H. destruct (Z.ltb_spec (GuidText.HexVal c) 0); [lia|]. by apply Ascii.eqb_eq.
Qed.

Lemma lower_HexVal c : GuidText.HexVal (lower c) = GuidText.HexVal c.
Proof. apply Z.eqb_eq, (by_chars (fun c => GuidText.HexVal (lower c) =? GuidText.HexVal c) eq_refl c). Qed.

(** A fact about the sixteen digits. *)
Lemma by_digits (p : Z -> bool) : forallb p (map Z.of_nat (List.seq 0 16)) = true -> forall d, 0 <= d < 16 -> p d = true.
Proof.
  intros H d Hd. rewrite forallb_forall in H. apply H. replace d with (Z.of_nat (Z.to_nat d)) by lia.
  apply (in_map Z.of_nat), in_seq. lia.
Qed.

Lemma HexVal_digit d : 0 <= d < 16 -> GuidText.HexVal (GuidText.hex_digit d) = d.
Proof. intros. apply Z.eqb_eq. by apply (by_digits (fun d => GuidText.HexVal (GuidText.hex_digit d) =? d)). Qed.

Lemma lower_digit d : 0 <= d < 16 -> lower (GuidText.hex_digit d) = GuidText.hex_digit d.
Proof. intros. apply Ascii.eqb_eq. by apply (by_digits (fun d => Ascii.eqb (lower (GuidText.hex_digit d)) (GuidText.hex_digit d))). Qed.

Lemma digit_hex d : 0 <= d < 16 -> is_hex (GuidText.hex_digit d).
Proof. intros. unfold is_hex. rewrite HexVal_digit by done. lia. Qed.

Lemma nibble_mod v : Z.land v 0xF = v mod 16.
Proof. exact (land_mask v 4 ltac:(lia)). Qed.

Lemma nibble_shift v : Z.shiftr v 4 = v / 16.
Proof. by rewrite Z.shiftr_div_pow2. Qed.

(** Two digits of a byte. *)
Lemma HexFixed_byte v : is_byte v ->
  GuidText.HexFixed v 2 = [GuidText.hex_digit (v / 16); GuidText.hex_digit (v mod 16)].
Proof.
  intros Hv. unfold is_byte in Hv. cbn [GuidText.HexFixed app].
  rewrite !nibble_mod, nibble_shift.
  rewrite (Z.mod_small (v / 16)); [done|]. Z.to_euclidean_division_equations. lia.
Qed.

Lemma HexFixed_app v b n : is_byte b -> 0 <= v ->
  GuidText.HexFixed (v * 256 + b) (n + 2) = GuidText.HexFixed v n ++ GuidText.HexFixed b 2.
Proof.
  intros Hb Hv. rewrite HexFixed_byte by done. unfold is_byte in Hb. rewrite Nat.add_comm. cbn [Nat.add GuidText.HexFixed].
  rewrite <- app_assoc, !nibble_mod, !nibble_shift.
  replace ((v * 256 + b) / 16 / 16) with v by (Z.to_euclidean_division_equations; lia).
  replace ((v * 256 + b) / 16 mod 16) with (b / 16) by (Z.to_euclidean_division_equations; lia).
  by replace ((v * 256 + b) mod 16) with (b mod 16) by (Z.to_euclidean_division_equations; lia).
Qed.

Lemma number_snoc b x : number (b ++ [x]) = number b * 256 + x.
Proof. unfold number. by rewrite foldl_app. Qed.

(** A field prints as its bytes. *)
Lemma HexFixed_number b : Forall is_byte b ->
  GuidText.HexFixed (number b) (2 * length b) = concat (map (fun x => GuidText.HexFixed x 2) b).
Proof.
  induction b as [|x b IH] using rev_ind; intros H; [done|]. apply Forall_app in H as [Hb Hx].
  apply Forall_cons in Hx as [Hx _]. rewrite number_snoc, length_app. cbn [length].
  replace (2 * (length b + 1))%nat with (2 * length b + 2)%nat by lia.
  rewrite HexFixed_app by (done || apply number_bound; done). rewrite IH, map_app, concat_app by done.
  cbn [map concat]. by rewrite app_nil_r.
Qed.

(** What a pair of characters denotes. *)
Lemma DecodeByte_Some hi lo v : GuidText.DecodeByte hi lo = Some v <->
  is_byte v /\ [lower hi; lower lo] = GuidText.HexFixed v 2.
Proof.
  unfold GuidText.DecodeByte. pose proof (HexVal_range hi) as Rh. pose proof (HexVal_range lo) as Rl.
  assert (Hj : forall h l, 0 <= h < 16 -> 0 <= l < 16 -> wrapu 8 (Z.lor (Z.shiftl h 4) l) = h * 16 + l).
  { intros h l Hh Hl. rewrite Z.shiftl_mul_pow2, Z.lor_comm, lor_high by lia. unfold wrapu.
    rewrite Z.mod_small; change (2 ^ 4) with 16; change (2 ^ 8) with 256; lia. }
  split.
  - destruct (Z.ltb_spec (GuidText.HexVal hi) 0), (Z.ltb_spec (GuidText.HexVal lo) 0); try done. cbn [orb].
    intros [= <-]. rewrite Hj by lia. split; [unfold is_byte; lia|]. rewrite HexFixed_byte by (unfold is_byte; lia).
    rewrite !HexVal_lower by done. rewrite Z.div_add_l, Z.div_small by lia.
    rewrite (Z.add_comm (_ * 16)), Z.mod_add, Z.mod_small by lia. by rewrite Z.add_0_r.
  - intros [Hv E]. rewrite HexFixed_byte in E by done. unfold is_byte in Hv. injection E as E1 E2.
    apply (f_equal GuidText.HexVal) in E1, E2. rewrite lower_HexVal, HexVal_digit in E1, E2
      by (Z.to_euclidean_division_equations; lia).
    assert (Hh : 0 <= v / 16 < 16) by (Z.to_euclidean_division_equations; lia).
    pose proof (Z.mod_pos_bound v 16 ltac:(lia)) as Hl. rewrite E1, E2.
    rewrite (proj2 (Z.ltb_ge _ _)), (proj2 (Z.ltb_ge _ _)) by lia. cbn [orb]. rewrite Hj by done.
    f_equal. Z.to_euclidean_division_equations. lia.
Qed.

(** ** The forms D, N, B and P *)

Lemma char_at_lt s i c : s !! i = Some c -> GuidText.char_at s i = Ok c.
Proof. unfold GuidText.char_at. by intros ->. Qed.

Lemma is_at_lt s i x c : s !! i = Some x -> GuidText.is_at s i c = Ok (Ascii.eqb x c).
Proof. intros H. unfold GuidText.is_at. by rewrite (char_at_lt _ _ _ H). Qed.

(** The pair of characters at [p] denotes [b]. *)
Definition pair_of (s : text) (p : nat * nat) (b : Z) : Prop :=
  exists hi lo, s !! fst p = Some hi /\ s !! snd p = Some lo /\ is_byte b /\ [lower hi; lower lo] = GuidText.HexFixed b 2.

Lemma decode_pairs_Parsed s idx bs : Forall2 (pair_of s) idx bs -> GuidText.decode_pairs s idx = Ok (GuidText.Parsed bs).
Proof.
  induction 1 as [|[i j] b idx bs (hi & lo & Hi & Hj & Hb) H IH]; [done|]. cbn [GuidText.decode_pairs fst snd] in *.
  rewrite (char_at_lt _ _ _ Hi), bind_Ok, (char_at_lt _ _ _ Hj), bind_Ok, (proj2 (DecodeByte_Some hi lo b) Hb).
  unfold GuidText.chain. by rewrite IH.
Qed.

(** What a parser may answer: bytes with a property, or a refusal of the format. *)
Definition parses_only (P : list Z -> Prop) (r : res (GuidText.parsed (list Z))) : Prop :=
  match r with Ok (GuidText.Parsed bs) => P bs | Ok (GuidText.FormatError _) => True | _ => False end.

Lemma decode_pairs_inv s idx : Forall (fun p => fst p < length s /\ snd p < length s)%nat idx ->
  parses_only (Forall2 (pair_of s) idx) (GuidText.decode_pairs s idx).
Proof.
  induction 1 as [|[i j] idx [Hi Hj] _ IH]; [constructor|]. cbn [GuidText.decode_pairs fst snd] in *.
  destruct (lookup_lt_is_Some_2 _ _ Hi) as [hi Ei], (lookup_lt_is_Some_2 _ _ Hj) as [lo Ej].
  rewrite (char_at_lt _ _ _ Ei), bind_Ok, (char_at_lt _ _ _ Ej), bind_Ok.
  destruct (GuidText.DecodeByte hi lo) as [b|] eqn:E; [|done]. apply DecodeByte_Some in E as [Hb E].
  unfold GuidText.chain. destruct (GuidText.decode_pairs s idx) as [[bs|?|?]| |]; try done. cbn.
  constructor; [|done]. by exists hi, lo.
Qed.

(** The text of each form, from the bytes. *)
Definition text_N (b : list Z) : text := concat (map (fun x => GuidText.HexFixed x 2) b).
Definition text_D (b : list Z) : text :=
  text_N (take 4 b) ++ ["-"%char] ++ text_N (take 2 (drop 4 b)) ++ ["-"%char] ++ text_N (take 2 (drop 6 b)) ++ ["-"%char] ++
  text_N (take 2 (drop 8 b)) ++ ["-"%char] ++ text_N (drop 10 b).

Lemma HexFixed_text b n : Forall is_byte b -> n = (2 * length b)%nat -> GuidText.HexFixed (number b) n = text_N b.
Proof. intros H ->. by apply HexFixed_number. Qed.

Lemma format_D_text g : guid_ok g -> GuidText.format_D g = text_D (Guid.bytes_ g).
Proof.
  destruct g as [b]. intros H. unfold guid_ok in H. cbn in H. sixteen H. unfold GuidText.format_D.
  rewrite getA_number, getB_number, getC_number by done.
  rewrite !HexFixed_text by (done || by repeat (apply Forall_cons; split; [done|])).
  unfold text_D, text_N. cbn [take drop firstn skipn map concat Guid.byte_at Guid.bytes_ nth List.seq].
  change (str "-") with ["-"%char]. by rewrite !app_nil_r, <- !app_assoc.
Qed.

(** Opens a text of known length. *)
Ltac explicit s H := repeat (destruct s as [|? s]; [discriminate H|]); destruct s; [|discriminate H]; clear H.

Ltac pairs H :=
  repeat match type of H with
  | Forall2 _ (_ :: _) ?bs =>
      let b := fresh "b" in let bs' := fresh "bs" in let P := fresh "P" in
      apply Forall2_cons_inv_l in H as (b & bs' & P & H & ->);
      destruct P as (? & ? & ? & ? & ? & ?); simplify_eq/=
  | Forall2 _ [] _ => apply Forall2_nil_inv_l in H as ->
  end.

Lemma lower_dash c : lower c = "-"%char -> c = "-"%char.
Proof.
  intros H. pose proof (by_chars (fun c => negb (Ascii.eqb (lower c) "-") || Ascii.eqb c "-") eq_refl c) as E.
  cbv beta in E. rewrite H in E. by apply Ascii.eqb_eq.
Qed.

Lemma length_text_N b : Forall is_byte b -> length (text_N b) = (2 * length b)%nat.
Proof.
  induction 1 as [|x b Hx _ IH]; [done|]. unfold text_N in *. cbn [map concat]. rewrite length_app, IH, HexFixed_byte by done.
  cbn [length]. lia.
Qed.

Lemma sixteen_parts b : sixteen b ->
  Forall is_byte (take 4 b) /\ Forall is_byte (take 2 (drop 4 b)) /\ Forall is_byte (take 2 (drop 6 b)) /\
  Forall is_byte (take 2 (drop 8 b)) /\ Forall is_byte (drop 10 b).
Proof. intros [_ H]. split_and!; auto using Forall_take, Forall_drop. Qed.

Lemma length_text_D b : sixteen b -> length (text_D b) = 36%nat.
Proof.
  intros H. destruct (sixteen_parts b H) as (H1 & H2 & H3 & H4 & H5). unfold text_D.
  rewrite !length_app, !length_text_N, !length_take, !length_drop, (proj1 H) by done. done.
Qed.

(** Rewrites with what each character denotes, and concludes. *)
Ltac denoted :=
  cbn [map]; repeat match goal with H : lower _ = _ |- _ => rewrite H; clear H end; reflexivity.

(** Each pair of characters known denotes its byte. *)
Ltac paired :=
  repeat (constructor; [by (eexists _, _; split; [reflexivity|]; split; [reflexivity|]; split; [assumption|];
    cbn; f_equal; [eassumption|f_equal; eassumption]) |]); constructor.

Ltac bytes_listed := split; [reflexivity|repeat (apply Forall_cons; split; [assumption|]); constructor].

Lemma TryParseExactN_sound s : parses_only (fun b => sixteen b /\ map lower s = text_N b) (GuidText.TryParseExactN s).
Proof.
  unfold GuidText.TryParseExactN. destruct (Nat.eqb_spec (length s) 32) as [Hl|]; [|done]. cbn [negb].
  assert (Hi : Forall (fun p : nat * nat => fst p < length s /\ snd p < length s)%nat GuidText.idx_N)
    by (rewrite Hl; cbn; by repeat (apply Forall_cons; split; [cbn; lia|])).
  pose proof (decode_pairs_inv _ _ Hi) as H. clear Hi. unfold parses_only in *. explicit s Hl.
  destruct (GuidText.decode_pairs _ _) as [[b|?|?]| |]; try done.
  unfold GuidText.idx_D in H; cbn in H. pairs H. split; [bytes_listed|denoted].
Qed.

Lemma TryParseExactN_complete s b : sixteen b -> map lower s = text_N b ->
  GuidText.TryParseExactN s = Ok (GuidText.Parsed b).
Proof.
  intros H E. unfold GuidText.TryParseExactN. assert (Hl : length s = 32%nat).
  { rewrite <- (length_map lower), E, length_text_N, (proj1 H) by apply H. done. }
  rewrite Hl. cbn [Nat.eqb negb]. apply decode_pairs_Parsed. explicit s Hl. sixteen H.
  repeat (apply Forall_cons in Hd as [? Hd]). cbn in E. injection E as. paired.
Qed.

Lemma TryParseExactD_sound s : parses_only (fun b => sixteen b /\ map lower s = text_D b) (GuidText.TryParseExactD s).
Proof.
  unfold GuidText.TryParseExactD. destruct (Nat.eqb_spec (length s) 36) as [Hl|]; [|done]. cbn [negb].
  assert (Hi : Forall (fun p : nat * nat => fst p < length s /\ snd p < length s)%nat GuidText.idx_D)
    by (rewrite Hl; cbn; by repeat (apply Forall_cons; split; [cbn; lia|])).
  pose proof (decode_pairs_inv _ _ Hi) as H. clear Hi. unfold parses_only in *. explicit s Hl. do 4 (erewrite is_at_lt by reflexivity; rewrite bind_Ok).
  destruct (_ && _) eqn:Ed; [|done]. cbn [negb]. bool_to_prop.
  repeat match goal with E : Ascii.eqb _ _ = true |- _ => apply Ascii.eqb_eq in E as -> end.
  destruct (GuidText.decode_pairs _ _) as [[b|?|?]| |]; try done.
  unfold GuidText.idx_D in H; cbn in H. pairs H. split; [bytes_listed|denoted].
Qed.

Lemma TryParseExactD_complete s b : sixteen b -> map lower s = text_D b ->
  GuidText.TryParseExactD s = Ok (GuidText.Parsed b).
Proof.
  intros H E. unfold GuidText.TryParseExactD. assert (Hl : length s = 36%nat).
  { by rewrite <- (length_map lower), E, length_text_D. }
  rewrite Hl. cbn [Nat.eqb negb]. explicit s Hl. sixteen H.
  repeat (apply Forall_cons in Hd as [? Hd]). cbn in E. injection E as.
  repeat match goal with E : lower _ = "-"%char |- _ => apply lower_dash in E as -> end.
  do 4 (erewrite is_at_lt by reflexivity; rewrite bind_Ok). cbn [Ascii.eqb Bool.eqb andb negb].
  apply decode_pairs_Parsed. unfold GuidText.idx_D. paired.
Qed.

(** ** Components of the X form *)

(** A run of digits: not empty, all hexadecimal, at most eight of them significant. *)
Definition significant (t : text) : text := snd (span_while (fun c => Ascii.eqb c "0") t).
Definition run_ok (ds : text) : Prop :=
  ds <> [] /\ Forall is_hex ds /\ (length (significant ds) <= 8)%nat.
Definition hex_value (ds : text) : Z := foldl (fun acc c => acc * 16 + GuidText.HexVal c) 0 ds.

(** A component: [0x] or [0X], a run of digits, a terminator. *)
Definition component (t : ascii * text) (term : ascii) : text := "0"%char :: fst t :: snd t ++ [term].
Definition token_ok (t : ascii * text) : Prop := (fst t = "x"%char \/ fst t = "X"%char) /\ run_ok (snd t).
Definition token_value (t : ascii * text) : Z := hex_value (snd t).

Lemma hex_value_acc ds : forall acc, foldl (fun acc c => acc * 16 + GuidText.HexVal c) acc ds = acc * 16 ^ Z.of_nat (length ds) + hex_value ds.
Proof.
  unfold hex_value. induction ds as [|c ds IH]; intros acc; [cbn; lia|]. cbn [foldl length].
  rewrite IH, (IH (0 * 16 + _)), Nat2Z.inj_succ, Z.pow_succ_r by lia. lia.
Qed.

Lemma hex_value_range ds : Forall is_hex ds -> 0 <= hex_value ds < 16 ^ Z.of_nat (length ds).
Proof.
  induction 1 as [|c ds Hc _ IH]; [cbn; lia|]. unfold hex_value. cbn [foldl length]. rewrite hex_value_acc.
  pose proof (HexVal_range c). unfold is_hex in Hc. rewrite Nat2Z.inj_succ, Z.pow_succ_r by lia. nia.
Qed.

Lemma hex_value_significant ds : hex_value ds = hex_value (significant ds).
Proof.
  induction ds as [|c ds IH]; [done|]. unfold significant in *. cbn [span_while].
  destruct (Ascii.eqb_spec c "0") as [->|]; [|done]. destruct (span_while _ ds) as [a b]. cbn [snd] in *.
  rewrite <- IH. unfold hex_value. cbn [foldl]. by rewrite hex_value_acc.
Qed.

Lemma significant_hex ds : Forall is_hex ds -> Forall is_hex (significant ds).
Proof.
  induction 1 as [|c ds Hc H IH]; [constructor|]. unfold significant in *. cbn [span_while].
  destruct (Ascii.eqb c "0"); [by destruct (span_while _ ds)|by constructor].
Qed.

(** The digit loop succeeds on digits only, and counts them. *)
Lemma hex_loop_spec ds : forall acc n, 0 <= acc ->
  match GuidText.hex_loop acc n ds with
  | (Some v, m) => Forall is_hex ds /\ m = (n + length ds)%nat /\
      (acc * 16 ^ Z.of_nat (length ds) + hex_value ds < 2 ^ 64 -> v = acc * 16 ^ Z.of_nat (length ds) + hex_value ds)
  | (None, m) => ~ Forall is_hex ds
  end.
Proof.
  induction ds as [|c ds IH]; intros acc n Hacc; cbn [GuidText.hex_loop].
  { split; [done|]. split; [cbn; lia|]. unfold hex_value. cbn. lia. }
  pose proof (HexVal_range c) as Hr. destruct (Z.ltb_spec (GuidText.HexVal c) 0).
  { intros [Hc _]%Forall_cons. unfold is_hex in Hc. lia. }
  set (acc' := Z.lor (wrapu 64 (Z.shiftl acc 4)) (GuidText.HexVal c)).
  assert (Hacc' : 0 <= acc').
  { apply Z.lor_nonneg. split; [|done]. unfold wrapu. apply Z.mod_pos_bound. lia. }
  specialize (IH acc' (S n) Hacc'). destruct (GuidText.hex_loop acc' (S n) ds) as [[v|] m].
  - destruct IH as (Hd & -> & Hv). split; [constructor; [unfold is_hex; lia|done]|]. split; [cbn; lia|].
    intros Hlt. unfold hex_value in Hlt |- *. cbn [foldl length] in *. rewrite hex_value_acc in *.
    rewrite Nat2Z.inj_succ, Z.pow_succ_r in * by lia. pose proof (hex_value_range ds Hd).
    assert (E : acc' = acc * 16 + GuidText.HexVal c).
    { unfold acc'. rewrite Z.shiftl_mul_pow2 by lia. rewrite wrapu_small by nia.
      rewrite Z.lor_comm, lor_high by lia. change (2 ^ 4) with 16. lia. }
    rewrite E in Hv. rewrite Hv; [lia|]. lia.
  - intros [_ Hd]%Forall_cons. done.
Qed.

(** The answer of the run parser: the value of a good run, overflow, or neither. *)
Lemma TryParseHexRun_ok ds : run_ok ds -> GuidText.TryParseHexRun ds = (Some (hex_value ds), false).
Proof.
  intros (Hne & Hd & Hl). unfold GuidText.TryParseHexRun. destruct ds as [|c ds]; [done|]. revert Hd Hl. clear Hne.
  generalize (c :: ds). intros t Hd Hl. fold (significant t).
  pose proof (hex_loop_spec (significant t) 0 0 ltac:(lia)) as H.
  pose proof (significant_hex t Hd) as Hs. pose proof (hex_value_range _ Hs) as Hr.
  destruct (GuidText.hex_loop 0 0 (significant t)) as [[v|] m]; [|done]. destruct H as (_ & -> & Hv).
  assert (Hb : hex_value (significant t) < 2 ^ 32).
  { apply (Z.lt_le_trans _ _ _ (proj2 Hr)). change (2 ^ 32) with (16 ^ 8). apply Z.pow_le_mono_r; lia. }
  rewrite Hv, Z.mul_0_l, Z.add_0_l by lia. cbn [option_map]. rewrite (proj2 (Nat.ltb_ge _ _)) by lia.
  change 0xFFFFFFFF with (2 ^ 32 - 1). rewrite land_mask, Z.mod_small, wrapu_small by lia. by rewrite (hex_value_significant t).
Qed.

Lemma TryParseHexRun_inv ds v : GuidText.TryParseHexRun ds = (Some v, false) -> run_ok ds /\ v = hex_value ds.
Proof.
  intros H. assert (Hok : run_ok ds).
  { unfold GuidText.TryParseHexRun in H. destruct ds as [|c ds]; [done|]. split; [done|]. revert H.
    generalize (c :: ds). intros t. fold (significant t).
    pose proof (hex_loop_spec (significant t) 0 0 ltac:(lia)) as H.
    destruct (GuidText.hex_loop 0 0 (significant t)) as [[u|] m]; [|done]. destruct H as (Hs & -> & _).
    intros [= _ Hl]. apply Nat.ltb_ge in Hl. split; [|cbn in Hl; lia].
    clear -Hs. induction t as [|c t IH]; [done|]. unfold significant in *. cbn [span_while] in Hs.
    destruct (Ascii.eqb_spec c "0") as [->|]; [|done]. destruct (span_while _ t). constructor; [|by apply IH].
    unfold is_hex. vm_compute. discriminate. }
  rewrite (TryParseHexRun_ok _ Hok) in H. by injection H as <-.
Qed.

(** [find] looks for the first terminator after a run. *)
Lemma find_from_first c s from l r : drop from s = l ++ c :: r -> c ∉ l -> (from <= length s)%nat ->
  GuidText.find_from c s from = Some (from + length l)%nat.
Proof.
  intros E Hl Hf. unfold GuidText.find_from. rewrite E.
  assert (F : list_find (fun x => x = c) (l ++ c :: r) = Some (length l, c)).
  { apply list_find_Some. split; [by rewrite lookup_app_r, Nat.sub_diag by lia|]. split; [done|].
    intros j y Hj Hlt ->. rewrite lookup_app_l in Hj by done. by apply Hl, list_elem_of_lookup_2 with j. }
  by rewrite F.
Qed.

Lemma find_from_inv c s from p : GuidText.find_from c s from = Some p ->
  exists l r, drop from s = l ++ c :: r /\ p = (from + length l)%nat.
Proof.
  unfold GuidText.find_from. destruct (list_find _ (drop from s)) as [[i x]|] eqn:E; [|done]. intros [= <-].
  apply list_find_Some in E as (Hi & -> & _). exists (take i (drop from s)), (drop (S i) (drop from s)).
  cbn [fst]. split; [by rewrite take_drop_middle|]. rewrite length_take. apply lookup_lt_Some in Hi. lia.
Qed.

Lemma hex_not c ds : ~ is_hex c -> Forall is_hex ds -> c ∉ ds.
Proof. intros Hc Hd Hin. rewrite Forall_forall in Hd. by apply Hc, Hd. Qed.

Lemma drop_lookup (s : text) i c r : drop i s = c :: r -> s !! i = Some c /\ drop (S i) s = r /\ (i < length s)%nat.
Proof.
  intros H. assert (Hi : s !! i = Some c) by (by rewrite <- (Nat.add_0_r i), <- lookup_drop, H).
  split; [done|]. split; [|by eapply lookup_lt_Some]. rewrite (drop_S _ _ _ Hi) in H. by injection H.
Qed.

Definition terminator_ok (term : ascii) : Prop := term = ","%char \/ term = "}"%char.

(** A component that is there is read, and the position after it. *)
Lemma parseComponent_complete s pos t term rest : terminator_ok term -> token_ok t ->
  drop pos s = component t term ++ rest ->
  exists pos', GuidText.parseComponent s pos term = Ok (GuidText.Parsed (token_value t, pos')) /\ drop pos' s = rest.
Proof.
  intros Hterm [Hx Hr] E. destruct t as [x ds]. cbn [fst snd] in *. unfold component in E. cbn [fst snd app] in E.
  apply drop_lookup in E as (E0 & E & L0). apply drop_lookup in E as (E1 & E & L1). rewrite <- app_assoc in E. cbn in E.
  exists (pos + 2 + length ds + 1)%nat. split.
  - unfold GuidText.parseComponent, GuidText.isHexPrefix. rewrite (proj2 (Nat.ltb_lt _ _)) by lia. cbv iota.
    rewrite (is_at_lt _ _ _ _ E0), bind_Ok. cbn [Ascii.eqb Bool.eqb].
    rewrite (char_at_lt s (pos + 1) x) by (by rewrite Nat.add_1_r). rewrite !bind_Ok.
    assert (Hp : (Ascii.eqb x "x" || Ascii.eqb x "X") = true) by (destruct Hx as [-> | ->]; done).
    rewrite Hp. cbn [negb]. replace (S (S pos)) with (pos + 2)%nat in E by lia.
    destruct Hr as (Hne & Hd & Hl).
    rewrite (find_from_first term s (pos + 2) ds rest E); [|by apply hex_not; [destruct Hterm as [-> | ->]; intros H; vm_compute in H|]|lia].
    rewrite (proj2 (Nat.eqb_neq _ _)) by (destruct ds; [done|cbn; lia]).
    rewrite E. replace (pos + 2 + length ds - (pos + 2))%nat with (length ds) by lia. rewrite take_app_length.
    rewrite (TryParseHexRun_ok ds) by done. done.
  - replace (S (S pos)) with (pos + 2)%nat in E by lia. rewrite <- !drop_drop.
    replace (drop 2 (drop pos s)) with (drop (pos + 2) s) by (by rewrite drop_drop).
    by rewrite E, drop_app_length.
Qed.

(** A component that was read was there. *)
Lemma parseComponent_sound s pos term : 
  match GuidText.parseComponent s pos term with
  | Ok (GuidText.Parsed (v, pos')) => exists t, token_ok t /\ v = token_value t /\
      drop pos s = component t term ++ drop pos' s
  | Ok _ => True
  | _ => False
  end.
Proof.
  unfold GuidText.parseComponent, GuidText.isHexPrefix.
  destruct (Nat.ltb_spec (pos + 1) (length s)) as [Hlt|]; [|done].
  destruct (lookup_lt_is_Some_2 s pos) as [z Hz]; [lia|]. rewrite (is_at_lt _ _ _ _ Hz), bind_Ok.
  destruct (Ascii.eqb_spec z "0") as [->|]; [|done].
  destruct (lookup_lt_is_Some_2 s (pos + 1)) as [x Hx]; [lia|]. rewrite (char_at_lt _ _ _ Hx), !bind_Ok.
  destruct (Ascii.eqb x "x" || Ascii.eqb x "X") eqn:Ex; [|done]. cbn [negb].
  destruct (GuidText.find_from term s (pos + 2)) as [p|] eqn:Hf; [|done].
  apply find_from_inv in Hf as (ds & r & E & ->). destruct (Nat.eqb_spec (pos + 2 + length ds) (pos + 2)) as [|Hne]; [done|].
  rewrite E. replace (pos + 2 + length ds - (pos + 2))%nat with (length ds) by lia. rewrite take_app_length.
  destruct (GuidText.TryParseHexRun ds) as [[v|] []] eqn:Er; try done.
  apply TryParseHexRun_inv in Er as [Hr ->]. exists (x, ds). split; [|split; [done|]].
  - split; [|done]. cbn. bool_to_prop; [left|right]; by apply Ascii.eqb_eq.
  - unfold component. cbn [fst snd]. rewrite (drop_S _ _ _ Hz). rewrite Nat.add_1_r in Hx. rewrite (drop_S _ _ _ Hx).
    replace (S (S pos)) with (pos + 2)%nat by lia. cbn [app]. rewrite E, <- app_assoc. cbn [app]. repeat f_equal.
    rewrite <- !drop_drop. replace (drop 2 (drop pos s)) with (drop (pos + 2) s) by (by rewrite drop_drop).
    by rewrite E, drop_app_length.
Qed.

Lemma missing_there s pos c rest : drop pos s = c :: rest -> GuidText.missing s pos c = Ok false /\ drop (pos + 1) s = rest.
Proof.
  intros H. apply drop_lookup in H as (Hi & Hd & Hl). unfold GuidText.missing.
  rewrite (proj2 (Nat.leb_gt _ _)), (is_at_lt _ _ _ _ Hi), bind_Ok, Ascii.eqb_refl by done.
  by rewrite Nat.add_1_r.
Qed.

Lemma missing_cases s pos c : GuidText.missing s pos c = Ok true \/
  exists rest, GuidText.missing s pos c = Ok false /\ drop pos s = c :: rest /\ drop (pos + 1) s = rest.
Proof.
  unfold GuidText.missing. destruct (Nat.leb_spec (length s) pos) as [|Hl]; [by left|].
  destruct (lookup_lt_is_Some_2 _ _ Hl) as [x Hx]. rewrite (is_at_lt _ _ _ _ Hx), bind_Ok.
  destruct (Ascii.eqb_spec x c) as [->|]; [|by left]. right. exists (drop (S pos) s). rewrite (drop_S _ _ _ Hx), Nat.add_1_r. done.
Qed.

(** The last components, up to the closing brace. *)
Fixpoint components (ts : list (ascii * text)) : text :=
  match ts with
  | [] => []
  | t :: ts => component t (match ts with [] => "}" | _ => "," end)%char ++ components ts
  end.

Lemma last_terminator (n : nat) (ts : list (ascii * text)) : length ts = n ->
  (if Nat.eqb n 0 then "}" else ",")%char = match ts with [] => "}" | _ => "," end%char.
Proof. intros <-. by destruct ts. Qed.

Definition token_byte (t : ascii * text) : Prop := token_ok t /\ token_value t <= 0xFF.

Lemma byte_components_complete ts : forall s pos rest, Forall token_byte ts -> drop pos s = components ts ++ rest ->
  exists pos', GuidText.byte_components (length ts) s pos = Ok (GuidText.Parsed (map token_value ts, pos')) /\ drop pos' s = rest.
Proof.
  induction ts as [|t ts IH]; intros s pos rest H E; [by exists pos|]. apply Forall_cons in H as [[Ht Hv] H].
  cbn [components length GuidText.byte_components] in *. rewrite <- app_assoc in E. rewrite (last_terminator _ ts) by done.
  destruct (parseComponent_complete s pos t (match ts with [] => "}" | _ => "," end)%char _
    ltac:(destruct ts; [by right|by left]) Ht E) as (p & Ep & Hp).
  destruct (IH s p rest H Hp) as (p' & Ep' & Hp'). exists p'. rewrite Ep. unfold GuidText.chain. rewrite bind_Ok. cbn [fst snd].
  rewrite (proj2 (Z.ltb_ge _ _)), Ep' by lia. done.
Qed.

Lemma byte_components_sound n : forall s pos,
  match GuidText.byte_components n s pos with
  | Ok (GuidText.Parsed (vs, pos')) => exists ts, length ts = n /\ Forall token_byte ts /\ vs = map token_value ts /\
      drop pos s = components ts ++ drop pos' s
  | Ok _ => True
  | _ => False
  end.
Proof.
  induction n as [|n IH]; intros s pos; cbn [GuidText.byte_components]; [by exists []|].
  pose proof (parseComponent_sound s pos (if Nat.eqb n 0 then "}" else ",")%char) as H.
  unfold GuidText.chain at 1. destruct (GuidText.parseComponent _ _ _) as [[[v p]|?|?]| |]; try done. rewrite bind_Ok. cbn [fst snd].
  destruct H as (t & Ht & -> & E). destruct (Z.ltb_spec 255 (token_value t)); [done|]. specialize (IH s p).
  unfold GuidText.chain. destruct (GuidText.byte_components n s p) as [[[vs p']|?|?]| |]; try done. rewrite bind_Ok. cbn [fst snd].
  destruct IH as (ts & Hl & Hts & -> & E'). exists (t :: ts). split; [cbn; by rewrite Hl|]. split; [by constructor|]. split; [done|].
  cbn [components]. rewrite <- (last_terminator n ts Hl), <- app_assoc, <- E'. exact E.
Qed.

(** A text of the X form: the tokens and the identifier they make. *)
Record x_form := XForm { xa : ascii * text; xb : ascii * text; xc : ascii * text; xd : list (ascii * text) }.

Definition x_ok (x : x_form) : Prop :=
  token_ok (xa x) /\ token_ok (xb x) /\ token_ok (xc x) /\ length (xd x) = 8%nat /\ Forall token_byte (xd x).

Definition x_text (x : x_form) : text :=
  "{"%char :: component (xa x) "," ++ component (xb x) "," ++ component (xc x) "," ++
  "{"%char :: components (xd x) ++ ["}"%char].

(** The second and third fields keep their low 16 bits. *)
Definition x_guid (x : x_form) : Guid.Guid :=
  Guid.of_fields (token_value (xa x)) (token_value (xb x) mod 2 ^ 16) (token_value (xc x) mod 2 ^ 16) (map token_value (xd x)).

Lemma low_field v : wrapu 16 (Z.land v 0xFFFF) = v mod 2 ^ 16.
Proof. change 0xFFFF with (2 ^ 16 - 1). rewrite land_mask by lia. apply Z.mod_mod. lia. Qed.

Lemma TryParseExactX_complete s x : x_ok x -> GuidText.StripAsciiWhitespace s = x_text x ->
  GuidText.TryParseExactX s = Ok (GuidText.Parsed (Guid.bytes_ (x_guid x))).
Proof.
  intros (Ha & Hb & Hc & Hl & Hd) E. unfold GuidText.TryParseExactX. rewrite E. set (t := x_text x).
  assert (E0 : drop 0 t = "{"%char :: component (xa x) "," ++ component (xb x) "," ++ component (xc x) "," ++
    "{"%char :: components (xd x) ++ ["}"%char]) by done.
  destruct (missing_there _ _ _ _ E0) as [-> E1]. rewrite bind_Ok.
  destruct (parseComponent_complete t 1 _ _ _ ltac:(by left) Ha E1) as (p1 & -> & E2).
  unfold GuidText.chain. rewrite bind_Ok. cbn [fst snd].
  destruct (parseComponent_complete t p1 _ _ _ ltac:(by left) Hb E2) as (p2 & -> & E3). rewrite bind_Ok. cbn [fst snd].
  destruct (parseComponent_complete t p2 _ _ _ ltac:(by left) Hc E3) as (p3 & -> & E4). rewrite bind_Ok. cbn [fst snd].
  destruct (missing_there _ _ _ _ E4) as [-> E5]. rewrite bind_Ok.
  destruct (byte_components_complete _ t (p3 + 1) _ Hd E5) as (p4 & E6 & E7). rewrite Hl in E6. rewrite E6, bind_Ok. cbn [fst snd].
  destruct (missing_there _ _ _ _ E7) as [-> E8]. rewrite bind_Ok.
  apply drop_lookup in E7 as (_ & _ & Hlt). apply (f_equal length) in E8. rewrite length_drop in E8. change (length (@nil ascii)) with 0%nat in E8.
  rewrite (proj2 (Nat.eqb_eq _ _)) by lia. cbn [negb]. by rewrite !low_field.
Qed.

Lemma TryParseExactX_sound s :
  match GuidText.TryParseExactX s with
  | Ok (GuidText.Parsed b) => exists x, x_ok x /\ GuidText.StripAsciiWhitespace s = x_text x /\ b = Guid.bytes_ (x_guid x)
  | Ok _ => True
  | _ => False
  end.
Proof.
  unfold GuidText.TryParseExactX. set (t := GuidText.StripAsciiWhitespace s).
  destruct (missing_cases t 0 "{") as [-> | (r & -> & E0 & E1)]; [done|]. rewrite bind_Ok.
  pose proof (parseComponent_sound t 1 ",") as Ha. unfold GuidText.chain.
  destruct (GuidText.parseComponent t 1 ",") as [[[va p1]|?|?]| |]; try done. rewrite bind_Ok. cbn [fst snd].
  destruct Ha as (ta & Ha & -> & E2). pose proof (parseComponent_sound t p1 ",") as Hb.
  destruct (GuidText.parseComponent t p1 ",") as [[[vb p2]|?|?]| |]; try done. rewrite bind_Ok. cbn [fst snd].
  destruct Hb as (tb & Hb & -> & E3). pose proof (parseComponent_sound t p2 ",") as Hc.
  destruct (GuidText.parseComponent t p2 ",") as [[[vc p3]|?|?]| |]; try done. rewrite bind_Ok. cbn [fst snd].
  destruct Hc as (tc & Hc & -> & E4).
  destruct (missing_cases t p3 "{") as [-> | (r3 & -> & E5 & E6)]; [done|]. rewrite bind_Ok.
  pose proof (byte_components_sound 8 t (p3 + 1)) as Hd.
  destruct (GuidText.byte_components 8 t (p3 + 1)) as [[[vs p4]|?|?]| |]; try done. rewrite bind_Ok. cbn [fst snd].
  destruct Hd as (ts & Hl & Hts & -> & E7).
  destruct (missing_cases t p4 "}") as [-> | (r4 & -> & E8 & E9)]; [done|]. rewrite bind_Ok.
  destruct (Nat.eqb_spec (p4 + 1) (length t)) as [He|]; [|done]. cbn [negb].
  exists (XForm ta tb tc ts). split; [by split_and!|]. split; [|by rewrite !low_field].
  rewrite He, drop_all in E9. subst r4. rewrite E8 in E7. rewrite E6 in E7. rewrite E7 in E5. rewrite E5 in E4.
  rewrite E4 in E3. rewrite E3 in E2. change (0 + 1)%nat with 1%nat in E1. rewrite E2 in E1. subst r. rewrite drop_0 in E0.
  rewrite E0. done.
Qed.

(** ** White space *)

Definition blank (t : text) : Prop := Forall (fun c => GuidText.IsAsciiWhitespace c = true) t.

Lemma trim_start_blank pre s : blank pre -> stops GuidText.IsAsciiWhitespace s -> GuidText.trim_start (pre ++ s) = s.
Proof. intros Hp Hs. unfold GuidText.trim_start. by rewrite span_while_all. Qed.

(** Neither end of the text is white space. *)
Definition trimmed (s : text) : Prop :=
  s <> [] /\ stops GuidText.IsAsciiWhitespace s /\ stops GuidText.IsAsciiWhitespace (rev s).

Lemma stops_app (p : ascii -> bool) s t : s <> [] -> stops p s -> stops p (s ++ t).
Proof. by destruct s. Qed.

Lemma rev_blank t : blank t -> blank (rev t).
Proof. intros H. unfold blank. by apply List.Forall_rev. Qed.

Lemma Trim_padded pre s post : blank pre -> blank post -> trimmed s -> GuidText.Trim (pre ++ s ++ post) = s.
Proof.
  intros Hpre Hpost (Hne & Hf & Hb). unfold GuidText.Trim.
  rewrite (trim_start_blank pre) by (done || by apply stops_app). rewrite rev_app_distr.
  rewrite trim_start_blank by (done || by apply rev_blank). apply rev_involutive.
Qed.

(** Trimming takes white space off both ends. *)
Lemma trim_start_split s : exists pre, blank pre /\ s = pre ++ GuidText.trim_start s.
Proof.
  unfold GuidText.trim_start. induction s as [|c s (pre & Hp & E)]; [exists []; split; [constructor|done]|]. cbn [span_while].
  destruct (GuidText.IsAsciiWhitespace c) eqn:Ec; [|exists []; split; [constructor|done]]. destruct (span_while _ s) as [a b]. cbn [snd] in *.
  exists (c :: pre). split; [by constructor|]. cbn. by rewrite <- E.
Qed.

Lemma Trim_split s : exists pre post, blank pre /\ blank post /\ s = pre ++ GuidText.Trim s ++ post.
Proof.
  destruct (trim_start_split s) as (pre & Hp & E). destruct (trim_start_split (rev (GuidText.trim_start s))) as (post & Hq & F).
  exists pre, (rev post). split; [done|]. split; [by apply rev_blank|]. unfold GuidText.Trim.
  rewrite <- rev_app_distr, <- F, rev_involutive. exact E.
Qed.

Lemma Strip_app s t : GuidText.StripAsciiWhitespace (s ++ t) = GuidText.StripAsciiWhitespace s ++ GuidText.StripAsciiWhitespace t.
Proof. apply List.filter_app. Qed.

Lemma Strip_blank t : blank t -> GuidText.StripAsciiWhitespace t = [].
Proof. induction 1 as [|c t Hc _ IH]; [done|]. unfold GuidText.StripAsciiWhitespace in *. cbn. by rewrite Hc. Qed.

Lemma Strip_Trim s : GuidText.StripAsciiWhitespace (GuidText.Trim s) = GuidText.StripAsciiWhitespace s.
Proof.
  destruct (Trim_split s) as (pre & post & Hp & Hq & E). rewrite E at 2.
  by rewrite !Strip_app, (Strip_blank pre), (Strip_blank post), app_nil_r by done.
Qed.

Lemma Strip_id t : Forall (fun c => GuidText.IsAsciiWhitespace c = false) t -> GuidText.StripAsciiWhitespace t = t.
Proof. induction 1 as [|c t Hc _ IH]; [done|]. unfold GuidText.StripAsciiWhitespace in *. cbn. by rewrite Hc, IH. Qed.

Lemma digit_not_blank d : 0 <= d < 16 -> GuidText.IsAsciiWhitespace (GuidText.hex_digit d) = false.
Proof.
  intros. apply negb_true_iff.
  by apply (by_digits (fun d => negb (GuidText.IsAsciiWhitespace (GuidText.hex_digit d)))).
Qed.

(** ** What the formatter writes *)

Lemma text_N_hex b : Forall is_byte b -> Forall (fun c => exists d, 0 <= d < 16 /\ c = GuidText.hex_digit d) (text_N b).
Proof.
  induction 1 as [|x b Hx _ IH]; [constructor|]. unfold text_N in *. cbn [map concat]. rewrite HexFixed_byte by done.
  unfold is_byte in Hx. apply Forall_app. split; [|done].
  repeat constructor; eexists; (split; [|reflexivity]); Z.to_euclidean_division_equations; lia.
Qed.

Lemma hex_value_app s t : hex_value (s ++ t) = hex_value s * 16 ^ Z.of_nat (length t) + hex_value t.
Proof. unfold hex_value at 1. by rewrite foldl_app, hex_value_acc. Qed.

Lemma hex_value_text b : Forall is_byte b -> hex_value (text_N b) = number b.
Proof.
  induction b as [|x b IH] using rev_ind; intros H; [done|]. apply Forall_app in H as [Hb Hx].
  apply Forall_cons in Hx as [Hx _]. unfold text_N. rewrite map_app, concat_app, hex_value_app. fold (text_N b).
  rewrite IH, number_snoc by done. cbn [map concat]. rewrite app_nil_r, HexFixed_byte by done. unfold hex_value. cbn [foldl length].
  unfold is_byte in Hx. rewrite !HexVal_digit by (Z.to_euclidean_division_equations; lia).
  change (16 ^ Z.of_nat 2) with 256. Z.to_euclidean_division_equations. lia.
Qed.

Lemma significant_length t : (length (significant t) <= length t)%nat.
Proof.
  induction t as [|c t IH]; [done|]. unfold significant in *. cbn [span_while].
  destruct (Ascii.eqb c "0"); [|done]. destruct (span_while _ t). cbn in *. lia.
Qed.

Lemma token_of_bytes b : Forall is_byte b -> b <> [] -> (length b <= 4)%nat ->
  token_ok ("x"%char, text_N b) /\ token_value ("x"%char, text_N b) = number b.
Proof.
  intros H Hne Hl. split; [|by apply hex_value_text]. split; [by left|]. cbn [snd]. split; [|split].
  - destruct b as [|x b]; [done|]. apply Forall_cons in H as [Hx _].
    unfold text_N. cbn [map concat]. by rewrite HexFixed_byte.
  - eapply Forall_impl; [by apply text_N_hex|]. intros c (d & Hd & ->). by apply digit_hex.
  - pose proof (significant_length (text_N b)). rewrite length_text_N in * by done. lia.
Qed.

Definition canonical_x (b : list Z) : x_form :=
  XForm ("x"%char, text_N (take 4 b)) ("x"%char, text_N (take 2 (drop 4 b))) ("x"%char, text_N (take 2 (drop 6 b)))
    (map (fun y => ("x"%char, text_N [y])) (drop 8 b)).

Lemma canonical_x_ok b : sixteen b -> x_ok (canonical_x b) /\ x_guid (canonical_x b) = Guid.mk b.
Proof.
  intros H. pose proof H as H'. sixteen H. unfold canonical_x. cbn [take drop firstn skipn].
  assert (F4 : Forall is_byte [b0; b1; b2; b3]) by (by repeat (apply Forall_cons; split; [done|])).
  assert (F2 : Forall is_byte [b4; b5]) by (by repeat (apply Forall_cons; split; [done|])).
  assert (F2' : Forall is_byte [b6; b7]) by (by repeat (apply Forall_cons; split; [done|])).
  destruct (token_of_bytes _ F4 ltac:(done) ltac:(cbn; lia)) as [Ta Va].
  destruct (token_of_bytes _ F2 ltac:(done) ltac:(cbn; lia)) as [Tb Vb].
  destruct (token_of_bytes _ F2' ltac:(done) ltac:(cbn; lia)) as [Tc Vc].
  assert (Hbyte : forall y, is_byte y -> token_byte ("x"%char, text_N [y]) /\ token_value ("x"%char, text_N [y]) = y).
  { intros y Hy. destruct (token_of_bytes [y]) as [Ty Vy]; [by constructor|done|cbn; lia|]. cbn [number foldl] in Vy.
    unfold is_byte in Hy. split; [split; [done|]|]; rewrite Vy; unfold number; cbn; lia. }
  split.
  - split_and!; try done. cbn [xd]. apply Forall_map. eapply Forall_impl; [exact Hd|]. intros y Hy. by apply Hbyte.
  - unfold x_guid. cbn [xa xb xc xd]. rewrite Va, Vb, Vc.
    rewrite (Z.mod_small (number [b4; b5])) by exact (number_bound _ F2).
    rewrite (Z.mod_small (number [b6; b7])) by exact (number_bound _ F2').
    rewrite map_map. rewrite (map_ext_in _ (fun y => y)), map_id.
    2: { intros y Hy. apply Hbyte. rewrite Forall_forall in Hd. apply Hd. by apply list_elem_of_In. }
    pose proof (number_octets_4 b0 b1 b2 b3 Hb0 Hb1 Hb2 Hb3) as E4. pose proof (number_octets_2 b4 b5 Hb4 Hb5) as E2.
    pose proof (number_octets_2 b6 b7 Hb6 Hb7) as E2'. cbv zeta in E4, E2, E2'. unfold Guid.of_fields.
    injection E4 as -> -> -> ->. injection E2 as -> ->. injection E2' as -> ->. done.
Qed.

(** The text of the form [f] (a lower-case letter). *)
Definition form_text (f : ascii) (b : list Z) : option text :=
  if Ascii.eqb f "n" then Some (text_N b)
  else if Ascii.eqb f "d" then Some (text_D b)
  else if Ascii.eqb f "b" then Some (["{"%char] ++ text_D b ++ ["}"%char])
  else if Ascii.eqb f "p" then Some (["("%char] ++ text_D b ++ [")"%char])
  else if Ascii.eqb f "x" then Some (x_text (canonical_x b))
  else None.

Definition form_letter (format : text) : option ascii :=
  match format with [] => Some "d"%char | [f] => Some (GuidText.lowered f) | _ => None end.

Lemma ToStringCore_spec g format : guid_ok g ->
  GuidText.ToStringCore g format =
  match form_letter format with
  | Some f => match form_text f (Guid.bytes_ g) with Some s => Ok s | None => Throw (FormatException GuidText.MSG_INVALID_FORMAT_SPEC) end
  | None => Throw (FormatException GuidText.MSG_INVALID_FORMAT_SPEC)
  end.
Proof.
  intros Hg. unfold GuidText.ToStringCore, form_letter.
  assert (Hf : forall f, (if Ascii.eqb f "n" then Ok (concat (map (fun byte => GuidText.HexFixed byte 2) (Guid.bytes_ g)))
    else if Ascii.eqb f "d" then Ok (GuidText.format_D g)
    else if Ascii.eqb f "b" then Ok (str "{" ++ GuidText.format_D g ++ str "}")
    else if Ascii.eqb f "p" then Ok (str "(" ++ GuidText.format_D g ++ str ")")
    else if Ascii.eqb f "x" then
      Ok (str "{0x" ++ GuidText.HexFixed (Guid.getA g) 8 ++ str ",0x" ++ GuidText.HexFixed (Guid.getB g) 4 ++ str ",0x" ++
          GuidText.HexFixed (Guid.getC g) 4 ++ str ",{" ++ GuidText.format_X_bytes g ++ str "}}")
    else Throw (FormatException GuidText.MSG_INVALID_FORMAT_SPEC)) =
    match form_text f (Guid.bytes_ g) with Some s => Ok s | None => Throw (FormatException GuidText.MSG_INVALID_FORMAT_SPEC) end).
  { intros f. unfold form_text. rewrite format_D_text by done. do 4 (destruct (Ascii.eqb f _); [done|]).
    destruct (Ascii.eqb f "x"); [|done]. f_equal. destruct g as [b]. unfold guid_ok in Hg. cbn [Guid.bytes_] in *. sixteen Hg.
    rewrite getA_number, getB_number, getC_number by done.
    rewrite !HexFixed_text by (done || by repeat (apply Forall_cons; split; [done|])).
    unfold GuidText.format_X_bytes, canonical_x, x_text. cbn [xa xb xc xd take drop firstn skipn map components component fst snd].
    unfold component, text_N, str. cbn. reflexivity. }
  destruct format as [|f [|]]; [exact (Hf "d"%char)|exact (Hf (GuidText.lowered f))|done].
Qed.

(** ** The dispatchers *)

Lemma lower_fixed c x : lower c = x -> code x < 97 \/ 122 < code x -> c = x.
Proof.
  unfold lower. destruct ((65 <=? code c) && (code c <=? 90)) eqn:E; [|done]. bool_to_prop. intros <-.
  rewrite code_chr by lia. lia.
Qed.

Lemma drop_one_middle (s : text) n front back : length s = S (S n) -> s !! 0%nat = Some front -> s !! S n = Some back ->
  s = front :: take n (drop 1 s) ++ [back].
Proof.
  intros Hl Hf Hb. destruct s as [|c s]; [done|]. injection Hf as ->. cbn [lookup list_lookup drop skipn] in *. f_equal.
  change (s !! n = Some back) in Hb. rewrite <- (take_drop n s) at 1. f_equal. rewrite (drop_S _ _ _ Hb). f_equal.
  apply drop_ge. cbn in Hl. lia.
Qed.

Lemma enclosed_sound front back s : parses_only
  (fun b => sixteen b /\ map lower s = [lower front] ++ text_D b ++ [lower back]) (GuidText.enclosed front back s).
Proof.
  unfold GuidText.enclosed. destruct (Nat.eqb_spec (length s) 38) as [Hl|]; [|done]. cbn [negb].
  destruct (lookup_lt_is_Some_2 s 0) as [f Hf]; [lia|]. destruct (lookup_lt_is_Some_2 s 37) as [e He]; [lia|].
  rewrite (is_at_lt _ _ _ _ Hf), bind_Ok, Hl, (is_at_lt _ _ _ _ He), bind_Ok.
  destruct (Ascii.eqb_spec f front) as [->|]; [|done]. destruct (Ascii.eqb_spec e back) as [->|]; [|done]. cbn [andb negb].
  pose proof (TryParseExactD_sound (take 36 (drop 1 s))) as H. unfold parses_only in *.
  destruct (GuidText.TryParseExactD _) as [[b|?|?]| |]; try done. destruct H as [Hb E]. split; [done|].
  rewrite (drop_one_middle s 36 _ _ Hl Hf He). cbn [map app]. by rewrite map_app, E.
Qed.

Lemma enclosed_complete front back s b : sixteen b -> map lower s = [front] ++ text_D b ++ [back] ->
  code front < 97 \/ 122 < code front -> code back < 97 \/ 122 < code back ->
  GuidText.enclosed front back s = Ok (GuidText.Parsed b).
Proof.
  intros Hb E Hf Hk. assert (Hl : length s = 38%nat).
  { rewrite <- (length_map lower), E. cbn [length app]. rewrite length_app, length_text_D by done. done. }
  destruct (lookup_lt_is_Some_2 s 0) as [f Ef]; [lia|]. destruct (lookup_lt_is_Some_2 s 37) as [e Ee]; [lia|].
  pose proof (drop_one_middle s 36 _ _ Hl Ef Ee) as Es. rewrite Es in E at 1. cbn [map app] in E. rewrite map_app in E.
  injection E as E1 E. apply app_inj_2 in E as [E E2]; [|done]. injection E2 as E2.
  apply lower_fixed in E1 as ->; [|done]. apply lower_fixed in E2 as ->; [|done].
  unfold GuidText.enclosed. rewrite Hl. cbn [Nat.eqb negb Nat.sub].
  rewrite (is_at_lt _ _ _ _ Ef), bind_Ok, (is_at_lt _ _ _ _ Ee), bind_Ok, !Ascii.eqb_refl. cbn [andb negb].
  by apply TryParseExactD_complete.
Qed.

(** The forms other than X. *)
Definition plain (f : ascii) : Prop := f = "n"%char \/ f = "d"%char \/ f = "b"%char \/ f = "p"%char.

Lemma DispatchExact_plain f s : plain (GuidText.lowered f) ->
  parses_only (fun b => sixteen b /\ form_text (GuidText.lowered f) b = Some (map lower s)) (GuidText.DispatchExact f s) /\
  forall b, sixteen b -> form_text (GuidText.lowered f) b = Some (map lower s) ->
    GuidText.DispatchExact f s = Ok (GuidText.Parsed b).
Proof.
  assert (Hsome : forall (P : list Z -> text) r, parses_only (fun b => sixteen b /\ map lower s = P b) r ->
    parses_only (fun b => sixteen b /\ Some (P b) = Some (map lower s)) r).
  { intros P [[b|?|?]| |]; try done. cbn. intros [Hb E]. split; [done|]. by f_equal. }
  unfold GuidText.DispatchExact. intros [E|[E|[E|E]]]; rewrite E; unfold form_text; cbn [Ascii.eqb Bool.eqb]; split.
  - apply (Hsome text_N), TryParseExactN_sound.
  - intros b Hb Ht. injection Ht as Ht. by apply TryParseExactN_complete.
  - apply (Hsome text_D), TryParseExactD_sound.
  - intros b Hb Ht. injection Ht as Ht. by apply TryParseExactD_complete.
  - apply (Hsome (fun b => ["{"%char] ++ text_D b ++ ["}"%char])), (enclosed_sound "{" "}").
  - intros b Hb Ht. injection Ht as Ht. apply enclosed_complete; [done|by rewrite <- Ht|vm_compute; auto|vm_compute; auto].
  - apply (Hsome (fun b => ["("%char] ++ text_D b ++ [")"%char])), (enclosed_sound "(" ")").
  - intros b Hb Ht. injection Ht as Ht. apply enclosed_complete; [done|by rewrite <- Ht|vm_compute; auto|vm_compute; auto].
Qed.

(** Every parser answers sixteen bytes or refuses; none is undefined. *)
Definition answers (r : res (GuidText.parsed (list Z))) : Prop :=
  match r with Ok (GuidText.Parsed b) => sixteen b | Ok _ => True | _ => False end.

Lemma parses_answers (P : list Z -> Prop) r : (forall b, P b -> sixteen b) -> parses_only P r -> answers r.
Proof. intros H. destruct r as [[b|?|?]| |]; try done. exact (H b). Qed.

Lemma x_guid_ok x : x_ok x -> guid_ok (x_guid x).
Proof.
  intros (_ & _ & _ & Hl & Hd). unfold x_guid. apply of_fields_ok; [rewrite length_map; exact Hl|]. apply Forall_map.
  eapply Forall_impl; [exact Hd|]. intros t [(_ & _ & Ht & _) Hv]. unfold is_byte, token_value in *.
  pose proof (hex_value_range _ Ht). lia.
Qed.

Lemma X_answers s : answers (GuidText.TryParseExactX s).
Proof.
  pose proof (TryParseExactX_sound s) as H. unfold answers. destruct (GuidText.TryParseExactX s) as [[b|?|?]| |]; try done.
  destruct H as (x & Hx & _ & ->). by apply x_guid_ok.
Qed.

Lemma DispatchExact_answers f s : answers (GuidText.DispatchExact f s).
Proof.
  unfold GuidText.DispatchExact, GuidText.TryParseExactB, GuidText.TryParseExactP.
  repeat match goal with |- answers (if ?b then _ else _) => destruct b end; try done.
  - eapply parses_answers; [|apply TryParseExactD_sound]. by intros b [].
  - eapply parses_answers; [|apply TryParseExactN_sound]. by intros b [].
  - eapply parses_answers; [|apply enclosed_sound]. by intros b [].
  - eapply parses_answers; [|apply enclosed_sound]. by intros b [].
  - apply X_answers.
Qed.

(** The loose parser is one of the exact ones on the trimmed text, or refuses a short text. *)
Lemma TryParseLoose_cases s :
  (length (GuidText.Trim s) < 32)%nat /\ GuidText.TryParseLoose s = Ok (GuidText.FormatError GuidText.MSG_UNRECOGNIZED) \/
  exists f, In f ["d"; "n"; "b"; "p"; "x"]%char /\ GuidText.TryParseLoose s = GuidText.DispatchExact f (GuidText.Trim s).
Proof.
  unfold GuidText.TryParseLoose. destruct (Nat.ltb_spec (length (GuidText.Trim s)) 32); [by left|]. right.
  destruct (lookup_lt_is_Some_2 (GuidText.Trim s) 0) as [c0 E0]; [lia|].
  destruct (lookup_lt_is_Some_2 (GuidText.Trim s) 9) as [c9 E9]; [lia|].
  destruct (lookup_lt_is_Some_2 (GuidText.Trim s) 8) as [c8 E8]; [lia|].
  rewrite !(is_at_lt _ _ _ _ E0), (is_at_lt _ _ _ _ E9), (is_at_lt _ _ _ _ E8), !bind_Ok.
  destruct (Ascii.eqb c0 "("); [exists "p"%char; cbn; tauto|].
  destruct (Ascii.eqb c0 "{").
  - destruct (Ascii.eqb c9 "-"); [exists "b"%char|exists "x"%char]; cbn; tauto.
  - destruct (Ascii.eqb c8 "-"); [exists "d"%char|exists "n"%char]; cbn; tauto.
Qed.

(** ** Properties *)

(** A character the formatter writes: lower-case already, and not white space. *)
Definition printed (c : ascii) : Prop := lower c = c /\ GuidText.IsAsciiWhitespace c = false.

Lemma printed_N b : Forall is_byte b -> Forall printed (text_N b).
Proof.
  intros H. eapply Forall_impl; [by apply text_N_hex|]. intros c (d & Hd & ->). split; [by apply lower_digit|by apply digit_not_blank].
Qed.

Lemma printed_D b : sixteen b -> Forall printed (text_D b).
Proof.
  intros H. destruct (sixteen_parts b H) as (H1 & H2 & H3 & H4 & H5).
  unfold text_D. rewrite !Forall_app. split_and!; try (by apply printed_N); by repeat constructor.
Qed.

Lemma printed_component x term : Forall printed (snd x) -> printed (fst x) -> printed term -> Forall printed (component x term).
Proof.
  intros Hd Hx Ht. unfold component. constructor; [by split|]. constructor; [done|]. apply Forall_app. split; [done|by constructor].
Qed.

Lemma printed_components ts : Forall (fun x => Forall printed (snd x) /\ printed (fst x)) ts -> Forall printed (components ts).
Proof.
  induction 1 as [|x ts [Hd Hx] _ IH]; [constructor|]. cbn [components]. apply Forall_app. split; [|done].
  apply printed_component; [done|done|]. by destruct ts; split.
Qed.

Lemma printed_x b : sixteen b -> Forall printed (x_text (canonical_x b)).
Proof.
  intros H. destruct (sixteen_parts b H) as (H1 & H2 & H3 & _ & _). unfold x_text. constructor; [by split|].
  rewrite !Forall_app. assert (Hx : printed "x"%char) by (by split). assert (Hc : printed ","%char) by (by split).
  split_and!; try (apply printed_component; [by apply printed_N|done|done]).
  constructor; [by split|]. apply Forall_app. split; [|constructor; [by split|constructor]].
  apply printed_components, Forall_map. eapply Forall_impl; [exact (Forall_drop _ 8 _ (proj2 H))|].
  intros y Hy. split; [|done]. cbn [snd]. apply printed_N. by constructor.
Qed.

Lemma printed_form f b s : sixteen b -> form_text f b = Some s -> Forall printed s /\ s <> [].
Proof.
  intros H. pose proof (printed_D b H). pose proof (printed_x b H). pose proof (printed_N b (proj2 H)).
  pose proof (length_text_D b H) as Ld. pose proof (length_text_N b (proj2 H)) as Ln. rewrite (proj1 H) in Ln.
  unfold form_text. destruct (Ascii.eqb f "n"); [intros [= <-]; split; [done|intros E; by rewrite E in Ln]|].
  destruct (Ascii.eqb f "d"); [intros [= <-]; split; [done|intros E; by rewrite E in Ld]|].
  assert (Hw : forall l r, printed l -> printed r -> Forall printed ([l] ++ text_D b ++ [r])).
  { intros l r Hl Hr. constructor; [done|]. apply Forall_app. split; [done|by constructor]. }
  destruct (Ascii.eqb f "b"); [intros [= <-]; split; [apply Hw; by split|done]|].
  destruct (Ascii.eqb f "p"); [intros [= <-]; split; [apply Hw; by split|done]|].
  by destruct (Ascii.eqb f "x"); [intros [= <-]|].
Qed.

Lemma printed_trimmed s : Forall printed s -> s <> [] -> trimmed s.
Proof.
  intros H Hne. assert (Hs : forall t, Forall printed t -> stops GuidText.IsAsciiWhitespace t).
  { intros [|c t] Ht; [done|]. apply Forall_cons in Ht as [[_ Hc] _]. exact Hc. }
  split; [done|]. split; [by apply Hs|]. apply Hs. by apply List.Forall_rev.
Qed.

Lemma printed_lower s : Forall printed s -> map lower s = s.
Proof. induction 1 as [|c s [Hc _] _ IH]; [done|]. cbn. by rewrite Hc, IH. Qed.

Lemma printed_strip s : Forall printed s -> GuidText.StripAsciiWhitespace s = s.
Proof. intros H. apply Strip_id. eapply Forall_impl; [exact H|]. by intros c []. Qed.

(** Each form parses back from its own text. *)
Lemma DispatchExact_form f b s : sixteen b -> form_text (GuidText.lowered f) b = Some s ->
  GuidText.DispatchExact f s = Ok (GuidText.Parsed b).
Proof.
  intros Hb Hs. destruct (printed_form _ _ _ Hb Hs) as [Hp _].
  destruct (Ascii.eqb_spec (GuidText.lowered f) "x") as [Ex|Hx].
  - unfold GuidText.DispatchExact. rewrite Ex in *. cbn [Ascii.eqb Bool.eqb]. injection Hs as <-.
    destruct (canonical_x_ok b Hb) as [Hok Hg]. rewrite (TryParseExactX_complete _ _ Hok (printed_strip _ Hp)). by rewrite Hg.
  - assert (Hplain : plain (GuidText.lowered f)).
    { unfold form_text in Hs. unfold plain.
      destruct (Ascii.eqb_spec (GuidText.lowered f) "n"), (Ascii.eqb_spec (GuidText.lowered f) "d"),
        (Ascii.eqb_spec (GuidText.lowered f) "b"), (Ascii.eqb_spec (GuidText.lowered f) "p"); try tauto.
      by destruct (Ascii.eqb_spec (GuidText.lowered f) "x"). }
    apply (DispatchExact_plain f s Hplain); [done|]. by rewrite printed_lower.
Qed.

Lemma nibble_eqb v c : ~ is_hex c -> Ascii.eqb (GuidText.hex_digit (Z.land v 0xF)) c = false.
Proof.
  intros Hc. apply Ascii.eqb_neq. intros <-. apply Hc, digit_hex. rewrite nibble_mod. apply Z.mod_pos_bound. lia.
Qed.

Lemma not_hex_marks : ~ is_hex "(" /\ ~ is_hex "{" /\ ~ is_hex "-".
Proof. by vm_compute. Qed.

Lemma TryParseLoose_form f b s pre post : sixteen b -> form_text f b = Some s -> blank pre -> blank post ->
  GuidText.TryParseLoose (pre ++ s ++ post) = Ok (GuidText.Parsed b).
Proof.
  intros Hb Hs Hpre Hpost. destruct (printed_form _ _ _ Hb Hs) as [Hp Hne].
  pose proof (length_text_D b Hb) as Ld. pose proof (length_text_N b (proj2 Hb)) as Ln. rewrite (proj1 Hb) in Ln.
  destruct not_hex_marks as (N1 & N2 & N3).
  assert (Hdisp : forall c, plain c -> GuidText.lowered c = c -> form_text c b = Some s ->
    GuidText.DispatchExact c s = Ok (GuidText.Parsed b)).
  { intros c Hc El Ef. apply DispatchExact_form; [done|]. by rewrite El. }
  unfold GuidText.TryParseLoose. rewrite Trim_padded by (done || by apply printed_trimmed). unfold form_text in Hs.
  destruct (Ascii.eqb_spec f "n") as [->|].
  { injection Hs as <-. rewrite (proj2 (Nat.ltb_ge _ _)) by lia. cbv iota. specialize (Hdisp "n"%char (or_introl eq_refl) eq_refl eq_refl).
    pose proof Hb as Hb'. sixteen Hb. do 3 (erewrite is_at_lt by reflexivity; rewrite bind_Ok, nibble_eqb by done; cbv iota). exact Hdisp. }
  destruct (Ascii.eqb_spec f "d") as [->|].
  { injection Hs as <-. rewrite (proj2 (Nat.ltb_ge _ _)) by lia. cbv iota.
    specialize (Hdisp "d"%char ltac:(right; by left) eq_refl eq_refl). pose proof Hb as Hb'. sixteen Hb.
    do 2 (erewrite is_at_lt by reflexivity; rewrite bind_Ok, nibble_eqb by done; cbv iota).
    erewrite is_at_lt by reflexivity. rewrite bind_Ok. exact Hdisp. }
  destruct (Ascii.eqb_spec f "b") as [->|].
  { injection Hs as <-. rewrite (proj2 (Nat.ltb_ge _ _)) by (cbn [length app]; rewrite length_app; lia). cbv iota.
    specialize (Hdisp "b"%char ltac:(right; right; by left) eq_refl eq_refl). pose proof Hb as Hb'. sixteen Hb.
    do 3 (erewrite is_at_lt by reflexivity; rewrite bind_Ok; cbn [Ascii.eqb Bool.eqb]). exact Hdisp. }
  destruct (Ascii.eqb_spec f "p") as [->|].
  { injection Hs as <-. rewrite (proj2 (Nat.ltb_ge _ _)) by (cbn [length app]; rewrite length_app; lia). cbv iota.
    specialize (Hdisp "p"%char ltac:(right; right; by right) eq_refl eq_refl). pose proof Hb as Hb'. sixteen Hb.
    erewrite is_at_lt by reflexivity; rewrite bind_Ok; cbn [Ascii.eqb Bool.eqb]. exact Hdisp. }
  destruct (Ascii.eqb_spec f "x") as [->|]; [|done]. injection Hs as <-.
  pose proof (DispatchExact_form "x" b _ Hb eq_refl) as Hx.
  rewrite (proj2 (Nat.ltb_ge _ _)).
  - cbv iota. pose proof Hb as Hb'. sixteen Hb.
    do 2 (erewrite is_at_lt by reflexivity; rewrite bind_Ok; cbn [Ascii.eqb Bool.eqb]).
    erewrite is_at_lt by reflexivity. rewrite bind_Ok, nibble_eqb by done. exact Hx.
  - sixteen Hb. unfold x_text, canonical_x, component, text_N. cbn. lia.
Qed.

(** C32: Text round trip: for every Guid and each of the five forms in either case of its letter, and
    the default, [ToString] writes a text without failing that [ParseExact] of that form, [Parse] and
    [TryParse] read back as the same Guid, with any white space around it; [TryFormat] writes the same
    text into any destination that has room for it. *)
Theorem Guid_text_roundtrip g format f pre post : guid_ok g -> form_letter format = Some f ->
  In f ["n"; "d"; "b"; "p"; "x"]%char -> blank pre -> blank post ->
  exists s, GuidText.ToString_format g format = Ok s /\
    GuidText.Parse (pre ++ s ++ post) = Ok g /\ GuidText.TryParse (pre ++ s ++ post) = Ok (Some g) /\
    GuidText.ParseExact (pre ++ s ++ post) (match format with [] => ["D"%char] | _ => format end) = Ok g /\
    forall dest, (length s <= length dest)%nat -> GuidText.TryFormat g dest format =
      Ok (true, s ++ drop (length s) dest, Z.of_nat (length s)).
Proof.
  intros Hg Hf Hin Hpre Hpost. pose proof (ToStringCore_spec g format Hg) as Hs. rewrite Hf in Hs.
  assert (Hform : exists s, form_text f (Guid.bytes_ g) = Some s)
    by (destruct Hin as [<-|[<-|[<-|[<-|[<-|[]]]]]]; by eexists).
  destruct Hform as [s Es]. rewrite Es in Hs. exists s. split; [exact Hs|].
  pose proof (TryParseLoose_form f _ s pre post Hg Es Hpre Hpost) as Hl.
  destruct (printed_form _ _ _ Hg Es) as [Hp Hne].
  split; [|split; [|split]].
  - unfold GuidText.Parse. rewrite Hl, bind_Ok. by destruct g.
  - unfold GuidText.TryParse. rewrite Hl, bind_Ok. by destruct g.
  - unfold GuidText.ParseExact. rewrite Trim_padded by (done || by apply printed_trimmed).
    assert (Hd : exists c, (match format with [] => ["D"%char] | _ => format end) = [c] /\ GuidText.lowered c = f).
    { destruct format as [|c [|]]; [|injection Hf as <-; by eexists|done]. injection Hf as <-. by eexists. }
    destruct Hd as (c & -> & <-). rewrite (DispatchExact_form c _ s Hg Es), bind_Ok. by destruct g.
  - intros dest Hd. unfold GuidText.TryFormat. unfold GuidText.ToString_format in Hs. rewrite Hs, bind_Ok.
    by rewrite (proj2 (Nat.ltb_ge _ _)).
Qed.

(** C33: What the exact parsers accept: for the letters D, N, B and P exactly the texts that, in lower
    case and without the white space around them, are what [ToString] writes for the Guid returned; for
    X exactly the texts that, without any white space, are the braces and commas around eleven
    hexadecimal runs of at most eight significant digits whose values are the fields of the Guid
    returned, the second and third modulo [2^16] and the last eight within a byte.  (The comments of
    the class say that a component that overflows throws; these two are truncated instead, as the
    second text of the witness shows.) *)
Theorem Guid_ParseExact_denotes s f g :
  (plain (GuidText.lowered f) ->
     GuidText.ParseExact s [f] = Ok g <->
     guid_ok g /\ GuidText.ToString_format g [f] = Ok (map lower (GuidText.Trim s))) /\
  (GuidText.lowered f = "x"%char ->
     GuidText.ParseExact s [f] = Ok g <->
     exists x, x_ok x /\ GuidText.StripAsciiWhitespace s = x_text x /\ g = x_guid x).
Proof.
  split; intros Hf; unfold GuidText.ParseExact.
  - destruct (DispatchExact_plain f (GuidText.Trim s) Hf) as [Hsound Hcomplete]. split.
    + intros H. destruct (GuidText.DispatchExact f (GuidText.Trim s)) as [[b|?|?]| |]; try done. injection H as <-.
      destruct Hsound as [Hb E]. split; [done|]. unfold GuidText.ToString_format. rewrite ToStringCore_spec by done.
      cbn [form_letter Guid.bytes_]. by rewrite E.
    + intros [Hg E]. unfold GuidText.ToString_format in E. rewrite ToStringCore_spec in E by done. cbn [form_letter] in E.
      destruct (form_text _ _) as [t|] eqn:Et; [|done]. injection E as ->. rewrite (Hcomplete _ Hg Et), bind_Ok. by destruct g.
  - unfold GuidText.DispatchExact. rewrite Hf. cbn [Ascii.eqb Bool.eqb]. rewrite <- (Strip_Trim s). split.
    + intros H. pose proof (TryParseExactX_sound (GuidText.Trim s)) as P.
      destruct (GuidText.TryParseExactX (GuidText.Trim s)) as [[b|?|?]| |]; try done. injection H as <-.
      destruct P as (x & Hx & E & ->). exists x. split; [done|]. split; [done|]. by destruct (x_guid x).
    + intros (x & Hx & E & ->). rewrite (TryParseExactX_complete _ _ Hx E), bind_Ok. reflexivity.
Qed.

(** Parsing is safe: on every text and format, [Parse] and [ParseExact] return a Guid of sixteen
    bytes or throw [FormatException] or [OverflowException], never indexing outside the text;
    [TryParse] and [TryParseExact] answer exactly when they return; and what [Parse] returns one of the
    exact forms returns. *)
Theorem Guid_parse_safe s format :
  match GuidText.Parse s with
  | Ok g => guid_ok g /\ GuidText.TryParse s = Ok (Some g) /\
      exists f, In f ["d"; "n"; "b"; "p"; "x"]%char /\ GuidText.ParseExact s [f] = Ok g
  | Throw (FormatException _) | Throw (OverflowException _) => GuidText.TryParse s = Ok None
  | _ => False
  end /\
  match GuidText.ParseExact s format with
  | Ok g => guid_ok g /\ GuidText.TryParseExact s format = Ok (Some g)
  | Throw (FormatException _) | Throw (OverflowException _) => GuidText.TryParseExact s format = Ok None
  | _ => False
  end.
Proof.
  split.
  - unfold GuidText.Parse, GuidText.TryParse, GuidText.ParseExact.
    destruct (TryParseLoose_cases s) as [[_ ->] | (f & Hin & ->)]; [done|]. pose proof (DispatchExact_answers f (GuidText.Trim s)) as H.
    destruct (GuidText.DispatchExact f (GuidText.Trim s)) as [[b|?|?]| |] eqn:E; try done. cbn. split; [exact H|]. split; [done|].
    exists f. split; [done|]. by rewrite E.
  - unfold GuidText.ParseExact, GuidText.TryParseExact. destruct format as [|f [|]]; try done.
    pose proof (DispatchExact_answers f (GuidText.Trim s)) as H.
    by destruct (GuidText.DispatchExact f (GuidText.Trim s)) as [[b|?|?]| |].
Qed.

(** ** Witnesses *)

Lemma Guid_text_roundtrip_witness :
  GuidText.Parse (str " {0xd85b1407,0x351d,0x4694,{0x93,0x92,0x03,0xac,0xc5,0x87,0x0e,0xb1}}") = Ok (Guid.mk sample_bytes).
Proof.
  destruct (Guid_text_roundtrip (Guid.mk sample_bytes) ["X"%char] "x" [" "%char] [] sample_sixteen eq_refl) as (s & Hs & Hp & _).
  - cbn. tauto.
  - by constructor.
  - constructor.
  - assert (E : GuidText.ToString_format (Guid.mk sample_bytes) ["X"%char] =
      Ok (str "{0xd85b1407,0x351d,0x4694,{0x93,0x92,0x03,0xac,0xc5,0x87,0x0e,0xb1}}")) by (vm_compute; reflexivity).
    rewrite E in Hs. injection Hs as <-. exact Hp.
Defined.

Lemma Guid_ParseExact_denotes_witness : (exists g,
  GuidText.ParseExact (str "(D85B1407-351d-4694-9392-03ACC5870eb1)") ["P"%char] = Ok g /\ g = Guid.mk sample_bytes)
  /\ exists x, x_ok x /\ x_guid x = Guid.mk ([0; 0; 0; 0; 255; 255] ++ replicate 10 0)
      /\ GuidText.StripAsciiWhitespace (str "{0x0, 0x1ffff, 0x0, {0x0,0x0,0x0,0x0,0x0,0x0,0x0,0x0}}") = x_text x.
Proof.
  split.
  - exists (Guid.mk sample_bytes). split; [|reflexivity].
    apply (proj1 (Guid_ParseExact_denotes (str "(D85B1407-351d-4694-9392-03ACC5870eb1)") "P" (Guid.mk sample_bytes))).
    + right. right. by right.
    + split; [exact sample_sixteen|]. vm_compute. reflexivity.
  - destruct (proj1 (proj2 (Guid_ParseExact_denotes (str "{0x0, 0x1ffff, 0x0, {0x0,0x0,0x0,0x0,0x0,0x0,0x0,0x0}}") "x"
      (Guid.mk ([0; 0; 0; 0; 255; 255] ++ replicate 10 0))) eq_refl) ltac:(vm_compute; reflexivity)) as (x & Hx & E & Eg).
    exists x. split; [exact Hx|]. split; [symmetry; exact Eg|exact E].
Defined.
