(* ===== verification/Utf8.v ===== *)
(** * UTF-8: the scalar decoders and the encoder

    [core/include/System/detail/Utf8Scalar.hpp], the decoder in its reporting and
    its substituting form and the encoder, and [Utf8Text.hpp], the core module's
    second decoder with its white-space classification.  A text is the list of its
    bytes; an index outside it is undefined.  The two decoders are shown to accept
    exactly the encodings of Unicode scalar values and to agree. *)

From S2P Require Export MachineInt.

#[local] Coercion Z.of_nat : nat >-> Z.

(** ** Utf8Scalar.hpp *)

Module Utf8.

Definition isContinuation (b : Z) : bool := Z.land b 0xC0 =? 0x80.

(** [isContinuation(s[i]) && ... && isContinuation(s[i + n - 1])]: a byte is read
    only when those before it are continuation bytes. *)
Fixpoint continuations (s : list Z) (i : Z) (n : nat) : res bool :=
  match n with
  | O => Ok true
  | S n => b <- get s i ;; if isContinuation b then continuations s (i + 1) n else Ok false
  end.

(** The condition of the branch for a sequence with [n] continuation bytes. *)
Definition leads (s : list Z) (size i c0 mask tag : Z) (n : nat) : res bool :=
  if (Z.land c0 mask =? tag) && (i + n <? size) then continuations s (i + 1) n else Ok false.

(** [s[i] & 0x3F] *)
Definition low6 (s : list Z) (i : Z) : res Z := b <- get s i ;; Ok (Z.land b 0x3F).

(** The checks on the value of a structurally valid sequence: overlong, not a
    scalar, or the answer.  The first component is the code point the call stores,
    the second its length. *)
Definition judge (cp len minimum : Z) : option Z * Z :=
  if cp <? minimum then (None, 1)
  else if (cp >? 0x10FFFF) || ((cp >=? 0xD800) && (cp <=? 0xDFFF)) then (None, len)
  else (Some cp, len).

Definition TryDecodeUtf8Scalar (s : list Z) (size i : Z) : res (option Z * Z) :=
  c0 <- get s i ;;
  if c0 <? 0x80 then Ok (judge c0 1 0)
  else
    two <- leads s size i c0 0xE0 0xC0 1 ;;
    if two then
      x <- low6 s (i + 1) ;;
      Ok (judge (Z.lor (Z.shiftl (Z.land c0 0x1F) 6) x) 2 0x80)
    else
      three <- leads s size i c0 0xF0 0xE0 2 ;;
      if three then
        x <- low6 s (i + 1) ;; y <- low6 s (i + 2) ;;
        Ok (judge (Z.lor (Z.lor (Z.shiftl (Z.land c0 0x0F) 12) (Z.shiftl x 6)) y) 3 0x800)
      else
        four <- leads s size i c0 0xF8 0xF0 3 ;;
        if four then
          x <- low6 s (i + 1) ;; y <- low6 s (i + 2) ;; z <- low6 s (i + 3) ;;
          Ok (judge (Z.lor (Z.lor (Z.lor (Z.shiftl (Z.land c0 0x07) 18) (Z.shiftl x 12))
                                  (Z.shiftl y 6)) z) 4 0x10000)
        else Ok (None, 1).

(** The substituting form: the code point and the length. *)
Definition DecodeUtf8Scalar (s : list Z) (i : Z) : res (Z * Z) :=
  r <- TryDecodeUtf8Scalar s (length s) i ;;
  match r with
  | (Some cp, len) => Ok (cp, len)
  | (None, _) => Ok (0xFFFD, 1)
  end.

(** What AppendUtf8Scalar appends. *)
Definition AppendUtf8Scalar (cp : Z) : list Z :=
  if cp <? 0x80 then [u8 cp]
  else if cp <? 0x800 then
    [u8 (Z.lor 0xC0 (Z.shiftr cp 6)); u8 (Z.lor 0x80 (Z.land cp 0x3F))]
  else if cp <? 0x10000 then
    [u8 (Z.lor 0xE0 (Z.shiftr cp 12)); u8 (Z.lor 0x80 (Z.land (Z.shiftr cp 6) 0x3F));
     u8 (Z.lor 0x80 (Z.land cp 0x3F))]
  else
    [u8 (Z.lor 0xF0 (Z.shiftr cp 18)); u8 (Z.lor 0x80 (Z.land (Z.shiftr cp 12) 0x3F));
     u8 (Z.lor 0x80 (Z.land (Z.shiftr cp 6) 0x3F)); u8 (Z.lor 0x80 (Z.land cp 0x3F))].

(** ** Utf8Text.hpp *)

Record Utf8Decoded := decoded { scalar : Z; length_ : Z; valid : bool }.

(** The loop over the continuation bytes. *)
Fixpoint accumulate (data : list Z) (i : Z) (n : nat) (scalar : Z) : res (option Z) :=
  match n with
  | O => Ok (Some scalar)
  | S n =>
      b <- get data i ;;
      if negb (Z.land b 0xC0 =? 0x80) then Ok None
      else accumulate data (i + 1) n (Z.lor (ushl 32 scalar 6) (Z.land b 0x3F))
  end.

(** [data = None] is a null pointer. *)
Definition DecodeUtf8 (data : option (list Z)) (size : Z) : res Utf8Decoded :=
  match data with
  | None => Ok (decoded 0 0 false)
  | Some data =>
      if size =? 0 then Ok (decoded 0 0 false)
      else
        b0 <- get data 0 ;;
        if b0 <? 0x80 then Ok (decoded b0 1 true)
        else if b0 <? 0xC2 then Ok (decoded 0 1 false)
        else if negb (b0 <? 0xF5) then Ok (decoded 0 1 false)
        else
          let '(len, first, minimum) :=
            if b0 <? 0xE0 then (2, Z.land b0 0x1F, 0x80)
            else if b0 <? 0xF0 then (3, Z.land b0 0x0F, 0x800)
            else (4, Z.land b0 0x07, 0x10000) in
          if size <? len then Ok (decoded 0 1 false)
          else
            r <- accumulate data 1 (Z.to_nat (len - 1)) first ;;
            match r with
            | None => Ok (decoded 0 1 false)
            | Some v =>
                if v <? minimum then Ok (decoded 0 1 false)
                else if (v >=? 0xD800) && (v <=? 0xDFFF) then Ok (decoded 0 1 false)
                else if v >? 0x10FFFF then Ok (decoded 0 1 false)
                else Ok (decoded v len true)
            end
  end.

Definition IsUnicodeWhiteSpace (c : Z) : bool :=
  ((c >=? 0x0009) && (c <=? 0x000D)) || (c =? 0x0020) || (c =? 0x0085) || (c =? 0x00A0)
  || (c =? 0x1680) || ((c >=? 0x2000) && (c <=? 0x200A)) || (c =? 0x2028) || (c =? 0x2029)
  || (c =? 0x202F) || (c =? 0x205F) || (c =? 0x3000).

(** The answer and the length to advance by. *)
Definition IsUtf8WhiteSpace (data : option (list Z)) (size : Z) : res (bool * Z) :=
  d <- DecodeUtf8 data size ;;
  Ok (valid d && IsUnicodeWhiteSpace (scalar d), if length_ d =? 0 then 1 else length_ d).

End Utf8.

(** ** Scalars and their encodings *)

Definition byte (b : Z) : Prop := in_u 8 b.

(** A Unicode scalar value. *)
Definition is_scalar (cp : Z) : Prop := 0 <= cp < 0xD800 \/ 0xDFFF < cp <= 0x10FFFF.

(** RFC 3629: the encoding of a number of at most 21 bits by its digits. *)
Definition utf8 (cp : Z) : list Z :=
  if cp <? 0x80 then [cp]
  else if cp <? 0x800 then [192 + cp / 64; 128 + cp mod 64]
  else if cp <? 0x10000 then [224 + cp / 4096; 128 + cp / 64 mod 64; 128 + cp mod 64]
  else [240 + cp / 262144; 128 + cp / 4096 mod 64; 128 + cp / 64 mod 64; 128 + cp mod 64].

(** The digit of a continuation byte. *)
Definition sextet (b : Z) : option Z := if (128 <=? b) && (b <? 192) then Some (b - 128) else None.

(** The value and the length of the structurally valid sequence a text begins
    with. *)
Definition shape (w : list Z) : option (Z * Z) :=
  match w with
  | [] => None
  | c0 :: r =>
      if c0 <? 128 then Some (c0, 1)
      else if c0 <? 192 then None
      else if c0 <? 224 then
        match r with
        | b1 :: _ => option_map (fun x => ((c0 - 192) * 64 + x, 2)) (sextet b1)
        | _ => None
        end
      else if c0 <? 240 then
        match r with
        | b1 :: b2 :: _ =>
            match sextet b1, sextet b2 with
            | Some x, Some y => Some (((c0 - 224) * 64 + x) * 64 + y, 3)
            | _, _ => None
            end
        | _ => None
        end
      else if c0 <? 248 then
        match r with
        | b1 :: b2 :: b3 :: _ =>
            match sextet b1, sextet b2, sextet b3 with
            | Some x, Some y, Some z => Some ((((c0 - 240) * 64 + x) * 64 + y) * 64 + z, 4)
            | _, _, _ => None
            end
        | _ => None
        end
      else None
  end.

(** The least value that needs [n] bytes. *)
Definition least (n : Z) : Z :=
  if n =? 1 then 0 else if n =? 2 then 0x80 else if n =? 3 then 0x800 else 0x10000.

(** The reporting decoder on the bytes that remain. *)
Definition scan (w : list Z) : option Z * Z :=
  match shape w with
  | Some (v, n) => Utf8.judge v n (least n)
  | None => (None, 1)
  end.

(** The bytes a decoder may read: from [i] to the end of the range. *)
Definition window (s : list Z) (size i : Z) : list Z :=
  take (Z.to_nat (size - i)) (drop (Z.to_nat i) s).

(** ** Bytes *)

Lemma byte_all (p : Z -> bool) :
  forallb (fun n => p (Z.of_nat n)) (seq 0 256) = true -> forall b, byte b -> p b = true.
Proof.
  intros H b Hb. unfold byte in Hb. eval_pow. rewrite <- (Z2Nat.id b) by lia.
  apply (proj1 (forallb_forall _ _) H). apply in_seq. lia.
Qed.


Lemma continuation_range b : byte b -> Utf8.isContinuation b = (128 <=? b) && (b <? 192).
Proof.
  intros H. apply eqb_prop, (byte_all (fun b =>
    Bool.eqb (Utf8.isContinuation b) ((128 <=? b) && (b <? 192))) eq_refl _ H).
Qed.

Lemma lead2_range b : byte b -> (Z.land b 0xE0 =? 0xC0) = (192 <=? b) && (b <? 224).
Proof.
  intros H. apply eqb_prop, (byte_all (fun b =>
    Bool.eqb (Z.land b 0xE0 =? 0xC0) ((192 <=? b) && (b <? 224))) eq_refl _ H).
Qed.

Lemma lead3_range b : byte b -> (Z.land b 0xF0 =? 0xE0) = (224 <=? b) && (b <? 240).
Proof.
  intros H. apply eqb_prop, (byte_all (fun b =>
    Bool.eqb (Z.land b 0xF0 =? 0xE0) ((224 <=? b) && (b <? 240))) eq_refl _ H).
Qed.

Lemma lead4_range b : byte b -> (Z.land b 0xF8 =? 0xF0) = (240 <=? b) && (b <? 248).
Proof.
  intros H. apply eqb_prop, (byte_all (fun b =>
    Bool.eqb (Z.land b 0xF8 =? 0xF0) ((240 <=? b) && (b <? 248))) eq_refl _ H).
Qed.

Lemma land_3F x : Z.land x 0x3F = x mod 64.
Proof. exact (land_mask x 6 ltac:(lia)). Qed.

(** Digits put together. *)
Lemma lor_shift a n x : 0 <= n -> 0 <= x < 2 ^ n -> Z.lor (Z.shiftl a n) x = a * 2 ^ n + x.
Proof. intros. rewrite Z.lor_comm, Z.shiftl_mul_pow2, lor_high by lia. lia. Qed.

Lemma digits2 a x : 0 <= x < 64 -> Z.lor (Z.shiftl a 6) x = a * 64 + x.
Proof. intros. by rewrite lor_shift by lia. Qed.

Lemma digits3 a x y : 0 <= x < 64 -> 0 <= y < 64 ->
  Z.lor (Z.lor (Z.shiftl a 12) (Z.shiftl x 6)) y = (a * 64 + x) * 64 + y.
Proof.
  intros. replace (Z.shiftl a 12) with (Z.shiftl (Z.shiftl a 6) 6) by (rewrite Z.shiftl_shiftl; [done|lia]).
  by rewrite <- Z.shiftl_lor, !digits2.
Qed.

Lemma digits4 a x y z : 0 <= x < 64 -> 0 <= y < 64 -> 0 <= z < 64 ->
  Z.lor (Z.lor (Z.lor (Z.shiftl a 18) (Z.shiftl x 12)) (Z.shiftl y 6)) z
  = ((a * 64 + x) * 64 + y) * 64 + z.
Proof.
  intros. replace (Z.shiftl a 18) with (Z.shiftl (Z.shiftl a 12) 6) by (rewrite Z.shiftl_shiftl; [done|lia]).
  replace (Z.shiftl x 12) with (Z.shiftl (Z.shiftl x 6) 6) by (rewrite Z.shiftl_shiftl; [done|lia]).
  by rewrite <- !Z.shiftl_lor, digits3, digits2.
Qed.

(** ** The encoder *)

Lemma utf8_Append cp : 0 <= cp < 2 ^ 21 -> Utf8.AppendUtf8Scalar cp = utf8 cp.
Proof.
  intros H. unfold Utf8.AppendUtf8Scalar, utf8. rewrite !land_3F, !Z.shiftr_div_pow2 by lia.
  assert (T : forall t n q, 0 <= n -> 0 <= q < 2 ^ n -> 0 <= t -> t * 2 ^ n + q < 256 ->
              u8 (Z.lor (t * 2 ^ n) q) = t * 2 ^ n + q).
  { intros t n q Hn Hq Ht Hb. rewrite Z.lor_comm, lor_high, Z.add_comm by done. unfold u8.
    apply wrapu_id. split; [nia|]. change (2 ^ 8) with 256. lia. }
  assert (C : forall x, u8 (Z.lor 0x80 (x mod 64)) = 128 + x mod 64).
  { intros x. apply (T 2 6 (x mod 64)); [lia|apply Z.mod_pos_bound; lia|lia|].
    pose proof (Z.mod_pos_bound x 64). lia. }
  rewrite !C. repeat split_if.
  - f_equal. unfold u8. apply wrapu_id. eval_pow. lia.
  - change 0xC0 with (6 * 2 ^ 5). by rewrite (T 6 5) by zlia.
  - change 0xE0 with (14 * 2 ^ 4). by rewrite (T 14 4) by zlia.
  - change 0xF0 with (30 * 2 ^ 3). by rewrite (T 30 3) by zlia.
Qed.

Lemma scalar_21 cp : is_scalar cp -> 0 <= cp < 2 ^ 21.
Proof. unfold is_scalar. lia. Qed.

Lemma utf8_Append_scalar cp : is_scalar cp -> Utf8.AppendUtf8Scalar cp = utf8 cp.
Proof. intros H. by apply utf8_Append, scalar_21. Qed.

Lemma utf8_bytes cp : 0 <= cp < 2 ^ 21 -> Forall byte (utf8 cp).
Proof. intros H. unfold utf8, byte. repeat split_if; repeat constructor; zlia. Qed.

Lemma utf8_length cp : (1 <= length (utf8 cp) <= 4)%nat.
Proof. unfold utf8. repeat split_if; cbn; lia. Qed.

(** ** The structure of a sequence *)

Lemma sextet_Some b x : sextet b = Some x <-> 128 <= b < 192 /\ b = 128 + x.
Proof.
  unfold sextet. split_if; split; intros H'; try done.
  - injection H' as <-. lia.
  - f_equal. lia.
  - lia.
  - lia.
Qed.

Lemma sextet_digit x : 0 <= x < 64 -> sextet (128 + x) = Some x.
Proof. intros. apply sextet_Some. lia. Qed.

(** The structurally valid sequences are the encodings of the numbers that need
    their length, and the overlong forms. *)
Lemma shape_utf8 cp tail : 0 <= cp < 2 ^ 21 ->
  shape (utf8 cp ++ tail) = Some (cp, length (utf8 cp) : Z).
Proof.
  intros H. unfold utf8. repeat split_if; cbn [app shape length].
  - decide_cmp. done.
  - rewrite sextet_digit by zlia.
    assert (2 <= cp / 64 < 32) by zlia. decide_cmp. cbn [option_map].
    apply f_equal, f_equal2; [zlia|done].
  - rewrite !sextet_digit by zlia.
    assert (0 <= cp / 4096 < 16) by zlia. decide_cmp. apply f_equal, f_equal2; [zlia|done].
  - rewrite !sextet_digit by zlia.
    assert (0 <= cp / 262144 < 8) by zlia. decide_cmp. apply f_equal, f_equal2; [zlia|done].
Qed.

Lemma utf8_digits2 a x : 0 <= x < 64 -> 0x80 <= a * 64 + x < 0x800 ->
  utf8 (a * 64 + x) = [192 + a; 128 + x].
Proof. intros. unfold utf8. decide_cmp. repeat f_equal; zlia. Qed.

Lemma utf8_digits3 a x y : 0 <= x < 64 -> 0 <= y < 64 ->
  0x800 <= (a * 64 + x) * 64 + y < 0x10000 ->
  utf8 ((a * 64 + x) * 64 + y) = [224 + a; 128 + x; 128 + y].
Proof. intros. unfold utf8. decide_cmp. repeat f_equal; zlia. Qed.

Lemma utf8_digits4 a x y z : 0 <= x < 64 -> 0 <= y < 64 -> 0 <= z < 64 ->
  0x10000 <= ((a * 64 + x) * 64 + y) * 64 + z ->
  utf8 (((a * 64 + x) * 64 + y) * 64 + z) = [240 + a; 128 + x; 128 + y; 128 + z].
Proof. intros. unfold utf8. decide_cmp. repeat f_equal; zlia. Qed.

Lemma shape_sound w v n : shape w = Some (v, n) -> Forall byte w ->
  0 <= v < 2 ^ 21 /\ 1 <= n <= 4 /\ n <= length w
  /\ (least n <= v -> utf8 v `prefix_of` w /\ n = length (utf8 v)).
Proof.
  destruct w as [|c0 r]; [done|]. intros Hs Hw. apply Forall_cons in Hw as [H0 Hr].
  unfold byte in H0. eval_pow. cbn [shape] in Hs. revert Hs. repeat split_if; try done.
  - intros [= <- <-]. cbn [length]. split; [lia|]. split; [lia|]. split; [lia|]. intros _.
    unfold utf8. decide_cmp. split; [|done]. by apply prefix_cons, prefix_nil.
  - destruct r as [|b1 r]; [done|]. destruct (sextet b1) as [x|] eqn:S1; [|done].
    apply sextet_Some in S1 as [? ->]. intros [= <- <-]. cbn [length]. split; [lia|]. split; [lia|].
    split; [lia|]. cbn. intros Hl. rewrite utf8_digits2 by lia.
    replace (192 + (c0 - 192)) with c0 by lia. split; [|done]. by exists r.
  - destruct r as [|b1 [|b2 r]]; [done|done|]. destruct (sextet b1) as [x|] eqn:S1; [|done].
    destruct (sextet b2) as [y|] eqn:S2; [|done].
    apply sextet_Some in S1 as [? ->]. apply sextet_Some in S2 as [? ->].
    intros [= <- <-]. cbn [length]. split; [lia|]. split; [lia|].
    split; [lia|]. cbn. intros Hl. rewrite utf8_digits3 by lia.
    replace (224 + (c0 - 224)) with c0 by lia. split; [|done]. by exists r.
  - destruct r as [|b1 [|b2 [|b3 r]]]; [done|done|done|]. destruct (sextet b1) as [x|] eqn:S1; [|done].
    destruct (sextet b2) as [y|] eqn:S2; [|done]. destruct (sextet b3) as [z|] eqn:S3; [|done].
    apply sextet_Some in S1 as [? ->]. apply sextet_Some in S2 as [? ->].
    apply sextet_Some in S3 as [? ->].
    intros [= <- <-]. cbn [length]. split; [lia|]. split; [lia|].
    split; [lia|]. cbn. intros Hl. rewrite utf8_digits4 by lia.
    replace (240 + (c0 - 240)) with c0 by lia. split; [|done]. by exists r.
Qed.

Lemma least_utf8 cp : 0 <= cp < 2 ^ 21 -> least (length (utf8 cp)) <= cp.
Proof. intros H. unfold utf8. repeat split_if; cbn [length]; unfold least; decide_cmp; lia. Qed.

(** ** The reporting decoder on the remaining bytes *)

Lemma judge_Some cp n m v k : Utf8.judge cp n m = (Some v, k) -> v = cp /\ k = n /\ m <= cp /\ (0 <= cp -> is_scalar cp).
Proof.
  unfold Utf8.judge. repeat split_if; intros Hj; try done; injection Hj as <- <-; unfold is_scalar; lia.
Qed.

Lemma judge_scalar cp n m : is_scalar cp -> m <= cp -> Utf8.judge cp n m = (Some cp, n).
Proof. unfold is_scalar, Utf8.judge. intros H Hm. repeat split_if; try done; lia. Qed.

(** A scalar is answered exactly when its encoding comes next. *)
Lemma scan_Some w cp : Forall byte w ->
  fst (scan w) = Some cp <-> is_scalar cp /\ utf8 cp `prefix_of` w.
Proof.
  intros Hw. unfold scan. split.
  - destruct (shape w) as [[v n]|] eqn:E; [|done]. destruct (Utf8.judge v n (least n)) as [o k] eqn:J.
    cbn [fst]. intros ->. apply judge_Some in J as (-> & -> & Hl & Hs).
    apply shape_sound in E as (Hv & _ & _ & Hp); [|done]. split; [apply Hs; lia|]. by apply Hp.
  - intros [Hs [tail ->]]. pose proof (scalar_21 _ Hs) as Hr.
    rewrite shape_utf8 by done. by rewrite judge_scalar by (try apply least_utf8; done).
Qed.

Lemma scan_length w : Forall byte w -> w <> [] -> 1 <= snd (scan w) <= 4 /\ snd (scan w) <= length w.
Proof.
  intros Hw Hne. unfold scan. destruct (shape w) as [[v n]|] eqn:E.
  - apply shape_sound in E as (_ & Hn & Hl & _); [|done]. unfold Utf8.judge.
    repeat split_if; cbn [snd]; lia.
  - destruct w; [done|]. cbn. lia.
Qed.

Lemma scan_Some_length w cp : Forall byte w -> fst (scan w) = Some cp ->
  snd (scan w) = length (utf8 cp).
Proof.
  intros Hw H. apply scan_Some in H as [Hs [tail ->]]; [|done]. unfold scan.
  rewrite shape_utf8 by by apply scalar_21.
  by rewrite judge_scalar by (try apply least_utf8, scalar_21; done).
Qed.

(** More than one byte is skipped only over the encoding of a number that is not
    a scalar. *)
Lemma scan_None_length w : Forall byte w -> fst (scan w) = None -> snd (scan w) <> 1 ->
  exists v, ~ is_scalar v /\ 0 <= v < 2 ^ 21 /\ utf8 v `prefix_of` w /\ snd (scan w) = length (utf8 v).
Proof.
  intros Hw. unfold scan. destruct (shape w) as [[v n]|] eqn:E; [|done].
  apply shape_sound in E as (Hv & Hn & Hl & Hp); [|done].
  unfold Utf8.judge. repeat split_if; cbn [fst snd]; try done; intros _ _; exists v;
    (split; [unfold is_scalar; lia|]); (split; [lia|]); apply Hp; lia.
Qed.

(** ** Reading through the window *)

Lemma window_cons s size i : 0 <= i < size -> size <= length s ->
  exists b, s !! Z.to_nat i = Some b /\ window s size i = b :: window s size (i + 1).
Proof.
  intros Hi Hs. destruct (lookup_lt_is_Some_2 s (Z.to_nat i)) as [b Hb]; [lia|]. exists b. split; [done|].
  unfold window. rewrite (drop_S _ _ _ Hb).
  replace (Z.to_nat (size - i)) with (S (Z.to_nat (size - (i + 1)))) by lia. cbn [take]. do 3 f_equal. lia.
Qed.

Lemma window_nil s size i : size <= i -> window s size i = [].
Proof. intros. unfold window. by replace (Z.to_nat (size - i)) with 0%nat by lia. Qed.

Lemma window_length s size i : 0 <= i -> size <= length s -> length (window s size i) = Z.to_nat (size - i).
Proof. intros. unfold window. rewrite length_take, length_drop. lia. Qed.

Lemma window_bytes s size i : Forall byte s -> Forall byte (window s size i).
Proof. intros H. by apply Forall_take, Forall_drop. Qed.

Lemma window_get s size i b r : 0 <= i -> size <= length s -> window s size i = b :: r ->
  get s i = Ok b /\ i < size /\ window s size (i + 1) = r.
Proof.
  intros Hi Hs Hw. destruct (Z.lt_ge_cases i size) as [H|H]; [|by rewrite window_nil in Hw].
  destruct (window_cons s size i ltac:(lia) Hs) as (b' & Hb & E). rewrite E in Hw. injection Hw as -> ->.
  split; [by apply get_Ok|]. done.
Qed.

Lemma continuations_window s size (n : nat) : forall i, 0 <= i -> i + n <= size -> size <= length s -> Forall byte s ->
  Utf8.continuations s i n = Ok (forallb (fun b => (128 <=? b) && (b <? 192)) (take n (window s size i))).
Proof.
  induction n as [|n IH]; intros i Hi Hn Hs Hb; [done|]. cbn [Utf8.continuations].
  destruct (window_cons s size i ltac:(lia) Hs) as (b & Hg & E).
  rewrite (get_Ok _ _ b) by done. rewrite bind_Ok, E. cbn [take forallb].
  rewrite continuation_range by (eapply Forall_lookup_1; done).
  destruct ((128 <=? b) && (b <? 192)); [|done]. cbn [andb]. apply IH; lia || done.
Qed.

Lemma leads_window s size i c0 mask tag (n : nat) : 0 <= i -> size <= length s -> Forall byte s ->
  Utf8.leads s size i c0 mask tag n = Ok ((Z.land c0 mask =? tag) && (i + n <? size) &&
    forallb (fun b => (128 <=? b) && (b <? 192)) (take n (window s size (i + 1)))).
Proof.
  intros Hi Hs Hb. unfold Utf8.leads. split_if.
  - rewrite (continuations_window s size) by lia || done. by decide_cmp.
  - destruct (Z.land c0 mask =? tag); [|done]. by decide_cmp.
  - by destruct (Z.land c0 mask =? tag); decide_cmp.
Qed.

Lemma window_lookup s size i (k : nat) b : 0 <= i -> window s size i !! k = Some b -> get s (i + k) = Ok b.
Proof.
  unfold window. intros Hi H. apply lookup_take_Some in H as [H _]. rewrite lookup_drop in H.
  apply get_Ok; [lia|]. by replace (Z.to_nat (i + k)) with (Z.to_nat i + k)%nat by lia.
Qed.

Lemma low6_window s size i (k : nat) b : 0 <= i -> window s size i !! k = Some b ->
  Utf8.low6 s (i + k) = Ok (b mod 64).
Proof. intros Hi H. unfold Utf8.low6. by rewrite (window_lookup s size i k b), bind_Ok, land_3F. Qed.

Lemma sextet_continuation b : sextet b = if (128 <=? b) && (b <? 192) then Some (b mod 64) else None.
Proof.
  unfold sextet. destruct (_ && _) eqn:E; [|done]. bool_to_prop. f_equal. zlia.
Qed.

(** The reporting decoder reads the range it is given and no more, and answers
    [scan] of it. *)
Lemma TryDecode_scan s size i : Forall byte s -> 0 <= i < size -> size <= length s ->
  Utf8.TryDecodeUtf8Scalar s size i = Ok (scan (window s size i)).
Proof.
  intros Hb Hi Hs. destruct (window_cons s size i Hi Hs) as (c0 & Hg & W).
  pose proof (window_length s size i ltac:(lia) Hs) as L. rewrite W in L. cbn [length] in L.
  assert (B0 : byte c0) by (eapply Forall_lookup_1; done).
  unfold Utf8.TryDecodeUtf8Scalar. rewrite (get_Ok _ _ c0), bind_Ok by (lia || done).
  rewrite !(leads_window s size) by (lia || done). rewrite lead2_range, lead3_range, lead4_range by done.
  assert (R : forall k b, (c0 :: window s size (i + 1)) !! k = Some b -> Utf8.low6 s (i + Z.of_nat k) = Ok (b mod 64)).
  { intros k b H. rewrite <- W in H. eapply low6_window; [lia|exact H]. }
  pose proof (R 1%nat) as R1. pose proof (R 2%nat) as R2. pose proof (R 3%nat) as R3. clear R.
  change (Z.of_nat 1) with 1 in R1. change (Z.of_nat 2) with 2 in R2. change (Z.of_nat 3) with 3 in R3.
  rewrite W. set (r := window s size (i + 1)) in *. clearbody r. clear W.
  unfold scan. cbn [shape]. unfold byte in B0. eval_pow.
  assert (F : forall n, (i + n <? size) = (n <=? Z.of_nat (length r))).
  { intros n. destruct (n <=? Z.of_nat (length r)) eqn:E; bool_to_prop; [apply Z.ltb_lt|apply Z.ltb_ge]; lia. }
  rewrite !F. clear F L Hg Hi.
  split_if; [by decide_cmp|]. split_if; [by decide_cmp|].
  split_if; [|split_if; [|split_if]]; decide_cmp.
  - destruct r as [|b1 r]; [done|]. change (1%nat <=? length (b1 :: r)) with (1 <=? Z.of_nat (S (length r))).
    decide_cmp. cbn [take forallb]. rewrite andb_true_r, sextet_continuation. destruct (_ && _); [|done].
    rewrite (R1 b1), bind_Ok, digits2 by (done || apply Z.mod_pos_bound; lia).
    change 0x1F with (2 ^ 5 - 1); rewrite land_mask by lia. cbn [option_map]. unfold least. decide_cmp. do 3 f_equal. zlia.
  - destruct r as [|b1 [|b2 r]]; [done|done|]. 
    change (2%nat <=? length (b1 :: b2 :: r)) with (2 <=? Z.of_nat (S (S (length r)))).
    decide_cmp. cbn [take forallb]. rewrite andb_true_r, !sextet_continuation.
    destruct (_ && (b1 <? _)); [|done]. destruct (_ && (b2 <? _)); [|done]. cbn [andb].
    rewrite (R1 b1), bind_Ok, (R2 b2), bind_Ok, digits3 by (done || apply Z.mod_pos_bound; lia).
    change 0x0F with (2 ^ 4 - 1); rewrite land_mask by lia. unfold least. decide_cmp. do 3 f_equal. zlia.
  - destruct r as [|b1 [|b2 [|b3 r]]]; [done|done|done|]. 
    change (3%nat <=? length (b1 :: b2 :: b3 :: r)) with (3 <=? Z.of_nat (S (S (S (length r))))).
    decide_cmp. cbn [take forallb]. rewrite andb_true_r, !sextet_continuation.
    destruct (_ && (b1 <? _)); [|done]. destruct (_ && (b2 <? _)); [|done].
    destruct (_ && (b3 <? _)); [|done]. cbn [andb].
    rewrite (R1 b1), bind_Ok, (R2 b2), bind_Ok, (R3 b3), bind_Ok, digits4
      by (done || apply Z.mod_pos_bound; lia).
    change 0x07 with (2 ^ 3 - 1); rewrite land_mask by lia. unfold least. decide_cmp. do 3 f_equal. zlia.
  - done.
Qed.

(** ** The second decoder *)

(** The digits of a run of continuation bytes. *)
Fixpoint digits (l : list Z) (v : Z) : option Z :=
  match l with
  | [] => Some v
  | b :: l => match sextet b with Some x => digits l (v * 64 + x) | None => None end
  end.

Lemma accumulate_window data size (n : nat) : forall i v, 0 <= i -> i + n <= size -> size <= length data ->
  Forall byte data -> 0 <= v -> (v + 1) * 64 ^ n <= 2 ^ 32 ->
  Utf8.accumulate data i n v = Ok (digits (take n (window data size i)) v).
Proof.
  induction n as [|n IH]; intros i v Hi Hn Hs Hb Hv Hw; [done|]. cbn [Utf8.accumulate].
  destruct (window_cons data size i ltac:(lia) Hs) as (b & Hg & W).
  rewrite (get_Ok _ _ b), bind_Ok, W by done. cbn [take digits].
  assert (B : byte b) by (eapply Forall_lookup_1; done).
  change (Z.land b 192 =? 128) with (Utf8.isContinuation b). rewrite continuation_range, sextet_continuation by done.
  destruct (_ && _) eqn:E; [|done]. cbn [negb].
  pose proof (Z.mod_pos_bound b 64 ltac:(lia)).
  rewrite Nat2Z.inj_succ, Z.pow_succ_r in Hw by lia. pose proof (Z.pow_pos_nonneg 64 n ltac:(lia) ltac:(lia)).
  rewrite land_3F. unfold ushl. rewrite wrapu_id.
  2:{ rewrite Z.shiftl_mul_pow2 by lia. split; [lia|]. change (2 ^ 6) with 64. nia. }
  replace (v * 64) with (Z.shiftl v 6) by (rewrite Z.shiftl_mul_pow2; lia).
  rewrite lor_shift, Z.shiftl_mul_pow2 by lia. apply IH; try lia; try done. change (2 ^ 6) with 64. nia.
Qed.

(** How the second decoder reports an answer of the first: everything it refuses
    is one byte long. *)
Definition report (r : option Z * Z) : Utf8.Utf8Decoded :=
  match r with
  | (Some cp, n) => Utf8.decoded cp n true
  | (None, _) => Utf8.decoded 0 1 false
  end.

Lemma report_judge v n m :
  (if v <? m then Ok (Utf8.decoded 0 1 false)
   else if (v >=? 0xD800) && (v <=? 0xDFFF) then Ok (Utf8.decoded 0 1 false)
   else if v >? 0x10FFFF then Ok (Utf8.decoded 0 1 false)
   else Ok (Utf8.decoded v n true)) = Ok (report (Utf8.judge v n m)).
Proof.
  unfold Utf8.judge. destruct (v <? m); [done|]. by destruct (v >? 0x10FFFF), (_ && _).
Qed.

Lemma report_low v n m : v < m -> report (Utf8.judge v n m) = Utf8.decoded 0 1 false.
Proof. intros. unfold Utf8.judge. by decide_cmp. Qed.

Lemma report_high v n m : 0x10FFFF < v -> report (Utf8.judge v n m) = Utf8.decoded 0 1 false.
Proof. intros. unfold Utf8.judge. split_if; [done|]. by decide_cmp. Qed.

Lemma DecodeUtf8_scan data size : Forall byte data -> 0 < size <= length data ->
  Utf8.DecodeUtf8 (Some data) size = Ok (report (scan (window data size 0))).
Proof.
  intros Hb Hs. destruct (window_cons data size 0 ltac:(lia) ltac:(lia)) as (c0 & Hg & W).
  pose proof (window_length data size 0 ltac:(lia) ltac:(lia)) as L. rewrite W in *. cbn [length] in L.
  assert (B0 : byte c0) by (eapply Forall_lookup_1; done). unfold byte in B0. eval_pow.
  unfold Utf8.DecodeUtf8. rewrite (get_Ok _ _ c0), bind_Ok by (lia || done). change (0 + 1) with 1 in *.
  assert (A : forall (n : nat) v, 1 + n <= size -> (v + 1) * 64 ^ n <= 2 ^ 32 -> 0 <= v ->
    Utf8.accumulate data 1 n v = Ok (digits (take n (window data size 1)) v)).
  { intros. apply accumulate_window; lia || done. }
  set (r := window data size 1) in *. clearbody r. clear W. decide_cmp.
  unfold scan. cbn [shape]. split_if.
  { decide_cmp. unfold least. decide_cmp. by rewrite judge_scalar by (unfold is_scalar; lia). }
  split_if.
  { split_if; [done|]. decide_cmp. destruct r as [|b1 r]; [done|].
    destruct (sextet b1) as [x|] eqn:S1; [|done]. apply sextet_Some in S1 as [? ->].
    cbn [option_map]. unfold least. decide_cmp. by rewrite report_low by lia. }
  destruct (c0 <? 245) eqn:E5; bool_to_prop; cbn [negb].
  2:{ decide_cmp. split_if; [|done]. destruct r as [|b1 [|b2 [|b3 r]]]; [done|done|done|].
    rewrite !sextet_continuation. repeat (destruct (_ && _); [|done]). rewrite report_high; [done|].
    pose proof (Z.mod_pos_bound b1 64). pose proof (Z.mod_pos_bound b2 64).
    pose proof (Z.mod_pos_bound b3 64). lia. }
  decide_cmp. change 0x1F with (2 ^ 5 - 1). change 0x0F with (2 ^ 4 - 1). change 0x07 with (2 ^ 3 - 1).
  rewrite !land_mask by lia. split_if; [|split_if]; decide_cmp; cbn beta iota.
  - replace (c0 mod 2 ^ 5) with (c0 - 192) by zlia.
    destruct r as [|b1 r]; cbn [length] in L; decide_cmp; [done|].
    rewrite (A 1%nat), bind_Ok by lia. cbn [take digits]. destruct (sextet b1); [|done].
    by apply report_judge.
  - replace (c0 mod 2 ^ 4) with (c0 - 224) by zlia.
    destruct r as [|b1 [|b2 r]]; cbn [length] in L; decide_cmp; [done|done|].
    rewrite (A 2%nat), bind_Ok by lia. cbn [take digits].
    destruct (sextet b1); [|done]. destruct (sextet b2); [|done]. by apply report_judge.
  - replace (c0 mod 2 ^ 3) with (c0 - 240) by zlia.
    destruct r as [|b1 [|b2 [|b3 r]]]; cbn [length] in L; decide_cmp; [done|done|done|].
    rewrite (A 3%nat), bind_Ok by lia. cbn [take digits].
    destruct (sextet b1); [|done]. destruct (sextet b2); [|done]. destruct (sextet b3); [|done].
    by apply report_judge.
Qed.

(** ** Properties *)

(** C12: the reporting decoder, on any bytes and any range of them, stays inside
    the range and answers a scalar exactly when the range goes on with the bytes
    AppendUtf8Scalar writes for it, so overlong forms, surrogates, values above
    U+10FFFF, stray and missing continuation bytes are refused.  It always
    advances: over exactly the encoding of a scalar, over the whole of a
    well-structured encoding of a number that is not one, over one byte of
    anything else. *)
Theorem Utf8_decode_exact s size i :
  Forall byte s -> 0 <= i < size -> size <= length s ->
  let rest := take (Z.to_nat (size - i)) (drop (Z.to_nat i) s) in
  exists answer n, Utf8.TryDecodeUtf8Scalar s size i = Ok (answer, n)
  /\ 1 <= n <= 4 /\ i + n <= size
  /\ (forall cp, answer = Some cp <-> is_scalar cp /\ Utf8.AppendUtf8Scalar cp `prefix_of` rest)
  /\ (forall cp, answer = Some cp -> n = length (Utf8.AppendUtf8Scalar cp))
  /\ (answer = None -> n <> 1 -> exists v, ~ is_scalar v /\ 0 <= v < 2 ^ 21
      /\ Utf8.AppendUtf8Scalar v `prefix_of` rest /\ n = length (Utf8.AppendUtf8Scalar v)).
Proof.
  intros Hb Hi Hs rest. change rest with (window s size i). clear rest.
  pose proof (window_bytes s size i Hb) as Hw. pose proof (window_length s size i ltac:(lia) Hs) as L.
  exists (fst (scan (window s size i))), (snd (scan (window s size i))).
  rewrite TryDecode_scan by done. split; [by destruct (scan _)|].
  assert (Hne : window s size i <> []) by (intros E; rewrite E in L; cbn in L; lia).
  destruct (scan_length _ Hw Hne). split; [lia|]. split; [lia|]. split; [|split].
  - intros cp. rewrite scan_Some by done. split; intros [? ?]; (split; [done|]);
      by rewrite utf8_Append_scalar in *.
  - intros cp E. rewrite (scan_Some_length _ cp) by done. apply scan_Some in E as [? _]; [|done].
    by rewrite utf8_Append_scalar.
  - intros E Hn. destruct (scan_None_length _ Hw E Hn) as (v & H1 & H2 & H3 & H4).
    exists v. by rewrite utf8_Append.
Qed.

Lemma Utf8_decode_exact_witness :
  let s := [0x61; 0xF0; 0x9F; 0x98; 0x80; 0x62] in
  exists answer n, Utf8.TryDecodeUtf8Scalar s 5 1 = Ok (answer, n) /\ 1 <= n <= 4 /\ 1 + n <= 5
  /\ (forall cp, answer = Some cp <-> is_scalar cp
        /\ Utf8.AppendUtf8Scalar cp `prefix_of` take (Z.to_nat (5 - 1)) (drop (Z.to_nat 1) s)).
Proof.
  intros s. destruct (Utf8_decode_exact s 5 1) as (a & n & H1 & H2 & H3 & H4 & _).
  - unfold s, byte. repeat constructor; by vm_compute.
  - lia.
  - cbn. lia.
  - by exists a, n.
Defined.

(** The sequences the decoders differ on by their length: a surrogate. *)
Example surrogate_lengths :
  Utf8.TryDecodeUtf8Scalar [0xED; 0xA0; 0x80] 3 0 = Ok (None, 3)
  /\ Utf8.DecodeUtf8Scalar [0xED; 0xA0; 0x80] 0 = Ok (0xFFFD, 1)
  /\ Utf8.DecodeUtf8 (Some [0xED; 0xA0; 0x80]) 3 = Ok (Utf8.decoded 0 1 false).
Proof. by vm_compute. Qed.

(** the core module's two UTF-8 decoders, written independently, agree on
    every position of every text: DecodeUtf8 reports a sequence valid exactly when
    TryDecodeUtf8Scalar decodes it, with the same scalar and length, and reports
    every other one over a single byte; so IsUtf8WhiteSpace answers true exactly
    when a white-space scalar comes next. *)
Theorem Utf8_decoders_agree s i :
  Forall byte s -> 0 <= i < length s ->
  exists answer n, Utf8.TryDecodeUtf8Scalar s (length s) i = Ok (answer, n)
  /\ Utf8.DecodeUtf8 (Some (drop (Z.to_nat i) s)) (length s - i) = Ok
       (match answer with Some cp => Utf8.decoded cp n true | None => Utf8.decoded 0 1 false end)
  /\ Utf8.DecodeUtf8Scalar s i = Ok
       (match answer with Some cp => (cp, n) | None => (0xFFFD, 1) end)
  /\ Utf8.IsUtf8WhiteSpace (Some (drop (Z.to_nat i) s)) (length s - i) = Ok
       (match answer with Some cp => (Utf8.IsUnicodeWhiteSpace cp, n) | None => (false, 1) end).
Proof.
  intros Hb Hi. pose proof (window_bytes s (length s) i Hb) as Hw.
  pose proof (window_length s (length s) i ltac:(lia) ltac:(lia)) as L.
  assert (Hne : window s (length s) i <> []) by (intros E; rewrite E in L; cbn in L; lia).
  pose proof (scan_length _ Hw Hne) as [Hn _].
  exists (fst (scan (window s (length s) i))), (snd (scan (window s (length s) i))).
  unfold Utf8.IsUtf8WhiteSpace, Utf8.DecodeUtf8Scalar.
  rewrite TryDecode_scan, DecodeUtf8_scan by (try apply Forall_drop; rewrite ?length_drop; lia || done).
  replace (window (drop (Z.to_nat i) s) (length s - i) 0) with (window s (length s) i)
    by (unfold window; by rewrite drop_0, Z.sub_0_r).
  rewrite !bind_Ok. destruct (scan _) as [[cp|] n]; cbn in *; [|done]. by decide_cmp.
Qed.

Lemma Utf8_decoders_agree_witness :
  let s := [0xC0; 0x80; 0xE2; 0x80; 0xA8] in
  exists answer n, Utf8.TryDecodeUtf8Scalar s 5 2 = Ok (answer, n)
  /\ Utf8.IsUtf8WhiteSpace (Some (drop (Z.to_nat 2) s)) (5 - 2) = Ok
       (match answer with Some cp => (Utf8.IsUnicodeWhiteSpace cp, n) | None => (false, 1) end).
Proof.
  intros s. destruct (Utf8_decoders_agree s 2) as (a & n & H1 & H2 & H3 & H4).
  - unfold s, byte. repeat constructor; by vm_compute.
  - cbn. lia.
  - by exists a, n.
Defined.
