(* ===== verification/Rune.v ===== *)
(** * Runes and their enumeration

    [text/include/System/Text/Rune.hpp], [RunePosition.hpp] and
    [StringRuneEnumerator.hpp] (with [StringBuilderRuneEnumerator.hpp], the same
    enumerator over a snapshot): a Unicode scalar value, and the enumerators that
    walk a UTF-8 text one symbol at a time and put U+FFFD for what is not one.
    Casing and categories come from a generated table and are left out. *)

From S2P Require Export Utf8 Guards.

#[local] Coercion Z.of_nat : nat >-> Z.

Module Rune.

(** [value_] *)
Definition Rune := Z.

Definition IsSurrogate (v : Z) : bool := (v >=? 0xD800) && (v <=? 0xDFFF).
Definition IsValidCodePoint (v : Z) : bool := (v <=? 0x10FFFF) && negb (IsSurrogate v).
Definition IsValid (value : Z) : bool := IsValidCodePoint value.

Definition ReplacementChar : Rune := 0xFFFD.
Definition default : Rune := 0.

Definition of_uint32 (value : Z) : res Rune :=
  _ <- throw_if (negb (IsValidCodePoint value))
         (ArgumentOutOfRangeException "value" "Invalid Unicode scalar value.") ;;
  Ok value.

(** [Rune(char c)]: the byte of [c]. *)
Definition of_char (c : Z) : res Rune := of_uint32 (u8 c).

Definition getUtf16SequenceLength (r : Rune) : Z := if r >=? 0x10000 then 2 else 1.
Definition getUtf8SequenceLength (r : Rune) : Z :=
  if r <? 0x80 then 1 else if r <? 0x800 then 2 else if r <? 0x10000 then 3 else 4.
Definition getIsAscii (r : Rune) : bool := r <? 0x80.
Definition getIsBmp (r : Rune) : bool := r <? 0x10000.

(** The rune it stores, if it returns true, and the bytes it consumes. *)
Definition TryGetRuneAt (value : list Z) (index : Z) : res (option Rune * Z) :=
  if index >=? length value then Ok (None, 0)
  else
    r <- Utf8.TryDecodeUtf8Scalar value (length value) index ;;
    match r with
    | (None, bytesConsumed) => Ok (None, bytesConsumed)
    | (Some cp, bytesConsumed) => result <- of_uint32 cp ;; Ok (Some result, bytesConsumed)
    end.

Definition whiteSpace : list Z :=
  [0x9; 0xA; 0xB; 0xC; 0xD; 0x20; 0x85; 0xA0; 0x1680;
   0x2000; 0x2001; 0x2002; 0x2003; 0x2004; 0x2005; 0x2006; 0x2007; 0x2008; 0x2009;
   0x200A; 0x2028; 0x2029; 0x202F; 0x205F; 0x3000].

Definition IsWhiteSpace (r : Rune) : bool := existsb (fun w => r =? w) whiteSpace.

Definition ToString (r : Rune) : list Z := Utf8.AppendUtf8Scalar r.

(** ** StringRuneEnumerator *)

Record StringRuneEnumerator := enumerator {
  string_ : list Z;
  current_ : Rune;
  nextIndex_ : Z;
  hasCurrent_ : bool
}.

Definition EnumerateRunes (value : list Z) : StringRuneEnumerator := enumerator value default 0 false.

Definition getCurrent (e : StringRuneEnumerator) : Rune := current_ e.

Definition MoveNext (e : StringRuneEnumerator) : res (bool * StringRuneEnumerator) :=
  if nextIndex_ e >=? length (string_ e) then
    Ok (false, enumerator (string_ e) default (nextIndex_ e) (hasCurrent_ e))
  else
    r <- TryGetRuneAt (string_ e) (nextIndex_ e) ;;
    let '(rune, consumed) := r in
    let '(current, consumed) :=
      match rune with
      | Some rune => (rune, consumed)
      | None => (ReplacementChar, if consumed =? 0 then 1 else consumed)
      end in
    Ok (true, enumerator (string_ e) current (nextIndex_ e + consumed) (hasCurrent_ e)).

Definition Reset (e : StringRuneEnumerator) : StringRuneEnumerator := enumerator (string_ e) default 0 false.

(** [begin()] and [++]: a range-based for. *)
Definition advance (e : StringRuneEnumerator) : res StringRuneEnumerator :=
  r <- MoveNext e ;;
  let '(moved, e) := r in Ok (enumerator (string_ e) (current_ e) (nextIndex_ e) moved).

(** The body of a range-based for that collects the runes. *)
Fixpoint collect (fuel : nat) (e : StringRuneEnumerator) : res (list Rune) :=
  if hasCurrent_ e then
    match fuel with
    | O => UB
    | S fuel => e' <- advance e ;; rest <- collect fuel e' ;; Ok (getCurrent e :: rest)
    end
  else Ok [].

(** ** RunePosition *)

Record RunePosition := position_ { rune_ : Rune; startIndex_ : Z; length_ : Z; wasReplaced_ : bool }.

Definition RunePosition_of (rune : Rune) (startIndex length : Z) (wasReplaced : bool) : res RunePosition :=
  _ <- ThrowIfNegative startIndex "startIndex" ;;
  _ <- ThrowIfNegative length "length" ;;
  Ok (position_ rune startIndex length wasReplaced).

Definition Equals (a b : RunePosition) : bool :=
  (rune_ a =? rune_ b) && (startIndex_ a =? startIndex_ b) && (length_ a =? length_ b)
  && Bool.eqb (wasReplaced_ a) (wasReplaced_ b).

Record Enumerator := mk {
  data_ : list Z;
  next_ : Z;
  currentRune_ : Rune;
  currentStart_ : Z;
  currentLength_ : Z;
  currentWasReplaced_ : bool;
  has_ : bool
}.

Definition Enumerate (data : list Z) : Enumerator := mk data 0 default 0 0 false false.

Definition getCurrentPosition (e : Enumerator) : res RunePosition :=
  RunePosition_of (currentRune_ e) (currentStart_ e) (currentLength_ e) (currentWasReplaced_ e).

Definition MoveNextPosition (e : Enumerator) : res (bool * Enumerator) :=
  if next_ e >=? length (data_ e) then
    Ok (false, mk (data_ e) (next_ e) default 0 0 false (has_ e))
  else
    let start := i32 (next_ e) in
    r <- TryGetRuneAt (data_ e) (next_ e) ;;
    let '(rune, consumed) := r in
    let '(ok, current, consumed) :=
      match rune with
      | Some rune => (true, rune, consumed)
      | None => (false, ReplacementChar, if consumed =? 0 then 1 else consumed)
      end in
    Ok (true, mk (data_ e) (next_ e + consumed) current start (i32 consumed) (negb ok) (has_ e)).

Definition ResetPosition (e : Enumerator) : Enumerator := mk (data_ e) 0 default 0 0 false false.

Definition advancePosition (e : Enumerator) : res Enumerator :=
  r <- MoveNextPosition e ;;
  let '(moved, e) := r in
  Ok (mk (data_ e) (next_ e) (currentRune_ e) (currentStart_ e) (currentLength_ e) (currentWasReplaced_ e) moved).

Fixpoint collectPositions (fuel : nat) (e : Enumerator) : res (list RunePosition) :=
  if has_ e then
    match fuel with
    | O => UB
    | S fuel =>
        p <- getCurrentPosition e ;;
        e' <- advancePosition e ;; rest <- collectPositions fuel e' ;; Ok (p :: rest)
    end
  else Ok [].

End Rune.

(** ** Runes *)

Lemma IsValid_scalar v : 0 <= v -> Rune.IsValid v = true <-> is_scalar v.
Proof.
  intros H. unfold Rune.IsValid, Rune.IsValidCodePoint, Rune.IsSurrogate, is_scalar. split; intros Hv.
  - bool_to_prop; lia.
  - decide_cmp. destruct (v <? 0xD800) eqn:E; bool_to_prop; decide_cmp; done.
Qed.

Lemma of_uint32_scalar v : is_scalar v -> Rune.of_uint32 v = Ok v.
Proof.
  intros H. unfold Rune.of_uint32. change (Rune.IsValidCodePoint v) with (Rune.IsValid v).
  rewrite (proj2 (IsValid_scalar v ltac:(unfold is_scalar in H; lia)) H). done.
Qed.

(** At an index of the text, TryGetRuneAt is the reporting decoder. *)
Lemma TryGetRuneAt_scan s i : Forall byte s -> 0 <= i < length s ->
  Rune.TryGetRuneAt s i = Ok (scan (window s (length s) i)).
Proof.
  intros Hb Hi. unfold Rune.TryGetRuneAt. decide_cmp. rewrite TryDecode_scan, bind_Ok by lia || done.
  pose proof (scan_Some (window s (length s) i)) as Hs. destruct (scan _) as [[cp|] n]; [|done].
  destruct (proj1 (Hs cp (window_bytes _ _ _ Hb)) eq_refl) as [Hc _].
  by rewrite of_uint32_scalar.
Qed.

Lemma sequence_length r : is_scalar r ->
  Rune.getUtf8SequenceLength r = length (Rune.ToString r).
Proof.
  intros H. unfold Rune.ToString. rewrite utf8_Append_scalar by done.
  unfold Rune.getUtf8SequenceLength, utf8. by repeat split_if.
Qed.

(** The two white-space tables of the library agree. *)
Lemma IsWhiteSpace_agrees r : Rune.IsWhiteSpace r = Utf8.IsUnicodeWhiteSpace r.
Proof.
  apply eq_true_iff_eq. unfold Rune.IsWhiteSpace, Utf8.IsUnicodeWhiteSpace, Rune.whiteSpace. split.
  - cbn [existsb]. intros H. repeat (apply orb_true_iff in H as [H|H]; [apply Z.eqb_eq in H as ->; done|]). done.
  - intros H. rewrite !orb_true_iff, !andb_true_iff, !Z.geb_leb, !Z.leb_le, !Z.eqb_eq in H.
    cbn [existsb]. rewrite !orb_true_iff, !Z.eqb_eq. lia.
Qed.

(** ** Tilings *)

(** [tiling start w ps]: the symbols [ps] follow each other from the byte offset
    [start] and cover [w]; one that was not replaced is the encoding of its rune,
    a replaced one covers bytes no scalar begins with: one byte, or the whole
    encoding of a number that is not a scalar. *)
Inductive tiling : Z -> list Z -> list Rune.RunePosition -> Prop :=
  | tile_end start : tiling start [] []
  | tile_rune start cp w ps : is_scalar cp ->
      tiling (start + length (utf8 cp)) w ps ->
      tiling start (utf8 cp ++ w) (Rune.position_ cp start (length (utf8 cp)) false :: ps)
  | tile_bad start bad w ps :
      length bad = 1%nat \/ (exists v, ~ is_scalar v /\ 0 <= v < 2 ^ 21 /\ bad = utf8 v) ->
      (forall cp, is_scalar cp -> ~ utf8 cp `prefix_of` bad ++ w) ->
      tiling (start + length bad) w ps ->
      tiling start (bad ++ w) (Rune.position_ Rune.ReplacementChar start (length bad) true :: ps).

(** What an enumerator shows for an answer of the decoder. *)
Definition shown (r : option Z * Z) : Z * bool :=
  match fst r with Some cp => (cp, false) | None => (Rune.ReplacementChar, true) end.

(** The symbols of a text from an offset on; [fuel] bounds their number. *)
Fixpoint symbols (fuel : nat) (start : Z) (w : list Z) : list Rune.RunePosition :=
  match fuel, w with
  | S fuel, _ :: _ =>
      let r := scan w in
      Rune.position_ (fst (shown r)) start (snd r) (snd (shown r))
        :: symbols fuel (start + snd r) (drop (Z.to_nat (snd r)) w)
  | _, _ => []
  end.

Lemma symbols_step fuel start w : w <> [] ->
  symbols (S fuel) start w =
    Rune.position_ (fst (shown (scan w))) start (snd (scan w)) (snd (shown (scan w)))
      :: symbols fuel (start + snd (scan w)) (drop (Z.to_nat (snd (scan w))) w).
Proof. by destruct w. Qed.

Lemma symbols_tiling fuel : forall start w, Forall byte w -> (length w <= fuel)%nat ->
  tiling start w (symbols fuel start w).
Proof.
  induction fuel as [|fuel IH]; intros start w Hb Hl.
  { destruct w; [constructor|cbn in Hl; lia]. }
  destruct (decide (w = [])) as [->|Hne]; [constructor|]. rewrite symbols_step by done.
  destruct (scan_length w Hb Hne) as [Hn Hle].
  assert (IH' := IH (start + snd (scan w)) (drop (Z.to_nat (snd (scan w))) w) ltac:(by apply Forall_drop)
    ltac:(rewrite length_drop; lia)). clear IH.
  pose proof (scan_Some w) as HS. pose proof (scan_Some_length w) as HL. pose proof (scan_None_length w Hb) as HN.
  destruct (scan w) as [[cp|] n]; cbn [shown fst snd] in *.
  - destruct (proj1 (HS cp Hb) eq_refl) as [Hs [tail E]].
    rewrite (HL cp Hb eq_refl) in *. rewrite E in IH' |- *. rewrite Nat2Z.id, drop_app_length in *.
    by apply tile_rune.
  - rewrite <- (take_drop (Z.to_nat n) w) at 1. assert (Lt : length (take (Z.to_nat n) w) = Z.to_nat n)
      by (rewrite length_take; lia).
    replace (Rune.position_ Rune.ReplacementChar start n true)
      with (Rune.position_ Rune.ReplacementChar start (length (take (Z.to_nat n) w)) true) by (f_equal; lia).
    apply tile_bad.
    + destruct (decide (n = 1)) as [->|H1]; [by left|]. right.
      destruct (HN eq_refl H1) as (v & Hv & Hr & [tail E] & En). exists v. split; [done|]. split; [done|].
      rewrite E, En, Nat2Z.id. by rewrite take_app_length.
    + intros cp Hs Hp. rewrite take_drop in Hp. by specialize (proj2 (HS cp Hb) (conj Hs Hp)).
    + rewrite Lt, Z2Nat.id by lia. exact IH'.
Qed.

(** ** The enumerators show the symbols *)

Lemma window_all s : window s (length s) 0 = s.
Proof. unfold window. rewrite drop_0, Z.sub_0_r, Nat2Z.id. apply take_ge. lia. Qed.

Lemma window_advance s i n : 0 <= i -> 0 <= n -> 
  window s (length s) (i + n) = drop (Z.to_nat n) (window s (length s) i).
Proof.
  intros. unfold window. rewrite !take_ge by (rewrite length_drop; lia). rewrite drop_drop. f_equal. lia.
Qed.

Lemma window_past s i : 0 <= i -> window s (length s) i = [] <-> length s <= i.
Proof.
  intros. rewrite <- length_zero_iff_nil, window_length by lia. lia.
Qed.

(** One step of the first enumerator. *)
Lemma MoveNext_symbol e : Forall byte (Rune.string_ e) -> 0 <= Rune.nextIndex_ e < length (Rune.string_ e) ->
  let r := scan (window (Rune.string_ e) (length (Rune.string_ e)) (Rune.nextIndex_ e)) in
  Rune.MoveNext e = Ok (true,
    Rune.enumerator (Rune.string_ e) (fst (shown r)) (Rune.nextIndex_ e + snd r) (Rune.hasCurrent_ e)).
Proof.
  intros Hb Hi r. unfold Rune.MoveNext. decide_cmp. rewrite TryGetRuneAt_scan, bind_Ok by done. fold r.
  assert (Hn : 1 <= snd r <= 4).
  { apply scan_length; [by apply window_bytes|]. rewrite window_past by lia. lia. }
  destruct r as [[cp|] n]; cbn [fst snd shown] in *; [done|]. by decide_cmp.
Qed.

Lemma MoveNext_end e : length (Rune.string_ e) <= Rune.nextIndex_ e ->
  Rune.MoveNext e = Ok (false,
    Rune.enumerator (Rune.string_ e) Rune.default (Rune.nextIndex_ e) (Rune.hasCurrent_ e)).
Proof. intros. unfold Rune.MoveNext. by decide_cmp. Qed.

(** One step of the second. *)
Lemma MoveNextPosition_symbol e : Forall byte (Rune.data_ e) -> 0 <= Rune.next_ e < length (Rune.data_ e) ->
  length (Rune.data_ e) < 2 ^ 31 ->
  let r := scan (window (Rune.data_ e) (length (Rune.data_ e)) (Rune.next_ e)) in
  Rune.MoveNextPosition e = Ok (true,
    Rune.mk (Rune.data_ e) (Rune.next_ e + snd r) (fst (shown r)) (Rune.next_ e) (snd r) (snd (shown r)) (Rune.has_ e)).
Proof.
  intros Hb Hi Hl r. unfold Rune.MoveNextPosition. decide_cmp. rewrite TryGetRuneAt_scan, bind_Ok by done. fold r.
  assert (Hn : 1 <= snd r <= 4).
  { apply scan_length; [by apply window_bytes|]. rewrite window_past by lia. lia. }
  assert (C : forall z, 0 <= z < 2 ^ 31 -> i32 z = z) by (intros; apply wraps_id; unfold in_s; lia).
  destruct r as [[cp|] n]; cbn [fst snd shown negb] in *; decide_cmp; by rewrite !C by lia.
Qed.

Lemma MoveNextPosition_end e : length (Rune.data_ e) <= Rune.next_ e ->
  Rune.MoveNextPosition e = Ok (false, Rune.mk (Rune.data_ e) (Rune.next_ e) Rune.default 0 0 false (Rune.has_ e)).
Proof. intros. unfold Rune.MoveNextPosition. by decide_cmp. Qed.

Lemma symbols_nil fuel start : symbols fuel start [] = [].
Proof. by destruct fuel. Qed.

(** A loop that has just advanced to offset [i] collects the symbols from there. *)
Lemma collect_symbols fuel : forall s i c h,
  Forall byte s -> 0 <= i -> (length s - Z.to_nat i < fuel)%nat ->
  (e <- Rune.advance (Rune.enumerator s c i h) ;; Rune.collect fuel e) =
    Ok (Rune.rune_ <$> symbols fuel i (window s (length s) i)).
Proof.
  induction fuel as [|fuel IH]; intros s i c h Hb Hi Hf; [lia|]. unfold Rune.advance.
  destruct (Z.lt_ge_cases i (length s)) as [Hlt|Hge].
  - rewrite MoveNext_symbol by (cbn; lia || done). cbn [Rune.string_ Rune.nextIndex_ Rune.hasCurrent_].
    rewrite bind_Ok, bind_Ok. cbn [Rune.string_ Rune.nextIndex_ Rune.current_ Rune.collect Rune.hasCurrent_].
    rewrite symbols_step by (rewrite window_past; lia).
    destruct (scan_length (window s (length s) i)) as [Hn Hle];
      [by apply window_bytes|rewrite window_past; lia|]. rewrite window_length in Hle by lia.
    specialize (IH s (i + snd (scan (window s (length s) i))) (fst (shown (scan (window s (length s) i)))) true Hb
      ltac:(lia) ltac:(lia)).
    rewrite window_advance in IH by lia. destruct (Rune.advance _); [|discriminate|discriminate].
    rewrite bind_Ok in *. by rewrite IH.
  - rewrite MoveNext_end by (cbn; lia). cbn. by rewrite (proj2 (window_past s i Hi) Hge).
Qed.

Lemma collectPositions_symbols fuel : forall s i c st l w h,
  Forall byte s -> 0 <= i -> (length s - Z.to_nat i < fuel)%nat -> length s < 2 ^ 31 ->
  (e <- Rune.advancePosition (Rune.mk s i c st l w h) ;; Rune.collectPositions fuel e) =
    Ok (symbols fuel i (window s (length s) i)).
Proof.
  induction fuel as [|fuel IH]; intros s i c st l w h Hb Hi Hf Hs; [lia|]. unfold Rune.advancePosition.
  destruct (Z.lt_ge_cases i (length s)) as [Hlt|Hge].
  - rewrite MoveNextPosition_symbol by (cbn; lia || done). cbn [Rune.data_ Rune.next_ Rune.has_].
    rewrite bind_Ok, bind_Ok.
    cbn [Rune.data_ Rune.next_ Rune.has_ Rune.currentRune_ Rune.currentStart_ Rune.currentLength_
         Rune.currentWasReplaced_ Rune.collectPositions].
    rewrite symbols_step by (rewrite window_past; lia).
    destruct (scan_length (window s (length s) i)) as [Hn Hle];
      [by apply window_bytes|rewrite window_past; lia|]. rewrite window_length in Hle by lia.
    unfold Rune.getCurrentPosition, Rune.RunePosition_of, ThrowIfNegative.
    cbn [Rune.currentRune_ Rune.currentStart_ Rune.currentLength_ Rune.currentWasReplaced_]. decide_cmp.
    match goal with |- context [Rune.advancePosition (Rune.mk s ?j ?c ?st ?l ?w true)] =>
      specialize (IH s j c st l w true Hb ltac:(lia) ltac:(lia) Hs) end.
    rewrite window_advance in IH by lia. destruct (Rune.advancePosition _); [|discriminate|discriminate].
    rewrite bind_Ok in *. by rewrite IH.
  - rewrite MoveNextPosition_end by (cbn; lia). cbn. by rewrite (proj2 (window_past s i Hi) Hge).
Qed.

(** ** Properties *)

(** enumerating the positions of any UTF-8 text shorter than [2^31] bytes ends
    and tiles it: the symbols follow each other without gap or overlap from offset 0
    to the end; a symbol not marked as replaced is exactly the encoding of its rune,
    and one marked as replaced is U+FFFD over bytes with which no scalar begins (a
    single byte, or the whole encoding of a surrogate or of a number above U+10FFFF).
    The string and the string-builder enumerators show the same runes. *)
Theorem RunePosition_tiles data fuel :
  Forall byte data -> length data < 2 ^ 31 -> (length data < fuel)%nat ->
  exists ps, tiling 0 data ps
  /\ (e <- Rune.advancePosition (Rune.Enumerate data) ;; Rune.collectPositions fuel e) = Ok ps
  /\ (e <- Rune.advance (Rune.EnumerateRunes data) ;; Rune.collect fuel e) = Ok (Rune.rune_ <$> ps).
Proof.
  intros Hb Hl Hf. exists (symbols fuel 0 data). split; [by apply symbols_tiling; [|lia]|].
  unfold Rune.Enumerate, Rune.EnumerateRunes. 
  rewrite collectPositions_symbols, collect_symbols by lia || done. by rewrite window_all.
Qed.

Lemma RunePosition_tiles_witness :
  exists ps, tiling 0 [0x61; 0xED; 0xA0; 0x80; 0xC3; 0xA9; 0xFF] ps
  /\ (e <- Rune.advancePosition (Rune.Enumerate [0x61; 0xED; 0xA0; 0x80; 0xC3; 0xA9; 0xFF]) ;;
      Rune.collectPositions 8 e) = Ok ps.
Proof.
  destruct (RunePosition_tiles [0x61; 0xED; 0xA0; 0x80; 0xC3; 0xA9; 0xFF] 8) as (ps & H & E & _).
  - repeat constructor; by vm_compute.
  - by vm_compute.
  - cbn. lia.
  - exists ps. split; [exact H|exact E].
Defined.

Example enumerated :
  (e <- Rune.advancePosition (Rune.Enumerate [0x61; 0xED; 0xA0; 0x80; 0xC3; 0xA9; 0xFF]) ;;
   Rune.collectPositions 8 e) =
  Ok [Rune.position_ 0x61 0 1 false; Rune.position_ 0xFFFD 1 3 true;
      Rune.position_ 0xE9 4 2 false; Rune.position_ 0xFFFD 6 1 true].
Proof. by vm_compute. Qed.
