(* ===== verification/Encoding.v ===== *)
(** * Encoding: the base class, the fallbacks and the argument policy

    [text/include/System/Text/Encoding.hpp] and [src/System/Text/Encoding.cpp] (the
    object all encodings share: two fallbacks and the read-only flag),
    [DecoderFallback.hpp] and [EncoderFallback.hpp] (the two shipped strategies,
    replacing and throwing, and the buffer they are read through),
    [detail/RawDecodeRange.hpp] and [detail/FallbackDispatch.hpp].  A [char] is
    signed; a string and a byte vector are lists of bytes. *)

From S2P Require Export Utf8 Guards.

#[local] Coercion Z.of_nat : nat >-> Z.

Module Encoding.

(** ** Messages *)

Definition hex_char (d : Z) : ascii := if d <? 10 then digit_char d else chr (55 + d).

Fixpoint hex_digits (fuel : nat) (n : Z) (acc : text) : text :=
  match fuel with
  | O => acc
  | S fuel =>
      let acc := hex_char (n mod 16) :: acc in
      if n <? 16 then acc else hex_digits fuel (n / 16) acc
  end.

(** [snprintf] with [%0wX] *)
Definition printf_X (w : nat) (n : Z) : text := setw0 w (hex_digits (S (Z.to_nat (Z.log2 n))) n []).

(** [buf "[%02X]"] for the first twenty bytes. *)
Definition bytes_shown (bytesUnknown : list Z) : text :=
  concat (map (fun b => "["%char :: printf_X 2 b ++ ["]"%char]) (take 20 bytesUnknown))
  ++ (if (20 <? length bytesUnknown) then str " ..." else []).

Definition decoder_message (bytesUnknown : list Z) (index : Z) : string :=
  String.string_of_list_ascii
    (str "Unable to translate bytes " ++ bytes_shown bytesUnknown ++ str " at index " ++ to_string index
     ++ str " from the specified code page to Unicode.").

Definition encoder_message (charUnknown index : Z) : string :=
  String.string_of_list_ascii
    (str "Unable to translate Unicode character " ++ str "\u" ++ printf_X 4 charUnknown
     ++ str " at index " ++ to_string index ++ str " to specified code page.").

(** ** Fallback buffers *)

(** [fallbackString_] and [position_] of a replacement buffer, or a throwing
    buffer, which has nothing to read. *)
Inductive FallbackBuffer :=
  | ReplacementBuffer (fallbackString_ : list Z) (position_ : Z)
  | ExceptionBuffer.

Definition GetNextChar (b : FallbackBuffer) : res (Z * FallbackBuffer) :=
  match b with
  | ReplacementBuffer s p =>
      if p >=? length s then Ok (0, b) else c <- get s p ;; Ok (c, ReplacementBuffer s (p + 1))
  | ExceptionBuffer => Ok (0, b)
  end.

Definition MovePrevious (b : FallbackBuffer) : bool * FallbackBuffer :=
  match b with
  | ReplacementBuffer s p => if p =? 0 then (false, b) else (true, ReplacementBuffer s (p - 1))
  | ExceptionBuffer => (false, b)
  end.

(** [static_cast<intcs>(fallbackString_.size() - position_)] *)
Definition getRemaining (b : FallbackBuffer) : Z :=
  match b with
  | ReplacementBuffer s p => i32 (usub 64 (length s) p)
  | ExceptionBuffer => 0
  end.

Definition Reset (b : FallbackBuffer) : FallbackBuffer :=
  match b with ReplacementBuffer _ _ => ReplacementBuffer [] 0 | ExceptionBuffer => b end.

(** [while (buffer->getRemainingProperty() > 0) result.push_back(buffer->GetNextChar())];
    the bytes pushed. *)
Fixpoint drain (fuel : nat) (b : FallbackBuffer) : res (list Z) :=
  if getRemaining b >? 0 then
    match fuel with
    | O => UB
    | S fuel => r <- GetNextChar b ;; let '(c, b) := r in rest <- drain fuel b ;; Ok (c :: rest)
    end
  else Ok [].

(** ** Decoder fallbacks *)

Inductive DecoderFallback :=
  | DecoderReplacementFallback (replacement_ : list Z)
  | DecoderExceptionFallback.

Definition Decoder_CreateFallbackBuffer (f : DecoderFallback) : FallbackBuffer :=
  match f with
  | DecoderReplacementFallback r => ReplacementBuffer r 0
  | DecoderExceptionFallback => ExceptionBuffer
  end.

(** [DecoderFallbackBuffer::Fallback]: the answer and the buffer. *)
Definition Decoder_Fallback (b : FallbackBuffer) (bytesUnknown : list Z) (index : Z) : res (bool * FallbackBuffer) :=
  match b with
  | ReplacementBuffer s _ => Ok (match s with [] => false | _ => true end, ReplacementBuffer s 0)
  | ExceptionBuffer => Throw (DecoderFallbackException (decoder_message bytesUnknown index) bytesUnknown index)
  end.

(** [std::vector(p, p + n)] *)
Definition read_bytes (p : option (list Z)) (n : Z) : res (list Z) :=
  if n =? 0 then Ok []
  else
    match p with
    | Some d => if (0 <? n) && (n <=? length d) then Ok (take (Z.to_nat n) d) else UB
    | None => UB
    end.

Definition GetFallbackString (f : DecoderFallback) (bytesUnknown : option (list Z)) (byteCount : Z) : res (list Z) :=
  match f with
  | DecoderReplacementFallback r => Ok r
  | DecoderExceptionFallback =>
      _ <- throw_if (byteCount <? 0) (out_of_range "byteCount") ;;
      _ <- throw_if ((byteCount >? 0) && match bytesUnknown with None => true | _ => false end)
             (null_argument "bytesUnknown") ;;
      bytes <- read_bytes bytesUnknown byteCount ;;
      _ <- Decoder_Fallback ExceptionBuffer bytes 0 ;;
      Ok []
  end.

Definition getMaxCharCount (f : DecoderFallback) : Z :=
  match f with
  | DecoderReplacementFallback r => i32 (length r)
  | DecoderExceptionFallback => 0
  end.

(** ** Encoder fallbacks *)

Inductive EncoderFallback :=
  | EncoderReplacementFallback (replacement_ : list Z)
  | EncoderExceptionFallback.

Definition Encoder_CreateFallbackBuffer (f : EncoderFallback) : FallbackBuffer :=
  match f with
  | EncoderReplacementFallback r => ReplacementBuffer r 0
  | EncoderExceptionFallback => ExceptionBuffer
  end.

Definition Encoder_Fallback (b : FallbackBuffer) (charUnknown index : Z) : res (bool * FallbackBuffer) :=
  match b with
  | ReplacementBuffer s _ => Ok (match s with [] => false | _ => true end, ReplacementBuffer s 0)
  | ExceptionBuffer => Throw (EncoderFallbackException (encoder_message charUnknown index) charUnknown index)
  end.

Definition GetFallbackBytes (f : EncoderFallback) (unknownChar : Z) : res (list Z) :=
  match f with
  | EncoderReplacementFallback r => Ok r
  | EncoderExceptionFallback => _ <- Encoder_Fallback ExceptionBuffer unknownChar 0 ;; Ok []
  end.

Definition getMaxByteCount (f : EncoderFallback) : Z :=
  match f with
  | EncoderReplacementFallback r => i32 (length r)
  | EncoderExceptionFallback => 0
  end.

(** ["?"] *)
Definition Decoder_ReplacementFallback : DecoderFallback := DecoderReplacementFallback [63].
Definition Encoder_ReplacementFallback : EncoderFallback := EncoderReplacementFallback [63].
(** ["\xEF\xBF\xBD"], U+FFFD *)
Definition replacement_utf8 : list Z := [0xEF; 0xBF; 0xBD].

(** ** The object *)

Inductive Kind :=
  | UTF8Encoding
  | ASCIIEncoding
  | UnicodeEncoding (bigEndian_ byteOrderMark_ : bool)
  | UTF32Encoding (bigEndian_ byteOrderMark_ : bool)
  | UTF7Encoding (allowOptionals_ : bool)
  | Latin1Encoding.

Record Encoding := encoding {
  kind : Kind;
  decoderFallback_ : DecoderFallback;
  encoderFallback_ : EncoderFallback;
  isReadOnly_ : bool
}.

(** The constructors: the base class's fallbacks, or [setDefaultFallbacks()]. *)
Definition construct (k : Kind) : Encoding :=
  match k with
  | UTF8Encoding | UnicodeEncoding _ _ | UTF32Encoding _ _ =>
      encoding k (DecoderReplacementFallback replacement_utf8) (EncoderReplacementFallback replacement_utf8) false
  | _ => encoding k Decoder_ReplacementFallback Encoder_ReplacementFallback false
  end.

Definition markReadOnly (e : Encoding) : Encoding :=
  encoding (kind e) (decoderFallback_ e) (encoderFallback_ e) true.

(** The shared instances. *)
Definition UTF8 : Encoding := markReadOnly (construct UTF8Encoding).
Definition ASCII : Encoding := markReadOnly (construct ASCIIEncoding).
Definition Unicode : Encoding := markReadOnly (construct (UnicodeEncoding false false)).
Definition BigEndianUnicode : Encoding := markReadOnly (construct (UnicodeEncoding true true)).
Definition UTF32 : Encoding := markReadOnly (construct (UTF32Encoding false true)).
Definition UTF7 : Encoding := markReadOnly (construct (UTF7Encoding false)).
Definition Latin1 : Encoding := markReadOnly (construct Latin1Encoding).
Definition Default : Encoding := UTF8.

Definition throwIfReadOnly (e : Encoding) : res unit :=
  throw_if (isReadOnly_ e) (InvalidOperationException "Instance is read-only.").

(** A null pointer is [None]. *)
Definition setDecoderFallback (e : Encoding) (value : option DecoderFallback) : res Encoding :=
  _ <- throwIfReadOnly e ;;
  match value with
  | None => Throw (null_argument "value")
  | Some f => Ok (encoding (kind e) f (encoderFallback_ e) (isReadOnly_ e))
  end.

Definition setEncoderFallback (e : Encoding) (value : option EncoderFallback) : res Encoding :=
  _ <- throwIfReadOnly e ;;
  match value with
  | None => Throw (null_argument "value")
  | Some f => Ok (encoding (kind e) (decoderFallback_ e) f (isReadOnly_ e))
  end.

Definition getCodePage (e : Encoding) : Z :=
  match kind e with
  | UTF8Encoding => 65001
  | ASCIIEncoding => 20127
  | UnicodeEncoding be _ => if be then 1201 else 1200
  | UTF32Encoding be _ => if be then 12001 else 12000
  | UTF7Encoding _ => 65000
  | Latin1Encoding => 28591
  end.

Definition getIsSingleByte (e : Encoding) : bool :=
  match kind e with ASCIIEncoding | Latin1Encoding => true | _ => false end.

Definition Equals (a b : Encoding) : bool := getCodePage a =? getCodePage b.
Definition GetHashCode (e : Encoding) : Z := getCodePage e.

(** The byte-order mark an encoding declares. *)
Definition GetPreamble (e : Encoding) : list Z :=
  match kind e with
  | UnicodeEncoding be bom => if negb bom then [] else if be then [0xFE; 0xFF] else [0xFF; 0xFE]
  | UTF32Encoding be bom =>
      if negb bom then [] else if be then [0x00; 0x00; 0xFE; 0xFF] else [0xFF; 0xFE; 0x00; 0x00]
  | _ => []
  end.

(** ** The range of a raw decode *)

(** Whether there is something to decode. *)
Definition validateRawDecodeRange (data : option (list Z)) (index count : Z) : res bool :=
  _ <- throw_if (index <? 0) (out_of_range "index") ;;
  _ <- throw_if (count <? 0) (out_of_range "count") ;;
  if count =? 0 then Ok false
  else match data with None => Throw (null_argument "data") | Some _ => Ok true end.

(** [begin] and [end], as 64-bit offsets. *)
Definition checkedRawDecodeRange (data : option (list Z)) (index count : Z) : res (Z * Z) :=
  some <- validateRawDecodeRange data index count ;;
  if negb some then Ok (0, 0) else Ok (index, uadd 64 index count).

(** [data[i]] through the pointer. *)
Definition at_ (data : option (list Z)) (i : Z) : res Z :=
  match data with Some d => get d i | None => UB end.

(** [data + i] *)
Definition from (data : option (list Z)) (i : Z) : option (list Z) :=
  option_map (drop (Z.to_nat i)) data.

(** What [AppendDecoderFallback(out, *this, bytes, count)] appends. *)
Definition AppendDecoderFallback (owner : Encoding) (bytes : option (list Z)) (count : Z) : res (list Z) :=
  GetFallbackString (decoderFallback_ owner) bytes (i32 count).

Definition AppendEncoderFallback (owner : Encoding) (unencodableScalar : Z) : res (list Z) :=
  GetFallbackBytes (encoderFallback_ owner) unencodableScalar.

(** The base class's own conversions copy. *)
Definition base_GetBytes (s : list Z) : list Z := s.
Definition base_GetString (data : option (list Z)) (index count : Z) : res (list Z) :=
  range <- checkedRawDecodeRange data index count ;;
  let '(b, e) := range in
  if negb (b <? e) then Ok [] else read_bytes (from data b) (e - b).

End Encoding.

(** ** Lemmas *)

(** The bytes a range selects, when the buffer has them. *)
Definition selected (data : option (list Z)) (index count : Z) (s : list Z) : Prop :=
  0 <= index /\ 0 <= count < 2 ^ 31 /\ index < 2 ^ 31
  /\ (count = 0 /\ s = [] \/
      exists d, data = Some d /\ index + count <= length d
                /\ s = take (Z.to_nat count) (drop (Z.to_nat index) d)).

(** Draining a replacement buffer gives the replacement. *)
Lemma drain_replacement (r : list Z) : length r < 2 ^ 31 ->
  forall fuel p, (p <= length r)%nat -> (length r - p <= fuel)%nat ->
  Encoding.drain fuel (Encoding.ReplacementBuffer r p) = Ok (drop p r).
Proof.
  intros Hr fuel. induction fuel as [|fuel IH]; intros p Hp Hf; cbn [Encoding.drain Encoding.getRemaining].
  all: assert (E : i32 (usub 64 (length r) p) = length r - p)
    by (unfold usub; rewrite wrapu_id by (unfold in_u; lia); apply wraps_id; unfold in_s; lia).
  all: rewrite E.
  - decide_cmp. by rewrite drop_ge by lia.
  - destruct (decide (p < length r)%nat) as [Hlt|]; [|decide_cmp; by rewrite drop_ge by lia].
    decide_cmp. cbn [Encoding.GetNextChar]. decide_cmp.
    destruct (lookup_lt_is_Some_2 r p Hlt) as [c Hc].
    rewrite (get_Ok _ _ c) by (rewrite ?Nat2Z.id; lia || done). rewrite bind_Ok. cbn [bind].
    replace (p + 1) with (S p : Z) by lia. rewrite IH by lia. rewrite bind_Ok. by rewrite <- drop_S.
Qed.

Lemma checked_selected data index count s : selected data index count s -> 0 < count ->
  Encoding.checkedRawDecodeRange data index count = Ok (index, index + count).
Proof.
  intros (H0 & Hc & Hi & [[? ?]|(d & -> & Hl & _)]) Hp; [lia|].
  unfold Encoding.checkedRawDecodeRange, Encoding.validateRawDecodeRange. decide_cmp.
  unfold uadd. rewrite wrapu_id by (unfold in_u; lia). done.
Qed.

Lemma checked_empty data index : 0 <= index -> Encoding.checkedRawDecodeRange data index 0 = Ok (0, 0).
Proof.
  intros. unfold Encoding.checkedRawDecodeRange, Encoding.validateRawDecodeRange. by decide_cmp.
Qed.
