(* ===== verification/Encodings.v ===== *)
(** * The UTF-8, ASCII, Latin-1, UTF-16 and UTF-32 encodings

    [text/src/System/Text/UTF8Encoding.cpp], [ASCIIEncoding.cpp] and
    [include/System/Text/Latin1Encoding.hpp], [UnicodeEncoding.hpp],
    [UTF32Encoding.hpp]: GetBytes and GetString of each class.  A loop returns what
    it appends from its position on; its fuel is the number of bytes left, since
    every round consumes at least one. *)

From S2P Require Export Encoding.

#[local] Coercion Z.of_nat : nat >-> Z.

Module Encodings.
Import Encoding.

(** ** UTF8Encoding *)

Definition wellFormedUtf8Length (data : list Z) (i end_ : Z) : res Z :=
  r <- Utf8.TryDecodeUtf8Scalar data end_ i ;;
  Ok (match r with (Some _, len) => len | (None, _) => 0 end).

(** The loop of both directions: a well-formed sequence is copied, [bad] gives what
    the fallback puts for an ill-formed byte. *)
Fixpoint utf8_copy (fuel : nat) (bad : Z -> Z -> res (list Z)) (data : list Z) (i end_ : Z) : res (list Z) :=
  if i <? end_ then
    match fuel with
    | O => UB
    | S fuel =>
        len <- wellFormedUtf8Length data i end_ ;;
        if len >? 0 then
          run <- read_bytes (from (Some data) i) len ;;
          rest <- utf8_copy fuel bad data (i + len) end_ ;; Ok (run ++ rest)
        else
          b <- get data i ;;
          substitute <- bad b i ;;
          rest <- utf8_copy fuel bad data (i + 1) end_ ;; Ok (substitute ++ rest)
    end
  else Ok [].

(** [if (buffer->Fallback(...)) while (remaining > 0) push_back(GetNextChar())] *)
Definition emit_fallback (r : res (bool * FallbackBuffer)) : res (list Z) :=
  r <- r ;;
  let '(any, buffer) := r in
  if any then drain (match buffer with ReplacementBuffer s _ => length s | ExceptionBuffer => 0 end) buffer
  else Ok [].

(** [static_cast<char>(data[i])] passed as a [char32_t]. *)
Definition char_to_char32 (b : Z) : Z := u32 (wraps 8 b).

Definition UTF8_GetBytes (this : Encoding) (s : list Z) : res (list Z) :=
  utf8_copy (length s)
    (fun b i => emit_fallback
       (Encoder_Fallback (Encoder_CreateFallbackBuffer (encoderFallback_ this)) (char_to_char32 b) (i32 i)))
    s 0 (length s).

Definition UTF8_GetString (this : Encoding) (data : option (list Z)) (index count : Z) : res (list Z) :=
  range <- checkedRawDecodeRange data index count ;;
  let '(begin, end_) := range in
  if negb (begin <? end_) then Ok []
  else
    match data with
    | None => UB
    | Some d =>
        utf8_copy (Z.to_nat (end_ - begin))
          (fun b i => emit_fallback
             (Decoder_Fallback (Decoder_CreateFallbackBuffer (decoderFallback_ this)) [b] (i32 i)))
          d begin end_
    end.

(** ** The loop over the scalars of a string *)

(** [while (i < s.size()) { DecodeUtf8Scalar(s, i, cp, len); i += len; ... }] *)
Fixpoint scalars_loop {St} (fuel : nat) (body : St -> Z -> res St) (s : list Z) (i : Z) (st : St) : res St :=
  if i <? length s then
    match fuel with
    | O => UB
    | S fuel =>
        r <- Utf8.DecodeUtf8Scalar s i ;;
        let '(cp, len) := r in
        st <- body st cp ;; scalars_loop fuel body s (i + len) st
    end
  else Ok st.

(** [for (i = begin; i < end; ++i)]: what the bytes append. *)
Fixpoint bytes_loop (n : nat) (emit : Z -> Z -> res (list Z)) (data : option (list Z)) (i : Z) : res (list Z) :=
  match n with
  | O => Ok []
  | S n => b <- at_ data i ;; x <- emit b i ;; rest <- bytes_loop n emit data (i + 1) ;; Ok (x ++ rest)
  end.

(** ** ASCIIEncoding *)

(** One round; its two branches above 127 are the same call. *)
Definition ascii_emit (this : Encoding) (result : list Z) (cp : Z) : res (list Z) :=
  if cp <=? 127 then Ok (result ++ [u8 cp])
  else if cp <? 0x10000 then x <- AppendEncoderFallback this cp ;; Ok (result ++ x)
  else x <- AppendEncoderFallback this cp ;; Ok (result ++ x).

Definition ASCII_GetBytes (this : Encoding) (s : list Z) : res (list Z) :=
  scalars_loop (length s) (ascii_emit this) s 0 [].

Definition ASCII_GetString (this : Encoding) (data : option (list Z)) (index count : Z) : res (list Z) :=
  range <- checkedRawDecodeRange data index count ;;
  let '(begin, end_) := range in
  if negb (begin <? end_) then Ok []
  else
    bytes_loop (Z.to_nat (end_ - begin))
      (fun b i => if b <=? 127 then Ok [b] else AppendDecoderFallback this (from data i) 1) data begin.

(** ** Latin1Encoding *)

Definition latin1_emit (this : Encoding) (result : list Z) (cp : Z) : res (list Z) :=
  if cp <=? 0xFF then Ok (result ++ [u8 cp])
  else if cp <? 0x10000 then x <- AppendEncoderFallback this cp ;; Ok (result ++ x)
  else x <- AppendEncoderFallback this cp ;; Ok (result ++ x).

Definition Latin1_GetBytes (this : Encoding) (s : list Z) : res (list Z) :=
  scalars_loop (length s) (latin1_emit this) s 0 [].

Definition Latin1_GetString (this : Encoding) (data : option (list Z)) (index count : Z) : res (list Z) :=
  range <- checkedRawDecodeRange data index count ;;
  let '(begin, end_) := range in
  bytes_loop (Z.to_nat (end_ - begin)) (fun b _ => Ok (Utf8.AppendUtf8Scalar b)) data begin.

(** ** UnicodeEncoding *)

(** The output vector and the next place in it. *)
Definition output : Type := list Z * Z.

(** [out[pos++] = b0; out[pos++] = b1; ...] *)
Definition write_bytes (o : output) (bs : list Z) : res output :=
  let '(out, pos) := o in out <- puts out pos bs ;; Ok (out, pos + length bs).

Definition low_byte (x : Z) : Z := u8 (Z.land x 0xFF).

Definition utf16_writeUnit (bigEndian : bool) (o : output) (unit : Z) : res output :=
  if bigEndian then write_bytes o [low_byte (Z.shiftr unit 8); low_byte unit]
  else write_bytes o [low_byte unit; low_byte (Z.shiftr unit 8)].

Definition utf16_emit (bigEndian : bool) (o : output) (cp : Z) : res output :=
  if cp <? 0x10000 then utf16_writeUnit bigEndian o (wrapu 16 cp)
  else
    let v := usub 32 cp 0x10000 in
    o <- utf16_writeUnit bigEndian o (wrapu 16 (0xD800 + Z.shiftr v 10)) ;;
    utf16_writeUnit bigEndian o (wrapu 16 (0xDC00 + Z.land v 0x3FF)).

(** [out.resize(pos)] *)
Definition resized (o : output) : list Z :=
  let '(out, pos) := o in take (Z.to_nat pos) out ++ replicate (Z.to_nat pos - length out) 0.

Definition Unicode_GetBytes (bigEndian : bool) (s : list Z) : res (list Z) :=
  o <- scalars_loop (length s) (utf16_emit bigEndian) s 0 (replicate (length s * 2 + 2) 0, 0) ;;
  Ok (resized o).

Definition utf16_readUnit (bigEndian : bool) (data : option (list Z)) (i : Z) : res Z :=
  b0 <- at_ data i ;;
  b1 <- at_ data (i + 1) ;;
  Ok (if bigEndian then wrapu 16 (Z.lor (Z.shiftl b0 8) b1) else wrapu 16 (Z.lor (Z.shiftl b1 8) b0)).

(** The value of the unit read at [i - 2], if it is decodable, and where to go on. *)
Definition utf16_pair (bigEndian : bool) (data : option (list Z)) (i end_ unit : Z) : res (option Z * Z) :=
  if (unit >=? 0xD800) && (unit <=? 0xDBFF) then
    if i + 1 <? end_ then
      low <- utf16_readUnit bigEndian data i ;;
      if (low >=? 0xDC00) && (low <=? 0xDFFF) then
        Ok (Some (0x10000 + Z.lor (Z.shiftl (unit - 0xD800) 10) (low - 0xDC00)), i + 2)
      else Ok (None, i)
    else Ok (None, i)
  else if (unit >=? 0xDC00) && (unit <=? 0xDFFF) then Ok (None, i)
  else Ok (Some unit, i).

Fixpoint utf16_loop (fuel : nat) (this : Encoding) (bigEndian : bool) (data : option (list Z)) (i end_ : Z) : res (list Z) :=
  if i + 1 <? end_ then
    match fuel with
    | O => UB
    | S fuel =>
        unit <- utf16_readUnit bigEndian data i ;;
        r <- utf16_pair bigEndian data (i + 2) end_ unit ;;
        let '(cp, next) := r in
        x <- match cp with
             | None => AppendDecoderFallback this (from data i) 2
             | Some cp => Ok (Utf8.AppendUtf8Scalar cp)
             end ;;
        rest <- utf16_loop fuel this bigEndian data next end_ ;; Ok (x ++ rest)
    end
  else if i <? end_ then AppendDecoderFallback this (from data i) (end_ - i)
  else Ok [].

Definition Unicode_GetString (this : Encoding) (bigEndian : bool) (data : option (list Z)) (index count : Z) : res (list Z) :=
  range <- checkedRawDecodeRange data index count ;;
  let '(begin, end_) := range in
  i <- (if end_ - begin >=? 2 then
          bom <- utf16_readUnit bigEndian data begin ;; Ok (if bom =? 0xFEFF then begin + 2 else begin)
        else Ok begin) ;;
  utf16_loop (Z.to_nat (end_ - begin)) this bigEndian data i end_.

(** ** UTF32Encoding *)

Definition utf32_writeUnit (bigEndian : bool) (o : output) (cp : Z) : res output :=
  if negb bigEndian then
    write_bytes o [low_byte cp; low_byte (Z.shiftr cp 8); low_byte (Z.shiftr cp 16); low_byte (Z.shiftr cp 24)]
  else
    write_bytes o [low_byte (Z.shiftr cp 24); low_byte (Z.shiftr cp 16); low_byte (Z.shiftr cp 8); low_byte cp].

Definition UTF32_GetBytes (bigEndian : bool) (s : list Z) : res (list Z) :=
  o <- scalars_loop (length s) (utf32_writeUnit bigEndian) s 0 (replicate (length s * 4 + 4) 0, 0) ;;
  Ok (resized o).

Definition utf32_readUnit (bigEndian : bool) (data : option (list Z)) (i : Z) : res Z :=
  b0 <- at_ data i ;;
  b1 <- at_ data (i + 1) ;;
  b2 <- at_ data (i + 2) ;;
  b3 <- at_ data (i + 3) ;;
  Ok (if negb bigEndian
      then Z.lor (Z.lor (Z.lor b0 (ushl 32 b1 8)) (ushl 32 b2 16)) (ushl 32 b3 24)
      else Z.lor (Z.lor (Z.lor (ushl 32 b0 24) (ushl 32 b1 16)) (ushl 32 b2 8)) b3).

Fixpoint utf32_loop (fuel : nat) (this : Encoding) (bigEndian : bool) (data : option (list Z)) (i end_ : Z) : res (list Z) :=
  if i + 3 <? end_ then
    match fuel with
    | O => UB
    | S fuel =>
        cp <- utf32_readUnit bigEndian data i ;;
        x <- (if (cp >? 0x10FFFF) || ((cp >=? 0xD800) && (cp <=? 0xDFFF))
              then AppendDecoderFallback this (from data i) 4
              else Ok (Utf8.AppendUtf8Scalar cp)) ;;
        rest <- utf32_loop fuel this bigEndian data (i + 4) end_ ;; Ok (x ++ rest)
    end
  else if i <? end_ then AppendDecoderFallback this (from data i) (end_ - i)
  else Ok [].

Definition UTF32_GetString (this : Encoding) (bigEndian : bool) (data : option (list Z)) (index count : Z) : res (list Z) :=
  range <- checkedRawDecodeRange data index count ;;
  let '(begin, end_) := range in
  start <- (if end_ - begin >=? 4 then
              maybeBom <- utf32_readUnit bigEndian data begin ;;
              Ok (if maybeBom =? 0x0000FEFF then begin + 4 else begin)
            else Ok begin) ;;
  utf32_loop (Z.to_nat (end_ - begin)) this bigEndian data start end_.

End Encodings.
