(* ===== verification/EncodingText.v ===== *)
(** * Encodings: the text a byte string holds

    The reference for the conversions: the items of a byte string are the Unicode
    scalars whose encodings it holds, in order, and the stray bytes between them;
    a text is well formed when it has no stray byte.  The loops of the encodings
    are shown to walk over the items, and the encoders of UTF-8, ASCII and Latin-1 are
    settled.  For the decoders the reference is a sequence of pieces, scalars and bytes
    refused, and what a fallback makes of it. *)

From S2P Require Export Encodings.

#[local] Coercion Z.of_nat : nat >-> Z.

(** ** Items *)

Inductive item := Scalar (cp : Z) | Stray (b : Z).

#[export] Instance item_eq_dec : EqDecision item.
Proof. solve_decision. Defined.

Fixpoint items_fuel (fuel : nat) (w : list Z) : list item :=
  match fuel, w with
  | S fuel, b :: w' =>
      match scan w with
      | (Some cp, n) => Scalar cp :: items_fuel fuel (drop (Z.to_nat n) w)
      | (None, _) => Stray b :: items_fuel fuel w'
      end
  | _, _ => []
  end.

Definition items (w : list Z) : list item := items_fuel (length w) w.

(** The encoding of a list of scalars. *)
Definition encoded (cps : list Z) : list Z := concat (map utf8 cps).

Definition well_formed (t : list Z) : Prop := exists cps, Forall is_scalar cps /\ t = encoded cps.

(** The scalar an encoding takes an item for. *)
Definition scalar_of (x : item) : Z := match x with Scalar cp => cp | Stray _ => 0xFFFD end.

Definition scalars (w : list Z) : list Z := scalar_of <$> items w.

(** Each stray byte replaced. *)
Definition replaced (r : list Z) (xs : list item) : list Z :=
  concat (map (fun x => match x with Scalar cp => utf8 cp | Stray _ => r end) xs).

(** A loop that consumes scalars. *)
Fixpoint feed {St} (body : St -> Z -> res St) (cps : list Z) (st : St) : res St :=
  match cps with
  | [] => Ok st
  | cp :: cps => st <- body st cp ;; feed body cps st
  end.

(** ** Items of a text *)

Lemma items_fuel_enough f : forall g w, Forall byte w -> (length w <= f)%nat -> (length w <= g)%nat ->
  items_fuel f w = items_fuel g w.
Proof.
  induction f as [|f IH]; intros g w Hb Hf Hg; [by destruct w; [destruct g|cbn in Hf; lia]|].
  destruct g as [|g]; [by destruct w; [|cbn in Hg; lia]|].
  destruct w as [|b w']; [done|]. cbn [items_fuel].
  pose proof (scan_length (b :: w') Hb ltac:(done)) as [Hn Hl].
  destruct (scan (b :: w')) as [[cp|] n]; cbn [snd] in *.
  - f_equal. apply IH; [by apply Forall_drop|rewrite length_drop; cbn [length] in *; lia..].
  - f_equal. cbn [length] in *. apply IH; [by inversion Hb|lia..].
Qed.

Lemma items_scalar w cp : Forall byte w -> fst (scan w) = Some cp ->
  items w = Scalar cp :: items (drop (Z.to_nat (snd (scan w))) w).
Proof.
  intros Hb Hs. destruct w as [|b w']; [done|]. unfold items at 1. cbn [length items_fuel].
  pose proof (scan_length (b :: w') Hb ltac:(done)) as [Hn Hl].
  destruct (scan (b :: w')) as [o n]; cbn [fst snd] in *. subst o. f_equal.
  apply items_fuel_enough; [by apply Forall_drop|rewrite length_drop; cbn [length]; lia..].
Qed.

Lemma items_stray b w : fst (scan (b :: w)) = None -> items (b :: w) = Stray b :: items w.
Proof.
  intros Hs. unfold items at 1. cbn [length items_fuel]. by destruct (scan (b :: w)) as [[cp|] n].
Qed.

Lemma items_app cp w : is_scalar cp -> Forall byte w -> items (utf8 cp ++ w) = Scalar cp :: items w.
Proof.
  intros Hs Hb. assert (Hb' : Forall byte (utf8 cp ++ w)) by (apply Forall_app; split; [by apply utf8_bytes, scalar_21|done]).
  assert (E : fst (scan (utf8 cp ++ w)) = Some cp) by (apply scan_Some; [done|split; [done|by apply prefix_app_r]]).
  rewrite (items_scalar _ cp) by done. rewrite (scan_Some_length _ cp) by done.
  by rewrite Nat2Z.id, drop_app_length.
Qed.

Lemma encoded_bytes cps : Forall is_scalar cps -> Forall byte (encoded cps).
Proof.
  induction 1 as [|cp cps Hs _ IH]; [constructor|]. apply Forall_app. split; [by apply utf8_bytes, scalar_21|done].
Qed.

Lemma items_encoded cps w : Forall is_scalar cps -> Forall byte w ->
  items (encoded cps ++ w) = (Scalar <$> cps) ++ items w.
Proof.
  intros Hs Hb. induction Hs as [|cp cps Hc Hs IH]; [done|].
  unfold encoded in *. cbn [map concat]. rewrite <- app_assoc, items_app; [|done|].
  - by rewrite IH.
  - apply Forall_app. split; [by apply encoded_bytes|done].
Qed.

(** The text of a well-formed byte string is what was encoded. *)
Lemma scalars_encoded cps : Forall is_scalar cps -> scalars (encoded cps) = cps.
Proof.
  intros H. unfold scalars. rewrite <- (app_nil_r (encoded cps)), items_encoded by (done || constructor).
  change (items []) with (@nil item). rewrite app_nil_r. clear H. induction cps as [|cp cps IH]; [done|].
  cbn. by rewrite IH.
Qed.

Lemma encoded_app a b : encoded (a ++ b) = encoded a ++ encoded b.
Proof. unfold encoded. by rewrite map_app, concat_app. Qed.

Lemma well_formed_app a b : well_formed a -> well_formed b -> well_formed (a ++ b).
Proof.
  intros (x & Hx & ->) (y & Hy & ->). exists (x ++ y). split; [by apply Forall_app|]. by rewrite encoded_app.
Qed.

Lemma well_formed_nil : well_formed [].
Proof. by exists []. Qed.

Lemma well_formed_utf8 cp : is_scalar cp -> well_formed (utf8 cp).
Proof. intros H. exists [cp]. split; [by constructor|]. unfold encoded. cbn. by rewrite app_nil_r. Qed.

Lemma well_formed_bytes t : well_formed t -> Forall byte t.
Proof. intros (cps & H & ->). by apply encoded_bytes. Qed.

#[export] Hint Resolve well_formed_nil well_formed_app well_formed_utf8 : sharp.

(** What follows from the position of the first stray byte: a text is well formed, or
    splits at it. *)
Lemma first_stray w : Forall byte w -> well_formed w \/
  exists cps b rest, Forall is_scalar cps /\ w = encoded cps ++ b :: rest /\ fst (scan (b :: rest)) = None.
Proof.
  remember (length w) as n eqn:En. revert w En. induction n as [n IH] using lt_wf_ind. intros w -> Hb.
  destruct w as [|b w']; [left; apply well_formed_nil|]. destruct (fst (scan (b :: w'))) as [cp|] eqn:E.
  - apply scan_Some in E as [Hs [tail E]]; [|done]. rewrite E in Hb |- *.
    pose proof (utf8_length cp). assert (Hl : (length tail < length (b :: w'))%nat) by (rewrite E, length_app; lia).
    destruct (IH _ Hl tail eq_refl) as [Hw|(cps & b' & rest & Hc & -> & Hn)].
    + by apply Forall_app in Hb as [_ ?].
    + left. by apply well_formed_app; [apply well_formed_utf8|].
    + right. exists (cp :: cps), b', rest. split; [by constructor|]. split; [|done].
      unfold encoded. cbn. by rewrite <- app_assoc.
  - right. by exists [], b, w'.
Qed.

(** The scalars an encoding sees are scalars. *)
Lemma scalars_scalar w : Forall byte w -> Forall is_scalar (scalars w).
Proof.
  remember (length w) as n eqn:En. revert w En. induction n as [n IH] using lt_wf_ind. intros w -> Hb.
  destruct w as [|b w']; [constructor|]. unfold scalars. destruct (fst (scan (b :: w'))) as [cp|] eqn:E.
  - rewrite (items_scalar _ cp) by done. pose proof (scan_length (b :: w') Hb ltac:(done)) as [Hn Hl].
    apply scan_Some in E as [Hs _]; [|done]. constructor; [done|].
    apply (IH (length (drop (Z.to_nat (snd (scan (b :: w')))) (b :: w')))); [|done|by apply Forall_drop].
    rewrite length_drop. cbn [length]. lia.
  - rewrite items_stray by done. constructor; [unfold is_scalar; cbn; lia|].
    apply (IH (length w')); [cbn; lia|done|by inversion Hb].
Qed.

(** ** The loops *)

Lemma scalars_step w : Forall byte w -> w <> [] ->
  exists cp (n : nat), Utf8.DecodeUtf8Scalar w 0 = Ok (cp, n : Z) /\ (1 <= n <= 4)%nat /\ (n <= length w)%nat
  /\ is_scalar cp /\ scalars w = cp :: scalars (drop n w).
Proof.
  intros Hb Hne. destruct (scan_length w Hb Hne) as [Hn Hl].
  assert (Hpos : 0 < length w) by (destruct w; [done|cbn; lia]).
  unfold Utf8.DecodeUtf8Scalar. rewrite TryDecode_scan by (lia || done).
  replace (window w (length w) 0) with w by (unfold window; rewrite drop_0, take_ge; [done|lia]). rewrite bind_Ok.
  destruct (fst (scan w)) as [cp|] eqn:E.
  - exists cp, (Z.to_nat (snd (scan w))). rewrite Z2Nat.id by lia. unfold scalars. rewrite (items_scalar _ cp) by done.
    split; [by destruct (scan w); cbn in *; subst|]. apply scan_Some in E as [Hs _]; [|done].
    split; [lia|]. split; [lia|]. done.
  - exists 0xFFFD, 1%nat. destruct w as [|b w']; [done|]. unfold scalars. rewrite items_stray by done.
    split; [by destruct (scan (b :: w')); cbn in *; subst|]. split; [lia|]. split; [cbn; lia|].
    split; [unfold is_scalar; lia|done].
Qed.

(** DecodeUtf8Scalar at an offset is DecodeUtf8Scalar of the rest. *)
Lemma DecodeUtf8Scalar_drop s i : Forall byte s -> 0 <= i < length s ->
  Utf8.DecodeUtf8Scalar s i = Utf8.DecodeUtf8Scalar (drop (Z.to_nat i) s) 0.
Proof.
  intros Hb Hi. unfold Utf8.DecodeUtf8Scalar.
  rewrite !TryDecode_scan by (try apply Forall_drop; rewrite ?length_drop; lia || done).
  do 3 f_equal. unfold window. rewrite drop_0, !take_ge by (rewrite ?length_drop; lia). done.
Qed.

(** The loop over the scalars of a string feeds its body the scalars of the text. *)
Lemma loop_feed {St} (body : St -> Z -> res St) fuel : forall s i st, Forall byte s -> (i <= length s)%nat ->
  (length s - i <= fuel)%nat ->
  Encodings.scalars_loop fuel body s i st = feed body (scalars (drop i s)) st.
Proof.
  induction fuel as [|fuel IH]; intros s i st Hb Hi Hf; cbn [Encodings.scalars_loop].
  { decide_cmp. by rewrite drop_ge by lia. }
  destruct (decide (i < length s)%nat) as [Hlt|]; [|decide_cmp; by rewrite drop_ge by lia].
  decide_cmp. rewrite DecodeUtf8Scalar_drop, Nat2Z.id by (lia || done).
  destruct (scalars_step (drop i s)) as (cp & n & -> & Hn & Hl & _ & ->);
    [by apply Forall_drop|intros E; apply (f_equal length) in E; rewrite length_drop in E; cbn in E; lia|].
  rewrite length_drop in Hl. rewrite bind_Ok. cbn [feed]. destruct (body st cp) as [st'| |]; [|done|done].
  cbn [bind]. rewrite drop_drop, <- Nat2Z.inj_add. apply IH; lia || done.
Qed.

Lemma loop_scalars {St} (body : St -> Z -> res St) s st : Forall byte s ->
  Encodings.scalars_loop (length s) body s 0 st = feed body (scalars s) st.
Proof. intros Hb. rewrite (loop_feed body (length s) s 0) by (lia || done). by rewrite drop_0. Qed.

(** A body that always appends. *)
Lemma feed_append (body : list Z -> Z -> res (list Z)) (f : Z -> list Z) cps : 
  Forall (fun cp => forall st, body st cp = Ok (st ++ f cp)) cps ->
  forall st, feed body cps st = Ok (st ++ concat (map f cps)).
Proof.
  induction 1 as [|cp cps Hc _ IH]; intros st; cbn; [by rewrite app_nil_r|].
  rewrite Hc, bind_Ok, IH. by rewrite <- app_assoc.
Qed.

(** ** UTF-8 *)

Lemma wellFormed_scan d i (n : nat) : Forall byte d -> (i + n <= length d)%nat -> (0 < n)%nat ->
  Encodings.wellFormedUtf8Length d i (i + n) =
    Ok (match scan (take n (drop i d)) with (Some _, l) => l | _ => 0 end).
Proof.
  intros Hb Hl Hn. unfold Encodings.wellFormedUtf8Length. rewrite TryDecode_scan by (lia || done).
  rewrite bind_Ok. unfold window. rewrite Nat2Z.id. by replace (Z.to_nat (i + n - i)) with n by lia.
Qed.

Lemma read_bytes_drop d (i n : nat) : (i + n <= length d)%nat ->
  Encoding.read_bytes (Encoding.from (Some d) i) n = Ok (take n (drop i d)).
Proof.
  intros H. unfold Encoding.read_bytes, Encoding.from. split_if.
  - by replace n with 0%nat by lia.
  - cbn [option_map]. rewrite !Nat2Z.id, length_drop. by decide_cmp.
Qed.

(** One round over a scalar, and one over a stray byte. *)
Lemma copy_scalar fuel bad d (i n : nat) cp rest : Forall byte d -> (i + n <= length d)%nat ->
  is_scalar cp -> take n (drop i d) = utf8 cp ++ rest ->
  Encodings.utf8_copy (S fuel) bad d i (i + n) =
    (r <- Encodings.utf8_copy fuel bad d (i + length (utf8 cp))%nat (i + n) ;; Ok (utf8 cp ++ r)).
Proof.
  intros Hb Hl Hs Hw. assert (Hlen : (length (utf8 cp) + length rest = n)%nat)
    by (rewrite <- length_app, <- Hw, length_take, length_drop; lia).
  pose proof (utf8_length cp). cbn [Encodings.utf8_copy]. decide_cmp.
  rewrite wellFormed_scan by (lia || done).
  assert (Hb' : Forall byte (take n (drop i d))) by (by apply Forall_take, Forall_drop).
  assert (E : fst (scan (take n (drop i d))) = Some cp)
    by (apply scan_Some; [done|]; split; [done|]; rewrite Hw; by apply prefix_app_r).
  pose proof (scan_Some_length _ cp Hb' E) as El. destruct (scan _) as [o l]; cbn [fst snd] in *. subst o l.
  rewrite bind_Ok. decide_cmp. rewrite read_bytes_drop by lia. rewrite bind_Ok, Nat2Z.inj_add.
  replace (take (length (utf8 cp)) (drop i d)) with (utf8 cp); [done|].
  replace (length (utf8 cp)) with (length (utf8 cp) `min` n)%nat by lia.
  by rewrite <- take_take, Hw, take_app_length.
Qed.

Lemma copy_stray fuel bad d (i n : nat) b rest : Forall byte d -> (i + n <= length d)%nat ->
  take n (drop i d) = b :: rest -> fst (scan (b :: rest)) = None ->
  Encodings.utf8_copy (S fuel) bad d i (i + n) =
    (x <- bad b i ;; r <- Encodings.utf8_copy fuel bad d (i + 1)%nat (i + n) ;; Ok (x ++ r)).
Proof.
  intros Hb Hl Hw Hs. assert (Hn : (0 < n)%nat) by (destruct n; [done|lia]).
  cbn [Encodings.utf8_copy]. decide_cmp. rewrite wellFormed_scan, Hw by (lia || done).
  destruct (scan (b :: rest)) as [o l]; cbn [fst] in *. subst o. rewrite bind_Ok. decide_cmp.
  rewrite (get_Some _ _ b).
  2:{ rewrite <- (Nat.add_0_r i), <- lookup_drop, <- (lookup_take_lt _ n) by lia. by rewrite Hw. }
  rewrite bind_Ok, Nat2Z.inj_add. done.
Qed.

Lemma range_rest (d : list Z) (i n : nat) a rest : (i + n <= length d)%nat -> take n (drop i d) = a ++ rest ->
  (length a <= n)%nat /\ take (n - length a) (drop (i + length a) d) = rest.
Proof.
  intros Hl H. assert (Hn : length (a ++ rest) = n) by (rewrite <- H, length_take, length_drop; lia).
  rewrite length_app in Hn. split; [lia|]. rewrite <- drop_drop, take_drop_commute.
  replace (length a + (n - length a))%nat with n by lia. by rewrite H, drop_app_length.
Qed.

(** The loop copies a run of scalars. *)
Lemma copy_run bad d cps : forall fuel (i n : nat) rest, Forall byte d -> (i + n <= length d)%nat ->
  Forall is_scalar cps -> take n (drop i d) = encoded cps ++ rest -> (length cps <= fuel)%nat ->
  Encodings.utf8_copy fuel bad d i (i + n) =
    (r <- Encodings.utf8_copy (fuel - length cps) bad d (i + length (encoded cps))%nat (i + n) ;;
     Ok (encoded cps ++ r)).
Proof.
  induction cps as [|cp cps IH]; intros fuel i n rest Hb Hl Hs Hw Hf.
  { cbn. rewrite Nat.add_0_r, Nat.sub_0_r. by destruct (Encodings.utf8_copy _ _ _ _ _). }
  apply Forall_cons in Hs as [Hc Hs]. change (encoded (cp :: cps)) with (utf8 cp ++ encoded cps) in *.
  rewrite <- app_assoc in Hw. cbn [length] in Hf. destruct fuel as [|fuel]; [lia|].
  destruct (range_rest _ _ _ _ _ Hl Hw) as [Hn Hr].
  rewrite (copy_scalar fuel bad d i n cp _ Hb Hl Hc Hw).
  replace (i + n) with ((i + length (utf8 cp))%nat + (n - length (utf8 cp))%nat) by lia.
  rewrite (IH fuel _ _ rest) by (lia || done). rewrite length_app, Nat.add_assoc.
  cbn [length Nat.sub]. destruct (Encodings.utf8_copy _ _ _ _ _); cbn; [by rewrite <- app_assoc|done|done].
Qed.

Lemma copy_end fuel bad d (i : nat) end_ : end_ <= i -> Encodings.utf8_copy fuel bad d i end_ = Ok [].
Proof. intros. destruct fuel; cbn; by decide_cmp. Qed.

Lemma encoded_length cps : (length cps <= length (encoded cps))%nat.
Proof.
  induction cps as [|cp cps IH]; [done|]. change (encoded (cp :: cps)) with (utf8 cp ++ encoded cps).
  rewrite length_app. pose proof (utf8_length cp). cbn. lia.
Qed.

(** Well-formed text is copied, whatever the fallback. *)
Lemma copy_well_formed bad d (i n : nat) fuel : Forall byte d -> (i + n <= length d)%nat -> (n <= fuel)%nat ->
  well_formed (take n (drop i d)) ->
  Encodings.utf8_copy fuel bad d i (i + n) = Ok (take n (drop i d)).
Proof.
  intros Hb Hl Hf (cps & Hs & E). pose proof (encoded_length cps).
  assert (length (encoded cps) = n) by (rewrite <- E, length_take, length_drop; lia).
  rewrite (copy_run bad d cps fuel i n []) by (rewrite ?app_nil_r; lia || done).
  rewrite copy_end by lia. cbn. by rewrite app_nil_r, E.
Qed.

(** The first stray byte decides when the fallback throws. *)
Lemma copy_throws bad d (i n : nat) fuel cps b rest e : Forall byte d -> (i + n <= length d)%nat -> (n <= fuel)%nat ->
  Forall is_scalar cps -> take n (drop i d) = encoded cps ++ b :: rest -> fst (scan (b :: rest)) = None ->
  bad b (i + length (encoded cps)) = Throw e ->
  Encodings.utf8_copy fuel bad d i (i + n) = Throw e.
Proof.
  intros Hb Hl Hf Hs E Hn Hbad. pose proof (encoded_length cps).
  destruct (range_rest _ _ _ _ _ Hl E) as [Hle Hr].
  assert (L : length (encoded cps ++ b :: rest) = n) by (rewrite <- E, length_take, length_drop; lia).
  rewrite length_app in L. cbn [length] in L.
  rewrite (copy_run bad d cps fuel i n (b :: rest)) by (lia || done).
  destruct (fuel - length cps)%nat as [|f] eqn:Ef; [lia|].
  replace (i + n) with ((i + length (encoded cps))%nat + (n - length (encoded cps))%nat) by lia.
  rewrite (copy_stray f bad d _ _ b rest) by (lia || done). by rewrite Nat2Z.inj_add, Hbad.
Qed.

(** ** The fallbacks *)

(** A replacement short enough for the 32-bit count of a fallback buffer. *)
Definition short (r : list Z) : Prop := length r < 2 ^ 31.

Lemma emit_replacement r : short r ->
  Encodings.emit_fallback (Ok (match r with [] => false | _ => true end, Encoding.ReplacementBuffer r 0)) = Ok r.
Proof.
  intros H. unfold Encodings.emit_fallback. rewrite bind_Ok. destruct r as [|b r']; [done|].
  exact (drain_replacement (b :: r') H (length (b :: r')) 0 ltac:(lia) ltac:(lia)).
Qed.

(** What a decoder finds in a range: scalars, and runs of bytes it refuses with the
    place it reports for them. *)
Inductive piece := Reads (cp : Z) | Refused (bs : list Z) (place : Z).

(** What a fallback puts for refused bytes. *)
Definition refusal (f : Encoding.DecoderFallback) (bs : list Z) (place : Z) : res (list Z) :=
  match f with
  | Encoding.DecoderReplacementFallback r => Ok r
  | Encoding.DecoderExceptionFallback =>
      Throw (DecoderFallbackException (Encoding.decoder_message bs place) bs place)
  end.

Definition piece_text (f : Encoding.DecoderFallback) (p : piece) : res (list Z) :=
  match p with Reads cp => Ok (utf8 cp) | Refused bs place => refusal f bs place end.

(** The text of the pieces, or the exception for the first one refused. *)
Fixpoint rendered (f : Encoding.DecoderFallback) (ps : list piece) : res (list Z) :=
  match ps with
  | [] => Ok []
  | p :: ps => x <- piece_text f p ;; rest <- rendered f ps ;; Ok (x ++ rest)
  end.

Lemma rendered_app f ps qs :
  rendered f (ps ++ qs) = (x <- rendered f ps ;; y <- rendered f qs ;; Ok (x ++ y)).
Proof.
  induction ps as [|p ps IH]; cbn [app rendered bind]; [by destruct (rendered f qs)|].
  rewrite IH. destruct (piece_text f p), (rendered f ps), (rendered f qs); cbn; try done. by rewrite app_assoc.
Qed.

(** Pieces whose scalars are scalars make a well-formed text when the replacement is
    one. *)
Definition sound_piece (p : piece) : Prop := match p with Reads cp => is_scalar cp | Refused bs _ => bs <> [] end.

Lemma rendered_replaced r ps : Forall sound_piece ps ->
  exists t, rendered (Encoding.DecoderReplacementFallback r) ps = Ok t /\ (well_formed r -> well_formed t).
Proof.
  induction 1 as [|[cp|bs i] ps Hp _ (t & E & Ht)]; cbn [rendered piece_text refusal bind]; [by eexists; eauto with sharp|..];
    rewrite E; eexists; (split; [done|]); eauto with sharp.
Qed.

(** The pieces UTF-8 sees: one for each item, with the place of each byte. *)
Fixpoint placed (place : Z) (xs : list item) : list piece :=
  match xs with
  | [] => []
  | Scalar cp :: xs => Reads cp :: placed (place + length (utf8 cp)) xs
  | Stray b :: xs => Refused [b] (i32 place) :: placed (place + 1) xs
  end.

Lemma placed_sound xs : Forall (fun x => match x with Scalar cp => is_scalar cp | _ => True end) xs ->
  forall place, Forall sound_piece (placed place xs).
Proof. induction 1 as [|[cp|b] xs Hx _ IH]; intros place; cbn; constructor; cbn; auto. Qed.

(** The copying loop renders them. *)
Lemma copy_placed f bad d fuel : Forall byte d -> (forall b j, bad b j = refusal f [b] (i32 j)) ->
  forall i n : nat, (i + n <= length d)%nat -> (n <= fuel)%nat ->
  Encodings.utf8_copy fuel bad d i (i + n) = rendered f (placed i (items (take n (drop i d)))).
Proof.
  intros Hb Hbad. induction fuel as [|fuel IH]; intros i n Hl Hf.
  { replace n with 0%nat by lia. rewrite copy_end by lia. done. }
  destruct (take n (drop i d)) as [|b rest] eqn:E.
  { apply (f_equal length) in E. rewrite length_take, length_drop in E. cbn in E. rewrite copy_end by lia. done. }
  assert (Hb' : Forall byte (b :: rest)) by (rewrite <- E; by apply Forall_take, Forall_drop).
  destruct (fst (scan (b :: rest))) as [cp|] eqn:S.
  - pose proof S as S'. apply scan_Some in S as [Hs [tail Et]]; [|done]. rewrite Et in *.
    destruct (range_rest _ _ _ _ _ Hl E) as [Hn Hr].
    rewrite (copy_scalar fuel bad d i n cp tail) by done.
    replace (i + n) with ((i + length (utf8 cp))%nat + (n - length (utf8 cp))%nat) by lia.
    pose proof (utf8_length cp). rewrite IH, Hr by lia. apply Forall_app in Hb' as [_ Ht].
    rewrite items_app by done. cbn [placed rendered piece_text bind]. by rewrite Nat2Z.inj_add.
  - rewrite (copy_stray fuel bad d i n b rest) by done.
    destruct (range_rest d i n [b] rest Hl E) as [Hn Hr]. cbn [length] in *.
    replace (i + n) with ((i + 1)%nat + (n - 1)%nat) by lia. rewrite IH, Hr, items_stray by (lia || done).
    cbn [placed rendered piece_text]. by rewrite Hbad, Nat2Z.inj_add.
Qed.

(** A replacing fallback: every stray byte is replaced. *)
Lemma rendered_placed r xs : forall place,
  rendered (Encoding.DecoderReplacementFallback r) (placed place xs) = Ok (replaced r xs).
Proof.
  induction xs as [|[cp|b] xs IH]; intros place; cbn [placed rendered piece_text refusal bind]; [done|..];
    by rewrite IH.
Qed.

Lemma copy_replaced r bad d fuel : Forall byte d -> (forall b i, bad b i = Ok r) ->
  forall i n : nat, (i + n <= length d)%nat -> (n <= fuel)%nat ->
  Encodings.utf8_copy fuel bad d i (i + n) = Ok (replaced r (items (take n (drop i d)))).
Proof.
  intros Hb Hbad i n Hl Hf. rewrite (copy_placed (Encoding.DecoderReplacementFallback r)) by done.
  apply rendered_placed.
Qed.

Lemma items_scalars w : Forall byte w ->
  Forall (fun x => match x with Scalar cp => is_scalar cp | _ => True end) (items w).
Proof.
  intros Hb. pose proof (scalars_scalar w Hb) as H. unfold scalars in H.
  apply (proj1 (Forall_fmap scalar_of _ _)) in H.
  eapply Forall_impl; [exact H|]. by intros [cp|b].
Qed.

(** A 32-bit index that is in range keeps its value. *)
Lemma i32_small z : 0 <= z < 2 ^ 31 -> i32 z = z.
Proof. intros. apply wraps_id; unfold in_s; lia. Qed.

(** ** UTF8Encoding *)

(** The bytes selected by a call. *)
Lemma selected_bytes d (i n : nat) : (i + n <= length d)%nat -> n < 2 ^ 31 -> i < 2 ^ 31 ->
  selected (Some d) i n (take n (drop i d)).
Proof.
  intros H Hn Hi. split; [lia|]. split; [lia|]. split; [lia|]. right. exists d. split; [done|].
  split; [lia|]. by rewrite !Nat2Z.id.
Qed.

Lemma UTF8_GetString_copy this d (i n : nat) : (i + n <= length d)%nat -> n < 2 ^ 31 -> i < 2 ^ 31 ->
  Encodings.UTF8_GetString this (Some d) i n =
    Encodings.utf8_copy n
      (fun b i => Encodings.emit_fallback (Encoding.Decoder_Fallback
         (Encoding.Decoder_CreateFallbackBuffer (Encoding.decoderFallback_ this)) [b] (i32 i))) d i (i + n).
Proof.
  intros Hl Hn Hi. unfold Encodings.UTF8_GetString. destruct n as [|n].
  { rewrite checked_empty by lia. rewrite bind_Ok. cbn. by decide_cmp. }
  rewrite (checked_selected _ _ _ (take (S n) (drop i d))) by (try apply selected_bytes; lia).
  rewrite bind_Ok. decide_cmp. f_equal. lia.
Qed.

(** A fallback that replaces with a text short enough for its 32-bit count, or
    throws. *)
Definition usable (f : Encoding.DecoderFallback) : Prop :=
  match f with Encoding.DecoderReplacementFallback r => short r | Encoding.DecoderExceptionFallback => True end.

Lemma UTF8_GetString_pieces this d (i n : nat) : Forall byte d -> (i + n <= length d)%nat -> n < 2 ^ 31 -> i < 2 ^ 31 ->
  usable (Encoding.decoderFallback_ this) ->
  Encodings.UTF8_GetString this (Some d) i n =
    rendered (Encoding.decoderFallback_ this) (placed i (items (take n (drop i d)))).
Proof.
  intros Hb Hl Hn Hi Hu. rewrite UTF8_GetString_copy by done. apply copy_placed; [done| |done|done].
  intros b j. destruct (Encoding.decoderFallback_ this) as [r|]; [by apply emit_replacement|done].
Qed.

(** UTF-8 decoding validates: well-formed bytes pass, stray bytes go to the
    fallback, one at a time. *)
Lemma UTF8_GetString_spec this d (i n : nat) : Forall byte d -> (i + n <= length d)%nat -> n < 2 ^ 31 -> i < 2 ^ 31 ->
  let w := take n (drop i d) in
  (well_formed w -> Encodings.UTF8_GetString this (Some d) i n = Ok w)
  /\ (forall r, Encoding.decoderFallback_ this = Encoding.DecoderReplacementFallback r -> short r ->
      Encodings.UTF8_GetString this (Some d) i n = Ok (replaced r (items w)))
  /\ (Encoding.decoderFallback_ this = Encoding.DecoderExceptionFallback ->
      forall cps b rest, Forall is_scalar cps -> w = encoded cps ++ b :: rest -> fst (scan (b :: rest)) = None ->
      let at_byte := i32 (i + length (encoded cps)) in
      Encodings.UTF8_GetString this (Some d) i n =
        Throw (DecoderFallbackException (Encoding.decoder_message [b] at_byte) [b] at_byte)).
Proof.
  intros Hb Hl Hn Hi w. rewrite UTF8_GetString_copy by done. split; [|split].
  - intros Hw. by apply copy_well_formed.
  - intros r -> Hs. apply copy_replaced; [done| |done|done]. intros b j. by apply emit_replacement.
  - intros -> cps b rest Hs Hw Hsc. by apply (copy_throws _ d i n n cps b rest).
Qed.

Lemma UTF8_GetBytes_spec this w : Forall byte w ->
  (well_formed w -> Encodings.UTF8_GetBytes this w = Ok w)
  /\ (forall r, Encoding.encoderFallback_ this = Encoding.EncoderReplacementFallback r -> short r ->
      Encodings.UTF8_GetBytes this w = Ok (replaced r (items w)))
  /\ (Encoding.encoderFallback_ this = Encoding.EncoderExceptionFallback ->
      forall cps b rest, Forall is_scalar cps -> w = encoded cps ++ b :: rest -> fst (scan (b :: rest)) = None ->
      let at_byte := i32 (length (encoded cps)) in
      Encodings.UTF8_GetBytes this w =
        Throw (EncoderFallbackException (Encoding.encoder_message (Encodings.char_to_char32 b) at_byte)
                 (Encodings.char_to_char32 b) at_byte)).
Proof.
  intros Hb. unfold Encodings.UTF8_GetBytes.
  assert (W : take (length w) (drop 0 w) = w) by (rewrite drop_0; by apply firstn_all). split; [|split].
  - intros Hw. rewrite (copy_well_formed _ w 0 (length w)), W by (rewrite ?W; lia || done). done.
  - intros r -> Hs. rewrite (copy_replaced r _ w _ Hb) with (i := 0%nat) (n := length w); [by rewrite W| |lia|lia].
    intros b j. by apply emit_replacement.
  - intros -> cps b rest Hs Hw Hsc. by apply (copy_throws _ w 0 (length w) _ cps b rest); rewrite ?W; try lia.
Qed.

(** ** ASCII and Latin-1 *)

(** The encoder of a single-byte code page with the first [limit] scalars. *)
Definition single (r : list Z) (limit cp : Z) : list Z := if cp <? limit then [cp] else r.

Lemma single_body this limit (body : list Z -> Z -> res (list Z)) r cps :
  Encoding.encoderFallback_ this = Encoding.EncoderReplacementFallback r ->
  (forall st cp, 0 <= cp -> body st cp = if cp <? limit then Ok (st ++ [cp])
                 else x <- Encoding.AppendEncoderFallback this cp ;; Ok (st ++ x)) ->
  Forall is_scalar cps -> forall st, feed body cps st = Ok (st ++ concat (map (single r limit) cps)).
Proof.
  intros Hf Hbody Hs. apply feed_append. eapply Forall_impl; [exact Hs|]. intros cp Hc st. cbn in Hc.
  rewrite Hbody by (unfold is_scalar in Hc; lia). unfold single, Encoding.AppendEncoderFallback. rewrite Hf.
  by destruct (cp <? limit).
Qed.

Lemma ascii_body this st cp : 0 <= cp ->
  Encodings.ascii_emit this st cp =
    if cp <? 128 then Ok (st ++ [cp]) else x <- Encoding.AppendEncoderFallback this cp ;; Ok (st ++ x).
Proof.
  intros H. unfold Encodings.ascii_emit. destruct (cp <? 128) eqn:E; bool_to_prop; decide_cmp.
  - do 4 f_equal. apply wrapu_id. unfold in_u. lia.
  - by destruct (cp <? 0x10000).
Qed.

Lemma latin1_body this st cp : 0 <= cp ->
  Encodings.latin1_emit this st cp =
    if cp <? 256 then Ok (st ++ [cp]) else x <- Encoding.AppendEncoderFallback this cp ;; Ok (st ++ x).
Proof.
  intros H. unfold Encodings.latin1_emit. destruct (cp <? 256) eqn:E; bool_to_prop; decide_cmp.
  - do 4 f_equal. apply wrapu_id. unfold in_u. lia.
  - by destruct (cp <? 0x10000).
Qed.

(** Scalars below the limit need no fallback. *)
Lemma feed_below this limit (body : list Z -> Z -> res (list Z)) cps :
  (forall st cp, 0 <= cp -> body st cp = if cp <? limit then Ok (st ++ [cp])
                 else x <- Encoding.AppendEncoderFallback this cp ;; Ok (st ++ x)) ->
  Forall (fun cp => 0 <= cp < limit) cps -> forall st, feed body cps st = Ok (st ++ cps).
Proof.
  intros Hbody H st. rewrite (feed_append _ (fun cp => [cp])).
  - f_equal. f_equal. clear. induction cps as [|cp cps IH]; [done|]. cbn in *. by rewrite IH.
  - eapply Forall_impl; [exact H|]. intros cp Hc st'. cbn in Hc. rewrite Hbody by lia. by decide_cmp.
Qed.

(** One that is not, with a throwing fallback. *)
Lemma feed_throws this limit (body : list Z -> Z -> res (list Z)) a cp c :
  Encoding.encoderFallback_ this = Encoding.EncoderExceptionFallback ->
  (forall st cp, 0 <= cp -> body st cp = if cp <? limit then Ok (st ++ [cp])
                 else x <- Encoding.AppendEncoderFallback this cp ;; Ok (st ++ x)) ->
  Forall (fun cp => 0 <= cp < limit) a -> 0 <= cp -> limit <= cp -> forall st,
  feed body (a ++ cp :: c) st = Throw (EncoderFallbackException (Encoding.encoder_message cp 0) cp 0).
Proof.
  intros Hf Hbody Ha Hc Hl. induction Ha as [|x a Hx _ IH]; intros st; cbn [app feed].
  - rewrite Hbody by done. decide_cmp. unfold Encoding.AppendEncoderFallback. by rewrite Hf.
  - rewrite Hbody by lia. decide_cmp. apply IH.
Qed.

(** The byte loops, when every byte of the range can be emitted. *)
Lemma bytes_loop_emit emit f d : forall n i : nat, (i + n <= length d)%nat ->
  Forall (fun b => forall j, emit b j = Ok (f b)) (take n (drop i d)) ->
  Encodings.bytes_loop n emit (Some d) i = Ok (concat (map f (take n (drop i d)))).
Proof.
  induction n as [|n IH]; intros i Hl He; [done|]. cbn [Encodings.bytes_loop].
  destruct (lookup_lt_is_Some_2 d i) as [b Hg]; [lia|]. cbn [Encoding.at_]. rewrite (get_Some _ _ b Hg), bind_Ok.
  rewrite (drop_S _ _ _ Hg) in *. cbn [take] in *. apply Forall_cons in He as [Hb He]. rewrite Hb, bind_Ok.
  replace (i + 1) with (S i : Z) by lia. by rewrite IH by (lia || done).
Qed.
