(* ===== verification/EncodingUnits.v ===== *)
(** * Encodings: UTF-16 and UTF-32

    GetBytes of [UnicodeEncoding] and [UTF32Encoding] writes the code units of the
    scalars of the text into the vector it has sized beforehand and never past it;
    GetString reads them back, and the pieces of any bytes. *)

From S2P Require Export EncodingText.

#[local] Coercion Z.of_nat : nat >-> Z.

(** ** Code units *)

(** The bytes of a 16-bit unit. *)
Definition unit_bytes (be : bool) (u : Z) : list Z := if be then [u / 256; u mod 256] else [u mod 256; u / 256].

Definition utf16 (be : bool) (cp : Z) : list Z :=
  if cp <? 0x10000 then unit_bytes be cp
  else unit_bytes be (0xD800 + (cp - 0x10000) / 1024) ++ unit_bytes be (0xDC00 + (cp - 0x10000) mod 1024).

Definition utf32 (be : bool) (cp : Z) : list Z :=
  let l := [cp mod 256; cp / 256 mod 256; cp / 65536 mod 256; cp / 16777216] in if be then rev l else l.

Lemma utf16_length be cp : length (utf16 be cp) = if cp <? 0x10000 then 2%nat else 4%nat.
Proof. unfold utf16. split_if; by destruct be. Qed.

Lemma utf32_length be cp : length (utf32 be cp) = 4%nat.
Proof. by destruct be. Qed.

Lemma unit_bytes_byte be u : 0 <= u < 65536 -> Forall byte (unit_bytes be u).
Proof. intros H. unfold byte. destruct be; repeat constructor; zlia. Qed.

Lemma utf16_byte be cp : is_scalar cp -> Forall byte (utf16 be cp).
Proof.
  unfold is_scalar. intros H. unfold utf16. split_if; [apply unit_bytes_byte; lia|].
  apply Forall_app; split; apply unit_bytes_byte; zlia.
Qed.

Lemma utf32_byte be cp : is_scalar cp -> Forall byte (utf32 be cp).
Proof. unfold is_scalar, byte. intros H. unfold utf32. destruct be; cbn [rev app]; repeat constructor; zlia. Qed.

(** ** Sizes *)

(** The bytes an item was read from. *)
Definition item_size (x : item) : nat := match x with Scalar cp => length (utf8 cp) | Stray _ => 1%nat end.

Lemma items_size w : Forall byte w -> sum_list (item_size <$> items w) = length w.
Proof.
  remember (length w) as n eqn:En. revert w En. induction n as [n IH] using lt_wf_ind. intros w -> Hb.
  destruct w as [|b w']; [done|]. destruct (fst (scan (b :: w'))) as [cp|] eqn:E.
  - rewrite (items_scalar _ cp) by done. pose proof (scan_length (b :: w') Hb ltac:(done)) as [Hn Hl].
    pose proof (scan_Some_length _ cp Hb E) as El. rewrite fmap_cons. cbn [sum_list foldr item_size].
    fold (sum_list (item_size <$> items (drop (Z.to_nat (snd (scan (b :: w')))) (b :: w')))).
    rewrite (IH (length (drop (Z.to_nat (snd (scan (b :: w')))) (b :: w')))); [|rewrite length_drop; cbn [length]; lia|done|by apply Forall_drop].
    rewrite length_drop. rewrite El, Nat2Z.id in *. unfold id. lia.
  - rewrite items_stray by done. rewrite fmap_cons. cbn [sum_list foldr item_size].
    fold (sum_list (item_size <$> items w')). rewrite (IH (length w')); [unfold id; cbn; lia|cbn; lia|done|by inversion Hb].
Qed.

(** Units no longer than [k] times the bytes they come from fit in [k] times the
    length of the text. *)
Lemma units_fit (f : Z -> list Z) k w : Forall byte w ->
  (forall x, match x with Scalar cp => is_scalar cp | _ => True end -> length (f (scalar_of x)) <= k * item_size x)%nat ->
  (length (concat (map f (scalars w))) <= k * length w)%nat.
Proof.
  intros Hb Hf. rewrite <- (items_size w Hb). unfold scalars. pose proof (items_scalars w Hb) as Hi.
  induction (items w) as [|x xs IH]; [cbn; lia|]. apply Forall_cons in Hi as [Hx Hi].
  rewrite !fmap_cons. cbn [map concat sum_list foldr]. rewrite length_app. specialize (Hf x Hx). specialize (IH Hi).
  unfold sum_list, id in *. change (concat (f <$> (scalar_of <$> xs))) with (concat (map f (scalar_of <$> xs))).
  rewrite Nat.mul_add_distr_l. lia.
Qed.

(** ** Writing into a sized vector *)

(** The output vector [d] when [out] has been written. *)
Definition written (d out : list Z) : Encodings.output := (out ++ drop (length out) d, length out : Z).

Lemma write_bytes_written d out bs : (length out + length bs <= length d)%nat ->
  Encodings.write_bytes (written d out) bs = Ok (written d (out ++ bs)).
Proof.
  intros H. unfold Encodings.write_bytes, written. rewrite puts_app, bind_Ok by done.
  do 2 f_equal. rewrite length_app. lia.
Qed.

Lemma written_nil d : (d, 0) = written d [].
Proof. done. Qed.

Lemma resized_written d out : (length out <= length d)%nat -> Encodings.resized (written d out) = out.
Proof.
  intros H. unfold Encodings.resized, written. rewrite Nat2Z.id, take_app_length, length_app, length_drop.
  replace (length out - _)%nat with 0%nat by lia. by rewrite app_nil_r.
Qed.

Lemma feed_write body (f : Z -> list Z) d : forall cps out,
  Forall (fun cp => forall out, (length out + length (f cp) <= length d)%nat ->
    body (written d out) cp = Ok (written d (out ++ f cp))) cps ->
  (length out + length (concat (map f cps)) <= length d)%nat ->
  feed body cps (written d out) = Ok (written d (out ++ concat (map f cps))).
Proof.
  induction cps as [|cp cps IH]; intros out H Hl; cbn in *; [by rewrite app_nil_r|].
  rewrite length_app in Hl. apply Forall_cons in H as [Hc H]. rewrite Hc, bind_Ok by lia.
  rewrite IH by (rewrite ?length_app; lia || done). by rewrite <- app_assoc.
Qed.

(** ** GetBytes *)

Lemma low_byte_mod x : Encodings.low_byte x = x mod 256.
Proof.
  unfold Encodings.low_byte, u8, wrapu. change 0xFF with (2 ^ 8 - 1). rewrite land_mask by lia.
  by rewrite Zmod_mod.
Qed.

Lemma writeUnit_written be d out u : 0 <= u < 65536 -> (length out + 2 <= length d)%nat ->
  Encodings.utf16_writeUnit be (written d out) u = Ok (written d (out ++ unit_bytes be u)).
Proof.
  intros Hu Hl. unfold Encodings.utf16_writeUnit, unit_bytes. rewrite !low_byte_mod, Z.shiftr_div_pow2 by lia.
  change (2 ^ 8) with 256. rewrite (Z.mod_small (u / 256)) by zlia.
  destruct be; by rewrite write_bytes_written.
Qed.

Lemma utf16_emit_written be d cp : is_scalar cp -> forall out, (length out + length (utf16 be cp) <= length d)%nat ->
  Encodings.utf16_emit be (written d out) cp = Ok (written d (out ++ utf16 be cp)).
Proof.
  unfold is_scalar. intros Hs out Hl. rewrite utf16_length in Hl. unfold Encodings.utf16_emit, utf16.
  destruct (cp <? 0x10000) eqn:E; bool_to_prop.
  - rewrite wrapu_id by (unfold in_u; lia). apply writeUnit_written; lia.
  - unfold usub. rewrite (wrapu_id 32) by (unfold in_u; lia). rewrite Z.shiftr_div_pow2 by lia.
    change 0x3FF with (2 ^ 10 - 1). rewrite land_mask by lia. change (2 ^ 10) with 1024.
    rewrite !(wrapu_id 16) by zlia. rewrite writeUnit_written by zlia. rewrite bind_Ok.
    rewrite writeUnit_written by (rewrite ?length_app; destruct be; cbn [unit_bytes length]; zlia).
    by rewrite <- app_assoc.
Qed.

Lemma utf32_emit_written be d cp : is_scalar cp -> forall out, (length out + length (utf32 be cp) <= length d)%nat ->
  Encodings.utf32_writeUnit be (written d out) cp = Ok (written d (out ++ utf32 be cp)).
Proof.
  unfold is_scalar. intros Hs out Hl. rewrite utf32_length in Hl. unfold Encodings.utf32_writeUnit, utf32.
  rewrite !low_byte_mod, !Z.shiftr_div_pow2 by lia.
  change (2 ^ 8) with 256. change (2 ^ 16) with 65536. change (2 ^ 24) with 16777216.
  rewrite (Z.mod_small (cp / 16777216)) by zlia. destruct be; cbn [negb]; rewrite write_bytes_written by (cbn; lia); reflexivity.
Qed.

(** The bytes are the units of the scalars of the text, and the vector sized
    beforehand holds them. *)
Lemma Unicode_GetBytes_spec be w : Forall byte w ->
  Encodings.Unicode_GetBytes be w = Ok (concat (map (utf16 be) (scalars w))).
Proof.
  intros Hb. unfold Encodings.Unicode_GetBytes. rewrite loop_scalars, written_nil by done.
  set (d := replicate _ 0). assert (Ld : length d = (length w * 2 + 2)%nat) by (unfold d; rewrite length_replicate; lia).
  assert (F : (length (concat (map (utf16 be) (scalars w))) <= 2 * length w)%nat).
  { apply units_fit; [done|]. intros [cp|b] Hx; cbn [scalar_of item_size]; rewrite utf16_length; [|cbn; lia].
    unfold is_scalar in Hx. unfold utf8. repeat split_if; cbn [length]; lia. }
  rewrite (feed_write _ (utf16 be)); [|by eapply Forall_impl; [by apply scalars_scalar|apply utf16_emit_written]|cbn [length]; lia].
  rewrite bind_Ok. cbn [app]. by rewrite resized_written by lia.
Qed.

Lemma UTF32_GetBytes_spec be w : Forall byte w ->
  Encodings.UTF32_GetBytes be w = Ok (concat (map (utf32 be) (scalars w))).
Proof.
  intros Hb. unfold Encodings.UTF32_GetBytes. rewrite loop_scalars, written_nil by done.
  set (d := replicate _ 0). assert (Ld : length d = (length w * 4 + 4)%nat) by (unfold d; rewrite length_replicate; lia).
  assert (F : (length (concat (map (utf32 be) (scalars w))) <= 4 * length w)%nat).
  { apply units_fit; [done|]. intros [cp|b] Hx; cbn [scalar_of item_size]; rewrite utf32_length; [|lia].
    pose proof (utf8_length cp). lia. }
  rewrite (feed_write _ (utf32 be)); [|by eapply Forall_impl; [by apply scalars_scalar|apply utf32_emit_written]|cbn [length]; lia].
  rewrite bind_Ok. cbn [app]. by rewrite resized_written by lia.
Qed.

(** ** Decoding: results *)

(** The fallback of a run of bytes inside the buffer; its index is always 0. *)
Lemma AppendDecoderFallback_refusal this d (i k : nat) : (0 < k)%nat -> k < 2 ^ 31 -> (i + k <= length d)%nat ->
  Encoding.AppendDecoderFallback this (Encoding.from (Some d) i) k =
    refusal (Encoding.decoderFallback_ this) (take k (drop i d)) 0.
Proof.
  intros Hk Hs Hl. unfold Encoding.AppendDecoderFallback. rewrite i32_small by lia.
  destruct (Encoding.decoderFallback_ this) as [r|]; cbn [Encoding.GetFallbackString refusal]; [done|].
  decide_cmp. cbn [Encoding.from option_map throw_if bind].
  change (Some (drop (Z.to_nat i) d)) with (Encoding.from (Some d) i). by rewrite read_bytes_drop, bind_Ok by lia.
Qed.

(** Reading at an offset of a range. *)
Lemma range_lookup (d : list Z) (i n k : nat) w b : take n (drop i d) = w -> w !! k = Some b -> d !! (i + k)%nat = Some b.
Proof.
  intros <- H. pose proof (lookup_lt_Some _ _ _ H) as L. rewrite length_take in L.
  rewrite lookup_take_lt, lookup_drop in H by lia. done.
Qed.

Lemma range_length (d : list Z) (i n : nat) w : (i + n <= length d)%nat -> take n (drop i d) = w -> length w = n.
Proof. intros Hl <-. rewrite length_take, length_drop. lia. Qed.

(** ** Decoding: units *)

Lemma at_lookup d (i : nat) b : d !! i = Some b -> Encoding.at_ (Some d) i = Ok b.
Proof. intros H. by apply get_Some. Qed.

Lemma byte_pair a b : byte a -> byte b -> wrapu 16 (Z.lor (Z.shiftl a 8) b) = a * 256 + b.
Proof.
  unfold byte. intros Ha Hb. rewrite lor_shift by (eval_pow; lia). apply wrapu_id. eval_pow. lia.
Qed.

(** The value of two bytes. *)
Definition unit_value (be : bool) (b0 b1 : Z) : Z := if be then b0 * 256 + b1 else b1 * 256 + b0.

Lemma readUnit_value be d (i : nat) b0 b1 : byte b0 -> byte b1 -> d !! i = Some b0 -> d !! S i = Some b1 ->
  Encodings.utf16_readUnit be (Some d) i = Ok (unit_value be b0 b1).
Proof.
  intros H0 H1 E0 E1. unfold Encodings.utf16_readUnit. rewrite (at_lookup _ _ b0 E0), bind_Ok.
  replace (i + 1) with (S i : Z) by lia. rewrite (at_lookup _ _ b1 E1), bind_Ok.
  unfold unit_value. destruct be; by rewrite byte_pair.
Qed.

Lemma unit_value_range be b0 b1 : byte b0 -> byte b1 -> 0 <= unit_value be b0 b1 < 65536.
Proof. unfold byte, unit_value. intros. eval_pow. destruct be; lia. Qed.

(** Reading the bytes of a unit. *)
Lemma readUnit_unit be d (i : nat) u rest : 0 <= u < 65536 -> drop i d = unit_bytes be u ++ rest ->
  Encodings.utf16_readUnit be (Some d) i = Ok u.
Proof.
  intros Hu E. assert (L : forall k, d !! (i + k)%nat = (unit_bytes be u ++ rest) !! k)
    by (intros k; by rewrite <- E, lookup_drop).
  pose proof (L 0%nat) as L0. pose proof (L 1%nat) as L1. rewrite Nat.add_0_r in L0. rewrite Nat.add_1_r in L1.
  pose proof (unit_bytes_byte be u Hu) as B.
  destruct be; cbn [unit_bytes app lookup list_lookup] in *; inversion B as [|? ? B0 B']; inversion B' as [|? ? B1 _]; subst;
    (erewrite readUnit_value; [|exact B0|exact B1|exact L0|exact L1]); f_equal; unfold unit_value; zlia.
Qed.

(** ** UTF-16 *)

Definition is_high (u : Z) : bool := (0xD800 <=? u) && (u <? 0xDC00).
Definition is_low (u : Z) : bool := (0xDC00 <=? u) && (u <? 0xE000).

(** The pieces of bytes read as UTF-16: a surrogate pair is a scalar, a surrogate
    alone is refused with its two bytes, and so is an odd byte at the end. *)
Fixpoint utf16_pieces (be : bool) (w : list Z) : list piece :=
  match w with
  | b0 :: b1 :: w' =>
      let u := unit_value be b0 b1 in
      if is_high u then
        match w' with
        | b2 :: b3 :: w'' =>
            let v := unit_value be b2 b3 in
            if is_low v then Reads (0x10000 + (u - 0xD800) * 1024 + (v - 0xDC00)) :: utf16_pieces be w''
            else Refused [b0; b1] 0 :: utf16_pieces be w'
        | _ => Refused [b0; b1] 0 :: utf16_pieces be w'
        end
      else (if is_low u then Refused [b0; b1] 0 else Reads u) :: utf16_pieces be w'
  | [] => []
  | _ => [Refused w 0]
  end.

(** What is left after a byte-order mark. *)
Definition utf16_unmarked (be : bool) (w : list Z) : list Z :=
  match w with b0 :: b1 :: w' => if unit_value be b0 b1 =? 0xFEFF then w' else w | _ => w end.

Lemma surrogates u : 0 <= u -> (u >=? 0xD800) && (u <=? 0xDBFF) = is_high u /\ (u >=? 0xDC00) && (u <=? 0xDFFF) = is_low u.
Proof. intros H. unfold is_high, is_low. split; apply eq_true_iff_eq; bool_to_prop; split; intros; bool_to_prop; lia. Qed.

(** One round: what the unit at [i] and its successor make of the range. *)
Lemma utf16_pair_range be d (i n : nat) b0 b1 w : Forall byte d -> (i + n <= length d)%nat ->
  take n (drop i d) = b0 :: b1 :: w -> let u := unit_value be b0 b1 in
  exists o (k : nat) w', Encodings.utf16_pair be (Some d) (i + 2)%nat (i + n)%nat u = Ok (o, (i + k)%nat : Z)
  /\ (2 <= k <= n)%nat /\ take (n - k) (drop (i + k) d) = w'
  /\ utf16_pieces be (b0 :: b1 :: w) =
      match o with Some cp => Reads cp | None => Refused [b0; b1] 0 end :: utf16_pieces be w'
  /\ match o with Some cp => is_scalar cp | None => True end.
Proof.
  intros Hb Hl E u. pose proof (range_length _ _ _ _ Hl E) as Ln. cbn [length] in Ln.
  assert (Hw : Forall byte (b0 :: b1 :: w)) by (rewrite <- E; by apply Forall_take, Forall_drop).
  rewrite !Forall_cons in Hw. destruct Hw as (H0 & H1 & Hw). pose proof (unit_value_range be _ _ H0 H1) as Hu. fold u in Hu.
  destruct (range_rest d i n [b0; b1] w Hl E) as [_ Hr]. cbn [length] in Hr.
  unfold Encodings.utf16_pair. destruct (surrogates u) as [-> ->]; [lia|]. cbn [utf16_pieces]. fold u.
  destruct (is_high u) eqn:Eh; [|destruct (is_low u) eqn:El; [exists None, 2%nat, w; repeat split; (done || lia)|]].
  2:{ exists (Some u), 2%nat, w. repeat split; try done; try lia. unfold is_scalar, is_high, is_low in *. bool_to_prop; lia. }
  assert (Alone : utf16_pieces be (b0 :: b1 :: w) = Refused [b0; b1] 0 :: utf16_pieces be w ->
    exists o (k : nat) w', Ok (None, (i + 2)%nat : Z) = Ok (o, (i + k)%nat : Z)
    /\ (2 <= k <= n)%nat /\ take (n - k) (drop (i + k) d) = w'
    /\ utf16_pieces be (b0 :: b1 :: w) = match o with Some cp => Reads cp | None => Refused [b0; b1] 0 end :: utf16_pieces be w'
    /\ match o with Some cp => is_scalar cp | None => True end).
  { intros P. exists None, 2%nat, w. repeat split; try done; lia. }
  cbn [utf16_pieces] in Alone. fold u in Alone. rewrite Eh in Alone.
  destruct w as [|b2 [|b3 w]]; cbn [length] in *; decide_cmp; [by apply Alone..|].
  rewrite !Forall_cons in Hw. destruct Hw as (H2 & H3 & _).
  pose proof (unit_value_range be _ _ H2 H3) as Hv.
  rewrite (readUnit_value be d (i + 2) b2 b3), bind_Ok; [|done|done|by eapply range_lookup|
    replace (S (i + 2)) with (i + 3)%nat by lia; by eapply range_lookup].
  destruct (surrogates (unit_value be b2 b3)) as [_ ->]; [lia|].
  destruct (is_low (unit_value be b2 b3)) eqn:El; [|by apply Alone].
  destruct (range_rest d i n [b0; b1; b2; b3] w Hl E) as [_ Hr4]. cbn [length] in Hr4.
  unfold is_high, is_low in *. bool_to_prop. rewrite lor_shift by lia.
  replace ((i + 2)%nat + 2) with ((i + 4)%nat : Z) by lia. eexists (Some _), 4%nat, w. split; [done|].
  split; [lia|]. split; [done|]. split; [do 2 f_equal; lia|]. unfold is_scalar. lia.
Qed.

Lemma utf16_loop_pieces this be d : Forall byte d -> forall fuel (i n : nat), (i + n <= length d)%nat ->
  (n <= fuel)%nat ->
  Encodings.utf16_loop fuel this be (Some d) i (i + n)%nat =
    rendered (Encoding.decoderFallback_ this) (utf16_pieces be (take n (drop i d))).
Proof.
  intros Hb fuel. induction fuel as [|fuel IH]; intros i n Hl Hf; cbn [Encodings.utf16_loop].
  { decide_cmp. by replace n with 0%nat by lia. }
  destruct (take n (drop i d)) as [|b0 [|b1 w]] eqn:E; pose proof (range_length _ _ _ _ Hl E) as Ln; cbn [length] in Ln.
  - by decide_cmp.
  - decide_cmp. replace ((i + n)%nat - i) with (1%nat : Z) by lia. subst n.
    rewrite AppendDecoderFallback_refusal, E by lia. cbn [utf16_pieces rendered piece_text].
    by destruct (refusal _ _ _); cbn [bind]; rewrite ?app_nil_r.
  - decide_cmp. assert (Hw : Forall byte (b0 :: b1 :: w)) by (rewrite <- E; by apply Forall_take, Forall_drop).
    rewrite !Forall_cons in Hw. destruct Hw as (H0 & H1 & _).
    rewrite (readUnit_value be d i b0 b1), bind_Ok; [|done|done|rewrite <- (Nat.add_0_r i); by eapply range_lookup|
      rewrite <- Nat.add_1_r; by eapply range_lookup].
    destruct (utf16_pair_range be d i n b0 b1 w Hb Hl E) as (o & k & w' & P & Hk & W & -> & Ho).
    rewrite Nat2Z.inj_add in P at 1. change (Z.of_nat 2) with 2 in P. rewrite P, bind_Ok. cbn [rendered].
    replace (i + n)%nat with (i + k + (n - k))%nat by lia. rewrite IH, W by lia. f_equal.
    destruct o as [cp|]; cbn [piece_text]; [by rewrite utf8_Append_scalar|].
    pose proof (AppendDecoderFallback_refusal this d i 2 ltac:(lia) ltac:(lia) ltac:(lia)) as A. change (Z.of_nat 2) with 2 in A. rewrite A. f_equal.
    apply (f_equal (take 2)) in E. rewrite take_take, Nat.min_l in E by lia. exact E.
Qed.

Lemma utf16_pieces_sound be w : Forall byte w -> Forall sound_piece (utf16_pieces be w).
Proof.
  intros Hb. pose proof (utf16_pair_range be w) as R. remember (length w) as n eqn:En. revert w En Hb R.
  induction n as [n IH] using lt_wf_ind. intros w -> Hb R. destruct w as [|b0 [|b1 w]]; [constructor|by constructor|].
  destruct (R 0%nat (length (b0 :: b1 :: w)) b0 b1 w Hb (le_n _)) as (o & k & w' & _ & Hk & W & -> & Ho);
    [by rewrite drop_0, firstn_all|]. rewrite Nat.add_0_l, take_ge in W by (rewrite length_drop; lia).
  subst w'. constructor; [by destruct o|].
  apply (IH (length (drop k (b0 :: b1 :: w)))); [rewrite length_drop; cbn [length] in *; lia|done|by apply Forall_drop|].
  intros. by apply utf16_pair_range.
Qed.

Lemma unit_bytes_length be u : length (unit_bytes be u) = 2%nat.
Proof. by destruct be. Qed.

(** One round over the units of a scalar. *)
Lemma utf16_loop_scalar this be d fuel (i e : nat) cp rest : is_scalar cp -> (i + length (utf16 be cp) <= e)%nat ->
  drop i d = utf16 be cp ++ rest ->
  Encodings.utf16_loop (S fuel) this be (Some d) i e =
    (r <- Encodings.utf16_loop fuel this be (Some d) (i + length (utf16 be cp))%nat e ;; Ok (utf8 cp ++ r)).
Proof.
  intros Hs Hl Hd. rewrite utf16_length in *. unfold utf16 in Hd. cbn [Encodings.utf16_loop].
  rewrite <- (utf8_Append_scalar cp Hs). unfold is_scalar in Hs. destruct (cp <? 0x10000) eqn:E; bool_to_prop.
  - decide_cmp. rewrite (readUnit_unit be d i cp rest) by (lia || done). rewrite bind_Ok.
    assert (P : Encodings.utf16_pair be (Some d) (i + 2) e cp = Ok (Some cp, i + 2)).
    { unfold Encodings.utf16_pair. destruct (_ && (cp <=? 0xDBFF)) eqn:E1; [bool_to_prop; lia|].
      destruct (_ && (cp <=? 0xDFFF)) eqn:E2; [bool_to_prop; lia|done]. }
    rewrite P, bind_Ok. cbn [bind]. by rewrite Nat2Z.inj_add.
  - decide_cmp. rewrite <- app_assoc in Hd. rewrite (readUnit_unit be d i (0xD800 + (cp - 0x10000) / 1024) _ ltac:(zlia) Hd), bind_Ok.
    assert (Hd2 : drop (i + 2) d = unit_bytes be (0xDC00 + (cp - 0x10000) mod 1024) ++ rest).
    { rewrite <- drop_drop, Hd. by rewrite drop_app_length' by by rewrite unit_bytes_length. }
    pose proof (readUnit_unit be d (i + 2) (0xDC00 + (cp - 0x10000) mod 1024) _ ltac:(zlia) Hd2) as R. rewrite Nat2Z.inj_add in R. change (Z.of_nat 2) with 2 in R.
    assert (P : Encodings.utf16_pair be (Some d) (i + 2) e (0xD800 + (cp - 0x10000) / 1024) = Ok (Some cp, i + 4)).
    { unfold Encodings.utf16_pair. assert (0 <= (cp - 0x10000) / 1024 < 1024) by zlia.
      pose proof (Z.mod_pos_bound (cp - 0x10000) 1024 ltac:(lia)). decide_cmp. rewrite R, bind_Ok. decide_cmp.
      do 2 f_equal; [|lia]. f_equal. rewrite lor_shift by lia. zlia. }
    rewrite P, bind_Ok. cbn [bind]. by rewrite Nat2Z.inj_add.
Qed.

Lemma utf16_loop_end fuel this be data i : Encodings.utf16_loop fuel this be data i i = Ok [].
Proof. destruct fuel; cbn; by decide_cmp. Qed.

Lemma utf16_loop_encoded this be d cps : Forall is_scalar cps -> forall fuel (i : nat) rest,
  drop i d = concat (map (utf16 be) cps) ++ rest -> (length cps <= fuel)%nat ->
  Encodings.utf16_loop fuel this be (Some d) i (i + length (concat (map (utf16 be) cps)))%nat = Ok (encoded cps).
Proof.
  induction 1 as [|cp cps Hs _ IH]; intros fuel i rest Hd Hf; cbn [map concat] in *.
  { cbn [length]. rewrite Nat.add_0_r. by rewrite utf16_loop_end. }
  destruct fuel as [|fuel]; [cbn in Hf; lia|]. rewrite length_app. rewrite <- app_assoc in Hd.
  rewrite (utf16_loop_scalar this be d fuel i _ cp (concat (map (utf16 be) cps) ++ rest)) by (lia || done).
  rewrite Nat.add_assoc. rewrite (IH fuel _ rest); [done| |cbn in Hf; lia].
  by rewrite <- drop_drop, Hd, drop_app_length.
Qed.

(** What a decoder that skips a leading byte-order mark shows of a text. *)
Definition unmarked (cps : list Z) : list Z :=
  match cps with cp :: rest => if cp =? 0xFEFF then rest else cps | [] => [] end.

Lemma units_length (f : Z -> list Z) k cps : (forall cp, (k <= length (f cp))%nat) ->
  (k * length cps <= length (concat (map f cps)))%nat.
Proof.
  intros Hf. induction cps as [|cp cps IH]; [cbn; lia|]. cbn [map concat length]. rewrite length_app.
  specialize (Hf cp). lia.
Qed.

(** The decoder of UTF-16 reads back the units of any scalars, except that it drops
    a leading U+FEFF. *)
Lemma Unicode_GetString_encoded this be cps pre post : Forall is_scalar cps -> length pre < 2 ^ 31 ->
  let bs := concat (map (utf16 be) cps) in length bs < 2 ^ 31 ->
  Encodings.Unicode_GetString this be (Some (pre ++ bs ++ post)) (length pre) (length bs) = Ok (encoded (unmarked cps)).
Proof.
  intros Hs Hp bs Hn. unfold Encodings.Unicode_GetString.
  assert (Hc : (length cps <= length bs)%nat).
  { pose proof (units_length (utf16 be) 2 cps) as U. fold bs in U. enough (2 * length cps <= length bs)%nat by lia.
    apply U. intros cp. rewrite utf16_length. split_if; lia. }
  assert (Hd : drop (length pre) (pre ++ bs ++ post) = bs ++ post) by by rewrite drop_app_length.
  destruct cps as [|cp cps]; [by rewrite checked_empty by lia|].
  assert (H2 : (2 <= length bs)%nat) by (unfold bs; cbn [map concat]; rewrite length_app, utf16_length; split_if; lia).
  rewrite (checked_selected _ _ _ bs), bind_Ok; [| |lia].
  2:{ split; [lia|]. split; [lia|]. split; [lia|]. right. eexists. split; [done|].
      rewrite !Nat2Z.id, Hd, take_app_length. split; [rewrite !length_app; lia|done]. }
  decide_cmp. replace (length pre + length bs) with ((length pre + length bs)%nat : Z) by lia.
  replace ((length pre + length bs)%nat - length pre) with (length bs : Z) by lia. rewrite Nat2Z.id.
  apply Forall_cons in Hs as [Hc1 Hs]. unfold unmarked.
  set (D := pre ++ bs ++ post) in *. unfold bs in Hd. cbn [map concat] in Hd. rewrite <- app_assoc in Hd.
  destruct (cp =? 0xFEFF) eqn:E; bool_to_prop.
  - subst cp. change (utf16 be 0xFEFF) with (unit_bytes be 0xFEFF) in Hd.
    rewrite (readUnit_unit be _ _ 0xFEFF _ ltac:(lia) Hd), !bind_Ok. change (0xFEFF =? 0xFEFF) with true. cbv iota.
    replace (length pre + 2) with ((length pre + 2)%nat : Z) by lia.
    assert (Lb : length bs = (2 + length (concat (map (utf16 be) cps)))%nat)
      by (unfold bs; cbn [map concat]; rewrite length_app, utf16_length; done).
    rewrite Lb at 2. rewrite Nat.add_assoc.
    apply (utf16_loop_encoded this be _ cps Hs _ _ post); [|cbn [length] in Hc; lia].
    rewrite <- drop_drop, Hd. by rewrite drop_app_length' by by rewrite unit_bytes_length.
  - assert (B : exists u, Encodings.utf16_readUnit be (Some D) (length pre) = Ok u /\ u <> 0xFEFF).
    { unfold utf16 in Hd. unfold is_scalar in Hc1. destruct (cp <? 0x10000) eqn:E1; bool_to_prop.
      - exists cp. split; [|done]. apply (readUnit_unit be _ _ cp _ ltac:(lia) Hd).
      - rewrite <- app_assoc in Hd. exists (0xD800 + (cp - 0x10000) / 1024). split; [|zlia].
        eapply readUnit_unit; [zlia|exact Hd]. }
    destruct B as (u & -> & Hu). rewrite !bind_Ok. decide_cmp.
    apply (utf16_loop_encoded this be _ (cp :: cps) ltac:(by constructor) _ _ post); [|done].
    rewrite Hd. cbn [map concat]. by rewrite <- app_assoc.
Qed.

(** Any bytes: the pieces after a byte-order mark. *)
Lemma Unicode_GetString_pieces this be d (i n : nat) : Forall byte d -> (i + n <= length d)%nat ->
  i < 2 ^ 31 -> n < 2 ^ 31 ->
  Encodings.Unicode_GetString this be (Some d) i n =
    rendered (Encoding.decoderFallback_ this) (utf16_pieces be (utf16_unmarked be (take n (drop i d)))).
Proof.
  intros Hb Hl Hi Hn. unfold Encodings.Unicode_GetString. destruct (decide (n = 0)%nat) as [->|Hp].
  { by rewrite checked_empty by lia. }
  rewrite (checked_selected _ _ _ (take n (drop i d))) by (try apply selected_bytes; lia). rewrite bind_Ok.
  replace (i + n - i) with (n : Z) by lia. rewrite Nat2Z.id, <- Nat2Z.inj_add.
  destruct (take n (drop i d)) as [|b0 [|b1 w]] eqn:E; pose proof (range_length _ _ _ _ Hl E) as Ln; cbn [length] in Ln;
    decide_cmp; [lia| |].
  { by rewrite utf16_loop_pieces, E by (lia || done). }
  assert (Hw : Forall byte (b0 :: b1 :: w)) by (rewrite <- E; by apply Forall_take, Forall_drop).
  rewrite !Forall_cons in Hw. destruct Hw as (H0 & H1 & _).
  rewrite (readUnit_value be d i b0 b1), !bind_Ok; [|done|done|rewrite <- (Nat.add_0_r i); by eapply range_lookup|
    rewrite <- Nat.add_1_r; by eapply range_lookup].
  unfold utf16_unmarked. destruct (unit_value be b0 b1 =? 0xFEFF).
  - destruct (range_rest d i n [b0; b1] w Hl E) as [_ Hr]. cbn [length] in Hr.
    replace (i + 2) with ((i + 2)%nat : Z) by lia.
    assert (L : forall fuel, (n <= fuel)%nat -> Encodings.utf16_loop fuel this be (Some d) (i + 2)%nat (i + n)%nat =
      rendered (Encoding.decoderFallback_ this) (utf16_pieces be w)).
    { intros fuel Hf. replace (i + n)%nat with (i + 2 + (n - 2))%nat by lia. by rewrite utf16_loop_pieces, Hr by (lia || done). }
    by apply L.
  - by rewrite utf16_loop_pieces, E by (lia || done).
Qed.

(** ** UTF-32 *)

(** The value of four bytes. *)
Definition quad_value (be : bool) (b0 b1 b2 b3 : Z) : Z :=
  if be then ((b0 * 256 + b1) * 256 + b2) * 256 + b3 else ((b3 * 256 + b2) * 256 + b1) * 256 + b0.

Lemma quad_lor b0 b1 b2 b3 : byte b0 -> byte b1 -> byte b2 -> byte b3 ->
  Z.lor (Z.lor (Z.lor b0 (ushl 32 b1 8)) (ushl 32 b2 16)) (ushl 32 b3 24)
  = ((b3 * 256 + b2) * 256 + b1) * 256 + b0.
Proof.
  unfold byte, ushl. intros. eval_pow.
  assert (S : forall b n k, 0 <= b < 256 -> 0 <= n -> n + 8 <= 32 -> k = 2 ^ n -> wrapu 32 (Z.shiftl b n) = b * k).
  { intros b n k Hb Hn Hk ->. rewrite Z.shiftl_mul_pow2 by done. apply wrapu_id. unfold in_u.
    pose proof (Z.pow_pos_nonneg 2 n). assert (2 ^ 8 * 2 ^ n <= 2 ^ 32) by (rewrite <- Z.pow_add_r by lia; apply Z.pow_le_mono_r; lia).
    change (2 ^ 8) with 256 in *. nia. }
  rewrite (S b1 8 (2 ^ 8)), (S b2 16 (2 ^ 16)), (S b3 24 (2 ^ 24)) by lia.
  rewrite (lor_high b0), (lor_high (b0 + _)), (lor_high (b0 + _ + _)) by lia. lia.
Qed.

Lemma lor4_rev a b c d : Z.lor (Z.lor (Z.lor a b) c) d = Z.lor (Z.lor (Z.lor d c) b) a.
Proof. by rewrite (Z.lor_comm _ d), (Z.lor_comm _ c), (Z.lor_comm a b), !Z.lor_assoc. Qed.

Lemma readQuad_value be d (i : nat) b0 b1 b2 b3 rest : byte b0 -> byte b1 -> byte b2 -> byte b3 ->
  drop i d = b0 :: b1 :: b2 :: b3 :: rest ->
  Encodings.utf32_readUnit be (Some d) i = Ok (quad_value be b0 b1 b2 b3).
Proof.
  intros H0 H1 H2 H3 E. assert (L : forall k, d !! (i + k)%nat = (b0 :: b1 :: b2 :: b3 :: rest) !! k)
    by (intros k; by rewrite <- E, lookup_drop).
  unfold Encodings.utf32_readUnit.
  assert (G : forall k b, (b0 :: b1 :: b2 :: b3 :: rest) !! k = Some b -> Encoding.at_ (Some d) (i + Z.of_nat k) = Ok b).
  { intros k b Hk. rewrite <- Nat2Z.inj_add. apply at_lookup. by rewrite L. }
  rewrite <- (Z.add_0_r i). change 0 with (Z.of_nat 0) at 1. rewrite (G 0%nat b0 eq_refl), bind_Ok, Z.add_0_r.
  change (i + 1) with (i + Z.of_nat 1). change (i + 2) with (i + Z.of_nat 2). change (i + 3) with (i + Z.of_nat 3).
  rewrite (G 1%nat b1 eq_refl), bind_Ok, (G 2%nat b2 eq_refl), bind_Ok, (G 3%nat b3 eq_refl), bind_Ok.
  unfold quad_value. destruct be; cbn [negb]; [rewrite lor4_rev|]; by rewrite quad_lor.
Qed.

(** Reading the bytes of a scalar. *)
Lemma readQuad_scalar be d (i : nat) cp rest : is_scalar cp -> drop i d = utf32 be cp ++ rest ->
  Encodings.utf32_readUnit be (Some d) i = Ok cp.
Proof.
  intros Hs E. pose proof (utf32_byte be cp Hs) as B. unfold is_scalar in Hs. unfold utf32 in *.
  destruct be; cbn [rev app] in *; inversion B as [|? ? B0 B']; inversion B' as [|? ? B1 B'']; inversion B'' as [|? ? B2 B3]; 
    inversion B3 as [|? ? B4 _]; subst;
    (erewrite readQuad_value; [|exact B0|exact B1|exact B2|exact B4|exact E]); f_equal; unfold quad_value; zlia.
Qed.

(** The pieces of bytes read as UTF-32: four bytes are a scalar or are refused, and
    so are the one to three at the end. *)
Fixpoint utf32_pieces (be : bool) (w : list Z) : list piece :=
  match w with
  | b0 :: b1 :: b2 :: b3 :: w' =>
      let q := quad_value be b0 b1 b2 b3 in
      (if (q <? 0xD800) || (0xDFFF <? q) && (q <=? 0x10FFFF) then Reads q else Refused [b0; b1; b2; b3] 0)
        :: utf32_pieces be w'
  | [] => []
  | _ => [Refused w 0]
  end.

Definition utf32_unmarked (be : bool) (w : list Z) : list Z :=
  match w with b0 :: b1 :: b2 :: b3 :: w' => if quad_value be b0 b1 b2 b3 =? 0xFEFF then w' else w | _ => w end.

Lemma quad_nonneg be b0 b1 b2 b3 : byte b0 -> byte b1 -> byte b2 -> byte b3 -> 0 <= quad_value be b0 b1 b2 b3.
Proof. unfold byte, quad_value. intros. eval_pow. destruct be; lia. Qed.

Lemma readQuad_range be d (i n : nat) b0 b1 b2 b3 w : Forall byte d -> take n (drop i d) = b0 :: b1 :: b2 :: b3 :: w ->
  Encodings.utf32_readUnit be (Some d) i = Ok (quad_value be b0 b1 b2 b3)
  /\ byte b0 /\ byte b1 /\ byte b2 /\ byte b3.
Proof.
  intros Hb E. assert (Hw : Forall byte (b0 :: b1 :: b2 :: b3 :: w)) by (rewrite <- E; by apply Forall_take, Forall_drop).
  rewrite !Forall_cons in Hw. destruct Hw as (H0 & H1 & H2 & H3 & _). split; [|done].
  apply (readQuad_value be d i b0 b1 b2 b3 (w ++ drop n (drop i d))); try done.
  by rewrite <- (take_drop n (drop i d)) at 1; rewrite E.
Qed.

Lemma utf32_loop_pieces this be d : Forall byte d -> forall fuel (i n : nat), (i + n <= length d)%nat ->
  (n <= fuel)%nat ->
  Encodings.utf32_loop fuel this be (Some d) i (i + n)%nat =
    rendered (Encoding.decoderFallback_ this) (utf32_pieces be (take n (drop i d))).
Proof.
  intros Hb fuel. induction fuel as [|fuel IH]; intros i n Hl Hf; cbn [Encodings.utf32_loop].
  { decide_cmp. by replace n with 0%nat by lia. }
  destruct (take n (drop i d)) as [|b0 [|b1 [|b2 [|b3 w]]]] eqn:E; pose proof (range_length _ _ _ _ Hl E) as Ln; cbn [length] in Ln;
    decide_cmp; [done|..].
  1-3: replace ((i + n)%nat - i) with (n : Z) by lia; rewrite AppendDecoderFallback_refusal, E by lia;
    cbn [utf32_pieces rendered piece_text]; by destruct (refusal _ _ _); cbn [bind]; rewrite ?app_nil_r.
  destruct (readQuad_range be d i n b0 b1 b2 b3 w Hb E) as (-> & H0 & H1 & H2 & H3). rewrite bind_Ok.
  destruct (range_rest d i n [b0; b1; b2; b3] w Hl E) as [_ Hr]. cbn [length] in Hr.
  replace (i + 4) with ((i + 4)%nat : Z) by lia. replace (i + n)%nat with (i + 4 + (n - 4))%nat by lia.
  rewrite IH, Hr by lia. cbn [utf32_pieces rendered]. f_equal.
  pose proof (quad_nonneg be _ _ _ _ H0 H1 H2 H3) as Hq. set (q := quad_value be b0 b1 b2 b3) in *.
  assert (Hs : (q >? 0x10FFFF) || ((q >=? 0xD800) && (q <=? 0xDFFF)) = negb ((q <? 0xD800) || (0xDFFF <? q) && (q <=? 0x10FFFF)))
    by (apply eq_true_iff_eq; rewrite negb_true_iff; split; intros; [apply orb_false_iff, conj; [|apply andb_false_iff]|]; bool_to_prop; lia).
  rewrite Hs. clear Hs. destruct ((q <? 0xD800) || _) eqn:Ev; cbn [negb piece_text].
  - rewrite utf8_Append_scalar; [done|]. unfold is_scalar. bool_to_prop; lia.
  - pose proof (AppendDecoderFallback_refusal this d i 4 ltac:(lia) ltac:(lia) ltac:(lia)) as A. change (Z.of_nat 4) with 4 in A. rewrite A. f_equal.
    apply (f_equal (take 4)) in E. rewrite take_take, Nat.min_l in E by lia. exact E.
Qed.

Lemma utf32_pieces_sound be w : Forall byte w -> Forall sound_piece (utf32_pieces be w).
Proof.
  remember (length w) as n eqn:En. revert w En.
  induction n as [n IH] using lt_wf_ind. intros w -> Hb.
  destruct w as [|b0 [|b1 [|b2 [|b3 w]]]]; [constructor|by constructor..|].
  rewrite !Forall_cons in Hb. destruct Hb as (H0 & H1 & H2 & H3 & Hb). cbn [utf32_pieces]. constructor.
  - pose proof (quad_nonneg be _ _ _ _ H0 H1 H2 H3). split_if; cbn; (done || unfold is_scalar; lia).
  - apply (IH (length w)); [cbn; lia|done|done].
Qed.

Lemma utf32_loop_end fuel this be data i : Encodings.utf32_loop fuel this be data i i = Ok [].
Proof. destruct fuel; cbn; by decide_cmp. Qed.

Lemma utf32_loop_encoded this be d cps : Forall is_scalar cps -> forall fuel (i : nat) rest,
  drop i d = concat (map (utf32 be) cps) ++ rest -> (length cps <= fuel)%nat ->
  Encodings.utf32_loop fuel this be (Some d) i (i + length (concat (map (utf32 be) cps)))%nat = Ok (encoded cps).
Proof.
  induction 1 as [|cp cps Hs _ IH]; intros fuel i rest Hd Hf; cbn [map concat] in *.
  { cbn [length]. rewrite Nat.add_0_r. by rewrite utf32_loop_end. }
  destruct fuel as [|fuel]; [cbn in Hf; lia|]. rewrite length_app, utf32_length. rewrite <- app_assoc in Hd.
  cbn [Encodings.utf32_loop]. decide_cmp. rewrite (readQuad_scalar be d i cp _ Hs Hd), bind_Ok.
  destruct (_ || _) eqn:E; [unfold is_scalar in Hs; bool_to_prop; lia|]. rewrite utf8_Append_scalar, bind_Ok by done.
  replace (i + 4) with ((i + 4)%nat : Z) by lia. rewrite Nat.add_assoc. rewrite (IH fuel _ rest); [done| |cbn in Hf; lia].
  rewrite <- drop_drop, Hd. by rewrite drop_app_length' by by rewrite utf32_length.
Qed.

Lemma UTF32_GetString_encoded this be cps pre post : Forall is_scalar cps -> length pre < 2 ^ 31 ->
  let bs := concat (map (utf32 be) cps) in length bs < 2 ^ 31 ->
  Encodings.UTF32_GetString this be (Some (pre ++ bs ++ post)) (length pre) (length bs) = Ok (encoded (unmarked cps)).
Proof.
  intros Hs Hp bs Hn. unfold Encodings.UTF32_GetString.
  assert (Hc : (length cps <= length bs)%nat).
  { pose proof (units_length (utf32 be) 4 cps) as U. fold bs in U. enough (4 * length cps <= length bs)%nat by lia.
    apply U. intros cp. by rewrite utf32_length. }
  assert (Hd : drop (length pre) (pre ++ bs ++ post) = bs ++ post) by by rewrite drop_app_length.
  destruct cps as [|cp cps]; [by rewrite checked_empty by lia|].
  assert (Lb : length bs = (4 + length (concat (map (utf32 be) cps)))%nat)
    by (unfold bs; cbn [map concat]; by rewrite length_app, utf32_length).
  rewrite (checked_selected _ _ _ bs), bind_Ok; [| |lia].
  2:{ split; [lia|]. split; [lia|]. split; [lia|]. right. eexists. split; [done|].
      rewrite !Nat2Z.id, Hd, take_app_length. split; [rewrite !length_app; lia|done]. }
  decide_cmp. replace (length pre + length bs) with ((length pre + length bs)%nat : Z) by lia.
  replace ((length pre + length bs)%nat - length pre) with (length bs : Z) by lia. rewrite Nat2Z.id.
  apply Forall_cons in Hs as [Hc1 Hs]. unfold unmarked.
  set (D := pre ++ bs ++ post) in *. assert (Hd' := Hd). unfold bs in Hd. cbn [map concat] in Hd. rewrite <- app_assoc in Hd.
  rewrite (readQuad_scalar be D (length pre) cp _ Hc1 Hd), !bind_Ok. destruct (cp =? 0xFEFF) eqn:E; bool_to_prop.
  - replace (length pre + 4) with ((length pre + 4)%nat : Z) by lia.
    rewrite Lb at 2. rewrite Nat.add_assoc.
    apply (utf32_loop_encoded this be _ cps Hs _ _ post); [|cbn [length] in Hc; lia].
    rewrite <- drop_drop, Hd. by rewrite drop_app_length' by by rewrite utf32_length.
  - apply (utf32_loop_encoded this be _ (cp :: cps) ltac:(by constructor) _ _ post); done.
Qed.

Lemma UTF32_GetString_pieces this be d (i n : nat) : Forall byte d -> (i + n <= length d)%nat ->
  i < 2 ^ 31 -> n < 2 ^ 31 ->
  Encodings.UTF32_GetString this be (Some d) i n =
    rendered (Encoding.decoderFallback_ this) (utf32_pieces be (utf32_unmarked be (take n (drop i d)))).
Proof.
  intros Hb Hl Hi Hn. unfold Encodings.UTF32_GetString. destruct (decide (n = 0)%nat) as [->|Hp].
  { by rewrite checked_empty by lia. }
  rewrite (checked_selected _ _ _ (take n (drop i d))) by (try apply selected_bytes; lia). rewrite bind_Ok.
  replace (i + n - i) with (n : Z) by lia. rewrite Nat2Z.id, <- Nat2Z.inj_add.
  destruct (take n (drop i d)) as [|b0 [|b1 [|b2 [|b3 w]]]] eqn:E; pose proof (range_length _ _ _ _ Hl E) as Ln; cbn [length] in Ln;
    decide_cmp; [lia|..].
  1-3: by rewrite utf32_loop_pieces, E by (lia || done).
  destruct (readQuad_range be d i n b0 b1 b2 b3 w Hb E) as (-> & _). rewrite !bind_Ok.
  unfold utf32_unmarked. destruct (quad_value be b0 b1 b2 b3 =? 0xFEFF).
  - destruct (range_rest d i n [b0; b1; b2; b3] w Hl E) as [_ Hr]. cbn [length] in Hr.
    replace (i + 4) with ((i + 4)%nat : Z) by lia.
    assert (L : forall fuel, (n <= fuel)%nat -> Encodings.utf32_loop fuel this be (Some d) (i + 4)%nat (i + n)%nat =
      rendered (Encoding.decoderFallback_ this) (utf32_pieces be w)).
    { intros fuel Hf. replace (i + n)%nat with (i + 4 + (n - 4))%nat by lia. by rewrite utf32_loop_pieces, Hr by (lia || done). }
    by apply L.
  - by rewrite utf32_loop_pieces, E by (lia || done).
Qed.
