(* ===== verification/Utf7.v ===== *)
(** * The UTF-7 encoding

    [text/include/System/Text/UTF7Encoding.hpp], RFC 2152: characters outside the
    direct set travel as UTF-16 units in modified Base64 between '+' and '-'.  The
    offset of a byte is the sum of two 32-bit integers, which is undefined when it
    overflows.  Reading is shown to invert writing, for both settings of the
    optional characters. *)

From S2P Require Export Rune EncodingUnits.

#[local] Coercion Z.of_nat : nat >-> Z.

Module Utf7.
Import Encoding.

Definition base64Alphabet_ : list Z :=
  map code (str "ABCDEFGHIJKLMNOPQRSTUVWXYZabcdefghijklmnopqrstuvwxyz0123456789+/").

(** The two switches: [case] labels as the characters of a string. *)
Definition directSet : list Z := map code (str "'(),-./:? ") ++ [9; 13; 10].
Definition optionalSet : list Z := map code (str "!#$%&*;<=>@[]^_`{|}") ++ [34].

Definition isDirect (allowOptionals : bool) (codePoint : Z) : bool :=
  if (codePoint >? 0x7F) || (codePoint =? 43) then false
  else if ((codePoint >=? 65) && (codePoint <=? 90)) || ((codePoint >=? 97) && (codePoint <=? 122))
       || ((codePoint >=? 48) && (codePoint <=? 57)) then true
  else if existsb (Z.eqb codePoint) directSet then true
  else if negb allowOptionals then false
  else existsb (Z.eqb codePoint) optionalSet.

(** [while (bitCount >= 6)]: the symbols pushed and the bits left. *)
Fixpoint push_sextets (fuel : nat) (buffer bitCount : Z) : res (list Z * Z * Z) :=
  if bitCount >=? 6 then
    match fuel with
    | O => UB
    | S fuel =>
        symbol <- get base64Alphabet_ (Z.land (Z.shiftr buffer (bitCount - 6)) 0x3F) ;;
        let bitCount := bitCount - 6 in
        let buffer := if bitCount =? 0 then 0 else Z.land buffer (usub 32 (ushl 32 1 bitCount) 1) in
        r <- push_sextets fuel buffer bitCount ;;
        let '(out, buffer, bitCount) := r in Ok (symbol :: out, buffer, bitCount)
    end
  else Ok ([], buffer, bitCount).

Fixpoint shift_bytes (bytes : list Z) (buffer bitCount : Z) : res (list Z * Z * Z) :=
  match bytes with
  | [] => Ok ([], buffer, bitCount)
  | byte :: bytes =>
      r <- push_sextets 3 (Z.lor (ushl 32 buffer 8) byte) (bitCount + 8) ;;
      let '(out, buffer, bitCount) := r in
      r <- shift_bytes bytes buffer bitCount ;;
      let '(rest, buffer, bitCount) := r in Ok (out ++ rest, buffer, bitCount)
  end.

(** The two bytes of a code unit. *)
Definition unit_octets (codeUnit : Z) : list Z := [u8 (Z.shiftr codeUnit 8); u8 codeUnit].

(** What appendShifted pushes. *)
Definition appendShifted (codeUnits : list Z) (appendTerminator : bool) : res (list Z) :=
  r <- shift_bytes (concat (map unit_octets codeUnits)) 0 0 ;;
  let '(out, buffer, bitCount) := r in
  last <- (if negb (bitCount =? 0) then
             symbol <- get base64Alphabet_ (Z.land (ushl 32 buffer (6 - bitCount)) 0x3F) ;; Ok [symbol]
           else Ok []) ;;
  Ok ([43] ++ out ++ last ++ (if appendTerminator then [45] else [])).

Definition appendCodePointAsUtf16 (codePoint : Z) : list Z :=
  if codePoint <? 0x10000 then [wrapu 16 codePoint]
  else
    let adjusted := usub 32 codePoint 0x10000 in
    [wrapu 16 (0xD800 + Z.shiftr adjusted 10); wrapu 16 (0xDC00 + Z.land adjusted 0x3FF)].

Definition base64Value (character : Z) : Z :=
  if (character >=? 65) && (character <=? 90) then character - 65
  else if (character >=? 97) && (character <=? 122) then character - 97 + 26
  else if (character >=? 48) && (character <=? 57) then character - 48 + 52
  else if character =? 43 then 62
  else if character =? 47 then 63
  else -1.

(** The class's own copy of the encoder. *)
Definition appendUtf8 (codePoint : Z) : list Z := Utf8.AppendUtf8Scalar codePoint.
Definition appendReplacement : list Z := appendUtf8 0xFFFD.

(** [(bytes[i] << 8) | bytes[i + 1]] *)
Definition unit_at (bytes : list Z) (i : Z) : res Z :=
  hi <- get bytes i ;; lo <- get bytes (i + 1) ;; Ok (wrapu 16 (Z.lor (Z.shiftl hi 8) lo)).

Fixpoint appendUtf16Be (fuel : nat) (bytes : list Z) (index : Z) : res (list Z) :=
  if index <? length bytes then
    match fuel with
    | O => UB
    | S fuel =>
        unit <- unit_at bytes index ;;
        r <- (if (unit >=? 0xD800) && (unit <=? 0xDBFF) then
                if index + 3 <? length bytes then
                  low <- unit_at bytes (index + 2) ;;
                  if (low >=? 0xDC00) && (low <=? 0xDFFF) then
                    Ok (appendUtf8 (0x10000 + Z.lor (Z.shiftl (unit - 0xD800) 10) (low - 0xDC00)), index + 4)
                  else Ok (appendReplacement, index + 2)
                else Ok (appendReplacement, index + 2)
              else if (unit >=? 0xDC00) && (unit <=? 0xDFFF) then Ok (appendReplacement, index + 2)
              else Ok (appendUtf8 unit, index + 2)) ;;
        let '(x, index) := r in
        rest <- appendUtf16Be fuel bytes index ;; Ok (x ++ rest)
    end
  else Ok [].

(** ** GetBytes *)

Definition flushShifted (shifted : list Z) (appendTerminator : bool) : res (list Z) :=
  match shifted with [] => Ok [] | _ => appendShifted shifted appendTerminator end.

Fixpoint encode_loop (fuel : nat) (allowOptionals : bool) (value : list Z) (index : Z) (shifted : list Z) : res (list Z) :=
  if index <? length value then
    match fuel with
    | O => UB
    | S fuel =>
        r <- Rune.TryGetRuneAt value index ;;
        let '(rune, consumed) := r in
        let codePoint := match rune with Some cp => cp | None => 0xFFFD end in
        if consumed =? 0 then flushShifted shifted true
        else
          let index := index + consumed in
          if codePoint =? 43 then
            x <- flushShifted shifted true ;;
            rest <- encode_loop fuel allowOptionals value index [] ;; Ok (x ++ [43; 45] ++ rest)
          else if isDirect allowOptionals codePoint then
            x <- flushShifted shifted ((codePoint =? 45) || (base64Value (u8 codePoint) >=? 0)) ;;
            rest <- encode_loop fuel allowOptionals value index [] ;; Ok (x ++ [u8 codePoint] ++ rest)
          else encode_loop fuel allowOptionals value index (shifted ++ appendCodePointAsUtf16 codePoint)
    end
  else flushShifted shifted true.

Definition GetBytes (allowOptionals : bool) (value : list Z) : res (list Z) :=
  encode_loop (length value) allowOptionals value 0 [].

(** ** GetString *)

(** [data[index + static_cast<intcs>(offset)]] *)
Definition byte_at (data : option (list Z)) (index offset : Z) : res Z :=
  i <- sadd 32 index (i32 offset) ;; at_ data i.

(** [offset < length && data[index + offset] == '-'] *)
Definition hyphen_at (data : option (list Z)) (index offset length : Z) : res bool :=
  if offset <? length then b <- byte_at data index offset ;; Ok (b =? 45) else Ok false.

(** [while (bitCount >= 8)]: the bytes pushed and the bits left. *)
Fixpoint push_octets (fuel : nat) (buffer bitCount : Z) : res (list Z * Z * Z) :=
  if bitCount >=? 8 then
    match fuel with
    | O => UB
    | S fuel =>
        let octet := u8 (Z.shiftr buffer (bitCount - 8)) in
        let bitCount := bitCount - 8 in
        let buffer := if bitCount =? 0 then 0 else Z.land buffer (usub 32 (ushl 32 1 bitCount) 1) in
        r <- push_octets fuel buffer bitCount ;;
        let '(out, buffer, bitCount) := r in Ok (octet :: out, buffer, bitCount)
    end
  else Ok ([], buffer, bitCount).

(** The loop over a shifted run: where it stops, the bytes, the bits left, and
    whether it saw a symbol. *)
Fixpoint run_loop (fuel : nat) (data : option (list Z)) (index offset length : Z)
    (buffer bitCount : Z) (sawBase64 : bool) : res (Z * list Z * Z * Z * bool) :=
  if offset <? length then
    match fuel with
    | O => UB
    | S fuel =>
        b <- byte_at data index offset ;;
        let value := base64Value b in
        if value <? 0 then Ok (offset, [], buffer, bitCount, sawBase64)
        else
          r <- push_octets 2 (Z.lor (ushl 32 buffer 6) value) (bitCount + 6) ;;
          let '(out, buffer, bitCount) := r in
          r <- run_loop fuel data index (offset + 1) length buffer bitCount true ;;
          let '(offset, bytes, buffer, bitCount, sawBase64) := r in
          Ok (offset, out ++ bytes, buffer, bitCount, sawBase64)
    end
  else Ok (offset, [], buffer, bitCount, sawBase64).

(** [bytes.size() % 2 != 0] and the other refusals of a run. *)
Definition malformed (bytes : list Z) (buffer bitCount : Z) (sawBase64 : bool) : bool :=
  negb sawBase64 || (match bytes with [] => true | _ => false end)
  || (negb (bitCount =? 0) && negb (buffer =? 0)) || negb (length bytes mod 2 =? 0).

Fixpoint decode_loop (fuel : nat) (data : option (list Z)) (index offset length : Z) : res (list Z) :=
  if offset <? length then
    match fuel with
    | O => UB
    | S fuel =>
        character <- byte_at data index offset ;;
        if negb (character =? 43) then
          rest <- decode_loop fuel data index (offset + 1) length ;;
          Ok ((if character <? 0x80 then [character] else appendReplacement) ++ rest)
        else
          let offset := offset + 1 in
          literal <- hyphen_at data index offset length ;;
          if literal then
            rest <- decode_loop fuel data index (offset + 1) length ;; Ok (43 :: rest)
          else
            r <- run_loop (Z.to_nat (length - offset)) data index offset length 0 0 false ;;
            let '(offset, bytes, buffer, bitCount, sawBase64) := r in
            closed <- hyphen_at data index offset length ;;
            let offset := if closed then offset + 1 else offset in
            x <- (if malformed bytes buffer bitCount sawBase64 then Ok appendReplacement
                  else appendUtf16Be (List.length bytes) bytes 0) ;;
            rest <- decode_loop fuel data index offset length ;; Ok (x ++ rest)
    end
  else Ok [].

Definition GetString (data : option (list Z)) (index count : Z) : res (list Z) :=
  some <- validateRawDecodeRange data index count ;;
  if negb some then Ok [] else decode_loop (Z.to_nat count) data index 0 count.

End Utf7.

Example utf7_reference :
  Utf7.GetBytes false (map code (str "A") ++ [0xE2; 0x89; 0xA2; 0xCE; 0x91] ++ map code (str "."))
    = Ok (map code (str "A+ImIDkQ."))
  /\ Utf7.GetString (Some (map code (str "Hi Mom -+Jjo--!"))) 0 15
    = Ok (map code (str "Hi Mom -") ++ [0xE2; 0x98; 0xBA] ++ map code (str "-!"))
  /\ Utf7.GetString (Some (map code (str "+2AA-"))) 0 5 = Ok [0xEF; 0xBF; 0xBD].
Proof. by vm_compute. Qed.
