(* ===== verification/Utf7Bits.v ===== *)
(** * UTF-7: bit streams

    A run of shifted characters is one number, written eight bits at a time on one
    side and six on the other: what the encoder of [Utf7] pushes denotes, digit by
    digit, the bytes it was given, and the reader's loop recovers them with no bit
    left over. *)

From S2P Require Export Utf7.

#[local] Coercion Z.of_nat : nat >-> Z.

(** ** Numbers in base [2^k], most significant digit first *)

Definition val (k : Z) (l : list Z) : Z := foldl (fun a d => a * 2 ^ k + d) 0 l.

Lemma foldl_val k l : 0 <= k -> forall a, foldl (fun a d => a * 2 ^ k + d) a l = a * 2 ^ (k * length l) + val k l.
Proof.
  intros Hk. unfold val. induction l as [|d l IH]; intros a; cbn [foldl length]; [rewrite Z.mul_0_r; lia|].
  rewrite IH, (IH (0 * 2 ^ k + d)). rewrite Nat2Z.inj_succ, Z.mul_succ_r, Z.pow_add_r by lia. lia.
Qed.

Lemma val_cons k d l : 0 <= k -> val k (d :: l) = d * 2 ^ (k * length l) + val k l.
Proof. intros Hk. unfold val at 1. cbn [foldl]. rewrite foldl_val by done. lia. Qed.

Lemma val_app k a b : 0 <= k -> val k (a ++ b) = val k a * 2 ^ (k * length b) + val k b.
Proof. intros Hk. unfold val at 1. rewrite foldl_app. by rewrite foldl_val. Qed.

Lemma val_range k l : 0 <= k -> Forall (in_u k) l -> 0 <= val k l < 2 ^ (k * length l).
Proof.
  intros Hk H. induction H as [|d l [Hd Hd'] _ IH]; [cbn; rewrite Z.mul_0_r; lia|].
  rewrite val_cons by done. cbn [length]. rewrite Nat2Z.inj_succ, Z.mul_succ_r, Z.pow_add_r by lia. nia.
Qed.

Lemma val_inj k a : 0 <= k -> Forall (in_u k) a -> forall b, Forall (in_u k) b -> length a = length b ->
  val k a = val k b -> a = b.
Proof.
  intros Hk Ha. induction Ha as [|d a [Hd Hd'] Ha IH]; intros b Hb Hl E; destruct b as [|e b]; try done.
  apply Forall_cons in Hb as [[He He'] Hb]. injection Hl as Hl. rewrite !val_cons in E by done.
  rewrite <- Hl in E. pose proof (val_range k a Hk Ha) as Ra. pose proof (val_range k b Hk Hb) as Rb.
  rewrite <- Hl in Rb. assert (d = e) by nia. subst e. f_equal. apply IH; [done|done|]. nia.
Qed.

(** ** The alphabet *)

Definition symbol (s : Z) : Z := nth (Z.to_nat s) Utf7.base64Alphabet_ 0.

Definition sextet6 (s : Z) : Prop := in_u 6 s.

Lemma symbol_get s : sextet6 s -> get Utf7.base64Alphabet_ s = Ok (symbol s).
Proof.
  unfold sextet6. intros Hs. eval_pow. apply get_Ok; [lia|]. unfold symbol.
  destruct (lookup_lt_is_Some_2 Utf7.base64Alphabet_ (Z.to_nat s)) as [c Hc].
  { change (length Utf7.base64Alphabet_) with 64%nat. lia. }
  rewrite Hc. f_equal. symmetry. by apply nth_lookup_Some.
Qed.

(** A fact about every sextet, by evaluation. *)
Lemma by_sextets (p : Z -> bool) : forallb (fun n => p (Z.of_nat n)) (seq 0 64) = true ->
  forall s, sextet6 s -> p s = true.
Proof.
  intros H s Hs. unfold sextet6 in Hs. eval_pow. rewrite <- (Z2Nat.id s) by lia.
  apply (proj1 (forallb_forall _ _) H). apply in_seq. lia.
Qed.

Lemma base64Value_symbol s : sextet6 s -> Utf7.base64Value (symbol s) = s.
Proof. intros H. apply Z.eqb_eq, (by_sextets (fun s => Utf7.base64Value (symbol s) =? s) eq_refl s H). Qed.

Lemma symbol_byte s : sextet6 s -> 0 <= symbol s < 128.
Proof.
  intros H. pose proof (by_sextets (fun s => (0 <=? symbol s) && (symbol s <? 128)) eq_refl s H). cbv beta in *.
  bool_to_prop. lia.
Qed.

(** ** Cutting bits off a buffer *)

Lemma mask_mod b c : 0 <= c < 32 -> Z.land b (usub 32 (ushl 32 1 c) 1) = b mod 2 ^ c.
Proof.
  intros Hc. unfold ushl. rewrite Z.shiftl_mul_pow2, Z.mul_1_l by lia.
  pose proof (Z.pow_pos_nonneg 2 c ltac:(lia) ltac:(lia)). pose proof (Z.pow_lt_mono_r 2 c 32 ltac:(lia) ltac:(lia) ltac:(lia)).
  rewrite (wrapu_id 32) by (split; lia). unfold usub. rewrite wrapu_id by (split; lia). apply land_mask. lia.
Qed.

(** The bits kept, [0] when none are. *)
Lemma kept_bits b c : 0 <= c < 32 ->
  (if c =? 0 then 0 else Z.land b (usub 32 (ushl 32 1 c) 1)) = b mod 2 ^ c.
Proof. intros Hc. split_if; [subst; cbn; by rewrite Z.mod_1_r|]. by apply mask_mod. Qed.

Lemma push_sextets_spec (fuel : nat) : forall b c, 0 <= c < 32 -> c < 6 * fuel + 6 -> 0 <= b < 2 ^ c ->
  exists ss b' c', Utf7.push_sextets fuel b c = Ok (map symbol ss, b', c')
  /\ Forall sextet6 ss /\ 0 <= c' < 6 /\ 0 <= b' < 2 ^ c' /\ c = 6 * length ss + c' /\ b = val 6 ss * 2 ^ c' + b'.
Proof.
  induction fuel as [|fuel IH]; intros b c Hc Hf Hb; cbn [Utf7.push_sextets].
  { decide_cmp. exists [], b, c. repeat (split; [done || lia|]). cbn. lia. }
  destruct (Z.lt_ge_cases c 6).
  { decide_cmp. exists [], b, c. repeat (split; [done || lia|]). cbn. lia. }
  decide_cmp. change 0x3F with (2 ^ 6 - 1). rewrite land_mask, Z.shiftr_div_pow2 by lia.
  assert (Hp : 2 ^ c = 2 ^ 6 * 2 ^ (c - 6)) by (rewrite <- Z.pow_add_r by lia; f_equal; lia).
  pose proof (Z.pow_pos_nonneg 2 (c - 6) ltac:(lia) ltac:(lia)).
  assert (Hs : 0 <= b / 2 ^ (c - 6) < 2 ^ 6) by (split; [apply Z.div_pos; lia|apply Z.div_lt_upper_bound; lia]).
  rewrite (Z.mod_small _ _ Hs), symbol_get, bind_Ok, kept_bits by (done || lia).
  destruct (IH (b mod 2 ^ (c - 6)) (c - 6)) as (ss & b' & c' & E & Hss & Hc' & Hb' & El & Ev);
    [lia|lia|apply Z.mod_pos_bound; lia|].
  rewrite E, bind_Ok. exists (b / 2 ^ (c - 6) :: ss), b', c'. split; [done|]. split; [by constructor|].
  split; [done|]. split; [done|]. split; [cbn [length]; lia|].
  rewrite val_cons by lia. rewrite (Z.div_mod b (2 ^ (c - 6))) at 1 by lia. rewrite Ev.
  rewrite El. replace (6 * length ss + c' + 6 - 6) with (6 * length ss + c') by lia.
  replace (c - 6) with (6 * length ss + c') in * by lia. rewrite Z.pow_add_r by lia. ring.
Qed.

Lemma push_octets_spec (fuel : nat) : forall b c, 0 <= c < 32 -> c < 8 * fuel + 8 -> 0 <= b < 2 ^ c ->
  exists bs b' c', Utf7.push_octets fuel b c = Ok (bs, b', c')
  /\ Forall byte bs /\ 0 <= c' < 8 /\ 0 <= b' < 2 ^ c' /\ c = 8 * length bs + c' /\ b = val 8 bs * 2 ^ c' + b'.
Proof.
  induction fuel as [|fuel IH]; intros b c Hc Hf Hb; cbn [Utf7.push_octets].
  { decide_cmp. exists [], b, c. repeat (split; [done || lia|]). cbn. lia. }
  destruct (Z.lt_ge_cases c 8).
  { decide_cmp. exists [], b, c. repeat (split; [done || lia|]). cbn. lia. }
  decide_cmp. rewrite Z.shiftr_div_pow2 by lia.
  assert (Hp : 2 ^ c = 2 ^ 8 * 2 ^ (c - 8)) by (rewrite <- Z.pow_add_r by lia; f_equal; lia).
  pose proof (Z.pow_pos_nonneg 2 (c - 8) ltac:(lia) ltac:(lia)).
  assert (Hs : 0 <= b / 2 ^ (c - 8) < 2 ^ 8) by (split; [apply Z.div_pos; lia|apply Z.div_lt_upper_bound; lia]).
  unfold u8. rewrite wrapu_id, kept_bits by (done || lia).
  destruct (IH (b mod 2 ^ (c - 8)) (c - 8)) as (bs & b' & c' & E & Hss & Hc' & Hb' & El & Ev);
    [lia|lia|apply Z.mod_pos_bound; lia|].
  rewrite E, bind_Ok. exists (b / 2 ^ (c - 8) :: bs), b', c'. split; [done|]. split; [by constructor|].
  split; [done|]. split; [done|]. split; [cbn [length]; lia|].
  rewrite val_cons by lia. rewrite (Z.div_mod b (2 ^ (c - 8))) at 1 by lia. rewrite Ev.
  replace (c - 8) with (8 * length bs + c') in * by lia. rewrite Z.pow_add_r by lia. ring.
Qed.

(** A digit appended to the bits of a buffer. *)
Lemma append_bits b d c k : 0 <= b < 2 ^ c -> 0 <= c -> 0 <= k -> in_u k d -> c + k <= 32 ->
  Z.lor (ushl 32 b k) d = b * 2 ^ k + d /\ 0 <= b * 2 ^ k + d < 2 ^ (c + k).
Proof.
  intros Hb Hc Hk Hd Hw. unfold in_u in Hd. rewrite Z.pow_add_r by done.
  assert (B : 0 <= b * 2 ^ k + d < 2 ^ c * 2 ^ k) by nia. split; [|done].
  unfold ushl. rewrite Z.shiftl_mul_pow2, wrapu_id by (rewrite ?Z.shiftl_mul_pow2 by done; (done || (split; [nia|]);
    pose proof (Z.pow_le_mono_r 2 (c + k) 32 ltac:(lia) Hw); rewrite Z.pow_add_r in * by done; nia)).
  rewrite <- Z.shiftl_mul_pow2 by done. by rewrite lor_shift, Z.shiftl_mul_pow2 by done.
Qed.

(** ** Writing *)

Lemma shift_bytes_spec bytes : Forall byte bytes -> forall b c, 0 <= c < 6 -> 0 <= b < 2 ^ c ->
  exists ss b' c', Utf7.shift_bytes bytes b c = Ok (map symbol ss, b', c')
  /\ Forall sextet6 ss /\ 0 <= c' < 6 /\ 0 <= b' < 2 ^ c' /\ c + 8 * length bytes = 6 * length ss + c'
  /\ b * 2 ^ (8 * length bytes) + val 8 bytes = val 6 ss * 2 ^ c' + b'.
Proof.
  induction 1 as [|x bytes Hx _ IH]; intros b c Hc Hb; cbn [Utf7.shift_bytes].
  { exists [], b, c. repeat (split; [done || (cbn; lia)|]). cbn. lia. }
  destruct (append_bits b x c 8 Hb ltac:(lia) ltac:(lia) Hx ltac:(lia)) as [-> Hb2].
  destruct (push_sextets_spec 3 _ (c + 8) ltac:(lia) ltac:(lia) Hb2) as (s1 & b1 & c1 & -> & F1 & Hc1 & Hb1 & L1 & V1).
  rewrite bind_Ok. destruct (IH b1 c1 Hc1 Hb1) as (s2 & b2 & c2 & -> & F2 & Hc2 & Hb2' & L2 & V2).
  rewrite bind_Ok. exists (s1 ++ s2), b2, c2. rewrite map_app. split; [done|].
  split; [by apply Forall_app|]. split; [done|]. split; [done|]. rewrite length_app. cbn [length].
  split; [lia|]. rewrite val_app, val_cons by lia.
  assert (P : 2 ^ (c1 + 8 * length bytes) = 2 ^ (6 * length s2) * 2 ^ c2)
    by (rewrite <- Z.pow_add_r by lia; f_equal; lia).
  rewrite Z.pow_add_r in P by lia.
  replace (8 * S (length bytes)) with (8 + 8 * length bytes) by lia. rewrite Z.pow_add_r by lia. nia.
Qed.

Lemma unit_octets_be u : 0 <= u < 65536 -> Utf7.unit_octets u = unit_bytes true u.
Proof.
  intros Hu. unfold Utf7.unit_octets, unit_bytes, u8. rewrite Z.shiftr_div_pow2 by lia. change (2 ^ 8) with 256.
  unfold wrapu. change (2 ^ 8) with 256. by rewrite (Z.mod_small (u / 256)) by zlia.
Qed.

(** The units of a scalar are its bytes in big-endian UTF-16. *)
Lemma units_utf16 cp : is_scalar cp ->
  concat (map Utf7.unit_octets (Utf7.appendCodePointAsUtf16 cp)) = utf16 true cp.
Proof.
  unfold is_scalar. intros Hs. unfold Utf7.appendCodePointAsUtf16, utf16.
  destruct (cp <? 0x10000) eqn:E; bool_to_prop.
  - cbn [map concat]. rewrite app_nil_r, wrapu_id by (unfold in_u; lia). apply unit_octets_be. lia.
  - unfold usub. rewrite (wrapu_id 32) by (unfold in_u; lia). rewrite Z.shiftr_div_pow2 by lia.
    change 0x3FF with (2 ^ 10 - 1). rewrite land_mask by lia. change (2 ^ 10) with 1024.
    rewrite !(wrapu_id 16) by zlia. cbn [map concat]. rewrite app_nil_r, !unit_octets_be by zlia. done.
Qed.

(** What is pushed for a run: symbols whose number is that of the bytes, moved by the
    bits that fill the last symbol. *)
Lemma appendShifted_spec units t : Forall byte (concat (map Utf7.unit_octets units)) ->
  let bytes := concat (map Utf7.unit_octets units) in
  exists ss r, Utf7.appendShifted units t = Ok (43 :: map symbol ss ++ (if t then [45] else []))
  /\ Forall sextet6 ss /\ 0 <= r < 6 /\ 6 * length ss = 8 * length bytes + r /\ val 6 ss = val 8 bytes * 2 ^ r.
Proof.
  intros Hb bytes. unfold Utf7.appendShifted.
  destruct (shift_bytes_spec bytes Hb 0 0 ltac:(lia) ltac:(cbn; lia)) as (ss & b & c & E & Hs & Hc & Hb' & L & V).
  fold bytes. rewrite E, bind_Ok. rewrite Z.mul_0_l, Z.add_0_l in V. rewrite Z.add_0_l in L.
  destruct (Z.eqb_spec c 0) as [->|Hc0]; cbn [negb].
  - rewrite bind_Ok. exists ss, 0. split; [done|]. split; [done|]. split; [lia|]. split; [lia|].
    rewrite Z.pow_0_r in *. lia.
  - destruct (append_bits b 0 c (6 - c) Hb' ltac:(lia) ltac:(lia) ltac:(split; [lia|apply Z.pow_pos_nonneg; lia]) ltac:(lia))
      as [A1 A2]. rewrite Z.lor_0_r, Z.add_0_r in A1. rewrite Z.add_0_r in A2. replace (c + (6 - c)) with 6 in A2 by lia.
    rewrite A1. change 0x3F with (2 ^ 6 - 1). rewrite land_mask, Z.mod_small, symbol_get, !bind_Ok by (done || lia).
    exists (ss ++ [b * 2 ^ (6 - c)]), (6 - c). rewrite map_app, <- app_assoc. split; [done|].
    split; [apply Forall_app; split; [done|by constructor]|]. split; [lia|]. rewrite length_app. cbn [length]. split; [lia|].
    rewrite val_app by lia. cbn [length]. rewrite V. 
    replace (2 ^ (6 * 1%nat)) with (2 ^ c * 2 ^ (6 - c)) by (rewrite <- Z.pow_add_r by lia; f_equal; lia).
    unfold val at 2. cbn [foldl]. lia.
Qed.
