(* ===== verification/Utf7Spec.v ===== *)
(** * UTF-7: the reading of a text, and reading inverts writing

    The grammar of RFC 2152 as a relation between bytes and pieces; the reader's loop
    over the bytes of a range: what a round does to the bytes that remain, and that it
    renders the pieces of any bytes; the runs the writer produces and what the reader
    makes of each. *)

From S2P Require Export Utf7Bits.

#[local] Coercion Z.of_nat : nat >-> Z.

(** ** Reading bytes of the range *)

Lemma byte_at_window d (i o n : nat) b w : i + n <= 2 ^ 31 -> (i + n <= length d)%nat ->
  window d (i + n) (i + o) = b :: w ->
  (o < n)%nat /\ Utf7.byte_at (Some d) i o = Ok b /\ window d (i + n) (i + S o) = w.
Proof.
  intros H31 Hl W. destruct (window_get d (i + n) (i + o) b w ltac:(lia) ltac:(lia) W) as (G & Hlt & W').
  split; [lia|]. split.
  - unfold Utf7.byte_at, sadd. rewrite i32_small by lia. rewrite schk_Ok by (unfold in_s; lia). exact G.
  - rewrite <- W'. f_equal. lia.
Qed.

Lemma window_ended d (i o n : nat) : (i + n <= length d)%nat -> window d (i + n) (i + o) = [] <-> (n <= o)%nat.
Proof.
  intros Hl. rewrite <- length_zero_iff_nil, window_length by lia. lia.
Qed.

Definition is_symbol (b : Z) : Prop := 0 <= Utf7.base64Value b.

(** A run of symbols that ends: before the end of the text only at a byte that is not
    one. *)
Definition run_of (w run rest : list Z) : Prop :=
  w = run ++ rest /\ Forall is_symbol run /\ match rest with [] => True | b :: _ => ~ is_symbol b end.

Lemma run_split w : exists run rest, run_of w run rest.
Proof.
  induction w as [|b w (run & rest & E & Hr & Hn)]; [by exists [], []|].
  destruct (Z.le_gt_cases 0 (Utf7.base64Value b)) as [H|H].
  - exists (b :: run), rest. split; [by rewrite E|]. split; [by constructor|done].
  - exists [], (b :: w). split; [done|]. split; [constructor|]. unfold is_symbol. lia.
Qed.

Lemma base64Value_range b : Utf7.base64Value b < 64.
Proof. unfold Utf7.base64Value. repeat split_if; lia. Qed.

Definition run_value (run : list Z) : Z := val 6 (map Utf7.base64Value run).

(** The loop reads the run, and its bytes and the bits left over are the number the
    run denotes. *)
Lemma run_loop_spec d (i n : nat) run : i + n <= 2 ^ 31 -> (i + n <= length d)%nat -> forall fuel (o : nat) rest b c saw,
  run_of (window d (i + n) (i + o)) run rest -> (n - o <= fuel)%nat -> 0 <= c < 8 -> 0 <= b < 2 ^ c ->
  exists bs b' c', Utf7.run_loop fuel (Some d) i o n b c saw =
      Ok ((o + length run)%nat : Z, bs, b', c', match run with [] => saw | _ => true end)
  /\ Forall byte bs /\ 0 <= c' < 8 /\ 0 <= b' < 2 ^ c' /\ c + 6 * length run = 8 * length bs + c'
  /\ b * 2 ^ (6 * length run) + run_value run = val 8 bs * 2 ^ c' + b'
  /\ window d (i + n) (i + (o + length run)%nat) = rest.
Proof.
  intros H31 Hl. induction run as [|x run IH]; intros fuel o rest b c saw (E & Hr & Hn) Hf Hc Hb.
  - exists [], b, c. cbn [length app] in *. rewrite Nat.add_0_r, Z.mul_0_r. unfold run_value. cbn [map val foldl].
    split; [|split; [done|repeat (split; [done || lia|]); done]].
    destruct rest as [|y rest].
    + apply window_ended in E; [|done]. destruct fuel; cbn [Utf7.run_loop]; by decide_cmp.
    + destruct (byte_at_window d i o n y rest H31 Hl E) as (Ho & G & _). destruct fuel as [|fuel]; [lia|].
      cbn [Utf7.run_loop]. decide_cmp. rewrite G, bind_Ok. unfold is_symbol in Hn. by decide_cmp.
  - apply Forall_cons in Hr as [Hx Hr]. cbn [app] in E.
    destruct (byte_at_window d i o n x _ H31 Hl E) as (Ho & G & W). destruct fuel as [|fuel]; [lia|].
    cbn [Utf7.run_loop]. decide_cmp. rewrite G, bind_Ok. unfold is_symbol in Hx. decide_cmp.
    pose proof (base64Value_range x).
    destruct (append_bits b (Utf7.base64Value x) c 6 Hb ltac:(lia) ltac:(lia) ltac:(split; cbn; lia) ltac:(lia)) as [-> Hb2].
    destruct (push_octets_spec 2 _ (c + 6) ltac:(lia) ltac:(lia) Hb2) as (s1 & b1 & c1 & -> & F1 & Hc1 & Hb1 & L1 & V1).
    rewrite bind_Ok. replace (o + 1) with (S o : Z) by lia.
    destruct (IH fuel (S o) rest b1 c1 true) as (s2 & b2 & c2 & -> & F2 & Hc2 & Hb2' & L2 & V2 & W2); try done; try lia.
    rewrite bind_Ok. exists (s1 ++ s2), b2, c2. cbn [length].
    rewrite <- Nat.add_succ_comm. split; [by destruct run|]. split; [by apply Forall_app|].
    split; [done|]. split; [done|]. rewrite length_app. split; [lia|].
    split; [|done].
    unfold run_value in *. cbn [map]. rewrite val_app, val_cons by lia. rewrite length_map in *.
    assert (P : 2 ^ (c1 + 6 * length run) = 2 ^ (8 * length s2) * 2 ^ c2)
      by (rewrite <- Z.pow_add_r by lia; f_equal; lia).
    rewrite Z.pow_add_r in P by lia.
    replace (6 * S (length run)) with (6 + 6 * length run) by lia. rewrite Z.pow_add_r by lia. nia.
Qed.

(** ** The units of a run *)

(** Decoding the bytes of a run is decoding big-endian UTF-16 with the replacing
    fallback. *)
Lemma appendUtf16Be_loop bytes : forall fuel (i : nat),
  (length bytes mod 2 = i mod 2)%nat -> (i <= length bytes)%nat ->
  Utf7.appendUtf16Be fuel bytes i =
    Encodings.utf16_loop fuel (Encoding.construct (Encoding.UnicodeEncoding true false)) true (Some bytes) i (length bytes).
Proof.
  induction fuel as [|fuel IH]; intros i Hm Hi; cbn [Utf7.appendUtf16Be Encodings.utf16_loop];
    destruct (decide (i = length bytes)) as [->|Hne]; decide_cmp; try done;
    assert (i + 1 < length bytes)%nat by (pose proof (Nat.div_mod_eq (length bytes) 2); pose proof (Nat.div_mod_eq i 2); lia);
    decide_cmp; try done.
  change (Utf7.unit_at bytes i) with (Encodings.utf16_readUnit true (Some bytes) i).
  destruct (Encodings.utf16_readUnit true (Some bytes) i) as [u| |]; [|done|done]. rewrite !bind_Ok.
  unfold Encodings.utf16_pair. replace (i + 2 + 1) with (i + 3) by lia.
  assert (Hk : forall x k : nat, (k mod 2 = 0)%nat -> (x + k <= length bytes)%nat -> (length bytes mod 2 = x mod 2)%nat ->
    Utf7.appendUtf16Be fuel bytes (x + k) =
    Encodings.utf16_loop fuel (Encoding.construct (Encoding.UnicodeEncoding true false)) true (Some bytes) (x + k) (length bytes)).
  { intros x k Hk Hl E. rewrite <- Nat2Z.inj_add. apply IH; [|done]. rewrite Nat.Div0.add_mod, Hk, Nat.add_0_r, Nat.Div0.mod_mod. done. }
  pose proof (Hk i 2%nat eq_refl ltac:(lia) Hm) as H2. change (Z.of_nat 2) with 2 in H2.
  destruct (_ && (u <=? 0xDBFF)).
  - destruct (i + 3 <? length bytes) eqn:E; bool_to_prop.
    + change (Utf7.unit_at bytes (i + 2)) with (Encodings.utf16_readUnit true (Some bytes) (i + 2)).
      destruct (Encodings.utf16_readUnit true (Some bytes) (i + 2)) as [low| |]; [|done|done]. rewrite !bind_Ok.
      destruct (_ && (low <=? 0xDFFF)); rewrite !bind_Ok.
      * pose proof (Hk i 4%nat eq_refl ltac:(lia) Hm) as H4. change (Z.of_nat 4) with 4 in H4.
        replace (i + 2 + 2) with (i + 4) by lia. by rewrite H4.
      * by rewrite H2.
    + rewrite !bind_Ok. by rewrite H2.
  - destruct (_ && (u <=? 0xDFFF)); rewrite !bind_Ok; by rewrite H2.
Qed.

(** The bytes of scalars, in UTF-16. *)
Lemma appendUtf16Be_encoded cps : Forall is_scalar cps ->
  Utf7.appendUtf16Be (length (concat (map (utf16 true) cps))) (concat (map (utf16 true) cps)) 0 = Ok (encoded cps).
Proof.
  intros Hs. set (bytes := concat _).
  assert (Hm : (length bytes mod 2 = 0)%nat).
  { unfold bytes. clear. induction cps as [|cp cps IH]; [done|]. cbn [map concat]. rewrite length_app, utf16_length.
    rewrite Nat.Div0.add_mod, IH. by destruct (cp <? 0x10000). }
  change 0 with (Z.of_nat 0). rewrite appendUtf16Be_loop by (rewrite ?Hm; done || lia).
  pose proof (utf16_loop_encoded (Encoding.construct (Encoding.UnicodeEncoding true false)) true bytes cps Hs (length bytes) 0 []) as H.
  fold bytes in H. rewrite Nat.add_0_l in H. apply H; [by rewrite drop_0, app_nil_r|].
  pose proof (units_length (utf16 true) 1 cps) as U. fold bytes in U. enough (1 * length cps <= length bytes)%nat by lia.
  apply U. intros cp. rewrite utf16_length. split_if; lia.
Qed.

(** UTF-7 has no fallback of its own choice: it always puts U+FFFD. *)
Definition always_replaced : Encoding.DecoderFallback := Encoding.DecoderReplacementFallback (utf8 0xFFFD).

Lemma appendUtf16Be_any bytes : Forall byte bytes -> (length bytes mod 2 = 0)%nat ->
  Utf7.appendUtf16Be (length bytes) bytes 0 = rendered always_replaced (utf16_pieces true bytes).
Proof.
  intros Hb Hm. change 0 with (Z.of_nat 0). rewrite appendUtf16Be_loop by (rewrite ?Hm; done || lia).
  pose proof (utf16_loop_pieces (Encoding.construct (Encoding.UnicodeEncoding true false)) true bytes Hb
    (length bytes) 0 (length bytes) ltac:(lia) ltac:(lia)) as H.
  rewrite drop_0, firstn_all in H. exact H.
Qed.

(** ** The reading of a text *)

(** The alphabet of RFC 2152, which is that of Base64. *)
Definition rfc2152 : list Z :=
  map code (str "ABCDEFGHIJKLMNOPQRSTUVWXYZabcdefghijklmnopqrstuvwxyz0123456789+/").

Definition sextet_of (b : Z) : option Z := Z.of_nat ∘ fst <$> list_find (eq b) rfc2152.

(** The pieces of a shifted run with the bytes [bs], the bits [extra] being left over:
    UTF-16, unless the run is empty or too short, leaves a bit that is not zero or ends
    inside a unit. *)
Definition shifted_pieces (run bs : list Z) (extra : Z) : list piece :=
  if match bs with [] => true | _ => false end || negb (extra =? 0) || Nat.odd (length bs)
  then [Refused (43 :: run) 0] else utf16_pieces true bs.

(** The bytes [bs] and the [extra] left over are the bits of the symbols. *)
Definition regrouped (symbols bs : list Z) (extra : Z) : Prop :=
  exists c, 0 <= c < 8 /\ 0 <= extra < 2 ^ c /\ Forall byte bs /\
    6 * length symbols = 8 * length bs + c /\ val 6 symbols = val 8 bs * 2 ^ c + extra.

(** The pieces of a text in UTF-7: a byte stands for itself, [+-] for a plus sign, and a
    plus sign begins a run of symbols that ends at the first byte that is not one; a
    hyphen there is dropped. *)
Inductive utf7_pieces : list Z -> list piece -> Prop :=
  | utf7_end : utf7_pieces [] []
  | utf7_direct b w ps : b <> 43 -> utf7_pieces w ps ->
      utf7_pieces (b :: w) ((if b <? 128 then Reads b else Refused [b] 0) :: ps)
  | utf7_plus w ps : utf7_pieces w ps -> utf7_pieces (43 :: 45 :: w) (Reads 43 :: ps)
  | utf7_shift run symbols rest bs extra ps :
      map sextet_of run = map Some symbols ->
      match rest with [] => True | b :: _ => sextet_of b = None end ->
      match run ++ rest with b :: _ => b <> 45 | [] => True end ->
      regrouped symbols bs extra ->
      utf7_pieces (match rest with b :: w => if b =? 45 then w else rest | [] => [] end) ps ->
      utf7_pieces (43 :: run ++ rest) (shifted_pieces run bs extra ++ ps).

Lemma alphabet_value b : byte b -> Utf7.base64Value b = default (-1) (sextet_of b).
Proof.
  unfold byte, in_u. intros Hb. cbn in Hb.
  assert (E : forallb (fun n => Utf7.base64Value (Z.of_nat n) =? default (-1) (sextet_of (Z.of_nat n))) (seq 0 256) = true)
    by by vm_compute.
  rewrite forallb_forall in E. specialize (E (Z.to_nat b)). rewrite Z2Nat.id in E by lia.
  apply Z.eqb_eq, E, in_seq. lia.
Qed.

Lemma no_symbol b : byte b -> ~ is_symbol b -> sextet_of b = None.
Proof.
  unfold is_symbol. intros Hb. rewrite alphabet_value by done. unfold sextet_of.
  destruct (list_find (eq b) rfc2152) as [[k x]|]; cbn; [lia|done].
Qed.

Lemma run_symbols run : Forall byte run -> Forall is_symbol run ->
  map sextet_of run = map Some (map Utf7.base64Value run).
Proof.
  induction 1 as [|b run Hb _ IH]; [done|]. intros [Hs Hr]%Forall_cons. cbn [map]. rewrite IH by done. f_equal.
  unfold is_symbol in Hs. rewrite alphabet_value in * by done. by destruct (sextet_of b); [|cbn in Hs; lia].
Qed.

(** What the reader puts for a run. *)
Lemma run_rendered run bs b c : 0 <= c < 8 -> 0 <= b < 2 ^ c -> Forall byte bs -> 6 * length run = 8 * length bs + c ->
  (if Utf7.malformed bs b c (match run with [] => false | _ => true end) then Ok Utf7.appendReplacement
   else Utf7.appendUtf16Be (length bs) bs 0) = rendered always_replaced (shifted_pieces run bs b).
Proof.
  intros Hc Hb Fb L.
  assert (M : Utf7.malformed bs b c (match run with [] => false | _ => true end) =
    match bs with [] => true | _ => false end || negb (b =? 0) || Nat.odd (length bs)).
  { unfold Utf7.malformed. destruct run as [|x run]; [by destruct bs; [|cbn [length] in L; lia]|].
    cbn [negb orb]. f_equal; [f_equal|].
    - destruct (c =? 0) eqn:E; [|done]. bool_to_prop. subst c. change (2 ^ 0) with 1 in Hb. by replace b with 0 by lia.
    - rewrite <- Nat.negb_even. f_equal. apply eq_true_iff_eq. rewrite Z.eqb_eq, Nat.even_spec.
      split; [intros E; exists (Z.to_nat (length bs / 2)); zlia|].
      intros [k ->]. rewrite Nat2Z.inj_mul, Z.mul_comm. apply Z_mod_mult. }
  rewrite M. unfold shifted_pieces. destruct (_ || Nat.odd _) eqn:E; [done|].
  apply orb_false_iff in E as [_ E]. rewrite <- Nat.negb_even in E. apply negb_false_iff, Nat.even_spec in E as [k E].
  apply appendUtf16Be_any; [done|]. rewrite E. rewrite Nat.mul_comm. apply Nat.Div0.mod_mul.
Qed.

Lemma utf7_pieces_sound w ps : utf7_pieces w ps -> Forall byte w -> Forall sound_piece ps.
Proof.
  induction 1 as [|b w ps Hb _ IH|w ps _ IH|run ss rest bs extra ps Hs Hr Hh (c & _ & _ & Fb & _) _ IH]; intros Hw.
  - constructor.
  - apply Forall_cons in Hw as [Hby Hw]. unfold byte, in_u in Hby. cbn in Hby.
    constructor; [|by apply IH]. split_if; cbn; [unfold is_scalar; lia|done].
  - rewrite !Forall_cons in Hw. constructor; [cbn; unfold is_scalar; lia|]. apply IH, Hw.
  - apply Forall_cons in Hw as [_ Hw]. apply Forall_app in Hw as [_ Hw]. apply Forall_app. split.
    + unfold shifted_pieces. destruct (_ || _); [by repeat constructor|by apply utf16_pieces_sound].
    + apply IH. destruct rest as [|y rest]; [done|]. destruct (y =? 45); [|done]. by apply Forall_cons in Hw as [_ ?].
Qed.

(** A text has one reading. *)
Lemma run_unique run : forall run' ss ss' rest rest',
  map sextet_of run = map Some ss -> map sextet_of run' = map Some ss' ->
  match rest with [] => True | b :: _ => sextet_of b = None end ->
  match rest' with [] => True | b :: _ => sextet_of b = None end ->
  run ++ rest = run' ++ rest' -> run = run' /\ ss = ss' /\ rest = rest'.
Proof.
  induction run as [|x run IH]; intros [|y run'] [|s ss] [|s' ss'] rest rest' H H' Hr Hr' E; try done; cbn in *.
  - subst rest. cbn in Hr. congruence.
  - subst rest'. cbn in Hr'. congruence.
  - injection E as -> E. injection H as Hx H. injection H' as Hy H'.
    destruct (IH run' ss ss' rest rest' H H' Hr Hr' E) as (-> & -> & ->). repeat split. congruence.
Qed.

Lemma regrouped_unique ss bs extra bs' extra' : regrouped ss bs extra -> regrouped ss bs' extra' ->
  bs = bs' /\ extra = extra'.
Proof.
  intros (c & Hc & Hx & Hb & L & V) (c' & Hc' & Hx' & Hb' & L' & V').
  assert (c = c' /\ length bs = length bs') as [<- El] by lia.
  assert (val 8 bs = val 8 bs' /\ extra = extra') as [Ev ->] by (apply (Z.div_mod_unique (2 ^ c)); lia).
  split; [|done]. by apply (val_inj 8).
Qed.

Lemma utf7_pieces_unique w ps : utf7_pieces w ps -> forall ps', utf7_pieces w ps' -> ps = ps'.
Proof.
  induction 1 as [|b w ps Hb _ IH|w ps _ IH|run ss rest bs extra ps Hs Hr Hh Hg _ IH]; intros ps' H'.
  - by inversion H'.
  - inversion H'; subst; try done. f_equal. by apply IH.
  - inversion H' as [| |w' qs Hq|run' ss' rest' bs' extra' qs Hs' Hr' Hh' Hg' Hq E]; subst; [done|f_equal; by apply IH|].
    by rewrite E in Hh'.
  - inversion H' as [|b w' qs Hb Hq E|w' qs Hq E|run' ss' rest' bs' extra' qs Hs' Hr' Hh' Hg' Hq E]; subst; [done|by rewrite <- E in Hh|].
    destruct (run_unique run' run ss' ss rest' rest) as (-> & -> & ->); try done.
    destruct (regrouped_unique _ _ _ _ _ Hg Hg') as [-> ->]. f_equal. by apply IH.
Qed.

(** ** Rounds of the reader *)

(** The bytes of a range from an offset on, and the reader from there. *)
Definition bytes_left (d : list Z) (i n o : nat) : list Z := window d (i + n) (i + o).
Definition decode_from (d : list Z) (i n fuel o : nat) : res (list Z) := Utf7.decode_loop fuel (Some d) i o n.

Section rounds.
Context (d : list Z) (i n : nat).
Hypothesis H31 : i + n <= 2 ^ 31.
Hypothesis Hl : (i + n <= length d)%nat.

#[local] Abbreviation W := (bytes_left d i n).
#[local] Abbreviation D := (decode_from d i n).

Definition directly (c : Z) : list Z := if c <? 0x80 then [c] else Utf7.appendReplacement.

Lemma hyphen_window (o : nat) : Utf7.hyphen_at (Some d) i o n = Ok (match W o with b :: _ => b =? 45 | [] => false end).
Proof.
  unfold Utf7.hyphen_at, bytes_left. destruct (window d (i + n) (i + o)) as [|b w] eqn:E.
  - apply window_ended in E; [|done]. by decide_cmp.
  - destruct (byte_at_window d i o n b w H31 Hl E) as (Ho & G & _). decide_cmp. by rewrite G.
Qed.

Lemma round_end fuel o : W o = [] -> D fuel o = Ok [].
Proof. intros E. apply window_ended in E; [|done]. unfold decode_from. destruct fuel; cbn [Utf7.decode_loop]; by decide_cmp. Qed.

Lemma round_direct fuel o c w : W o = c :: w -> c <> 43 ->
  D (S fuel) o = (rest <- D fuel (S o) ;; Ok (directly c ++ rest)) /\ W (S o) = w.
Proof.
  intros E Hc. destruct (byte_at_window d i o n c w H31 Hl E) as (Ho & G & E'). split; [|exact E'].
  unfold decode_from at 1. cbn [Utf7.decode_loop]. decide_cmp. rewrite G, bind_Ok. decide_cmp.
  by replace (o + 1) with (S o : Z) by lia.
Qed.

Lemma round_plus fuel o w : W o = 43 :: 45 :: w ->
  D (S fuel) o = (rest <- D fuel (S (S o)) ;; Ok (43 :: rest)) /\ W (S (S o)) = w.
Proof.
  intros E. destruct (byte_at_window d i o n 43 (45 :: w) H31 Hl E) as (Ho & G & E').
  destruct (byte_at_window d i (S o) n 45 w H31 Hl E') as (Ho' & _ & E''). split; [|exact E''].
  unfold decode_from at 1. cbn [Utf7.decode_loop]. decide_cmp. rewrite G, bind_Ok. change (negb (43 =? 43)) with false. cbv iota zeta.
  replace (o + 1) with (S o : Z) by lia. rewrite hyphen_window. unfold bytes_left. rewrite E', bind_Ok.
  change (45 =? 45) with true. cbv iota. by replace (S o + 1) with (S (S o) : Z) by lia.
Qed.

(** A shifted run: its bytes [bs] with the bits left over, and where it ends. *)
Lemma round_shift fuel o run rest : W o = 43 :: run ++ rest -> Forall is_symbol run ->
  match rest with [] => True | b :: _ => ~ is_symbol b end ->
  match run ++ rest with b :: _ => b <> 45 | [] => True end ->
  let closed := match rest with b :: _ => b =? 45 | [] => false end in
  let o' := if closed then S (S (o + length run)) else S (o + length run) in
  exists bs b c, Forall byte bs /\ 0 <= c < 8 /\ 0 <= b < 2 ^ c /\ 6 * length run = 8 * length bs + c
  /\ run_value run = val 8 bs * 2 ^ c + b
  /\ D (S fuel) o =
      (x <- (if Utf7.malformed bs b c (match run with [] => false | _ => true end) then Ok Utf7.appendReplacement
             else Utf7.appendUtf16Be (length bs) bs 0) ;;
       r <- D fuel o' ;; Ok (x ++ r))
  /\ W o' = if closed then tail rest else rest.
Proof.
  intros E Hr Hn Hh closed o'. destruct (byte_at_window d i o n 43 (run ++ rest) H31 Hl E) as (Ho & G & E').
  destruct (run_loop_spec d i n run H31 Hl (Z.to_nat (n - S o)) (S o) rest 0 0 false) as
    (bs & b & c & R & Fb & Hc & Hb & L & V & E''); [done|lia|lia|cbn; lia|].
  exists bs, b, c. rewrite Z.mul_0_l, Z.add_0_l in V. rewrite Z.add_0_l in L.
  split; [done|]. split; [done|]. split; [done|]. split; [done|]. split; [done|]. 
  assert (Ho' : W (S (o + length run)) = rest) by exact E''. split.
  - unfold decode_from at 1. cbn [Utf7.decode_loop]. decide_cmp. rewrite G, bind_Ok.
    change (negb (43 =? 43)) with false. cbv iota zeta. replace (o + 1) with (S o : Z) by lia.
    rewrite hyphen_window. change (W (S o)) with (window d (i + n) (i + S o)). rewrite E', bind_Ok.
    replace (match run ++ rest with b :: _ => b =? 45 | [] => false end) with false
      by (destruct (run ++ rest); [done|symmetry; by apply Z.eqb_neq]).
    rewrite R, bind_Ok. change (S o + length run)%nat with (S (o + length run)). rewrite hyphen_window, Ho', bind_Ok.
    fold closed. unfold decode_from, o'. replace (S (o + length run) + 1) with (S (S (o + length run)) : Z) by lia.
    by destruct closed.
  - unfold o', closed. destruct rest as [|y rest]; [exact Ho'|]. destruct (y =? 45); [|exact Ho'].
    by destruct (byte_at_window d i (S (o + length run)) n y rest H31 Hl Ho') as (_ & _ & ?).
Qed.

(** The reader renders the pieces of any bytes. *)
Lemma decode_loop_pieces fuel : Forall byte d -> forall o, (length (W o) <= fuel)%nat ->
  exists ps, D fuel o = rendered always_replaced ps /\ utf7_pieces (W o) ps.
Proof.
  intros Hb. induction fuel as [|fuel IH]; intros o Hf.
  { exists []. assert (E : W o = []) by (by destruct (W o); [|cbn in Hf; lia]).
    rewrite E. split; [by apply round_end|constructor]. }
  assert (HbW : Forall byte (W o)) by by apply window_bytes.
  destruct (W o) as [|c w] eqn:E; [exists []; split; [by apply round_end|constructor]|].
  destruct (decide (c = 43)) as [->|Hc].
  - destruct (decide (hd 0 w = 45)) as [H45|H45].
    + destruct w as [|x w]; [done|]. cbn in H45. subst x. destruct (round_plus fuel o w E) as [-> E'].
      destruct (IH (S (S o))) as (ps & -> & Hp); [rewrite E'; cbn in *; lia|]. rewrite E' in Hp.
      exists (Reads 43 :: ps). split; [done|by constructor].
    + destruct (run_split w) as (run & rest & -> & Hr & Hn).
      destruct (round_shift fuel o run rest E Hr Hn) as (bs & b & c & Fb & Hc & Hb' & L & V & -> & E').
      { by destruct (run ++ rest); [|cbn in H45]. }
      destruct (IH _ ltac:(rewrite E'; cbn [length] in Hf; rewrite length_app in Hf;
        destruct rest as [|y rest]; [cbn; lia|destruct (y =? 45); cbn [tail length] in *; lia])) as (ps & -> & Hp).
      apply Forall_cons in HbW as [_ HbW]. apply Forall_app in HbW as [Hrun Hrest].
      exists (shifted_pieces run bs b ++ ps).
      rewrite (run_rendered run bs b c) by done. rewrite rendered_app. split; [done|].
      apply (utf7_shift run (map Utf7.base64Value run)); [by apply run_symbols| | | |].
      * destruct rest as [|y rest]; [done|]. apply Forall_cons in Hrest as [Hy _]. by apply no_symbol.
      * by destruct (run ++ rest); [|cbn in H45].
      * exists c. rewrite length_map. done.
      * rewrite E' in Hp. by destruct rest as [|y rest]; [|destruct (y =? 45)].
  - destruct (round_direct fuel o c w E Hc) as [-> E']. destruct (IH (S o)) as (ps & -> & Hp); [rewrite E'; cbn in Hf; lia|].
    apply Forall_cons in HbW as [Hcb _]. unfold byte, in_u in Hcb. cbn in Hcb. rewrite E' in Hp.
    exists ((if c <? 128 then Reads c else Refused [c] 0) :: ps). split; [|by constructor].
    cbn [rendered]. unfold directly. change 0x80 with 128. destruct (c <? 128) eqn:El; bool_to_prop; [|done].
    cbn [piece_text bind]. replace (utf8 c) with [c]; [done|]. unfold utf8. by decide_cmp.
Qed.

End rounds.

(** ** What the writer's pieces read as *)

(** [out], standing at the end of the range, reads as [t]. *)
Definition decodes (out t : list Z) : Prop := forall d (i n o : nat) fuel,
  i + n <= 2 ^ 31 -> (i + n <= length d)%nat -> bytes_left d i n o = out -> (length out <= fuel)%nat ->
  decode_from d i n fuel o = Ok t.

Lemma decodes_nil : decodes [] [].
Proof. intros d i n o fuel H31 Hl E _. by apply round_end. Qed.

Lemma decodes_direct c out t : 0 <= c < 128 -> c <> 43 -> decodes out t -> decodes (c :: out) (c :: t).
Proof.
  intros Hc H43 H d i n o fuel H31 Hl E Hf. destruct fuel as [|fuel]; [cbn in Hf; lia|].
  destruct (round_direct d i n H31 Hl fuel o c out E H43) as [-> E']. 
  rewrite (H d i n (S o) fuel H31 Hl E') by (cbn in Hf; lia). rewrite bind_Ok. unfold directly. by decide_cmp.
Qed.

Lemma decodes_plus out t : decodes out t -> decodes (43 :: 45 :: out) (43 :: t).
Proof.
  intros H d i n o fuel H31 Hl E Hf. destruct fuel as [|fuel]; [cbn in Hf; lia|].
  destruct (round_plus d i n H31 Hl fuel o out E) as [-> E']. 
  by rewrite (H d i n (S (S o)) fuel H31 Hl E') by (cbn in Hf; lia).
Qed.

Lemma symbols_run ss : Forall sextet6 ss -> Forall is_symbol (map symbol ss) /\ run_value (map symbol ss) = val 6 ss.
Proof.
  intros H. unfold run_value. rewrite map_map. split.
  - apply Forall_map. eapply Forall_impl; [exact H|]. intros s Hs. unfold is_symbol. rewrite base64Value_symbol by done.
    unfold sextet6, in_u in Hs. lia.
  - f_equal. induction H as [|s ss Hs _ IH]; [done|]. cbn [map]. by rewrite base64Value_symbol, IH.
Qed.

(** The number of the run determines its bytes. *)
Lemma run_bytes ss bs bytes b c r : Forall byte bs -> Forall byte bytes -> 0 <= c < 8 -> 0 <= b < 2 ^ c -> 0 <= r < 6 ->
  6 * length ss = 8 * length bs + c -> val 6 ss = val 8 bs * 2 ^ c + b ->
  6 * length ss = 8 * length bytes + r -> val 6 ss = val 8 bytes * 2 ^ r -> bs = bytes /\ b = 0.
Proof.
  intros F1 F2 Hc Hb Hr L1 V1 L2 V2. assert (c = r /\ length bs = length bytes) as [-> Hl] by lia.
  pose proof (Z.pow_pos_nonneg 2 r ltac:(lia) ltac:(lia)).
  assert (E : val 8 bs = val 8 bytes) by nia. split; [|nia]. by apply (val_inj 8).
Qed.

Definition units_of (cps : list Z) : list Z := concat (map Utf7.appendCodePointAsUtf16 cps).

Lemma units_of_bytes cps : Forall is_scalar cps ->
  concat (map Utf7.unit_octets (units_of cps)) = concat (map (utf16 true) cps).
Proof.
  induction 1 as [|cp cps Hs _ IH]; [done|]. unfold units_of in *. cbn [map concat].
  by rewrite map_app, concat_app, IH, units_utf16.
Qed.

Lemma utf16_bytes be cps : Forall is_scalar cps -> Forall byte (concat (map (utf16 be) cps)).
Proof. induction 1 as [|cp cps Hs _ IH]; [constructor|]. apply Forall_app. split; [by apply utf16_byte|done]. Qed.

(** What may follow a run that is not terminated. *)
Definition stops (out : list Z) : Prop := match out with [] => True | b :: _ => ~ is_symbol b /\ b <> 45 end.

Lemma decodes_shift cps (t : bool) out text : Forall is_scalar cps -> cps <> [] -> (t = true \/ stops out) -> decodes out text ->
  exists x, Utf7.appendShifted (units_of cps) t = Ok x /\ decodes (x ++ out) (encoded cps ++ text).
Proof.
  intros Hs Hne Ht Hout.
  destruct (appendShifted_spec (units_of cps) t) as (ss & r & -> & Fs & Hr & L & V);
    [by rewrite units_of_bytes by done; apply utf16_bytes|].
  rewrite units_of_bytes in * by done. eexists. split; [done|].
  intros d i n o fuel H31 Hl E Hf. destruct fuel as [|fuel]; [cbn in Hf; lia|]. cbn [app] in E. rewrite <- app_assoc in E.
  destruct (symbols_run ss Fs) as [Hsym Hval].
  set (rest := (if t then [45] else []) ++ out) in *.
  assert (Hrest : match rest with [] => True | b :: _ => ~ is_symbol b end).
  { unfold rest. destruct t; [by vm_compute|]. cbn [app]. destruct Ht as [|Hst]; [done|]. destruct out; [done|]. by destruct Hst. }
  assert (Hlen : (0 < length ss)%nat).
  { destruct cps as [|cp cps]; [done|]. cbn [map concat] in L. rewrite length_app, utf16_length in L.
    destruct ss; [|cbn; lia]. cbn in L. destruct (cp <? 0x10000); lia. }
  assert (Hhead : match map symbol ss ++ rest with b :: _ => b <> 45 | [] => True end).
  { destruct ss as [|s ss]; [cbn in Hlen; lia|]. cbn [map app]. intros E45. apply Forall_cons in Hsym as [Hs0 _].
    rewrite E45 in Hs0. by vm_compute in Hs0. }
  destruct (round_shift d i n H31 Hl fuel o (map symbol ss) rest E Hsym Hrest Hhead)
    as (bs & b & c & Fb & Hc & Hb & Ll & Lv & -> & E').
  rewrite length_map, Hval in *.
  destruct (run_bytes ss bs _ b c r Fb (utf16_bytes true cps Hs) Hc Hb Hr Ll Lv L V) as [-> ->].
  assert (M : Utf7.malformed (concat (map (utf16 true) cps)) 0 c (match map symbol ss with [] => false | _ => true end) = false).
  { unfold Utf7.malformed. destruct ss as [|s ss]; [cbn in Hlen; lia|]. cbn [map negb orb].
    rewrite andb_false_r, orb_false_r.
    assert (Hev : (length (concat (map (utf16 true) cps)) mod 2 = 0)%nat).
    { clear. induction cps as [|cp cps IH]; [done|]. cbn [map concat]. rewrite length_app, utf16_length.
      rewrite Nat.Div0.add_mod, IH. by destruct (cp <? 0x10000). }
    rewrite <- (Nat2Z.inj_mod _ 2), Hev. destruct cps as [|cp cps]; [done|]. cbn [map concat]. unfold utf16.
    by destruct (cp <? 0x10000). }
  rewrite M, appendUtf16Be_encoded, bind_Ok by done.
  rewrite (Hout d i n _ fuel H31 Hl); [done| |].
  - rewrite E'. unfold rest. destruct t; [done|]. cbn [app]. destruct out as [|y out]; [done|].
    destruct Ht as [|[_ H45]]; [done|]. by apply Z.eqb_neq in H45 as ->.
  - rewrite length_app in Hf. cbn [length] in Hf. lia.
Qed.

(** ** Writing *)

(** The runes of a text, as the enumerators show them. *)
Fixpoint runes_fuel (fuel : nat) (w : list Z) : list Z :=
  match fuel, w with
  | S fuel, _ :: _ => fst (shown (scan w)) :: runes_fuel fuel (drop (Z.to_nat (snd (scan w))) w)
  | _, _ => []
  end.

Definition runes (w : list Z) : list Z := runes_fuel (length w) w.

Lemma runes_symbols fuel : forall start w, Rune.rune_ <$> symbols fuel start w = runes_fuel fuel w.
Proof.
  induction fuel as [|fuel IH]; intros start w; [done|]. destruct w as [|b w]; [done|].
  cbn [symbols runes_fuel]. rewrite fmap_cons. by rewrite IH.
Qed.

Lemma runes_fuel_enough f : forall g w, Forall byte w -> (length w <= f)%nat -> (length w <= g)%nat ->
  runes_fuel f w = runes_fuel g w.
Proof.
  induction f as [|f IH]; intros g w Hb Hf Hg; [by destruct w; [destruct g|cbn in Hf; lia]|].
  destruct g as [|g]; [by destruct w; [|cbn in Hg; lia]|]. destruct w as [|b w]; [done|]. cbn [runes_fuel].
  pose proof (scan_length (b :: w) Hb ltac:(done)) as [Hn Hl]. f_equal.
  apply IH; [by apply Forall_drop|rewrite length_drop; cbn [length] in *; lia..].
Qed.

Lemma runes_scalar fuel : forall w, Forall byte w -> Forall is_scalar (runes_fuel fuel w).
Proof.
  induction fuel as [|fuel IH]; intros w Hb; [constructor|]. destruct w as [|b w]; [constructor|]. cbn [runes_fuel].
  constructor; [|apply IH; by apply Forall_drop]. unfold shown. destruct (fst (scan (b :: w))) as [cp|] eqn:E; cbn.
  - by apply scan_Some in E as [? _].
  - unfold is_scalar, Rune.ReplacementChar. lia.
Qed.

Lemma runes_encoded cps : Forall is_scalar cps -> runes (encoded cps) = cps.
Proof.
  intros Hs. unfold runes. assert (G : forall fuel, (length (encoded cps) <= fuel)%nat -> runes_fuel fuel (encoded cps) = cps).
  { induction Hs as [|cp cps Hc Hs IH]; intros fuel Hf; [by destruct fuel|].
    change (encoded (cp :: cps)) with (utf8 cp ++ encoded cps) in *. rewrite length_app in Hf. pose proof (utf8_length cp).
    assert (Hb : Forall byte (utf8 cp ++ encoded cps)) by (apply Forall_app; split; [by apply utf8_bytes, scalar_21|by apply encoded_bytes]).
    destruct fuel as [|fuel]; [lia|]. destruct (utf8 cp ++ encoded cps) as [|b w] eqn:E.
    { apply (f_equal length) in E. rewrite length_app in E. cbn in E. lia. }
    cbn [runes_fuel]. rewrite <- E in *. clear E b w.
    assert (S : fst (scan (utf8 cp ++ encoded cps)) = Some cp) by (apply scan_Some; [done|]; split; [done|by apply prefix_app_r]).
    unfold shown. rewrite S, (scan_Some_length _ cp Hb S), Nat2Z.id, drop_app_length. cbn [fst]. f_equal. apply IH. lia. }
  by apply G.
Qed.

(** The writer over the runes. *)
Fixpoint encode_scalars (allowOptionals : bool) (cps : list Z) (shifted : list Z) : res (list Z) :=
  match cps with
  | [] => Utf7.flushShifted shifted true
  | cp :: cps =>
      if cp =? 43 then
        x <- Utf7.flushShifted shifted true ;;
        rest <- encode_scalars allowOptionals cps [] ;; Ok (x ++ [43; 45] ++ rest)
      else if Utf7.isDirect allowOptionals cp then
        x <- Utf7.flushShifted shifted ((cp =? 45) || (Utf7.base64Value (u8 cp) >=? 0)) ;;
        rest <- encode_scalars allowOptionals cps [] ;; Ok (x ++ [u8 cp] ++ rest)
      else encode_scalars allowOptionals cps (shifted ++ Utf7.appendCodePointAsUtf16 cp)
  end.

Lemma encode_loop_scalars opt fuel : forall s (i : nat) shifted, Forall byte s -> (length s - i <= fuel)%nat ->
  Utf7.encode_loop fuel opt s i shifted = encode_scalars opt (runes_fuel fuel (window s (length s) i)) shifted.
Proof.
  induction fuel as [|fuel IH]; intros s i shifted Hb Hf; cbn [Utf7.encode_loop].
  { decide_cmp. done. }
  destruct (decide (i < length s)%nat) as [Hlt|Hge].
  2:{ decide_cmp. rewrite (proj2 (window_past s i ltac:(lia))) by lia. done. }
  decide_cmp. rewrite TryGetRuneAt_scan, bind_Ok by (lia || done).
  set (w := window s (length s) i). assert (Hw : w <> []) by (unfold w; rewrite window_past; lia).
  destruct (scan_length w) as [Hn _]; [by apply window_bytes|done|].
  assert (R : runes_fuel (S fuel) w = fst (shown (scan w)) :: runes_fuel fuel (window s (length s) (i + Z.to_nat (snd (scan w)))%nat)).
  { rewrite Nat2Z.inj_add, Z2Nat.id, window_advance by lia. fold w. by destruct w. }
  rewrite R. cbn [encode_scalars]. specialize (fun sh => IH s (i + Z.to_nat (snd (scan w)))%nat sh Hb ltac:(lia)).
  rewrite Nat2Z.inj_add, Z2Nat.id in IH |- * by lia.
  unfold shown. destruct (scan w) as [o k]; cbn [fst snd] in *. rewrite (proj2 (Z.eqb_neq k 0)) by lia.
  destruct o; cbn [fst]; by rewrite !IH.
Qed.

(** What a character written directly is. *)
Lemma isDirect_ascii opt c : Utf7.isDirect opt c = true -> 0 <= c -> c < 128 /\ c <> 43.
Proof. unfold Utf7.isDirect. destruct (_ || (c =? 43)) eqn:E; [done|]. bool_to_prop. lia. Qed.

(** The writer's output reads as the runes written. *)
Lemma encode_scalars_decodes opt cps : Forall is_scalar cps -> forall pending, Forall is_scalar pending ->
  exists out, encode_scalars opt cps (units_of pending) = Ok out /\ decodes out (encoded (pending ++ cps)).
Proof.
  assert (Flush : forall pending (t : bool) out text, Forall is_scalar pending -> (t = true \/ stops out) -> decodes out text ->
    exists x, Utf7.flushShifted (units_of pending) t = Ok x /\ decodes (x ++ out) (encoded pending ++ text)).
  { intros pending t out text Hp Ht Hd. destruct (decide (pending = [])) as [->|Hne]; [by exists []|].
    destruct (decodes_shift pending t out text Hp Hne Ht Hd) as (x & E & Hx). exists x. split; [|done].
    unfold Utf7.flushShifted. destruct (units_of pending) eqn:U; [|done]. exfalso. apply Hne.
    destruct pending as [|p pending]; [done|]. unfold units_of, Utf7.appendCodePointAsUtf16 in U. cbn [map concat] in U.
    destruct (p <? 0x10000); done. }
  induction 1 as [|cp cps Hc Hs IH]; intros pending Hp; cbn [encode_scalars].
  { destruct (Flush pending true [] [] Hp (or_introl eq_refl) decodes_nil) as (x & -> & Hx). exists x. split; [done|].
    rewrite !app_nil_r in *. done. }
  assert (Hpos : 0 <= cp) by (unfold is_scalar in Hc; lia).
  assert (Hu : forall c, 0 <= c < 128 -> utf8 c = [c]) by (intros c ?; unfold utf8; by decide_cmp).
  rewrite encoded_app. change (encoded (cp :: cps)) with (utf8 cp ++ encoded cps).
  destruct (cp =? 43) eqn:E43; bool_to_prop; [|destruct (Utf7.isDirect opt cp) eqn:Ed].
  - subst cp. destruct (IH [] ltac:(constructor)) as (out & Eo & Ho).
    destruct (Flush pending true _ _ Hp (or_introl eq_refl) (decodes_plus _ _ Ho)) as (x & -> & Hx).
    rewrite bind_Ok. change (units_of []) with (@nil Z) in Eo. rewrite Eo, bind_Ok. eexists. split; [done|]. exact Hx.
  - destruct (isDirect_ascii opt cp Ed Hpos) as [Hlt Hne]. destruct (IH [] ltac:(constructor)) as (out & Eo & Ho).
    assert (Hu8 : u8 cp = cp) by (apply wrapu_id; unfold in_u; lia). rewrite Hu8.
    destruct (Flush pending ((cp =? 45) || (Utf7.base64Value cp >=? 0)) (cp :: out) (cp :: encoded cps) Hp) as (x & -> & Hx).
    + destruct (_ || _) eqn:T; [by left|right]. bool_to_prop. unfold stops, is_symbol. split; [lia|done].
    + by apply decodes_direct; [lia|done|].
    + rewrite bind_Ok. change (units_of []) with (@nil Z) in Eo. rewrite Eo, bind_Ok. eexists. split; [done|].
      rewrite Hu by lia. exact Hx.
  - destruct (IH (pending ++ [cp])) as (out & Eo & Ho); [by apply Forall_app; split; [|constructor]|].
    unfold units_of in *. rewrite map_app, concat_app in Eo. cbn [map concat] in Eo. rewrite app_nil_r in Eo.
    exists out. split; [done|]. rewrite <- app_assoc, encoded_app in Ho. exact Ho.
Qed.

(** Any text, written and read back, in the middle of any buffer. *)
Lemma Utf7_roundtrip_any opt s : Forall byte s -> exists out, Utf7.GetBytes opt s = Ok out /\
  forall pre post, length pre + length out < 2 ^ 31 ->
  Utf7.GetString (Some (pre ++ out ++ post)) (length pre) (length out) = Ok (encoded (runes s)).
Proof.
  intros Hb. unfold Utf7.GetBytes. change 0 with (Z.of_nat 0).
  rewrite (encode_loop_scalars opt (length s) s 0 [] Hb) by lia. change (Z.of_nat 0) with 0. rewrite window_all.
  destruct (encode_scalars_decodes opt (runes s) ltac:(by apply runes_scalar) [] ltac:(constructor)) as (out & E & Hd).
  exists out. split; [exact E|]. intros pre post H31. unfold Utf7.GetString, Encoding.validateRawDecodeRange. decide_cmp.
  split_if.
  - rewrite bind_Ok. cbn [negb]. destruct out; [|cbn in *; lia].
    specialize (Hd [] 0%nat 0%nat 0%nat 0%nat ltac:(cbn; lia) ltac:(cbn; lia) eq_refl ltac:(cbn; lia)).
    cbn in Hd. by injection Hd as ->.
  - rewrite bind_Ok. cbn [negb]. rewrite Nat2Z.id. apply (Hd (pre ++ out ++ post) (length pre) (length out) 0%nat (length out)).
    + lia.
    + rewrite !length_app. lia.
    + unfold bytes_left, window. rewrite Z.add_0_r, Nat2Z.id, drop_app_length.
      replace (Z.to_nat _) with (length out) by lia. by rewrite take_app_length.
    + lia.
Qed.

Lemma Utf7_GetString_pieces d (i n : nat) : Forall byte d -> (i + n <= length d)%nat -> i + n <= 2 ^ 31 ->
  exists ps, Utf7.GetString (Some d) i n = rendered always_replaced ps /\
    utf7_pieces (take n (drop i d)) ps.
Proof.
  intros Hb Hl H31. unfold Utf7.GetString, Encoding.validateRawDecodeRange. decide_cmp.
  assert (W0 : bytes_left d i n 0 = take n (drop i d)).
  { unfold bytes_left, window. f_equal; [lia|]. f_equal. lia. }
  split_if; rewrite bind_Ok; cbn [negb]; [exists []; split; [done|]|].
  { replace n with 0%nat by lia. constructor. }
  rewrite Nat2Z.id, <- W0. apply (decode_loop_pieces d i n H31 Hl n Hb 0%nat).
  rewrite W0, length_take. lia.
Qed.
