(* ===== verification/Transcoding.v ===== *)
(** * Transcoding: the virtual members of Encoding

    GetBytes, GetString and the counts of [Encoding.hpp] dispatched over the six
    classes, and what holds of all of them: reading inverts writing, any bytes decode
    to what the fallback promises, the arguments are checked in one order. *)

From S2P Require Export Utf7Spec.

#[local] Coercion Z.of_nat : nat >-> Z.

Module Transcoding.
Import Encoding.

Definition GetBytes (this : Encoding) (s : list Z) : res (list Z) :=
  match kind this with
  | UTF8Encoding => Encodings.UTF8_GetBytes this s
  | ASCIIEncoding => Encodings.ASCII_GetBytes this s
  | UnicodeEncoding be _ => Encodings.Unicode_GetBytes be s
  | UTF32Encoding be _ => Encodings.UTF32_GetBytes be s
  | UTF7Encoding opt => Utf7.GetBytes opt s
  | Latin1Encoding => Encodings.Latin1_GetBytes this s
  end.

Definition GetString (this : Encoding) (data : option (list Z)) (index count : Z) : res (list Z) :=
  match kind this with
  | UTF8Encoding => Encodings.UTF8_GetString this data index count
  | ASCIIEncoding => Encodings.ASCII_GetString this data index count
  | UnicodeEncoding be _ => Encodings.Unicode_GetString this be data index count
  | UTF32Encoding be _ => Encodings.UTF32_GetString this be data index count
  | UTF7Encoding _ => Utf7.GetString data index count
  | Latin1Encoding => Encodings.Latin1_GetString this data index count
  end.

(** The overload for a vector. *)
Definition GetString_vector (this : Encoding) (bytes : list Z) : res (list Z) :=
  GetString this (Some bytes) 0 (i32 (length bytes)).

Definition GetByteCount (this : Encoding) (s : list Z) : res Z :=
  bs <- GetBytes this s ;; Ok (i32 (length bs)).

Definition GetCharCount (this : Encoding) (data : option (list Z)) (index count : Z) : res Z :=
  t <- GetString this data index count ;; Ok (i32 (length t)).

End Transcoding.

(** ** What an encoding can represent *)

Definition representable (k : Encoding.Kind) (cps : list Z) : Prop :=
  match k with
  | Encoding.ASCIIEncoding => Forall (fun cp => 0 <= cp < 128) cps
  | Encoding.Latin1Encoding => Forall (fun cp => 0 <= cp < 256) cps
  | _ => True
  end.

(** What is read back: UTF-16 and UTF-32 take a leading U+FEFF for a mark. *)
Definition read_back (k : Encoding.Kind) (cps : list Z) : list Z :=
  match k with
  | Encoding.UnicodeEncoding _ _ | Encoding.UTF32Encoding _ _ => unmarked cps
  | _ => cps
  end.

(** ** Single bytes *)

Lemma encoded_ascii cps : Forall (fun cp => 0 <= cp < 128) cps -> encoded cps = cps.
Proof.
  induction 1 as [|cp cps Hc _ IH]; [done|]. change (encoded (cp :: cps)) with (utf8 cp ++ encoded cps).
  rewrite IH. unfold utf8. by decide_cmp.
Qed.

Lemma concat_singletons (l : list Z) : concat (map (fun b => [b]) l) = l.
Proof. induction l as [|b l IH]; [done|]. cbn. by rewrite IH. Qed.

(** A range inside a buffer. *)
Lemma middle (pre bs post : list Z) : take (length bs) (drop (length pre) (pre ++ bs ++ post)) = bs.
Proof. by rewrite drop_app_length, take_app_length. Qed.

Lemma middle_checked (pre bs post : list Z) : length pre + length bs < 2 ^ 31 -> bs <> [] ->
  Encoding.checkedRawDecodeRange (Some (pre ++ bs ++ post)) (length pre) (length bs)
    = Ok (length pre : Z, length pre + length bs).
Proof.
  intros H Hne. assert (0 < length bs) by (destruct bs; [done|cbn; lia]).
  apply (checked_selected _ _ _ (take (length bs) (drop (length pre) (pre ++ bs ++ post)))); [|lia].
  apply selected_bytes; rewrite ?length_app; lia.
Qed.

(** Bytes of a code page in range, decoded. *)
Lemma ASCII_GetString_bytes this pre bs post : Forall (fun b => 0 <= b < 128) bs -> length pre + length bs < 2 ^ 31 ->
  Encodings.ASCII_GetString this (Some (pre ++ bs ++ post)) (length pre) (length bs) = Ok bs.
Proof.
  intros Hb Hl. unfold Encodings.ASCII_GetString. destruct (decide (bs = [])) as [->|Hne].
  { by rewrite checked_empty by lia. }
  assert (0 < length bs) by (destruct bs; [done|cbn; lia]).
  rewrite middle_checked, bind_Ok by done. decide_cmp.
  replace (Z.to_nat (length pre + length bs - length pre)) with (length bs) by lia.
  rewrite (bytes_loop_emit _ (fun b => [b])); rewrite ?middle, ?concat_singletons; [done|rewrite !length_app; lia|].
  eapply Forall_impl; [exact Hb|]. intros b Hr j. cbn in Hr. by decide_cmp.
Qed.

Lemma Latin1_GetString_bytes this pre bs post : Forall byte bs -> length pre + length bs < 2 ^ 31 ->
  Encodings.Latin1_GetString this (Some (pre ++ bs ++ post)) (length pre) (length bs) = Ok (encoded bs).
Proof.
  intros Hb Hl. unfold Encodings.Latin1_GetString. destruct (decide (bs = [])) as [->|Hne].
  { by rewrite checked_empty by lia. }
  rewrite middle_checked, bind_Ok by done.
  replace (Z.to_nat (length pre + length bs - length pre)) with (length bs) by lia.
  rewrite (bytes_loop_emit _ utf8); rewrite ?middle; [done|rewrite !length_app; lia|].
  eapply Forall_impl; [exact Hb|]. intros b Hr j. unfold byte, in_u in Hr. cbn in Hr.
  rewrite utf8_Append_scalar by (unfold is_scalar; lia). done.
Qed.

Lemma scalars_below limit cps : limit <= 0xD800 -> Forall (fun cp => 0 <= cp < limit) cps -> Forall is_scalar cps.
Proof. intros Hl H. eapply Forall_impl; [exact H|]. intros cp Hc. cbn in Hc. unfold is_scalar. lia. Qed.

(** ** Any bytes *)

Lemma bytes_loop_pieces (emit : Z -> Z -> res (list Z)) (g : Z -> piece) f d :
  (forall b (j : nat), d !! j = Some b -> emit b j = piece_text f (g b)) -> forall n i : nat, (i + n <= length d)%nat ->
  Encodings.bytes_loop n emit (Some d) i = rendered f (map g (take n (drop i d))).
Proof.
  intros He. induction n as [|n IH]; intros i Hl; [done|].
  cbn [Encodings.bytes_loop]. destruct (lookup_lt_is_Some_2 d i) as [b Hg]; [lia|]. cbn [Encoding.at_].
  rewrite (get_Some _ _ b Hg), bind_Ok. replace (i + 1) with (S i : Z) by lia. rewrite He, IH by (lia || done).
  by rewrite (drop_S _ _ _ Hg).
Qed.

Lemma range_nonempty d (i n : nat) : (i + n <= length d)%nat -> i < 2 ^ 31 -> n < 2 ^ 31 -> n <> 0%nat ->
  Encoding.checkedRawDecodeRange (Some d) i n = Ok (i : Z, i + n).
Proof.
  intros Hl Hi Hn Hp. apply (checked_selected _ _ _ (take n (drop i d))); [|lia]. by apply selected_bytes.
Qed.

Lemma ASCII_GetString_pieces this d (i n : nat) : Forall byte d -> (i + n <= length d)%nat -> i < 2 ^ 31 -> n < 2 ^ 31 ->
  Encodings.ASCII_GetString this (Some d) i n = rendered (Encoding.decoderFallback_ this)
    (map (fun b => if b <? 128 then Reads b else Refused [b] 0) (take n (drop i d))).
Proof.
  intros Hb Hl Hi Hn. unfold Encodings.ASCII_GetString. destruct (decide (n = 0)%nat) as [->|Hp].
  { by rewrite checked_empty by lia. }
  rewrite range_nonempty, bind_Ok by done. decide_cmp.
  replace (Z.to_nat (i + n - i)) with n by lia. apply bytes_loop_pieces; [|done].
  intros b j Hg. pose proof (lookup_lt_Some _ _ _ Hg).
  assert (Hby : byte b) by by eapply Forall_lookup_1. unfold byte, in_u in Hby. cbn in Hby.
  destruct (b <? 128) eqn:E; bool_to_prop; decide_cmp; cbn [piece_text].
  - unfold utf8. by decide_cmp.
  - pose proof (AppendDecoderFallback_refusal this d j 1 ltac:(lia) ltac:(lia) ltac:(lia)) as A.
    change (Z.of_nat 1) with 1 in A. rewrite A, (drop_S _ _ _ Hg). done.
Qed.

Lemma Latin1_GetString_pieces this d (i n : nat) : Forall byte d -> (i + n <= length d)%nat -> i < 2 ^ 31 -> n < 2 ^ 31 ->
  Encodings.Latin1_GetString this (Some d) i n = rendered (Encoding.decoderFallback_ this) (map Reads (take n (drop i d))).
Proof.
  intros Hb Hl Hi Hn. unfold Encodings.Latin1_GetString. destruct (decide (n = 0)%nat) as [->|Hp].
  { by rewrite checked_empty by lia. }
  rewrite range_nonempty, bind_Ok by done.
  replace (Z.to_nat (i + n - i)) with n by lia. apply bytes_loop_pieces; [|done].
  intros b j Hg. assert (Hby : byte b) by by eapply Forall_lookup_1. unfold byte, in_u in Hby. cbn in Hby.
  cbn [piece_text]. rewrite utf8_Append_scalar by (unfold is_scalar; lia). done.
Qed.

(** ** What each encoding finds in a range *)

(** The pieces of the bytes [w] that stand at [place] of the buffer. *)
Definition found (k : Encoding.Kind) (place : Z) (w : list Z) (ps : list piece) : Prop :=
  match k with
  | Encoding.UTF8Encoding => ps = placed place (items w)
  | Encoding.ASCIIEncoding => ps = map (fun b => if b <? 128 then Reads b else Refused [b] 0) w
  | Encoding.Latin1Encoding => ps = map Reads w
  | Encoding.UnicodeEncoding be _ => ps = utf16_pieces be (utf16_unmarked be w)
  | Encoding.UTF32Encoding be _ => ps = utf32_pieces be (utf32_unmarked be w)
  | Encoding.UTF7Encoding _ => utf7_pieces w ps
  end.

(** Whom it asks about the bytes it refuses. *)
Definition consulted (this : Encoding.Encoding) : Encoding.DecoderFallback :=
  match Encoding.kind this with Encoding.UTF7Encoding _ => always_replaced | _ => Encoding.decoderFallback_ this end.

Lemma unmarked_bytes w : Forall byte w -> forall be, Forall byte (utf16_unmarked be w) /\ Forall byte (utf32_unmarked be w).
Proof.
  intros Hb be. unfold utf16_unmarked, utf32_unmarked.
  split; [destruct w as [|b0 [|b1 w]]|destruct w as [|b0 [|b1 [|b2 [|b3 w]]]]]; try done;
    (destruct (_ =? _); [by repeat (apply Forall_cons in Hb as [_ Hb])|done]).
Qed.

Lemma found_sound k place w ps : Forall byte w -> found k place w ps -> Forall sound_piece ps.
Proof.
  intros Hb. assert (Hr : Forall (fun b => 0 <= b < 256) w) by exact Hb.
  destruct k as [| |be bom|be bom|opt|]; cbn [found]; intros H; subst.
  - apply placed_sound. by apply items_scalars.
  - apply Forall_map. eapply Forall_impl; [exact Hr|]. intros b H. cbn in *.
    split_if; cbn; [unfold is_scalar; lia|done].
  - apply utf16_pieces_sound, unmarked_bytes, Hb.
  - apply utf32_pieces_sound, unmarked_bytes, Hb.
  - by eapply utf7_pieces_sound.
  - apply Forall_map. eapply Forall_impl; [exact Hr|]. intros b H. cbn in *. unfold is_scalar. lia.
Qed.

Lemma GetString_pieces this d (i n : nat) : Forall byte d -> usable (Encoding.decoderFallback_ this) ->
  i < 2 ^ 31 -> n < 2 ^ 31 -> (i + n <= length d)%nat ->
  match Encoding.kind this with Encoding.UTF7Encoding _ => i + n <= 2 ^ 31 | _ => True end ->
  exists ps, found (Encoding.kind this) i (take n (drop i d)) ps /\
    Transcoding.GetString this (Some d) i n = rendered (consulted this) ps.
Proof.
  intros Hb Hu Hi Hn Hl H7.
  unfold Transcoding.GetString, consulted. destruct (Encoding.kind this) as [| |be bom|be bom|opt|] eqn:K.
  5:{ destruct (Utf7_GetString_pieces d i n Hb Hl H7) as (ps & -> & Hp). by exists ps. }
  all: eexists; (split; [done|]).
  - by apply UTF8_GetString_pieces.
  - by apply ASCII_GetString_pieces.
  - by apply Unicode_GetString_pieces.
  - by apply UTF32_GetString_pieces.
  - by apply Latin1_GetString_pieces.
Qed.

(** ** Properties *)

(** The argument checks every class makes first. *)
Lemma GetString_checks this data index count :
  (index < 0 -> Transcoding.GetString this data index count = Throw (out_of_range "index"))
  /\ (0 <= index -> count < 0 -> Transcoding.GetString this data index count = Throw (out_of_range "count"))
  /\ (0 <= index -> Transcoding.GetString this data index 0 = Ok [])
  /\ (0 <= index -> 0 < count -> Transcoding.GetString this None index count = Throw (null_argument "data")).
Proof.
  unfold Transcoding.GetString, Encodings.UTF8_GetString, Encodings.ASCII_GetString, Encodings.Unicode_GetString,
    Encodings.UTF32_GetString, Utf7.GetString, Encodings.Latin1_GetString, Encoding.checkedRawDecodeRange,
    Encoding.validateRawDecodeRange.
  repeat split; intros; destruct (Encoding.kind this); decide_cmp; try done; by destruct data.
Qed.

(** C10: every encoding reads back what it wrote.  For any object of any of the six
    classes, in either byte order, with or without UTF-7's optional characters,
    whatever fallbacks are installed, and any text of Unicode scalars the class can
    represent (all of them but for ASCII and Latin-1), GetBytes returns bytes, and
    GetString on those bytes, anywhere inside a larger buffer, returns the text; only
    UTF-16 and UTF-32 drop a U+FEFF at its start. *)
Theorem Encoding_roundtrip this cps :
  Forall is_scalar cps -> representable (Encoding.kind this) cps ->
  exists bs, Transcoding.GetBytes this (encoded cps) = Ok bs /\
  forall pre post, Forall byte pre -> Forall byte post -> length pre + length bs < 2 ^ 31 ->
    Transcoding.GetString this (Some (pre ++ bs ++ post)) (length pre) (length bs)
      = Ok (encoded (read_back (Encoding.kind this) cps)).
Proof.
  intros Hs Hr. pose proof (encoded_bytes cps Hs) as Hb. unfold Transcoding.GetBytes, Transcoding.GetString.
  destruct (Encoding.kind this) as [| |be bom|be bom|opt|] eqn:K; cbn [representable read_back] in *.
  - destruct (UTF8_GetBytes_spec this _ Hb) as (-> & _); [|by exists cps]. eexists. split; [done|].
    intros pre post Hp Hq Hl.
    destruct (UTF8_GetString_spec this (pre ++ encoded cps ++ post) (length pre) (length (encoded cps))) as (E & _);
      rewrite ?middle in *; rewrite ?length_app; try lia; [by rewrite !Forall_app|]. apply E. by exists cps.
  - unfold Encodings.ASCII_GetBytes. rewrite loop_scalars, scalars_encoded by done.
    rewrite (feed_below this 128) by (done || apply ascii_body). eexists. split; [done|]. intros pre post _ _ Hl.
    by rewrite ASCII_GetString_bytes, encoded_ascii.
  - rewrite Unicode_GetBytes_spec, scalars_encoded by done. eexists. split; [done|]. intros pre post _ _ Hl.
    apply Unicode_GetString_encoded; lia || done.
  - rewrite UTF32_GetBytes_spec, scalars_encoded by done. eexists. split; [done|]. intros pre post _ _ Hl.
    apply UTF32_GetString_encoded; lia || done.
  - destruct (Utf7_roundtrip_any opt (encoded cps) Hb) as (bs & -> & E). eexists. split; [done|]. intros pre post _ _ Hl.
    by rewrite E, runes_encoded.
  - unfold Encodings.Latin1_GetBytes. rewrite loop_scalars, scalars_encoded by done.
    rewrite (feed_below this 256) by (done || apply latin1_body). eexists. split; [done|]. intros pre post _ _ Hl.
    by rewrite Latin1_GetString_bytes.
Qed.

Lemma Encoding_roundtrip_witness :
  exists bs, Transcoding.GetBytes Encoding.Unicode (encoded [0x61; 0x1F600; 0xFEFF]) = Ok bs /\
  forall pre post, Forall byte pre -> Forall byte post -> length pre + length bs < 2 ^ 31 ->
    Transcoding.GetString Encoding.Unicode (Some (pre ++ bs ++ post)) (length pre) (length bs)
      = Ok (encoded [0x61; 0x1F600; 0xFEFF]).
Proof.
  refine (Encoding_roundtrip Encoding.Unicode [0x61; 0x1F600; 0xFEFF] _ I).
  repeat constructor; unfold is_scalar; lia.
Defined.

(** C11: what GetString makes of any bytes.  With any 32-bit index and count every
    class checks them in the same order (a negative index, a negative count, an empty
    range, a null pointer).  When the range lies in the buffer, its bytes have one
    reading as a sequence of scalars and of bytes the class refuses: each byte, each
    item of UTF-8, each unit or surrogate pair of UTF-16, each four bytes, after a
    byte-order mark if there is one; for UTF-7 the grammar of RFC 2152.  The result is
    the text of the scalars with the replacement in the place of each refusal; with a
    throwing fallback, the DecoderFallbackException of the first refusal, which carries
    exactly the bytes refused, and as index their offset in the buffer for UTF-8 and 0
    for the others.  UTF-7 never asks the fallback: it puts U+FFFD.  The text is
    well-formed UTF-8 when the replacement is.  (For UTF-7 the end of the range must be
    at most [2^31], past which it is undefined.) *)
Theorem Encoding_GetString_exact this data index count :
  (index < 0 -> Transcoding.GetString this data index count = Throw (out_of_range "index"))
  /\ (0 <= index -> count < 0 -> Transcoding.GetString this data index count = Throw (out_of_range "count"))
  /\ (0 <= index -> Transcoding.GetString this data index 0 = Ok [])
  /\ (0 <= index -> 0 < count -> Transcoding.GetString this None index count = Throw (null_argument "data"))
  /\ (forall d, Forall byte d -> usable (Encoding.decoderFallback_ this) ->
       0 <= index < 2 ^ 31 -> 0 <= count < 2 ^ 31 -> index + count <= length d ->
       match Encoding.kind this with Encoding.UTF7Encoding _ => index + count <= 2 ^ 31 | _ => True end ->
       let w := take (Z.to_nat count) (drop (Z.to_nat index) d) in
       let r := Transcoding.GetString this (Some d) index count in
       (exists ps, found (Encoding.kind this) index w ps)
       /\ (forall ps, found (Encoding.kind this) index w ps -> r = rendered (consulted this) ps)
       /\ (forall s, consulted this = Encoding.DecoderReplacementFallback s ->
            exists t, r = Ok t /\ (well_formed s -> well_formed t))).
Proof.
  destruct (GetString_checks this data index count) as (C1 & C2 & C3 & C4).
  split; [done|]. split; [done|]. split; [done|]. split; [done|].
  intros d Hb Hu Hi Hc Hl H7 w r. unfold r. rewrite <- (Z2Nat.id index), <- (Z2Nat.id count) by lia.
  destruct (GetString_pieces this d (Z.to_nat index) (Z.to_nat count)) as (ps & Hf & ->);
    [done|done|lia|lia|lia|by rewrite !Z2Nat.id by lia|].
  fold w in Hf |- *. assert (Hs : Forall sound_piece ps) by (eapply found_sound; [|exact Hf]; by apply Forall_take, Forall_drop).
  rewrite Z2Nat.id in * by lia. split; [by exists ps|]. split; [|intros s ->; by apply rendered_replaced].
  intros qs Hq. f_equal. unfold found in Hf, Hq. destruct (Encoding.kind this); try congruence.
  by eapply utf7_pieces_unique.
Qed.

(** A stray continuation byte of a range inside a buffer, and a unit that is no pair. *)
Lemma Encoding_GetString_exact_witness :
  let strict k := Encoding.encoding k Encoding.DecoderExceptionFallback Encoding.EncoderExceptionFallback false in
  let utf16le := Encoding.UnicodeEncoding false false in
  Transcoding.GetString (strict Encoding.UTF8Encoding) (Some [0xC0; 0x41; 0x80; 0xED; 0xA0]) 1 4 =
    Throw (DecoderFallbackException (Encoding.decoder_message [0x80] 2) [0x80] 2)
  /\ Transcoding.GetString (strict utf16le) (Some [0x3D; 0xD8; 0x00; 0xDE; 0x3D; 0xD8; 0x41; 0x00]) 0 8 =
    Throw (DecoderFallbackException (Encoding.decoder_message [0x3D; 0xD8] 0) [0x3D; 0xD8] 0).
Proof.
  intros strict utf16le.
  split.
  - refine (proj1 (proj2 (proj2 (proj2 (proj2 (proj2 (Encoding_GetString_exact (strict Encoding.UTF8Encoding) None 1 4))))
      [0xC0; 0x41; 0x80; 0xED; 0xA0] _ _ _ _ _ _)) _ eq_refl); [unfold byte; repeat constructor; by vm_compute|..]; (done || cbn; lia).
  - refine (proj1 (proj2 (proj2 (proj2 (proj2 (proj2 (Encoding_GetString_exact (strict utf16le) None 0 8))))
      [0x3D; 0xD8; 0x00; 0xDE; 0x3D; 0xD8; 0x41; 0x00] _ _ _ _ _ _)) _ eq_refl); [unfold byte; repeat constructor; by vm_compute|..]; (done || cbn; lia).
Defined.

(** What an encoding writes for an item of the text, with the replacement [r]. *)
Definition unit_of (k : Encoding.Kind) (r : list Z) (x : item) : list Z :=
  match k with
  | Encoding.UTF8Encoding => match x with Scalar cp => utf8 cp | Stray _ => r end
  | Encoding.ASCIIEncoding => single r 128 (scalar_of x)
  | Encoding.Latin1Encoding => single r 256 (scalar_of x)
  | Encoding.UnicodeEncoding be _ => utf16 be (scalar_of x)
  | Encoding.UTF32Encoding be _ => utf32 be (scalar_of x)
  | Encoding.UTF7Encoding _ => []
  end.

Lemma map_scalars (f : Z -> list Z) w : map f (scalars w) = map (fun x => f (scalar_of x)) (items w).
Proof. apply (map_map scalar_of f). Qed.

(** C13: what GetBytes writes for any bytes, well formed or not.  A string is a
    sequence of scalars and stray bytes; with a replacing fallback the output is the
    concatenation of what the class writes for each: UTF-16 and UTF-32 the units of
    the scalar, U+FFFD for a stray byte, in a vector sized beforehand and never
    overrun; ASCII and Latin-1 the scalar's byte or one replacement, for a supplementary
    scalar too, where the comments of both classes say two; UTF-8 the scalar's own bytes
    or the replacement.  UTF-7 writes what reads back as the string with
    each ill-formed sequence replaced. *)
Theorem Encoding_GetBytes_exact this w r :
  Forall byte w -> Encoding.encoderFallback_ this = Encoding.EncoderReplacementFallback r -> short r ->
  match Encoding.kind this with
  | Encoding.UTF7Encoding _ =>
      exists out, Transcoding.GetBytes this w = Ok out /\ forall post, length out < 2 ^ 31 ->
        Transcoding.GetString this (Some (out ++ post)) 0 (length out) = Ok (encoded (runes w))
  | k => Transcoding.GetBytes this w = Ok (concat (map (unit_of k r) (items w)))
  end.
Proof.
  intros Hb Hf Hr. unfold Transcoding.GetBytes, Transcoding.GetString.
  destruct (Encoding.kind this) as [| |be bom|be bom|opt|]; cbn [unit_of].
  - destruct (UTF8_GetBytes_spec this w Hb) as (_ & E & _). by apply E.
  - unfold Encodings.ASCII_GetBytes. rewrite loop_scalars by done.
    rewrite (single_body this 128 _ r) by (done || apply ascii_body || by apply scalars_scalar). by rewrite map_scalars.
  - by rewrite Unicode_GetBytes_spec, map_scalars.
  - by rewrite UTF32_GetBytes_spec, map_scalars.
  - destruct (Utf7_roundtrip_any opt w Hb) as (out & -> & E). exists out. split; [done|]. intros post Hl.
    apply (E [] post). cbn. lia.
  - unfold Encodings.Latin1_GetBytes. rewrite loop_scalars by done.
    rewrite (single_body this 256 _ r) by (done || apply latin1_body || by apply scalars_scalar). by rewrite map_scalars.
Qed.

Lemma Encoding_GetBytes_exact_witness :
  Transcoding.GetBytes Encoding.BigEndianUnicode [0x41; 0xFF; 0xF0; 0x9F; 0x98; 0x80] =
    Ok [0x00; 0x41; 0xFF; 0xFD; 0xD8; 0x3D; 0xDE; 0x00].
Proof.
  refine (Encoding_GetBytes_exact Encoding.BigEndianUnicode [0x41; 0xFF; 0xF0; 0x9F; 0x98; 0x80]
    Encoding.replacement_utf8 _ eq_refl _).
  - unfold byte. repeat constructor; by vm_compute.
  - by vm_compute.
Defined.

(** The code point a throwing fallback reports for a byte of 128 or more is the byte
    sign-extended, which is no code point. *)
Lemma char_to_char32_high b : 128 <= b < 256 -> Encodings.char_to_char32 b = 0xFFFFFF00 + b.
Proof. intros H. unfold Encodings.char_to_char32. zlia. Qed.

Lemma stray_high b rest : byte b -> fst (scan (b :: rest)) = None -> 128 <= b.
Proof.
  unfold byte, in_u. intros Hb H. destruct (Z.lt_ge_cases b 128); [|done]. exfalso.
  unfold scan in H. cbn [shape] in H. revert H. unfold least. decide_cmp.
  by rewrite judge_scalar by (unfold is_scalar; lia).
Qed.

(** C14: UTF-8 validates in both directions, with a throwing fallback: well-formed
    bytes pass unchanged, and otherwise the first byte that does not begin the
    encoding of a scalar is reported, with its offset in the caller's buffer when
    decoding and in the string when encoding; but the code point the encoder reports
    is the byte sign-extended to 32 bits, never a Unicode scalar. *)
Theorem UTF8_validates this d (i n : nat) :
  Forall byte d -> i + n <= length d -> length d < 2 ^ 31 ->
  Encoding.kind this = Encoding.UTF8Encoding ->
  Encoding.decoderFallback_ this = Encoding.DecoderExceptionFallback ->
  Encoding.encoderFallback_ this = Encoding.EncoderExceptionFallback ->
  let w := take n (drop i d) in
  (well_formed w /\ Transcoding.GetString this (Some d) i n = Ok w /\ Transcoding.GetBytes this w = Ok w) \/
  exists cps b rest, Forall is_scalar cps /\ w = encoded cps ++ b :: rest
    /\ (forall cp, is_scalar cp -> ~ utf8 cp `prefix_of` b :: rest)
    /\ (let j := i + length (encoded cps) in
        Transcoding.GetString this (Some d) i n =
          Throw (DecoderFallbackException (Encoding.decoder_message [b] j) [b] j))
    /\ (let c := 0xFFFFFF00 + b in let j := length (encoded cps) : Z in ~ is_scalar c /\
        Transcoding.GetBytes this w = Throw (EncoderFallbackException (Encoding.encoder_message c j) c j)).
Proof.
  intros Hb Hl H31 K Fd Fe w. unfold Transcoding.GetString, Transcoding.GetBytes. rewrite K.
  assert (Hw : Forall byte w) by by apply Forall_take, Forall_drop.
  destruct (UTF8_GetString_spec this d i n Hb ltac:(lia) ltac:(lia) ltac:(lia)) as (D1 & _ & D2).
  destruct (UTF8_GetBytes_spec this w Hw) as (B1 & _ & B2).
  destruct (first_stray w Hw) as [Hwf|(cps & b & rest & Hs & E & Hsc)]; [by left; auto|]. right.
  exists cps, b, rest. split; [done|]. split; [done|].
  assert (Hbr : Forall byte (b :: rest)) by (rewrite E in Hw; by apply Forall_app in Hw as [_ ?]).
  assert (Hbb : byte b) by by inversion Hbr. pose proof (stray_high b rest Hbb Hsc) as Hhi.
  assert (Hlen : (i + length (encoded cps) < length d)%nat).
  { assert (length w = n) by (unfold w; rewrite length_take, length_drop; lia).
    rewrite E, length_app in H. cbn [length] in H. lia. }
  split; [|split].
  - intros cp Hcp Hp. pose proof (proj2 (scan_Some _ cp Hbr) (conj Hcp Hp)). congruence.
  - specialize (D2 Fd cps b rest Hs E Hsc). cbv zeta in D2. rewrite i32_small in D2 by lia. exact D2.
  - cbv zeta. split; [unfold is_scalar, byte, in_u in *; lia|].
    specialize (B2 Fe cps b rest Hs E Hsc). cbv zeta in B2. rewrite i32_small in B2 by lia.
    rewrite char_to_char32_high in B2 by (unfold byte, in_u in Hbb; cbn in Hbb; lia). exact B2.
Qed.

Lemma UTF8_validates_witness :
  let d := [0x41; 0xC3; 0xA9; 0xFF; 0x42] in
  let this := Encoding.encoding Encoding.UTF8Encoding Encoding.DecoderExceptionFallback Encoding.EncoderExceptionFallback false in
  (well_formed (take 3 (drop 1 d)) /\ Transcoding.GetString this (Some d) 1 3 = Ok (take 3 (drop 1 d))
     /\ Transcoding.GetBytes this (take 3 (drop 1 d)) = Ok (take 3 (drop 1 d))) \/
  exists cps b rest, Forall is_scalar cps /\ take 3 (drop 1 d) = encoded cps ++ b :: rest
    /\ (forall cp, is_scalar cp -> ~ utf8 cp `prefix_of` b :: rest)
    /\ (let j := 1%nat + length (encoded cps) in
        Transcoding.GetString this (Some d) 1 3 =
          Throw (DecoderFallbackException (Encoding.decoder_message [b] j) [b] j))
    /\ (let c := 0xFFFFFF00 + b in let j := length (encoded cps) : Z in ~ is_scalar c /\
        Transcoding.GetBytes this (take 3 (drop 1 d)) = Throw (EncoderFallbackException (Encoding.encoder_message c j) c j)).
Proof.
  intros d this. refine (UTF8_validates this d 1 3 _ _ _ eq_refl eq_refl eq_refl).
  - unfold d, byte. repeat constructor; by vm_compute.
  - unfold d. cbn. lia.
  - by vm_compute.
Defined.

(** The other classes report every undecodable unit at index 0, wherever it is. *)
Example utf16_index_zero :
  let this := Encoding.encoding (Encoding.UnicodeEncoding false false) Encoding.DecoderExceptionFallback
                Encoding.EncoderExceptionFallback false in
  Transcoding.GetString this (Some [0x41; 0x00; 0x00; 0xD8]) 0 4 =
    Throw (DecoderFallbackException (Encoding.decoder_message [0x00; 0xD8] 0) [0x00; 0xD8] 0).
Proof. by vm_compute. Qed.

(** UTF-7 adds a 32-bit index and offset: past [2^31] it is undefined, although the
    buffer has the bytes. *)
Lemma utf7_index_overflow : Utf7.byte_at (Some (replicate (Z.to_nat (2 ^ 31 + 1)) 65)) INTCS_MAX 1 = UB.
Proof. reflexivity. Qed.

(** The shared instances refuse a new fallback, and a refused one changes nothing. *)
Lemma shared_read_only this f : this ∈ [Encoding.UTF8; Encoding.ASCII; Encoding.Unicode; Encoding.BigEndianUnicode;
    Encoding.UTF32; Encoding.UTF7; Encoding.Latin1] ->
  Encoding.setDecoderFallback this f = Throw (InvalidOperationException "Instance is read-only.").
Proof. intros H. repeat (apply elem_of_cons in H as [->|H]; [done|]). by apply elem_of_nil in H. Qed.
