(* ===== verification/Stream.v ===== *)
(** * Streams

    [io/include/System/IO/Stream.hpp] and [Stream.cpp]: the virtual members of
    [Stream] as a class of operations on the object's fields, with the bodies the base
    class gives its defaults, and what a seekable stream promises its clients: the
    class [SeekableStream] relates each operation to a file, a sequence of bytes with
    a position.  A member is a command: it answers, throws or is undefined, and
    leaves the fields as they are at that point. *)

From S2P Require Export Guards.

#[local] Coercion Z.of_nat : nat >-> Z.

(** ** Commands *)

Definition cmd (X A : Type) : Type := X -> res A * X.

Definition ret {X A} (a : A) : cmd X A := fun x => (Ok a, x).
Definition lift {X A} (r : res A) : cmd X A := fun x => (r, x).
Definition gets {X A} (f : X -> A) : cmd X A := fun x => (Ok (f x), x).
Definition modify {X} (f : X -> X) : cmd X unit := fun x => (Ok tt, f x).
Definition andthen {X A B} (m : cmd X A) (k : A -> cmd X B) : cmd X B :=
  fun x => match m x with
           | (Ok a, x) => k a x
           | (Throw e, x) => (Throw e, x)
           | (UB, x) => (UB, x)
           end.

(** A command on a part of the state. *)
Definition within {X Y A} (part : X -> Y) (replace : Y -> X -> X) (m : cmd Y A) : cmd X A :=
  fun x => let (r, y) := m (part x) in (r, replace y x).

Notation "x <== m ;; k" := (andthen m (fun x => k))
  (at level 100, m at next level, right associativity) : sharp_scope.
Notation "m ;;; k" := (andthen m (fun _ => k))
  (at level 100, right associativity) : sharp_scope.

Definition when {X} (b : bool) (m : cmd X unit) : cmd X unit := if b then m else ret tt.

(** ** The caller's arrays *)

(** A pointer to an array of bytes, or null. *)
Abbreviation array := (option (list Z)).

(** [n] elements from [p + i] on, and copying [w] to [p + i]: a null pointer or a range
    that leaves the array is undefined. *)
Definition fetch (p : array) (i n : Z) : res (list Z) :=
  match p with
  | Some l => if (0 <=? i) && (0 <=? n) && (i + n <=? length l)
              then Ok (take (Z.to_nat n) (drop (Z.to_nat i) l)) else UB
  | None => UB
  end.
Definition put (l : list Z) (i : Z) (w : list Z) : res (list Z) :=
  if (0 <=? i) && (i + length w <=? length l)
  then Ok (take (Z.to_nat i) l ++ w ++ drop (Z.to_nat i + length w) l) else UB.
Definition store (p : array) (i : Z) (w : list Z) : res array :=
  match p with Some l => l <- put l i w ;; Ok (Some l) | None => UB end.

(** [vector::resize]: truncated or extended with zeros. *)
Definition vector_resize (l : list Z) (n : Z) : list Z :=
  take (Z.to_nat n) l ++ replicate (Z.to_nat n - length l) 0.

(** ** Stream *)

Inductive SeekOrigin := Begin | Current | End_ | OtherOrigin (value : Z).

#[export] Instance SeekOrigin_eq_dec : EqDecision SeekOrigin.
Proof. solve_decision. Defined.

(** The test of a pointer against [nullptr]. *)
Definition is_null (p : array) : bool := match p with None => true | Some _ => false end.

(** A command on the object, beside the caller's array. *)
Definition on_object {S A} (m : cmd S A) : cmd (array * S) A :=
  within snd (fun s x => (fst x, s)) m.

(** The virtual members.  [Read] also changes the caller's array. *)
Class Stream (S : Type) := {
  Read : Z -> Z -> cmd (array * S) Z;
  Close : cmd S unit;
  getLengthProperty : cmd S Z;
  Write : array -> Z -> Z -> cmd S unit;
  WriteByte : Z -> cmd S unit;
  getCanWriteProperty : S -> bool;
  getCanReadProperty : S -> bool;
  getPositionProperty : cmd S Z;
  setPositionProperty : Z -> cmd S unit;
  getCanSeekProperty : S -> bool;
  Seek : Z -> SeekOrigin -> cmd S Z;
  SetLength : Z -> cmd S unit;
  ReadByte : cmd S Z;
  Flush : cmd S unit
}.

Definition before_beginning : exn :=
  IOException "An attempt was made to move the position before the beginning of the stream.".

(** The bodies of the base class; those that call virtual members take them as
    arguments. *)
Section Defaults.
Context {S : Type}.

Definition Stream_Write (_ : array) (_ _ : Z) : cmd S unit :=
  lift (Throw (NotSupportedException "Stream does not support writing.")).
Definition Stream_WriteByte (Write : array -> Z -> Z -> cmd S unit) (value : Z) : cmd S unit :=
  Write (Some [value]) 0 1.
Definition Stream_getCanWrite (_ : S) : bool := false.
Definition Stream_getCanRead (_ : S) : bool := true.
Definition Stream_getPosition : cmd S Z :=
  lift (Throw (NotSupportedException "Stream does not support seeking.")).
Definition Stream_setPosition (_ : Z) : cmd S unit :=
  lift (Throw (NotSupportedException "Stream does not support seeking.")).
Definition Stream_getCanSeek (_ : S) : bool := false.
Definition Stream_SetLength (_ : Z) : cmd S unit :=
  lift (Throw (NotSupportedException "Stream does not support SetLength.")).
Definition Stream_Flush : cmd S unit := ret tt.

Definition Stream_Seek (getPosition getLength : cmd S Z) (setPosition : Z -> cmd S unit)
    (offset : Z) (origin : SeekOrigin) : cmd S Z :=
  newPosition <== match origin with
    | Begin => ret offset
    | Current => p <== getPosition ;; lift (sadd 32 p offset)
    | End_ => n <== getLength ;; lift (sadd 32 n offset)
    | OtherOrigin _ => lift (Throw (ArgumentException "Invalid seek origin." "origin"))
    end ;;
  lift (throw_if (newPosition <? 0) before_beginning) ;;;
  setPosition newPosition ;;;
  ret newPosition.

(** The byte [b] is a local of the member. *)
Definition Stream_ReadByte (Read : Z -> Z -> cmd (array * S) Z) : cmd S Z := fun s =>
  match Read 0 1 (Some [0], s) with
  | (Ok bytesRead, (b, s)) =>
      ((if bytesRead =? 0 then Ok (-1) else w <- fetch b 0 1 ;; Ok (nth 0 w 0)), s)
  | (Throw e, (_, s)) => (Throw e, s)
  | (UB, (_, s)) => (UB, s)
  end.

End Defaults.

(** ** The file a stream stands for *)

Record file := File { bytes : list Z; position : Z }.

(** The bytes from the position on. *)
Definition rest (f : file) : list Z := drop (Z.to_nat (position f)) (bytes f).

(** Writing at the position, over what is there and past the end; a gap between the
    end and the position is filled with zeros. *)
Definition written (f : file) (w : list Z) : file :=
  match w with
  | [] => f
  | _ => File (vector_resize (bytes f) (position f) ++ w ++
               drop (Z.to_nat (position f) + length w) (bytes f))
              (position f + length w)
  end.

Definition moved_to (f : file) (p : Z) : file := File (bytes f) p.
Definition resized (f : file) (n : Z) : file := File (vector_resize (bytes f) n) (Z.min (position f) n).

(** Where [Seek] goes. *)
Definition target (f : file) (offset : Z) (origin : SeekOrigin) : option Z :=
  match origin with
  | Begin => Some offset
  | Current => Some (position f + offset)
  | End_ => Some (length (bytes f) + offset)
  | OtherOrigin _ => None
  end.

#[global] Arguments fetch : simpl never.
#[global] Arguments put : simpl never.
#[global] Arguments store : simpl never.
#[global] Arguments vector_resize : simpl never.
#[global] Arguments written : simpl never.

(** ** Total correctness of commands *)

(** The command answers, and the answer and the state satisfy [Q]. *)
Definition runs {X A} (m : cmd X A) (x : X) (Q : A -> X -> Prop) : Prop :=
  exists a x', m x = (Ok a, x') /\ Q a x'.

(** The command throws [e] and leaves a state that satisfies [Q]. *)
Definition fails {X A} (m : cmd X A) (x : X) (e : exn) (Q : X -> Prop) : Prop :=
  exists x', m x = (Throw e, x') /\ Q x'.

(** An array and a range of it. *)
Definition range_of (l : list Z) (offset count : Z) : Prop :=
  0 <= offset /\ 0 <= count /\ offset + count <= length l <= INTCS_MAX.

(** What a read of [f] into [count] bytes of [l] at [offset] delivers when it answers
    [n] and leaves the array [a]: a prefix of the rest of the file, empty only at the
    end. *)
Definition delivered (f : file) (l : list Z) (offset count n : Z) (a : array) : Prop :=
  0 <= n <= count /\ n <= length (rest f) /\
  store (Some l) offset (take (Z.to_nat n) (rest f)) = Ok a /\
  (n = 0 -> count = 0 \/ rest f = []).

(** ** What a seekable stream promises *)

Class SeekableStream (S : Type) `{Stream S} := {
  (** The states in which the stream is open, and the file they stand for. *)
  ready : S -> Prop;
  view : S -> file;
  (** [s'] is ready, stands for [f] and is writable if [s] is. *)
  becomes (s s' : S) (f : file) : Prop :=
    ready s' /\ view s' = f /\ getCanWriteProperty s' = getCanWriteProperty s;

  ready_bounds s : ready s ->
    0 <= position (view s) <= INTCS_MAX /\ length (bytes (view s)) <= INTCS_MAX;
  ready_can s : ready s -> getCanReadProperty s = true /\ getCanSeekProperty s = true;

  (** [Read] delivers a prefix of what is left, empty only at the end. *)
  Read_law s l offset count : ready s -> range_of l offset count ->
    runs (Read offset count) (Some l, s) (fun n '(a, s') =>
      delivered (view s) l offset count n a /\
      becomes s s' (moved_to (view s) (position (view s) + n)));
  Write_law s l offset count w : ready s -> getCanWriteProperty s = true ->
    length l <= INTCS_MAX -> fetch (Some l) offset count = Ok w ->
    position (view s) + count <= INTCS_MAX ->
    runs (Write (Some l) offset count) s (fun _ s' => becomes s s' (written (view s) w));
  (** Past the end no promise is made. *)
  WriteByte_law s v : ready s -> getCanWriteProperty s = true ->
    position (view s) <= length (bytes (view s)) -> position (view s) < INTCS_MAX ->
    runs (WriteByte v) s (fun _ s' => becomes s s' (written (view s) [v]));
  getLength_law s : ready s ->
    runs getLengthProperty s (fun n s' => n = length (bytes (view s)) /\ becomes s s' (view s));
  getPosition_law s : ready s ->
    runs getPositionProperty s (fun p s' => p = position (view s) /\ becomes s s' (view s));
  setPosition_law s p : ready s -> 0 <= p <= INTCS_MAX ->
    runs (setPositionProperty p) s (fun _ s' => becomes s s' (moved_to (view s) p));
  Seek_law s offset origin p : ready s -> target (view s) offset origin = Some p ->
    INTCS_MIN <= offset -> 0 <= p <= INTCS_MAX ->
    runs (Seek offset origin) s (fun r s' => r = p /\ becomes s s' (moved_to (view s) p));
  Seek_before_law s offset origin p : ready s -> target (view s) offset origin = Some p ->
    INTCS_MIN + length (rest (view s)) <= offset -> p < 0 ->
    fails (Seek offset origin) s before_beginning (fun s' => becomes s s' (view s));
  SetLength_law s n : ready s -> getCanWriteProperty s = true -> 0 <= n <= INTCS_MAX ->
    runs (SetLength n) s (fun _ s' => becomes s s' (resized (view s) n));
  ReadByte_law s : ready s ->
    runs ReadByte s (fun b s' =>
      match rest (view s) with
      | [] => b = -1 /\ becomes s s' (view s)
      | v :: _ => b = v /\ becomes s s' (moved_to (view s) (position (view s) + 1))
      end);
  Flush_law s : ready s -> runs Flush s (fun _ s' => becomes s s' (view s))
}.

(** A stream whose [Read] is never short. *)
Class ExactReads (S : Type) `{SeekableStream S} :=
  Read_exact : forall s l offset count, ready s -> range_of l offset count ->
    runs (Read offset count) (Some l, s) (fun n _ => n = Z.min count (length (rest (view s)))).

#[global] Hint Mode Stream ! : typeclass_instances.
#[global] Hint Mode SeekableStream ! - : typeclass_instances.

(** ** Rules for commands *)

Section Rules.
Context {X A B : Type}.
Implicit Types (m : cmd X A) (k : A -> cmd X B) (x : X).

Lemma runs_ret a x (Q : A -> X -> Prop) : Q a x -> runs (ret a) x Q.
Proof. intros. by exists a, x. Qed.

Lemma runs_lift (r : res A) a x (Q : A -> X -> Prop) : r = Ok a -> Q a x -> runs (lift r) x Q.
Proof. intros -> ?. by exists a, x. Qed.

Lemma runs_gets (f : X -> A) x (Q : A -> X -> Prop) : Q (f x) x -> runs (gets f) x Q.
Proof. intros. by exists (f x), x. Qed.

Lemma runs_modify (f : X -> X) x (Q : unit -> X -> Prop) : Q tt (f x) -> runs (modify f) x Q.
Proof. intros. by exists tt, (f x). Qed.

Lemma runs_bind m k x (P : A -> X -> Prop) (Q : B -> X -> Prop) :
  runs m x P -> (forall a x', P a x' -> runs (k a) x' Q) -> runs (andthen m k) x Q.
Proof. intros (a & x' & E & HP) Hk. unfold runs, andthen. rewrite E. by apply Hk. Qed.

Lemma runs_weaken m x (P Q : A -> X -> Prop) :
  runs m x P -> (forall a x', P a x' -> Q a x') -> runs m x Q.
Proof. intros (a & x' & E & HP) HQ. exists a, x'. auto. Qed.

(** A command has one outcome. *)
Lemma runs_both m x (P Q : A -> X -> Prop) :
  runs m x P -> runs m x Q -> runs m x (fun a x' => P a x' /\ Q a x').
Proof.
  intros (a & x' & E & HP) (b & y & E' & HQ). rewrite E in E'. injection E' as <- <-.
  by exists a, x'.
Qed.

Lemma fails_bind_left m k x e (Q : X -> Prop) : fails m x e Q -> fails (andthen m k) x e Q.
Proof. intros (x' & E & HQ). unfold fails, andthen. rewrite E. eauto. Qed.

Lemma fails_bind m k x e (P : A -> X -> Prop) (Q : X -> Prop) :
  runs m x P -> (forall a x', P a x' -> fails (k a) x' e Q) -> fails (andthen m k) x e Q.
Proof. intros (a & x' & E & HP) Hk. unfold fails, andthen. rewrite E. by apply Hk. Qed.

Lemma fails_lift (r : res A) x e (Q : X -> Prop) : r = Throw e -> Q x -> fails (lift r) x e Q.
Proof. intros -> ?. by exists x. Qed.

Lemma fails_weaken m x e (P Q : X -> Prop) :
  fails m x e P -> (forall x', P x' -> Q x') -> fails m x e Q.
Proof. intros (x' & E & HP) HQ. exists x'. auto. Qed.

End Rules.

Lemma runs_within {X Y A} (part : X -> Y) (replace : Y -> X -> X) (m : cmd Y A) x
    (Q : A -> X -> Prop) :
  runs m (part x) (fun a y => Q a (replace y x)) -> runs (within part replace m) x Q.
Proof. intros (a & y & E & HQ). exists a, (replace y x). unfold within. by rewrite E. Qed.

Lemma fails_within {X Y A} (part : X -> Y) (replace : Y -> X -> X) (m : cmd Y A) x e (Q : X -> Prop) :
  fails m (part x) e (fun y => Q (replace y x)) -> fails (within part replace m) x e Q.
Proof. intros (y & E & HQ). exists (replace y x). unfold within. by rewrite E. Qed.

Lemma runs_when {X} b (m : cmd X unit) x (Q : unit -> X -> Prop) :
  (b = true -> runs m x Q) -> (b = false -> Q tt x) -> runs (when b m) x Q.
Proof. intros Ht Hf. destruct b; [by apply Ht | apply runs_ret; by apply Hf]. Qed.

(** The same rules in front of a continuation, and the tactic that applies the one
    that fits; what is left are the outcomes of pure calls. *)
Section Steps.
Context {X A B C : Type}.
Implicit Types (x : X) (Q : B -> X -> Prop).

Lemma step_ret (a : A) (k : A -> cmd X B) x Q : runs (k a) x Q -> runs (andthen (ret a) k) x Q.
Proof. done. Qed.

Lemma step_lift (r : res A) a (k : A -> cmd X B) x Q :
  r = Ok a -> runs (k a) x Q -> runs (andthen (lift r) k) x Q.
Proof. by intros ->. Qed.

Lemma step_gets (f : X -> A) (k : A -> cmd X B) x Q :
  runs (k (f x)) x Q -> runs (andthen (gets f) k) x Q.
Proof. done. Qed.

Lemma step_modify (f : X -> X) (k : unit -> cmd X B) x Q :
  runs (k tt) (f x) Q -> runs (andthen (modify f) k) x Q.
Proof. done. Qed.

Lemma step_assoc (m : cmd X C) (h : C -> cmd X A) (k : A -> cmd X B) x Q :
  runs (andthen m (fun c => andthen (h c) k)) x Q -> runs (andthen (andthen m h) k) x Q.
Proof. unfold runs, andthen. by destruct (m x) as [[c|e|] x']. Qed.

Lemma step_when b (m : cmd X unit) (k : unit -> cmd X B) x Q :
  (b = true -> runs (andthen m k) x Q) -> (b = false -> runs (k tt) x Q) ->
  runs (andthen (when b m) k) x Q.
Proof. destruct b; intros Ht Hf; [by apply Ht | by apply Hf]. Qed.

Lemma step_when_true b (m : cmd X unit) (k : unit -> cmd X B) x Q :
  b = true -> runs (andthen m k) x Q -> runs (andthen (when b m) k) x Q.
Proof. by intros ->. Qed.

Lemma step_when_false b (m : cmd X unit) (k : unit -> cmd X B) x Q :
  b = false -> runs (k tt) x Q -> runs (andthen (when b m) k) x Q.
Proof. by intros ->. Qed.

Lemma fails_ret (a : A) (k : A -> cmd X B) x e (Q : X -> Prop) :
  fails (k a) x e Q -> fails (andthen (ret a) k) x e Q.
Proof. done. Qed.

Lemma fails_step (r : res A) a (k : A -> cmd X B) x e (Q : X -> Prop) :
  r = Ok a -> fails (k a) x e Q -> fails (andthen (lift r) k) x e Q.
Proof. by intros ->. Qed.

Lemma fails_gets (f : X -> A) (k : A -> cmd X B) x e (Q : X -> Prop) :
  fails (k (f x)) x e Q -> fails (andthen (gets f) k) x e Q.
Proof. done. Qed.

Lemma fails_assoc (m : cmd X C) (h : C -> cmd X A) (k : A -> cmd X B) x e (Q : X -> Prop) :
  fails (andthen m (fun c => andthen (h c) k)) x e Q -> fails (andthen (andthen m h) k) x e Q.
Proof. unfold fails, andthen. by destruct (m x) as [[c|e'|] x']. Qed.

End Steps.

Lemma step_within {X Y A B} (part : X -> Y) (replace : Y -> X -> X) (m : cmd Y A)
    (k : A -> cmd X B) x (Q : B -> X -> Prop) :
  runs m (part x) (fun a y => runs (k a) (replace y x) Q) ->
  runs (andthen (within part replace m) k) x Q.
Proof. intros (a & y & E & HQ). unfold runs, andthen, within. by rewrite E. Qed.

Ltac run := cbn beta; lazymatch goal with
  | |- runs (andthen (andthen _ _) _) _ _ => apply step_assoc; run
  | |- runs (andthen (ret _) _) _ _ => apply step_ret; run
  | |- runs (andthen (gets _) _) _ _ => apply step_gets; cbn; run
  | |- runs (andthen (modify _) _) _ _ => apply step_modify; cbn; run
  | |- runs (andthen (lift (throw_if ?b _)) _) _ _ =>
      eapply step_lift; [apply throw_if_false | run]
  | |- runs (andthen (lift _) _) _ _ => eapply step_lift; [ | run]
  | |- runs (ret _) _ _ => apply runs_ret
  | |- runs (gets _) _ _ => apply runs_gets
  | |- runs (modify _) _ _ => apply runs_modify
  | |- _ => idtac
  end.

(** ** Parts of the state a command leaves alone *)

Definition leaves {X A T} (g : X -> T) (m : cmd X A) : Prop := forall x, g (snd (m x)) = g x.

Section Leaves.
Context {X T : Type} (g : X -> T).

Lemma leaves_ret {A} (a : A) : leaves g (ret a).
Proof. done. Qed.
Lemma leaves_lift {A} (r : res A) : leaves g (lift r).
Proof. done. Qed.
Lemma leaves_gets {A} (f : X -> A) : leaves g (gets f).
Proof. done. Qed.
Lemma leaves_modify (f : X -> X) : (forall x, g (f x) = g x) -> leaves g (modify f).
Proof. intros E x. apply E. Qed.
Lemma leaves_andthen {A B} (m : cmd X A) (k : A -> cmd X B) :
  leaves g m -> (forall a, leaves g (k a)) -> leaves g (andthen m k).
Proof.
  intros Hm Hk x. specialize (Hm x). unfold andthen.
  destruct (m x) as [[a|e|] y]; cbn in *; [by rewrite Hk | done | done].
Qed.
Lemma leaves_if {A} (b : bool) (m n : cmd X A) :
  leaves g m -> leaves g n -> leaves g (if b then m else n).
Proof. by destruct b. Qed.
Lemma leaves_when (b : bool) (m : cmd X unit) : leaves g m -> leaves g (when b m).
Proof. by destruct b. Qed.
Lemma leaves_within {Y A} (part : X -> Y) (replace : Y -> X -> X) (m : cmd Y A) :
  (forall y x, g (replace y x) = g x) -> leaves g (within part replace m).
Proof. intros E x. unfold within. destruct (m (part x)). apply E. Qed.
End Leaves.

Lemma leaves_on_object {S A T} (g : S -> T) (m : cmd S A) :
  leaves g m -> leaves (fun x => g (snd x)) (on_object m).
Proof.
  intros Hm [a s]. specialize (Hm s). unfold on_object, within. cbn in *. by destruct (m s).
Qed.

Create HintDb leaves.
#[export] Hint Resolve leaves_ret leaves_lift leaves_gets leaves_modify leaves_andthen leaves_if
  leaves_when leaves_within leaves_on_object : leaves.

(** ** Lemmas on arrays and files *)

Lemma fetch_Ok l i n : 0 <= i -> 0 <= n -> i + n <= length l ->
  fetch (Some l) i n = Ok (take (Z.to_nat n) (drop (Z.to_nat i) l)).
Proof. intros. unfold fetch. by decide_cmp. Qed.

Lemma fetch_inv p i n w : fetch p i n = Ok w ->
  exists l, p = Some l /\ 0 <= i /\ 0 <= n /\ i + n <= length l /\
  w = take (Z.to_nat n) (drop (Z.to_nat i) l) /\ n = length w.
Proof.
  destruct p as [l|]; unfold fetch; [|done]. split_if; try done. intros [= <-]. exists l.
  rewrite length_take, length_drop. repeat split; try done; lia.
Qed.

Lemma store_Ok l i w : 0 <= i -> i + length w <= length l ->
  store (Some l) i w = Ok (Some (take (Z.to_nat i) l ++ w ++ drop (Z.to_nat i + length w) l)).
Proof. intros. unfold store, put. by decide_cmp. Qed.

Lemma put_Ok l i w : 0 <= i -> i + length w <= length l ->
  put l i w = Ok (take (Z.to_nat i) l ++ w ++ drop (Z.to_nat i + length w) l).
Proof. intros. unfold put. by decide_cmp. Qed.

Lemma store_nil l i : 0 <= i <= length l -> store (Some l) i [] = Ok (Some l).
Proof.
  intros. rewrite store_Ok by (cbn; lia). cbn. by rewrite Nat.add_0_r, take_drop.
Qed.

Lemma store_inv l i w a : store (Some l) i w = Ok a ->
  exists l', a = Some l' /\ length l' = length l /\ 0 <= i /\ i + length w <= length l.
Proof.
  unfold store, put. split_if; try done. intros [= <-]. eexists. split; [done|].
  rewrite !length_app, length_take, length_drop. lia.
Qed.

(** Two stores one behind the other are one store. *)
Lemma store_app l i w w' l' : 0 <= i -> i + length w + length w' <= length l ->
  store (Some l) i w = Ok (Some l') -> store (Some l') (i + length w) w' = store (Some l) i (w ++ w').
Proof.
  intros ? Hn E. pose proof (store_inv _ _ _ _ E) as (? & [= <-] & El & _).
  rewrite store_Ok in E by lia. injection E as <-.
  rewrite !store_Ok by (rewrite ?length_app in *; lia). do 2 f_equal.
  set (p := take (Z.to_nat i) l).
  assert (Ep : length p = Z.to_nat i) by (unfold p; rewrite length_take; lia).
  replace (Z.to_nat (i + length w)) with (length (p ++ w)) by (rewrite length_app; lia).
  rewrite (app_assoc p w), take_app_length, drop_app_add, drop_drop, <- !app_assoc.
  do 3 f_equal. f_equal. rewrite !length_app. lia.
Qed.

Lemma length_vector_resize l n : 0 <= n -> length (vector_resize l n) = Z.to_nat n.
Proof. intros. unfold vector_resize. rewrite length_app, length_take, length_replicate. lia. Qed.


Lemma vector_resize_within l n : 0 <= n <= length l -> vector_resize l n = take (Z.to_nat n) l.
Proof.
  intros. unfold vector_resize. replace (Z.to_nat n - length l)%nat with 0%nat by lia. apply app_nil_r.
Qed.

Lemma take_vector_resize l m n : 0 <= m <= n -> take (Z.to_nat m) (vector_resize l n) = vector_resize l m.
Proof.
  intros. unfold vector_resize. rewrite take_app, take_take, length_take, take_replicate.
  replace (Z.to_nat m `min` Z.to_nat n)%nat with (Z.to_nat m) by lia. do 2 f_equal. lia.
Qed.

Lemma written_nonempty f w : w <> [] ->
  written f w = File (vector_resize (bytes f) (position f) ++ w ++
                      drop (Z.to_nat (position f) + length w) (bytes f)) (position f + length w).
Proof. by destruct w. Qed.

Lemma written_position f w : position (written f w) = position f + length w.
Proof. unfold written. destruct w; cbn; [lia | done]. Qed.

Lemma written_length f w : 0 <= position f -> w <> [] ->
  length (bytes (written f w)) = Nat.max (length (bytes f)) (Z.to_nat (position f) + length w).
Proof.
  intros ? Hw. rewrite written_nonempty by done. cbn.
  rewrite !length_app, length_vector_resize, length_drop by lia. lia.
Qed.

Lemma written_app f w w' : 0 <= position f -> written (written f w) w' = written f (w ++ w').
Proof.
  intros Hp. destruct (decide (w = [])) as [-> |Hw]; [done|].
  destruct (decide (w' = [])) as [-> |Hw']; [by rewrite app_nil_r|].
  rewrite (written_nonempty _ w'), written_position by done.
  rewrite (written_nonempty f (w ++ w')) by (destruct w; done).
  assert (Hn : position f + length w <= length (bytes (written f w)))
    by (rewrite written_length by done; lia).
  rewrite vector_resize_within by lia. rewrite written_nonempty by done. cbn.
  set (p := vector_resize (bytes f) (position f)).
  assert (Ep : length p = Z.to_nat (position f)) by (apply length_vector_resize; lia).
  replace (Z.to_nat (position f + length w)) with (length (p ++ w)) by (rewrite length_app; lia).
  rewrite (app_assoc p w), take_app_length, drop_app_add, drop_drop, <- !app_assoc, !length_app.
  f_equal; [|lia]. do 3 f_equal. f_equal. lia.
Qed.

Lemma rest_nil f : 0 <= position f -> rest f = [] <-> length (bytes f) <= position f.
Proof.
  intros. unfold rest. split; intros E.
  - apply (f_equal length) in E. rewrite length_drop in E. cbn in E. lia.
  - apply drop_ge. lia.
Qed.

Lemma length_rest f : 0 <= position f -> Z.of_nat (length (rest f)) = Z.max 0 (length (bytes f) - position f).
Proof. intros. unfold rest. rewrite length_drop. lia. Qed.

Lemma rest_moved f n : 0 <= position f -> 0 <= n ->
  rest (moved_to f (position f + n)) = drop (Z.to_nat n) (rest f).
Proof. intros. unfold rest. cbn. rewrite drop_drop. f_equal. lia. Qed.

Lemma moved_to_id f : moved_to f (position f) = f.
Proof. by destruct f. Qed.

(** ** The default [ReadByte] *)

Lemma Stream_ReadByte_runs {S} (R : Z -> Z -> cmd (array * S) Z) s f (post : S -> file -> Prop) :
  0 <= position f ->
  runs (R 0 1) (Some [0], s) (fun n '(a, s') =>
    delivered f [0] 0 1 n a /\ post s' (moved_to f (position f + n))) ->
  runs (Stream_ReadByte R) s (fun b s' =>
    match rest f with
    | [] => b = -1 /\ post s' f
    | v :: _ => b = v /\ post s' (moved_to f (position f + 1))
    end).
Proof.
  intros Hp (n & [a s'] & E & (Hn & Hl & Es & H0) & HP).
  unfold runs, Stream_ReadByte. rewrite E. destruct (n =? 0) eqn:E0; bool_to_prop.
  - rewrite E0, Z.add_0_r in HP. destruct H0 as [? | ->]; [done | done |].
    rewrite moved_to_id in HP. eauto.
  - assert (n = 1) as -> by lia. destruct (rest f) as [|v t]; [cbn in Hl; lia|].
    change (take (Z.to_nat 1) (v :: t)) with [v] in Es.
    rewrite store_Ok in Es by (cbn; lia). injection Es as <-. cbn. eauto.
Qed.

(** Two reads one behind the other are one read. *)
Lemma delivered_array f l offset count n a : 0 <= offset -> delivered f l offset count n a ->
  exists l', a = Some l' /\ length l' = length l.
Proof. intros ? (_ & _ & E & _). apply store_inv in E as (l' & ? & ? & _). eauto. Qed.

Lemma delivered_app f l offset count n l' m a :
  0 <= position f -> range_of l offset count ->
  0 <= n < count -> n <= length (rest f) ->
  store (Some l) offset (take (Z.to_nat n) (rest f)) = Ok (Some l') ->
  delivered (moved_to f (position f + n)) l' (offset + n) (count - n) m a ->
  delivered f l offset count (n + m) a.
Proof.
  intros Hp (? & ? & ?) Hn Hl E (Hm & Hl' & E' & Hz').
  rewrite rest_moved in * by lia. rewrite length_drop in Hl'.
  repeat split; try lia.
  - rewrite <- E'. set (w := take (Z.to_nat n) (rest f)) in *.
    assert (Ew : length w = Z.to_nat n) by (unfold w; rewrite length_take; lia).
    replace (offset + n) with (offset + length w) by lia.
    rewrite (store_app l offset w _ l'); [ | lia | rewrite length_take, length_drop; lia | done].
    f_equal. unfold w. replace (Z.to_nat (n + m)) with (Z.to_nat n + Z.to_nat m)%nat by lia.
    by rewrite take_take_drop.
  - intros Hz. destruct Hz' as [? | E0]; [lia | lia |]. right.
    replace (Z.to_nat n) with 0%nat in E0 by lia. done.
Qed.
