(* ===== verification/MemoryStream.v ===== *)
(** * MemoryStream

    [io/include/System/IO/MemoryStream.hpp] and [MemoryStream.cpp]: a stream over a
    vector of bytes it owns.  The model keeps the four fields; the caller's arrays do
    not overlap the vector. *)

From S2P Require Export Stream.

#[local] Coercion Z.of_nat : nat >-> Z.

Module MemoryStream.

Record memory := Memory { data_ : list Z; position_ : Z; writable_ : bool; isOpen_ : bool }.

Definition set_data (d : list Z) (s : memory) : memory :=
  Memory d (position_ s) (writable_ s) (isOpen_ s).
Definition set_position (p : Z) (s : memory) : memory :=
  Memory (data_ s) p (writable_ s) (isOpen_ s).

Definition non_negative (param : string) : exn :=
  ArgumentOutOfRangeException param "Non-negative number required.".
Definition not_writable : exn := NotSupportedException "Stream does not support writing.".

Definition validatedBufferCopy (buffer : array) (size : Z) : res (list Z) :=
  _ <- throw_if (is_null buffer && negb (size =? 0)) (null_argument "buffer") ;;
  _ <- throw_if (size <? 0) (non_negative "size") ;;
  if size =? 0 then Ok [] else fetch buffer 0 size.

(** The two constructors. *)
Definition make : memory := Memory [] 0 true true.
Definition make_over (buffer : array) (size : Z) (writable : bool) : res memory :=
  d <- validatedBufferCopy buffer size ;; Ok (Memory d 0 writable true).

Definition ensureNotClosed : cmd memory unit := fun s =>
  lift (throw_if (negb (isOpen_ s)) (ObjectDisposedException "Cannot access a closed Stream.")) s.

(** [static_cast<intcs>(data_.size())] *)
Definition size_of (s : memory) : Z := i32 (length (data_ s)).

Definition Read (offset count : Z) : cmd (array * memory) Z :=
  on_object ensureNotClosed ;;;
  buffer <== gets fst ;;
  lift (throw_if (is_null buffer) (null_argument "buffer")) ;;;
  lift (throw_if (offset <? 0) (non_negative "offset")) ;;;
  lift (throw_if (count <? 0) (non_negative "count")) ;;;
  s <== gets snd ;;
  remaining <== lift (ssub 32 (size_of s) (position_ s)) ;;
  let toRead := Z.min count remaining in
  if toRead <=? 0 then ret 0
  else
    w <== lift (fetch (Some (data_ s)) (position_ s) toRead) ;;
    buffer <== lift (store buffer offset w) ;;
    modify (fun x => (buffer, snd x)) ;;;
    p <== lift (sadd 32 (position_ s) toRead) ;;
    on_object (modify (set_position p)) ;;;
    ret toRead.

Definition Write (buffer : array) (offset count : Z) : cmd memory unit :=
  ensureNotClosed ;;;
  s <== gets id ;;
  lift (throw_if (negb (writable_ s)) not_writable) ;;;
  lift (throw_if (is_null buffer) (null_argument "buffer")) ;;;
  lift (throw_if (offset <? 0) (non_negative "offset")) ;;;
  lift (throw_if (count <? 0) (non_negative "count")) ;;;
  if count =? 0 then ret tt
  else
    newLength64 <== lift (sadd 64 (position_ s) count) ;;
    lift (throw_if (newLength64 >? INTCS_MAX) (IOException "Stream was too long.")) ;;;
    let newLength := i32 newLength64 in
    when (newLength >? size_of s) (modify (fun s => set_data (vector_resize (data_ s) newLength) s)) ;;;
    w <== lift (fetch buffer offset count) ;;
    s <== gets id ;;
    d <== lift (put (data_ s) (position_ s) w) ;;
    modify (set_data d) ;;;
    modify (set_position newLength).

Definition WriteByte (value : Z) : cmd memory unit :=
  ensureNotClosed ;;;
  s <== gets id ;;
  lift (throw_if (negb (writable_ s)) not_writable) ;;;
  (if position_ s >=? size_of s then modify (set_data (data_ s ++ [value]))
   else d <== lift (put (data_ s) (position_ s) [value]) ;; modify (set_data d)) ;;;
  p <== lift (sadd 32 (position_ s) 1) ;;
  modify (set_position p).

Definition Close : cmd memory unit :=
  modify (fun s => Memory (data_ s) (position_ s) (writable_ s) false).

Definition getLengthProperty : cmd memory Z := ensureNotClosed ;;; gets size_of.
Definition getPositionProperty : cmd memory Z := ensureNotClosed ;;; gets position_.

Definition setPositionProperty (value : Z) : cmd memory unit :=
  ensureNotClosed ;;;
  lift (throw_if (value <? 0) (non_negative "value")) ;;;
  modify (set_position value).

Definition SetLength (value : Z) : cmd memory unit :=
  ensureNotClosed ;;;
  lift (throw_if (value <? 0) (non_negative "value")) ;;;
  s <== gets id ;;
  lift (throw_if (negb (writable_ s)) not_writable) ;;;
  modify (set_data (vector_resize (data_ s) value)) ;;;
  when (position_ s >? value) (modify (set_position value)).

Definition getCanWriteProperty : memory -> bool := writable_.
Definition getCanReadProperty : memory -> bool := isOpen_.
Definition getCanSeekProperty : memory -> bool := isOpen_.

(** Valid on a closed stream too. *)
Definition ToArray (s : memory) : list Z := data_ s.

(** [Flush], [Seek] and [ReadByte] are those of the base class. *)
#[global] Instance MemoryStream_Stream : Stream memory := {
  Stream.Read := Read;
  Stream.Close := Close;
  Stream.getLengthProperty := getLengthProperty;
  Stream.Write := Write;
  Stream.WriteByte := WriteByte;
  Stream.getCanWriteProperty := getCanWriteProperty;
  Stream.getCanReadProperty := getCanReadProperty;
  Stream.getPositionProperty := getPositionProperty;
  Stream.setPositionProperty := setPositionProperty;
  Stream.getCanSeekProperty := getCanSeekProperty;
  Stream.Seek := Stream_Seek getPositionProperty getLengthProperty setPositionProperty;
  Stream.SetLength := SetLength;
  Stream.ReadByte := Stream_ReadByte Read;
  Stream.Flush := Stream_Flush
}.

End MemoryStream.

(** ** A memory stream is a seekable stream *)

Section Laws.
Import MemoryStream.

Definition MemoryStream_ready (s : memory) : Prop :=
  isOpen_ s = true /\ 0 <= position_ s <= INTCS_MAX /\ length (data_ s) <= INTCS_MAX.
Definition MemoryStream_view (s : memory) : file := File (data_ s) (position_ s).

Implicit Types (s : memory).

Lemma size_of_ready s : MemoryStream_ready s -> size_of s = length (data_ s).
Proof. intros (? & ? & ?). unfold size_of, i32. apply wraps_id; [lia|]. unfold in_s. lia. Qed.

Lemma step_open {B} s (k : unit -> cmd memory B) Q :
  MemoryStream_ready s -> runs (k tt) s Q -> runs (andthen ensureNotClosed k) s Q.
Proof. intros (E & _) HQ. unfold runs, andthen, ensureNotClosed. by rewrite E. Qed.

Lemma ready_set_position s p : MemoryStream_ready s -> 0 <= p <= INTCS_MAX ->
  MemoryStream_ready (set_position p s).
Proof. unfold MemoryStream_ready. cbn. tauto. Qed.

Lemma MemoryStream_Read s l offset count : MemoryStream_ready s -> range_of l offset count ->
  let n := Z.min count (length (rest (MemoryStream_view s))) in
  exists a, store (Some l) offset (take (Z.to_nat n) (rest (MemoryStream_view s))) = Ok a /\
  Read offset count (Some l, s) = (Ok n, (a, set_position (position_ s + n) s)).
Proof.
  intros H R n. pose proof H as (Ho & Hp & Hd). destruct R as (? & ? & ? & ?).
  pose proof (size_of_ready s H) as Es.
  pose proof (length_rest (MemoryStream_view s) ltac:(cbn; lia)) as El. cbn in El.
  unfold Read, on_object, within, ensureNotClosed, andthen, lift, gets, modify. cbn [fst snd].
  rewrite Ho. cbn. decide_cmp. rewrite Es. unfold ssub. rewrite schk_Ok by (unfold in_s; lia).
  destruct (Z.min count (length (data_ s) - position_ s) <=? 0) eqn:E; bool_to_prop.
  - assert (n = 0) as -> by lia. exists (Some l). split; [apply store_nil; lia|].
    unfold ret. destruct s; cbn. by rewrite Z.add_0_r.
  - assert (n = Z.min count (length (data_ s) - position_ s)) as En by lia. rewrite <- En.
    rewrite fetch_Ok by lia. unfold rest. cbn [MemoryStream_view position bytes].
    set (w := take _ _). assert (length w = Z.to_nat n) as Ew
      by (unfold w; rewrite length_take, length_drop; lia).
    rewrite store_Ok by lia. eexists. split; [done|]. unfold sadd.
    rewrite schk_Ok by (unfold in_s; lia). done.
Qed.

Lemma MemoryStream_Write s l offset count w : MemoryStream_ready s -> writable_ s = true ->
  fetch (Some l) offset count = Ok w -> position_ s + count <= INTCS_MAX ->
  exists s', Write (Some l) offset count s = (Ok tt, s') /\ MemoryStream_ready s' /\
  MemoryStream_view s' = written (MemoryStream_view s) w /\ writable_ s' = true.
Proof.
  intros H Hw Hf Hc. pose proof H as (Ho & Hp & Hd). pose proof (size_of_ready s H) as Es.
  pose proof (fetch_inv _ _ _ _ Hf) as (l' & [= <-] & ? & ? & ? & _ & Hn).
  unfold Write, andthen, ensureNotClosed, lift, gets, modify, when, id. rewrite Ho, Hw.
  cbn. decide_cmp. destruct (count =? 0) eqn:E; bool_to_prop.
  { exists s. destruct w; [done | cbn in Hn; lia]. }
  unfold sadd. rewrite schk_Ok by (unfold in_s; lia). cbn. decide_cmp. rewrite Es.
  unfold i32. rewrite wraps_id by (unfold in_s; lia).
  assert (w <> []) as Hne by (intros ->; cbn in Hn; lia).
  destruct (length (data_ s) <? position_ s + count) eqn:E2; bool_to_prop; cbn;
    rewrite Hf; cbn; rewrite put_Ok by (rewrite ?length_vector_resize by lia; lia);
    eexists; (split; [done|]);
    unfold MemoryStream_ready, MemoryStream_view; cbn;
    rewrite !length_app, length_take, length_drop, ?length_vector_resize by lia;
    (repeat split; try done; try lia); rewrite written_nonempty by done; cbn; f_equal; try lia.
  - rewrite take_vector_resize, !drop_ge by (rewrite ?length_vector_resize by lia; lia). done.
  - rewrite vector_resize_within by lia. done.
Qed.

Lemma MemoryStream_WriteByte s v : MemoryStream_ready s -> writable_ s = true ->
  position_ s <= length (data_ s) -> position_ s < INTCS_MAX ->
  exists s', WriteByte v s = (Ok tt, s') /\ MemoryStream_ready s' /\
  MemoryStream_view s' = written (MemoryStream_view s) [v] /\ writable_ s' = true.
Proof.
  intros H Hw Hle Hlt. pose proof H as (Ho & Hp & Hd). pose proof (size_of_ready s H) as Es.
  unfold WriteByte, andthen, ensureNotClosed, lift, gets, modify, id. rewrite Ho, Hw, Es. cbn.
  unfold sadd. rewrite schk_Ok by (unfold in_s; lia).
  rewrite written_nonempty by done. cbn [MemoryStream_view bytes position].
  rewrite vector_resize_within by lia. rewrite Z.geb_leb.
  destruct (length (data_ s) <=? position_ s) eqn:E; bool_to_prop; cbn;
    [|rewrite put_Ok by (cbn; lia)]; eexists; (split; [done|]);
    unfold MemoryStream_ready, MemoryStream_view; cbn;
    rewrite !length_app, ?length_take; cbn; rewrite ?length_drop;
    (repeat split; try done; try lia).
  rewrite firstn_all2, drop_ge by (cbn; lia). done.
Qed.

(** Where nothing was promised: past the end the byte goes to the end, not to the
    position. *)
Lemma MemoryStream_WriteByte_gap s v : MemoryStream_ready s -> writable_ s = true ->
  length (data_ s) < position_ s < INTCS_MAX ->
  WriteByte v s = (Ok tt, Memory (data_ s ++ [v]) (position_ s + 1) true true).
Proof.
  intros H Hw Hgap. pose proof H as (Ho & Hp & Hd). pose proof (size_of_ready s H) as Es.
  unfold WriteByte, andthen, ensureNotClosed, lift, gets, modify, id. rewrite Ho, Hw, Es. cbn.
  unfold sadd. rewrite schk_Ok by (unfold in_s; lia). decide_cmp. cbn.
  unfold set_position, set_data. cbn. by rewrite Hw, Ho.
Qed.

Lemma MemoryStream_setPosition s p : MemoryStream_ready s -> 0 <= p ->
  setPositionProperty p s = (Ok tt, set_position p s).
Proof.
  intros (Ho & _) ?. unfold setPositionProperty, andthen, ensureNotClosed, lift. rewrite Ho.
  cbn. by decide_cmp.
Qed.

Lemma MemoryStream_base s offset origin p : MemoryStream_ready s ->
  target (MemoryStream_view s) offset origin = Some p ->
  in_s 32 p ->
  (match origin with
   | Begin => ret offset
   | Current => p <== getPositionProperty ;; lift (sadd 32 p offset)
   | End_ => n <== getLengthProperty ;; lift (sadd 32 n offset)
   | OtherOrigin _ => lift (Throw (ArgumentException "Invalid seek origin." "origin"))
   end) s = (Ok p, s).
Proof.
  intros H Et Hp. pose proof H as (Ho & _). pose proof (size_of_ready s H) as Es.
  destruct origin; cbn in Et; simplify_eq; [done | ..];
    unfold getPositionProperty, getLengthProperty, andthen, ensureNotClosed, lift, gets;
    rewrite Ho; cbn; [|rewrite Es]; unfold sadd; by rewrite schk_Ok.
Qed.

Lemma MemoryStream_Seek s offset origin p : MemoryStream_ready s ->
  target (MemoryStream_view s) offset origin = Some p -> in_s 32 p ->
  Seek offset origin s =
    if p <? 0 then (Throw before_beginning, s) else (Ok p, set_position p s).
Proof.
  intros H Et Hp. cbn. unfold Stream_Seek, andthen at 1.
  rewrite (MemoryStream_base _ _ _ _ H Et Hp). unfold andthen, lift, throw_if.
  destruct (p <? 0) eqn:E; bool_to_prop; [done|]. by rewrite MemoryStream_setPosition.
Qed.

Lemma MemoryStream_SetLength s n : MemoryStream_ready s -> writable_ s = true ->
  0 <= n <= INTCS_MAX ->
  exists s', SetLength n s = (Ok tt, s') /\ MemoryStream_ready s' /\
  MemoryStream_view s' = resized (MemoryStream_view s) n /\ writable_ s' = true.
Proof.
  intros (Ho & Hp & Hd) Hw Hn.
  unfold SetLength, andthen, ensureNotClosed, lift, gets, modify, id, when. rewrite Ho, Hw. cbn.
  decide_cmp. cbn. destruct (n <? position_ s) eqn:E; bool_to_prop; cbn; eexists; (split; [done|]);
    unfold MemoryStream_ready, MemoryStream_view, resized; cbn; rewrite length_vector_resize by lia;
    (repeat split; try done; try lia); f_equal; lia.
Qed.

Definition MemoryStream_becomes s s' (f : file) : Prop :=
  MemoryStream_ready s' /\ MemoryStream_view s' = f /\ writable_ s' = writable_ s.

Lemma MemoryStream_reads s l offset count : MemoryStream_ready s -> range_of l offset count ->
  runs (Read offset count) (Some l, s) (fun n '(a, s') =>
    delivered (MemoryStream_view s) l offset count n a /\
    MemoryStream_becomes s s' (moved_to (MemoryStream_view s) (position_ s + n))).
Proof.
  intros H R. destruct (MemoryStream_Read _ _ _ _ H R) as (a & Es & E).
  set (n := Z.min _ _) in *. destruct R as (? & ? & ?). pose proof H as (_ & Hp & Hd).
  pose proof (length_rest (MemoryStream_view s) ltac:(cbn; lia)) as El. cbn in El.
  exists n, (a, set_position (position_ s + n) s). split; [done|]. split; [repeat split | ];
    try done; try lia.
  - intros Hz. destruct (rest (MemoryStream_view s)); [by right | cbn in *; left; lia].
  - split; [|done]. apply ready_set_position; [done | lia].
Qed.

#[export, refine] Instance MemoryStream_Seekable : SeekableStream memory := {|
  ready := MemoryStream_ready; view := MemoryStream_view
|}.
Proof.
  - by intros s (? & ? & ?).
  - by intros s (? & ?).
  - exact MemoryStream_reads.
  - intros s l offset count w H Hw Hl Hf Hc.
    destruct (MemoryStream_Write _ _ _ _ _ H Hw Hf Hc) as (s' & E & ? & ? & Hw').
    exists tt, s'. split; [done|]. split; [done|]. split; [done|].
    exact (eq_trans Hw' (eq_sym Hw)).
  - intros s v H Hw Hle Hlt. destruct (MemoryStream_WriteByte _ v H Hw Hle Hlt) as (s' & E & ? & ? & Hw').
    exists tt, s'. split; [done|]. split; [done|]. split; [done|].
    exact (eq_trans Hw' (eq_sym Hw)).
  - intros s H. exists (size_of s), s. split; [|by rewrite size_of_ready].
    cbn. unfold getLengthProperty, andthen, ensureNotClosed, lift. by destruct H as (-> & _).
  - intros s H. exists (position_ s), s. split; [|done].
    cbn. unfold getPositionProperty, andthen, ensureNotClosed, lift. by destruct H as (-> & _).
  - intros s p H Hp. exists tt, (set_position p s).
    split; [apply MemoryStream_setPosition; [done | lia]|].
    split; [by apply ready_set_position | done].
  - intros s offset origin p H Et Ho Hp. exists p, (set_position p s).
    rewrite (MemoryStream_Seek _ _ _ _ H Et) by (unfold in_s; lia). decide_cmp.
    split; [done|]. split; [done|]. split; [by apply ready_set_position | done].
  - intros s offset origin p H Et Ho Hp. exists s. pose proof H as (? & Hpos & ?).
    pose proof (length_rest (MemoryStream_view s) ltac:(cbn; lia)) as El. cbn in El.
    rewrite (MemoryStream_Seek _ _ _ _ H Et).
    + by decide_cmp.
    + unfold in_s. destruct origin; cbn in Et; simplify_eq; lia.
  - intros s n H Hw Hn. destruct (MemoryStream_SetLength _ n H Hw Hn) as (s' & E & ? & ? & Hw').
    exists tt, s'. split; [done|]. split; [done|]. split; [done|].
    exact (eq_trans Hw' (eq_sym Hw)).
  - intros s H. apply (Stream_ReadByte_runs Read s (MemoryStream_view s) (MemoryStream_becomes s)).
    + apply H.
    + by apply MemoryStream_reads.
  - intros s H. by exists tt, s.
Defined.

#[export] Instance MemoryStream_Exact : ExactReads memory.
Proof.
  intros s l offset count H R. destruct (MemoryStream_Read _ _ _ _ H R) as (a & _ & E).
  by eexists _, _.
Qed.

End Laws.
