(* ===== verification/BufferedStream.v ===== *)
(** * BufferedStream

    [io/include/System/IO/BufferedStream.hpp] and [BufferedStream.cpp]: one buffer,
    shared by reads and writes, in front of another stream.  The model is a stream over
    any type of streams: the wrapped stream's fields are part of the object's, since
    only the object uses them between its construction and its release. *)

From S2P Require Export Stream.

#[local] Coercion Z.of_nat : nat >-> Z.

Module BufferedStream.

Definition kDefaultBufferSize : Z := 4096.

Record buffered (S : Type) := Buffered {
  inner_ : S; ownsStream_ : bool; bufferSize_ : Z; closed_ : bool;
  buffer_ : list Z; readPos_ : Z; readLen_ : Z; writePos_ : Z
}.
Arguments Buffered {S}.
Arguments inner_ {S}.
Arguments ownsStream_ {S}.
Arguments bufferSize_ {S}.
Arguments closed_ {S}.
Arguments buffer_ {S}.
Arguments readPos_ {S}.
Arguments readLen_ {S}.
Arguments writePos_ {S}.

Section BufferedStream.
Context {S : Type} `{Stream S}.

Definition set_inner (i : S) (s : buffered S) : buffered S :=
  Buffered i (ownsStream_ s) (bufferSize_ s) (closed_ s) (buffer_ s) (readPos_ s) (readLen_ s) (writePos_ s).
Definition set_closed (s : buffered S) : buffered S :=
  Buffered (inner_ s) (ownsStream_ s) (bufferSize_ s) true (buffer_ s) (readPos_ s) (readLen_ s) (writePos_ s).
Definition set_buffer (b : list Z) (s : buffered S) : buffered S :=
  Buffered (inner_ s) (ownsStream_ s) (bufferSize_ s) (closed_ s) b (readPos_ s) (readLen_ s) (writePos_ s).
Definition set_read (p n : Z) (s : buffered S) : buffered S :=
  Buffered (inner_ s) (ownsStream_ s) (bufferSize_ s) (closed_ s) (buffer_ s) p n (writePos_ s).
Definition set_write (p : Z) (s : buffered S) : buffered S :=
  Buffered (inner_ s) (ownsStream_ s) (bufferSize_ s) (closed_ s) (buffer_ s) (readPos_ s) (readLen_ s) p.

(** A call through [inner_]. *)
Definition on_inner {A} (m : cmd S A) : cmd (buffered S) A := within inner_ set_inner m.

(** The constructor; [stream = None] is a null pointer. *)
Definition make (stream : option S) (bufferSize : Z) (ownsStream : bool) : res (buffered S) :=
  match stream with
  | None => Throw (null_argument "stream")
  | Some stream =>
      _ <- throw_if (bufferSize <=? 0) (ArgumentOutOfRangeException "bufferSize" "Positive number required.") ;;
      Ok (Buffered stream ownsStream bufferSize false [] 0 0 0)
  end.
Definition make_default (stream : option S) (ownsStream : bool) : res (buffered S) :=
  make stream kDefaultBufferSize ownsStream.

Definition ensureNotClosed : cmd (buffered S) unit := fun s =>
  lift (throw_if (closed_ s) (ObjectDisposedException "Cannot access a closed stream.")) s.

Definition ensureBufferAllocated : cmd (buffered S) unit :=
  s <== gets id ;;
  when (bool_decide (buffer_ s = [])) (modify (set_buffer (vector_resize [] (bufferSize_ s)))).

Definition flushWrite : cmd (buffered S) unit :=
  s <== gets id ;;
  when (writePos_ s >? 0)
    (on_inner (Stream.Write (Some (buffer_ s)) 0 (writePos_ s)) ;;;
     modify (set_write 0) ;;;
     on_inner Stream.Flush).

Definition flushRead : cmd (buffered S) unit :=
  s <== gets id ;;
  when (negb (readPos_ s =? readLen_ s))
    (d <== lift (ssub 32 (readPos_ s) (readLen_ s)) ;;
     on_inner (Stream.Seek d Current) ;;;
     ret tt) ;;;
  modify (set_read 0 0).

Definition unconsumed : exn := NotSupportedException (String.append
  "Cannot write to a BufferedStream while the read buffer still has unconsumed data "
  "and the underlying stream does not support seeking.").

Definition clearReadBufferBeforeWrite : cmd (buffered S) unit :=
  s <== gets id ;;
  if readPos_ s =? readLen_ s then modify (set_read 0 0)
  else
    lift (throw_if (negb (Stream.getCanSeekProperty (inner_ s))) unconsumed) ;;;
    flushRead.

Definition readFromBuffer (offset count : Z) : cmd (array * buffered S) Z :=
  s <== gets snd ;;
  available <== lift (ssub 32 (readLen_ s) (readPos_ s)) ;;
  if available <=? 0 then ret 0
  else
    let n := Z.min available count in
    w <== lift (fetch (Some (buffer_ s)) (readPos_ s) n) ;;
    dst <== gets fst ;;
    dst <== lift (store dst offset w) ;;
    modify (fun x => (dst, snd x)) ;;;
    p <== lift (sadd 32 (readPos_ s) n) ;;
    on_object (modify (set_read p (readLen_ s))) ;;;
    ret n.

(** [inner_->Read] into the caller's array and into the buffer. *)
Definition read_inner (offset count : Z) : cmd (array * buffered S) Z :=
  within (fun x => (fst x, inner_ (snd x))) (fun y x => (fst y, set_inner (snd y) (snd x)))
    (Stream.Read offset count).
Definition fill_buffer : cmd (buffered S) Z :=
  s <== gets id ;;
  within (fun s => (Some (buffer_ s), inner_ s))
    (fun y s => set_inner (snd y) (set_buffer (default [] (fst y)) s))
    (Stream.Read 0 (bufferSize_ s)).

Definition Read (offset count : Z) : cmd (array * buffered S) Z :=
  on_object ensureNotClosed ;;;
  already <== readFromBuffer offset count ;;
  if already =? count then ret already
  else
    offset <== (if already >? 0 then lift (sadd 32 offset already) else ret offset) ;;
    count <== (if already >? 0 then lift (ssub 32 count already) else ret count) ;;
    on_object (modify (set_read 0 0)) ;;;
    s <== gets snd ;;
    when (writePos_ s >? 0) (on_object flushWrite) ;;;
    if count >=? bufferSize_ s then
      n <== read_inner offset count ;; lift (sadd 32 n already)
    else
      on_object ensureBufferAllocated ;;;
      n <== on_object fill_buffer ;;
      on_object (modify (set_read 0 n)) ;;;
      fromBuffer <== readFromBuffer offset count ;;
      lift (sadd 32 fromBuffer already).

(** The loop of [Write]; a round ends the loop, copies a byte at least, or empties a
    full buffer. *)
Fixpoint write_loop (fuel : nat) (buffer : array) (offset count : Z) : cmd (buffered S) unit :=
  match fuel with
  | O => lift UB
  | Datatypes.S fuel =>
      if count >? 0 then
        s <== gets id ;;
        if (writePos_ s =? 0) && (count >=? bufferSize_ s) then
          on_inner (Stream.Write buffer offset count)
        else
          space <== lift (ssub 32 (bufferSize_ s) (writePos_ s)) ;;
          let n := Z.min space count in
          when (n >? 0)
            (ensureBufferAllocated ;;;
             w <== lift (fetch buffer offset n) ;;
             b <== gets buffer_ ;;
             b <== lift (put b (writePos_ s) w) ;;
             modify (set_buffer b) ;;;
             p <== lift (sadd 32 (writePos_ s) n) ;;
             modify (set_write p)) ;;;
          offset <== (if n >? 0 then lift (sadd 32 offset n) else ret offset) ;;
          count <== (if n >? 0 then lift (ssub 32 count n) else ret count) ;;
          s <== gets id ;;
          when (writePos_ s =? bufferSize_ s)
            (on_inner (Stream.Write (Some (buffer_ s)) 0 (writePos_ s)) ;;;
             modify (set_write 0)) ;;;
          write_loop fuel buffer offset count
      else ret tt
  end.

Definition Write (buffer : array) (offset count : Z) : cmd (buffered S) unit :=
  ensureNotClosed ;;;
  s <== gets id ;;
  when (writePos_ s =? 0) clearReadBufferBeforeWrite ;;;
  write_loop (Z.to_nat count + 2) buffer offset count.

Definition WriteByte (value : Z) : cmd (buffered S) unit :=
  ensureNotClosed ;;;
  s <== gets id ;;
  when (writePos_ s =? 0) clearReadBufferBeforeWrite ;;;
  ensureBufferAllocated ;;;
  s <== gets id ;;
  when (writePos_ s >=? bufferSize_ s)
    (on_inner (Stream.Write (Some (buffer_ s)) 0 (writePos_ s)) ;;;
     modify (set_write 0)) ;;;
  s <== gets id ;;
  b <== lift (put (buffer_ s) (writePos_ s) [value]) ;;
  p <== lift (sadd 32 (writePos_ s) 1) ;;
  modify (set_write p) ;;;
  modify (set_buffer b).

Definition Flush : cmd (buffered S) unit :=
  ensureNotClosed ;;;
  s <== gets id ;;
  if writePos_ s >? 0 then flushWrite
  else if readPos_ s <? readLen_ s then
    when (Stream.getCanSeekProperty (inner_ s)) flushRead ;;;
    s <== gets id ;;
    when (Stream.getCanWriteProperty (inner_ s)) (on_inner Stream.Flush)
  else
    when (Stream.getCanWriteProperty (inner_ s)) (on_inner Stream.Flush) ;;;
    modify (set_read 0 0) ;;;
    modify (set_write 0).

(** Marking the stream closed and closing an owned inner stream. *)
Definition finish : cmd (buffered S) unit :=
  modify set_closed ;;;
  s <== gets id ;;
  when (ownsStream_ s) (on_inner Stream.Close).

Definition Close : cmd (buffered S) unit := fun s =>
  if closed_ s then (Ok tt, s)
  else match Flush s with
       | (Ok _, s) => finish s
       | (Throw e, s) => (finish ;;; lift (Throw e)) s
       | (UB, s) => (UB, s)
       end.

(** The destructor. *)
Definition destroy : cmd (buffered S) unit := fun s =>
  match Close s with (Throw _, s) => (Ok tt, s) | r => r end.

Definition seek_unsupported : exn := NotSupportedException "Stream does not support seeking.".

Definition getPositionProperty : cmd (buffered S) Z :=
  ensureNotClosed ;;;
  s <== gets id ;;
  lift (throw_if (negb (Stream.getCanSeekProperty (inner_ s))) seek_unsupported) ;;;
  p <== on_inner Stream.getPositionProperty ;;
  s <== gets id ;;
  d <== lift (d <- ssub 32 (readPos_ s) (readLen_ s) ;; sadd 32 d (writePos_ s)) ;;
  lift (sadd 32 p d).

Definition Seek (offset : Z) (origin : SeekOrigin) : cmd (buffered S) Z :=
  ensureNotClosed ;;;
  s <== gets id ;;
  lift (throw_if (negb (Stream.getCanSeekProperty (inner_ s))) seek_unsupported) ;;;
  if writePos_ s >? 0 then
    flushWrite ;;;
    on_inner (Stream.Seek offset origin)
  else
    left_ <== lift (ssub 32 (readLen_ s) (readPos_ s)) ;;
    offset <== (if (left_ >? 0) && bool_decide (origin = Current)
                then lift (ssub 32 offset left_) else ret offset) ;;
    oldPos <== getPositionProperty ;;
    newPos <== on_inner (Stream.Seek offset origin) ;;
    s <== gets id ;;
    readPosCandidate <== lift (start <- ssub 32 oldPos (readPos_ s) ;; ssub 32 newPos start) ;;
    (if (readPosCandidate >=? 0) && (readPosCandidate <? readLen_ s) then
       modify (set_read readPosCandidate (readLen_ s)) ;;;
       d <== lift (ssub 32 (readLen_ s) readPosCandidate) ;;
       on_inner (Stream.Seek d Current) ;;;
       ret tt
     else modify (set_read 0 0)) ;;;
    ret newPos.

Definition value_negative : exn := ArgumentOutOfRangeException "value" "Non-negative number required.".

Definition SetLength (value : Z) : cmd (buffered S) unit :=
  lift (throw_if (value <? 0) value_negative) ;;;
  ensureNotClosed ;;;
  s <== gets id ;;
  lift (throw_if (negb (Stream.getCanSeekProperty (inner_ s))) seek_unsupported) ;;;
  lift (throw_if (negb (Stream.getCanWriteProperty (inner_ s)))
          (NotSupportedException "Stream does not support writing.")) ;;;
  Flush ;;;
  on_inner (Stream.SetLength value).

Definition getLengthProperty : cmd (buffered S) Z :=
  ensureNotClosed ;;;
  s <== gets id ;;
  when (writePos_ s >? 0) flushWrite ;;;
  on_inner Stream.getLengthProperty.

Definition setPositionProperty (value : Z) : cmd (buffered S) unit :=
  lift (throw_if (value <? 0) value_negative) ;;;
  Seek value Begin ;;;
  ret tt.

Definition getCanReadProperty (s : buffered S) : bool :=
  negb (closed_ s) && Stream.getCanReadProperty (inner_ s).
Definition getCanWriteProperty (s : buffered S) : bool :=
  negb (closed_ s) && Stream.getCanWriteProperty (inner_ s).
Definition getCanSeekProperty (s : buffered S) : bool :=
  negb (closed_ s) && Stream.getCanSeekProperty (inner_ s).

(** [ReadByte] is that of the base class. *)
#[global] Instance BufferedStream_Stream : Stream (buffered S) := {
  Stream.Read := Read;
  Stream.Close := Close;
  Stream.getLengthProperty := getLengthProperty;
  Stream.Write := Write;
  Stream.WriteByte := WriteByte;
  Stream.getCanWriteProperty := getCanWriteProperty;
  Stream.getCanReadProperty := getCanReadProperty;
  Stream.getPositionProperty := getPositionProperty;
  Stream.setPositionProperty := setPositionProperty;
  Stream.getCanSeekProperty := getCanSeekProperty;
  Stream.Seek := Seek;
  Stream.SetLength := SetLength;
  Stream.ReadByte := Stream_ReadByte Read;
  Stream.Flush := Flush
}.

End BufferedStream.

End BufferedStream.
