(* ===== verification/BufferedLaws.v ===== *)
(** * BufferedStream is a seekable stream

    Over a seekable stream, a buffered stream is a seekable stream: the file it stands
    for is the inner stream's with the pending bytes written at its position, or with
    the position moved back by the bytes that are buffered and not yet consumed.  Reads
    come first, then writing, flushing and seeking, then the instances. *)

From S2P Require Export BufferedStream.

#[local] Coercion Z.of_nat : nat >-> Z.

Section Laws.
Context {S : Type} `{SeekableStream S}.
Import BufferedStream.

Implicit Types (s : buffered S).

(** ** The states of an open buffered stream *)

Definition writes_inner s : bool := Stream.getCanWriteProperty (inner_ s).
Definition inner_view s : file := view (inner_ s).

(** The buffer holds bytes read or bytes to write, never both; the bytes read are the
    ones of the inner stream just before its position. *)
Record BufferedStream_ready (s : buffered S) : Prop := {
  open : closed_ s = false;
  inner_ready : ready (inner_ s);
  buffer_size : 0 < bufferSize_ s <= INTCS_MAX;
  allocated : buffer_ s = [] \/ Z.of_nat (length (buffer_ s)) = bufferSize_ s;
  read_bounds : 0 <= readPos_ s <= readLen_ s;
  read_within : readLen_ s <= length (buffer_ s);
  write_within : 0 <= writePos_ s <= length (buffer_ s);
  one_use : writePos_ s = 0 \/
    readLen_ s = 0 /\ writes_inner s = true /\ position (inner_view s) + writePos_ s <= INTCS_MAX;
  read_behind : readLen_ s <= position (inner_view s);
  read_content : take (Z.to_nat (readLen_ s)) (buffer_ s) =
    take (Z.to_nat (readLen_ s))
      (drop (Z.to_nat (position (inner_view s) - readLen_ s)) (bytes (inner_view s)))
}.

Definition pending s : list Z := take (Z.to_nat (writePos_ s)) (buffer_ s).
Definition logical_position s : Z := position (inner_view s) - (readLen_ s - readPos_ s).
Definition BufferedStream_view s : file :=
  written (moved_to (inner_view s) (logical_position s)) (pending s).

(** [s'] is open, stands for [f] and differs from [s] in the buffer and the inner
    stream's fields. *)
Definition keeps s s' (f : file) : Prop :=
  BufferedStream_ready s' /\ BufferedStream_view s' = f /\
  bufferSize_ s' = bufferSize_ s /\ ownsStream_ s' = ownsStream_ s /\
  writes_inner s' = writes_inner s.

Lemma keeps_trans s s1 s2 f g : keeps s s1 f -> keeps s1 s2 g -> keeps s s2 g.
Proof. unfold keeps. intuition congruence. Qed.

Lemma keeps_refl s : BufferedStream_ready s -> keeps s s (BufferedStream_view s).
Proof. by unfold keeps. Qed.

(** Nothing is buffered. *)
Definition quiet s : Prop := readPos_ s = 0 /\ readLen_ s = 0 /\ writePos_ s = 0.

Lemma quiet_view s : quiet s -> BufferedStream_view s = inner_view s.
Proof.
  intros (E1 & E2 & E3). unfold BufferedStream_view, pending, logical_position.
  rewrite E1, E2, E3, Z.sub_0_r. apply moved_to_id.
Qed.

Lemma quiet_ready s : closed_ s = false -> ready (inner_ s) -> 0 < bufferSize_ s <= INTCS_MAX ->
  (buffer_ s = [] \/ Z.of_nat (length (buffer_ s)) = bufferSize_ s) -> quiet s ->
  BufferedStream_ready s.
Proof.
  intros ? Hr ? ? (E1 & E2 & E3). pose proof (ready_bounds _ Hr) as (? & _).
  split; try done; rewrite ?E1, ?E2, ?E3; unfold inner_view; try lia; auto.
Qed.

(** The inner stream moved on and nothing is buffered any more. *)
Lemma quiet_keeps s s' : BufferedStream_ready s -> quiet s' -> ready (inner_ s') ->
  closed_ s' = false -> bufferSize_ s' = bufferSize_ s -> buffer_ s' = buffer_ s ->
  ownsStream_ s' = ownsStream_ s -> writes_inner s' = writes_inner s ->
  keeps s s' (inner_view s').
Proof.
  intros [] Hq ? ? Es Eb ? ?. split; [apply quiet_ready; rewrite ?Es, ?Eb; done|].
  by rewrite quiet_view.
Qed.

Lemma position_inner s : BufferedStream_ready s ->
  0 <= position (inner_view s) <= INTCS_MAX /\ length (bytes (inner_view s)) <= INTCS_MAX.
Proof. intros []. by apply ready_bounds. Qed.

Lemma length_pending s : BufferedStream_ready s -> Z.of_nat (length (pending s)) = writePos_ s.
Proof. intros []. unfold pending. rewrite length_take. lia. Qed.

Lemma view_position s : BufferedStream_ready s ->
  position (BufferedStream_view s) = logical_position s + writePos_ s.
Proof.
  intros Hs. unfold BufferedStream_view. rewrite written_position, length_pending by done. done.
Qed.

Lemma view_position_bounds s : BufferedStream_ready s ->
  0 <= position (BufferedStream_view s) <= INTCS_MAX.
Proof.
  intros Hs. pose proof (position_inner s Hs). rewrite view_position by done. destruct Hs.
  unfold logical_position. lia.
Qed.

Lemma pending_view s : BufferedStream_ready s -> 0 < writePos_ s ->
  BufferedStream_view s = written (inner_view s) (pending s) /\
  readPos_ s = 0 /\ readLen_ s = 0 /\ writes_inner s = true /\
  position (inner_view s) + writePos_ s <= INTCS_MAX.
Proof.
  intros [] ?. assert (readLen_ s = 0 /\ readPos_ s = 0) as [E1 E2] by lia.
  unfold BufferedStream_view, logical_position. rewrite E1, E2, Z.sub_0_r, moved_to_id.
  repeat split; destruct one_use0; lia || tauto.
Qed.

Lemma reading_view s : writePos_ s = 0 ->
  BufferedStream_view s = moved_to (inner_view s) (logical_position s).
Proof. intros E. unfold BufferedStream_view, pending. by rewrite E. Qed.

(** What is left to read is what is left in the buffer, then what is left of the inner
    stream. *)
Lemma reading_rest s : BufferedStream_ready s -> writePos_ s = 0 ->
  rest (BufferedStream_view s) =
  drop (Z.to_nat (readPos_ s)) (take (Z.to_nat (readLen_ s)) (buffer_ s)) ++ rest (inner_view s).
Proof.
  intros Hs E. pose proof (position_inner s Hs) as (Hp & _). destruct Hs.
  pose proof (f_equal length read_content0) as El. rewrite !length_take in El.
  rewrite reading_view, read_content0 by done. unfold rest, logical_position. cbn.
  set (b := bytes _) in *. set (p := position _) in *.
  set (x := drop (Z.to_nat (p - readLen_ s)) b) in *.
  replace (drop (Z.to_nat p) b) with (drop (Z.to_nat (readLen_ s)) x)
    by (unfold x; rewrite drop_drop; f_equal; lia).
  replace (drop (Z.to_nat (p - (readLen_ s - readPos_ s))) b) with (drop (Z.to_nat (readPos_ s)) x)
    by (unfold x; rewrite drop_drop; f_equal; lia).
  rewrite <- (take_drop (Z.to_nat (readLen_ s)) x) at 1.
  rewrite drop_app, length_take.
  replace (Z.to_nat (readPos_ s) - _)%nat with 0%nat by lia. done.
Qed.

Lemma buffered_rest_length s : BufferedStream_ready s -> writePos_ s = 0 ->
  Z.of_nat (length (rest (BufferedStream_view s))) =
  readLen_ s - readPos_ s + length (rest (inner_view s)).
Proof.
  intros Hs E. rewrite reading_rest by done. destruct Hs.
  rewrite length_app, length_drop, length_take. lia.
Qed.

(** ** The parts of the operations *)

Lemma ensureNotClosed_runs s : BufferedStream_ready s ->
  runs ensureNotClosed s (fun _ s' => s' = s).
Proof. intros [E]. exists tt, s. unfold ensureNotClosed. by rewrite E. Qed.

Lemma step_not_closed {B} s (k : unit -> cmd (buffered S) B) Q :
  BufferedStream_ready s -> runs (k tt) s Q -> runs (andthen ensureNotClosed k) s Q.
Proof. intros [E] HQ. unfold runs, andthen, ensureNotClosed. by rewrite E. Qed.

(** Handing the pending bytes to the inner stream. *)
Lemma step_empty {B} s (k : unit -> cmd (buffered S) B) Q :
  BufferedStream_ready s -> 0 < writePos_ s ->
  (forall t, keeps s t (BufferedStream_view s) -> quiet t -> buffer_ t = buffer_ s ->
    runs (k tt) t Q) ->
  runs (on_inner (Stream.Write (Some (buffer_ s)) 0 (writePos_ s)) ;;; (modify (set_write 0) ;;; k tt)) s Q.
Proof.
  intros Hs E Hk. destruct (pending_view s Hs E) as (Ev & Ep & El & Ew & Hb). pose proof Hs as [].
  unfold on_inner. apply step_within. eapply runs_weaken.
  { eapply (Write_law (inner_ s) (buffer_ s) 0 (writePos_ s) (pending s)); try done.
    - destruct allocated0 as [-> | ->]; cbn; lia.
    - apply fetch_Ok; lia. }
  cbn -[set_write]. intros _ i (Hi & Hv & Hw). apply step_modify, Hk; [|done|done].
  rewrite Ev. fold (inner_view s) in Hv. rewrite <- Hv.
  apply (quiet_keeps s (set_write 0 (set_inner i s))); done.
Qed.

Lemma Flush_inner_runs s : BufferedStream_ready s -> quiet s ->
  runs (on_inner Stream.Flush) s (fun _ t => keeps s t (BufferedStream_view s) /\ quiet t).
Proof.
  intros Hs Hq. rewrite quiet_view by done. pose proof Hs as [].
  apply runs_within. eapply runs_weaken; [by apply Flush_law|]. intros _ j (Hj & Hv & Hw).
  split; [|done]. fold (inner_view s) in Hv. rewrite <- Hv. by apply (quiet_keeps s (set_inner j s)).
Qed.

Lemma flushWrite_runs s : BufferedStream_ready s ->
  runs flushWrite s (fun _ s' =>
    keeps s s' (BufferedStream_view s) /\ writePos_ s' = 0 /\ (0 < writePos_ s -> quiet s')).
Proof.
  intros Hs. unfold flushWrite. run. apply runs_when; intros E; bool_to_prop.
  2: { pose proof Hs as []. split; [by apply keeps_refl | lia]. }
  apply (step_empty s (fun _ => on_inner Stream.Flush)); [done | done |].
  intros t K Hq _. pose proof K as (Ht & Ev & _).
  eapply runs_weaken; [by apply Flush_inner_runs|]. intros _ u (K' & Hq'). rewrite Ev in K'.
  split; [by eapply keeps_trans|]. split; [apply Hq' | done].
Qed.

Lemma flushRead_runs s : BufferedStream_ready s -> writePos_ s = 0 ->
  runs flushRead s (fun _ s' => keeps s s' (BufferedStream_view s) /\ quiet s').
Proof.
  intros Hs E. unfold flushRead. run. pose proof (position_inner s Hs) as (Hp & _).
  pose proof Hs as []. apply step_when; intros E2; bool_to_prop.
  - run. { unfold ssub. apply schk_Ok. unfold in_s. lia. }
    unfold on_inner. apply step_within. eapply runs_weaken.
    { eapply (Seek_law (inner_ s) _ Current); try done; cbn; unfold inner_view in *; lia. }
    cbn. intros r i (_ & Hi & Hv & Hw). run. split; [|done].
    rewrite reading_view by done. replace (moved_to _ _) with (view i).
    2: { rewrite Hv. unfold moved_to, logical_position, inner_view. f_equal. lia. }
    apply (quiet_keeps s (set_read 0 0 (set_inner i s))); try done.
  - run. split; [|done]. rewrite reading_view by done. unfold logical_position.
    replace (readLen_ s - readPos_ s) with 0 by lia. rewrite Z.sub_0_r, moved_to_id.
    apply (quiet_keeps s (set_read 0 0 s)); done.
Qed.

Lemma clearRead_runs s : BufferedStream_ready s -> writePos_ s = 0 ->
  runs clearReadBufferBeforeWrite s (fun _ s' => keeps s s' (BufferedStream_view s) /\ quiet s').
Proof.
  intros Hs E. unfold clearReadBufferBeforeWrite. run.
  destruct (readPos_ s =? readLen_ s) eqn:E2; bool_to_prop.
  - run. split; [|done]. rewrite reading_view by done. unfold logical_position.
    replace (readLen_ s - readPos_ s) with 0 by lia. rewrite Z.sub_0_r, moved_to_id.
    destruct Hs. apply (quiet_keeps s (set_read 0 0 s)); done.
  - run; [|by apply flushRead_runs]. destruct Hs.
    destruct (ready_can _ inner_ready0) as (_ & ->). done.
Qed.

(** Consuming buffered bytes. *)
Lemma advance s n : BufferedStream_ready s -> 0 <= n <= readLen_ s - readPos_ s ->
  keeps s (set_read (readPos_ s + n) (readLen_ s) s)
    (moved_to (BufferedStream_view s) (position (BufferedStream_view s) + n)).
Proof.
  intros Hs Hn. pose proof Hs as []. destruct (decide (n = 0)) as [-> |].
  { rewrite !Z.add_0_r, moved_to_id. replace (set_read _ _ s) with s by by destruct s.
    by apply keeps_refl. }
  assert (E : writePos_ s = 0) by lia. split.
  - split; try done; cbn; lia.
  - rewrite !reading_view by done. unfold moved_to, logical_position. cbn.
    repeat split; try done. f_equal. unfold inner_view. cbn. lia.
Qed.

Lemma take_rest s n : BufferedStream_ready s -> writePos_ s = 0 ->
  0 <= n <= readLen_ s - readPos_ s ->
  take (Z.to_nat n) (rest (BufferedStream_view s)) =
  take (Z.to_nat n) (drop (Z.to_nat (readPos_ s)) (buffer_ s)).
Proof.
  intros Hs E Hn. rewrite reading_rest by done. destruct Hs.
  rewrite take_app_le by (rewrite length_drop, length_take; lia).
  rewrite !take_drop_commute, take_take. do 2 f_equal. lia.
Qed.

Lemma readFromBuffer_runs s l offset count : BufferedStream_ready s -> range_of l offset count ->
  runs (readFromBuffer offset count) (Some l, s) (fun n '(a, s') =>
    n = Z.min count (readLen_ s - readPos_ s) /\
    store (Some l) offset (take (Z.to_nat n) (rest (BufferedStream_view s))) = Ok a /\
    s' = set_read (readPos_ s + n) (readLen_ s) s).
Proof.
  intros Hs (? & ? & ?). pose proof Hs as [].
  assert (length (buffer_ s) <= INTCS_MAX) by (destruct allocated0 as [-> | ->]; cbn; lia).
  unfold readFromBuffer. run. { unfold ssub. apply schk_Ok. unfold in_s. lia. }
  set (n := Z.min count (readLen_ s - readPos_ s)).
  destruct (readLen_ s - readPos_ s <=? 0) eqn:E; bool_to_prop.
  - run. assert (n = 0) as En by lia. rewrite En. split; [done|]. split; [apply store_nil; lia|].
    destruct s; cbn in *. by rewrite Z.add_0_r.
  - assert (writePos_ s = 0) by lia. run.
    + apply fetch_Ok; lia.
    + apply store_Ok; rewrite ?length_take, ?length_drop; lia.
    + unfold sadd. apply schk_Ok. unfold in_s. lia.
    + unfold on_object. apply step_within. run. run. split; [lia|]. split; [|done]. cbn [fst].
      rewrite take_rest by (done || lia).
      apply store_Ok; rewrite ?length_take, ?length_drop; lia.
Qed.

(** ** Read *)

(** The inner stream's reads are never short. *)
Definition exact_inner : Prop := forall (i : S) l offset count, ready i -> range_of l offset count ->
  runs (Stream.Read offset count) (Some l, i) (fun n _ => n = Z.min count (length (rest (view i)))).

Lemma Read_inner (i : S) l offset count : ready i -> range_of l offset count ->
  runs (Stream.Read offset count) (Some l, i) (fun n '(a, j) =>
    delivered (view i) l offset count n a /\
    becomes i j (moved_to (view i) (position (view i) + n)) /\
    (exact_inner -> n = Z.min count (length (rest (view i))))).
Proof.
  intros Hi R. destruct (Read_law i l offset count Hi R) as (n & [a j] & E & Hd & Hb).
  exists n, (a, j). split; [done|]. split; [done|]. split; [done|]. intros Hx.
  destruct (Hx i l offset count Hi R) as (m & y & E' & ->). rewrite E in E'. congruence.
Qed.

Lemma buffered_enough s n : BufferedStream_ready s -> 0 <= n <= readLen_ s - readPos_ s ->
  n <= length (rest (BufferedStream_view s)).
Proof.
  intros Hs Hn. destruct (decide (n = 0)) as [-> |]; [lia|].
  rewrite buffered_rest_length; [lia | done |]. destruct Hs. lia.
Qed.

(** Dropping the consumed bytes. *)
Lemma discard s : BufferedStream_ready s ->
  keeps s (set_read 0 0 s) (moved_to (BufferedStream_view s)
    (position (BufferedStream_view s) + (readLen_ s - readPos_ s))).
Proof.
  intros Hs. pose proof Hs as []. destruct (decide (writePos_ s = 0)) as [E|E].
  - rewrite reading_view by done. unfold moved_to, logical_position. cbn.
    replace (position _ - _ + _) with (position (inner_view s)) by lia.
    fold (moved_to (inner_view s) (position (inner_view s))). rewrite moved_to_id.
    apply (quiet_keeps s (set_read 0 0 s)); done.
  - destruct (pending_view s Hs ltac:(lia)) as (_ & E1 & E2 & _).
    rewrite E1, E2, Z.sub_diag, Z.add_0_r, moved_to_id.
    replace (set_read 0 0 s) with s by (destruct s; cbn in *; by subst).
    by apply keeps_refl.
Qed.

Lemma ensureBufferAllocated_runs s : BufferedStream_ready s ->
  runs ensureBufferAllocated s (fun _ s' =>
    keeps s s' (BufferedStream_view s) /\ Z.of_nat (length (buffer_ s')) = bufferSize_ s /\
    pending s' = pending s /\ inner_ s' = inner_ s /\
    readPos_ s' = readPos_ s /\ readLen_ s' = readLen_ s /\ writePos_ s' = writePos_ s).
Proof.
  intros Hs. pose proof Hs as []. unfold ensureBufferAllocated. run.
  apply runs_when; intros E; rewrite ?bool_decide_eq_true, ?bool_decide_eq_false in E.
  2: { split; [by apply keeps_refl|]. destruct allocated0; done. }
  rewrite E in *. cbn in *. run.
  assert (Ew : writePos_ s = 0) by lia. assert (El : readLen_ s = 0) by lia.
  assert (Eb : length (vector_resize [] (bufferSize_ s)) = Z.to_nat (bufferSize_ s))
    by (apply length_vector_resize; lia).
  split; [split; [|split; [|done]]|].
  - split; cbn; rewrite ?Eb, ?El; try done; try lia; auto.
    exact (proj1 (proj1 (position_inner s Hs))).
  - by rewrite !reading_view.
  - split; [cbn; lia|]. unfold pending. cbn. by rewrite Ew, E.
Qed.

Lemma fill_buffer_runs s : BufferedStream_ready s -> quiet s ->
  Z.of_nat (length (buffer_ s)) = bufferSize_ s ->
  runs fill_buffer s (fun n s' =>
    keeps s (set_read 0 n s') (BufferedStream_view s) /\ 0 <= n <= length (rest (BufferedStream_view s)) /\
    (n = 0 -> rest (BufferedStream_view s) = []) /\
    (exact_inner -> n = Z.min (bufferSize_ s) (length (rest (BufferedStream_view s))))).
Proof.
  intros Hs Hq Eb. pose proof Hs as []. rewrite quiet_view by done. unfold fill_buffer. run.
  apply runs_within. eapply runs_weaken.
  { apply Read_inner; [done|]. unfold range_of. lia. }
  cbn. intros n [a j] ((Hn & Hl & Es & Hz) & (Hj & Hv & Hw) & Hx).
  pose proof (position_inner s Hs) as (Hp & _). fold (inner_view s) in *.
  destruct (store_inv _ _ _ _ Es) as (b & -> & Elb & _). cbn.
  split; [|split; [lia|split; [|done]]].
  2: { intros E. destruct (Hz E); [lia | done]. }
  rewrite store_Ok in Es by (rewrite ?length_take; lia). injection Es as <-. cbn [take app].
  destruct Hq as (E1 & E2 & E3).
  assert (Ev : inner_view (set_inner j s) = moved_to (inner_view s) (position (inner_view s) + n))
    by apply Hv.
  split; [split|split]; try done; unfold inner_view in *; cbn in *; rewrite ?Hv; cbn; try lia.
  - rewrite take_app_le, take_take, Nat.min_id by (rewrite length_take; lia).
    by rewrite Z.add_simpl_r.
  - rewrite reading_view by done. unfold logical_position, inner_view, moved_to. cbn. rewrite Hv.
    cbn. rewrite Z.sub_0_r, Z.add_simpl_r. by destruct (view (inner_ s)).
Qed.

Lemma shift_runs {X} (n a : Z) (x : X) : 0 <= n -> 0 <= a -> a + n <= INTCS_MAX ->
  runs (if n >? 0 then lift (sadd 32 a n) else ret a) x (fun r x' => r = a + n /\ x' = x).
Proof.
  intros. destruct (n >? 0) eqn:E; bool_to_prop.
  - eapply runs_lift; [apply schk_Ok; unfold in_s; lia | done].
  - apply runs_ret. split; [lia | done].
Qed.

Lemma shrink_runs {X} (n a : Z) (x : X) : 0 <= n <= a -> a <= INTCS_MAX ->
  runs (if n >? 0 then lift (ssub 32 a n) else ret a) x (fun r x' => r = a - n /\ x' = x).
Proof.
  intros. destruct (n >? 0) eqn:E; bool_to_prop.
  - eapply runs_lift; [apply schk_Ok; unfold in_s; lia | done].
  - apply runs_ret. split; [lia | done].
Qed.

Lemma on_object_runs {A} (m : cmd (buffered S) A) a s (P : A -> buffered S -> Prop) :
  runs m s P -> runs (on_object m) (a, s) (fun r '(b, s') => b = a /\ P r s').
Proof. intros (r & s' & E & HP). exists r, (a, s'). unfold on_object, within. cbn. by rewrite E. Qed.

(** The rest of [Read] when nothing is buffered: straight from the inner stream, or
    through the buffer. *)
Definition second_read (size offset count already : Z) : cmd (array * buffered S) Z :=
  if count >=? size then
    n <== read_inner offset count ;; lift (sadd 32 n already)
  else
    on_object ensureBufferAllocated ;;;
    n <== on_object fill_buffer ;;
    on_object (modify (set_read 0 n)) ;;;
    fromBuffer <== readFromBuffer offset count ;;
    lift (sadd 32 fromBuffer already).

Lemma second_read_runs s l offset count already : BufferedStream_ready s -> quiet s ->
  range_of l offset count -> 0 < count -> 0 <= already -> already + count <= INTCS_MAX ->
  runs (second_read (bufferSize_ s) offset count already) (Some l, s) (fun n '(a, s') =>
    delivered (BufferedStream_view s) l offset count (n - already) a /\
    keeps s s' (moved_to (BufferedStream_view s) (position (BufferedStream_view s) + (n - already))) /\
    (exact_inner -> n - already = Z.min count (length (rest (BufferedStream_view s))))).
Proof.
  intros Hs Hq R Hc Ha Hb. pose proof Hs as []. unfold second_read. rewrite Z.geb_leb.
  destruct (bufferSize_ s <=? count) eqn:E; bool_to_prop.
  - unfold read_inner. apply step_within. eapply runs_weaken; [by apply Read_inner|]. cbn.
    intros n [a j] (Hd & (Hj & Hv & Hw) & Hx). pose proof Hd as (Hn & _).
    eapply runs_lift; [apply schk_Ok; unfold in_s; lia|]. cbn. rewrite Z.add_simpl_r.
    rewrite quiet_view by done. split; [done|]. split; [|done]. fold (inner_view s) in Hv.
    rewrite <- Hv. by apply (quiet_keeps s (set_inner j s)).
  - eapply runs_bind; [by apply on_object_runs, ensureBufferAllocated_runs|].
    intros _ [a t] (-> & Kt & Eb & _ & Ei & E1 & E2 & E3). cbn. pose proof Kt as (Ht & Evt & Est & _).
    assert (Hqt : quiet t) by (unfold quiet in *; rewrite E1, E2, E3; done).
    eapply runs_bind; [apply on_object_runs, fill_buffer_runs; [done | done | congruence]|].
    intros n [a u] (-> & Ku & Hn & Hz & Hx). cbn. rewrite Evt in *.
    eapply runs_bind; [apply on_object_runs, (runs_modify _ u (fun _ u' => u' = set_read 0 n u)); done|].
    intros _ [a v] (-> & ->). cbn. pose proof Ku as (Hu & Evu & _).
    eapply runs_bind; [by apply readFromBuffer_runs|]. intros m [a w] (Em & Es & ->).
    rewrite Evu in Es. cbn in Em. rewrite Z.sub_0_r in Em.
    eapply runs_lift; [apply schk_Ok; unfold in_s; lia|]. cbn -[set_read]. rewrite Z.add_simpl_r.
    split; [|split].
    + repeat split; try done; try lia. intros ?. right. apply Hz. lia.
    + eapply keeps_trans; [exact Kt|]. eapply keeps_trans; [exact Ku|]. rewrite <- Evu.
      apply (advance (set_read 0 n u)); [done | cbn; lia].
    + intros X. specialize (Hx X). lia.
Qed.

Lemma drain_runs a s : BufferedStream_ready s -> readPos_ s = 0 -> readLen_ s = 0 ->
  runs (when (writePos_ s >? 0) (on_object flushWrite)) (a, s) (fun _ '(b, t) =>
    b = a /\ keeps s t (BufferedStream_view s) /\ quiet t).
Proof.
  intros Hs E1 E2. apply runs_when; intros E; bool_to_prop.
  - eapply runs_weaken; [by apply on_object_runs, flushWrite_runs|].
    intros _ [b t] (-> & K & _ & Hq). auto.
  - split; [done|]. split; [by apply keeps_refl|]. pose proof Hs as []. unfold quiet. lia.
Qed.

Lemma Read_runs s l offset count : BufferedStream_ready s -> range_of l offset count ->
  runs (Read offset count) (Some l, s) (fun n '(a, s') =>
    delivered (BufferedStream_view s) l offset count n a /\
    keeps s s' (moved_to (BufferedStream_view s) (position (BufferedStream_view s) + n)) /\
    (exact_inner -> n = Z.min count (length (rest (BufferedStream_view s))))).
Proof.
  intros Hs R. pose proof R as (Ho & Hc & Hl). pose proof Hs as [].
  set (f := BufferedStream_view s). unfold Read.
  eapply runs_bind; [by apply on_object_runs, ensureNotClosed_runs|].
  intros _ [a t] (-> & ->). cbn.
  eapply runs_bind; [by apply readFromBuffer_runs|]. intros n [a t] (En & Es & ->). fold f in Es.
  pose proof (advance s n Hs ltac:(lia)) as Ka. fold f in Ka.
  pose proof (buffered_enough s n Hs ltac:(lia)) as Hn. fold f in Hn.
  assert (Hd : n = count \/ n = readLen_ s - readPos_ s /\ n < count) by lia.
  destruct (n =? count) eqn:E; bool_to_prop.
  { run. split; [|split; [done | lia]]. repeat split; try done; lia. }
  assert (n = readLen_ s - readPos_ s /\ n < count) as [En' Hlt] by lia.
  destruct (store_inv _ _ _ _ Es) as (l' & -> & El & _).
  eapply runs_bind; [apply shift_runs; lia|]. intros o x (-> & ->).
  eapply runs_bind; [apply shrink_runs; lia|]. intros c x (-> & ->).
  eapply runs_bind; [apply on_object_runs, (runs_modify _ _ (fun _ u => u = set_read 0 0 s)); done|].
  intros _ [a u] (-> & ->). cbn beta iota. run. cbn -[set_read].
  pose proof (discard s Hs) as Kd. fold f in Kd. rewrite <- En' in Kd.
  pose proof Kd as (Hu & Evu & Esu & _).
  eapply runs_bind; [by apply (drain_runs _ (set_read 0 0 s))|].
  intros _ [a v] (-> & Kv & Hq). pose proof Kv as (Hv & Evv & Esv & _). rewrite Evu in *. cbn in Esv.
  rewrite <- Esv. eapply runs_weaken.
  { apply (second_read_runs v l' (offset + n) (count - n) n); try done; unfold range_of; lia. }
  intros r [b w] (Hdel & Kw & Hx). rewrite Evv in *.
  pose proof (view_position_bounds s Hs) as Hp. fold f in Hp.
  replace r with (n + (r - n)) by lia. split; [|split].
  - eapply delivered_app; try done; lia.
  - eapply keeps_trans; [exact Kd|]. eapply keeps_trans; [exact Kv|].
    cbn in Kw. by rewrite Z.add_assoc.
  - intros X. specialize (Hx X). rewrite rest_moved, length_drop in Hx by lia. lia.
Qed.

(** ** Write *)

(** Nothing is buffered for reading. *)
Definition writing s : Prop := readPos_ s = 0 /\ readLen_ s = 0.

Lemma quiet_writing s : quiet s -> writing s.
Proof. intros (? & ? & ?). by split. Qed.

Lemma append s w b : BufferedStream_ready s -> writing s -> writes_inner s = true ->
  Z.of_nat (length (buffer_ s)) = bufferSize_ s -> w <> [] ->
  position (BufferedStream_view s) + length w <= INTCS_MAX ->
  put (buffer_ s) (writePos_ s) w = Ok b ->
  keeps s (set_write (writePos_ s + length w) (set_buffer b s)) (written (BufferedStream_view s) w).
Proof.
  intros Hs (E1 & E2) Hw Eb Hne Hp Eput. pose proof Hs as []. unfold put in Eput.
  rewrite view_position in Hp by done. unfold logical_position in Hp. rewrite E1, E2 in Hp.
  destruct (_ && _) eqn:E in Eput; [|done]. injection Eput as <-. bool_to_prop.
  assert (Ep : length (take (Z.to_nat (writePos_ s)) (buffer_ s)) = Z.to_nat (writePos_ s))
    by (rewrite length_take; lia).
  split; [|split; [|done]].
  - split; cbn; rewrite ?length_app, ?length_drop, ?Ep, ?E1, ?E2; try done; try lia.
    + right. repeat split; [done | unfold inner_view in *; cbn; lia].
    + exact (proj1 (proj1 (position_inner s Hs))).
  - unfold BufferedStream_view. rewrite written_app.
    + unfold pending, logical_position, inner_view. cbn. f_equal.
      rewrite app_assoc, take_app_length'; [done|]. rewrite length_app. lia.
    + pose proof (position_inner s Hs). unfold logical_position. cbn. lia.
Qed.

Lemma write_room s : BufferedStream_ready s ->
  0 <= writePos_ s <= bufferSize_ s /\ length (buffer_ s) <= bufferSize_ s.
Proof.
  intros Hs. pose proof Hs as []. destruct (allocated s Hs) as [E | E]; [|lia]. rewrite E in *. cbn in *. lia.
Qed.

(** The room [write_loop] needs: a round for each byte and one for a full buffer. *)
Definition rounds s (count : Z) : Z := count + (if writePos_ s =? bufferSize_ s then 1 else 0).

Lemma fetch_split l i n m w : 0 <= m <= n -> fetch (Some l) i n = Ok w ->
  fetch (Some l) i m = Ok (take (Z.to_nat m) w) /\
  fetch (Some l) (i + m) (n - m) = Ok (drop (Z.to_nat m) w).
Proof.
  intros Hm E. destruct (fetch_inv _ _ _ _ E) as (? & [= <-] & ? & ? & ? & -> & _).
  rewrite !fetch_Ok by lia. split; f_equal.
  - rewrite take_take. f_equal. lia.
  - replace (Z.to_nat n) with (Z.to_nat m + Z.to_nat (n - m))%nat by lia.
    rewrite <- take_drop_commute, drop_drop. do 2 f_equal. lia.
Qed.

(** One round copies [n] bytes, none when the buffer is full. *)
Lemma copy_runs s l offset n w : BufferedStream_ready s -> writing s -> writes_inner s = true ->
  0 <= n <= bufferSize_ s - writePos_ s -> fetch (Some l) offset n = Ok w ->
  position (BufferedStream_view s) + n <= INTCS_MAX ->
  runs (when (n >? 0)
          (ensureBufferAllocated ;;;
           w <== lift (fetch (Some l) offset n) ;;
           b <== gets buffer_ ;;
           b <== lift (put b (writePos_ s) w) ;;
           modify (set_buffer b) ;;;
           p <== lift (sadd 32 (writePos_ s) n) ;;
           modify (set_write p))) s (fun _ t =>
    keeps s t (written (BufferedStream_view s) w) /\ writing t /\ writePos_ t = writePos_ s + n).
Proof.
  intros Hs Hr Hw Hn Hf Hp. pose proof (fetch_inv _ _ _ _ Hf) as (_ & _ & _ & _ & _ & _ & En).
  apply runs_when; intros E; bool_to_prop.
  2: { assert (n = 0) as -> by lia. destruct w; [|cbn in En; lia].
       split; [by apply keeps_refl|]. split; [done | lia]. }
  pose proof Hs as []. eapply runs_bind; [by apply ensureBufferAllocated_runs|].
  intros _ t (K & Eb & _ & _ & E1 & E2 & E3). pose proof K as (Ht & Ev & Es & _ & Ew).
  cbn beta. rewrite <- E3. run; [exact Hf | apply put_Ok; lia | apply schk_Ok; unfold in_s; lia |].
  destruct Hr. rewrite En. split; [|split; [by split; cbn; congruence | done]].
  eapply keeps_trans; [exact K|]. rewrite <- Ev. apply append; try congruence.
  - by split; congruence.
  - intros ->. cbn in En. lia.
  - apply put_Ok; lia.
Qed.

Lemma write_loop_runs (fuel : nat) : forall s l offset count w,
  rounds s count < fuel -> BufferedStream_ready s -> writing s -> writes_inner s = true ->
  length l <= INTCS_MAX -> fetch (Some l) offset count = Ok w ->
  position (BufferedStream_view s) + count <= INTCS_MAX ->
  runs (write_loop fuel (Some l) offset count) s (fun _ t =>
    keeps s t (written (BufferedStream_view s) w)).
Proof.
  induction fuel as [|fuel IH]; intros s l offset count w Hfuel Hs Hr Hw Hl Hf Hp;
    pose proof (fetch_inv _ _ _ _ Hf) as (_ & [= <-] & ? & ? & ? & _ & En).
  { unfold rounds in Hfuel. destruct (_ =? _) in Hfuel; lia. }
  cbn [write_loop]. destruct (count >? 0) eqn:E; bool_to_prop.
  2: { run. destruct w; [by apply keeps_refl | cbn in En; lia]. }
  run. pose proof Hs as [].
  destruct ((writePos_ s =? 0) && (count >=? bufferSize_ s)) eqn:E2.
  - bool_to_prop. destruct Hr. assert (Hq : quiet s) by done.
    apply runs_within. eapply runs_weaken.
    { apply (Write_law (inner_ s) l offset count w); try done.
      by rewrite quiet_view in Hp. }
    intros _ j (Hj & Hv & Hw'). rewrite quiet_view by done. unfold inner_view at 1. rewrite <- Hv.
    by apply (quiet_keeps s (set_inner j s)).
  - pose proof (write_room s Hs). run. { apply schk_Ok. unfold in_s. lia. }
    set (n := Z.min (bufferSize_ s - writePos_ s) count). cbn zeta.
    destruct (fetch_split l offset count n w ltac:(lia) Hf) as (F1 & F2).
    eapply runs_bind; [apply (copy_runs s l offset n _ Hs Hr Hw ltac:(lia) F1); lia|].
    intros _ t (K & Hrt & Et). pose proof K as (Ht & Evt & Est & _ & Ewt). cbn beta.
    eapply runs_bind; [apply shift_runs; lia|]. intros o x (-> & ->). cbn beta.
    eapply runs_bind; [apply shrink_runs; lia|]. intros c x (-> & ->). cbn beta. run.
    pose proof (view_position_bounds s Hs) as Hps. clear E2.
    pose proof (fetch_inv _ _ _ _ F1) as (_ & _ & _ & _ & _ & _ & En1).
    (* what follows writes the rest in a state that stands for the same file as [t] *)
    assert (Hrest : forall u, keeps s u (BufferedStream_view t) -> writing u ->
      writePos_ u <> bufferSize_ u ->
      runs (write_loop fuel (Some l) (offset + n) (count - n)) u (fun _ v =>
        keeps s v (written (BufferedStream_view s) w))).
    { intros u Ku Hru Hnf. pose proof Ku as (Hu & Evu & Esu & _ & Ewu).
      eapply runs_weaken.
      - eapply (IH u l (offset + n) (count - n)); try exact F2; try done; try congruence.
        + unfold rounds in *. rewrite (proj2 (Z.eqb_neq _ _) Hnf).
          destruct (writePos_ s =? bufferSize_ s) eqn:?; bool_to_prop; lia.
        + rewrite Evu, Evt, written_position. lia.
      - cbn beta. intros _ v Kv. rewrite Evu, Evt, written_app, take_drop in Kv by lia.
        by eapply keeps_trans. }
    rewrite <- Evt in K. apply step_when; intros Ef; bool_to_prop; [|by apply Hrest].
    apply step_assoc, (step_empty t (fun _ => write_loop fuel (Some l) (offset + n) (count - n)));
      [done | lia |].
    intros u Ku Hq _. pose proof Ku as (_ & _ & Esu & _). apply Hrest.
    + by eapply keeps_trans.
    + by apply quiet_writing.
    + destruct Hq as (_ & _ & ->). lia.
Qed.

(** What [Write] and [WriteByte] do first. *)
Lemma begin_write_runs s : BufferedStream_ready s ->
  runs (when (writePos_ s =? 0) clearReadBufferBeforeWrite) s (fun _ t =>
    keeps s t (BufferedStream_view s) /\ writing t).
Proof.
  intros Hs. apply runs_when; intros E; bool_to_prop.
  - eapply runs_weaken; [by apply clearRead_runs|]. cbn beta. intros _ t (K & Hq).
    split; [done | by apply quiet_writing].
  - split; [by apply keeps_refl|]. pose proof Hs as []. unfold writing. lia.
Qed.

Lemma Write_runs s l offset count w : BufferedStream_ready s -> writes_inner s = true ->
  length l <= INTCS_MAX -> fetch (Some l) offset count = Ok w ->
  position (BufferedStream_view s) + count <= INTCS_MAX ->
  runs (Write (Some l) offset count) s (fun _ t => keeps s t (written (BufferedStream_view s) w)).
Proof.
  intros Hs Hw Hl Hf Hp. unfold Write. apply step_not_closed; [done|]. run. cbn [id].
  eapply runs_bind; [by apply begin_write_runs|]. cbn beta. intros _ t (K & Ht). cbn beta.
  pose proof K as (Hrt & Evt & _ & _ & Ewt). rewrite <- Evt in Hp.
  eapply runs_weaken.
  - apply (write_loop_runs (Z.to_nat count + 2) t l offset count w); try done; [|congruence].
    destruct (fetch_inv _ _ _ _ Hf) as (_ & _ & _ & ? & _).
    unfold rounds. destruct (_ =? _); lia.
  - cbn beta. intros _ u Ku. rewrite Evt in Ku. by eapply keeps_trans.
Qed.

Lemma WriteByte_runs s v : BufferedStream_ready s -> writes_inner s = true ->
  position (BufferedStream_view s) < INTCS_MAX ->
  runs (WriteByte v) s (fun _ t => keeps s t (written (BufferedStream_view s) [v])).
Proof.
  intros Hs Hw Hp. unfold WriteByte. apply step_not_closed; [done|]. run. cbn [id].
  eapply runs_bind; [by apply begin_write_runs|]. cbn beta. intros _ t (K & Hrt). cbn beta.
  pose proof K as (Ht & Evt & Est & _ & Ewt).
  eapply runs_bind; [by apply ensureBufferAllocated_runs|].
  intros _ u (Ku & Eb & _ & _ & E1 & E2 & E3). cbn beta. run. cbn [id].
  rewrite Evt in Ku. pose proof Ku as (Hu & Evu & Esu & _ & Ewu).
  assert (Hput : forall x, keeps s x (BufferedStream_view s) -> writing x ->
    Z.of_nat (length (buffer_ x)) = bufferSize_ x -> writePos_ x < bufferSize_ x ->
    runs (b <== lift (put (buffer_ x) (writePos_ x) [v]) ;;
          p <== lift (sadd 32 (writePos_ x) 1) ;; modify (set_write p) ;;; modify (set_buffer b)) x
      (fun _ y => keeps s y (written (BufferedStream_view s) [v]))).
  { intros x Kx Hrx Ebx Hlt. pose proof Kx as (Hx & Evx & Esx & _ & Ewx). pose proof Hx as [].
    run; [apply put_Ok; cbn; lia | apply schk_Ok; unfold in_s; lia |].
    eapply keeps_trans; [exact Kx|]. rewrite <- Evx.
    apply (append x [v]); try congruence; [rewrite Evx; cbn; lia | apply put_Ok; cbn; lia]. }
  pose proof Hu as []. apply step_when; intros Ef; bool_to_prop.
  - apply step_assoc. cbn beta.
    match goal with |- runs (andthen _ (fun _ => andthen _ ?k)) _ _ => apply (step_empty u k) end;
      [done | lia |].
    intros x Kx Hq Ebx. apply step_gets. cbn [id]. pose proof Kx as (_ & Evx & Esx & _).
    apply Hput; try congruence.
    + rewrite <- Evu. eapply keeps_trans; [exact K|]. by eapply keeps_trans.
    + by apply quiet_writing.
    + destruct Hq as (_ & _ & ->). rewrite Esx. apply Hu.
  - apply step_gets. cbn [id]. destruct Hrt.
    apply Hput; [by eapply keeps_trans | split; congruence | congruence | lia].
Qed.

(** ** Flushing, length and position *)

(** [modify (set_read 0 0)] in a state without pending or unconsumed bytes. *)
Lemma forget s : BufferedStream_ready s -> writePos_ s = 0 -> readPos_ s = readLen_ s ->
  keeps s (set_write 0 (set_read 0 0 s)) (BufferedStream_view s).
Proof.
  intros Hs E1 E2. pose proof Hs as []. rewrite reading_view by done. unfold logical_position.
  rewrite E2, Z.sub_diag, Z.sub_0_r, moved_to_id.
  apply (quiet_keeps s (set_write 0 (set_read 0 0 s))); done.
Qed.

Lemma when_flush_runs s : BufferedStream_ready s ->
  runs (when (Stream.getCanWriteProperty (inner_ s)) (on_inner Stream.Flush)) s (fun _ t =>
    exists i, t = set_inner i s /\ becomes (inner_ s) i (inner_view s)).
Proof.
  intros Hs. pose proof Hs as []. apply runs_when; intros E.
  - apply runs_within. eapply runs_weaken; [by apply Flush_law|]. cbn beta. intros _ i Hi. eauto.
  - exists (inner_ s). by destruct s.
Qed.

(** The inner stream changed without moving. *)
Lemma keeps_inner s i : BufferedStream_ready s -> becomes (inner_ s) i (inner_view s) ->
  keeps s (set_inner i s) (BufferedStream_view s).
Proof.
  intros Hs (Hi & Hv & Hw). pose proof Hs as [].
  assert (Ev : inner_view (set_inner i s) = inner_view s) by done.
  split; [|split; [|done]].
  - split; try done; rewrite ?Ev; try done. cbn -[inner_view set_inner]. destruct (one_use s Hs) as [? | (? & ? & ?)]; [by left|].
    right. repeat split; [done | by unfold writes_inner; cbn; rewrite Hw | done].
  - unfold BufferedStream_view, pending, logical_position. by rewrite Ev.
Qed.

Lemma Flush_runs s : BufferedStream_ready s ->
  runs Flush s (fun _ t => keeps s t (BufferedStream_view s) /\ quiet t).
Proof.
  intros Hs. unfold Flush. apply step_not_closed; [done|]. apply step_gets. cbn [id].
  pose proof Hs as []. rewrite Z.gtb_ltb.
  destruct (0 <? writePos_ s) eqn:E; bool_to_prop.
  { eapply runs_weaken; [by apply flushWrite_runs|]. cbn beta. intros _ t (K & _ & Hq). auto. }
  assert (Ew : writePos_ s = 0) by lia.
  destruct (readPos_ s <? readLen_ s) eqn:E2; bool_to_prop.
  - destruct (ready_can _ (inner_ready s Hs)) as (_ & Hc). apply step_when_true; [done|].
    eapply runs_bind; [by apply flushRead_runs|]. cbn beta. intros _ t (K & Hq).
    pose proof K as (Ht & Ev & _). apply step_gets. cbn [id].
    eapply runs_weaken; [by apply when_flush_runs|]. cbn beta. intros _ u (i & -> & Hi).
    split; [|done]. eapply keeps_trans; [exact K|]. rewrite <- Ev. by apply keeps_inner.
  - eapply runs_bind; [by apply when_flush_runs|]. cbn beta. intros _ u (i & -> & Hi).
    pose proof (keeps_inner s i Hs Hi) as K. pose proof K as (Ht & Ev & _).
    run. split; [|done]. eapply keeps_trans; [exact K|]. rewrite <- Ev.
    apply (forget (set_inner i s)); [done | done | cbn; lia].
Qed.

Lemma getLength_runs s : BufferedStream_ready s ->
  runs getLengthProperty s (fun n t =>
    n = length (bytes (BufferedStream_view s)) /\ keeps s t (BufferedStream_view s)).
Proof.
  intros Hs. unfold getLengthProperty. apply step_not_closed; [done|]. apply step_gets. cbn [id].
  assert (Hlen : forall t, keeps s t (BufferedStream_view s) -> writePos_ t = 0 ->
    runs (on_inner Stream.getLengthProperty) t (fun n u =>
      n = length (bytes (BufferedStream_view s)) /\ keeps s u (BufferedStream_view s))).
  { intros t K E. pose proof K as (Ht & Ev & _). pose proof Ht as [].
    apply runs_within. eapply runs_weaken; [by apply getLength_law|]. cbn beta. intros n i (-> & Hi).
    split; [rewrite <- Ev, reading_view; done|].
    eapply keeps_trans; [exact K|]. rewrite <- Ev. by apply keeps_inner. }
  apply step_when; intros E; bool_to_prop.
  - eapply runs_bind; [by apply flushWrite_runs|]. cbn beta. intros _ t (K & Ew & _). by apply Hlen.
  - apply Hlen; [by apply keeps_refl|]. pose proof Hs as []. lia.
Qed.

Lemma getPosition_runs s : BufferedStream_ready s ->
  runs getPositionProperty s (fun p t => p = position (BufferedStream_view s) /\
    exists i, t = set_inner i s /\ becomes (inner_ s) i (inner_view s)).
Proof.
  intros Hs. unfold getPositionProperty. apply step_not_closed; [done|]. apply step_gets. cbn [id].
  pose proof Hs as []. destruct (ready_can _ (inner_ready s Hs)) as (_ & Hc).
  pose proof (view_position_bounds s Hs) as Hp. rewrite view_position in * by done.
  pose proof (write_room s Hs) as Hr. pose proof (position_inner s Hs) as Hi.
  unfold logical_position in *. run; [by rewrite Hc|].
  unfold on_inner. apply step_within. eapply runs_weaken; [by apply getPosition_law|].
  cbn beta. intros p i (-> & Hb). fold (inner_view s) in *.
  apply step_gets. cbn [id]. eapply step_lift.
  { cbn. unfold ssub, sadd. rewrite schk_Ok by (unfold in_s; lia). cbn.
    apply schk_Ok. unfold in_s. lia. }
  eapply runs_lift; [apply schk_Ok; unfold in_s; lia|]. split; [lia | eauto].
Qed.

(** ** Seek *)

(** The offset for the inner stream, whose position is ahead of the object's. *)
Definition adjusted s (offset : Z) (origin : SeekOrigin) : Z :=
  if (readLen_ s - readPos_ s >? 0) && bool_decide (origin = Current)
  then offset - (readLen_ s - readPos_ s) else offset.

Lemma adjusted_target s offset origin p : BufferedStream_ready s -> writePos_ s = 0 ->
  target (BufferedStream_view s) offset origin = Some p ->
  target (inner_view s) (adjusted s offset origin) origin = Some p.
Proof.
  intros Hs Ew. rewrite reading_view by done. unfold adjusted, logical_position.
  destruct origin; cbn [target]; rewrite ?andb_false_r; try done.
  rewrite andb_true_r. pose proof Hs as []. unfold moved_to. cbn.
  destruct (_ >? 0) eqn:E; bool_to_prop; intros [= <-]; f_equal; lia.
Qed.

(** The first lines of [Seek] when no bytes are pending: the offset is adjusted and the
    object's position is computed. *)
Lemma seek_start s offset origin p {B} (k : Z -> Z -> cmd (buffered S) B) :
  BufferedStream_ready s -> writePos_ s = 0 ->
  target (BufferedStream_view s) offset origin = Some p ->
  INTCS_MIN <= offset <= INTCS_MAX -> INTCS_MIN <= adjusted s offset origin ->
  exists i, becomes (inner_ s) i (inner_view s) /\
  (left_ <== lift (ssub 32 (readLen_ s) (readPos_ s)) ;;
   offset <== (if (left_ >? 0) && bool_decide (origin = Current)
               then lift (ssub 32 offset left_) else ret offset) ;;
   oldPos <== getPositionProperty ;;
   k offset oldPos) s =
  k (adjusted s offset origin) (logical_position s) (set_inner i s).
Proof.
  intros Hs Ew Ht Ho Ha. pose proof Hs as [].
  pose proof (write_room s Hs). unfold adjusted in *.
  destruct (getPosition_runs s Hs) as (q & t & Eq & -> & i & -> & Hi). exists i. split; [done|].
  rewrite view_position, Ew, Z.add_0_r in Eq by done.
  unfold andthen at 1, lift at 1, ssub at 1. rewrite schk_Ok by (unfold in_s; lia).
  destruct (_ && _) eqn:E.
  - unfold andthen, lift, ssub. bool_to_prop. rewrite schk_Ok by (unfold in_s; lia).
    by rewrite Eq.
  - unfold andthen, ret. by rewrite Eq.
Qed.

(** The rest of [Seek]: the inner stream seeks, and the buffer is kept when it holds the
    byte at the new position. *)
Definition seek_end (offset : Z) (origin : SeekOrigin) (oldPos : Z) : cmd (buffered S) Z :=
  newPos <== on_inner (Stream.Seek offset origin) ;;
  s <== gets id ;;
  readPosCandidate <== lift (start <- ssub 32 oldPos (readPos_ s) ;; ssub 32 newPos start) ;;
  (if (readPosCandidate >=? 0) && (readPosCandidate <? readLen_ s) then
     modify (set_read readPosCandidate (readLen_ s)) ;;;
     d <== lift (ssub 32 (readLen_ s) readPosCandidate) ;;
     on_inner (Stream.Seek d Current) ;;;
     ret tt
   else modify (set_read 0 0)) ;;;
  ret newPos.

(** Moving within the buffer, with the inner stream back where it was. *)
Lemma rewind s c j : BufferedStream_ready s -> writePos_ s = 0 -> 0 <= c <= readLen_ s ->
  becomes (inner_ s) j (inner_view s) ->
  keeps s (set_inner j (set_read c (readLen_ s) s))
    (moved_to (BufferedStream_view s) (position (inner_view s) - (readLen_ s - c))).
Proof.
  intros Hs Ew Hc Hj. pose proof (keeps_inner s j Hs Hj) as (Ht & Ev & E1 & E2 & E3).
  pose proof Ht as []. cbn in *. split; [split; try done; cbn; lia|]. split; [|done].
  rewrite !reading_view by done. unfold moved_to, logical_position, inner_view. cbn.
  destruct Hj as (_ & Hv & _). by rewrite Hv.
Qed.

Lemma seek_end_runs s offset origin p : BufferedStream_ready s -> writePos_ s = 0 ->
  target (inner_view s) offset origin = Some p -> INTCS_MIN <= offset -> 0 <= p <= INTCS_MAX ->
  runs (seek_end offset origin (logical_position s)) s (fun r t =>
    r = p /\ keeps s t (moved_to (BufferedStream_view s) p)).
Proof.
  intros Hs Ew Ht Ho Hp. pose proof Hs as []. pose proof (position_inner s Hs) as Hi.
  pose proof (write_room s Hs) as Hr. unfold seek_end, on_inner. apply step_within.
  eapply runs_weaken; [by eapply Seek_law|]. cbn beta. intros r j (-> & Hj & Hv & Hw).
  fold (inner_view s) in *. apply step_gets. cbn [id]. eapply step_lift.
  { cbn. unfold logical_position, ssub. rewrite schk_Ok by (unfold in_s; lia). cbn.
    apply schk_Ok. unfold in_s. lia. }
  set (c := p - _). assert (Ec : c = p - position (inner_view s) + readLen_ s)
    by (unfold c, logical_position; cbn; lia). clearbody c.
  destruct ((c >=? 0) && _) eqn:E; cbn in E; bool_to_prop.
  - run. { apply schk_Ok. unfold in_s. cbn. lia. }
    apply step_within. cbn. eapply runs_weaken.
    { apply (Seek_law j _ Current (position (inner_view s))); [done | | lia | lia].
      rewrite Hv. cbn. f_equal. lia. }
    cbn beta. intros _ k (_ & Hk & Hv' & Hw'). run. split; [done|].
    replace p with (position (inner_view s) - (readLen_ s - c)) by lia.
    apply (rewind s c k); [done | done | lia |]. split; [done|].
    rewrite Hv', Hv. split; [by destruct (inner_view s) | congruence].
  - run. split; [done|]. rewrite reading_view by done.
    change (moved_to (moved_to _ _) p) with (moved_to (inner_view s) p). rewrite <- Hv.
    by apply (quiet_keeps s (set_read 0 0 (set_inner j s))).
  - run. split; [done|]. rewrite reading_view by done.
    change (moved_to (moved_to _ _) p) with (moved_to (inner_view s) p). rewrite <- Hv.
    by apply (quiet_keeps s (set_read 0 0 (set_inner j s))).
Qed.

Lemma adjusted_bounds s offset origin p : BufferedStream_ready s -> writePos_ s = 0 ->
  target (BufferedStream_view s) offset origin = Some p -> p <= INTCS_MAX ->
  0 <= p /\ INTCS_MIN <= offset \/ INTCS_MIN + length (rest (BufferedStream_view s)) <= offset ->
  INTCS_MIN <= offset <= INTCS_MAX /\ INTCS_MIN <= adjusted s offset origin /\
  (p < 0 -> INTCS_MIN + length (rest (inner_view s)) <= adjusted s offset origin).
Proof.
  intros Hs Ew. rewrite buffered_rest_length, reading_view by done. pose proof Hs as [].
  pose proof (position_inner s Hs) as Hi. unfold adjusted, logical_position.
  destruct origin; cbn [target]; rewrite ?andb_false_r, ?andb_true_r; try done;
    unfold moved_to; cbn; intros [= <-]; try (destruct (_ >? 0) eqn:E; bool_to_prop); lia.
Qed.

(** [Seek] is [flushWrite] and the inner stream's seek, or the two parts above. *)
Lemma Seek_pending s offset origin : BufferedStream_ready s -> 0 < writePos_ s ->
  Seek offset origin s = (flushWrite ;;; on_inner (Stream.Seek offset origin)) s.
Proof.
  intros [open rdy] E. destruct (ready_can _ rdy) as (_ & Hc).
  unfold Seek, andthen at 1, ensureNotClosed. rewrite open. cbn. rewrite Hc. cbn.
  rewrite Z.gtb_ltb. by rewrite (proj2 (Z.ltb_lt _ _) E).
Qed.

Lemma Seek_reading s offset origin p : BufferedStream_ready s -> writePos_ s = 0 ->
  target (BufferedStream_view s) offset origin = Some p ->
  INTCS_MIN <= offset <= INTCS_MAX -> INTCS_MIN <= adjusted s offset origin ->
  exists i, becomes (inner_ s) i (inner_view s) /\
  Seek offset origin s =
  seek_end (adjusted s offset origin) origin (logical_position s) (set_inner i s).
Proof.
  intros Hs Ew Ht Ho Ha. pose proof Hs as [open rdy]. destruct (ready_can _ rdy) as (_ & Hc).
  destruct (seek_start s offset origin p (fun o q => seek_end o origin q) Hs Ew Ht Ho Ha)
    as (i & Hi & E). exists i. split; [done|]. rewrite <- E.
  unfold Seek, andthen at 1, ensureNotClosed. rewrite open. cbn [throw_if lift].
  unfold andthen at 1, gets at 1. cbn [id]. unfold andthen at 1. rewrite Hc, Ew. done.
Qed.

Lemma Seek_runs s offset origin p : BufferedStream_ready s ->
  target (BufferedStream_view s) offset origin = Some p ->
  INTCS_MIN <= offset -> 0 <= p <= INTCS_MAX ->
  runs (Seek offset origin) s (fun r t =>
    r = p /\ keeps s t (moved_to (BufferedStream_view s) p)).
Proof.
  intros Hs Ht Ho Hp. pose proof Hs as []. destruct (decide (writePos_ s = 0)) as [Ew|Ew].
  - destruct (adjusted_bounds s offset origin p Hs Ew Ht) as (Hb & Ha & _); [lia | by left; lia |].
    destruct (Seek_reading s offset origin p Hs Ew Ht Hb Ha) as (i & Hi & E).
    pose proof (keeps_inner s i Hs Hi) as K. pose proof K as (Hr & Ev & _).
    assert (Ei : inner_view (set_inner i s) = inner_view s) by apply Hi.
    unfold runs. rewrite E.
    assert (R : runs (seek_end (adjusted s offset origin) origin (logical_position (set_inner i s)))
      (set_inner i s) (fun r t => r = p /\
        keeps (set_inner i s) t (moved_to (BufferedStream_view (set_inner i s)) p))).
    { apply seek_end_runs; try done. rewrite Ei. by apply adjusted_target. }
    unfold logical_position in R. rewrite Ei in R. eapply runs_weaken; [exact R|].
    cbn beta. intros r t (-> & K'). rewrite Ev in K'. split; [done|]. by eapply keeps_trans.
  - unfold runs. rewrite Seek_pending by (done || lia).
    eapply runs_bind; [by apply flushWrite_runs|]. cbn beta. intros _ t (K & _ & Hq).
    pose proof K as (Hr & Ev & _). specialize (Hq ltac:(lia)). pose proof Hr as [].
    rewrite quiet_view in Ev by done. rewrite <- Ev in Ht. unfold on_inner. apply runs_within.
    eapply runs_weaken; [by eapply Seek_law|]. cbn beta. intros r j (-> & Hj & Hv & Hw).
    split; [done|]. eapply keeps_trans; [exact K|]. rewrite <- Ev. fold (inner_view t) in Hv.
    rewrite <- Hv. by apply (quiet_keeps t (set_inner j t)).
Qed.

Lemma Seek_before_fails s offset origin p : BufferedStream_ready s ->
  target (BufferedStream_view s) offset origin = Some p ->
  INTCS_MIN + length (rest (BufferedStream_view s)) <= offset -> p < 0 ->
  fails (Seek offset origin) s before_beginning (fun t => keeps s t (BufferedStream_view s)).
Proof.
  intros Hs Ht Ho Hp. pose proof Hs as []. destruct (decide (writePos_ s = 0)) as [Ew|Ew].
  - destruct (adjusted_bounds s offset origin p Hs Ew Ht) as (Hb & Ha & Hx); [lia | by right |].
    destruct (Seek_reading s offset origin p Hs Ew Ht Hb Ha) as (i & Hi & E).
    pose proof (keeps_inner s i Hs Hi) as K. pose proof K as (Hr & Ev & _).
    assert (Ei : view i = inner_view s) by apply Hi.
    unfold fails. rewrite E. unfold seek_end, on_inner. apply fails_bind_left, fails_within.
    eapply fails_weaken.
    { eapply (Seek_before_law i _ origin p); [apply Hi | | | done]; rewrite Ei.
      - by apply adjusted_target.
      - by apply Hx. }
    cbn beta. intros j Hj. cbn. rewrite Ei in Hj.
    apply (keeps_inner s j Hs). destruct Hi as (_ & _ & Hw), Hj as (? & ? & Hw').
    split; [done|]. split; [done | congruence].
  - unfold fails. rewrite Seek_pending by (done || lia).
    eapply fails_bind; [by apply flushWrite_runs|]. cbn beta. intros _ t (K & _ & Hq).
    pose proof K as (Hr & Ev & _). specialize (Hq ltac:(lia)). pose proof Hr as [].
    rewrite quiet_view in Ev by done. rewrite <- Ev in Ht, Ho. unfold on_inner. apply fails_within.
    eapply fails_weaken; [by eapply Seek_before_law|]. cbn beta. intros j Hj.
    eapply keeps_trans; [exact K|]. rewrite <- Ev, <- (quiet_view t) by done.
    by apply keeps_inner.
Qed.

Lemma setPosition_runs s p : BufferedStream_ready s -> 0 <= p <= INTCS_MAX ->
  runs (setPositionProperty p) s (fun _ t => keeps s t (moved_to (BufferedStream_view s) p)).
Proof.
  intros Hs Hp. unfold setPositionProperty. run; [lia|].
  eapply runs_bind; [eapply (Seek_runs s p Begin p); done || lia|].
  cbn beta. intros r t (_ & K). run. done.
Qed.

Lemma SetLength_runs s n : BufferedStream_ready s -> writes_inner s = true -> 0 <= n <= INTCS_MAX ->
  runs (SetLength n) s (fun _ t => keeps s t (resized (BufferedStream_view s) n)).
Proof.
  intros Hs Hw Hn. pose proof Hs as []. destruct (ready_can _ (inner_ready s Hs)) as (_ & Hc).
  unfold SetLength. run; [lia|]. apply step_not_closed; [done|]. run; [by rewrite Hc| |].
  { unfold writes_inner in Hw. cbn. by rewrite Hw. }
  eapply runs_bind; [by apply Flush_runs|]. cbn beta. intros _ t (K & Hq).
  pose proof K as (Ht & Ev & _ & _ & Ew). pose proof Ht as [].
  apply runs_within. eapply runs_weaken.
  { apply SetLength_law; [done | | done]. unfold writes_inner in *. congruence. }
  cbn beta. intros _ j (Hj & Hv & Hw'). rewrite quiet_view in Ev by done.
  eapply keeps_trans; [exact K|]. rewrite <- Ev. fold (inner_view t) in Hv. rewrite <- Hv.
  by apply (quiet_keeps t (set_inner j t)).
Qed.

(** ** Closing *)

(** [Close] empties the buffer; then it closes the inner stream if it owns it. *)
Lemma Close_exact s : BufferedStream_ready s ->
  exists t, keeps s t (BufferedStream_view s) /\ quiet t /\
  Close s = if ownsStream_ s
            then let (r, j) := Stream.Close (inner_ t) in (r, set_inner j (set_closed t))
            else (Ok tt, set_closed t).
Proof.
  intros Hs. destruct (Flush_runs s Hs) as ([] & t & E & K & Hq). exists t.
  split; [done|]. split; [done|]. pose proof K as (_ & _ & _ & Eo & _). destruct Hs as [Ho].
  unfold Close. rewrite Ho, E. unfold finish, andthen, modify, gets. cbn. rewrite Eo.
  by destruct (ownsStream_ s).
Qed.

(** ** Ownership never changes *)

#[local] Hint Extern 1 (_ = _) => reflexivity : leaves.

Lemma owner_on_inner {A} (m : cmd S A) : leaves ownsStream_ (on_inner m).
Proof. by apply leaves_within. Qed.
Lemma owner_checked : leaves (@ownsStream_ S) ensureNotClosed.
Proof. by intros s. Qed.
#[local] Hint Resolve owner_on_inner owner_checked : leaves.

Lemma owner_allocated : leaves (@ownsStream_ S) ensureBufferAllocated.
Proof. unfold ensureBufferAllocated. auto with leaves. Qed.
Lemma owner_flushWrite : leaves (@ownsStream_ S) flushWrite.
Proof. unfold flushWrite. auto with leaves. Qed.
Lemma owner_flushRead : leaves (@ownsStream_ S) flushRead.
Proof. unfold flushRead. auto 7 with leaves. Qed.
#[local] Hint Resolve owner_allocated owner_flushWrite owner_flushRead : leaves.

Lemma owner_clearRead : leaves (@ownsStream_ S) clearReadBufferBeforeWrite.
Proof. unfold clearReadBufferBeforeWrite. auto 7 with leaves. Qed.
Lemma owner_write_loop fuel a : forall offset count,
  leaves (@ownsStream_ S) (write_loop fuel a offset count).
Proof.
  induction fuel as [|fuel IH]; intros offset count; cbn [write_loop]; auto 15 with leaves.
Qed.
Lemma owner_readFromBuffer offset count :
  leaves (fun x => @ownsStream_ S (snd x)) (readFromBuffer offset count).
Proof. unfold readFromBuffer. auto 12 with leaves. Qed.
Lemma owner_read_inner offset count :
  leaves (fun x => @ownsStream_ S (snd x)) (read_inner offset count).
Proof. by apply leaves_within. Qed.
Lemma owner_fill : leaves (@ownsStream_ S) fill_buffer.
Proof. apply leaves_andthen; [done|]. intros s. by apply leaves_within. Qed.
Lemma owner_position : leaves (@ownsStream_ S) getPositionProperty.
Proof. unfold getPositionProperty. auto 12 with leaves. Qed.
#[local] Hint Resolve owner_clearRead owner_write_loop owner_readFromBuffer owner_read_inner
  owner_fill owner_position : leaves.

Lemma owner_Read offset count : leaves (fun x => @ownsStream_ S (snd x)) (Read offset count).
Proof. unfold Read. auto 20 with leaves. Qed.
Lemma owner_Write a offset count : leaves (@ownsStream_ S) (Write a offset count).
Proof. unfold Write. auto 12 with leaves. Qed.
Lemma owner_WriteByte v : leaves (@ownsStream_ S) (WriteByte v).
Proof. unfold WriteByte. auto 15 with leaves. Qed.
Lemma owner_Flush : leaves (@ownsStream_ S) Flush.
Proof. unfold Flush. auto 12 with leaves. Qed.
Lemma owner_Seek offset origin : leaves (@ownsStream_ S) (Seek offset origin).
Proof. unfold Seek. auto 20 with leaves. Qed.
#[local] Hint Resolve owner_Read owner_Flush owner_Seek : leaves.
Lemma owner_SetLength n : leaves (@ownsStream_ S) (SetLength n).
Proof. unfold SetLength. auto 12 with leaves. Qed.
Lemma owner_length : leaves (@ownsStream_ S) getLengthProperty.
Proof. unfold getLengthProperty. auto 12 with leaves. Qed.
Lemma owner_setPosition p : leaves (@ownsStream_ S) (setPositionProperty p).
Proof. unfold setPositionProperty. auto 12 with leaves. Qed.

(** ** The instances *)

Lemma view_length s : BufferedStream_ready s ->
  length (bytes (BufferedStream_view s)) <= INTCS_MAX.
Proof.
  intros Hs. pose proof (position_inner s Hs) as Hi. pose proof (view_position_bounds s Hs) as Hp.
  destruct (decide (writePos_ s = 0)) as [Ew|Ew]; [rewrite reading_view by done; apply Hi|].
  pose proof (length_pending s Hs) as El. pose proof Hs as [].
  destruct (pending_view s Hs ltac:(lia)) as (Ev & _ & _ & _ & Hb). rewrite Ev, written_length.
  - lia.
  - lia.
  - intros E. rewrite E in El. cbn in El. lia.
Qed.

Lemma keeps_becomes s t f : BufferedStream_ready s -> keeps s t f ->
  BufferedStream_ready t /\ BufferedStream_view t = f /\
  getCanWriteProperty t = getCanWriteProperty s.
Proof.
  intros [Ho] (Ht & Ev & _ & _ & Ew). split; [done|]. split; [done|].
  unfold getCanWriteProperty, writes_inner in *. destruct Ht as [Ho']. by rewrite Ho, Ho', Ew.
Qed.

Lemma writable s : BufferedStream_ready s -> getCanWriteProperty s = true -> writes_inner s = true.
Proof. intros [Ho]. unfold getCanWriteProperty. by rewrite Ho. Qed.

End Laws.

#[export] Hint Resolve owner_Read owner_Write owner_WriteByte owner_Flush owner_Seek
  owner_SetLength owner_length owner_setPosition owner_position : leaves.

Section Instances.
Context {S : Type} `{SeekableStream S}.
Import BufferedStream.

#[export, refine] Instance BufferedStream_Seekable : SeekableStream (buffered S) := {|
  ready := BufferedStream_ready; view := BufferedStream_view
|}.
Proof.
  - intros s Hs. split; [by apply view_position_bounds | by apply view_length].
  - intros s Hs. destruct (ready_can _ (inner_ready s Hs)) as (E1 & E2). cbn.
    unfold getCanReadProperty, getCanSeekProperty. by rewrite (open s Hs), E1, E2.
  - intros s l offset count Hs R. eapply runs_weaken; [by apply Read_runs|].
    cbn beta. intros n [a t] (Hd & K & _). split; [done|]. by apply keeps_becomes.
  - intros s l offset count w Hs Hw Hl Hf Hp. eapply runs_weaken.
    { apply Write_runs; try done. by apply writable. }
    cbn beta. intros _ t K. by apply keeps_becomes.
  - intros s v Hs Hw _ Hp. eapply runs_weaken; [apply WriteByte_runs; [done | by apply writable | done]|].
    cbn beta. intros _ t K. by apply keeps_becomes.
  - intros s Hs. eapply runs_weaken; [by apply getLength_runs|].
    cbn beta. intros n t (-> & K). split; [done|]. by apply keeps_becomes.
  - intros s Hs. eapply runs_weaken; [by apply getPosition_runs|].
    cbn beta. intros p t (-> & i & -> & Hi). split; [done|]. by apply keeps_becomes, keeps_inner.
  - intros s p Hs Hp. eapply runs_weaken; [by apply setPosition_runs|].
    cbn beta. intros _ t K. by apply keeps_becomes.
  - intros s offset origin p Hs Ht Ho Hp. eapply runs_weaken; [by eapply Seek_runs|].
    cbn beta. intros r t (-> & K). split; [done|]. by apply keeps_becomes.
  - intros s offset origin p Hs Ht Ho Hp. eapply fails_weaken; [by eapply Seek_before_fails|].
    cbn beta. intros t K. by apply keeps_becomes.
  - intros s n Hs Hw Hn. eapply runs_weaken; [apply SetLength_runs; [done | by apply writable | done]|].
    cbn beta. intros _ t K. by apply keeps_becomes.
  - intros s Hs. apply (Stream_ReadByte_runs Read s (BufferedStream_view s)
      (fun t f => BufferedStream_ready t /\ BufferedStream_view t = f /\
                  getCanWriteProperty t = getCanWriteProperty s)).
    { by apply view_position_bounds. }
    eapply runs_weaken; [by apply Read_runs|]. cbn beta. intros n [a t] (Hd & K & _).
    split; [done|]. by apply keeps_becomes.
  - intros s Hs. eapply runs_weaken; [by apply Flush_runs|].
    cbn beta. intros _ t (K & _). by apply keeps_becomes.
Defined.

#[export] Instance BufferedStream_Exact `{!ExactReads S} : ExactReads (buffered S).
Proof.
  intros s l offset count Hs R. eapply runs_weaken; [by apply Read_runs|].
  cbn beta. intros n [a t] (_ & _ & Hx). apply Hx. exact Read_exact.
Qed.

End Instances.
