(* ===== verification/StreamClient.v ===== *)
(** * Clients of a stream

    What a client can tell of a stream: the answers to a sequence of requests.  Every
    exact seekable stream answers the covered sequences like the file it stands for, so
    a buffered stream answers them like the stream it wraps, and hands that stream
    everything on [Close]. *)

From S2P Require Export MemoryStream BufferedLaws.

#[local] Coercion Z.of_nat : nat >-> Z.

Inductive request :=
  | Asks_Read (count : Z) | Asks_ReadByte | Asks_Write (w : list Z) | Asks_WriteByte (v : Z)
  | Asks_Seek (offset : Z) (origin : SeekOrigin) | Asks_setPosition (p : Z)
  | Asks_SetLength (n : Z) | Asks_Flush | Asks_Length | Asks_Position.

Inductive answer :=
  | Bytes (l : list Z) | Number (z : Z) | Done | Thrown (e : exn).

#[export] Instance answer_eq_dec : EqDecision answer.
Proof. solve_decision. Defined.

Section Client.
Context {S : Type} `{Stream S}.

(** An exception is an answer; undefined behaviour stays. *)
Definition answers {A} (m : cmd S A) (f : A -> answer) : cmd S answer := fun s =>
  match m s with
  | (Ok a, s) => (Ok (f a), s)
  | (Throw e, s) => (Ok (Thrown e), s)
  | (UB, s) => (UB, s)
  end.

(** [Read] into an array of the client's. *)
Definition read_bytes (count : Z) : cmd S (list Z) := fun s =>
  match Read 0 count (Some (replicate (Z.to_nat count) 0), s) with
  | (Ok n, (a, s)) => (fetch a 0 n, s)
  | (Throw e, (_, s)) => (Throw e, s)
  | (UB, (_, s)) => (UB, s)
  end.

Definition serve (r : request) : cmd S answer :=
  match r with
  | Asks_Read count => answers (read_bytes count) Bytes
  | Asks_ReadByte => answers ReadByte Number
  | Asks_Write w => answers (Write (Some w) 0 (length w)) (fun _ => Done)
  | Asks_WriteByte v => answers (WriteByte v) (fun _ => Done)
  | Asks_Seek offset origin => answers (Seek offset origin) Number
  | Asks_setPosition p => answers (setPositionProperty p) (fun _ => Done)
  | Asks_SetLength n => answers (SetLength n) (fun _ => Done)
  | Asks_Flush => answers Flush (fun _ => Done)
  | Asks_Length => answers getLengthProperty Number
  | Asks_Position => answers getPositionProperty Number
  end.

Fixpoint serve_all (rs : list request) : cmd S (list answer) :=
  match rs with
  | [] => ret []
  | r :: rs => a <== serve r ;; l <== serve_all rs ;; ret (a :: l)
  end.

End Client.

(** ** The file's answers *)

Definition file_serve (r : request) (f : file) : answer * file :=
  match r with
  | Asks_Read count =>
      let got := take (Z.to_nat count) (rest f) in
      (Bytes got, moved_to f (position f + length got))
  | Asks_ReadByte =>
      match rest f with
      | [] => (Number (-1), f)
      | v :: _ => (Number v, moved_to f (position f + 1))
      end
  | Asks_Write w => (Done, written f w)
  | Asks_WriteByte v => (Done, written f [v])
  | Asks_Seek offset origin =>
      match target f offset origin with
      | Some p => if p <? 0 then (Thrown before_beginning, f) else (Number p, moved_to f p)
      | None => (Done, f)
      end
  | Asks_setPosition p => (Done, moved_to f p)
  | Asks_SetLength n => (Done, resized f n)
  | Asks_Flush => (Done, f)
  | Asks_Length => (Number (length (bytes f)), f)
  | Asks_Position => (Number (position f), f)
  end.

Fixpoint file_serve_all (rs : list request) (f : file) : list answer * file :=
  match rs with
  | [] => ([], f)
  | r :: rs => let (a, f) := file_serve r f in
               let (l, f) := file_serve_all rs f in (a :: l, f)
  end.

(** The requests the promise covers: sizes, offsets and positions that an [int] holds,
    not negative but for the offset of a seek, known origins, writes on a writable
    stream, and a single byte where there is no gap before it.  A seek before the
    beginning is covered while the bytes left can be taken off its offset. *)
Definition covered (writes : bool) (r : request) (f : file) : bool :=
  match r with
  | Asks_Read count => (0 <=? count) && (count <=? INTCS_MAX)
  | Asks_Write w => writes && (length w <=? INTCS_MAX) && (position f + length w <=? INTCS_MAX)
  | Asks_WriteByte _ => writes && (position f <=? length (bytes f)) && (position f <? INTCS_MAX)
  | Asks_Seek offset origin =>
      match target f offset origin with
      | Some p => (p <=? INTCS_MAX) && (INTCS_MIN <=? offset) &&
                  ((0 <=? p) || (INTCS_MIN + length (rest f) <=? offset))
      | None => false
      end
  | Asks_setPosition p => (0 <=? p) && (p <=? INTCS_MAX)
  | Asks_SetLength n => writes && (0 <=? n) && (n <=? INTCS_MAX)
  | Asks_ReadByte | Asks_Flush | Asks_Length | Asks_Position => true
  end.

Fixpoint covered_all (writes : bool) (rs : list request) (f : file) : bool :=
  match rs with
  | [] => true
  | r :: rs => covered writes r f && covered_all writes rs (snd (file_serve r f))
  end.

(** ** Lemmas *)

Section Exact.
Context {S : Type} `{ExactReads S}.
Implicit Types (s : S) (f : file).

Lemma answers_runs {A} (m : cmd S A) (g : A -> answer) s a f :
  runs m s (fun x s' => g x = a /\ becomes s s' f) ->
  runs (answers m g) s (fun x s' => x = a /\ becomes s s' f).
Proof. intros (x & s' & E & <- & Hb). exists (g x), s'. unfold answers. by rewrite E. Qed.

Lemma answers_fails {A} (m : cmd S A) (g : A -> answer) s e f :
  fails m s e (fun s' => becomes s s' f) ->
  runs (answers m g) s (fun x s' => x = Thrown e /\ becomes s s' f).
Proof. intros (s' & E & Hb). exists (Thrown e), s'. unfold answers. by rewrite E. Qed.

Lemma read_bytes_runs s count : ready s -> 0 <= count <= INTCS_MAX ->
  let got := take (Z.to_nat count) (rest (view s)) in
  runs (read_bytes count) s (fun l s' =>
    l = got /\ becomes s s' (moved_to (view s) (position (view s) + length got))).
Proof.
  intros Hs Hc got. set (l := replicate (Z.to_nat count) 0).
  assert (R : range_of l 0 count) by (unfold range_of, l; rewrite length_replicate; lia).
  destruct (runs_both _ _ _ _ (Read_law s l 0 count Hs R) (Read_exact s l 0 count Hs R))
    as (n & [a s'] & E & ((Hn & Hl & Es & _) & Hb) & En).
  destruct R as (_ & _ & R).
  assert (Eg : take (Z.to_nat n) (rest (view s)) = got).
  { unfold got. destruct (decide (count <= length (rest (view s)))).
    - f_equal. lia.
    - rewrite !take_ge by lia. done. }
  assert (El : Z.of_nat (length got) = n) by (rewrite <- Eg, length_take; lia).
  exists got, s'. unfold read_bytes. fold l. rewrite E. rewrite Eg, store_Ok in Es by lia.
  injection Es as <-. cbn [take app Z.to_nat]. split; [|by rewrite El].
  rewrite fetch_Ok; [|lia|lia|].
  - rewrite drop_0, take_app_le, take_ge by lia. done.
  - rewrite length_app, length_drop. lia.
Qed.

Lemma serve_runs s r : ready s -> covered (getCanWriteProperty s) r (view s) = true ->
  runs (serve r) s (fun a s' =>
    a = fst (file_serve r (view s)) /\ becomes s s' (snd (file_serve r (view s)))).
Proof.
  intros Hs Hc. destruct r; cbn [serve file_serve covered] in *;
    lazymatch goal with |- runs (answers (Seek _ _) _) _ _ => idtac | _ => apply answers_runs end.
  - bool_to_prop. eapply runs_weaken; [by apply read_bytes_runs|]. cbn. intros ? ? (-> & ?). done.
  - eapply runs_weaken; [by apply ReadByte_law|]. cbn. intros b s'.
    destruct (rest (view s)); intros (-> & ?); done.
  - bool_to_prop. eapply runs_weaken.
    { apply (Write_law s w 0 (length w) w); try done.
      rewrite fetch_Ok, Nat2Z.id, drop_0, firstn_all by lia. done. }
    done.
  - bool_to_prop. eapply runs_weaken; [by apply WriteByte_law|]. done.
  - destruct (target (view s) offset origin) as [p|] eqn:Et; [|done].
    apply andb_true_iff in Hc as [Hc Hd]. apply andb_true_iff in Hc as [Hp Ho].
    apply orb_true_iff in Hd. rewrite !Z.leb_le in *. destruct (p <? 0) eqn:Ep; bool_to_prop.
    + apply answers_fails. eapply Seek_before_law; [done | exact Et | lia | done].
    + apply answers_runs. eapply runs_weaken; [eapply Seek_law; [done | exact Et | lia | lia]|].
      cbn. intros ? ? (-> & ?). done.
  - bool_to_prop. eapply runs_weaken; [by apply setPosition_law|]. done.
  - bool_to_prop. eapply runs_weaken; [by apply SetLength_law|]. done.
  - eapply runs_weaken; [by apply Flush_law|]. done.
  - eapply runs_weaken; [by apply getLength_law|]. cbn. intros ? ? (-> & ?). done.
  - eapply runs_weaken; [by apply getPosition_law|]. cbn. intros ? ? (-> & ?). done.
Qed.

Lemma serve_all_runs rs : forall s, ready s ->
  covered_all (getCanWriteProperty s) rs (view s) = true ->
  runs (serve_all rs) s (fun l s' =>
    l = fst (file_serve_all rs (view s)) /\ becomes s s' (snd (file_serve_all rs (view s)))).
Proof.
  induction rs as [|r rs IH]; intros s Hs Hc; cbn [serve_all file_serve_all covered_all] in *.
  { by apply runs_ret. }
  apply andb_true_iff in Hc as [Hc Hcs].
  eapply runs_bind; [by apply serve_runs|]. cbn beta. intros a s' (-> & Hs' & Ev & Ew).
  destruct (file_serve r (view s)) as [a f] eqn:E. cbn [fst snd] in *. rewrite <- Ev, <- Ew in Hcs.
  eapply runs_bind; [by apply IH|]. cbn beta. intros l t (-> & Ht & Ev' & Ew'). rewrite Ev in *.
  destruct (file_serve_all rs f) as [l g]. run. split; [done|]. split; [done|]. split; [done | congruence].
Qed.

End Exact.

(** ** What a client can tell *)

(** The object keeps or gives up its inner stream as it was told when it was made. *)
Section Owner.
Context {S : Type} `{Stream S}.
Import BufferedStream.

Lemma owner_answers {A} (m : cmd (buffered S) A) g : leaves ownsStream_ m -> leaves ownsStream_ (answers m g).
Proof. intros Hm s. specialize (Hm s). unfold answers. by destruct (m s) as [[] ?]. Qed.

Lemma owner_read_bytes count : leaves ownsStream_ (read_bytes (S := buffered S) count).
Proof.
  intros s. unfold read_bytes. cbn [Stream.Read BufferedStream_Stream].
  pose proof (owner_Read 0 count (Some (replicate (Z.to_nat count) 0), s)) as E.
  by destruct (Read _ _ _) as [[] [? ?]].
Qed.

Lemma owner_ReadByte : leaves ownsStream_ (Stream.ReadByte (S := buffered S)).
Proof.
  intros s. cbn [Stream.ReadByte BufferedStream_Stream]. unfold Stream_ReadByte.
  pose proof (owner_Read 0 1 (Some [0], s)) as E.
  by destruct (Read _ _ _) as [[] [? ?]].
Qed.

Lemma owner_serve_all rs : leaves (@ownsStream_ S) (serve_all rs).
Proof.
  induction rs as [|r rs IH]; [done|]. apply leaves_andthen; [|auto with leaves].
  destruct r; apply owner_answers; try apply owner_read_bytes; try apply owner_ReadByte;
    cbn; auto with leaves.
Qed.
End Owner.


(** Ten bytes in memory behind a buffer of four. *)
Definition ten : MemoryStream.memory :=
  MemoryStream.Memory (map Z.of_nat (seq 1 10)) 0 true true.
Definition session : list request :=
  [Asks_Read 2; Asks_WriteByte 77; Asks_Position; Asks_Write [8; 8; 8; 8; 8; 8]; Asks_Seek (-7) Current;
   Asks_Read 4; Asks_Seek (-3) Current; Asks_ReadByte; Asks_Seek (-99) End_; Asks_setPosition 12;
   Asks_Write [9]; Asks_Length; Asks_SetLength 11; Asks_Position; Asks_ReadByte].


(** A single byte past the end is where a stream and its buffered form part ways: in
    memory it goes to the end, through a buffer it goes to the position. *)
Lemma WriteByte_past_the_end :
  let s := MemoryStream.Memory [1; 2] 5 true true in
  fst (serve_all [Asks_WriteByte 7; Asks_setPosition 0; Asks_Read 9] s) = Ok [Done; Done; Bytes [1; 2; 7]] /\
  fst (serve_all [Asks_WriteByte 7; Asks_setPosition 0; Asks_Read 9]
         (BufferedStream.Buffered s true 4 false [] 0 0 0)) =
    Ok [Done; Done; Bytes [1; 2; 0; 0; 0; 7]].
Proof. by vm_compute. Qed.

(** [Seek] adds two [int]s. *)
Lemma Seek_overflows :
  fst (serve_all [Asks_setPosition INTCS_MAX; Asks_Seek 1 Current] ten) = UB.
Proof. by vm_compute. Qed.
