(* ===== verification/BinaryWriter.v ===== *)
(** * BinaryWriter

    [io/include/System/IO/BinaryWriter.hpp] and [BinaryWriter.cpp]: primitive values
    as little-endian bytes on any stream.  A [Single] or [double] is the bits of its
    representation, a [std::string] the list of its bytes. *)

From S2P Require Export Stream.

#[local] Coercion Z.of_nat : nat >-> Z.

Module BinaryWriter.

Record writer (S : Type) := Writer { stream_ : S; leaveOpen_ : bool; disposed_ : bool }.
Arguments Writer {S}.
Arguments stream_ {S}.
Arguments leaveOpen_ {S}.
Arguments disposed_ {S}.

Section BinaryWriter.
Context {S : Type} `{Stream S}.

Definition set_stream (i : S) (w : writer S) : writer S := Writer i (leaveOpen_ w) (disposed_ w).
Definition set_disposed (w : writer S) : writer S := Writer (stream_ w) (leaveOpen_ w) true.

(** A call through [stream_]. *)
Definition on_stream {A} (m : cmd S A) : cmd (writer S) A := within stream_ set_stream m.

(** The constructor; [stream = None] is a null pointer. *)
Definition make (stream : option S) (leaveOpen : bool) : res (writer S) :=
  match stream with
  | None => Throw (null_argument "stream")
  | Some stream =>
      _ <- throw_if (negb (getCanWriteProperty stream))
             (ArgumentException "Stream was not writable." EmptyString) ;;
      Ok (Writer stream leaveOpen false)
  end.

Definition ThrowIfDisposed : cmd (writer S) unit := fun w =>
  lift (throw_if (disposed_ w)
    (ObjectDisposedMessage "BinaryWriter" "Cannot access a closed file.")) w.

Definition WriteBytes (buf : array) (count : Z) : cmd (writer S) unit :=
  ThrowIfDisposed ;;;
  on_stream (Stream.Write buf 0 count).

Definition Write_byte (value : Z) : cmd (writer S) unit := WriteBytes (Some [value]) 1.
Definition Write_sbyte (value : Z) : cmd (writer S) unit := WriteBytes (Some [u8 value]) 1.

(** [static_cast<bytecs>((value >> n) & 0xFF)] *)
Definition byte_at (value n : Z) : Z := u8 (Z.land (sshr value n) 0xFF).

Definition Write_short (value : Z) : cmd (writer S) unit :=
  WriteBytes (Some [byte_at value 0; byte_at value 8]) 2.
Definition Write_ushort (value : Z) : cmd (writer S) unit := Write_short (wraps 16 value).

Definition Write_int (value : Z) : cmd (writer S) unit :=
  WriteBytes (Some [byte_at value 0; byte_at value 8; byte_at value 16; byte_at value 24]) 4.
Definition Write_uint (value : Z) : cmd (writer S) unit := Write_int (i32 value).

Definition Write_long (value : Z) : cmd (writer S) unit :=
  WriteBytes (Some (map (fun i : nat => byte_at value (i * 8)) (seq 0 8))) 8.
Definition Write_ulong (value : Z) : cmd (writer S) unit := Write_long (i64 value).

Definition Write_Single (bits : Z) : cmd (writer S) unit := Write_uint bits.
Definition Write_double (bits : Z) : cmd (writer S) unit := Write_ulong bits.

Definition Write_bool (value : bool) : cmd (writer S) unit :=
  WriteBytes (Some [if value then 1 else 0]) 1.

(** The loop of [Write7BitEncodedInt]: 32 bits are at most five groups of seven. *)
Fixpoint write_groups (fuel : nat) (uValue : Z) : cmd (writer S) unit :=
  match fuel with
  | O => lift UB
  | Datatypes.S fuel =>
      if uValue >? 0x7F then
        Write_byte (u8 (Z.lor uValue (unot 32 0x7F))) ;;;
        write_groups fuel (Z.shiftr uValue 7)
      else Write_byte (u8 uValue)
  end.

Definition Write7BitEncodedInt (value : Z) : cmd (writer S) unit := write_groups 5 (u32 value).

Definition Write_string (value : list Z) : cmd (writer S) unit :=
  Write7BitEncodedInt (i32 (length value)) ;;;
  WriteBytes (Some value) (i32 (length value)).

Definition Write_array (buffer : array) (offset count : Z) : cmd (writer S) unit :=
  ThrowIfDisposed ;;;
  on_stream (Stream.Write buffer offset count).

Definition Flush : cmd (writer S) unit :=
  ThrowIfDisposed ;;;
  on_stream Stream.Flush.

(** What [Close] and the destructor do to the stream. *)
Definition release : cmd (writer S) unit :=
  w <== gets id ;;
  if leaveOpen_ w then on_stream Stream.Flush else on_stream Stream.Close.

Definition Close : cmd (writer S) unit :=
  w <== gets id ;;
  when (negb (disposed_ w)) (release ;;; modify set_disposed).

(** The destructor; an exception that leaves it ends the program. *)
Definition destroy : cmd (writer S) unit :=
  w <== gets id ;;
  when (negb (disposed_ w)) release.

End BinaryWriter.

End BinaryWriter.
