(* ===== verification/BinaryReader.v ===== *)
(** * BinaryReader

    [io/include/System/IO/BinaryReader.hpp] and [BinaryReader.cpp]: primitive values,
    strings and UTF-16 code units from the bytes of any stream.  The arrays the members
    read into are locals or the caller's. *)

From S2P Require Export Stream Decimal.

#[local] Coercion Z.of_nat : nat >-> Z.

Module BinaryReader.

Record reader (S : Type) := Reader {
  stream_ : S; leaveOpen_ : bool; disposed_ : bool;
  hasPendingCharacter_ : bool; pendingCharacter_ : Z
}.
Arguments Reader {S}.
Arguments stream_ {S}.
Arguments leaveOpen_ {S}.
Arguments disposed_ {S}.
Arguments hasPendingCharacter_ {S}.
Arguments pendingCharacter_ {S}.

Section BinaryReader.
Context {S : Type} `{Stream S}.

Definition set_stream (i : S) (r : reader S) : reader S :=
  Reader i (leaveOpen_ r) (disposed_ r) (hasPendingCharacter_ r) (pendingCharacter_ r).
Definition set_disposed (r : reader S) : reader S :=
  Reader (stream_ r) (leaveOpen_ r) true (hasPendingCharacter_ r) (pendingCharacter_ r).
Definition set_pending (b : bool) (c : Z) (r : reader S) : reader S :=
  Reader (stream_ r) (leaveOpen_ r) (disposed_ r) b c.

(** Calls through [stream_]. *)
Definition on_stream {A} (m : cmd S A) : cmd (reader S) A := within stream_ set_stream m.
Definition stream_read (offset count : Z) : cmd (array * reader S) Z :=
  within (fun x => (fst x, stream_ (snd x))) (fun y x => (fst y, set_stream (snd y) (snd x)))
    (Stream.Read offset count).

(** A member with a local array of [n] elements. *)
Definition with_local {A} (n : Z) (m : cmd (array * reader S) A) : cmd (reader S) (A * list Z) := fun r =>
  match m (Some (replicate (Z.to_nat n) 0), r) with
  | (Ok a, (b, r)) => (Ok (a, default [] b), r)
  | (Throw e, (_, r)) => (Throw e, r)
  | (UB, (_, r)) => (UB, r)
  end.

(** The constructor; [stream = None] is a null pointer. *)
Definition make (stream : option S) (leaveOpen : bool) : res (reader S) :=
  match stream with
  | None => Throw (null_argument "stream")
  | Some stream =>
      _ <- throw_if (negb (getCanReadProperty stream))
             (ArgumentException "Stream was not readable." EmptyString) ;;
      Ok (Reader stream leaveOpen false false 0)
  end.

Definition destroy : cmd (reader S) unit :=
  r <== gets id ;;
  when (negb (disposed_ r) && negb (leaveOpen_ r)) (on_stream Stream.Close).

Definition ThrowIfDisposed : cmd (reader S) unit := fun r =>
  lift (throw_if (disposed_ r)
    (ObjectDisposedMessage "BinaryReader" "Cannot access a closed file.")) r.

Definition end_of_stream : exn := EndOfStreamException "Attempted to read past the end of the stream.".

(** ** Bytes *)

(** The loop of [ReadBytesExact]: a round that goes on has read a byte at least. *)
Fixpoint exact_loop (fuel : nat) (total count : Z) : cmd (array * reader S) unit :=
  match fuel with
  | O => lift UB
  | Datatypes.S fuel =>
      if total <? count then
        n <== stream_read total (count - total) ;;
        lift (throw_if (n =? 0) end_of_stream) ;;;
        total <== lift (sadd 32 total n) ;;
        exact_loop fuel total count
      else ret tt
  end.

Definition ReadBytesExact (count : Z) : cmd (array * reader S) unit :=
  on_object ThrowIfDisposed ;;;
  exact_loop (Z.to_nat count + 1) 0 count.

(** [bytecs buf[n]; ReadBytesExact(buf, n);] *)
Definition read_exactly (n : Z) : cmd (reader S) (list Z) :=
  x <== with_local n (ReadBytesExact n) ;; ret (snd x).

Definition ReadByte : cmd (reader S) Z := buf <== read_exactly 1 ;; ret (nth 0 buf 0).
Definition ReadSByte : cmd (reader S) Z := b <== ReadByte ;; ret (wraps 8 b).

Definition ReadInt16 : cmd (reader S) Z :=
  buf <== read_exactly 2 ;;
  ret (wraps 16 (Z.lor (nth 0 buf 0) (Z.shiftl (nth 1 buf 0) 8))).
Definition ReadUInt16 : cmd (reader S) Z := v <== ReadInt16 ;; ret (wrapu 16 v).

Definition ReadInt32 : cmd (reader S) Z :=
  buf <== read_exactly 4 ;;
  ret (i32 (Z.lor (Z.lor (Z.lor (nth 0 buf 0) (ushl 32 (nth 1 buf 0) 8))
                         (ushl 32 (nth 2 buf 0) 16)) (ushl 32 (nth 3 buf 0) 24))).
Definition ReadUInt32 : cmd (reader S) Z := v <== ReadInt32 ;; ret (u32 v).

Definition ReadInt64 : cmd (reader S) Z :=
  lo <== ReadUInt32 ;;
  hi <== ReadUInt32 ;;
  ret (i64 (Z.lor (ushl 64 hi 32) lo)).
Definition ReadUInt64 : cmd (reader S) Z := v <== ReadInt64 ;; ret (u64 v).

(** The bits of the floating-point values. *)
Definition ReadSingle : cmd (reader S) Z := ReadUInt32.
Definition ReadDouble : cmd (reader S) Z := ReadUInt64.

Definition ReadBoolean : cmd (reader S) bool := b <== ReadByte ;; ret (negb (b =? 0)).

(** ** Characters *)

(** The lead byte: the bits of the code point, the least code point of the length, and
    the number of continuation bytes. *)
Definition lead_byte (lead : Z) : option (Z * Z * nat) :=
  if Z.land lead 0x80 =? 0x00 then Some (lead, 0, 0%nat)
  else if (lead >=? 0xC2) && (lead <=? 0xDF) then Some (Z.land lead 0x1F, 0x80, 1%nat)
  else if (lead >=? 0xE0) && (lead <=? 0xEF) then Some (Z.land lead 0x0F, 0x800, 2%nat)
  else if (lead >=? 0xF0) && (lead <=? 0xF4) then Some (Z.land lead 0x07, 0x10000, 3%nat)
  else None.

Definition bad_lead : exn := FormatException "Invalid UTF-8 lead byte while reading a char.".
Definition bad_continuation : exn := FormatException "Invalid UTF-8 continuation byte while reading a char.".
Definition bad_scalar : exn := FormatException "Invalid UTF-8 scalar value while reading a char.".

Fixpoint continue (n : nat) (codepoint : Z) : cmd (reader S) Z :=
  match n with
  | O => ret codepoint
  | Datatypes.S n =>
      raw <== on_stream Stream.ReadByte ;;
      lift (throw_if (raw <? 0) end_of_stream) ;;;
      let continuation := u8 raw in
      lift (throw_if (negb (Z.land continuation 0xC0 =? 0x80)) bad_continuation) ;;;
      continue n (Z.lor (ushl 32 codepoint 6) (Z.land continuation 0x3F))
  end.

(** [None] is the answer [false], at the end of the stream. *)
Definition TryReadChar : cmd (reader S) (option Z) :=
  ThrowIfDisposed ;;;
  r <== gets id ;;
  if hasPendingCharacter_ r then
    modify (set_pending false (pendingCharacter_ r)) ;;;
    ret (Some (pendingCharacter_ r))
  else
    rawLead <== on_stream Stream.ReadByte ;;
    if rawLead <? 0 then ret None
    else
      let lead := u8 rawLead in
      match lead_byte lead with
      | None => lift (Throw bad_lead)
      | Some (bits, minimumCodepoint, continuationBytes) =>
          codepoint <== continue continuationBytes bits ;;
          lift (throw_if ((codepoint <? minimumCodepoint) || (codepoint >? 0x10FFFF) ||
                          ((codepoint >=? 0xD800) && (codepoint <=? 0xDFFF))) bad_scalar) ;;;
          if codepoint <=? 0xFFFF then ret (Some codepoint)
          else
            let scalarOffset := usub 32 codepoint 0x10000 in
            modify (set_pending true (wrapu 16 (uadd 32 0xDC00 (Z.land scalarOffset 0x3FF)))) ;;;
            ret (Some (wrapu 16 (uadd 32 0xD800 (Z.shiftr scalarOffset 10))))
      end.

Definition ReadChar : cmd (reader S) Z :=
  c <== TryReadChar ;;
  match c with Some c => ret c | None => lift (Throw end_of_stream) end.

Definition not_seekable : exn := NotSupportedException
  "BinaryReader::PeekChar requires a seekable stream in this implementation.".

(** The [try] block and its handler put the position and the pending unit back. *)
Definition PeekChar : cmd (reader S) Z :=
  ThrowIfDisposed ;;;
  r <== gets id ;;
  lift (throw_if (negb (getCanSeekProperty (stream_ r))) not_seekable) ;;;
  originalPosition <== on_stream Stream.getPositionProperty ;;
  if hasPendingCharacter_ r then ret (pendingCharacter_ r)
  else
    n <== on_stream Stream.getLengthProperty ;;
    if originalPosition >=? n then ret (-1)
    else fun x =>
      let put_back := on_stream (Stream.setPositionProperty originalPosition) ;;;
                      modify (set_pending (hasPendingCharacter_ r) (pendingCharacter_ r)) in
      match ReadChar x with
      | (Ok c, x) => match put_back x with
                     | (Ok _, x) => (Ok c, x)
                     | (Throw e, x) => (put_back ;;; lift (Throw e)) x
                     | (UB, x) => (UB, x)
                     end
      | (Throw e, x) => (put_back ;;; lift (Throw e)) x
      | (UB, x) => (UB, x)
      end.

(** The loop of [ReadChars]; the vector as it is when the loop ends. *)
Fixpoint chars_loop (fuel : nat) (count : Z) (result : list Z) : cmd (reader S) (list Z) :=
  match fuel with
  | O => lift UB
  | Datatypes.S fuel =>
      if length result <? count then
        c <== TryReadChar ;;
        match c with
        | None => ret result
        | Some c => chars_loop fuel count (result ++ [c])
        end
      else ret result
  end.

Definition ReadChars (count : Z) : cmd (reader S) (list Z) :=
  lift (ThrowIfNegative count "count") ;;;
  ThrowIfDisposed ;;;
  if count =? 0 then ret [] else chars_loop (Z.to_nat count + 1) count [].

(** The loop of [Read] into an array of code units. *)
Fixpoint units_loop (fuel : nat) (offset total count : Z) : cmd (array * reader S) Z :=
  match fuel with
  | O => lift UB
  | Datatypes.S fuel =>
      if total <? count then
        c <== on_object TryReadChar ;;
        match c with
        | None => ret total
        | Some c =>
            i <== lift (sadd 32 offset total) ;;
            buffer <== gets fst ;;
            buffer <== lift (store buffer i [c]) ;;
            modify (fun x => (buffer, snd x)) ;;;
            units_loop fuel offset (total + 1) count
        end
      else ret total
  end.

Definition Read_chars (offset count : Z) : cmd (array * reader S) Z :=
  buffer <== gets fst ;;
  lift (throw_if (is_null buffer) (null_argument "buffer")) ;;;
  lift (ThrowIfNegative offset "offset") ;;;
  lift (ThrowIfNegative count "count") ;;;
  on_object ThrowIfDisposed ;;;
  units_loop (Z.to_nat count + 1) offset 0 count.

(** ** Integers of variable length and strings *)

Definition too_many_bytes : exn :=
  FormatException "Too many bytes in what should have been a 7-bit encoded integer.".

(** The loop over the first four bytes, from [shift] on; [inl] is a return. *)
Fixpoint groups_loop (n : nat) (shift result : Z) : cmd (reader S) (Z + Z) :=
  match n with
  | O => ret (inr result)
  | Datatypes.S n =>
      byteReadJustNow <== ReadByte ;;
      let result := Z.lor result (ushl 32 (Z.land byteReadJustNow 0x7F) shift) in
      if byteReadJustNow <=? 0x7F then ret (inl (i32 result))
      else groups_loop n (shift + 7) result
  end.

Definition Read7BitEncodedInt : cmd (reader S) Z :=
  x <== groups_loop 4 0 0 ;;
  match x with
  | inl v => ret v
  | inr result =>
      byteReadJustNow <== ReadByte ;;
      lift (throw_if (byteReadJustNow >? 15) too_many_bytes) ;;;
      ret (i32 (Z.lor result (ushl 32 byteReadJustNow 28)))
  end.

Definition string_too_long : exn := EndOfStreamException
  "BinaryReader::ReadString(): declared string length exceeds the remaining stream length.".

(** [getLengthProperty() - getPositionProperty()] *)
Definition remaining : cmd (reader S) Z :=
  n <== on_stream Stream.getLengthProperty ;;
  p <== on_stream Stream.getPositionProperty ;;
  lift (ssub 32 n p).

Definition ReadString : cmd (reader S) (list Z) :=
  length_ <== Read7BitEncodedInt ;;
  lift (throw_if (length_ <? 0) (IOException "Invalid string length.")) ;;;
  if length_ =? 0 then ret []
  else
    r <== gets id ;;
    when (getCanSeekProperty (stream_ r))
      (n <== remaining ;;
       lift (throw_if ((n >=? 0) && (length_ >? n)) string_too_long)) ;;;
    read_exactly length_.

Definition Read_array (offset count : Z) : cmd (array * reader S) Z :=
  on_object ThrowIfDisposed ;;;
  lift (ThrowIfNegative offset "offset") ;;;
  lift (ThrowIfNegative count "count") ;;;
  stream_read offset count.

(** The loop of [ReadBytes]; the number of bytes read. *)
Fixpoint bytes_loop (fuel : nat) (total allocateCount : Z) : cmd (array * reader S) Z :=
  match fuel with
  | O => lift UB
  | Datatypes.S fuel =>
      if total <? allocateCount then
        n <== stream_read total (allocateCount - total) ;;
        if n =? 0 then ret total
        else total <== lift (sadd 32 total n) ;; bytes_loop fuel total allocateCount
      else ret total
  end.

Definition ReadBytes (count : Z) : cmd (reader S) (list Z) :=
  ThrowIfDisposed ;;;
  lift (ThrowIfNegative count "count") ;;;
  if count =? 0 then ret []
  else
    r <== gets id ;;
    allocateCount <==
      (if getCanSeekProperty (stream_ r) then
         n <== remaining ;;
         ret (if (n >=? 0) && (n <? count) then n else count)
       else ret count) ;;
    x <== with_local allocateCount (bytes_loop (Z.to_nat allocateCount + 1) 0 allocateCount) ;;
    ret (if negb (fst x =? count) then vector_resize (snd x) (fst x) else snd x).

Definition Close : cmd (reader S) unit :=
  r <== gets id ;;
  when (negb (disposed_ r))
    (when (negb (leaveOpen_ r)) (on_stream Stream.Close) ;;; modify set_disposed).

Definition ReadDecimal : cmd (reader S) Decimal.Decimal :=
  lo <== ReadInt32 ;;
  mid <== ReadInt32 ;;
  hi <== ReadInt32 ;;
  flags <== ReadInt32 ;;
  let isNegative := negb (Z.land (u32 flags) 0x80000000 =? 0) in
  let scale := u8 (Z.land (Z.shiftr (u32 flags) 16) 0xFF) in
  lift (Decimal.of_parts lo mid hi isNegative scale).

End BinaryReader.

End BinaryReader.
