(* ===== verification/BinaryValues.v ===== *)
(** * Binary values

    The values a BinaryWriter writes and a BinaryReader reads, and their bytes.  The
    writer's half: each member writes the bytes of its value at the position.  The
    reader's half: on a stream that goes on with the bytes of a value, the member for
    its kind consumes them and answers the value, however short the stream's own reads
    are; on a stream that ends inside them it throws EndOfStreamException. *)

From S2P Require Export BinaryWriter BinaryReader.

#[local] Coercion Z.of_nat : nat >-> Z.

(** ** Bytes and integers *)

Lemma byte_at_mod v n : 0 <= n -> BinaryWriter.byte_at v n = v / 2 ^ n mod 256.
Proof.
  intros. unfold BinaryWriter.byte_at, u8, wrapu, sshr.
  rewrite Z.shiftr_div_pow2, (Z.land_ones _ 8) by lia. change (2 ^ 8) with 256. apply Zmod_mod.
Qed.

Lemma digit_split v m k : 0 <= m -> 0 <= k -> v mod 2 ^ (m + k) = v mod 2 ^ m + (v / 2 ^ m mod 2 ^ k) * 2 ^ m.
Proof.
  intros. rewrite Z.pow_add_r, Z.rem_mul_r by lia. lia.
Qed.

(** Joining a low part and a byte above it. *)
Lemma join_byte v m w : 0 <= m -> m + 8 <= w ->
  Z.lor (v mod 2 ^ m) (ushl w (v / 2 ^ m mod 256) m) = v mod 2 ^ (m + 8).
Proof.
  intros Hm Hw. unfold ushl. pose proof (Z.mod_pos_bound (v / 2 ^ m) 256 ltac:(lia)).
  pose proof (Z.pow_pos_nonneg 2 m ltac:(lia) Hm) as Hp.
  assert (Hr : in_u w (v / 2 ^ m mod 256 * 2 ^ m)).
  { unfold in_u. split; [lia|]. apply Z.lt_le_trans with (2 ^ (m + 8)).
    - rewrite Z.pow_add_r by lia. change (2 ^ 8) with 256. nia.
    - apply Z.pow_le_mono_r; lia. }
  rewrite Z.shiftl_mul_pow2, wrapu_id by (done || lia).
  rewrite lor_high, digit_split by (done || lia || apply Z.mod_pos_bound; lia). done.
Qed.

Definition word16 (v : Z) : list Z := [BinaryWriter.byte_at v 0; BinaryWriter.byte_at v 8].
Definition word32 (v : Z) : list Z :=
  [BinaryWriter.byte_at v 0; BinaryWriter.byte_at v 8; BinaryWriter.byte_at v 16; BinaryWriter.byte_at v 24].
Definition word64 (v : Z) : list Z := map (fun i : nat => BinaryWriter.byte_at v (i * 8)) (seq 0 8).

Lemma word16_value v :
  wraps 16 (Z.lor (nth 0 (word16 v) 0) (Z.shiftl (nth 1 (word16 v) 0) 8)) = wraps 16 v.
Proof.
  cbn [nth word16]. rewrite !byte_at_mod by lia. rewrite Z.pow_0_r, Z.div_1_r.
  pose proof (join_byte v 8 16 ltac:(lia) ltac:(lia)) as E. unfold ushl in E.
  rewrite wrapu_id in E.
  - change (v mod 256) with (v mod 2 ^ 8). rewrite E. apply (wraps_wrapu 16). lia.
  - rewrite Z.shiftl_mul_pow2 by lia. unfold in_u.
    pose proof (Z.mod_pos_bound (v / 2 ^ 8) 256 ltac:(lia)). lia.
Qed.

Lemma word32_value v :
  i32 (Z.lor (Z.lor (Z.lor (nth 0 (word32 v) 0) (ushl 32 (nth 1 (word32 v) 0) 8))
                    (ushl 32 (nth 2 (word32 v) 0) 16)) (ushl 32 (nth 3 (word32 v) 0) 24)) = i32 v.
Proof.
  cbn [nth word32]. rewrite !byte_at_mod by lia. rewrite Z.pow_0_r, Z.div_1_r.
  change (v mod 256) with (v mod 2 ^ 8).
  rewrite (join_byte v 8), (join_byte v 16), (join_byte v 24) by lia. apply (wraps_wrapu 32). lia.
Qed.

Lemma word64_halves v : word64 v = word32 v ++ word32 (v / 2 ^ 32).
Proof.
  assert (E : forall n, 0 <= n -> BinaryWriter.byte_at (v / 2 ^ 32) n = BinaryWriter.byte_at v (32 + n)).
  { intros n Hn. rewrite !byte_at_mod by lia. rewrite Z.div_div, <- Z.pow_add_r by lia. done. }
  unfold word64, word32. cbn [map seq app]. by rewrite !E by lia.
Qed.

(** A conversion to the signed type of the width keeps the bytes. *)
Lemma byte_at_wraps w v n : 0 <= n -> n + 8 <= w ->
  BinaryWriter.byte_at (wraps w v) n = BinaryWriter.byte_at v n.
Proof.
  intros Hn Hw. rewrite !byte_at_mod by lia. pose proof (wraps_cong w v ltac:(lia)) as E.
  assert (D : forall x, x / 2 ^ n mod 256 = (x mod 2 ^ w) / 2 ^ n mod 256); [|by rewrite D, E, <- D].
  intros x. rewrite (Z.mod_eq x) by lia.
  replace (2 ^ w) with (2 ^ n * (2 ^ (w - n - 8) * 256))
    by (change 256 with (2 ^ 8); rewrite <- !Z.pow_add_r by lia; f_equal; lia).
  set (m := 2 ^ (w - n - 8)). set (q := x / (2 ^ n * (m * 256))).
  replace (x - 2 ^ n * (m * 256) * q) with (x + (- q * m * 256) * 2 ^ n) by ring.
  rewrite Z.div_add, Z.mod_add by lia. done.
Qed.

Lemma word16_wraps v : word16 (wraps 16 v) = word16 v.
Proof. unfold word16. by rewrite !byte_at_wraps by lia. Qed.
Lemma word32_wraps v : word32 (i32 v) = word32 v.
Proof. unfold word32, i32. by rewrite !byte_at_wraps by lia. Qed.
Lemma word64_wraps v : word64 (i64 v) = word64 v.
Proof. unfold word64, i64. cbn [map seq]. by rewrite !byte_at_wraps by lia. Qed.

Lemma word64_value v : i64 (Z.lor (ushl 64 (u32 (i32 (v / 2 ^ 32))) 32) (u32 (i32 v))) = i64 v.
Proof.
  unfold u32, i32. rewrite !wrapu_wraps by lia. unfold ushl, wrapu at 1.
  rewrite Z.lor_comm, Z.shiftl_mul_pow2 by lia.
  pose proof (wrapu_range 32 v ltac:(lia)) as H1. pose proof (wrapu_range 32 (v / 2 ^ 32) ltac:(lia)) as H2.
  unfold in_u in *. rewrite Z.mod_small by nia. rewrite lor_high by lia.
  unfold wrapu at 1 2. rewrite <- (digit_split v 32 32) by lia. apply (wraps_wrapu 64). lia.
Qed.

(** ** Values *)

(** The numbers of a fixed or variable length; the floating-point ones are their bits. *)
Inductive numeric :=
  | Byte | SByte | Int16 | UInt16 | Int32 | UInt32 | Int64 | UInt64 | Single | Double | SevenBit.

Definition in_range (k : numeric) (v : Z) : bool :=
  match k with
  | Byte => (0 <=? v) && (v <? 2 ^ 8)
  | SByte => in_sb 8 v
  | Int16 => in_sb 16 v
  | UInt16 => (0 <=? v) && (v <? 2 ^ 16)
  | Int32 | SevenBit => in_sb 32 v
  | UInt32 | Single => (0 <=? v) && (v <? 2 ^ 32)
  | Int64 => in_sb 64 v
  | UInt64 | Double => (0 <=? v) && (v <? 2 ^ 64)
  end.

(** What a program writes, and what it asks for: the count of raw bytes is agreed on. *)
Inductive item := Num (k : numeric) (v : Z) | Bool (b : bool) | Str (l : list Z) | Raw (l : list Z).
Inductive kind := KNum (k : numeric) | KBool | KStr | KRaw (count : Z).

Definition kind_of (x : item) : kind :=
  match x with
  | Num k _ => KNum k | Bool _ => KBool | Str _ => KStr | Raw l => KRaw (length l)
  end.

(** Groups of seven bits, the least significant first. *)
Fixpoint groups (fuel : nat) (u : Z) : list Z :=
  match fuel with
  | O => []
  | S fuel => if u >? 127 then (128 + u mod 128) :: groups fuel (u / 128) else [u]
  end.

Definition encode_num (k : numeric) (v : Z) : list Z :=
  match k with
  | Byte => [v]
  | SByte => [u8 v]
  | Int16 | UInt16 => word16 v
  | Int32 | UInt32 | Single => word32 v
  | Int64 | UInt64 | Double => word64 v
  | SevenBit => groups 5 (u32 v)
  end.

(** The bytes of a value. *)
Definition encode (x : item) : list Z :=
  match x with
  | Num k v => encode_num k v
  | Bool b => [if b then 1 else 0]
  | Str l => groups 5 (length l) ++ l
  | Raw l => l
  end.

Definition fits (x : item) : bool :=
  match x with
  | Num k v => in_range k v
  | Bool _ => true
  | Str l | Raw l => length l <=? INTCS_MAX
  end.

Section Members.
Context {S : Type} `{Stream S}.
Import BinaryWriter BinaryReader.

Definition write_num (k : numeric) : Z -> cmd (writer S) unit :=
  match k with
  | Byte => Write_byte | SByte => Write_sbyte | Int16 => Write_short | UInt16 => Write_ushort
  | Int32 => Write_int | UInt32 => Write_uint | Int64 => Write_long | UInt64 => Write_ulong
  | Single => Write_Single | Double => Write_double | SevenBit => Write7BitEncodedInt
  end.

Definition write_item (x : item) : cmd (writer S) unit :=
  match x with
  | Num k v => write_num k v
  | Bool b => Write_bool b
  | Str l => Write_string l
  | Raw l => Write_array (Some l) 0 (length l)
  end.

Definition read_num (k : numeric) : cmd (reader S) Z :=
  match k with
  | Byte => ReadByte | SByte => ReadSByte | Int16 => ReadInt16 | UInt16 => ReadUInt16
  | Int32 => ReadInt32 | UInt32 => ReadUInt32 | Int64 => ReadInt64 | UInt64 => ReadUInt64
  | Single => ReadSingle | Double => ReadDouble | SevenBit => Read7BitEncodedInt
  end.

Definition read_item (k : kind) : cmd (reader S) item :=
  match k with
  | KNum k => v <== read_num k ;; ret (Num k v)
  | KBool => b <== ReadBoolean ;; ret (Bool b)
  | KStr => l <== ReadString ;; ret (Str l)
  | KRaw n => l <== ReadBytes n ;; ret (Raw l)
  end.

Fixpoint write_items (xs : list item) : cmd (writer S) unit :=
  match xs with [] => ret tt | x :: xs => write_item x ;;; write_items xs end.

Fixpoint read_items (ks : list kind) : cmd (reader S) (list item) :=
  match ks with
  | [] => ret []
  | k :: ks => x <== read_item k ;; xs <== read_items ks ;; ret (x :: xs)
  end.

End Members.

(** ** Writing *)

Section Writing.
Context {S : Type} `{SeekableStream S}.
Import BinaryWriter.

Implicit Types (w : writer S) (f : file).

(** An open writer on a writable stream that stands for [f]. *)
Definition writes_at w f : Prop :=
  disposed_ w = false /\ ready (stream_ w) /\ getCanWriteProperty (stream_ w) = true /\
  view (stream_ w) = f.

Lemma WriteBytes_runs w f l n : writes_at w f -> n = length l -> n <= INTCS_MAX ->
  position f + n <= INTCS_MAX ->
  runs (WriteBytes (Some l) n) w (fun _ w' => writes_at w' (written f l) /\ leaveOpen_ w' = leaveOpen_ w).
Proof.
  intros (Hd & Hr & Hc & Hv) -> Hl Hp. unfold WriteBytes. unfold andthen, runs, ThrowIfDisposed.
  rewrite Hd. cbn. unfold on_stream. apply runs_within. eapply runs_weaken.
  { apply (Write_law (stream_ w) l 0 (length l) l); try done; [|by rewrite Hv].
    rewrite fetch_Ok, Nat2Z.id, drop_0, firstn_all by lia. done. }
  cbn beta. intros _ i (Hi & Ev & Ew). rewrite Hv in Ev. unfold writes_at. cbn.
  repeat split; try done. congruence.
Qed.

(** Each member writes the bytes of its value. *)
Definition emits (m : cmd (writer S) unit) (l : list Z) : Prop := forall w f,
  writes_at w f -> length l <= INTCS_MAX -> position f + length l <= INTCS_MAX ->
  runs m w (fun _ w' => writes_at w' (written f l) /\ leaveOpen_ w' = leaveOpen_ w).

Lemma emits_WriteBytes l n : n = length l -> emits (WriteBytes (Some l) n) l.
Proof. intros -> w f Hw Hl Hp. by apply WriteBytes_runs. Qed.

Lemma emits_andthen m k a b : emits m a -> emits k b -> emits (m ;;; k) (a ++ b).
Proof.
  intros Hm Hk w f Hw Hl Hp. rewrite length_app in *. destruct Hw as (? & Hr & ? & Hv).
  assert (Hf : 0 <= position f) by (rewrite <- Hv; by apply ready_bounds).
  eapply runs_bind; [apply (Hm w f); [done | lia | lia]|]. cbn beta. intros _ w' (Hw' & El).
  eapply runs_weaken; [apply (Hk w' (written f a)); [done | lia | rewrite written_position; lia]|].
  cbn beta. intros _ w'' (Hw'' & El'). rewrite written_app in Hw'' by lia. split; [done | congruence].
Qed.

Lemma low_group u : 0 <= u < 2 ^ 32 -> u8 (Z.lor u (unot 32 0x7F)) = 128 + u mod 128.
Proof.
  intros Hu. unfold u8, wrapu. rewrite <- (Z.land_ones _ 8) by lia. rewrite Z.land_lor_distr_l.
  change (Z.land (unot 32 0x7F) (Z.ones 8)) with (1 * 2 ^ 7). rewrite Z.land_ones by lia.
  change 8 with (7 + 1). rewrite digit_split by lia. change 128 with (2 ^ 7) at 2.
  pose proof (Z.mod_pos_bound u (2 ^ 7) ltac:(lia)) as Hlow.
  pose proof (Z.mod_pos_bound (u / 2 ^ 7) (2 ^ 1) ltac:(lia)) as Hbit.
  assert (u / 2 ^ 7 mod 2 ^ 1 = 0 \/ u / 2 ^ 7 mod 2 ^ 1 = 1) as [-> | ->] by lia.
  - rewrite Z.mul_0_l, Z.add_0_r, lor_high by lia. lia.
  - rewrite <- lor_high by lia. rewrite <- Z.lor_assoc, Z.lor_diag, lor_high by lia. lia.
Qed.

Lemma emits_groups (fuel : nat) : forall u, 0 <= u < 2 ^ (7 * fuel) -> u < 2 ^ 32 -> (0 < fuel)%nat ->
  emits (write_groups fuel u) (groups fuel u).
Proof.
  induction fuel as [|fuel IH]; intros u Hu H32 Hf; [lia|]. cbn [write_groups groups].
  change 0x7F with 127. destruct (u >? 127) eqn:E; bool_to_prop.
  - rewrite low_group by lia. rewrite Z.shiftr_div_pow2 by lia.
    apply (emits_andthen _ _ [_]); [exact (emits_WriteBytes [_] 1 eq_refl)|]. change (2 ^ 7) with 128.
    replace (7 * Datatypes.S fuel) with (7 + 7 * fuel) in Hu by lia.
    rewrite Z.pow_add_r in Hu by lia. change (2 ^ 7) with 128 in Hu.
    apply IH.
    + split; [apply Z.div_pos; lia | apply Z.div_lt_upper_bound; lia].
    + apply Z.div_lt_upper_bound; lia.
    + destruct fuel; [|lia]. cbn in Hu. lia.
  - unfold u8. rewrite wrapu_id by (unfold in_u; lia). exact (emits_WriteBytes [_] 1 eq_refl).
Qed.

Lemma emits_num k v : in_range k v = true -> emits (write_num k v) (encode_num k v).
Proof.
  intros Hv. destruct k; cbn [in_range write_num encode_num] in *;
    try exact (emits_WriteBytes _ _ eq_refl).
  - rewrite <- word16_wraps. exact (emits_WriteBytes _ _ eq_refl).
  - rewrite <- word32_wraps. exact (emits_WriteBytes _ _ eq_refl).
  - rewrite <- word64_wraps. exact (emits_WriteBytes _ _ eq_refl).
  - rewrite <- word32_wraps. exact (emits_WriteBytes _ _ eq_refl).
  - rewrite <- word64_wraps. exact (emits_WriteBytes _ _ eq_refl).
  - pose proof (wrapu_range 32 v ltac:(lia)) as [? ?]. apply emits_groups; unfold u32 in *; lia.
Qed.

Lemma emits_item x : fits x = true -> emits (write_item x) (encode x).
Proof.
  destruct x as [k v | b | l | l]; cbn [fits write_item encode]; intros Hx.
  - by apply emits_num.
  - exact (emits_WriteBytes [_] 1 eq_refl).
  - bool_to_prop. unfold Write_string, i32. rewrite wraps_id by (unfold in_s; lia).
    apply emits_andthen; [|by apply emits_WriteBytes]. unfold Write7BitEncodedInt, u32.
    rewrite wrapu_id by (unfold in_u; lia). apply emits_groups; cbn; lia.
  - bool_to_prop. exact (emits_WriteBytes l _ eq_refl).
Qed.

End Writing.

(** ** Reading *)

Section Reading.
Context {S : Type} `{SeekableStream S}.
Import BinaryReader.

Implicit Types (r : reader S) (f : file).

(** An open reader on a stream that stands for [f], with no half of a surrogate pair
    kept back. *)
Definition reads_at r f : Prop :=
  disposed_ r = false /\ hasPendingCharacter_ r = false /\ ready (stream_ r) /\ view (stream_ r) = f.

Lemma reads_at_position r f : reads_at r f -> 0 <= position f <= INTCS_MAX /\ length (bytes f) <= INTCS_MAX.
Proof. intros (_ & _ & Hr & <-). by apply ready_bounds. Qed.

Lemma stream_read_runs r f l offset count : reads_at r f -> range_of l offset count ->
  runs (stream_read offset count) (Some l, r) (fun n '(a, r') =>
    delivered f l offset count n a /\ reads_at r' (moved_to f (position f + n))).
Proof.
  intros (Hd & Hp & Hr & Hv) R. unfold stream_read. apply runs_within.
  eapply runs_weaken; [by apply Read_law|]. cbn. intros n [a i] (Hdel & Hi & Ev & _).
  rewrite Hv in *. split; [done|]. by repeat split.
Qed.

(** [ReadBytesExact] fills the array from [total] on, or meets the end. *)
Lemma exact_loop_runs (fuel : nat) : forall r f l total count,
  reads_at r f -> 0 <= total <= count -> count = length l -> count <= INTCS_MAX ->
  count - total < fuel -> count - total <= length (rest f) ->
  runs (exact_loop fuel total count) (Some l, r) (fun _ '(a, r') =>
    a = Some (take (Z.to_nat total) l ++ take (Z.to_nat (count - total)) (rest f)) /\
    reads_at r' (moved_to f (position f + (count - total)))).
Proof.
  induction fuel as [|fuel IH]; intros r f l total count Hr Ht Hl Hm Hf Hrest; [lia|].
  cbn [exact_loop]. destruct (total <? count) eqn:E; bool_to_prop.
  2: { assert (total = count) as -> by lia. rewrite Z.sub_diag, Z.add_0_r, moved_to_id, app_nil_r.
       run. split; [|done]. rewrite take_ge by lia. done. }
  eapply runs_bind; [apply stream_read_runs; [done | unfold range_of; lia]|].
  cbn beta. intros n [a r'] ((Hn & Hle & Es & Hz) & Hr').
  pose proof (reads_at_position _ _ Hr) as (Hp & _).
  assert (n <> 0). { intros ->. destruct Hz as [? | E']; [done | lia | rewrite E' in Hrest; cbn in Hrest; lia]. }
  run; [lia | apply schk_Ok; unfold in_s; lia |].
  rewrite store_Ok in Es by (rewrite ?length_take; lia). injection Es as <-.
  set (w := take (Z.to_nat n) (rest f)) in *.
  assert (Ew : length w = Z.to_nat n) by (unfold w; rewrite length_take; lia).
  eapply runs_weaken.
  { apply (IH r' (moved_to f (position f + n)) _ (total + n) count); try done; try lia.
    - rewrite !length_app, length_take, length_drop. lia.
    - rewrite rest_moved, length_drop by lia. lia. }
  cbn beta. intros _ [b r''] (-> & Hr''). split.
  - f_equal. rewrite rest_moved by lia.
    rewrite app_assoc, take_app_length' by (rewrite length_app, length_take; lia).
    rewrite <- app_assoc. f_equal. unfold w.
    replace (Z.to_nat (count - total)) with (Z.to_nat n + Z.to_nat (count - (total + n)))%nat by lia.
    by rewrite take_take_drop.
  - replace (position f + (count - total)) with (position (moved_to f (position f + n)) + (count - (total + n)))
      by (cbn; lia). done.
Qed.

Lemma exact_loop_fails (fuel : nat) : forall r f l total count,
  reads_at r f -> 0 <= total <= count -> count = length l -> count <= INTCS_MAX ->
  count - total < fuel -> length (rest f) < count - total ->
  fails (exact_loop fuel total count) (Some l, r) end_of_stream (fun '(_, r') =>
    reads_at r' (moved_to f (Z.max (position f) (length (bytes f))))).
Proof.
  induction fuel as [|fuel IH]; intros r f l total count Hr Ht Hl Hm Hf Hrest; [lia|].
  cbn [exact_loop]. decide_cmp.
  eapply fails_bind; [apply stream_read_runs; [done | unfold range_of; lia]|].
  cbn beta. intros n [a r'] ((Hn & Hle & Es & Hz) & Hr').
  pose proof (reads_at_position _ _ Hr) as (Hp & _).
  pose proof (length_rest f ltac:(lia)) as El.
  destruct (n =? 0) eqn:E; bool_to_prop.
  - apply fails_bind_left, fails_lift; [done|]. destruct Hz as [? | E']; [done | lia |].
    rewrite E in Hr'. apply rest_nil in E'; [|lia]. replace (Z.max _ _) with (position f + 0) by lia. done.
  - eapply fails_step; [done|]. eapply fails_step; [apply schk_Ok; unfold in_s; lia|].
    rewrite store_Ok in Es by (rewrite ?length_take; lia). injection Es as <-.
    eapply fails_weaken.
    { apply (IH r' (moved_to f (position f + n)) _ (total + n) count); try done; try lia.
      - rewrite !length_app, length_drop, !length_take. lia.
      - rewrite rest_moved, length_drop by lia. lia. }
    cbn beta. intros [b r''] Hr''. cbn in Hr''.
    replace (Z.max (position f + n) (length (bytes f))) with (Z.max (position f) (length (bytes f))) in Hr'' by lia.
    done.
Qed.

Lemma ReadBytesExact_start r f l (k : cmd (array * reader S) unit) :
  reads_at r f -> (on_object ThrowIfDisposed ;;; k) (Some l, r) = k (Some l, r).
Proof.
  intros (Hd & _). unfold andthen, on_object, within, ThrowIfDisposed. cbn. by rewrite Hd; destruct r.
Qed.

Lemma read_exactly_runs r f n : reads_at r f -> 0 <= n <= INTCS_MAX -> n <= length (rest f) ->
  runs (read_exactly n) r (fun l r' =>
    l = take (Z.to_nat n) (rest f) /\ reads_at r' (moved_to f (position f + n))).
Proof.
  intros Hr Hn Hl. set (z := replicate (Z.to_nat n) 0).
  assert (Ez : length z = Z.to_nat n) by apply length_replicate.
  destruct (exact_loop_runs (Z.to_nat n + 1) r f z 0 n Hr) as ([] & [a r'] & E & -> & Hr'); try lia.
  rewrite Z.sub_0_r in *. exists (take (Z.to_nat n) (rest f)), r'. split; [|done].
  unfold read_exactly, with_local, andthen at 1. fold z. unfold ReadBytesExact.
  rewrite (ReadBytesExact_start r f z) by done. rewrite E. done.
Qed.

Lemma read_exactly_fails r f n : reads_at r f -> 0 <= n <= INTCS_MAX -> length (rest f) < n ->
  fails (read_exactly n) r end_of_stream (fun r' =>
    reads_at r' (moved_to f (Z.max (position f) (length (bytes f))))).
Proof.
  intros Hr Hn Hl. set (z := replicate (Z.to_nat n) 0).
  assert (Ez : length z = Z.to_nat n) by apply length_replicate.
  destruct (exact_loop_fails (Z.to_nat n + 1) r f z 0 n Hr) as ([a r'] & E & Hr'); try lia.
  exists r'. split; [|done].
  unfold read_exactly, with_local, andthen at 1. fold z. unfold ReadBytesExact.
  rewrite (ReadBytesExact_start r f z) by done. by rewrite E.
Qed.

End Reading.

(** ** Reading values *)

Section Values.
Context {S : Type} `{SeekableStream S}.
Import BinaryReader.

Implicit Types (r : reader S) (f : file).

(** The command consumes the bytes [l] and answers [v]. *)
Definition takes {A} (m : cmd (reader S) A) (l : list Z) (v : A) : Prop := forall r f t,
  reads_at r f -> rest f = l ++ t ->
  runs m r (fun x r' => x = v /\ reads_at r' (moved_to f (position f + length l))).

Lemma takes_ret {A} (v : A) : takes (ret v) [] v.
Proof. intros r f t Hr _. apply runs_ret. by rewrite Z.add_0_r, moved_to_id. Qed.

Lemma takes_andthen {A B} (m : cmd (reader S) A) (k : A -> cmd (reader S) B) a b v x :
  takes m a v -> takes (k v) b x -> takes (andthen m k) (a ++ b) x.
Proof.
  intros Hm Hk r f t Hr E. rewrite <- app_assoc in E.
  pose proof (reads_at_position _ _ Hr) as (Hp & _).
  eapply runs_bind; [by eapply Hm|]. cbn beta. intros y r' (-> & Hr').
  eapply runs_weaken.
  { apply (Hk r' _ t Hr'). rewrite rest_moved by lia. by rewrite E, Nat2Z.id, drop_app_length. }
  cbn beta. intros z r'' (-> & Hr''). split; [done|]. cbn in Hr''.
  rewrite length_app. by replace (position f + (length a + length b)%nat) with (position f + length a + length b) by lia.
Qed.

(** On a stream that ends inside [l], it reports the end of the stream. *)
Definition starves {A} (m : cmd (reader S) A) (l : list Z) : Prop := forall r f p q,
  reads_at r f -> rest f = p -> l = p ++ q -> q <> [] ->
  exists msg, fails m r (EndOfStreamException msg) (fun _ => True).

Definition parses {A} (m : cmd (reader S) A) (l : list Z) (v : A) : Prop :=
  takes m l v /\ starves m l.

Lemma parses_ret {A} (v : A) : parses (ret v) [] v.
Proof. split; [apply takes_ret|]. intros r f p q _ _ E Hq. by destruct p, q. Qed.

Lemma parses_andthen {A B} (m : cmd (reader S) A) (k : A -> cmd (reader S) B) a b v x :
  parses m a v -> parses (k v) b x -> parses (andthen m k) (a ++ b) x.
Proof.
  intros (Hm & Sm) (Hk & Sk). split; [by eapply takes_andthen|]. intros r f p q Hr Ep E Hq.
  destruct (Nat.lt_ge_cases (length p) (length a)) as [Hlt|Hge].
  - assert (Ea : a = p ++ drop (length p) a).
    { rewrite <- (take_drop (length p) a) at 1. f_equal. apply (f_equal (take (length p))) in E.
      by rewrite take_app_le, take_app_length in E by lia. }
    destruct (Sm r f p (drop (length p) a) Hr Ep Ea) as (msg & Hf).
    + intros Hn. apply (f_equal length) in Hn. rewrite length_drop in Hn. cbn in Hn. lia.
    + exists msg. by apply fails_bind_left.
  - assert (Ea : p = a ++ drop (length a) p).
    { rewrite <- (take_drop (length a) p) at 1. f_equal. apply (f_equal (take (length a))) in E.
      by rewrite take_app_length, take_app_le in E by lia. }
    assert (Eb : b = drop (length a) p ++ q).
    { rewrite Ea, <- app_assoc in E. by apply app_inv_head in E. }
    assert (Er : rest f = a ++ drop (length a) p) by congruence.
    pose proof (reads_at_position _ _ Hr) as (Hp & _).
    destruct (Hm r f _ Hr Er) as (y & r' & Ey & -> & Hr').
    destruct (Sk r' _ (drop (length a) p) q Hr') as (msg & Hf); [| done | done |].
    { rewrite rest_moved by lia. by rewrite Er, Nat2Z.id, drop_app_length. }
    exists msg. unfold fails, andthen. rewrite Ey. exact Hf.
Qed.

Lemma parses_then_ret {A B} (m : cmd (reader S) A) (g : A -> B) l v x :
  parses m l v -> g v = x -> parses (y <== m ;; ret (g y)) l x.
Proof.
  intros Hm <-. rewrite <- (app_nil_r l). apply (parses_andthen _ _ _ _ v); [done | apply parses_ret].
Qed.

Lemma parses_lift {A B} (r : res A) a (k : A -> cmd (reader S) B) l x :
  r = Ok a -> parses (k a) l x -> parses (andthen (lift r) k) l x.
Proof. intros -> Hk. apply (parses_andthen _ _ [] l a); [apply parses_ret | done]. Qed.

Lemma takes_exactly l n : n = length l -> n <= INTCS_MAX -> takes (read_exactly n) l l.
Proof.
  intros -> Hl r f t Hr E. eapply runs_weaken.
  { apply (read_exactly_runs r f (length l)); [done | lia | rewrite E, length_app; lia]. }
  cbn beta. intros x r' (-> & Hr'). split; [|done]. by rewrite E, Nat2Z.id, take_app_length.
Qed.

Lemma parses_exactly l n : n = length l -> n <= INTCS_MAX -> parses (read_exactly n) l l.
Proof.
  intros En Hl. split; [by apply takes_exactly|]. subst n. intros r f p q Hr Ep E Hq.
  eexists. eapply fails_weaken; [apply (read_exactly_fails r f); [done | lia |]|done].
  rewrite E, Ep, length_app. destruct q; [done | cbn; lia].
Qed.

Lemma parses_byte b : parses ReadByte [b] b.
Proof. eapply parses_then_ret; [apply (parses_exactly [b] 1 eq_refl); done | done]. Qed.

Lemma parses_int16 v : parses ReadInt16 (word16 v) (wraps 16 v).
Proof. eapply parses_then_ret; [apply (parses_exactly (word16 v) 2 eq_refl); done | apply word16_value]. Qed.

Lemma parses_int32 v : parses ReadInt32 (word32 v) (i32 v).
Proof. eapply parses_then_ret; [apply (parses_exactly (word32 v) 4 eq_refl); done | apply word32_value]. Qed.

Lemma parses_uint32 v : parses ReadUInt32 (word32 v) (u32 (i32 v)).
Proof. eapply parses_then_ret; [apply parses_int32 | done]. Qed.

Lemma parses_int64 v : parses ReadInt64 (word64 v) (i64 v).
Proof.
  rewrite word64_halves. eapply parses_andthen; [apply parses_uint32|].
  eapply parses_then_ret; [apply parses_uint32 | apply word64_value].
Qed.

(** Groups of seven bits are put back together; the fifth byte has four bits at most. *)
Lemma join_group result shift g : 0 <= shift -> 0 <= result < 2 ^ shift -> 0 <= g -> g * 2 ^ shift < 2 ^ 32 ->
  Z.lor result (ushl 32 g shift) = result + g * 2 ^ shift.
Proof.
  intros. unfold ushl. rewrite Z.shiftl_mul_pow2, wrapu_id by (unfold in_u; lia || lia).
  by apply lor_high.
Qed.

Lemma parses_groups (n : nat) : forall shift result u (fuel : nat),
  0 <= shift -> 0 <= result < 2 ^ shift -> shift + 7 * n = 28 -> 0 <= u -> u * 2 ^ shift < 2 ^ 32 ->
  (n < fuel)%nat ->
  (u < 2 ^ (7 * n) -> (0 < n)%nat ->
   parses (groups_loop n shift result) (groups fuel u) (inl (i32 (result + u * 2 ^ shift)))) /\
  (2 ^ (7 * n) <= u ->
   exists pre, groups fuel u = pre ++ [u / 2 ^ (7 * n)] /\
   parses (groups_loop n shift result) pre (inr (result + (u mod 2 ^ (7 * n)) * 2 ^ shift))).
Proof.
  induction n as [|n IH]; intros shift result u fuel Hs Hr Hsum Hu H32 Hf; (destruct fuel as [|fuel]; [lia|]).
  { split; [lia|]. intros _. exists []. change (7 * 0%nat) with 0. rewrite Z.pow_0_r, Z.div_1_r, Z.mod_1_r.
    replace shift with 28 in * by lia. cbn [groups]. replace (u >? 127) with false by (symmetry; rewrite Z.gtb_ltb; lia).
    rewrite Z.mul_0_l, Z.add_0_r. split; [done | apply parses_ret]. }
  cbn [groups groups_loop]. change 0x7F with 127. pose proof (Z.pow_pos_nonneg 2 shift ltac:(lia) Hs) as Hpow.
  assert (Eshift : 2 ^ (shift + 7) = 128 * 2 ^ shift) by (rewrite Z.pow_add_r by lia; lia).
  replace (7 * Datatypes.S n) with (7 + 7 * n) by lia. rewrite Z.pow_add_r by lia. change (2 ^ 7) with 128.
  destruct (u >? 127) eqn:E; bool_to_prop.
  - pose proof (Z.mod_pos_bound u 128 ltac:(lia)) as Hm. pose proof (Z.div_mod u 128 ltac:(lia)) as Ed.
    set (g := u mod 128) in *. set (q := u / 128) in *.
    assert (Eg : Z.land (128 + g) 127 = g).
    { rewrite (Z.land_ones _ 7) by lia. change (2 ^ 7) with 128. rewrite <- (Z.mul_1_l 128) at 1.
      rewrite Z.add_comm, Z.mod_add by lia. apply Z.mod_small. lia. }
    set (p := 2 ^ shift) in *.
    assert (Eu : u * p = g * p + q * (128 * p)) by (clear -Ed; rewrite Ed at 1; ring).
    assert (Hq : 0 <= q) by (apply Z.div_pos; lia).
    assert (Hqp : 0 <= q * (128 * p)) by (clear -Hq Hpow; nia).
    assert (Hgp : 0 <= g * p <= 127 * p) by (clear -Hm Hpow; nia).
    destruct (IH (shift + 7) (result + g * p) q fuel) as (I1 & I2);
      [lia | rewrite Eshift; lia | lia | lia | rewrite Eshift; lia | lia |].
    split.
    + intros Hlt _. apply (parses_andthen _ _ [_] _ (128 + g)); [apply parses_byte|]. cbn zeta.
      rewrite Eg, join_group by lia. decide_cmp.
      fold p. replace (result + u * p) with (result + g * p + q * 2 ^ (shift + 7)) by (rewrite Eshift; lia).
      apply I1; [unfold q; apply Z.div_lt_upper_bound; lia|].
      destruct n; [|lia]. cbn in Hlt. lia.
    + intros Hge. destruct I2 as (pre & Ep & Ht); [apply Z.div_le_lower_bound; lia|].
      exists ((128 + g) :: pre). rewrite Ep. split.
      { cbn. do 2 f_equal. unfold q. rewrite Z.div_div by lia. done. }
      apply (parses_andthen _ _ [_] _ (128 + g)); [apply parses_byte|]. cbn zeta.
      rewrite Eg, join_group by lia. decide_cmp.
      fold p. replace (result + u mod (128 * 2 ^ (7 * n)) * p)
        with (result + g * p + q mod 2 ^ (7 * n) * 2 ^ (shift + 7)); [done|].
      rewrite Z.rem_mul_r, Eshift by lia. fold g q. ring.
  - pose proof (Z.pow_pos_nonneg 2 (7 * n) ltac:(lia) ltac:(lia)).
    split; [intros _ _ | nia]. apply (parses_andthen _ _ [u] [] u); [apply parses_byte|]. cbn zeta.
    rewrite (Z.land_ones _ 7), Z.mod_small by lia. rewrite join_group by lia. decide_cmp. apply parses_ret.
Qed.

Lemma parses_7bit u : 0 <= u < 2 ^ 32 -> parses Read7BitEncodedInt (groups 5 u) (i32 u).
Proof.
  intros Hu. destruct (parses_groups 4 0 0 u 5) as (I1 & I2); try (cbn; lia).
  change (7 * 4%nat) with 28 in *. rewrite Z.pow_0_r, Z.mul_1_r, Z.add_0_l in I1.
  unfold Read7BitEncodedInt. destruct (Z.lt_ge_cases u (2 ^ 28)) as [Hlt|Hge].
  - rewrite <- (app_nil_r (groups 5 u)). apply (parses_andthen _ _ _ _ (inl (i32 u))); [|apply parses_ret].
    apply I1; [done | lia].
  - destruct (I2 Hge) as (pre & -> & Ht). rewrite Z.pow_0_r, Z.mul_1_r, Z.add_0_l in Ht.
    apply (parses_andthen _ _ _ _ _ _ Ht).
    assert (Hq : 0 <= u / 2 ^ 28 < 16) by (split; [apply Z.div_pos; lia | apply Z.div_lt_upper_bound; lia]).
    apply (parses_andthen _ _ [_] [] (u / 2 ^ 28)); [apply parses_byte|].
    apply (parses_lift _ tt); [apply throw_if_false; lia|].
    rewrite join_group; [| lia | apply Z.mod_pos_bound; lia | lia | lia].
    pose proof (Z.div_mod u (2 ^ 28) ltac:(lia)) as Ed.
    replace (u mod 2 ^ 28 + u / 2 ^ 28 * 2 ^ 28) with u by lia. apply parses_ret.
Qed.

(** ** Strings and arrays *)

Lemma on_stream_runs {A} (m : cmd S A) r f (P : A -> Prop) : reads_at r f ->
  runs m (stream_ r) (fun a s' => P a /\ becomes (stream_ r) s' (view (stream_ r))) ->
  runs (on_stream m) r (fun a r' => P a /\ reads_at r' f).
Proof.
  intros (Hd & Hp & Hr & Hv) Hm. unfold on_stream. apply runs_within.
  eapply runs_weaken; [exact Hm|]. cbn beta. intros a i (HP & Hi & Ev & _).
  split; [done|]. repeat split; try done. by rewrite <- Hv.
Qed.

Lemma remaining_runs r f : reads_at r f ->
  runs remaining r (fun n r' => n = length (bytes f) - position f /\ reads_at r' f).
Proof.
  intros Hr. pose proof (reads_at_position _ _ Hr) as (Hp & Hl). unfold remaining.
  pose proof Hr as (_ & _ & Hs & Hv).
  eapply runs_bind.
  { apply (on_stream_runs _ r f (fun n : Z => n = length (bytes (view (stream_ r)))) Hr), (getLength_law _ Hs). }
  cbn beta. intros n r' (-> & Hr'). pose proof Hr' as (_ & _ & Hs' & Hv').
  eapply runs_bind.
  { apply (on_stream_runs _ r' f (fun p => p = position (view (stream_ r'))) Hr'), (getPosition_law _ Hs'). }
  cbn beta. intros p r'' (-> & Hr''). rewrite Hv, Hv'.
  eapply runs_lift; [apply schk_Ok; unfold in_s; lia | done].
Qed.

Lemma reads_can_seek r f : reads_at r f -> getCanSeekProperty (stream_ r) = true.
Proof. intros (_ & _ & Hr & _). by apply ready_can. Qed.

(** The body of a string, checked against what is left of the stream first. *)
Definition string_body (n : Z) : cmd (reader S) (list Z) :=
  r <== gets id ;;
  when (getCanSeekProperty (stream_ r))
    (m <== remaining ;; lift (throw_if ((m >=? 0) && (n >? m)) string_too_long)) ;;;
  read_exactly n.

Lemma parses_string_body l : l <> [] -> length l <= INTCS_MAX -> parses (string_body (length l)) l l.
Proof.
  intros Hne Hl. unfold string_body. assert (length l <> 0%nat) by by destruct l. split.
  - intros r f t Hr Ef. pose proof (reads_at_position _ _ Hr) as (Hp & _).
    apply step_gets. cbn [id]. rewrite (reads_can_seek r f Hr). apply step_when_true; [done|].
    pose proof (length_rest f ltac:(lia)) as Er. rewrite Ef, length_app in Er.
    eapply runs_bind.
    { eapply runs_bind; [by apply remaining_runs|]. cbn beta. intros n r' (-> & Hr').
      eapply (runs_lift _ tt _ (fun _ y => reads_at y f)); [apply throw_if_false | done].
      apply andb_false_iff. right. rewrite Z.gtb_ltb. apply Z.ltb_ge. lia. }
    cbn beta. intros _ r' Hr'. by apply (takes_exactly l _ eq_refl Hl r' f t).
  - intros r f p q Hr Ef E Hq. pose proof (reads_at_position _ _ Hr) as (Hp & _).
    pose proof (length_rest f ltac:(lia)) as Er. rewrite Ef in Er.
    assert (Hlt : (length p < length l)%nat) by (rewrite E, length_app; destruct q; [done | cbn; lia]).
    destruct (remaining_runs r f Hr) as (n & r' & En & -> & Hr').
    destruct (read_exactly_fails r' f (length l) Hr') as (r'' & Ex & _); [lia | by rewrite Ef; lia |].
    unfold fails, andthen, gets, when, lift, throw_if. cbn [id].
    rewrite (reads_can_seek r f Hr), En.
    destruct ((length (bytes f) - position f >=? 0) && (length l >? length (bytes f) - position f));
      [by eexists _, _ | rewrite Ex; by eexists _, _].
Qed.

Lemma parses_string l : length l <= INTCS_MAX -> parses ReadString (groups 5 (length l) ++ l) l.
Proof.
  intros Hl. unfold ReadString.
  apply (parses_andthen _ _ _ _ (i32 (length l))); [apply parses_7bit; lia|].
  unfold i32. rewrite wraps_id by (unfold in_s; lia).
  apply (parses_lift _ tt); [apply throw_if_false; lia|].
  destruct (length l =? 0) eqn:E; bool_to_prop.
  - destruct l; [apply parses_ret | cbn in E; lia].
  - apply parses_string_body; [by intros -> | done].
Qed.

Lemma step_reader {B} r f (k : unit -> cmd (reader S) B) Q : reads_at r f ->
  runs (k tt) r Q -> runs (andthen ThrowIfDisposed k) r Q.
Proof. intros (Hd & _) HQ. unfold runs, andthen, ThrowIfDisposed. by rewrite Hd. Qed.

(** [ReadBytes] stops at the end of the stream without complaint. *)
Lemma bytes_loop_runs (fuel : nat) : forall r f l total count,
  reads_at r f -> 0 <= total <= count -> count = length l -> count <= INTCS_MAX -> count - total < fuel ->
  runs (bytes_loop fuel total count) (Some l, r) (fun n '(a, r') => exists b,
    a = Some b /\ length b = length l /\ n = total + Z.min (count - total) (length (rest f)) /\
    take (Z.to_nat n) b = take (Z.to_nat total) l ++ take (Z.to_nat (count - total)) (rest f) /\
    reads_at r' (moved_to f (position f + (n - total)))).
Proof.
  induction fuel as [|fuel IH]; intros r f l total count Hr Ht Hl Hm Hf; [lia|].
  cbn [bytes_loop]. destruct (total <? count) eqn:E; bool_to_prop.
  2: { run. exists l. assert (total = count) as -> by lia. rewrite Z.sub_diag, app_nil_r.
       split; [done|]. split; [done|]. split; [lia|]. split; [done|]. by rewrite Z.add_0_r, moved_to_id. }
  eapply runs_bind; [apply stream_read_runs; [done | unfold range_of; lia]|].
  cbn beta. intros n [a r'] ((Hn & Hle & Es & Hz) & Hr').
  pose proof (reads_at_position _ _ Hr) as (Hp & _).
  destruct (n =? 0) eqn:E0; bool_to_prop.
  - rewrite E0 in *. destruct Hz as [? | E']; [done | lia |]. rewrite E' in *.
    change (take (Z.to_nat 0) []) with (@nil Z) in Es. rewrite store_nil in Es by lia. injection Es as <-.
    run. exists l. rewrite take_nil, app_nil_r. split; [done|]. split; [done|].
    split; [cbn; lia|]. split; [done|]. by rewrite Z.sub_diag.
  - rewrite store_Ok in Es by (rewrite ?length_take; lia). injection Es as <-.
    set (w := take (Z.to_nat n) (rest f)) in *.
    assert (Ew : length w = Z.to_nat n) by (unfold w; rewrite length_take; lia).
    set (l' := _ ++ _ ++ _). assert (El' : length l' = length l)
      by (unfold l'; rewrite !length_app, length_take, length_drop; lia).
    eapply step_lift; [apply schk_Ok; unfold in_s; lia|]. eapply runs_weaken.
    { apply (IH r' (moved_to f (position f + n)) l' (total + n) count); try done; lia. }
    cbn beta. intros m [b r''] (c & -> & Ec & Em & Et & Hr''). rewrite rest_moved, length_drop in * by lia.
    exists c. split; [done|]. split; [lia|]. split; [lia|]. split.
    + rewrite Et. unfold l'. rewrite app_assoc, take_app_length' by (rewrite length_app, length_take; lia).
      rewrite <- app_assoc. f_equal. unfold w.
      replace (Z.to_nat (count - total)) with (Z.to_nat n + Z.to_nat (count - (total + n)))%nat by lia.
      by rewrite take_take_drop.
    + replace (position f + (m - total)) with (position (moved_to f (position f + n)) + (m - (total + n)))
        by (cbn; lia). done.
Qed.

Lemma ReadBytes_runs r f count : reads_at r f -> 0 <= count <= INTCS_MAX ->
  runs (ReadBytes count) r (fun l r' =>
    l = take (Z.to_nat count) (rest f) /\ reads_at r' (moved_to f (position f + length l))).
Proof.
  intros Hr Hc. pose proof (reads_at_position _ _ Hr) as (Hp & Hb). pose proof (length_rest f ltac:(lia)) as El.
  unfold ReadBytes. apply (step_reader r f _ _ Hr).
  eapply step_lift; [apply throw_if_false; lia|].
  destruct (count =? 0) eqn:E; bool_to_prop.
  { run. rewrite E, Z.add_0_r, moved_to_id. done. }
  apply step_gets. cbn [id]. rewrite (reads_can_seek r f Hr).
  set (m := length (bytes f) - position f) in *. set (a := if (m >=? 0) && (m <? count) then m else count).
  assert (Ha : 0 <= a <= count /\ Z.min a (length (rest f)) = Z.min count (length (rest f))).
  { unfold a. rewrite Z.geb_leb. destruct (0 <=? m) eqn:E1, (m <? count) eqn:E2; cbn; bool_to_prop; lia. }
  eapply runs_bind.
  { eapply (runs_bind _ _ _ _ (fun n y => n = a /\ reads_at y f)); [by apply remaining_runs|].
    cbn beta. intros n r' (-> & Hr'). by apply runs_ret. }
  cbn beta. intros n r' (-> & Hr'). clearbody a. set (z := replicate (Z.to_nat a) 0).
  assert (Ez : length z = Z.to_nat a) by apply length_replicate.
  destruct (bytes_loop_runs (Z.to_nat a + 1) r' f z 0 a Hr') as (k & [x r''] & Ex & b & -> & Eb & Ek & Et & Hr'');
    try lia.
  rewrite !Z.sub_0_r, Z.add_0_l in *. cbn [Z.to_nat take app] in Et.
  apply (runs_bind _ _ _ (fun y t => y = (k, b) /\ t = r'')).
  { exists (k, b), r''. split; [|done]. unfold with_local. fold z. by rewrite Ex. }
  cbn beta. intros y t (-> & ->). cbn [fst snd]. apply runs_ret.
  change (take (Z.to_nat 0) z) with (@nil Z) in Et. cbn [app] in Et.
  assert (Er : (if negb (k =? count) then vector_resize b k else b) = take (Z.to_nat k) b).
  { destruct (k =? count) eqn:E1; cbn; bool_to_prop; [by rewrite take_ge by lia|].
    apply vector_resize_within. lia. }
  assert (Eq : take (Z.to_nat a) (rest f) = take (Z.to_nat count) (rest f)).
  { destruct (decide (count <= length (rest f))); [f_equal; lia | by rewrite !take_ge by lia]. }
  rewrite Er, Et, Eq. split; [done|].
  replace (Z.of_nat (length (take _ _))) with k by (rewrite length_take; lia). done.
Qed.

Lemma takes_raw l : length l <= INTCS_MAX -> takes (ReadBytes (length l)) l l.
Proof.
  intros Hl r f t Hr E. eapply runs_weaken; [apply ReadBytes_runs; [done | lia]|].
  cbn beta. rewrite E, Nat2Z.id, take_app_length. intros x r' (-> & Hr'). done.
Qed.

(** ** Items *)

Lemma parses_num k v : in_range k v = true -> parses (read_num k) (encode_num k v) v.
Proof.
  intros Hv. destruct k; cbn [in_range read_num encode_num] in *; rewrite ?in_sb_spec in Hv.
  - apply parses_byte.
  - eapply parses_then_ret; [apply parses_byte|]. unfold u8. rewrite wraps_wrapu by lia.
    apply wraps_id; [lia | done].
  - rewrite <- (wraps_id 16 v) at 2 by (lia || done). apply parses_int16.
  - eapply parses_then_ret; [apply parses_int16|]. bool_to_prop. rewrite wrapu_wraps by lia.
    apply wrapu_id. unfold in_u. lia.
  - rewrite <- (wraps_id 32 v) at 2 by (lia || done). apply parses_int32.
  - bool_to_prop. eapply parses_then_ret; [apply parses_int32|]. unfold u32, i32.
    rewrite wrapu_wraps by lia. apply wrapu_id. unfold in_u. lia.
  - rewrite <- (wraps_id 64 v) at 2 by (lia || done). apply parses_int64.
  - bool_to_prop. eapply parses_then_ret; [apply parses_int64|]. unfold u64, i64.
    rewrite wrapu_wraps by lia. apply wrapu_id. unfold in_u. lia.
  - bool_to_prop. eapply parses_then_ret; [apply parses_int32|]. unfold u32, i32.
    rewrite wrapu_wraps by lia. apply wrapu_id. unfold in_u. lia.
  - bool_to_prop. eapply parses_then_ret; [apply parses_int64|]. unfold u64, i64.
    rewrite wrapu_wraps by lia. apply wrapu_id. unfold in_u. lia.
  - rewrite <- (wraps_id 32 v) at 2 by (lia || done).
    rewrite <- (wraps_wrapu 32 v) by lia. apply parses_7bit.
    pose proof (wrapu_range 32 v ltac:(lia)) as R. exact R.
Qed.

(** [ReadBytes] is the one member that accepts less than it asks for. *)
Definition is_raw (x : item) : bool := match x with Raw _ => true | _ => false end.

Lemma parses_item x : fits x = true -> is_raw x = false ->
  parses (read_item (kind_of x)) (encode x) x.
Proof.
  destruct x as [k v | b | l | l]; cbn [fits kind_of read_item encode is_raw]; intros Hx Hr;
    bool_to_prop; [| | |done]; eapply parses_then_ret.
  - by apply parses_num.
  - done.
  - eapply parses_then_ret; [apply parses_byte | done].
  - by destruct b.
  - by apply parses_string.
  - done.
Qed.

Lemma takes_item x : fits x = true -> takes (read_item (kind_of x)) (encode x) x.
Proof.
  intros Hx. destruct (is_raw x) eqn:E; [|by apply parses_item]. destruct x as [| | |l]; try done.
  cbn [fits kind_of read_item encode] in *. bool_to_prop. rewrite <- (app_nil_r l) at 2.
  eapply takes_andthen; [by apply takes_raw | apply takes_ret].
Qed.

Lemma takes_items xs : forallb fits xs = true ->
  takes (read_items (map kind_of xs)) (concat (map encode xs)) xs.
Proof.
  induction xs as [|x xs IH]; cbn [forallb map concat read_items]; intros Hx; [apply takes_ret|].
  apply andb_true_iff in Hx as [Hx Hxs]. eapply takes_andthen; [by apply takes_item|].
  rewrite <- (app_nil_r (concat _)). eapply takes_andthen; [by apply IH | apply takes_ret].
Qed.

End Values.
