(* ===== verification/BinaryRoundtrip.v ===== *)
(** * BinaryWriter and BinaryReader

    On every seekable stream a value written is the value read back, whatever the
    sizes of the stream's own reads, and a value cut short by the end of the stream is
    an EndOfStreamException. *)

From S2P Require Export BinaryValues StreamClient.

#[local] Coercion Z.of_nat : nat >-> Z.

(** The bytes of a sequence of values. *)
Definition image (xs : list item) : list Z := concat (map encode xs).

(** The file ends inside the bytes of a value. *)
Definition ends_inside (f : file) (x : item) : Prop := exists q, q <> [] /\ encode x = rest f ++ q.

(** ** Round trips *)

Lemma rest_written f l : 0 <= position f -> exists t, rest (moved_to (written f l) (position f)) = l ++ t.
Proof.
  intros Hp. destruct (decide (l = [])) as [-> |Hl]; [by eexists|].
  rewrite written_nonempty by done. unfold rest, moved_to. cbn.
  assert (E : length (vector_resize (bytes f) (position f)) = Z.to_nat (position f))
    by (apply length_vector_resize; lia).
  rewrite drop_app_length' by done. by eexists.
Qed.

Section Roundtrip.
Context {S : Type} `{SeekableStream S}.

Lemma emits_items xs : forallb fits xs = true ->
  emits (S := S) (write_items xs) (image xs).
Proof.
  induction xs as [|x xs IH]; cbn [forallb map concat write_items]; intros Hx.
  - intros w f Hw _ _. by apply runs_ret.
  - apply andb_true_iff in Hx as [Hx Hxs]. apply emits_andthen; [by apply emits_item | by apply IH].
Qed.

(** Closing a writer that leaves its stream open flushes the stream. *)
Lemma Close_open_runs (w : BinaryWriter.writer S) f : writes_at w f -> BinaryWriter.leaveOpen_ w = true ->
  runs BinaryWriter.Close w (fun _ w' =>
    BinaryWriter.disposed_ w' = true /\ ready (BinaryWriter.stream_ w') /\ view (BinaryWriter.stream_ w') = f).
Proof.
  intros (Hd & Hr & Hc & Hv) Hl. unfold BinaryWriter.Close. apply step_gets. cbn [id].
  apply runs_when; intros E; [|by rewrite Hd in E].
  unfold BinaryWriter.release. apply step_assoc, step_gets. cbn [id]. rewrite Hl.
  unfold BinaryWriter.on_stream. apply step_within. eapply runs_weaken; [by apply Flush_law|].
  cbn beta. intros _ i (Hi & Ev & _). apply runs_modify. cbn. by rewrite Ev.
Qed.

End Roundtrip.

(** C6: On every seekable stream, in memory, buffered or buffered twice, whatever the
    sizes of its reads: a program that writes bytes, integers of every width, 7-bit
    encoded integers, booleans, floating-point bits, length-prefixed strings and raw
    arrays with a BinaryWriter that leaves the stream open, closes the writer, goes back
    and asks a BinaryReader for the same kinds of values, gets exactly the values it
    wrote, and ends where the writer ended. *)
Theorem BinaryWriter_roundtrip {S : Type} `{SeekableStream S} (s : S) (xs : list item)
    (w : BinaryWriter.writer S) :
  ready s -> forallb fits xs = true ->
  position (view s) + length (image xs) <= INTCS_MAX ->
  BinaryWriter.make (Some s) true = Ok w ->
  exists w' s' r r',
    (write_items xs ;;; BinaryWriter.Close) w = (Ok tt, w') /\
    view (BinaryWriter.stream_ w') = written (view s) (image xs) /\
    setPositionProperty (position (view s)) (BinaryWriter.stream_ w') = (Ok tt, s') /\
    BinaryReader.make (Some s') true = Ok r /\
    read_items (map kind_of xs) r = (Ok xs, r') /\
    view (BinaryReader.stream_ r') = view (BinaryWriter.stream_ w').
Proof.
  intros Hs Hx Hl Em. pose proof (ready_bounds s Hs) as (Hp & _).
  set (l := image xs) in *. unfold BinaryWriter.make, throw_if in Em. cbn in Em.
  destruct (getCanWriteProperty s) eqn:Ec; [|done]. injection Em as <-.
  assert (Hw : writes_at (BinaryWriter.Writer s true false) (view s)) by by repeat split.
  destruct (emits_items xs Hx _ _ Hw) as ([] & w1 & E1 & Hw1 & Hlo); [fold l; lia | fold l; lia |].
  destruct (Close_open_runs w1 _ Hw1) as ([] & w2 & E2 & _ & Hr2 & Ev2); [by rewrite Hlo|].
  destruct (setPosition_law _ (position (view s)) Hr2 Hp) as ([] & s3 & E3 & Hs3 & Ev3 & _).
  destruct (ready_can s3 Hs3) as (Hread & _).
  destruct (rest_written (view s) l) as (t & Et); [lia|].
  assert (Hr3 : reads_at (BinaryReader.Reader s3 true false false 0)
    (moved_to (written (view s) l) (position (view s)))) by (repeat split; [done | cbn; by rewrite Ev3, Ev2]).
  destruct (takes_items xs Hx _ _ t Hr3 Et) as (ys & r & E4 & -> & _ & _ & _ & Ev4). fold l in Ev2, Ev4.
  exists w2, s3, (BinaryReader.Reader s3 true false false 0), r.
  split; [unfold andthen; by rewrite E1|]. split; [done|]. split; [done|].
  split; [unfold BinaryReader.make; by rewrite Hread|]. split; [done|].
  rewrite Ev4, Ev2. unfold moved_to. cbn. rewrite <- written_position. by destruct (written _ _).
Qed.

(** Values of every kind, behind a buffer of three bytes in front of ten bytes in memory. *)
Definition values : list item :=
  [Num Byte 255; Num SByte (-128); Num Int16 (-2); Num UInt16 65534; Num Int32 (-3); Num UInt32 4294967295;
   Num Int64 (-4); Num UInt64 18446744073709551615; Num Single 3212836864; Num Double 13830554455654793216;
   Num SevenBit (-1); Num SevenBit 300; Bool true; Str [104; 105]; Str []; Raw [9; 8; 7]].
Definition small : BufferedStream.buffered MemoryStream.memory := BufferedStream.Buffered ten true 3 false [] 0 0 0.

Lemma small_ready : ready small.
Proof. split; cbn; try done; try lia. by left. Qed.

Lemma BinaryWriter_roundtrip_witness :
  image values <> [] /\
  exists w' s' r r',
    (write_items values ;;; BinaryWriter.Close) (BinaryWriter.Writer small true false) = (Ok tt, w') /\
    view (BinaryWriter.stream_ w') = written (view small) (image values) /\
    setPositionProperty (position (view small)) (BinaryWriter.stream_ w') = (Ok tt, s') /\
    BinaryReader.make (Some s') true = Ok r /\
    read_items (map kind_of values) r = (Ok values, r') /\
    view (BinaryReader.stream_ r') = view (BinaryWriter.stream_ w').
Proof.
  split; [by vm_compute|].
  apply (BinaryWriter_roundtrip small values); [apply small_ready | by vm_compute | by vm_compute | done].
Defined.

(** C15: A stream that ends inside a value is reported: asked for an integer of any width,
    a 7-bit encoded integer, a boolean, a floating-point value or a string of which only
    a proper prefix is left, a BinaryReader throws EndOfStreamException and never answers
    with what is there. *)
Theorem BinaryReader_truncated {S : Type} `{SeekableStream S} (r : BinaryReader.reader S) (x : item) :
  BinaryReader.disposed_ r = false -> BinaryReader.hasPendingCharacter_ r = false ->
  ready (BinaryReader.stream_ r) ->
  fits x = true -> is_raw x = false -> ends_inside (view (BinaryReader.stream_ r)) x ->
  exists msg r', read_item (kind_of x) r = (Throw (EndOfStreamException msg), r').
Proof.
  intros Hd Hp Hr Hx Hraw (q & Hq & E). destruct (parses_item (S := S) x Hx Hraw) as (_ & Sx).
  destruct (Sx r (view (BinaryReader.stream_ r)) (rest (view (BinaryReader.stream_ r))) q) as (msg & r' & Et & _); [by repeat split | done | done | done |].
  by eexists _, _.
Qed.

(** A length of eleven and nine bytes. *)
Definition cut : MemoryStream.memory := MemoryStream.Memory [11; 7; 8; 9; 10; 11; 12; 13; 14; 15] 0 true true.

Lemma BinaryReader_truncated_witness :
  ends_inside (view cut) (Str [7; 8; 9; 10; 11; 12; 13; 14; 15; 16; 17]) /\
  exists msg r', read_item KStr (BinaryReader.Reader cut true false false 0) =
    (Throw (EndOfStreamException msg), r').
Proof.
  assert (E : ends_inside (view cut) (Str [7; 8; 9; 10; 11; 12; 13; 14; 15; 16; 17]))
    by by exists [16; 17].
  split; [exact E|].
  apply (BinaryReader_truncated (BinaryReader.Reader cut true false false 0) (Str [7; 8; 9; 10; 11; 12; 13; 14; 15; 16; 17]));
    try done.
Defined.
