(* ===== verification/BinaryText.v ===== *)
(** * BinaryReader: characters

    The members that decode UTF-8 into UTF-16 code units: a scalar above the basic
    plane is two units, the second of which the reader keeps for the next call. *)

From S2P Require Export BinaryValues StreamClient Utf8.

#[local] Coercion Z.of_nat : nat >-> Z.

(** The UTF-16 code units of a scalar and of a text. *)
Definition scalar_units (cp : Z) : list Z :=
  if cp <? 0x10000 then [cp] else [0xD800 + (cp - 0x10000) / 1024; 0xDC00 + (cp - 0x10000) mod 1024].
Definition text_units (cps : list Z) : list Z := concat (map scalar_units cps).
Definition text_bytes (cps : list Z) : list Z := concat (map utf8 cps).

Section Text.
Context {S : Type} `{SeekableStream S}.
Import BinaryReader.
Implicit Types (r : reader S) (f : file).

(** An open reader in front of a text that goes to the end of the stream, the units
    [us] of which have not been read: perhaps one it keeps, then those of the bytes. *)
Definition speaks r (us : list Z) : Prop :=
  disposed_ r = false /\ ready (stream_ r) /\
  exists cps, Forall is_scalar cps /\ rest (view (stream_ r)) = text_bytes cps /\
  us = (if hasPendingCharacter_ r then [pendingCharacter_ r] else []) ++ text_units cps.

(** ** One scalar *)

Lemma takes_stream_byte b : takes (S := S) (on_stream Stream.ReadByte) [b] b.
Proof.
  intros r f t Hr E. pose proof Hr as (Hd & Hp & Hs & Hv). unfold on_stream. apply runs_within.
  eapply runs_weaken; [by apply ReadByte_law|]. cbn beta. rewrite Hv, E. cbn [app].
  intros v i (-> & Hi & Ev & _). split; [done|]. by repeat split.
Qed.

Lemma takes_continue ds : forall v, Forall (fun d => 0 <= d < 64) ds -> 0 <= v ->
  (v + 1) * 64 ^ length ds <= 2 ^ 32 ->
  takes (S := S) (continue (length ds) v) (map (fun d => 128 + d) ds) (foldl (fun a d => a * 64 + d) v ds).
Proof.
  induction ds as [|d ds IH]; intros v Hd Hv Hb; cbn [length continue map foldl] in *; [apply takes_ret|].
  apply Forall_cons in Hd as [Hd Hds]. rewrite Nat2Z.inj_succ, Z.pow_succ_r in Hb by lia.
  pose proof (Z.pow_pos_nonneg 64 (length ds) ltac:(lia) ltac:(lia)) as Hpow.
  apply (takes_andthen _ _ [_] _ (128 + d)); [apply takes_stream_byte|].
  apply (takes_andthen _ _ [] _ tt); [by rewrite throw_if_false by lia; apply takes_ret|].
  unfold u8. rewrite wrapu_id by (unfold in_u; lia). cbn zeta.
  pose proof (continuation_range (128 + d) ltac:(unfold byte, in_u; lia)) as Ec.
  unfold Utf8.isContinuation in Ec. rewrite Ec. apply (takes_andthen _ _ [] _ tt).
  { replace ((128 <=? 128 + d) && (128 + d <? 192)) with true by (symmetry; apply andb_true_iff; lia).
    apply takes_ret. }
  rewrite land_3F, Z.add_mod by lia. change (128 mod 64) with 0. rewrite Z.add_0_l, Zmod_mod.
  rewrite (Z.mod_small d) by lia. unfold ushl. rewrite wrapu_id, digits2; [|lia|].
  - apply IH; [done | lia | nia].
  - rewrite Z.shiftl_mul_pow2 by lia. unfold in_u. nia.
Qed.

Lemma lead_byte_range b : byte b -> lead_byte b =
  if b <? 128 then Some (b, 0, 0%nat)
  else if (194 <=? b) && (b <? 224) then Some (b - 192, 0x80, 1%nat)
  else if (224 <=? b) && (b <? 240) then Some (b - 224, 0x800, 2%nat)
  else if (240 <=? b) && (b <? 245) then Some (b - 240, 0x10000, 3%nat)
  else None.
Proof.
  intros Hb. pose (spec b := if b <? 128 then Some (b, 0, 0%nat)
    else if (194 <=? b) && (b <? 224) then Some (b - 192, 0x80, 1%nat)
    else if (224 <=? b) && (b <? 240) then Some (b - 224, 0x800, 2%nat)
    else if (240 <=? b) && (b <? 245) then Some (b - 240, 0x10000, 3%nat)
    else None).
  pose (p b := bool_decide (lead_byte b = spec b)).
  assert (E : p b = true) by (apply (byte_all p); [by vm_compute | done]).
  by apply bool_decide_eq_true in E.
Qed.

(** The lead byte of a scalar's encoding, and the bits and digits after it. *)
Lemma lead_byte_utf8 cp : is_scalar cp -> exists lead ds bits minimum,
  utf8 cp = lead :: map (fun d => 128 + d) ds /\ byte lead /\
  lead_byte lead = Some (bits, minimum, length ds) /\ Forall (fun d => 0 <= d < 64) ds /\
  0 <= bits /\ (bits + 1) * 64 ^ length ds <= 2 ^ 32 /\
  foldl (fun a d => a * 64 + d) bits ds = cp /\ minimum <= cp.
Proof.
  intros Hc. unfold is_scalar in Hc. unfold utf8, byte, in_u. eval_pow. repeat split_if.
  - exists cp, [], cp, 0. rewrite lead_byte_range by (unfold byte, in_u; lia). decide_cmp.
    cbn. repeat split; try done; lia.
  - exists (192 + cp / 64), [cp mod 64], (cp / 64), 0x80.
    assert (2 <= cp / 64 < 32) by zlia. rewrite lead_byte_range by (unfold byte, in_u; lia). decide_cmp.
    split; [done|]. split; [lia|]. split; [do 3 f_equal; lia|]. cbn.
    split; [repeat constructor; zlia|]. split; [lia|]. split; [lia|]. split; [zlia | lia].
  - exists (224 + cp / 4096), [cp / 64 mod 64; cp mod 64], (cp / 4096), 0x800.
    assert (0 <= cp / 4096 < 16) by zlia. rewrite lead_byte_range by (unfold byte, in_u; lia). decide_cmp.
    split; [done|]. split; [lia|]. split; [do 3 f_equal; lia|]. cbn.
    split; [repeat constructor; zlia|]. split; [lia|]. split; [lia|]. split; [zlia | lia].
  - exists (240 + cp / 262144), [cp / 4096 mod 64; cp / 64 mod 64; cp mod 64], (cp / 262144), 0x10000.
    assert (0 <= cp / 262144 < 5) by zlia. rewrite lead_byte_range by (unfold byte, in_u; lia). decide_cmp.
    split; [done|]. split; [lia|]. split; [do 3 f_equal; lia|]. cbn.
    split; [repeat constructor; zlia|]. split; [lia|]. split; [lia|]. split; [zlia | lia].
Qed.

(** A scalar is its unit, or its first unit with the second kept. *)
Lemma TryReadChar_scalar r f cp t : reads_at r f -> rest f = utf8 cp ++ t -> is_scalar cp ->
  runs TryReadChar r (fun c r' =>
    c = head (scalar_units cp) /\ disposed_ r' = false /\ ready (stream_ r') /\
    view (stream_ r') = moved_to f (position f + length (utf8 cp)) /\
    (if hasPendingCharacter_ r' then [pendingCharacter_ r'] else []) = tail (scalar_units cp)).
Proof.
  intros Hr E Hc. destruct (lead_byte_utf8 cp Hc) as (lead & ds & bits & low & Eu & Hl & El & Hd & Hb & Hb2 & Ef & Hlow).
  pose proof Hr as (Hdisp & Hpend & _). unfold is_scalar, byte, in_u in *.
  assert (T : takes (S := S) (x <== on_stream Stream.ReadByte ;; y <== continue (length ds) bits ;; ret (x, y))
    (utf8 cp) (lead, cp)).
  { rewrite Eu. apply (takes_andthen _ _ [_] _ lead); [apply takes_stream_byte|].
    rewrite <- (app_nil_r (map _ ds)). eapply takes_andthen; [by apply takes_continue|]. rewrite Ef. apply takes_ret. }
  destruct (T r f t Hr E) as (x & r' & Ex & -> & Hr').
  unfold TryReadChar. apply (step_reader r f _ _ Hr). apply step_gets. cbn [id]. rewrite Hpend.
  unfold andthen, ret in Ex. unfold runs, andthen.
  destruct (on_stream Stream.ReadByte r) as [[rawLead| |] r1]; try done.
  destruct (continue _ bits r1) as [[codepoint| |] r2] eqn:Ec; try done. injection Ex as -> -> ->.
  unfold u8. rewrite wrapu_id by (unfold in_u; lia). decide_cmp. rewrite El, Ec.
  assert (Eb : (cp <? low) || (cp >? 0x10FFFF) || ((cp >=? 0xD800) && (cp <=? 0xDFFF)) = false).
  { rewrite Z.gtb_ltb, Z.geb_leb. rewrite !orb_false_iff, andb_false_iff, !Z.ltb_ge, !Z.leb_gt. lia. }
  rewrite Eb. clear Eb. cbn [lift throw_if]. pose proof Hr' as (Hd' & Hp' & Hs' & Hv'). unfold scalar_units.
  destruct (cp <=? 0xFFFF) eqn:E3; bool_to_prop; decide_cmp.
  - eexists _, _. split; [done|]. rewrite Hp'. done.
  - eexists _, _. split; [done|]. cbn. unfold usub, uadd.
    assert (0 <= (cp - 65536) / 1024 < 1024)
      by (split; [apply Z.div_pos; lia | apply Z.div_lt_upper_bound; lia]).
    pose proof (Z.mod_pos_bound (cp - 65536) 1024 ltac:(lia)).
    rewrite (wrapu_id 32 (cp - 65536)) by (unfold in_u; lia).
    rewrite Z.shiftr_div_pow2, (Z.land_ones _ 10) by lia. change (2 ^ 10) with 1024.
    rewrite !(wrapu_id 32), !(wrapu_id 16) by (unfold in_u; lia). done.
Qed.

(** ** Texts *)

Lemma TryReadChar_runs r us : speaks r us ->
  runs TryReadChar r (fun c r' => c = head us /\ speaks r' (tail us)).
Proof.
  intros (Hd & Hs & cps & Hc & Er & ->). destruct (hasPendingCharacter_ r) eqn:Ep.
  - exists (Some (pendingCharacter_ r)), (set_pending false (pendingCharacter_ r) r). split.
    + unfold TryReadChar, andthen, ThrowIfDisposed, gets. rewrite Hd. cbn. by rewrite Ep.
    + split; [done|]. split; [done|]. split; [done|]. exists cps. by cbn.
  - assert (Hr : reads_at r (view (stream_ r))) by by repeat split.
    destruct cps as [|cp cps]; cbn [text_bytes text_units map concat app head tail] in *.
    + destruct (ReadByte_law _ Hs) as (b & i & Eb & Hb). rewrite Er in Hb. destruct Hb as (-> & Hi & Ev & _).
      exists None, (set_stream i r). split.
      * unfold TryReadChar, andthen, ThrowIfDisposed, gets, on_stream, within. rewrite Hd. cbn. by rewrite Ep, Eb.
      * split; [done|]. split; [done|]. split; [done|]. exists []. cbn. by rewrite Ev, Er, Ep.
    + apply Forall_cons in Hc as [Hcp Hcps].
      eapply runs_weaken; [by apply (TryReadChar_scalar r _ cp (text_bytes cps) Hr)|].
      cbn beta. intros c r' (-> & Hd' & Hs' & Ev & Ep').
      pose proof (ready_bounds _ Hs) as (Hp & _).
      assert (Eu : exists u us, scalar_units cp = u :: us) by (unfold scalar_units; destruct (_ <? _); eauto).
      destruct Eu as (u & us & Eu). rewrite Eu in *. cbn [head tail app] in *.
      split; [done|]. split; [done|]. split; [done|]. exists cps. split; [done|]. split; [|by rewrite Ep'].
      rewrite Ev, rest_moved by lia. unfold text_bytes in *. by rewrite Er, Nat2Z.id, drop_app_length.
Qed.

Lemma chars_loop_runs (fuel : nat) : forall r us count result,
  speaks r us -> Z.max 0 (count - length result) < fuel ->
  runs (chars_loop fuel count result) r (fun l r' =>
    l = result ++ take (Z.to_nat (count - length result)) us /\
    speaks r' (drop (Z.to_nat (count - length result)) us)).
Proof.
  induction fuel as [|fuel IH]; intros r us count result Hr Hf; cbn [chars_loop];
    destruct (length result <? count) eqn:E; bool_to_prop; try lia.
  2: { run. replace (Z.to_nat _) with 0%nat by lia. cbn [take drop]. by rewrite app_nil_r. }
  eapply runs_bind; [by apply TryReadChar_runs|]. cbn beta. intros c r' (-> & Hr').
  destruct us as [|u us]; cbn [head tail] in *.
  { run. by rewrite take_nil, drop_nil, app_nil_r. }
  eapply runs_weaken; [apply (IH r' us count (result ++ [u])); [done | rewrite length_app; cbn; lia]|].
  cbn beta. intros l r'' (-> & Hr''). rewrite length_app in *. cbn [length] in *.
  replace (Z.to_nat (count - length result))
    with (Datatypes.S (Z.to_nat (count - (length result + 1)%nat))) by lia.
  cbn [take drop]. by rewrite <- app_assoc.
Qed.

Lemma ReadChars_runs r us count : speaks r us -> 0 <= count ->
  runs (ReadChars count) r (fun l r' =>
    l = take (Z.to_nat count) us /\ speaks r' (drop (Z.to_nat count) us)).
Proof.
  intros Hr Hc. pose proof Hr as (Hd & _). unfold ReadChars, ThrowIfNegative.
  run; [lia|]. unfold runs, andthen, ThrowIfDisposed. rewrite Hd. cbn [throw_if lift].
  destruct (count =? 0) eqn:E; bool_to_prop.
  { rewrite E. exists [], r. by rewrite drop_0. }
  destruct (chars_loop_runs (Z.to_nat count + 1) r us count [] Hr) as (l & r' & El & -> & Hr'); [cbn; lia|].
  cbn [length app] in *. rewrite Z.sub_0_r in *. by eexists _, _.
Qed.

(** [PeekChar] puts everything back. *)
Lemma PeekChar_runs r us : speaks r us ->
  runs PeekChar r (fun v r' => v = default (-1) (head us) /\ speaks r' us).
Proof.
  intros (Hd & Hs & cps & Hc & Er & ->). pose proof (ready_bounds _ Hs) as (Hp & _).
  destruct (ready_can _ Hs) as (_ & Hseek).
  set (f := view (stream_ r)) in *. unfold PeekChar.
  unfold runs, andthen at 1, ThrowIfDisposed. rewrite Hd. cbn [throw_if lift].
  unfold andthen at 1, gets. cbn [id]. unfold andthen at 1. rewrite Hseek. cbn [negb throw_if lift].
  destruct (getPosition_law _ Hs) as (p & i & Ei & -> & Hi & Evi & _). fold f in Ei, Evi.
  unfold andthen at 1, on_stream at 1, within. rewrite Ei.
  destruct (hasPendingCharacter_ r) eqn:Ep.
  { eexists _, _. split; [done|]. split; [done|]. split; [done|]. split; [done|].
    exists cps. split; [done|]. cbn. rewrite Evi, Ep. done. }
  destruct (getLength_law _ Hi) as (n & j & Ej & -> & Hj & Evj & _). rewrite Evi in Ej, Evj.
  unfold andthen at 1, on_stream at 1, within. cbn [stream_ set_stream]. rewrite Ej.
  set (r1 := set_stream j (set_stream i r)). rewrite Z.geb_leb.
  assert (Hr1 : reads_at r1 f) by by repeat split.
  destruct cps as [|cp cps]; cbn [text_units text_bytes map concat app] in *.
  - apply rest_nil in Er; [|lia]. decide_cmp. exists (-1), r1. split; [done|]. split; [done|].
    split; [done|]. split; [done|]. exists []. split; [done|]. cbn. rewrite Evj, Ep.
    split; [apply rest_nil; lia | done].
  - apply Forall_cons in Hc as [Hcp Hcps].
    assert (Hlt : (length (bytes f) <=? position f) = false).
    { apply Z.leb_gt. apply Z.nle_gt. intros Hle. apply rest_nil in Hle; [|lia]. rewrite Hle in Er.
      pose proof (utf8_length cp) as Hu. destruct (utf8 cp); [cbn in Hu; lia | done]. }
    rewrite Hlt. unfold ReadChar, andthen.
    destruct (TryReadChar_scalar r1 f cp (text_bytes cps) Hr1 Er Hcp)
      as (c & r2 & E2 & -> & Hd2 & Hs2 & Ev2 & _). rewrite E2.
    assert (Eu : exists u us, scalar_units cp = u :: us) by (unfold scalar_units; destruct (_ <? _); eauto).
    destruct Eu as (u & us & Eu). rewrite Eu. cbn [head app].
    destruct (setPosition_law _ (position f) Hs2 Hp) as ([] & k & Ek & Hk & Evk & _). rewrite Ev2 in Evk.
    unfold ret, on_stream, within, modify. rewrite Ek.
    eexists _, _. split; [done|]. split; [done|]. split; [done|]. split; [done|].
    exists (cp :: cps). split; [by constructor|]. cbn. rewrite Evk, Eu. split; [|done].
    unfold moved_to. cbn. by destruct f.
Qed.

End Text.

(** C16: On every seekable stream in front of the UTF-8 encoding of a text that reaches
    its end: [PeekChar] answers the next UTF-16 code unit, or -1 at the end, and leaves
    everything as it was; two calls of [ReadChars] answer the next [n] and [m] code units
    of the text, even when the first ends between the halves of a surrogate pair. *)
Theorem BinaryReader_chars {S : Type} `{SeekableStream S} (s : S) (cps : list Z) (n m : Z)
    (r : BinaryReader.reader S) :
  ready s -> Forall is_scalar cps -> rest (view s) = text_bytes cps -> 0 <= n -> 0 <= m ->
  BinaryReader.make (Some s) true = Ok r ->
  exists r1 r2 r3 r4,
    BinaryReader.ReadChars n r = (Ok (take (Z.to_nat n) (text_units cps)), r1) /\
    BinaryReader.PeekChar r1 = (Ok (default (-1) (text_units cps !! Z.to_nat n)), r2) /\
    BinaryReader.ReadChars m r2 =
      (Ok (take (Z.to_nat m) (drop (Z.to_nat n) (text_units cps))), r3) /\
    (length (text_units cps) <= n + m ->
     BinaryReader.ReadChar r3 = (Throw BinaryReader.end_of_stream, r4)).
Proof.
  intros Hs Hc Er Hn Hm Em. unfold BinaryReader.make, throw_if in Em. cbn in Em.
  destruct (getCanReadProperty s); [|done]. injection Em as <-.
  set (us := text_units cps).
  assert (Hr : speaks (BinaryReader.Reader s true false false 0) us)
    by (split; [done|]; split; [done|]; by exists cps).
  destruct (ReadChars_runs _ _ n Hr Hn) as (l1 & r1 & E1 & -> & Hr1).
  destruct (PeekChar_runs _ _ Hr1) as (v & r2 & E2 & -> & Hr2).
  destruct (ReadChars_runs _ _ m Hr2 Hm) as (l2 & r3 & E3 & -> & Hr3).
  destruct (TryReadChar_runs _ _ Hr3) as (c & r4 & E4 & -> & Hr4).
  exists r1, r2, r3, r4. split; [done|]. split; [|split; [done|]].
  - rewrite E2. do 3 f_equal. by rewrite head_lookup, lookup_drop, Nat.add_0_r.
  - intros Hl. rewrite drop_drop, drop_ge in E4 by lia. unfold BinaryReader.ReadChar, andthen.
    by rewrite E4.
Qed.

(** An ASCII letter, a letter of two bytes, a sign of three and an emoji of four; the
    first call ends inside its surrogate pair. *)
Definition text : list Z := [0x61; 0xE9; 0x20AC; 0x1F600; 0x7A].
Definition text_stream : MemoryStream.memory := MemoryStream.Memory (text_bytes text) 0 false true.

Lemma BinaryReader_chars_witness :
  text_units text = [0x61; 0xE9; 0x20AC; 0xD83D; 0xDE00; 0x7A] /\
  exists r1 r2 r3 r4,
    BinaryReader.ReadChars 4 (BinaryReader.Reader text_stream true false false 0) = (Ok (take 4 (text_units text)), r1) /\
    BinaryReader.PeekChar r1 = (Ok 0xDE00, r2) /\
    BinaryReader.ReadChars 9 r2 = (Ok [0xDE00; 0x7A], r3) /\
    (length (text_units text) <= 4 + 9 ->
     BinaryReader.ReadChar r3 = (Throw BinaryReader.end_of_stream, r4)).
Proof.
  split; [done|].
  apply (BinaryReader_chars text_stream text 4 9 (BinaryReader.Reader text_stream true false false 0));
    [done | | done | lia | lia | done].
  repeat constructor; unfold is_scalar; lia.
Defined.
